(* ===== verification/_CoqProject ===== *)
-Q . S2P
Prelude.v
Chattr.v
Strings.v
Match.v
Matchcomp.v
Address.v
Base64.v
IpText.v
Bans.v
Numnicks.v
Chain.v
Dlist.v
Plist.v
Hash.v
Destruct.v
Events.v
Members.v
ChanTable.v
Channel.v
Speak.v
Burst.v
IPcheck.v
Dbuf.v
Md5.v
Crule.v
Whowas.v
Tea.v
Ddb.v
DdbFile.v
Mdb.v
Class.v
Msgtab.v
Directory.v
Parse.v
Packet.v
Msgq.v
Monitor.v
Modebuf.v
Modes.v
Modetype.v
Modeline.v
Sync.v
Dns.v
Dnspack.v
