(* ===== verification/Prelude.v ===== *)
(** * Verification of the IRC-Hispano IRC daemon

    ** The program

    The daemon ([ircd/], headers in [include/]) is a single-threaded server of
    an IRC network that speaks the P10 protocol.  An engine reports events of
    sockets, signals and timers to the event system; the bytes of a connection
    are gathered in buffers and cut into lines; a line is parsed into a call
    of a handler, found in a tree of commands; the handlers change the state -
    clients, channels, memberships, bans, nick history, classes - and queue
    messages for other clients and servers, which the event system writes.
    Clients and channels are found through hash tables by name and through
    arrays by numeric; connecting addresses are counted in a registry.  A
    database of registers (nicks, channels, operators ...) is kept by all the
    servers of the network, in memory and on disk, and synchronised when they
    link.

    ** The files and what they model

    Foundations.  This file: characters and C strings (a pointer into a string
    is the suffix it points to), 32-, 16- and 8-bit words, loops as a step
    function that is run with fuel ([loop], with [loop_total] as the rule that
    shows the fuel to be enough).  Chain, Dlist and Plist: the intrusive lists
    of the program as link maps over addresses, singly linked, doubly linked,
    and with pointers back to the pointer that leads to the structure; the
    client files state their invariants with [chain], [dlist] and [reps].

    Text.  Chattr ([table_gen.c], [ircd_chattr.h]): the generator of the tables
    of character classes, run.  Strings ([ircd_string.c]): comparisons,
    splitting, copying.  Match and Matchcomp ([match.c]): masks, their
    meaning [matches], [match], [mmatch], [collapse], and compiled masks.
    Address and IpText ([res.h], [match.c], [ircd_string.c]): IP addresses,
    masks of bits, printing and parsing.  Base64 ([numnicks.c]): the digits of
    numnicks and addresses.

    Tables.  Hash ([hash.c]): CRC hashes, the chained tables of clients,
    channels and monitors, the table of juped nicks.  Numnicks ([numnicks.c]):
    servers and users by numeric.  Directory: the interface ([Class]) of what
    the parser asks of both, with its instance.  Whowas ([whowas.c]): the
    history of nicks.  Class ([class.c], part of [s_conf.c] and
    [ircd_parser.y]): connection classes.  IPcheck ([IPcheck.c]): the registry
    of connecting addresses and its throttle.

    Channels ([channel.c]).  Bans: lists of bans.  Members: the matrix of
    memberships.  Destruct ([destruct_event.c]): scheduled destruction.
    ChanTable: the interface to the table of channels.  Channel: channels,
    joins, parts, kicks, zombies, quits, invitations and the end of empty
    channels.  Speak: who may speak, with the cached answers on bans.  Burst
    (part of [m_burst.c]): net riders.  Modebuf: the buffers in which changes
    of modes are gathered, and the lines they are sent as.  Modes ([channel.c],
    [m_mode.c]): the MODE command, from users and from servers.  Modetype: a
    line of modes is read to its end and keeps the type of a channel's modes.
    Modeline: what a line of modes comes to, as one change of each part of the
    channel.  Sync: the line that a user's server sends, on another server.
    Monitor ([monitor.c], [m_monitor.c]): who is told when a nick appears or
    goes.

    Lines and messages.  Packet ([packet.c]): bytes to lines.  Msgtab
    ([parse.c], [msg.h]): the tree of commands.  Parse ([parse.c]): a line to
    the call of a handler, for clients and servers.  Dbuf ([dbuf.c]): receive
    buffers.  Msgq ([msgq.c]): shared messages and send queues.  Dns and Dnspack
    ([ircd_reslib.c]): names in DNS messages, read and written with their
    compression, names as text, and queries.

    Database.  Tea ([ircd_tea.c]).  Ddb ([ddb.c]): the tables in memory.
    DdbFile ([ddb_db_native.c], [ddb.c]): the files, the bisection, the start.
    Mdb ([m_db.c], [ddb.c]): the DB message and two servers that synchronise.

    The rest.  Events ([ircd_events.c]): generators, timers, sockets and
    signals, with callbacks that are trees of calls of the same interface, and
    the turn of a socket in the loop of an engine as the events it generates.
    Crule ([crule.c]): rules of automatic connections.  Md5 ([ircd_md5.c],
    [random.c]): the digest and the random generator.

    Within a file the operations have the names of the C functions, and the
    helper definitions say in their comments which loop or statement they are.
    State is passed explicitly; [option] is used for what the C code must not
    do (a read out of bounds, a failed assertion, the end of the daemon), and
    the theorems show that it does not happen, or under what it does.

    ** What the theorems show

    Refinement.  A component in memory is shown to implement an abstract one
    for every sequence of operations: channels and memberships as sets
    ([Channel.channels_refine]), tables as maps ([Hash.hash_ops_refine],
    [Ddb.ddb_refines]), the registry of addresses as counters
    ([IPcheck.ip_event_refines]), the nick history as a queue
    ([Whowas.whowas_refines]), buffers and message queues as streams of bytes
    ([Dbuf.dbuf_refines_stream], [Msgq.msgq_refines]), the input of a
    connection as its lines ([Packet.dopacket_lines]).

    Invariants and safety.  The event system under arbitrary callbacks that
    keep to the interface ([Events.events_invariant]: a run is watched for the
    first call that does not), the tables of numerics, the changes of ban
    lists, the command tables, rehashed classes; a line of modes leaves a
    channel well formed, and is read to its end unless it names more modes than
    a buffer of letters holds ([Modetype.mode_lines_typed]); a user without
    rights changes no mode ([Modes.mode_needs_op]); the parsers read nothing
    behind a line and call handlers with the parameters the protocol promises
    ([Parse]); a name in any DNS message is read within bounds
    ([Dns.unpack_safe]); net riders are exactly those kicked ([Burst]).

    Functional behaviour.  Matching and its compiled form, collapsing and
    comparing masks, bans, speaking, address masks, throttling, juped nicks,
    digests against their specification, the bisection and bursts of the
    files.

    Round trips and termination.  Addresses as text, rules printed and parsed,
    commands and parameters, the database across a restart
    ([DdbFile.ddb_restart]), changes of modes flushed as lines and read back
    ([Modebuf.flush_roundtrip], for buffers whose letters fit), names packed
    into messages ([Dnspack.pack_unpack]); timers, parsers and loops end.

    Two servers.  [Mdb.ddb_sync]: a leaf that links ends with the database of
    its hub, whatever the order in which the messages arrive, as long as
    nothing was packed.  [Sync.mode_sync]: two servers end with the same
    channel after a line of modes without bans and passwords.

    Where the code goes wrong, the theorems say so by a condition, and the
    comment of the theorem names it: escaped wildcards after a wildcard in
    [match], the letters of a buffer of modes, IPv6 addresses in which
    the words printed as a double colon are not zero, the counter of an address that overflows, packings
    of the database, errors that an engine reports for sockets it does not
    hold.

    ** Fuel and bounds

    Recursion that is not structural runs on fuel, and each such function has
    a lemma that its fuel is enough: the walk of a chain has the size of the
    link map ([walk_fuel]), the loops of [match], [mmatch] and [matchexec] a
    product or sum of the lengths, the bisection of a file its length, the
    parser of rules the length of the input.  Theorems state that a result is
    given, not only what it is when there is one.  Integers that the code
    stores in 32 bits or less are wrapped where they are stored ([w32], [w16],
    [w8]); sizes and times that are not near their bounds are plain [Z].

    ** What is not modelled

    The operating system and what only calls it: engines, sockets, listeners,
    the resolver above its messages ([ircd_res.c]), TLS, files of logs and messages of the day.  The formatting
    of replies ([ircd_snprintf], the tables of [s_err.c]): what is sent is kept
    as data, where it matters.  The lexer and the grammar of the configuration,
    except for the rules of classes; features and statistics.  The handlers of
    single commands, except DB, MODE, MONITOR and part of BURST: they check
    parameters and call the operations modelled here.  The registration of
    users and their modes, authentication, the links of servers, G-lines and
    jupes: sequences of messages to other programs and servers, of which only
    the data structures they share with the rest are modelled (the lists with
    back pointers in Plist, the tables in Hash and Numnicks).  The manifest
    lists each part with its reason. *)

From Stdlib Require Export Ascii ZArith Lia.
From stdpp Require Export base list gmap strings.
From stdpp Require Import options.



(** ** Characters and C strings

    A [char] is an [ascii] (eight bits, so every value is a character); a
    NUL-terminated string is the list of its characters without the
    terminator, and a [char *] into it is the suffix it points to: reading
    [*p] is [deref p], which yields [NUL] at the end, and [p++] is
    [tail p]. *)
Definition NUL : ascii := "000"%char.

Abbreviation cstring := (list ascii) (only parsing).

Definition deref (p : list ascii) : ascii :=
  match p with
  | [] => NUL
  | c :: _ => c
  end.

(** [p[i]] for an index inside the string or at its terminator. *)
Definition char_at (s : list ascii) (i : nat) : ascii := deref (drop i s).

(** The numeric value of a character as [unsigned char]. *)
Definition code (c : ascii) : Z := Z.of_N (N_of_ascii c).

Definition chr (z : Z) : ascii := ascii_of_N (Z.to_N (z mod 256)).

(** String literals. *)
Definition str (s : string) : list ascii := String.list_ascii_of_string s.

Definition ch_eqb (a b : ascii) : bool := Ascii.eqb a b.

(** A list of characters is a C string when no character is NUL. *)
Definition is_cstr (s : list ascii) : Prop := Forall (fun c => c <> NUL) s.

#[global] Instance is_cstr_dec s : Decision (is_cstr s).
Proof. unfold is_cstr. apply _. Defined.

Declare Scope ircd_scope.
Delimit Scope ircd_scope with ircd.
Notation "c =c d" := (ch_eqb c d) (at level 70) : ircd_scope.
Open Scope ircd_scope.

Lemma ch_eqb_spec a b : reflect (a = b) (a =c b).
Proof. apply Ascii.eqb_spec. Qed.

Lemma ch_eqb_refl a : (a =c a) = true.
Proof. apply Ascii.eqb_refl. Qed.

Lemma ch_eqb_eq a b : (a =c b) = true <-> a = b.
Proof. apply Ascii.eqb_eq. Qed.

Lemma ch_eqb_neq a b : (a =c b) = false <-> a <> b.
Proof. apply Ascii.eqb_neq. Qed.

Lemma code_range c : (0 <= code c < 256)%Z.
Proof. unfold code. pose proof (N_ascii_bounded c). lia. Qed.

Lemma chr_code c : chr (code c) = c.
Proof.
  unfold chr, code. rewrite Z.mod_small by apply code_range.
  rewrite N2Z.id. apply ascii_N_embedding.
Qed.

Lemma code_chr z : (0 <= z < 256)%Z -> code (chr z) = z.
Proof.
  intros Hz. unfold chr, code. rewrite Z.mod_small by lia.
  rewrite N_ascii_embedding by lia. lia.
Qed.

Lemma code_inj a b : code a = code b -> a = b.
Proof. intros H. rewrite <- (chr_code a), <- (chr_code b). by rewrite H. Qed.

Lemma is_cstr_cons c s : is_cstr (c :: s) <-> c <> NUL /\ is_cstr s.
Proof. unfold is_cstr. by rewrite Forall_cons. Qed.

Lemma is_cstr_app s t : is_cstr (s ++ t) <-> is_cstr s /\ is_cstr t.
Proof. unfold is_cstr. by rewrite Forall_app. Qed.

Lemma is_cstr_drop n s : is_cstr s -> is_cstr (drop n s).
Proof. apply Forall_drop. Qed.

Lemma deref_nul s : is_cstr s -> deref s = NUL <-> s = [].
Proof.
  destruct s as [|c s]; simpl; [done|].
  rewrite is_cstr_cons. intros [H _]. split; [done | congruence].
Qed.

(** A property of every character, decided by running through the 256. *)
Ltac all_chars :=
  let c := fresh "c" in
  intros c; destruct c as [[] [] [] [] [] [] [] []]; vm_compute;
  first [reflexivity | congruence | tauto | intuition congruence].

(** Case analysis on the character tests of the goal and the context. *)
Ltac ch_case :=
  match goal with
  | |- context [ch_eqb ?a ?b] => destruct (ch_eqb_spec a b)
  end.

Ltac ch_cases := repeat (ch_case; simpl; try congruence).

(** ** Loops

    A [while (1)] whose body ends in [continue], [break] or [return] is a
    step function on the loop's variables: [inl] is the state of the next
    iteration, [inr] the result.  [loop] runs it with an amount of fuel;
    [loop_total] is the rule for total correctness, with an invariant and a
    variant, that every such model is proved with, so that the fuel given is
    shown to be enough. *)
Section loop.
Context {S R : Type} (step : S -> S + R).

Fixpoint loop (fuel : nat) (s : S) : option R :=
    match fuel with
    | O => None
    | Datatypes.S fuel =>
        match step s with
        | inl s' => loop fuel s'
        | inr r => Some r
        end
    end.

Lemma loop_total (Inv : S -> Prop) (mu : S -> nat) (Q : R -> Prop) :
    (forall s, Inv s ->
       match step s with
       | inl s' => Inv s' /\ mu s' < mu s
       | inr r => Q r
       end) ->
    forall fuel s, Inv s -> mu s < fuel -> exists r, loop fuel s = Some r /\ Q r.
  Proof.
    intros Hstep fuel. induction fuel as [|fuel IH]; intros s Hinv Hmu; [lia|].
    simpl. specialize (Hstep s Hinv). destruct (step s) as [s'|r].
    - destruct Hstep as [Hinv' Hlt]. apply IH; [done | lia].
    - by exists r.
  Qed.

  (** More fuel does not change the result. *)
Lemma loop_more fuel fuel' s r :
    loop fuel s = Some r -> fuel <= fuel' -> loop fuel' s = Some r.
  Proof.
    revert fuel' s. induction fuel as [|fuel IH]; intros fuel' s; [done|].
    destruct fuel' as [|fuel']; intros Hr Hle; [lia|]. simpl in *.
    destruct (step s); [apply IH; [done|lia] | done].
  Qed.
End loop.

(** ** Machine words

    An unsigned 32-bit integer is a [Z] in [0, 2^32): arithmetic wraps. *)
Definition w32 (z : Z) : Z := (z mod 2 ^ 32)%Z.
Definition w16 (z : Z) : Z := (z mod 2 ^ 16)%Z.
Definition w8 (z : Z) : Z := (z mod 2 ^ 8)%Z.

(** Conversion to a signed 32-bit [int] (two's complement). *)
Definition i32 (z : Z) : Z := ((z + 2 ^ 31) mod 2 ^ 32 - 2 ^ 31)%Z.

Lemma w32_range z : (0 <= w32 z < 2 ^ 32)%Z.
Proof. apply Z.mod_pos_bound. lia. Qed.

Lemma w32_small z : (0 <= z < 2 ^ 32)%Z -> w32 z = z.
Proof. apply Z.mod_small. Qed.

Lemma w16_range z : (0 <= w16 z < 2 ^ 16)%Z.
Proof. apply Z.mod_pos_bound. lia. Qed.

Lemma w16_small z : (0 <= z < 2 ^ 16)%Z -> w16 z = z.
Proof. apply Z.mod_small. Qed.

Lemma w8_range z : (0 <= w8 z < 2 ^ 8)%Z.
Proof. apply Z.mod_pos_bound. lia. Qed.

Lemma w8_small z : (0 <= z < 2 ^ 8)%Z -> w8 z = z.
Proof. apply Z.mod_small. Qed.

(** Disjoint bits add up. *)
Lemma lor_shiftl_add x y n :
  (0 <= n -> 0 <= y < 2 ^ n -> Z.lor (Z.shiftl x n) y = x * 2 ^ n + y)%Z.
Proof.
  intros Hn Hy. rewrite <- Z.shiftl_mul_pow2 by done. rewrite <- Z.add_lor_land.
  enough (Z.land (Z.shiftl x n) y = 0)%Z as -> by lia.
  apply Z.bits_inj'. intros k Hk. rewrite Z.land_spec, Z.bits_0.
  destruct (Z.ltb_spec k n).
  - by rewrite Z.shiftl_spec_low.
  - rewrite <- (Z.mod_small y (2 ^ n)) by lia.
    rewrite Z.mod_pow2_bits_high by lia. apply andb_false_r.
Qed.

Create HintDb ircd.
Create Rewrite HintDb ircd_rw.
#[export] Hint Resolve is_cstr_drop : ircd.
#[export] Hint Resolve w32_range w16_range w8_range : ircd.
#[export] Hint Rewrite chr_code ch_eqb_refl : ircd_rw.
