(* ===== verification/Chattr.v ===== *)
(** * Character tables

    [ircd/table_gen.c] computes the three tables that [chattr.tab.c] holds
    (lower case, upper case, attribute bits); the macros of
    [include/ircd_chattr.h] index them.  The generator is modelled, not its
    output: [makeTables] is the C function of that name run on the three
    arrays, and the tables the rest of the development uses are its result. *)
From S2P Require Import Prelude.
Local Open Scope Z_scope.

(** ** Attribute bits ([include/ircd_chattr.h]) *)
Definition NTL_ALNUM := 0x0001.
Definition NTL_ALPHA := 0x0002.
Definition NTL_CNTRL := 0x0004.
Definition NTL_DIGIT := 0x0008.
Definition NTL_GRAPH := 0x0010.
Definition NTL_LOWER := 0x0020.
Definition NTL_PRINT := 0x0040.
Definition NTL_PUNCT := 0x0080.
Definition NTL_SPACE := 0x0100.
Definition NTL_UPPER := 0x0200.
Definition NTL_IRCCH := 0x0400.
Definition NTL_IRCCL := 0x0800.
Definition NTL_IRCNK := 0x1000.
Definition NTL_IRCUI := 0x2000.
Definition NTL_IRCHN := 0x4000.
Definition NTL_IRCIP := 0x8000.
Definition NTL_EOL := 0x10000.
Definition NTL_KTIME := 0x20000.
Definition NTL_CHPFX := 0x40000.
Definition NTL_IRCIP6 := 0x80000.

(** ** The generator ([ircd/table_gen.c])

    The arrays are indexed by [c - CHAR_MIN], one entry per value of
    [char]; here the entry of a character is found by its [unsigned char]
    value, so that the tables do not depend on the signedness of [char]. *)
Record tables := Tables {
  NTL_tolower_tab : list ascii;
  NTL_toupper_tab : list ascii;
  NTL_char_attrib : list Z
}.

Definition all_codes : list Z := seqZ 0 256.

Definition zeroTables : tables :=
  Tables (map chr all_codes) (map chr all_codes) (map (fun _ => 0) all_codes).

Definition idx (c : ascii) : nat := Z.to_nat (code c).

Definition set_attr (f : Z -> Z) (c : ascii) (t : tables) : tables :=
  Tables (NTL_tolower_tab t) (NTL_toupper_tab t)
    (alter f (idx c) (NTL_char_attrib t)).

Definition markString (macro : Z) (s : list ascii) (t : tables) : tables :=
  fold_left (fun t c => set_attr (fun a => Z.lor a macro) c t) s t.

Definition unMarkString (macro : Z) (s : list ascii) (t : tables) : tables :=
  fold_left (fun t c => set_attr (fun a => Z.land a (Z.lnot macro)) c t) s t.

Definition markRange (macro : Z) (from to : ascii) (t : tables) : tables :=
  fold_left (fun t i =>
      if (code from <=? i) && (i <=? code to)
      then set_attr (fun a => Z.lor a macro) (chr i) t else t)
    all_codes t.

Definition moveMacro (from to : Z) (t : tables) : tables :=
  fold_left (fun t i =>
      if negb (Z.land (default 0 (NTL_char_attrib t !! Z.to_nat i)) from =? 0)
      then set_attr (fun a => Z.lor a to) (chr i) t else t)
    all_codes t.

Definition setLowHi (firstlow lastlow firsthi : ascii) (t : tables) : tables :=
  fold_left (fun t i =>
      if (code firstlow <=? i) && (i <=? code lastlow)
      then let j := chr (i + (code firsthi - code firstlow)) in
           Tables (<[idx j := chr i]> (NTL_tolower_tab t))
                  (<[Z.to_nat i := j]> (NTL_toupper_tab t))
                  (NTL_char_attrib t)
      else t)
    all_codes t.

(** The double quote of the string literal of the source. *)
Definition dquote : ascii := chr 34.

Definition makeTables : tables :=
  let t := zeroTables in
  let t := markRange NTL_LOWER "a" "z" t in
  let t := markString NTL_LOWER (str "{|}~") t in
  let t := markRange NTL_UPPER "A" "Z" t in
  let t := markString NTL_UPPER (str "[\]^") t in
  let t := markRange NTL_DIGIT "0" "9" t in
  let t := markRange NTL_CNTRL "000" "031" t in
  let t := markString NTL_PUNCT
             (str "!" ++ dquote :: str "#$%&'()*+,-./:;<=>?@_`") t in
  let t := markString NTL_SPACE (map chr [9; 10; 11; 12; 13; 32]) t in
  let t := moveMacro (Z.lor NTL_LOWER NTL_UPPER) NTL_ALPHA t in
  let t := moveMacro (Z.lor NTL_ALPHA NTL_DIGIT) NTL_ALNUM t in
  let t := moveMacro (Z.lor NTL_ALNUM NTL_PUNCT) NTL_GRAPH t in
  let t := moveMacro NTL_GRAPH NTL_PRINT t in
  let t := markString NTL_PRINT (str " ") t in
  let t := markRange NTL_IRCCH (chr 33) (chr 255) t in
  let t := unMarkString NTL_IRCCH (map chr [44; 160]) t in
  let t := markRange NTL_IRCCL (chr 192) (chr 214) t in
  let t := markRange NTL_IRCCL (chr 216) (chr 222) t in
  let t := moveMacro NTL_ALNUM NTL_IRCHN t in
  let t := markString NTL_IRCHN (str "-_.") t in
  let t := moveMacro NTL_DIGIT NTL_IRCIP t in
  let t := markString NTL_IRCIP (str ".") t in
  let t := moveMacro NTL_DIGIT NTL_IRCIP6 t in
  let t := markString NTL_IRCIP6 (str ":.ABCDEFabcdef") t in
  let t := moveMacro (Z.lor NTL_DIGIT NTL_ALPHA) NTL_IRCNK t in
  let t := markString NTL_IRCNK (str "-_`") t in
  let t := moveMacro NTL_ALNUM NTL_IRCUI t in
  let t := markRange NTL_IRCUI (chr 0xe0) (chr 0xf6) t in
  let t := markRange NTL_IRCUI (chr 0xf8) (chr 0xfe) t in
  let t := markRange NTL_IRCUI (chr 0xc0) (chr 0xd6) t in
  let t := markRange NTL_IRCUI (chr 0xd8) (chr 0xde) t in
  let t := markString NTL_IRCUI (str ".-_^'`~") t in
  let t := markString NTL_EOL (map chr [10; 13]) t in
  let t := markString NTL_CHPFX (str "#&") t in
  let t := markString NTL_KTIME (str " ,-0123456789") t in
  let t := setLowHi "a" "z" "A" t in
  let t := setLowHi (chr 0xe0) (chr 0xf6) (chr 0xc0) t in
  let t := setLowHi (chr 0xf8) (chr 0xfe) (chr 0xd8) t in
  setLowHi "{" "~" "[" t.

(** ** The tables and the macros ([include/ircd_chattr.h]) *)
Definition ToLowerTab_8859_1 : list ascii :=
  Eval vm_compute in NTL_tolower_tab makeTables.
Definition ToUpperTab_8859_1 : list ascii :=
  Eval vm_compute in NTL_toupper_tab makeTables.
Definition IRCD_CharAttrTab : list Z :=
  Eval vm_compute in NTL_char_attrib makeTables.

Definition ToLower (c : ascii) : ascii := nth (idx c) ToLowerTab_8859_1 c.
Definition ToUpper (c : ascii) : ascii := nth (idx c) ToUpperTab_8859_1 c.

Definition char_attr (c : ascii) : Z := nth (idx c) IRCD_CharAttrTab 0.

Definition has_attr (mask : Z) (c : ascii) : bool :=
  negb (Z.land (char_attr c) mask =? 0).

Definition IsAlnum := has_attr NTL_ALNUM.
Definition IsAlpha := has_attr NTL_ALPHA.
Definition IsDigit := has_attr NTL_DIGIT.
Definition IsLower := has_attr NTL_LOWER.
Definition IsSpace := has_attr NTL_SPACE.
Definition IsUpper := has_attr NTL_UPPER.
Definition IsCntrl := has_attr NTL_CNTRL.
Definition IsChannelChar := has_attr NTL_IRCCH.
Definition IsChannelLower := has_attr NTL_IRCCL.
Definition IsChannelPrefix := has_attr NTL_CHPFX.
Definition IsNickChar := has_attr NTL_IRCNK.
Definition IsUserChar := has_attr NTL_IRCUI.
Definition IsHostChar := has_attr NTL_IRCHN.
Definition IsIPChar := has_attr NTL_IRCIP.
Definition IsIP6Char := has_attr NTL_IRCIP6.
Definition IsEol := has_attr NTL_EOL.
Definition IsKTimeChar := has_attr NTL_KTIME.

(** ** Facts of the tables *)
Lemma tables_ok :
  ToLowerTab_8859_1 = NTL_tolower_tab makeTables /\
  ToUpperTab_8859_1 = NTL_toupper_tab makeTables /\
  IRCD_CharAttrTab = NTL_char_attrib makeTables.
Proof. vm_compute. repeat split; reflexivity. Qed.

Lemma ToLower_idem : forall c, ToLower (ToLower c) = ToLower c.
Proof. all_chars. Qed.

Lemma ToLower_ToUpper : forall c, ToLower (ToUpper c) = ToLower c.
Proof. all_chars. Qed.

Lemma ToLower_nul : forall c, ToLower c = NUL <-> c = NUL.
Proof. all_chars. Qed.

Lemma ToLower_star : forall c, ToLower c = "*"%char <-> c = "*"%char.
Proof. all_chars. Qed.

Lemma ToLower_qmark : forall c, ToLower c = "?"%char <-> c = "?"%char.
Proof. all_chars. Qed.

Lemma ToLower_not_A : forall c, ToLower c <> "A"%char.
Proof. all_chars. Qed.

Lemma ToLower_not_Z : forall c, ToLower c <> "Z"%char.
Proof. all_chars. Qed.

Lemma IsDigit_code : forall c, IsDigit c = (48 <=? code c) && (code c <=? 57).
Proof. all_chars. Qed.

Lemma IsEol_spec : forall c, IsEol c = (code c =? 10) || (code c =? 13).
Proof. all_chars. Qed.

#[export] Hint Rewrite ToLower_idem ToLower_ToUpper : ircd_rw.
