(* ===== verification/Strings.v ===== *)
(** * String utilities ([ircd/ircd_string.c])

    Case-insensitive comparison and the functions that split a delimited
    list.  Functions that write terminators into their input buffer and hand
    out pointers into it are modelled by the strings those pointers denote. *)
From S2P Require Import Prelude Chattr.

(** ** Comparison *)

(** The value of a [char], which is signed on the targets of the daemon. *)
Definition char_val (c : ascii) : Z := if (code c <? 128)%Z then code c else (code c - 256)%Z.

Fixpoint ircd_strcmp (a b : cstring) : Z :=
  match a with
  | [] => (0 - char_val (ToLower (deref b)))%Z
  | x :: a' =>
      if ToLower x =c ToLower (deref b) then ircd_strcmp a' (tail b)
      else (char_val (ToLower x) - char_val (ToLower (deref b)))%Z
  end.

(** [n] is the number of characters still to compare. *)
Fixpoint ircd_strncmp (a b : cstring) (n : nat) : Z :=
  match n with
  | O => 0
  | S n =>
      match a with
      | [] => (0 - char_val (ToLower (deref b)))%Z
      | x :: a' =>
          if ToLower x =c ToLower (deref b) then ircd_strncmp a' (tail b) n
          else (char_val (ToLower x) - char_val (ToLower (deref b)))%Z
      end
  end.

(** The string the output buffer holds; [n + 1] bytes of it are written. *)
Definition ircd_strncpy (s2 : cstring) (n : nat) : cstring := take n s2.

Definition host_from_uh (userhost : cstring) (len : nat) : cstring :=
  let fix after_at (s : cstring) : option cstring :=
    match s with
    | [] => None
    | c :: s' => if c =c "@" then Some s' else after_at s'
    end in
  ircd_strncpy (match after_at userhost with Some s => s | None => userhost end) len.

Fixpoint string_has_wildcards (s : cstring) : bool :=
  match s with
  | [] => false
  | c :: s' =>
      if c =c "\" then
        match s' with
        | [] => false
        | _ :: s'' => string_has_wildcards s''
        end
      else if (c =c "*") || (c =c "?") then true
      else string_has_wildcards s'
  end.

(** ** Splitting *)

(** [while (token == *p) ++p;] *)
Fixpoint skip_token (token : ascii) (p : cstring) : cstring :=
  match p with
  | c :: p' => if c =c token then skip_token token p' else p
  | [] => []
  end.

(** [strchr(p, token)]: what is before the first [token] and what is after
    it, when there is one. *)
Fixpoint split_at (token : ascii) (p : cstring) : cstring * option cstring :=
  match p with
  | [] => ([], None)
  | c :: p' =>
      if c =c token then ([], Some p')
      else let '(w, r) := split_at token p' in (c :: w, r)
  end.

Definition strcmp_eqb (a b : cstring) : bool := (ircd_strcmp a b =? 0)%Z.

Definition known (v : list cstring) (s : cstring) : bool := existsb (fun t => strcmp_eqb t s) v.

(** The loop of [unique_name_vector]: [vector] holds the entries written so
    far.  One round per delimiter, so as many as the string is long. *)
Fixpoint unique_loop (n : nat) (start : cstring) (token : ascii) (vector : list cstring)
    (size : nat) : list cstring :=
  match n with
  | O => vector
  | S n =>
      match split_at token start with
      | (w, Some e) =>
          let e := skip_token token e in
          if known vector w then unique_loop n e token vector size
          else
            let vector := vector ++ [w] in
            if length vector =? size then vector else unique_loop n e token vector size
      | (w, None) =>
          match w with
          | [] => vector
          | _ => if known vector w then vector else vector ++ [w]
          end
      end
  end.

Definition unique_name_vector (names : cstring) (token : ascii) (size : nat) : list cstring :=
  unique_loop (S (length names)) (skip_token token names) token [] size.

Fixpoint token_loop (n : nat) (start : cstring) (token : ascii) (vector : list cstring)
    (size : nat) : list cstring :=
  match n with
  | O => vector
  | S n =>
      match split_at token start with
      | (_, Some e) =>
          match e with
          | [] => vector
          | _ =>
              let vector := vector ++ [fst (split_at token e)] in
              if length vector <? size then token_loop n e token vector size else vector
          end
      | (_, None) => vector
      end
  end.

Definition token_vector (names : cstring) (token : ascii) (size : nat) : list cstring :=
  token_loop (S (length names)) names token [fst (split_at token names)] size.

(** [ircd_strtok] from a saved position: the next token and the new position
    ([None]: no token is left; the position is null at the end). *)
Fixpoint skip_seps (fs : cstring) (p : cstring) : cstring :=
  match p with
  | c :: p' => if existsb (fun d => c =c d) fs then skip_seps fs p' else p
  | [] => []
  end.

Fixpoint take_token (fs : cstring) (p : cstring) : cstring * option cstring :=
  match p with
  | [] => ([], None)
  | c :: p' =>
      if existsb (fun d => c =c d) fs then ([], Some p')
      else let '(w, r) := take_token fs p' in (c :: w, r)
  end.

Definition ircd_strtok (pos : option cstring) (fs : cstring) : option (cstring * option cstring) :=
  match pos with
  | None => None
  | Some p =>
      match skip_seps fs p with
      | [] => None
      | p => Some (take_token fs p)
      end
  end.

(** [canonize]: the tokens already copied to the output buffer are [kept];
    the buffer is their comma-separated list. *)
Fixpoint canonize_loop (n : nat) (pos : option cstring) (kept : list cstring) : list cstring :=
  match n with
  | O => kept
  | S n =>
      match ircd_strtok pos (str ",") with
      | None => kept
      | Some (s, p) =>
          canonize_loop n p
            (if existsb (fun t => (ircd_strcmp s t =? 0)%Z) kept then kept else kept ++ [s])
      end
  end.

Fixpoint join_comma (l : list cstring) : cstring :=
  match l with
  | [] => []
  | [s] => s
  | s :: l' => s ++ ","%char :: join_comma l'
  end.

Definition canonize (buffer : cstring) : cstring :=
  join_comma (canonize_loop (S (length buffer)) (Some buffer) []).

Example unique_ex : unique_name_vector (str ",#a,,#b,#A,#c,#d") ","%char 3 = map str ["#a"; "#b"; "#c"]%string.
Proof. reflexivity. Qed.
Example token_ex :
  token_vector (str "a,b,,c") ","%char 5 = [str "a"; str "b"; []; str "c"].
Proof. reflexivity. Qed.
Example canonize_ex : canonize (str "x,y,X,,z,y") = str "x,y,z".
Proof. reflexivity. Qed.

(** ** Comparison is equality up to case *)
Definition lower (s : cstring) : cstring := map ToLower s.

Lemma char_val_inj a b : char_val a = char_val b -> a = b.
Proof.
  unfold char_val. intros H. apply code_inj.
  pose proof (code_range a). pose proof (code_range b).
  destruct (Z.ltb_spec (code a) 128), (Z.ltb_spec (code b) 128); lia.
Qed.

Lemma char_val_nul : char_val NUL = 0%Z.
Proof. reflexivity. Qed.

Lemma ircd_strcmp_lower a b :
  is_cstr a -> is_cstr b -> ircd_strcmp a b = 0%Z <-> lower a = lower b.
Proof.
  revert b. induction a as [|x a IH]; intros b Ha Hb; simpl.
  - split.
    + intros H. destruct b as [|y b]; [done|]. apply is_cstr_cons in Hb as [Hy _]. simpl in H.
      exfalso. apply Hy, ToLower_nul, char_val_inj. rewrite char_val_nul. lia.
    + intros H. by destruct b.
  - apply is_cstr_cons in Ha as [Hx Ha]. destruct b as [|y b]; simpl.
    + rewrite (proj2 (ToLower_nul NUL) eq_refl).
      destruct (ch_eqb_spec (ToLower x) NUL) as [He|He]; [by apply (proj1 (ToLower_nul _)) in He|].
      split; [|done]. intros H. exfalso. apply He, char_val_inj. lia.
    + apply is_cstr_cons in Hb as [Hy Hb].
      destruct (ch_eqb_spec (ToLower x) (ToLower y)) as [He|He].
      * rewrite IH by done. rewrite He. split; [by intros -> | by intros [= ->]].
      * split; [|by intros [= ? ?]]. intros H. exfalso. apply He, char_val_inj. lia.
Qed.


(** Equality up to case as the code tests it is an equivalence. *)
Lemma strcmp_eqb_lower a b : is_cstr a -> is_cstr b -> strcmp_eqb a b = true <-> lower a = lower b.
Proof. intros Ha Hb. unfold strcmp_eqb. rewrite Z.eqb_eq. by apply ircd_strcmp_lower. Qed.

Lemma strcmp_eqb_refl a : strcmp_eqb a a = true.
Proof.
  unfold strcmp_eqb. induction a as [|x a IH]; simpl.
  - done.
  - by rewrite ch_eqb_refl.
Qed.

(** ** [unique_name_vector] against its specification *)

(** The pieces between delimiters, empty ones included. *)
Fixpoint pieces (token : ascii) (s : cstring) : list cstring :=
  match s with
  | [] => [[]]
  | c :: s' =>
      if c =c token then [] :: pieces token s'
      else match pieces token s' with
           | w :: r => (c :: w) :: r
           | [] => [[c]]
           end
  end.

Definition nonempty (w : cstring) : bool := match w with [] => false | _ => true end.

Definition words (token : ascii) (s : cstring) : list cstring :=
  List.filter nonempty (pieces token s).

(** The first occurrence of each word, [v] being known already. *)
Fixpoint uniq (v ws : list cstring) : list cstring :=
  match ws with
  | [] => v
  | w :: ws => if known v w then uniq v ws else uniq (v ++ [w]) ws
  end.

Lemma uniq_prefix v ws : exists r, uniq v ws = v ++ r.
Proof.
  revert v. induction ws as [|w ws IH]; intros v; simpl; [exists []; by rewrite app_nil_r|].
  destruct (known v w); [apply IH|]. destruct (IH (v ++ [w])) as [r ->].
  exists ([w] ++ r). by rewrite app_assoc.
Qed.

Lemma split_at_pieces token s :
  match split_at token s with
  | (w, Some e) => pieces token s = w :: pieces token e /\ length e < length s /\
      (w = [] -> deref s = token)
  | (w, None) => pieces token s = [w] /\ w = s
  end.
Proof.
  induction s as [|c s IH]; simpl; [done|].
  destruct (ch_eqb_spec c token) as [->|Hc]; [by split_and!; auto; simpl; try lia|].
  destruct (split_at token s) as [w [e|]].
  - destruct IH as (-> & Hl & _). split_and!; auto; try lia; done.
  - by destruct IH as [-> ->].
Qed.

Lemma words_skip token s : words token (skip_token token s) = words token s.
Proof.
  induction s as [|c s IH]; simpl; [done|].
  destruct (ch_eqb_spec c token) as [->|Hc]; [|done].
  rewrite IH. unfold words. simpl. by rewrite ch_eqb_refl.
Qed.

Lemma skip_token_head token s : skip_token token s = [] \/ deref (skip_token token s) <> token.
Proof.
  induction s as [|c s IH]; simpl; [by left|].
  destruct (ch_eqb_spec c token) as [->|Hc]; [done|by right].
Qed.

Lemma skip_token_length token s : length (skip_token token s) <= length s.
Proof. induction s as [|c s IH]; simpl; [lia|]. destruct (c =c token); simpl; lia. Qed.

Lemma take_uniq_full v ws : take (length v) (uniq v ws) = v.
Proof. destruct (uniq_prefix v ws) as [r ->]. apply take_app_length. Qed.

Lemma unique_loop_spec n start token v size :
  length start < n -> start = [] \/ deref start <> token -> length v < size ->
  unique_loop n start token v size = take size (uniq v (words token start)).
Proof.
  revert start v. induction n as [|n IH]; intros start v Hn Hhd Hv; [lia|].
  cbn [unique_loop]. pose proof (split_at_pieces token start) as Hp.
  destruct (split_at token start) as [w [e|]].
  - destruct Hp as (Hp & Hl & Hw). unfold words. rewrite Hp. cbn [List.filter].
    assert (nonempty w = true) as ->.
    { destruct w; [|done]. destruct Hhd as [->|Hhd]; [simpl in Hl; lia|]. by destruct (Hhd (Hw eq_refl)). }
    cbn [uniq]. fold (words token e). rewrite <- (words_skip token e).
    pose proof (skip_token_length token e). pose proof (skip_token_head token e).
    destruct (known v w); [apply IH; auto; lia|].
    destruct (Nat.eqb_spec (length (v ++ [w])) size) as [<-|Hsz].
    + by rewrite take_uniq_full.
    + apply IH; auto; [lia|]. rewrite length_app in *. simpl in *. lia.
  - destruct Hp as [Hp ->]. unfold words. rewrite Hp. cbn [List.filter].
    destruct start as [|c s]; simpl.
    + by rewrite take_ge by lia.
    + destruct (known v (c :: s)); rewrite take_ge; auto; [lia|].
      rewrite length_app. simpl. lia.
Qed.

Lemma known_in v w : known v w = true <-> exists t, In t v /\ strcmp_eqb t w = true.
Proof. unfold known. by rewrite existsb_exists. Qed.

(** [unique_name_vector] returns the distinct non-empty names of the
    list, in order, up to the size of the vector; no two of them are equal up
    to case. *)
Theorem unique_name_vector_spec names token size :
  0 < size -> is_cstr names ->
  let r := unique_name_vector names token size in
  r = take size (uniq [] (words token names)) /\ NoDup (map lower r).
Proof.
  intros Hsize Hc. cbv zeta.
  assert (unique_name_vector names token size = take size (uniq [] (words token names))) as ->.
  { unfold unique_name_vector. rewrite <- (words_skip token names).
    pose proof (skip_token_length token names).
    apply unique_loop_spec; simpl; auto; [lia | apply skip_token_head]. }
  split; [done|].
  assert (forall ws v, Forall is_cstr ws -> Forall is_cstr v -> NoDup (map lower v) ->
            NoDup (map lower (uniq v ws))) as Huniq.
  { clear. induction ws as [|w ws IH]; intros v Hws Hv Hnd; [done|]. simpl.
    rewrite Forall_cons in Hws. destruct Hws as [Hw Hws].
    destruct (known v w) eqn:Hk; [by apply IH|].
    apply IH; auto; [by rewrite Forall_app, Forall_singleton|].
    rewrite map_app. apply NoDup_app. split; [done|]. split; [|apply NoDup_singleton].
    intros x Hx Hin. simpl in Hin. apply list_elem_of_singleton in Hin as ->.
    apply list_elem_of_In, in_map_iff in Hx as (t & Ht & Hin).
    assert (is_cstr t) as Hct by (by rewrite Forall_forall in Hv; apply Hv, list_elem_of_In).
    enough (known v w = true) by congruence. apply known_in. exists t. split; [done|].
    by apply strcmp_eqb_lower. }
  assert (Forall is_cstr (words token names)) as Hw.
  { unfold words. apply Forall_forall. intros w Hw. apply list_elem_of_In, filter_In in Hw as [Hw _].
    revert w Hw. induction names as [|c s IH]; simpl; [by intros w [<-|]; [constructor|]|].
    apply is_cstr_cons in Hc as [Hc0 Hc]. specialize (IH Hc). intros w.
    destruct (c =c token).
    - intros [<-|Hw]; [constructor|]. by apply IH.
    - destruct (pieces token s) as [|p r]; intros [<-|Hw]; try done.
      + by repeat constructor.
      + apply is_cstr_cons. split; [done|]. apply IH. by left.
      + apply IH. by right. }
  rewrite <- firstn_map.
  specialize (Huniq (words token names) [] Hw ltac:(constructor) ltac:(constructor)).
  rewrite <- (take_drop size (map lower (uniq [] (words token names)))) in Huniq.
  by apply NoDup_app in Huniq as [Huniq _].
Qed.

(** [token_vector] does keep empty tokens, its documentation notwithstanding. *)
Lemma token_vector_keeps_empty :
  token_vector (str ",a") ","%char 5 = [[]; str "a"].
Proof. reflexivity. Qed.

Lemma unique_name_vector_spec_witness :
  let r := unique_name_vector (str "#a,,#A,#b") ","%char 2 in
  r = take 2 (uniq [] (words ","%char (str "#a,,#A,#b"))) /\ NoDup (map lower r).
Proof.
  apply (unique_name_vector_spec (str "#a,,#A,#b") ","%char 2); [lia|].
  by apply (bool_decide_unpack _).
Defined.

(** [ircd_strtok] with a single separator goes through the words. *)
Definition words_opt (token : ascii) (p : option cstring) : list cstring :=
  match p with None => [] | Some s => words token s end.

Definition pos_len (p : option cstring) : nat := match p with None => 0 | Some s => S (length s) end.

Lemma skip_seps_token token p : skip_seps [token] p = skip_token token p.
Proof. induction p as [|c p IH]; simpl; [done|]. rewrite IH. by destruct (c =c token). Qed.

Lemma take_token_pieces token p :
  pieces token p = fst (take_token [token] p) ::
    match snd (take_token [token] p) with None => [] | Some r => pieces token r end /\
  pos_len (snd (take_token [token] p)) <= length p.
Proof.
  induction p as [|c p IH]; simpl; [done|].
  destruct (c =c token); simpl; [split; [done|lia]|].
  destruct (take_token [token] p) as [w r]. simpl in *. destruct IH as [-> IH]. split; [done|lia].
Qed.

Lemma ircd_strtok_words token p :
  match ircd_strtok p [token] with
  | None => words_opt token p = []
  | Some (w, p') => words_opt token p = w :: words_opt token p' /\ w <> [] /\ pos_len p' < pos_len p
  end.
Proof.
  destruct p as [p|]; [|done]. simpl. rewrite skip_seps_token.
  pose proof (words_skip token p) as Hw. pose proof (skip_token_length token p) as Hl.
  destruct (skip_token_head token p) as [Hs|Hs].
  - rewrite Hs in *. by rewrite <- Hw.
  - destruct (skip_token token p) as [|c s] eqn:E; [by rewrite <- Hw|]. rewrite <- Hw.
    destruct (take_token_pieces token (c :: s)) as [Hp Hn].
    unfold words. rewrite Hp. simpl in *. apply ch_eqb_neq in Hs. rewrite Hs in *. simpl in *.
    destruct (take_token [token] s) as [w r]. simpl in *.
    split; [by destruct r|]. split; [done|lia].
Qed.
