(* ===== verification/Match.v ===== *)
(** * Wildcard masks ([ircd/match.c])

    [match_] is [match()], [mmatch] and [collapse] the functions of the same
    names.  Pointers into a mask or a name are the suffixes they point to.
    What a mask means is [matches]: the tokens of the mask ([tokens]) against
    the characters of the name. *)
From S2P Require Import Prelude Chattr.

(** ** The meaning of a mask *)
Inductive token :=
  | TStar
  | TAny
  | TChr (c : ascii).

#[global] Instance token_eq_dec : EqDecision token.
Proof. solve_decision. Defined.

Definition is_wild (c : ascii) : bool := (c =c "*") || (c =c "?").

(** A backslash escapes the wildcard that follows it; any other backslash
    stands for itself. *)
Fixpoint tokens (m : cstring) : list token :=
  match m with
  | [] => []
  | c :: m' =>
      if c =c "*" then TStar :: tokens m'
      else if c =c "?" then TAny :: tokens m'
      else if c =c "\" then
        match m' with
        | d :: m'' => if is_wild d then TChr d :: tokens m'' else TChr c :: tokens m'
        | [] => [TChr c]
        end
      else TChr c :: tokens m'
  end.

Inductive matches : list token -> cstring -> Prop :=
  | matches_nil : matches [] []
  | matches_star ts s1 s2 : matches ts s2 -> matches (TStar :: ts) (s1 ++ s2)
  | matches_any ts c s : matches ts s -> matches (TAny :: ts) (c :: s)
  | matches_chr ts c d s :
      ToLower c = ToLower d -> matches ts s -> matches (TChr c :: ts) (d :: s).

#[export] Hint Constructors matches : ircd.

(** [true] when no escaped wildcard comes directly after a wildcard. *)
Fixpoint esc_ok (wild : bool) (m : cstring) : bool :=
  match m with
  | [] => true
  | c :: m' =>
      if is_wild c then esc_ok true m'
      else if c =c "\" then
        match m' with
        | d :: m'' => if is_wild d then negb wild && esc_ok false m'' else esc_ok false m'
        | [] => true
        end
      else esc_ok false m'
  end.

(** ** [match()] *)
Section match_.
Variable mask : cstring.

  (** The variables of the loop: [m], [n], [m_tmp], [n_tmp]. *)
Record mstate := MState {
    ms_m : cstring; ms_n : cstring; ms_m_tmp : cstring; ms_n_tmp : cstring
  }.

  (** [None] is a read past the terminator of the name. *)
Definition backtrack (st : mstate) : mstate + option Z :=
    if length (ms_m_tmp st) =? length mask then inr (Some 1%Z)
    else
      match ms_n_tmp st with
      | [] => inr None
      | _ :: n_tmp =>
          if deref n_tmp =c NUL then inr (Some 1%Z)
          else inl (MState (ms_m_tmp st) n_tmp (ms_m_tmp st) n_tmp)
      end.

  (** [for (star_p = 0; ; m++)]: the run of wildcards at [m]; [None] is the
      jump to [backtrack] when a ['?'] has no character to eat. *)
Fixpoint scan_wild (m n : cstring) (star_p : bool) : option (cstring * cstring * bool) :=
    match m with
    | [] => Some ([], n, star_p)
    | c :: m' =>
        if c =c "*" then scan_wild m' n true
        else if c =c "?" then
          match n with
          | [] => None
          | _ :: n' => scan_wild m' n' star_p
          end
        else Some (m, n, star_p)
    end.

  (** [for (n_tmp = n; *n && ToLower( *n) != ToLower( *m); n++)] *)
Fixpoint seek (c : ascii) (n : cstring) : cstring :=
    match n with
    | [] => []
    | d :: n' => if ToLower d =c ToLower c then n else seek c n'
    end.

Definition normal_character (st : mstate) : mstate + option Z :=
    let '(MState m n m_tmp n_tmp) := st in
    match n with
    | [] => inr (Some (if deref m =c NUL then 0 else 1)%Z)
    | d :: n' =>
        if ToLower (deref m) =c ToLower d
        then inl (MState (tail m) n' m_tmp n_tmp)
        else backtrack st
    end.

Definition match_step (st : mstate) : mstate + option Z :=
    let '(MState m n m_tmp n_tmp) := st in
    match m with
    | [] => if deref n =c NUL then inr (Some 0%Z) else backtrack st
    | c :: m' =>
        if c =c "\" then
          normal_character
            (if is_wild (deref m') then MState m' n m_tmp n_tmp else st)
        else if is_wild c then
          match scan_wild m n false with
          | None => backtrack st
          | Some (m, n, star_p) =>
              if star_p then
                match m with
                | [] => inr (Some 0%Z)
                | c :: _ => normal_character (MState m (seek c n) m n)
                end
              else normal_character (MState m n m_tmp n_tmp)
          end
        else normal_character st
    end.
End match_.

Definition match_fuel (mask name : cstring) : nat :=
  S (S (length name) * S (length mask) + length mask).

Definition match_ (mask name : cstring) : option (option Z) :=
  loop (match_step mask) (match_fuel mask name) (MState mask name mask name).

Example match_ex1 : match_ (str "*a?c*") (str "xxabbAbcd") = Some (Some 0%Z).
Proof. reflexivity. Qed.
Example match_ex2 : match_ (str "*a?c") (str "xxabbAbcd") = Some (Some 1%Z).
Proof. reflexivity. Qed.
Example match_ex3 : match_ (str "*\*") (str "a*") = Some (Some 1%Z).
Proof. reflexivity. Qed.
Example match_ex4 : match_ (str "a\*") (str "a*") = Some (Some 0%Z).
Proof. reflexivity. Qed.

(** ** Facts of the meaning of masks *)
Lemma matches_nil_inv s : matches [] s <-> s = [].
Proof. split; [by inversion 1 | intros ->; constructor]. Qed.

Lemma matches_any_inv ts s :
  matches (TAny :: ts) s <-> exists c s', s = c :: s' /\ matches ts s'.
Proof.
  split; [inversion 1; subst; eauto | intros (c & s' & -> & H); eauto with ircd].
Qed.

Lemma matches_chr_inv ts c s :
  matches (TChr c :: ts) s <->
  exists d s', s = d :: s' /\ ToLower c = ToLower d /\ matches ts s'.
Proof.
  split; [inversion 1; subst; eauto |].
  intros (d & s' & -> & He & H). eauto with ircd.
Qed.

Lemma matches_star_inv ts s :
  matches (TStar :: ts) s <-> exists k, matches ts (drop k s).
Proof.
  split.
  - inversion 1 as [|? s1 s2 H' | |]; subst. exists (length s1).
    by rewrite drop_app_length.
  - intros [k H]. rewrite <- (take_drop k s). by constructor.
Qed.

Lemma matches_star_drop ts k s : matches (TStar :: ts) (drop k s) -> matches (TStar :: ts) s.
Proof.
  rewrite !matches_star_inv. intros [j H]. exists (k + j). by rewrite <- drop_drop.
Qed.

Lemma matches_star_cons ts c s :
  matches (TStar :: ts) (c :: s) <-> matches ts (c :: s) \/ matches (TStar :: ts) s.
Proof.
  rewrite !matches_star_inv. split.
  - intros [[|k] H]; [by left | right; by exists k].
  - intros [H|[k H]]; [by exists 0 | by exists (S k)].
Qed.

Definition non_star (t : token) : Prop := t <> TStar.

(** A pattern without stars eats one character per token. *)
Lemma matches_app_non_star seg ts s :
  Forall non_star seg ->
  matches (seg ++ ts) s <->
  matches seg (take (length seg) s) /\ length seg <= length s /\ matches ts (drop (length seg) s).
Proof.
  intros Hseg. revert s. induction Hseg as [|t seg Ht Hseg IH]; intros s; simpl.
  - split; [|tauto]. intros H. split; [constructor|]. split; [lia|done].
  - destruct t as [| |c]; [done | |].
    + rewrite !matches_any_inv. split.
      * intros (c & s' & -> & H). apply IH in H as (H1 & H2 & H3). simpl.
        split; [eauto|]. split; [lia|done].
      * intros (( c & s' & Hs & H1) & H2 & H3). destruct s as [|d s]; [done|].
        simpl in *. simplify_eq. exists c, s. split; [done|]. apply IH.
        split; [done|]. split; [lia|done].
    + rewrite !matches_chr_inv. split.
      * intros (d & s' & -> & Hc & H). apply IH in H as (H1 & H2 & H3). simpl.
        split; [eauto 6|]. split; [lia|done].
      * intros ((d & s' & Hs & Hc & H1) & H2 & H3). destruct s as [|e s]; [done|].
        simpl in *. simplify_eq. exists d, s. split; [done|]. split; [done|]. apply IH.
        split; [done|]. split; [lia|done].
Qed.

Lemma tokens_literal c m :
  is_wild c = false -> (c = "\"%char -> is_wild (deref m) = false) ->
  tokens (c :: m) = TChr c :: tokens m.
Proof.
  intros Hw Hesc. simpl. pose proof Hw as Hw'. unfold is_wild in Hw'.
  apply orb_false_iff in Hw' as [-> ->].
  destruct (ch_eqb_spec c "\"%char) as [->|]; [|done].
  destruct m as [|d m]; [done|]. specialize (Hesc eq_refl).
  simpl in Hesc. by rewrite Hesc.
Qed.

Lemma tokens_escape d m :
  is_wild d = true -> tokens ("\"%char :: d :: m) = TChr d :: tokens m.
Proof. intros Hd. simpl. by rewrite Hd. Qed.

Lemma esc_ok_literal b c m :
  is_wild c = false -> (c = "\"%char -> is_wild (deref m) = false) ->
  esc_ok b (c :: m) = esc_ok false m.
Proof.
  intros Hw Hesc. simpl. rewrite Hw.
  destruct (ch_eqb_spec c "\"%char) as [->|]; [|done].
  destruct m as [|d m]; [done|]. specialize (Hesc eq_refl). simpl in Hesc. by rewrite Hesc.
Qed.

(** ** Runs of wildcards *)
Definition wild_tok (t : token) : Prop := match t with TChr _ => False | _ => True end.

Fixpoint anys (q : list token) : nat :=
  match q with
  | [] => 0
  | TAny :: q => S (anys q)
  | _ :: q => anys q
  end.

Fixpoint has_star (q : list token) : bool :=
  match q with
  | [] => false
  | TStar :: _ => true
  | _ :: q => has_star q
  end.

(** A run of wildcards asks for a number of characters and, with a star in
    it, lets any number follow. *)
Lemma wild_run q ts s :
  Forall wild_tok q ->
  matches (q ++ ts) s <->
  anys q <= length s /\
  matches (if has_star q then TStar :: ts else ts) (drop (anys q) s).
Proof.
  intros Hq. revert ts s. induction Hq as [|[| |c] q Ht Hq IH]; intros ts s; simpl.
  - split; [intros; split; [lia|done] | tauto].
  - rewrite matches_star_inv. split.
    + intros [k H]. apply IH in H as [Hlen H]. rewrite length_drop in Hlen.
      split; [lia|]. rewrite drop_drop in H.
      apply (matches_star_drop _ k). rewrite drop_drop.
      replace (anys q + k) with (k + anys q) by lia.
      destruct (has_star q); [done|]. by apply matches_star_inv; exists 0.
    + intros [Hlen H]. apply matches_star_inv in H as [k H].
      rewrite drop_drop in H.
      destruct (decide (k <= length s - anys q)) as [Hk|Hk].
      * exists k. apply IH. rewrite length_drop. split; [lia|]. rewrite drop_drop.
        replace (k + anys q) with (anys q + k) by lia.
        destruct (has_star q); [by apply matches_star_inv; exists 0 | done].
      * exists (length s - anys q). apply IH. rewrite length_drop. split; [lia|].
        rewrite drop_drop. rewrite drop_ge in H by lia. rewrite drop_ge by lia.
        destruct (has_star q); [by apply matches_star_inv; exists 0 | done].
  - rewrite matches_any_inv. split.
    + intros (c & s' & -> & H). apply IH in H as [? H]. simpl. split; [lia|done].
    + intros [Hlen H]. destruct s as [|c s]; simpl in *; [lia|].
      exists c, s. split; [done|]. apply IH. split; [lia|done].
  - done.
Qed.

Lemma scan_wild_spec m n star_p :
  match scan_wild m n star_p with
  | Some (m', n', s') => exists q,
      Forall wild_tok q /\ tokens m = q ++ tokens m' /\ length m = length q + length m' /\ m' = drop (length q) m /\
      anys q <= length n /\ n' = drop (anys q) n /\ s' = star_p || has_star q /\
      is_wild (deref m') = false /\
      (forall b, esc_ok b m = true ->
         esc_ok (match q with [] => b | _ => true end) m' = true)
  | None => exists q r, tokens m = q ++ r /\ Forall wild_tok q /\ length n < anys q
  end.
Proof.
  revert n star_p. induction m as [|c m IH]; intros n star_p.
  { simpl. exists []. simpl. rewrite orb_false_r, drop_0. repeat split; auto; lia. }
  simpl scan_wild. destruct (ch_eqb_spec c "*") as [->|Hs].
  - specialize (IH n true). destruct (scan_wild m n true) as [[[m' n'] s']|].
    + destruct IH as (q & Hq & Ht & Hl & Hd & Ha & Hn & Hs' & Hw & He).
      exists (TStar :: q). simpl. rewrite orb_true_r. rewrite Ht, Hl.
      split_and!; auto using Forall_cons_2.
      * by constructor.
      * intros _ Hb. specialize (He true Hb). by destruct q.
    + destruct IH as (q & r & Ht & Hq & Ha). exists (TStar :: q), r. simpl. rewrite Ht.
      split_and!; auto. by constructor.
  - destruct (ch_eqb_spec c "?") as [->|Hq].
    + destruct n as [|d n].
      { exists [TAny], (tokens m). simpl. split_and!; auto; simpl; try lia. by repeat constructor. }
      specialize (IH n star_p). destruct (scan_wild m n star_p) as [[[m' n'] s']|].
      * destruct IH as (q & Hq & Ht & Hl & Hd & Ha & Hn & Hs' & Hw & He).
        exists (TAny :: q). simpl. rewrite Ht, Hl.
        split_and!; auto; try lia; [by constructor|].
        intros _ Hb. specialize (He true Hb). by destruct q.
      * destruct IH as (q & r & Ht & Hq & Ha). exists (TAny :: q), r. simpl. rewrite Ht.
        split_and!; auto; try lia. by constructor.
    + exists []. rewrite orb_false_r. change (anys []) with 0. rewrite drop_0.
      assert (is_wild c = false) as Hwc.
      { unfold is_wild. by destruct (ch_eqb_spec c "*"), (ch_eqb_spec c "?"). }
      split_and!; auto; simpl; lia.
Qed.

Lemma tokens_head_plain c m :
  is_wild c = false -> esc_ok true (c :: m) = true ->
  tokens (c :: m) = TChr c :: tokens m /\ esc_ok false m = true.
Proof.
  intros Hw He.
  assert (c = "\"%char -> is_wild (deref m) = false) as Hesc.
  { intros ->. simpl in He. destruct m as [|d m]; [done|].
    simpl in *. by destruct (is_wild d). }
  split; [by apply tokens_literal | by rewrite <- (esc_ok_literal true c m)].
Qed.

Lemma seek_spec c n :
  exists k, seek c n = drop k n /\
    (forall j, j < k -> exists d n', drop j n = d :: n' /\ ToLower d <> ToLower c) /\
    (forall d n', seek c n = d :: n' -> ToLower d = ToLower c).
Proof.
  induction n as [|d n IH]; simpl.
  { exists 0. split; [done|]. split; [intros; lia|done]. }
  destruct (ch_eqb_spec (ToLower d) (ToLower c)) as [He|He].
  - exists 0. split; [done|]. split; [intros; lia|]. by intros ?? [= <- <-].
  - destruct IH as (k & Hk & Hj & Hd). exists (S k). split; [done|]. split; [|done].
    intros [|j] Hlt; [by exists d, n|]. apply Hj. lia.
Qed.

Lemma esc_ok_weaken m : esc_ok true m = true -> esc_ok false m = true.
Proof.
  destruct m as [|c m]; [done|]. simpl. destruct (is_wild c); [done|].
  destruct (c =c "\"); [|done]. destruct m as [|d m]; [done|]. by destruct (is_wild d).
Qed.

#[local] Arguments tokens : simpl never.
#[local] Arguments esc_ok : simpl never.

Section match_correct.
Variables mask name : cstring.
Hypothesis Hmask : is_cstr mask.
Hypothesis Hname : is_cstr name.

Let W : Prop := matches (tokens mask) name.

  (** [ts] and [n] are what is left of the current attempt: without a star
      the attempt is the whole question; after a star, the mask behind it
      ([mt]) is tried at the offsets of [nt], those below [k] having failed. *)
Definition att (ts : list token) (n mt nt : cstring) : Prop :=
    is_cstr n /\ is_cstr nt /\ length n <= length nt /\
    ((mt = mask /\ (W <-> matches ts n)) \/
     (length mt < length mask /\ is_cstr mt /\ nt <> [] /\
      (exists c m', mt = c :: m' /\ is_wild c = false /\ esc_ok true mt = true) /\
      (W <-> matches (TStar :: tokens mt) nt) /\
      exists k seg,
        n = drop (k + length seg) nt /\ k + length seg <= length nt /\
        (forall j, j < k -> ~ matches (tokens mt) (drop j nt)) /\
        Forall non_star seg /\ tokens mt = seg ++ ts /\
        matches seg (take (length seg) (drop k nt)))).

Definition minv (st : mstate) : Prop :=
    let '(MState m n mt nt) := st in
    is_cstr m /\ esc_ok false m = true /\ length m <= length mask /\ att (tokens m) n mt nt.

Definition mmu (st : mstate) : nat :=
    length (ms_n_tmp st) * S (length mask) + length (ms_m st).

Definition mres (r : option Z) : Prop :=
    exists z, r = Some z /\ (z = 0 \/ z = 1)%Z /\ (z = 0%Z <-> W).

Definition good (bound : nat) (r : mstate + option Z) : Prop :=
    match r with
    | inl st => minv st /\ mmu st < bound
    | inr r => mres r
    end.

Lemma mres_0 : W -> mres (Some 0%Z).
  Proof using. intros H. exists 0%Z. by repeat split; auto. Qed.

Lemma mres_1 : ~ W -> mres (Some 1%Z).
  Proof using. intros H. exists 1%Z. repeat split; auto; lia || tauto. Qed.

  (** The current attempt at offset [k] fails exactly when the rest does. *)
Lemma att_fail ts n mt nt k seg :
    n = drop (k + length seg) nt -> Forall non_star seg -> tokens mt = seg ++ ts ->
    ~ matches ts n -> ~ matches (tokens mt) (drop k nt).
  Proof using.
    intros -> Hseg -> Hf Hm. apply matches_app_non_star in Hm as (_ & _ & Hm); [|done].
    rewrite drop_drop in Hm. done.
  Qed.

Lemma backtrack_ok ts n mt nt m bound :
    att ts n mt nt -> ~ matches ts n ->
    length nt * S (length mask) + length m <= bound ->
    good bound (backtrack mask (MState m n mt nt)).
  Proof using Hmask.
    intros (Hn & Hnt & Hle & [[-> HW] | (Hlt & Hmt & Hnn & Hhd & HW & k & seg & Hat & Hk & Hj & Hseg & Hts & Hms)]) Hf Hb.
    - unfold backtrack. simpl. rewrite Nat.eqb_refl. apply mres_1. tauto.
    - unfold backtrack. simpl. destruct (Nat.eqb_spec (length mt) (length mask)) as [|_]; [lia|].
      destruct nt as [|c nt]; [done|]. clear Hnn.
      pose proof (att_fail _ _ _ _ _ _ Hat Hseg Hts Hf) as Hfk.
      assert (~ matches (tokens mt) (c :: nt)) as Hf0.
      { destruct k as [|k]; [done|]. apply (Hj 0). lia. }
      rewrite matches_star_cons in HW. apply is_cstr_cons in Hnt as [_ Hnt].
      destruct Hhd as (d & m' & -> & Hw & He).
      destruct (tokens_head_plain _ _ Hw He) as [Htok He'].
      destruct (ch_eqb_spec (deref nt) NUL) as [Hz|Hz].
      + apply deref_nul in Hz as ->; [|done]. apply mres_1. rewrite HW.
        rewrite matches_star_inv. intros [?|[j Hm]]; [done|].
        rewrite drop_nil, Htok in Hm. inversion Hm.
      + simpl. unfold mmu. simpl in *. split; [|lia].
        assert (nt <> []) as Hnn by (intros ->; done).
        split_and!; auto; [|lia|].
        { by apply esc_ok_weaken. }
        unfold att. split_and!; auto. right. split_and!; auto.
        * exists d, m'. split_and!; auto.
        * tauto.
        * exists 0, []. split_and!; auto; simpl; [lia|intros; lia|constructor].
  Qed.

Lemma normal_ok ts m n mt nt bound :
    att ts n mt nt -> length m <= length mask ->
    ((m = [] /\ ts = []) \/
     exists c m', m = c :: m' /\ ts = TChr c :: tokens m' /\ esc_ok false m' = true /\ is_cstr m) ->
    length nt * S (length mask) + length m <= bound ->
    good bound (normal_character mask (MState m n mt nt)).
  Proof using Hmask.
    intros Hatt Hlen Hm Hb. unfold normal_character. destruct n as [|d n].
    - destruct Hatt as (Hn & Hnt & Hle & [[-> HW] | (Hlt & Hmt & Hnn & Hhd & HW & k & seg & Hat & Hk & Hj & Hseg & Hts & Hms)]).
      + destruct Hm as [[-> ->] | (c & m' & -> & -> & _ & Hc)]; simpl.
        * apply mres_0, HW. constructor.
        * apply is_cstr_cons in Hc as [Hc _]. apply ch_eqb_neq in Hc as ->.
          apply mres_1. rewrite HW. by inversion 1.
      + assert (length nt <= k + length seg) as Hle'.
        { apply (f_equal length) in Hat. rewrite length_drop in Hat. simpl in Hat. lia. }
        destruct Hm as [[-> ->] | (c & m' & -> & -> & _ & Hc)]; simpl.
        * apply mres_0, HW. apply matches_star_inv. exists k. rewrite Hts.
          apply matches_app_non_star; [done|]. rewrite length_drop, drop_drop, <- Hat.
          split_and!; auto; [lia|constructor].
        * apply is_cstr_cons in Hc as [Hc _]. apply ch_eqb_neq in Hc as ->.
          apply mres_1. rewrite HW. rewrite matches_star_inv. intros [j Hm].
          destruct (decide (j < k)) as [Hjk|Hjk]; [by apply (Hj j)|].
          rewrite Hts in Hm. apply matches_app_non_star in Hm as (_ & _ & Hm); [|done].
          rewrite drop_drop, drop_ge in Hm by lia. inversion Hm.
    - destruct (ch_eqb_spec (ToLower (deref m)) (ToLower d)) as [He|He].
      + destruct Hm as [[-> ->] | (c & m' & -> & -> & Hesc & Hc)].
        { exfalso. simpl in He. rewrite (proj2 (ToLower_nul NUL) eq_refl) in He.
          symmetry in He. apply (proj1 (ToLower_nul _)) in He. subst d.
          destruct Hatt as (Hn & _). by apply is_cstr_cons in Hn as [? _]. }
        simpl in *. apply is_cstr_cons in Hc as [Hc Hcm].
        split; [|unfold mmu; simpl; lia].
        split_and!; auto; [lia|].
        destruct Hatt as (Hn & Hnt & Hle & Hatt). apply is_cstr_cons in Hn as [Hd Hn].
        unfold att. split_and!; auto; [simpl in *; lia|].
        destruct Hatt as [[-> HW] | (Hlt & Hmt & Hnn & Hhd & HW & k & seg & Hat & Hk & Hj & Hseg & Hts & Hms)].
        * left. split; [done|]. rewrite HW, matches_chr_inv. naive_solver.
        * right. split_and!; auto. exists k, (seg ++ [TChr c]).
          rewrite length_app. simpl.
          assert (drop (k + length seg) nt = d :: n) as Hd' by done.
          assert (length nt = k + length seg + S (length n)) as Hlnt.
          { apply (f_equal length) in Hat. rewrite length_drop in Hat. simpl in Hat. lia. }
          split_and!.
          -- rewrite Nat.add_assoc, <- drop_drop, Hd'. done.
          -- lia.
          -- done.
          -- apply Forall_app. split; [done|]. by repeat constructor.
          -- by rewrite <- app_assoc.
          -- assert (drop (length seg) (drop k nt) = d :: n) as Hd2 by by rewrite drop_drop.
             apply matches_app_non_star; [done|].
             rewrite take_take, length_take, length_drop, skipn_firstn_comm, Hd2.
             rewrite Nat.min_l by lia.
             replace (length seg + 1 - length seg) with 1 by lia. simpl.
             split_and!; auto; [lia|]. constructor; [done|constructor].
      + eapply backtrack_ok; [done | | done].
        destruct Hm as [[-> ->] | (c & m' & -> & -> & _ & _)].
        * by inversion 1.
        * rewrite matches_chr_inv. naive_solver.
  Qed.

Lemma is_cstr_wild_cons c m : is_cstr (c :: m) -> is_cstr m /\ c <> NUL.
  Proof using. rewrite is_cstr_cons. tauto. Qed.

  (** A jump to [backtrack] out of the run of wildcards. *)
Lemma scan_fail_ok st :
    minv st -> scan_wild (ms_m st) (ms_n st) false = None ->
    good (mmu st) (backtrack mask st).
  Proof using Hmask.
    destruct st as [m n mt nt]. simpl. intros (Hm & He & Hl & Hatt) Hs.
    pose proof (scan_wild_spec m n false) as Hsp. rewrite Hs in Hsp.
    destruct Hsp as (q & r & Ht & Hq & Hn).
    eapply backtrack_ok; [done | | reflexivity].
    rewrite Ht, wild_run by done. lia.
  Qed.

  (** A star is found: the rest of the mask is tried from here on. *)
Lemma star_att q m' n mt nt :
    att (q ++ tokens m') n mt nt -> Forall wild_tok q -> has_star q = true ->
    anys q <= length n ->
    W <-> matches (TStar :: tokens m') (drop (anys q) n).
  Proof using.
    intros (Hn & Hnt & Hle & Hatt) Hq Hs Ha.
    assert (forall s, matches (q ++ tokens m') s <->
              anys q <= length s /\ matches (TStar :: tokens m') (drop (anys q) s)) as Hrun.
    { intros s. rewrite wild_run by done. by rewrite Hs. }
    destruct Hatt as [[-> HW] | (Hlt & Hmt & Hnn & Hhd & HW & k & seg & Hat & Hk & Hj & Hseg & Hts & Hms)].
    - rewrite HW, Hrun. tauto.
    - rewrite HW, matches_star_inv. split.
      + intros [j Hm]. destruct (decide (j < k)) as [Hjk|Hjk]; [by destruct (Hj j Hjk)|].
        rewrite Hts in Hm. apply matches_app_non_star in Hm as (_ & _ & Hm); [|done].
        apply Hrun in Hm as [_ Hm]. subst n. rewrite !drop_drop in *.
        apply (matches_star_drop _ (j - k)). rewrite drop_drop.
        match goal with
        | H : matches _ (drop ?a nt) |- matches _ (drop ?b nt) => by replace b with a by lia
        end.
      + intros Hm. exists k. rewrite Hts. apply matches_app_non_star; [done|].
        rewrite length_drop, drop_drop. split_and!; [done | lia |].
        rewrite <- Hat. by apply Hrun.
  Qed.

Lemma scan_star_ok m n m' n' mt nt :
    minv (MState m n mt nt) -> scan_wild m n false = Some (m', n', true) ->
    good (mmu (MState m n mt nt))
      (match m' with
       | [] => inr (Some 0%Z)
       | c :: _ => normal_character mask (MState m' (seek c n') m' n')
       end).
  Proof using Hmask.
    intros (Hm & He & Hl & Hatt) Hs.
    pose proof (scan_wild_spec m n false) as Hsp. rewrite Hs in Hsp.
    destruct Hsp as (q & Hq & Ht & Hlen & Hdrop & Ha & -> & Hst & Hw & Hesc).
    simpl in Hst. symmetry in Hst. rewrite Ht in Hatt.
    pose proof (star_att _ _ _ _ _ Hatt Hq Hst Ha) as HW.
    assert (q <> []) as Hq0 by by destruct q.
    specialize (Hesc false He). destruct m' as [|c m'].
    { apply mres_0, HW. apply matches_star_inv. exists (length n).
      rewrite drop_ge by (rewrite length_drop; lia). constructor. }
    destruct q as [|t q]; [done|]. simpl in Hesc, Hw. clear Hq0.
    destruct (tokens_head_plain _ _ Hw Hesc) as [Htok Hesc'].
    assert (is_cstr (c :: m')) as Hm' by (rewrite Hdrop; by apply is_cstr_drop).
    pose proof (is_cstr_drop (anys (t :: q)) _ (proj1 Hatt)) as Hn'.
    pose proof (proj1 (proj2 (proj2 Hatt))) as Hnt.
    set (n' := drop (anys (t :: q)) n) in *.
    assert (length n' <= length n) as Hln by (unfold n'; rewrite length_drop; lia).
    destruct (seek_spec c n') as (k & Hk & Hj & Hhd).
    assert (forall j, j < k -> ~ matches (tokens (c :: m')) (drop j n')) as Hj'.
    { intros j Hjk. destruct (Hj j Hjk) as (d & r & -> & Hd). rewrite Htok, matches_chr_inv.
      intros (d' & r' & [= <- <-] & Hd' & _). congruence. }
    destruct (seek c n') as [|d r] eqn:Hsk.
    { simpl. apply is_cstr_cons in Hm' as [Hc _]. apply ch_eqb_neq in Hc as ->.
      apply mres_1. rewrite HW, matches_star_inv. intros [j Hm'].
      destruct (decide (j < k)); [by apply (Hj' j)|].
      assert (drop j n' = []) as Hnil.
      { replace j with (k + (j - k)) by lia. by rewrite <- drop_drop, <- Hk, drop_nil. }
      rewrite Hnil, Htok in Hm'. inversion Hm'. }
    assert (k < length n') as Hkn.
    { apply (f_equal length) in Hk. rewrite length_drop in Hk. simpl in Hk. lia. }
    apply (normal_ok (tokens (c :: m'))).
    - unfold att. rewrite Hk. split_and!; auto using is_cstr_drop.
      { rewrite length_drop. lia. }
      right. simpl in Hlen. split_and!; auto.
      + simpl. lia.
      + by intros ->.
      + by exists c, m'.
      + exists k, []. rewrite Nat.add_0_r. split_and!; auto; [lia | constructor].
    - simpl in *. lia.
    - right. exists c, m'. by split_and!.
    - unfold mmu. simpl in *. nia.
  Qed.

  (** Question marks without a star carry the attempt on. *)
Lemma plain_att q m' n mt nt :
    att (q ++ tokens m') n mt nt -> Forall wild_tok q -> has_star q = false ->
    anys q <= length n ->
    att (tokens m') (drop (anys q) n) mt nt.
  Proof using.
    intros (Hn & Hnt & Hle & Hatt) Hq Hs Ha.
    unfold att. split_and!; auto using is_cstr_drop.
    { rewrite length_drop. lia. }
    destruct Hatt as [[-> HW] | (Hlt & Hmt & Hnn & Hhd & HW & k & seg & Hat & Hk & Hj & Hseg & Hts & Hms)].
    - left. split; [done|]. rewrite HW, wild_run, Hs by done. tauto.
    - right. split_and!; auto. exists k, (seg ++ q).
      assert (length q = anys q /\ Forall non_star q) as [Hlq Hnq].
      { clear -Hq Hs. induction Hq as [|[| |c] q Hc Hq IH]; simpl in *; try done.
        destruct (IH Hs) as [-> ?]. split; [done|]. by constructor. }
      rewrite length_app, Hlq.
      assert (length n = length nt - (k + length seg)) as Hln by by rewrite Hat, length_drop.
      split_and!.
      + rewrite Hat, drop_drop. f_equal. lia.
      + lia.
      + done.
      + by apply Forall_app.
      + by rewrite <- app_assoc.
      + apply matches_app_non_star; [done|].
        rewrite take_take, length_take, length_drop, skipn_firstn_comm, drop_drop.
        rewrite Nat.min_l by lia.
        split_and!; [done | lia |].
        replace (length seg + anys q - length seg) with (anys q) by lia.
        rewrite <- (app_nil_r q), wild_run, Hs, app_nil_r by done.
        rewrite <- Hat, length_take. split; [lia|].
        rewrite drop_ge by (rewrite length_take; lia). constructor.
  Qed.

Lemma scan_plain_ok m n mt nt m' n' :
    minv (MState m n mt nt) -> is_wild (deref m) = true ->
    scan_wild m n false = Some (m', n', false) ->
    good (mmu (MState m n mt nt)) (normal_character mask (MState m' n' mt nt)).
  Proof using Hmask.
    intros (Hm & He & Hl & Hatt) Hwm Hs.
    pose proof (scan_wild_spec m n false) as Hsp. rewrite Hs in Hsp.
    destruct Hsp as (q & Hq & Ht & Hlen & Hdrop & Ha & -> & Hst & Hw & Hesc).
    simpl in Hst. symmetry in Hst. rewrite Ht in Hatt.
    specialize (Hesc false He).
    apply (normal_ok (tokens m')).
    - by apply plain_att.
    - lia.
    - destruct m' as [|c m']; [by left|]. right. exists c, m'.
      destruct q as [|t q].
      { rewrite drop_0 in Hdrop. subst m. simpl in Hwm, Hw. congruence. }
      destruct (tokens_head_plain _ _ Hw Hesc) as [Htok Hesc'].
      split_and!; auto. rewrite Hdrop. by apply is_cstr_drop.
    - unfold mmu. simpl. lia.
  Qed.

  #[local] Arguments scan_wild : simpl never.
  #[local] Arguments normal_character : simpl never.

Lemma match_step_ok st : minv st -> good (mmu st) (match_step mask st).
  Proof using Hmask.
    destruct st as [m n mt nt]. intros Hinv. pose proof Hinv as (Hm & He & Hl & Hatt).
    destruct m as [|c m]; simpl.
    - destruct (ch_eqb_spec (deref n) NUL) as [Hz|Hz].
      + apply deref_nul in Hz as ->; [|apply (proj1 Hatt)].
        destruct (normal_ok [] [] [] mt nt (mmu (MState [] [] mt nt))) as (z & Hz & Hr);
          unfold mmu; simpl; auto; try lia.
        unfold normal_character in Hz. simpl in Hz. injection Hz as <-. by exists 0%Z.
      + eapply backtrack_ok; [done | | unfold mmu; simpl; lia].
        rewrite matches_nil_inv. by intros ->.
    - apply is_cstr_wild_cons in Hm as Hm'. destruct Hm' as [Hcm Hc0].
      destruct (ch_eqb_spec c "\") as [->|Hbs].
      + destruct (is_wild (deref m)) eqn:Hw.
        * destruct m as [|d m]; [done|]. simpl in Hw. rewrite tokens_escape in Hatt by done.
          eapply normal_ok; [done | simpl in *; lia | | unfold mmu; simpl; lia].
          right. exists d, m. unfold esc_ok in He. fold esc_ok in He. simpl in He.
          rewrite Hw in He. by split_and!.
        * rewrite tokens_literal in Hatt by done.
          eapply normal_ok; [done | done | | unfold mmu; simpl; lia].
          right. exists "\"%char, m. rewrite esc_ok_literal in He by done. by split_and!.
      + destruct (is_wild c) eqn:Hw.
        * pose proof (scan_fail_ok _ Hinv) as Hfail. cbn [ms_m ms_n] in Hfail.
          pose proof (scan_star_ok (c :: m) n) as Hstar.
          pose proof (scan_plain_ok (c :: m) n mt nt) as Hplain.
          destruct (scan_wild (c :: m) n false) as [[[m' n'] star_p]|]; [|by apply Hfail].
          destruct star_p; [by apply Hstar | by apply Hplain].
        * rewrite tokens_literal in Hatt by done.
          eapply normal_ok; [done | done | | unfold mmu; simpl; lia].
          right. exists c, m. rewrite esc_ok_literal in He by done. by split_and!.
  Qed.
End match_correct.

#[local] Arguments tokens : simpl nomatch.
#[local] Arguments esc_ok : simpl nomatch.

Lemma match_result mask name :
  is_cstr mask -> is_cstr name -> esc_ok false mask = true ->
  exists z, match_ mask name = Some (Some z) /\ (z = 0 \/ z = 1)%Z /\ (z = 0%Z <-> matches (tokens mask) name).
Proof.
  intros Hmask Hname Hesc.
  destruct (loop_total (match_step mask) (minv mask name) (mmu mask) (mres mask name)) with
    (fuel := match_fuel mask name) (s := MState mask name mask name)
    as (r & Hr & z & -> & Hz).
  - intros st Hst. pose proof (match_step_ok mask name Hmask st Hst) as Hg.
    by destruct (match_step mask st).
  - unfold minv, att. split_and!; auto; left; by split.
  - unfold mmu, match_fuel. simpl. lia.
  - exists z. by split.
Qed.

(** C28: [match()] terminates without reading past the name's terminator and
    returns 0 exactly when the name matches the mask, for every mask that
    has no escaped wildcard directly after a wildcard: there the code takes
    the backslash for itself. *)
Theorem match_correct mask name :
  is_cstr mask -> is_cstr name -> esc_ok false mask = true ->
  exists z, match_ mask name = Some (Some z) /\ (z = 0 \/ z = 1)%Z /\ (z = 0%Z <-> matches (tokens mask) name).
Proof. apply match_result. Qed.

(** ** [collapse()]

    The function works in place; since its output never overtakes its input
    ([collapse_length]) the result is a function of the original mask. *)
Fixpoint collapse_run (star : bool) (m : cstring) : cstring :=
  match m with
  | [] => if star then ["*"%char] else []
  | c :: m' =>
      if c =c "*" then collapse_run true m'
      else
        let flush := star && negb (c =c "?") in
        (if flush then ["*"%char] else []) ++
        c ::
        (if c =c "\" then
           match m' with
           | d :: m'' =>
               if is_wild d then d :: collapse_run (star && negb flush) m''
               else collapse_run (star && negb flush) m'
           | [] => if star && negb flush then ["*"%char] else []
           end
         else collapse_run (star && negb flush) m')
  end.

Fixpoint collapse (m : cstring) : cstring :=
  match m with
  | [] => []
  | c :: m' =>
      if (c =c "*") && is_wild (deref m') then collapse_run false m
      else if c =c "\" then
        match m' with
        | d :: m'' => if is_wild d then c :: d :: collapse m'' else c :: collapse m'
        | [] => [c]
        end
      else c :: collapse m'
  end.

Example collapse_ex : collapse (str "ab\***?*c??*?d\?e*") = str "ab\*?*c???*d\?e*".
Proof. reflexivity. Qed.

(** Masks that mean the same. *)
Definition mequiv (ts us : list token) : Prop := forall s, matches ts s <-> matches us s.

#[export] Instance mequiv_equiv : Equivalence mequiv.
Proof.
  split; [done | |].
  - intros ts us H s. by rewrite (H s).
  - intros ts us vs H1 H2 s. by rewrite (H1 s), (H2 s).
Qed.

#[export] Instance mequiv_cons t : Proper (mequiv ==> mequiv) (cons t).
Proof.
  intros ts us H s. destruct t as [| |c].
  - rewrite !matches_star_inv. by setoid_rewrite (H _).
  - rewrite !matches_any_inv. by setoid_rewrite (H _).
  - rewrite !matches_chr_inv. by setoid_rewrite (H _).
Qed.

(** Runs of wildcards mean the same when they ask for as many characters. *)
Lemma mequiv_wild q1 q2 ts :
  Forall wild_tok q1 -> Forall wild_tok q2 -> anys q1 = anys q2 -> has_star q1 = has_star q2 ->
  mequiv (q1 ++ ts) (q2 ++ ts).
Proof. intros H1 H2 Ha Hs s. by rewrite !wild_run, Ha, Hs by done. Qed.

Lemma mequiv_star_star ts : mequiv (TStar :: TStar :: ts) (TStar :: ts).
Proof. by apply (mequiv_wild [TStar; TStar] [TStar]); repeat constructor. Qed.

Lemma mequiv_star_any ts : mequiv (TStar :: TAny :: ts) (TAny :: TStar :: ts).
Proof. by apply (mequiv_wild [TStar; TAny] [TAny; TStar]); repeat constructor. Qed.

Lemma collapse_run_head m :
  is_wild (deref m) = false -> deref (collapse_run false m) = deref m.
Proof.
  destruct m as [|c m]; [done|]. simpl. unfold is_wild. intros Hw.
  by apply orb_false_iff in Hw as [-> _].
Qed.

Lemma tokens_star m : tokens ("*"%char :: m) = TStar :: tokens m.
Proof. done. Qed.

Lemma collapse_run_matches star m :
  mequiv (tokens (collapse_run star m)) (if star then TStar :: tokens m else tokens m).
Proof.
  remember (length m) as len eqn:Hlen. revert star m Hlen.
  induction (lt_wf len) as [len _ IH]. intros star m ->.
  destruct m as [|c m]; [by destruct star|]. simpl collapse_run.
  destruct (ch_eqb_spec c "*") as [->|Hs].
  { rewrite (IH (length m)) by (simpl; lia || done). rewrite tokens_star.
    destruct star; [by rewrite mequiv_star_star | done]. }
  destruct (ch_eqb_spec c "?") as [->|Hq].
  { rewrite andb_false_r. simpl. rewrite andb_true_r.
    change (mequiv (TAny :: tokens (collapse_run star m))
              (if star then TStar :: TAny :: tokens m else TAny :: tokens m)).
    rewrite (IH (length m)) by (simpl; lia || done).
    destruct star; [by rewrite mequiv_star_any | done]. }
  assert (is_wild c = false) as Hw.
  { unfold is_wild. by destruct (ch_eqb_spec c "*"), (ch_eqb_spec c "?"). }
  assert (forall X, mequiv (tokens (c :: X)) (tokens (c :: m)) ->
    mequiv (tokens ((if star && negb false then ["*"%char] else []) ++ c :: X))
           (if star then TStar :: tokens (c :: m) else tokens (c :: m))) as Hflush.
  { intros X HX. destruct star; [|done]. change (mequiv (TStar :: tokens (c :: X)) (TStar :: tokens (c :: m))).
    by rewrite HX. }
  apply Hflush. simpl negb. rewrite andb_true_r.
  replace (star && negb star) with false by by destruct star.
  destruct (ch_eqb_spec c "\") as [->|Hb].
  - destruct m as [|d m]; [done|]. destruct (is_wild d) eqn:Hd.
    + rewrite !tokens_escape by done. by rewrite (IH (length m)) by (simpl; lia || done).
    + rewrite (tokens_literal _ (collapse_run false (d :: m))), (tokens_literal _ (d :: m)); auto.
      * by rewrite (IH (length (d :: m))) by (simpl; lia || done).
      * intros _. by rewrite collapse_run_head.
  - rewrite (tokens_literal c (collapse_run false m)), (tokens_literal c m) by done.
    by rewrite (IH (length m)) by (simpl; lia || done).
Qed.

Lemma collapse_head m : is_wild (deref m) = false -> deref (collapse m) = deref m.
Proof.
  destruct m as [|c m]; [done|]. simpl. unfold is_wild. intros Hw.
  apply orb_false_iff in Hw as [-> _]. simpl.
  destruct (c =c "\"); [|done]. destruct m as [|d m]; [done|].
  by destruct (_ || _).
Qed.

Lemma collapse_run_length star m :
  length (collapse_run star m) <= length m + (if star then 1 else 0).
Proof.
  remember (length m) as len eqn:Hlen. revert star m Hlen.
  induction (lt_wf len) as [len _ IH]. intros star m ->.
  destruct m as [|c m]; [by destruct star|]. simpl collapse_run.
  destruct (c =c "*").
  { specialize (IH (length m) ltac:(simpl; lia) true m eq_refl). destruct star; simpl in *; lia. }
  set (fl := star && negb (c =c "?")). assert (forall m', length m' <= length m ->
    length (collapse_run (star && negb fl) m') <= length m' + (if star && negb fl then 1 else 0)) as Hrun.
  { intros m' Hm'. apply (IH (length m')); simpl; auto; lia. }
  rewrite length_app. simpl length.
  assert (length (if c =c "\" then
     match m with
     | [] => if star && negb fl then ["*"%char] else []
     | d :: m'' => if is_wild d then d :: collapse_run (star && negb fl) m''
                   else collapse_run (star && negb fl) m
     end else collapse_run (star && negb fl) m)
     <= length m + (if star && negb fl then 1 else 0)) as Hle.
  { destruct (c =c "\"); [|by apply Hrun]. destruct m as [|d m]; [by destruct (star && negb fl)|].
    destruct (is_wild d); [|by apply Hrun]. specialize (Hrun m ltac:(simpl; lia)). cbn [length]. lia. }
  unfold fl in *. destruct star, (c =c "?"); simpl in *; lia.
Qed.

(** collapsing a mask does not change which names it matches, and never
    makes it longer, which is what lets the function work in place. *)
Theorem collapse_matches m :
  mequiv (tokens (collapse m)) (tokens m) /\ length (collapse m) <= length m.
Proof.
  remember (length m) as len eqn:Hlen. revert m Hlen.
  induction (lt_wf len) as [len _ IH]. intros m ->.
  destruct m as [|c m]; [done|]. simpl collapse.
  destruct ((c =c "*") && is_wild (deref m)) eqn:Hrun.
  { split; [exact (collapse_run_matches false (c :: m))|].
    etransitivity; [exact (collapse_run_length false (c :: m))|]. simpl. lia. }
  destruct (IH (length m) ltac:(simpl; lia) m eq_refl) as [IHm IHl].
  destruct (ch_eqb_spec c "\") as [->|Hb].
  - destruct m as [|d m]; [done|]. destruct (is_wild d) eqn:Hd.
    + destruct (IH (length m) ltac:(simpl; lia) m eq_refl) as [IHm' IHl'].
      rewrite !tokens_escape by done. split; [by rewrite IHm' | simpl; lia].
    + split; [|simpl in *; lia].
      rewrite (tokens_literal _ (collapse (d :: m))), (tokens_literal _ (d :: m)); auto.
      * by rewrite IHm.
      * intros _. by rewrite collapse_head.
  - split; [|simpl; lia]. destruct (is_wild c) eqn:Hw.
    + unfold is_wild in Hw. destruct (ch_eqb_spec c "*") as [->|Hs].
      * by rewrite !tokens_star, IHm.
      * destruct (ch_eqb_spec c "?") as [->|Hq]; [|done].
        change (mequiv (TAny :: tokens (collapse m)) (TAny :: tokens m)). by rewrite IHm.
    + rewrite (tokens_literal c (collapse m)), (tokens_literal c m) by done. by rewrite IHm.
Qed.

(** ** [mmatch()] *)

(** [( *p == '\\') && ((p[1] == '*') || (p[1] == '?'))] *)
Definition is_escape (p : cstring) : bool := (deref p =c "\") && is_wild (deref (tail p)).

Fixpoint skip_stars (m : cstring) : cstring :=
  match m with
  | c :: m' => if c =c "*" then skip_stars m' else m
  | [] => []
  end.

(** [for (m--; (m > old_mask) && ( *m == '?'); m--);] and the test that
    follows it, [m] being at the terminator of [old_mask]; the argument is
    the mask read backwards.  [None]: [m] is before the start of the mask. *)
Fixpoint walk_back (r : list ascii) : option bool :=
  match r with
  | [] => None
  | [c] => Some false
  | c :: ((d :: _) as r') =>
      if c =c "?" then walk_back r' else Some ((c =c "*") && negb (d =c "\"))
  end.

Record mmstate := MMState {
  mm_m : cstring; mm_n : cstring; mm_ma : cstring; mm_na : cstring; mm_wild : bool
}.

Section mmatch.
Variable old_mask : cstring.

  (** [m = ma; if (escape at na) ++na; n = ++na;]; [None] when [na] is
      already at the terminator. *)
Definition mm_retry (st : mmstate) : option mmstate :=
    let na := if is_escape (mm_na st) then tail (mm_na st) else mm_na st in
    match na with
    | [] => None
    | _ :: na' => Some (MMState (mm_ma st) na' (mm_ma st) na' (mm_wild st))
    end.

  (** From [if (( *m == '\\') ...] to the end of the loop's body. *)
Definition mm_compare (st : mmstate) : mmstate + option Z :=
    let '(MMState m n ma na wild) := st in
    let mq := is_escape m in
    let m := if mq then tail m else m in
    let nq := is_escape n in
    let n := if nq then tail n else n in
    let cm := deref m in
    let cn := deref n in
    if ((cm =c "*") && negb mq) ||
       ((negb mq || nq) && (ToLower cm =c ToLower cn)) ||
       ((cm =c "?") && negb mq && (negb (cn =c "*") || nq))
    then inl (MMState (tail m) (tail n) ma na wild)
    else if negb wild then inr (Some 1%Z)
    else match mm_retry st with
         | Some st' => inl st'
         | None => inr None
         end.

Definition mmatch_step (st : mmstate) : mmstate + option Z :=
    let '(MMState m n ma na wild) := st in
    let st :=
      if deref m =c "*"
      then let m := skip_stars m in MMState m n m n true
      else st in
    let '(MMState m n ma na wild) := st in
    if deref m =c NUL then
      if deref n =c NUL then inr (Some 0%Z)
      else
        match walk_back (rev old_mask) with
        | None => inr None
        | Some true => inr (Some 0%Z)
        | Some false =>
            if negb wild then inr (Some 1%Z)
            else match mm_retry st with
                 | Some st' => mm_compare st'
                 | None => inr None
                 end
        end
    else if deref n =c NUL then
      inr (Some (if deref (skip_stars m) =c NUL then 0 else 1)%Z)
    else mm_compare st.
End mmatch.

Definition mmatch (old_mask new_mask : cstring) : option (option Z) :=
  loop (mmatch_step old_mask)
    (S (S (length new_mask) * (2 * S (length old_mask))))
    (MMState old_mask new_mask old_mask new_mask false).

Example mmatch_ex1 : mmatch (str "*a*?") (str "ba*c?") = Some (Some 0%Z).
Proof. reflexivity. Qed.
Example mmatch_ex2 : mmatch (str "*a?") (str "ba*c") = Some (Some 1%Z).
Proof. reflexivity. Qed.
Example mmatch_ex3 : mmatch (str "*!*@*.es") (str "*!foo@*.terra.es") = Some (Some 0%Z).
Proof. reflexivity. Qed.
Example mmatch_ex4 : mmatch (str "*") (str "*?*") = Some (Some 0%Z).
Proof. reflexivity. Qed.
Example mmatch_ex5 : mmatch [] (str "a") = Some None.
Proof. reflexivity. Qed.

(** *** Soundness *)
Definition covers (ts us : list token) : Prop := forall s, matches us s -> matches ts s.

Definition subs (t u : token) : Prop :=
  match t, u with
  | TAny, TAny | TAny, TChr _ => True
  | TChr c, TChr d => ToLower c = ToLower d
  | _, _ => False
  end.

Lemma covers_subs t u ts us : subs t u -> covers ts us -> covers (t :: ts) (u :: us).
Proof.
  intros Hs Hc s. destruct t as [| |c], u as [| |d]; try done; simpl in Hs.
  - rewrite !matches_any_inv. intros (c & s' & -> & H). eauto.
  - rewrite matches_any_inv, matches_chr_inv. intros (c & s' & -> & _ & H). eauto.
  - rewrite !matches_chr_inv. intros (e & s' & -> & He & H). exists e, s'.
    split_and!; [done | congruence | by apply Hc].
Qed.

(** A star in the wider mask lets one more token of the other go by. *)
Lemma covers_star_skip ts u us : covers (TStar :: ts) us -> covers (TStar :: ts) (u :: us).
Proof.
  intros Hc s Hm. destruct u as [| |d].
  - apply matches_star_inv in Hm as [k Hm]. by apply (matches_star_drop _ k), Hc.
  - apply matches_any_inv in Hm as (c & s' & -> & Hm).
    apply (matches_star_drop _ 1), Hc, Hm.
  - apply matches_chr_inv in Hm as (c & s' & -> & _ & Hm).
    apply (matches_star_drop _ 1), Hc, Hm.
Qed.

Lemma covers_star ts us : covers ts us -> covers (TStar :: ts) us.
Proof. intros Hc s Hm. apply matches_star_inv. exists 0. by apply Hc. Qed.

Lemma subs_non_star t u : subs t u -> non_star t /\ non_star u.
Proof. by destruct t, u. Qed.

(** [k] tokens, none of them a star, ask for [k] characters at least. *)
Lemma covers_any_tail V U us :
  Forall2 subs V U -> Forall (fun t => t = TAny) V -> covers (TStar :: V) (U ++ us).
Proof.
  intros HVU HV s Hm.
  assert (Forall non_star U) as HU.
  { clear -HVU. induction HVU as [|t u V U Hs _ IH]; constructor; [|done].
    exact (proj2 (subs_non_star _ _ Hs)). }
  apply matches_app_non_star in Hm as (_ & Hlen & _); [|done].
  apply Forall2_length in HVU. rewrite <- (app_nil_r V), app_comm_cons, wild_run.
  - assert (anys (TStar :: V) = length V) as ->.
    { simpl. clear -HV. induction HV as [|t V -> _ IH]; simpl; congruence. }
    split; [lia|]. simpl. apply matches_star_inv. exists (length s).
    rewrite drop_ge by (rewrite length_drop; lia). constructor.
  - constructor; [done|]. by eapply Forall_impl; [exact HV|intros ? ->].
Qed.

(** The token at a pointer. *)
Definition tok_at (m : cstring) : token :=
  if is_escape m then TChr (deref (tail m))
  else if deref m =c "*" then TStar
  else if deref m =c "?" then TAny else TChr (deref m).

Definition past_tok (m : cstring) : cstring :=
  if is_escape m then tail (tail m) else tail m.

Lemma tokens_at m : m <> [] -> tokens m = tok_at m :: tokens (past_tok m).
Proof.
  destruct m as [|c m]; [done|]. intros _.
  unfold tok_at, past_tok, is_escape. simpl deref. simpl tail.
  destruct (ch_eqb_spec c "\") as [->|Hb]; simpl.
  - destruct m as [|d m]; [done|]. simpl. destruct (is_wild d) eqn:Hd.
    + by rewrite tokens_escape.
    + by rewrite tokens_literal.
  - destruct (ch_eqb_spec c "*"), (ch_eqb_spec c "?"); subst; try done.
    apply tokens_literal; [|done]. unfold is_wild.
    by destruct (ch_eqb_spec c "*"), (ch_eqb_spec c "?").
Qed.

Lemma past_tok_suffix m : exists k, past_tok m = drop k m /\ (m <> [] -> 0 < k).
Proof.
  unfold past_tok. destruct m as [|c m]; [exists 0; by destruct (is_escape _)|].
  destruct (is_escape (c :: m)); simpl.
  - exists 2. split; [by destruct m|lia].
  - exists 1. split; [by destruct m|lia].
Qed.

Lemma past_tok_length m : m <> [] -> length (past_tok m) < length m.
Proof.
  intros Hm. destruct (past_tok_suffix m) as (k & -> & Hk). specialize (Hk Hm).
  rewrite length_drop. destruct m; simpl in *; [done|lia].
Qed.

Lemma past_tok_cstr m : is_cstr m -> is_cstr (past_tok m).
Proof. destruct (past_tok_suffix m) as (k & -> & _). apply is_cstr_drop. Qed.

Lemma tokens_app_star x y :
  (deref (rev x) =c "\") = false ->
  tokens (x ++ "*"%char :: y) = tokens x ++ TStar :: tokens y.
Proof.
  remember (length x) as len eqn:Hlen. revert x Hlen.
  induction (lt_wf len) as [len _ IH]. intros x -> Hx.
  destruct x as [|c x]; [done|].
  assert (forall k, k <= length x -> drop k x <> [] ->
            (deref (rev (drop k x)) =c "\") = false) as Hrev.
  { intros k Hk Hne.
    assert (rev (c :: x) = rev (drop k x) ++ rev (c :: take k x)) as Hr.
    { rewrite <- rev_app_distr, <- app_comm_cons. by rewrite take_drop. }
    rewrite Hr in Hx. destruct (rev (drop k x)) eqn:Hd; [|done].
    apply (f_equal (@rev _)) in Hd. by rewrite rev_involutive in Hd. }
  rewrite <- app_comm_cons. rewrite (tokens_at (c :: x)) by done.
  rewrite (tokens_at (c :: x ++ _)) by done.
  assert (is_escape (c :: x ++ "*"%char :: y) = is_escape (c :: x)) as Hesc.
  { unfold is_escape. simpl. destruct x as [|d x]; [|done]. simpl in Hx. by rewrite Hx. }
  unfold tok_at, past_tok. rewrite Hesc. destruct (is_escape (c :: x)) eqn:He.
  - destruct x as [|d x]; [by unfold is_escape in He; rewrite andb_comm in He|].
    simpl. f_equal. destruct (decide (x = [])) as [->|Hne]; [done|].
    apply (IH (length x)); simpl; auto; try lia. apply (Hrev 1); simpl; [lia|done].
  - simpl. f_equal. destruct (decide (x = [])) as [->|Hne]; [done|].
    apply (IH (length x)); simpl; auto; try lia. apply (Hrev 0); [lia|done].
Qed.

Lemma skip_stars_spec m :
  exists k, tokens m = replicate k TStar ++ tokens (skip_stars m) /\
    m = replicate k "*"%char ++ skip_stars m /\ deref (skip_stars m) <> "*"%char.
Proof.
  induction m as [|c m (k & Ht & Hm & Hd)]; [by exists 0|]. simpl.
  destruct (ch_eqb_spec c "*") as [->|Hc]; [|by exists 0].
  exists (S k). rewrite tokens_star, Ht. simpl. split_and!; [done | congruence | done].
Qed.

Lemma walk_back_true m :
  walk_back (rev m) = Some true ->
  exists k, tokens m = tokens (take k m) ++ TStar :: replicate (length m - S k) TAny.
Proof.
  intros Hw.
  assert (forall r j, walk_back r = Some true -> exists x i,
            rev r ++ replicate j "?"%char = x ++ "*"%char :: replicate i "?"%char /\
            (deref (rev x) =c "\") = false) as Hgen.
  { clear. intros r. induction r as [|c [|d r] IH]; intros j; [done|done|].
    cbn [walk_back]. destruct (ch_eqb_spec c "?") as [->|Hc].
    - intros Hw. destruct (IH (S j) Hw) as (x & i & Hx & Hd). exists x, i.
      split; [|done]. rewrite <- Hx. cbn [rev replicate]. by rewrite <- app_assoc.
    - intros [= Hb]. apply andb_true_iff in Hb as [Hs Hd]. apply ch_eqb_eq in Hs as ->.
      exists (rev (d :: r)), j. split; [cbn [rev]; by rewrite <- app_assoc|].
      rewrite rev_involutive. by apply negb_true_iff in Hd. }
  destruct (Hgen _ 0 Hw) as (x & i & Hx & Hd).
  rewrite app_nil_r, rev_involutive in Hx. exists (length x).
  rewrite Hx, take_app_length, tokens_app_star by done. do 2 f_equal.
  rewrite length_app. simpl. rewrite length_replicate.
  replace (length x + S i - S (length x)) with i by lia.
  clear. by induction i as [|i IH]; simpl; [|rewrite <- IH].
Qed.

Section mmatch_sound.
Variables old_mask new_mask : cstring.
Hypothesis Hold : is_cstr old_mask.
Hypothesis Hnew : is_cstr new_mask.
Hypothesis Hne : old_mask <> [].

Let G : Prop := covers (tokens old_mask) (tokens new_mask).

  (** What is left to compare ([m], [n]) decides the question; behind a
      star, so does a later start ([ma] against [na]); [V] and [U] are the
      tokens the current attempt has compared. *)
Definition mminv (st : mmstate) : Prop :=
    let '(MMState m n ma na wild) := st in
    is_cstr m /\ is_cstr n /\ is_cstr ma /\ is_cstr na /\
    length m <= length old_mask /\ length ma <= length old_mask /\ length n <= length na /\
    (covers (tokens m) (tokens n) -> G) /\
    if wild then
      (covers (TStar :: tokens ma) (tokens na) -> G) /\ deref ma <> "*"%char /\
      (exists P, tokens old_mask = P ++ TStar :: tokens ma) /\
      exists V U, tokens na = U ++ tokens n /\ tokens ma = V ++ tokens m /\ Forall2 subs V U
    else
      exists V, tokens old_mask = V ++ tokens m /\ Forall non_star V.

Definition mmmu (st : mmstate) : nat :=
    length (mm_na st) * S (length old_mask) + length (mm_m st).

Definition mmres (r : option Z) : Prop :=
    exists z, r = Some z /\ (z = 0 \/ z = 1)%Z /\ (z = 0%Z -> G).

Definition mmgood (bound : nat) (r : mmstate + option Z) : Prop :=
    match r with
    | inl st => mminv st /\ mmmu st < bound
    | inr r => mmres r
    end.

Lemma mmres_0 : G -> mmres (Some 0%Z).
  Proof using. intros H. exists 0%Z. by repeat split; auto. Qed.

Lemma mmres_1 : mmres (Some 1%Z).
  Proof using. exists 1%Z. repeat split; auto; lia. Qed.

Lemma mm_retry_past st :
    mm_na st <> [] -> is_cstr (mm_na st) ->
    mm_retry st = Some (MMState (mm_ma st) (past_tok (mm_na st)) (mm_ma st)
                                (past_tok (mm_na st)) (mm_wild st)).
  Proof using.
    destruct st as [m n ma na wild]. simpl. unfold mm_retry, past_tok. simpl. intros Hna Hc.
    destruct (is_escape na) eqn:He; [|by destruct na].
    unfold is_escape in He. apply andb_true_iff in He as [_ He].
    destruct (tail na); [done|]. done.
  Qed.

Lemma mm_retry_ok m n ma na :
    mminv (MMState m n ma na true) -> na <> [] ->
    mminv (MMState ma (past_tok na) ma (past_tok na) true) /\
    mmmu (MMState ma (past_tok na) ma (past_tok na) true) <
    mmmu (MMState m n ma na true).
  Proof using.
    intros (Hm & Hn & Hma & Hna & Hlm & Hlma & Hln & Hcur & Hstar & Hd & HP & _) Hne'.
    pose proof (past_tok_length na Hne') as Hlen.
    rewrite (tokens_at na) in Hstar by done.
    split; [|unfold mmmu; simpl; nia].
    unfold mminv. split_and!; auto using past_tok_cstr.
    - intros Hc. apply Hstar, covers_star_skip, covers_star, Hc.
    - intros Hc. apply Hstar, covers_star_skip, Hc.
    - exists [], []. by split_and!.
  Qed.

  (** A comparison that succeeds pairs two tokens. *)
Lemma compare_subs m n :
    deref m <> "*"%char ->
    let cm := deref (if is_escape m then tail m else m) in
    let cn := deref (if is_escape n then tail n else n) in
    ((cm =c "*") && negb (is_escape m)) ||
    ((negb (is_escape m) || is_escape n) && (ToLower cm =c ToLower cn)) ||
    ((cm =c "?") && negb (is_escape m) && (negb (cn =c "*") || is_escape n)) = true ->
    subs (tok_at m) (tok_at n).
  Proof using.
    intros Hstar. unfold tok_at. simpl. apply ch_eqb_neq in Hstar.
    destruct (is_escape m); simpl.
    { rewrite andb_false_r, andb_false_r. simpl. rewrite orb_false_r.
      destruct (is_escape n); simpl; [|done]. by rewrite ch_eqb_eq. }
    rewrite Hstar. simpl. rewrite andb_true_r.
    destruct (ch_eqb_spec (deref m) "?") as [Hq|Hq]; simpl.
    - destruct (is_escape n); [done|]. rewrite orb_false_r, Hq.
      destruct (ch_eqb_spec (deref n) "*") as [->|]; [done|].
      by destruct (deref n =c "?").
    - rewrite orb_false_r, ch_eqb_eq. destruct (is_escape n); [done|]. intros Hl.
      apply ch_eqb_neq in Hstar.
      destruct (ch_eqb_spec (deref n) "*") as [Hn|]; [|destruct (ch_eqb_spec (deref n) "?") as [Hn|]; [|done]];
        rewrite Hn in Hl; exfalso.
      + by apply Hstar, ToLower_star.
      + by apply Hq, ToLower_qmark.
  Qed.

Lemma mm_compare_ok m n ma na wild bound :
    mminv (MMState m n ma na wild) -> deref m <> "*"%char ->
    (n = [] -> m = [] /\ mmmu (MMState m n ma na wild) < bound) ->
    mmmu (MMState m n ma na wild) <= bound ->
    mmgood bound (mm_compare (MMState m n ma na wild)).
  Proof using.
    intros Hinv Hstar Hn0 Hb.
    pose proof Hinv as (Hm & Hn & Hma & Hna & Hlm & Hlma & Hln & Hcur & Hw).
    destruct (decide (n = [])) as [->|Hne'].
    { destruct (Hn0 eq_refl) as [-> ?]. done. }
    pose proof (compare_subs m n Hstar) as Hs. cbv zeta in Hs.
    unfold mm_compare. cbv zeta.
    assert (tail (if is_escape m then tail m else m) = past_tok m) as ->
      by (unfold past_tok; by destruct (is_escape m)).
    assert (tail (if is_escape n then tail n else n) = past_tok n) as ->
      by (unfold past_tok; by destruct (is_escape n)).
    destruct (_ || _) eqn:Hcmp.
    - specialize (Hs eq_refl).
      assert (m <> []) as Hme.
      { intros ->. clear -Hcmp Hn Hne'. 
        change ((ToLower NUL =c ToLower (deref (if is_escape n then tail n else n))) || false
                = true) in Hcmp.
        rewrite orb_false_r, ch_eqb_eq, (proj2 (ToLower_nul NUL) eq_refl) in Hcmp.
        symmetry in Hcmp. apply (proj1 (ToLower_nul _)) in Hcmp.
        destruct (is_escape n) eqn:He.
        - unfold is_escape in He. rewrite Hcmp in He. by rewrite andb_false_r in He.
        - by apply deref_nul in Hcmp. }
      pose proof (past_tok_length m Hme). pose proof (past_tok_length n Hne').
      split; [|unfold mmmu in *; simpl in *; lia].
      rewrite (tokens_at m), (tokens_at n) in Hcur by done.
      unfold mminv. split_and!; auto using past_tok_cstr; try lia.
      { intros Hc. by apply Hcur, covers_subs. }
      destruct wild.
      + destruct Hw as (Hst & Hd & HP & V & U & HU & HV & HVU). split_and!; auto.
        exists (V ++ [tok_at m]), (U ++ [tok_at n]).
        rewrite <- !app_assoc. simpl. rewrite <- !tokens_at by done.
        split_and!; auto. by apply Forall2_app; [|repeat constructor].
      + destruct Hw as (V & HV & Hns). exists (V ++ [tok_at m]).
        rewrite <- !app_assoc. simpl. rewrite <- !tokens_at by done. split; [done|].
        apply Forall_app. split; [done|]. repeat constructor.
        exact (proj1 (subs_non_star _ _ Hs)).
    - destruct wild; simpl; [|apply mmres_1].
      assert (na <> []) as Hna0 by (intros ->; destruct n; simpl in *; [done|lia]).
      rewrite mm_retry_past by done. cbn [mm_na mm_ma mm_wild].
      destruct (mm_retry_ok _ _ _ _ Hinv Hna0) as [Hi Hlt]. split; [done|lia].
  Qed.

  (** The early return on a mask that ends in a star and question marks. *)
Lemma walk_back_ok n ma na wild :
    mminv (MMState [] n ma na wild) -> walk_back (rev old_mask) = Some true -> G.
  Proof using.
    intros (Hm & Hn & Hma & Hna & Hlm & Hlma & Hln & Hcur & Hw) Hwb.
    apply walk_back_true in Hwb as (k & Hk).
    destruct wild.
    - destruct Hw as (Hst & Hd & (P & HP) & V & U & HU & HV & HVU).
      rewrite app_nil_r in HV. apply Hst. rewrite HV, HU.
      apply covers_any_tail; [done|].
      assert (Forall non_star V) as HnsV.
      { clear -HVU. induction HVU as [|t u V U Hs _ IH]; constructor; [|done].
        exact (proj1 (subs_non_star _ _ Hs)). }
      assert (forall P Q (V R : list token), Forall non_star V -> Forall non_star R ->
                P ++ TStar :: V = Q ++ TStar :: R -> V = R) as Hlast.
      { clear. intros P. induction P as [|p P IH]; intros [|q Q] V R HV HR He; simpl in He; simplify_eq.
        - done.
        - apply Forall_app in HV as [_ HV]. by inversion HV.
        - apply Forall_app in HR as [_ HR]. by inversion HR.
        - by apply (IH Q). }
      rewrite HP, HV in Hk. apply Hlast in Hk; [|done|by apply Forall_replicate].
      rewrite Hk. by apply Forall_replicate.
    - destruct Hw as (V & HV & Hns). exfalso. rewrite app_nil_r in HV.
      rewrite <- HV, Hk in Hns. apply Forall_app in Hns as [_ Hns]. by inversion Hns.
  Qed.

Lemma covers_stars k ts us : covers ts us -> covers (replicate k TStar ++ ts) us.
  Proof using. intros Hc. induction k as [|k IH]; [done|]. by apply covers_star. Qed.

Lemma skip_stars_ok m n ma na wild :
    mminv (MMState m n ma na wild) -> deref m = "*"%char ->
    let m' := skip_stars m in
    mminv (MMState m' n m' n true) /\ deref m' <> "*"%char /\
    mmmu (MMState m' n m' n true) <= mmmu (MMState m n ma na wild).
  Proof using.
    intros (Hm & Hn & Hma & Hna & Hlm & Hlma & Hln & Hcur & Hw) Hs.
    destruct (skip_stars_spec m) as (k & Ht & Hms & Hd). simpl.
    set (m' := skip_stars m) in *. destruct k as [|k].
    { simpl in Hms. by rewrite <- Hms in Hd. }
    rewrite replicate_S_end, <- app_assoc in Ht. simpl in Ht. rewrite Ht in Hcur.
    rewrite Hms in Hm. apply is_cstr_app in Hm as [_ Hm].
    assert (length m' <= length m) as Hlen by (rewrite Hms, length_app; lia).
    split; [|split; [done|unfold mmmu; simpl; nia]].
    unfold mminv. split_and!; auto; try lia.
    - intros Hc. by apply Hcur, covers_stars, covers_star.
    - intros Hc. by apply Hcur, covers_stars.
    - destruct wild.
      + destruct Hw as (_ & _ & (P & HP) & V & U & _ & HV & _).
        exists (P ++ TStar :: V ++ replicate k TStar).
        rewrite HP, HV, Ht, <- app_assoc. simpl. by rewrite <- app_assoc.
      + destruct Hw as (V & HV & _). exists (V ++ replicate k TStar).
        by rewrite HV, Ht, <- app_assoc.
    - by exists [], [].
  Qed.

Lemma mmatch_end_ok n ma na wild :
    mminv (MMState [] n ma na wild) ->
    mmgood (mmmu (MMState [] n ma na wild))
      (if deref n =c NUL then inr (Some 0%Z)
       else match walk_back (rev old_mask) with
            | None => inr None
            | Some true => inr (Some 0%Z)
            | Some false =>
                if negb wild then inr (Some 1%Z)
                else match mm_retry (MMState [] n ma na wild) with
                     | Some st' => mm_compare st'
                     | None => inr None
                     end
            end).
  Proof using Hne.
    intros Hinv. pose proof Hinv as (Hm & Hn & Hma & Hna & Hlm & Hlma & Hln & Hcur & Hw).
    destruct (ch_eqb_spec (deref n) NUL) as [Hz|Hz].
    { apply deref_nul in Hz as ->; [|done]. apply mmres_0, Hcur. by intros s. }
    destruct (walk_back (rev old_mask)) as [[]|] eqn:Hwb.
    - by eapply mmres_0, walk_back_ok.
    - destruct wild; [simpl|apply mmres_1].
      assert (n <> []) as Hn0 by by intros ->.
      assert (na <> []) as Hna0 by (intros ->; destruct n; simpl in *; [done|lia]).
      rewrite mm_retry_past by done. cbn [mm_na mm_ma mm_wild].
      destruct (mm_retry_ok _ _ _ _ Hinv Hna0) as [Hi Hlt].
      destruct Hw as (_ & Hd & _ & V & U & HU & HV & HVU).
      apply mm_compare_ok; auto; [|lia].
      intros Hp. split; [|done].
      (* the attempt has compared no token, so the mask ended at the star *)
      apply Forall2_length in HVU. apply (f_equal length) in HU.
      rewrite (tokens_at na), Hp, (tokens_at n), length_app in HU by done. simpl in HU.
      destruct ma as [|c ma]; [done|]. rewrite app_nil_r in HV.
      apply (f_equal length) in HV. rewrite tokens_at in HV by done. simpl in HV. lia.
    - exfalso.
      destruct (rev old_mask) as [|c r] eqn:Hr.
      { apply (f_equal (@rev _)) in Hr. by rewrite rev_involutive in Hr. }
      clear -Hwb. revert c Hwb. induction r as [|d r IH]; intros c; [done|].
      cbn [walk_back]. destruct (c =c "?"); [apply IH|done].
  Qed.

Lemma mmatch_step_ok st : mminv st -> mmgood (mmmu st) (mmatch_step old_mask st).
  Proof using Hne.
    destruct st as [m n ma na wild]. intros Hinv.
    unfold mmatch_step.
    set (st1 := if deref m =c "*" then _ else _).
    assert (exists m1 ma1 na1 wild1, st1 = MMState m1 n ma1 na1 wild1 /\
      mminv (MMState m1 n ma1 na1 wild1) /\ deref m1 <> "*"%char /\
      mmmu (MMState m1 n ma1 na1 wild1) <= mmmu (MMState m n ma na wild)) as
      (m1 & ma1 & na1 & wild1 & -> & Hinv1 & Hs1 & Hmu).
    { subst st1. destruct (ch_eqb_spec (deref m) "*") as [Hs|Hs].
      - destruct (skip_stars_ok _ _ _ _ _ Hinv Hs) as (H1 & H2 & H3).
        by do 4 eexists.
      - exists m, ma, na, wild. by split_and!. }
    assert (forall b r, mmmu (MMState m1 n ma1 na1 wild1) <= b ->
              mmgood (mmmu (MMState m1 n ma1 na1 wild1)) r -> mmgood b r) as Hweak.
    { intros b [st'|r] Hb; [|done]. simpl. intros [? ?]. split; [done|lia]. }
    apply (Hweak _ _ Hmu).
    pose proof Hinv1 as (Hm & Hn & _).
    destruct (ch_eqb_spec (deref m1) NUL) as [Hz|Hz].
    { apply deref_nul in Hz as ->; [|done]. by apply mmatch_end_ok. }
    destruct (ch_eqb_spec (deref n) NUL) as [Hz'|Hz'].
    - assert (skip_stars m1 = m1) as ->.
      { destruct m1 as [|c m1]; [done|]. simpl in *. apply ch_eqb_neq in Hs1. by rewrite Hs1. }
      apply ch_eqb_neq in Hz. rewrite Hz. apply mmres_1.
    - apply mm_compare_ok; auto. by intros ->.
  Qed.
End mmatch_sound.

Lemma mmatch_result old_mask new_mask :
  is_cstr old_mask -> is_cstr new_mask -> old_mask <> [] ->
  exists z, mmatch old_mask new_mask = Some (Some z) /\ (z = 0 \/ z = 1)%Z /\
    (z = 0%Z -> forall name, matches (tokens new_mask) name -> matches (tokens old_mask) name).
Proof.
  intros Hold Hnew Hne.
  destruct (loop_total (mmatch_step old_mask) (mminv old_mask new_mask) (mmmu old_mask)
    (mmres old_mask new_mask)) with
    (fuel := S (S (length new_mask) * (2 * S (length old_mask))))
    (s := MMState old_mask new_mask old_mask new_mask false) as (r & Hr & z & -> & Hz).
  - intros st Hst. pose proof (mmatch_step_ok old_mask new_mask Hne st Hst) as Hg.
    by destruct (mmatch_step old_mask st).
  - unfold mminv. split_and!; auto. by exists [].
  - unfold mmmu. simpl. nia.
  - exists z. by split.
Qed.

(** C30: [mmatch()] terminates and, when it returns 0, every name that the
    new mask matches is matched by the old one; the old mask must not be
    empty (see [mmatch_empty_oob]). *)
Theorem mmatch_sound old_mask new_mask :
  is_cstr old_mask -> is_cstr new_mask -> old_mask <> [] ->
  exists z, mmatch old_mask new_mask = Some (Some z) /\ (z = 0 \/ z = 1)%Z /\
    (z = 0%Z -> forall name, matches (tokens new_mask) name -> matches (tokens old_mask) name).
Proof. apply mmatch_result. Qed.

(** An empty old mask makes [mmatch()] read the character before it. *)
Lemma mmatch_empty_oob c s : c <> NUL -> mmatch [] (c :: s) = Some None.
Proof. intros Hc. unfold mmatch. simpl. apply ch_eqb_neq in Hc. by rewrite Hc. Qed.

(** ** Witnesses *)
Lemma match_correct_witness :
  exists z, match_ (str "*!*@*.ES") (str "ana!~ana@pc.red.es") = Some (Some z) /\
    (z = 0 \/ z = 1)%Z /\
    (z = 0%Z <-> matches (tokens (str "*!*@*.ES")) (str "ana!~ana@pc.red.es")).
Proof. apply match_correct; try reflexivity; by apply (bool_decide_unpack _). Defined.

Lemma mmatch_sound_witness :
  exists z, mmatch (str "*@*.es") (str "*!x?@*.red.es") = Some (Some z) /\
    (z = 0 \/ z = 1)%Z /\
    (z = 0%Z -> forall name, matches (tokens (str "*!x?@*.red.es")) name ->
       matches (tokens (str "*@*.es")) name).
Proof. apply mmatch_sound; try done; by apply (bool_decide_unpack _). Defined.
