(* ===== verification/Matchcomp.v ===== *)
(** * Compiled masks ([ircd/match.c])

    [matchcomp] writes a mask in another form, and [matchexec] matches with
    it: a star is ["Z"] and a question mark ["A"], the other characters are in
    lower case, and the part after the last star comes, reversed, right after
    the first one.  [matchexec] with a compiled mask is a match with the mask
    ([compiled_mask_matches]).  Pointers into the buffer that is written
    are indices of it, and the ones of [matchexec] are suffixes, at the next
    character to be read. *)
From S2P Require Import Prelude Chattr Match.
From stdpp Require Import options.

(** ** [matchcomp()] *)

(** The variables of the loop; the buffer up to [b], and [fs] and [ls] unless
    they are null. *)
Record cstate := CState {
  cs_b : list ascii; cs_fs : option nat; cs_ls : option nat; cs_star : bool;
  cs_cnt : Z; cs_chset : Z; cs_chset2 : Z
}.

(** [default:] of the switch. *)
Definition comp_chr (ch : ascii) (st : cstate) : cstate :=
  let st :=
    if cs_star st then
      let b := length (cs_b st) in
      CState (cs_b st ++ ["Z"%char]) (Some (default b (cs_fs st))) (Some b) false (cs_cnt st) (cs_chset st)
        (Z.land (cs_chset2 st) (Z.lnot NTL_LOWER))
    else st in
  CState (cs_b st ++ [ToLower ch]) (cs_fs st) (cs_ls st) (cs_star st) (cs_cnt st + 1)
    (Z.land (cs_chset st) (nth (Z.to_nat (code (ToLower ch))) IRCD_CharAttrTab 0%Z)) (Z.land (cs_chset2 st) (Z.lnot NTL_UPPER)).

Definition comp_any (st : cstate) : cstate :=
  CState (cs_b st ++ ["A"%char]) (cs_fs st) (cs_ls st) (cs_star st) (cs_cnt st + 1) (cs_chset st)
    (Z.land (cs_chset2 st) (Z.lnot NTL_LOWER)).

Definition comp_star (st : cstate) : cstate :=
  CState (cs_b st) (cs_fs st) (cs_ls st) true (cs_cnt st) (cs_chset st) (cs_chset2 st).

Fixpoint comp_loop (m : cstring) (st : cstate) : cstate :=
  match m with
  | [] => st
  | ch :: m' =>
      if ch =c "*" then comp_loop m' (comp_star st)
      else if ch =c "?" then comp_loop m' (comp_any st)
      else if ch =c "\" then
        match m' with
        | d :: m'' => if is_wild d then comp_loop m'' (comp_chr d st) else comp_loop m' (comp_chr ch st)
        | [] => comp_chr ch st
        end
      else comp_loop m' (comp_chr ch st)
  end.

Definition swap (i j : nat) (l : list ascii) : list ascii :=
  <[i := nth j l NUL]> (<[j := nth i l NUL]> l).

(** [for (x1 = ls + 1, x2 = (b - 1); x1 < x2; x1++, x2--)] *)
Fixpoint reverse_loop (n x1 x2 : nat) (l : list ascii) : list ascii :=
  match n with
  | O => l
  | S n => if x1 <? x2 then reverse_loop n (S x1) (x2 - 1) (swap x1 x2 l) else l
  end.

(** [for (loop = 0; loop < lmin; loop++)] *)
Fixpoint swap_loop (n x1 x2 : nat) (l : list ascii) : list ascii :=
  match n with
  | O => l
  | S n => swap_loop n (S x1) (S x2) (swap x1 x2 l)
  end.

(** [while ((lmin = (l1 < l2) ? l1 : l2))] *)
Fixpoint rotate_loop (n x1 l1 l2 : nat) (l : list ascii) : list ascii :=
  match n with
  | O => l
  | S n =>
      let lmin := if l1 <? l2 then l1 else l2 in
      if lmin =? 0 then l
      else rotate_loop n (x1 + lmin) (if l1 <? l2 then l1 else l1 - lmin) (if l2 <? l1 then l2 else l2 - lmin)
             (swap_loop lmin x1 (x1 + l1) l)
  end.

(** The mask, [minlen] and [charset]; [chset] starts as [~0]. *)
Definition matchcomp (mask : cstring) : list ascii * Z * Z :=
  let st := comp_loop mask (CState [] None None false 0 (-1) (Z.lor NTL_LOWER NTL_UPPER)) in
  let b := length (cs_b st) in
  let '(buf, fs, ls) :=
    if cs_star st then (cs_b st ++ ["Z"%char], Some (default b (cs_fs st)), Some b) else (cs_b st, cs_fs st, cs_ls st) in
  let charset := Z.lor (cs_chset st) (cs_chset2 st) in
  match fs, ls with
  | Some fs, Some ls =>
      let n := length buf in
      let buf := reverse_loop n (ls + 1) (n - 1) buf in
      (rotate_loop (S n) fs (ls - fs) (n - ls) buf, cs_cnt st, charset)
  | _, _ => (buf, cs_cnt st, charset)
  end.

Definition matchcomp_cmask (mask : cstring) : list ascii := fst (fst (matchcomp mask)).
Definition matchcomp_minlen (mask : cstring) : Z := snd (fst (matchcomp mask)).

Example matchcomp_ex : matchcomp_cmask (str "Head*CHUNK1*chu\*nK2*ch??k3*TaIl") = str "headZliatZchunk1Zchu*nk2ZchAAk3".
Proof. vm_compute. reflexivity. Qed.

(** ** [matchexec()] *)

(** The head: a result, or where the star is: the string from [bs] on, and
    the mask after the star. *)
Fixpoint try_head (s b : list ascii) : Z + list ascii * list ascii :=
  match s with
  | [] => inl (if negb (deref b =c NUL) && (negb (deref b =c "Z") || negb (deref (tail b) =c NUL)) then 1 else 0)%Z
  | x :: s' =>
      if ToLower x =c deref b then try_head s' (tail b)
      else if deref b =c "Z" then inr (s, tail b)
      else if deref b =c "A" then try_head s' (tail b)
      else inl 1%Z
  end.

(** The tail: [r] are the characters before the end of the string, from the
    last one, and the one in front of it.  [None] is a read before that. *)
Fixpoint try_tail (r b : list ascii) : option (Z + list ascii) :=
  match r with
  | [] => None
  | x :: r' =>
      if (ToLower x =c deref b) && negb (deref b =c NUL) then try_tail r' (tail b)
      else if deref b =c "Z" then Some (inr (tail b))
      else if deref b =c "A" then try_tail r' (tail b)
      else Some (inl (if deref b =c NUL then 0 else 1)%Z)
  end.

(** [while ((ToLower( *++s) != ch)) if (--trash < 0) return 4;]: the string
    after the character found and what is left of [trash]. *)
Fixpoint skip_to (ch : ascii) (s : list ascii) (trash : Z) : option (Z + list ascii * Z) :=
  match s with
  | [] => if (trash - 1 <? 0)%Z then Some (inl 4%Z) else None
  | x :: s' =>
      if ToLower x =c ch then Some (inr (s', trash))
      else if (trash - 1 <? 0)%Z then Some (inl 4%Z)
      else skip_to ch s' (trash - 1)
  end.

(** From [trychunk:] on. *)
Inductive chunk_result := CEnd | CNext (s b : list ascii) | CFail | COut.

Fixpoint try_chunk (s b : list ascii) : chunk_result :=
  match b with
  | [] => CEnd
  | y :: b' =>
      if (ToLower (deref s) =c y) && negb (length s =? 0) then try_chunk (tail s) b'
      else if y =c "Z" then CNext s b'
      else if y =c "A" then (if length s =? 0 then COut else try_chunk (tail s) b')
      else CFail
  end.

(** One turn of [while ((ch = *++b))], from the string [s], the mask [b] and
    [trash]. *)
Definition chunk_step (st : list ascii * list ascii * Z) : list ascii * list ascii * Z + option Z :=
  let '(s, b, trash) := st in
  match b with
  | [] => inr (Some 0%Z)
  | ch :: b' =>
      match skip_to ch s trash with
      | None => inr None
      | Some (inl r) => inr (Some r)
      | Some (inr (s1, trash)) =>
          match try_chunk s1 b' with
          | CEnd => inr (Some 0%Z)
          | CNext s2 b2 => inl (s2, b2, trash)
          | CFail => if (trash - 1 <? 0)%Z then inr (Some 5%Z) else inl (s1, b, trash - 1)%Z
          | COut => inr None
          end
      end
  end.

(** [before] is the character in front of the string.  [None] inside is a
    read out of the string. *)
Definition matchexec (before : ascii) (string cmask : list ascii) (minlen : Z) : option (option Z) :=
  match try_head string cmask with
  | inl r => Some (Some r)
  | inr (bs, b) =>
      let trash := (Z.of_nat (length string) - minlen)%Z in
      if (trash <? 0)%Z then Some (Some 2%Z)
      else
        match try_tail (rev string ++ [before]) b with
        | None => Some None
        | Some (inl r) => Some (Some r)
        | Some (inr b) => loop chunk_step (S (length bs)) (bs, b, trash)
        end
  end.

Example matchexec_ex :
  map (fun s => matchexec NUL (str s) (matchcomp_cmask (str "he*c?d*b\*d*xt")) (matchcomp_minlen (str "he*c?d*b\*d*xt")))
    ["heXcXdcZdYb*dxt"; "heXcXdbb*dxt"; "HEcxdb*dt"; "hecxdb*dxt"; "hecxdbXdxt"; "xe"]%string =
  [Some (Some 0); Some (Some 0); Some (Some 2); Some (Some 0); Some (Some 5); Some (Some 1)]%Z.
Proof. vm_compute. reflexivity. Qed.

(** ** The form of a compiled mask *)

(** The segments between stars: the head, and those after each star. *)
Definition zsegs (cs : list (list ascii)) : list ascii := concat (map (cons "Z"%char) cs).

Definition etok (c : ascii) : token := if c =c "A" then TAny else TChr c.
Definition etoks (l : list ascii) : list token := map etok l.
Definition segtoks (h : list ascii) (cs : list (list ascii)) : list token := etoks h ++ concat (map (fun c => TStar :: etoks c) cs).

(** The characters of a segment, and the segments that start with one of the
    mask. *)
Definition cchar (c : ascii) : Prop := c = "A"%char \/ (ToLower c = c /\ c <> NUL /\ c <> "A"%char /\ c <> "Z"%char).
Definition chunk_ok (c : list ascii) : Prop := Forall cchar c /\ match c with x :: _ => x <> "A"%char | [] => False end.

Lemma zsegs_app l1 l2 : zsegs (l1 ++ l2) = zsegs l1 ++ zsegs l2.
Proof. unfold zsegs. by rewrite map_app, concat_app. Qed.

Lemma zsegs_one c : zsegs [c] = "Z"%char :: c.
Proof. unfold zsegs. cbn [map concat]. by rewrite app_nil_r. Qed.

Lemma segtoks_app h l1 l2 : segtoks h (l1 ++ l2) = segtoks h l1 ++ concat (map (fun c => TStar :: etoks c) l2).
Proof. unfold segtoks. by rewrite map_app, concat_app, app_assoc. Qed.

Lemma mequiv_app us ts1 ts2 : mequiv ts1 ts2 -> mequiv (us ++ ts1) (us ++ ts2).
Proof. intros H. induction us as [|u us IH]; [done|]. cbn [app]. by rewrite IH. Qed.

Lemma ToLower_char : forall c, c <> NUL -> cchar (ToLower c) /\ ToLower c <> "A"%char.
Proof.
  intros c Hc. assert (H : forall c, c <> NUL -> ToLower (ToLower c) = ToLower c /\ ToLower c <> NUL /\ ToLower c <> "A"%char /\ ToLower c <> "Z"%char).
  { clear. all_chars. }
  destruct (H c Hc) as (H1 & H2 & H3 & H4). split; [by right|done].
Qed.

Lemma mequiv_chr c ts : mequiv (TChr (ToLower c) :: ts) (TChr c :: ts).
Proof.
  intros s. rewrite !matches_chr_inv. assert (H : ToLower (ToLower c) = ToLower c) by (revert c; all_chars). by setoid_rewrite H.
Qed.

(** The state of the loop with the segments [h] and [cs]. *)
Definition cstate_of (h : list ascii) (cs : list (list ascii)) (st : cstate) : Prop :=
  cs_b st = h ++ zsegs cs /\ cs_fs st = (match cs with [] => None | _ => Some (length h) end) /\
  cs_ls st = (match cs with [] => None | _ => Some (length (h ++ zsegs (removelast cs))) end) /\
  cs_cnt st = Z.of_nat (length (h ++ concat cs)) /\ Forall cchar h /\ Forall chunk_ok cs.

Definition pending (star : bool) : list token := if star then [TStar] else [].

(** Writing a character at the end of the last segment. *)
Definition push (x : ascii) (h : list ascii) (cs : list (list ascii)) : list ascii * list (list ascii) :=
  match cs with [] => (h ++ [x], []) | _ => (h, removelast cs ++ [default [] (last cs) ++ [x]]) end.

Lemma snoc_cases {A} (l : list A) : l = [] \/ exists l' x, l = l' ++ [x].
Proof. destruct l as [|x l _] using rev_ind; [by left|right; by exists l, x]. Qed.

Lemma push_snoc x h l c : push x h (l ++ [c]) = (h, l ++ [c ++ [x]]).
Proof. unfold push. destruct (l ++ [c]) eqn:E; [by destruct l|]. rewrite <- E. by rewrite removelast_last, last_snoc. Qed.

Lemma push_state x h cs st : cstate_of h cs st -> cchar x -> forall st',
  cs_b st' = cs_b st ++ [x] -> cs_fs st' = cs_fs st -> cs_ls st' = cs_ls st -> cs_cnt st' = (cs_cnt st + 1)%Z ->
  cstate_of (fst (push x h cs)) (snd (push x h cs)) st'.
Proof.
  intros (Hb & Hf & Hl & Hc & Hh & Hcs) Hx st' Eb Ef El Ec. unfold cstate_of. rewrite Eb, Ef, El, Ec, Hb, Hf, Hl, Hc.
  destruct (snoc_cases cs) as [->|(l & c & ->)]; cbn [push fst snd].
  - unfold zsegs. cbn [map concat]. rewrite !app_nil_r, length_app. cbn [length]. split_and!; try done; [lia|].
    apply Forall_app. split; [done|]. by apply Forall_singleton.
  - rewrite push_snoc. cbn [fst snd]. rewrite !removelast_last, !zsegs_app, !concat_app.
    assert (forall y, match l ++ [y : list ascii] with [] => None | _ => Some (length h) end = Some (length h)) as E1 by (intros y; by destruct l).
    assert (forall y v, match l ++ [y : list ascii] with [] => None | _ => Some v end = @Some nat v) as E2 by (intros y v; by destruct l).
    rewrite !E2, !zsegs_one. split_and!; try done.
    + rewrite <- !app_assoc. done.
    + cbn [concat]. rewrite !length_app. cbn [length]. lia.
    + apply Forall_app in Hcs as [H1 H2]. apply Forall_app. split; [done|]. rewrite Forall_singleton in *. destruct H2 as [H2 H3].
      split; [apply Forall_app; split; [done|by apply Forall_singleton]|by destruct c].
Qed.

Lemma push_toks x h cs ts : mequiv (segtoks (fst (push x h cs)) (snd (push x h cs)) ++ ts) (segtoks h cs ++ etok x :: ts).
Proof.
  destruct (snoc_cases cs) as [->|(l & c & ->)]; cbn [push fst snd].
  - unfold segtoks, etoks. cbn [map concat]. rewrite !app_nil_r, map_app, <- app_assoc. done.
  - rewrite push_snoc. cbn [fst snd]. rewrite !segtoks_app, <- !app_assoc. cbn [map concat]. rewrite !app_nil_r.
    unfold etoks. rewrite map_app. cbn [map app]. rewrite <- app_assoc. done.
Qed.

Lemma comp_chr_spec ch h cs st : ch <> NUL -> cstate_of h cs st ->
  exists h' cs', cstate_of h' cs' (comp_chr ch st) /\ cs_star (comp_chr ch st) = false /\
    forall ts, mequiv (segtoks h' cs' ++ ts) (segtoks h cs ++ pending (cs_star st) ++ TChr ch :: ts).
Proof.
  intros Hch Hst. destruct (ToLower_char ch Hch) as [Hx HA].
  assert (Hetok : forall ts, mequiv (etok (ToLower ch) :: ts) (TChr ch :: ts)).
  { intros ts. unfold etok. rewrite (proj2 (ch_eqb_neq _ _)) by done. apply mequiv_chr. }
  destruct (cs_star st) eqn:Es.
  - exists h, (cs ++ [[ToLower ch]]). destruct Hst as (Hb & Hf & Hl & Hc & Hh & Hcs). unfold comp_chr. rewrite Es. cbn [cs_star].
    split; [|split; [done|]].
    + unfold cstate_of. cbn [cs_b cs_fs cs_ls cs_cnt]. rewrite removelast_last, zsegs_app, Hb, Hf, Hc, concat_app.
      assert (E2 : forall v, match cs ++ [[ToLower ch]] with [] => None | _ => Some v end = @Some nat v) by (intros v; by destruct cs).
      rewrite !E2. split_and!; try done.
      * rewrite zsegs_one, <- !app_assoc. done.
      * destruct cs; [|done]. unfold zsegs. cbn [map concat default]. by rewrite app_nil_r.
      * cbn [concat]. rewrite !length_app. cbn [length app]. lia.
      * apply Forall_app. split; [done|]. apply Forall_singleton. split; [by apply Forall_singleton|done].
    + intros ts. rewrite segtoks_app. cbn [map concat etoks app]. rewrite <- app_assoc. cbn [app]. apply mequiv_app.
      unfold pending. cbn [app]. by rewrite Hetok.
  - exists (fst (push (ToLower ch) h cs)), (snd (push (ToLower ch) h cs)).
    split; [|split; [by unfold comp_chr; rewrite Es|]].
    + apply (push_state _ _ _ st); try done; unfold comp_chr; rewrite Es; done.
    + intros ts. rewrite push_toks. apply mequiv_app. cbn [pending app]. apply Hetok.
Qed.

Lemma comp_any_spec h cs st : cstate_of h cs st ->
  exists h' cs', cstate_of h' cs' (comp_any st) /\ cs_star (comp_any st) = cs_star st /\
    forall ts, mequiv (segtoks h' cs' ++ pending (cs_star st) ++ ts) (segtoks h cs ++ pending (cs_star st) ++ TAny :: ts).
Proof.
  intros Hst. exists (fst (push "A" h cs)), (snd (push "A" h cs)). split; [|split; [done|]].
  - apply (push_state _ _ _ st); try done. by left.
  - intros ts. rewrite push_toks. apply mequiv_app. change (etok "A") with TAny. destruct (cs_star st); [|done].
    cbn [pending app]. symmetry. apply mequiv_star_any.
Qed.

Lemma comp_loop_spec m : is_cstr m -> forall h cs st, cstate_of h cs st ->
  exists h' cs', cstate_of h' cs' (comp_loop m st) /\
    mequiv (segtoks h' cs' ++ pending (cs_star (comp_loop m st))) (segtoks h cs ++ pending (cs_star st) ++ tokens m).
Proof.
  remember (length m) as len eqn:Hlen. revert m Hlen. induction (lt_wf len) as [len _ IH]. intros m -> Hm h cs st Hst.
  destruct m as [|c m]; [exists h, cs; split; [done|]; cbn [tokens]; by rewrite app_nil_r|].
  apply is_cstr_cons in Hm as [Hc Hm]. cbn [comp_loop tokens].
  assert (Hstep : forall ch m', ch <> NUL -> is_cstr m' -> length m' < S (length m) ->
    exists h' cs', cstate_of h' cs' (comp_loop m' (comp_chr ch st)) /\
      mequiv (segtoks h' cs' ++ pending (cs_star (comp_loop m' (comp_chr ch st)))) (segtoks h cs ++ pending (cs_star st) ++ TChr ch :: tokens m')).
  { intros ch m' Hch Hm' Hl. destruct (comp_chr_spec ch h cs st Hch Hst) as (h1 & cs1 & H1 & Es & He).
    destruct (IH (length m') Hl m' eq_refl Hm' h1 cs1 _ H1) as (h2 & cs2 & H2 & He2). exists h2, cs2. split; [done|].
    rewrite He2, Es. cbn [pending app]. apply He. }
  destruct (c =c "*") eqn:E1.
  { destruct (IH (length m) ltac:(cbn; lia) m eq_refl Hm h cs (comp_star st)) as (h2 & cs2 & H2 & He2); [done|].
    exists h2, cs2. split; [done|]. rewrite He2. apply mequiv_app. cbn [comp_star cs_star pending app].
    destruct (cs_star st); cbn [pending app]; [|done]. symmetry. apply mequiv_star_star. }
  destruct (c =c "?") eqn:E2.
  { destruct (comp_any_spec h cs st Hst) as (h1 & cs1 & H1 & Es & He).
    destruct (IH (length m) ltac:(cbn; lia) m eq_refl Hm h1 cs1 _ H1) as (h2 & cs2 & H2 & He2).
    exists h2, cs2. split; [done|]. rewrite He2, Es. apply He. }
  destruct (c =c "\") eqn:E3; [|apply Hstep; [done|done|lia]].
  destruct m as [|d m]; [apply (Hstep c []); [done|constructor|cbn; lia]|].
  pose proof Hm as Hm'. apply is_cstr_cons in Hm' as [Hd Hm'].
  destruct (is_wild d); [apply Hstep; [done|done|cbn; lia]|apply (Hstep c (d :: m)); [done|done|cbn; lia]].
Qed.

(** ** The blocks are moved in place *)

Lemma swap_split (p m q : list ascii) (a b : ascii) :
  swap (length p) (length p + S (length m)) (p ++ a :: m ++ b :: q) = p ++ b :: m ++ a :: q.
Proof.
  unfold swap. assert (Ea : nth (length p) (p ++ a :: m ++ b :: q) NUL = a) by (by rewrite app_nth2, Nat.sub_diag by lia).
  assert (Eb : nth (length p + S (length m)) (p ++ a :: m ++ b :: q) NUL = b).
  { rewrite app_nth2 by lia. replace (length p + S (length m) - length p) with (S (length m)) by lia. cbn [nth].
    by rewrite app_nth2, Nat.sub_diag by lia. }
  rewrite Ea, Eb. change (p ++ a :: m ++ b :: q) with (p ++ (a :: m) ++ b :: q). rewrite app_assoc.
  rewrite insert_app_r_alt by (rewrite length_app; cbn [length]; lia).
  replace (length p + S (length m) - length (p ++ a :: m)) with 0 by (rewrite length_app; cbn [length]; lia).
  cbn [insert list_insert]. rewrite <- app_assoc. cbn [app]. rewrite insert_app_r_alt by lia. by rewrite Nat.sub_diag.
Qed.

Lemma reverse_loop_spec n : forall t p q, length t <= n -> 
  reverse_loop n (length p) (length p + length t - 1) (p ++ t ++ q) = p ++ rev t ++ q.
Proof.
  induction n as [|n IH]; intros t p q Hn; [by destruct t; cbn in Hn; [|lia]|]. cbn [reverse_loop].
  destruct t as [|a t]. { cbn [length rev app]. rewrite (proj2 (Nat.ltb_ge _ _)) by lia. done. }
  destruct (snoc_cases t) as [->|(m & b & ->)].
  { cbn [length rev app]. rewrite (proj2 (Nat.ltb_ge _ _)) by lia. done. }
  cbn [length] in *. rewrite length_app in *. cbn [length] in *. rewrite (proj2 (Nat.ltb_lt _ _)) by lia.
  replace (length p + S (length m + 1) - 1) with (length p + S (length m)) by lia.
  change (p ++ (a :: m ++ [b]) ++ q) with (p ++ a :: (m ++ [b]) ++ q). rewrite <- (app_assoc m). cbn [app]. rewrite swap_split.
  replace (length p + S (length m) - 1) with (length (p ++ [b]) + length m - 1) by (rewrite length_app; cbn [length]; lia).
  replace (S (length p)) with (length (p ++ [b])) by (rewrite length_app; cbn [length]; lia).
  change (p ++ b :: m ++ a :: q) with (p ++ [b] ++ m ++ a :: q). rewrite (app_assoc p [b]). rewrite IH by lia.
  cbn [rev]. rewrite rev_app_distr. cbn [rev app]. rewrite <- !app_assoc. done.
Qed.

Lemma swap_loop_spec a : forall b p m q, length b = length a ->
  swap_loop (length a) (length p) (length p + length a + length m) (p ++ a ++ m ++ b ++ q) = p ++ b ++ m ++ a ++ q.
Proof.
  induction a as [|x a IH]; intros b p m q Hb; (destruct b as [|y b]; [|]); try done. cbn [length swap_loop] in *. injection Hb as Hb.
  replace (length p + S (length a) + length m) with (length p + S (length (a ++ m))) by (rewrite length_app; lia).
  replace (p ++ (x :: a) ++ m ++ (y :: b) ++ q) with (p ++ x :: (a ++ m) ++ y :: b ++ q) by (by rewrite <- !app_assoc).
  rewrite swap_split.
  replace (S (length p + S (length (a ++ m)))) with (length (p ++ [y]) + length a + length (m ++ [x])) by (rewrite !length_app; cbn [length]; lia).
  replace (S (length p)) with (length (p ++ [y])) by (rewrite length_app; cbn [length]; lia).
  replace (p ++ y :: (a ++ m) ++ x :: b ++ q) with ((p ++ [y]) ++ a ++ (m ++ [x]) ++ b ++ q) by (rewrite <- !app_assoc; done).
  rewrite IH by done. rewrite <- !app_assoc. done.
Qed.

Lemma rotate_loop_spec n : forall u v p q, length u + length v < n ->
  rotate_loop n (length p) (length u) (length v) (p ++ u ++ v ++ q) = p ++ v ++ u ++ q.
Proof.
  induction n as [|n IH]; intros u v p q Hn; [lia|]. cbn [rotate_loop].
  destruct (Nat.ltb_spec (length u) (length v)) as [Hlt|Hge].
  - destruct (Nat.eqb_spec (length u) 0) as [Hz|Hz]; [by destruct u|].
    rewrite (proj2 (Nat.ltb_ge (length v) (length u))) by lia.
    rewrite <- (take_drop (length u) v) at 2. set (v1 := take (length u) v). set (v2 := drop (length u) v).
    assert (Hv1 : length v1 = length u) by (unfold v1; rewrite length_take; lia).
    replace (length p + length u) with (length p + length u + length (@nil ascii)) at 2 by (cbn; lia).
    rewrite <- (app_assoc v1). change (v1 ++ v2 ++ q) with ([] ++ v1 ++ v2 ++ q). rewrite swap_loop_spec by done. cbn [app].
    replace (length p + length u) with (length (p ++ v1)) by (rewrite length_app; lia).
    replace (length v - length u) with (length v2) by (unfold v2; rewrite length_drop; lia).
    rewrite (app_assoc p v1). rewrite IH by (unfold v2; rewrite length_drop; lia). rewrite <- !app_assoc.
    rewrite (app_assoc v1 v2). unfold v1, v2. by rewrite take_drop.
  - destruct (Nat.eqb_spec (length v) 0) as [Hz|Hz]; [by destruct v|].
    destruct (Nat.ltb_spec (length v) (length u)) as [Hlt|Heq].
    + rewrite <- (take_drop (length v) u) at 3. set (u1 := take (length v) u). set (u2 := drop (length v) u).
      assert (Hu1 : length u1 = length v) by (unfold u1; rewrite length_take; lia).
      assert (Hu2 : length u2 = length u - length v) by (unfold u2; by rewrite length_drop).
      pose proof (swap_loop_spec u1 v p u2 q ltac:(lia)) as Hsw. rewrite Hu1 in Hsw.
      replace (length p + length u) with (length p + length v + length u2) by lia. rewrite <- (app_assoc u1), Hsw.
      pose proof (IH u2 u1 (p ++ v) q ltac:(lia)) as Hrot. rewrite Hu1, Hu2, length_app, <- !app_assoc in Hrot. rewrite Hrot.
      rewrite (app_assoc u1 u2). unfold u1, u2. by rewrite take_drop.
    + assert (Hl : length v = length u) by lia. rewrite Hl, Nat.sub_diag.
      replace (length p + length u) with (length p + length u + length (@nil ascii)) at 2 by (cbn; lia).
      change (u ++ v ++ q) with (u ++ [] ++ v ++ q). rewrite swap_loop_spec by done.
      destruct n as [|n]; [lia|]. done.
Qed.

(** ** What [matchcomp()] gives *)

Lemma matchcomp_spec mask : is_cstr mask ->
  (exists h, matchcomp_cmask mask = h /\ matchcomp_minlen mask = Z.of_nat (length h) /\ Forall cchar h /\ mequiv (etoks h) (tokens mask)) \/
  (exists h mids t, matchcomp_cmask mask = h ++ "Z"%char :: rev t ++ zsegs mids /\
     matchcomp_minlen mask = Z.of_nat (length h + length (concat mids) + length t) /\
     Forall cchar h /\ Forall chunk_ok mids /\ Forall cchar t /\ mequiv (segtoks h (mids ++ [t])) (tokens mask)).
Proof.
  intros Hm. unfold matchcomp_cmask, matchcomp_minlen, matchcomp.
  set (st0 := CState [] None None false 0 (-1) (Z.lor NTL_LOWER NTL_UPPER)).
  destruct (comp_loop_spec mask Hm [] [] st0) as (h & cs & (Hb & Hf & Hl & Hc & Hh & Hcs) & He); [by repeat constructor|].
  cbn [app pending st0 cs_star] in He. change (segtoks [] []) with (@nil token) in He. cbn [app] in He.
  set (st := comp_loop mask st0) in *.
  assert (Hblocks : forall mids t (ls fs : nat), fs = length h -> ls = length (h ++ zsegs mids) ->
    rotate_loop (S (length (h ++ zsegs mids ++ "Z"%char :: t))) fs (ls - fs) (length (h ++ zsegs mids ++ "Z"%char :: t) - ls)
      (reverse_loop (length (h ++ zsegs mids ++ "Z"%char :: t)) (ls + 1) (length (h ++ zsegs mids ++ "Z"%char :: t) - 1) (h ++ zsegs mids ++ "Z"%char :: t)) =
    h ++ "Z"%char :: rev t ++ zsegs mids).
  { intros mids t ls fs -> ->.
    pose proof (reverse_loop_spec (length (h ++ zsegs mids ++ "Z"%char :: t)) t (h ++ zsegs mids ++ ["Z"%char]) []) as Hr.
    rewrite !app_nil_r in Hr. rewrite <- !app_assoc in Hr. cbn [app] in Hr.
    replace (length (h ++ zsegs mids ++ "Z"%char :: t) - 1) with (length (h ++ zsegs mids ++ ["Z"%char]) + length t - 1) by (rewrite !length_app; cbn [length]; lia).
    replace (length (h ++ zsegs mids) + 1) with (length (h ++ zsegs mids ++ ["Z"%char])) by (rewrite !length_app; cbn [length]; lia).
    rewrite Hr by (rewrite !length_app; cbn [length]; lia).
    pose proof (rotate_loop_spec (S (length (h ++ zsegs mids ++ "Z"%char :: t))) (zsegs mids) ("Z"%char :: rev t) h []) as Hro.
    rewrite !app_nil_r in Hro. cbn [length] in Hro. rewrite length_rev in Hro.
    replace (length (h ++ zsegs mids) - length h) with (length (zsegs mids)) by (rewrite length_app; lia).
    replace (length (h ++ zsegs mids ++ "Z"%char :: t) - length (h ++ zsegs mids)) with (S (length t)) by (rewrite !length_app; cbn [length]; lia).
    rewrite Hro by (rewrite !length_app; cbn [length]; lia). done. }
  destruct (cs_star st) eqn:Es.
  - right. exists h, cs, []. cbn [fst snd]. cbn [pending] in He.
    assert (Efs : default (length (cs_b st)) (cs_fs st) = length h).
    { rewrite Hf, Hb. destruct cs; [unfold zsegs; cbn [map concat default]; by rewrite app_nil_r|done]. }
    rewrite Efs. pose proof (Hblocks cs [] (length (cs_b st)) (length h) eq_refl ltac:(by rewrite Hb)) as HB.
    rewrite app_assoc, <- Hb in HB. cbn [fst snd]. split_and!; [exact HB| |done|done|constructor|].
    + rewrite Hc, length_app. cbn [length]. lia.
    + rewrite <- He, segtoks_app. done.
  - cbn [pending] in He. rewrite app_nil_r in He. destruct (snoc_cases cs) as [->|(mids & t & ->)].
    + left. exists h. rewrite Hf. cbn [fst snd]. unfold zsegs in Hb. cbn [map concat] in *. rewrite app_nil_r in *. split_and!; [done|done|done|].
      rewrite <- He. unfold segtoks. cbn [map concat]. by rewrite app_nil_r.
    + right. exists h, mids, t.
      assert (E2 : forall v, match mids ++ [t] with [] => None | _ => Some v end = @Some nat v) by (intros v; by destruct mids).
      rewrite !E2, removelast_last in *. rewrite Hf, Hl. cbn [fst snd].
      pose proof (Hblocks mids t (length (h ++ zsegs mids)) (length h) eq_refl eq_refl) as HB.
      rewrite zsegs_app, zsegs_one in Hb. rewrite <- Hb in HB. apply Forall_app in Hcs as [H1 H2]. rewrite Forall_singleton in H2.
      split_and!; [exact HB| |done|done|apply H2|done].
      rewrite Hc, concat_app. cbn [concat]. rewrite !length_app. cbn [length]. lia.
Qed.

(** ** Matching a segment *)

Definition cm (c x : ascii) : bool := (c =c "A") || (ToLower x =c c).

Fixpoint pm (seg s : list ascii) : bool :=
  match seg, s with
  | [], _ => true
  | c :: seg, x :: s => cm c x && pm seg s
  | _ :: _, [] => false
  end.

Lemma ToLower_not_AZ x : ToLower x <> "A"%char /\ ToLower x <> "Z"%char.
Proof. revert x. assert (H : forall x, ToLower x <> "A"%char /\ ToLower x <> "Z"%char) by all_chars. exact H. Qed.

Lemma ToLower_not_nul x : x <> NUL -> ToLower x <> NUL.
Proof. intros Hx E. by apply Hx, (proj1 (ToLower_nul x)). Qed.

Lemma etok_match c ts x s : cchar c -> matches (etok c :: ts) (x :: s) <-> cm c x = true /\ matches ts s.
Proof.
  intros Hc. unfold etok, cm. destruct (ch_eqb_spec c "A") as [->|Hne]; cbn [orb].
  - rewrite matches_any_inv. split; [by intros (? & ? & [= -> ->] & ?)|]. intros [_ H]. by exists x, s.
  - destruct Hc as [?|(Hl & _)]; [done|]. rewrite matches_chr_inv, Hl. split.
    + intros (d & s' & [= -> ->] & E & H). split; [|done]. apply ch_eqb_eq. done.
    + intros [E H]. apply ch_eqb_eq in E. by exists x, s.
Qed.

Lemma etok_nil c ts : ~ matches (etok c :: ts) [].
Proof. unfold etok. destruct (c =c "A"); [rewrite matches_any_inv|rewrite matches_chr_inv]; naive_solver. Qed.

Lemma pm_app seg ts s : Forall cchar seg -> matches (etoks seg ++ ts) s <-> pm seg s = true /\ matches ts (drop (length seg) s).
Proof.
  intros Hseg. revert s. induction Hseg as [|c seg Hc _ IH]; intros s; cbn [etoks map app pm length]; [by rewrite drop_0; naive_solver|].
  destruct s as [|x s]; [split; [by intros ?%etok_nil|naive_solver]|]. cbn [drop].
  rewrite etok_match by done. fold (etoks seg). rewrite IH, andb_true_iff. tauto.
Qed.

Lemma pm_exact seg s : Forall cchar seg -> matches (etoks seg) s <-> pm seg s = true /\ length s = length seg.
Proof.
  intros Hseg. rewrite <- (app_nil_r (etoks seg)), pm_app, matches_nil_inv by done. split.
  - intros [H1 H2]. split; [done|]. revert s H1 H2. clear. induction seg as [|c seg IH]; intros [|x s] H1 H2; try done.
    cbn [pm] in H1. apply andb_true_iff in H1 as [_ H1]. cbn. f_equal. by apply IH.
  - intros [H1 H2]. split; [done|]. apply drop_ge. lia.
Qed.

Lemma pm_length seg s : pm seg s = true -> length seg <= length s.
Proof. revert s. induction seg as [|c seg IH]; intros [|x s]; cbn; [lia|lia|done|]. intros [_ H]%andb_true_iff. apply IH in H. lia. Qed.

Lemma pm_take seg s n : length seg <= n -> pm seg (take n s) = pm seg s.
Proof.
  revert s n. induction seg as [|c seg IH]; intros [|x s] [|n] H; cbn in *; try done; [lia|]. rewrite IH by lia. done.
Qed.

Lemma pm_two seg1 seg2 s1 s2 : length seg1 = length s1 -> pm (seg1 ++ seg2) (s1 ++ s2) = pm seg1 s1 && pm seg2 s2.
Proof. revert s1. induction seg1 as [|c seg1 IH]; intros [|x s1] H; try done. cbn in *. rewrite IH by lia. by rewrite andb_assoc. Qed.

Lemma pm_rev seg s : length seg = length s -> pm (rev seg) (rev s) = pm seg s.
Proof.
  revert s. induction seg as [|c seg IH]; intros [|x s] H; try done. cbn in H. cbn [rev].
  rewrite pm_two by (rewrite !length_rev; lia). rewrite IH by lia. cbn [pm]. by rewrite andb_true_r, andb_comm.
Qed.

(** *** The three comparisons *)

Lemma cm_head c x b : cchar c -> x <> NUL ->
  cm c x = (ToLower x =c c) || (negb (c =c "Z") && (c =c "A")) /\ c <> NUL /\ c <> "Z"%char /\ (ToLower x =c c = true -> c <> "A"%char) /\ deref (c :: b) = c.
Proof.
  intros Hc Hx. destruct (ToLower_not_AZ x) as [HA HZ]. unfold cm. destruct Hc as [->|(Hl & Hn & HcA & HcZ)].
  - rewrite (proj2 (ch_eqb_neq (ToLower x) "A")) by done. done.
  - rewrite (proj2 (ch_eqb_neq c "A")), (proj2 (ch_eqb_neq c "Z")) by done. cbn [negb andb orb]. by rewrite orb_false_r.
Qed.

(** What comes after a segment. *)
Definition seg_end (b : list ascii) : Prop := is_cstr b /\ (b = [] \/ exists rest, b = "Z"%char :: rest).

Lemma cchar_cstr l : Forall cchar l -> is_cstr l.
Proof. intros H. eapply Forall_impl; [exact H|]. by intros c [->|(? & ? & ? & ?)]. Qed.

Lemma try_head_spec h : Forall cchar h -> forall s b, is_cstr s -> seg_end b ->
  try_head s (h ++ b) =
  if pm h s then
    if length s =? length h then inl (if (length b <=? 1)%nat then 0 else 1)%Z
    else match b with [] => inl 1%Z | _ :: rest => inr (drop (length h) s, rest) end
  else inl 1%Z.
Proof.
  induction 1 as [|c h Hc _ IH]; intros s b Hs [Hb He]; cbn [app pm].
  - destruct s as [|x s]; cbn [length Nat.eqb try_head].
    + destruct He as [->|(rest & ->)]; [done|]. cbn [deref tail].
      change ("Z"%char =c NUL) with false. change ("Z"%char =c "Z") with true. cbn [negb andb orb].
      apply is_cstr_cons in Hb as [_ Hb]. destruct rest as [|y rest]; [done|]. apply is_cstr_cons in Hb as [Hy _].
      cbn [deref length]. by rewrite (proj2 (ch_eqb_neq _ _) Hy).
    + apply is_cstr_cons in Hs as [Hx _]. pose proof (ToLower_not_nul x Hx) as Hn. destruct (ToLower_not_AZ x) as [_ HZ].
      destruct He as [->|(rest & ->)]; cbn [deref tail drop]; by rewrite (proj2 (ch_eqb_neq _ _)).
  - destruct s as [|x s]; cbn [try_head deref length].
    + destruct Hc as [->|(_ & Hn & _ & HZ)]; [done|]. by rewrite !(proj2 (ch_eqb_neq _ _)) by done.
    + apply is_cstr_cons in Hs as [Hx Hs]. destruct (cm_head c x (h ++ b) Hc Hx) as (E & Hn & HZ & _). rewrite E.
      rewrite (proj2 (ch_eqb_neq c "Z")) by done. cbn [negb andb tail Nat.eqb drop]. rewrite IH by done.
      destruct (ToLower x =c c); [done|]. by destruct (c =c "A").
Qed.

Lemma try_tail_spec t : Forall cchar t -> forall r b, length t < length r -> is_cstr (take (length t) r) -> seg_end b ->
  try_tail r (t ++ b) = Some (if pm t r then match b with [] => inl 0%Z | _ :: rest => inr rest end else inl 1%Z).
Proof.
  induction 1 as [|c t Hc _ IH]; intros r b Hl Hr [Hb He]; (destruct r as [|x r]; [cbn in Hl; lia|]); cbn [app try_tail pm length] in *.
  - destruct He as [->|(rest & ->)]; cbn [deref tail].
    + change (NUL =c NUL) with true. cbn [negb]. by rewrite andb_false_r.
    + destruct (ToLower_not_AZ x) as [_ HZ]. by rewrite (proj2 (ch_eqb_neq _ _)).
  - cbn [take] in Hr. apply is_cstr_cons in Hr as [Hx Hr]. destruct (cm_head c x (t ++ b) Hc Hx) as (E & Hn & HZ & _). rewrite E. cbn [deref tail].
    rewrite (proj2 (ch_eqb_neq c "Z")), (proj2 (ch_eqb_neq c NUL)) by done. cbn [negb andb]. rewrite andb_true_r. rewrite IH by (done || lia).
    destruct (ToLower x =c c); [done|]. by destruct (c =c "A").
Qed.

Lemma try_chunk_spec c : Forall cchar c -> forall s b, length c <= length s -> is_cstr (take (length c) s) -> seg_end b ->
  try_chunk s (c ++ b) = if pm c s then match b with [] => CEnd | _ :: rest => CNext (drop (length c) s) rest end else CFail.
Proof.
  induction 1 as [|y c Hc _ IH]; intros s b Hl Hs [Hb He]; cbn [app try_chunk pm length] in *.
  - destruct He as [->|(rest & ->)]; [done|]. cbn [try_chunk]. rewrite drop_0.
    destruct (ToLower_not_AZ (deref s)) as [_ HZ]. by rewrite (proj2 (ch_eqb_neq _ _)).
  - destruct s as [|x s]; [cbn in Hl; lia|]. cbn [take] in Hs. apply is_cstr_cons in Hs as [Hx Hs].
    destruct (cm_head y x (c ++ b) Hc Hx) as (E & Hn & HZ & _). rewrite E. cbn [deref tail length Nat.eqb negb drop].
    rewrite (proj2 (ch_eqb_neq y "Z")) by done. cbn [negb andb]. rewrite andb_true_r. cbn [length] in Hl. rewrite IH by (done || lia).
    destruct (ToLower x =c y); [done|]. by destruct (y =c "A").
Qed.

(** The next character [ch], when it is among the [tr] + 1 first. *)
Lemma skip_to_spec ch tr : forall s, tr < length s ->
  (exists i, i <= tr /\ (forall j, j < i -> cm ch (nth j s NUL) = true -> ch = "A"%char) /\ cm ch (nth i s NUL) = true /\
     skip_to ch s (Z.of_nat tr) = Some (inr (drop (S i) s, Z.of_nat (tr - i)))) \/
  ((forall j, j <= tr -> (ToLower (nth j s NUL) =c ch) = false) /\ skip_to ch s (Z.of_nat tr) = Some (inl 4%Z)).
Proof.
  induction tr as [|tr IH]; intros [|x s] Hl; cbn [length] in Hl; try lia; cbn [skip_to].
  - destruct (ToLower x =c ch) eqn:E.
    + left. exists 0. split_and!; [lia|intros j Hj; lia|unfold cm; cbn [nth]; rewrite E; apply orb_true_r|done].
    + right. split; [intros [|j] Hj; [done|lia]|done].
  - destruct (ToLower x =c ch) eqn:E.
    + left. exists 0. split_and!; [lia|intros j Hj; lia|unfold cm; cbn [nth]; rewrite E; apply orb_true_r|done].
    + rewrite (proj2 (Z.ltb_ge _ _)) by lia. replace (Z.of_nat (S tr) - 1)%Z with (Z.of_nat tr) by lia.
      destruct (IH s ltac:(lia)) as [(i & Hi & Hb & Hm & ->)|[Hno ->]].
      * left. exists (S i). split_and!; [lia| |done|done]. intros [|j] Hj Hc; [|apply (Hb j); [lia|done]].
        cbn [nth] in Hc. unfold cm in Hc. rewrite E, orb_false_r in Hc. by apply ch_eqb_eq.
      * right. split; [|done]. intros [|j] Hj; [done|]. apply Hno. lia.
Qed.

(** ** [charset]: the attributes that all the characters of the mask have *)

Definition attr (c : ascii) : Z := nth (Z.to_nat (code c)) IRCD_CharAttrTab 0%Z.

Definition tok_has (k : Z) (t : token) : bool := match t with TChr c => Z.testbit (attr (ToLower c)) k | _ => true end.

Lemma comp_loop_chset k m : forall st,
  Z.testbit (cs_chset (comp_loop m st)) k = Z.testbit (cs_chset st) k && forallb (tok_has k) (tokens m).
Proof.
  remember (length m) as len eqn:Hlen. revert m Hlen. induction (lt_wf len) as [len _ IH]. intros m -> st.
  assert (Hchr : forall ch st, Z.testbit (cs_chset (comp_chr ch st)) k = Z.testbit (cs_chset st) k && Z.testbit (attr (ToLower ch)) k).
  { intros ch st'. unfold comp_chr, attr. cbn [cs_chset]. rewrite Z.land_spec. by destruct (cs_star st'). }
  assert (Hstep : forall ch m', length m' < length m -> Z.testbit (cs_chset (comp_loop m' (comp_chr ch st))) k =
            Z.testbit (cs_chset st) k && forallb (tok_has k) (TChr ch :: tokens m')).
  { intros ch m' Hl. rewrite (IH (length m') Hl m' eq_refl), Hchr. cbn [forallb tok_has]. by rewrite andb_assoc. }
  destruct m as [|c m]; [cbn; by rewrite andb_true_r|]. cbn [comp_loop tokens].
  destruct (c =c "*"); [by rewrite (IH (length m) ltac:(cbn; lia) m eq_refl)|].
  destruct (c =c "?"); [by rewrite (IH (length m) ltac:(cbn; lia) m eq_refl)|].
  destruct (c =c "\"); [|apply Hstep; cbn; lia].
  destruct m as [|d m]; [apply (Hstep c []); cbn; lia|]. destruct (is_wild d); apply Hstep; cbn; lia.
Qed.

Lemma matches_chars ts s c : matches ts s -> TChr c ∈ ts -> exists x, x ∈ s /\ ToLower x = ToLower c.
Proof.
  induction 1 as [|ts s1 s2 _ IH|ts c' s _ IH|ts c' d s Hc _ IH]; intros Hin.
  - by apply elem_of_nil in Hin.
  - apply elem_of_cons in Hin as [?|Hin]; [done|]. destruct (IH Hin) as (x & Hx & E). exists x. split; [|done]. apply elem_of_app. by right.
  - apply elem_of_cons in Hin as [?|Hin]; [done|]. destruct (IH Hin) as (x & Hx & E). exists x. split; [by right|done].
  - apply elem_of_cons in Hin as [[= ->]|Hin]; [by exists d; split; [left|]|]. destruct (IH Hin) as (x & Hx & E). exists x. split; [by right|done].
Qed.

(** A string of which all the characters have an attribute, in lower case,
    can match only a mask with the attribute in its [charset]: the others
    need not be tried. *)
Theorem matchcomp_charset mask s k : matches (tokens mask) s -> Forall (fun x => Z.testbit (attr (ToLower x)) k = true) s -> (0 <= k)%Z ->
  Z.testbit (snd (matchcomp mask)) k = true.
Proof.
  intros Hm Hs Hk. assert (H : Z.testbit (cs_chset (comp_loop mask (CState [] None None false 0 (-1) (Z.lor NTL_LOWER NTL_UPPER)))) k = true).
  { rewrite comp_loop_chset. cbn [cs_chset]. rewrite Z.bits_m1 by done. apply forallb_forall. intros t Ht. apply list_elem_of_In in Ht.
    destruct t as [| |c]; [done|done|]. destruct (matches_chars _ _ _ Hm Ht) as (x & Hx & E). cbn [tok_has]. rewrite <- E.
    rewrite Forall_forall in Hs. by apply Hs. }
  unfold matchcomp. set (st := comp_loop _ _) in *. destruct (cs_star st), (cs_fs st), (cs_ls st); cbn [snd]; by rewrite Z.lor_spec, H.
Qed.

(** ** The chunks are found one after the other *)

Definition chunk_toks (cs : list (list ascii)) : list token := concat (map (fun c => TStar :: etoks c) cs).

(** The chunks, anywhere in [R] in their order. *)
Definition chunks_in (R : list ascii) (cs : list (list ascii)) : Prop := matches (chunk_toks cs ++ [TStar]) R.

Lemma chunks_in_nil R : chunks_in R [].
Proof. unfold chunks_in. cbn. rewrite matches_star_inv. exists (length R). rewrite drop_all. constructor. Qed.

Lemma chunks_in_drop k R cs : chunks_in (drop k R) cs -> chunks_in R cs.
Proof. unfold chunks_in. destruct cs; cbn; apply matches_star_drop. Qed.

Lemma chunks_in_cons R c cs : Forall cchar c ->
  chunks_in R (c :: cs) <-> exists k, pm c (drop k R) = true /\ chunks_in (drop (k + length c) R) cs.
Proof.
  intros Hc. unfold chunks_in. cbn [chunk_toks map concat app]. rewrite matches_star_inv. fold (chunk_toks cs).
  split; intros (k & H); exists k; rewrite <- app_assoc in *; (apply pm_app in H; [|done]) || (apply pm_app; [done|]); by rewrite drop_drop in *.
Qed.

(** The leftmost place of a chunk is as good as any. *)
Lemma chunks_in_leftmost R c cs i : Forall cchar c -> (forall j, j < i -> pm c (drop j R) = false) -> pm c (drop i R) = true ->
  chunks_in R (c :: cs) <-> chunks_in (drop (i + length c) R) cs.
Proof.
  intros Hc Hb Hi. rewrite chunks_in_cons by done. split.
  - intros (k & Hk & H). destruct (decide (k < i)) as [Hlt|Hge]; [by rewrite Hb in Hk|].
    replace (k + length c) with (i + length c + (k - i)) in H by lia. rewrite <- drop_drop in H. by apply chunks_in_drop in H.
  - intros H. by exists i.
Qed.

Lemma chunks_in_skip R c cs i : Forall cchar c -> (forall j, j < i -> pm c (drop j R) = false) ->
  chunks_in R (c :: cs) <-> chunks_in (drop i R) (c :: cs).
Proof.
  intros Hc Hb. split; [|apply chunks_in_drop]. rewrite !chunks_in_cons by done. intros (k & Hk & H).
  destruct (decide (k < i)) as [Hlt|Hge]; [by rewrite Hb in Hk|]. exists (k - i). rewrite !drop_drop.
  replace (i + (k - i)) with k by lia. replace (i + (k - i + length c)) with (k + length c) by lia. done.
Qed.

Lemma chunks_in_length R cs : Forall chunk_ok cs -> chunks_in R cs -> length (concat cs) <= length R.
Proof.
  intros Hcs. revert R. induction Hcs as [|c cs [Hc _] _ IH]; intros R H; [cbn; lia|]. apply chunks_in_cons in H as (k & Hk & H); [|done].
  apply IH in H. apply pm_length in Hk. rewrite length_drop in *. cbn [concat]. rewrite length_app. lia.
Qed.

Lemma pm_cons_drop y c R j : pm (y :: c) (drop j R) = true -> j < length R /\ cm y (nth j R NUL) = true /\ pm c (drop (S j) R) = true.
Proof.
  revert R. induction j as [|j IH]; intros [|x R] H; try done.
  - cbn [drop pm] in H. apply andb_true_iff in H as [H1 H2]. cbn [length nth drop]. rewrite drop_0. split_and!; [lia|done|done].
  - cbn [drop] in H. apply IH in H as (H1 & H2 & H3). cbn [length nth]. split_and!; [lia|done|done].
Qed.

Lemma pm_drop_cons y c R j : j < length R -> cm y (nth j R NUL) = true -> pm (y :: c) (drop j R) = pm c (drop (S j) R).
Proof.
  revert R. induction j as [|j IH]; intros [|x R] Hj Hm; cbn [length] in Hj; try lia; cbn [nth] in Hm.
  - cbn [drop pm]. by rewrite Hm, drop_0.
  - cbn [drop]. by rewrite IH by (done || lia).
Qed.

Definition cbuf (cs : list (list ascii)) : list ascii := match cs with [] => [] | c :: cs => c ++ zsegs cs end.

Lemma zsegs_end cs : Forall chunk_ok cs -> seg_end (zsegs cs).
Proof.
  intros H. split.
  - unfold is_cstr, zsegs. induction H as [|c cs [Hc _] _ IH]; [constructor|]. cbn [map concat]. apply Forall_app. split; [|done].
    constructor; [done|]. by apply cchar_cstr.
  - destruct cs as [|c cs]; [by left|right]. by eexists.
Qed.

Section chunks.
Context (W : Prop).

(** The state of the loop: [R] is what is left before the tail [T], with [tr]
    characters more than those of the chunks. *)
Definition chunk_inv (st : list ascii * list ascii * Z) : Prop :=
  let '(s, b, trash) := st in
  exists cs R T tr, s = R ++ T /\ is_cstr s /\ b = cbuf cs /\ Forall chunk_ok cs /\ trash = Z.of_nat tr /\
    length R = length (concat cs) + tr /\ (chunks_in R cs <-> W).

Definition chunk_result_ok (r : option Z) : Prop := exists z, r = Some z /\ (z = 0%Z <-> W).

Lemma chunk_step_ok st : chunk_inv st ->
  match chunk_step st with
  | inl st' => chunk_inv st' /\ length (fst (fst st')) < length (fst (fst st))
  | inr r => chunk_result_ok r
  end.
Proof using.
  destruct st as [[s b] trash]. intros (cs & R & T & tr & -> & Hs & -> & Hcs & -> & HR & HW). unfold chunk_step, chunk_result_ok.
  destruct cs as [|c cs]; cbn [cbuf]. { exists 0%Z. split; [done|]. rewrite <- HW. split; [intros _; apply chunks_in_nil|done]. }
  pose proof Hcs as [[Hc Hc0] Hcs']%Forall_cons. destruct c as [|y c]; [done|]. cbn [app]. pose proof Hc as [Hy Hc']%Forall_cons.
  cbn [concat length app] in HR. rewrite length_app in HR.
  assert (Hlen : length (R ++ T) >= length R) by (rewrite length_app; lia).
  assert (Hnth : forall j, j < length R -> nth j (R ++ T) NUL = nth j R NUL) by (intros j Hj; by apply app_nth1).
  destruct (skip_to_spec y tr (R ++ T)) as [(i & Hi & Hb & Hm & ->)|[Hno ->]]; [lia| |].
  - assert (Hbelow : forall j, j < i -> pm (y :: c) (drop j R) = false).
    { intros j Hj. destruct (pm (y :: c) (drop j R)) eqn:E; [|done]. apply pm_cons_drop in E as (E1 & E2 & _). exfalso. apply Hc0.
      apply (Hb j Hj). by rewrite Hnth. }
    rewrite Hnth in Hm by lia. rewrite drop_app_le by lia. set (R1 := drop (S i) R).
    assert (HR1 : length R1 = length c + length (concat cs) + (tr - i)) by (unfold R1; rewrite length_drop; lia).
    assert (Hs1 : is_cstr (R1 ++ T)).
    { unfold R1. rewrite <- drop_app_le by lia. by apply Forall_drop. }
    rewrite try_chunk_spec; [|done|rewrite length_app; lia|by apply Forall_take|by apply zsegs_end].
    assert (Epm : pm c (R1 ++ T) = pm c R1).
    { rewrite <- (pm_take c (R1 ++ T) (length R1)) by lia. by rewrite take_app_length. }
    rewrite Epm. pose proof (pm_drop_cons y c R i ltac:(lia) Hm) as Epi. fold R1 in Epi.
    destruct (pm c R1) eqn:E.
    + pose proof (chunks_in_leftmost R (y :: c) cs i Hc Hbelow Epi) as Hlm. cbn [length] in Hlm.
      assert (Edrop : drop (i + S (length c)) R = drop (length c) R1) by (unfold R1; rewrite drop_drop; f_equal; lia).
      rewrite Edrop in Hlm. destruct cs as [|c2 cs].
      * cbn [zsegs map concat]. exists 0%Z. split; [done|]. rewrite <- HW, Hlm. split; [intros _; apply chunks_in_nil|done].
      * cbn [zsegs map concat app fst]. fold (zsegs cs). split; [|rewrite length_drop, !length_app; lia].
        exists (c2 :: cs), (drop (length c) R1), T, (tr - i). split_and!; [by rewrite drop_app_le by lia| |done|done|done| |by rewrite <- Hlm].
        -- by apply Forall_drop.
        -- rewrite length_drop, HR1. lia.
    + assert (Hbelow' : forall j, j < S i -> pm (y :: c) (drop j R) = false).
      { intros j Hj. destruct (decide (j = i)) as [->|Hne]; [done|]. apply Hbelow. lia. }
      pose proof (chunks_in_skip R (y :: c) cs (S i) Hc Hbelow') as Hsk. fold R1 in Hsk.
      destruct (Z.ltb_spec (Z.of_nat (tr - i) - 1) 0) as [Hlt|Hge].
      * exists 5%Z. split; [done|]. split; [done|]. rewrite <- HW, Hsk. intros H. apply chunks_in_length in H; [|done].
        cbn [concat length app] in H. rewrite length_app in H. lia.
      * cbn [fst]. split; [|rewrite !length_app; unfold R1; rewrite length_drop; lia].
        exists ((y :: c) :: cs), R1, T, (tr - i - 1). split_and!; [done|done|done|done|lia| |by rewrite <- Hsk].
        cbn [concat length app]. rewrite length_app. lia.
  - exists 4%Z. split; [done|]. split; [done|]. rewrite <- HW. intros H. apply (chunks_in_skip R (y :: c) cs (S tr) Hc) in H.
    + apply chunks_in_length in H; [|done]. cbn [concat length app] in H. rewrite length_app, length_drop in H. lia.
    + intros j Hj. destruct (pm (y :: c) (drop j R)) eqn:E; [|done]. apply pm_cons_drop in E as (E1 & E2 & _).
      unfold cm in E2. rewrite <- Hnth in E2 by lia. rewrite Hno, orb_false_r in E2 by lia. by apply ch_eqb_eq in E2.
Qed.

Lemma chunk_loop_ok s b trash : chunk_inv (s, b, trash) ->
  exists z, loop chunk_step (S (length s)) (s, b, trash) = Some (Some z) /\ (z = 0%Z <-> W).
Proof using.
  intros H. destruct (loop_total chunk_step chunk_inv (fun st => length (fst (fst st))) chunk_result_ok chunk_step_ok (S (length s)) (s, b, trash))
    as (r & E & z & -> & Hz); [done|cbn; lia|]. by exists z.
Qed.
End chunks.

(** ** A match with the compiled mask *)

Lemma matches_split ts us s : matches (ts ++ us) s <-> exists s1 s2, s = s1 ++ s2 /\ matches ts s1 /\ matches us s2.
Proof.
  split.
  - revert s. induction ts as [|t ts IH]; intros s H; [by exists [], s; split_and!; [|constructor|]|]. cbn [app] in H.
    inversion H as [|? a1 a2 H'|? c a H'|? c d a Hc H']; subst; apply IH in H' as (s1 & s2 & -> & H1 & H2).
    + exists (a1 ++ s1), s2. split_and!; [by rewrite app_assoc|by constructor|done].
    + exists (c :: s1), s2. split_and!; [done|by constructor|done].
    + exists (d :: s1), s2. split_and!; [done|by constructor|done].
  - intros (s1 & s2 & -> & H1 & H2). induction H1; cbn [app]; [done|rewrite <- app_assoc; by constructor|by constructor|by constructor].
Qed.

(** The tail is what the string ends with. *)
Lemma matches_tail ts t D : Forall cchar t -> length t <= length D ->
  matches (ts ++ etoks t) D <-> pm (rev t) (rev D) = true /\ matches ts (take (length D - length t) D).
Proof.
  intros Ht Hl. rewrite matches_split. set (n := length D - length t).
  assert (Hpm : forall s2, length s2 = length t -> forall s1, pm (rev t) (rev (s1 ++ s2)) = pm t s2).
  { intros s2 Hs2 s1. rewrite rev_app_distr. rewrite <- (pm_take _ _ (length (rev t))) by done.
    rewrite take_app_length' by (by rewrite !length_rev). by apply pm_rev. }
  split.
  - intros (s1 & s2 & -> & H1 & H2). apply pm_exact in H2 as [H2 E2]; [|done]. rewrite Hpm by done. split; [done|].
    unfold n. rewrite length_app, <- E2. replace (length s1 + length s2 - length s2) with (length s1) by lia. by rewrite take_app_length.
  - intros [H1 H2]. exists (take n D), (drop n D). rewrite take_drop. split_and!; [done|done|].
    assert (E : length (drop n D) = length t) by (rewrite length_drop; unfold n; lia).
    apply pm_exact; [done|]. split; [|done]. rewrite <- (Hpm _ E (take n D)), take_drop. done.
Qed.

Lemma matchexec_match before mask s : is_cstr mask -> is_cstr s ->
  exists z, matchexec before s (matchcomp_cmask mask) (matchcomp_minlen mask) = Some (Some z) /\ (z = 0%Z <-> matches (tokens mask) s).
Proof.
  intros Hm Hs. destruct (matchcomp_spec mask Hm) as [(h & -> & -> & Hh & He)|(h & mids & t & -> & -> & Hh & Hmids & Ht & He)].
  - unfold matchexec. pose proof (try_head_spec h Hh s [] Hs) as E. rewrite app_nil_r in E. rewrite E by (split; [constructor|by left]).
    setoid_rewrite <- (He s). setoid_rewrite (pm_exact h s Hh). cbn [length Nat.leb].
    destruct (pm h s) eqn:Ep; [|exists 1%Z; split; [done|split; [done|naive_solver]]].
    destruct (Nat.eqb_spec (length s) (length h)) as [El|El]; [by exists 0%Z|]. exists 1%Z. split; [done|]. split; [done|naive_solver].
  - set (rest := rev t ++ zsegs mids).
    assert (Hrest : seg_end ("Z"%char :: rest)).
    { split; [|right; by eexists]. constructor; [done|]. apply Forall_app. split; [|by apply zsegs_end]. apply Forall_rev. by apply cchar_cstr. }
    assert (HW : matches (tokens mask) s <-> pm h s = true /\ matches (chunk_toks mids ++ TStar :: etoks t) (drop (length h) s)).
    { rewrite <- (He s). unfold segtoks. rewrite pm_app by done. rewrite map_app, concat_app. cbn [map concat]. by rewrite app_nil_r. }
    assert (Htail : forall D, length t <= length D -> matches (chunk_toks mids ++ TStar :: etoks t) D <->
              pm (rev t) (rev D) = true /\ chunks_in (take (length D - length t) D) mids).
    { intros D HD. change (chunk_toks mids ++ TStar :: etoks t) with (chunk_toks mids ++ [TStar] ++ etoks t). rewrite app_assoc. by apply matches_tail. }
    assert (Hmin : forall D, matches (chunk_toks mids ++ TStar :: etoks t) D -> length (concat mids) + length t <= length D).
    { intros D HD. pose proof HD as HD'. apply (matches_split (chunk_toks mids) (TStar :: etoks t)) in HD' as (s1 & s2 & -> & _ & H2).
      assert (Hl2 : length t <= length s2).
      { change (TStar :: etoks t) with ([TStar] ++ etoks t) in H2. apply matches_split in H2 as (s3 & s4 & -> & _ & H4).
        apply pm_exact in H4 as [_ H4]; [|done]. rewrite length_app. lia. }
      apply Htail in HD as [_ HD]; [|rewrite length_app; lia]. apply chunks_in_length in HD; [|done].
      rewrite length_take, !length_app in HD. rewrite length_app. lia. }
    unfold matchexec. fold rest. rewrite try_head_spec by done.
    destruct (pm h s) eqn:Eh; [|exists 1%Z; split; [done|split; [done|naive_solver]]].
    pose proof (pm_length h s Eh) as Hlh.
    destruct (Nat.eqb_spec (length s) (length h)) as [El|El].
    { eexists. split; [done|]. rewrite HW. cbn [length]. rewrite drop_ge by lia. destruct (Nat.leb_spec (S (length rest)) 1) as [H1|H1].
      - assert (Er : rest = []) by (destruct rest; [done|cbn in H1; lia]). unfold rest in Er. apply app_eq_nil in Er as [Er Ez].
        assert (t = []) as -> by (apply (f_equal (@rev ascii)) in Er; by rewrite rev_involutive in Er). split; [|done]. intros _. split; [done|].
        destruct mids as [|m mids]; [apply chunks_in_nil|done].
      - split; [done|]. intros [_ H]. apply Hmin in H. cbn [length] in H. unfold rest in H1. rewrite length_app, length_rev in H1.
        destruct mids as [|m mids]; [change (zsegs []) with (@nil ascii) in H1; cbn [concat length] in *; lia|]. apply Forall_cons in Hmids as [[_ Hm0] _]. destruct m; [done|]. cbn in H. lia. }
    set (D := drop (length h) s). assert (HlD : length D = length s - length h) by (unfold D; apply length_drop).
    destruct (Z.ltb_spec (Z.of_nat (length s) - Z.of_nat (length h + length (concat mids) + length t)) 0) as [Hlt|Hge].
    { exists 2%Z. split; [done|]. split; [done|]. rewrite HW. intros [_ H]. apply Hmin in H. fold D in H. lia. }
    assert (Hrev : rev s ++ [before] = rev D ++ (rev (take (length h) s) ++ [before])).
    { rewrite app_assoc, <- rev_app_distr. unfold D. by rewrite take_drop. }
    unfold rest. rewrite try_tail_spec; cycle 1.
    { by apply Forall_rev. }
    { rewrite Hrev, length_app, !length_rev, length_app. cbn [length]. lia. }
    { rewrite Hrev, take_app_le by (rewrite !length_rev; lia). apply Forall_take, Forall_rev, Forall_drop, Hs. }
    { by apply zsegs_end. }
    assert (Epm : pm (rev t) (rev s ++ [before]) = pm (rev t) (rev D)).
    { rewrite Hrev. rewrite <- (pm_take _ _ (length (rev D))) by (rewrite !length_rev; lia). by rewrite take_app_length. }
    rewrite Epm. destruct (pm (rev t) (rev D)) eqn:Et.
    + assert (HWD : matches (tokens mask) s <-> chunks_in (take (length D - length t) D) mids).
      { rewrite HW. fold D. rewrite Htail by lia. rewrite Et. tauto. }
      destruct mids as [|m mids]; [exists 0%Z; split; [done|]; rewrite HWD; split; [intros _; apply chunks_in_nil|done]|].
      change (zsegs (m :: mids)) with ("Z"%char :: (m ++ zsegs mids)). cbv iota beta.
      apply (chunk_loop_ok (matches (tokens mask) s)).
      exists (m :: mids), (take (length D - length t) D), (drop (length D - length t) D), (length s - (length h + length (concat (m :: mids)) + length t)).
      split_and!; [by rewrite take_drop|by apply Forall_drop|done|done|lia|rewrite length_take; lia|by rewrite HWD].
    + exists 1%Z. split; [done|]. split; [done|]. rewrite HW. fold D. intros [_ H]. pose proof (Hmin _ H). apply Htail in H; [|lia]. rewrite Et in H. naive_solver.
Qed.

(** C29: A compiled mask matches what the mask does: [matchexec()] with what
    [matchcomp()] wrote gives zero exactly when the string matches the mask,
    whatever the character in front of the string is, which it may read; and
    that is what [match()] gives for the masks it reads right. *)
Theorem compiled_mask_matches before mask s : is_cstr mask -> is_cstr s ->
  exists z, matchexec before s (matchcomp_cmask mask) (matchcomp_minlen mask) = Some (Some z) /\
    (z = 0%Z <-> matches (tokens mask) s) /\
    (esc_ok false mask = true -> exists z', match_ mask s = Some (Some z') /\ (z = 0%Z <-> z' = 0%Z)).
Proof.
  intros Hm Hs. destruct (matchexec_match before mask s Hm Hs) as (z & E & Hz). exists z. split; [done|]. split; [done|].
  intros He. destruct (match_result mask s Hm Hs He) as (z' & E' & _ & Hz'). exists z'. split; [done|]. by rewrite Hz, Hz'.
Qed.

(** With a star first and the tail as long as the string, the character in
    front of the string is read; the result does not depend on it. *)
Example before_read : try_tail (rev (str "ab")) (str "ba") = None /\ matchexec "b" (str "ab") (matchcomp_cmask (str "*ab")) 2 = Some (Some 0%Z).
Proof. by vm_compute. Qed.

Lemma compiled_mask_matches_witness :
  exists z, matchexec NUL (str "irc.Example.org") (matchcomp_cmask (str "*.ex?mple*g")) (matchcomp_minlen (str "*.ex?mple*g")) = Some (Some z) /\ z = 0%Z.
Proof.
  destruct (compiled_mask_matches NUL (str "*.ex?mple*g") (str "irc.Example.org")) as (z & E & _ & H);
    [apply (bool_decide_unpack _); vm_compute; exact I|apply (bool_decide_unpack _); vm_compute; exact I|].
  exists z. split; [exact E|]. destruct (H eq_refl) as (z' & E' & ->). vm_compute in E'. by injection E' as <-.
Defined.
