(* ===== verification/Address.v ===== *)
(** * IP addresses ([include/res.h], [ircd/match.c], [ircd/ircd_string.c])

    [struct irc_in_addr] is eight 16-bit words in network byte order on a
    little-endian host: [in6_16] holds the words as stored, and [htons] and
    [ntohs] exchange their bytes.  IPv4 addresses are stored IPv4-mapped. *)
From S2P Require Import Prelude Chattr.
Local Open Scope Z_scope.

(** ** [struct irc_in_addr] and its predicates *)
Abbreviation in_addr := (list Z) (only parsing).

Definition addr_wf (a : in_addr) : Prop :=
  length a = 8%nat /\ Forall (fun w => 0 <= w < 2 ^ 16) a.

Definition in6_16 (a : in_addr) (i : nat) : Z := nth i a 0.

(** [htons] and [ntohs] of a little-endian host. *)
Definition htons (x : Z) : Z :=
  Z.lor (Z.shiftl (Z.land x 255) 8) (Z.land (Z.shiftr x 8) 255).
Definition ntohs := htons.

Definition irc_in_addr_unspec (a : in_addr) : bool :=
  (in6_16 a 0 =? 0) && (in6_16 a 1 =? 0) && (in6_16 a 2 =? 0) && (in6_16 a 3 =? 0) &&
  (in6_16 a 4 =? 0) && (in6_16 a 6 =? 0) && (in6_16 a 7 =? 0) &&
  ((in6_16 a 5 =? 0) || (in6_16 a 5 =? 65535)).

(** [~w] is computed on the [int] the word is promoted to. *)
Definition irc_in_addr_valid (a : in_addr) : bool :=
  let w0 := in6_16 a 0 in
  (negb (w0 =? 0) && negb (Z.lnot w0 =? 0)) ||
  negb (in6_16 a 1 =? w0) || negb (in6_16 a 2 =? w0) || negb (in6_16 a 3 =? w0) ||
  negb (in6_16 a 4 =? w0) || negb (in6_16 a 5 =? w0) || negb (in6_16 a 6 =? w0) ||
  negb (in6_16 a 7 =? w0).

Definition irc_in_addr_is_ipv4 (a : in_addr) : bool :=
  (in6_16 a 0 =? 0) && (in6_16 a 1 =? 0) && (in6_16 a 2 =? 0) && (in6_16 a 3 =? 0) &&
  (in6_16 a 4 =? 0) &&
  (((in6_16 a 5 =? 0) && negb (in6_16 a 6 =? 0)) || (in6_16 a 5 =? 65535)).

(** [0] when the addresses are the same. *)
Definition irc_in_addr_cmp (a b : in_addr) : bool :=
  if irc_in_addr_is_ipv4 a
  then negb (in6_16 a 6 =? in6_16 b 6) || negb (in6_16 a 7 =? in6_16 b 7) ||
       negb (irc_in_addr_is_ipv4 b)
  else negb (bool_decide (a = b)).

Definition irc_in_addr_is_loopback (a : in_addr) : bool :=
  (in6_16 a 0 =? 0) && (in6_16 a 1 =? 0) && (in6_16 a 2 =? 0) && (in6_16 a 3 =? 0) &&
  (in6_16 a 4 =? 0) &&
  (((in6_16 a 5 =? 0) &&
    (((in6_16 a 6 =? 0) && (in6_16 a 7 =? htons 1)) ||
     (Z.land (ntohs (in6_16 a 6)) 0xff00 =? 0x7f00))) ||
   ((in6_16 a 5 =? 65535) && (Z.land (ntohs (in6_16 a 6)) 0xff00 =? 0x7f00))).

(** ** [ipmask_check()]

    The loop over the words, on what is left of the two addresses; [bits] is
    an [unsigned char]. *)
Fixpoint ipmask_loop (addr mask : in_addr) (bits : Z) : Z :=
  match addr, mask with
  | x :: addr', y :: mask' =>
      if bits <? 16 then
        if Z.shiftr (htons (Z.lxor x y)) (16 - bits) =? 0 then 1 else 0
      else if negb (x =? y) then 0
      else let bits := w8 (bits - 16) in
           if bits =? 0 then 1 else ipmask_loop addr' mask' bits
  | _, _ => -1
  end.

Definition ipmask_check (addr mask : in_addr) (bits : Z) : Z := ipmask_loop addr mask bits.

(** ** Facts *)
Lemma w16_bound x n : 0 <= x < 2 ^ 16 -> 16 <= n -> Z.testbit x n = false.
Proof.
  intros Hx Hn. rewrite <- (Z.mod_small x (2 ^ 16)) by lia.
  apply Z.mod_pow2_bits_high. lia.
Qed.

Lemma htons_bits x n : 0 <= n ->
  Z.testbit (htons x) n =
  (if n <? 8 then Z.testbit x (n + 8) else (n <? 16) && Z.testbit x (n - 8)).
Proof.
  intros Hn. unfold htons. rewrite Z.lor_spec, Z.shiftl_spec, !Z.land_spec, Z.shiftr_spec by lia.
  change 255 with (Z.ones 8). destruct (Z.ltb_spec n 8).
  - rewrite (Z.testbit_neg_r x (n - 8)), (Z.ones_spec_low 8 n) by lia. simpl.
    by rewrite andb_true_r.
  - rewrite (Z.ones_spec_high 8 n), andb_false_r, orb_false_r by lia.
    destruct (Z.ltb_spec n 16).
    + by rewrite Z.ones_spec_low, andb_true_r by lia.
    + by rewrite Z.ones_spec_high, andb_false_r by lia.
Qed.

Lemma htons_lxor x y : htons (Z.lxor x y) = Z.lxor (htons x) (htons y).
Proof.
  apply Z.bits_inj'. intros n Hn. rewrite Z.lxor_spec, !htons_bits, !Z.lxor_spec by lia.
  destruct (n <? 8); [done|]. by destruct (n <? 16).
Qed.

Lemma htons_range x : 0 <= htons x < 2 ^ 16.
Proof.
  assert (htons x = htons x mod 2 ^ 16) as ->; [|apply Z.mod_pos_bound; lia].
  apply Z.bits_inj'. intros n Hn. destruct (Z.ltb_spec n 16).
  - by rewrite Z.mod_pow2_bits_low.
  - rewrite Z.mod_pow2_bits_high, htons_bits by lia.
    destruct (Z.ltb_spec n 8); [lia|]. destruct (Z.ltb_spec n 16); [lia|done].
Qed.

Lemma htons_involutive x : 0 <= x < 2 ^ 16 -> htons (htons x) = x.
Proof.
  intros Hx. apply Z.bits_inj'. intros n Hn. rewrite htons_bits by lia.
  destruct (Z.ltb_spec n 8); [|destruct (Z.ltb_spec n 16)].
  - rewrite htons_bits by lia. replace (n + 8 <? 8) with false by lia.
    replace (n + 8 <? 16) with true by lia. simpl. f_equal. lia.
  - simpl. rewrite htons_bits by lia. replace (n - 8 <? 8) with true by lia. f_equal. lia.
  - simpl. by rewrite w16_bound.
Qed.

Lemma htons_inj x y : 0 <= x < 2 ^ 16 -> 0 <= y < 2 ^ 16 -> htons x = htons y -> x = y.
Proof. intros Hx Hy He. by rewrite <- (htons_involutive x), <- (htons_involutive y), He. Qed.

(** The address as one big-endian number. *)
Fixpoint addr_val (a : in_addr) : Z :=
  match a with
  | [] => 0
  | w :: a' => ntohs w * 2 ^ (16 * Z.of_nat (length a')) + addr_val a'
  end.

Lemma addr_val_range a : 0 <= addr_val a < 2 ^ (16 * Z.of_nat (length a)).
Proof.
  induction a as [|w a IH]; simpl; [lia|]. pose proof (htons_range w).
  replace (16 * Z.of_nat (S (length a))) with (16 + 16 * Z.of_nat (length a)) by lia.
  rewrite Z.pow_add_r by lia. unfold ntohs. nia.
Qed.

Lemma ipmask_loop_prefix a m bits :
  length a = length m ->
  Forall (fun w => 0 <= w < 2 ^ 16) a -> Forall (fun w => 0 <= w < 2 ^ 16) m ->
  0 <= bits <= 16 * Z.of_nat (length a) -> bits < 256 -> a <> [] ->
  let r := ipmask_loop a m bits in
  (r = 0 \/ r = 1) /\
  (r = 1 <-> addr_val a / 2 ^ (16 * Z.of_nat (length a) - bits) =
             addr_val m / 2 ^ (16 * Z.of_nat (length m) - bits)).
Proof.
  revert m bits. induction a as [|x a IH]; intros m bits; [done|].
  destruct m as [|y m]; [done|]. simpl length. intros [= Hlen] Ha Hm Hb Hb8 _.
  rewrite Forall_cons in Ha, Hm. destruct Ha as [Hx Ha], Hm as [Hy Hm].
  pose proof (addr_val_range a) as Hra. pose proof (addr_val_range m) as Hrm.
  rewrite <- Hlen in Hrm.
  set (N := 16 * Z.of_nat (length a)) in *.
  assert (0 <= N) as HN by lia.
  replace (16 * Z.of_nat (S (length a))) with (16 + N) in * by lia.
  replace (16 * Z.of_nat (S (length m))) with (16 + N) in * by lia.
  assert (forall w v k, 0 <= v < 2 ^ N -> 0 <= k ->
            (ntohs w * 2 ^ N + v) / 2 ^ (N + k) = ntohs w / 2 ^ k) as Hhi.
  { intros w v k Hv Hk. rewrite Z.pow_add_r, <- Z.div_div by lia.
    rewrite Z.div_add_l, (Z.div_small v), Z.add_0_r by lia. done. }
  cbn [addr_val ipmask_loop]. rewrite <- Hlen. fold N.
  destruct (Z.ltb_spec bits 16).
  - replace (16 + N - bits) with (N + (16 - bits)) by lia.
    rewrite !Hhi by lia. rewrite htons_lxor.
    rewrite Z.shiftr_lxor, !Z.shiftr_div_pow2 by lia. unfold ntohs.
    destruct (Z.eqb_spec (Z.lxor (htons x / 2 ^ (16 - bits)) (htons y / 2 ^ (16 - bits))) 0) as [He|He].
    + apply Z.lxor_eq in He. tauto.
    + split; [tauto|]. split; [done|]. intros Heq. destruct He. by apply Z.lxor_eq_0_iff.
  - assert (forall w v, 0 <= v < 2 ^ N ->
      (ntohs w * 2 ^ N + v) / 2 ^ (16 + N - bits) =
      ntohs w * 2 ^ (bits - 16) + v / 2 ^ (N - (bits - 16))) as Hlo.
    { intros w v Hv. replace (16 + N - bits) with (N - (bits - 16)) by lia.
      pose proof (Z.pow_pos_nonneg 2 (N - (bits - 16)) ltac:(lia) ltac:(lia)).
      assert (2 ^ N = 2 ^ (bits - 16) * 2 ^ (N - (bits - 16))) as ->.
      { rewrite <- Z.pow_add_r by lia. f_equal. lia. }
      rewrite Z.mul_assoc, Z.div_add_l by lia. done. }
    rewrite !Hlo by lia.
    assert (forall v, 0 <= v < 2 ^ N -> 0 <= v / 2 ^ (N - (bits - 16)) < 2 ^ (bits - 16)) as Hq.
    { intros v Hv. pose proof (Z.pow_pos_nonneg 2 (N - (bits - 16)) ltac:(lia) ltac:(lia)).
      split; [apply Z.div_pos; lia|].
      apply Z.div_lt_upper_bound; [lia|]. rewrite <- Z.pow_add_r by lia.
      replace (N - (bits - 16) + (bits - 16)) with N by lia. lia. }
    pose proof (Hq _ Hra). pose proof (Hq _ Hrm).
    destruct (Z.eqb_spec x y) as [<-|Hne]; simpl.
    + unfold w8. rewrite Z.mod_small by lia.
      destruct (Z.eqb_spec (bits - 16) 0) as [He|He].
      * split; [tauto|]. split; [|done]. intros _. rewrite !He, Z.sub_0_r.
        rewrite !(Z.div_small _ (2 ^ N)) by lia. done.
      * destruct (IH m (bits - 16)) as [H01 Hiff]; auto; try lia.
        { intros ->. simpl in *. lia. }
        split; [done|]. rewrite Hiff, <- Hlen. fold N. split; [intros ->; lia|lia].
    + split; [tauto|]. split; [done|]. intros He. exfalso. apply Hne.
      apply htons_inj; [done|done|]. fold ntohs in *.
      assert (ntohs x = ntohs y); [|done]. nia.
Qed.

(** [ipmask_check()] is 1 exactly when the first [bits] bits of the two
    addresses are the same, and 0 otherwise, for every mask length up to 128. *)
Theorem ipmask_check_prefix a m bits :
  addr_wf a -> addr_wf m -> 0 <= bits <= 128 ->
  (ipmask_check a m bits = 0 \/ ipmask_check a m bits = 1) /\
  (ipmask_check a m bits = 1 <->
   addr_val a / 2 ^ (128 - bits) = addr_val m / 2 ^ (128 - bits)).
Proof.
  intros [Hla Ha] [Hlm Hm] Hb.
  pose proof (ipmask_loop_prefix a m bits) as H. rewrite Hla, Hlm in H.
  apply H; auto; try lia. by intros ->.
Qed.

(** The all-ones address passes the validity test. *)
Lemma valid_all_ones : irc_in_addr_valid (replicate 8 65535) = true.
Proof. reflexivity. Qed.

Lemma ipmask_check_prefix_witness :
  let a := [htons 0x2001; htons 0xdb8; 0; 0; 0; 0; 0; htons 1] in
  let m := [htons 0x2001; htons 0xdbf; 0; 0; 0; 0; 0; 0] in
  (ipmask_check a m 29 = 0 \/ ipmask_check a m 29 = 1) /\
  (ipmask_check a m 29 = 1 <-> addr_val a / 2 ^ (128 - 29) = addr_val m / 2 ^ (128 - 29)).
Proof.
  apply ipmask_check_prefix; [| |lia]; split; try reflexivity; by apply (bool_decide_unpack _).
Defined.
