(* ===== verification/Base64.v ===== *)
(** * Numnick digits ([ircd/numnicks.c])

    The base-64 conversions: [inttobase64] and [base64toint], and the
    encoding of IP addresses built on them ([iptobase64], [base64toip]). *)
From S2P Require Import Prelude Address.
Local Open Scope Z_scope.

Definition NUMNICKLOG := 6.
Definition NUMNICKMASK := 63.
Definition NN_MAX_SERVER := 4096.
Definition NN_MAX_CLIENT := 262144.

Definition convert2y : list ascii :=
  str "ABCDEFGHIJKLMNOPQRSTUVWXYZabcdefghijklmnopqrstuvwxyz0123456789[]".

Definition convert2n : list Z :=
  [ 0; 0; 0; 0; 0; 0; 0; 0; 0; 0; 0; 0; 0; 0; 0; 0;
    0; 0; 0; 0; 0; 0; 0; 0; 0; 0; 0; 0; 0; 0; 0; 0;
    0; 0; 0; 0; 0; 0; 0; 0; 0; 0; 0; 0; 0; 0; 0; 0;
   52;53;54;55;56;57;58;59;60;61; 0; 0; 0; 0; 0; 0;
    0; 0; 1; 2; 3; 4; 5; 6; 7; 8; 9;10;11;12;13;14;
   15;16;17;18;19;20;21;22;23;24;25;62; 0;63; 0; 0;
    0;26;27;28;29;30;31;32;33;34;35;36;37;38;39;40;
   41;42;43;44;45;46;47;48;49;50;51; 0; 0; 0; 0; 0] ++ replicate 128 0.

Definition digit_value (c : ascii) : Z := nth (Z.to_nat (code c)) convert2n 0.
Definition digit_char (d : Z) : ascii := nth (Z.to_nat d) convert2y NUL.

(** The first character is read before the terminator is looked for: the
    string must not be empty. *)
Definition base64toint (s : cstring) : Z :=
  fold_left (fun i c => w32 (w32 (Z.shiftl i NUMNICKLOG) + digit_value c))
    (tail s) (digit_value (deref s)).

(** [buf[--count] = convert2y[v & NUMNICKMASK]; v >>= NUMNICKLOG;] *)
Fixpoint inttobase64 (v : Z) (count : nat) : cstring :=
  match count with
  | O => []
  | S count =>
      inttobase64 (Z.shiftr v NUMNICKLOG) count ++ [digit_char (Z.land v NUMNICKMASK)]
  end.

(** ** Round trip of numbers *)
Lemma digit_value_range c : 0 <= digit_value c < 64.
Proof. revert c. all_chars. Qed.

Lemma digit_roundtrip d : 0 <= d < 64 -> digit_value (digit_char d) = d.
Proof.
  intros Hd. assert (d ∈ seqZ 0 64) as Hin by (apply elem_of_seqZ; lia).
  clear Hd. revert d Hin. apply Forall_forall.
  apply (bool_decide_unpack _). by vm_compute.
Qed.

Lemma digit_char_ok d : 0 <= d < 64 -> digit_char d <> NUL /\ digit_char d <> "_"%char.
Proof.
  intros Hd. assert (d ∈ seqZ 0 64) as Hin by (apply elem_of_seqZ; lia).
  clear Hd. revert d Hin. apply Forall_forall.
  apply (bool_decide_unpack _). by vm_compute.
Qed.

Lemma land_mask v : Z.land v NUMNICKMASK = v mod 64.
Proof. change NUMNICKMASK with (Z.ones 6). by rewrite Z.land_ones. Qed.

Lemma length_inttobase64 v n : length (inttobase64 v n) = n.
Proof. revert v. induction n as [|n IH]; intros v; [done|]. simpl. rewrite length_app, IH. simpl. lia. Qed.

Lemma inttobase64_chars v n :
  Forall (fun c => c <> NUL /\ c <> "_"%char) (inttobase64 v n).
Proof.
  revert v. induction n as [|n IH]; intros v; [constructor|]. simpl.
  apply Forall_app. split; [apply IH|]. constructor; [|constructor].
  apply digit_char_ok. rewrite land_mask. apply Z.mod_pos_bound. lia.
Qed.

Lemma base64toint_snoc s c :
  s <> [] -> base64toint (s ++ [c]) = w32 (w32 (base64toint s * 64) + digit_value c).
Proof.
  destruct s as [|d s]; [done|]. intros _. unfold base64toint. simpl.
  rewrite fold_left_app. simpl. by rewrite Z.shiftl_mul_pow2 by done.
Qed.

(** a number survives the trip through its numnick, as far as [count]
    digits and 32 bits carry it. *)
Theorem base64_roundtrip v count :
  0 <= v < 2 ^ 32 -> v < 64 ^ Z.of_nat count -> (0 < count)%nat ->
  base64toint (inttobase64 v count) = v.
Proof.
  revert v. induction count as [|n IH]; intros v Hv Hv64 Hc; [lia|].
  rewrite Nat2Z.inj_succ, Z.pow_succ_r in Hv64 by lia. simpl.
  rewrite land_mask. pose proof (Z.mod_pos_bound v 64 ltac:(lia)) as Hmod.
  rewrite Z.shiftr_div_pow2 by done. change (2 ^ NUMNICKLOG) with 64.
  pose proof (Z.div_mod v 64 ltac:(lia)) as Hdm.
  destruct n as [|n].
  - simpl. unfold base64toint. simpl. rewrite digit_roundtrip by lia.
    change (64 ^ Z.of_nat 0) with 1 in Hv64. rewrite Z.mod_small; lia.
  - assert (0 <= v / 64 < 2 ^ 26) as Hq.
    { split; [apply Z.div_pos; lia|]. apply Z.div_lt_upper_bound; lia. }
    rewrite base64toint_snoc.
    + rewrite IH by (try lia; apply Z.div_lt_upper_bound; lia).
      rewrite digit_roundtrip by lia. rewrite (w32_small (v / 64 * 64)) by lia.
      rewrite w32_small; lia.
    + intros He. apply (f_equal length) in He. by rewrite length_inttobase64 in He.
Qed.

Lemma base64toint_bound s : (0 < length s <= 5)%nat -> 0 <= base64toint s < 64 ^ Z.of_nat (length s).
Proof.
  induction s as [|c s IH] using rev_ind; [simpl; lia|]. rewrite length_app. simpl length.
  intros Hl. destruct s as [|d s].
  { simpl. unfold base64toint. simpl. apply digit_value_range. }
  rewrite base64toint_snoc by done.
  destruct (IH ltac:(simpl in *; lia)) as [H0 H1].
  replace (Z.of_nat (length (d :: s) + 1)) with (Z.succ (Z.of_nat (length (d :: s)))) by lia.
  rewrite Z.pow_succ_r by lia. pose proof (digit_value_range c) as Hd.
  assert (64 ^ Z.of_nat (length (d :: s)) <= 64 ^ 4) as H4.
  { apply Z.pow_le_mono_r; simpl in *; lia. }
  change (64 ^ 4) with 16777216 in H4.
  rewrite (w32_small (_ * 64)), w32_small; lia.
Qed.

(** ** IP addresses *)

(** [for (ii = 0; (ii < 8) && addr->in6_16[ii]; ++ii)]: the leading words
    that are not zero. *)
Fixpoint leading (ws : list Z) : nat :=
  match ws with
  | [] => 0
  | w :: ws' => if w =? 0 then 0 else S (leading ws')
  end.

(** The search for the longest run of zeros from index [ii] on:
    [(ii, max_start, max_zeros, curr_zeros)]. *)
Fixpoint zero_scan (ws : list Z) (ii max_start max_zeros curr_zeros : nat)
  : nat * nat * nat * nat :=
  match ws with
  | [] => (ii, max_start, max_zeros, curr_zeros)
  | w :: ws' =>
      if w =? 0 then zero_scan ws' (S ii) max_start max_zeros (S curr_zeros)
      else if (max_zeros <? curr_zeros)%nat
      then zero_scan ws' (S ii) (ii - curr_zeros) curr_zeros 0
      else zero_scan ws' (S ii) max_start max_zeros curr_zeros
  end.

(** The run that is replaced by an underscore: its start and length. *)
Definition zero_run (a : in_addr) : nat * nat :=
  let ii := leading a in
  let '(ii, max_start, max_zeros, curr_zeros) := zero_scan (drop ii a) ii ii 0 0 in
  if (max_zeros <? curr_zeros)%nat then ((ii - curr_zeros)%nat, curr_zeros)
  else (max_start, max_zeros).

(** The output loops: [n] bounds what is left of the eight words. *)
Fixpoint print_rest (n : nat) (a : in_addr) (ii max_start max_zeros : nat) : cstring :=
  match n with
  | O => []
  | S n =>
      if (ii <? 8)%nat then
        if (ii =? max_start)%nat && negb (max_zeros =? 0)%nat
        then "_"%char :: print_rest n a (ii + max_zeros) max_start max_zeros
        else inttobase64 (ntohs (in6_16 a ii)) 3 ++ print_rest n a (S ii) max_start max_zeros
      else []
  end.

Definition iptobase64 (a : in_addr) (v6_ok : bool) : cstring :=
  if irc_in_addr_is_ipv4 a then
    inttobase64 (w32 (Z.lor (Z.shiftl (ntohs (in6_16 a 6)) 16) (ntohs (in6_16 a 7)))) 6
  else if negb v6_ok then
    if in6_16 a 0 =? htons 0x2002
    then inttobase64 (w32 (Z.lor (Z.shiftl (ntohs (in6_16 a 1)) 16) (ntohs (in6_16 a 2)))) 6
    else str "AAAAAA"
  else
    let lead := leading a in
    let '(max_start, max_zeros) := zero_run a in
    concat (map (fun w => inttobase64 (ntohs w) 3) (take lead a)) ++
    print_rest 8 a lead max_start max_zeros.

(** [*input++]: [None] as a pointer is one past the terminator. *)
Definition next_digit (p : option cstring) : option (Z * option cstring) :=
  match p with
  | Some (c :: s) => Some (digit_value c, Some s)
  | Some [] => Some (digit_value NUL, None)
  | None => None
  end.

(** [addr->in6_16[pos++] = 0], [left] times; [None] is a write past the
    eight words. *)
Fixpoint put_zeros (todo : nat) (a : in_addr) (pos : nat) : option (in_addr * nat) :=
  match todo with
  | O => Some (a, pos)
  | S todo => if (pos <? 8)%nat then put_zeros todo (<[pos := 0]> a) (S pos) else None
  end.

Fixpoint ip_groups (n : nat) (p : option cstring) (a : in_addr) (pos : nat) : option in_addr :=
  match n with
  | O => None
  | S n =>
      let continue p a pos := if (pos <? 8)%nat then ip_groups n p a pos else Some a in
      match p with
      | None => None
      | Some input =>
          if deref input =c "_" then
            let todo := w32 ((25 - Z.of_nat (length input)) mod 2 ^ 64 / 3 - Z.of_nat pos) in
            match put_zeros (Z.to_nat (Z.min todo 9)) a pos with
            | Some (a, pos) => continue (Some (tail input)) a pos
            | None => None
            end
          else
            match next_digit p with
            | None => None
            | Some (d1, p) =>
            match next_digit p with
            | None => None
            | Some (d2, p) =>
            match next_digit p with
            | None => None
            | Some (d3, p) =>
                let accum := w16 d1 in
                let accum := w16 (Z.lor (Z.shiftl accum NUMNICKLOG) d2) in
                let accum := w16 (Z.lor (Z.shiftl accum NUMNICKLOG) d3) in
                continue p (<[pos := ntohs accum]> a) (S pos)
            end
            end
            end
      end
  end.

Definition base64toip (input : cstring) : option in_addr :=
  let addr := replicate 8 0 in
  if (length input =? 6)%nat then
    let v := base64toint input in
    if negb (v =? 0)
    then Some (<[7%nat := htons (Z.land v 65535)]>
               (<[6%nat := htons (Z.shiftr v 16)]> (<[5%nat := htons 65535]> addr)))
    else Some addr
  else ip_groups (S (S (length input))) (Some input) addr 0.

Example ip_ex1 : iptobase64 [0;0;0;0;0;65535;htons 0x7f00;htons 1] false = str "B]AAAB".
Proof. reflexivity. Qed.
Example ip_ex2 : iptobase64 [htons 0x2001;htons 0xdb8;0;0;0;0;0;htons 1] true = str "CABA24_AAB".
Proof. reflexivity. Qed.
Example ip_ex3 :
  base64toip (iptobase64 [htons 0x2001;htons 0xdb8;0;0;0;0;0;htons 1] true)
  = Some [htons 0x2001;htons 0xdb8;0;0;0;0;0;htons 1].
Proof. reflexivity. Qed.
Example ip_ex4 :
  iptobase64 [0;0;htons 1;0;htons 1;0;0;htons 1] true = str "AAAAAAAABAAA_AAB".
Proof. reflexivity. Qed.

(** *** Round trip *)
Definition enc (ws : list Z) : cstring := concat (map (fun w => inttobase64 (ntohs w) 3) ws).

Lemma length_enc ws : length (enc ws) = (3 * length ws)%nat.
Proof.
  induction ws as [|w ws IH]; [done|]. unfold enc in *. cbn [map concat].
  rewrite length_app, length_inttobase64, IH. simpl. lia.
Qed.

(** Three digits carry a 16-bit word. *)
Lemma digits3 v : 0 <= v < 2 ^ 16 ->
  exists c1 c2 c3, inttobase64 v 3 = [c1; c2; c3] /\ c1 <> "_"%char /\
    w16 (Z.lor (Z.shiftl (w16 (Z.lor (Z.shiftl (w16 (digit_value c1)) NUMNICKLOG)
      (digit_value c2))) NUMNICKLOG) (digit_value c3)) = v.
Proof.
  intros Hv. do 3 eexists. split; [reflexivity|]. simpl.
  rewrite !land_mask, !Z.shiftr_div_pow2 by done. change (2 ^ NUMNICKLOG) with 64.
  split; [apply digit_char_ok, Z.mod_pos_bound; lia|].
  rewrite !digit_roundtrip by (apply Z.mod_pos_bound; lia).
  assert (forall x y, 0 <= x < 1024 -> 0 <= y < 64 ->
            w16 (Z.lor (Z.shiftl x NUMNICKLOG) y) = x * 64 + y) as Hacc.
  { intros x y Hx Hy. rewrite lor_shiftl_add by (unfold NUMNICKLOG; lia).
    unfold NUMNICKLOG. rewrite w16_small; lia. }
  pose proof (Z.div_mod v 64 ltac:(lia)). pose proof (Z.div_mod (v / 64) 64 ltac:(lia)).
  pose proof (Z.mod_pos_bound v 64 ltac:(lia)). pose proof (Z.mod_pos_bound (v / 64) 64 ltac:(lia)).
  assert (0 <= v / 64 / 64 < 16) as Hq by lia.
  rewrite (Z.mod_small (v / 64 / 64)) by lia.
  rewrite (w16_small (v / 64 / 64)) by lia.
  rewrite (Hacc (v / 64 / 64)), Hacc by lia. lia.
Qed.

Lemma ip_groups_enc n w ws rest acc :
  0 <= w < 2 ^ 16 -> (length acc < 7)%nat ->
  ip_groups (S n) (Some (enc (w :: ws) ++ rest)) (acc ++ replicate (8 - length acc) 0) (length acc)
  = ip_groups n (Some (enc ws ++ rest)) ((acc ++ [w]) ++ replicate (8 - length (acc ++ [w])) 0)
      (length (acc ++ [w])).
Proof.
  intros Hw Hacc. unfold enc at 1. cbn [map concat]. fold (enc ws).
  destruct (digits3 (ntohs w)) as (c1 & c2 & c3 & Hc & Hu & Hv); [apply htons_range|].
  rewrite Hc. cbn [app ip_groups deref next_digit]. apply ch_eqb_neq in Hu. rewrite Hu.
  cbv zeta. rewrite Hv. unfold ntohs. rewrite htons_involutive by done.
  assert (length (acc ++ [w]) = S (length acc)) as Hl by (rewrite length_app; simpl; lia).
  rewrite Hl. replace (S (length acc) <? 8)%nat with true by (symmetry; apply Nat.ltb_lt; lia).
  f_equal. destruct (8 - length acc)%nat as [|k] eqn:Hk; [lia|].
  replace (8 - S (length acc))%nat with k by lia. simpl.
  rewrite insert_app_r_alt, Nat.sub_diag by done. simpl. by rewrite <- app_assoc.
Qed.

Definition pad (acc : list Z) : in_addr := acc ++ replicate (8 - length acc) 0.

Lemma ip_groups_enc_last n w acc :
  0 <= w < 2 ^ 16 -> length acc = 7%nat ->
  ip_groups (S n) (Some (enc [w])) (pad acc) (length acc) = Some (acc ++ [w]).
Proof.
  intros Hw Hacc. unfold enc. cbn [map concat]. rewrite app_nil_r.
  destruct (digits3 (ntohs w)) as (c1 & c2 & c3 & Hc & Hu & Hv); [apply htons_range|].
  rewrite Hc. cbn [app ip_groups deref next_digit]. apply ch_eqb_neq in Hu. rewrite Hu.
  cbv zeta. rewrite Hv. unfold ntohs. rewrite htons_involutive by done.
  rewrite Hacc. simpl. unfold pad. rewrite Hacc. simpl. f_equal.
  rewrite insert_app_r_alt by lia. by rewrite Hacc.
Qed.

Lemma ip_groups_enc_all n ws acc :
  Forall (fun w => 0 <= w < 2 ^ 16) ws -> ws <> [] -> (length acc + length ws = 8)%nat ->
  (length ws <= n)%nat ->
  ip_groups n (Some (enc ws)) (pad acc) (length acc) = Some (acc ++ ws).
Proof.
  revert n acc. induction ws as [|w ws IH]; intros n acc Hws Hne Hl Hn; [done|].
  rewrite Forall_cons in Hws. destruct Hws as [Hw Hws].
  destruct n as [|n]; [simpl in *; lia|].
  destruct ws as [|w' ws]; [apply ip_groups_enc_last; simpl in *; auto; lia|].
  pose proof (ip_groups_enc n w (w' :: ws) [] acc Hw ltac:(simpl in *; lia)) as He.
  rewrite !app_nil_r in He. unfold pad. rewrite He. fold (pad (acc ++ [w])).
  clear He. rewrite IH; [by rewrite <- app_assoc | exact Hws | done | rewrite length_app; cbn [length] in *; lia | cbn [length] in *; lia].
Qed.

Lemma put_zeros_ok k acc :
  (length acc + k <= 8)%nat ->
  put_zeros k (pad acc) (length acc) =
  Some (pad (acc ++ replicate k 0), (length acc + k)%nat).
Proof.
  revert acc. induction k as [|k IH]; intros acc Hk; cbn [put_zeros].
  - by rewrite app_nil_r, Nat.add_0_r.
  - replace (length acc <? 8)%nat with true by (symmetry; apply Nat.ltb_lt; lia).
    assert (<[length acc := 0]> (pad acc) = pad (acc ++ [0])) as ->.
    { unfold pad. rewrite length_app. simpl.
      replace (8 - length acc)%nat with (S (8 - (length acc + 1))) by lia. simpl.
      rewrite insert_app_r_alt, Nat.sub_diag by done. simpl. by rewrite <- app_assoc. }
    specialize (IH (acc ++ [0])). rewrite length_app in IH. simpl in IH.
    replace (S (length acc)) with (length acc + 1)%nat by lia. rewrite IH by lia.
    rewrite <- app_assoc. simpl. do 2 f_equal. lia.
Qed.

Lemma pad_full acc : length acc = 8%nat -> pad acc = acc.
Proof. intros H. unfold pad. rewrite H. by rewrite app_nil_r. Qed.

Lemma ip_groups_run n k ws acc :
  Forall (fun w => 0 <= w < 2 ^ 16) ws -> (0 < k)%nat -> (length acc + k + length ws = 8)%nat ->
  (length ws < n)%nat ->
  ip_groups n (Some ("_"%char :: enc ws)) (pad acc) (length acc)
  = Some (acc ++ replicate k 0 ++ ws).
Proof.
  intros Hws Hk Hl Hn. destruct n as [|n]; [lia|].
  cbn [ip_groups deref]. change ("_"%char =c "_"%char) with true. cbv iota zeta.
  assert (w32 ((25 - Z.of_nat (length ("_"%char :: enc ws))) mod 2 ^ 64 / 3 - Z.of_nat (length acc))
          = Z.of_nat k) as ->.
  { cbn [length]. rewrite length_enc, Z.mod_small by lia.
    replace (25 - Z.of_nat (S (3 * length ws))) with ((8 - Z.of_nat (length ws)) * 3) by lia.
    rewrite Z.div_mul by lia. rewrite w32_small; lia. }
  rewrite Z.min_l, Nat2Z.id by lia. rewrite put_zeros_ok by lia. cbn [tail].
  destruct (Nat.ltb_spec (length acc + k) 8) as [Hlt|Hge].
  - replace (length acc + k)%nat with (length (acc ++ replicate k 0))
      by (rewrite length_app, length_replicate; lia).
    rewrite ip_groups_enc_all; auto.
    + by rewrite <- app_assoc.
    + intros ->. simpl in *. lia.
    + rewrite length_app, length_replicate. lia.
    + lia.
  - destruct ws; [|simpl in *; lia]. rewrite app_nil_r, pad_full; [done|].
    rewrite length_app, length_replicate. lia.
Qed.

Lemma ip_groups_full n ws k post acc :
  Forall (fun w => 0 <= w < 2 ^ 16) ws -> Forall (fun w => 0 <= w < 2 ^ 16) post ->
  (0 < k)%nat -> (length acc + length ws + k + length post = 8)%nat ->
  (length ws + length post < n)%nat ->
  ip_groups n (Some (enc ws ++ "_"%char :: enc post)) (pad acc) (length acc)
  = Some (acc ++ ws ++ replicate k 0 ++ post).
Proof.
  revert n acc. induction ws as [|w ws IH]; intros n acc Hws Hpost Hk Hl Hn.
  { apply ip_groups_run; simpl in *; auto; lia. }
  rewrite Forall_cons in Hws. destruct Hws as [Hw Hws]. destruct n as [|n]; [lia|].
  unfold pad. rewrite ip_groups_enc by (simpl in *; auto; lia). fold (pad (acc ++ [w])).
  rewrite IH; auto; [by rewrite <- app_assoc | |]; rewrite ?length_app; simpl in *; lia.
Qed.

(** *** The output of [iptobase64] *)
Lemma leading_le ws : (leading ws <= length ws)%nat.
Proof. induction ws as [|w ws IH]; simpl; [lia|]. destruct (w =? 0); lia. Qed.

Lemma zero_scan_spec ws ii lo ms mz cz :
  (cz + lo <= ii)%nat -> (mz = 0 \/ (lo <= ms /\ ms + mz <= ii))%nat ->
  let '(ii', ms', mz', cz') := zero_scan ws ii ms mz cz in
  (ii' = ii + length ws)%nat /\ (cz' + lo <= ii')%nat /\
  (mz' = 0 \/ (lo <= ms' /\ ms' + mz' <= ii'))%nat.
Proof.
  revert ii ms mz cz. induction ws as [|w ws IH]; intros ii ms mz cz Hc Hm; simpl.
  - split_and!; auto; lia.
  - destruct (w =? 0); [|destruct (Nat.ltb_spec mz cz)].
    + specialize (IH (S ii) ms mz (S cz)). destruct (zero_scan _ _ _ _ _) as [[[? ?] ?] ?].
      destruct IH as (-> & ? & ?); [lia|lia|]. split_and!; auto; lia.
    + specialize (IH (S ii) (ii - cz)%nat cz 0%nat). destruct (zero_scan _ _ _ _ _) as [[[? ?] ?] ?].
      destruct IH as (-> & ? & ?); [lia|lia|]. split_and!; auto; lia.
    + specialize (IH (S ii) ms mz cz). destruct (zero_scan _ _ _ _ _) as [[[? ?] ?] ?].
      destruct IH as (-> & ? & ?); [lia|lia|]. split_and!; auto; lia.
Qed.

Lemma zero_run_bounds a ms mz :
  length a = 8%nat -> zero_run a = (ms, mz) ->
  mz = 0%nat \/ (leading a <= ms /\ ms + mz <= 8)%nat.
Proof.
  intros Hl. unfold zero_run. pose proof (leading_le a).
  pose proof (zero_scan_spec (drop (leading a) a) (leading a) (leading a) (leading a) 0 0
    ltac:(lia) ltac:(by left)) as Hz.
  destruct (zero_scan _ _ _ _ _) as [[[ii s] z] c]. rewrite length_drop in Hz.
  destruct Hz as (-> & ? & ?). destruct (Nat.ltb_spec z c); intros [= <- <-]; lia.
Qed.

Lemma enc_app ws1 ws2 : enc (ws1 ++ ws2) = enc ws1 ++ enc ws2.
Proof. unfold enc. by rewrite map_app, concat_app. Qed.

Lemma enc_step a ii : (ii < length a)%nat ->
  enc (drop ii a) = inttobase64 (ntohs (in6_16 a ii)) 3 ++ enc (drop (S ii) a).
Proof.
  intros Hi. unfold in6_16. destruct (drop ii a) as [|w r] eqn:Hd.
  { apply (f_equal length) in Hd. rewrite length_drop in Hd. simpl in Hd. lia. }
  assert (nth ii a 0 = w) as ->.
  { rewrite <- (take_drop ii a), Hd. rewrite app_nth2; rewrite length_take; [|lia].
    by replace (ii - ii `min` length a)%nat with 0%nat by lia. }
  assert (drop (S ii) a = r) as ->; [|done].
  replace (S ii) with (ii + 1)%nat by lia. by rewrite <- drop_drop, Hd.
Qed.

(** Without a run to replace, or past it, the words are printed one by one. *)
Lemma print_rest_tail n a ii ms mz :
  length a = 8%nat -> (8 - ii <= n)%nat -> mz = 0%nat \/ (ms < ii)%nat ->
  print_rest n a ii ms mz = enc (drop ii a).
Proof.
  intros Hl. revert ii. induction n as [|n IH]; intros ii Hn Hm; cbn [print_rest].
  - by rewrite drop_ge by lia.
  - destruct (Nat.ltb_spec ii 8); [|by rewrite drop_ge by lia].
    assert ((ii =? ms)%nat && negb (mz =? 0)%nat = false) as ->.
    { destruct (Nat.eqb_spec ii ms), (Nat.eqb_spec mz 0); simpl; auto; lia. }
    rewrite IH by lia. by rewrite <- enc_step by lia.
Qed.

Lemma print_rest_run n a ii ms mz :
  length a = 8%nat -> (8 - ii <= n)%nat -> (0 < mz)%nat -> (ii <= ms)%nat -> (ms + mz <= 8)%nat ->
  print_rest n a ii ms mz = enc (take (ms - ii) (drop ii a)) ++ "_"%char :: enc (drop (ms + mz) a).
Proof.
  intros Hl. revert ii. induction n as [|n IH]; intros ii Hn Hz Hi Hm; [lia|]. cbn [print_rest].
  replace (ii <? 8)%nat with true by (symmetry; apply Nat.ltb_lt; lia).
  destruct (Nat.eqb_spec ii ms) as [->|Hne].
  - replace (mz =? 0)%nat with false by (symmetry; apply Nat.eqb_neq; lia). simpl.
    rewrite Nat.sub_diag. simpl. by rewrite print_rest_tail by lia.
  - cbn [andb]. rewrite IH by lia. replace (ms - ii)%nat with (S (ms - S ii)) by lia.
    pose proof (enc_step a ii ltac:(lia)) as He.
    destruct (drop ii a) as [|w r] eqn:Hd.
    { apply (f_equal length) in Hd. rewrite length_drop in Hd. simpl in Hd. lia. }
    assert (drop (S ii) a = r) as Hr.
    { replace (S ii) with (ii + 1)%nat by lia. by rewrite <- drop_drop, Hd. }
    rewrite Hr in *. cbn [take].
    assert (forall r', enc (w :: r') = inttobase64 (ntohs w) 3 ++ enc r') as Hcons by done.
    rewrite Hcons in He |- *. apply app_inv_tail in He. by rewrite He, <- app_assoc.
Qed.

(** The run that [zero_run] chooses consists of zeros. *)
Definition run_is_zero (a : in_addr) : bool :=
  let '(s, n) := zero_run a in forallb (fun w => w =? 0) (take n (drop s a)).

Lemma take_run a s n :
  forallb (fun w => w =? 0) (take n (drop s a)) = true -> (s + n <= length a)%nat ->
  a = take s a ++ replicate n 0 ++ drop (s + n) a.
Proof.
  intros Hz Hl. rewrite <- (take_drop s a) at 1. f_equal.
  rewrite <- (take_drop n (drop s a)), drop_drop. f_equal.
  assert (length (take n (drop s a)) = n) as Hn by (rewrite length_take, length_drop; lia).
  revert Hz Hn. generalize (take n (drop s a)). clear. intros l. revert n.
  induction l as [|w l IH]; intros [|n] Hz Hn; simpl in *; try done.
  apply andb_true_iff in Hz as [Hw Hz]. apply Z.eqb_eq in Hw as ->. f_equal. apply IH; [done|lia].
Qed.

Lemma v6_encoded_length a ms mz :
  length a = 8%nat -> zero_run a = (ms, mz) ->
  enc (take (leading a) a) ++ print_rest 8 a (leading a) ms mz =
  (if (mz =? 0)%nat then enc a else enc (take ms a) ++ "_"%char :: enc (drop (ms + mz) a)).
Proof.
  intros Hl Hz. pose proof (leading_le a). apply zero_run_bounds in Hz; [|done].
  destruct (Nat.eqb_spec mz 0) as [->|Hmz].
  - rewrite print_rest_tail, <- enc_app, take_drop by lia. done.
  - rewrite print_rest_run, app_assoc, <- enc_app by lia. do 2 f_equal.
    rewrite <- (take_drop (leading a) (take ms a)), take_take, Nat.min_l by lia. f_equal.
    by rewrite skipn_firstn_comm.
Qed.

(** an IPv6 address survives the trip through its base-64 form, when the
    run of words replaced by the underscore is a run of zeros. *)
Theorem ipv6_roundtrip a :
  addr_wf a -> irc_in_addr_is_ipv4 a = false -> run_is_zero a = true ->
  base64toip (iptobase64 a true) = Some a.
Proof.
  intros [Hl Ha] H4 Hrun. unfold iptobase64. rewrite H4. cbn [negb].
  unfold run_is_zero in Hrun. destruct (zero_run a) as [ms mz] eqn:Hz.
  fold (enc (take (leading a) a)). rewrite (v6_encoded_length a ms mz) by done.
  apply zero_run_bounds in Hz; [|done]. unfold base64toip.
  change (replicate 8 0) with (pad []). change 0%nat with (length (@nil Z)) at 2 4.
  destruct (Nat.eqb_spec mz 0) as [->|Hmz].
  - rewrite length_enc, Hl. cbn [Nat.mul Nat.add Nat.eqb].
    by apply (ip_groups_enc_all _ a []); auto; [by intros ->|lia].
  - rewrite length_app. cbn [length]. rewrite !length_enc, length_take, length_drop.
    destruct (Nat.eqb_spec (3 * (ms `min` length a) + S (3 * (length a - (ms + mz)))) 6); [lia|].
    pose proof (take_run a ms mz Hrun ltac:(lia)) as Hsplit.
    etransitivity; [apply (ip_groups_full _ _ mz _ [])|]; cycle 5.
    + by rewrite <- Hsplit.
    + by apply Forall_take.
    + by apply Forall_drop.
    + lia.
    + rewrite length_take, length_drop. simpl. lia.
    + rewrite length_take, length_drop. simpl. lia.
Qed.

(** The search does not forget a shorter run: here it takes the words 4 to 6,
    of which the first is 1, for a run of zeros. *)
Lemma ipv6_roundtrip_fails :
  exists a, addr_wf a /\ irc_in_addr_is_ipv4 a = false /\
    base64toip (iptobase64 a true) <> Some a.
Proof.
  exists [0; 0; htons 1; 0; htons 1; 0; 0; htons 1]. split; [|by vm_compute].
  split; [done|]. by apply (bool_decide_unpack _).
Qed.

(** an IPv4-mapped address other than 0.0.0.0 survives the trip through
    its base-64 form. *)
Theorem ipv4_roundtrip a v6_ok :
  addr_wf a -> irc_in_addr_is_ipv4 a = true -> in6_16 a 5 = 65535 ->
  ~ (in6_16 a 6 = 0 /\ in6_16 a 7 = 0) ->
  base64toip (iptobase64 a v6_ok) = Some a.
Proof.
  intros [Hl Ha] H4 H5 Hne. unfold iptobase64. rewrite H4.
  destruct a as [|w0 [|w1 [|w2 [|w3 [|w4 [|w5 [|w6 [|w7 [|]]]]]]]]]; try done.
  unfold irc_in_addr_is_ipv4, in6_16 in *. cbn [nth] in *. subst w5.
  apply andb_true_iff in H4 as [H4 _]. rewrite !andb_true_iff, !Z.eqb_eq in H4.
  destruct H4 as ((((-> & ->) & ->) & ->) & ->).
  rewrite !Forall_cons in Ha. destruct Ha as (_ & _ & _ & _ & _ & _ & H6 & H7 & _).
  pose proof (htons_range w6) as R6. pose proof (htons_range w7) as R7. fold ntohs in R6, R7.
  rewrite lor_shiftl_add by lia. rewrite w32_small by lia.
  unfold base64toip. rewrite length_inttobase64. cbn [Nat.eqb].
  rewrite base64_roundtrip by (lia || (change (64 ^ Z.of_nat 6) with 68719476736; lia)).
  destruct (Z.eqb_spec (ntohs w6 * 2 ^ 16 + ntohs w7) 0) as [Hz|Hz].
  - exfalso. apply Hne. split; apply htons_inj; try lia; change (htons 0) with 0; unfold ntohs in *; lia.
  - cbn [negb]. rewrite Z.shiftr_div_pow2 by lia. change 65535 with (Z.ones 16).
    rewrite Z.land_ones, Z.div_add_l, Z.div_small, Z.add_0_r by lia.
    rewrite Z.add_comm, Z.mod_add, Z.mod_small by lia.
    unfold ntohs. rewrite !htons_involutive by lia. done.
Qed.

(** *** Witnesses *)
Lemma base64_roundtrip_witness : base64toint (inttobase64 4095 2) = 4095.
Proof. apply base64_roundtrip; [lia | reflexivity | lia]. Defined.

Definition ex_v6 : in_addr := [htons 0x2001; htons 0xdb8; 0; 0; htons 7; 0; 0; htons 1].
Definition ex_v4 : in_addr := [0; 0; 0; 0; 0; 65535; htons 0x7f00; htons 1].

Lemma ipv6_roundtrip_witness : base64toip (iptobase64 ex_v6 true) = Some ex_v6.
Proof.
  apply ipv6_roundtrip; try reflexivity. split; [reflexivity|]. by apply (bool_decide_unpack _).
Defined.

Lemma ipv4_roundtrip_witness : base64toip (iptobase64 ex_v4 false) = Some ex_v4.
Proof.
  apply ipv4_roundtrip; try reflexivity; [|by intros []].
  split; [reflexivity|]. by apply (bool_decide_unpack _).
Defined.

#[global] Arguments inttobase64 : simpl never.
#[global] Arguments base64toint : simpl never.
