(* ===== verification/IpText.v ===== *)
(** * IP addresses as text ([ircd/ircd_string.c])

    [ircd_ntoa_r] prints an address, [ipmask_parse] reads an address or a
    mask.  An input pointer is the suffix it points to; the number of
    characters used is the difference of the lengths.  On a failure the
    parser returns 0 ([None]); what it has left in the output by then, which
    no caller reads, is not kept. *)
From S2P Require Import Prelude Chattr Address Base64.
From stdpp Require Import options.
Open Scope Z_scope.

(** ** Printing *)

Definition hexdigits : list ascii := str "0123456789abcdef".

Definition hexdigit (d : Z) : ascii := nth (Z.to_nat d) hexdigits NUL.

(** An entry of [IpQuadTab]: the decimal numeral. *)
Definition quad (n : Z) : list ascii :=
  (if n >=? 100 then [chr (48 + n / 100)] else []) ++
  (if n >=? 10 then [chr (48 + n / 10 mod 10)] else []) ++ [chr (48 + n mod 10)].

Definition IpQuadTab : list (list ascii) := map quad (seqZ 0 256).

(** The bytes of the last two words, in the order of the memory. *)
Definition byte_of (a : in_addr) (i : nat) : Z :=
  Z.land (Z.shiftr (in6_16 a (6 + Nat.div i 2)) (8 * Z.of_nat (Nat.modulo i 2))) 255.

Definition print_quads (a : in_addr) : list ascii :=
  let q i := nth (Z.to_nat (byte_of a i)) IpQuadTab [] in
  q 0%nat ++ "."%char :: q 1%nat ++ "."%char :: q 2%nat ++ "."%char :: q 3%nat.

(** The longest run of zeros, that of index 0 left out. *)
Definition ntoa_run (a : in_addr) : nat * nat :=
  let '(ii, max_start, max_zeros, curr_zeros) := zero_scan (drop 1 a) 1 1 0 0 in
  if (max_zeros <? curr_zeros)%nat then ((ii - curr_zeros)%nat, curr_zeros) else (max_start, max_zeros).

Definition print_part (part : Z) : list ascii :=
  (if part >=? 0x1000 then [hexdigit (Z.shiftr part 12)] else []) ++
  (if part >=? 0x100 then [hexdigit (Z.land (Z.shiftr part 8) 15)] else []) ++
  (if part >=? 0x10 then [hexdigit (Z.land (Z.shiftr part 4) 15)] else []) ++
  [hexdigit (Z.land part 15)].

(** [for (pos = ii = 0; (ii < 8); ++ii)]. *)
Fixpoint ntoa_loop (n : nat) (a : in_addr) (ii max_start max_zeros : nat) : list ascii :=
  match n with
  | O => []
  | S n =>
      if (ii <? 8)%nat then
        if (0 <? max_zeros)%nat && (ii =? max_start)%nat
        then ":"%char :: ntoa_loop n a (ii + (max_zeros - 1) + 1) max_start max_zeros
        else print_part (ntohs (in6_16 a ii)) ++ (if (ii <? 7)%nat then [":"%char] else []) ++
             ntoa_loop n a (S ii) max_start max_zeros
      else []
  end.

Definition ircd_ntoa_r (a : in_addr) : list ascii :=
  if irc_in_addr_is_ipv4 a then print_quads a
  else let '(max_start, max_zeros) := ntoa_run a in ntoa_loop 9 a 0 max_start max_zeros.

(** ** Parsing *)

Definition htonl (x : Z) : Z :=
  Z.lor (Z.shiftl (htons (Z.land x 65535)) 16) (htons (Z.land (Z.shiftr x 16) 65535)).
Definition ntohl := htonl.

(** [for (n = 0; IsDigit(input[++pos]); ) n = n * 10 + input[pos] - '0'], from
    the next character on. *)
Fixpoint mask_digits (p : list ascii) (n : Z) : Z * list ascii :=
  match p with
  | c :: p' => if IsDigit c then mask_digits p' (w32 (n * 10 + code c - 48)) else (n, p)
  | [] => (n, p)
  end.

(** [while (input[++pos] == '*' || input[pos] == sep) ;] from the next
    character on. *)
Fixpoint skip_stars_or (sep : ascii) (p : list ascii) : list ascii :=
  match p with
  | c :: p' => if (c =c "*") || (c =c sep) then skip_stars_or sep p' else p
  | [] => p
  end.

(** The loop of [ircd_aton_ip4]; [pbits] says whether the number of bits is
    wanted.  The result: the address, the bits, and where it stops. *)
Fixpoint aton_loop (pbits : bool) (input : list ascii) (dots part ip : Z) : option (Z * Z * list ascii) :=
  let out bits rest := Some (htonl (Z.lor ip (Z.shiftl part (24 - 8 * dots))), bits, rest) in
  match input with
  | [] => if dots <? 3 then None else out 32 input
  | c :: p =>
      if c =c NUL then (if dots <? 3 then None else out 32 input)
      else if c =c "." then
        let dots := dots + 1 in
        if dots >? 3 then None
        else if deref p =c "." then None
        else
          let ip := Z.lor ip (Z.shiftl part (32 - 8 * dots)) in
          if deref p =c "*" then
            let rest := skip_stars_or "." (tail p) in
            if deref rest =c NUL then Some (htonl ip, dots * 8, rest) else None
          else aton_loop pbits p dots 0 ip
      else if c =c "/" then
        if negb pbits || negb (IsDigit (deref p)) then None
        else
          let '(bits, rest) := mask_digits p 0 in
          if bits >? 32 then None else out bits rest
      else if (48 <=? code c) && (code c <=? 57) then
        let part := part * 10 + code c - 48 in
        if part >? 255 then None else aton_loop pbits p dots part ip
      else None
  end.

Definition ircd_aton_ip4 (pbits : bool) (input : list ascii) : option (Z * Z * list ascii) :=
  if deref input =c "." then None else aton_loop pbits input 0 0 0.

(** The index of a character. *)
Fixpoint strchr (c : ascii) (p : list ascii) : option nat :=
  match p with
  | [] => None
  | x :: p' => if x =c c then Some O else S <$> strchr c p'
  end.

Definition hexval (c : ascii) : option Z :=
  if (48 <=? code c) && (code c <=? 57) then Some (code c - 48)
  else if (65 <=? code c) && (code c <=? 70) then Some (code c - 65 + 10)
  else if (97 <=? code c) && (code c <=? 102) then Some (code c - 97 + 10)
  else None.

Definition zero_addr : in_addr := replicate 8 0.

(** [finish]: what follows the double colon goes to the end. *)
Definition shift_up (ip : in_addr) (ii colon : nat) : in_addr :=
  fold_left (fun ip jj => <[(7 - jj)%nat := in6_16 ip (ii - jj - 1)]> ip) (seq 0 (ii - colon)) ip.
Definition fill_zeros (ip : in_addr) (ii colon : nat) : in_addr :=
  fold_left (fun ip jj => <[(colon + jj)%nat := 0]> ip) (seq 0 (8 - ii)) ip.
Definition finish6 (ip : in_addr) (ii colon : nat) : in_addr :=
  if (colon <? 8)%nat then fill_zeros (shift_up ip ii colon) ii colon else ip.

(** The loop over an IPv6 address; [start] is where the part starts, and the
    bits in the result are those that were written, if any. *)
Fixpoint ip6_loop (pbits : bool) (input start : list ascii) (part : Z) (ii colon : nat) (ip : in_addr)
  : option (list ascii * in_addr * option Z) :=
  let bits z := if pbits then Some z else None in
  if (ii <? 8)%nat then
    match input with
    | [] =>
        let ip := <[ii := htons part]> ip in
        if (colon =? 8)%nat && (S ii <? 8)%nat then None else Some (input, finish6 ip (S ii) colon, bits 128)
    | c :: p =>
        match hexval c with
        | Some chval =>
            let part := Z.lor (w32 (Z.shiftl part 4)) chval in
            if part >? 0xffff then None else ip6_loop pbits p start part ii colon ip
        | None =>
            if c =c ":" then
              if deref p =c "." then None
              else
                let ip := <[ii := htons part]> ip in
                let ii := S ii in
                match p with
                | d :: p2 =>
                    if d =c ":" then
                      if (colon <? 8)%nat then None
                      else if (ii =? 8)%nat then None
                      else ip6_loop pbits p2 p 0 ii ii ip
                    else ip6_loop pbits p p 0 ii colon ip
                | [] => ip6_loop pbits p p 0 ii colon ip
                end
            else if c =c "." then
              match ircd_aton_ip4 pbits start with
              | None => None
              | Some (ip4, b, rest) =>
                  if (6 <? ii)%nat then None
                  else
                    let ip := <[ii := htons (Z.shiftr (ntohl ip4) 16)]> ip in
                    let ip := <[S ii := htons (Z.land (ntohl ip4) 65535)]> ip in
                    Some (rest, finish6 ip (S (S ii)) colon, bits (w8 (b + 96)))
              end
            else if c =c "/" then
              if negb pbits || negb (IsDigit (deref p)) then None
              else
                let ip := <[ii := htons part]> ip in
                let '(part, rest) := mask_digits p 0 in
                if part >? 128 then None else Some (rest, finish6 ip (S ii) colon, bits part)
            else if c =c "*" then
              let rest := skip_stars_or ":" p in
              if negb (deref rest =c NUL) || (colon <? 8)%nat then None
              else
                let '(ip, ii) := if negb (part =? 0) then (<[ii := htons part]> ip, S ii) else (ip, ii) in
                Some (rest, ip, bits (Z.of_nat ii * 16))
            else if c =c NUL then
              let ip := <[ii := htons part]> ip in
              if (colon =? 8)%nat && (S ii <? 8)%nat then None else Some (input, finish6 ip (S ii) colon, bits 128)
            else None
        end
    end
  else if deref input =c NUL then Some (input, finish6 ip ii colon, None) else None.

(** [ipmask_parse]: the characters used, the address and, if they were
    written, the bits. *)
Definition ipmask_parse (pbits : bool) (input : list ascii) : option (nat * in_addr * option Z) :=
  let used rest := (length input - length rest)%nat in
  let colon := strchr ":" input in
  let dot := strchr "." input in
  if (match colon, dot with Some c, Some d => (c <? d)%nat | Some _, None => true | None, _ => false end) then
    '(rest, ip, bits) ←
      (if deref input =c ":" then
         if negb (char_at input 1 =c ":") || (char_at input 2 =c ":") then None
         else ip6_loop pbits (drop 2 input) (drop 2 input) 0 0 0 zero_addr
       else ip6_loop pbits input [] 0 0 8 zero_addr);
    Some (used rest, ip, bits)
  else if bool_decide (is_Some dot) || bool_decide (is_Some (strchr "/" input)) then
    '(addr, b, rest) ← ircd_aton_ip4 pbits input;
    if (used rest =? 0)%nat then None
    else
      let ip := <[5%nat := htons 65535]> zero_addr in
      let ip := <[6%nat := htons (Z.shiftr (ntohl addr) 16)]> ip in
      let ip := <[7%nat := htons (Z.land (ntohl addr) 65535)]> ip in
      Some (used rest, ip, if pbits then Some (w8 (b + 96)) else None)
  else if deref input =c "*" then
    let rest := skip_stars_or "*" (tail input) in
    if deref rest =c NUL then Some (used rest, zero_addr, if pbits then Some 0 else None) else None
  else None.

(** ** Facts *)

Lemma hexval_facts : forall c z, hexval c = Some z ->
  (c =c ":") = false /\ (c =c ".") = false /\ (c =c "*") = false /\ (c =c "/") = false /\ (c =c NUL) = false.
Proof.
  intros c z. destruct c as [[] [] [] [] [] [] [] []]; vm_compute; intros H; try discriminate H; repeat split.
Qed.

Lemma hexdigit_val d : 0 <= d < 16 -> hexval (hexdigit d) = Some d.
Proof.
  intros Hd. assert (Forall (fun d => hexval (hexdigit d) = Some d) (seqZ 0 16)) as H by (by repeat constructor).
  rewrite Forall_forall in H. apply H, elem_of_seqZ. lia.
Qed.

(** The digits of a word. *)
Definition digits_val (s : list ascii) (part : Z) : Z :=
  fold_left (fun p c => p * 16 + match hexval c with Some z => z | None => 0 end) s part.

Definition hexes (s : list ascii) : Prop := Forall (fun c => is_Some (hexval c)) s.

Lemma hexval_range c z : hexval c = Some z -> 0 <= z < 16.
Proof.
  destruct c as [[] [] [] [] [] [] [] []]; vm_compute; intros H; try discriminate H; injection H as <-; by vm_compute.
Qed.

Lemma digits_val_cons c z s part : hexval c = Some z -> digits_val (c :: s) part = digits_val s (part * 16 + z).
Proof. intros Hz. unfold digits_val. cbn [fold_left]. by rewrite Hz. Qed.

Lemma digits_val_mono s : forall part, hexes s -> 0 <= part -> part <= digits_val s part.
Proof.
  induction s as [|c s IH]; intros part Hs Hp; [simpl; lia|]. inversion Hs as [|? ? [z Hz] Hs']; subst.
  rewrite (digits_val_cons _ _ _ _ Hz). apply hexval_range in Hz. specialize (IH (part * 16 + z) Hs' ltac:(lia)). lia.
Qed.

Lemma ip6_digits pb s rest start ii colon ip : (ii < 8)%nat -> forall part,
  hexes s -> 0 <= part -> digits_val s part <= 0xffff ->
  ip6_loop pb (s ++ rest) start part ii colon ip = ip6_loop pb rest start (digits_val s part) ii colon ip.
Proof.
  intros Hii. induction s as [|c s IH]; intros part Hs Hp Hv; [done|].
  inversion Hs as [|? ? [z Hz] Hs']; subst. cbn [app ip6_loop]. apply Nat.ltb_lt in Hii as Hb. rewrite Hb, Hz.
  pose proof (hexval_range _ _ Hz). rewrite (digits_val_cons _ _ _ _ Hz) in Hv |- *.
  pose proof (digits_val_mono s (part * 16 + z) Hs' ltac:(lia)).
  assert (Z.shiftl part 4 = part * 16) as Hsh by (rewrite Z.shiftl_mul_pow2; lia).
  rewrite (w32_small (Z.shiftl part 4)) by lia.
  rewrite lor_shiftl_add by lia. change (2 ^ 4) with 16.
  destruct (Z.gtb_spec (part * 16 + z) 0xffff); [lia|]. apply IH; [done|lia|done].
Qed.

Lemma print_part_ok w : 0 <= w < 2 ^ 16 -> hexes (print_part w) /\ digits_val (print_part w) 0 = w /\ print_part w <> [].
Proof.
  intros Hw. assert (Hd : forall k, 0 <= k -> 0 <= Z.land (Z.shiftr w k) 15 < 16).
  { intros k Hk. change 15 with (Z.ones 4). rewrite Z.land_ones by lia. apply Z.mod_pos_bound. lia. }
  assert (H3 : 0 <= Z.shiftr w 12 < 16).
  { rewrite Z.shiftr_div_pow2 by lia. split; [apply Z.div_pos; lia|apply Z.div_lt_upper_bound; lia]. }
  pose proof (Hd 8 ltac:(lia)) as H2. pose proof (Hd 4 ltac:(lia)) as H1. pose proof (Hd 0 ltac:(lia)) as H0.
  rewrite Z.shiftr_0_r in H0.
  assert (Hs : forall d, 0 <= d < 16 -> is_Some (hexval (hexdigit d))) by (intros d ?; rewrite hexdigit_val by done; eauto).
  split; [|split; [|unfold print_part; by destruct (w >=? 0x1000), (w >=? 0x100), (w >=? 0x10)]].
  - unfold hexes, print_part. rewrite !Forall_app. split_and!; [destruct (w >=? 0x1000)|destruct (w >=? 0x100)|destruct (w >=? 0x10)|];
      repeat constructor; by apply Hs.
  - assert (Hexp : w = ((Z.shiftr w 12 * 16 + Z.land (Z.shiftr w 8) 15) * 16 + Z.land (Z.shiftr w 4) 15) * 16 + Z.land w 15).
    { change 15 with (Z.ones 4). rewrite !Z.land_ones, !Z.shiftr_div_pow2 by lia. clear.
      change (2 ^ 4) with 16. change (2 ^ 8) with 256. change (2 ^ 12) with 4096.
      Z.to_euclidean_division_equations. lia. }
    assert (Hz : forall k, 0 <= k -> w < 2 ^ k -> Z.shiftr w k = 0).
    { intros k Hk Hlt. rewrite Z.shiftr_div_pow2 by lia. apply Z.div_small. lia. }
    unfold print_part, digits_val.
    rewrite !fold_left_app. destruct (Z.geb_spec w 0x1000), (Z.geb_spec w 0x100), (Z.geb_spec w 0x10); try lia;
      cbn [fold_left]; rewrite !hexdigit_val by done;
      rewrite ?(Hz 12), ?(Hz 8), ?(Hz 4), ?Z.land_0_l in Hexp by lia; lia.
Qed.

Section ip6_steps.
Context (pb : bool) (ii : nat) (Hii : (ii < 8)%nat).

Lemma ip6_part w rest start colon ip : 0 <= w < 2 ^ 16 ->
  ip6_loop pb (print_part w ++ rest) start 0 ii colon ip = ip6_loop pb rest start w ii colon ip.
Proof using Hii.
  intros Hw. destruct (print_part_ok w Hw) as (H1 & H2 & _).
  rewrite ip6_digits by (done || lia). by rewrite H2.
Qed.

Lemma ip6_colon w rest start part colon ip : 0 <= w < 2 ^ 16 ->
  ip6_loop pb (":"%char :: print_part w ++ rest) start part ii colon ip =
  ip6_loop pb (print_part w ++ rest) (print_part w ++ rest) 0 (S ii) colon (<[ii := htons part]> ip).
Proof using Hii.
  intros Hw. destruct (print_part_ok w Hw) as (H1 & _ & Hne). destruct (print_part w) as [|d p2]; [done|].
  inversion H1 as [|? ? [z Hz] _]; subst. apply hexval_facts in Hz as (Hc & Hd & _).
  cbn [ip6_loop app deref]. apply Nat.ltb_lt in Hii as ->. change (hexval ":") with (@None Z). cbn iota.
  change (":"%char =c ":") with true. cbn iota. by rewrite Hd, Hc.
Qed.

Lemma ip6_colon2 rest start part ip : (S ii < 8)%nat ->
  ip6_loop pb (":"%char :: ":"%char :: rest) start part ii 8 ip =
  ip6_loop pb rest (":"%char :: rest) 0 (S ii) (S ii) (<[ii := htons part]> ip).
Proof using Hii.
  intros H. cbn [ip6_loop deref]. apply Nat.ltb_lt in Hii as ->. change (hexval ":") with (@None Z). cbn iota.
  change (":"%char =c ":") with true. change (":"%char =c ".") with false. cbn iota.
  change (8 <? 8)%nat with false. cbn iota. destruct (Nat.eqb_spec (S ii) 8); [lia|done].
Qed.

Lemma ip6_end start part colon ip : (colon = 8 -> S ii = 8)%nat ->
  ip6_loop pb [] start part ii colon ip = Some ([], finish6 (<[ii := htons part]> ip) (S ii) colon, if pb then Some 128 else None).
Proof using Hii.
  intros H. cbn [ip6_loop]. apply Nat.ltb_lt in Hii as ->.
  destruct (Nat.eqb_spec colon 8) as [E|E]; [|done]. destruct (Nat.ltb_spec (S ii) 8); [specialize (H E); lia|done].
Qed.
End ip6_steps.

Lemma ntoa_run_bounds a s n : length a = 8%nat -> ntoa_run a = (s, n) -> (1 <= s)%nat /\ (s + n <= 8)%nat.
Proof.
  intros Hl. destruct a as [|w0 [|w1 [|w2 [|w3 [|w4 [|w5 [|w6 [|w7 [|]]]]]]]]]; try discriminate Hl.
  unfold ntoa_run. cbn [drop zero_scan].
  destruct (w1 =? 0), (w2 =? 0), (w3 =? 0), (w4 =? 0), (w5 =? 0), (w6 =? 0), (w7 =? 0); cbn;
    intros H; injection H as <- <-; lia.
Qed.

(** The run that [ircd_ntoa_r] leaves out consists of zeros. *)
Definition ntoa_zero (a : in_addr) : bool :=
  let '(s, n) := ntoa_run a in forallb (fun w => w =? 0) (take n (drop s a)).

Ltac ip6_walk :=
  rewrite ip6_part by (done || lia);
  repeat (first [rewrite ip6_colon by (done || lia)|rewrite ip6_colon2 by lia]; try rewrite ip6_part by (done || lia));
  rewrite ip6_end by lia; repeat match goal with H : htons _ = _ |- _ => rewrite H; clear H end; reflexivity.

Lemma ip6_roundtrip a : addr_wf a -> irc_in_addr_is_ipv4 a = false -> ntoa_zero a = true ->
  ip6_loop true (ircd_ntoa_r a) [] 0 0 8 zero_addr = Some ([], a, Some 128).
Proof.
  intros [Hl Hr] H4. unfold ntoa_zero, ircd_ntoa_r. rewrite H4.
  destruct (ntoa_run a) as [s n] eqn:E. apply ntoa_run_bounds in E as [H1 H2]; [|done].
  destruct a as [|w0 [|w1 [|w2 [|w3 [|w4 [|w5 [|w6 [|w7 [|]]]]]]]]]; try discriminate Hl.
  assert (Hi : Forall (fun w => htons (ntohs w) = w /\ 0 <= ntohs w < 2 ^ 16) [w0; w1; w2; w3; w4; w5; w6; w7]).
  { eapply Forall_impl; [exact Hr|]. intros w Hw. split; [by apply htons_involutive|apply htons_range]. }
  rewrite !Forall_cons in Hi. destruct Hi as ([I0 R0] & [I1 R1] & [I2 R2] & [I3 R3] & [I4 R4] & [I5 R5] & [I6 R6] & [I7 R7] & _).
  assert (Hcase : (n = 0 \/ (s = 1 \/ s = 2 \/ s = 3 \/ s = 4 \/ s = 5 \/ s = 6 \/ s = 7) /\
     (n = 1 \/ n = 2 \/ n = 3 \/ n = 4 \/ n = 5 \/ n = 6 \/ n = 7))%nat) by lia.
  intros Hz. destruct Hcase as [->|[Hs Hn]].
  - cbn -[print_part htons ntohs ip6_loop]. rewrite <- ?app_assoc. cbn [app]. ip6_walk.
  - destruct Hs as [->|[->|[->|[->|[->|[->| ->]]]]]], Hn as [->|[->|[->|[->|[->|[->| ->]]]]]]; try (exfalso; lia);
      cbn [take drop forallb] in Hz; rewrite ?andb_true_iff, ?Z.eqb_eq in Hz; destruct_and? Hz; subst;
      cbn -[print_part htons ntohs ip6_loop]; rewrite <- ?app_assoc; cbn [app]; ip6_walk.
Qed.

(** *** IPv4 *)

Lemma quad_facts b : 0 <= b < 256 ->
  nth (Z.to_nat b) IpQuadTab [] = quad b /\ deref (quad b) <> "."%char /\ deref (quad b) <> "*"%char /\
  quad b <> [] /\ Forall (fun c => IsDigit c) (quad b).
Proof.
  assert (forallb (fun b => bool_decide (nth (Z.to_nat b) IpQuadTab [] = quad b /\ deref (quad b) <> "."%char /\
    deref (quad b) <> "*"%char /\ quad b <> [] /\ Forall (fun c => IsDigit c) (quad b))) (seqZ 0 256) = true) as H by (by vm_compute).
  intros Hb. rewrite forallb_forall in H. specialize (H b). apply bool_decide_eq_true in H; [done|].
  apply list_elem_of_In, elem_of_seqZ. lia.
Qed.

Lemma aton_quad pb b rest dots ip : 0 <= b < 256 ->
  aton_loop pb (quad b ++ rest) dots 0 ip = aton_loop pb rest dots b ip.
Proof.
  intros Hb. assert (Forall (fun b => aton_loop pb (quad b ++ rest) dots 0 ip = aton_loop pb rest dots b ip) (seqZ 0 256)) as H.
  { change (seqZ 0 256) with (map Z.of_nat (seq 0 256)). cbn [seq map]. repeat (constructor; [reflexivity|]). constructor. }
  rewrite Forall_forall in H. apply H, elem_of_seqZ. lia.
Qed.

Lemma aton_dot pb b rest dots part ip : 0 <= b < 256 -> dots < 3 ->
  aton_loop pb ("."%char :: quad b ++ rest) dots part ip =
  aton_loop pb rest (dots + 1) b (Z.lor ip (Z.shiftl part (32 - 8 * (dots + 1)))).
Proof.
  intros Hb Hd. destruct (quad_facts b Hb) as (_ & H1 & H2 & Hne & _).
  assert (Hde : deref (quad b ++ rest) = deref (quad b)) by (by destruct (quad b)).
  cbn [aton_loop]. change ("."%char =c NUL) with false. change ("."%char =c ".") with true. cbn iota.
  destruct (Z.gtb_spec (dots + 1) 3); [lia|]. rewrite Hde. apply ch_eqb_neq in H1 as ->. apply ch_eqb_neq in H2 as ->.
  by apply aton_quad.
Qed.

Lemma ntohl_htonl x : 0 <= x < 2 ^ 32 -> ntohl (htonl x) = x.
Proof.
  intros Hx. unfold ntohl, htonl at 2. pose proof (htons_range (Z.land x 65535)) as R1.
  pose proof (htons_range (Z.land (Z.shiftr x 16) 65535)) as R2.
  set (lo := htons (Z.land x 65535)) in *. set (hi := htons (Z.land (Z.shiftr x 16) 65535)) in *.
  assert (H1 : Z.land (Z.lor (Z.shiftl lo 16) hi) 65535 = hi).
  { rewrite lor_shiftl_add by lia. change 65535 with (Z.ones 16). rewrite Z.land_ones by lia.
    rewrite Z.add_comm, Z.mod_add by lia. apply Z.mod_small. lia. }
  assert (H2 : Z.land (Z.shiftr (Z.lor (Z.shiftl lo 16) hi) 16) 65535 = lo).
  { rewrite lor_shiftl_add, Z.shiftr_div_pow2, Z.div_add_l, (Z.div_small hi), Z.add_0_r by lia.
    change 65535 with (Z.ones 16). rewrite Z.land_ones by lia. by apply Z.mod_small. }
  unfold htonl. rewrite H1, H2. unfold lo, hi. change 65535 with (Z.ones 16). rewrite !Z.land_ones, Z.shiftr_div_pow2 by lia.
  rewrite !htons_involutive by (apply Z.mod_pos_bound; lia).
  assert (x / 2 ^ 16 < 2 ^ 16) by (apply Z.div_lt_upper_bound; lia). pose proof (Z.div_pos x (2 ^ 16)).
  rewrite (Z.mod_small (x / 2 ^ 16)) by lia. rewrite lor_shiftl_add by (try apply Z.mod_pos_bound; lia).
  pose proof (Z.div_mod x (2 ^ 16)). lia.
Qed.

Lemma land_65535 x : Z.land x 65535 = x mod 2 ^ 16.
Proof. change 65535 with (Z.ones 16). by apply Z.land_ones. Qed.

Lemma strchr_none c s : Forall (fun x => x <> c) s -> strchr c s = None.
Proof. intros H. induction H as [|x s Hx H IH]; [done|]. simpl. apply ch_eqb_neq in Hx as ->. by rewrite IH. Qed.

Lemma strchr_some c s r : is_Some (strchr c (s ++ c :: r)).
Proof. induction s as [|x s IH]; simpl; [rewrite ch_eqb_refl; eauto|]. destruct (x =c c); [eauto|]. destruct IH as [n ->]. by exists (S n). Qed.

(** The address in host order from the words. *)
Lemma quads_value w6 w7 :
  Z.lor (Z.lor (Z.lor (Z.lor 0 (Z.shiftl (Z.land w6 255) 24)) (Z.shiftl (Z.land (Z.shiftr w6 8) 255) 16))
    (Z.shiftl (Z.land w7 255) 8)) (Z.shiftl (Z.land (Z.shiftr w7 8) 255) 0) = Z.lor (Z.shiftl (ntohs w6) 16) (ntohs w7).
Proof.
  unfold ntohs, htons.
  rewrite Z.shiftl_0_r, Z.lor_0_l, (Z.shiftl_lor _ _ 16), Z.shiftl_shiftl by lia.
  change (8 + 16) with 24. by rewrite <- !Z.lor_assoc.
Qed.

Lemma ip4_roundtrip a : addr_wf a -> irc_in_addr_is_ipv4 a = true ->
  ipmask_parse true (print_quads a) = Some (length (print_quads a), <[5%nat := 65535]> a, Some 128).
Proof.
  intros [Hl Hr] H4.
  destruct a as [|w0 [|w1 [|w2 [|w3 [|w4 [|w5 [|w6 [|w7 [|]]]]]]]]]; try discriminate Hl.
  unfold irc_in_addr_is_ipv4, in6_16 in H4. cbn [nth] in H4. rewrite !andb_true_iff, !Z.eqb_eq in H4.
  destruct H4 as [((((-> & ->) & ->) & ->) & ->) _].
  rewrite !Forall_cons in Hr. destruct Hr as (_ & _ & _ & _ & _ & _ & H6 & H7 & _).
  set (a := [0; 0; 0; 0; 0; w5; w6; w7]).
  assert (Hb : forall i, 0 <= byte_of a i < 256).
  { intros i. unfold byte_of. change 255 with (Z.ones 8). rewrite Z.land_ones by lia. apply Z.mod_pos_bound. lia. }
  assert (Hq : print_quads a = quad (byte_of a 0) ++ "."%char :: quad (byte_of a 1) ++ "."%char ::
    quad (byte_of a 2) ++ "."%char :: quad (byte_of a 3)).
  { unfold print_quads. rewrite !(proj1 (quad_facts _ (Hb _))). done. }
  rewrite Hq. set (t := quad (byte_of a 0) ++ _).
  assert (Hcolon : strchr ":" t = None).
  { apply strchr_none. unfold t. assert (Hd : forall i, Forall (fun c => c <> ":"%char) (quad (byte_of a i))).
    { intros i. destruct (quad_facts _ (Hb i)) as (_ & _ & _ & _ & Hd). eapply Forall_impl; [exact Hd|]. by intros c ? ->. }
    repeat (first [apply Forall_app; split; [apply Hd|]|constructor; [done|]|apply Hd]). }
  assert (Ha : ircd_aton_ip4 true t = Some (htonl (Z.lor (Z.shiftl (ntohs w6) 16) (ntohs w7)), 32, [])).
  { unfold ircd_aton_ip4, t. destruct (quad_facts _ (Hb 0%nat)) as (_ & H1 & _ & Hne & _).
    assert (deref (quad (byte_of a 0) ++ "."%char :: quad (byte_of a 1) ++ "."%char ::
      quad (byte_of a 2) ++ "."%char :: quad (byte_of a 3)) = deref (quad (byte_of a 0))) as -> by (by destruct (quad _)).
    apply ch_eqb_neq in H1 as ->. rewrite aton_quad by done. rewrite !aton_dot by (done || lia).
    rewrite <- (app_nil_r (quad (byte_of a 3))). rewrite aton_dot by (done || lia).
    cbn [aton_loop]. rewrite <- quads_value. reflexivity. }
  unfold ipmask_parse. rewrite Hcolon. destruct (strchr_some "." (quad (byte_of a 0)) (quad (byte_of a 1) ++ "."%char ::
    quad (byte_of a 2) ++ "."%char :: quad (byte_of a 3))) as [n Hn]. fold t in Hn. rewrite Hn.
  rewrite bool_decide_true by eauto. cbn [orb]. rewrite Ha. cbn [mbind option_bind]. rewrite Nat.sub_0_r.
  assert (length t <> 0%nat) as Ht.
  { unfold t. destruct (quad_facts _ (Hb 0%nat)) as (_ & _ & _ & Hne & _). by destruct (quad _). }
  apply Nat.eqb_neq in Ht as ->. pose proof (htons_range w6) as R6. pose proof (htons_range w7) as R7. fold ntohs in R6, R7.
  unfold ntohs in R6, R7 |- *. rewrite lor_shiftl_add by lia.
  rewrite ntohl_htonl, Z.shiftr_div_pow2, Z.div_add_l, (Z.div_small (htons w7)), Z.add_0_r by lia.
  rewrite land_65535, Z.add_comm, Z.mod_add, Z.mod_small by lia.
  rewrite !htons_involutive by done. done.
Qed.

(** *** Sizes *)

Lemma print_part_length w : (length (print_part w) <= 4)%nat.
Proof. unfold print_part. rewrite !length_app. destruct (w >=? 0x1000), (w >=? 0x100), (w >=? 0x10); simpl; lia. Qed.

Lemma ntoa_loop_length a n ii ms mz : (8 - ii <= n)%nat -> (length (ntoa_loop n a ii ms mz) <= 5 * (8 - ii) - 1)%nat.
Proof.
  revert ii. induction n as [|n IH]; intros ii Hn; cbn [ntoa_loop]; [cbn [length]; lia|].
  destruct (Nat.ltb_spec ii 8) as [H8|H8]; [|cbn [length]; lia].
  destruct ((0 <? mz)%nat && (ii =? ms)%nat) eqn:E.
  - apply andb_true_iff in E as [E _]. apply Nat.ltb_lt in E. cbn [length].
    specialize (IH (ii + (mz - 1) + 1)%nat ltac:(lia)). lia.
  - rewrite !length_app. pose proof (print_part_length (ntohs (in6_16 a ii))). specialize (IH (S ii) ltac:(lia)).
    destruct (Nat.ltb_spec ii 7); cbn [length]; lia.
Qed.

Lemma quad_length b : (length (quad b) <= 3)%nat.
Proof. unfold quad. rewrite !length_app. destruct (b >=? 100), (b >=? 10); simpl; lia. Qed.

Lemma ntoa_length a : (length (ircd_ntoa_r a) <= 39)%nat.
Proof.
  unfold ircd_ntoa_r. destruct (irc_in_addr_is_ipv4 a).
  - unfold print_quads. assert (Hq : forall i, (length (nth (Z.to_nat (byte_of a i)) IpQuadTab []) <= 3)%nat).
    { intros i. destruct (nth_in_or_default (Z.to_nat (byte_of a i)) IpQuadTab []) as [H|H]; [|rewrite H; simpl; lia].
      unfold IpQuadTab in H at 2. apply in_map_iff in H as (b & Hb & _). rewrite <- Hb. apply quad_length. }
    rewrite !length_app. cbn [length]. rewrite !length_app. cbn [length]. rewrite !length_app. cbn [length].
    pose proof (Hq 0%nat). pose proof (Hq 1%nat). pose proof (Hq 2%nat). pose proof (Hq 3%nat). lia.
  - destruct (ntoa_run a) as [s n]. pose proof (ntoa_loop_length a 9 0 s n ltac:(lia)). lia.
Qed.

Lemma ntoa_v6_chars a : addr_wf a -> irc_in_addr_is_ipv4 a = false -> ntoa_zero a = true ->
  strchr "." (ircd_ntoa_r a) = None /\ is_Some (strchr ":" (ircd_ntoa_r a)) /\ deref (ircd_ntoa_r a) <> ":"%char.
Proof.
  intros [Hl Hr] H4 _. unfold ircd_ntoa_r. rewrite H4. destruct (ntoa_run a) as [s n] eqn:E.
  apply ntoa_run_bounds in E as [H1 H2]; [|done].
  assert (Hp : forall i, hexes (print_part (ntohs (in6_16 a i))) /\ print_part (ntohs (in6_16 a i)) <> []).
  { intros i. destruct (print_part_ok (ntohs (in6_16 a i)) (htons_range _)) as (? & _ & ?). done. }
  assert (Hnd : forall k ii, Forall (fun x => x <> "."%char) (ntoa_loop k a ii s n)).
  { induction k as [|k IH]; intros ii; cbn [ntoa_loop]; [constructor|]. destruct (ii <? 8)%nat; [|constructor].
    destruct (_ && _); [by constructor|]. apply Forall_app. split; [|apply Forall_app; split; [by destruct (ii <? 7)%nat; repeat constructor|apply IH]].
    eapply Forall_impl; [apply (Hp ii)|]. intros c [z Hz] ->. by vm_compute in Hz. }
  split; [by apply strchr_none|]. destruct (Hp 0%nat) as [Hh Hne]. split.
  - cbn [ntoa_loop]. change (0 <? 8)%nat with true. cbn iota.
    destruct (Nat.eqb_spec 0 s); [lia|]. rewrite andb_false_r. apply strchr_some.
  - cbn [ntoa_loop]. change (0 <? 8)%nat with true. cbn iota. destruct (Nat.eqb_spec 0 s); [lia|]. rewrite andb_false_r.
    destruct (print_part _) as [|c p]; [done|]. apply Forall_cons in Hh as [[z Hz] _]. cbn [app deref].
    apply ch_eqb_neq. by apply hexval_facts in Hz as (? & _).
Qed.

(** C12: an address survives being printed and parsed, when it is printed
    right.  The text that [ircd_ntoa_r] makes of an IPv4 address, or of an
    IPv6 address when the run of words that the double colon replaces is a run
    of zeros, fits in a buffer of [SOCKIPLEN] and is parsed by [ipmask_parse]
    whole, with every bit of the mask, into the same address; an
    IPv4-compatible address comes back as the IPv4-mapped one.  The IPv6
    addresses left out, in which a run of zeros comes after a longer one, are
    printed with words that are not zero under the double colon
    ([ntoa_wrong_run]). *)
Theorem ip_text_roundtrip a :
  addr_wf a -> irc_in_addr_is_ipv4 a = true \/ ntoa_zero a = true ->
  (length (ircd_ntoa_r a) < 45)%nat /\
  ipmask_parse true (ircd_ntoa_r a) =
    Some (length (ircd_ntoa_r a), if irc_in_addr_is_ipv4 a then <[5%nat := 65535]> a else a, Some 128).
Proof.
  intros Hw Hc. split; [pose proof (ntoa_length a); lia|]. destruct (irc_in_addr_is_ipv4 a) eqn:H4.
  - unfold ircd_ntoa_r. rewrite H4. by apply ip4_roundtrip.
  - destruct Hc as [?|Hz]; [done|]. destruct (ntoa_v6_chars a Hw H4 Hz) as (Hd & [n Hn] & Hne).
    unfold ipmask_parse. rewrite Hd, Hn. apply ch_eqb_neq in Hne as ->.
    rewrite ip6_roundtrip by done. cbn [mbind option_bind length]. by rewrite Nat.sub_0_r.
Qed.

Lemma ip_text_roundtrip_witness :
  ipmask_parse true (str "2001:db8::7:0:0:1") = Some (17%nat, map htons [0x2001; 0xdb8; 0; 0; 7; 0; 0; 1], Some 128).
Proof.
  refine (proj2 (ip_text_roundtrip (map htons [0x2001; 0xdb8; 0; 0; 7; 0; 0; 1]) _ _)).
  - split; [reflexivity|]. repeat (constructor; [vm_compute; split; congruence|]). constructor.
  - right. vm_compute. reflexivity.
Defined.

(** A shorter run of zeros is not forgotten: the fifth word, 1, is printed as
    a zero. *)
Example ntoa_wrong_run :
  ircd_ntoa_r (map htons [1; 0; 0; 1; 0; 1; 0; 0]) = str "1:0:0:1:0::" /\
  ircd_ntoa_r (map htons [1; 0; 0; 1; 0; 0; 0; 0]) <> str "1:0:0:1:0::".
Proof. by vm_compute. Qed.

(** Eight parts and a colon: the address is accepted, and the number of bits
    is not written. *)
Example ipmask_no_bits :
  ipmask_parse true (str "1:2:3:4:5:6:7:8:") = Some (16%nat, map htons [1; 2; 3; 4; 5; 6; 7; 8], None).
Proof. by vm_compute. Qed.

(** A dotted quad right after a double colon is parsed from the second colon
    on, and so refused, unless the double colon begins the text. *)
Example ipmask_embedded :
  ipmask_parse true (str "64:ff9b::1.2.3.4") = None /\
  ipmask_parse true (str "::1.2.3.4") = Some (9%nat, map htons [0; 0; 0; 0; 0; 0; 0x102; 0x304], Some 128).
Proof. by vm_compute. Qed.

(** The mask length is read modulo 2^32, and a dotted quad may end an
    address that has too few parts. *)
Example ipmask_lenient :
  ipmask_parse true (str "10.0.0.0/4294967297") = Some (19%nat, [0; 0; 0; 0; 0; 65535; htons 0x0a00; 0], Some 97) /\
  ipmask_parse true (str "1:1.2.3.4") = Some (9%nat, map htons [1; 0x102; 0x304; 0; 0; 0; 0; 0], Some 128).
Proof. by vm_compute. Qed.
