(* ===== verification/Bans.v ===== *)
(** * Bans ([ircd/channel.c])

    A ban list is a list of [struct Ban]s; the free list of the structures is
    their number.  [banstr] is the string in the array of the ban: writing
    the '@' back at [nu_len] after comparing the part before it leaves it
    as it was ([set_ban_mask_at]).  Of what [ipmask_parse] leaves in the
    address when it fails nothing is kept, since only bans with [BAN_IPMASK]
    have their address read. *)
From S2P Require Import Prelude Chattr Strings Match Address IpText.
From stdpp Require Import options.
Open Scope Z_scope.

Definition NICKLEN : nat := 15.
Definition USERLEN : nat := 10.
Definition HOSTLEN : nat := 63.

Definition BAN_IPMASK : Z := 0x0001.
Definition BAN_OVERLAPPED : Z := 0x0002.
Definition BAN_BURSTED : Z := 0x0004.
Definition BAN_BURST_WIPEOUT : Z := 0x0008.
Definition BAN_EXCEPTION : Z := 0x0010.
Definition BAN_DEL : Z := 0x4000.
Definition BAN_ADD : Z := 0x8000.

Record Ban := {
  address : in_addr;
  when : Z;
  ban_flags : Z;
  nu_len : Z;
  addrbits : Z;
  who : cstring;
  banstr : cstring
}.

Definition has_flag (f : Z) (b : Ban) : bool := negb (Z.land (ban_flags b) f =? 0).

Definition with_flags (f : Z) (b : Ban) : Ban :=
  {| address := address b; when := when b; ban_flags := f; nu_len := nu_len b; addrbits := addrbits b;
     who := who b; banstr := banstr b |}.

Definition with_who (w : cstring) (t : Z) (b : Ban) : Ban :=
  {| address := address b; when := t; ban_flags := ban_flags b; nu_len := nu_len b; addrbits := addrbits b;
     who := w; banstr := banstr b |}.

(** The index of the last occurrence. *)
Fixpoint strrchr (c : ascii) (p : cstring) : option nat :=
  match p with
  | [] => None
  | x :: p' => match strrchr c p' with
               | Some n => Some (S n)
               | None => if x =c c then Some O else None
               end
  end.

Definition set_ban_mask (ban : Ban) (s : cstring) : Ban :=
  let str := ircd_strncpy s (NICKLEN + USERLEN + HOSTLEN + 3 - 1) in
  match strrchr "@" s with
  | None =>
      {| address := address ban; when := when ban; ban_flags := ban_flags ban; nu_len := nu_len ban;
         addrbits := addrbits ban; who := who ban; banstr := str |}
  | Some sep =>
      match ipmask_parse true (drop (S sep) s) with
      | Some (_, ip, bits) =>
          {| address := ip; when := when ban; ban_flags := Z.lor (ban_flags ban) BAN_IPMASK;
             nu_len := w8 (Z.of_nat sep); addrbits := default (addrbits ban) bits; who := who ban; banstr := str |}
      | None =>
          {| address := address ban; when := when ban; ban_flags := ban_flags ban;
             nu_len := w8 (Z.of_nat sep); addrbits := addrbits ban; who := who ban; banstr := str |}
      end
  end.

(** ** Allocation *)
Record ban_pool := { free_bans : nat; bans_alloc : Z; bans_inuse : Z }.

Definition zero_ban : Ban :=
  {| address := zero_addr; when := 0; ban_flags := 0; nu_len := 0; addrbits := 0; who := []; banstr := [] |}.

Definition make_ban (s : cstring) (p : ban_pool) : Ban * ban_pool :=
  let p := match free_bans p with
           | S n => {| free_bans := n; bans_alloc := bans_alloc p; bans_inuse := bans_inuse p |}
           | O => {| free_bans := 0; bans_alloc := bans_alloc p + 1; bans_inuse := bans_inuse p |}
           end in
  (set_ban_mask zero_ban s, {| free_bans := free_bans p; bans_alloc := bans_alloc p; bans_inuse := bans_inuse p + 1 |}).

Definition free_ban (p : ban_pool) : ban_pool :=
  {| free_bans := S (free_bans p); bans_alloc := bans_alloc p; bans_inuse := bans_inuse p - 1 |}.

(** ** Matching a client *)

(** What is read of the client. *)
Record ban_client := {
  bc_name : cstring;
  bc_username : cstring;
  bc_host : cstring;
  bc_realhost : cstring;
  bc_ip : in_addr;
  bc_account : option cstring;   (* [IsAccount], and the name *)
  bc_hidden : bool               (* [HasHiddenHost] *)
}.

(** [match]; [None] is a read past the end of a string. *)
Definition match_z (mask name : cstring) : option Z :=
  match match_ mask name with Some (Some z) => Some z | _ => None end.

Definition ban_nu (b : Ban) : cstring := take (Z.to_nat (nu_len b)) (banstr b).
Definition ban_host (b : Ban) : cstring := drop (S (Z.to_nat (nu_len b))) (banstr b).

(** [nick!user] as [ircd_snprintf] cuts it. *)
Definition client_nu (c : ban_client) : cstring := take (NICKLEN + USERLEN + 1) (bc_name c ++ "!"%char :: bc_username c).

(** The host that the account gives, or the real one behind it. *)
Definition client_sr (HIDDEN_HOST : cstring) (c : ban_client) : option cstring :=
  match bc_account c with
  | None => None
  | Some acc => if bc_hidden c then Some (bc_realhost c)
                else Some (take (HOSTLEN - 1) (acc ++ "."%char :: HIDDEN_HOST))
  end.

Section find_ban.
Context (HIDDEN_HOST : cstring) (c : ban_client).

(** Whether one of the hosts matches: the address, the host, the address as
    text, and the host of the account, in this order. *)
Definition host_matches (b : Ban) : option bool :=
  if has_flag BAN_IPMASK b && negb (ipmask_check (bc_ip c) (address b) (addrbits b) =? 0) then Some true
  else
    r ← match_z (ban_host b) (bc_host c);
    if r =? 0 then Some true
    else
      r ← match_z (ban_host b) (ircd_ntoa_r (bc_ip c));
      if r =? 0 then Some true
      else match client_sr HIDDEN_HOST c with
           | None => Some false
           | Some sr => r ← match_z (ban_host b) sr; Some (r =? 0)
           end.

Fixpoint find_ban_loop (banlist : list Ban) (found : option Ban) : option (option Ban) :=
  match banlist with
  | [] => Some found
  | b :: rest =>
      if bool_decide (is_Some found) && negb (has_flag BAN_EXCEPTION b) then find_ban_loop rest found
      else
        res ← match_z (ban_nu b) (client_nu c);
        if negb (res =? 0) then find_ban_loop rest found
        else
          h ← host_matches b;
          if negb h then find_ban_loop rest found
          else if has_flag BAN_EXCEPTION b then Some None
          else find_ban_loop rest (Some b)
  end.

Definition find_ban (banlist : list Ban) : option (option Ban) := find_ban_loop banlist None.
End find_ban.

(** ** Comparing bans, and changing the list *)

Definition mmatch_z (old_mask new_mask : cstring) : option Z :=
  match mmatch old_mask new_mask with Some (Some z) => Some z | _ => None end.

Definition bmatch (old_ban new_ban : Ban) : option Z :=
  if negb (has_flag BAN_EXCEPTION old_ban) && has_flag BAN_EXCEPTION new_ban then Some 1
  else if Z.land (Z.land (ban_flags old_ban) (ban_flags new_ban)) BAN_IPMASK =? 0
  then mmatch_z (banstr old_ban) (banstr new_ban)
  else if addrbits old_ban >? addrbits new_ban then Some 1
  else
    res ← mmatch_z (ban_nu old_ban) (ban_nu new_ban);
    if negb (res =? 0) then Some res
    else if ipmask_check (address new_ban) (address old_ban) (addrbits old_ban) =? 0 then Some 1
    else mmatch_z (banstr old_ban) (banstr new_ban).

(** The first loop of [apply_ban]: whether an active entry covers the ban. *)
Fixpoint covered (banlist : list Ban) (newban : Ban) : option bool :=
  match banlist with
  | [] => Some false
  | b :: rest =>
      r ← bmatch b newban;
      if (r =? 0) && negb (has_flag BAN_DEL b) then Some true else covered rest newban
  end.

(** The loops that mark more specific entries, with their number. *)
Fixpoint mark_covered (newban : Ban) (banlist : list Ban) : option (list Ban * Z) :=
  match banlist with
  | [] => Some ([], 0)
  | b :: rest =>
      r ← bmatch newban b;
      '(rest, n) ← mark_covered newban rest;
      Some (if r =? 0 then (with_flags (Z.lor (ban_flags b) (Z.lor BAN_OVERLAPPED BAN_DEL)) b :: rest, n + 1)
            else (b :: rest, n))
  end.

(** The list afterwards, the value returned, and the pool. *)
Definition apply_ban (banlist : list Ban) (newban : Ban) (do_free : bool) (p : ban_pool)
  : option (list Ban * Z * ban_pool) :=
  let drop_new p := if do_free then free_ban p else p in
  if has_flag BAN_ADD newban then
    r ← covered banlist newban;
    if (r : bool) then Some (banlist, 1, drop_new p)
    else
      '(marked, _) ← mark_covered newban banlist;
      Some (marked ++ [newban], 0, p)
  else if has_flag BAN_DEL newban then
    '(marked, n) ← mark_covered newban banlist;
    if n >? 0 then Some (marked, 0, p) else Some (marked, 3, drop_new p)
  else Some (banlist, 4, drop_new p).

(** ** [mode_process_bans] *)

(** A change of mode for the mode buffer, or the reply that the list is
    full. *)
Inductive ban_out := BanAdded (mask : cstring) | BanDeleted (mask : cstring) | BanListFull (mask : cstring).

(** [MODE_PARSE_SET], [MODE_PARSE_BOUNCE], and whether the source is a local
    user without OPMODE; the two features. *)
Record ban_conf := {
  parse_set : bool; parse_bounce : bool; limited : bool; AVBANLEN : Z; MAXBANS : Z
}.

(** The loop's variables: the list is [rev added ++ kept ++ rest], the rest
    being cut off once [cut]; [prev] is whether [prevban] is set. *)
Record ban_loop := {
  added : list Ban; kept : list Ban; cut : bool; count : Z; len : Z; changed : bool;
  lpool : ban_pool; louts : list ban_out
}.

Definition clear_others (b : Ban) : Ban := with_flags (Z.land (ban_flags b) BAN_IPMASK) b.

Definition keep (b : Ban) (st : ban_loop) : ban_loop :=
  {| added := added st; kept := if cut st then kept st else kept st ++ [b]; cut := cut st; count := count st;
     len := len st; changed := changed st; lpool := lpool st; louts := louts st |}.

(** [count--], [len -= banlen]. *)
Definition discount (b : Ban) (st : ban_loop) : ban_loop :=
  {| added := added st; kept := kept st; cut := cut st; count := count st - 1;
     len := len st - Z.of_nat (length (banstr b)); changed := changed st; lpool := lpool st; louts := louts st |}.

Definition with_out (o : ban_out) (st : ban_loop) : ban_loop :=
  {| added := added st; kept := kept st; cut := cut st; count := count st; len := len st;
     changed := changed st; lpool := lpool st; louts := louts st ++ [o] |}.

Definition cut_here (st : ban_loop) : ban_loop :=
  {| added := added st; kept := kept st; cut := true; count := count st; len := len st;
     changed := changed st; lpool := lpool st; louts := louts st |}.

Definition process_ban (conf : ban_conf) (b : Ban) (st : ban_loop) : ban_loop :=
  let st := {| added := added st; kept := kept st; cut := cut st; count := count st + 1;
               len := len st + Z.of_nat (length (banstr b)); changed := changed st;
               lpool := lpool st; louts := louts st |} in
  if has_flag BAN_DEL b && has_flag BAN_ADD b then discount b (cut_here st)
  else if has_flag BAN_DEL b then
    let st := with_out (BanDeleted (banstr b)) st in
    if parse_set conf then
      let st := discount b st in
      {| added := added st; kept := kept st; cut := cut st; count := count st; len := len st;
         changed := true; lpool := free_ban (lpool st); louts := louts st |}
    else keep (clear_others b) st
  else if has_flag BAN_ADD b then
    let st := cut_here st in
    if has_flag BAN_OVERLAPPED b && negb (parse_bounce conf) then discount b st
    else if parse_set conf && limited conf && ((len st >? AVBANLEN conf * MAXBANS conf) || (count st >? MAXBANS conf))
    then discount b (with_out (BanListFull (banstr b)) st)
    else
      let st := with_out (BanAdded (banstr b)) st in
      if parse_set conf then
        let '(nb, p) := make_ban (banstr b) (lpool st) in
        let nb := with_flags (Z.land (ban_flags b) BAN_IPMASK) (with_who (who b) (when b) nb) in
        {| added := nb :: added st; kept := kept st; cut := cut st; count := count st; len := len st;
           changed := true; lpool := p; louts := louts st |}
      else st
  else keep b st.

(** The list, whether it changed, the pool and what is sent. *)
Definition mode_process_bans (conf : ban_conf) (banlist : list Ban) (p : ban_pool)
  : list Ban * bool * ban_pool * list ban_out :=
  let st := fold_left (fun st b => process_ban conf b st) banlist
              {| added := []; kept := []; cut := false; count := 0; len := 0; changed := false;
                 lpool := p; louts := [] |} in
  (added st ++ kept st, changed st, lpool st, louts st).

(** The bottom of [mode_parse_ban]: the marks of an earlier change go when
    [clean], and the new ban is applied; [now] is [TStime()], [name] the name
    of the source or a star. *)
Definition clear_marks (b : Ban) : Ban :=
  with_flags (Z.land (ban_flags b) (Z.lnot (Z.lor BAN_ADD (Z.lor BAN_DEL BAN_OVERLAPPED)))) b.

Definition new_ban (add : bool) (mask name : cstring) (now : Z) : Ban :=
  let b := set_ban_mask (with_flags (if add then BAN_ADD else BAN_DEL) zero_ban) mask in
  with_who (ircd_strncpy name NICKLEN) now b.

Definition change_ban (clean add : bool) (mask name : cstring) (now : Z) (banlist : list Ban) (p : ban_pool)
  : option (list Ban * Z * ban_pool) :=
  apply_ban (if clean then map clear_marks banlist else banlist) (new_ban add mask name now) false p.

(** ** Facts *)

Lemma strrchr_some c s n : strrchr c s = Some n -> s !! n = Some c /\ (n < length s)%nat /\ Forall (fun x => x <> c) (drop (S n) s).
Proof.
  revert n. induction s as [|x s IH]; intros n; simpl; [done|]. destruct (strrchr c s) as [k|] eqn:E.
  - intros [= <-]. destruct (IH k eq_refl) as (H1 & H2 & H3). split_and!; [done|lia|done].
  - destruct (ch_eqb_spec x c) as [->|]; [|done]. intros [= <-]. simpl. split_and!; [done|lia|].
    rewrite drop_0. clear IH. induction s as [|y s IHs]; [constructor|]. simpl in E.
    destruct (strrchr c s); [done|]. destruct (ch_eqb_spec y c); [done|]. constructor; [done|by apply IHs].
Qed.

(** The character that the comparisons write at [nu_len] is the one there. *)
Lemma set_ban_mask_at ban s n : strrchr "@" s = Some n -> (length s <= 90)%nat ->
  banstr (set_ban_mask ban s) = s /\ nu_len (set_ban_mask ban s) = Z.of_nat n /\ s !! n = Some "@"%char.
Proof.
  intros E Hl. apply strrchr_some in E as Hn. destruct Hn as (Hat & Hlt & _). unfold set_ban_mask. rewrite E.
  assert (Hs : ircd_strncpy s (NICKLEN + USERLEN + HOSTLEN + 3 - 1) = s) by (apply take_ge; exact Hl).
  assert (Hw : w8 (Z.of_nat n) = Z.of_nat n) by (apply w8_small; lia).
  destruct (ipmask_parse _ _) as [[[? ?] ?]|]; cbn [banstr nu_len]; by rewrite Hs, Hw.
Qed.

(** *** What a ban list means *)
Section spec.
Context (HIDDEN_HOST : cstring) (c : ban_client).

Definition ban_ok (b : Ban) : Prop :=
  is_cstr (banstr b) /\ esc_ok false (ban_nu b) = true /\ esc_ok false (ban_host b) = true.

Definition client_ok : Prop :=
  is_cstr (client_nu c) /\ is_cstr (bc_host c) /\ (forall sr, client_sr HIDDEN_HOST c = Some sr -> is_cstr sr).

(** A ban applies to a client when its part before the last '@' matches
    nick and user, and the rest one of the hosts, or its network has the
    address. *)
Definition applies (b : Ban) : Prop :=
  matches (tokens (ban_nu b)) (client_nu c) /\
  ((has_flag BAN_IPMASK b = true /\ ipmask_check (bc_ip c) (address b) (addrbits b) <> 0) \/
   matches (tokens (ban_host b)) (bc_host c) \/ matches (tokens (ban_host b)) (ircd_ntoa_r (bc_ip c)) \/
   exists sr, client_sr HIDDEN_HOST c = Some sr /\ matches (tokens (ban_host b)) sr).

Lemma match_z_spec mask name : is_cstr mask -> is_cstr name -> esc_ok false mask = true ->
  exists z, match_z mask name = Some z /\ (z = 0 <-> matches (tokens mask) name).
Proof.
  intros H1 H2 H3. unfold match_z. destruct (match_result mask name H1 H2 H3) as (z & -> & _ & Hz). by exists z.
Qed.

Lemma ntoa_loop_cstr k a s n : forall ii, is_cstr (ntoa_loop k a ii s n).
Proof.
  induction k as [|k IH]; intros ii; cbn [ntoa_loop]; [constructor|].
  destruct (ii <? 8)%nat; [|constructor]. destruct (_ && _); [by apply is_cstr_cons|].
  apply is_cstr_app. split; [|apply is_cstr_app; split; [|apply IH]].
  - destruct (print_part_ok (ntohs (in6_16 a ii)) (htons_range _)) as (H & _). eapply Forall_impl; [exact H|].
    intros c0 [z Hz] ->. by vm_compute in Hz.
  - destruct (ii <? 7)%nat; [|constructor]. apply is_cstr_cons. split; [done|constructor].
Qed.

Lemma ntoa_cstr a : is_cstr (ircd_ntoa_r a).
Proof.
  unfold ircd_ntoa_r. destruct (irc_in_addr_is_ipv4 a).
  - unfold print_quads. assert (Hq : forall i, is_cstr (nth (Z.to_nat (byte_of a i)) IpQuadTab [])).
    { intros i. assert (H : forallb (fun q => bool_decide (is_cstr q)) IpQuadTab = true) by (by vm_compute).
      rewrite forallb_forall in H. destruct (nth_in_or_default (Z.to_nat (byte_of a i)) IpQuadTab []) as [Hi|Hi].
      - apply H in Hi. by apply bool_decide_eq_true in Hi.
      - rewrite Hi. constructor. }
    repeat (apply is_cstr_app; split; [apply Hq|]; apply is_cstr_cons; split; [done|]). apply Hq.
  - destruct (ntoa_run a) as [s n]. apply ntoa_loop_cstr.
Qed.

Lemma host_matches_spec b : ban_ok b -> client_ok ->
  exists r, host_matches HIDDEN_HOST c b = Some r /\
    (r = true <-> (has_flag BAN_IPMASK b = true /\ ipmask_check (bc_ip c) (address b) (addrbits b) <> 0) \/
     matches (tokens (ban_host b)) (bc_host c) \/ matches (tokens (ban_host b)) (ircd_ntoa_r (bc_ip c)) \/
     exists sr, client_sr HIDDEN_HOST c = Some sr /\ matches (tokens (ban_host b)) sr).
Proof.
  intros (Hc & _ & He) (_ & Hh & Hsr). apply (is_cstr_drop (S (Z.to_nat (nu_len b)))) in Hc. fold (ban_host b) in Hc.
  unfold host_matches. destruct (has_flag BAN_IPMASK b && negb (ipmask_check (bc_ip c) (address b) (addrbits b) =? 0)) eqn:E.
  { exists true. split; [done|]. split; [|done]. intros _. left. apply andb_true_iff in E as [-> E]. split; [done|].
    apply negb_true_iff, Z.eqb_neq in E. done. }
  assert (Hno : ~ (has_flag BAN_IPMASK b = true /\ ipmask_check (bc_ip c) (address b) (addrbits b) <> 0)).
  { intros [H1 H2]. rewrite H1 in E. apply Z.eqb_neq in H2. by rewrite H2 in E. }
  destruct (match_z_spec _ _ Hc Hh He) as (z1 & -> & H1). cbn [mbind option_bind].
  destruct (Z.eqb_spec z1 0) as [E1|E1]; [exists true; split; [done|]; split; [intros _; right; left; tauto|done]|].
  destruct (match_z_spec _ _ Hc (ntoa_cstr (bc_ip c)) He) as (z2 & -> & H2). cbn [mbind option_bind].
  destruct (Z.eqb_spec z2 0) as [E2|E2]; [exists true; split; [done|]; split; [intros _; right; right; left; tauto|done]|].
  destruct (client_sr HIDDEN_HOST c) as [sr|].
  - destruct (match_z_spec _ _ Hc (Hsr sr eq_refl) He) as (z3 & -> & H3). cbn [mbind option_bind].
    exists (z3 =? 0). split; [done|]. rewrite Z.eqb_eq. split.
    + intros ->. right. right. right. exists sr. tauto.
    + intros [?|[?|[?|(x & [= <-] & ?)]]]; tauto.
  - exists false. split; [done|]. split; [done|]. intros [?|[?|[?|(x & ? & ?)]]]; [tauto..|done].
Qed.

Lemma find_ban_loop_spec l : client_ok -> Forall ban_ok l -> forall found,
  exists r, find_ban_loop HIDDEN_HOST c l found = Some r /\
    ((exists e, e ∈ l /\ has_flag BAN_EXCEPTION e = true /\ applies e) -> r = None) /\
    (~ (exists e, e ∈ l /\ has_flag BAN_EXCEPTION e = true /\ applies e) ->
     (is_Some found -> r = found) /\
     (found = None ->
      match r with
      | Some b => exists l1 l2, l = l1 ++ b :: l2 /\ has_flag BAN_EXCEPTION b = false /\ applies b /\
                    Forall (fun b => has_flag BAN_EXCEPTION b = false -> ~ applies b) l1
      | None => Forall (fun b => has_flag BAN_EXCEPTION b = false -> ~ applies b) l
      end)).
Proof.
  intros Hcl Hl. induction Hl as [|b l Hb Hl IH]; intros found.
  { exists found. split; [done|]. split; [intros (e & He & _); by apply elem_of_nil in He|]. intros _. split; [done|]. by intros ->. }
  cbn [find_ban_loop].
  (* what follows from the rest when this ban is passed over *)
  assert (Hpass : (has_flag BAN_EXCEPTION b = true -> ~ applies b) ->
      (found = None -> ~ applies b) -> exists r, find_ban_loop HIDDEN_HOST c l found = Some r /\
    ((exists e, e ∈ b :: l /\ has_flag BAN_EXCEPTION e = true /\ applies e) -> r = None) /\
    (~ (exists e, e ∈ b :: l /\ has_flag BAN_EXCEPTION e = true /\ applies e) ->
     (is_Some found -> r = found) /\
     (found = None ->
      match r with
      | Some b' => exists l1 l2, b :: l = l1 ++ b' :: l2 /\ has_flag BAN_EXCEPTION b' = false /\ applies b' /\
                    Forall (fun b => has_flag BAN_EXCEPTION b = false -> ~ applies b) l1
      | None => Forall (fun b => has_flag BAN_EXCEPTION b = false -> ~ applies b) (b :: l)
      end))).
  { intros Hx Hn. destruct (IH found) as (r & -> & H1 & H2). exists r. split; [done|]. split.
    - intros (e & He & Hfe & Hae). apply elem_of_cons in He as [->|He]; [by destruct (Hx Hfe)|]. apply H1. by exists e.
    - intros Hno. destruct H2 as [H2 H3]; [intros (e & He & ?); apply Hno; exists e; by rewrite elem_of_cons; auto|].
      split; [done|]. intros Hf. specialize (H3 Hf). destruct r as [b'|].
      + destruct H3 as (l1 & l2 & -> & ? & ? & ?). exists (b :: l1), l2. split_and!; try done. constructor; auto.
      + constructor; auto. }
  destruct (bool_decide (is_Some found) && negb (has_flag BAN_EXCEPTION b)) eqn:E.
  { apply andb_true_iff in E as [E1 E2]. apply bool_decide_eq_true in E1 as [f ->]. apply negb_true_iff in E2.
    apply Hpass; [by rewrite E2|done]. }
  destruct Hb as (Hc & He & He2). pose proof (Forall_take _ (Z.to_nat (nu_len b)) _ Hc) as Hc1. fold (ban_nu b) in Hc1.
  destruct (match_z_spec _ _ Hc1 (proj1 Hcl) He) as (z & -> & Hz). cbn [mbind option_bind].
  destruct (Z.eqb_spec z 0) as [Ez|Ez]; cbn [negb].
  2: { apply Hpass; intros _ [Ha _]; tauto. }
  destruct (host_matches_spec b (conj Hc (conj He He2)) Hcl) as (h & -> & Hh). cbn [mbind option_bind].
  destruct h; cbn [negb].
  2: { assert (~ applies b) by (intros [_ Ha]; apply Hh in Ha; done). by apply Hpass. }
  assert (Ha : applies b) by (split; [tauto|by apply Hh]).
  destruct (has_flag BAN_EXCEPTION b) eqn:Eb.
  { exists None. split; [done|]. split; [done|]. intros Hno. exfalso. apply Hno. exists b. split; [by left|done]. }
  rewrite andb_true_r in E. apply bool_decide_eq_false in E.
  destruct (IH (Some b)) as (r & -> & H1 & H2). exists r. split; [done|]. split.
  - intros (e & Hin & ? & ?). apply elem_of_cons in Hin as [->|Hin]; [congruence|]. apply H1. by exists e.
  - intros Hno. destruct H2 as [H2 _]; [intros (e & Hin & ?); apply Hno; exists e; by rewrite elem_of_cons; auto|].
    rewrite (H2 (mk_is_Some _ _ eq_refl)). split; [intros [f ->]; by destruct E|]. intros _.
    exists [], l. by split_and!.
Qed.

(** C5: a ban list bans exactly the clients that some ban matches and no
    exception does.  When every mask is a C string in which no escaped
    wildcard follows a wildcard, [find_ban] ends without reading past a
    string; it finds nothing when an exception of the list applies to the
    client; otherwise it finds the first ban that applies, and nothing only
    if none does. *)
Theorem find_ban_spec l : client_ok -> Forall ban_ok l ->
  exists r, find_ban HIDDEN_HOST c l = Some r /\
    ((exists e, e ∈ l /\ has_flag BAN_EXCEPTION e = true /\ applies e) -> r = None) /\
    (~ (exists e, e ∈ l /\ has_flag BAN_EXCEPTION e = true /\ applies e) ->
     match r with
     | Some b => exists l1 l2, l = l1 ++ b :: l2 /\ has_flag BAN_EXCEPTION b = false /\ applies b /\
                   Forall (fun b => has_flag BAN_EXCEPTION b = false -> ~ applies b) l1
     | None => Forall (fun b => has_flag BAN_EXCEPTION b = false -> ~ applies b) l
     end).
Proof.
  intros Hc Hl. destruct (find_ban_loop_spec l Hc Hl None) as (r & H & H1 & H2). exists r. split; [done|].
  split; [done|]. intros Hno. by apply (H2 Hno).
Qed.
End spec.

(** *** Changing a ban list *)

Definition cov (old_ban new_ban : Ban) : bool :=
  match bmatch old_ban new_ban with Some z => z =? 0 | None => false end.

(** The masks can be compared, and no change is pending on the ban. *)
Definition mask_ok (b : Ban) : Prop := is_cstr (banstr b) /\ ban_nu b <> [].
Definition settled (b : Ban) : Prop := Z.land (ban_flags b) (Z.lor BAN_ADD (Z.lor BAN_DEL BAN_OVERLAPPED)) = 0.

Lemma mmatch_z_total o n : is_cstr o -> is_cstr n -> o <> [] -> is_Some (mmatch_z o n).
Proof. intros H1 H2 H3. unfold mmatch_z. destruct (mmatch_result o n H1 H2 H3) as (z & -> & _). eauto. Qed.

Lemma bmatch_total o n : mask_ok o -> mask_ok n -> exists z, bmatch o n = Some z /\ cov o n = (z =? 0).
Proof.
  intros [Ho1 Ho2] [Hn1 Hn2]. assert (Hne : banstr o <> []) by (intros E; unfold ban_nu in Ho2; by rewrite E, take_nil in Ho2).
  unfold cov. assert (is_Some (bmatch o n)) as [z ->]; [|by exists z]. unfold bmatch.
  destruct (_ && _); [eauto|]. destruct (mmatch_z_total (banstr o) (banstr n)) as [z Hz]; try done. rewrite Hz.
  destruct (_ =? 0); [eauto|]. destruct (_ >? _); [eauto|].
  destruct (mmatch_z_total (ban_nu o) (ban_nu n)) as [y ->]; try done; [by apply Forall_take|by apply Forall_take|].
  cbn [mbind option_bind]. destruct (negb (y =? 0)); [eauto|]. destruct (_ =? 0); eauto.
Qed.

Lemma settled_flag b f : settled b -> (f = BAN_ADD \/ f = BAN_DEL \/ f = BAN_OVERLAPPED) -> has_flag f b = false.
Proof.
  unfold settled, has_flag. intros H Hf. apply negb_false_iff, Z.eqb_eq.
  assert (Z.land (Z.lor BAN_ADD (Z.lor BAN_DEL BAN_OVERLAPPED)) f = f) as Hm by (by destruct Hf as [->|[->| ->]]).
  by rewrite <- Hm, Z.land_assoc, H, Z.land_0_l.
Qed.

Lemma settled_clear b : settled b -> clear_marks b = b.
Proof.
  intros H. unfold clear_marks, with_flags. destruct b as [a w f nl ab wh bs]. cbn in *. f_equal.
  unfold settled in H. cbn in H. apply Z.bits_inj'. intros k Hk. rewrite Z.land_spec, Z.lnot_spec by done.
  apply (f_equal (fun z => Z.testbit z k)) in H. rewrite Z.land_spec, Z.bits_0 in H. by destruct (Z.testbit f k), (Z.testbit _ k).
Qed.

Lemma covered_spec l n : Forall settled l -> Forall mask_ok l -> mask_ok n ->
  covered l n = Some (existsb (fun b => cov b n) l).
Proof.
  intros Hs Hm Hn. induction Hs as [|b l Hb Hs IH]; [done|]. apply Forall_cons in Hm as [Hmb Hm]. cbn [covered existsb].
  destruct (bmatch_total b n Hmb Hn) as (z & -> & ->). cbn [mbind option_bind].
  rewrite (settled_flag b BAN_DEL) by auto. cbn [negb]. rewrite andb_true_r. destruct (z =? 0); [done|]. by apply IH.
Qed.

Definition mark (g : Ban -> bool) (b : Ban) : Ban :=
  if g b then with_flags (Z.lor (ban_flags b) (Z.lor BAN_OVERLAPPED BAN_DEL)) b else b.

Lemma mark_eq g b :
  mark g b = if g b then with_flags (Z.lor (ban_flags b) (Z.lor BAN_OVERLAPPED BAN_DEL)) b else b.
Proof. done. Qed.

Lemma mark_covered_spec l n : Forall mask_ok l -> mask_ok n ->
  mark_covered n l = Some (map (mark (cov n)) l, Z.of_nat (length (filter (fun b => cov n b = true) l))).
Proof.
  intros Hm Hn. induction Hm as [|b l Hb Hm IH]; [done|]. cbn [mark_covered map].
  destruct (bmatch_total n b Hn Hb) as (z & -> & Hc). cbn [mbind option_bind]. rewrite IH. cbn [mbind option_bind].
  rewrite (mark_eq (cov n) b), filter_cons, Hc. destruct (z =? 0).
  - rewrite decide_True by done. cbn [length]. f_equal. f_equal. lia.
  - by rewrite decide_False.
Qed.

(** The characters of the masks of a list. *)
Definition total (l : list Ban) : Z := Z.of_nat (length (concat (map banstr l))).

Lemma total_cons b l : total (b :: l) = Z.of_nat (length (banstr b)) + total l.
Proof. unfold total. cbn [map concat]. rewrite length_app. lia. Qed.

(** The state of the loop after the marked bans. *)
Lemma process_marked conf (g : Ban -> bool) l : parse_set conf = true -> Forall settled l -> forall st, cut st = false ->
  exists st', fold_left (fun st b => process_ban conf b st) (map (mark g) l) st = st' /\
    added st' = added st /\ kept st' = kept st ++ filter (fun b => g b = false) l /\ cut st' = false /\
    changed st' = (changed st || existsb g l) /\
    louts st' = louts st ++ map (fun b => BanDeleted (banstr b)) (filter (fun b => g b = true) l) /\
    bans_inuse (lpool st') = bans_inuse (lpool st) - Z.of_nat (length (filter (fun b => g b = true) l)) /\
    count st' = count st + Z.of_nat (length (filter (fun b => g b = false) l)) /\
    len st' = len st + total (filter (fun b => g b = false) l).
Proof.
  intros Hset Hs. induction Hs as [|b l Hb Hs IH]; intros st Hcut.
  { exists st. cbn. rewrite !app_nil_r, orb_false_r. split_and!; try done; unfold total; simpl; lia. }
  cbn [map fold_left existsb]. rewrite !filter_cons, (mark_eq g b). destruct (g b) eqn:E.
  - rewrite decide_False, decide_True by done.
    assert (Hd : has_flag BAN_DEL (with_flags (Z.lor (ban_flags b) (Z.lor BAN_OVERLAPPED BAN_DEL)) b) = true).
    { unfold has_flag. cbn [ban_flags with_flags]. rewrite Z.land_lor_distr_l. apply negb_true_iff, Z.eqb_neq.
      intros H0. apply Z.lor_eq_0_iff in H0 as [_ H0]. by vm_compute in H0. }
    assert (Ha : has_flag BAN_ADD (with_flags (Z.lor (ban_flags b) (Z.lor BAN_OVERLAPPED BAN_DEL)) b) = false).
    { pose proof (settled_flag b BAN_ADD Hb ltac:(auto)) as H. unfold has_flag in *. cbn [ban_flags with_flags].
      rewrite Z.land_lor_distr_l. apply negb_false_iff, Z.eqb_eq in H. by rewrite H. }
    unfold process_ban at 2. rewrite Hd, Ha, Hset. cbn [andb].
    edestruct IH as (st' & -> & H1 & H2 & H3 & H4 & H5 & H6 & H7 & H8); [|exists st'; split; [done|]].
    + by cbn.
    + cbn in H1, H2, H4, H5, H6, H7, H8. split_and!; try done.
      * by rewrite H4, orb_true_r.
      * rewrite H5. cbn [map]. by rewrite <- app_assoc.
      * rewrite H6. cbn [length]. lia.
      * lia.
      * rewrite H8. lia.
  - rewrite decide_True, decide_False by done.
    unfold process_ban at 2. rewrite !(settled_flag b) by auto. cbn [andb].
    edestruct IH as (st' & -> & H1 & H2 & H3 & H4 & H5 & H6 & H7 & H8); [|exists st'; split; [done|]].
    + by cbn.
    + cbn in H1, H2, H4, H5, H6, H7, H8. split_and!; try done.
      * rewrite H2, Hcut. by rewrite <- app_assoc.
      * rewrite H7. cbn [length]. lia.
      * rewrite H8, total_cons. lia.
Qed.

Lemma Forall_filter' (P Q : Ban -> Prop) `{!forall b, Decision (P b)} l : Forall Q l -> Forall Q (filter P l).
Proof. rewrite !Forall_forall. intros Ha x Hx. apply list_elem_of_filter in Hx as [_ Hx]. by apply Ha. Qed.

Lemma filter_halves (g : Ban -> bool) l :
  (length (filter (fun b => g b = true) l) + length (filter (fun b => g b = false) l) = length l)%nat.
Proof. induction l as [|b l IH]; [done|]. rewrite !filter_cons. destruct (g b); cbn [length] in *; repeat case_decide; try done; cbn [length]; lia. Qed.

Lemma filter_none (g : Ban -> bool) l : existsb g l = false -> filter (fun b => g b = false) l = l.
Proof.
  induction l as [|b l IH]; [done|]. cbn [existsb]. rewrite orb_false_iff. intros [Hb Hl]. rewrite filter_cons, decide_True by done.
  by rewrite IH.
Qed.

Lemma mark_none l : map (mark (fun _ => false)) l = l.
Proof. induction l as [|b l IH]; [done|]. cbn [map]. by rewrite IH. Qed.

(** The bottom half on a list where the bans of [g] are marked. *)
Lemma process_gone conf (g : Ban -> bool) l p : parse_set conf = true -> Forall settled l ->
  exists ch p2, mode_process_bans conf (map (mark g) l) p =
      (filter (fun b => g b = false) l, ch, p2, map (fun b => BanDeleted (banstr b)) (filter (fun b => g b = true) l)) /\
    ch = existsb g l /\ bans_inuse p2 = bans_inuse p - Z.of_nat (length (filter (fun b => g b = true) l)).
Proof.
  intros Hset Hs. unfold mode_process_bans.
  destruct (process_marked conf g l Hset Hs {| added := []; kept := []; cut := false; count := 0; len := 0;
    changed := false; lpool := p; louts := [] |} eq_refl) as (st & -> & H1 & H2 & _ & H4 & H5 & H6 & _).
  rewrite H1, H2, H4, H5. cbn. exists (existsb g l), (lpool st). split_and!; done.
Qed.

(** The bottom half when a ban is to be added, too. *)
Lemma process_added conf (g : Ban -> bool) l n p : parse_set conf = true -> Forall settled l ->
  has_flag BAN_ADD n = true -> has_flag BAN_DEL n = false -> has_flag BAN_OVERLAPPED n = false ->
  let stay := filter (fun b => g b = false) l in
  let gone := filter (fun b => g b = true) l in
  let full := limited conf && ((total stay + Z.of_nat (length (banstr n)) >? AVBANLEN conf * MAXBANS conf) ||
                               (Z.of_nat (length stay) + 1 >? MAXBANS conf)) in
  exists ch p2, mode_process_bans conf (map (mark g) l ++ [n]) p =
      ((if full then [] else [with_flags (Z.land (ban_flags n) BAN_IPMASK) (with_who (who n) (when n) (set_ban_mask zero_ban (banstr n)))])
        ++ stay, ch, p2,
       map (fun b => BanDeleted (banstr b)) gone ++ [if full then BanListFull (banstr n) else BanAdded (banstr n)]) /\
    ch = existsb g l || negb full /\
    bans_inuse p2 = bans_inuse p - Z.of_nat (length gone) + (if full then 0 else 1).
Proof.
  intros Hset Hs Ha Hd Ho. cbv zeta. unfold mode_process_bans. rewrite fold_left_app.
  destruct (process_marked conf g l Hset Hs {| added := []; kept := []; cut := false; count := 0; len := 0;
    changed := false; lpool := p; louts := [] |} eq_refl) as (st & -> & H1 & H2 & H3 & H4 & H5 & H6 & H7 & H8).
  cbn in H1, H2, H3, H4, H5, H6, H7, H8. cbn [fold_left]. unfold process_ban. rewrite Ha, Hd, Ho, Hset. cbn [andb negb].
  unfold cut_here. cbn [added kept cut count len changed lpool louts]. rewrite H7, H8.
  set (stay := filter (fun b => g b = false) l) in *. set (gone := filter (fun b => g b = true) l) in *.
  replace (total stay + Z.of_nat (length (banstr n))) with (total stay + Z.of_nat (length (banstr n))) by done.
  destruct (limited conf && _) eqn:E.
  - unfold discount, with_out. cbn [added kept cut count len changed lpool louts]. rewrite H1, H2, H4, H5. exists (existsb g l), (lpool st).
    split_and!; [done|by rewrite orb_false_r|rewrite H6; lia].
  - unfold with_out, make_ban. cbn [added kept cut count len changed lpool louts]. rewrite H1, H2, H5.
    eexists true, _. split; [reflexivity|]. split; [by rewrite orb_true_r|]. cbn [bans_inuse]. destruct (free_bans _); cbn [bans_inuse]; lia.
Qed.

(** *** The ban that is added *)

Lemma bmatch_same o o' n : address o = address o' -> nu_len o = nu_len o' -> addrbits o = addrbits o' ->
  banstr o = banstr o' -> Z.land (ban_flags o) BAN_IPMASK = Z.land (ban_flags o') BAN_IPMASK ->
  has_flag BAN_EXCEPTION o = has_flag BAN_EXCEPTION o' ->
  bmatch o n = bmatch o' n /\ bmatch n o = bmatch n o'.
Proof.
  intros H1 H2 H3 H4 H5 H6. unfold bmatch, ban_nu. rewrite H1, H2, H3, H4, H6.
  rewrite <- !Z.land_assoc, !(Z.land_comm (ban_flags n) BAN_IPMASK), !Z.land_assoc, H5.
  by rewrite <- !(Z.land_assoc (ban_flags n)), H5.
Qed.

Section change.
Context (conf : ban_conf) (mask name : cstring) (now : Z) (k : nat).
Hypothesis Hset : parse_set conf = true.
Hypothesis Hmask : is_cstr mask /\ (length mask <= 90)%nat /\ strrchr "@" mask = Some k /\ (0 < k)%nat.

(** The ban that stays in the list. *)
Definition real_ban : Ban :=
  let n := new_ban true mask name now in
  with_flags (Z.land (ban_flags n) BAN_IPMASK) (with_who (ircd_strncpy name NICKLEN) now (set_ban_mask zero_ban mask)).

Lemma new_ban_facts add : let n := new_ban add mask name now in
  mask_ok n /\ banstr n = mask /\ has_flag BAN_ADD n = add /\ has_flag BAN_DEL n = negb add /\
  has_flag BAN_OVERLAPPED n = false /\
  (forall b, cov (new_ban add mask name now) b = cov real_ban b /\ cov b (new_ban add mask name now) = cov b real_ban).
Proof using Hmask.
  destruct Hmask as (Hc & Hl & Hk & Hpos). cbv zeta.
  destruct (set_ban_mask_at (with_flags (if add then BAN_ADD else BAN_DEL) zero_ban) mask k Hk Hl) as (Hb & Hn & Hat).
  assert (Hok : mask_ok (new_ban add mask name now)).
  { unfold new_ban, mask_ok, ban_nu. cbn [banstr nu_len with_who]. rewrite Hb, Hn, Nat2Z.id. split; [done|].
    destruct mask; [done|]. by destruct k; [lia|]. }
  split; [done|]. split; [done|]. unfold new_ban, real_ban, new_ban, cov, has_flag. cbn [ban_flags with_who].
  split_and!.
  1-3: unfold set_ban_mask; rewrite Hk; destruct (ipmask_parse _ _) as [[[? ?] ?]|], add; reflexivity.
  intros b.
  set (n := with_who _ now (set_ban_mask (with_flags (if add then _ else _) _) mask)).
  set (rb := with_flags _ (with_who _ now (set_ban_mask zero_ban mask))).
  destruct (bmatch_same n rb b) as [-> ->]; [..|done];
    unfold n, rb, has_flag, set_ban_mask; rewrite Hk; destruct (ipmask_parse _ _) as [[[? ?] ?]|], add; reflexivity.
Qed.

Lemma real_ban_settled : settled real_ban /\ mask_ok real_ban /\ banstr real_ban = mask.
Proof using Hmask.
  destruct Hmask as (Hc & Hl & Hk & Hpos). destruct (set_ban_mask_at zero_ban mask k Hk Hl) as (Hb & Hn & Hat).
  unfold settled, mask_ok, ban_nu, real_ban, new_ban. cbn [ban_flags with_flags banstr nu_len with_who]. rewrite Hb, Hn, Nat2Z.id. split_and!; try done.
  - rewrite <- Z.land_assoc. apply Z.land_0_r.
  - destruct mask; [done|]. by destruct k; [lia|].
Qed.

(** No ban covers another. *)
Definition antichain (l : list Ban) : Prop := ForallOrdPairs (fun a b => cov a b = false /\ cov b a = false) l.

Lemma antichain_filter (P : Ban -> Prop) `{!forall b, Decision (P b)} l : antichain l -> antichain (filter P l).
Proof.
  intros Ha. induction Ha as [|b l Hb Hl IH]; [constructor|]. rewrite filter_cons. case_decide; [|done].
  constructor; [|done]. rewrite Forall_forall in Hb |- *. intros x Hx. apply list_elem_of_filter in Hx as [_ Hx]. by apply Hb.
Qed.

(** What a change of one ban does: the list, whether it changed, what is
    sent, and how many structures are freed. *)
Definition ban_change_spec (add : bool) (l : list Ban) : list Ban * list ban_out :=
  let gone := filter (fun b => cov real_ban b = true) l in
  let stay := filter (fun b => cov real_ban b = false) l in
  let outs := map (fun b => BanDeleted (banstr b)) gone in
  if add then
    if existsb (fun b => cov b real_ban) l then (l, [])
    else if limited conf && ((total stay + Z.of_nat (length mask) >? AVBANLEN conf * MAXBANS conf) ||
                             (Z.of_nat (length stay) + 1 >? MAXBANS conf))
    then (stay, outs ++ [BanListFull mask])
    else (real_ban :: stay, outs ++ [BanAdded mask])
  else (stay, outs).

(** C6: changing the bans of a channel keeps the list free of overlaps.  From
    a list with no change pending, whose masks can be compared, the top half
    ([mode_parse_ban], [apply_ban]) and the bottom half ([mode_process_bans])
    of a MODE change of one ban together give: for +b, nothing when a ban of
    the list covers the new one, and otherwise the new ban at the front and
    the bans it covers removed, unless the list of a local user is then too
    long, when the covered ones are still removed; for -b, the bans that the
    mask covers removed.  Exactly these changes are sent; the count of
    structures in use follows the length of the list; the bans stay settled;
    and if no ban covered another before, none does after. *)
Theorem ban_change_correct add l p :
  Forall settled l -> Forall mask_ok l ->
  exists l1 r p1, change_ban true add mask name now l p = Some (l1, r, p1) /\
    let '(l2, ch, p2, outs) := mode_process_bans conf l1 p1 in
    (l2, outs) = ban_change_spec add l /\ (ch = false -> l2 = l) /\
    bans_inuse p2 - Z.of_nat (length l2) = bans_inuse p - Z.of_nat (length l) /\
    Forall settled l2 /\ Forall mask_ok l2 /\ (antichain l -> antichain l2).
Proof using Hset Hmask.
  intros Hs Hm. destruct (new_ban_facts add) as (Hok & Hbs & Ha & Hd & Ho & Hcov).
  destruct real_ban_settled as (Hrs & Hro & Hrb).
  assert (Hcl : map clear_marks l = l) by (clear -Hs; induction Hs as [|b l Hb _ IH]; [done|]; simpl; by rewrite IH, settled_clear).
  unfold change_ban, apply_ban. rewrite Hcl, Ha, Hd. clear Hcl.
  rewrite mark_covered_spec by done. set (g := cov (new_ban add mask name now)) in *.
  assert (Hg : forall b, g b = cov real_ban b) by (intros b; apply Hcov).
  assert (Hgone : filter (fun b => g b = true) l = filter (fun b => cov real_ban b = true) l) by (apply list_filter_iff; intros b; by rewrite Hg).
  assert (Hstay : filter (fun b => g b = false) l = filter (fun b => cov real_ban b = false) l) by (apply list_filter_iff; intros b; by rewrite Hg).
  assert (Hself : forall b, cov b (new_ban add mask name now) = cov b real_ban) by (intros b; apply Hcov).
  assert (Hsame : exists ch p2, mode_process_bans conf l p = (l, ch, p2, []) /\ bans_inuse p2 = bans_inuse p /\ (ch = false -> l = l)).
  { destruct (process_gone conf (fun _ => false) l p Hset Hs) as (ch & p2 & He & _ & Hp). rewrite mark_none in He.
    assert (Hz : filter (fun b : Ban => false = true) l = []) by (clear; induction l as [|b l IH]; [done|by rewrite filter_cons, decide_False]).
    rewrite Hz in He, Hp. rewrite (filter_none (fun _ => false)) in He by (clear; by induction l).
    exists ch, p2. split; [exact He|]. split; [|done]. rewrite Hp. cbn [length]. lia. }
  destruct add.
  - rewrite covered_spec by done. cbn [mbind option_bind].
    assert (Hex : existsb (fun b => cov b (new_ban true mask name now)) l = existsb (fun b => cov b real_ban) l)
      by (clear -Hself; induction l as [|b l IH]; [done|]; cbn [existsb]; by rewrite Hself, IH).
    unfold ban_change_spec. rewrite Hex. destruct (existsb (fun b => cov b real_ban) l) eqn:Ecov.
    + destruct Hsame as (ch & p2 & He & Hp & _). exists l, 1, p. split; [done|]. rewrite He. rewrite Hp. by split_and!.
    + cbn [mbind option_bind]. eexists _, 0, p. split; [done|].
      destruct (process_added conf g l (new_ban true mask name now) p Hset Hs Ha Hd Ho) as (ch & p2 & He & Hch & Hp).
      rewrite He, Hbs, Hgone, Hstay. rewrite Hbs, Hstay in Hch. rewrite Hbs, Hgone, Hstay in Hp.
      pose proof (filter_halves (cov real_ban) l) as Hhalf.
      assert (Hnone : Forall (fun b => cov b real_ban = false) l).
      { rewrite Forall_forall. intros b Hb. apply list_elem_of_In in Hb. rewrite <- not_true_iff_false in Ecov |- *.
        intros Hc. apply Ecov, existsb_exists. by exists b. }
      revert Hch Hp. match goal with |- context [if limited conf && ?x then [] else _] => destruct (limited conf && x) end;
        cbn [app]; intros Hch Hp.
      * split_and!; try done; [|rewrite Hp; lia|by apply Forall_filter'|by apply Forall_filter'|by apply antichain_filter].
        rewrite Hch, orb_false_r. intros Hch'. apply filter_none. rewrite <- Hch'. clear -Hg. induction l as [|b l IH]; [done|]. cbn [existsb]. by rewrite Hg, IH.
      * split_and!; try done.
        -- by rewrite Hch, orb_true_r.
        -- rewrite Hp. cbn [length]. lia.
        -- constructor; [done|by apply Forall_filter'].
        -- constructor; [done|by apply Forall_filter'].
        -- intros Hanti. constructor; [|by apply antichain_filter]. rewrite Forall_forall. intros b Hb.
           apply list_elem_of_filter in Hb as [Hb1 Hb2]. rewrite Forall_forall in Hnone. split; [done|by apply Hnone].
  - cbn [negb mbind option_bind].
    assert (Hchange : exists r, (if Z.of_nat (length (filter (fun b => g b = true) l)) >? 0 then Some (map (mark g) l, 0, p)
         else Some (map (mark g) l, 3, p)) = Some (map (mark g) l, r, p)) by (destruct (_ >? 0); eauto).
    destruct Hchange as [r ->]. exists (map (mark g) l), r, p. split; [done|].
    destruct (process_gone conf g l p Hset Hs) as (ch & p2 & -> & Hch & Hp). rewrite Hgone, Hstay. rewrite Hgone in Hp.
    pose proof (filter_halves (cov real_ban) l) as Hhalf.
    split_and!; [done| |rewrite Hp; lia|by apply Forall_filter'|by apply Forall_filter'|by apply antichain_filter].
    rewrite Hch. intros Hch'. apply filter_none. rewrite <- Hch'. clear -Hg. induction l as [|b l IH]; [done|]. cbn [existsb]. by rewrite Hg, IH.
Qed.
End change.

(** *** Witnesses and examples *)

Definition ex_client : ban_client :=
  {| bc_name := str "joe"; bc_username := str "ident"; bc_host := str "pc7.example.net"; bc_realhost := str "pc7.example.net";
     bc_ip := map htons [0; 0; 0; 0; 0; 65535; 0x0a01; 0x0203]; bc_account := None; bc_hidden := false |}.

Definition ex_ban (flags : Z) (mask : string) : Ban := set_ban_mask (with_flags flags zero_ban) (str mask).

Definition ex_list : list Ban := [ex_ban 0 "*!root@*"; ex_ban BAN_EXCEPTION "kim!*@*"; ex_ban 0 "*!*@10.1.0.0/16"].

Example find_ban_ex :
  find_ban (str "users.example") ex_client ex_list = Some (Some (ex_ban 0 "*!*@10.1.0.0/16")) /\
  find_ban (str "users.example") ex_client (ex_ban BAN_EXCEPTION "joe!*@*.net" :: ex_list) = Some None.
Proof. by vm_compute. Qed.

(** A mask whose length is never written is of length 0, and so bans every
    address. *)
Example ban_everyone :
  find_ban (str "users.example") ex_client [fst (make_ban (str "*!*@1:2:3:4:5:6:7:8:") {| free_bans := 0; bans_alloc := 0; bans_inuse := 0 |})]
  <> Some None.
Proof. by vm_compute. Qed.

Lemma find_ban_spec_witness :
  client_ok (str "users.example") ex_client /\ Forall ban_ok ex_list /\
  exists r, find_ban (str "users.example") ex_client ex_list = Some r.
Proof.
  assert (H1 : client_ok (str "users.example") ex_client).
  { split; [apply (bool_decide_unpack _); vm_compute; exact I|]. split; [apply (bool_decide_unpack _); vm_compute; exact I|].
    intros sr E. vm_compute in E. discriminate E. }
  assert (H2 : Forall ban_ok ex_list).
  { repeat (constructor; [split; [apply (bool_decide_unpack _); vm_compute; exact I|split; vm_compute; reflexivity]|]). constructor. }
  destruct (find_ban_spec (str "users.example") ex_client ex_list H1 H2) as (r & Hr & _).
  split; [exact H1|]. split; [exact H2|]. exists r. exact Hr.
Defined.

Definition ex_conf : ban_conf := {| parse_set := true; parse_bounce := false; limited := true; AVBANLEN := 40; MAXBANS := 45 |}.
Definition ex_bans : list Ban := [ex_ban 0 "*!root@*"; ex_ban 0 "*!*@10.1.2.0/24"; ex_ban 0 "kim!*@10.1.*"].

Lemma ban_change_correct_witness :
  Forall settled ex_bans /\ Forall mask_ok ex_bans /\
  exists l1 r p1 ch p2, change_ban true true (str "*!*@10.1.*") (str "op") 100 ex_bans {| free_bans := 0; bans_alloc := 3; bans_inuse := 3 |} = Some (l1, r, p1) /\
    mode_process_bans ex_conf l1 p1 =
      ([real_ban (str "*!*@10.1.*") (str "op") 100; ex_ban 0 "*!root@*"], ch, p2,
       [BanDeleted (str "*!*@10.1.2.0/24"); BanDeleted (str "kim!*@10.1.*"); BanAdded (str "*!*@10.1.*")]).
Proof.
  assert (H1 : Forall settled ex_bans) by (repeat (constructor; [vm_compute; reflexivity|]); constructor).
  assert (H2 : Forall mask_ok ex_bans).
  { repeat (constructor; [split; [apply (bool_decide_unpack _); vm_compute; exact I|vm_compute; discriminate]|]). constructor. }
  destruct (ban_change_correct ex_conf (str "*!*@10.1.*") (str "op") 100 3 eq_refl) with (add := true) (l := ex_bans)
    (p := {| free_bans := 0; bans_alloc := 3; bans_inuse := 3 |}) as (l1 & r & p1 & E & Hrest).
  - split; [apply (bool_decide_unpack _); vm_compute; exact I|]. split; [vm_compute; lia|]. split; [vm_compute; reflexivity|lia].
  - exact H1.
  - exact H2.
  - split; [exact H1|]. split; [exact H2|]. exists l1, r, p1.
    destruct (mode_process_bans ex_conf l1 p1) as [[[l2 ch] p2] outs]. exists ch, p2. split; [exact E|].
    destruct Hrest as [Hs _].
    assert (Hv : ban_change_spec ex_conf (str "*!*@10.1.*") (str "op") 100 true ex_bans =
      ([real_ban (str "*!*@10.1.*") (str "op") 100; ex_ban 0 "*!root@*"],
       [BanDeleted (str "*!*@10.1.2.0/24"); BanDeleted (str "kim!*@10.1.*"); BanAdded (str "*!*@10.1.*")])) by (vm_compute; reflexivity).
    rewrite Hv in Hs. apply pair_equal_spec in Hs as [-> ->]. reflexivity.
Defined.
