(* ===== verification/Numnicks.v ===== *)
(** * Numeric nicks ([ircd/numnicks.c])

    The table of servers by numnick, each server's array of clients, and the
    operations that register, find and remove them.  A [struct Client *] is
    the number of the client; a null pointer is the absence of an entry. *)
From S2P Require Import Prelude Match Address Base64.
Local Open Scope Z_scope.

Abbreviation cid := nat (only parsing).

(** The part of a server's [struct Client] and [struct Server] used here. *)
Record server := Server {
  sv_name : cstring;
  sv_yxx : cstring;               (* cli_yxx *)
  nn_capacity : cstring;
  nn_mask : Z;
  client_list : gmap Z cid        (* the entries that are not null *)
}.

Record user := User { u_yxx : cstring; u_server : cid }.

Record nnstate := NN {
  lastNNServer : Z;
  server_list : gmap Z cid;
  servers : gmap cid server;
  users : gmap cid user;
  last_nn : Z                     (* the static of SetLocalNumNick *)
}.

Definition set_server (s : cid) (sv : server) (st : nnstate) : nnstate :=
  NN (lastNNServer st) (server_list st) (<[s := sv]> (servers st)) (users st) (last_nn st).

Definition set_user (u : cid) (us : user) (st : nnstate) : nnstate :=
  NN (lastNNServer st) (server_list st) (servers st) (<[u := us]> (users st)) (last_nn st).

Definition set_server_list (last : Z) (l : gmap Z cid) (st : nnstate) : nnstate :=
  NN last l (servers st) (users st) (last_nn st).

Definition with_clients (f : gmap Z cid -> gmap Z cid) (sv : server) : server :=
  Server (sv_name sv) (sv_yxx sv) (nn_capacity sv) (nn_mask sv) (f (client_list sv)).

(** ** Look-ups *)
Definition FindXNServer (st : nnstate) (numeric : cstring) : option cid :=
  server_list st !! base64toint [char_at numeric 0; char_at numeric 1].

Definition FindNServer (st : nnstate) (numeric : cstring) : option cid :=
  let len := length numeric in
  if (len <? 3)%nat then server_list st !! base64toint numeric
  else if (len =? 3)%nat then server_list st !! digit_value (deref numeric)
  else FindXNServer st numeric.

(** [client_list[base64toint(p) & nn_mask]] of a server. *)
Definition client_at (st : nnstate) (s : cid) (p : cstring) : option cid :=
  sv ← servers st !! s;
  client_list sv !! Z.land (base64toint p) (nn_mask sv).

Definition findNUser (st : nnstate) (yxx : cstring) : option cid :=
  if (length yxx =? 5)%nat
  then s ← FindXNServer st yxx; client_at st s (drop 2 yxx)
  else s ← FindNServer st yxx; client_at st s (drop 1 yxx).

(** ** Servers *)
Definition RemoveYXXClient (st : nnstate) (s : cid) (yxx : cstring) : nnstate :=
  match servers st !! s with
  | Some sv =>
      match yxx with
      | [] => st
      | _ => set_server s (with_clients (delete (Z.land (base64toint yxx) (nn_mask sv))) sv) st
      end
  | None => st
  end.

Definition SetServerYXX (st : nnstate) (s : cid) (yxx : cstring) : nnstate :=
  match servers st !! s with
  | Some sv =>
      let '(yx, capacity) :=
        if (length yxx =? 5)%nat then (take 2 yxx, take 3 (drop 2 yxx))
        else (char_at yxx 0 :: tail (sv_yxx sv),
              char_at yxx 1 :: char_at yxx 2 :: drop 2 (nn_capacity sv)) in
      let mask := base64toint capacity in
      let index := base64toint yx in
      let last := if lastNNServer st <=? index then index + 1 else lastNNServer st in
      set_server s (Server (sv_name sv) yx capacity mask ∅)
        (set_server_list last (<[index := s]> (server_list st)) st)
  | None => st
  end.

(** [while (max_clients < capacity) max_clients <<= 1;] on 32 bits: at most
    29 rounds take 16 past any capacity; [None]: the loop does not end
    ([max_clients] has become 0). *)
Definition max_clients_step (capacity : Z) (max_clients : Z) : Z + Z :=
  if max_clients <? capacity then inl (w32 (Z.shiftl max_clients 1)) else inr max_clients.

(** [exit(-1)] is [None]. *)
Definition SetYXXCapacity (st : nnstate) (c : cid) (capacity : Z) : option nnstate :=
  match servers st !! c, loop (max_clients_step capacity) 30 16 with
  | Some sv, Some max_clients =>
      if NN_MAX_CLIENT <? max_clients then None
      else
        let mask := max_clients - 1 in
        Some (set_server c (Server (sv_name sv) (sv_yxx sv) (inttobase64 mask 3) mask ∅)
          (set_server_list (lastNNServer st)
             (<[base64toint (sv_yxx sv) := c]> (server_list st)) st))
  | _, _ => None
  end.

Definition SetYXXServerName (st : nnstate) (c : cid) (numeric : Z) : nnstate :=
  match servers st !! c with
  | Some sv =>
      let last := if lastNNServer st <=? numeric then numeric + 1 else lastNNServer st in
      set_server c (Server (sv_name sv) (inttobase64 numeric 2) (nn_capacity sv) (nn_mask sv)
                           (client_list sv))
        (set_server_list last (<[numeric := c]> (server_list st)) st)
  | None => st
  end.

Definition ClearServerYXX (st : nnstate) (s : cid) : nnstate :=
  match servers st !! s with
  | Some sv =>
      let index := base64toint (sv_yxx sv) in
      if decide (server_list st !! index = Some s)
      then set_server_list (lastNNServer st) (delete index (server_list st)) st
      else st
  | None => st
  end.

(** ** Clients *)

(** The second component is the client passed to [exit_client] for a numeric
    nick collision; of what that call does, the entry it clears in this table
    ([RemoveYXXClient], called from [exit_one_client]) is part of the model. *)
Definition SetRemoteNumNick (st : nnstate) (acptr : cid) (yxx : cstring)
  : nnstate * option cid :=
  match users st !! acptr with
  | Some us =>
      let s := u_server us in
      let y := if (length yxx =? 5)%nat then drop 2 yxx else [char_at yxx 1; char_at yxx 2] in
      let st := set_user acptr (User y s) st in
      match servers st !! s with
      | Some sv =>
          let slot := Z.land (base64toint y) (nn_mask sv) in
          let old := client_list sv !! slot in
          let st := match old with
                    | Some o =>
                        match users st !! o with
                        | Some ou => RemoveYXXClient st (u_server ou) (u_yxx ou)
                        | None => st
                        end
                    | None => st
                    end in
          match servers st !! s with
          | Some sv => (set_server s (with_clients <[slot := acptr]> sv) st, old)
          | None => (st, old)
          end
      | None => (st, None)
      end
  | None => (st, None)
  end.

(** The loop of [SetLocalNumNick] on [last_nn] and [count]; the result is the
    free [last_nn], or none when every numeric is taken. *)
Definition local_step (clients : gmap Z cid) (mask : Z) (s : Z * Z) : Z * Z + option Z * Z :=
  let '(last, count) := s in
  match clients !! Z.land last mask with
  | None => inr (Some last, last)
  | Some _ =>
      let count := count + 1 in
      if count =? NN_MAX_CLIENT then inr (None, last)
      else let last := last + 1 in
           inl (if last =? NN_MAX_CLIENT then 0 else last, count)
  end.

Definition SetLocalNumNick (me : cid) (st : nnstate) (cptr : cid) : option (nnstate * Z) :=
  match servers st !! me, users st !! cptr with
  | Some sv, Some us =>
      match loop (local_step (client_list sv) (nn_mask sv)) (Z.to_nat (NN_MAX_CLIENT + 1))
              (last_nn st, 0) with
      | Some (Some nn, _) =>
          let st := set_server me (with_clients <[Z.land nn (nn_mask sv) := cptr]> sv) st in
          let st := set_user cptr (User (inttobase64 nn 3) (u_server us)) st in
          let last := nn + 1 in
          Some (NN (lastNNServer st) (server_list st) (servers st) (users st)
                   (if last =? NN_MAX_CLIENT then 0 else last), 1)
      | Some (None, last) =>
          Some (NN (lastNNServer st) (server_list st) (servers st) (users st) last, 0)
      | None => None
      end
  | _, _ => None
  end.

(** ** Search by name *)
Definition find_match_server (st : nnstate) (mask : cstring) : option cid :=
  if (length mask =? 0)%nat then None
  else
    let mask := collapse mask in
    (fix go (n : nat) (i : Z) : option cid :=
       match n with
       | O => None
       | S n =>
           match server_list st !! i with
           | Some a =>
               match servers st !! a with
               | Some sv =>
                   if decide (match_ mask (sv_name sv) = Some (Some 0)) then Some a
                   else go n (i + 1)
               | None => go n (i + 1)
               end
           | None => go n (i + 1)
           end
       end) (Z.to_nat (lastNNServer st)) 0.

(** ** The table invariant

    The client in a slot of a server's array is a user of that server whose
    own numnick leads back to the slot. *)
Definition slot_ok (st : nnstate) (s : cid) (mask slot : Z) (u : cid) : Prop :=
  exists us, users st !! u = Some us /\ u_server us = s /\
    Z.land (base64toint (u_yxx us)) mask = slot.

Definition nn_inv (st : nnstate) : Prop :=
  forall s sv slot u, servers st !! s = Some sv -> client_list sv !! slot = Some u ->
    slot_ok st s (nn_mask sv) slot u.

(** The client is in no array yet. *)
Definition unregistered (st : nnstate) (u : cid) : Prop :=
  forall s sv slot, servers st !! s = Some sv -> client_list sv !! slot <> Some u.

Inductive nn_op :=
  | OpRemove (s : cid) (yxx : cstring)
  | OpServerYXX (s : cid) (yxx : cstring)
  | OpCapacity (c : cid) (capacity : Z)
  | OpServerName (c : cid) (numeric : Z)
  | OpClear (s : cid)
  | OpRemote (u : cid) (yxx : cstring)
  | OpLocal (me u : cid).

Definition run_op (st : nnstate) (o : nn_op) : option nnstate :=
  match o with
  | OpRemove s yxx => Some (RemoveYXXClient st s yxx)
  | OpServerYXX s yxx => Some (SetServerYXX st s yxx)
  | OpCapacity c n => SetYXXCapacity st c n
  | OpServerName c n => Some (SetYXXServerName st c n)
  | OpClear s => Some (ClearServerYXX st s)
  | OpRemote u yxx => Some (fst (SetRemoteNumNick st u yxx))
  | OpLocal me u => fst <$> SetLocalNumNick me st u
  end.

(** The callers register a client once, and as a user of the server. *)
Definition op_pre (st : nnstate) (o : nn_op) : Prop :=
  match o with
  | OpRemote u _ => unregistered st u
  | OpLocal me u => unregistered st u /\ (u_server <$> users st !! u) = Some me
  | _ => True
  end.

Lemma nn_inv_set_server st s sv :
  nn_inv st ->
  (forall slot u, client_list sv !! slot = Some u -> slot_ok st s (nn_mask sv) slot u) ->
  nn_inv (set_server s sv st).
Proof.
  intros Hinv Hsv s' sv' slot u. simpl. intros Hs Hu.
  destruct (decide (s = s')) as [<-|Hne]; simplify_map_eq.
  - exact (Hsv _ _ Hu).
  - exact (Hinv _ _ _ _ Hs Hu).
Qed.

Lemma nn_inv_set_user st u us :
  nn_inv st -> unregistered st u -> nn_inv (set_user u us st).
Proof.
  intros Hinv Hun s sv slot u' Hs Hu. simpl in Hs.
  destruct (Hinv _ _ _ _ Hs Hu) as (us' & Hus & Hrest). exists us'. split; [|done].
  simpl. rewrite lookup_insert_ne; [done|]. intros <-. by apply (Hun s sv slot).
Qed.

Lemma nn_inv_remove st s yxx : nn_inv st -> nn_inv (RemoveYXXClient st s yxx).
Proof.
  intros Hinv. unfold RemoveYXXClient. destruct (servers st !! s) as [sv|] eqn:Hs; [|done].
  destruct yxx as [|c yxx]; [done|]. apply nn_inv_set_server; [done|]. simpl. intros slot u Hu.
  apply lookup_delete_Some in Hu as [_ Hu]. exact (Hinv _ _ _ _ Hs Hu).
Qed.

Lemma unregistered_remove st s yxx u : unregistered st u -> unregistered (RemoveYXXClient st s yxx) u.
Proof.
  intros Hun. unfold RemoveYXXClient. destruct (servers st !! s) as [sv|] eqn:Hs; [|done].
  destruct yxx as [|c yxx]; [done|]. intros s' sv' slot. simpl.
  destruct (decide (s = s')) as [<-|Hne]; intros Hs' Hu; simplify_map_eq.
  - apply lookup_delete_Some in Hu as [_ Hu]. by apply (Hun s sv slot).
  - by apply (Hun s' sv' slot).
Qed.

Lemma nn_inv_remote st u yxx :
  nn_inv st -> unregistered st u -> nn_inv (fst (SetRemoteNumNick st u yxx)).
Proof.
  intros Hinv Hun. unfold SetRemoteNumNick. destruct (users st !! u) as [us|] eqn:Hus; [|done].
  set (y := if (length yxx =? 5)%nat then _ else _).
  pose proof (nn_inv_set_user st u (User y (u_server us)) Hinv Hun) as Hinv1.
  assert (unregistered (set_user u (User y (u_server us)) st) u) as Hun1 by done.
  set (st1 := set_user u (User y (u_server us)) st) in *.
  assert (users st1 !! u = Some (User y (u_server us))) as Hu1 by (by simpl; simplify_map_eq).
  destruct (servers st1 !! u_server us) as [sv|] eqn:Hs; [|done].
  set (slot := Z.land (base64toint y) (nn_mask sv)).
  set (st2 := match client_list sv !! slot with Some o => _ | None => st1 end).
  assert (nn_inv st2 /\ users st2 = users st1 /\
    (forall sv', servers st2 !! u_server us = Some sv' -> nn_mask sv' = nn_mask sv)) as (Hinv2 & Hu2 & Hm2).
  { unfold st2. destruct (client_list sv !! slot) as [o|]; [|split_and!; auto; intros; congruence].
    destruct (users st1 !! o) as [ou|]; [|split_and!; auto; intros; congruence].
    split; [by apply nn_inv_remove|]. unfold RemoveYXXClient.
    destruct (servers st1 !! u_server ou) as [osv|] eqn:Hos; [|split_and!; auto; intros; congruence].
    destruct (u_yxx ou) as [|c r]; [split_and!; auto; intros; congruence|].
    split; [done|]. simpl. intros sv'.
    destruct (decide (u_server ou = u_server us)) as [He|He]; intros Hsv'.
    - rewrite He in Hsv', Hos. simplify_map_eq. simpl in *. congruence.
    - rewrite lookup_insert_ne in Hsv' by done. simpl in *. congruence. }
  destruct (servers st2 !! u_server us) as [sv2|] eqn:Hs2; simpl; [|done].
  apply nn_inv_set_server; [done|]. simpl. intros sl v Hv.
  destruct (decide (sl = slot)) as [->|Hne]; simplify_map_eq.
  - exists (User y (u_server us)). rewrite Hu2. simplify_map_eq. split_and!; auto. simpl. by rewrite (Hm2 _ eq_refl).
  - exact (Hinv2 _ _ _ _ Hs2 Hv).
Qed.

(** The loop stops at a free numeric. *)
Lemma local_step_total clients mask last free :
  0 <= last < NN_MAX_CLIENT -> 0 <= free < NN_MAX_CLIENT ->
  clients !! Z.land free mask = None ->
  exists nn last', loop (local_step clients mask) (Z.to_nat (NN_MAX_CLIENT + 1)) (last, 0)
    = Some (Some nn, last') /\ 0 <= nn < NN_MAX_CLIENT /\ clients !! Z.land nn mask = None.
Proof.
  intros Hlast Hfree Hnone.
  destruct (loop_total (local_step clients mask)
    (fun '(l, c) => 0 <= l < NN_MAX_CLIENT /\ 0 <= c /\ c + (free - l) mod NN_MAX_CLIENT < NN_MAX_CLIENT)
    (fun '(l, c) => Z.to_nat ((free - l) mod NN_MAX_CLIENT))
    (fun '(r, _) => exists nn, r = Some nn /\ 0 <= nn < NN_MAX_CLIENT /\ clients !! Z.land nn mask = None)
  ) with (fuel := Z.to_nat (NN_MAX_CLIENT + 1)) (s := (last, 0)) as ([r l'] & Hr & nn & -> & Hnn).
  - unfold NN_MAX_CLIENT in *. intros [l c] (Hl & Hc & Hd). unfold local_step.
    destruct (clients !! Z.land l mask) eqn:Hcl; [|by exists l].
    assert (l <> free) as Hne by congruence.
    pose proof (Z.mod_pos_bound (free - l) 262144 ltac:(lia)).
    assert ((free - l) mod 262144 <> 0) as Hnz.
    { intros Hz. apply Z.mod_divide in Hz as [q Hq]; [|lia]. lia. }
    unfold NN_MAX_CLIENT. destruct (Z.eqb_spec (c + 1) 262144); [lia|].
    assert ((free - (if l + 1 =? 262144 then 0 else l + 1)) mod 262144 = (free - l) mod 262144 - 1) as ->.
    { destruct (Z.eqb_spec (l + 1) 262144).
      - replace (free - l) with (free - 0 + 1 + (-1) * 262144) by lia. rewrite Z.mod_add by lia.
        rewrite !Z.mod_small; lia.
      - destruct (Z.le_gt_cases l free).
        + rewrite !Z.mod_small; lia.
        + rewrite <- (Z.mod_add (free - (l + 1)) 1), <- (Z.mod_add (free - l) 1) by lia.
          rewrite !Z.mod_small; lia. }
    destruct (Z.eqb_spec (l + 1) 262144); split_and!; lia.
  - unfold NN_MAX_CLIENT in *. pose proof (Z.mod_pos_bound (free - last) 262144 ltac:(lia)). lia.
  - unfold NN_MAX_CLIENT in *. pose proof (Z.mod_pos_bound (free - last) 262144 ltac:(lia)). lia.
  - by exists nn, l'.
Qed.

Lemma local_step_free clients mask fuel s nn last :
  0 <= fst s < NN_MAX_CLIENT ->
  loop (local_step clients mask) fuel s = Some (Some nn, last) ->
  0 <= nn < NN_MAX_CLIENT /\ clients !! Z.land nn mask = None.
Proof.
  revert s. induction fuel as [|fuel IH]; intros [l c] Hl; simpl; [done|].
  destruct (clients !! Z.land l mask) eqn:Hcl.
  - destruct (c + 1 =? NN_MAX_CLIENT); [done|]. intros H. apply IH in H; [done|].
    unfold NN_MAX_CLIENT in *. simpl in *. destruct (Z.eqb_spec (l + 1) 262144); simpl; lia.
  - intros [= <- <-]. done.
Qed.

Lemma land_idem_mask nn mask : Z.land (Z.land nn mask) mask = Z.land nn mask.
Proof. by rewrite <- Z.land_assoc, Z.land_diag. Qed.

Lemma nn_inv_local st me u st' r :
  nn_inv st -> unregistered st u -> (u_server <$> users st !! u) = Some me ->
  0 <= last_nn st < NN_MAX_CLIENT ->
  SetLocalNumNick me st u = Some (st', r) -> nn_inv st'.
Proof.
  intros Hinv Hun Hme Hlast. unfold SetLocalNumNick.
  destruct (servers st !! me) as [sv|] eqn:Hs; [|done].
  destruct (users st !! u) as [us|] eqn:Hus; [|done]. simpl in Hme. injection Hme as Hme.
  destruct (loop _ _ _) as [[[nn|] l]|] eqn:Hl; [| |done].
  - apply local_step_free in Hl as [Hnn _]; [|done]. intros [= <- <-].
    assert (nn_inv (set_user u (User (inttobase64 nn 3) (u_server us)) st)) as Hinv1
      by by apply nn_inv_set_user.
    intros s sv' slot v Hsv' Hv. simpl in Hsv'.
    destruct (decide (me = s)) as [<-|Hne]; simplify_map_eq.
    + destruct (decide (slot = Z.land nn (nn_mask sv))) as [->|Hns]; simplify_map_eq.
      * exists (User (inttobase64 nn 3) (u_server us)). simpl. simplify_map_eq. split_and!; auto.
        rewrite base64_roundtrip; [done| | |lia]; unfold NN_MAX_CLIENT in *; lia.
      * exact (Hinv1 _ _ _ _ Hs Hv).
    + exact (Hinv1 _ _ _ _ Hsv' Hv).
  - intros [= <- <-]. intros s sv' slot v Hsv' Hv. exact (Hinv _ _ _ _ Hsv' Hv).
Qed.

(** C32: every operation on the numnick table keeps the table consistent. *)
Theorem nn_inv_step st o st' :
  nn_inv st -> 0 <= last_nn st < NN_MAX_CLIENT -> op_pre st o -> run_op st o = Some st' ->
  nn_inv st'.
Proof.
  intros Hinv Hlast Hpre Hrun. destruct o as [s yxx|s yxx|c n|c n|s|u yxx|me u]; simpl in *; simplify_eq.
  - by apply nn_inv_remove.
  - unfold SetServerYXX. destruct (servers st !! s) as [sv|]; [|done].
    destruct (if (length yxx =? 5)%nat then _ else _) as [yx cap].
    apply nn_inv_set_server; [done|]. simpl. intros slot u. by rewrite lookup_empty.
  - unfold SetYXXCapacity in Hrun. destruct (servers st !! c) as [sv|]; [|done].
    destruct (loop _ _ _) as [m|]; [|done]. destruct (NN_MAX_CLIENT <? m); [done|].
    injection Hrun as <-. apply nn_inv_set_server; [done|]. simpl. intros slot u.
    by rewrite lookup_empty.
  - unfold SetYXXServerName. destruct (servers st !! c) as [sv|] eqn:Hs; [|done].
    apply nn_inv_set_server; [done|]. simpl. intros slot u Hu.
    exact (Hinv _ _ _ _ Hs Hu).
  - unfold ClearServerYXX. destruct (servers st !! s) as [sv|]; [|done].
    by destruct (decide _).
  - by apply nn_inv_remote.
  - destruct Hpre as [Hun Hme]. destruct (SetLocalNumNick me st u) as [[st1 r]|] eqn:Hl; [|done].
    simpl in Hrun. simplify_eq. by eapply nn_inv_local.
Qed.

Lemma land_pow2_mask x k : 0 <= k -> Z.land x (2 ^ k - 1) = x mod 2 ^ k.
Proof.
  intros Hk. replace (2 ^ k - 1) with (Z.ones k) by (rewrite Z.ones_equiv; lia).
  by apply Z.land_ones.
Qed.

(** while the server has a free slot, registering a local client
    succeeds, takes a slot that was free, and the client is then found by the
    server's numnick followed by its own. *)
Theorem SetLocalNumNick_found st me sv u us k free :
  servers st !! me = Some sv -> users st !! u = Some us -> u_server us = me ->
  0 <= last_nn st < NN_MAX_CLIENT ->
  0 <= k <= 18 -> nn_mask sv = 2 ^ k - 1 ->
  0 <= free <= nn_mask sv -> client_list sv !! free = None ->
  length (sv_yxx sv) = 2%nat -> server_list st !! base64toint (sv_yxx sv) = Some me ->
  exists st' us', SetLocalNumNick me st u = Some (st', 1) /\
    users st' !! u = Some us' /\ u_server us' = me /\
    client_list sv !! Z.land (base64toint (u_yxx us')) (nn_mask sv) = None /\
    findNUser st' (sv_yxx sv ++ u_yxx us') = Some u.
Proof.
  intros Hs Hu Hus Hlast Hk Hmask Hfree Hnone Hyxx Hsl.
  assert (2 ^ k <= 2 ^ 18) as Hk18 by (apply Z.pow_le_mono_r; lia).
  assert (Z.land free (nn_mask sv) = free) as Hland.
  { rewrite Hmask, land_pow2_mask by lia. apply Z.mod_small. lia. }
  destruct (local_step_total (client_list sv) (nn_mask sv) (last_nn st) free)
    as (nn & l & Hl & Hnn & Hcl); auto.
  { unfold NN_MAX_CLIENT. lia. }
  { by rewrite Hland. }
  assert (base64toint (inttobase64 nn 3) = nn) as Hround.
  { apply base64_roundtrip; unfold NN_MAX_CLIENT in *; simpl; lia. }
  unfold SetLocalNumNick. rewrite Hs, Hu, Hl. clear Hl. do 2 eexists. split; [reflexivity|].
  split; [simpl; by simplify_map_eq|]. split; [done|]. cbn [u_yxx].
  split; [by rewrite Hround|].
  unfold findNUser. rewrite length_app, Hyxx, length_inttobase64. cbn [Nat.add Nat.eqb].
  set (st1 := NN _ _ _ _ _).
  assert (FindXNServer st1 (sv_yxx sv ++ inttobase64 nn 3) = Some me) as ->.
  { unfold FindXNServer. rewrite <- Hsl. by destruct (sv_yxx sv) as [|c1 [|c2 [|]]]. }
  change (client_at st1 me (drop 2 (sv_yxx sv ++ inttobase64 nn 3)) = Some u).
  rewrite drop_app_length' by done. unfold client_at.
  assert (servers st1 !! me = Some (with_clients <[Z.land nn (nn_mask sv) := u]> sv)) as ->
    by apply lookup_insert_eq.
  change (<[Z.land nn (nn_mask sv) := u]> (client_list sv) !!
          Z.land (base64toint (inttobase64 nn 3)) (nn_mask sv) = Some u).
  rewrite Hround. apply lookup_insert_eq.
Qed.

(** a capacity of at most [NN_MAX_CLIENT] gives the server an empty
    array whose size is a power of two, at least 16 and large enough. *)
Theorem SetYXXCapacity_size st c sv capacity :
  servers st !! c = Some sv -> 0 <= capacity <= NN_MAX_CLIENT ->
  exists st' sv' k, SetYXXCapacity st c capacity = Some st' /\
    servers st' !! c = Some sv' /\ client_list sv' = ∅ /\
    4 <= k <= 18 /\ nn_mask sv' = 2 ^ k - 1 /\ capacity <= 2 ^ k /\
    base64toint (nn_capacity sv') = nn_mask sv'.
Proof.
  intros Hs Hc. unfold NN_MAX_CLIENT in Hc.
  destruct (loop_total (max_clients_step capacity)
    (fun m => exists k, 4 <= k <= 18 /\ m = 2 ^ k)
    (fun m => Z.to_nat (18 - Z.log2 m))
    (fun m => exists k, 4 <= k <= 18 /\ m = 2 ^ k /\ capacity <= m))
    with (fuel := 30%nat) (s := 16) as (m & Hm & k & Hk & Hmk & Hle).
  - intros m (k & Hk & ->). unfold max_clients_step.
    destruct (Z.ltb_spec (2 ^ k) capacity); [|exists k; lia].
    assert (k < 18) as Hk18.
    { destruct (Z.eq_dec k 18) as [->|]; lia. }
    assert (2 ^ k <= 2 ^ 18) by (apply Z.pow_le_mono_r; lia).
    rewrite Z.shiftl_mul_pow2 by lia. change (2 ^ 1) with 2.
    rewrite w32_small, <- (Z.mul_comm 2), <- Z.pow_succ_r by lia.
    split; [exists (Z.succ k); lia|]. rewrite !Z.log2_pow2; lia.
  - exists 4. lia.
  - simpl. lia.
  - unfold SetYXXCapacity. rewrite Hs, Hm, Hmk.
    assert (2 ^ k <= 2 ^ 18) by (apply Z.pow_le_mono_r; lia).
    unfold NN_MAX_CLIENT. destruct (Z.ltb_spec 262144 (2 ^ k)); [lia|].
    do 3 eexists. split; [done|]. simpl. simplify_map_eq. split; [done|]. cbn.
    split_and!; auto; try lia.
    assert (2 ^ 4 <= 2 ^ k) by (apply Z.pow_le_mono_r; lia).
    apply base64_roundtrip; simpl; lia.
Qed.

(** *** Witnesses *)
Definition ex_server : server := Server (str "irc.example.es") (str "AB") (str "AAP") 15 {[ 0 := 7%nat ]}.
Definition ex_st : nnstate :=
  NN 2 {[ 1 := 1%nat ]} {[ 1%nat := ex_server ]}
     {[ 7%nat := User (str "AAA") 1; 8%nat := User [] 1 ]} 0.

Lemma ex_nn_inv : nn_inv ex_st.
Proof.
  intros s sv slot u. simpl. rewrite lookup_singleton_Some. intros [<- <-]. simpl.
  rewrite lookup_singleton_Some. intros [<- <-]. by exists (User (str "AAA") 1).
Qed.

Lemma ex_unregistered : unregistered ex_st 8.
Proof.
  intros s sv slot. simpl. rewrite lookup_singleton_Some. intros [<- <-]. simpl.
  rewrite lookup_singleton_Some. naive_solver.
Qed.

Lemma nn_inv_step_witness : exists st', run_op ex_st (OpRemote 8 (str "ABAAQ")) = Some st' /\ nn_inv st'.
Proof.
  eexists. split; [reflexivity|].
  apply (nn_inv_step ex_st (OpRemote 8 (str "ABAAQ"))); [apply ex_nn_inv | done | | reflexivity].
  apply ex_unregistered.
Defined.

Lemma SetLocalNumNick_found_witness :
  exists st' us', SetLocalNumNick 1 ex_st 8 = Some (st', 1) /\
    users st' !! 8%nat = Some us' /\ u_server us' = 1%nat /\
    client_list ex_server !! Z.land (base64toint (u_yxx us')) 15 = None /\
    findNUser st' (str "AB" ++ u_yxx us') = Some 8%nat.
Proof.
  apply (SetLocalNumNick_found ex_st 1 ex_server 8 (User [] 1) 4 1); try reflexivity; unfold NN_MAX_CLIENT; simpl; lia.
Defined.

Lemma SetYXXCapacity_size_witness :
  exists st' sv' k, SetYXXCapacity ex_st 1 1000 = Some st' /\
    servers st' !! 1%nat = Some sv' /\ client_list sv' = ∅ /\
    4 <= k <= 18 /\ nn_mask sv' = 2 ^ k - 1 /\ 1000 <= 2 ^ k /\
    base64toint (nn_capacity sv') = nn_mask sv'.
Proof. apply (SetYXXCapacity_size ex_st 1 ex_server 1000); [reflexivity | unfold NN_MAX_CLIENT; lia]. Defined.
