(* ===== verification/Chain.v ===== *)
(** * Intrusive singly linked lists

    The program keeps its tables as chains of structures linked through a
    field of the structure ([cli_hnext], [hnext], [mo_next], [wnext] ...).
    A structure's address is a [ptr]; the link field of all the structures
    of a kind is a finite map from addresses to addresses, where an address
    with no entry has a null link.  [chain nx p l] says that following the
    links from [p] goes through exactly the structures of [l]. *)
From S2P Require Import Prelude.
From Stdlib Require Import Sorting.Sorted.
From stdpp Require Import options.

Abbreviation ptr := positive (only parsing).
Abbreviation links := (gmap ptr ptr) (only parsing).

(** [x->next = v], where [None] is the null pointer. *)
Definition set_link (x : ptr) (v : option ptr) (nx : gmap ptr ptr) : gmap ptr ptr :=
  partial_alter (fun _ => v) x nx.

Fixpoint chain (nx : gmap ptr ptr) (p : option ptr) (l : list ptr) : Prop :=
  match l with
  | [] => p = None
  | x :: l' => p = Some x /\ chain nx (nx !! x) l'
  end.

(** The number of links followed before a null one is at most the number of
    entries of the map, plus one; this is the fuel of the walks. *)
Definition walk_fuel (nx : gmap ptr ptr) : nat := S (S (size nx)).

(** The first structure of a list that satisfies a test, with the others. *)
Fixpoint extract (ok : ptr -> bool) (l : list ptr) : option (ptr * list ptr) :=
  match l with
  | [] => None
  | x :: l' =>
      if ok x then Some (x, l')
      else match extract ok l' with
           | Some (y, r) => Some (y, x :: r)
           | None => None
           end
  end.

(** Takes the first occurrence of a structure out of a list. *)
Fixpoint unlink (p : ptr) (l : list ptr) : list ptr :=
  match l with
  | [] => []
  | q :: l' => if decide (q = p) then l' else q :: unlink p l'
  end.

Lemma elem_of_unlink p q l : NoDup l -> q ∈ unlink p l <-> q ∈ l /\ q <> p.
Proof.
  intros Hnd. induction Hnd as [|x l Hx Hnd IH]; simpl; [set_solver|].
  destruct (decide (x = p)) as [->|Hne]; rewrite ?elem_of_cons, ?IH; [|naive_solver].
  split; [intros Hq; split; [auto|congruence]|intros [[?|?] ?]; done].
Qed.

Lemma NoDup_unlink p l : NoDup l -> NoDup (unlink p l).
Proof.
  intros Hnd. induction Hnd as [|x l Hx Hnd IH]; simpl; [constructor|].
  destruct (decide (x = p)); [done|]. constructor; [|done]. rewrite elem_of_unlink by done. tauto.
Qed.

Lemma unlink_not_in p l : p ∉ l -> unlink p l = l.
Proof.
  induction l as [|q l IH]; simpl; [done|]. rewrite not_elem_of_cons. intros [Hne Hp].
  rewrite decide_False by congruence. by rewrite IH.
Qed.

Lemma unlink_last p l : p ∉ l -> unlink p (l ++ [p]) = l.
Proof.
  induction l as [|q l IH]; simpl; [by rewrite decide_True|]. rewrite not_elem_of_cons. intros [Hne Hp].
  rewrite decide_False by congruence. by rewrite IH.
Qed.

Lemma set_link_eq x v nx : set_link x v nx !! x = v.
Proof. apply lookup_partial_alter_eq. Qed.

Lemma set_link_ne x y v nx : x <> y -> set_link x v nx !! y = nx !! y.
Proof. apply lookup_partial_alter_ne. Qed.

Lemma set_link_twice x v v' nx : set_link x v (set_link x v' nx) = set_link x v nx.
Proof. apply partial_alter_partial_alter_eq. Qed.

Lemma chain_frame x v nx p l : x ∉ l -> chain nx p l -> chain (set_link x v nx) p l.
Proof.
  revert p. induction l as [|y l IH]; intros p Hx; [done|].
  rewrite not_elem_of_cons in Hx. destruct Hx as [Hxy Hx]. intros [-> Hc]. split; [done|].
  rewrite set_link_ne by done. by apply IH.
Qed.

(** Chains are determined by their first link. *)
Lemma chain_inj nx p l l' : chain nx p l -> chain nx p l' -> l = l'.
Proof.
  revert p l'. induction l as [|x l IH]; intros p [|y l']; simpl.
  - done.
  - intros -> [? _]. done.
  - intros [-> _]. done.
  - intros [-> H] [[= <-] H']. f_equal. by eapply IH.
Qed.

Lemma chain_push nx p x l :
  x ∉ l -> chain nx p l -> chain (set_link x p nx) (Some x) (x :: l).
Proof. intros Hx Hc. split; [done|]. rewrite set_link_eq. by apply chain_frame. Qed.

Lemma chain_app nx p l1 x l2 :
  chain nx p (l1 ++ x :: l2) -> chain nx (Some x) (x :: l2).
Proof.
  revert p. induction l1 as [|y l1 IH]; intros p; simpl.
  - intros [-> H]. done.
  - intros [-> H]. by apply (IH _ H).
Qed.

Lemma chain_unlink nx p l1 t x l2 :
  NoDup (l1 ++ t :: x :: l2) ->
  chain nx p (l1 ++ t :: x :: l2) ->
  chain (set_link t (nx !! x) nx) p (l1 ++ t :: l2).
Proof.
  revert p. induction l1 as [|y l1 IH]; intros p; simpl; intros Hnd.
  - apply NoDup_cons in Hnd as [Ht Hnd].
    intros [-> [_ Hc]]. split; [done|]. rewrite set_link_eq. apply chain_frame; [by apply not_elem_of_cons in Ht as [_ ?]|done].
  - apply NoDup_cons in Hnd as [Hy Hnd]. intros [-> Hc]. split; [done|].
    rewrite set_link_ne; [by apply IH|]. intros <-. apply Hy. set_solver.
Qed.

(** The members of a duplicate-free chain, but the last one, have a link. *)
Lemma chain_size nx p l : NoDup l -> chain nx p l -> length l <= S (size nx).
Proof.
  intros Hnd Hc.
  assert (Hsub : forall l p, chain nx p l ->
            forall y, y ∈ removelast l -> y ∈ (dom nx : gset ptr)).
  { clear. induction l as [|x l IH]; intros p; [set_solver|]. intros [-> Hc] y.
    destruct l as [|z l]; [set_solver|]. cbn [removelast]. rewrite elem_of_cons.
    intros [->|Hy]; [|by apply (IH _ Hc)]. destruct Hc as [Hc _]. by apply elem_of_dom_2 in Hc. }
  destruct l as [|x l]; [simpl; lia|].
  pose proof (app_removelast_last x (l := x :: l) ltac:(done)) as Hl.
  assert (Hnd' : NoDup (removelast (x :: l))).
  { rewrite Hl in Hnd. by apply NoDup_app in Hnd as [? _]. }
  assert (Hle : size (list_to_set (removelast (x :: l)) : gset ptr) <= size (dom nx : gset ptr)).
  { apply subseteq_size. intros y. rewrite elem_of_list_to_set. by apply (Hsub _ _ Hc). }
  rewrite size_list_to_set, size_dom in Hle by done.
  apply (f_equal length) in Hl. rewrite length_app in Hl. cbn [length] in *. lia.
Qed.

Lemma extract_app ok l1 x l2 :
  Forall (fun y => ok y = false) l1 -> ok x = true -> extract ok (l1 ++ x :: l2) = Some (x, l1 ++ l2).
Proof.
  intros H Hx. induction H as [|y l1 Hy _ IH]; simpl; [by rewrite Hx|]. by rewrite Hy, IH.
Qed.

Lemma extract_none ok l : Forall (fun y => ok y = false) l -> extract ok l = None.
Proof. intros H. induction H as [|y l Hy _ IH]; simpl; [done|]. by rewrite Hy, IH. Qed.

Lemma extract_some ok l x r :
  extract ok l = Some (x, r) ->
  exists l1 l2, l = l1 ++ x :: l2 /\ r = l1 ++ l2 /\ ok x = true /\ Forall (fun y => ok y = false) l1.
Proof.
  revert r. induction l as [|y l IH]; intros r; simpl; [done|]. destruct (ok y) eqn:Hy.
  - intros [= -> ->]. by exists [], r.
  - destruct (extract ok l) as [[z r']|]; [|done]. intros [= -> <-].
    destruct (IH r' eq_refl) as (l1 & l2 & -> & -> & ? & ?). exists (y :: l1), l2. auto.
Qed.

Lemma extract_is_none ok l : extract ok l = None -> Forall (fun y => ok y = false) l.
Proof.
  induction l as [|y l IH]; simpl; [done|]. destruct (ok y) eqn:Hy; [done|].
  destruct (extract ok l) as [[z r']|]; [done|]. auto.
Qed.

Lemma NoDup_drop_middle (l1 : list ptr) x l2 :
  NoDup (l1 ++ x :: l2) -> (x ∉ l1 ++ l2) /\ NoDup (l1 ++ l2).
Proof. rewrite <- Permutation_middle. apply NoDup_cons. Qed.

#[export] Hint Rewrite set_link_eq : ircd_rw.

(** ** Lists sorted by a key *)

Lemma sorted_snoc (R : ptr -> ptr -> Prop) l x : StronglySorted R l -> Forall (fun y => R y x) l -> StronglySorted R (l ++ [x]).
Proof.
  induction 1 as [|y l Hs IH Hy]; intros Hx; cbn [app]; [by repeat constructor|]. apply Forall_cons in Hx as [H1 H2].
  constructor; [by apply IH|]. apply Forall_app. split; [done|]. by repeat constructor.
Qed.

Lemma sorted_ext (f g : ptr -> Z) (l : list ptr) : (forall e, e ∈ l -> f e = g e) ->
  StronglySorted (fun a b => (f a <= f b)%Z) l -> StronglySorted (fun a b => (g a <= g b)%Z) l.
Proof.
  intros He Hs. induction Hs as [|y l Hs IH Hy]; [constructor|]. constructor.
  - apply IH. intros e Hin. apply He. by right.
  - rewrite Forall_forall in Hy |- *. intros z Hz. rewrite <- !He; [by apply Hy|by right|left].
Qed.

Lemma sorted_middle (R : ptr -> ptr -> Prop) l1 x l2 : StronglySorted R (l1 ++ x :: l2) -> StronglySorted R (l1 ++ l2).
Proof.
  induction l1 as [|y l1 IH]; cbn [app]; intros Hs; inversion Hs as [|? ? Hs' Hy]; subst; [done|]. constructor; [by apply IH|].
  apply Forall_app in Hy as [H1 H2]. apply Forall_cons in H2 as [_ H2]. by apply Forall_app.
Qed.

Lemma sorted_filter (R : ptr -> ptr -> Prop) (P : ptr -> Prop) `{!forall x, Decision (P x)} (l : list ptr) :
  StronglySorted R l -> StronglySorted R (filter P l).
Proof.
  induction 1 as [|y l Hs IH Hy]; [constructor|]. rewrite filter_cons. destruct (decide (P y)); [|done].
  constructor; [done|]. rewrite Forall_forall in Hy |- *. intros z Hz. apply list_elem_of_filter in Hz as [_ Hz]. by apply Hy.
Qed.

Lemma sorted_insert (f : ptr -> Z) l1 x l2 :
  StronglySorted (fun a b => (f a <= f b)%Z) (l1 ++ l2) ->
  Forall (fun y => (f y <= f x)%Z) l1 -> Forall (fun y => (f x <= f y)%Z) l2 ->
  StronglySorted (fun a b => (f a <= f b)%Z) (l1 ++ x :: l2).
Proof.
  induction l1 as [|y l1 IH]; cbn [app]; intros Hs H1 H2; [by constructor|].
  inversion Hs as [|? ? Hs' Hy]; subst. apply Forall_cons in H1 as [Hy1 H1]. constructor; [by apply IH|].
  apply Forall_app in Hy as [? ?]. apply Forall_app. split; [done|]. by constructor.
Qed.

Lemma sorted_app_r (R : ptr -> ptr -> Prop) l1 l2 : StronglySorted R (l1 ++ l2) -> StronglySorted R l2.
Proof. induction l1 as [|y l1 IH]; [done|]. intros Hs. apply IH. by inversion Hs. Qed.
