(* ===== verification/Dlist.v ===== *)
(** * Intrusive doubly linked lists

    [dlist nx pv b p l]: following the links [nx] from [p] goes through the
    structures of [l], and the links [pv] go back, from the first one to
    [b].  [dl_push] and [dl_remove] are the code that the program repeats for
    each of its doubly linked lists. *)
From S2P Require Import Prelude Chain.
From stdpp Require Import options.

Section dlist.
Implicit Types (nx pv : gmap ptr ptr) (l : list ptr).

Fixpoint dlist nx pv (b p : option ptr) l : Prop :=
  match l with
  | [] => p = None
  | x :: l' => p = Some x /\ pv !! x = b /\ dlist nx pv (Some x) (nx !! x) l'
  end.

(** [x->next = head; if (x->next) x->next->prev = x; x->prev = 0; head = x]:
    the links afterwards. *)
Definition dl_push (x : ptr) (head : option ptr) nx pv : gmap ptr ptr * gmap ptr ptr :=
  let nx := set_link x head nx in
  let pv := match nx !! x with Some h => set_link h (Some x) pv | None => pv end in
  (nx, set_link x None pv).

(** [if (x->next) x->next->prev = x->prev; if (x->prev) x->prev->next =
    x->next; else head = x->next]. *)
Definition dl_remove (x : ptr) (head : option ptr) nx pv : gmap ptr ptr * gmap ptr ptr * option ptr :=
  let pv := match nx !! x with Some n => set_link n (pv !! x) pv | None => pv end in
  match pv !! x with
  | Some q => (set_link q (nx !! x) nx, pv, head)
  | None => (nx, pv, nx !! x)
  end.

(** A walk with a test, as far as the first structure that passes. *)
Fixpoint find_from (n : nat) nx (ok : ptr -> bool) (p : option ptr) : option (option ptr) :=
  match n with
  | O => None
  | S n => match p with
           | None => Some None
           | Some x => if ok x then Some (Some x) else find_from n nx ok (nx !! x)
           end
  end.

(** All the structures of a list. *)
Fixpoint walk (n : nat) nx (p : option ptr) : option (list ptr) :=
  match n with
  | O => None
  | S n => match p with
           | None => Some []
           | Some x => cons x <$> walk n nx (nx !! x)
           end
  end.

(** ** Facts *)

Lemma dlist_chain nx pv l : forall b p, dlist nx pv b p l -> chain nx p l.
Proof. induction l as [|x l IH]; intros b p; [done|]. intros (-> & _ & H). split; [done|]. by apply (IH (Some x)). Qed.

Lemma dlist_frame nx pv nx' pv' l : forall b p,
  (forall y, y ∈ l -> nx' !! y = nx !! y /\ pv' !! y = pv !! y) -> dlist nx pv b p l -> dlist nx' pv' b p l.
Proof.
  induction l as [|x l IH]; intros b p Hf; [done|]. intros (-> & Hb & H).
  destruct (Hf x ltac:(left)) as [Hn Hp]. split; [done|]. split; [by rewrite Hp|]. rewrite Hn. apply IH; [|done].
  intros y Hy. apply Hf. by right.
Qed.

Lemma dlist_push nx pv x head l :
  x ∉ l -> NoDup l -> dlist nx pv None head l ->
  dlist (dl_push x head nx pv).1 (dl_push x head nx pv).2 None (Some x) (x :: l).
Proof.
  intros Hx Hnd Hd. unfold dl_push. cbn [fst snd]. rewrite set_link_eq. split; [done|].
  split; [by rewrite set_link_eq|]. rewrite set_link_eq. destruct l as [|y l]; [done|]. destruct Hd as (-> & _ & Hd).
  apply not_elem_of_cons in Hx as [Hxy Hx]. apply NoDup_cons in Hnd as [Hy Hnd].
  split; [done|]. split; [by rewrite set_link_ne, set_link_eq|]. rewrite set_link_ne by done.
  eapply dlist_frame; [|exact Hd]. intros z Hz.
  rewrite !set_link_ne; [done|..]; intros ->; done.
Qed.

Lemma dl_push_frame nx pv x head l y :
  dlist nx pv None head l -> y <> x -> y ∉ l ->
  (dl_push x head nx pv).1 !! y = nx !! y /\ (dl_push x head nx pv).2 !! y = pv !! y.
Proof.
  intros Hd Hy Hl. unfold dl_push. cbn [fst snd]. rewrite set_link_eq. rewrite !set_link_ne by done. split; [done|].
  destruct l as [|z l]; [by rewrite (Hd : head = None)|]. destruct Hd as (-> & _). apply not_elem_of_cons in Hl as [Hz _].
  by rewrite set_link_ne.
Qed.

Lemma dlist_app nx pv l1 x l2 : forall b p,
  dlist nx pv b p (l1 ++ x :: l2) ->
  pv !! x = match last l1 with Some q => Some q | None => b end /\ dlist nx pv (Some x) (nx !! x) l2 /\
  (l1 = [] -> p = Some x) /\ (forall q, last l1 = Some q -> nx !! q = Some x).
Proof.
  induction l1 as [|y l1 IH]; intros b p; cbn [app dlist].
  - intros (-> & Hb & H). split_and!; try done.
  - intros (-> & Hb & H). destruct (IH _ _ H) as (H1 & H2 & H3 & H4). split_and!; try done.
    + rewrite H1. rewrite last_cons. by destruct (last l1).
    + intros q. rewrite last_cons. destruct (last l1) as [q'|] eqn:E; [intros [= <-]; by apply H4|].
      intros [= <-]. apply last_None in E as ->. by destruct (H3 eq_refl).
Qed.

Lemma dlist_remove_mid nx pv l1 x l2 : forall b p,
  NoDup (l1 ++ x :: l2) -> dlist nx pv b p (l1 ++ x :: l2) ->
  forall nx' pv',
  (forall q, last l1 = Some q -> nx' !! q = nx !! x) ->
  (forall n, head l2 = Some n -> pv' !! n = pv !! x) ->
  (forall y, y ∈ l1 ++ l2 -> last l1 <> Some y -> nx' !! y = nx !! y) ->
  (forall y, y ∈ l1 ++ l2 -> head l2 <> Some y -> pv' !! y = pv !! y) ->
  dlist nx' pv' b (if l1 is [] then nx !! x else p) (l1 ++ l2).
Proof.
  induction l1 as [|y l1 IH]; intros b p Hnd Hd nx' pv' H1 H2 H3 H4; cbn [app] in *.
  - destruct Hd as (-> & Hb & Hd). destruct l2 as [|n l2]; [done|]. destruct Hd as (Hn & _ & Hd).
    apply NoDup_cons in Hnd as [Hx Hnd]. apply NoDup_cons in Hnd as [Hn' Hnd].
    split; [done|]. split; [by rewrite (H2 n), Hb|].
    rewrite (H3 n) by (done || left). eapply dlist_frame; [|exact Hd]. intros z Hz.
    split; [apply H3; [by right|done]|apply H4; [by right|]]. intros [= ->]. done.
  - destruct Hd as (-> & Hb & Hd). apply NoDup_cons in Hnd as [Hy Hnd]. split; [done|].
    split; [rewrite (H4 y); [done|left|]|].
    { intros Hh. apply Hy. destruct l2 as [|n l2]; [done|]. injection Hh as ->. apply elem_of_app. right. right. left. }
    assert (Hnext : nx' !! y = if l1 is [] then nx !! x else nx !! y).
    { destruct l1 as [|z l1].
      - by apply H1.
      - apply H3; [left|]. intros Hl. apply Hy, elem_of_app. left.
        assert (last (z :: l1) = Some y) as Hl' by done. apply last_Some in Hl' as [l' ->]. apply elem_of_app. right. by left. }
    rewrite Hnext. specialize (IH (Some y) (nx !! y) Hnd Hd nx' pv').
    replace (if l1 is [] then nx !! x else nx !! y) with (match l1 with [] => nx !! x | _ => nx !! y end) by done.
    apply IH.
    + intros q Hq. apply H1. rewrite last_cons, Hq. done.
    + exact H2.
    + intros z Hz Hl. apply H3; [by right|]. rewrite last_cons. destruct (last l1) as [q|] eqn:E; [done|].
      intros [= ->]. apply Hy. apply elem_of_app in Hz as [Hz|Hz]; apply elem_of_app; [by left|right; by right].
    + intros z Hz Hh. apply H4; [by right|done].
Qed.

(** Removing a structure from its list. *)
Lemma dlist_remove nx pv head l1 x l2 :
  NoDup (l1 ++ x :: l2) -> dlist nx pv None head (l1 ++ x :: l2) ->
  let '(nx', pv', head') := dl_remove x head nx pv in
  dlist nx' pv' None head' (l1 ++ l2) /\
  forall y, y ∉ l1 ++ l2 -> nx' !! y = nx !! y /\ pv' !! y = pv !! y.
Proof.
  intros Hnd Hd. destruct (dlist_app _ _ _ _ _ _ _ Hd) as (Hpv & Hd2 & Hhead & Hlast).
  assert (Hnx : nx !! x = list.head l2) by (destruct l2 as [|n l2]; [done|by destruct Hd2]).
  assert (Hxl : x ∉ l1 /\ x ∉ l2).
  { apply NoDup_drop_middle in Hnd as [H _]. by apply not_elem_of_app in H. }
  assert (Hnx2 : forall n, list.head l2 = Some n -> n ∈ l2) by (intros n Hn; destruct l2; [done|]; injection Hn as ->; left).
  assert (Hla : forall q, last l1 = Some q -> q ∈ l1) by (intros q Hq; apply last_Some in Hq as [l' ->]; apply elem_of_app; right; by left).
  unfold dl_remove. set (pv' := match nx !! x with Some n => set_link n (pv !! x) pv | None => pv end).
  assert (Hpv'n : forall n, list.head l2 = Some n -> pv' !! n = pv !! x).
  { intros n Hn. unfold pv'. rewrite Hnx, Hn. apply set_link_eq. }
  assert (Hpv'y : forall y, list.head l2 <> Some y -> pv' !! y = pv !! y).
  { intros y Hy. unfold pv'. rewrite Hnx. destruct (list.head l2) as [n|]; [|done]. apply set_link_ne. congruence. }
  rewrite (Hpv'y x) by (intros E; apply Hnx2 in E; tauto). rewrite Hpv.
  destruct (last l1) as [q|] eqn:El.
  - split.
    + pose proof (dlist_remove_mid nx pv l1 x l2 None head Hnd Hd (set_link q (nx !! x) nx) pv') as H.
      destruct l1 as [|z l1]; [done|]. apply H.
      * intros q' Hq'. rewrite El in Hq'. injection Hq' as <-. apply set_link_eq.
      * exact Hpv'n.
      * intros y _ Hy. rewrite El in Hy. apply set_link_ne. congruence.
      * intros y _ Hy. by apply Hpv'y.
    + intros y Hy. apply not_elem_of_app in Hy as [Hy1 Hy2]. split; [apply set_link_ne; intros ->; by apply Hy1, Hla|].
      apply Hpv'y. intros E. by apply Hy2, Hnx2.
  - apply last_None in El as ->. cbn [app] in *. split.
    + apply (dlist_remove_mid nx pv [] x l2 None head Hnd Hd nx pv').
      * done.
      * exact Hpv'n.
      * done.
      * intros y _ Hy. by apply Hpv'y.
    + intros y Hy. split; [done|]. apply Hpv'y. intros E. by apply Hy, Hnx2.
Qed.

Lemma find_from_chain nx ok l : forall p n, chain nx p l -> (length l < n)%nat ->
  find_from n nx ok p = Some (list_find (fun x => ok x = true) l ≫= fun r => Some r.2).
Proof.
  induction l as [|x l IH]; intros p n Hc Hn; (destruct n as [|n]; [simpl in Hn; lia|]).
  - by rewrite (Hc : p = None).
  - destruct Hc as [-> Hc]. cbn [find_from list_find]. destruct (ok x) eqn:E.
    + by rewrite decide_True.
    + rewrite decide_False by done. simpl in Hn. rewrite (IH _ n Hc) by lia. by destruct (list_find _ l) as [[? ?]|].
Qed.

Lemma walk_chain nx l : forall p n, chain nx p l -> (length l < n)%nat -> walk n nx p = Some l.
Proof.
  induction l as [|x l IH]; intros p n Hc Hn; (destruct n as [|n]; [simpl in Hn; lia|]).
  - by rewrite (Hc : p = None).
  - destruct Hc as [-> Hc]. cbn [walk]. simpl in Hn. rewrite (IH _ n Hc) by lia. done.
Qed.

Lemma walk_fuel_enough nx p l : NoDup l -> chain nx p l -> (length l < walk_fuel nx)%nat.
Proof. intros Hnd Hc. pose proof (chain_size nx p l Hnd Hc). unfold walk_fuel. lia. Qed.

(** Appending to the list that ends in [t]. *)
Lemma dlist_snoc nx pv l x : forall b p, x ∉ l -> NoDup l -> dlist nx pv b p l ->
  dlist (match last l with Some t => set_link t (Some x) (set_link x None nx) | None => set_link x None nx end)
        (set_link x (match last l with Some t => Some t | None => b end) pv) b
        (match l with [] => Some x | _ => p end) (l ++ [x]).
Proof.
  induction l as [|y l IH]; intros b p Hx Hnd; cbn [app].
  - intros _. split; [done|]. split; [apply set_link_eq|]. apply set_link_eq.
  - intros (-> & Hb & H). apply not_elem_of_cons in Hx as [Hxy Hx]. apply NoDup_cons in Hnd as [Hy Hnd].
    specialize (IH _ _ Hx Hnd H). rewrite last_cons. split; [done|].
    split; [rewrite set_link_ne; [done|congruence]|].
    destruct (last l) as [t|] eqn:E.
    + assert (t ∈ l) by (apply last_Some in E as [l' ->]; apply elem_of_app; right; by left).
      rewrite set_link_ne by (intros ->; done). rewrite set_link_ne by done.
      destruct l; [done|]. exact IH.
    + apply last_None in E as ->. rewrite set_link_eq. destruct IH as (_ & H1 & H2). split; [done|]. split; [apply set_link_eq|].
      rewrite set_link_ne; [apply set_link_eq|congruence].
Qed.
End dlist.
