(* ===== verification/Plist.v ===== *)
(** * Linked lists whose structures point back at the pointer to them

    A structure of these lists keeps, beside the link to the next one, the
    address of the pointer that leads to it ([gh_prev_p], [ju_prev_p],
    [gl_prev_p]): a list head or the [next] field of the structure before.
    Such an address is a [pslot].  Several lists, one per value of [H], share
    the structures' fields. *)
From S2P Require Import Prelude Chain.
From stdpp Require Import options.

Inductive pslot (H : Type) := SHead (h : H) | SNext (x : ptr).
Arguments SHead {H}.
Arguments SNext {H}.

#[export] Instance pslot_eq_dec `{EqDecision H} : EqDecision (pslot H).
Proof. solve_decision. Defined.

Record plists (H : Type) := {
  p_head : H -> option ptr;
  p_next : gmap ptr ptr;
  p_prev : gmap ptr (pslot H)
}.
Arguments Build_plists {H}.
Arguments p_head {H}.
Arguments p_next {H}.
Arguments p_prev {H}.

Section plist.
Context {H : Type} `{EqDecision H}.
Implicit Types (pl : plists H) (s : pslot H) (l : list ptr).

Definition no_lists : plists H := {| p_head := fun _ => None; p_next := ∅; p_prev := ∅ |}.

(** [*s] and [*s = v]. *)
Definition slot_get pl s : option ptr :=
  match s with SHead h => p_head pl h | SNext x => p_next pl !! x end.

Definition slot_set s (v : option ptr) pl : plists H :=
  match s with
  | SHead h => {| p_head := fun h' => if decide (h' = h) then v else p_head pl h';
                  p_next := p_next pl; p_prev := p_prev pl |}
  | SNext x => {| p_head := p_head pl; p_next := set_link x v (p_next pl); p_prev := p_prev pl |}
  end.

Definition set_prev (x : ptr) (v : option (pslot H)) pl : plists H :=
  {| p_head := p_head pl; p_next := p_next pl; p_prev := partial_alter (fun _ => v) x (p_prev pl) |}.

(** [x->next = *s; x->prev_p = s; if ( *s ) ( *s )->prev_p = &x->next; *s = x]. *)
Definition p_insert (x : ptr) s pl : plists H :=
  let pl := slot_set (SNext x) (slot_get pl s) pl in
  let pl := set_prev x (Some s) pl in
  let pl := match slot_get pl s with Some y => set_prev y (Some (SNext x)) pl | None => pl end in
  slot_set s (Some x) pl.

(** [if (x->next) x->next->prev_p = x->prev_p; if (x->prev_p) *x->prev_p =
    x->next]. *)
Definition p_unlink (x : ptr) pl : plists H :=
  let nxt := p_next pl !! x in
  let pl := match nxt with Some y => set_prev y (p_prev pl !! x) pl | None => pl end in
  match p_prev pl !! x with Some s => slot_set s nxt pl | None => pl end.

(** [x->next = 0; x->prev_p = 0]. *)
Definition p_clear (x : ptr) pl : plists H := set_prev x None (slot_set (SNext x) None pl).

(** The first slot, from [s], whose content is null or passes a test. *)
Fixpoint find_slot (n : nat) (test : ptr -> bool) pl s : option (pslot H) :=
  match n with
  | O => None
  | S n => match slot_get pl s with
           | None => Some s
           | Some x => if test x then Some s else find_slot n test pl (SNext x)
           end
  end.

(** ** The lists *)

Fixpoint plist pl s l : Prop :=
  match l with
  | [] => slot_get pl s = None
  | x :: l' => slot_get pl s = Some x /\ p_prev pl !! x = Some s /\ plist pl (SNext x) l'
  end.

Fixpoint pseg pl s l : Prop :=
  match l with
  | [] => True
  | x :: l' => slot_get pl s = Some x /\ p_prev pl !! x = Some s /\ pseg pl (SNext x) l'
  end.

Definition end_slot s l : pslot H := match last l with Some x => SNext x | None => s end.

Lemma end_slot_cons s x l : end_slot s (x :: l) = end_slot (SNext x) l.
Proof. unfold end_slot. rewrite last_cons. by destruct (last l). Qed.

Lemma plist_app pl l1 l2 : forall s, plist pl s (l1 ++ l2) <-> pseg pl s l1 /\ plist pl (end_slot s l1) l2.
Proof.
  induction l1 as [|x l1 IH]; intros s; cbn [app plist pseg]; [cbn; tauto|]. rewrite IH, end_slot_cons. tauto.
Qed.

Lemma pseg_frame pl pl' l : forall s,
  (l <> [] -> slot_get pl' s = slot_get pl s) ->
  (forall x, x ∈ l -> last l <> Some x -> p_next pl' !! x = p_next pl !! x) ->
  (forall x, x ∈ l -> p_prev pl' !! x = p_prev pl !! x) ->
  NoDup l -> pseg pl s l -> pseg pl' s l.
Proof.
  induction l as [|x l IH]; intros s Hs Hn Hp Hnd; [done|]. intros (H1 & H2 & H3). apply NoDup_cons in Hnd as [Hx Hnd].
  split; [by rewrite Hs|]. split; [rewrite Hp; [done|left]|]. apply IH; [| | |done|done].
  - intros Hl. cbn. apply Hn; [left|]. rewrite last_cons. destruct (last l) as [y|] eqn:E; [|by apply last_None in E].
    intros [= ->]. apply Hx. apply last_Some in E as [l' ->]. apply elem_of_app. right. left.
  - intros y Hy Hl. apply Hn; [by right|]. rewrite last_cons. destruct (last l) as [z|] eqn:E; [done|].
    apply last_None in E as ->. by apply elem_of_nil in Hy.
  - intros y Hy. apply Hp. by right.
Qed.

Lemma plist_frame pl pl' l : forall s,
  slot_get pl' s = slot_get pl s ->
  (forall x, x ∈ l -> p_next pl' !! x = p_next pl !! x /\ p_prev pl' !! x = p_prev pl !! x) ->
  plist pl s l -> plist pl' s l.
Proof.
  induction l as [|x l IH]; intros s Hs Hf; cbn [plist]; [by rewrite Hs|]. intros (H1 & H2 & H3).
  destruct (Hf x ltac:(left)) as [Hn Hp]. split; [by rewrite Hs|]. split; [by rewrite Hp|]. apply IH; [done| |done].
  intros y Hy. apply Hf. by right.
Qed.

(** ** What an insertion and a removal write *)

Lemma slot_set_get s v pl : slot_get (slot_set s v pl) s = v.
Proof. destruct s as [h|x]; cbn; [by rewrite decide_True|]. by rewrite set_link_eq. Qed.

Lemma slot_set_ne s s' v pl : s' <> s -> slot_get (slot_set s v pl) s' = slot_get pl s'.
Proof.
  intros Hne. destruct s as [h|x], s' as [h'|x']; cbn; [|done|done|].
  - rewrite decide_False; [done|]. intros ->. done.
  - apply set_link_ne. intros ->. done.
Qed.

Lemma slot_set_prev s v pl : p_prev (slot_set s v pl) = p_prev pl.
Proof. by destruct s. Qed.

Lemma set_prev_get x v pl s : slot_get (set_prev x v pl) s = slot_get pl s.
Proof. by destruct s. Qed.

Lemma set_prev_eq x v pl : p_prev (set_prev x v pl) !! x = v.
Proof. apply lookup_partial_alter_eq. Qed.

Lemma set_prev_ne x v pl y : y <> x -> p_prev (set_prev x v pl) !! y = p_prev pl !! y.
Proof. intros Hne. by apply lookup_partial_alter_ne. Qed.

Record inserted (x : ptr) s pl pl' : Prop := {
  in_slot : slot_get pl' s = Some x;
  in_next : slot_get pl' (SNext x) = slot_get pl s;
  in_slots : forall s', s' <> s -> s' <> SNext x -> slot_get pl' s' = slot_get pl s';
  in_prev : p_prev pl' !! x = Some s;
  in_prev_y : forall y, slot_get pl s = Some y -> p_prev pl' !! y = Some (SNext x);
  in_prevs : forall z, z <> x -> slot_get pl s <> Some z -> p_prev pl' !! z = p_prev pl !! z
}.

Lemma p_insert_effect x s pl : s <> SNext x -> slot_get pl s <> Some x -> inserted x s pl (p_insert x s pl).
Proof.
  intros Hs Hx. unfold p_insert. rewrite set_prev_get, slot_set_ne by done.
  set (pl1 := set_prev x (Some s) (slot_set (SNext x) (slot_get pl s) pl)).
  set (pl2 := match slot_get pl s with Some y => set_prev y (Some (SNext x)) pl1 | None => pl1 end).
  assert (Hget : forall s', slot_get pl2 s' = slot_get pl1 s').
  { intros s'. unfold pl2. destruct (slot_get pl s); [apply set_prev_get|done]. }
  split.
  - apply slot_set_get.
  - rewrite slot_set_ne by done. rewrite Hget. unfold pl1. rewrite set_prev_get. apply slot_set_get.
  - intros s' H1 H2. rewrite slot_set_ne by done. rewrite Hget. unfold pl1. rewrite set_prev_get. by apply slot_set_ne.
  - rewrite slot_set_prev. unfold pl2. destruct (slot_get pl s) as [y|] eqn:E; [rewrite set_prev_ne by congruence|]; apply set_prev_eq.
  - intros y Hy. rewrite slot_set_prev. unfold pl2. rewrite Hy. apply set_prev_eq.
  - intros z Hz Hn. rewrite slot_set_prev. unfold pl2.
    destruct (slot_get pl s) as [y|] eqn:E; [rewrite set_prev_ne by congruence|]; unfold pl1; rewrite set_prev_ne by done;
      by rewrite slot_set_prev.
Qed.

Record removed (x : ptr) s pl pl' : Prop := {
  rm_slot : slot_get pl' s = p_next pl !! x;
  rm_slots : forall s', s' <> s -> s' <> SNext x -> slot_get pl' s' = slot_get pl s';
  rm_next : slot_get pl' (SNext x) = None;
  rm_prev : p_prev pl' !! x = None;
  rm_prev_y : forall y, p_next pl !! x = Some y -> p_prev pl' !! y = Some s;
  rm_prevs : forall z, z <> x -> p_next pl !! x <> Some z -> p_prev pl' !! z = p_prev pl !! z
}.

Lemma p_unlink_effect x s pl : s <> SNext x -> p_prev pl !! x = Some s -> p_next pl !! x <> Some x ->
  removed x s pl (p_clear x (p_unlink x pl)).
Proof.
  intros Hs Hp Hx. unfold p_unlink, p_clear.
  set (nxt := p_next pl !! x) in *.
  set (pl1 := match nxt with Some y => set_prev y (p_prev pl !! x) pl | None => pl end).
  assert (Hget : forall s', slot_get pl1 s' = slot_get pl s').
  { intros s'. unfold pl1. destruct nxt; [apply set_prev_get|done]. }
  assert (Hpx : p_prev pl1 !! x = Some s).
  { unfold pl1. destruct nxt as [y|]; [rewrite set_prev_ne by congruence|]; done. }
  rewrite Hpx. split.
  - rewrite set_prev_get, slot_set_ne by done. apply slot_set_get.
  - intros s' H1 H2. rewrite set_prev_get, !slot_set_ne by done. apply Hget.
  - rewrite set_prev_get. apply slot_set_get.
  - apply set_prev_eq.
  - intros y Hy. change (nxt = Some y) in Hy. rewrite set_prev_ne by congruence. rewrite !slot_set_prev. unfold pl1.
    rewrite Hy, Hp. apply set_prev_eq.
  - intros z Hz Hn. change (nxt <> Some z) in Hn. rewrite set_prev_ne by done. rewrite !slot_set_prev. unfold pl1.
    destruct nxt as [y|]; [rewrite set_prev_ne by congruence|]; done.
Qed.

(** ** Several disjoint lists *)

Definition off (L : H -> list ptr) (x : ptr) : Prop := forall h, x ∉ L h.

Record reps pl (L : H -> list ptr) : Prop := {
  rp_list : forall h, plist pl (SHead h) (L h);
  rp_nodup : forall h, NoDup (L h);
  rp_disj : forall h h' x, x ∈ L h -> x ∈ L h' -> h = h';
  rp_off : forall x, off L x -> p_prev pl !! x = None /\ p_next pl !! x = None
}.

Definition set_list (h : H) l (L : H -> list ptr) : H -> list ptr := fun h' => if decide (h' = h) then l else L h'.

Lemma set_list_eq h l L : set_list h l L h = l.
Proof. unfold set_list. by rewrite decide_True. Qed.

Lemma set_list_ne h l L h' : h' <> h -> set_list h l L h' = L h'.
Proof. intros Hne. unfold set_list. by rewrite decide_False. Qed.

Lemma no_lists_reps : reps no_lists (fun _ => []).
Proof. split; [done|constructor|intros h h' x Hx; by apply elem_of_nil in Hx|]. intros x _. split; apply lookup_empty. Qed.

Lemma plist_head pl s l : plist pl s l -> slot_get pl s = head l.
Proof. destruct l; [done|]. by intros [? _]. Qed.

Lemma plist_prev pl s l1 x l2 : plist pl s (l1 ++ x :: l2) -> p_prev pl !! x = Some (end_slot s l1).
Proof. intros Hp. apply plist_app in Hp as (_ & _ & Hx & _). done. Qed.

Lemma plist_next pl s l1 x l2 : plist pl s (l1 ++ x :: l2) -> p_next pl !! x = head l2.
Proof. intros Hp. apply plist_app in Hp as (_ & _ & _ & Hx). by apply plist_head in Hx. Qed.

Lemma end_slot_next s l x : end_slot s l = SNext x -> s = SNext x /\ l = [] \/ x ∈ l.
Proof.
  unfold end_slot. destruct (last l) as [y|] eqn:E.
  - intros [= ->]. right. apply last_Some in E as [l' ->]. apply elem_of_app. right. left.
  - intros ->. left. split; [done|]. by apply last_None in E.
Qed.

Lemma end_slot_head h l h' : end_slot (SHead h) l = SHead h' -> h' = h /\ l = [].
Proof. unfold end_slot. destruct (last l) eqn:E; [done|]. intros [= ->]. by apply last_None in E. Qed.

(** The slots that a list goes through. *)
Lemma end_slot_in_list h l1 l2 : end_slot (SHead h) l1 = SHead h \/ exists x, x ∈ l1 ++ l2 /\ end_slot (SHead h) l1 = SNext x.
Proof.
  destruct (end_slot (SHead h) l1) as [h'|x] eqn:E; [apply end_slot_head in E as [-> _]; by left|].
  right. exists x. split; [|done]. apply end_slot_next in E as [[? _]|E]; [done|]. apply elem_of_app. by left.
Qed.

Lemma p_insert_reps pl L h l1 l2 x :
  reps pl L -> L h = l1 ++ l2 -> off L x ->
  reps (p_insert x (end_slot (SHead h) l1) pl) (set_list h (l1 ++ x :: l2) L).
Proof.
  intros [HL Hnd Hdj Hoff] Hh Hx. set (s := end_slot (SHead h) l1).
  pose proof (HL h) as Hl. rewrite Hh in Hl. pose proof (Hnd h) as Hndl. rewrite Hh in Hndl.
  assert (Hxl : x ∉ l1 ++ l2) by (rewrite <- Hh; apply Hx).
  apply plist_app in Hl as [Hseg Hl2]. fold s in Hl2. pose proof (plist_head _ _ _ Hl2) as Hget.
  assert (Hsx : s <> SNext x).
  { intros E. apply end_slot_next in E as [[? _]|E]; [done|]. apply Hxl, elem_of_app. by left. }
  assert (Hy2 : forall y, slot_get pl s = Some y -> y ∈ l2).
  { intros y. rewrite Hget. destruct l2; [done|]. intros [= ->]. left. }
  destruct (p_insert_effect x s pl Hsx) as [E1 E2 E3 E4 E5 E6].
  { intros E. apply Hxl, elem_of_app. right. by apply Hy2. }
  set (pl' := p_insert x s pl) in *.
  assert (Hother : forall h', h' <> h -> forall y, y ∈ L h' -> y ∉ l1 ++ l2 /\ y <> x).
  { intros h' Hne y Hy. split; [|intros ->; by apply (Hx h')]. intros Hin. apply Hne, (Hdj _ _ y Hy). by rewrite Hh. }
  assert (Hsl : forall y, s = SNext y -> y ∈ l1).
  { intros y E. apply end_slot_next in E as [[? _]|E]; done. }
  split.
  - intros h'. destruct (decide (h' = h)) as [->|Hne].
    + rewrite set_list_eq. apply plist_app. apply NoDup_app in Hndl as (N1 & N12 & N2). split.
      * eapply pseg_frame; [| | |exact N1|exact Hseg].
        -- intros Hl1. apply E3; [|done]. intros E. unfold s in E. symmetry in E. apply end_slot_head in E as [_ ->]. done.
        -- intros y Hy Hla. apply (E3 (SNext y)); [|intros [= ->]; apply Hxl, elem_of_app; by left].
           unfold s, end_slot. destruct (last l1) as [z|]; [|done]. congruence.
        -- intros y Hy. apply E6; [intros ->; apply Hxl, elem_of_app; by left|]. intros E. by apply (N12 y), Hy2.
      * fold s. split; [done|]. split; [done|]. destruct l2 as [|y l2]; cbn [plist]; [by rewrite E2|].
        destruct Hl2 as (G1 & G2 & G3). split; [by rewrite E2|]. split; [by apply E5|].
        apply NoDup_cons in N2 as [N2 N3].
        assert (Hfr : forall z, z ∈ y :: l2 -> p_next pl' !! z = p_next pl !! z).
        { intros z Hz. apply (E3 (SNext z)).
          - intros E. symmetry in E. apply Hsl in E. by apply (N12 z).
          - intros [= ->]. apply Hxl, elem_of_app. by right. }
        eapply plist_frame; [apply Hfr; left| |exact G3]. intros z Hz. split; [apply Hfr; by right|].
        apply E6; [intros ->; apply Hxl, elem_of_app; right; by right|]. rewrite G1. intros [= ->]. done.
    + rewrite set_list_ne by done. eapply plist_frame; [| |apply HL].
      * apply E3; [|done]. intros E. symmetry in E. by apply end_slot_head in E as [-> _].
      * intros y Hy. destruct (Hother _ Hne _ Hy) as [Hy1 Hyx]. apply not_elem_of_app in Hy1 as [Hy1 Hy3]. split.
        -- apply (E3 (SNext y)); [|congruence]. intros E. symmetry in E. by apply Hy1, Hsl.
        -- apply E6; [done|]. intros E. by apply Hy3, Hy2.
  - intros h'. destruct (decide (h' = h)) as [->|Hne]; [|by rewrite set_list_ne].
    rewrite set_list_eq. rewrite <- Permutation_middle. by constructor.
  - assert (Hin : forall h' y, y ∈ set_list h (l1 ++ x :: l2) L h' -> y = x /\ h' = h \/ y <> x /\ y ∈ L h').
    { intros h' y. destruct (decide (h' = h)) as [->|Hne].
      - rewrite set_list_eq, Hh. rewrite <- Permutation_middle. rewrite elem_of_cons. destruct (decide (y = x)); tauto.
      - rewrite set_list_ne by done. intros Hy. right. split; [|done]. intros ->. by apply (Hx h'). }
    intros h1 h2 y Hy1 Hy2'. apply Hin in Hy1 as [[-> ->]|[Hne Hy1]]; apply Hin in Hy2' as [[Ey E]|[? Hy2']]; try done.
    by apply (Hdj _ _ y).
  - intros y Hy.
    assert (Hyx : y <> x). { intros ->. apply (Hy h). rewrite set_list_eq. apply elem_of_app. right. left. }
    assert (HyL : off L y).
    { intros h' Hin. apply (Hy h'). destruct (decide (h' = h)) as [->|Hne]; [|by rewrite set_list_ne].
      rewrite set_list_eq. rewrite Hh in Hin. apply elem_of_app in Hin as [?|?]; apply elem_of_app; [by left|right; by right]. }
    pose proof (HyL h) as Hyl. rewrite Hh in Hyl. apply not_elem_of_app in Hyl as [Hyl1 Hyl2].
    destruct (Hoff y HyL) as [O1 O2]. split.
    + rewrite E6; [done|done|]. intros E. by apply Hyl2, Hy2.
    + change (slot_get pl' (SNext y) = None). rewrite E3; [done| |congruence]. intros E. symmetry in E. by apply Hyl1, Hsl.
Qed.
Lemma p_unlink_reps pl L h l1 l2 x :
  reps pl L -> L h = l1 ++ x :: l2 -> reps (p_clear x (p_unlink x pl)) (set_list h (l1 ++ l2) L).
Proof.
  intros [HL Hnd Hdj Hoff] Hh. set (s := end_slot (SHead h) l1).
  pose proof (HL h) as Hl. rewrite Hh in Hl. pose proof (Hnd h) as Hndl. rewrite Hh in Hndl.
  pose proof (plist_prev _ _ _ _ _ Hl) as Hp. fold s in Hp. pose proof (plist_next _ _ _ _ _ Hl) as Hn.
  apply plist_app in Hl as (Hseg & Hgx & _ & Hl2). fold s in Hgx.
  assert (Hxl : x ∉ l1 /\ x ∉ l2 /\ NoDup (l1 ++ l2)).
  { rewrite <- Permutation_middle in Hndl. apply NoDup_cons in Hndl as [Hx ?]. apply not_elem_of_app in Hx. tauto. }
  destruct Hxl as (Hx1 & Hx2 & Hnd').
  assert (Hy2 : forall y, p_next pl !! x = Some y -> y ∈ l2).
  { intros y. rewrite Hn. destruct l2; [done|]. intros [= ->]. left. }
  assert (Hsl : forall y, s = SNext y -> y ∈ l1).
  { intros y E. apply end_slot_next in E as [[? _]|E]; done. }
  destruct (p_unlink_effect x s pl) as [E1 E2 E3 E4 E5 E6].
  { intros E. by apply Hx1, Hsl. }
  { done. }
  { intros E. by apply Hx2, Hy2. }
  set (pl' := p_clear x (p_unlink x pl)) in *.
  assert (Hother : forall h', h' <> h -> forall y, y ∈ L h' -> y ∉ l1 /\ y ∉ l2 /\ y <> x).
  { intros h' Hne y Hy. assert (y ∉ L h) as Hy' by (intros Hin; by apply Hne, (Hdj _ _ y)).
    rewrite Hh in Hy'. set_solver. }
  split.
  - intros h'. destruct (decide (h' = h)) as [->|Hne].
    + rewrite set_list_eq. apply plist_app. apply NoDup_app in Hnd' as (N1 & N12 & N2). split.
      * eapply pseg_frame; [| | |exact N1|exact Hseg].
        -- intros Hl1. apply E2; [|done]. intros E. unfold s in E. symmetry in E. apply end_slot_head in E as [_ ->]. done.
        -- intros y Hy Hla. apply (E2 (SNext y)); [|intros [= ->]; done].
           unfold s, end_slot. destruct (last l1) as [z|]; [|done]. congruence.
        -- intros y Hy. apply E6; [intros ->; done|]. intros E. by apply (N12 y), Hy2.
      * fold s. destruct l2 as [|y l2]; [by cbn [plist]; rewrite E1, Hn|].
        destruct Hl2 as (G1 & G2 & G3). split; [by rewrite E1, Hn|]. split; [by apply E5|].
        apply NoDup_cons in N2 as [N2 N3].
        assert (Hfr : forall z, z ∈ y :: l2 -> p_next pl' !! z = p_next pl !! z).
        { intros z Hz. apply (E2 (SNext z)).
          - intros E. symmetry in E. apply Hsl in E. by apply (N12 z).
          - intros [= ->]. done. }
        eapply plist_frame; [apply Hfr; left| |exact G3]. intros z Hz. split; [apply Hfr; by right|].
        apply E6; [intros ->; apply Hx2; by right|]. rewrite Hn. intros [= ->]. done.
    + rewrite set_list_ne by done. eapply plist_frame; [| |apply HL].
      * apply E2; [|done]. intros E. symmetry in E. by apply end_slot_head in E as [-> _].
      * intros y Hy. destruct (Hother _ Hne _ Hy) as (Hy1 & Hy3 & Hyx). split.
        -- apply (E2 (SNext y)); [|congruence]. intros E. symmetry in E. by apply Hy1, Hsl.
        -- apply E6; [done|]. intros E. by apply Hy3, Hy2.
  - intros h'. destruct (decide (h' = h)) as [->|Hne]; [by rewrite set_list_eq|by rewrite set_list_ne].
  - assert (Hin : forall h' y, y ∈ set_list h (l1 ++ l2) L h' -> y ∈ L h').
    { intros h' y. destruct (decide (h' = h)) as [->|Hne]; [|by rewrite set_list_ne].
      rewrite set_list_eq, Hh. set_solver. }
    intros h1 h2 y Hy1%Hin Hy2'%Hin. by apply (Hdj _ _ y).
  - intros y Hy. destruct (decide (y = x)) as [->|Hyx]; [done|].
    assert (HyL : off L y).
    { intros h' Hin. apply (Hy h'). destruct (decide (h' = h)) as [->|Hne]; [|by rewrite set_list_ne].
      rewrite set_list_eq. rewrite Hh in Hin. set_solver. }
    pose proof (HyL h) as Hyl. rewrite Hh in Hyl. apply not_elem_of_app in Hyl as [Hyl1 Hyl2].
    destruct (Hoff y HyL) as [O1 O2]. split.
    + rewrite E6; [done|done|]. intros E. apply Hyl2. right. by apply Hy2.
    + change (slot_get pl' (SNext y) = None). rewrite E2; [done| |congruence]. intros E. symmetry in E. by apply Hyl1, Hsl.
Qed.

(** A structure on no list is left as it is. *)
Lemma p_unlink_off pl L x : reps pl L -> off L x ->
  p_head (p_clear x (p_unlink x pl)) = p_head pl /\ p_next (p_clear x (p_unlink x pl)) = p_next pl /\
  p_prev (p_clear x (p_unlink x pl)) = p_prev pl.
Proof.
  intros HR Hx. destruct (rp_off _ _ HR x Hx) as [Hp Hn]. unfold p_clear, p_unlink. rewrite Hn, Hp. cbn.
  split_and!; [done|..]; apply map_eq; intros i; destruct (decide (i = x)) as [->|Hi];
    rewrite ?set_link_eq, ?set_link_ne, ?lookup_partial_alter_eq, ?lookup_partial_alter_ne by done; done.
Qed.

Lemma reps_ext pl pl' L : (forall h, p_head pl' h = p_head pl h) -> p_next pl' = p_next pl -> p_prev pl' = p_prev pl ->
  reps pl L -> reps pl' L.
Proof.
  intros H1 H2 H3 [A B C D]. split; [|done|done|by rewrite H2, H3].
  intros h. eapply plist_frame; [apply H1| |apply A]. by rewrite H2, H3.
Qed.

Lemma reps_same pl L L' : (forall h, L' h = L h) -> reps pl L -> reps pl L'.
Proof.
  intros E [A B C D]. split.
  - intros h. by rewrite E.
  - intros h. by rewrite E.
  - intros h h' x. rewrite !E. apply C.
  - intros x Hx. apply D. intros h. rewrite <- E. apply Hx.
Qed.

(** The slot found by a walk is the end of the longest prefix whose
    structures fail the test. *)
Fixpoint span_at (test : ptr -> bool) l : list ptr * list ptr :=
  match l with
  | [] => ([], [])
  | x :: l' => if test x then ([], l) else (x :: (span_at test l').1, (span_at test l').2)
  end.

Lemma span_at_app test l : (span_at test l).1 ++ (span_at test l).2 = l.
Proof. induction l as [|x l IH]; [done|]. cbn. destruct (test x); cbn; [done|]. by rewrite IH. Qed.

Lemma span_at_fst test l x : x ∈ (span_at test l).1 -> test x = false.
Proof.
  induction l as [|y l IH]; cbn; [by intros ?%elem_of_nil|]. destruct (test y) eqn:E; cbn; [by intros ?%elem_of_nil|].
  intros [->|?]%elem_of_cons; [done|by apply IH].
Qed.

Lemma span_at_snd test l x : head (span_at test l).2 = Some x -> test x = true.
Proof. induction l as [|y l IH]; cbn; [done|]. destruct (test y) eqn:E; cbn; [by intros [= <-]|done]. Qed.

Lemma find_slot_spec test pl l : forall n s, plist pl s l -> (length l < n)%nat ->
  find_slot n test pl s = Some (end_slot s (span_at test l).1).
Proof.
  induction l as [|x l IH]; intros n s Hl Hn; (destruct n as [|n]; [cbn in Hn; lia|]).
  - cbn [find_slot]. by rewrite (Hl : slot_get pl s = None).
  - destruct Hl as (H1 & _ & Hl). cbn [find_slot span_at]. rewrite H1. destruct (test x); cbn [fst]; [done|].
    cbn [length] in Hn. rewrite (IH n (SNext x)) by (done || lia). by rewrite end_slot_cons.
Qed.

Lemma plist_chain pl s l : plist pl s l -> chain (p_next pl) (slot_get pl s) l.
Proof. revert s. induction l as [|x l IH]; intros s; [done|]. intros (H1 & _ & Hl). split; [done|]. by apply (IH (SNext x)). Qed.

Lemma plist_fuel pl s l : NoDup l -> plist pl s l -> (length l < walk_fuel (p_next pl))%nat.
Proof.
  intros Hnd Hl. apply plist_chain in Hl. pose proof (chain_size _ _ _ Hnd Hl). unfold walk_fuel. lia.
Qed.
Lemma plist_inj pl l1 : forall s l2, plist pl s l1 -> plist pl s l2 -> l1 = l2.
Proof.
  induction l1 as [|x l1 IH]; intros s [|y l2]; cbn; [done|intros H1 (H2 & _); congruence|intros (H1 & _) H2; congruence|].
  intros (H1 & _ & Hl1) (H2 & _ & Hl2). assert (y = x) as -> by congruence. f_equal. by apply (IH (SNext x)).
Qed.

Lemma filter_off (x : ptr) l : x ∉ l -> filter (fun y => y <> x) l = l.
Proof.
  intros Hl. induction l as [|y l IH]; [done|]. apply not_elem_of_cons in Hl as [? ?].
  rewrite filter_cons_True by done. by rewrite IH.
Qed.
Lemma span_at_ext (f g : ptr -> bool) l : (forall y, y ∈ l -> f y = g y) -> span_at f l = span_at g l.
Proof.
  induction l as [|y l IH]; intros E; [done|]. cbn. rewrite (E y) by left. rewrite IH; [done|].
  intros z Hz. apply E. by right.
Qed.
End plist.
