(* ===== verification/Hash.v ===== *)
(** * Hash tables of clients, channels and monitors (hash.c)

    [init_hash] and [strhash] are translated with 32-bit words; the three
    tables are the same code on three structures, modelled once in the
    section [table] over the name of a structure and the links, then
    instantiated.  The table of juped nicks follows. *)
From S2P Require Import Prelude Chattr Strings Chain.
From stdpp Require Import options.
Open Scope Z_scope.

Definition HASHSIZE : Z := 32000.

(** ** The hash function *)

(** One entry of the CRC-32 table, eight times one bit. *)
Definition crc_bit (rand : Z) : Z :=
  if negb (Z.land rand 1 =? 0) then Z.lxor 0xedb88320 (Z.shiftr rand 1) else Z.shiftr rand 1.

Definition crc_entry (ii : Z) : Z := Nat.iter 8 crc_bit ii.

Definition crc_table : list Z := map crc_entry (seqZ 0 256).

(** Second loop of [init_hash] from index [ii] on, [n] iterations left.
    [rand] holds what is left of the last random word, and [rnd] is the
    sequence of words [ircrandom] returns. *)
Fixpoint shuffle (n : nat) (ii rand : Z) (rnd : nat -> Z) (crc32hash : list Z) : list Z :=
  match n with
  | O => crc32hash
  | S n =>
      let '(rand, rnd) :=
        if rand =? 0 then (w32 (rnd O), fun k => rnd (S k)) else (rand, rnd) in
      let poly := ii + rand mod (256 - ii) in
      let jj := crc32hash !!! Z.to_nat ii in
      let crc32hash := <[Z.to_nat ii := crc32hash !!! Z.to_nat poly]> crc32hash in
      let crc32hash := <[Z.to_nat poly := jj]> crc32hash in
      shuffle n (ii + 1) (Z.shiftr rand 8) rnd crc32hash
  end.

Definition init_hash (rnd : nat -> Z) : list Z := shuffle 256 0 0 rnd crc_table.

(** [strhash].  The first character is consumed before the first test, so
    the empty string makes the loop read past its terminator: no value. *)
Definition hash_byte (c : ascii) : Z := code (ToLower c).

Fixpoint hash_loop (crc32hash : list Z) (hash : Z) (n : cstring) : Z :=
  match n with
  | [] => hash
  | c :: n' =>
      hash_loop crc32hash
        (Z.lxor (Z.shiftr hash 8)
           (crc32hash !!! Z.to_nat (Z.land (Z.lxor hash (hash_byte c)) 255))) n'
  end.

Definition strhash (crc32hash : list Z) (n : cstring) : option Z :=
  match n with
  | [] => None
  | c :: n' =>
      Some (hash_loop crc32hash (crc32hash !!! Z.to_nat (Z.land (hash_byte c) 255)) n' mod HASHSIZE)
  end.

(** ** The tables: heads of the buckets and links of the structures *)
Record htable := { heads : gmap Z ptr; hnext : gmap ptr ptr }.

Definition set_head (h : Z) (v : option ptr) (t : htable) : htable :=
  {| heads := partial_alter (fun _ => v) h (heads t); hnext := hnext t |}.
Definition set_hnext (x : ptr) (v : option ptr) (t : htable) : htable :=
  {| heads := heads t; hnext := set_link x v (hnext t) |}.

Definition empty_table : htable := {| heads := ∅; hnext := ∅ |}.

Section table.
Context (crc32hash : list Z).

(** [hAddClient], [hAddChannel], [hAddMonitor]. *)
Definition hAdd (name : ptr -> cstring) (t : htable) (p : ptr) : option htable :=
  hashv ← strhash crc32hash (name p);
  let t := set_hnext p (heads t !! hashv) t in
  Some (set_head hashv (Some p) t).

(** The loop of [hRemClient], [hRemChannel], [hRemMonitor]. *)
Definition hRem_step (t : htable) (p : ptr) (tmp : option ptr) : option ptr + (htable * Z) :=
  match tmp with
  | None => inr (t, -1)
  | Some x =>
      if decide (hnext t !! x = Some p) then
        let t := set_hnext x (hnext t !! p) t in
        inr (set_hnext p (Some p) t, 0)
      else inl (hnext t !! x)
  end.

Definition hRem (name : ptr -> cstring) (t : htable) (p : ptr) : option (htable * Z) :=
  hashv ← strhash crc32hash (name p);
  let tmp := heads t !! hashv in
  if decide (tmp = Some p) then
    let t := set_head hashv (hnext t !! p) t in
    Some (set_hnext p (Some p) t, 0)
  else loop (hRem_step t p) (walk_fuel (hnext t)) tmp.

(** [hChangeClient]: out of the bucket of the old name, still in the
    structure, into the one of the new name. *)
Definition hChange (name : ptr -> cstring) (t : htable) (p : ptr) (newname : cstring)
  : option htable :=
  newhash ← strhash crc32hash newname;
  '(t, _) ← hRem name t p;
  let t := set_hnext p (heads t !! newhash) t in
  Some (set_head newhash (Some p) t).

(** The inner loop of [hSeekClient], [hSeekChannel], [hSeekMonitor]; [ok] is
    the condition of the two tests. *)
Definition hSeek_step (ok : ptr -> bool) (hashv : Z) (t : htable) (prev : ptr)
  : ptr + (htable * option ptr) :=
  match hnext t !! prev with
  | None => inr (t, None)
  | Some p =>
      if ok p then
        let t := set_hnext prev (hnext t !! p) t in
        let t := set_hnext p (heads t !! hashv) t in
        inr (set_head hashv (Some p) t, Some p)
      else inl p
  end.

Definition hSeek (ok : ptr -> bool) (t : htable) (name : cstring)
  : option (htable * option ptr) :=
  hashv ← strhash crc32hash name;
  match heads t !! hashv with
  | None => Some (t, None)
  | Some p =>
      if ok p then Some (t, Some p)
      else loop (hSeek_step ok hashv t) (walk_fuel (hnext t)) p
  end.
End table.

(** The three instances; [status] is [cli_status]. *)
Definition hAddClient := hAdd.
Definition hAddChannel := hAdd.
Definition hAddMonitor := hAdd.
Definition hRemClient := hRem.
Definition hRemChannel := hRem.
Definition hRemMonitor := hRem.
Definition hChangeClient := hChange.

Definition hSeekClient (crc32hash : list Z) (name_of : ptr -> cstring) (status : ptr -> Z)
  (t : htable) (name : cstring) (TMask : Z) : option (htable * option ptr) :=
  hSeek crc32hash
    (fun p => negb (Z.land (status p) TMask =? 0) && strcmp_eqb name (name_of p)) t name.

Definition hSeekChannel (crc32hash : list Z) (name_of : ptr -> cstring)
  (t : htable) (name : cstring) : option (htable * option ptr) :=
  hSeek crc32hash (fun p => strcmp_eqb name (name_of p)) t name.

Definition hSeekMonitor := hSeekChannel.

(** [m_hash]: entries, buckets in use and longest chain of a table. *)
Definition chain_len_step (nx : gmap ptr ptr) (s : option ptr * Z) : (option ptr * Z) + Z :=
  match s with
  | (None, len) => inr len
  | (Some cl, len) => inl (nx !! cl, len + 1)
  end.

Fixpoint hash_stats (t : htable) (n : nat) (i count buckets max_chain : Z) : option (Z * Z * Z) :=
  match n with
  | O => Some (count, buckets, max_chain)
  | S n =>
      match heads t !! i with
      | None => hash_stats t n (i + 1) count buckets max_chain
      | Some cl =>
          len ← loop (chain_len_step (hnext t)) (walk_fuel (hnext t)) (Some cl, 0);
          hash_stats t n (i + 1) (count + len) (buckets + 1)
            (if len >? max_chain then len else max_chain)
      end
  end.

Definition m_hash (t : htable) : option (Z * Z * Z) := hash_stats t (Z.to_nat HASHSIZE) 0 0 0 0.

(** ** Nick jupes

    [jupeTable] has 4096 slots, an empty one being a string of length 0;
    the map holds the slots in use. *)
Definition JUPEHASHBITS : Z := 12.
Definition JUPEHASHSIZE : Z := 2 ^ JUPEHASHBITS.
Definition JUPEHASHMASK : Z := JUPEHASHSIZE - 1.
Definition JUPEMAX : Z := 2 ^ (JUPEHASHBITS - 6).
Definition NICKLEN : nat := 15.
Definition BUFSIZE : nat := 512.

Record jupes := { jupeTable : gmap Z cstring; jupesCount : Z }.

Definition no_jupes : jupes := {| jupeTable := ∅; jupesCount := 0 |}.

Definition slot (j : jupes) (pos : Z) : cstring := default [] (jupeTable j !! pos).

Definition juped_step (nick : cstring) (j : jupes) (pos : Z) : Z + bool :=
  let pos := Z.land pos JUPEHASHMASK in
  match slot j pos with
  | [] => inr false
  | s => if strcmp_eqb nick s then inr true else inl (pos + 1)
  end.

Definition jupe_fuel : nat := Z.to_nat (JUPEHASHSIZE + 1).

Definition isNickJuped (crc32hash : list Z) (j : jupes) (nick : cstring) : option bool :=
  match nick with
  | [] => Some false
  | _ =>
      pos ← strhash crc32hash nick;
      loop (juped_step nick j) jupe_fuel pos
  end.

(** One nick of [addNickJupes]: the code from the label [loop]; the result
    holds whether the table was full. *)
Definition addjupe_step (one : cstring) (j : jupes) (pos : Z) : Z + (jupes * bool) :=
  let pos := Z.land pos JUPEHASHMASK in
  match slot j pos with
  | [] =>
      if jupesCount j =? JUPEMAX then inr (j, true)
      else
        inr ({| jupeTable := <[pos := ircd_strncpy one NICKLEN]> (jupeTable j);
                jupesCount := jupesCount j + 1 |}, false)
  | s => if strcmp_eqb one s then inr (j, false) else inl (pos + 1)
  end.

Fixpoint addjupes_loop (n : nat) (crc32hash : list Z) (j : jupes) (p : option cstring)
  : option (jupes * Z) :=
  match n with
  | O => None
  | S n =>
      match ircd_strtok p (str ",") with
      | None => Some (j, 0)
      | Some ([], p) => addjupes_loop n crc32hash j p
      | Some (one, p) =>
          pos ← strhash crc32hash one;
          '(j, full) ← loop (addjupe_step one j) jupe_fuel pos;
          if (full : bool) then Some (j, 1) else addjupes_loop n crc32hash j p
      end
  end.

Definition addNickJupes (crc32hash : list Z) (j : jupes) (nicks : cstring) : option (jupes * Z) :=
  match nicks with
  | [] => Some (j, 0)
  | _ =>
      let temp := ircd_strncpy nicks BUFSIZE in
      addjupes_loop (S (S (length temp))) crc32hash j (Some temp)
  end.

Definition clearNickJupes (j : jupes) : jupes := no_jupes.

Definition stats_nickjupes (j : jupes) : list cstring :=
  filter (fun s => s <> []) (map (slot j) (seqZ 0 JUPEHASHSIZE)).

(** [ddb_hash_register] (DDB builds). *)
Definition ddb_hash_register (crc32hash : list Z) (key : cstring) (hash_size : Z) : option Z :=
  h ← strhash crc32hash key; Some (Z.land h (hash_size - 1)).

(** ** The hash function ignores case *)
Lemma hash_loop_lower tab a b h : lower a = lower b -> hash_loop tab h a = hash_loop tab h b.
Proof.
  revert b h. induction a as [|x a IH]; intros [|y b] h; try done.
  simpl. intros [= Hx Hl]. unfold hash_byte. rewrite Hx. by apply IH.
Qed.

Lemma strhash_lower tab a b : lower a = lower b -> strhash tab a = strhash tab b.
Proof.
  destruct a as [|x a], b as [|y b]; try done. simpl. intros [= Hx Hl].
  unfold hash_byte. rewrite Hx. by erewrite hash_loop_lower.
Qed.

Lemma strhash_range tab a h : strhash tab a = Some h -> 0 <= h < HASHSIZE.
Proof. destruct a; [done|]. intros [= <-]. by apply Z.mod_pos_bound. Qed.

(** ** The shuffle *)
Lemma swap_perm (l : list Z) (i j : nat) :
  (i < length l)%nat -> (j < length l)%nat ->
  <[j := l !!! i]> (<[i := l !!! j]> l) ≡ₚ l.
Proof.
  intros Hi Hj.
  apply list_lookup_lookup_total_lt in Hi, Hj.
  destruct (decide (i = j)) as [->|Hne].
  - rewrite list_insert_insert_eq. by rewrite list_insert_id.
  - rewrite list_insert_insert_ne by done. by apply Permutation_insert_swap.
Qed.

Lemma shuffle_perm n ii rand rnd l :
  0 <= ii -> ii + Z.of_nat n = 256 -> length l = 256%nat -> shuffle n ii rand rnd l ≡ₚ l.
Proof.
  revert ii rand rnd l. induction n as [|n IH]; intros ii rand rnd l Hii Hn Hl; [done|].
  cbn [shuffle]. destruct (if rand =? 0 then _ else _) as [rand' rnd'].
  assert (Hm := Z.mod_pos_bound rand' (256 - ii) ltac:(lia)).
  rewrite IH by (try lia; by rewrite !length_insert).
  apply swap_perm; lia.
Qed.

(** whatever words the random generator returns, [init_hash] ends with a
    permutation of the CRC-32 table, whose 256 words are distinct: every
    index of the shuffle is inside the table and no word is lost. *)
Theorem init_hash_perm rnd : init_hash rnd ≡ₚ crc_table /\ NoDup (init_hash rnd).
Proof.
  assert (Hp : init_hash rnd ≡ₚ crc_table) by (by apply shuffle_perm).
  split; [done|]. rewrite Hp. apply (bool_decide_unpack _). by vm_compute.
Qed.

(** ** What a table promises: buckets are duplicate-free chains of the
    structures whose name hashes there *)
Section table_spec.
Context (tab : list Z).
Implicit Types (name : ptr -> cstring) (t : htable) (L : Z -> list ptr) (p : ptr) (h : Z).

Definition bucket name t L h : Prop :=
  chain (hnext t) (heads t !! h) (L h) /\ NoDup (L h) /\
  Forall (fun p => strhash tab (name p) = Some h) (L h).

Definition tab_rep name t L : Prop := forall h, bucket name t L h.

Definition upd_list (h : Z) (l : list ptr) L : Z -> list ptr :=
  fun h' => if decide (h' = h) then l else L h'.

Lemma upd_list_eq h l L : upd_list h l L h = l.
Proof. unfold upd_list. by rewrite decide_True. Qed.

Lemma upd_list_ne h h' l L : h' <> h -> upd_list h l L h' = L h'.
Proof. intros. unfold upd_list. by rewrite decide_False. Qed.

Lemma rep_hash name t L h p : tab_rep name t L -> p ∈ L h -> strhash tab (name p) = Some h.
Proof. intros H Hp. destruct (H h) as (_ & _ & Hf). rewrite Forall_forall in Hf. auto. Qed.

Lemma rep_disjoint name t L h h' p : tab_rep name t L -> p ∈ L h -> h' <> h -> p ∉ L h'.
Proof.
  intros H Hp Hne Hp'. pose proof (rep_hash _ _ _ _ _ H Hp). pose proof (rep_hash _ _ _ _ _ H Hp').
  congruence.
Qed.

(** Writing the links of structures that are in no other bucket than [h], and
    the head of [h], leaves the other buckets alone. *)
Lemma bucket_other name t t' L l h h' :
  (forall x, x ∈ L h' -> hnext t' !! x = hnext t !! x) ->
  heads t' !! h' = heads t !! h' -> h' <> h ->
  bucket name t L h' -> bucket name t' (upd_list h l L) h'.
Proof.
  intros Hnx Hh Hne (Hc & Hnd & Hf). unfold bucket. rewrite upd_list_ne, Hh by done.
  split_and!; [|done|done]. clear Hnd Hf. revert Hnx Hc. generalize (heads t !! h').
  induction (L h') as [|x l' IH]; intros q Hnx Hc; [done|]. destruct Hc as [-> Hc]. split; [done|].
  rewrite Hnx by set_solver. apply IH; [|done]. intros y Hy. apply Hnx. set_solver.
Qed.

Lemma rep_bucket_fuel name t L h :
  tab_rep name t L -> (length (L h) < walk_fuel (hnext t))%nat.
Proof.
  intros H. destruct (H h) as (Hc & Hnd & _). pose proof (chain_size _ _ _ Hnd Hc).
  unfold walk_fuel. lia.
Qed.

Lemma head_set h v t : heads (set_head h v t) !! h = v.
Proof. apply lookup_partial_alter_eq. Qed.

Lemma head_set_ne h h' v t : h' <> h -> heads (set_head h v t) !! h' = heads t !! h'.
Proof. intros. by apply lookup_partial_alter_ne. Qed.

Lemma rep_ext name t L L' : (forall h, L h = L' h) -> tab_rep name t L -> tab_rep name t L'.
Proof. intros He H h. unfold bucket. rewrite <- He. apply H. Qed.

(** Prepending to a bucket. *)
Lemma rep_push name t L p h :
  tab_rep name t L -> strhash tab (name p) = Some h -> p ∉ L h ->
  tab_rep name (set_head h (Some p) (set_hnext p (heads t !! h) t)) (upd_list h (p :: L h) L).
Proof.
  intros H Hh Hp h'. destruct (H h) as (Hc & Hnd & Hf). destruct (decide (h' = h)) as [->|Hne].
  - unfold bucket. rewrite upd_list_eq, head_set. split_and!.
    + by apply chain_push.
    + by constructor.
    + by constructor.
  - apply (bucket_other _ t); [|by rewrite head_set_ne|done|done].
    intros x Hx. simpl. apply set_link_ne. intros <-.
    pose proof (rep_hash _ _ _ _ _ H Hx). congruence.
Qed.

(** Taking a structure out of the middle or the front of its bucket. *)
Lemma rep_unlink name t L h l1 x p l2 :
  tab_rep name t L -> L h = l1 ++ x :: p :: l2 ->
  tab_rep name (set_hnext p (Some p) (set_hnext x (hnext t !! p) t)) (upd_list h (l1 ++ x :: l2) L).
Proof.
  intros H HL h'. destruct (H h) as (Hc & Hnd & Hf). rewrite HL in Hc, Hnd, Hf.
  assert (Hp : (p ∉ l1 ++ x :: l2) /\ NoDup (l1 ++ x :: l2)).
  { change (x :: l2) with ([x] ++ l2). rewrite (app_assoc l1). apply NoDup_drop_middle.
    by rewrite <- app_assoc. }
  destruct Hp as [Hp Hnd'].
  destruct (decide (h' = h)) as [->|Hne].
  - unfold bucket. rewrite upd_list_eq. split_and!; [|done|].
    + simpl. apply chain_frame; [done|]. by apply chain_unlink.
    + rewrite Forall_app, !Forall_cons in Hf. rewrite Forall_app, Forall_cons. tauto.
  - apply (bucket_other _ t); [|done|done|done]. intros y Hy. simpl.
    assert (Hyh := rep_hash _ _ _ _ _ H Hy).
    rewrite !set_link_ne; [done| |]; intros <-.
    + assert (x ∈ L h) by (rewrite HL; set_solver). pose proof (rep_hash name t L h _ H ltac:(eassumption)). congruence.
    + assert (p ∈ L h) by (rewrite HL; set_solver). pose proof (rep_hash name t L h _ H ltac:(eassumption)). congruence.
Qed.

Lemma rep_pop name t L h p l2 :
  tab_rep name t L -> L h = p :: l2 ->
  tab_rep name (set_hnext p (Some p) (set_head h (hnext t !! p) t)) (upd_list h l2 L).
Proof.
  intros H HL h'. destruct (H h) as (Hc & Hnd & Hf). rewrite HL in Hc, Hnd, Hf.
  apply NoDup_cons in Hnd as [Hp Hnd]. destruct Hc as [Hh Hc].
  destruct (decide (h' = h)) as [->|Hne].
  - unfold bucket. rewrite upd_list_eq. split_and!; [|done|by apply Forall_cons in Hf as [_ ?]].
    change (heads (set_hnext p (Some p) (set_head h (hnext t !! p) t)))
      with (heads (set_head h (hnext t !! p) t)).
    rewrite head_set. by apply chain_frame.
  - apply (bucket_other _ t); [|by apply head_set_ne|done|done]. intros y Hy. simpl.
    rewrite set_link_ne; [done|]. intros <-.
    assert (p ∈ L h) by (rewrite HL; set_solver).
    by apply (rep_disjoint _ _ _ h h' p H).
Qed.

(** The walk of [hRem]: [pre ++ [x]] has been passed. *)
Lemma hRem_loop name t L p h post : forall pre x fuel,
  tab_rep name t L -> L h = pre ++ x :: post -> p ∉ pre ++ [x] -> (S (length post) < fuel)%nat ->
  exists t' r, loop (hRem_step t p) fuel (Some x) = Some (t', r) /\
    ((r = -1 /\ t' = t /\ p ∉ L h) \/
     (r = 0 /\ exists l1 l2, L h = l1 ++ p :: l2 /\ tab_rep name t' (upd_list h (l1 ++ l2) L))).
Proof.
  induction post as [|y post IH]; intros pre x fuel H HL Hp Hf; destruct fuel as [|fuel];
    simpl in Hf; try lia; destruct (H h) as (Hc & _); rewrite HL in Hc;
    apply chain_app in Hc as [_ Hc]; cbn [loop hRem_step].
  - simpl in Hc. rewrite Hc, decide_False by done.
    destruct fuel as [|fuel]; [lia|]. simpl. exists t, (-1). split; [done|]. left.
    by rewrite HL.
  - destruct Hc as [Hx Hc]. rewrite Hx. destruct (decide (Some y = Some p)) as [[= ->]|Hne].
    + eexists _, 0. split; [done|]. right. split; [done|].
      exists (pre ++ [x]), post. rewrite <- !app_assoc. split; [done|]. by apply rep_unlink.
    + destruct (IH (pre ++ [x]) y fuel H) as (t' & r & -> & Hr).
      * by rewrite <- app_assoc.
      * rewrite not_elem_of_app, list_elem_of_singleton. split; [done|congruence].
      * lia.
      * by exists t', r.
Qed.

Lemma hRem_rep name t L p h :
  tab_rep name t L -> strhash tab (name p) = Some h ->
  exists t' r, hRem tab name t p = Some (t', r) /\
    ((r = -1 /\ t' = t /\ p ∉ L h) \/
     (r = 0 /\ exists l1 l2, L h = l1 ++ p :: l2 /\ tab_rep name t' (upd_list h (l1 ++ l2) L))).
Proof.
  intros H Hh. unfold hRem. rewrite Hh. cbn [mbind option_bind].
  destruct (H h) as (Hc & _). destruct (L h) as [|x l] eqn:HL; simpl in Hc.
  - rewrite Hc, decide_False by done. exists t, (-1). split; [done|]. left. set_solver.
  - destruct Hc as [Hx Hc]. rewrite Hx. destruct (decide (Some x = Some p)) as [[= ->]|Hne].
    + eexists _, 0. split; [done|]. right. split; [done|]. exists [], l. split; [done|].
      by apply rep_pop.
    + rewrite <- HL. apply (hRem_loop name t L p h l []); [done|done| |].
      * simpl. rewrite list_elem_of_singleton. congruence.
      * pose proof (rep_bucket_fuel _ _ _ h H) as Hf. rewrite HL in Hf. simpl in Hf. lia.
Qed.

(** The walk of [hSeek] finds the first structure that satisfies the test and
    moves it to the front. *)
Lemma hSeek_loop name t L ok h post : forall pre x fuel,
  tab_rep name t L -> L h = pre ++ x :: post -> Forall (fun y => ok y = false) (pre ++ [x]) ->
  (length post < fuel)%nat ->
  exists t' r, loop (hSeek_step ok h t) fuel x = Some (t', r) /\
    match extract ok (L h) with
    | None => r = None /\ t' = t
    | Some (p, l) => r = Some p /\ tab_rep name t' (upd_list h (p :: l) L)
    end.
Proof.
  induction post as [|y post IH]; intros pre x fuel H HL Hp Hf; destruct fuel as [|fuel];
    simpl in Hf; try lia; pose proof (H h) as (Hc & _); rewrite HL in Hc;
    apply chain_app in Hc as [_ Hc]; cbn [loop]; unfold hSeek_step at 1.
  - simpl in Hc. rewrite Hc. eexists _, _. split; [done|].
    by rewrite extract_none by by rewrite HL.
  - destruct Hc as [Hx Hc]. rewrite Hx. destruct (ok y) eqn:Hy.
    + eexists _, _. split; [done|].
      assert (He : extract ok (L h) = Some (y, (pre ++ [x]) ++ post)).
      { rewrite HL. change (pre ++ x :: y :: post) with (pre ++ [x] ++ y :: post).
        rewrite (app_assoc pre). by apply extract_app. }
      rewrite He. split; [done|].
      assert (HL' : L h = pre ++ x :: y :: post) by done.
      pose proof (rep_unlink _ _ _ _ _ _ _ _ H HL') as Hu.
      assert (Hyn : y ∉ pre ++ x :: post).
      { destruct (H h) as (_ & Hnd & _). rewrite HL' in Hnd.
        change (pre ++ x :: y :: post) with (pre ++ [x] ++ y :: post) in Hnd.
        rewrite (app_assoc pre) in Hnd. apply NoDup_drop_middle in Hnd as [Hnd _].
        by rewrite <- app_assoc in Hnd. }
      pose proof (rep_push _ _ _ y h Hu) as Hps. rewrite upd_list_eq in Hps.
      specialize (Hps (rep_hash _ _ _ _ y H ltac:(rewrite HL; set_solver)) Hyn).
      unfold set_hnext in Hps at 1. cbn [hnext heads set_hnext] in Hps. rewrite set_link_twice in Hps.
      rewrite <- app_assoc. eapply rep_ext, Hps.
      intros h'. unfold upd_list. by destruct (decide (h' = h)).
    + destruct (IH (pre ++ [x]) y fuel H) as (t' & r & -> & Hr).
      * by rewrite <- app_assoc.
      * rewrite Forall_app. split; [done|]. by constructor.
      * lia.
      * by exists t', r.
Qed.

Lemma hSeek_rep name t L ok nick h :
  tab_rep name t L -> strhash tab nick = Some h ->
  exists t' r, hSeek tab ok t nick = Some (t', r) /\
    match extract ok (L h) with
    | None => r = None /\ t' = t
    | Some (p, l) => r = Some p /\ tab_rep name t' (upd_list h (p :: l) L)
    end.
Proof.
  intros H Hh. unfold hSeek. rewrite Hh. cbn [mbind option_bind].
  pose proof (H h) as (Hc & _). pose proof (rep_bucket_fuel _ _ _ h H) as Hf.
  destruct (L h) as [|x l] eqn:HL; simpl in Hc.
  - rewrite Hc. by eexists _, _.
  - destruct Hc as [Hx Hc]. rewrite Hx. destruct (ok x) eqn:Hok; simpl; rewrite Hok.
    + eexists _, _. split; [done|]. split; [done|].
      eapply rep_ext, H. intros h'. unfold upd_list. case_decide; congruence.
    + pose proof (hSeek_loop name t L ok h l [] x (walk_fuel (hnext t)) H HL) as Hs.
      rewrite HL in Hs. simpl in Hs. rewrite Hok in Hs. simpl in Hf. apply Hs; [|lia].
      by constructor.
Qed.
End table_spec.

(** ** The tables implement a set of named structures *)
Definition in_table (L : Z -> list ptr) (p : ptr) : Prop := exists h, p ∈ L h.

Definition set_name (name : ptr -> cstring) (p : ptr) (s : cstring) : ptr -> cstring :=
  fun q => if decide (q = p) then s else name q.

(** The operations on a table, as its clients call them; [hChangeClient] is
    followed by the copy of the new name into the structure. *)
Inductive hop :=
| OpAdd (p : ptr)
| OpRem (p : ptr)
| OpChange (p : ptr) (newname : cstring)
| OpSeek (ok : ptr -> bool) (name : cstring).

Definition run_hop (tab : list Z) (o : hop) (s : (ptr -> cstring) * htable)
  : option ((ptr -> cstring) * htable) :=
  let '(name, t) := s in
  match o with
  | OpAdd p => t ← hAdd tab name t p; Some (name, t)
  | OpRem p => '(t, _) ← hRem tab name t p; Some (name, t)
  | OpChange p newname => t ← hChange tab name t p newname; Some (set_name name p newname, t)
  | OpSeek ok nick => '(t, _) ← hSeek tab ok t nick; Some (name, t)
  end.

(** An operation is called with a name that is not empty; a structure is
    added once, and renamed while it is in the table. *)
Definition hop_pre (name : ptr -> cstring) (L : Z -> list ptr) (o : hop) : Prop :=
  match o with
  | OpAdd p => name p <> [] /\ ~ in_table L p
  | OpRem p => name p <> []
  | OpChange p newname => newname <> [] /\ in_table L p
  | OpSeek _ nick => nick <> []
  end.

Definition hop_members (L : Z -> list ptr) (o : hop) (q : ptr) : Prop :=
  match o with
  | OpAdd p => q = p \/ in_table L q
  | OpRem p => q <> p /\ in_table L q
  | OpChange _ _ | OpSeek _ _ => in_table L q
  end.

Lemma strhash_some tab n : n <> [] -> exists h, strhash tab n = Some h.
Proof. destruct n; [done|]. intros _. by eexists. Qed.

Lemma in_upd L h l q : in_table (upd_list h l L) q <-> q ∈ l \/ exists h', h' <> h /\ q ∈ L h'.
Proof.
  unfold in_table, upd_list. split.
  - intros [h' Hq]. case_decide; eauto.
  - intros [Hq|(h' & Hne & Hq)]; [exists h; by rewrite decide_True | exists h'; by rewrite decide_False].
Qed.

Lemma in_split L h q : in_table L q <-> q ∈ L h \/ exists h', h' <> h /\ q ∈ L h'.
Proof.
  split; [|unfold in_table; naive_solver]. intros [h' Hq].
  destruct (decide (h' = h)) as [->|]; eauto.
Qed.

Lemma rep_set_name tab name t L p s :
  tab_rep tab name t L -> ~ in_table L p -> tab_rep tab (set_name name p s) t L.
Proof.
  intros H Hp h. destruct (H h) as (Hc & Hnd & Hf). split_and!; [done|done|].
  rewrite Forall_forall in Hf |- *. intros x Hx. unfold set_name.
  rewrite decide_False; [by apply Hf|]. intros ->. apply Hp. by exists h.
Qed.

(** Taking a member out leaves the others. *)
Lemma in_rem tab name t L p h l1 l2 q :
  tab_rep tab name t L -> L h = l1 ++ p :: l2 ->
  in_table (upd_list h (l1 ++ l2) L) q <-> q <> p /\ in_table L q.
Proof.
  intros H HL. rewrite in_upd, (in_split L h q), HL.
  destruct (H h) as (_ & Hnd & _). rewrite HL in Hnd.
  apply NoDup_drop_middle in Hnd as [Hp _]. split.
  - intros [Hq|(h' & Hne & Hq)].
    + split; [congruence | set_solver].
    + split; [|eauto]. intros ->. apply (rep_disjoint _ _ _ _ h h' p H); [rewrite HL; set_solver|done|done].
  - set_solver.
Qed.

Lemma extract_perm ok l p r : extract ok l = Some (p, r) -> p :: r ≡ₚ l.
Proof.
  intros (l1 & l2 & -> & -> & _)%extract_some. by rewrite <- Permutation_middle.
Qed.

(** C33: the chained tables refine a set of named structures.  From a table
    that represents one, each of [hAdd*], [hRem*], [hChangeClient] and
    [hSeek*] terminates on it and ends in a table that again has each
    structure once, in the bucket its name hashes to; the members are those
    of the abstract set operation, and a search or a renaming loses none. *)
Theorem hash_ops_refine tab name t L o :
  tab_rep tab name t L -> hop_pre name L o ->
  exists name' t' L', run_hop tab o (name, t) = Some (name', t') /\
    tab_rep tab name' t' L' /\ forall q, in_table L' q <-> hop_members L o q.
Proof.
  intros H Hpre. destruct o as [p|p|p s|ok s]; simpl in *.
  - destruct Hpre as [Hn Hp]. destruct (strhash_some tab _ Hn) as [h Hh].
    assert (Hph : p ∉ L h) by (intros ?; apply Hp; by exists h).
    unfold hAdd. rewrite Hh. eexists _, _, _. split; [done|]. split; [by apply rep_push|].
    intros q. rewrite in_upd, (in_split L h q). set_solver.
  - destruct (strhash_some tab _ Hpre) as [h Hh].
    destruct (hRem_rep _ _ _ _ _ _ H Hh) as (t' & r & -> & [(-> & -> & Hp)|(-> & l1 & l2 & HL & Hr)]).
    + eexists _, _, L. split; [done|]. split; [done|]. intros q. split; [|tauto].
      intros Hq. split; [|done]. intros ->. apply Hp. destruct Hq as [h' Hq].
      pose proof (rep_hash _ _ _ _ _ _ H Hq). congruence.
    + eexists _, _, _. split; [done|]. split; [done|]. intros q. by apply (in_rem _ _ _ _ _ _ _ _ _ H).
  - destruct Hpre as [Hs [h Hp]]. destruct (strhash_some tab _ Hs) as [h2 Hh2].
    unfold hChange. rewrite Hh2. cbn [mbind option_bind].
    destruct (hRem_rep _ _ _ _ p h H) as (t' & r & -> & Hr); [by eapply rep_hash|].
    destruct Hr as [(_ & _ & Hr)|(-> & l1 & l2 & HL & Hr)]; [done|].
    assert (Hnp : ~ in_table (upd_list h (l1 ++ l2) L) p).
    { rewrite (in_rem _ _ _ _ _ _ _ _ _ H HL). tauto. }
    cbn [mbind option_bind]. eexists _, _, _. split; [done|]. split.
    + eapply rep_push.
      * by apply rep_set_name.
      * unfold set_name. by rewrite decide_True.
      * intros ?. apply Hnp. by exists h2.
    + intros q. rewrite in_upd. rewrite elem_of_cons.
      assert (Hq := in_rem _ _ _ _ _ _ _ _ q H HL). rewrite (in_split _ h2) in Hq.
      destruct (decide (q = p)) as [->|]; [|tauto]. split; [by exists h|auto].
  - destruct (strhash_some tab _ Hpre) as [h Hh].
    destruct (hSeek_rep _ _ _ _ ok _ _ H Hh) as (t' & r & -> & Hr).
    destruct (extract ok (L h)) as [[p l]|] eqn:He.
    + destruct Hr as [-> Hr]. eexists _, _, _. split; [done|]. split; [done|].
      intros q. rewrite in_upd, (in_split L h q). by rewrite (extract_perm _ _ _ _ He).
    + destruct Hr as [-> ->]. eexists _, _, _. split; [done|]. split; [done|]. done.
Qed.

(** [hSeekClient] is correct.  On a table that represents a set of
    clients it terminates; a client it returns is in the table, has one of
    the status bits asked for and the name asked for up to case, and is
    moved to the front of its bucket; when it returns null no client of the
    whole table has both. *)
Theorem hSeekClient_correct tab name status t L nick TMask :
  tab_rep tab name t L -> (forall p, in_table L p -> is_cstr (name p)) ->
  is_cstr nick -> nick <> [] ->
  exists t' r, hSeekClient tab name status t nick TMask = Some (t', r) /\
    match r with
    | Some p => in_table L p /\ Z.land (status p) TMask <> 0 /\ lower (name p) = lower nick /\
                exists h, strhash tab nick = Some h /\ heads t' !! h = Some p
    | None => t' = t /\
        forall p, in_table L p -> lower (name p) = lower nick -> Z.land (status p) TMask = 0
    end.
Proof.
  intros H Hcs Hns Hne. destruct (strhash_some tab _ Hne) as [h Hh]. unfold hSeekClient.
  match goal with |- context [hSeek _ ?f] => set (ok := f) end.
  destruct (hSeek_rep _ _ _ _ ok _ _ H Hh) as (t' & r & -> & Hr).
  exists t', r. split; [done|].
  destruct (extract ok (L h)) as [[p l]|] eqn:He; destruct Hr as [-> Hr].
  - apply extract_some in He as (l1 & l2 & HL & -> & Hok & _).
    assert (Hp : p ∈ L h) by (rewrite HL; set_solver).
    unfold ok in Hok. apply andb_prop in Hok as [Hst Hnm].
    apply strcmp_eqb_lower in Hnm; [|done|apply Hcs; by exists h].
    split; [by exists h|]. split; [|split; [done|]].
    + intros Hz. by rewrite Hz in Hst.
    + exists h. split; [done|]. destruct (Hr h) as (Hc & _).
      rewrite upd_list_eq in Hc. by destruct Hc.
  - subst t'. split; [done|]. intros p [h' Hp] Hl.
    pose proof (rep_hash _ _ _ _ _ _ H Hp) as Hph. rewrite (strhash_lower _ _ _ Hl), Hh in Hph.
    injection Hph as <-. apply extract_is_none in He. rewrite Forall_forall in He.
    specialize (He p Hp). unfold ok in He.
    rewrite (proj2 (strcmp_eqb_lower nick (name p) Hns (Hcs p (ex_intro _ h Hp)))) in He by done.
    rewrite andb_true_r in He. apply negb_false_iff in He. lia.
Qed.

(** ** The table of juped nicks *)
Definition probe (pos k : Z) : Z := (pos + k) mod JUPEHASHSIZE.

Record jinv (j : jupes) : Prop := {
  jinv_slots : forall pos s, jupeTable j !! pos = Some s ->
    0 <= pos < JUPEHASHSIZE /\ s <> [] /\ is_cstr s;
  jinv_count : Z.of_nat (size (jupeTable j)) = jupesCount j;
  jinv_max : jupesCount j <= JUPEMAX }.

(** A probe sequence from [pos] meets a slot equal to [nick] before an empty
    one. *)
Definition juped_at (j : jupes) (nick : cstring) (pos : Z) (k : nat) : Prop :=
  (forall i, (i < k)%nat -> slot j (probe pos (Z.of_nat i)) <> []) /\
  slot j (probe pos (Z.of_nat k)) <> [] /\ strcmp_eqb nick (slot j (probe pos (Z.of_nat k))) = true.

Lemma mask_probe pos : Z.land pos JUPEHASHMASK = probe pos 0.
Proof.
  unfold probe. rewrite Z.add_0_r. change JUPEHASHMASK with (Z.ones 12).
  by rewrite Z.land_ones.
Qed.

Lemma probe_mask pos k : probe (Z.land pos JUPEHASHMASK + 1) k = probe pos (k + 1).
Proof.
  rewrite mask_probe. unfold probe. rewrite Z.add_0_r, <- Z.add_assoc.
  rewrite Zplus_mod_idemp_l. f_equal. lia.
Qed.

Lemma probe_inj pos a b : 0 <= a < JUPEHASHSIZE -> 0 <= b < JUPEHASHSIZE -> probe pos a = probe pos b -> a = b.
Proof.
  unfold probe. intros Ha Hb H. change JUPEHASHSIZE with 4096 in *.
  pose proof (Z.div_mod (pos + a) 4096 ltac:(lia)). pose proof (Z.div_mod (pos + b) 4096 ltac:(lia)). lia.
Qed.

(** With at most 64 slots in use, one of 65 successive slots is free. *)
Lemma free_slot j pos : jinv j -> exists k, (k < 65)%nat /\ slot j (probe pos (Z.of_nat k)) = [].
Proof.
  intros Hj.
  destruct (decide (Exists (fun k => slot j (probe pos (Z.of_nat k)) = []) (seq 0 65))) as [He|Hn].
  - apply Exists_exists in He as (k & Hk & He). apply elem_of_seq in Hk. exists k. split; [lia|done].
  - exfalso. apply not_Exists_Forall in Hn; [|intros ?; apply _]. rewrite Forall_forall in Hn.
    set (ps := map (fun k => probe pos (Z.of_nat k)) (seq 0 65)).
    assert (Hnd : NoDup ps).
    { apply NoDup_fmap_2_strong; [|apply NoDup_seq]. intros a b Ha Hb Hp.
      apply elem_of_seq in Ha, Hb. apply probe_inj in Hp; unfold JUPEHASHSIZE, JUPEHASHBITS; lia. }
    assert (Hs : (list_to_set ps : gset Z) ⊆ dom (jupeTable j)).
    { intros p. rewrite elem_of_list_to_set. unfold ps. rewrite list_elem_of_fmap.
      intros (k & -> & Hk). specialize (Hn k Hk).
      destruct (jupeTable j !! probe pos (Z.of_nat k)) eqn:E; [by apply elem_of_dom_2 in E|].
      exfalso. apply Hn. unfold slot. by rewrite E. }
    apply subseteq_size in Hs. rewrite size_list_to_set, size_dom in Hs by done.
    pose proof (jinv_count _ Hj). pose proof (jinv_max _ Hj).
    unfold ps in Hs. rewrite length_map, length_seq in Hs.
    change JUPEMAX with 64 in *. lia.
Qed.

Lemma juped_at_step j nick pos k :
  slot j (probe pos 0) <> [] -> juped_at j nick (Z.land pos JUPEHASHMASK + 1) k -> juped_at j nick pos (S k).
Proof.
  intros H0 (Hi & Hk & Hm). rewrite probe_mask in Hk, Hm.
  replace (Z.of_nat k + 1) with (Z.of_nat (S k)) in * by lia. split; [|done].
  intros i Hlt. destruct i as [|i]; [done|]. specialize (Hi i ltac:(lia)). rewrite probe_mask in Hi.
  by replace (Z.of_nat i + 1) with (Z.of_nat (S i)) in Hi by lia.
Qed.

Lemma juped_loop_true j nick pos k fuel :
  juped_at j nick pos k -> (k < fuel)%nat -> loop (juped_step nick j) fuel pos = Some true.
Proof.
  revert pos fuel. induction k as [|k IH]; intros pos fuel (Hi & Hk & Hm) Hf;
    destruct fuel as [|fuel]; try lia; cbn [loop]; unfold juped_step at 1; rewrite mask_probe.
  - change (Z.of_nat 0) with 0 in Hk, Hm. by destruct (slot j (probe pos 0)); [|rewrite Hm].
  - specialize (Hi 0%nat ltac:(lia)) as H0. change (Z.of_nat 0) with 0 in H0.
    destruct (slot j (probe pos 0)) as [|c s] eqn:E; [done|].
    destruct (strcmp_eqb nick (c :: s)); [done|].
    apply IH; [|lia]. rewrite <- mask_probe. split_and!.
    + intros i Hlt. rewrite probe_mask. replace (Z.of_nat i + 1) with (Z.of_nat (S i)) by lia.
      apply Hi. lia.
    + rewrite probe_mask. by replace (Z.of_nat k + 1) with (Z.of_nat (S k)) by lia.
    + rewrite probe_mask. by replace (Z.of_nat k + 1) with (Z.of_nat (S k)) by lia.
Qed.

(** The walk of [isNickJuped] ends, and returns true only at a match. *)
Lemma juped_loop_total j nick pos k fuel :
  slot j (probe pos (Z.of_nat k)) = [] -> (k < fuel)%nat ->
  exists b, loop (juped_step nick j) fuel pos = Some b /\
    (b = true -> exists k', (k' < k)%nat /\ juped_at j nick pos k').
Proof.
  revert pos fuel. induction k as [|k IH]; intros pos fuel Hk Hf;
    destruct fuel as [|fuel]; try lia; cbn [loop]; unfold juped_step at 1; rewrite mask_probe.
  - change (Z.of_nat 0) with 0 in Hk. rewrite Hk. by exists false.
  - destruct (slot j (probe pos 0)) as [|c s] eqn:E; [by exists false|].
    destruct (strcmp_eqb nick (c :: s)) eqn:Hm.
    + exists true. split; [done|]. intros _. exists 0%nat. split; [lia|]. split; [lia|]. change (Z.of_nat 0) with 0. by rewrite E.
    + destruct (IH (probe pos 0 + 1) fuel) as (b & -> & Hb); [|lia|].
      * rewrite <- mask_probe, probe_mask. by replace (Z.of_nat k + 1) with (Z.of_nat (S k)) by lia.
      * exists b. split; [done|]. intros Ht. destruct (Hb Ht) as (k' & Hlt & Hat). exists (S k').
        split; [lia|]. apply juped_at_step; [by rewrite E|]. by rewrite mask_probe.
Qed.

(** Adding one nick. *)
Definition extends (j j' : jupes) : Prop := forall q, slot j q <> [] -> slot j' q = slot j q.

Lemma extends_juped j j' nick pos k : extends j j' -> juped_at j nick pos k -> juped_at j' nick pos k.
Proof.
  intros He (Hi & Hk & Hm). split_and!.
  - intros i Hlt. rewrite He; auto.
  - by rewrite He.
  - by rewrite He.
Qed.

Lemma jinv_add j pos s :
  jinv j -> 0 <= pos < JUPEHASHSIZE -> slot j pos = [] -> jupesCount j <> JUPEMAX -> s <> [] -> is_cstr s ->
  jinv {| jupeTable := <[pos := s]> (jupeTable j); jupesCount := jupesCount j + 1 |}.
Proof.
  intros Hj Hp Hs Hc Hne Hcs. assert (Hn : jupeTable j !! pos = None).
  { unfold slot in Hs. destruct (jupeTable j !! pos) eqn:E; [|done].
    apply (jinv_slots _ Hj) in E as (_ & ? & _). done. }
  pose proof (jinv_count _ Hj). pose proof (jinv_max _ Hj). constructor; cbn [jupeTable jupesCount].
  - intros q t. rewrite lookup_insert_Some. intros [[<- <-]|[_ E]]; [done|]. by apply (jinv_slots _ Hj).
  - rewrite map_size_insert_None by done. lia.
  - lia.
Qed.

(** What one nick does to the table, at the [k]-th probe or before. *)
Definition add_post (one : cstring) (j : jupes) (pos : Z) (k : nat) (j' : jupes) (full : bool) : Prop :=
  jinv j' /\ extends j j' /\ (full = true -> jupesCount j' = JUPEMAX) /\
  (full = false -> (length one <= NICKLEN)%nat -> exists k', (k' <= k)%nat /\ juped_at j' one pos k').

Lemma add_here one j pos k :
  jinv j -> one <> [] -> is_cstr one -> slot j (probe pos 0) = [] ->
  let j' := {| jupeTable := <[probe pos 0 := ircd_strncpy one NICKLEN]> (jupeTable j);
               jupesCount := jupesCount j + 1 |} in
  jupesCount j <> JUPEMAX -> add_post one j pos k j' false.
Proof.
  intros Hj Hne Hcs E j' Hm.
  assert (Hs : slot j' (probe pos 0) = take NICKLEN one) by (unfold slot; simpl; by rewrite lookup_insert_eq).
  assert (Hne' : take NICKLEN one <> []) by by destruct one.
  split_and!; [| |done|].
  - apply jinv_add; try done; [by apply Z.mod_pos_bound|]. by apply Forall_take.
  - intros q Hq. unfold slot. simpl. rewrite lookup_insert_ne; [done|]. by intros <-.
  - intros _ Hl. exists 0%nat. split; [lia|]. rewrite take_ge in Hs by done.
    split; [lia|]. change (Z.of_nat 0) with 0. rewrite Hs. split; [done|apply strcmp_eqb_refl].
Qed.

Lemma addjupe_loop_spec j one pos k fuel :
  jinv j -> one <> [] -> is_cstr one -> slot j (probe pos (Z.of_nat k)) = [] -> (k < fuel)%nat ->
  exists j' full, loop (addjupe_step one j) fuel pos = Some (j', full) /\ add_post one j pos k j' full.
Proof.
  intros Hj Hne Hcs. revert pos fuel. induction k as [|k IH]; intros pos fuel Hk Hf;
    destruct fuel as [|fuel]; try lia; cbn [loop]; unfold addjupe_step at 1; rewrite mask_probe;
    destruct (slot j (probe pos 0)) as [|c s] eqn:E;
    try (change (Z.of_nat 0) with 0 in Hk; congruence).
  1,2: destruct (Z.eqb_spec (jupesCount j) JUPEMAX) as [Hm|Hm];
    [exists j, true; by split_and!|]; eexists _, false; split; [done|]; by apply add_here.
  destruct (strcmp_eqb one (c :: s)) eqn:Hm.
  - exists j, false. split; [done|]. split_and!; [done|done|done|]. intros _ _. exists 0%nat.
    split; [lia|]. split; [lia|]. change (Z.of_nat 0) with 0. by rewrite E.
  - destruct (IH (probe pos 0 + 1) fuel) as (j' & full & -> & Hj' & He & Hfull & Hat); [|lia|].
    + rewrite <- mask_probe, probe_mask. by replace (Z.of_nat k + 1) with (Z.of_nat (S k)) by lia.
    + exists j', full. split; [done|]. split_and!; [done..|]. intros Hfl Hl.
      destruct (Hat Hfl Hl) as (k' & Hk' & Hjt). exists (S k'). split; [lia|].
      apply juped_at_step; [|by rewrite mask_probe]. rewrite He; by rewrite E.
Qed.

(** A nick is juped when [isNickJuped] finds it. *)
Definition juped (tab : list Z) (j : jupes) (n : cstring) : Prop :=
  exists h k, strhash tab n = Some h /\ (k < 65)%nat /\ juped_at j n h k.

Lemma isNickJuped_spec tab j n :
  jinv j -> exists b, isNickJuped tab j n = Some b /\ (b = true <-> juped tab j n).
Proof.
  intros Hj. destruct n as [|c n].
  - exists false. split; [done|]. split; [done|]. by intros (h & k & Hh & _).
  - destruct (strhash_some tab (c :: n) ltac:(done)) as [h Hh].
    destruct (free_slot j h Hj) as (k & Hk & Hs).
    destruct (juped_loop_total j (c :: n) h k jupe_fuel Hs) as (b & Hb & Ht); [by (apply Nat.lt_trans with 65%nat; [|apply Nat.ltb_lt; vm_compute])|].
    exists b. unfold isNickJuped. rewrite Hh. cbn [mbind option_bind]. split; [done|]. split.
    + intros ->. destruct (Ht eq_refl) as (k' & Hlt & Hat). exists h, k'. split_and!; [done|lia|done].
    + intros (h' & k' & Hh' & Hk' & Hat). simplify_eq.
      rewrite (juped_loop_true _ _ _ k' jupe_fuel Hat) in Hb; [by simplify_eq|].
      by (apply Nat.lt_trans with 65%nat; [|apply Nat.ltb_lt; vm_compute]).
Qed.

Lemma juped_lower tab j n n' :
  jinv j -> is_cstr n -> is_cstr n' -> lower n = lower n' -> juped tab j n -> juped tab j n'.
Proof.
  intros Hj Hn Hn' Hl (h & k & Hh & Hk & Hi & Hs & Hm). exists h, k.
  rewrite <- (strhash_lower _ _ _ Hl). split; [done|]. split; [done|]. split; [done|]. split; [done|].
  assert (Hc : is_cstr (slot j (probe h (Z.of_nat k)))).
  { unfold slot in *. destruct (jupeTable j !! _) eqn:E; [|done]. by apply (jinv_slots _ Hj) in E as (_ & _ & ?). }
  apply strcmp_eqb_lower in Hm; [|done|done]. apply strcmp_eqb_lower; [done|done|congruence].
Qed.

Lemma extends_all tab j j' n : extends j j' -> juped tab j n -> juped tab j' n.
Proof. intros He (h & k & Hh & Hk & Hat). exists h, k. eauto using extends_juped. Qed.

Lemma addjupes_loop_spec tab n : forall j p,
  jinv j -> Forall is_cstr (words_opt ","%char p) -> (pos_len p < n)%nat ->
  exists j' r, addjupes_loop n tab j p = Some (j', r) /\ jinv j' /\
    (forall m, juped tab j m -> juped tab j' m) /\
    (r = 0 \/ r = 1 /\ jupesCount j' = JUPEMAX) /\
    (r = 0 -> forall w, w ∈ words_opt ","%char p -> (length w <= NICKLEN)%nat -> juped tab j' w).
Proof.
  induction n as [|n IH]; intros j p Hj Hcs Hn; [lia|]. cbn [addjupes_loop].
  change (str ",") with [","%char]. pose proof (ircd_strtok_words ","%char p) as Hw.
  destruct (ircd_strtok p [","%char]) as [[w p']|].
  - destruct Hw as (Hw & Hne & Hlt). rewrite Hw in *. apply Forall_cons in Hcs as [Hcw Hcs].
    destruct w as [|c w]; [done|]. destruct (strhash_some tab (c :: w) ltac:(done)) as [h Hh].
    rewrite Hh. cbn [mbind option_bind]. destruct (free_slot j h Hj) as (k & Hk & Hs).
    destruct (addjupe_loop_spec j (c :: w) h k jupe_fuel) as (j1 & full & -> & Hj1 & He & Hfull & Hat);
      [done..| |].
    { by (apply Nat.lt_trans with 65%nat; [|apply Nat.ltb_lt; vm_compute]). }
    cbn [mbind option_bind]. destruct full.
    + exists j1, 1. split; [done|]. split_and!; [done| |by right; auto|done]. eauto using extends_all.
    + destruct (IH j1 p' Hj1 Hcs ltac:(lia)) as (j' & r & -> & Hj' & Hext & Hr & Hall).
      exists j', r. split; [done|]. split_and!; [done|eauto using extends_all|done|].
      intros Hr0 v. rewrite elem_of_cons. intros [->|Hv] Hl; [|by apply Hall].
      destruct (Hat eq_refl Hl) as (k' & Hk' & Hjt). apply Hext. exists h, k'. split_and!; [done|lia|done].
  - rewrite Hw. exists j, 0. split; [done|]. split_and!; [done|done|by left|]. intros _ w Hin. set_solver.
Qed.

Lemma pieces_cstr token s : is_cstr s -> Forall is_cstr (pieces token s).
Proof.
  induction s as [|c s IH]; simpl; [by repeat constructor|]. intros Hs. apply is_cstr_cons in Hs as [Hc Hs].
  specialize (IH Hs). destruct (c =c token); [by repeat constructor|].
  destruct (pieces token s) as [|w r]; [repeat constructor; done|].
  apply Forall_cons in IH as [Hw Hr]. constructor; [by apply is_cstr_cons|done].
Qed.

Lemma words_cstr token s : is_cstr s -> Forall is_cstr (words token s).
Proof.
  intros Hs. pose proof (pieces_cstr token s Hs) as Hp. unfold words. induction Hp as [|w r Hw _ IH]; simpl; [done|].
  destruct (nonempty w); [by constructor|done].
Qed.

(** juping nicks works.  From a table within its limit (at most 64 of
    the 4096 slots), [addNickJupes] ends; the table it leaves is again within
    the limit and still jupes every nick it juped before; the result is not
    zero only when the table is full, and when it is zero [isNickJuped]
    answers yes for every listed nick of at most 15 characters, in any
    case. *)
Theorem addNickJupes_juped tab j nicks :
  jinv j -> is_cstr nicks ->
  exists j' r, addNickJupes tab j nicks = Some (j', r) /\ jinv j' /\
    (forall n, isNickJuped tab j n = Some true -> isNickJuped tab j' n = Some true) /\
    (r = 0 \/ r = 1 /\ jupesCount j' = JUPEMAX) /\
    (r = 0 -> forall w n, w ∈ words ","%char (take BUFSIZE nicks) -> (length w <= NICKLEN)%nat ->
       is_cstr n -> lower n = lower w -> isNickJuped tab j' n = Some true).
Proof.
  intros Hj Hcs. set (t := take BUFSIZE nicks).
  assert (Hct : Forall is_cstr (words ","%char t)) by (apply words_cstr; by apply Forall_take).
  assert (Htrue : forall j n, jinv j -> juped tab j n <-> isNickJuped tab j n = Some true).
  { intros j0 n Hj0. destruct (isNickJuped_spec tab j0 n Hj0) as (b & -> & <-). split; congruence. }
  assert (He : exists j' r, addNickJupes tab j nicks = Some (j', r) /\ jinv j' /\
    (forall m, juped tab j m -> juped tab j' m) /\
    (r = 0 \/ r = 1 /\ jupesCount j' = JUPEMAX) /\
    (r = 0 -> forall w, w ∈ words ","%char t -> (length w <= NICKLEN)%nat -> juped tab j' w)).
  { destruct nicks as [|c nicks].
    2: { apply (addjupes_loop_spec tab (S (S (length t))) j (Some t)); [done|done|]. unfold pos_len. lia. }
    exists j, 0. split; [done|]. split_and!; [done|done|by left|]. intros _ w Hw. set_solver. }
  destruct He as (j' & r & He & Hj' & Hext & Hr & Hall). exists j', r. split_and!; [done|done| |done|].
  - intros n Hn. apply Htrue; [done|]. apply Hext. by apply Htrue.
  - intros Hr0 w n Hw Hl Hn Hlow. apply Htrue; [done|]. rewrite Forall_forall in Hct.
    apply (juped_lower tab j' w n); auto.
Qed.

(** ** Witnesses *)
Definition ex_name (p : ptr) : cstring := if decide (p = 1%positive) then str "Nick" else str "other".

Lemma empty_rep tab name : tab_rep tab name empty_table (fun _ => []).
Proof. intros h. split; [done|]. split; constructor. Qed.

Definition ex_bucket : Z := default 0 (strhash crc_table (str "Nick")).

Definition ex_members : Z -> list ptr := upd_list ex_bucket [1%positive] (fun _ => []).

Definition ex_table : htable :=
  set_head ex_bucket (Some 1%positive) (set_hnext 1%positive None empty_table).

Lemma ex_rep : tab_rep crc_table ex_name ex_table ex_members.
Proof.
  apply (rep_push crc_table ex_name empty_table (fun _ => []) 1%positive ex_bucket).
  - apply empty_rep.
  - by vm_compute.
  - set_solver.
Qed.

Lemma ex_members_in p : in_table ex_members p <-> p = 1%positive.
Proof.
  unfold ex_members. rewrite in_upd. split; [|intros ->; left; set_solver].
  intros [Hp|(h & _ & Hp)]; set_solver.
Qed.

Lemma hash_ops_refine_witness :
  exists name' t' L', run_hop crc_table (OpChange 1%positive (str "Nick2")) (ex_name, ex_table)
      = Some (name', t') /\ tab_rep crc_table name' t' L' /\
    forall q, in_table L' q <-> hop_members ex_members (OpChange 1%positive (str "Nick2")) q.
Proof.
  apply (hash_ops_refine crc_table ex_name ex_table ex_members); [apply ex_rep|].
  split; [done|]. by apply ex_members_in.
Defined.

Lemma hSeekClient_correct_witness :
  exists t' r, hSeekClient crc_table ex_name (fun _ => 1) ex_table (str "nICK") 3 = Some (t', r) /\
    match r with
    | Some p => in_table ex_members p /\ Z.land 1 3 <> 0 /\ lower (ex_name p) = lower (str "nICK") /\
                exists h, strhash crc_table (str "nICK") = Some h /\ heads t' !! h = Some p
    | None => t' = ex_table /\
        forall p, in_table ex_members p -> lower (ex_name p) = lower (str "nICK") -> Z.land 1 3 = 0
    end.
Proof.
  apply (hSeekClient_correct crc_table ex_name (fun _ => 1) ex_table ex_members (str "nICK") 3).
  - apply ex_rep.
  - intros p Hp. apply ex_members_in in Hp as ->. by apply (bool_decide_unpack _).
  - by apply (bool_decide_unpack _).
  - done.
Defined.

Example hSeekClient_ex :
  option_map snd (hSeekClient crc_table ex_name (fun _ => 1) ex_table (str "nICK") 3) = Some (Some 1%positive).
Proof. by vm_compute. Qed.

Lemma no_jupes_inv : jinv no_jupes.
Proof.
  constructor; simpl; [|done|done]. intros pos s Hs. by rewrite lookup_empty in Hs.
Qed.

Lemma addNickJupes_juped_witness :
  exists j' r, addNickJupes crc_table no_jupes (str "NickServ,ChanServ") = Some (j', r) /\ jinv j' /\
    (forall n, isNickJuped crc_table no_jupes n = Some true -> isNickJuped crc_table j' n = Some true) /\
    (r = 0 \/ r = 1 /\ jupesCount j' = JUPEMAX) /\
    (r = 0 -> forall w n, w ∈ words ","%char (take BUFSIZE (str "NickServ,ChanServ")) ->
       (length w <= NICKLEN)%nat -> is_cstr n -> lower n = lower w -> isNickJuped crc_table j' n = Some true).
Proof.
  apply (addNickJupes_juped crc_table no_jupes (str "NickServ,ChanServ")).
  - apply no_jupes_inv.
  - by apply (bool_decide_unpack _).
Defined.
