(* ===== verification/Destruct.v ===== *)
(** * Scheduled destruction of channels ([ircd/destruct_event.c])

    Two queues of events, one of a minute and one of 48 hours, each doubly
    linked from its bottom, the oldest event, to its top.  The field
    [destruct_event] of the channels is a map from channels to events. *)
From S2P Require Import Prelude Chain Dlist.
From Stdlib Require Import Sorting.Sorted.
From stdpp Require Import options.
Open Scope Z_scope.

Record DestructEvent := { expires : Z; ev_chptr : ptr }.

Record queue := { top : option ptr; bottom : option ptr }.

Record devents := {
  evs : gmap ptr DestructEvent;
  next_event : gmap ptr ptr;
  prev_event : gmap ptr ptr;
  minute_list : queue;
  days_list : queue;
  destruct_event : gmap ptr ptr
}.

Definition no_events : devents :=
  {| evs := ∅; next_event := ∅; prev_event := ∅; minute_list := {| top := None; bottom := None |};
     days_list := {| top := None; bottom := None |}; destruct_event := ∅ |}.

Inductive delay := Minute | Days.

#[export] Instance delay_eq_dec : EqDecision delay.
Proof. solve_decision. Defined.

Definition delay_secs (d : delay) : Z := match d with Minute => 60 | Days => 172800 end.

Definition get_queue (d : delay) (st : devents) : queue :=
  match d with Minute => minute_list st | Days => days_list st end.

Definition set_queue (d : delay) (q : queue) (st : devents) : devents :=
  {| evs := evs st; next_event := next_event st; prev_event := prev_event st;
     minute_list := match d with Minute => q | Days => minute_list st end;
     days_list := match d with Minute => days_list st | Days => q end;
     destruct_event := destruct_event st |}.

(** [schedule_destruct_event_1m] and [schedule_destruct_event_48h]. *)
Definition schedule (d : delay) (TStime : Z) (chptr : ptr) (st : devents) : devents :=
  match destruct_event st !! chptr with
  | Some _ => st
  | None =>
      let new_event := fresh (dom (evs st)) in
      let q := get_queue d st in
      let nx := set_link new_event None (next_event st) in
      let pv := set_link new_event (top q) (prev_event st) in
      let nx := match top q with Some t => set_link t (Some new_event) nx | None => nx end in
      set_queue d {| top := Some new_event;
                     bottom := match bottom q with Some b => Some b | None => Some new_event end |}
        {| evs := <[new_event := {| expires := TStime + delay_secs d; ev_chptr := chptr |}]> (evs st);
           next_event := nx; prev_event := pv; minute_list := minute_list st; days_list := days_list st;
           destruct_event := <[chptr := new_event]> (destruct_event st) |}
  end.

Definition schedule_destruct_event_1m := schedule Minute.
Definition schedule_destruct_event_48h := schedule Days.

(** The correction of the top and the bottom of a queue. *)
Definition correct (event : ptr) (nx pv : gmap ptr ptr) (q : queue) : queue :=
  {| top := if decide (top q = Some event) then pv !! event else top q;
     bottom := if decide (bottom q = Some event) then nx !! event else bottom q |}.

(** [None]: the channel has no event and a null pointer is followed. *)
Definition remove_destruct_event (chptr : ptr) (st : devents) : option devents :=
  event ← destruct_event st !! chptr;
  let nx := match prev_event st !! event with
            | Some q => set_link q (next_event st !! event) (next_event st)
            | None => next_event st
            end in
  let pv := match nx !! event with
            | Some n => set_link n (prev_event st !! event) (prev_event st)
            | None => prev_event st
            end in
  Some {| evs := delete event (evs st); next_event := nx; prev_event := pv;
          minute_list := correct event nx pv (minute_list st);
          days_list := correct event nx pv (days_list st);
          destruct_event := delete chptr (destruct_event st) |}.

(** The event at the bottom of a queue, when it has expired. *)
Definition expired (d : delay) (TStime : Z) (st : devents) : option DestructEvent :=
  match bottom (get_queue d st) with
  | Some b => ev ← evs st !! b; if expires ev <=? TStime then Some ev else None
  | None => None
  end.

(** ** The two queues as lists of channels *)

Definition q_rep (st : devents) (q : queue) (l : list ptr) : Prop :=
  dlist (next_event st) (prev_event st) None (bottom q) l /\ top q = last l.

Definition exp_of (st : devents) (e : ptr) : Z := match evs st !! e with Some ev => expires ev | None => 0 end.
Definition chan_of (st : devents) (e : ptr) : ptr := match evs st !! e with Some ev => ev_chptr ev | None => 1%positive end.

(** [L d] is the list of the events of a queue, oldest first. *)
Definition all_events (L : delay -> list ptr) : list ptr := L Minute ++ L Days.

Record ev_rep (st : devents) (L : delay -> list ptr) : Prop := {
  er_queue : forall d, q_rep st (get_queue d st) (L d);
  er_nodup : NoDup (all_events L);
  er_dom : forall e, e ∈ all_events L <-> e ∈ dom (evs st);
  er_chan : forall c e, destruct_event st !! c = Some e <-> e ∈ dom (evs st) /\ chan_of st e = c;
  er_sorted : forall d, StronglySorted (fun a b => exp_of st a <= exp_of st b) (L d)
}.

Lemma no_events_rep : ev_rep no_events (fun _ => []).
Proof.
  split.
  - intros []; done.
  - constructor.
  - intros e. cbn. rewrite dom_empty, elem_of_nil. split; [done|]. by rewrite elem_of_empty.
  - intros c e. cbn. rewrite lookup_empty, dom_empty, elem_of_empty. split; [done|tauto].
  - constructor.
Qed.

Lemma q_rep_frame st st' q l :
  (forall y, y ∈ l -> next_event st' !! y = next_event st !! y /\ prev_event st' !! y = prev_event st !! y) ->
  q_rep st q l -> q_rep st' q l.
Proof. intros Hf [Hd Ht]. split; [|done]. by eapply dlist_frame. Qed.

Definition upd_queue (d : delay) (l : list ptr) (L : delay -> list ptr) : delay -> list ptr :=
  fun d' => if decide (d' = d) then l else L d'.

Lemma upd_queue_eq d l L : upd_queue d l L d = l.
Proof. unfold upd_queue. by rewrite decide_True. Qed.

Lemma upd_queue_ne d d' l L : d' <> d -> upd_queue d l L d' = L d'.
Proof. intros. unfold upd_queue. by rewrite decide_False. Qed.

Lemma get_set_queue d d' q st : get_queue d' (set_queue d q st) = if decide (d' = d) then q else get_queue d' st.
Proof. by destruct d, d'. Qed.

Lemma in_all L e : e ∈ all_events L <-> exists d, e ∈ L d.
Proof.
  unfold all_events. rewrite elem_of_app. split; [intros [H|H]; eauto|]. intros [[] H]; auto.
Qed.

Lemma all_disjoint L d d' e : NoDup (all_events L) -> e ∈ L d -> e ∈ L d' -> d = d'.
Proof.
  unfold all_events. rewrite NoDup_app. intros (_ & Hdis & _) H1 H2. destruct d, d'; try done; exfalso; by eapply Hdis.
Qed.

Lemma all_nodup L d : NoDup (all_events L) -> NoDup (L d).
Proof. unfold all_events. rewrite NoDup_app. intros (H1 & _ & H2). by destruct d. Qed.

Lemma all_events_nodup L : (forall d, NoDup (L d)) -> (forall d d' e, e ∈ L d -> e ∈ L d' -> d = d') -> NoDup (all_events L).
Proof. intros H1 H2. apply NoDup_app. split_and!; [apply H1| |apply H1]. intros e Ha Hb. by specialize (H2 _ _ _ Ha Hb). Qed.

Section schedule.
Context (d : delay) (now : Z) (c : ptr) (st : devents) (L : delay -> list ptr).
Hypothesis H : ev_rep st L.
Hypothesis Hc : destruct_event st !! c = None.
(** The clock has not gone back since the events of that queue. *)
Hypothesis Hexp : Forall (fun e => exp_of st e <= now + delay_secs d) (L d).

Definition new_event : ptr := fresh (dom (evs st)).

Lemma schedule_fields : let st' := schedule d now c st in
  evs st' = <[new_event := {| expires := now + delay_secs d; ev_chptr := c |}]> (evs st) /\
  destruct_event st' = <[c := new_event]> (destruct_event st) /\
  (forall d', d' <> d -> get_queue d' st' = get_queue d' st) /\
  top (get_queue d st') = Some new_event /\
  bottom (get_queue d st') = match L d with [] => Some new_event | _ => bottom (get_queue d st) end /\
  next_event st' = match last (L d) with
                   | Some t => set_link t (Some new_event) (set_link new_event None (next_event st))
                   | None => set_link new_event None (next_event st)
                   end /\
  prev_event st' = set_link new_event (last (L d)) (prev_event st).
Proof using H Hc.
  clear Hexp. destruct (er_queue _ _ H d) as [Hd Ht]. unfold schedule. rewrite Hc, Ht.
  assert (Hb : bottom (get_queue d st) = None <-> L d = []).
  { destruct (L d); [done|]. destruct Hd as (-> & _). done. }
  cbv zeta. split_and!; try (by destruct d).
  - intros d' Hd'. rewrite get_set_queue, decide_False by done. by destruct d'.
  - rewrite get_set_queue, decide_True by done. cbn [bottom].
    destruct (L d) as [|y l]; [by rewrite (proj2 Hb)|]. destruct (bottom (get_queue d st)); [done|].
    by discriminate (proj1 Hb).
Qed.

Lemma new_event_new : (new_event ∉ dom (evs st)) /\ (forall d', new_event ∉ L d').
Proof using H.
  assert (He : new_event ∉ dom (evs st)) by apply is_fresh. split; [done|]. intros d' Hin.
  apply He, (er_dom _ _ H), in_all. by exists d'.
Qed.

Lemma schedule_rep : ev_rep (schedule d now c st) (upd_queue d (L d ++ [new_event]) L).
Proof using H Hc Hexp.
  destruct schedule_fields as (Fe & Fd & Fq & Ft & Fb & Fn & Fp). destruct new_event_new as [Hne HneL].
  set (st' := schedule d now c st) in *. pose proof (er_nodup _ _ H) as Hnd.
  assert (Hexp' : forall d' y, y ∈ L d' -> exp_of st' y = exp_of st y /\ y <> new_event).
  { intros d' y Hy. assert (y <> new_event) by (intros ->; by apply (HneL d')). split; [|done].
    unfold exp_of. by rewrite Fe, lookup_insert_ne. }
  assert (Hself : exp_of st' new_event = now + delay_secs d) by (unfold exp_of; by rewrite Fe, lookup_insert_eq).
  split.
  - intros d'. destruct (decide (d' = d)) as [->|Hd].
    + rewrite upd_queue_eq. split; [|rewrite Ft; by rewrite last_snoc]. rewrite Fn, Fp, Fb.
      destruct (er_queue _ _ H d) as [Hq _].
      pose proof (dlist_snoc _ _ _ new_event _ _ (HneL d) (all_nodup _ d Hnd) Hq) as Hs.
      assert (match last (L d) with Some t => Some t | None => None end = last (L d)) as E by (by destruct (last (L d))).
      by rewrite E in Hs.
    + rewrite upd_queue_ne, Fq by done. apply (q_rep_frame st); [|apply (er_queue _ _ H)].
      intros y Hy. destruct (Hexp' _ _ Hy) as [_ Hyn]. rewrite Fn, Fp, set_link_ne by done. split; [|done].
      destruct (last (L d)) as [t|] eqn:E; [|by rewrite set_link_ne]. rewrite !set_link_ne; [done|done|].
      intros ->. apply Hd. apply (all_disjoint L d' d y Hnd Hy). apply last_Some in E as [l' ->]. apply elem_of_app. right. by left.
  - apply all_events_nodup.
    + intros d'. destruct (decide (d' = d)) as [->|Hd]; [rewrite upd_queue_eq|rewrite upd_queue_ne by done; by apply all_nodup].
      apply NoDup_app. split_and!; [by apply all_nodup| |apply NoDup_singleton]. intros y Hy Hyn.
      apply list_elem_of_singleton in Hyn as ->. by apply (HneL d).
    + intros d1 d2 y. unfold upd_queue. repeat case_decide; subst; try done; rewrite ?elem_of_app, ?list_elem_of_singleton.
      * intros [Hy| ->] Hy2; [by eapply all_disjoint|]. by destruct (HneL d2).
      * intros Hy2 [Hy| ->]; [by eapply all_disjoint|]. by destruct (HneL d1).
      * by apply all_disjoint.
  - intros y. rewrite in_all, Fe, dom_insert, elem_of_union, elem_of_singleton, <- (er_dom _ _ H), in_all. split.
    + intros [d' Hy]. unfold upd_queue in Hy. case_decide; [subst; apply elem_of_app in Hy as [Hy|Hy]|]; [eauto|left; by apply list_elem_of_singleton in Hy|eauto].
    + intros [->|[d' Hy]]; [exists d; rewrite upd_queue_eq; apply elem_of_app; right; by left|].
      exists d'. unfold upd_queue. case_decide; [subst; apply elem_of_app; by left|done].
  - intros c' y. rewrite Fd, Fe, dom_insert, elem_of_union, elem_of_singleton. unfold chan_of. rewrite Fe.
    destruct (decide (y = new_event)) as [->|Hy].
    + rewrite lookup_insert_eq. cbn [ev_chptr]. destruct (decide (c' = c)) as [->|Hcc]; [rewrite lookup_insert_eq; naive_solver|].
      rewrite lookup_insert_ne, (er_chan _ _ H) by done. split; [tauto|]. intros [_ ?]. congruence.
    + rewrite (lookup_insert_ne (evs st)) by done. destruct (decide (c' = c)) as [->|Hcc].
      * rewrite lookup_insert_eq. split; [congruence|]. intros [[?|Hyd] Hch]; [done|].
        assert (destruct_event st !! c = Some y) by (by apply (er_chan _ _ H)). congruence.
      * rewrite lookup_insert_ne, (er_chan _ _ H) by done. unfold chan_of. tauto.
  - intros d'. destruct (decide (d' = d)) as [->|Hd]; [rewrite upd_queue_eq|rewrite upd_queue_ne by done].
    + apply sorted_snoc.
      * apply (sorted_ext (exp_of st)); [intros e He; by destruct (Hexp' _ _ He)|apply (er_sorted _ _ H)].
      * rewrite Forall_forall in Hexp |- *. intros y Hy. destruct (Hexp' _ _ Hy) as [-> _]. rewrite Hself. by apply Hexp.
    + apply (sorted_ext (exp_of st)); [intros e He; by destruct (Hexp' _ _ He)|apply (er_sorted _ _ H)].
Qed.
End schedule.

Section remove.
Context (c e : ptr) (st : devents) (L : delay -> list ptr).
Hypothesis H : ev_rep st L.
Hypothesis He : destruct_event st !! c = Some e.

Lemma remove_rep : exists d l1 l2 st', L d = l1 ++ e :: l2 /\
  remove_destruct_event c st = Some st' /\ ev_rep st' (upd_queue d (l1 ++ l2) L) /\
  evs st' = delete e (evs st) /\ destruct_event st' = delete c (destruct_event st).
Proof using H He.
  destruct (proj1 (er_chan _ _ H c e) He) as [Hdom Hch]. pose proof (proj2 (er_dom _ _ H e) Hdom) as Hin.
  apply in_all in Hin as [d Hin]. apply list_elem_of_split in Hin as (l1 & l2 & HL).
  pose proof (er_nodup _ _ H) as Hnd. pose proof (all_nodup _ d Hnd) as Hndd. rewrite HL in Hndd.
  destruct (er_queue _ _ H d) as [Hd Ht]. rewrite HL in Hd, Ht.
  destruct (dlist_app _ _ _ _ _ _ _ Hd) as (Hpv & Hd2 & Hhead & Hlast).
  assert (Hnx : next_event st !! e = head l2) by (destruct l2 as [|n l2]; [done|by destruct Hd2]).
  pose proof (NoDup_drop_middle _ _ _ Hndd) as [Hel Hndl]. apply not_elem_of_app in Hel as [Hel1 Hel2].
  assert (Hother : forall d' y, y ∈ L d' -> d' <> d -> (y ∉ l1 ++ e :: l2)).
  { intros d' y Hy Hd' Hy'. apply Hd', (all_disjoint L d' d y Hnd Hy). by rewrite HL. }
  unfold remove_destruct_event. rewrite He. cbn [mbind option_bind].
  set (nx := match prev_event st !! e with Some q => set_link q (next_event st !! e) (next_event st) | None => next_event st end).
  assert (Hprev : prev_event st !! e = last l1) by (rewrite Hpv; by destruct (last l1)).
  assert (Hla : forall q, last l1 = Some q -> q ∈ l1) by (intros q Hq; apply last_Some in Hq as [l' ->]; apply elem_of_app; right; by left).
  assert (Hhd : forall n, head l2 = Some n -> n ∈ l2) by (intros n Hn; destruct l2; [done|]; injection Hn as ->; left).
  assert (Hnxe : nx !! e = head l2).
  { unfold nx. rewrite Hprev, Hnx. destruct (last l1) as [q|] eqn:E; [|done]. rewrite set_link_ne; [done|]. intros ->. by apply Hel1, Hla. }
  assert (Hnxq : forall q, last l1 = Some q -> nx !! q = next_event st !! e).
  { intros q Hq. unfold nx. rewrite Hprev, Hq. apply set_link_eq. }
  assert (Hnxy : forall y, last l1 <> Some y -> nx !! y = next_event st !! y).
  { intros y Hy. unfold nx. rewrite Hprev. destruct (last l1); [|done]. apply set_link_ne. congruence. }
  set (pv := match nx !! e with Some n => set_link n (prev_event st !! e) (prev_event st) | None => prev_event st end).
  assert (Hpvn : forall n, head l2 = Some n -> pv !! n = prev_event st !! e).
  { intros n Hn. unfold pv. rewrite Hnxe, Hn. apply set_link_eq. }
  assert (Hpvy : forall y, head l2 <> Some y -> pv !! y = prev_event st !! y).
  { intros y Hy. unfold pv. rewrite Hnxe. destruct (head l2); [|done]. apply set_link_ne. congruence. }
  assert (Hpve : pv !! e = last l1) by (rewrite Hpvy; [done|]; intros E; by apply Hel2, Hhd).
  set (st' := Build_devents _ _ _ _ _ _).
  assert (Hq : forall d', get_queue d' st' = correct e nx pv (get_queue d' st)) by (by intros []).
  exists d, l1, l2, st'. split; [done|]. split; [done|]. split; [|done]. clear Hdom.
  assert (Hexp : forall d' y, y ∈ upd_queue d (l1 ++ l2) L d' -> y <> e /\ y ∈ L d').
  { intros d' y. unfold upd_queue. case_decide as E; [subst d'; rewrite HL; intros Hy; split; [intros ->; apply elem_of_app in Hy; tauto|set_solver]|].
    intros Hy. split; [|done]. intros ->. apply (Hother d' e Hy E). set_solver. }
  split.
  - intros d'. rewrite Hq. destruct (decide (d' = d)) as [->|Hd'].
    + rewrite upd_queue_eq. unfold correct. split; cbn [top bottom].
      * pose proof (dlist_remove_mid _ _ l1 e l2 None (bottom (get_queue d st)) Hndd Hd nx pv Hnxq Hpvn (fun y _ => Hnxy y) (fun y _ => Hpvy y)) as Hm.
        destruct l1 as [|z l1].
        -- rewrite (Hhead eq_refl), decide_True by done. rewrite Hnxe, <- Hnx. exact Hm.
        -- destruct Hd as (Hb & _). rewrite Hb in Hm |- *. rewrite decide_False; [exact Hm|].
           intros [= ->]. by apply Hel1; left.
      * rewrite Ht, last_app, last_cons. destruct (last l2) as [y|] eqn:E2.
        -- rewrite decide_False by (intros [= ->]; apply last_Some in E2 as [l' ->]; set_solver). by rewrite last_app, E2.
        -- rewrite decide_True by done. rewrite Hpve, last_app, E2. done.
    + rewrite upd_queue_ne by done. destruct (er_queue _ _ H d') as [Hd1 Ht1].
      assert (Hne : forall y, y ∈ L d' -> y <> e) by (intros y Hy ->; apply (Hother d' e Hy Hd'); set_solver).
      unfold correct. split; cbn [top bottom].
      * rewrite decide_False.
        -- eapply dlist_frame; [|exact Hd1]. intros y Hy. specialize (Hother d' y Hy Hd'). split; [apply Hnxy|apply Hpvy]; intros E.
           ++ apply Hother, elem_of_app. left. by apply Hla.
           ++ apply Hother, elem_of_app. right. right. by apply Hhd.
        -- intros E. destruct (L d') as [|y l]; [simpl in Hd1; congruence|]. destruct Hd1 as [Hb _]. apply (Hne y); [left|congruence].
      * rewrite decide_False; [done|]. rewrite Ht1. intros E. apply (Hne e); [|done]. apply last_Some in E as [l' ->]. set_solver.
  - apply all_events_nodup.
    + intros d'. unfold upd_queue. case_decide; [done|by apply all_nodup].
    + intros d1 d2 y H1 H2. apply Hexp in H1 as [_ H1]. apply Hexp in H2 as [_ H2]. by eapply all_disjoint.
  - intros y. unfold st'. cbn [evs]. rewrite dom_delete, elem_of_difference, elem_of_singleton, <- (er_dom _ _ H), !in_all. split.
    + intros [d' Hy]. apply Hexp in Hy as [Hy1 Hy2]. eauto.
    + intros [[d' Hy] Hne]. exists d'. unfold upd_queue. case_decide as E; [subst d'; rewrite HL in Hy; set_solver|done].
  - intros c' y. unfold chan_of, st'. cbn [evs destruct_event]. rewrite dom_delete, elem_of_difference, elem_of_singleton.
    destruct (decide (y = e)) as [->|Hne].
    + split; [|tauto]. intros Hl. exfalso. apply lookup_delete_Some in Hl as [Hcc Hl]. apply (er_chan _ _ H) in Hl as [_ Hl]. congruence.
    + rewrite (lookup_delete_ne (evs st)) by done. fold (chan_of st y). rewrite lookup_delete_Some, (er_chan _ _ H). split; [tauto|].
      intros [[? _] Hy]. split; [|done]. intros <-. assert (destruct_event st !! c = Some y) by (by apply (er_chan _ _ H)). congruence.
  - intros d'. apply (sorted_ext (exp_of st)).
    + intros y Hy. apply Hexp in Hy as [Hy _]. unfold exp_of, st'. cbn [evs]. by rewrite lookup_delete_ne.
    + unfold upd_queue. case_decide as E; [|apply (er_sorted _ _ H)]. subst d'. pose proof (er_sorted _ _ H d) as Hs.
      rewrite HL in Hs. by eapply sorted_middle.
Qed.
End remove.

(** The event at the bottom is the one that expires first. *)
Lemma expired_spec d now st L : ev_rep st L ->
  match expired d now st with
  | Some ev => exists e l, L d = e :: l /\ evs st !! e = Some ev /\ expires ev <= now /\
                 destruct_event st !! ev_chptr ev = Some e
  | None => Forall (fun e => now < exp_of st e) (L d)
  end.
Proof.
  intros H. destruct (er_queue _ _ H d) as [Hd _]. unfold expired.
  destruct (L d) as [|e l] eqn:EL.
  - rewrite (Hd : bottom (get_queue d st) = None). constructor.
  - destruct Hd as (-> & _). assert (He : e ∈ dom (evs st)) by (apply (er_dom _ _ H), in_all; exists d; rewrite EL; left).
    apply elem_of_dom in He as Hev. destruct Hev as [ev Hev]. rewrite Hev. cbn [mbind option_bind].
    destruct (Z.leb_spec (expires ev) now) as [Hle|Hgt].
    + exists e, l. split_and!; try done. apply (er_chan _ _ H). split; [done|]. unfold chan_of. by rewrite Hev.
    + pose proof (er_sorted _ _ H d) as Hs. rewrite EL in Hs. inversion Hs as [|? ? _ Hf]; subst.
      constructor; [unfold exp_of; rewrite Hev; lia|]. eapply Forall_impl; [exact Hf|]. intros y Hy. simpl in Hy.
      unfold exp_of in Hy at 1. rewrite Hev in Hy. lia.
Qed.
