(* ===== verification/Events.v ===== *)
(** * The event system ([ircd/ircd_events.c], [include/ircd_events.h])

    Generators of events - sockets, signals and timers - on three lists, the
    one of the timers sorted by their time; the events, which are executed at
    once by calling the generator's callback, and may so call the event
    system again; the reference counts that put off the destruction of a
    socket in use; the marks that put off the destruction or the new start of
    a timer that is expiring.

    The callbacks are the rest of the program: a callback is a tree of calls
    of the operations below, each chosen from the state it finds
    ([program]).  The engines ([engine_select.c] and the others) are a record
    of operations on a state of their own, as the [struct Engine] is.

    The interface asks its callers for some care, which the code does not
    check: not to initialise, add or free a structure that is in use, not to
    pass one that is not there.  The definitions have a parameter [watched];
    when it is [false] they are the code; when it is [true] they do the same,
    but stop, [Broken], where a caller breaks the interface. *)
From S2P Require Import Prelude Chain Dlist Plist.
From Stdlib Require Import Sorting.Sorted.
From stdpp Require Import options.
Open Scope Z_scope.

Inductive SocketState :=
  SS_CONNECTING | SS_LISTENING | SS_CONNECTED | SS_DATAGRAM | SS_CONNECTDG | SS_NOTSOCK.

Inductive TimerType := TT_ABSOLUTE | TT_RELATIVE | TT_PERIODIC.

Inductive EventType :=
  ET_READ | ET_WRITE | ET_ACCEPT | ET_CONNECT | ET_EOF | ET_ERROR | ET_SIGNAL | ET_EXPIRE | ET_DESTROY.

#[export] Instance SocketState_eq_dec : EqDecision SocketState.
Proof. solve_decision. Defined.
#[export] Instance TimerType_eq_dec : EqDecision TimerType.
Proof. solve_decision. Defined.
#[export] Instance EventType_eq_dec : EqDecision EventType.
Proof. solve_decision. Defined.

(** The bits of [gh_flags]. *)
Definition GEN_DESTROY : Z := 0.
Definition GEN_MARKED : Z := 1.
Definition GEN_ACTIVE : Z := 2.
Definition GEN_READD : Z := 3.
Definition GEN_ERROR : Z := 4.

Definition SOCK_EVENT_MASK : Z := 3.
Definition SOCK_ACTION_SET : Z := 0x0000.
Definition SOCK_ACTION_ADD : Z := 0x1000.
Definition SOCK_ACTION_DEL : Z := 0x2000.
Definition SOCK_ACTION_MASK : Z := 0x3000.

(** What follows the header in a [struct Socket], [Signal] or [Timer]. *)
Inductive gen_kind :=
  | Socket (s_state : SocketState) (s_events s_fd : Z)
  | Signal (sig_signal : Z)
  | Timer (t_type : TimerType) (t_value t_expire : Z).

(** The links [gh_next] and [gh_prev_p] are in the lists of the state. *)
Record GenHeader := {
  gh_flags : Z;
  gh_ref : Z;
  gh_call : option nat;
  gh_data : Z;
  gh_kind : gen_kind
}.

Record Event := { ev_type : EventType; ev_data : Z; ev_gen : ptr }.

(** The heads of the lists, [struct Generators]. *)
Inductive glist := g_socket | g_signal | g_timer.

#[export] Instance glist_eq_dec : EqDecision glist.
Proof. solve_decision. Defined.

Definition has (bit : Z) (g : GenHeader) : bool := Z.testbit (gh_flags g) bit.

Definition with_flags (f : Z -> Z) (g : GenHeader) : GenHeader :=
  {| gh_flags := f (gh_flags g); gh_ref := gh_ref g; gh_call := gh_call g; gh_data := gh_data g; gh_kind := gh_kind g |}.

Definition with_count (f : Z -> Z) (g : GenHeader) : GenHeader :=
  {| gh_flags := gh_flags g; gh_ref := f (gh_ref g) mod 2 ^ 32; gh_call := gh_call g; gh_data := gh_data g;
     gh_kind := gh_kind g |}.

Definition with_kind (k : gen_kind) (g : GenHeader) : GenHeader :=
  {| gh_flags := gh_flags g; gh_ref := gh_ref g; gh_call := gh_call g; gh_data := gh_data g; gh_kind := k |}.

(** [|= flag] and [&= ~flag]. *)
Definition set_flag (bit : Z) : GenHeader -> GenHeader := with_flags (fun f => Z.setbit f bit).
Definition clear_flag (bit : Z) : GenHeader -> GenHeader := with_flags (fun f => Z.clearbit f bit).

(** A computation that ends, that fails - an assertion does not hold, or
    memory that is not a generator of the kind expected is used - or whose
    fuel is short; and, when it is watched, one where a caller has broken the
    interface. *)
Inductive outcome (A : Type) := Done (a : A) | Failed | NoFuel | Broken.
Arguments Done {A}.
Arguments Failed {A}.
Arguments NoFuel {A}.
Arguments Broken {A}.

Definition bind {A B} (m : outcome A) (f : A -> outcome B) : outcome B :=
  match m with Done a => f a | Failed => Failed | NoFuel => NoFuel | Broken => Broken end.

Definition assert (b : bool) {A} (m : outcome A) : outcome A := if b then m else Failed.

Definition watch (watched b : bool) {A} (m : outcome A) : outcome A := if watched && negb b then Broken else m.

Declare Scope event_scope.
Notation "'let!' x ':=' m 'in' f" := (bind m (fun x => f)) (at level 10, x name, f at level 200) : event_scope.
Open Scope event_scope.

Section Events.
Context {W EN : Type}.

(** [struct Engine]; [eng_signal] may be null.  An engine that cannot do what
    it is asked generates an [ET_ERROR] for the socket, with the error number
    of the result. *)
Record Engine := {
  eng_signal : option (ptr -> GenHeader -> EN -> EN);
  eng_add : ptr -> GenHeader -> EN -> bool * option Z * EN;
  eng_state : ptr -> GenHeader -> SocketState -> EN -> option Z * EN;
  eng_events : ptr -> GenHeader -> Z -> EN -> option Z * EN;
  eng_closing : ptr -> GenHeader -> EN -> EN
}.

(** The memory of the generators, their lists, the free list of the event
    descriptors with the number of those allocated, the time, the state of
    the engine, the one of the rest of the program, and the result of the
    last call of [socket_add]. *)
Record evInfo := {
  mem : gmap ptr GenHeader;
  gens : plists glist;
  events_free : list nat;
  events_alloc : nat;
  CurrentTime : Z;
  engine_state : EN;
  world : W;
  ret : bool
}.
Implicit Types st : evInfo.

Definition set_mem (m : gmap ptr GenHeader) st : evInfo :=
  {| mem := m; gens := gens st; events_free := events_free st; events_alloc := events_alloc st;
     CurrentTime := CurrentTime st; engine_state := engine_state st; world := world st; ret := ret st |}.
Definition set_gens (l : plists glist) st : evInfo :=
  {| mem := mem st; gens := l; events_free := events_free st; events_alloc := events_alloc st;
     CurrentTime := CurrentTime st; engine_state := engine_state st; world := world st; ret := ret st |}.
Definition set_descriptors (f : list nat) (n : nat) st : evInfo :=
  {| mem := mem st; gens := gens st; events_free := f; events_alloc := n;
     CurrentTime := CurrentTime st; engine_state := engine_state st; world := world st; ret := ret st |}.
Definition set_engine (e : EN) st : evInfo :=
  {| mem := mem st; gens := gens st; events_free := events_free st; events_alloc := events_alloc st;
     CurrentTime := CurrentTime st; engine_state := e; world := world st; ret := ret st |}.
Definition set_world (w : W) st : evInfo :=
  {| mem := mem st; gens := gens st; events_free := events_free st; events_alloc := events_alloc st;
     CurrentTime := CurrentTime st; engine_state := engine_state st; world := w; ret := ret st |}.
Definition set_time (t : Z) st : evInfo :=
  {| mem := mem st; gens := gens st; events_free := events_free st; events_alloc := events_alloc st;
     CurrentTime := t; engine_state := engine_state st; world := world st; ret := ret st |}.

Definition set_ret (b : bool) st : evInfo :=
  {| mem := mem st; gens := gens st; events_free := events_free st; events_alloc := events_alloc st;
     CurrentTime := CurrentTime st; engine_state := engine_state st; world := world st; ret := b |}.

(** The calls of a callback, and of the rest of the program.  [OInit] and the
    additions make the memory at the pointer a generator; [OGenerate] is the
    call of [event_generate] of [signal_callback] and of the engines; [OFree]
    gives the memory back; [OWorld] is a change of the rest of the program. *)
Inductive op :=
  | OInit (t : ptr)
  | OTimerAdd (t : ptr) (call : nat) (data : Z) (type : TimerType) (value : Z)
  | OTimerDel (t : ptr)
  | OTimerChg (t : ptr) (type : TimerType) (value : Z)
  | OSignalAdd (s : ptr) (call : nat) (data sig : Z)
  | OSocketAdd (s : ptr) (call : nat) (data : Z) (state : SocketState) (events fd : Z)
  | OSocketDel (s : ptr)
  | OSocketState (s : ptr) (state : SocketState)
  | OSocketEvents (s : ptr) (events : Z)
  | OGenerate (type : EventType) (g : ptr) (data : Z)
  | OClearError (g : ptr)
  | OFree (g : ptr)
  | OWorld (f : W -> W).

Inductive program := Return | Call (o : op) (k : evInfo -> program).

Context (watched : bool) (engine : Engine) (callback : nat -> Event -> evInfo -> program).

(** Reading the structure a pointer leads to. *)
Definition load (g : ptr) st : outcome GenHeader := match mem st !! g with Some h => Done h | None => Failed end.

Definition store (g : ptr) (h : GenHeader) st : evInfo := set_mem (<[g := h]> (mem st)) st.

Definition load_timer (t : ptr) st : outcome (GenHeader * (TimerType * Z * Z)) :=
  let! h := load t st in match gh_kind h with Timer ty v e => Done (h, (ty, v, e)) | _ => Failed end.

Definition load_socket (s : ptr) st : outcome (GenHeader * (SocketState * Z * Z)) :=
  let! h := load s st in match gh_kind h with Socket ss ev fd => Done (h, (ss, ev, fd)) | _ => Failed end.

Definition on_queue (g : ptr) st : bool := bool_decide (p_prev (gens st) !! g <> None).

(** [t_expire] of a structure of the timers' list, which are all timers. *)
Definition expire_of st (t : ptr) : Z :=
  match mem st !! t with Some h => match gh_kind h with Timer _ _ e => e | _ => 0 end | None => 0 end.

(** A structure whose memory may be given back or initialised: a generator
    that is in no list, is not active and is not expiring, or no generator. *)
Definition unused (g : ptr) st : bool :=
  negb (on_queue g st) &&
  match mem st !! g with Some h => negb (has GEN_ACTIVE h) && negb (has GEN_MARKED h) | None => true end.

(** The assertions of [socket_state] on the transitions. *)
Definition valid_transition (from to : SocketState) : bool :=
  bool_decide (from <> to) && bool_decide (from <> SS_LISTENING) && bool_decide (from <> SS_CONNECTED) &&
  (bool_decide (from <> SS_CONNECTING) || bool_decide (to = SS_CONNECTED)) &&
  (bool_decide (from <> SS_DATAGRAM) || bool_decide (to = SS_CONNECTDG)) &&
  (bool_decide (from <> SS_CONNECTDG) || bool_decide (to = SS_DATAGRAM)).

(** ** What the interface asks of its callers *)

Definition at_gen (g : ptr) (P : GenHeader -> bool) st : bool := match mem st !! g with Some h => P h | None => false end.
Definition is_timer_b (h : GenHeader) : bool := match gh_kind h with Timer _ _ _ => true | _ => false end.
Definition is_socket_b (h : GenHeader) : bool := match gh_kind h with Socket _ _ _ => true | _ => false end.
Definition live (h : GenHeader) : bool := has GEN_ACTIVE h.

(** A structure that is initialised, or added as a signal or a socket, is not
    in use; one that is added as a timer is a timer in no queue; what is
    deleted, changed or told an event is active; nobody generates
    [ET_DESTROY], nor an event of a timer; the conditions that the code
    asserts are respected. *)
Definition allowed (o : op) st : bool :=
  match o with
  | OInit t => unused t st
  | OTimerAdd t _ _ _ _ => at_gen t is_timer_b st && negb (on_queue t st)
  | OTimerDel t => at_gen t (fun h => is_timer_b h && live h) st
  | OTimerChg t type value =>
      at_gen t (fun h => match gh_kind h with Timer ty _ _ => live h && bool_decide (ty <> TT_PERIODIC) | _ => false end) st &&
      negb (value =? 0) && bool_decide (type <> TT_PERIODIC)
  | OSignalAdd s _ _ _ => unused s st
  | OSocketAdd s _ _ _ _ fd => unused s st && (0 <=? fd)
  | OSocketDel s => at_gen s (fun h => is_socket_b h && live h && negb (has GEN_DESTROY h)) st
  | OSocketState s state =>
      at_gen s (fun h => match gh_kind h with Socket old _ _ => live h && valid_transition old state | _ => false end) st
  | OSocketEvents s _ => at_gen s (fun h => is_socket_b h && live h) st
  | OGenerate type g _ => bool_decide (type <> ET_DESTROY) && at_gen g (fun h => live h && negb (is_timer_b h)) st
  | OClearError g => at_gen g (fun _ => true) st
  | OFree g => unused g st && at_gen g (fun _ => true) st
  | OWorld _ => true
  end.

(** An engine that reports an error from [eng_state] or [eng_events] does so
    for a socket that an event or the engine itself holds. *)
Definition may_report (err : option Z) (h : GenHeader) : bool :=
  match err with Some _ => negb (gh_ref h =? 0) | None => true end.

Definition gen_dequeue (g : ptr) st : evInfo := set_gens (p_clear g (p_unlink g (gens st))) st.

(** [prev_p] is the head of a list, whose first structure is [next], or null
    with [next]. *)
Definition gen_init (g : ptr) (call : option nat) (data : Z) (kind : gen_kind) (list : option glist) st : evInfo :=
  let st := store g {| gh_flags := Z.setbit 0 GEN_ACTIVE; gh_ref := 0; gh_call := call; gh_data := data; gh_kind := kind |} st in
  match list with
  | Some l => set_gens (p_insert g (SHead l) (gens st)) st
  | None => set_gens (p_clear g (gens st)) st
  end.

(** The structure is put before the first timer that expires later. *)
Definition timer_enqueue (t : ptr) st : outcome evInfo :=
  let! r := load_timer t st in
  let '(h, (ty, v, _)) := r in
  assert (negb (on_queue t st) && has GEN_ACTIVE h)
    (let expire := match ty with TT_ABSOLUTE => v | TT_RELATIVE | TT_PERIODIC => v + CurrentTime st end in
     let st := store t (with_kind (Timer ty v expire) h) st in
     match find_slot (walk_fuel (p_next (gens st))) (fun y => expire <? expire_of st y) (gens st) (SHead g_timer) with
     | Some s => Done (set_gens (p_insert t s (gens st)) st)
     | None => NoFuel
     end).

(** The fields of the timer, which [timer_init] does not write, are those of
    the structure, or zero in new memory. *)
Definition timer_init (t : ptr) st : evInfo :=
  let kind := match gh_kind <$> mem st !! t with
              | Some (Timer ty v e) => Timer ty v e
              | _ => Timer TT_ABSOLUTE 0 0
              end in
  let st := gen_init t None 0 kind None st in
  set_mem (alter (with_flags (fun _ => 0)) t (mem st)) st.

Definition timer_add (t : ptr) (call : nat) (data : Z) (type : TimerType) (value : Z) st : outcome evInfo :=
  let! r := load_timer t st in
  let h := set_flag GEN_ACTIVE r.1 in
  let h := if has GEN_MARKED h then set_flag GEN_READD h else h in
  let st := store t {| gh_flags := gh_flags h; gh_ref := 0; gh_call := Some call; gh_data := data;
                       gh_kind := Timer type value 0 |} st in
  if has GEN_MARKED h then Done st else timer_enqueue t st.

Definition timer_chg (t : ptr) (type : TimerType) (value : Z) st : outcome evInfo :=
  let! r := load_timer t st in
  let '(h, (ty, _, _)) := r in
  assert (negb (value =? 0) && bool_decide (ty <> TT_PERIODIC) && bool_decide (type <> TT_PERIODIC))
    (let h := with_kind (Timer type value 0) h in
     if has GEN_MARKED h then Done (store t (set_flag GEN_READD h) st)
     else timer_enqueue t (gen_dequeue t (store t h st))).

Definition signal_add (s : ptr) (call : nat) (data sig : Z) st : evInfo :=
  let st := gen_init s (Some call) data (Signal sig) (Some g_signal) st in
  match eng_signal engine, mem st !! s with
  | Some tell, Some h => set_engine (tell s h (engine_state st)) st
  | _, _ => st
  end.

(** The mask that [socket_events] gives a socket. *)
Definition new_events (events old : Z) : Z :=
  let action := Z.land events SOCK_ACTION_MASK in
  if action =? SOCK_ACTION_SET then Z.land events SOCK_EVENT_MASK
  else if action =? SOCK_ACTION_ADD then Z.lor old (Z.land events SOCK_EVENT_MASK)
  else if action =? SOCK_ACTION_DEL then Z.land old (Z.lnot (Z.land events SOCK_EVENT_MASK))
  else 0.

(** Taking a descriptor from the free list, or allocating one. *)
Definition take_descriptor st : nat * evInfo :=
  match events_free st with
  | d :: f => (d, set_descriptors f (events_alloc st) st)
  | [] => (events_alloc st, set_descriptors [] (S (events_alloc st)) st)
  end.

Definition give_descriptor (d : nat) st : evInfo :=
  set_descriptors (d :: events_free st) (events_alloc st) st.

(** Without threads an event is executed by [event_generate]; what it calls
    may generate others.  The fuel bounds the depth of the calls. *)
Fixpoint event_generate (n : nat) (type : EventType) (g : ptr) (data : Z) st : outcome evInfo :=
  match n with
  | O => NoFuel
  | S n =>
      let! h := load g st in
      if bool_decide (type <> ET_DESTROY) && has GEN_DESTROY h then Done st
      else
        let '(d, st) := take_descriptor st in
        let st := store g (with_count Z.succ h) st in
        event_execute n d {| ev_type := type; ev_data := data; ev_gen := g |} st
  end
with event_execute (n : nat) (d : nat) (ev : Event) st : outcome evInfo :=
  match n with
  | O => NoFuel
  | S n =>
      let g := ev_gen ev in
      let! h := load g st in
      assert (has GEN_ACTIVE h)
        (let h := if decide (ev_type ev = ET_DESTROY) then clear_flag GEN_ACTIVE h else h in
         let h := if decide (ev_type ev = ET_ERROR) then set_flag GEN_ERROR h else h in
         let st := store g h st in
         match gh_call h with
         | None => Failed
         | Some call =>
             let! st := run_program n (callback call ev st) st in
             let! st := if decide (ev_type ev = ET_DESTROY) then Done st else gen_ref_dec n g st in
             Done (give_descriptor d st)
         end)
  end
with gen_ref_dec (n : nat) (g : ptr) st : outcome evInfo :=
  match n with
  | O => NoFuel
  | S n =>
      let! h := load g st in
      let h := with_count Z.pred h in
      let st := store g h st in
      if (gh_ref h =? 0) && has GEN_DESTROY h then event_generate n ET_DESTROY g 0 (gen_dequeue g st) else Done st
  end
with engine_error (n : nat) (s : ptr) (err : option Z) st : outcome evInfo :=
  match n with
  | O => NoFuel
  | S n => match err with Some e => event_generate n ET_ERROR s e st | None => Done st end
  end
with run_program (n : nat) (p : program) st : outcome evInfo :=
  match n with
  | O => NoFuel
  | S n =>
      match p with
      | Return => Done st
      | Call o k => let! st := run_op n o st in run_program n (k st) st
      end
  end
with run_op (n : nat) (o : op) st : outcome evInfo :=
  match n with
  | O => NoFuel
  | S n =>
      watch watched (allowed o st) match o with
      | OInit t => Done (timer_init t st)
      | OTimerAdd t call data type value => timer_add t call data type value st
      | OTimerDel t =>
          let! r := load_timer t st in
          let h := clear_flag GEN_READD r.1 in
          let st := store t h st in
          if has GEN_MARKED h then Done st else event_generate n ET_DESTROY t 0 (gen_dequeue t st)
      | OTimerChg t type value => timer_chg t type value st
      | OSignalAdd s call data sig => Done (signal_add s call data sig st)
      | OSocketAdd s call data state events fd =>
          assert (0 <=? fd)
            (let st := gen_init s (Some call) data (Socket state (Z.land events SOCK_EVENT_MASK) fd) (Some g_socket) st in
             let! h := load s st in
             let '(ok, err, e) := eng_add engine s h (engine_state st) in
             let! st := engine_error n s err (set_engine e st) in
             Done (set_ret ok st))
      | OSocketDel s =>
          let! r := load_socket s st in
          assert (negb (has GEN_DESTROY r.1))
            (let st := set_engine (eng_closing engine s r.1 (engine_state st)) st in
             let h := set_flag GEN_DESTROY r.1 in
             let st := store s h st in
             if gh_ref h =? 0 then event_generate n ET_DESTROY s 0 (gen_dequeue s st) else Done st)
      | OSocketState s state =>
          let! r := load_socket s st in
          let '(h, (old, _, _)) := r in
          assert (valid_transition old state)
            (if has GEN_DESTROY h || has GEN_ERROR h then Done st
             else
               let '(err, e) := eng_state engine s h state (engine_state st) in
               let! st := watch watched (may_report err h) (engine_error n s err (set_engine e st)) in
               let! r := load_socket s st in
               let '(h, (_, ev, fd)) := r in
               Done (store s (with_kind (Socket state ev fd) h) st))
      | OSocketEvents s events =>
          let! r := load_socket s st in
          let '(h, (_, old, _)) := r in
          if has GEN_DESTROY h || has GEN_ERROR h then Done st
          else
            let new := new_events events old in
            if old =? new then Done st
            else
              let '(err, e) := eng_events engine s h new (engine_state st) in
              let! st := watch watched (may_report err h) (engine_error n s err (set_engine e st)) in
              let! r := load_socket s st in
              let '(h, (state, _, fd)) := r in
              Done (store s (with_kind (Socket state new fd) h) st)
      | OGenerate type g data => event_generate n type g data st
      | OClearError g => let! h := load g st in Done (store g (clear_flag GEN_ERROR h) st)
      | OFree g => Done (set_mem (delete g (mem st)) st)
      | OWorld f => Done (set_world (f (world st)) st)
      end
  end.

Definition timer_del (n : nat) (t : ptr) : evInfo -> outcome evInfo := run_op n (OTimerDel t).
Definition socket_add (n : nat) (s : ptr) (call : nat) (data : Z) (state : SocketState) (events fd : Z) :
  evInfo -> outcome evInfo := run_op n (OSocketAdd s call data state events fd).
Definition socket_del (n : nat) (s : ptr) : evInfo -> outcome evInfo := run_op n (OSocketDel s).
Definition socket_state (n : nat) (s : ptr) (state : SocketState) : evInfo -> outcome evInfo := run_op n (OSocketState s state).
Definition socket_events (n : nat) (s : ptr) (events : Z) : evInfo -> outcome evInfo := run_op n (OSocketEvents s events).

(** One timer of the loop of [timer_run]. *)
Definition expire_timer (n : nat) (t : ptr) st : outcome evInfo :=
  let st := gen_dequeue t st in
  let! r := load_timer t st in
  let '(h, (ty, _, _)) := r in
  let h := set_flag GEN_MARKED h in
  let h := if decide (ty = TT_PERIODIC) then set_flag GEN_READD h else h in
  let! st := event_generate n ET_EXPIRE t 0 (store t h st) in
  let! r := load_timer t st in
  let h := clear_flag GEN_MARKED r.1 in
  let st := store t h st in
  if has GEN_READD h then
    let! st := timer_enqueue t st in
    let! r := load_timer t st in
    Done (store t (clear_flag GEN_READD r.1) st)
  else event_generate n ET_DESTROY t 0 st.

Fixpoint timer_run (n : nat) st : outcome evInfo :=
  match n with
  | O => NoFuel
  | S n =>
      match p_head (gens st) g_timer with
      | None => Done st
      | Some t =>
          if CurrentTime st <? expire_of st t then Done st
          else let! st := expire_timer n t st in timer_run n st
      end
  end.

(** [gen_ref_inc], which only the engines use. *)
Definition gen_ref_inc (g : ptr) st : outcome evInfo := let! h := load g st in Done (store g (with_count Z.succ h) st).

Fixpoint generate_all (n : nat) (g : ptr) (l : list (EventType * Z)) st : outcome evInfo :=
  match l with
  | [] => Done st
  | (type, data) :: l => let! st := event_generate n type g data st in generate_all n g l st
  end.

(** The turn of a socket in the loop of an engine, which holds the socket
    while it generates the events that the system calls tell it of.  Some
    turns of [engine_select] and [engine_poll] end with [continue] before the
    [gen_ref_dec]: [lost]. *)
Definition check_socket (n : nat) (s : ptr) (l : list (EventType * Z)) (lost : bool) st : outcome evInfo :=
  watch watched (forallb (fun e => bool_decide (e.1 <> ET_DESTROY)) l && at_gen s (fun h => is_socket_b h && live h) st)
    (let! st := gen_ref_inc s st in
     let! st := generate_all n s l st in
     if lost then Done st else gen_ref_dec n s st).

(** What drives the system: calls of the rest of the program, the loop of an
    engine over its sockets, the timers, and the clock. *)
Inductive step :=
  | SOp (o : op)
  | SCheck (s : ptr) (l : list (EventType * Z)) (lost : bool)
  | STimers
  | SClock (t : Z).

Definition run_step (n : nat) (s : step) st : outcome evInfo :=
  match s with
  | SOp o => run_op n o st
  | SCheck s l lost => check_socket n s l lost st
  | STimers => timer_run n st
  | SClock t => Done (set_time t st)
  end.

Fixpoint run_steps (n : nat) (l : list step) st : outcome evInfo :=
  match l with
  | [] => Done st
  | s :: l => let! st := run_step n s st in run_steps n l st
  end.

End Events.

(** ** Watching changes nothing but that it stops *)

(** What a watched run does is what the code does, unless it stops. *)
Definition within {A} (m m' : outcome A) : Prop := m = Broken \/ m = m'.

Lemma within_refl {A} (m : outcome A) : within m m.
Proof. by right. Qed.

Lemma within_bind {A B} (m m' : outcome A) (f f' : A -> outcome B) :
  within m m' -> (forall a, within (f a) (f' a)) -> within (bind m f) (bind m' f').
Proof. intros [-> | ->] Hf; [by left|]. destruct m'; cbn; try apply Hf; by right. Qed.

Lemma within_watch {A} b (m m' : outcome A) : within m m' -> within (watch true b m) (watch false b m').
Proof. destruct b; cbn; [done|by left]. Qed.

Lemma within_assert {A} b (m m' : outcome A) : within m m' -> within (assert b m) (assert b m').
Proof. destruct b; [done|by right]. Qed.

Section within.
Context {W EN : Type} (engine : @Engine EN) (callback : nat -> Event -> @evInfo W EN -> @program W EN).
Implicit Types st : @evInfo W EN.

Record within_at (n : nat) : Prop := {
  wa_generate : forall ty g d st, within (event_generate true engine callback n ty g d st) (event_generate false engine callback n ty g d st);
  wa_execute : forall d ev st, within (event_execute true engine callback n d ev st) (event_execute false engine callback n d ev st);
  wa_ref_dec : forall g st, within (gen_ref_dec true engine callback n g st) (gen_ref_dec false engine callback n g st);
  wa_error : forall s err st, within (engine_error true engine callback n s err st) (engine_error false engine callback n s err st);
  wa_program : forall p st, within (run_program true engine callback n p st) (run_program false engine callback n p st);
  wa_op : forall o st, within (run_op true engine callback n o st) (run_op false engine callback n o st)
}.

Ltac within_step IH :=
  repeat first
    [ apply within_refl
    | apply (wa_generate _ IH) | apply (wa_execute _ IH) | apply (wa_ref_dec _ IH) | apply (wa_error _ IH)
    | apply (wa_program _ IH) | apply (wa_op _ IH)
    | apply within_watch | apply within_assert
    | apply within_bind; [|intros]
    | case_match ].

Lemma within_all n : within_at n.
Proof.
  induction n as [|n IH]; [split; intros; apply within_refl|].
  split; intros; cbn [event_generate event_execute gen_ref_dec engine_error run_program run_op]; cbv zeta; within_step IH.
Qed.

Lemma within_timers n : forall st, within (timer_run true engine callback n st) (timer_run false engine callback n st).
Proof.
  induction n as [|n IH]; intros st; [apply within_refl|]. cbn [timer_run]. unfold expire_timer. cbv zeta.
  pose proof (within_all n) as IH'. within_step IH'; apply IH.
Qed.

Lemma within_steps n l : forall st, within (run_steps true engine callback n l st) (run_steps false engine callback n l st).
Proof.
  pose proof (within_all n) as IH'.
  assert (Hg : forall g l st, within (generate_all true engine callback n g l st) (generate_all false engine callback n g l st)).
  { intros g l0. induction l0 as [|[ty d] l0 IH0]; intros st; cbn [generate_all]; [apply within_refl|].
    apply within_bind; [apply (wa_generate _ IH')|]. intros. apply IH0. }
  induction l as [|s l IH]; intros st; cbn [run_steps]; [apply within_refl|]. apply within_bind; [|intros; apply IH].
  destruct s; cbn [run_step]; [apply (wa_op _ IH')| |apply within_timers|apply within_refl].
  unfold check_socket. apply within_watch. apply within_bind; [apply within_refl|intros]. apply within_bind; [apply Hg|intros].
  case_match; [apply within_refl|apply (wa_ref_dec _ IH')].
Qed.
End within.

(** ** The invariant

    [ev_rep B st L]: [L] are the generators of the three lists, and [B] the
    descriptors of the events being executed. *)
Section invariant.
Context {W EN : Type} (engine : @Engine EN) (callback : nat -> Event -> @evInfo W EN -> @program W EN).
Implicit Types st : @evInfo W EN.

Definition kind_in (l : glist) (k : gen_kind) : Prop :=
  match l, k with
  | g_socket, Socket _ _ _ | g_signal, Signal _ | g_timer, Timer _ _ _ => True
  | _, _ => False
  end.

Definition is_timer (k : gen_kind) : Prop := kind_in g_timer k.
Definition is_socket (k : gen_kind) : Prop := kind_in g_socket k.

Definition listed (l : glist) (h : GenHeader) : Prop :=
  kind_in l (gh_kind h) /\ has GEN_ACTIVE h = true /\ has GEN_MARKED h = false.

Definition flags_ok (h : GenHeader) : Prop :=
  (has GEN_MARKED h = true -> is_timer (gh_kind h)) /\ (has GEN_DESTROY h = true -> is_socket (gh_kind h)).

Record ev_rep (B : list nat) st (L : glist -> list ptr) : Prop := {
  er_lists : reps (gens st) L;
  er_listed : forall l x, x ∈ L l -> exists h, mem st !! x = Some h /\ listed l h;
  er_flags : forall x h, mem st !! x = Some h -> flags_ok h;
  er_sorted : StronglySorted (fun a b => expire_of st a <= expire_of st b) (L g_timer);
  er_desc : events_free st ++ B ≡ₚ seq 0 (events_alloc st)
}.

(** How often [x] is held: by the events being executed and by the engine. *)
Definition holds (G : list ptr) (x : ptr) : nat := length (filter (fun y => y = x) G).

(** Generators that are active have a callback, sockets count those that hold
    them, what is held is active and not a timer, and an expiring timer is
    active. *)
Record held (G : list ptr) st : Prop := {
  hd_call : forall x h, mem st !! x = Some h -> has GEN_ACTIVE h = true -> gh_call h <> None;
  hd_ref : forall x h, mem st !! x = Some h -> has GEN_ACTIVE h = true -> is_socket (gh_kind h) -> gh_ref h = Z.of_nat (holds G x);
  hd_in : forall x, x ∈ G -> exists h, mem st !! x = Some h /\ has GEN_ACTIVE h = true /\ ~ is_timer (gh_kind h);
  hd_marked : forall x h, mem st !! x = Some h -> has GEN_MARKED h = true -> has GEN_ACTIVE h = true
}.

Definition inv (B : list nat) (G : list ptr) st : Prop := (exists L, ev_rep B st L) /\ held G st.

(** What a call leaves of a state: the time, the marks of the timers that are
    expiring, and the sockets that are held. *)
Definition frame (G : list ptr) st st' : Prop :=
  CurrentTime st' = CurrentTime st /\
  (forall x h, mem st !! x = Some h -> has GEN_MARKED h = true ->
   exists h', mem st' !! x = Some h' /\ has GEN_MARKED h' = true) /\
  forall x h, x ∈ G -> mem st !! x = Some h -> is_socket (gh_kind h) ->
  exists h', mem st' !! x = Some h' /\ is_socket (gh_kind h').

#[local] Instance frame_preorder G : PreOrder (frame G).
Proof.
  split.
  - intros st. split; [done|]. split; intros x h; eauto.
  - intros st1 st2 st3 (T1 & F1 & G1) (T2 & F2 & G2). split; [congruence|]. split.
    + intros x h H1 H2. destruct (F1 x h H1 H2) as (h' & H3 & H4). by apply (F2 x h').
    + intros x h H1 H2 H3. destruct (G1 x h H1 H2 H3) as (h' & H4 & H5). by apply (G2 x h').
Qed.

Lemma frame_weaken G G' st st' : (forall x, x ∈ G -> x ∈ G') -> frame G' st st' -> frame G st st'.
Proof. intros HG (T & F & K). split_and!; [done|done|]. intros x h Hx. by apply K, HG. Qed.

Definition goodm (B : list nat) (G : list ptr) st (m : outcome evInfo) : Prop :=
  match m with Done st' => inv B G st' /\ frame G st st' | Failed => False | NoFuel | Broken => True end.

Lemma goodm_bind B B' G st m f :
  goodm B G st m -> (forall st', inv B G st' -> frame G st st' -> goodm B' G st' (f st')) -> goodm B' G st (bind m f).
Proof.
  destruct m as [st'| | |]; cbn; try done. intros [Hi Hf] H. specialize (H st' Hi Hf). destruct (f st'); cbn in *; try done.
  destruct H as [? Hf']. split; [done|]. by transitivity st'.
Qed.

Lemma goodm_bind_held B B' G g st m f :
  goodm B (g :: G) st m -> (forall st', inv B (g :: G) st' -> frame G st st' -> goodm B' G st' (f st')) -> goodm B' G st (bind m f).
Proof.
  destruct m as [st'| | |]; cbn; try done. intros [Hi Hf] H. assert (Hf1 : frame G st st') by (eapply frame_weaken; [|exact Hf]; intros x Hx; by right).
  specialize (H st' Hi Hf1). destruct (f st'); cbn in *; try done. destruct H as [? Hf']. split; [done|]. by transitivity st'.
Qed.

Lemma goodm_frame B G st st' m : frame G st st' -> goodm B G st' m -> goodm B G st m.
Proof. intros Hf. destruct m; cbn; try done. intros [? ?]. split; [done|]. by transitivity st'. Qed.

Lemma goodm_watch B G st b m : (b = true -> goodm B G st m) -> goodm B G st (watch true b m).
Proof. destruct b; cbn; [by intros H; apply H|done]. Qed.

Lemma assert_true {A} b (m : outcome A) : b = true -> assert b m = m.
Proof. by intros ->. Qed.

Lemma load_some st g h {A} (f : GenHeader -> outcome A) : mem st !! g = Some h -> bind (load g st) f = f h.
Proof. unfold load. by intros ->. Qed.

Lemma load_timer_some st g h ty v e {A} (f : GenHeader * (TimerType * Z * Z) -> outcome A) :
  mem st !! g = Some h -> gh_kind h = Timer ty v e -> bind (load_timer g st) f = f (h, (ty, v, e)).
Proof. unfold load_timer, load. intros ->. cbn. by intros ->. Qed.

Lemma load_socket_some st g h ss ev fd {A} (f : GenHeader * (SocketState * Z * Z) -> outcome A) :
  mem st !! g = Some h -> gh_kind h = Socket ss ev fd -> bind (load_socket g st) f = f (h, (ss, ev, fd)).
Proof. unfold load_socket, load. intros ->. cbn. by intros ->. Qed.

Lemma at_gen_true g P st : at_gen g P st = true -> exists h, mem st !! g = Some h /\ P h = true.
Proof. unfold at_gen. destruct (mem st !! g) as [h|]; [|done]. by exists h. Qed.

Lemma is_timer_b_true h : is_timer_b h = true -> exists ty v e, gh_kind h = Timer ty v e.
Proof. unfold is_timer_b. destruct (gh_kind h); try done. eauto. Qed.

Lemma is_socket_b_true h : is_socket_b h = true -> exists ss ev fd, gh_kind h = Socket ss ev fd.
Proof. unfold is_socket_b. destruct (gh_kind h); try done. eauto. Qed.

Lemma has_set b b' h : 0 <= b' -> has b (set_flag b' h) = (b' =? b) || has b h.
Proof. intros Hb. unfold has, set_flag, with_flags. cbn [gh_flags]. apply Z.setbit_eqb. done. Qed.

Lemma has_clear b b' h : 0 <= b' -> has b (clear_flag b' h) = has b h && negb (b' =? b).
Proof. intros Hb. unfold has, clear_flag, with_flags. cbn [gh_flags]. by apply Z.clearbit_eqb. Qed.

Lemma off_queue B st L g : ev_rep B st L -> on_queue g st = false <-> off L g.
Proof.
  intros HR. unfold on_queue. rewrite bool_decide_eq_false. split.
  - intros Hn l Hl. apply Hn. apply list_elem_of_split in Hl as (l1 & l2 & Hl).
    pose proof (rp_list _ _ (er_lists _ _ _ HR) l) as Hp. rewrite Hl in Hp. apply plist_prev in Hp. by rewrite Hp.
  - intros Hg Hn. destruct (rp_off _ _ (er_lists _ _ _ HR) g Hg) as [Hp _]. done.
Qed.

Definition expire_in (h : GenHeader) : Z := match gh_kind h with Timer _ _ e => e | _ => 0 end.

Lemma expire_of_some st t h : mem st !! t = Some h -> expire_of st t = expire_in h.
Proof. unfold expire_of. by intros ->. Qed.

Lemma rep_store B st L x h' :
  ev_rep B st L -> flags_ok h' ->
  (forall l, x ∈ L l -> listed l h' /\ expire_in h' = expire_of st x) -> ev_rep B (store x h' st) L.
Proof.
  intros [H1 H2 H3 H4 H5] Hf Hl. split; [done| | | |done].
  - intros l y Hy. cbn. destruct (decide (y = x)) as [->|Hne].
    + rewrite lookup_insert_eq. exists h'. split; [done|]. by apply Hl.
    + rewrite lookup_insert_ne by done. by apply H2.
  - intros y h. cbn. destruct (decide (y = x)) as [->|Hne].
    + rewrite lookup_insert_eq. by intros [= <-].
    + rewrite lookup_insert_ne by done. apply H3.
  - eapply sorted_ext; [|exact H4]. intros y Hy. destruct (decide (y = x)) as [->|Hne].
    + destruct (Hl g_timer Hy) as [_ He]. rewrite <- He. symmetry. apply expire_of_some. cbn. apply lookup_insert_eq.
    + unfold expire_of. cbn. by rewrite lookup_insert_ne.
Qed.

Lemma holds_in G x : (0 < holds G x)%nat <-> x ∈ G.
Proof.
  unfold holds. split.
  - destruct (filter _ G) as [|y l] eqn:E; [cbn; lia|]. intros _. assert (Hy : y ∈ filter (fun y => y = x) G) by (rewrite E; left).
    apply list_elem_of_filter in Hy as [-> ?]. done.
  - intros Hx. assert (Hy : x ∈ filter (fun y => y = x) G) by by apply list_elem_of_filter.
    destruct (filter _ G); [by apply elem_of_nil in Hy|cbn; lia].
Qed.

Lemma holds_cons G x y : holds (y :: G) x = if decide (y = x) then S (holds G x) else holds G x.
Proof. unfold holds. rewrite filter_cons. by case_decide. Qed.

Lemma holds_le G x : (holds G x <= length G)%nat.
Proof. apply length_filter. Qed.

Lemma held_store G st x h' : held G st ->
  (has GEN_ACTIVE h' = true -> gh_call h' <> None) ->
  (has GEN_ACTIVE h' = true -> is_socket (gh_kind h') -> gh_ref h' = Z.of_nat (holds G x)) ->
  (x ∈ G -> has GEN_ACTIVE h' = true /\ ~ is_timer (gh_kind h')) ->
  (has GEN_MARKED h' = true -> has GEN_ACTIVE h' = true) -> held G (store x h' st).
Proof.
  intros [H1 H2 H3 H4] A1 A2 A3 A4. split; cbn.
  - intros y h. destruct (decide (y = x)) as [->|Hne]; [rewrite lookup_insert_eq; by intros [= <-]|rewrite lookup_insert_ne by done; apply H1].
  - intros y h. destruct (decide (y = x)) as [->|Hne]; [rewrite lookup_insert_eq; by intros [= <-]|rewrite lookup_insert_ne by done; apply H2].
  - intros y Hy. destruct (decide (y = x)) as [->|Hne]; [rewrite lookup_insert_eq; exists h'; by destruct (A3 Hy)|rewrite lookup_insert_ne by done; by apply H3].
  - intros y h. destruct (decide (y = x)) as [->|Hne]; [rewrite lookup_insert_eq; by intros [= <-]|rewrite lookup_insert_ne by done; apply H4].
Qed.

Lemma held_mem G st st' : mem st' = mem st -> held G st -> held G st'.
Proof. intros E [H1 H2 H3 H4]. split; by rewrite E. Qed.

Lemma frame_store G st x h' :
  (forall h, mem st !! x = Some h -> has GEN_MARKED h = true -> has GEN_MARKED h' = true) ->
  (x ∈ G -> forall h, mem st !! x = Some h -> is_socket (gh_kind h) -> is_socket (gh_kind h')) -> frame G st (store x h' st).
Proof.
  intros Hm Hs. split; [done|]. split.
  - intros y h Hy Hh. cbn. destruct (decide (y = x)) as [->|Hne].
    + rewrite lookup_insert_eq. exists h'. split; [done|]. by apply (Hm h).
    + rewrite lookup_insert_ne by done. by exists h.
  - intros y h HG Hy Hh. cbn. destruct (decide (y = x)) as [->|Hne].
    + rewrite lookup_insert_eq. exists h'. split; [done|]. by apply (Hs HG h).
    + rewrite lookup_insert_ne by done. by exists h.
Qed.

(** A change of a header in place: the two flags the lists rely on, the
    callback and the kind of structure stay. *)
Record same_place (h h' : GenHeader) : Prop := {
  sp_active : has GEN_ACTIVE h' = has GEN_ACTIVE h;
  sp_marked : has GEN_MARKED h' = has GEN_MARKED h;
  sp_call : gh_call h' = gh_call h;
  sp_kind : forall l, kind_in l (gh_kind h') <-> kind_in l (gh_kind h);
  sp_expire : expire_in h' = expire_in h;
  sp_flags : flags_ok h'
}.

Lemma rep_same B st L x h h' : ev_rep B st L -> mem st !! x = Some h ->
  (forall l, listed l h -> listed l h') -> expire_in h' = expire_in h -> flags_ok h' -> ev_rep B (store x h' st) L.
Proof.
  intros HR Hx H1 H2 H3. apply rep_store; [done|done|]. intros l Hl. destruct (er_listed _ _ _ HR l x Hl) as (h0 & E & Hh).
  rewrite Hx in E. injection E as <-. split; [by apply H1|]. by rewrite H2, (expire_of_some _ _ _ Hx).
Qed.

(** The structure is held once more, or once less. *)
Lemma inv_count B G G' st x h h' : inv B G st -> mem st !! x = Some h -> same_place h h' ->
  (forall y, y <> x -> holds G' y = holds G y) ->
  (x ∈ G' -> has GEN_ACTIVE h = true /\ ~ is_timer (gh_kind h)) ->
  (has GEN_ACTIVE h = true -> is_socket (gh_kind h) -> gh_ref h' = Z.of_nat (holds G' x)) ->
  inv B G' (store x h' st) /\ frame G st (store x h' st).
Proof.
  intros [[L HR] HH] Hx [S1 S2 S3 S5 S6 S7] HG Hin Href. split; [split|].
  - exists L. apply (rep_same _ _ _ _ h); [done|done| |done|done].
    intros l (K & A & M). split_and!; [by apply S5|congruence|congruence].
  - destruct HH as [H1 H2 H3 H4]. split; cbn [mem store set_mem].
    + intros y h0. destruct (decide (y = x)) as [->|Hne]; [rewrite lookup_insert_eq; intros [= <-]|rewrite lookup_insert_ne by done; apply H1].
      rewrite S1, S3. by apply (H1 x).
    + intros y h0. destruct (decide (y = x)) as [->|Hne]; [rewrite lookup_insert_eq; intros [= <-]|rewrite lookup_insert_ne by done].
      * rewrite S1. intros Ha Hs. apply Href; [done|]. by apply (S5 g_socket).
      * rewrite HG by done. apply H2.
    + intros y Hy. destruct (decide (y = x)) as [->|Hne].
      * rewrite lookup_insert_eq. exists h'. rewrite S1. destruct (Hin Hy) as [Ha Ht]. split_and!; [done|done|].
        intros Ht'. by apply Ht, (S5 g_timer).
      * rewrite lookup_insert_ne by done. apply H3. rewrite <- holds_in in *. by rewrite <- HG.
    + intros y h0. destruct (decide (y = x)) as [->|Hne]; [rewrite lookup_insert_eq; intros [= <-]|rewrite lookup_insert_ne by done; apply H4].
      rewrite S1, S2. by apply (H4 x).
  - apply frame_store; [|intros _]; intros h0 E; rewrite Hx in E; injection E as <-; [congruence|apply (S5 g_socket)].
Qed.

Lemma good_store B G st x h h' : inv B G st -> mem st !! x = Some h -> same_place h h' -> gh_ref h' = gh_ref h ->
  inv B G (store x h' st) /\ frame G st (store x h' st).
Proof.
  intros HI Hx HS Hr. apply (inv_count B G G st x h h'); try done.
  - intros Hin. destruct (hd_in _ _ (proj2 HI) x Hin) as (h0 & E & Ha & Ht). rewrite Hx in E. by injection E as <-.
  - intros Ha Hs. rewrite Hr. by apply (hd_ref _ _ (proj2 HI) x).
Qed.

Lemma inv_flags B G st x h : inv B G st -> mem st !! x = Some h -> flags_ok h.
Proof. intros [[L HR] _]. apply (er_flags _ _ _ HR). Qed.

Lemma gen_dequeue_rep B st L x :
  ev_rep B st L -> exists L', ev_rep B (gen_dequeue x st) L' /\ off L' x /\ forall l, L' l = filter (fun y => y <> x) (L l).
Proof.
  intros HR. destruct HR as [H1 H2 H3 H4 H5].
  assert (Hdec : (exists l, x ∈ L l) \/ off L x).
  { destruct (decide (x ∈ L g_socket)); [by left; exists g_socket|].
    destruct (decide (x ∈ L g_signal)); [by left; exists g_signal|].
    destruct (decide (x ∈ L g_timer)); [by left; exists g_timer|]. right. by intros []. }
  assert (Hfil : forall l : list ptr, x ∉ l -> filter (fun y => y <> x) l = l).
  { apply filter_off. }
  destruct Hdec as [[l Hx]|Hoff].
  - apply list_elem_of_split in Hx as (l1 & l2 & Hl).
    pose proof (p_unlink_reps _ _ _ _ _ _ H1 Hl) as HR. exists (set_list l (l1 ++ l2) L).
    pose proof (rp_nodup _ _ H1 l) as Hnd. rewrite Hl in Hnd. rewrite <- Permutation_middle in Hnd.
    apply NoDup_cons in Hnd as [Hx _]. apply not_elem_of_app in Hx as [Hx1 Hx2].
    assert (Hoth : forall l', l' <> l -> x ∉ L l').
    { intros l' Hne Hin. apply Hne, (rp_disj _ _ H1 _ _ x Hin). rewrite Hl. apply elem_of_app. right. left. }
    assert (Hfl : forall l', set_list l (l1 ++ l2) L l' = filter (fun y => y <> x) (L l')).
    { intros l'. destruct (decide (l' = l)) as [->|Hne].
      - rewrite set_list_eq, Hl, filter_app, filter_cons_False by auto. by rewrite !Hfil.
      - rewrite set_list_ne by done. by rewrite Hfil by by apply Hoth. }
    split_and!; [split; [done| |done| |done]| |done].
    + intros l' y. rewrite Hfl, list_elem_of_filter. intros [_ Hy]. by apply H2.
    + rewrite Hfl. by apply sorted_filter.
    + intros l'. rewrite Hfl, list_elem_of_filter. tauto.
  - exists L. destruct (p_unlink_off _ _ _ H1 Hoff) as (E1 & E2 & E3). split_and!; [split; [|done..]|done|].
    + cbn. eapply reps_ext; [|exact E2|exact E3|done]. intros h. by rewrite E1.
    + intros l. by rewrite Hfil.
Qed.

Lemma gen_dequeue_inv B G st x : inv B G st ->
  inv B G (gen_dequeue x st) /\ frame G st (gen_dequeue x st) /\ on_queue x (gen_dequeue x st) = false.
Proof.
  intros [[L HR] HH]. destruct (gen_dequeue_rep B st L x HR) as (L' & HR' & Hoff & _). split_and!.
  - split; [by exists L'|by apply (held_mem G st)].
  - split; [done|]. split; intros y h; eauto.
  - by apply (off_queue B _ L').
Qed.

(** The new structure [x], out of the lists, whatever the memory was. *)
Lemma rep_new B st L x h' : ev_rep B st L -> off L x -> flags_ok h' -> ev_rep B (store x h' st) L.
Proof. intros HR Hx Hf. apply rep_store; [done|done|]. intros l Hl. by destruct (Hx l). Qed.

Lemma insert_rep B st L l l1 l2 x h :
  ev_rep B st L -> off L x -> L l = l1 ++ l2 -> mem st !! x = Some h -> listed l h ->
  (l = g_timer -> Forall (fun y => expire_of st y <= expire_in h) l1 /\ Forall (fun y => expire_in h <= expire_of st y) l2) ->
  ev_rep B (set_gens (p_insert x (end_slot (SHead l) l1) (gens st)) st) (set_list l (l1 ++ x :: l2) L).
Proof.
  intros [H1 H2 H3 H4 H5] Hx Hl Hm Hh Hs. split; [by apply p_insert_reps| |done| |done].
  - intros l' y. destruct (decide (l' = l)) as [->|Hne]; [|rewrite set_list_ne by done; apply H2].
    rewrite set_list_eq. rewrite elem_of_app, elem_of_cons. intros [Hy|[->|Hy]].
    + apply H2. rewrite Hl. apply elem_of_app. by left.
    + by exists h.
    + apply H2. rewrite Hl. apply elem_of_app. by right.
  - destruct (decide (l = g_timer)) as [->|Hne]; [|by rewrite set_list_ne].
    destruct (Hs eq_refl) as [Hs1 Hs2]. rewrite set_list_eq. rewrite Hl in H4.
    assert (Hex : expire_of st x = expire_in h) by by apply expire_of_some.
    apply (sorted_insert (expire_of st)); [done|by rewrite Hex..].
Qed.

Lemma unused_spec B L G st x : ev_rep B st L -> held G st -> unused x st = true ->
  off L x /\ x ∉ G /\ forall h, mem st !! x = Some h -> has GEN_ACTIVE h = false /\ has GEN_MARKED h = false.
Proof.
  unfold unused. intros HR HH [Hq%negb_true_iff Hm]%andb_true_iff.
  assert (Hh : forall h, mem st !! x = Some h -> has GEN_ACTIVE h = false /\ has GEN_MARKED h = false).
  { intros h E. rewrite E in Hm. apply andb_true_iff in Hm as [?%negb_true_iff ?%negb_true_iff]. done. }
  split_and!; [by apply (off_queue B st L)| |done].
  intros Hin. destruct (hd_in _ _ HH x Hin) as (h & E & Ha & _). destruct (Hh h E). congruence.
Qed.

Lemma holds_zero G x : x ∉ G -> holds G x = 0%nat.
Proof. rewrite <- holds_in. lia. Qed.

(** The header that [gen_init] writes. *)
Definition new_header (flags : Z) (call : option nat) (data : Z) (kind : gen_kind) : GenHeader :=
  {| gh_flags := flags; gh_ref := 0; gh_call := call; gh_data := data; gh_kind := kind |}.

Lemma gen_init_inv B G st x call data kind l :
  inv B G st -> unused x st = true -> kind_in l kind -> l <> g_timer ->
  inv B G (gen_init x (Some call) data kind (Some l) st) /\ frame G st (gen_init x (Some call) data kind (Some l) st).
Proof.
  intros [[L HR] HH] Hu Hk Hnt. destruct (unused_spec _ _ _ _ _ HR HH Hu) as (Hq & HG & Hm). unfold gen_init.
  change {| gh_flags := _; gh_ref := _; gh_call := _; gh_data := _; gh_kind := _ |} with (new_header (Z.setbit 0 GEN_ACTIVE) (Some call) data kind).
  set (h := new_header _ _ _ _).
  assert (Hflags : flags_ok h) by (split; cbn; intros [=]).
  pose proof (rep_new B st L x h HR Hq Hflags) as HR'.
  assert (Hfr : frame G st (store x h st)).
  { apply frame_store; [|done]. intros h0 E Hmk. destruct (Hm h0 E). congruence. }
  assert (HH' : held G (store x h st)).
  { apply held_store; [done|done| |done|done]. intros _ _. by rewrite holds_zero. }
  split; [|exact Hfr]. split; [|by apply (held_mem G (store x h st))].
  exists (set_list l ([] ++ x :: L l) L). apply (insert_rep B (store x h st) L l [] (L l) x h); try done.
  cbn. apply lookup_insert_eq.
Qed.

Lemma with_kind_same h ty v e : is_timer (gh_kind h) -> flags_ok h -> flags_ok (with_kind (Timer ty v e) h).
Proof.
  intros Hk [H1 H2]. split; [done|]. intros Hd. specialize (H2 Hd). by destruct (gh_kind h).
Qed.

(** Where [timer_enqueue] puts a timer that is in no list. *)
Lemma timer_enqueue_spec B st L t h ty v e :
  ev_rep B st L -> off L t -> mem st !! t = Some h -> gh_kind h = Timer ty v e ->
  has GEN_ACTIVE h = true -> has GEN_MARKED h = false ->
  let expire := match ty with TT_ABSOLUTE => v | _ => v + CurrentTime st end in
  let st1 := store t (with_kind (Timer ty v expire) h) st in
  let s := span_at (fun y => expire <? expire_of st1 y) (L g_timer) in
  let st' := set_gens (p_insert t (end_slot (SHead g_timer) s.1) (gens st)) st1 in
  timer_enqueue t st = Done st' /\ ev_rep B st' (set_list g_timer (s.1 ++ t :: s.2) L).
Proof.
  intros HR Hq Ht Hk Ha Hm expire st1 s st'.
  pose proof (er_flags _ _ _ HR t h Ht) as Hfl. pose proof (with_kind_same h ty v expire) as Hfl1. rewrite Hk in Hfl1. specialize (Hfl1 I Hfl).
  pose proof (rep_new B st L t _ HR Hq Hfl1) as HR1. fold st1 in HR1.
  pose proof (rp_list _ _ (er_lists _ _ _ HR) g_timer) as Hl. pose proof (rp_nodup _ _ (er_lists _ _ _ HR) g_timer) as Hnd.
  split_and!.
  - unfold timer_enqueue, load_timer, load. rewrite Ht. cbn [bind]. rewrite Hk. cbn [bind].
    rewrite (proj2 (off_queue B st L t HR) Hq), Ha. cbn [assert negb andb].
    fold expire. fold st1. change (gens st1) with (gens st).
    by rewrite (find_slot_spec _ _ _ _ _ Hl (plist_fuel _ _ _ Hnd Hl)).
  - pose proof (span_at_app (fun y => expire <? expire_of st1 y) (L g_timer)) as Happ. fold s in Happ.
    apply (insert_rep B st1 L g_timer s.1 s.2 t (with_kind (Timer ty v expire) h)); [done|done|done|cbn; apply lookup_insert_eq|by split_and!|].
    intros _. unfold expire_in. cbn [gh_kind with_kind]. split.
    + rewrite Forall_forall. intros y Hy. apply span_at_fst in Hy. cbv beta in Hy. by apply Z.ltb_ge in Hy.
    + pose proof (er_sorted _ _ _ HR1) as Hs. rewrite <- Happ in Hs.
      pose proof (span_at_snd (fun y => expire <? expire_of st1 y) (L g_timer)) as Hhd. fold s in Hhd.
      clearbody s. apply sorted_app_r in Hs. destruct s.2 as [|y l2']; [constructor|]. specialize (Hhd y eq_refl). cbv beta in Hhd.
      apply Z.ltb_lt in Hhd. inversion Hs as [|? ? _ Hy]; subst. constructor; [lia|]. eapply Forall_impl; [exact Hy|]. cbv beta. lia.
Qed.

Lemma timer_enqueue_good B G st t h ty v e :
  inv B G st -> on_queue t st = false -> mem st !! t = Some h -> gh_kind h = Timer ty v e ->
  has GEN_ACTIVE h = true -> has GEN_MARKED h = false -> goodm B G st (timer_enqueue t st).
Proof.
  intros [[L HR] HH] Hq Ht Hk Ha Hm. apply (off_queue B st L t HR) in Hq.
  destruct (timer_enqueue_spec B st L t h ty v e HR Hq Ht Hk Ha Hm) as (-> & HR').
  set (h' := with_kind _ h) in *.
  assert (HG : t ∉ G) by (intros Hin; destruct (hd_in _ _ HH t Hin) as (h0 & E & _ & Hn); rewrite Ht in E; injection E as <-; rewrite Hk in Hn; by apply Hn).
  split; [split; [by eexists|]|].
  - eapply (held_mem _ (store t h' st)); [done|]. apply held_store; [done|intros _; by apply (hd_call _ _ HH t h)|done|done|].
    change (has GEN_MARKED h = true -> has GEN_ACTIVE h = true). by rewrite Ha.
  - change (frame G st (store t h' st)). apply frame_store; [|done]. intros h0 E. rewrite Ht in E. by injection E as <-.
Qed.

(** A structure that is not held is written anew, in no list. *)
Lemma good_new B G st x h' : inv B G st -> unused x st = true ->
  (has GEN_ACTIVE h' = false) -> (has GEN_MARKED h' = false) -> (has GEN_DESTROY h' = false) ->
  inv B G (store x h' st) /\ frame G st (store x h' st).
Proof.
  intros [[L HR] HH] Hu Ha Hm Hd. destruct (unused_spec _ _ _ _ _ HR HH Hu) as (Hq & HG & Hmm). split.
  - split.
    + exists L. apply rep_new; [done|done|]. split; congruence.
    + apply held_store; [done|congruence|congruence|done|congruence].
  - apply frame_store; [|done]. intros h0 E Hmk. destruct (Hmm h0 E). congruence.
Qed.

Lemma timer_init_good B G st t : inv B G st -> unused t st = true ->
  inv B G (timer_init t st) /\ frame G st (timer_init t st).
Proof.
  intros HI Hu.
  set (kind := match gh_kind <$> mem st !! t with Some (Timer ty v e) => Timer ty v e | _ => Timer TT_ABSOLUTE 0 0 end).
  assert (E : timer_init t st = set_gens (p_clear t (gens st)) (store t (new_header 0 None 0 kind) st)).
  { unfold timer_init, gen_init. fold kind. unfold store, set_mem, set_gens. cbn. f_equal. apply map_eq. intros i.
    destruct (decide (i = t)) as [->|Hi]; [by rewrite lookup_alter_eq, !lookup_insert_eq|by rewrite lookup_alter_ne, !lookup_insert_ne]. }
  rewrite E. destruct (good_new B G st t (new_header 0 None 0 kind) HI Hu) as [[[L HR] HH] Hf]; [done..|]. split; [|exact Hf].
  split; [|by apply (held_mem G (store t (new_header 0 None 0 kind) st))]. exists L.
  destruct HI as [[L0 HR0] HH0]. destruct (unused_spec _ _ _ _ _ HR0 HH0 Hu) as (Hq & _). apply (off_queue B st L0 t HR0) in Hq.
  apply (off_queue B (store t (new_header 0 None 0 kind) st) L t HR) in Hq.
  destruct HR as [A1 A2 A3 A4 A5]. split; [|done..]. cbn in *.
  destruct (rp_off _ _ A1 t Hq) as [O1 O2]. eapply reps_ext; [| | |exact A1]; [done|..]; cbn in *.
  - apply map_eq. intros i. destruct (decide (i = t)) as [->|Hi]; [by rewrite set_link_eq, O2|by rewrite set_link_ne].
  - apply map_eq. intros i. destruct (decide (i = t)) as [->|Hi]; [by rewrite lookup_partial_alter_eq, O1|by rewrite lookup_partial_alter_ne].
Qed.

(** What does not touch the generators. *)
Lemma inv_ext B G st st' : mem st' = mem st -> gens st' = gens st -> events_free st' = events_free st ->
  events_alloc st' = events_alloc st -> inv B G st -> inv B G st'.
Proof.
  intros E1 E2 E3 E4 [[L [H1 H2 H3 H4 H5]] HH]. split; [|by apply (held_mem G st)]. exists L. split; rewrite ?E1, ?E2, ?E3, ?E4; try done.
  unfold expire_of. by rewrite E1.
Qed.

Lemma frame_ext G st st' : mem st' = mem st -> CurrentTime st' = CurrentTime st -> frame G st st'.
Proof. intros E1 E2. split; [done|]. split; intros x h; rewrite E1; eauto. Qed.

Lemma goodm_ext B G st st' m : mem st' = mem st -> gens st' = gens st -> events_free st' = events_free st ->
  events_alloc st' = events_alloc st -> CurrentTime st' = CurrentTime st ->
  (inv B G st' -> goodm B G st' m) -> inv B G st -> goodm B G st m.
Proof.
  intros E1 E2 E3 E4 E5 H HI. eapply goodm_frame; [by apply frame_ext|]. apply H. by eapply inv_ext.
Qed.

Lemma goodm_store B G st x h h' m :
  inv B G st -> mem st !! x = Some h -> same_place h h' -> gh_ref h' = gh_ref h ->
  (inv B G (store x h' st) -> goodm B G (store x h' st) m) -> goodm B G st m.
Proof.
  intros HI Hx Hs Hr H. destruct (good_store B G st x h h' HI Hx Hs Hr) as [? ?]. eapply goodm_frame; [done|]. by apply H.
Qed.

Lemma goodm_done B G st : inv B G st -> goodm B G st (Done st).
Proof. intros HI. split; [done|]. reflexivity. Qed.

(** A timer that is held by no list is written anew. *)
Lemma good_timer B G st t h h' : inv B G st -> mem st !! t = Some h -> is_timer (gh_kind h) -> is_timer (gh_kind h') ->
  on_queue t st = false -> has GEN_MARKED h' = has GEN_MARKED h -> has GEN_DESTROY h' = false ->
  has GEN_ACTIVE h' = true -> gh_call h' <> None -> inv B G (store t h' st) /\ frame G st (store t h' st).
Proof.
  intros [[L HR] HH] Ht Hk Hk' Hq Hm Hd Ha Hc. apply (off_queue B st L t HR) in Hq.
  assert (HG : t ∉ G).
  { intros Hin. destruct (hd_in _ _ HH t Hin) as (h0 & E & _ & Hn). rewrite Ht in E. injection E as <-. by apply Hn. }
  split; [split; [exists L; apply rep_new; [done|done|]|]|].
  - split; [done|congruence].
  - apply held_store; [done|done| |done|done]. intros _. by destruct (gh_kind h').
  - apply frame_store; [|done]. intros h0 E. rewrite Ht in E. injection E as <-. congruence.
Qed.

(** A timer has no socket's flag. *)
Lemma timer_no_destroy B G st t h : inv B G st -> mem st !! t = Some h -> is_timer (gh_kind h) -> has GEN_DESTROY h = false.
Proof.
  intros HI Ht Hk. destruct (inv_flags _ _ _ _ _ HI Ht) as [_ F]. destruct (has GEN_DESTROY h); [|done]. specialize (F eq_refl).
  by destruct (gh_kind h).
Qed.

Lemma marked_off B G st t h : inv B G st -> mem st !! t = Some h -> has GEN_MARKED h = true -> on_queue t st = false.
Proof.
  intros [[L HR] _] Ht Hm. apply (off_queue B st L t HR). intros l Hl. destruct (er_listed _ _ _ HR l t Hl) as (h0 & E & _ & _ & ?). congruence.
Qed.

Lemma timer_add_good B G st t call data ty v : inv B G st -> allowed (OTimerAdd t call data ty v) st = true ->
  goodm B G st (timer_add t call data ty v st).
Proof.
  intros HI Hal. cbn [allowed] in Hal. apply andb_true_iff in Hal as [(h & Ht & Hb)%at_gen_true Hq%negb_true_iff].
  destruct (is_timer_b_true h Hb) as (ty0 & v0 & e0 & Hk). unfold timer_add. rewrite (load_timer_some _ _ _ _ _ _ _ Ht Hk). cbn [fst].
  assert (Hdes : has GEN_DESTROY h = false) by (apply (timer_no_destroy B G st t); [done..|by rewrite Hk]).
  set (h1 := set_flag GEN_ACTIVE h). set (h2 := if has GEN_MARKED h1 then set_flag GEN_READD h1 else h1).
  set (h3 := {| gh_flags := gh_flags h2; gh_ref := 0; gh_call := Some call; gh_data := data; gh_kind := Timer ty v 0 |}).
  assert (Hm1 : has GEN_MARKED h1 = has GEN_MARKED h) by (unfold h1; by rewrite has_set).
  assert (Hf : has GEN_MARKED h2 = has GEN_MARKED h /\ has GEN_DESTROY h2 = false /\ has GEN_ACTIVE h2 = true).
  { unfold h2. rewrite Hm1. unfold h1. destruct (has GEN_MARKED h) eqn:E; rewrite !has_set by done; rewrite ?E; auto. }
  destruct Hf as (Hm2 & Hd2 & Ha2).
  destruct (good_timer B G st t h h3) as [HI3 Hf3]; [done|done|by rewrite Hk|done|done|exact Hm2|exact Hd2|exact Ha2|done|].
  rewrite Hm2. destruct (has GEN_MARKED h) eqn:Em; [done|]. eapply goodm_frame; [exact Hf3|].
  apply (timer_enqueue_good B G _ t h3 ty v 0); [done|done|cbn; apply lookup_insert_eq|done|exact Ha2|exact Hm2].
Qed.

(** A change of the flags of a header. *)
Lemma same_place_set b h : 0 <= b -> b <> GEN_MARKED -> b <> GEN_ACTIVE -> (b = GEN_DESTROY -> is_socket (gh_kind h)) -> flags_ok h ->
  same_place h (set_flag b h).
Proof.
  intros Hb Hm Ha Hd [H1 H2]. assert (E : forall b', b' <> b -> has b' (set_flag b h) = has b' h).
  { intros b' Hne. rewrite has_set by done. by rewrite (proj2 (Z.eqb_neq b b')) by congruence. }
  split; try done; try (apply E; congruence). split; [by rewrite E by congruence|].
  rewrite has_set by done. intros [Eb%Z.eqb_eq|Hh]%orb_true_iff; [by apply Hd|by apply H2].
Qed.

Lemma same_place_clear b h : 0 <= b -> b <> GEN_MARKED -> b <> GEN_ACTIVE -> flags_ok h -> same_place h (clear_flag b h).
Proof.
  intros Hb Hm Ha [H1 H2].
  assert (E : forall b', b' <> b -> has b' (clear_flag b h) = has b' h).
  { intros b' Hne. rewrite has_clear by done. rewrite (proj2 (Z.eqb_neq b b')) by congruence. apply andb_true_r. }
  split; try done; try (apply E; congruence). split; [by rewrite E by congruence|].
  rewrite has_clear by done. intros [Hh _]%andb_true_iff. by apply H2.
Qed.

Lemma take_descriptor_inv B G st : inv B G st -> let '(d, st') := take_descriptor st in
  inv (d :: B) G st' /\ frame G st st' /\ mem st' = mem st /\ gens st' = gens st.
Proof.
  intros [[L [H1 H2 H3 H4 H5]] HH]. unfold take_descriptor.
  destruct (events_free st) as [|d f] eqn:Ef; (split_and!; [split; [exists L; split; try done; cbn [events_free events_alloc set_descriptors]|by apply (held_mem G st)]|by apply frame_ext|done|done]).
  - rewrite seq_S. cbn [app plus] in *. rewrite H5. apply Permutation_cons_append.
  - rewrite <- Permutation_middle. exact H5.
Qed.

Lemma give_descriptor_good B G d st : inv (d :: B) G st -> inv B G (give_descriptor d st) /\ frame G st (give_descriptor d st).
Proof.
  intros [[L [H1 H2 H3 H4 H5]] HH]. split; [|by apply frame_ext]. split; [|by apply (held_mem G st)]. exists L. split; try done.
  cbn. rewrite <- H5. apply Permutation_middle.
Qed.

(** ** Every call keeps the invariant, whatever the callbacks do *)

(** What an event asks of its generator: one of [ET_DESTROY] that nothing
    holds it, any other that a timer is expiring. *)
Definition ready (G : list ptr) st (ty : EventType) (g : ptr) (h : GenHeader) : Prop :=
  has GEN_ACTIVE h = true /\
  if decide (ty = ET_DESTROY) then on_queue g st = false /\ has GEN_MARKED h = false /\ g ∉ G
  else is_timer (gh_kind h) -> has GEN_MARKED h = true.

(** The count of a socket does not overflow: no more are held than calls are
    nested. *)
Definition fits (G : list ptr) (n : nat) : Prop := Z.of_nat (length G + n) < 2 ^ 32.

Record good_at (n : nat) : Prop := {
  ga_generate : forall B G ty g d st h, inv B G st -> fits G n -> mem st !! g = Some h -> ready G st ty g h ->
    goodm B G st (event_generate true engine callback n ty g d st);
  ga_execute : forall B G d ev st h, inv (d :: B) G st -> fits G (S n) -> mem st !! ev_gen ev = Some h -> ready G st (ev_type ev) (ev_gen ev) h ->
    goodm B G st (event_execute true engine callback n d ev (store (ev_gen ev) (with_count Z.succ h) st));
  ga_ref_dec : forall B G g st, inv B (g :: G) st -> fits G n -> goodm B G st (gen_ref_dec true engine callback n g st);
  ga_timer_dec : forall B G g st h, inv B G st -> fits G n -> mem st !! g = Some h -> is_timer (gh_kind h) ->
    goodm B G st (gen_ref_dec true engine callback n g st);
  ga_error : forall B G s err st h, inv B G st -> fits G n -> mem st !! s = Some h -> has GEN_ACTIVE h = true -> is_socket (gh_kind h) ->
    goodm B G st (engine_error true engine callback n s err st);
  ga_program : forall B G p st, inv B G st -> fits G n -> goodm B G st (run_program true engine callback n p st);
  ga_op : forall B G o st, inv B G st -> fits G n -> goodm B G st (run_op true engine callback n o st)
}.

Lemma good_zero : good_at 0.
Proof. by split. Qed.

Lemma fits_less G n : fits G (S n) -> fits G n.
Proof. unfold fits. lia. Qed.
#[local] Hint Resolve fits_less : core.

Section step_good.
Context (n : nat) (IH : good_at n).

Lemma generate_good B G ty g d st h : inv B G st -> fits G (S n) -> mem st !! g = Some h -> ready G st ty g h ->
  goodm B G st (event_generate true engine callback (S n) ty g d st).
Proof using IH.
  intros HI Hn Hg Hr. cbn [event_generate]. rewrite (load_some _ _ _ _ Hg).
  destruct (bool_decide (ty <> ET_DESTROY) && has GEN_DESTROY h); [by apply goodm_done|].
  pose proof (take_descriptor_inv B G st HI) as Ht. destruct (take_descriptor st) as [d' st1].
  destruct Ht as (HI1 & Hf1 & Hm & Hgs). eapply goodm_frame; [exact Hf1|]. rewrite <- Hm in Hg.
  apply (ga_execute n IH B G d' {| ev_type := ty; ev_data := d; ev_gen := g |} st1 h HI1 Hn Hg).
  cbn [ev_type ev_gen]. destruct Hr as [Ha Hr]. split; [done|]. case_decide; [|done]. unfold on_queue. rewrite Hgs. exact Hr.
Qed.

(** The header as it is during an event that is not [ET_DESTROY]. *)
Definition busy (ty : EventType) (h : GenHeader) : GenHeader :=
  if decide (ty = ET_ERROR) then set_flag GEN_ERROR (with_count Z.succ h) else with_count Z.succ h.

Lemma busy_same ty h : flags_ok h -> same_place h (busy ty h).
Proof using.
  intros Hf. assert (H1 : same_place h (with_count Z.succ h)) by by split.
  unfold busy. case_decide; [|done].
  destruct (same_place_set GEN_ERROR (with_count Z.succ h)) as [S1 S2 S3 S4 S5 S6]; [done..|]. by split.
Qed.

Lemma store_twice g h h' st : store g h' (store g h st) = store g h' st.
Proof using. unfold store, set_mem. cbn. by rewrite insert_insert_eq. Qed.

Lemma execute_destroy B G d ev st h : inv (d :: B) G st -> fits G (S n) -> mem st !! ev_gen ev = Some h -> ev_type ev = ET_DESTROY ->
  ready G st (ev_type ev) (ev_gen ev) h ->
  goodm B G st (event_execute true engine callback (S n) d ev (store (ev_gen ev) (with_count Z.succ h) st)).
Proof using IH.
  intros HI Hn Hg Ht [Ha Hr]. rewrite Ht in Hr. rewrite decide_True in Hr by done. destruct Hr as (Hq & Hm & HG).
  cbn [event_execute]. rewrite (load_some _ _ (with_count Z.succ h)) by (cbn; apply lookup_insert_eq).
  rewrite assert_true by exact Ha. cbv zeta. rewrite Ht. rewrite (decide_True (P := ET_DESTROY = ET_DESTROY)) by done. rewrite (decide_False (P := ET_DESTROY = ET_ERROR)) by congruence.
  rewrite store_twice. set (h1 := clear_flag GEN_ACTIVE (with_count Z.succ h)).
  change (gh_call h1) with (gh_call h). destruct (gh_call h) as [call|] eqn:Ec; [|by destruct (hd_call _ _ (proj2 HI) _ _ Hg Ha)].
  assert (A1 : has GEN_ACTIVE h1 = false) by (unfold h1; rewrite has_clear by done; apply andb_false_r).
  assert (M1 : has GEN_MARKED h1 = false) by (unfold h1; rewrite has_clear by done; change (has GEN_MARKED h && true = false); by rewrite Hm).
  assert (Hst : inv (d :: B) G (store (ev_gen ev) h1 st) /\ frame G st (store (ev_gen ev) h1 st)).
  { destruct (inv_flags _ _ _ _ _ HI Hg) as [F1 F2]. destruct HI as [[L HR] HH]. split; [split|].
    - exists L. apply rep_new; [done|by apply (off_queue (d :: B) st L _ HR)|]. split; [congruence|].
      unfold h1. rewrite has_clear by done. intros [Hd _]%andb_true_iff. by apply F2.
    - apply held_store; [done|congruence|congruence|done|congruence].
    - apply frame_store; [|done]. intros h0 E. rewrite Hg in E. injection E as <-. congruence. }
  destruct Hst as [HI2 Hf2]. eapply goodm_frame; [exact Hf2|]. eapply (goodm_bind (d :: B)); [apply (ga_program n IH); auto|].
  intros st3 HI3 Hf3. rewrite decide_True by done. cbn [bind]. by apply give_descriptor_good.
Qed.

Lemma execute_good B G d ev st h : inv (d :: B) G st -> fits G (S (S n)) -> mem st !! ev_gen ev = Some h ->
  ready G st (ev_type ev) (ev_gen ev) h ->
  goodm B G st (event_execute true engine callback (S n) d ev (store (ev_gen ev) (with_count Z.succ h) st)).
Proof using IH.
  intros HI Hn Hg Hr. destruct (decide (ev_type ev = ET_DESTROY)) as [Ht|Ht]; [by apply execute_destroy; auto|].
  destruct Hr as [Ha Hr]. rewrite decide_False in Hr by done. set (g := ev_gen ev) in *.
  cbn [event_execute]. fold g. rewrite (load_some _ _ (with_count Z.succ h)) by (cbn; apply lookup_insert_eq).
  rewrite assert_true by exact Ha. cbv zeta. rewrite (decide_False (P := ev_type ev = ET_DESTROY)) by done. rewrite store_twice.
  fold (busy (ev_type ev) h). set (h1 := busy (ev_type ev) h).
  pose proof (busy_same (ev_type ev) h (inv_flags _ _ _ _ _ HI Hg)) as HS. fold h1 in HS.
  destruct (gh_call h1) as [call|] eqn:Ec; [|rewrite (sp_call _ _ HS) in Ec; by destruct (hd_call _ _ (proj2 HI) _ _ Hg Ha)].
  assert (Hh1 : mem (store g h1 st) !! g = Some h1) by (cbn; apply lookup_insert_eq).
  assert (Hr1 : gh_ref h1 = (gh_ref h + 1) mod 2 ^ 32) by (unfold h1, busy; by case_decide).
  destruct (is_timer_b h) eqn:Etm.
  - destruct (is_timer_b_true h Etm) as (ty & v & e & Hk). rewrite Hk in Hr. specialize (Hr I).
    destruct (inv_count (d :: B) G G st g h h1) as [HI2 Hf2]; try done.
    { intros Hin. destruct (hd_in _ _ (proj2 HI) g Hin) as (h0 & E & _ & Hn0). rewrite Hg in E. injection E as <-. rewrite Hk in Hn0. by destruct Hn0. }
    { by rewrite Hk. }
    eapply goodm_frame; [exact Hf2|]. eapply (goodm_bind (d :: B)); [apply (ga_program n IH); auto|]. intros st3 HI3 Hf3.
    destruct Hf3 as (_ & Hm3 & _). destruct (Hm3 g h1 Hh1) as (h3 & Hg3 & Mk3); [rewrite (sp_marked _ _ HS); exact Hr|].
    rewrite (decide_False (P := ev_type ev = ET_DESTROY)) by done.
    eapply (goodm_bind (d :: B)); [|intros st4 HI4 _; by apply give_descriptor_good].
    apply (ga_timer_dec n IH _ _ _ _ h3); [done|auto|done|]. by apply (inv_flags _ _ _ _ _ HI3 Hg3).
  - assert (Hnt : ~ is_timer (gh_kind h)) by (unfold is_timer_b in Etm; destruct (gh_kind h); [by intros []..|done]).
    assert (Hst : inv (d :: B) (g :: G) (store g h1 st) /\ frame G st (store g h1 st)).
    { apply (inv_count (d :: B) G (g :: G) st g h h1); [done|done|done| |done|].
      - intros y Hy. rewrite holds_cons. by rewrite decide_False.
      - intros _ Hs. rewrite holds_cons, decide_True by done. rewrite Hr1, (hd_ref _ _ (proj2 HI) g h Hg Ha Hs).
        pose proof (holds_le G g). unfold fits in Hn. rewrite Z.mod_small; lia. }
    destruct Hst as [HI2 Hf2].
    eapply goodm_frame; [exact Hf2|].
    assert (Hn1 : fits (g :: G) n) by (unfold fits in *; cbn [length]; lia).
    apply (goodm_bind_held (d :: B) B G g); [by apply (ga_program n IH)|]. intros st3 HI3 _.
    rewrite (decide_False (P := ev_type ev = ET_DESTROY)) by done.
    eapply (goodm_bind (d :: B)); [apply (ga_ref_dec n IH); auto|]. intros st4 HI4 _. by apply give_descriptor_good.
Qed.

Lemma destroy_good B G g st h : inv B G st -> fits G n -> mem st !! g = Some h -> has GEN_ACTIVE h = true ->
  has GEN_MARKED h = false -> g ∉ G -> goodm B G st (event_generate true engine callback n ET_DESTROY g 0 (gen_dequeue g st)).
Proof using IH.
  intros HI Hn Hg Ha Hm HG. destruct (gen_dequeue_inv B G st g HI) as (HI1 & Hf1 & Hq). eapply goodm_frame; [exact Hf1|].
  apply (ga_generate n IH _ _ _ _ _ _ h); [done|done|done|]. split; [done|]. by rewrite decide_True.
Qed.

Lemma socket_flags B G st g h : inv B G st -> mem st !! g = Some h -> is_socket (gh_kind h) -> has GEN_MARKED h = false.
Proof using.
  intros HI Hg Hs. destruct (inv_flags _ _ _ _ _ HI Hg) as [F _]. destruct (has GEN_MARKED h); [|done]. specialize (F eq_refl).
  by destruct (gh_kind h).
Qed.

Lemma ref_dec_good B G g st : inv B (g :: G) st -> fits G (S n) -> goodm B G st (gen_ref_dec true engine callback (S n) g st).
Proof using IH.
  intros HI Hn. destruct (hd_in _ _ (proj2 HI) g ltac:(left)) as (h & Hg & Ha & Hnt). cbn [gen_ref_dec]. rewrite (load_some _ _ _ _ Hg). cbv zeta.
  set (h1 := with_count Z.pred h). pose proof (inv_flags _ _ _ _ _ HI Hg) as Hfl.
  assert (HS : same_place h h1) by by split.
  assert (Href : is_socket (gh_kind h) -> gh_ref h1 = Z.of_nat (holds G g)).
  { intros Hs. cbn. rewrite (hd_ref _ _ (proj2 HI) g h Hg Ha Hs), holds_cons, decide_True by done.
    pose proof (holds_le G g). unfold fits in Hn. rewrite Z.mod_small; lia. }
  destruct (inv_count B (g :: G) G st g h h1) as [HI1 Hf1]; try done.
  { intros y Hy. rewrite holds_cons. by rewrite decide_False. }
  eapply goodm_frame; [eapply frame_weaken; [|exact Hf1]; intros x Hx; by right|].
  destruct ((gh_ref h1 =? 0) && has GEN_DESTROY h1) eqn:Ed; [|by apply goodm_done].
  apply andb_true_iff in Ed as [Ez%Z.eqb_eq Ed]. assert (Hs : is_socket (gh_kind h)) by by apply Hfl.
  apply (destroy_good B G g _ h1); [done|auto|cbn; apply lookup_insert_eq|done|by apply (socket_flags B (g :: G) st g h)|].
  rewrite (Href Hs) in Ez. rewrite <- holds_in. lia.
Qed.

Lemma timer_dec_good B G g st h : inv B G st -> fits G (S n) -> mem st !! g = Some h -> is_timer (gh_kind h) ->
  goodm B G st (gen_ref_dec true engine callback (S n) g st).
Proof using.
  intros HI Hn Hg Hk. cbn [gen_ref_dec]. rewrite (load_some _ _ _ _ Hg). cbv zeta.
  pose proof (timer_no_destroy _ _ _ _ _ HI Hg Hk) as Hd. change (has GEN_DESTROY (with_count Z.pred h)) with (has GEN_DESTROY h).
  rewrite Hd, andb_false_r. pose proof (inv_flags _ _ _ _ _ HI Hg) as Hfl. apply (inv_count B G G st g h); try done.
  - intros Hin. destruct (hd_in _ _ (proj2 HI) g Hin) as (h0 & E & Hh). rewrite Hg in E. by injection E as <-.
  - by destruct (gh_kind h).
Qed.

Lemma program_good B G p st : inv B G st -> fits G (S n) -> goodm B G st (run_program true engine callback (S n) p st).
Proof using IH.
  intros HI Hn. cbn [run_program]. destruct p as [|o k]; [by apply goodm_done|].
  eapply (goodm_bind B); [apply (ga_op n IH); auto|]. intros st1 HI1 _. apply (ga_program n IH); auto.
Qed.

Lemma error_good B G s err st h : inv B G st -> fits G (S n) -> mem st !! s = Some h -> has GEN_ACTIVE h = true ->
  is_socket (gh_kind h) -> goodm B G st (engine_error true engine callback (S n) s err st).
Proof using IH.
  intros HI Hn Hs Ha Hk. cbn [engine_error]. destruct err; [|by apply goodm_done].
  apply (ga_generate n IH _ _ _ _ _ _ h); [done|auto|done|]. split; [done|]. rewrite decide_False by done. by destruct (gh_kind h).
Qed.

(** Writing the fields of a socket after the engine was told. *)
Lemma tell_good B G st s err e h (f : GenHeader -> SocketState -> Z -> Z -> gen_kind) :
  inv B G st -> fits G n -> mem st !! s = Some h -> has GEN_ACTIVE h = true -> is_socket (gh_kind h) -> may_report err h = true ->
  (forall h a b c, is_socket (f h a b c)) ->
  goodm B G st (let! st := engine_error true engine callback n s err (set_engine e st) in
              let! r := load_socket s st in
              let '(h, (a, b, c)) := r in Done (store s (with_kind (f h a b c) h) st)).
Proof using IH.
  intros HI Hn Hs Ha Hk Hr Hf. eapply (goodm_ext B G st (set_engine e st)); [done..| |done]. intros HI1.
  assert (Hsock : forall st2, inv B G st2 -> (exists h2, mem st2 !! s = Some h2 /\ is_socket (gh_kind h2)) ->
    goodm B G st2 (let! r := load_socket s st2 in let '(h, (a, b, c)) := r in Done (store s (with_kind (f h a b c) h) st2))).
  { intros st2 HI2 (h2 & Hs2 & Hk2). destruct (gh_kind h2) as [ss ev fd| |] eqn:Ek; try done.
    rewrite (load_socket_some _ _ _ _ _ _ _ Hs2 Ek). cbv beta iota. pose proof (inv_flags _ _ _ _ _ HI2 Hs2) as [F1 F2].
    specialize (Hf h2 ss ev fd). assert (Hm2 : has GEN_MARKED h2 = false) by (apply (socket_flags B G st2 s); [done|done|by rewrite Ek]).
    apply (good_store _ _ _ _ h2); [done|done| |done]. split; try done.
    - intros l. cbn. rewrite Ek. destruct (f h2 ss ev fd), l; done.
    - unfold expire_in. cbn. rewrite Ek. by destruct (f h2 ss ev fd).
    - split; [|done]. change (has GEN_MARKED h2 = true -> is_timer (gh_kind (with_kind (f h2 ss ev fd) h2))). by rewrite Hm2. }
  destruct err as [err|].
  - eapply (goodm_bind B); [by apply (ga_error n IH _ _ _ _ _ h)|]. intros st2 HI2 (_ & _ & HK). apply Hsock; [done|].
    apply (HK s h); [|done|done]. rewrite <- holds_in. cbn in Hr. apply negb_true_iff, Z.eqb_neq in Hr.
    rewrite (hd_ref _ _ (proj2 HI) s h Hs Ha Hk) in Hr. lia.
  - destruct n; [done|]. cbn [engine_error bind]. apply Hsock; [done|]. by exists h.
Qed.

Lemma timer_chg_good B G st t ty v : inv B G st -> allowed (OTimerChg t ty v) st = true -> goodm B G st (timer_chg t ty v st).
Proof using.
  intros HI Hal. cbn [allowed] in Hal. apply andb_true_iff in Hal as [Hal Hty]. apply andb_true_iff in Hal as [(h & Ht & Hb)%at_gen_true Hv].
  destruct (gh_kind h) as [| |ty0 v0 e0] eqn:Hk; try done. apply andb_true_iff in Hb as [Ha Hty0].
  unfold timer_chg. rewrite (load_timer_some _ _ _ _ _ _ _ Ht Hk). cbv beta iota. rewrite assert_true by (by rewrite Hv, Hty0, Hty). cbv zeta.
  set (h1 := with_kind (Timer ty v 0) h).
  pose proof (timer_no_destroy _ _ _ _ _ HI Ht ltac:(by rewrite Hk)) as Hd. pose proof (hd_call _ _ (proj2 HI) t h Ht Ha) as Hc.
  change (has GEN_MARKED h1) with (has GEN_MARKED h). destruct (has GEN_MARKED h) eqn:Em.
  - apply (good_timer _ _ _ _ h); try done; [by rewrite Hk|by apply (marked_off B G st t h)|..]; rewrite has_set by done; [by rewrite Em|exact Hd|exact Ha].
  - change (gen_dequeue t (store t h1 st)) with (store t h1 (gen_dequeue t st)).
    destruct (gen_dequeue_inv B G st t HI) as (HI1 & Hf1 & Hq). eapply goodm_frame; [exact Hf1|].
    destruct (good_timer B G (gen_dequeue t st) t h h1) as [HI2 Hf2]; try done; [by rewrite Hk|]. eapply goodm_frame; [exact Hf2|].
    apply (timer_enqueue_good B G _ t h1 ty v 0); [done|done|cbn; apply lookup_insert_eq|done|done|done].
Qed.

Lemma timer_not_held B G st t h : inv B G st -> mem st !! t = Some h -> is_timer (gh_kind h) -> t ∉ G.
Proof using. intros HI Ht Hk Hin. destruct (hd_in _ _ (proj2 HI) t Hin) as (h0 & E & _ & Hn). rewrite Ht in E. by injection E as <-. Qed.

Lemma timer_del_good B G st t : inv B G st -> fits G n -> allowed (OTimerDel t) st = true ->
  goodm B G st (run_op true engine callback (S n) (OTimerDel t) st).
Proof using IH.
  intros HI Hn Hal. cbn [run_op]. apply goodm_watch. intros _. apply at_gen_true in Hal as (h & Ht & [Hb Ha]%andb_true_iff).
  destruct (is_timer_b_true h Hb) as (ty & v & e & Hk). rewrite (load_timer_some _ _ _ _ _ _ _ Ht Hk). cbn [fst]. cbv zeta.
  pose proof (inv_flags _ _ _ _ _ HI Ht) as Hfl. set (h1 := clear_flag GEN_READD h).
  assert (HS : same_place h h1) by by apply same_place_clear.
  apply (goodm_store B G st t h h1); [done..|]. intros HI1.
  destruct (has GEN_MARKED h1) eqn:Em; [by apply goodm_done|].
  assert (Ht1 : mem (store t h1 st) !! t = Some h1) by (cbn; apply lookup_insert_eq).
  apply (destroy_good B G t _ h1); [done|done|done|by rewrite (sp_active _ _ HS)|done|]. apply (timer_not_held B G st t h); [done|done|by rewrite Hk].
Qed.

Lemma socket_add_good B G st s call data state ev fd : inv B G st -> fits G n -> allowed (OSocketAdd s call data state ev fd) st = true ->
  goodm B G st (run_op true engine callback (S n) (OSocketAdd s call data state ev fd) st).
Proof using IH.
  intros HI Hn Hal. cbn [run_op]. apply goodm_watch. intros _. cbn [allowed] in Hal. apply andb_true_iff in Hal as [Hu Hfd].
  rewrite assert_true by done. cbv zeta.
  destruct (gen_init_inv B G st s call data (Socket state (Z.land ev SOCK_EVENT_MASK) fd) g_socket HI Hu I ltac:(done)) as [HI1 Hf1].
  eapply goodm_frame; [exact Hf1|]. set (st1 := gen_init _ _ _ _ _ st) in *.
  assert (Hs : mem st1 !! s = Some (new_header (Z.setbit 0 GEN_ACTIVE) (Some call) data (Socket state (Z.land ev SOCK_EVENT_MASK) fd))) by (cbn; apply lookup_insert_eq).
  rewrite (load_some _ _ _ _ Hs). destruct (eng_add engine s _ (engine_state st1)) as [[ok err] e].
  eapply (goodm_ext B G st1 (set_engine e st1)); [done..| |done]. intros HI2.
  eapply (goodm_bind B); [by eapply (ga_error n IH)|]. intros st2 HI3 _.
  split; [by eapply inv_ext; [..|exact HI3]|by apply frame_ext].
Qed.

Lemma socket_del_good B G st s : inv B G st -> fits G n -> allowed (OSocketDel s) st = true ->
  goodm B G st (run_op true engine callback (S n) (OSocketDel s) st).
Proof using IH.
  intros HI Hn Hal. cbn [run_op]. apply goodm_watch. intros _. apply at_gen_true in Hal as (h & Hs & [[Hb Ha]%andb_true_iff Hd]%andb_true_iff).
  destruct (is_socket_b_true h Hb) as (ss & ev & fd & Hk). rewrite (load_socket_some _ _ _ _ _ _ _ Hs Hk). cbn [fst].
  rewrite assert_true by done. cbv zeta. set (e := eng_closing engine s h (engine_state st)).
  eapply (goodm_ext B G st (set_engine e st)); [done..| |done]. intros HI1.
  pose proof (inv_flags _ _ _ _ _ HI Hs) as Hfl. set (h1 := set_flag GEN_DESTROY h).
  assert (HS : same_place h h1) by (apply same_place_set; [done..|by rewrite Hk|done]).
  apply (goodm_store B G (set_engine e st) s h h1); [done..|]. intros HI2.
  destruct (Z.eqb_spec (gh_ref h1) 0) as [Hz|_]; [|by apply goodm_done].
  assert (Hs1 : mem (store s h1 (set_engine e st)) !! s = Some h1) by (cbn; apply lookup_insert_eq).
  apply (destroy_good B G s _ h1); [done|done|done|by rewrite (sp_active _ _ HS)| |].
  - rewrite (sp_marked _ _ HS). apply (socket_flags B G st s); [done|done|by rewrite Hk].
  - change (gh_ref h1) with (gh_ref h) in Hz. rewrite (hd_ref _ _ (proj2 HI) s h Hs Ha ltac:(by rewrite Hk)) in Hz. rewrite <- holds_in. lia.
Qed.

Lemma free_good B G st g : inv B G st -> unused g st = true -> goodm B G st (Done (set_mem (delete g (mem st)) st)).
Proof using.
  intros [[L HR] HH] Hu. destruct (unused_spec _ _ _ _ _ HR HH Hu) as (Hq & HG & Hm). split; [split|].
  - exists L. destruct HR as [H1 H2 H3 H4 H5]. split; [done| | | |done].
    + intros l x Hx. cbn. rewrite lookup_delete_ne by (intros ->; by apply (Hq l)). by apply H2.
    + intros x h. cbn. rewrite lookup_delete_Some. intros [_ Hx]. by apply (H3 x).
    + eapply sorted_ext; [|exact H4]. intros x Hx. unfold expire_of. cbn.
      rewrite lookup_delete_ne by (intros ->; by apply (Hq g_timer)). done.
  - destruct HH as [H1 H2 H3 H4]. split; cbn [mem set_mem].
    + intros x h. rewrite lookup_delete_Some. intros [_ Hx]. by apply (H1 x).
    + intros x h. rewrite lookup_delete_Some. intros [_ Hx]. by apply (H2 x).
    + intros x Hx. rewrite lookup_delete_ne by (intros ->; done). by apply H3.
    + intros x h. rewrite lookup_delete_Some. intros [_ Hx]. by apply (H4 x).
  - split; [done|]. split; intros x h.
    + intros Hx Hmk. exists h. split; [|done]. cbn. rewrite lookup_delete_ne; [done|]. intros ->. destruct (Hm h Hx). congruence.
    + intros Hin Hx Hs. exists h. split; [|done]. cbn. rewrite lookup_delete_ne; [done|]. intros ->. done.
Qed.

Lemma op_good B G o st : inv B G st -> fits G (S n) -> goodm B G st (run_op true engine callback (S n) o st).
Proof using IH.
  intros HI Hn%fits_less. destruct (allowed o st) eqn:Hal; [|cbn [run_op]; by rewrite Hal].
  destruct o as [t|t call data ty v|t|t ty v|s call data sig|s call data state ev fd|s|s state|s ev|ty g d|g|g|f].
  - cbn [run_op]. apply goodm_watch. intros _. by apply timer_init_good.
  - cbn [run_op]. apply goodm_watch. intros _. by apply timer_add_good.
  - by apply timer_del_good.
  - cbn [run_op]. apply goodm_watch. intros _. by apply timer_chg_good.
  - cbn [run_op]. apply goodm_watch. intros _.
    destruct (gen_init_inv B G st s call data (Signal sig) g_signal HI Hal I ltac:(done)) as [HI1 Hf1].
    unfold signal_add. cbn [goodm]. destruct (eng_signal engine); [|done].
    destruct (mem _ !! s); [|done]. split; [by eapply inv_ext; [..|exact HI1]|].
    etransitivity; [exact Hf1|]. by apply frame_ext.
  - by apply socket_add_good.
  - by apply socket_del_good.
  - cbn [run_op]. apply goodm_watch. intros _. apply at_gen_true in Hal as (h & Hs & Hb).
    destruct (gh_kind h) as [ss ev fd| |] eqn:Hk; try done. apply andb_true_iff in Hb as [Ha Hv].
    rewrite (load_socket_some _ _ _ _ _ _ _ Hs Hk). cbv beta iota. rewrite assert_true by done.
    destruct (has GEN_DESTROY h || has GEN_ERROR h); [by apply goodm_done|].
    destruct (eng_state engine s h state (engine_state st)) as [err e]. destruct (may_report err h) eqn:Hr; [|done]. cbn [watch andb negb].
    by apply (tell_good B G st s err e h (fun _ _ b c => Socket state b c)); [..|rewrite Hk| |].
  - cbn [run_op]. apply goodm_watch. intros _. apply at_gen_true in Hal as (h & Hs & [Hb Ha]%andb_true_iff).
    destruct (is_socket_b_true h Hb) as (ss & old & fd & Hk). rewrite (load_socket_some _ _ _ _ _ _ _ Hs Hk). cbv beta iota.
    destruct (has GEN_DESTROY h || has GEN_ERROR h); [by apply goodm_done|]. cbv zeta.
    destruct (old =? new_events ev old); [by apply goodm_done|].
    destruct (eng_events engine s h (new_events ev old) (engine_state st)) as [err e]. destruct (may_report err h) eqn:Hr; [|done]. cbn [watch andb negb].
    by apply (tell_good B G st s err e h (fun _ a _ c => Socket a (new_events ev old) c)); [..|rewrite Hk| |].
  - cbn [run_op]. apply goodm_watch. intros _. cbn [allowed] in Hal. apply andb_true_iff in Hal as [Hty%bool_decide_eq_true (h & Hg & [Ha Hb]%andb_true_iff)%at_gen_true].
    apply (ga_generate n IH _ _ _ _ _ _ h); [done|done|done|]. split; [done|]. rewrite decide_False by done.
    unfold is_timer_b in Hb. by destruct (gh_kind h).
  - cbn [run_op]. apply goodm_watch. intros _. apply at_gen_true in Hal as (h & Hg & _). rewrite (load_some _ _ _ _ Hg).
    pose proof (inv_flags _ _ _ _ _ HI Hg) as Hfl. apply (good_store _ _ _ _ h); [done|done|by apply same_place_clear|done].
  - cbn [run_op]. apply goodm_watch. intros _. cbn [allowed] in Hal. apply andb_true_iff in Hal as [Hu _]. by apply free_good.
  - cbn [run_op]. apply goodm_watch. intros _. split; [by eapply inv_ext; [..|exact HI]|by apply frame_ext].
Qed.
End step_good.

Lemma good_all n : good_at n.
Proof.
  induction n as [|n IH]; [apply good_zero|]. split; intros.
  - by eapply generate_good.
  - by apply execute_good.
  - by apply ref_dec_good.
  - by eapply timer_dec_good.
  - by eapply error_good.
  - by apply program_good.
  - by apply op_good.
Qed.

(** ** The timers *)

(** As [goodm], where the marks are not kept: [timer_run] is not called by
    callbacks. *)
Definition goodt (B : list nat) (G : list ptr) st (m : outcome evInfo) : Prop :=
  match m with Done st' => inv B G st' /\ CurrentTime st' = CurrentTime st | Failed => False | NoFuel | Broken => True end.

Lemma goodm_goodt B G st m : goodm B G st m -> goodt B G st m.
Proof. destruct m; cbn; try done. by intros [? [? _]]. Qed.

Lemma goodt_bind B G st m f :
  goodm B G st m -> (forall st', inv B G st' -> frame G st st' -> goodt B G st' (f st')) -> goodt B G st (bind m f).
Proof.
  destruct m as [st'| | |]; cbn; try done. intros [Hi Hf] H. specialize (H st' Hi Hf). destruct (f st'); cbn in *; try done.
  destruct H as [? ->]. split; [done|]. apply Hf.
Qed.

(** The timer that expires: out of the queue and marked. *)
Lemma mark_good B G t st h ty v e : inv B G st -> on_queue t st = false -> mem st !! t = Some h -> gh_kind h = Timer ty v e ->
  has GEN_ACTIVE h = true ->
  let h1 := if decide (ty = TT_PERIODIC) then set_flag GEN_READD (set_flag GEN_MARKED h) else set_flag GEN_MARKED h in
  inv B G (store t h1 st) /\ has GEN_MARKED h1 = true /\ has GEN_ACTIVE h1 = true /\ has GEN_DESTROY h1 = false /\
  gh_kind h1 = Timer ty v e /\ gh_call h1 = gh_call h.
Proof.
  intros HI Hq Ht Hk Ha h1. pose proof (timer_no_destroy _ _ _ _ _ HI Ht ltac:(by rewrite Hk)) as Hd.
  assert (F : has GEN_MARKED h1 = true /\ has GEN_ACTIVE h1 = true /\ has GEN_DESTROY h1 = false /\ gh_kind h1 = Timer ty v e /\ gh_call h1 = gh_call h).
  { unfold h1. destruct (decide _); rewrite !has_set by done; rewrite Ha, Hd; done. }
  split; [|done]. destruct F as (F1 & F2 & F3 & F4 & F5). pose proof (timer_not_held B G st t h HI Ht ltac:(by rewrite Hk)) as HG.
  destruct HI as [[L HR] HH]. split.
  - exists L. apply rep_new; [done|by apply (off_queue B st L t HR)|]. split; [intros _; by rewrite F4|congruence].
  - apply held_store; [done|intros _; rewrite F5; by apply (hd_call _ _ HH t h)|intros _; by rewrite F4|done|done].
Qed.

(** After its event, the mark is taken off. *)
Lemma unmark_good B G t st h : inv B G st -> mem st !! t = Some h -> has GEN_MARKED h = true ->
  let h1 := clear_flag GEN_MARKED h in
  inv B G (store t h1 st) /\ has GEN_MARKED h1 = false /\ has GEN_ACTIVE h1 = true /\ has GEN_DESTROY h1 = false /\
  on_queue t st = false /\ t ∉ G /\ is_timer (gh_kind h).
Proof.
  intros HI Ht Hm h1. pose proof (proj1 (inv_flags _ _ _ _ _ HI Ht) Hm) as Hk.
  pose proof (timer_no_destroy _ _ _ _ _ HI Ht Hk) as Hd. pose proof (timer_not_held B G st t h HI Ht Hk) as HG.
  pose proof (marked_off B G st t h HI Ht Hm) as Hq. pose proof (hd_marked _ _ (proj2 HI) t h Ht Hm) as Ha.
  assert (M1 : has GEN_MARKED h1 = false) by (unfold h1; rewrite has_clear by done; apply andb_false_r).
  assert (A1 : has GEN_ACTIVE h1 = true) by (unfold h1; rewrite has_clear by done; by rewrite Ha).
  assert (D1 : has GEN_DESTROY h1 = false) by (unfold h1; rewrite has_clear by done; by rewrite Hd).
  split_and!; try done. destruct HI as [[L HR] HH]. split.
  - exists L. apply rep_new; [done|by apply (off_queue B st L t HR)|]. split; congruence.
  - apply held_store; [done|intros _; by apply (hd_call _ _ HH t h)| |done|done].
    intros _ Hs. change (is_socket (gh_kind h)) in Hs. by destruct (gh_kind h).
Qed.

Lemma expire_timer_good n B G t st h ty v e : inv B G st -> fits G n -> mem st !! t = Some h -> gh_kind h = Timer ty v e ->
  has GEN_ACTIVE h = true -> has GEN_MARKED h = false -> goodt B G st (expire_timer true engine callback n t st).
Proof.
  intros HI Hn Ht Hk Ha Hm. unfold expire_timer. destruct (gen_dequeue_inv B G st t HI) as (HI1 & Hf1 & Hq1).
  set (st1 := gen_dequeue t st) in *. change (mem st) with (mem st1) in Ht.
  rewrite (load_timer_some _ _ _ _ _ _ _ Ht Hk). cbv beta iota zeta.
  destruct (mark_good B G t st1 h ty v e HI1 Hq1 Ht Hk Ha) as (HI2 & Hm1 & Ha1 & Hd1 & Hk1 & Hc1). revert HI2 Hm1 Ha1 Hd1 Hk1 Hc1.
  set (h1 := if decide (ty = TT_PERIODIC) then _ else _). intros HI2 Hm1 Ha1 Hd1 Hk1 Hc1.
  assert (Hmk : mem (store t h1 st1) !! t = Some h1) by (cbn; apply lookup_insert_eq).
  match goal with |- goodt _ _ _ ?m => change (goodt B G (store t h1 st1) m) end.
  eapply (goodt_bind B G (store t h1 st1)).
  { apply (ga_generate n (good_all n) _ _ _ _ _ _ h1); [done|done|done|]. split; [done|]. by rewrite decide_False. }
  intros st3 HI3 (_ & Hmk3 & _). destruct (Hmk3 t h1 Hmk Hm1) as (h3 & Ht3 & Hm3).
  destruct (unmark_good B G t st3 h3 HI3 Ht3 Hm3) as (HI4 & M4 & A4 & D4 & Q4 & G4 & K4).
  destruct (gh_kind h3) as [| |ty3 v3 e3] eqn:Hk3; try done. rewrite (load_timer_some _ _ _ _ _ _ _ Ht3 Hk3). cbn [fst]. cbv zeta.
  set (h4 := clear_flag GEN_MARKED h3) in *.
  assert (Ht4 : mem (store t h4 st3) !! t = Some h4) by (cbn; apply lookup_insert_eq).
  match goal with |- goodt _ _ _ ?m => change (goodt B G (store t h4 st3) m) end.
  destruct (has GEN_READD h4).
  - pose proof (timer_enqueue_good B G (store t h4 st3) t h4 ty3 v3 e3 HI4 Q4 Ht4 Hk3 A4 M4) as HE.
    destruct HI4 as [[L4 HR4] HH4].
    destruct (timer_enqueue_spec B (store t h4 st3) L4 t h4 ty3 v3 e3 HR4 (proj1 (off_queue B _ L4 t HR4) Q4) Ht4 Hk3 A4 M4) as (E5 & _).
    rewrite E5 in HE |- *. cbn [bind]. destruct HE as [HI5 _]. set (st5 := set_gens _ _) in *. set (h5 := with_kind _ h4) in *.
    assert (Ht5 : mem st5 !! t = Some h5) by (cbn; apply lookup_insert_eq).
    rewrite (load_timer_some _ _ _ _ _ _ _ Ht5 eq_refl). cbn [fst]. pose proof (inv_flags _ _ _ _ _ HI5 Ht5).
    destruct (good_store _ _ st5 t h5 (clear_flag GEN_READD h5) HI5 Ht5) as [HI6 Hf6]; [by apply same_place_clear|done|]. by split.
  - apply goodm_goodt, (ga_generate n (good_all n) _ _ _ _ _ _ h4); [done|done|done|]. split; [done|]. by rewrite decide_True.
Qed.

(** When [timer_run] returns no timer of the queue is due. *)
Lemma timer_run_good n B G : forall st, inv B G st -> fits G n ->
  match timer_run true engine callback n st with
  | Done st' => inv B G st' /\ CurrentTime st' = CurrentTime st /\
                forall t, on_queue t st' = true -> forall h ty v e, mem st' !! t = Some h -> gh_kind h = Timer ty v e -> CurrentTime st' < e
  | Failed => False
  | NoFuel | Broken => True
  end.
Proof.
  induction n as [|n IH]; intros st HI Hn; [done|]. cbn [timer_run]. pose proof HI as [[L HR] HH].
  pose proof (rp_list _ _ (er_lists _ _ _ HR) g_timer) as Hl. apply plist_head in Hl. cbn [slot_get] in Hl.
  assert (Hoff : forall x h ty v e, mem st !! x = Some h -> gh_kind h = Timer ty v e -> on_queue x st = true -> x ∈ L g_timer).
  { intros x h ty v e Hm Hk Hx. destruct (decide (x ∈ L g_timer)) as [|Hout]; [done|]. exfalso.
    assert (Ho : off L x).
    { intros l Hin. destruct (er_listed _ _ _ HR l x Hin) as (h0 & E & K & _). rewrite Hm in E. injection E as <-.
      rewrite Hk in K. by destruct l. }
    apply (off_queue B st L x HR) in Ho. congruence. }
  destruct (p_head (gens st) g_timer) as [t|] eqn:Eh.
  - assert (Hin : t ∈ L g_timer) by (revert Hl; destruct (L g_timer); [done|]; intros [= ->]; left).
    destruct (er_listed _ _ _ HR g_timer t Hin) as (h & Ht & K & Ha & Hm). destruct (gh_kind h) as [| |ty v e] eqn:Hk; try done.
    rewrite (expire_of_some _ _ _ Ht). unfold expire_in. rewrite Hk. destruct (CurrentTime st <? e) eqn:Elt.
    + split_and!; [done|done|]. intros x Hx h' ty' v' e' Hm' Hk'. specialize (Hoff x h' ty' v' e' Hm' Hk' Hx). apply Z.ltb_lt in Elt.
      pose proof (er_sorted _ _ _ HR) as Hs. revert Hl Hs Hoff. destruct (L g_timer) as [|y l]; [done|]. intros [= <-] Hs Hoff.
      assert (Hex : expire_of st x = e') by by rewrite (expire_of_some _ _ _ Hm'); unfold expire_in; rewrite Hk'.
      assert (Het : expire_of st t = e) by by rewrite (expire_of_some _ _ _ Ht); unfold expire_in; rewrite Hk.
      inversion Hs as [|? ? _ Hy]; subst. apply elem_of_cons in Hoff as [->|Hin']; [lia|]. rewrite Forall_forall in Hy.
      specialize (Hy x Hin'). lia.
    + pose proof (expire_timer_good n B G t st h ty v e HI ltac:(auto) Ht Hk Ha Hm) as Hg.
      destruct (expire_timer true engine callback n t st) as [st1| | |]; cbn [bind]; try done.
      destruct Hg as [HI1 Et]. specialize (IH st1 HI1 ltac:(auto)). destruct (timer_run true engine callback n st1); try done.
      destruct IH as (? & Et' & ?). split_and!; [done|congruence|done].
  - split_and!; [done|done|]. intros x Hx h ty v e Hm Hk. specialize (Hoff x h ty v e Hm Hk Hx). exfalso.
    revert Hl Hoff. destruct (L g_timer); [by intros _ ?%elem_of_nil|done].
Qed.

(** A turn of a socket: what the engine does not give back stays held. *)
Lemma check_good n G s l lost st : inv [] G st -> fits G (S n) ->
  match check_socket true engine callback n s l lost st with
  | Done st' => inv [] (if lost then s :: G else G) st'
  | Failed => False
  | NoFuel | Broken => True
  end.
Proof.
  intros HI Hn. unfold check_socket. destruct (_ && _) eqn:Hb; [|done]. cbn [watch andb negb].
  apply andb_true_iff in Hb as [Hl (h & Hs & [Hk Ha]%andb_true_iff)%at_gen_true].
  destruct (is_socket_b_true h Hk) as (ss & ev & fd & Ek). unfold gen_ref_inc. rewrite (load_some _ _ _ _ Hs). cbn [bind].
  set (h1 := with_count Z.succ h). pose proof (inv_flags _ _ _ _ _ HI Hs) as Hfl.
  assert (HI1 : inv [] (s :: G) (store s h1 st)).
  { apply (inv_count [] G (s :: G) st s h h1); [done|done|by split| | |].
    - intros y Hy. rewrite holds_cons. by rewrite decide_False.
    - intros _. rewrite Ek. split; [done|by intros []].
    - intros _ Hsock. rewrite holds_cons, decide_True by done. cbn. rewrite (hd_ref _ _ (proj2 HI) s h Hs Ha Hsock).
      pose proof (holds_le G s). unfold fits in Hn. rewrite Z.mod_small; lia. }
  assert (Hn1 : fits (s :: G) n) by (unfold fits in *; cbn [length]; lia).
  assert (Hgen : forall l st, forallb (fun e => bool_decide (e.1 <> ET_DESTROY)) l = true -> inv [] (s :: G) st ->
    goodm [] (s :: G) st (generate_all true engine callback n s l st)).
  { intros l0. induction l0 as [|[ty d] l0 IH]; intros st0 Hl0 HI0; cbn [generate_all]; [by apply goodm_done|].
    cbn [forallb fst] in Hl0. apply andb_true_iff in Hl0 as [Hty%bool_decide_eq_true Hl0].
    destruct (hd_in _ _ (proj2 HI0) s ltac:(left)) as (h0 & Hs0 & Ha0 & Ht0).
    eapply (goodm_bind []).
    - apply (ga_generate n (good_all n) _ _ _ _ _ _ h0); [done|done|done|]. split; [done|]. by rewrite decide_False.
    - intros st1 HI2 _. by apply IH. }
  specialize (Hgen l (store s h1 st) Hl HI1). destruct (generate_all true engine callback n s l (store s h1 st)) as [st2| | |]; cbn [bind]; try done.
  destruct Hgen as [HI2 _]. destruct lost; [done|].
  pose proof (ga_ref_dec n (good_all n) [] G s st2 HI2 ltac:(auto)) as Hd.
  destruct (gen_ref_dec true engine callback n s st2); try done. apply Hd.
Qed.

(** At the end of a step, no more sockets are held than turns were lost. *)
Lemma step_good n s k st : (exists G, inv [] G st /\ (length G <= k)%nat) -> Z.of_nat (S k + n) < 2 ^ 32 ->
  match run_step true engine callback n s st with
  | Done st' => exists G, inv [] G st' /\ (length G <= S k)%nat
  | Failed => False
  | NoFuel | Broken => True
  end.
Proof.
  intros (G & HI & HG) Hk. assert (Hn : fits G (S n)) by (unfold fits; lia).
  destruct s as [o|s l lost| |t]; cbn [run_step].
  - pose proof (ga_op n (good_all n) [] G o st HI ltac:(auto)) as H. destruct (run_op true engine callback n o st); try done.
    exists G. split; [apply H|lia].
  - pose proof (check_good n G s l lost st HI Hn) as H. destruct (check_socket true engine callback n s l lost st); try done.
    eexists. split; [exact H|]. destruct lost; cbn; lia.
  - pose proof (timer_run_good n [] G st HI ltac:(auto)) as H. destruct (timer_run true engine callback n st); try done.
    exists G. split; [apply H|lia].
  - exists G. split; [|lia]. destruct HI as [[L [H1 H2 H3 H4 H5]] HH]. split; [exists L; by split|by apply (held_mem G st)].
Qed.

Lemma run_steps_good n l : forall k st, (exists G, inv [] G st /\ (length G <= k)%nat) -> Z.of_nat (length l + k + n) < 2 ^ 32 ->
  match run_steps true engine callback n l st with
  | Done st' => exists G, inv [] G st' /\ (length G <= length l + k)%nat
  | Failed => False
  | NoFuel | Broken => True
  end.
Proof.
  induction l as [|s l IH]; intros k st HI Hk; cbn [run_steps length]; [done|].
  pose proof (step_good n s k st HI ltac:(cbn [length] in Hk; lia)) as Hs.
  destruct (run_step true engine callback n s st) as [st1| | |]; cbn [bind]; try done.
  specialize (IH (S k) st1 Hs ltac:(cbn [length] in Hk; lia)). destruct (run_steps true engine callback n l st1); try done.
  destruct IH as (G & HG & HL). exists G. split; [done|lia].
Qed.
End invariant.

Lemma run_steps_app {W EN} (w : bool) (engine : @Engine EN) (callback : nat -> Event -> @evInfo W EN -> @program W EN) n l1 l2 st :
  run_steps w engine callback n (l1 ++ l2) st = bind (run_steps w engine callback n l1 st) (run_steps w engine callback n l2).
Proof. revert st. induction l1 as [|s l1 IH]; intros st; cbn [app run_steps]; [done|]. by destruct (run_step _ _ _ n s st); cbn; rewrite ?IH. Qed.

(** ** Which timers expire

    Here the callbacks change the rest of the program, and when a timer
    expires its callback may add it again, as [try_connections] and
    [check_pings] of [ircd.c] do; they call nothing else of the event system.
    [timer_run] then takes the timers that are due in the order of the queue,
    and puts back those that were added again and those that are periodic. *)

Section quiet.
Context {W EN : Type} (engine : @Engine EN) (react : nat -> Event -> W -> W)
  (renew : nat -> Event -> W -> option (nat * Z * TimerType * Z)).
Implicit Types st : @evInfo W EN.

Definition quiet (c : nat) (ev : Event) (_ : @evInfo W EN) : @program W EN :=
  Call (OWorld (react c ev)) (fun st =>
    match (if decide (ev_type ev = ET_EXPIRE) then renew c ev (world st) else None) with
    | Some (c', data, type, value) => Call (OTimerAdd (ev_gen ev) c' data type value) (fun _ => Return)
    | None => Return
    end).

Record timer := { tm_ptr : ptr; tm_type : TimerType; tm_value : Z; tm_expire : Z; tm_call : nat }.

Definition is_at st (x : ptr) (a : timer) : Prop :=
  tm_ptr a = x /\ exists h, mem st !! x = Some h /\ gh_call h = Some (tm_call a) /\
    gh_kind h = Timer (tm_type a) (tm_value a) (tm_expire a) /\ has GEN_READD h = false.

Definition queue_rep st (q : list timer) : Prop :=
  exists L, ev_rep [] st L /\ held [] st /\ Forall2 (is_at st) (L g_timer) q.

Fixpoint insert_timer (a : timer) (q : list timer) : list timer :=
  match q with
  | [] => [a]
  | b :: q' => if tm_expire a <? tm_expire b then a :: q else b :: insert_timer a q'
  end.

(** A timer added at a time. *)
Definition added (now : Z) (x : ptr) (c : nat) (type : TimerType) (value : Z) : timer :=
  {| tm_ptr := x; tm_type := type; tm_value := value;
     tm_expire := match type with TT_ABSOLUTE => value | TT_RELATIVE | TT_PERIODIC => value + now end; tm_call := c |}.

Definition event_of (type : EventType) (a : timer) : Event := {| ev_type := type; ev_data := 0; ev_gen := tm_ptr a |}.

(** The turn of a timer that is due: the calls that its callback gets, and
    the timer that goes back. *)
Definition turn (now : Z) (a : timer) (w : W) : option timer * W :=
  let w := react (tm_call a) (event_of ET_EXPIRE a) w in
  match renew (tm_call a) (event_of ET_EXPIRE a) w with
  | Some (c, _, type, value) => (Some (added now (tm_ptr a) c type value), w)
  | None =>
      if decide (tm_type a = TT_PERIODIC) then (Some (added now (tm_ptr a) (tm_call a) TT_PERIODIC (tm_value a)), w)
      else (None, react (tm_call a) (event_of ET_DESTROY a) w)
  end.

Definition back (o : option timer) (q : list timer) : list timer := match o with Some b => insert_timer b q | None => q end.

Fixpoint run_queue (now : Z) (due rest : list timer) (w : W) : list timer * W :=
  match due with
  | [] => (rest, w)
  | a :: due => run_queue now due (back (turn now a w).1 rest) (turn now a w).2
  end.

(** A time to come. *)
Definition later (now : Z) (type : TimerType) (value : Z) : Prop :=
  match type with TT_ABSOLUTE => now < value | TT_RELATIVE | TT_PERIODIC => 0 < value end.

(** The events of a timer: in the state after them only its own header has
    changed.  The result does not depend on the fuel. *)
Lemma destroy_event t d st h c :
  mem st !! t = Some h -> has GEN_ACTIVE h = true -> gh_call h = Some c ->
  exists st' h', (forall b n, event_generate b engine quiet (6 + n) ET_DESTROY t d st = Done st') /\
    mem st' = <[t := h']> (mem st) /\ gens st' = gens st /\ CurrentTime st' = CurrentTime st /\
    world st' = react c {| ev_type := ET_DESTROY; ev_data := d; ev_gen := t |} (world st).
Proof.
  intros Ht Ha Hc. destruct (take_descriptor st) as [i st1] eqn:Ei.
  assert (E1 : mem st1 = mem st /\ gens st1 = gens st /\ CurrentTime st1 = CurrentTime st /\ world st1 = world st).
  { unfold take_descriptor in Ei. destruct (events_free st); injection Ei as <- <-; done. }
  destruct E1 as (E1 & E2 & E3 & E4). eexists _, _. split.
  { intros b n. cbn [plus]. cbn [event_generate]. unfold load. rewrite Ht. cbn [bind]. rewrite bool_decide_false by congruence. cbn [andb]. rewrite Ei.
    cbn [event_execute]. unfold load. cbn [mem store set_mem ev_gen ev_type]. rewrite lookup_insert_eq. cbn [bind].
    change (has GEN_ACTIVE (with_count Z.succ h)) with (has GEN_ACTIVE h). rewrite Ha. cbn [assert].
    destruct (decide (ET_DESTROY = ET_DESTROY)); [|done]. destruct (decide (ET_DESTROY = ET_ERROR)); [done|].
    cbn [gh_call with_count clear_flag with_flags]. rewrite Hc. cbn -[has with_count].
    destruct b; cbn -[has with_count]; destruct (decide (ET_DESTROY = ET_EXPIRE)); try done; cbn -[has with_count]; reflexivity. }
  cbn. rewrite E1, E2, E3, E4, !insert_insert_eq. by split_and!.
Qed.

Lemma expire_event t d st h c ty v e (ev := {| ev_type := ET_EXPIRE; ev_data := d; ev_gen := t |}) :
  mem st !! t = Some h -> has GEN_ACTIVE h = true -> has GEN_MARKED h = true -> has GEN_DESTROY h = false ->
  gh_call h = Some c -> gh_kind h = Timer ty v e -> on_queue t st = false ->
  exists st' h', (forall b n, event_generate b engine quiet (6 + n) ET_EXPIRE t d st = Done st') /\
    mem st' = <[t := h']> (mem st) /\ gens st' = gens st /\ CurrentTime st' = CurrentTime st /\
    world st' = react c ev (world st) /\ has GEN_MARKED h' = true /\
    match renew c ev (react c ev (world st)) with
    | Some (c', _, ty', v') => has GEN_READD h' = true /\ gh_call h' = Some c' /\ gh_kind h' = Timer ty' v' 0
    | None => has GEN_READD h' = has GEN_READD h /\ gh_call h' = Some c /\ gh_kind h' = Timer ty v e
    end.
Proof.
  intros Ht Ha Hm Hd Hc Hk Hq. destruct (take_descriptor st) as [i st1] eqn:Ei.
  assert (E1 : mem st1 = mem st /\ gens st1 = gens st /\ CurrentTime st1 = CurrentTime st /\ world st1 = world st).
  { unfold take_descriptor in Ei. destruct (events_free st); injection Ei as <- <-; done. }
  destruct E1 as (E1 & E2 & E3 & E4).
  assert (Hstart : forall b n, event_generate b engine quiet (6 + n) ET_EXPIRE t d st =
    let! st := run_program b engine quiet (4 + n) (quiet c ev (store t (with_count Z.succ h) st1)) (store t (with_count Z.succ h) st1) in
    let! st := gen_ref_dec b engine quiet (4 + n) t st in Done (give_descriptor i st)).
  { intros b n. cbn [plus]. cbn [event_generate]. unfold load. rewrite Ht. cbn [bind]. rewrite Hd, andb_false_r, Ei.
    cbn [event_execute]. unfold load. cbn [mem store set_mem ev_gen ev_type]. rewrite lookup_insert_eq. cbn [bind].
    change (has GEN_ACTIVE (with_count Z.succ h)) with (has GEN_ACTIVE h). rewrite Ha. cbn [assert].
    rewrite !decide_False by done. cbn [gh_call with_count]. rewrite Hc. unfold store, set_mem. cbn [mem].
    by rewrite insert_insert_eq. }
  destruct (renew c ev (react c ev (world st))) as [[[[c' d'] ty'] v']|] eqn:Er.
  - set (h2 := {| gh_flags := gh_flags (set_flag GEN_READD (set_flag GEN_ACTIVE (with_count Z.succ h))); gh_ref := 0; gh_call := Some c'; gh_data := d'; gh_kind := Timer ty' v' 0 |}).
    assert (F : forall b, has b h2 = (GEN_READD =? b) || ((GEN_ACTIVE =? b) || has b h)).
    { intros b. unfold h2. change (has b (set_flag GEN_READD (set_flag GEN_ACTIVE (with_count Z.succ h))) = (GEN_READD =? b) || ((GEN_ACTIVE =? b) || has b h)).
      by rewrite !has_set. }
    eexists _, _. split.
    { intros b n. rewrite Hstart. cbn [plus run_program quiet run_op]. cbn [ev_type ev].
      destruct (decide (ET_EXPIRE = ET_EXPIRE)) as [_|]; [|done].
      assert (Hw : forall m : outcome (@evInfo W EN), watch b true m = m) by (intros m; by destruct b).
      cbn [allowed]. rewrite Hw. cbn [bind world set_world store set_mem]. rewrite E4, Er. cbn [ev_gen ev].
      cbn [run_program run_op]. cbn [allowed].
      replace (at_gen t is_timer_b _ && negb (on_queue t _)) with true.
      2: { unfold at_gen, on_queue. cbn [mem set_world store set_mem gens]. rewrite lookup_insert_eq, E2. unfold is_timer_b. cbn [gh_kind with_count].
           rewrite Hk. cbn [andb]. unfold on_queue in Hq. by rewrite Hq. }
      rewrite Hw. unfold timer_add. rewrite (load_timer_some _ _ (with_count Z.succ h) ty v e); [|cbn; apply lookup_insert_eq|exact Hk]. cbn [fst].
      assert (Hm1 : has GEN_MARKED (set_flag GEN_ACTIVE (with_count Z.succ h)) = true) by (rewrite has_set by done; exact Hm). rewrite Hm1.
      assert (Hm2 : has GEN_MARKED (set_flag GEN_READD (set_flag GEN_ACTIVE (with_count Z.succ h))) = true) by (rewrite has_set by done; exact Hm1). rewrite Hm2.
      fold h2. cbn [bind]. cbn [gen_ref_dec]. rewrite (load_some _ _ h2) by (cbn; apply lookup_insert_eq). cbv zeta.
      replace (has GEN_DESTROY (with_count Z.pred h2)) with false; [|symmetry; change (has GEN_DESTROY h2 = false); rewrite F; exact Hd].
      rewrite andb_false_r. cbn [bind]. reflexivity. }
    cbn. rewrite E1, E2, E3, ?E4, !insert_insert_eq. split_and!; try done.
    + change (has GEN_MARKED h2 = true). rewrite F. exact Hm.
    + change (has GEN_READD h2 = true). by rewrite F.
  - eexists _, _. split.
    { intros b n. rewrite Hstart. cbn [plus run_program quiet run_op]. cbn [ev_type ev].
      destruct (decide (ET_EXPIRE = ET_EXPIRE)) as [_|]; [|done].
      assert (Hw : forall m : outcome (@evInfo W EN), watch b true m = m) by (intros m; by destruct b).
      cbn [allowed]. rewrite Hw. cbn [bind world set_world store set_mem]. rewrite E4, Er. cbn [run_program bind].
      cbn [gen_ref_dec]. rewrite (load_some _ _ (with_count Z.succ h)) by (cbn; apply lookup_insert_eq). cbv zeta.
      replace (has GEN_DESTROY (with_count Z.pred (with_count Z.succ h))) with false by (symmetry; exact Hd).
      rewrite andb_false_r. cbn [bind]. reflexivity. }
    cbn. rewrite E1, E2, E3, ?E4, !insert_insert_eq. by split_and!.
Qed.

Lemma is_at_frame st st' l q : (forall y, y ∈ l -> mem st' !! y = mem st !! y) ->
  Forall2 (is_at st) l q -> Forall2 (is_at st') l q.
Proof.
  intros Hf H. induction H as [|x a l q Hx H IH]; [constructor|]. constructor.
  - destruct Hx as (? & h & Hh & Hr). split; [done|]. exists h. split; [|done]. rewrite Hf; [done|left].
  - apply IH. intros y Hy. apply Hf. by right.
Qed.

Lemma same_list B st st' L L' : ev_rep B st L -> ev_rep B st' L' -> gens st' = gens st -> L' g_timer = L g_timer.
Proof.
  intros [H1 _ _ _ _] [H2 _ _ _ _] E. rewrite E in H2. eapply plist_inj; [apply (rp_list _ _ H2)|apply (rp_list _ _ H1)].
Qed.

Lemma insert_timer_span st l q x a :
  Forall2 (is_at st) l q -> is_at st x a ->
  let s := span_at (fun y => tm_expire a <? expire_of st y) l in
  Forall2 (is_at st) (s.1 ++ x :: s.2) (insert_timer a q).
Proof.
  intros H Hx. induction H as [|y b l q Hy H IH]; cbn -[is_at]; [constructor; [done|constructor]|].
  assert (E : expire_of st y = tm_expire b).
  { destruct Hy as (_ & h & Hh & _ & Hk & _). rewrite (expire_of_some _ _ _ Hh). unfold expire_in. by rewrite Hk. }
  rewrite E. destruct (tm_expire a <? tm_expire b); cbn -[is_at]; constructor; [done| |done|done]. by constructor.
Qed.


Lemma fits_six : fits [] (6 + 0).
Proof. by vm_compute. Qed.

Lemma expire_quiet n st a q : queue_rep st (a :: q) ->
  exists st', expire_timer false engine quiet (6 + n) (tm_ptr a) st = Done st' /\
    queue_rep st' (back (turn (CurrentTime st) a (world st)).1 q) /\
    CurrentTime st' = CurrentTime st /\ world st' = (turn (CurrentTime st) a (world st)).2.
Proof.
  intros (L & HR & HH & HL). inversion HL as [|x ? l ? Ha HLq E1 E2]; subst. symmetry in E1. destruct Ha as (<- & h & Hh & Hc & Hk & Hr).
  set (x := tm_ptr a) in *.
  destruct (er_listed _ _ _ HR g_timer x ltac:(rewrite E1; left)) as (h0 & Eh & _ & Hact & Hmk). rewrite Hh in Eh. injection Eh as <-.
  pose proof (rp_nodup _ _ (er_lists _ _ _ HR) g_timer) as Hnd. rewrite E1 in Hnd. apply NoDup_cons in Hnd as [Hxl _].
  destruct (gen_dequeue_rep [] st L x HR) as (L1 & HR1 & Hoff1 & HL1). specialize (HL1 g_timer). rewrite E1, filter_cons_False in HL1 by tauto.
  assert (Hfl : filter (fun y => y <> x) l = l) by (apply filter_off; done). rewrite Hfl in HL1. clear Hfl.
  unfold expire_timer. set (st1 := gen_dequeue x st) in *. change (mem st) with (mem st1) in Hh.
  assert (HI1 : inv [] [] st1) by (split; [by exists L1|by apply (held_mem [] st)]).
  assert (Hq1 : on_queue x st1 = false) by by apply (off_queue [] st1 L1).
  rewrite (load_timer_some _ _ _ _ _ _ _ Hh Hk). cbv beta iota zeta.
  destruct (mark_good [] [] x st1 h _ _ _ HI1 Hq1 Hh Hk Hact) as (HI2 & F1 & F2 & F3 & F4 & F5).
  assert (F6 : has GEN_READD (if decide (tm_type a = TT_PERIODIC) then set_flag GEN_READD (set_flag GEN_MARKED h) else set_flag GEN_MARKED h) =
    bool_decide (tm_type a = TT_PERIODIC)).
  { destruct (decide (tm_type a = TT_PERIODIC)) as [Ep|Ep]; rewrite !has_set by done; [by rewrite bool_decide_true|by rewrite bool_decide_false, Hr]. }
  revert HI2 F1 F2 F3 F4 F5 F6. set (h1 := if decide (tm_type a = TT_PERIODIC) then _ else _). intros HI2 F1 F2 F3 F4 F5 F6.
  assert (Hx2 : mem (store x h1 st1) !! x = Some h1) by (cbn; apply lookup_insert_eq).
  destruct (expire_event x 0 (store x h1 st1) h1 (tm_call a) _ _ _ Hx2 F2 F1 F3 ltac:(congruence) F4 Hq1) as (st3 & h3 & E3 & M3 & G3 & T3 & W3 & Mk3 & C3).
  rewrite (E3 false n). cbn [bind].
  assert (HI3 : inv [] [] st3).
  { pose proof (ga_generate _ _ _ (good_all engine quiet (6 + 0)) [] [] ET_EXPIRE x 0 (store x h1 st1) h1 HI2 fits_six Hx2) as HG3.
    rewrite (E3 true 0%nat) in HG3. apply HG3. split; [done|]. by rewrite decide_False. }
  assert (Hx3 : mem st3 !! x = Some h3) by (rewrite M3; apply lookup_insert_eq).
  destruct (unmark_good [] [] x st3 h3 HI3 Hx3 Mk3) as (HI4 & M4 & A4 & D4 & Q4 & _ & K4).
  set (h4 := clear_flag GEN_MARKED h3) in *.
  assert (HL3 : exists L3, ev_rep [] st3 L3 /\ L3 g_timer = l).
  { destruct HI3 as [[L3 HR3] _]. exists L3. split; [done|]. destruct HI2 as [[L2 HR2] _].
    rewrite (same_list _ _ _ _ _ HR2 HR3 G3), <- HL1. by apply (same_list [] st1 (store x h1 st1)). }
  destruct HL3 as (L3 & HR3 & HL3).
  assert (HL4 : exists L4, ev_rep [] (store x h4 st3) L4 /\ held [] (store x h4 st3) /\ L4 g_timer = l).
  { destruct HI4 as [[L4 HR4] HH4]. exists L4. split_and!; [done|done|]. rewrite <- HL3. by apply (same_list [] st3 (store x h4 st3)). }
  destruct HL4 as (L4 & HR4 & HH4 & HL4).
  assert (Hx4 : mem (store x h4 st3) !! x = Some h4) by (cbn; apply lookup_insert_eq).
  assert (Hother : forall y, y ∈ l -> mem (store x h4 st3) !! y = mem st !! y).
  { intros y Hy. assert (y <> x) by (intros ->; done). cbn. rewrite lookup_insert_ne by done. rewrite M3. cbn. by rewrite !lookup_insert_ne. }
  (* the timer as it is after the event, and whether it goes back *)
  assert (Hback : exists c ty v e, gh_call h4 = Some c /\ gh_kind h4 = Timer ty v e /\
    (if has GEN_READD h4 then turn (CurrentTime st) a (world st) = (Some (added (CurrentTime st) x c ty v), world st3)
     else c = tm_call a /\ turn (CurrentTime st) a (world st) = (None, react (tm_call a) (event_of ET_DESTROY a) (world st3)))).
  { unfold turn. change {| ev_type := ET_EXPIRE; ev_data := 0; ev_gen := x |} with (event_of ET_EXPIRE a) in W3, C3.
    change (world (store x h1 st1)) with (world st) in W3, C3. rewrite W3.
    assert (R4 : has GEN_READD h4 = has GEN_READD h3) by (unfold h4; rewrite has_clear by done; apply andb_true_r). rewrite R4.
    destruct (renew (tm_call a) (event_of ET_EXPIRE a) (react (tm_call a) (event_of ET_EXPIRE a) (world st))) as [[[[c' d'] ty'] v']|].
    - destruct C3 as (R3 & Cc & Ck). exists c', ty', v', 0. split_and!; [done|done|]. by rewrite R3.
    - destruct C3 as (R3 & Cc & Ck). exists (tm_call a), (tm_type a), (tm_value a), (tm_expire a). split_and!; [done|done|]. rewrite R3, F6.
      destruct (decide (tm_type a = TT_PERIODIC)) as [Ep|Ep]; [rewrite bool_decide_true by done; by rewrite Ep|by rewrite bool_decide_false]. }
  destruct Hback as (c & ty & v & e & C4 & Kk4 & Ht). rewrite (load_timer_some _ _ _ _ _ _ _ Hx3 (Kk4 : gh_kind h3 = _)). cbn [fst]. cbv zeta. fold h4.
  destruct (has GEN_READD h4); cbn [fst snd back].
  - rewrite Ht. cbn [fst snd back].
    destruct (timer_enqueue_spec [] (store x h4 st3) L4 x h4 _ _ _ HR4 (proj1 (off_queue [] _ L4 x HR4) Q4) Hx4 Kk4 A4 M4) as (E5 & HR5).
    pose proof (timer_enqueue_good [] [] (store x h4 st3) x h4 _ _ _ HI4 Q4 Hx4 Kk4 A4 M4) as HI5. rewrite E5 in HI5 |- *. cbn [bind]. clear E5.
    destruct HI5 as [HI5 _]. set (st5 := set_gens _ (store x (with_kind _ h4) _)) in *.
    set (h5 := with_kind _ h4) in *.
    assert (Hx5 : mem st5 !! x = Some h5) by (cbn; apply lookup_insert_eq).
    rewrite (load_timer_some _ _ _ _ _ _ _ Hx5 eq_refl). cbn [fst]. pose proof (inv_flags _ _ _ _ _ HI5 Hx5) as Hf5.
    destruct (good_store [] [] st5 x h5 (clear_flag GEN_READD h5) HI5 Hx5) as [HI6 _]; [by apply same_place_clear|done|].
    eexists. split; [done|]. split_and!; [|cbn; by rewrite T3|done].
    destruct HI6 as [[L6 HR6] HH6]. exists L6. split; [done|]. split; [done|].
    rewrite (same_list _ _ _ _ _ HR5 HR6 eq_refl), set_list_eq, HL4.
    set (st6 := store x (clear_flag GEN_READD h5) st5) in *.
    assert (Hx6 : is_at st6 x (added (CurrentTime st) x c ty v)).
    { split; [done|]. exists (clear_flag GEN_READD h5). cbn -[has clear_flag]. rewrite lookup_insert_eq. split; [done|]. split; [exact C4|].
      split; [cbn; by rewrite T3|]. rewrite has_clear by done. apply andb_false_r. }
    assert (HL6 : Forall2 (is_at st6) l q).
    { eapply is_at_frame; [|exact HLq]. intros y Hy. assert (y <> x) by (intros ->; done). rewrite <- (Hother y Hy).
      cbn. by rewrite !lookup_insert_ne. }
    pose proof (insert_timer_span st6 l q x _ HL6 Hx6) as Hspan. cbv zeta in Hspan.
    erewrite span_at_ext; [exact Hspan|]. intros y Hy. assert (y <> x) by (intros ->; done).
    cbn [tm_expire added]. cbn [CurrentTime store set_mem]. rewrite T3. f_equal. unfold expire_of. cbn. by rewrite !lookup_insert_ne.
  - destruct Ht as [-> Ht]. rewrite Ht. cbn [fst snd back].
    destruct (destroy_event x 0 (store x h4 st3) h4 (tm_call a) Hx4 A4 C4) as (st5 & h5 & E5 & M5 & G5 & T5 & W5).
    rewrite (E5 false n). exists st5. split; [done|].
    assert (HI5 : inv [] [] st5).
    { pose proof (ga_generate _ _ _ (good_all engine quiet (6 + 0)) [] [] ET_DESTROY x 0 (store x h4 st3) h4 HI4 fits_six Hx4) as HG5.
      rewrite (E5 true 0%nat) in HG5. apply HG5. split; [done|]. rewrite decide_True by done. split_and!; [done|done|by intros ?%elem_of_nil]. }
    split_and!; [|by rewrite T5; cbn; rewrite T3|exact W5].
    destruct HI5 as [[L5 HR5] HH5]. exists L5. split; [done|]. split; [done|]. rewrite (same_list _ _ _ _ _ HR4 HR5 G5), HL4. eapply is_at_frame; [|exact HLq].
    intros y Hy. assert (y <> x) by (intros ->; done). rewrite <- (Hother y Hy), M5. cbn. by rewrite !lookup_insert_ne.
Qed.

Lemma insert_timer_app a due rest :
  Forall (fun b => tm_expire b <= tm_expire a) due -> insert_timer a (due ++ rest) = due ++ insert_timer a rest.
Proof.
  induction 1 as [|b due Hb _ IH]; [done|]. cbn [app insert_timer]. rewrite (proj2 (Z.ltb_ge _ _) Hb). by rewrite IH.
Qed.

Lemma insert_timer_late now a rest :
  now < tm_expire a -> Forall (fun b => now < tm_expire b) rest -> Forall (fun b => now < tm_expire b) (insert_timer a rest).
Proof.
  intros Ha. induction 1 as [|b rest Hb Hr IH]; cbn [insert_timer]; [by repeat constructor|].
  destruct (tm_expire a <? tm_expire b); by repeat constructor.
Qed.

Lemma back_late now o rest : (forall b, o = Some b -> now < tm_expire b) ->
  Forall (fun b => now < tm_expire b) rest -> Forall (fun b => now < tm_expire b) (back o rest).
Proof. intros Ho Hr. destruct o as [b|]; [|done]. apply insert_timer_late; [by apply Ho|done]. Qed.

Lemma back_app o due rest : (forall b, o = Some b -> Forall (fun c => tm_expire c <= tm_expire b) due) -> back o (due ++ rest) = due ++ back o rest.
Proof. intros Ho. destruct o as [b|]; [|done]. by apply insert_timer_app, Ho. Qed.

(** The head of the queue. *)
Lemma queue_rep_head st q : queue_rep st q ->
  match q with
  | [] => p_head (gens st) g_timer = None
  | a :: _ => p_head (gens st) g_timer = Some (tm_ptr a) /\ expire_of st (tm_ptr a) = tm_expire a
  end.
Proof.
  intros (L & HR & _ & HL). pose proof (rp_list _ _ (er_lists _ _ _ HR) g_timer) as Hl. apply plist_head in Hl. cbn [slot_get] in Hl.
  rewrite Hl. inversion HL as [|x a l q' Ha _ E1 E2]; [done|]. destruct Ha as (-> & h & Hh & _ & Hk & _). split; [done|].
  rewrite (expire_of_some _ _ _ Hh). unfold expire_in. by rewrite Hk.
Qed.

(** What goes back is not due again in the same turn. *)
Definition renewals_late (now : Z) : Prop := forall c ev w c' d ty v, renew c ev w = Some (c', d, ty, v) -> later now ty v.

Lemma added_late now x c ty v : later now ty v -> now < tm_expire (added now x c ty v).
Proof. unfold later. cbn. destruct ty; lia. Qed.

Lemma turn_late now a w b : renewals_late now -> (tm_type a = TT_PERIODIC -> 0 < tm_value a) ->
  (turn now a w).1 = Some b -> now < tm_expire b.
Proof.
  intros Hr Hp. unfold turn. destruct (renew _ _ _) as [[[[c d] ty] v]|] eqn:E.
  - intros [= <-]. by eapply added_late, Hr.
  - destruct (decide _) as [Ep|]; [|done]. intros [= <-]. apply added_late. by apply Hp.
Qed.

Lemma timer_run_due due : forall rest st n,
  queue_rep st (due ++ rest) -> renewals_late (CurrentTime st) ->
  Forall (fun a => tm_expire a <= CurrentTime st /\ (tm_type a = TT_PERIODIC -> 0 < tm_value a)) due ->
  Forall (fun a => CurrentTime st < tm_expire a) rest -> (length due + 7 <= n)%nat ->
  exists st', timer_run false engine quiet n st = Done st' /\ queue_rep st' (run_queue (CurrentTime st) due rest (world st)).1 /\
    CurrentTime st' = CurrentTime st /\ world st' = (run_queue (CurrentTime st) due rest (world st)).2.
Proof.
  induction due as [|a due IH]; intros rest st n HQ Hre Hdue Hrest Hn; (destruct n as [|n]; [lia|]); cbn [timer_run run_queue fst snd].
  - pose proof (queue_rep_head st rest HQ) as Hh. destruct rest as [|b rest].
    + rewrite Hh. by exists st.
    + destruct Hh as [-> ->]. apply Forall_cons in Hrest as [Hb _]. rewrite (proj2 (Z.ltb_lt _ _) Hb). by exists st.
  - pose proof (queue_rep_head st _ HQ) as [Hh He]. rewrite Hh, He. apply Forall_cons in Hdue as [[Ha Hp] Hdue].
    rewrite (proj2 (Z.ltb_ge _ _) Ha). cbn [length] in Hn. replace n with (6 + (n - 6))%nat by lia.
    destruct (expire_quiet (n - 6) st a (due ++ rest) HQ) as (st1 & -> & HQ1 & T1 & W1). cbn [bind].
    replace (6 + (n - 6))%nat with n by lia.
    pose proof (fun b => turn_late (CurrentTime st) a (world st) b Hre Hp) as Hlate.
    destruct (IH (back (turn (CurrentTime st) a (world st)).1 rest) st1 n) as (st2 & E2 & HQ2 & T2 & W2).
    + rewrite back_app in HQ1; [done|]. intros b Hb%Hlate. eapply Forall_impl; [exact Hdue|]. cbn. intros c [? _]. lia.
    + by rewrite T1.
    + by rewrite T1.
    + rewrite T1. by apply back_late.
    + lia.
    + exists st2. rewrite T1, W1 in *. by split_and!.
Qed.
End quiet.

(** ** The theorems *)

(** No generators. *)
Definition start {W EN} (time : Z) (e : EN) (w : W) : @evInfo W EN :=
  {| mem := ∅; gens := no_lists; events_free := []; events_alloc := 0; CurrentTime := time; engine_state := e;
     world := w; ret := false |}.

Lemma start_rep {W EN} time (e : EN) (w : W) : ev_rep [] (start time e w) (fun _ => []).
Proof.
  split; [apply no_lists_reps|by intros l x Hx%elem_of_nil|by intros x h; cbn; rewrite lookup_empty|constructor|done].
Qed.

Lemma start_held {W EN} time (e : EN) (w : W) : held [] (start time e w).
Proof. split; intros x; cbn; rewrite ?lookup_empty; try done. by intros ?%elem_of_nil. Qed.

Lemma start_inv {W EN} time (e : EN) (w : W) : inv [] [] (start time e w).
Proof. split; [by exists (fun _ => []); apply start_rep|apply start_held]. Qed.

(** C13: The event system stays sound whatever the callbacks do with it, as
    long as they keep to its interface.  Take any calls of the program, turns
    of an engine over its sockets, turns of [timer_run] and ticks of the
    clock, where each callback may call the whole interface again, and be
    called in the middle of it.  When every caller keeps to the interface -
    [allowed]: no structure in use is initialised, added or freed, what is
    deleted or changed is there and active, timers in a queue are not added,
    the conditions asserted are respected; and an engine reports an error of
    [eng_state] or [eng_events] only for a socket that is held by an event or
    by the engine, for otherwise the callback may free the socket under
    [socket_events] - then no assertion fails, no null callback is called,
    and no pointer to a structure that was freed, or is of another kind, is
    followed, up to a nesting of 2^32 calls.  Whenever the run ends, the
    three lists are well linked, disjoint, and hold active generators of
    their kind that are not expiring; the timers are in the order of their
    times; every event descriptor is back on the free list; the count of each
    active socket is the number of times that the engine has kept it; and
    after a turn of [timer_run] no timer of the queue is due. *)
Theorem events_invariant {W EN} engine (callback : nat -> Event -> @evInfo W EN -> @program W EN) n l time e w :
  Z.of_nat (length l + n) < 2 ^ 32 -> run_steps true engine callback n l (start time e w) <> Broken ->
  match run_steps false engine callback n l (start time e w) with
  | Done st =>
      exists L G, ev_rep [] st L /\ (length G <= length l)%nat /\
        (forall s h, mem st !! s = Some h -> has GEN_ACTIVE h = true -> is_socket (gh_kind h) -> gh_ref h = Z.of_nat (holds G s)) /\
        (last l = Some STimers -> Forall (fun t => CurrentTime st < expire_of st t) (L g_timer))
  | Failed | Broken => False
  | NoFuel => True
  end.
Proof.
  intros Hn Hb. destruct (within_steps engine callback n l (start time e w)) as [H| <-]; [done|].
  assert (HI : exists G, inv [] G (start time e w) /\ (length G <= 0)%nat) by (exists []; split; [apply start_inv|done]).
  pose proof (run_steps_good engine callback n l 0 _ HI ltac:(lia)) as Hg.
  destruct (run_steps true engine callback n l (start time e w)) as [st| | |] eqn:Hr; try done.
  destruct Hg as (G & HIG & HG). pose proof HIG as [[L HR] HH]. exists L, G. split_and!; [done|lia|apply HH|].
  intros Hl. apply last_Some in Hl as [l' ->]. rewrite run_steps_app in Hr.
  pose proof (run_steps_good engine callback n l' 0 _ HI ltac:(rewrite length_app in Hn; cbn [length] in Hn; lia)) as Hg1.
  destruct (run_steps true engine callback n l' (start time e w)) as [st1| | |]; cbn [bind run_steps run_step] in Hr; try done.
  destruct Hg1 as (G1 & HI1 & HG1).
  pose proof (timer_run_good engine callback n [] G1 st1 HI1 ltac:(unfold fits; rewrite length_app in Hn; cbn [length] in Hn; lia)) as Ht.
  destruct (timer_run true engine callback n st1) as [st2| | |]; cbn in Hr; try done. injection Hr as ->.
  destruct Ht as (_ & _ & Ht). apply Forall_forall. intros t Hin.
  destruct (er_listed _ _ _ HR g_timer t Hin) as (h & Hh & Hk & _). rewrite (expire_of_some _ _ _ Hh). unfold expire_in.
  destruct (gh_kind h) as [| |ty v ex] eqn:Ek; try done. eapply (Ht t); [|done|exact Ek].
  destruct (on_queue t st) eqn:Eq; [done|]. apply (off_queue [] st L t HR) in Eq. by destruct (Eq g_timer).
Qed.

(** C14: [timer_run] ends, and calls exactly the callbacks that are due.
    The callbacks change the rest of the program, and the one of a timer that
    expires may add it again, for a time to come, as [try_connections] and
    [check_pings] do; they call nothing else of the event system.  When the
    periodic timers have a period, the timers due at the head of the queue
    get their [ET_EXPIRE] in the order of the queue; each that was added again
    goes back with its new callback, type and time; each other that is
    periodic is put back by its next time; each other gets its [ET_DESTROY],
    at once.  What goes back is put after those of the same time; no other
    callback is called, and the other timers keep their place.  The fuel
    needed is the number of timers due and seven more. *)
Theorem timer_run_exact {W EN} engine (react : nat -> Event -> W -> W) renew due rest (st : @evInfo W EN) n :
  queue_rep st (due ++ rest) -> renewals_late renew (CurrentTime st) ->
  Forall (fun a => tm_expire a <= CurrentTime st /\ (tm_type a = TT_PERIODIC -> 0 < tm_value a)) due ->
  Forall (fun a => CurrentTime st < tm_expire a) rest -> (length due + 7 <= n)%nat ->
  exists st', timer_run false engine (quiet react renew) n st = Done st' /\
    queue_rep st' (run_queue react renew (CurrentTime st) due rest (world st)).1 /\
    CurrentTime st' = CurrentTime st /\ world st' = (run_queue react renew (CurrentTime st) due rest (world st)).2.
Proof. apply timer_run_due. Qed.

(** ** Runs *)

Definition quiet_engine : @Engine unit :=
  {| eng_signal := None; eng_add := fun _ _ e => (true, None, e); eng_state := fun _ _ _ e => (None, e);
     eng_events := fun _ _ _ e => (None, e); eng_closing := fun _ _ e => e |}.

(** An engine that cannot change the mask of a socket. *)
Definition failing_engine : @Engine unit :=
  {| eng_signal := None; eng_add := fun _ _ e => (true, None, e); eng_state := fun _ _ _ e => (None, e);
     eng_events := fun _ _ _ e => (Some 9, e); eng_closing := fun _ _ e => e |}.

Definition logging (c : nat) (ev : Event) (w : list (nat * EventType * ptr)) : list (nat * EventType * ptr) :=
  w ++ [(c, ev_type ev, ev_gen ev)].

Definition never {W} (_ : nat) (_ : Event) (_ : W) : option (nat * Z * TimerType * Z) := None.

(** Three timers: one of five seconds, one each ten seconds, one at 1005. *)
Definition three_timers {W} : list (@step W) :=
  [SOp (OInit 1); SOp (OInit 2); SOp (OInit 3);
   SOp (OTimerAdd 1 11 0 TT_RELATIVE 5); SOp (OTimerAdd 2 12 0 TT_PERIODIC 10); SOp (OTimerAdd 3 13 0 TT_ABSOLUTE 1005)].

Example timers_ex :
  (let! st := run_steps false quiet_engine (quiet logging never) 20
     (three_timers ++ [SClock 1004; STimers; SClock 1012; STimers; SClock 1022; STimers]) (start 1000 tt []) in
   Done (world st, walk (walk_fuel (p_next (gens st))) (p_next (gens st)) (p_head (gens st) g_timer), expire_of st 2)) =
  Done ([(11%nat, ET_EXPIRE, 1%positive); (11%nat, ET_DESTROY, 1%positive); (13%nat, ET_EXPIRE, 3%positive);
         (13%nat, ET_DESTROY, 3%positive); (12%nat, ET_EXPIRE, 2%positive); (12%nat, ET_EXPIRE, 2%positive)],
        Some [2%positive], 1032).
Proof. reflexivity. Qed.

(** A timer that is added again by its own callback: its count, which
    [timer_add] sets to zero during the event, wraps at the end of it. *)
Definition renewing (c : nat) (ev : Event) (_ : @evInfo unit unit) : @program unit unit :=
  match ev_type ev with
  | ET_EXPIRE => Call (OTimerAdd (ev_gen ev) c 0 TT_RELATIVE 7) (fun _ => Return)
  | _ => Return
  end.

Example timer_renewed :
  (let! st := run_steps false quiet_engine renewing 20
     [SOp (OInit 1); SOp (OTimerAdd 1 11 0 TT_RELATIVE 5); SClock 1010; STimers] (start 1000 tt tt) in
   Done (expire_of st 1, gh_ref <$> mem st !! 1%positive)) = Done (1017, Some 4294967295).
Proof. reflexivity. Qed.

(** A socket that deletes itself in its callback is destroyed after it. *)
Definition closing (_ : nat) (ev : Event) (_ : @evInfo (list (nat * EventType * ptr)) unit) : @program (list (nat * EventType * ptr)) unit :=
  match ev_type ev with
  | ET_DESTROY => Call (OFree (ev_gen ev)) (fun _ => Call (OWorld (logging 1 ev)) (fun _ => Return))
  | _ => Call (OSocketDel (ev_gen ev)) (fun _ => Call (OWorld (logging 0 ev)) (fun _ => Return))
  end.

Example socket_closed :
  (let! st := run_steps false quiet_engine closing 20
     [SOp (OSocketAdd 1 21 0 SS_CONNECTED 1 5); SCheck 1 [(ET_READ, 0)] false] (start 1000 tt []) in
   Done (world st, p_head (gens st) g_socket, mem st !! 1%positive, events_alloc st)) =
  Done ([(0%nat, ET_READ, 1%positive); (1%nat, ET_DESTROY, 1%positive)], None, None, 1%nat).
Proof. reflexivity. Qed.

(** A turn of the socket that the engine leaves with [continue], as
    [engine_select] does after [ET_CONNECT], keeps it for ever: deleted, it is
    never destroyed. *)
Example socket_kept :
  (let! st := run_steps false quiet_engine closing 20
     [SOp (OSocketAdd 1 21 0 SS_CONNECTING 1 5); SCheck 1 [(ET_CONNECT, 0)] true] (start 1000 tt []) in
   Done (world st, p_head (gens st) g_socket, gh_ref <$> mem st !! 1%positive)) =
  Done ([(0%nat, ET_CONNECT, 1%positive)], Some 1%positive, Some 1).
Proof. reflexivity. Qed.

(** [socket_events] outside an event of the socket, when the engine fails:
    the callback of the [ET_ERROR] deletes the socket, which is destroyed and
    freed, and [socket_events] then writes its [s_events].  A watched run
    stops before. *)
Definition failing_steps {W} : list (@step W) :=
  [SOp (OSocketAdd 1 21 0 SS_CONNECTED 1 5); SOp (OSocketEvents 1 (Z.lor SOCK_ACTION_ADD 2))].

Example socket_events_frees :
  run_steps false failing_engine closing 20 failing_steps (start 1000 tt []) = Failed /\
  run_steps true failing_engine closing 20 failing_steps (start 1000 tt []) = Broken.
Proof. split; reflexivity. Qed.

Lemma queue_rep_intro {W EN} (st : @evInfo W EN) l q :
  inv [] [] st -> plist (gens st) (SHead g_timer) l -> Forall2 (is_at st) l q -> queue_rep st q.
Proof.
  intros [[L HR] HH] Hl HF. exists L. split; [done|]. split; [done|]. by rewrite (plist_inj _ _ _ _ (rp_list _ _ (er_lists _ _ _ HR) g_timer) Hl).
Qed.

Definition timers_st : @evInfo (list (nat * EventType * ptr)) unit :=
  match run_steps false quiet_engine (quiet logging never) 20 (three_timers ++ [SClock 1007]) (start 1000 tt []) with
  | Done st => st
  | _ => start 0 tt []
  end.

Definition timers_due : list timer :=
  [{| tm_ptr := 1; tm_type := TT_RELATIVE; tm_value := 5; tm_expire := 1005; tm_call := 11 |};
   {| tm_ptr := 3; tm_type := TT_ABSOLUTE; tm_value := 1005; tm_expire := 1005; tm_call := 13 |}].
Definition timers_later : list timer :=
  [{| tm_ptr := 2; tm_type := TT_PERIODIC; tm_value := 10; tm_expire := 1010; tm_call := 12 |}].

Lemma timers_st_rep : queue_rep timers_st (timers_due ++ timers_later).
Proof.
  apply (queue_rep_intro _ [1; 3; 2]%positive).
  - assert (Hr : run_steps true quiet_engine (quiet logging never) 20 (three_timers ++ [SClock 1007]) (start 1000 tt []) = Done timers_st) by (vm_compute; reflexivity).
    assert (HI : exists G, inv [] G (start 1000 tt ([] : list (nat * EventType * ptr))) /\ (length G <= 0)%nat) by (exists []; split; [apply start_inv|done]).
    pose proof (run_steps_good quiet_engine (quiet logging never) 20 (three_timers ++ [SClock 1007]) 0 _ HI ltac:(done)) as Hg.
    rewrite Hr in Hg. destruct Hg as (G & HG & _). destruct G as [|x G]; [done|].
    exfalso. destruct (hd_in _ _ (proj2 HG) x ltac:(left)) as (h & Hh & _ & Hk). apply Hk. revert Hh. vm_compute mem.
    intros Hh. apply elem_of_map_to_list in Hh. vm_compute in Hh.
    repeat (apply elem_of_cons in Hh as [Hh|Hh]; [injection Hh as -> ->; exact I|]). by apply elem_of_nil in Hh.
  - by repeat split.
  - repeat (apply Forall2_cons_2; [split; [done|]; eexists; split; [vm_compute; reflexivity|]; by split_and!|]). constructor.
Qed.

(** A socket that closes itself in the turn of an engine, beside timers. *)
Definition socket_steps : list (@step (list (nat * EventType * ptr))) :=
  [SOp (OInit 2); SOp (OTimerAdd 2 11 0 TT_RELATIVE 5); SOp (OSocketAdd 1 21 0 SS_CONNECTED 1 5);
   SCheck 1 [(ET_READ, 0); (ET_WRITE, 0)] false; STimers].

Example socket_steps_run :
  match run_steps false quiet_engine closing 20 socket_steps (start 1000 tt []) with Done st => world st | _ => [] end =
  [(0%nat, ET_READ, 1%positive); (1%nat, ET_DESTROY, 1%positive)].
Proof. vm_compute. reflexivity. Qed.

Lemma events_invariant_witness :
  match run_steps false quiet_engine closing 20 socket_steps (start 1000 tt []) with
  | Done st => exists L, ev_rep [] st L /\ Forall (fun t => CurrentTime st < expire_of st t) (L g_timer)
  | _ => False
  end.
Proof.
  pose proof (events_invariant quiet_engine closing 20 socket_steps 1000 tt []) as H.
  pose proof socket_steps_run as Hw.
  destruct (run_steps false quiet_engine closing 20 socket_steps (start 1000 tt [])) as [st| | |]; [|done..].
  destruct H as (L & G & HR & _ & _ & HT); [vm_compute; reflexivity|vm_compute; discriminate|].
  exists L. split; [exact HR|apply HT; reflexivity].
Defined.

(** The timer 2 is added again by its callback, as a timer of one time. *)
Definition sometimes (c : nat) (ev : Event) (_ : list (nat * EventType * ptr)) : option (nat * Z * TimerType * Z) :=
  if (c =? 13)%nat then Some (14%nat, 0, TT_RELATIVE, 2) else None.

Lemma timer_run_exact_witness :
  exists st', timer_run false quiet_engine (quiet logging sometimes) 9 timers_st = Done st' /\
    queue_rep st' [added 1007 3 14 TT_RELATIVE 2; {| tm_ptr := 2; tm_type := TT_PERIODIC; tm_value := 10; tm_expire := 1010; tm_call := 12 |}] /\
    world st' = [(11%nat, ET_EXPIRE, 1%positive); (11%nat, ET_DESTROY, 1%positive); (13%nat, ET_EXPIRE, 3%positive)].
Proof.
  destruct (timer_run_exact quiet_engine logging sometimes timers_due timers_later timers_st 9) as (st' & E & HQ & _ & Hw).
  - exact timers_st_rep.
  - intros c ev w c' d ty v. unfold sometimes. destruct (c =? 13)%nat; [|done]. intros [= <- <- <- <-]. reflexivity.
  - repeat constructor; cbn; lia || done.
  - repeat constructor; cbn; lia.
  - cbn; lia.
  - exists st'. split; [exact E|]. split; [exact HQ|exact Hw].
Defined.
