(* ===== verification/Members.v ===== *)
(** * The matrix of memberships ([ircd/channel.c], [include/channel.h])

    A [struct Membership] is on two doubly linked lists, that of the members
    of its channel and that of the channels of its user.  Each field of the
    structures is a map from addresses to values: [members] is the field of
    the channels, [user_channel] the field [channel] of the users, and the
    free list goes through [next_member]. *)
From S2P Require Import Prelude Chain Dlist.
From stdpp Require Import options.
Open Scope Z_scope.

Definition CHFL_CHANOP : Z := 0x0001.
Definition CHFL_VOICE : Z := 0x0002.
Definition CHFL_DEOPPED : Z := 0x0004.
Definition CHFL_SERVOPOK : Z := 0x0008.
Definition CHFL_ZOMBIE : Z := 0x0010.
Definition CHFL_BURST_JOINED : Z := 0x0100.
Definition CHFL_BANVALID : Z := 0x0800.
Definition CHFL_BANNED : Z := 0x1000.
Definition CHFL_CHANNEL_MANAGER : Z := 0x10000.
Definition CHFL_USER_PARTING : Z := 0x20000.
Definition CHFL_DELAYED : Z := 0x40000.
Definition CHFL_VOICED_OR_OPPED : Z := Z.lor CHFL_CHANOP CHFL_VOICE.

Record Membership := { user : ptr; channel : ptr; status : Z; oplevel : Z }.

Record matrix := {
  memb : gmap ptr Membership;
  next_member : gmap ptr ptr;
  prev_member : gmap ptr ptr;
  next_channel : gmap ptr ptr;
  prev_channel : gmap ptr ptr;
  members : gmap ptr ptr;
  user_channel : gmap ptr ptr;
  membershipFreeList : option ptr;
  membershipAllocCount : Z
}.

Definition no_member : Membership := {| user := 1%positive; channel := 1%positive; status := 0; oplevel := 0 |}.
Definition mget (mm : matrix) (m : ptr) : Membership := default no_member (memb mm !! m).

(** The macros [IsZombie], [IsChanOp] and so on. *)
Definition has_status (f : Z) (m : Membership) : bool := negb (Z.land (status m) f =? 0).
Definition IsZombie := has_status CHFL_ZOMBIE.
Definition IsBanned := has_status CHFL_BANNED.
Definition IsBanValid := has_status CHFL_BANVALID.
Definition IsChanOp := has_status CHFL_CHANOP.
Definition HasVoice := has_status CHFL_VOICE.
Definition IsVoicedOrOpped := has_status CHFL_VOICED_OR_OPPED.
Definition IsChannelManager := has_status CHFL_CHANNEL_MANAGER.
Definition IsDelayedJoin := has_status CHFL_DELAYED.

(** [SetZombie], [ClearBanValid] ...: [x->status = f(x->status)]. *)
Definition upd_status (f : Z -> Z) (m : ptr) (mm : matrix) : matrix :=
  {| memb := alter (fun x => {| user := user x; channel := channel x; status := f (status x); oplevel := oplevel x |}) m (memb mm);
     next_member := next_member mm; prev_member := prev_member mm; next_channel := next_channel mm;
     prev_channel := prev_channel mm; members := members mm; user_channel := user_channel mm;
     membershipFreeList := membershipFreeList mm; membershipAllocCount := membershipAllocCount mm |}.

(** A structure from the free list, or a new one. *)
Definition take_member (mm : matrix) : ptr * matrix :=
  match membershipFreeList mm with
  | Some m =>
      (m, {| memb := memb mm; next_member := next_member mm; prev_member := prev_member mm;
             next_channel := next_channel mm; prev_channel := prev_channel mm; members := members mm;
             user_channel := user_channel mm; membershipFreeList := next_member mm !! m;
             membershipAllocCount := membershipAllocCount mm |})
  | None =>
      (fresh (dom (memb mm)),
       {| memb := memb mm; next_member := next_member mm; prev_member := prev_member mm;
          next_channel := next_channel mm; prev_channel := prev_channel mm; members := members mm;
          user_channel := user_channel mm; membershipFreeList := None;
          membershipAllocCount := membershipAllocCount mm + 1 |})
  end.

(** The part of [add_user_to_channel] on the matrix. *)
Definition link_member (chptr who : ptr) (flags lvl : Z) (mm : matrix) : ptr * matrix :=
  let '(m, mm) := take_member mm in
  let '(nm, pm) := dl_push m (members mm !! chptr) (next_member mm) (prev_member mm) in
  let '(nc, pc) := dl_push m (user_channel mm !! who) (next_channel mm) (prev_channel mm) in
  (m, {| memb := <[m := {| user := who; channel := chptr; status := flags; oplevel := w16 lvl |}]> (memb mm);
         next_member := nm; prev_member := pm; next_channel := nc; prev_channel := pc;
         members := <[chptr := m]> (members mm); user_channel := <[who := m]> (user_channel mm);
         membershipFreeList := membershipFreeList mm; membershipAllocCount := membershipAllocCount mm |}).

(** "Unlink channel member list", of [remove_member_from_channel]. *)
Definition unlink_member (m : ptr) (mm : matrix) : matrix :=
  let c := channel (mget mm m) in
  let '(nm, pm, hd) := dl_remove m (members mm !! c) (next_member mm) (prev_member mm) in
  {| memb := memb mm; next_member := nm; prev_member := pm; next_channel := next_channel mm;
     prev_channel := prev_channel mm; members := set_link c hd (members mm); user_channel := user_channel mm;
     membershipFreeList := membershipFreeList mm; membershipAllocCount := membershipAllocCount mm |}.

(** "Unlink client channel list". *)
Definition unlink_channel (m : ptr) (mm : matrix) : matrix :=
  let u := user (mget mm m) in
  let '(nc, pc, hd) := dl_remove m (user_channel mm !! u) (next_channel mm) (prev_channel mm) in
  {| memb := memb mm; next_member := next_member mm; prev_member := prev_member mm; next_channel := nc;
     prev_channel := pc; members := members mm; user_channel := set_link u hd (user_channel mm);
     membershipFreeList := membershipFreeList mm; membershipAllocCount := membershipAllocCount mm |}.

(** [member->next_member = membershipFreeList; membershipFreeList = member]. *)
Definition release_member (m : ptr) (mm : matrix) : matrix :=
  {| memb := memb mm; next_member := set_link m (membershipFreeList mm) (next_member mm);
     prev_member := prev_member mm; next_channel := next_channel mm; prev_channel := prev_channel mm;
     members := members mm; user_channel := user_channel mm;
     membershipFreeList := Some m; membershipAllocCount := membershipAllocCount mm |}.

(** The members of a channel and the memberships of a user, in order. *)
Definition members_of (mm : matrix) (c : ptr) : option (list ptr) :=
  walk (walk_fuel (next_member mm)) (next_member mm) (members mm !! c).
Definition channels_of (mm : matrix) (u : ptr) : option (list ptr) :=
  walk (walk_fuel (next_channel mm)) (next_channel mm) (user_channel mm !! u).

(** The two searches of [find_member_link]. *)
Definition find_by_channel (mm : matrix) (c u : ptr) : option (option ptr) :=
  find_from (walk_fuel (next_member mm)) (next_member mm) (fun m => bool_decide (user (mget mm m) = u)) (members mm !! c).
Definition find_by_user (mm : matrix) (c u : ptr) : option (option ptr) :=
  find_from (walk_fuel (next_channel mm)) (next_channel mm) (fun m => bool_decide (channel (mget mm m) = c)) (user_channel mm !! u).

(** ** Well-formedness

    [C c] and [U u] are the members of a channel and the memberships of a
    user, [F] the free list. *)
Record shape := { C : ptr -> list ptr; U : ptr -> list ptr; F : list ptr }.

Definition live (mm : matrix) (S : shape) (m : ptr) : Prop := m ∈ dom (memb mm) /\ m ∉ F S.

Record matrix_ok (mm : matrix) (S : shape) : Prop := {
  mo_members : forall c, dlist (next_member mm) (prev_member mm) None (members mm !! c) (C S c);
  mo_channels : forall u, dlist (next_channel mm) (prev_channel mm) None (user_channel mm !! u) (U S u);
  mo_free : chain (next_member mm) (membershipFreeList mm) (F S);
  mo_nodup_c : forall c, NoDup (C S c);
  mo_nodup_u : forall u, NoDup (U S u);
  mo_nodup_f : NoDup (F S);
  mo_free_dom : forall m, m ∈ F S -> m ∈ dom (memb mm);
  mo_in_c : forall m c, m ∈ C S c <-> live mm S m /\ channel (mget mm m) = c;
  mo_in_u : forall m u, m ∈ U S u <-> live mm S m /\ user (mget mm m) = u;
  mo_unique : forall m m', live mm S m -> live mm S m' ->
    user (mget mm m) = user (mget mm m') -> channel (mget mm m) = channel (mget mm m') -> m = m'
}.

(** A user is on a channel with this membership. *)
Definition on (mm : matrix) (S : shape) (u c m : ptr) : Prop := m ∈ C S c /\ user (mget mm m) = u.

Definition upd (k : ptr) (l : list ptr) (f : ptr -> list ptr) : ptr -> list ptr :=
  fun k' => if decide (k' = k) then l else f k'.

Lemma upd_eq k l f : upd k l f k = l.
Proof. unfold upd. by rewrite decide_True. Qed.

Lemma upd_ne k k' l f : k' <> k -> upd k l f k' = f k'.
Proof. intros. unfold upd. by rewrite decide_False. Qed.

Definition empty_matrix : matrix :=
  {| memb := ∅; next_member := ∅; prev_member := ∅; next_channel := ∅; prev_channel := ∅; members := ∅;
     user_channel := ∅; membershipFreeList := None; membershipAllocCount := 0 |}.

Definition empty_shape : shape := {| C := fun _ => []; U := fun _ => []; F := [] |}.

Lemma empty_matrix_ok : matrix_ok empty_matrix empty_shape.
Proof.
  split; cbn; try done; try constructor; unfold live; cbn; intros; rewrite ?dom_empty, ?elem_of_nil in *; try set_solver.
Qed.

Section ok.
Context (mm : matrix) (S : shape) (H : matrix_ok mm S).

Lemma in_both m : m ∈ C S (channel (mget mm m)) <-> m ∈ U S (user (mget mm m)).
Proof using H. rewrite (mo_in_c _ _ H), (mo_in_u _ _ H). tauto. Qed.

Lemma in_c_live m c : m ∈ C S c -> live mm S m /\ channel (mget mm m) = c.
Proof using H. by rewrite (mo_in_c _ _ H). Qed.

Lemma members_of_ok c : members_of mm c = Some (C S c).
Proof using H.
  apply walk_chain; [eapply dlist_chain, (mo_members _ _ H)|].
  eapply walk_fuel_enough; [apply (mo_nodup_c _ _ H)|]. eapply dlist_chain, (mo_members _ _ H).
Qed.

Lemma channels_of_ok u : channels_of mm u = Some (U S u).
Proof using H.
  apply walk_chain; [eapply dlist_chain, (mo_channels _ _ H)|].
  eapply walk_fuel_enough; [apply (mo_nodup_u _ _ H)|]. eapply dlist_chain, (mo_channels _ _ H).
Qed.

(** Both searches find the membership of the user on the channel. *)
Lemma find_from_result nx p l (ok : ptr -> bool) :
  NoDup l -> chain nx p l ->
  exists r, find_from (walk_fuel nx) nx ok p = Some r /\
    match r with
    | Some m => m ∈ l /\ ok m = true
    | None => Forall (fun m => ok m = false) l
    end.
Proof using.
  intros Hnd Hc. rewrite (find_from_chain nx ok l p) by (done || exact (walk_fuel_enough nx p l Hnd Hc)).
  eexists. split; [done|]. destruct (list_find _ l) as [[i m]|] eqn:E; cbn.
  - apply list_find_Some in E as (Hl & Hok & _). split; [by eapply list_elem_of_lookup_2|done].
  - apply list_find_None in E. eapply Forall_impl; [exact E|]. intros m Hm. by apply not_true_iff_false in Hm.
Qed.

Lemma find_both c u : exists r,
  find_by_channel mm c u = Some r /\ find_by_user mm c u = Some r /\
  match r with Some m => on mm S u c m | None => forall m, ~ on mm S u c m end.
Proof using H.
  unfold find_by_channel, find_by_user.
  destruct (find_from_result _ _ _ (fun m => bool_decide (user (mget mm m) = u)) (mo_nodup_c _ _ H c)
    (dlist_chain _ _ _ _ _ (mo_members _ _ H c))) as (r1 & -> & H1).
  destruct (find_from_result _ _ _ (fun m => bool_decide (channel (mget mm m) = c)) (mo_nodup_u _ _ H u)
    (dlist_chain _ _ _ _ _ (mo_channels _ _ H u))) as (r2 & -> & H2).
  assert (Hon : forall m, m ∈ C S c /\ user (mget mm m) = u <-> m ∈ U S u /\ channel (mget mm m) = c).
  { intros m. rewrite (mo_in_c _ _ H), (mo_in_u _ _ H). tauto. }
  exists r1. split; [done|]. destruct r1 as [m1|].
  - destruct H1 as [H1 Hu]. apply bool_decide_eq_true in Hu. split; [|done].
    destruct r2 as [m2|].
    + destruct H2 as [H2 Hc]. apply bool_decide_eq_true in Hc. do 2 f_equal.
      apply (mo_in_u _ _ H) in H2 as [Hl2 Hu2]. apply (mo_in_c _ _ H) in H1 as [Hl1 Hc1].
      apply (mo_unique _ _ H); congruence || done.
    + exfalso. destruct (proj1 (Hon m1) (conj H1 Hu)) as [Hi Hc]. rewrite Forall_forall in H2.
      specialize (H2 m1 Hi). by apply bool_decide_eq_false in H2.
  - assert (Hno : forall m, ~ on mm S u c m).
    { intros m [Hi Hu]. rewrite Forall_forall in H1. specialize (H1 m Hi). by apply bool_decide_eq_false in H1. }
    split; [|done]. destruct r2 as [m2|]; [|done]. exfalso. destruct H2 as [H2 Hc]. apply bool_decide_eq_true in Hc.
    apply (Hno m2). by apply Hon.
Qed.

Lemma on_unique u c m m' : on mm S u c m -> on mm S u c m' -> m = m'.
Proof using H.
  intros [H1 H2] [H3 H4]. apply (mo_in_c _ _ H) in H1 as [? ?], H3 as [? ?]. apply (mo_unique _ _ H); congruence || done.
Qed.
End ok.

(** Changing the flags of a membership changes nothing of the shape. *)
Lemma upd_status_get f m mm m' :
  user (mget (upd_status f m mm) m') = user (mget mm m') /\ channel (mget (upd_status f m mm) m') = channel (mget mm m') /\
  oplevel (mget (upd_status f m mm) m') = oplevel (mget mm m') /\
  (m' <> m -> status (mget (upd_status f m mm) m') = status (mget mm m')) /\
  (m ∈ dom (memb mm) -> status (mget (upd_status f m mm) m) = f (status (mget mm m))).
Proof.
  unfold mget, upd_status. cbn [memb]. destruct (decide (m' = m)) as [->|Hne].
  - rewrite lookup_alter_eq. destruct (memb mm !! m) as [x|] eqn:E; cbn; split_and!; try done.
    intros Hd. apply elem_of_dom in Hd as [? ?]. congruence.
  - rewrite lookup_alter_ne by done. split_and!; try done. intros Hd. apply elem_of_dom in Hd as [x Hx].
    rewrite lookup_alter_eq, Hx. done.
Qed.

Lemma upd_status_ok f m mm S : matrix_ok mm S -> matrix_ok (upd_status f m mm) S.
Proof.
  intros H. assert (Hd : dom (memb (upd_status f m mm)) = dom (memb mm)) by apply dom_alter_L.
  assert (Hl : forall m', live (upd_status f m mm) S m' <-> live mm S m') by (intros m'; unfold live; by rewrite Hd).
  assert (Hg := upd_status_get f m mm). destruct H. split; try done.
  - intros m'. rewrite Hd. auto.
  - intros m' c. rewrite Hl. destruct (Hg m') as (_ & -> & _). auto.
  - intros m' c. rewrite Hl. destruct (Hg m') as (-> & _). auto.
  - intros m1 m2. rewrite !Hl. destruct (Hg m1) as (-> & -> & _), (Hg m2) as (-> & -> & _). auto.
Qed.

Lemma chain_frame_on nx nx' p l : (forall y, y ∈ l -> nx' !! y = nx !! y) -> chain nx p l -> chain nx' p l.
Proof.
  revert p. induction l as [|y l IH]; intros p Hf; [done|]. intros [-> Hc]. split; [done|]. rewrite Hf by left.
  apply IH; [|done]. intros z Hz. apply Hf. by right.
Qed.

Section link.
Context (mm : matrix) (S : shape) (H : matrix_ok mm S) (c u : ptr) (flags lvl : Z).
Hypothesis Hno : forall m, ~ on mm S u c m.

Lemma take_member_facts : exists m hd al F',
  take_member mm =
    (m, {| memb := memb mm; next_member := next_member mm; prev_member := prev_member mm;
           next_channel := next_channel mm; prev_channel := prev_channel mm; members := members mm;
           user_channel := user_channel mm; membershipFreeList := hd; membershipAllocCount := al |}) /\
  chain (next_member mm) hd F' /\ NoDup F' /\ m ∉ F' /\ (forall m', m' ∈ F' -> m' ∈ dom (memb mm)) /\
  ~ live mm S m /\ (forall m', m' <> m -> (live mm S m' <-> m' ∈ dom (memb mm) /\ m' ∉ F')).
Proof using H.
  clear Hno. unfold take_member. pose proof (mo_free _ _ H) as Hf. pose proof (mo_nodup_f _ _ H) as Hnd.
  assert (Hdom := mo_free_dom _ _ H). unfold live. destruct (F S) as [|m F'] eqn:EF.
  - rewrite (Hf : membershipFreeList mm = None). eexists _, _, _, []. split; [done|]. split_and!; try done.
    + apply not_elem_of_nil.
    + intros [Hin _]. by apply is_fresh in Hin.
  - destruct Hf as [-> Hf]. apply NoDup_cons in Hnd as [Hm Hnd]. eexists m, _, _, F'. split; [done|]. split_and!; try done.
    + intros m' Hm'. apply Hdom. by right.
    + intros [_ Hn]. apply Hn. left.
    + intros m' Hne. rewrite not_elem_of_cons. tauto.
Qed.

Lemma link_member_ok : exists m mm' F', link_member c u flags lvl mm = (m, mm') /\
  matrix_ok mm' {| C := upd c (m :: C S c) (C S); U := upd u (m :: U S u) (U S); F := F' |} /\
  ~ live mm S m /\ mget mm' m = {| user := u; channel := c; status := flags; oplevel := w16 lvl |} /\
  (forall m', m' <> m -> mget mm' m' = mget mm m').
Proof using H Hno.
  unfold link_member. destruct take_member_facts as (m & hd & al & F' & -> & Hch & Hnd & HmF & HFd & Hnl & Hlv).
  cbn [members next_member prev_member user_channel next_channel prev_channel memb membershipFreeList membershipAllocCount].
  set (mm0 := next_member mm). set (pc0 := dl_push m (members mm !! c) _ _). destruct pc0 as [nm pm] eqn:Epc. unfold mm0 in *. subst pc0.
  destruct (dl_push m (user_channel mm !! u) (next_channel mm) (prev_channel mm)) as [nc pch] eqn:Euc.
  set (new := {| user := u; channel := c; status := flags; oplevel := w16 lvl |}).
  set (mm' := Build_matrix _ _ _ _ _ _ _ _ _). exists m, mm', F'.
  assert (HC : forall c', m ∉ C S c') by (intros c' Hin; apply Hnl; by apply (mo_in_c _ _ H) in Hin as [? _]).
  assert (HU : forall u', m ∉ U S u') by (intros u' Hin; apply Hnl; by apply (mo_in_u _ _ H) in Hin as [? _]).
  assert (Hgm : mget mm' m = new) by (unfold mget, mm'; cbn [memb]; by rewrite lookup_insert_eq).
  assert (Hgo : forall m', m' <> m -> mget mm' m' = mget mm m') by (intros m' Hne; unfold mget, mm'; cbn [memb]; by rewrite lookup_insert_ne).
  assert (Hl : forall m', live mm' {| C := upd c (m :: C S c) (C S); U := upd u (m :: U S u) (U S); F := F' |} m' <-> m' = m \/ live mm S m').
  { intros m'. unfold live at 1. cbn [F]. unfold mm'. cbn [memb]. rewrite dom_insert, elem_of_union, elem_of_singleton.
    destruct (decide (m' = m)) as [->|Hne]; [tauto|]. rewrite (Hlv m' Hne). tauto. }
  pose proof (dlist_push _ _ m _ _ (HC c) (mo_nodup_c _ _ H c) (mo_members _ _ H c)) as Hpm. rewrite Epc in Hpm. cbn [fst snd] in Hpm.
  pose proof (dlist_push _ _ m _ _ (HU u) (mo_nodup_u _ _ H u) (mo_channels _ _ H u)) as Hpu. rewrite Euc in Hpu. cbn [fst snd] in Hpu.
  assert (Hfm : forall y, y <> m -> y ∉ C S c -> nm !! y = next_member mm !! y /\ pm !! y = prev_member mm !! y).
  { intros y Hy Hyc. pose proof (dl_push_frame _ _ m _ _ y (mo_members _ _ H c) Hy Hyc) as Hf. by rewrite Epc in Hf. }
  assert (Hfu : forall y, y <> m -> y ∉ U S u -> nc !! y = next_channel mm !! y /\ pch !! y = prev_channel mm !! y).
  { intros y Hy Hyc. pose proof (dl_push_frame _ _ m _ _ y (mo_channels _ _ H u) Hy Hyc) as Hf. by rewrite Euc in Hf. }
  split; [done|]. split; [|by split_and!].
  split; cbn [C U F]; unfold mm'; cbn [members next_member prev_member user_channel next_channel prev_channel memb membershipFreeList membershipAllocCount].
  - intros c'. destruct (decide (c' = c)) as [->|Hne].
    + by rewrite upd_eq, lookup_insert_eq.
    + rewrite upd_ne, lookup_insert_ne by done. eapply dlist_frame; [|apply (mo_members _ _ H)].
      intros y Hy. apply Hfm; [intros ->; by apply (HC c')|]. intros Hy'. apply (mo_in_c _ _ H) in Hy as [_ ?], Hy' as [_ ?]. congruence.
  - intros u'. destruct (decide (u' = u)) as [->|Hne].
    + by rewrite upd_eq, lookup_insert_eq.
    + rewrite upd_ne, lookup_insert_ne by done. eapply dlist_frame; [|apply (mo_channels _ _ H)].
      intros y Hy. apply Hfu; [intros ->; by apply (HU u')|]. intros Hy'. apply (mo_in_u _ _ H) in Hy as [_ ?], Hy' as [_ ?]. congruence.
  - assert (nm = set_link m (members mm !! c) (next_member mm)) as -> by (unfold dl_push in Epc; congruence). by apply chain_frame.
  - intros c'. unfold upd. case_decide; [|apply (mo_nodup_c _ _ H)]. constructor; [apply HC|apply (mo_nodup_c _ _ H)].
  - intros u'. unfold upd. case_decide; [|apply (mo_nodup_u _ _ H)]. constructor; [apply HU|apply (mo_nodup_u _ _ H)].
  - done.
  - intros m' Hm'. rewrite dom_insert. apply elem_of_union. right. by apply HFd.
  - intros m' c'. fold mm'. rewrite Hl. destruct (decide (m' = m)) as [->|Hne].
    + rewrite Hgm. cbn [channel new]. unfold upd. case_decide as E; [subst c'; rewrite elem_of_cons; tauto|].
      split; [intros Hin; by apply HC in Hin|]. intros [_ ?]. congruence.
    + rewrite Hgo by done. unfold upd. case_decide as E; [subst c'; rewrite elem_of_cons|]; rewrite (mo_in_c _ _ H); tauto.
  - intros m' u'. fold mm'. rewrite Hl. destruct (decide (m' = m)) as [->|Hne].
    + rewrite Hgm. cbn [user new]. unfold upd. case_decide as E; [subst u'; rewrite elem_of_cons; tauto|].
      split; [intros Hin; by apply HU in Hin|]. intros [_ ?]. congruence.
    + rewrite Hgo by done. unfold upd. case_decide as E; [subst u'; rewrite elem_of_cons|]; rewrite (mo_in_u _ _ H); tauto.
  - intros m1 m2. fold mm'. rewrite !Hl. assert (Hnew : forall m', m' <> m -> live mm S m' -> user (mget mm m') = u -> channel (mget mm m') = c -> False).
    { intros m' _ Hlm Hu Hc. apply (Hno m'). split; [by apply (mo_in_c _ _ H)|done]. }
    destruct (decide (m1 = m)) as [->|H1], (decide (m2 = m)) as [->|H2]; rewrite ?Hgm, ?Hgo by done; cbn [user channel new].
    + done.
    + intros _ [?|Hl2] Hu Hc; [done|]. by destruct (Hnew m2).
    + intros [?|Hl1] _ Hu Hc; [done|]. by destruct (Hnew m1).
    + intros [?|Hl1] [?|Hl2] Hu Hc; try done. by apply (mo_unique _ _ H).
Qed.
End link.

Section unlink.
Context (mm : matrix) (S : shape) (H : matrix_ok mm S) (m : ptr) (Hm : live mm S m).

Lemma unlink_places : exists c1 c2 u1 u2,
  C S (channel (mget mm m)) = c1 ++ m :: c2 /\ U S (user (mget mm m)) = u1 ++ m :: u2.
Proof using H Hm.
  assert (Hc : m ∈ C S (channel (mget mm m))) by (by apply (mo_in_c _ _ H)).
  assert (Hu : m ∈ U S (user (mget mm m))) by (by apply (mo_in_u _ _ H)).
  apply list_elem_of_split in Hc as (c1 & c2 & ->), Hu as (u1 & u2 & ->). by exists c1, c2, u1, u2.
Qed.

Context (c1 c2 u1 u2 : list ptr).
Hypothesis HC : C S (channel (mget mm m)) = c1 ++ m :: c2.
Hypothesis HU : U S (user (mget mm m)) = u1 ++ m :: u2.

Definition removed_matrix : matrix := release_member m (unlink_channel m (unlink_member m mm)).
Definition removed_shape : shape :=
  {| C := upd (channel (mget mm m)) (c1 ++ c2) (C S); U := upd (user (mget mm m)) (u1 ++ u2) (U S); F := m :: F S |}.

(** After the first half. *)
Lemma unlink_member_ok :
  memb (unlink_member m mm) = memb mm /\
  (forall c, dlist (next_member (unlink_member m mm)) (prev_member (unlink_member m mm)) None
     (members (unlink_member m mm) !! c) (upd (channel (mget mm m)) (c1 ++ c2) (C S) c)) /\
  (forall y, y ∈ F S -> next_member (unlink_member m mm) !! y = next_member mm !! y) /\
  next_channel (unlink_member m mm) = next_channel mm /\ prev_channel (unlink_member m mm) = prev_channel mm /\
  user_channel (unlink_member m mm) = user_channel mm /\
  membershipFreeList (unlink_member m mm) = membershipFreeList mm.
Proof using H HC.
  clear HU Hm u1 u2.
  unfold unlink_member. set (c := channel (mget mm m)) in *.
  pose proof (mo_nodup_c _ _ H c) as Hnd. pose proof (mo_members _ _ H c) as Hd. rewrite HC in Hnd, Hd.
  pose proof (dlist_remove _ _ _ _ _ _ Hnd Hd) as Hr.
  destruct (dl_remove m (members mm !! c) (next_member mm) (prev_member mm)) as [[nm pm] hd].
  destruct Hr as [Hr Hf]. cbn [memb next_member prev_member next_channel prev_channel members user_channel membershipFreeList].
  split_and!; try done.
  - intros c'. destruct (decide (c' = c)) as [->|Hne].
    + by rewrite upd_eq, set_link_eq.
    + rewrite upd_ne, set_link_ne by done. eapply dlist_frame; [|apply (mo_members _ _ H)].
      intros y Hy. apply Hf. intros Hy'. assert (y ∈ C S c) as Hyc by (rewrite HC; set_solver).
      apply (mo_in_c _ _ H) in Hy as [_ ?], Hyc as [_ ?]. congruence.
  - intros y Hy. apply Hf. intros Hy'. assert (y ∈ C S c) as Hyc by (rewrite HC; set_solver).
    apply (mo_in_c _ _ H) in Hyc as [[_ Hn] _]. done.
Qed.

Lemma members_after_unlink c :
  members_of (unlink_member m mm) c = Some (upd (channel (mget mm m)) (c1 ++ c2) (C S) c).
Proof using H HC.
  clear HU Hm u1 u2.
  destruct unlink_member_ok as (_ & Hd & _).
  assert (Hnd : NoDup (upd (channel (mget mm m)) (c1 ++ c2) (C S) c)).
  { unfold upd. case_decide; [|apply (mo_nodup_c _ _ H)]. pose proof (mo_nodup_c _ _ H (channel (mget mm m))) as Hn.
    rewrite HC in Hn. by apply NoDup_drop_middle in Hn as [_ ?]. }
  apply walk_chain; [eapply dlist_chain, Hd|]. eapply walk_fuel_enough; [done|]. eapply dlist_chain, Hd.
Qed.

Lemma removed_get m' : mget removed_matrix m' = mget mm m'.
Proof using H HC.
  clear HU Hm u1 u2.
  unfold mget, removed_matrix, release_member, unlink_channel. cbn [memb].
  destruct (dl_remove m (user_channel (unlink_member m mm) !! _) _ _) as [[nc pc] hd]. cbn [memb].
  by destruct unlink_member_ok as (-> & _).
Qed.

Lemma removed_ok : matrix_ok removed_matrix removed_shape.
Proof using H Hm HC HU.
  destruct unlink_member_ok as (Hmb & Hdm & Hfm & Hnc & Hpc & Huc & Hfl).
  assert (Hget := removed_get). unfold removed_matrix, release_member, unlink_channel in *.
  assert (Hu1 : user (mget (unlink_member m mm) m) = user (mget mm m)) by (unfold mget; by rewrite Hmb).
  rewrite Hu1, Hnc, Hpc, Huc in *. set (u := user (mget mm m)) in *. set (c := channel (mget mm m)) in *.
  pose proof (mo_nodup_u _ _ H u) as Hnd. pose proof (mo_channels _ _ H u) as Hd. rewrite HU in Hnd, Hd.
  pose proof (dlist_remove _ _ _ _ _ _ Hnd Hd) as Hr.
  destruct (dl_remove m (user_channel mm !! u) (next_channel mm) (prev_channel mm)) as [[nc pc] hd].
  destruct Hr as [Hr Hf]. cbn [memb next_member prev_member next_channel prev_channel members user_channel membershipFreeList membershipAllocCount] in *.
  pose proof (mo_nodup_c _ _ H c) as Hndc. rewrite HC in Hndc.
  apply NoDup_drop_middle in Hndc as [Hmc Hndc]. apply NoDup_drop_middle in Hnd as [Hmu Hndu].
  set (mm' := Build_matrix _ _ _ _ _ _ _ _ _) in *.
  assert (Hl : forall m', live mm' removed_shape m' <-> live mm S m' /\ m' <> m).
  { intros m'. unfold live, mm'. cbn [F removed_shape memb]. rewrite Hmb, not_elem_of_cons. tauto. }
  assert (Hcs : forall c' y, y ∈ upd c (c1 ++ c2) (C S) c' <-> y ∈ C S c' /\ y <> m).
  { intros c' y. unfold upd. case_decide as E; [subst c'; rewrite HC; set_solver|]. split; [|tauto]. intros Hy. split; [done|].
    intros ->. apply (mo_in_c _ _ H) in Hy as [_ ?]. unfold c in E. congruence. }
  assert (Hus : forall u' y, y ∈ upd u (u1 ++ u2) (U S) u' <-> y ∈ U S u' /\ y <> m).
  { intros u' y. unfold upd. case_decide as E; [subst u'; rewrite HU; set_solver|]. split; [|tauto]. intros Hy. split; [done|].
    intros ->. apply (mo_in_u _ _ H) in Hy as [_ ?]. unfold u in E. congruence. }
  split; cbn [C U F removed_shape]; fold c u.
  - intros c'. unfold mm'. cbn [next_member prev_member members]. eapply dlist_frame; [|apply Hdm].
    intros y Hy. split; [|done]. apply set_link_ne. intros <-. by apply Hcs in Hy as [_ ?].
  - intros u'. unfold mm'. cbn [next_channel prev_channel user_channel]. destruct (decide (u' = u)) as [->|Hne].
    + by rewrite upd_eq, set_link_eq.
    + rewrite upd_ne, set_link_ne by done. eapply dlist_frame; [|apply (mo_channels _ _ H)].
      intros y Hy. apply Hf. intros Hy'. assert (y ∈ U S u) as Hyu by (rewrite HU; set_solver).
      apply (mo_in_u _ _ H) in Hy as [_ ?], Hyu as [_ ?]. congruence.
  - unfold mm'. cbn [next_member membershipFreeList]. split; [done|]. rewrite set_link_eq, Hfl.
    apply chain_frame; [by destruct Hm|]. eapply chain_frame_on; [|apply (mo_free _ _ H)]. done.
  - intros c'. unfold upd. case_decide; [done|apply (mo_nodup_c _ _ H)].
  - intros u'. unfold upd. case_decide; [done|apply (mo_nodup_u _ _ H)].
  - constructor; [by destruct Hm|apply (mo_nodup_f _ _ H)].
  - intros m' Hm'. unfold mm'. cbn [memb]. rewrite Hmb. apply elem_of_cons in Hm' as [->|Hm']; [by destruct Hm|by apply (mo_free_dom _ _ H)].
  - intros m' c'. rewrite Hcs, Hl, Hget, (mo_in_c _ _ H). tauto.
  - intros m' u'. rewrite Hus, Hl, Hget, (mo_in_u _ _ H). tauto.
  - intros m1 m2. rewrite !Hl, !Hget. intros [? _] [? _]. by apply (mo_unique _ _ H).
Qed.
End unlink.
