(* ===== verification/ChanTable.v ===== *)
(** * The table of channels, an interface

    What the channels need of the hash tables (hash.c): [hAddChannel],
    [hRemChannel] and [FindChannel].  [ctab_ok name t S] says that the table
    has the channels of [S], under their names; the instance is the chained
    table with its CRC table. *)
From S2P Require Import Prelude Chattr Strings Chain Hash.
From stdpp Require Import options.
Open Scope Z_scope.

Class ChannelTable (T : Type) := {
  tab_add : (ptr -> cstring) -> T -> ptr -> option T;
  tab_rem : (ptr -> cstring) -> T -> ptr -> option T;
  tab_find : (ptr -> cstring) -> T -> cstring -> option (T * option ptr)
}.

Class ChannelTableLaws (T : Type) `{ChannelTable T} := {
  ctab_ok : (ptr -> cstring) -> T -> (ptr -> Prop) -> Prop;
  ctab_ext : forall name name' t S S', (forall p, S p <-> S' p) -> (forall p, S p -> name' p = name p) ->
    ctab_ok name t S -> ctab_ok name' t S';
  tab_add_ok : forall name t S p, ctab_ok name t S -> name p <> [] -> ~ S p ->
    exists t', tab_add name t p = Some t' /\ ctab_ok name t' (fun q => q = p \/ S q);
  tab_rem_ok : forall name t S p, ctab_ok name t S -> name p <> [] ->
    exists t', tab_rem name t p = Some t' /\ ctab_ok name t' (fun q => q <> p /\ S q);
  tab_find_ok : forall name t S n, ctab_ok name t S -> (forall p, S p -> is_cstr (name p)) -> is_cstr n -> n <> [] ->
    exists t' r, tab_find name t n = Some (t', r) /\ ctab_ok name t' S /\
      match r with
      | Some p => S p /\ lower (name p) = lower n
      | None => forall p, S p -> lower (name p) <> lower n
      end
}.

(** ** The instance *)
Definition chan_table : Type := list Z * htable.

#[export] Instance hash_channel_table : ChannelTable chan_table := {
  tab_add name t p := h ← hAddChannel t.1 name t.2 p; Some (t.1, h);
  tab_rem name t p := '(h, _) ← hRemChannel t.1 name t.2 p; Some (t.1, h);
  tab_find name t n := '(h, r) ← hSeekChannel t.1 name t.2 n; Some ((t.1, h), r)
}.

Definition hash_ok (name : ptr -> cstring) (t : chan_table) (S : ptr -> Prop) : Prop :=
  exists L, tab_rep t.1 name t.2 L /\ forall p, in_table L p <-> S p.

Lemma tab_rep_names tab name name' t L : (forall p, in_table L p -> name' p = name p) ->
  tab_rep tab name t L -> tab_rep tab name' t L.
Proof.
  intros He H h. destruct (H h) as (H1 & H2 & H3). split_and!; [done|done|]. rewrite Forall_forall in H3 |- *.
  intros p Hp. rewrite He by (by exists h). by apply H3.
Qed.

Lemma hash_add_ok name t S p : hash_ok name t S -> name p <> [] -> ~ S p ->
  exists t', tab_add name t p = Some t' /\ hash_ok name t' (fun q => q = p \/ S q).
Proof.
  intros (L & HL & HS) Hn Hp. destruct t as [tab t]. cbn in *. destruct (strhash_some tab _ Hn) as [h Hh].
  unfold hAddChannel, hAdd. rewrite Hh. cbn [mbind option_bind]. eexists. split; [done|].
  assert (Hph : p ∉ L h) by (intros Hi; apply Hp, HS; by exists h).
  exists (upd_list h (p :: L h) L). split; [by apply rep_push|].
  intros q. rewrite in_upd, <- HS, (in_split L h q), elem_of_cons. tauto.
Qed.

Lemma hash_rem_ok name t S p : hash_ok name t S -> name p <> [] ->
  exists t', tab_rem name t p = Some t' /\ hash_ok name t' (fun q => q <> p /\ S q).
Proof.
  intros (L & HL & HS) Hn. destruct t as [tab t]. cbn in *. destruct (strhash_some tab _ Hn) as [h Hh].
  unfold hRemChannel. destruct (hRem_rep _ _ _ _ _ _ HL Hh) as (t' & r & -> & [(-> & -> & Hp)|(-> & l1 & l2 & He & Hr)]);
    cbn [mbind option_bind].
  - eexists. split; [done|]. exists L. split; [done|]. intros q. rewrite <- HS. split; [|tauto]. intros Hq. split; [|done].
    intros ->. apply Hp. destruct Hq as [h' Hq]. pose proof (rep_hash _ _ _ _ _ _ HL Hq). congruence.
  - eexists. split; [done|]. exists (upd_list h (l1 ++ l2) L). split; [done|]. intros q.
    rewrite (in_rem _ _ _ _ _ _ _ _ q HL He). by rewrite <- HS.
Qed.

Lemma hash_find_ok name t S n : hash_ok name t S -> (forall p, S p -> is_cstr (name p)) -> is_cstr n -> n <> [] ->
  exists t' r, tab_find name t n = Some (t', r) /\ hash_ok name t' S /\
    match r with
    | Some p => S p /\ lower (name p) = lower n
    | None => forall p, S p -> lower (name p) <> lower n
    end.
Proof.
  intros (L & HL & HS) Hc Hn Hne. destruct t as [tab t]. cbn in *. destruct (strhash_some tab _ Hne) as [h Hh].
  unfold hSeekChannel. set (ok := fun p => strcmp_eqb n (name p)).
  destruct (hSeek_rep _ _ _ _ ok _ _ HL Hh) as (t' & r & -> & Hr). cbn [mbind option_bind]. eexists _, r. split; [done|].
  destruct (extract ok (L h)) as [[p l]|] eqn:He.
  - destruct Hr as [-> Hr]. split.
    + exists (upd_list h (p :: l) L). split; [done|]. intros q. rewrite <- HS, in_upd, (in_split L h q).
      by rewrite (extract_perm _ _ _ _ He).
    + apply extract_some in He as (l1 & l2 & El & _ & Hok & _). assert (Hp : S p) by (apply HS; exists h; rewrite El; set_solver).
      split; [done|]. unfold ok in Hok. by apply strcmp_eqb_lower in Hok; [|done|apply Hc].
  - destruct Hr as [-> ->]. split; [by exists L|]. intros p Hp Hl. apply extract_is_none in He. rewrite Forall_forall in He.
    apply HS in Hp as Hi. destruct Hi as [h' Hi]. pose proof (rep_hash _ _ _ _ _ _ HL Hi) as Hph.
    rewrite (strhash_lower _ _ _ Hl), Hh in Hph. injection Hph as ->. specialize (He p Hi). unfold ok in He.
    rewrite (proj2 (strcmp_eqb_lower n (name p) Hn (Hc p Hp))) in He by done. done.
Qed.

Lemma hash_ext_ok name name' t (S S' : ptr -> Prop) : (forall p, S p <-> S' p) -> (forall p, S p -> name' p = name p) ->
  hash_ok name t S -> hash_ok name' t S'.
Proof.
  intros HS Hn (L & HL & HiS). exists L. split.
  - eapply tab_rep_names; [|exact HL]. intros p Hp. by apply Hn, HiS.
  - intros p. by rewrite HiS.
Qed.

#[export] Instance hash_channel_table_laws : ChannelTableLaws chan_table := {
  ctab_ok := hash_ok;
  ctab_ext := hash_ext_ok;
  tab_add_ok := hash_add_ok;
  tab_rem_ok := hash_rem_ok;
  tab_find_ok := hash_find_ok
}.

Lemma empty_hash_ok tab name : hash_ok name (tab, empty_table) (fun _ => False).
Proof.
  exists (fun _ => []). split; [|intros p; split; [intros [h Hp]; by apply elem_of_nil in Hp|done]].
  intros h. split_and!; [by apply lookup_empty|constructor|constructor].
Qed.
