(* ===== verification/Channel.v ===== *)
(** * Channels and who is on them ([ircd/channel.c])

    The channels, the users on them, the invitations and the life of an empty
    channel: [get_channel], [add_user_to_channel], the functions that take a
    user off a channel, zombies, [sub1_from_channel], [destruct_channel] and
    [exec_expired_destruct_events].  The matrix of memberships is that of
    Members, the events those of Destruct, and the table of channels is
    reached through the interface of ChanTable.

    The links of an invitation list are a list, in order; the other lists are
    linked through maps.  What is sent is recorded in [outs]. *)
From S2P Require Import Prelude Chattr Strings Chain Dlist Destruct Members ChanTable IpText Bans.
From stdpp Require Import options.
Open Scope Z_scope.

Definition MODE_PRIVATE : Z := 0x0004.
Definition MODE_SECRET : Z := 0x0008.
Definition MODE_MODERATED : Z := 0x0010.
Definition MODE_TOPICLIMIT : Z := 0x0020.
Definition MODE_INVITEONLY : Z := 0x0040.
Definition MODE_NOPRIVMSGS : Z := 0x0080.
Definition MODE_KEY : Z := 0x0100.
Definition MODE_REGONLY : Z := 0x0800.
Definition MODE_DELJOINS : Z := 0x1000.
Definition MODE_REGISTERED : Z := 0x2000.
Definition MODE_NOCOLOR : Z := 0x4000.
Definition MODE_NOCTCP : Z := 0x8000.
Definition MODE_WASDELJOINS : Z := 0x400000.
Definition MODE_SSLONLY : Z := 0x800000.
Definition MODE_OPERONLY : Z := 0x1000000.
Definition MODE_MODERATENOREG : Z := 0x2000000.
Definition MODE_NONOTICE : Z := 0x4000000.
Definition MODE_NOQUITPARTS : Z := 0x8000000.
Definition MODE_MSGNONWEB : Z := 0x10000000.

Record Mode := { mode : Z; limit : Z; key : cstring; upass : cstring; apass : cstring }.

Record Channel := {
  chname : cstring;
  creationtime : Z;
  users : Z;
  invites : list ptr;
  banlist : list Ban;
  cmode : Mode
}.

Definition STAT_ME : Z := 0x004.
Definition STAT_SERVER : Z := 0x040.
Definition STAT_USER : Z := 0x080.
Definition STAT_WEBIRC : Z := 0x100.

(** The fields of [struct Client], [struct User] and [struct Server] that
    channels read; [has_user] is [cli_user(x) != 0]. *)
Record Client := {
  cli_status : Z;
  cli_from : ptr;
  cli_server : ptr;      (* [cli_user(x)->server] *)
  cli_up : ptr;          (* [cli_serv(x)->up] *)
  has_user : bool;
  chserv : bool;         (* [IsChannelService] *)
  oper : bool;
  ssl : bool;
  away : bool;
  names : ban_client;
  joined : Z;
  invited : list ptr;
  n_invites : Z          (* [cli_user(x)->invites] *)
}.

Definition IsServer (c : Client) : bool := cli_status c =? STAT_SERVER.
Definition IsMe (c : Client) : bool := cli_status c =? STAT_ME.
Definition IsUser (c : Client) : bool := cli_status c =? STAT_USER.
Definition IsWebircPort (c : Client) : bool := cli_status c =? STAT_WEBIRC.
Definition IsAccount (c : Client) : bool := if bc_account (names c) is Some _ then true else false.
Definition MyUser (p : ptr) (c : Client) : bool := bool_decide (cli_from c = p) && IsUser c.

Inductive chan_out :=
  | DestructSent (c : ptr)                     (* [DESTRUCT], to the servers *)
  | WasDelJoinsCleared (c : ptr)               (* [MODE -d] *)
  | JoinShown (u c : ptr) (extended : bool)
  | AwayShown (u c : ptr)
  | PartSent (who cptr c : ptr).

(** ** The state *)
Record state (T : Type) := mk_state {
  mm : matrix;
  channels : gmap ptr Channel;
  clients : gmap ptr Client;
  ch_next : gmap ptr ptr;
  ch_prev : gmap ptr ptr;
  GlobalChannelList : option ptr;
  table : T;
  nchannels : Z;                               (* [UserStats.channels] *)
  events : devents;
  pool : ban_pool;
  outs : list chan_out
}.

Arguments mk_state {T}.
Arguments mm {T}.
Arguments channels {T}.
Arguments clients {T}.
Arguments ch_next {T}.
Arguments ch_prev {T}.
Arguments GlobalChannelList {T}.
Arguments table {T}.
Arguments nchannels {T}.
Arguments events {T}.
Arguments pool {T}.
Arguments outs {T}.

Section setters.
Context {T : Type} (st : state T).

Definition set_mm (x : matrix) : state T :=
  mk_state x (channels st) (clients st) (ch_next st) (ch_prev st) (GlobalChannelList st) (table st) (nchannels st)
    (events st) (pool st) (outs st).
Definition set_channels (x : gmap ptr Channel) : state T :=
  mk_state (mm st) x (clients st) (ch_next st) (ch_prev st) (GlobalChannelList st) (table st) (nchannels st)
    (events st) (pool st) (outs st).
Definition set_clients (x : gmap ptr Client) : state T :=
  mk_state (mm st) (channels st) x (ch_next st) (ch_prev st) (GlobalChannelList st) (table st) (nchannels st)
    (events st) (pool st) (outs st).
Definition set_global (nx pv : gmap ptr ptr) (hd : option ptr) (t : T) (n : Z) : state T :=
  mk_state (mm st) (channels st) (clients st) nx pv hd t n (events st) (pool st) (outs st).
Definition set_events (x : devents) : state T :=
  mk_state (mm st) (channels st) (clients st) (ch_next st) (ch_prev st) (GlobalChannelList st) (table st) (nchannels st)
    x (pool st) (outs st).
Definition set_pool (x : ban_pool) : state T :=
  mk_state (mm st) (channels st) (clients st) (ch_next st) (ch_prev st) (GlobalChannelList st) (table st) (nchannels st)
    (events st) x (outs st).
Definition send (o : list chan_out) : state T :=
  mk_state (mm st) (channels st) (clients st) (ch_next st) (ch_prev st) (GlobalChannelList st) (table st) (nchannels st)
    (events st) (pool st) (outs st ++ o).
End setters.

Definition set_mode (z : Z) (m : Mode) : Mode :=
  {| mode := z; limit := limit m; key := key m; upass := upass m; apass := apass m |}.

Definition with_cmode (m : Mode) (ch : Channel) : Channel :=
  {| chname := chname ch; creationtime := creationtime ch; users := users ch; invites := invites ch;
     banlist := banlist ch; cmode := m |}.
Definition with_users (n : Z) (ch : Channel) : Channel :=
  {| chname := chname ch; creationtime := creationtime ch; users := n; invites := invites ch;
     banlist := banlist ch; cmode := cmode ch |}.
Definition with_invites (l : list ptr) (ch : Channel) : Channel :=
  {| chname := chname ch; creationtime := creationtime ch; users := users ch; invites := l;
     banlist := banlist ch; cmode := cmode ch |}.
Definition with_banlist (l : list Ban) (ch : Channel) : Channel :=
  {| chname := chname ch; creationtime := creationtime ch; users := users ch; invites := invites ch;
     banlist := l; cmode := cmode ch |}.

Definition with_joined (n : Z) (c : Client) : Client :=
  {| cli_status := cli_status c; cli_from := cli_from c; cli_server := cli_server c; cli_up := cli_up c;
     has_user := has_user c; chserv := chserv c; oper := oper c; ssl := ssl c; away := away c; names := names c;
     joined := n; invited := invited c; n_invites := n_invites c |}.
Definition with_invited (l : list ptr) (n : Z) (c : Client) : Client :=
  {| cli_status := cli_status c; cli_from := cli_from c; cli_server := cli_server c; cli_up := cli_up c;
     has_user := has_user c; chserv := chserv c; oper := oper c; ssl := ssl c; away := away c; names := names c;
     joined := joined c; invited := l; n_invites := n |}.

Definition name_of {T} (st : state T) (p : ptr) : cstring := from_option chname [] (channels st !! p).

(** ** Operations

    [None]: a null pointer or freed memory is read, or the fuel of a walk is
    used up. *)
Section ops.
Context {T : Type} `{ChannelTable T} (OPLEVELS : bool) (MAXCHANNELSPERUSER : Z) (HIDDEN_HOST : cstring).
Implicit Types st : state T.

Definition upd_channel (f : Channel -> Channel) (c : ptr) st : state T := set_channels st (alter f c (channels st)).
Definition upd_client (f : Client -> Client) (u : ptr) st : state T := set_clients st (alter f u (clients st)).
Definition mark_member (f : Z -> Z) (m : ptr) st : state T := set_mm st (upd_status f m (mm st)).

(** The result of [find_member_link]; the outer [None] is an error. *)
Definition find_member_link (c u : ptr) st : option (option ptr) :=
  cl ← clients st !! u;
  if IsServer cl || IsMe cl then Some None
  else if chserv cl then find_by_channel (mm st) c u
  else if has_user cl then find_by_user (mm st) c u
  else None.

Definition find_channel_member (u c : ptr) st : option (option ptr) :=
  m ← find_member_link c u st;
  Some (m ≫= fun m => if IsZombie (mget (mm st) m) then None else Some m).

(** [is_chan_op], [is_zombie] and [has_voice]. *)
Definition is_chan_op (u c : ptr) st : option bool :=
  m ← find_member_link c u st;
  Some (if m is Some m then negb (IsZombie (mget (mm st) m)) && IsChanOp (mget (mm st) m) else false).
Definition is_zombie (u c : ptr) st : option bool :=
  m ← find_member_link c u st;
  Some (if m is Some m then IsZombie (mget (mm st) m) else false).
Definition has_voice (u c : ptr) st : option bool :=
  m ← find_member_link c u st;
  Some (if m is Some m then negb (IsZombie (mget (mm st) m)) && HasVoice (mget (mm st) m) else false).

Definition number_of_zombies (c : ptr) st : option Z :=
  l ← members_of (mm st) c;
  Some (Z.of_nat (length (filter (fun m => IsZombie (mget (mm st) m) = true) l))).

Definition channel_all_zombies (c : ptr) st : option bool :=
  l ← members_of (mm st) c;
  Some (forallb (fun m => IsZombie (mget (mm st) m)) l).

Definition IsInvited (u c : ptr) st : option bool :=
  cl ← clients st !! u;
  if has_user cl then Some (bool_decide (c ∈ invited cl)) else None.

(** *** Invitations *)
Definition del_invite (u c : ptr) st : option (state T) :=
  ch ← channels st !! c;
  cl ← clients st !! u;
  if has_user cl then
    let n := if bool_decide (u ∈ invites ch) then w32 (n_invites cl - 1) else n_invites cl in
    Some (upd_client (with_invited (unlink c (invited cl)) n) u
            (upd_channel (with_invites (unlink u (invites ch))) c st))
  else None.

(** [while (chptr->invites) del_invite(chptr->invites->value.cptr, chptr)]:
    [mode_invite_clear]. *)
Fixpoint del_invites (n : nat) (c : ptr) st : option (state T) :=
  match n with
  | O => None
  | S n =>
      ch ← channels st !! c;
      match invites ch with
      | [] => Some st
      | u :: _ => st ← del_invite u c st; del_invites n c st
      end
  end.

Definition mode_invite_clear (c : ptr) st : option (state T) :=
  ch ← channels st !! c;
  del_invites (S (length (invites ch))) c st.

Definition add_invite (u c : ptr) st : option (state T) :=
  st ← del_invite u c st;
  cl ← clients st !! u;
  st ← (if MAXCHANNELSPERUSER <=? n_invites cl then
          first ← head (invited cl);
          del_invite u first st
        else Some st);
  ch ← channels st !! c;
  cl ← clients st !! u;
  Some (upd_client (with_invited (invited cl ++ [c]) (w32 (n_invites cl + 1))) u
          (upd_channel (with_invites (u :: invites ch)) c st)).

(** *** The end of a channel *)
Definition free_bans_of (ch : Channel) st : state T := set_pool st (Nat.iter (length (banlist ch)) free_ban (pool st)).

Definition destruct_channel (c : ptr) st : option (state T) :=
  st ← mode_invite_clear c st;
  ch ← channels st !! c;
  let st := free_bans_of ch st in
  let '(nx, hd) := match ch_prev st !! c with
                   | Some q => (set_link q (ch_next st !! c) (ch_next st), GlobalChannelList st)
                   | None => (ch_next st, ch_next st !! c)
                   end in
  let pv := match nx !! c with
            | Some n => set_link n (ch_prev st !! c) (ch_prev st)
            | None => ch_prev st
            end in
  t ← tab_rem (name_of st) (table st) c;
  Some (set_channels (set_global st nx pv hd t (nchannels st - 1)) (delete c (channels st))).

Definition reset_modes (md : Mode) : Mode :=
  {| mode := 0; limit := limit md; key := []; upass := upass md; apass := apass md |}.

Definition relax_modes (md : Mode) : Mode :=
  {| mode := Z.ldiff (mode md) MODE_INVITEONLY; limit := 0; key := key md; upass := upass md; apass := apass md |}.

(** [if (!chptr->mode.apass[0])], as far as the bans. *)
Definition reset_channel (c : ptr) st : option (state T) :=
  st ← mode_invite_clear c (upd_channel (fun ch => with_cmode (reset_modes (cmode ch)) ch) c st);
  ch ← channels st !! c;
  Some (upd_channel (with_banlist []) c (free_bans_of ch st)).

Definition schedule_empty (now : Z) (c : ptr) st : option (state T) :=
  ch ← channels st !! c;
  Some (set_events st (if now - creationtime ch <? 172800 then schedule_destruct_event_1m now c (events st)
                       else schedule_destruct_event_48h now c (events st))).

Definition sub1_from_channel (now : Z) (c : ptr) st : option (state T * bool) :=
  ch ← channels st !! c;
  if 1 <? users ch then Some (upd_channel (with_users (users ch - 1)) c st, true)
  else
    let st := upd_channel (fun ch => with_cmode (relax_modes (cmode ch)) (with_users 0 ch)) c st in
    if apass (cmode ch) is [] then
      st ← reset_channel c st;
      if negb OPLEVELS then st ← destruct_channel c st; Some (st, false)
      else st ← schedule_empty now c st; Some (st, false)
    else st ← schedule_empty now c st; Some (st, false).

(** *** Delayed joins *)
Definition find_delayed_joins (c : ptr) st : option bool :=
  l ← members_of (mm st) c;
  Some (existsb (fun m => IsDelayedJoin (mget (mm st) m)) l).

Definition CheckDelayedJoins (c : ptr) st : option (state T) :=
  ch ← channels st !! c;
  if Z.land (mode (cmode ch)) MODE_WASDELJOINS =? 0 then Some st
  else
    d ← find_delayed_joins c st;
    if d : bool then Some st
    else Some (send (upd_channel (fun ch => with_cmode (set_mode (Z.ldiff (mode (cmode ch)) MODE_WASDELJOINS) (cmode ch)) ch) c st)
                 [WasDelJoinsCleared c]).

Definition RevealDelayedJoin (m : ptr) st : option (state T) :=
  let '(u, c) := (user (mget (mm st) m), channel (mget (mm st) m)) in
  cl ← clients st !! u;
  CheckDelayedJoins c
    (send (mark_member (fun s => Z.ldiff s CHFL_DELAYED) m st)
       ([JoinShown u c false; JoinShown u c true] ++ (if away cl then [AwayShown u c] else []))).

Definition RevealDelayedJoinIfNeeded (u c : ptr) st : option (state T) :=
  m ← find_member_link c u st;
  match m with
  | Some m => if IsDelayedJoin (mget (mm st) m) then RevealDelayedJoin m st else Some st
  | None => Some st
  end.

(** *** Joining and leaving *)
Definition add_user_to_channel (c u : ptr) (flags oplevel : Z) st : option (state T) :=
  cl ← clients st !! u;
  if has_user cl then
    ch ← channels st !! c;
    let st := set_mm st (link_member c u flags oplevel (mm st)).2 in
    ev ← (match destruct_event (events st) !! c with
          | Some _ => remove_destruct_event c (events st)
          | None => Some (events st)
          end);
    Some (upd_client (with_joined (w32 (joined cl + 1))) u
            (upd_channel (with_users (w32 (users ch + 1))) c (set_events st ev)))
  else Some st.

Definition remove_member_from_channel (now : Z) (m : ptr) st : option (state T * bool) :=
  let '(u, c) := (user (mget (mm st) m), channel (mget (mm st) m)) in
  let st := set_mm st (unlink_member m (mm st)) in
  st ← (if IsDelayedJoin (mget (mm st) m) then CheckDelayedJoins c st else Some st);
  cl ← clients st !! u;
  if has_user cl then
    let st := set_mm st (unlink_channel m (mm st)) in
    let st := upd_client (with_joined (w32 (joined cl - 1))) u st in
    sub1_from_channel now c (set_mm st (release_member m (mm st)))
  else None.

(** [while (remove_member_from_channel(chptr->members));] *)
Fixpoint remove_members (n : nat) (now : Z) (c : ptr) st : option (state T) :=
  match n with
  | O => None
  | S n =>
      m ← members (mm st) !! c;
      '(st, more) ← remove_member_from_channel now m st;
      if more : bool then remove_members n now c st else Some st
  end.

Definition remove_user_from_channel (now : Z) (u c : ptr) st : option (state T) :=
  m ← find_member_link c u st;
  match m with
  | None => Some st
  | Some m =>
      '(st, more) ← remove_member_from_channel now m st;
      if more : bool then
        z ← channel_all_zombies c st;
        if z : bool then remove_members (walk_fuel (next_member (mm st))) now c st else Some st
      else Some st
  end.

Fixpoint remove_from_all (n : nat) (now : Z) (u : ptr) st : option (state T) :=
  match n with
  | O => None
  | S n =>
      match user_channel (mm st) !! u with
      | None => Some st
      | Some chan => st ← remove_user_from_channel now u (channel (mget (mm st) chan)) st; remove_from_all n now u st
      end
  end.

Definition remove_user_from_all_channels (now : Z) (u : ptr) st : option (state T) :=
  remove_from_all (walk_fuel (next_channel (mm st))) now u st.

(** The walk up from a server, and whether it meets [target] before [me]. *)
Fixpoint on_the_way (n : nat) (me target acptr : ptr) st : option bool :=
  match n with
  | O => None
  | S n =>
      if decide (acptr = me) then Some false
      else if decide (acptr = target) then Some true
      else cl ← clients st !! acptr; on_the_way n me target (cli_up cl) st
  end.

Definition make_zombie (now : Z) (me m who cptr sptr c : ptr) st : option (state T) :=
  let st := mark_member (fun s => Z.lor s CHFL_ZOMBIE) m st in
  w ← clients st !! who;
  cp ← clients st !! cptr;
  if MyUser who w then
    remove_user_from_channel now who c (if IsServer cp then send st [PartSent who cptr c] else st)
  else
    leaves ← (if decide (cli_from w = cptr) then
                sp ← clients st !! sptr;
                on_the_way (S (size (clients st))) me (cli_server w) (if IsServer sp then sptr else cli_server sp) st
              else Some false);
    if leaves : bool then remove_user_from_channel now who c st
    else
      z ← channel_all_zombies c st;
      if z : bool then remove_user_from_channel now who c st else Some st.

(** *** Finding and creating channels *)
Definition CHANNELLEN : nat := 200.

Definition FindChannel (n : cstring) st : option (state T * option ptr) :=
  match n with
  | [] => Some (st, None)
  | _ => '(t, r) ← tab_find (name_of st) (table st) n;
         Some (set_global st (ch_next st) (ch_prev st) (GlobalChannelList st) t (nchannels st), r)
  end.

Definition new_channel (n : cstring) (created : Z) : Channel :=
  {| chname := n; creationtime := created; users := 0; invites := []; banlist := [];
     cmode := {| mode := 0; limit := 0; key := []; upass := []; apass := [] |} |}.

Definition get_channel (now : Z) (cptr : ptr) (n : cstring) (create : bool) st : option (state T * option ptr) :=
  match n with
  | [] => Some (st, None)
  | _ =>
      cl ← clients st !! cptr;
      let n := if MyUser cptr cl then take CHANNELLEN n else n in
      '(st, r) ← FindChannel n st;
      match r with
      | Some c => Some (st, Some c)
      | None =>
          if create then
            let c := fresh (dom (channels st)) in
            let pv := match GlobalChannelList st with
                      | Some g => set_link g (Some c) (ch_prev st)
                      | None => ch_prev st
                      end in
            let st := set_channels st (<[c := new_channel n (if MyUser cptr cl then now else 0)]> (channels st)) in
            t ← tab_add (name_of st) (table st) c;
            Some (set_global st (set_link c (GlobalChannelList st) (ch_next st)) (set_link c None pv) (Some c) t
                    (nchannels st + 1), Some c)
          else Some (st, None)
      end
  end.

(** *** [exec_expired_destruct_events] *)
Fixpoint exec_expired (n : nat) (d : delay) (now : Z) st : option (state T) :=
  match n with
  | O => None
  | S n =>
      match expired d now (events st) with
      | None => Some st
      | Some ev =>
          let c := ev_chptr ev in
          _ ← channels st !! c;
          let st := send st [DestructSent c] in
          evs ← remove_destruct_event c (events st);
          st ← destruct_channel c (set_events st evs);
          exec_expired n d now st
      end
  end.

Definition exec_expired_destruct_events (now : Z) st : option (state T) :=
  st ← exec_expired (S (size (evs (events st)))) Minute now st;
  exec_expired (S (size (evs (events st)))) Days now st.

(** *** Who may speak *)
Definition mode_ban_invalidate (c : ptr) st : option (state T) :=
  l ← members_of (mm st) c;
  Some (foldl (fun st m => mark_member (fun s => Z.ldiff s CHFL_BANVALID) m st) st l).

Definition is_banned (m : ptr) st : option (state T * bool) :=
  if IsBanValid (mget (mm st) m) then Some (st, IsBanned (mget (mm st) m))
  else
    let st := mark_member (fun s => Z.lor s CHFL_BANVALID) m st in
    cl ← clients st !! user (mget (mm st) m);
    ch ← channels st !! channel (mget (mm st) m);
    b ← find_ban HIDDEN_HOST (names cl) (banlist ch);
    match b with
    | Some _ => Some (mark_member (fun s => Z.lor s CHFL_BANNED) m st, true)
    | None => Some (mark_member (fun s => Z.ldiff s CHFL_BANNED) m st, false)
    end.

Definition has_mode (f : Z) (ch : Channel) : bool := negb (Z.land (mode (cmode ch)) f =? 0).

(** The modes that keep a client from speaking, without [MODE_MODERATED]. *)
Definition restricted (cl : Client) (ch : Channel) : bool :=
  (has_mode MODE_MODERATENOREG ch && negb (IsAccount cl)) ||
  (has_mode MODE_MSGNONWEB ch && negb (IsAccount cl) && negb (IsWebircPort cl)) ||
  (has_mode MODE_OPERONLY ch && negb (oper cl)) ||
  (has_mode MODE_SSLONLY ch && negb (ssl cl)) ||
  (has_mode MODE_REGONLY ch && negb (IsAccount cl)).

Definition reveal_if (reveal : bool) (m : ptr) st : option (state T) :=
  if IsDelayedJoin (mget (mm st) m) && reveal then RevealDelayedJoin m st else Some st.

Definition member_can_send_to_channel (m : ptr) (reveal : bool) st : option (state T * bool) :=
  let mb := mget (mm st) m in
  cl ← clients st !! user mb;
  if negb (MyUser (user mb) cl) then st ← reveal_if reveal m st; Some (st, true)
  else
    ch ← channels st !! channel mb;
    if IsChannelManager mb && negb (bool_decide (apass (cmode ch) = [])) then Some (st, false)
    else if IsVoicedOrOpped mb then Some (st, true)
    else if has_mode MODE_MODERATED ch then Some (st, false)
    else if restricted cl ch then Some (st, false)
    else
      '(st, b) ← is_banned m st;
      if b : bool then Some (st, false) else st ← reveal_if reveal m st; Some (st, true).

Definition client_can_send_to_channel (u c : ptr) (reveal : bool) st : option (state T * bool) :=
  cl ← clients st !! u;
  if IsServer cl || chserv cl then Some (st, true)
  else
    m ← find_channel_member u c st;
    match m with
    | Some m => member_can_send_to_channel m reveal st
    | None =>
        ch ← channels st !! c;
        if has_mode (Z.lor MODE_NOPRIVMSGS MODE_MODERATED) ch || restricted cl ch then Some (st, false)
        else b ← find_ban HIDDEN_HOST (names cl) (banlist ch); Some (st, if b is Some _ then false else true)
    end.

Fixpoint nickchange_loop (cl : Client) (l : list ptr) st : option (state T * option cstring) :=
  match l with
  | [] => Some (st, None)
  | m :: l =>
      let mb := mget (mm st) m in
      if IsVoicedOrOpped mb then nickchange_loop cl l st
      else
        ch ← channels st !! channel mb;
        if has_mode MODE_MODERATED ch || restricted cl ch then Some (st, Some (chname ch))
        else
          '(st, b) ← is_banned m st;
          if b : bool then Some (st, Some (chname ch)) else nickchange_loop cl l st
  end.

Definition find_no_nickchange_channel (u : ptr) st : option (state T * option cstring) :=
  cl ← clients st !! u;
  if MyUser u cl then l ← channels_of (mm st) u; nickchange_loop cl l st
  else Some (st, None).

(** *** [common_chan_count] *)
Fixpoint count_common (b : ptr) (max : Z) (l : list ptr) (count : Z) st : option Z :=
  match l with
  | [] => Some count
  | m :: l =>
      ms ← members_of (mm st) (channel (mget (mm st) m));
      if existsb (fun m => bool_decide (user (mget (mm st) m) = b)) ms then
        if negb (max =? 0) && (max <=? count + 1) then Some (count + 1) else count_common b max l (count + 1) st
      else count_common b max l count st
  end.

Definition common_chan_count (a b : ptr) (max : Z) st : option Z :=
  l ← channels_of (mm st) a; count_common b max l 0 st.
End ops.

(** ** The invariant *)
Section inv.
Context {T : Type} `{ChannelTableLaws T}.
Implicit Types st : state T.

(** Invitations are recorded on both sides. *)
Record inv_ok (chs : gmap ptr Channel) (cls : gmap ptr Client) : Prop := {
  io_chan : forall c ch u, chs !! c = Some ch -> u ∈ invites ch ->
    exists cl, cls !! u = Some cl /\ has_user cl = true /\ c ∈ invited cl;
  io_user : forall u cl c, cls !! u = Some cl -> c ∈ invited cl ->
    exists ch, chs !! c = Some ch /\ u ∈ invites ch;
  io_nodup : forall c ch, chs !! c = Some ch -> NoDup (invites ch);
  io_count : forall u cl, cls !! u = Some cl ->
    NoDup (invited cl) /\ n_invites cl = Z.of_nat (length (invited cl)) /\ n_invites cl < 2 ^ 32
}.

Definition global_ok st (G : list ptr) : Prop :=
  dlist (ch_next st) (ch_prev st) None (GlobalChannelList st) G /\ NoDup G /\
  (forall c, c ∈ G <-> is_Some (channels st !! c)) /\ nchannels st = Z.of_nat (length G).

Definition events_ok (now : Z) st : Prop :=
  exists L, ev_rep (events st) L /\ forall d, Forall (fun e => exp_of (events st) e <= now + delay_secs d) (L d).

(** [n] is the count of users that each channel keeps. *)
Record st_ok' (now : Z) st (S : shape) (n : ptr -> Z) : Prop := {
  so_matrix : matrix_ok (mm st) S;
  so_users : forall c ch, channels st !! c = Some ch -> users ch = n c /\ 0 <= n c < 2 ^ 32;
  so_chan : forall c m, m ∈ C S c -> is_Some (channels st !! c);
  so_joined : forall u cl, clients st !! u = Some cl -> joined cl = Z.of_nat (length (U S u)) /\ joined cl < 2 ^ 32;
  so_user : forall u m, m ∈ U S u -> exists cl, clients st !! u = Some cl /\ has_user cl = true /\
    IsServer cl = false /\ IsMe cl = false;
  so_invites : inv_ok (channels st) (clients st);
  so_global : exists G, global_ok st G;
  so_table : ctab_ok (name_of st) (table st) (fun c => is_Some (channels st !! c));
  so_names : forall c ch, channels st !! c = Some ch -> is_cstr (chname ch) /\ chname ch <> [];
  so_unique : forall c c' ch ch', channels st !! c = Some ch -> channels st !! c' = Some ch' ->
    lower (chname ch) = lower (chname ch') -> c = c';
  so_events : events_ok now st;
  so_sched : forall c, is_Some (destruct_event (events st) !! c) -> is_Some (channels st !! c) /\ C S c = []
}.

Definition count (S : shape) (c : ptr) : Z := Z.of_nat (length (C S c)).
Definition st_ok (now : Z) st (S : shape) : Prop := st_ok' now st S (count S).

(** ** Changes that the matrix, the lists and the table do not see *)
Definition same_ch (a b : Channel) : Prop :=
  chname b = chname a /\ creationtime b = creationtime a /\ users b = users a /\ apass (cmode b) = apass (cmode a).

Definition same_cl (a b : Client) : Prop :=
  b = with_invited (invited b) (n_invites b) a.

Record touched st st' : Prop := {
  to_mm : mm st' = mm st;
  to_chan : forall c, option_Forall2 same_ch (channels st !! c) (channels st' !! c);
  to_cl : forall u, option_Forall2 same_cl (clients st !! u) (clients st' !! u);
  to_next : ch_next st' = ch_next st;
  to_prev : ch_prev st' = ch_prev st;
  to_head : GlobalChannelList st' = GlobalChannelList st;
  to_table : table st' = table st;
  to_n : nchannels st' = nchannels st;
  to_ev : events st' = events st
}.

Lemma same_cl_refl cl : same_cl cl cl.
Proof. by destruct cl. Qed.

#[global] Instance touched_preorder : PreOrder touched.
Proof.
  split.
  - intros st. split; try done; intros k; [destruct (channels st !! k)|destruct (clients st !! k)]; constructor; try done.
    apply same_cl_refl.
  - intros s1 s2 s3 [] []. split; try congruence.
    + intros k. specialize (to_chan0 k). specialize (to_chan1 k).
      inversion to_chan0 as [a b Hab E1 E2|E1 E2]; rewrite <- E2 in to_chan1; inversion to_chan1 as [? e Hbe|]; constructor.
      unfold same_ch in *. naive_solver congruence.
    + intros k. specialize (to_cl0 k). specialize (to_cl1 k).
      inversion to_cl0 as [a b Hab E1 E2|E1 E2]; rewrite <- E2 in to_cl1; inversion to_cl1 as [? e Hbe|]; constructor.
      unfold same_cl in *. rewrite Hbe, Hab. done.
Qed.

Lemma touched_some st st' c ch : touched st st' -> channels st !! c = Some ch ->
  exists ch', channels st' !! c = Some ch' /\ same_ch ch ch'.
Proof. intros [] E. specialize (to_chan0 c). rewrite E in to_chan0. inversion to_chan0. eauto. Qed.

Lemma touched_back st st' c ch' : touched st st' -> channels st' !! c = Some ch' ->
  exists ch, channels st !! c = Some ch /\ same_ch ch ch'.
Proof. intros [] E. specialize (to_chan0 c). rewrite E in to_chan0. inversion to_chan0. eauto. Qed.

Lemma touched_dom st st' c : touched st st' -> is_Some (channels st' !! c) <-> is_Some (channels st !! c).
Proof. intros []. specialize (to_chan0 c). split; intros [x E]; rewrite E in to_chan0; inversion to_chan0; eauto. Qed.

Lemma touched_cl_back st st' u cl' : touched st st' -> clients st' !! u = Some cl' ->
  exists cl, clients st !! u = Some cl /\ same_cl cl cl'.
Proof. intros [] E. specialize (to_cl0 u). rewrite E in to_cl0. inversion to_cl0. eauto. Qed.

Lemma touched_cl_some st st' u cl : touched st st' -> clients st !! u = Some cl ->
  exists cl', clients st' !! u = Some cl' /\ same_cl cl cl'.
Proof. intros [] E. specialize (to_cl0 u). rewrite E in to_cl0. inversion to_cl0. eauto. Qed.

Lemma touched_name st st' c : touched st st' -> name_of st' c = name_of st c.
Proof.
  intros []. specialize (to_chan0 c). unfold name_of. inversion to_chan0 as [a b Hab|]; [|done]. by destruct Hab as (? & _).
Qed.

Lemma st_ok_touched now st st' S n :
  st_ok' now st S n -> touched st st' -> inv_ok (channels st') (clients st') -> st_ok' now st' S n.
Proof.
  intros Hok Ht Hi. pose proof Ht as []. split.
  - rewrite to_mm0. apply (so_matrix _ _ _ _ Hok).
  - intros c ch Hc. destruct (touched_back _ _ _ _ Ht Hc) as (ch0 & Hc0 & (_ & _ & -> & _)). by apply (so_users _ _ _ _ Hok).
  - intros c m Hm. apply (touched_dom _ _ _ Ht). by apply (so_chan _ _ _ _ Hok c m).
  - intros u cl Hu. destruct (touched_cl_back _ _ _ _ Ht Hu) as (cl0 & Hu0 & Es). rewrite Es. exact (so_joined _ _ _ _ Hok u cl0 Hu0).
  - intros u m Hm. destruct (so_user _ _ _ _ Hok u m Hm) as (cl & Hu & Hcl).
    destruct (touched_cl_some _ _ _ _ Ht Hu) as (cl' & Hu' & Es). exists cl'. split; [done|]. rewrite Es. done.
  - done.
  - destruct (so_global _ _ _ _ Hok) as (G & H1 & H2 & H3 & H4). exists G. unfold global_ok.
    rewrite to_next0, to_prev0, to_head0, to_n0. split_and!; [done|done| |done]. intros c. by rewrite (touched_dom _ _ _ Ht).
  - rewrite to_table0. eapply ctab_ext; [..|apply (so_table _ _ _ _ Hok)].
    + intros c. symmetry. by apply touched_dom.
    + intros c _. by apply touched_name.
  - intros c ch Hc. destruct (touched_back _ _ _ _ Ht Hc) as (ch0 & Hc0 & (-> & _)). by apply (so_names _ _ _ _ Hok c).
  - intros c c' ch ch' Hc Hc'. destruct (touched_back _ _ _ _ Ht Hc) as (a & Ha & (-> & _)).
    destruct (touched_back _ _ _ _ Ht Hc') as (b & Hb & (-> & _)). by apply (so_unique _ _ _ _ Hok).
  - unfold events_ok. rewrite to_ev0. apply (so_events _ _ _ _ Hok).
  - intros c. rewrite to_ev0, (touched_dom _ _ _ Ht). apply (so_sched _ _ _ _ Hok).
Qed.
End inv.

(** ** Invitations *)
Lemma length_unlink (p : ptr) l : p ∈ l -> S (length (unlink p l)) = length l.
Proof.
  induction l as [|q l IH]; [by intros ?%elem_of_nil|]. intros Hp. cbn. destruct (decide (q = p)) as [|Hne]; [done|].
  cbn. rewrite IH; [done|]. apply elem_of_cons in Hp as [->|]; done.
Qed.

Lemma alter_lookup {A} (f : A -> A) (m : gmap ptr A) k k' :
  alter f k m !! k' = if decide (k' = k) then f <$> m !! k else m !! k'.
Proof. case_decide as E; [by rewrite E, lookup_alter_eq|by rewrite lookup_alter_ne]. Qed.

Section invites.
Context {T : Type} `{ChannelTableLaws T} (MAXCHANNELSPERUSER : Z).
Implicit Types st : state T.

(** Replacing fields that the other parts do not see. *)
Lemma touched_upd_channel f c st : (forall ch, channels st !! c = Some ch -> same_ch ch (f ch)) -> touched st (upd_channel f c st).
Proof.
  intros Hf. split; try done; intros k; cbn.
  - rewrite alter_lookup. destruct (decide (k = c)) as [->|]; cbn.
    + destruct (channels st !! c) as [ch|]; cbn; [apply Some_Forall2; by apply Hf|constructor].
    + destruct (channels st !! k); [by apply Some_Forall2|constructor].
  - destruct (clients st !! k); constructor. apply same_cl_refl.
Qed.

Lemma touched_upd_client f u st : (forall cl, same_cl cl (f cl)) -> touched st (upd_client f u st).
Proof.
  intros Hf. split; try done; intros k; cbn.
  - destruct (channels st !! k); by constructor.
  - rewrite alter_lookup. destruct (decide (k = u)) as [->|]; cbn.
    + destruct (clients st !! u) as [cl|]; cbn; [apply Some_Forall2, Hf|constructor].
    + destruct (clients st !! k); [apply Some_Forall2, same_cl_refl|constructor].
Qed.

(** The same, when nothing is seen of the invitations either. *)
Lemma inv_ok_upd f c chs cls : (forall ch, chs !! c = Some ch -> invites (f ch) = invites ch) -> inv_ok chs cls -> inv_ok (alter f c chs) cls.
Proof.
  intros Hf []. assert (Hb : forall k ch, alter f c chs !! k = Some ch -> exists ch0, chs !! k = Some ch0 /\ invites ch = invites ch0).
  { intros k ch. rewrite alter_lookup. case_decide as E; [subst k|eauto]. destruct (chs !! c) eqn:Ec; [|done]. intros [= <-]. eauto. }
  split; [| | |done].
  - intros k ch u Hk Hu. destruct (Hb _ _ Hk) as (ch0 & Hk0 & E). rewrite E in Hu. by apply (io_chan0 k ch0).
  - intros u cl k Hu Hk. destruct (io_user0 _ _ _ Hu Hk) as (ch & Hc & Hi). rewrite alter_lookup. case_decide as E; [subst k|eauto].
    rewrite Hc. eexists. split; [done|]. by rewrite Hf.
  - intros k ch Hk. destruct (Hb _ _ Hk) as (ch0 & Hk0 & ->). by apply (io_nodup0 k).
Qed.

(** The two lists after one invitation is taken away. *)
Lemma del_invite_ok u c st ch cl :
  inv_ok (channels st) (clients st) -> channels st !! c = Some ch -> clients st !! u = Some cl -> has_user cl = true ->
  exists st' n, del_invite u c st = Some st' /\ touched st st' /\ inv_ok (channels st') (clients st') /\
    channels st' = alter (with_invites (unlink u (invites ch))) c (channels st) /\
    clients st' = alter (with_invited (unlink c (invited cl)) n) u (clients st).
Proof.
  intros [I1 I2 I3 I4] Hc Hu Hh. unfold del_invite. rewrite Hc. cbn [mbind option_bind]. rewrite Hu. cbn [mbind option_bind]. rewrite Hh.
  set (n := if bool_decide _ then _ else _). eexists _, n. split; [done|]. split; [|split; [|done]].
  { etransitivity; [apply touched_upd_channel|apply touched_upd_client]; done. }
  destruct (I4 _ _ Hu) as (Hnd & Hn & Hlt). pose proof (I3 _ _ Hc) as Hndc. cbn [channels clients upd_client set_clients upd_channel set_channels].
  assert (Hboth : u ∈ invites ch <-> c ∈ invited cl).
  { split; intros Hi; [destruct (I1 _ _ _ Hc Hi) as (? & ? & _ & ?)|destruct (I2 _ _ _ Hu Hi) as (? & ? & ?)]; congruence. }
  split.
  - intros k ch' v. rewrite alter_lookup. intros Hk Hv. assert (exists cl', clients st !! v = Some cl' /\ has_user cl' = true /\ k ∈ invited cl' /\ ~ (k = c /\ v = u)) as (cl' & Hv' & Hhv & Hin & Hne).
    { case_decide as E; [subst k|].
      - rewrite Hc in Hk. injection Hk as <-. cbn [invites with_invites] in Hv. apply elem_of_unlink in Hv as [Hv Hvu]; [|done].
        destruct (I1 _ _ _ Hc Hv) as (cl' & ? & ? & ?). exists cl'. split_and!; tauto.
      - destruct (I1 _ _ _ Hk Hv) as (cl' & ? & ? & ?). exists cl'. split_and!; tauto. }
    clear Hk. rewrite alter_lookup. case_decide as E; [subst v|eauto]. rewrite Hu in Hv' |- *. injection Hv' as <-. eexists. split; [done|]. split; [done|].
    cbn [invited with_invited]. rewrite elem_of_unlink by done. tauto.
  - intros v cl' k. rewrite alter_lookup. intros Hv Hk. assert (exists ch', channels st !! k = Some ch' /\ v ∈ invites ch' /\ ~ (k = c /\ v = u)) as (ch' & Hk' & Hin & Hne).
    { case_decide as E; [subst v|].
      - rewrite Hu in Hv. injection Hv as <-. cbn [invited with_invited] in Hk. apply elem_of_unlink in Hk as [Hk Hkc]; [|done].
        destruct (I2 _ _ _ Hu Hk) as (ch' & ? & ?). exists ch'. split_and!; tauto.
      - destruct (I2 _ _ _ Hv Hk) as (ch' & ? & ?). exists ch'. split_and!; tauto. }
    clear Hv. rewrite alter_lookup. case_decide as E; [subst k|eauto]. rewrite Hc in Hk' |- *. injection Hk' as <-. eexists. split; [done|].
    cbn [invites with_invites]. rewrite elem_of_unlink by done. tauto.
  - intros k ch'. rewrite alter_lookup. case_decide as E; [subst k|apply I3]. rewrite Hc. intros [= <-]. cbn. by apply NoDup_unlink.
  - intros v cl'. rewrite alter_lookup. case_decide as E; [subst v|apply I4]. rewrite Hu. intros [= <-]. cbn [invited n_invites with_invited].
    split; [by apply NoDup_unlink|]. unfold n. case_bool_decide as Hi.
    + apply Hboth in Hi. pose proof (length_unlink c _ Hi) as Hl. rewrite w32_small by lia. lia.
    + rewrite unlink_not_in by tauto. done.
Qed.

Lemma del_invites_ok n : forall c st ch,
  inv_ok (channels st) (clients st) -> channels st !! c = Some ch -> (length (invites ch) < n)%nat ->
  exists st', del_invites n c st = Some st' /\ touched st st' /\ inv_ok (channels st') (clients st') /\
    channels st' = alter (with_invites []) c (channels st) /\ pool st' = pool st /\ outs st' = outs st.
Proof.
  induction n as [|n IH]; intros c st ch Hi Hc Hn; [lia|]. cbn [del_invites]. rewrite Hc. cbn [mbind option_bind].
  destruct (invites ch) as [|u l] eqn:El.
  - exists st. split_and!; [done|done|done| |done|done]. rewrite alter_id; [done|]. intros x Hx. rewrite Hc in Hx. injection Hx as <-.
    unfold with_invites. rewrite <- El. by destruct ch.
  - destruct (io_chan _ _ Hi c ch u Hc ltac:(rewrite El; left)) as (cl & Hu & Hh & Hcl).
    destruct (del_invite_ok u c st ch cl Hi Hc Hu Hh) as (st1 & k & E1 & Ht1 & Hi1 & Hc1 & _). rewrite E1.
    assert (pool st1 = pool st /\ outs st1 = outs st) as [Hp1 Ho1].
    { unfold del_invite in E1. rewrite Hc in E1. cbn in E1. rewrite Hu in E1. cbn in E1. rewrite Hh in E1. by injection E1 as <-. }
    cbn [mbind option_bind].
    destruct (IH c st1 (with_invites (unlink u (invites ch)) ch)) as (st2 & E2 & Ht2 & Hi2 & Hc2 & Hp2 & Ho2); [done|..].
    + by rewrite Hc1, lookup_alter_eq, Hc.
    + cbn [invites with_invites]. rewrite El. cbn. rewrite decide_True by done. cbn in Hn. lia.
    + exists st2. split_and!; [done|by etransitivity|done| |congruence|congruence]. rewrite Hc2, Hc1. apply map_eq. intros k0. rewrite !alter_lookup.
      case_decide; [|done]. by rewrite decide_True, Hc.
Qed.

Lemma mode_invite_clear_ok c st ch :
  inv_ok (channels st) (clients st) -> channels st !! c = Some ch ->
  exists st', mode_invite_clear c st = Some st' /\ touched st st' /\ inv_ok (channels st') (clients st') /\
    channels st' = alter (with_invites []) c (channels st) /\ pool st' = pool st /\ outs st' = outs st.
Proof.
  intros Hi Hc. unfold mode_invite_clear. rewrite Hc. cbn [mbind option_bind]. apply (del_invites_ok _ _ _ ch); [done..|lia].
Qed.
End invites.

(** ** The end of a channel *)

(** [destruct_channel] takes it out of its list link by link, the previous
    one first. *)
Lemma prev_first nx pv (hd : option ptr) l1 c l2 p :
  NoDup (l1 ++ c :: l2) -> dlist nx pv None p (l1 ++ c :: l2) ->
  let '(nx', hd') := match pv !! c with Some q => (set_link q (nx !! c) nx, hd) | None => (nx, nx !! c) end in
  (nx', match nx' !! c with Some n => set_link n (pv !! c) pv | None => pv end, hd') = dl_remove c hd nx pv.
Proof.
  intros Hnd Hd. destruct (dlist_app _ _ _ _ _ _ _ Hd) as (Hpv & Hd2 & _ & _). pose proof (NoDup_drop_middle _ _ _ Hnd) as [Hc _].
  apply not_elem_of_app in Hc as [Hc1 Hc2].
  assert (Hq : pv !! c <> Some c).
  { rewrite Hpv. destruct (last l1) as [q|] eqn:E; [|done]. intros [= ->]. apply last_Some in E as [l ->]. set_solver. }
  assert (Hn : nx !! c <> Some c) by (destruct l2 as [|n l2]; [by rewrite (Hd2 : nx !! c = None)|]; destruct Hd2 as [-> _]; set_solver).
  unfold dl_remove. set (pv' := match nx !! c with Some _ => _ | None => pv end).
  assert (Hpv' : pv' !! c = pv !! c) by (unfold pv'; destruct (nx !! c); [apply set_link_ne; congruence|done]).
  rewrite Hpv'. destruct (pv !! c) as [q|] eqn:Eq; [|done].
  rewrite set_link_ne by congruence. done.
Qed.

Section destroy.
Context {T : Type} `{ChannelTableLaws T} (OPLEVELS : bool).
Implicit Types st : state T.

(** The channel is gone, and nobody else has seen it. *)
Record closed (c : ptr) st st' : Prop := {
  cl_mm : mm st' = mm st;
  cl_ev : events st' = events st;
  cl_chan : forall k, option_Forall2 same_ch (if decide (k = c) then None else channels st !! k) (channels st' !! k);
  cl_cl : forall u, option_Forall2 same_cl (clients st !! u) (clients st' !! u);
  cl_outs : outs st' = outs st
}.

Lemma inv_ok_delete c chs cls : (forall ch, chs !! c = Some ch -> invites ch = []) -> inv_ok chs cls -> inv_ok (delete c chs) cls.
Proof.
  intros He []. split; [| | |done].
  - intros k ch u Hk. apply lookup_delete_Some in Hk as [_ Hk]. by apply io_chan0.
  - intros u cl k Hu Hk. destruct (io_user0 _ _ _ Hu Hk) as (ch & Hc & Hi). exists ch. split; [|done].
    rewrite lookup_delete_ne; [done|]. intros ->. rewrite (He _ Hc) in Hi. by apply elem_of_nil in Hi.
  - intros k ch Hk. apply lookup_delete_Some in Hk as [_ Hk]. by apply (io_nodup0 k).
Qed.

Lemma destruct_channel_ok now c st S n ch :
  st_ok' now st S n -> channels st !! c = Some ch -> C S c = [] -> destruct_event (events st) !! c = None ->
  exists st', destruct_channel c st = Some st' /\ st_ok' now st' S n /\ closed c st st'.
Proof.
  intros Hok Hc HS He. unfold destruct_channel.
  destruct (mode_invite_clear_ok c st ch (so_invites _ _ _ _ Hok) Hc) as (st1 & -> & Ht & Hi & Hc1 & _ & Ho). cbn [mbind option_bind].
  pose proof (st_ok_touched _ _ _ _ _ Hok Ht Hi) as Hok1.
  assert (Hch1 : channels st1 !! c = Some (with_invites [] ch)) by (by rewrite Hc1, lookup_alter_eq, Hc).
  rewrite Hch1. cbn [mbind option_bind]. unfold free_bans_of, set_pool. cbn [ch_next ch_prev GlobalChannelList].
  destruct (so_global _ _ _ _ Hok1) as (G & Hd & Hnd & HG & Hn).
  assert (Hin : c ∈ G) by (apply HG; by rewrite Hch1). apply list_elem_of_split in Hin as (l1 & l2 & ->).
  pose proof (prev_first _ _ (GlobalChannelList st1) _ _ _ _ Hnd Hd) as Hp. pose proof (dlist_remove _ _ _ _ _ _ Hnd Hd) as Hr.
  destruct (match ch_prev st1 !! c with Some _ => _ | None => _ end) as [nx hd]. rewrite <- Hp in Hr. destruct Hr as [Hr _].
  set (st2 := mk_state _ _ _ _ _ _ _ _ _ _ _).
  assert (Hname : name_of st2 c <> []) by (unfold name_of, st2; cbn; rewrite Hch1; apply (so_names _ _ _ _ Hok1 c _ Hch1)).
  destruct (tab_rem_ok (name_of st2) (table st2) (fun k => is_Some (channels st1 !! k)) c) as (t' & -> & Ht'); [apply (so_table _ _ _ _ Hok1)|done|].
  cbn [mbind option_bind]. eexists. split; [done|]. unfold set_channels, set_global, st2. cbn.
  assert (Hdel : forall k x, delete c (channels st1) !! k = Some x <-> k <> c /\ channels st1 !! k = Some x).
  { intros k x. rewrite lookup_delete_Some. naive_solver. }
  split.
  - split; cbn; try apply Hok1.
    + intros k x Hx. apply Hdel in Hx as [_ Hx]. by apply (so_users _ _ _ _ Hok1).
    + intros k m Hm. rewrite lookup_delete_ne by (intros <-; rewrite HS in Hm; by apply elem_of_nil in Hm). by apply (so_chan _ _ _ _ Hok1 k m).
    + apply inv_ok_delete; [|done]. intros x Hx. rewrite Hch1 in Hx. by injection Hx as <-.
    + exists (l1 ++ l2). unfold global_ok. cbn. split; [exact Hr|]. pose proof (NoDup_drop_middle _ _ _ Hnd) as [Hcl Hnd'].
      split; [done|]. split.
      * intros k. destruct (decide (k = c)) as [->|Hk]; [rewrite lookup_delete_eq; split; [done|by intros []]|].
        rewrite lookup_delete_ne, <- HG by done. set_solver.
      * rewrite Hn, !length_app. cbn [length]. lia.
    + eapply ctab_ext; [..|exact Ht'].
      * intros k. cbn. destruct (decide (k = c)) as [->|Hk]; [rewrite lookup_delete_eq; split; [tauto|by intros []]|].
        rewrite lookup_delete_ne by done. tauto.
      * intros k [Hk _]. unfold name_of. cbn. by rewrite lookup_delete_ne.
    + intros k x Hx. apply Hdel in Hx as [_ Hx]. by apply (so_names _ _ _ _ Hok1 k).
    + intros k k' x x' Hx Hx'. apply Hdel in Hx as [_ Hx]. apply Hdel in Hx' as [_ Hx']. by apply (so_unique _ _ _ _ Hok1).
    + intros k Hk. assert (k <> c) as Hkc.
      { intros ->. rewrite (to_ev _ _ Ht), He in Hk. by destruct Hk. }
      rewrite lookup_delete_ne by done. by apply (so_sched _ _ _ _ Hok1).
  - split; cbn; [apply Ht|apply Ht| |apply Ht|done]. intros k. case_decide as E; [subst k; rewrite lookup_delete_eq; constructor|].
    rewrite lookup_delete_ne by done. apply Ht.
Qed.
End destroy.

Definition updn (c : ptr) (v : Z) (n : ptr -> Z) : ptr -> Z := fun k => if decide (k = c) then v else n k.

Section sub1.
Context {T : Type} `{ChannelTableLaws T} (OPLEVELS : bool).
Implicit Types st : state T.

Lemma touched_pool st p : touched st (set_pool st p).
Proof.
  destruct (reflexivity (R := touched) st). by split.
Qed.

Lemma touched_send st o : touched st (send st o).
Proof.
  destruct (reflexivity (R := touched) st). by split.
Qed.

Lemma st_ok_ext now st S n n' : (forall c, is_Some (channels st !! c) -> n c = n' c) -> st_ok' now st S n -> st_ok' now st S n'.
Proof.
  intros Hn Hok. split; try apply Hok. intros c ch Hc. rewrite <- Hn by (by rewrite Hc). by apply (so_users _ _ _ _ Hok).
Qed.

Lemma with_users_ok now st S n c f v :
  st_ok' now st S n -> 0 <= v < 2 ^ 32 ->
  (forall ch, channels st !! c = Some ch -> chname (f ch) = chname ch /\ invites (f ch) = invites ch /\ users (f ch) = v) ->
  st_ok' now (upd_channel f c st) S (updn c v n).
Proof.
  intros Hok Hv Hf.
  assert (Hb : forall k ch, alter f c (channels st) !! k = Some ch -> exists ch0, channels st !! k = Some ch0 /\ chname ch = chname ch0 /\
    users ch = (if decide (k = c) then v else users ch0)).
  { intros k ch. rewrite alter_lookup. case_decide as E; [subst k|eauto]. destruct (channels st !! c) as [ch0|] eqn:Ec; [|done].
    intros [= <-]. exists ch0. by destruct (Hf ch0 eq_refl) as (? & ? & ?). }
  assert (Hs : forall k, is_Some (alter f c (channels st) !! k) <-> is_Some (channels st !! k)).
  { intros k. rewrite alter_lookup. case_decide as E; [subst k|done]. by rewrite fmap_is_Some. }
  assert (Hname : forall k, name_of (upd_channel f c st) k = name_of st k).
  { intros k. unfold name_of. cbn. rewrite alter_lookup. case_decide as E; [subst k|done].
    destruct (channels st !! c) as [ch0|] eqn:Ec; [|done]. cbn. by destruct (Hf ch0 eq_refl) as (? & _). }
  split; cbn; try apply Hok.
  - intros k ch Hk. destruct (Hb _ _ Hk) as (ch0 & Hk0 & _ & ->). unfold updn. case_decide; [done|]. by apply (so_users _ _ _ _ Hok).
  - intros k m Hm. apply Hs. by apply (so_chan _ _ _ _ Hok k m).
  - apply inv_ok_upd; [|apply Hok]. intros ch Hc. by apply Hf.
  - destruct (so_global _ _ _ _ Hok) as (G & H1 & H2 & H3 & H4). exists G. split_and!; try done. intros k. cbn. by rewrite Hs.
  - eapply ctab_ext; [..|apply (so_table _ _ _ _ Hok)]; [intros k; symmetry; apply Hs|intros k _; apply Hname].
  - intros k ch Hk. destruct (Hb _ _ Hk) as (ch0 & Hk0 & -> & _). by apply (so_names _ _ _ _ Hok k).
  - intros k k' a b Ha Hb'. destruct (Hb _ _ Ha) as (a0 & Ha0 & -> & _), (Hb _ _ Hb') as (b0 & Hb0 & -> & _).
    by apply (so_unique _ _ _ _ Hok).
  - intros k Hk. rewrite Hs. by apply (so_sched _ _ _ _ Hok).
Qed.

Lemma schedule_ok d now c st S n :
  st_ok' now st S n -> is_Some (channels st !! c) -> C S c = [] -> destruct_event (events st) !! c = None ->
  let st' := set_events st (schedule d now c (events st)) in
  st_ok' now st' S n /\ is_Some (destruct_event (events st') !! c) /\
  (forall k, k <> c -> destruct_event (events st') !! k = destruct_event (events st) !! k).
Proof.
  intros Hok Hc HS He st'. destruct (so_events _ _ _ _ Hok) as (L & HL & Hx).
  destruct (schedule_fields d now c (events st) L HL He) as (Fe & Fd & _).
  pose proof (schedule_rep d now c (events st) L HL He (Hx d)) as HL'. destruct (new_event_new (events st) L HL) as [_ HneL].
  assert (Hd : forall k, k <> c -> destruct_event (events st') !! k = destruct_event (events st) !! k).
  { intros k Hk. unfold st'. cbn [events set_events]. by rewrite Fd, lookup_insert_ne. }
  assert (Hself : is_Some (destruct_event (events st') !! c)) by (unfold st'; cbn [events set_events]; by rewrite Fd, lookup_insert_eq).
  split; [|done]. unfold st' in *. split; try apply Hok.
  - eexists. split; [exact HL'|]. intros d'. cbn [events set_events].
    assert (Hold : forall e, e ∈ L d' -> exp_of (schedule d now c (events st)) e <= now + delay_secs d').
    { intros e Hin. unfold exp_of. rewrite Fe, lookup_insert_ne by (intros <-; by apply (HneL d')).
      specialize (Hx d'). rewrite Forall_forall in Hx. by apply Hx. }
    apply Forall_forall. intros e. destruct (decide (d' = d)) as [->|Hne]; [rewrite upd_queue_eq|rewrite upd_queue_ne by done; apply Hold].
    rewrite elem_of_app, list_elem_of_singleton. intros [Hin| ->]; [by apply Hold|]. unfold exp_of. rewrite Fe, lookup_insert_eq. cbn. lia.
  - intros k Hk. cbn [channels set_events]. destruct (decide (k = c)) as [->|Hkc]; [done|]. rewrite Hd in Hk by done. by apply (so_sched _ _ _ _ Hok).
Qed.

(** A channel that nobody is on is kept, or goes at once. *)
Definition kept (ch : Channel) : bool := OPLEVELS || negb (bool_decide (apass (cmode ch) = [])).

(** What [sub1_from_channel] does to the channels, besides the counter. *)
Record after_sub1 (c : ptr) (ch : Channel) (more : bool) st st' : Prop := {
  as_mm : mm st' = mm st;
  as_cl : forall u, option_Forall2 same_cl (clients st !! u) (clients st' !! u);
  as_other : forall k, k <> c -> option_Forall2 same_ch (channels st !! k) (channels st' !! k) /\
    destruct_event (events st') !! k = destruct_event (events st) !! k;
  as_more : more = true -> is_Some (channels st' !! c) /\ events st' = events st;
  as_kept : more = false -> kept ch = true -> is_Some (channels st' !! c) /\ is_Some (destruct_event (events st') !! c);
  as_gone : more = false -> kept ch = false -> channels st' !! c = None;
  as_pass : forall ch', channels st' !! c = Some ch' -> chname ch' = chname ch /\ apass (cmode ch') = apass (cmode ch)
}.

Lemma reset_channel_ok now c st S n ch : st_ok' now st S n -> channels st !! c = Some ch -> apass (cmode ch) = [] ->
  exists st', reset_channel c st = Some st' /\ touched st st' /\ st_ok' now st' S n.
Proof.
  intros Hok Hc Hap. unfold reset_channel. set (st1 := upd_channel _ c st).
  assert (Ht1 : touched st st1) by (by apply touched_upd_channel).
  assert (Hi1 : inv_ok (channels st1) (clients st1)) by (apply inv_ok_upd; [done|apply Hok]).
  assert (Hc1 : exists ch1, channels st1 !! c = Some ch1) by (unfold st1; cbn; rewrite lookup_alter_eq, Hc; eauto).
  destruct Hc1 as [ch1 Hc1]. destruct (mode_invite_clear_ok c st1 ch1 Hi1 Hc1) as (st2 & -> & Ht2 & Hi2 & Hc2 & _).
  cbn [mbind option_bind]. rewrite Hc2, lookup_alter_eq, Hc1. cbn [fmap option_fmap option_map mbind option_bind].
  set (st3 := free_bans_of _ st2). assert (Ht3 : touched st2 st3).
  { apply touched_pool. }
  assert (Ht : touched st (upd_channel (with_banlist []) c st3)).
  { etransitivity; [exact Ht1|]. etransitivity; [exact Ht2|]. etransitivity; [exact Ht3|]. by apply touched_upd_channel. }
  eexists. split; [done|]. split; [done|]. eapply st_ok_touched; [exact Hok|exact Ht|]. apply inv_ok_upd; [done|exact Hi2].
Qed.
Section emptied.
Context (now : Z) (c : ptr) (st : state T) (S : shape) (n : ptr -> Z) (ch : Channel).
Hypothesis Hok : st_ok' now st S n.
Hypothesis Hc : channels st !! c = Some ch.
Hypothesis He : destruct_event (events st) !! c = None.
Hypothesis HS : C S c = [].

Definition emptied : state T := upd_channel (fun ch => with_cmode (relax_modes (cmode ch)) (with_users 0 ch)) c st.

Lemma emptied_ok : st_ok' now emptied S (updn c 0 n) /\
  channels emptied !! c = Some (with_cmode (relax_modes (cmode ch)) (with_users 0 ch)).
Proof using Hok Hc. clear He HS. split; [by apply with_users_ok|]. unfold emptied. cbn. by rewrite lookup_alter_eq, Hc. Qed.

(** Seen from before the counter was set. *)
Lemma emptied_seen st2 : touched emptied st2 ->
  mm st2 = mm st /\ events st2 = events st /\ (forall u, option_Forall2 same_cl (clients st !! u) (clients st2 !! u)) /\
  (forall k, k <> c -> option_Forall2 same_ch (channels st !! k) (channels st2 !! k)) /\
  exists ch2, channels st2 !! c = Some ch2 /\ chname ch2 = chname ch /\ apass (cmode ch2) = apass (cmode ch).
Proof using Hok Hc.
  intros Ht. split_and!; try apply Ht.
  - intros k Hk. pose proof (to_chan _ _ Ht k) as Hk'. unfold emptied in Hk'. cbn in Hk'. by rewrite lookup_alter_ne in Hk'.
  - destruct emptied_ok as [_ Hc1]. destruct (touched_some _ _ _ _ Ht Hc1) as (ch2 & Hch2 & (Hnm & _ & _ & Hap)). by exists ch2.
Qed.

Lemma emptied_kept st2 : touched emptied st2 -> st_ok' now st2 S (updn c 0 n) -> kept ch = true ->
  exists st', schedule_empty now c st2 = Some st' /\ st_ok' now st' S (updn c 0 n) /\ after_sub1 c ch false st st'.
Proof using Hok Hc He HS.
  intros Ht Hok2 Hk. destruct (emptied_seen st2 Ht) as (F1 & F2 & F3 & F4 & ch2 & Hc2 & Hnm & Hap). unfold schedule_empty. rewrite Hc2. cbn [mbind option_bind].
  rewrite <- F2 in He. eexists. split; [done|].
  assert (Hs : forall d, let st' := set_events st2 (schedule d now c (events st2)) in
    st_ok' now st' S (updn c 0 n) /\ after_sub1 c ch false st st').
  { intros d. destruct (schedule_ok d now c st2 S _ Hok2 ltac:(by rewrite Hc2) HS He) as (Hok' & Hd & Ho). split; [done|].
    split; try done.
    - intros k Hkc. split; [by apply F4|]. rewrite <- F2. by apply Ho.
    - intros _. congruence.
    - intros ch'. cbn. rewrite Hc2. by intros [= <-]. }
  destruct (_ <? _); apply Hs.
Qed.

Lemma emptied_gone st2 : touched emptied st2 -> st_ok' now st2 S (updn c 0 n) -> kept ch = false ->
  exists st', destruct_channel c st2 = Some st' /\ st_ok' now st' S (updn c 0 n) /\ after_sub1 c ch false st st'.
Proof using Hok Hc He HS.
  intros Ht Hok2 Hk. destruct (emptied_seen st2 Ht) as (F1 & F2 & F3 & F4 & ch2 & Hc2 & Hnm & Hap). rewrite <- F2 in He.
  destruct (destruct_channel_ok now c st2 S _ ch2 Hok2 Hc2 HS He) as (st3 & -> & Hok3 & []). eexists. split; [done|]. split; [done|].
  assert (Hgone : channels st3 !! c = None).
  { specialize (cl_chan0 c). rewrite decide_True in cl_chan0 by done. by inversion cl_chan0. }
  split.
  - congruence.
  - intros u. specialize (F3 u). specialize (cl_cl0 u). inversion F3 as [a b Hab E1 E2|E1 E2]; rewrite <- E2 in cl_cl0; inversion cl_cl0 as [? e Hbe|]; constructor.
    unfold same_cl in *. by rewrite Hbe, Hab.
  - intros k Hkc. split; [|by rewrite cl_ev0, F2]. specialize (F4 k Hkc). specialize (cl_chan0 k). rewrite decide_False in cl_chan0 by done.
    inversion F4 as [a b Hab E1 E2|E1 E2]; rewrite <- E2 in cl_chan0; inversion cl_chan0 as [? e Hbe|]; constructor.
    unfold same_ch in *. naive_solver congruence.
  - done.
  - intros _. congruence.
  - done.
  - intros ch'. by rewrite Hgone.
Qed.
End emptied.

Lemma sub1_from_channel_ok now c st S n ch :
  st_ok' now st S n -> channels st !! c = Some ch -> destruct_event (events st) !! c = None -> (n c <= 1 -> C S c = []) ->
  exists st' more, sub1_from_channel OPLEVELS now c st = Some (st', more) /\ more = (1 <? n c) /\
    st_ok' now st' S (updn c (if more then n c - 1 else 0) n) /\ after_sub1 c ch more st st'.
Proof.
  intros Hok Hc He HS. destruct (so_users _ _ _ _ Hok _ _ Hc) as [Hu Hr]. unfold sub1_from_channel. rewrite Hc. cbn [mbind option_bind].
  rewrite Hu. destruct (Z.ltb_spec 1 (n c)) as [Hlt|Hle].
  - eexists _, true. split; [done|]. split; [done|]. split; [apply with_users_ok; [done|lia|done]|].
    split; try done; cbn.
    + intros u. destruct (clients st !! u); constructor. apply same_cl_refl.
    + intros k Hk. rewrite lookup_alter_ne by done. split; [|done]. by destruct (channels st !! k); constructor.
    + intros _. split; [by rewrite lookup_alter_eq, Hc|done].
    + intros ch'. rewrite lookup_alter_eq, Hc. by intros [= <-].
  - specialize (HS Hle). destruct (emptied_ok now c st S n ch Hok Hc) as [Hok1 Hc1].
    change (upd_channel _ c st) with (emptied c st). destruct (apass (cmode ch)) as [|a ap] eqn:Hap.
    + destruct (reset_channel_ok now c _ S _ _ Hok1 Hc1 Hap) as (st2 & -> & Ht2 & Hok2). cbn [mbind option_bind].
      destruct OPLEVELS eqn:EO; cbn [negb].
      * destruct (emptied_kept now c st S n ch Hok Hc He HS st2 Ht2 Hok2) as (st' & -> & ? & ?); [unfold kept; by rewrite EO|]. cbn. eauto 10.
      * destruct (emptied_gone now c st S n ch Hok Hc He HS st2 Ht2 Hok2) as (st' & -> & ? & ?); [unfold kept; by rewrite EO, Hap|]. cbn. eauto 10.
    + destruct (emptied_kept now c st S n ch Hok Hc He HS _ (reflexivity _) Hok1) as (st' & -> & ? & ?).
      { unfold kept. rewrite Hap. by rewrite orb_true_r. }
      cbn. eauto 10.
Qed.
End sub1.

(** ** Leaving *)
Lemma unlink_mid (m : ptr) l1 l2 : m ∉ l1 -> unlink m (l1 ++ m :: l2) = l1 ++ l2.
Proof.
  induction l1 as [|x l1 IH]; cbn; [by rewrite decide_True|]. intros Hm. apply not_elem_of_cons in Hm as [Hx Hm].
  rewrite decide_False by congruence. by rewrite IH.
Qed.

Section leaving.
Context {T : Type} `{ChannelTableLaws T} (OPLEVELS : bool).
Implicit Types st : state T.

(** The client, but for its channels and invitations. *)
Definition static_cl (a b : Client) : Prop := b = with_joined (joined b) (with_invited (invited b) (n_invites b) a).

Definition same_clients st st' : Prop := forall u, option_Forall2 static_cl (clients st !! u) (clients st' !! u).

Lemma static_of_same a b : same_cl a b -> static_cl a b.
Proof. unfold same_cl, static_cl. intros E. rewrite E. by destruct a. Qed.

Lemma same_clients_touched st st' : (forall u, option_Forall2 same_cl (clients st !! u) (clients st' !! u)) -> same_clients st st'.
Proof. intros Hs u. destruct (Hs u); constructor. by apply static_of_same. Qed.

#[global] Instance same_clients_preorder : PreOrder same_clients.
Proof.
  split.
  - intros st u. destruct (clients st !! u) as [x|]; constructor. by destruct x.
  - intros s1 s2 s3 H1 H2 u. specialize (H1 u). specialize (H2 u).
    inversion H1 as [a b Hab E1 E2|E1 E2]; rewrite <- E2 in H2; inversion H2 as [? e Hbe|]; constructor.
    unfold static_cl in *. rewrite Hbe, Hab. done.
Qed.

Lemma same_clients_joined st u n : same_clients st (upd_client (with_joined n) u st).
Proof.
  intros v. cbn. rewrite alter_lookup. destruct (decide (v = u)) as [->|].
  - destruct (clients st !! u) as [x|]; cbn; [apply Some_Forall2; by destruct x|constructor].
  - destruct (clients st !! v) as [x|]; [apply Some_Forall2; by destruct x|constructor].
Qed.

(** What the channels look like after some memberships are gone: a channel
    that is not emptied is the same to the rest of the program; one that is
    emptied is scheduled for destruction, or gone. *)
Record leave st (S : shape) st' (S' : shape) : Prop := {
  lv_sub : forall k m, m ∈ C S' k -> m ∈ C S k;
  lv_get : forall m, mget (mm st') m = mget (mm st) m;
  lv_cl : same_clients st st';
  lv_none : forall k, channels st !! k = None -> channels st' !! k = None;
  lv_back : forall k ch', channels st' !! k = Some ch' -> exists ch, channels st !! k = Some ch /\
    chname ch' = chname ch /\ apass (cmode ch') = apass (cmode ch);
  lv_same : forall k, is_Some (channels st !! k) -> C S k = [] \/ C S' k <> [] -> is_Some (channels st' !! k);
  lv_ev : forall k, C S k = [] \/ C S' k <> [] -> destruct_event (events st') !! k = destruct_event (events st) !! k;
  lv_kept : forall k ch, channels st !! k = Some ch -> C S k <> [] -> C S' k = [] -> kept OPLEVELS ch = true ->
    is_Some (channels st' !! k) /\ is_Some (destruct_event (events st') !! k);
  lv_gone : forall k ch, channels st !! k = Some ch -> C S k <> [] -> C S' k = [] -> kept OPLEVELS ch = false ->
    channels st' !! k = None
}.

Lemma leave_refl st S : leave st S st S.
Proof. split; try done; eauto; reflexivity. Qed.

Lemma leave_empty st S st' S' k : leave st S st' S' -> C S k = [] -> C S' k = [].
Proof.
  intros L E. destruct (C S' k) as [|m l] eqn:E'; [done|]. assert (m ∈ C S k) as Hm by (apply (lv_sub _ _ _ _ L); rewrite E'; left).
  rewrite E in Hm. by apply elem_of_nil in Hm.
Qed.

Lemma kept_back st S st' S' k ch ch' : leave st S st' S' -> channels st !! k = Some ch -> channels st' !! k = Some ch' ->
  kept OPLEVELS ch' = kept OPLEVELS ch.
Proof. intros L E E'. destruct (lv_back _ _ _ _ L k ch' E') as (ch0 & E0 & _ & Ha). assert (ch0 = ch) as -> by (rewrite E in E0; by injection E0). unfold kept. by rewrite Ha. Qed.

Lemma leave_trans st S st1 S1 st2 S2 : leave st S st1 S1 -> leave st1 S1 st2 S2 -> leave st S st2 S2.
Proof.
  intros L1 L2.
  assert (He : forall k, C S k = [] \/ C S2 k <> [] -> (C S k = [] \/ C S1 k <> []) /\ (C S1 k = [] \/ C S2 k <> [])).
  { intros k [E|Hk]; [split; left; [done|by eapply leave_empty]|]. split; right; [|done]. intros E. by apply Hk, (leave_empty _ _ _ _ _ L2). }
  split.
  - intros k m Hm. by apply (lv_sub _ _ _ _ L1), (lv_sub _ _ _ _ L2).
  - intros m. by rewrite (lv_get _ _ _ _ L2), (lv_get _ _ _ _ L1).
  - etransitivity; [apply (lv_cl _ _ _ _ L1)|apply (lv_cl _ _ _ _ L2)].
  - intros k E. by apply (lv_none _ _ _ _ L2), (lv_none _ _ _ _ L1).
  - intros k ch2 E2. destruct (lv_back _ _ _ _ L2 k ch2 E2) as (ch1 & E1 & -> & ->). apply (lv_back _ _ _ _ L1 k ch1 E1).
  - intros k Hk Hs. destruct (He k Hs) as [H1 H2]. by apply (lv_same _ _ _ _ L2), H2; apply (lv_same _ _ _ _ L1).
  - intros k Hs. destruct (He k Hs) as [H1 H2]. by rewrite (lv_ev _ _ _ _ L2), (lv_ev _ _ _ _ L1).
  - intros k ch E HS HS2 Hk. destruct (decide (C S1 k = [])) as [E1|E1].
    + destruct (lv_kept _ _ _ _ L1 k ch E HS E1 Hk) as [Hs Hd]. split; [by apply (lv_same _ _ _ _ L2); auto|].
      by rewrite (lv_ev _ _ _ _ L2); auto.
    + destruct (lv_same _ _ _ _ L1 k) as [ch1 Ec1]; [by rewrite E|by right|].
      apply (lv_kept _ _ _ _ L2 k ch1); [done..|]. by rewrite (kept_back _ _ _ _ _ _ _ L1 E Ec1).
  - intros k ch E HS HS2 Hk. destruct (decide (C S1 k = [])) as [E1|E1].
    + apply (lv_none _ _ _ _ L2). by apply (lv_gone _ _ _ _ L1 k ch).
    + destruct (lv_same _ _ _ _ L1 k) as [ch1 Ec1]; [by rewrite E|by right|].
      apply (lv_gone _ _ _ _ L2 k ch1); [done..|]. by rewrite (kept_back _ _ _ _ _ _ _ L1 E Ec1).
Qed.

(** Removing one membership. *)
Definition minus (mm : matrix) (S : shape) (m : ptr) : shape :=
  let '(u, c) := (user (mget mm m), channel (mget mm m)) in
  {| C := upd c (unlink m (C S c)) (C S); U := upd u (unlink m (U S u)) (U S); F := m :: F S |}.

Lemma minus_ok (mm : matrix) S m : matrix_ok mm S -> live mm S m ->
  matrix_ok (removed_matrix mm m) (minus mm S m) /\
  (forall m', mget (removed_matrix mm m) m' = mget mm m') /\
  (forall k, members_of (unlink_member m mm) k = Some (C (minus mm S m) k)) /\
  m ∈ C S (channel (mget mm m)) /\ m ∈ U S (user (mget mm m)).
Proof.
  intros Hok Hm. destruct (unlink_places mm S Hok m Hm) as (c1 & c2 & u1 & u2 & HC & HU).
  pose proof (mo_nodup_c _ _ Hok (channel (mget mm m))) as Hnc. pose proof (mo_nodup_u _ _ Hok (user (mget mm m))) as Hnu.
  rewrite HC in Hnc. rewrite HU in Hnu.
  assert (E : minus mm S m = removed_shape mm S m c1 c2 u1 u2).
  { unfold minus, removed_shape. rewrite HC, HU, !unlink_mid; [done|..].
    - apply NoDup_app in Hnu as (_ & Hd & _). intros Hi. apply (Hd m Hi). left.
    - apply NoDup_app in Hnc as (_ & Hd & _). intros Hi. apply (Hd m Hi). left. }
  rewrite E. split_and!.
  - by apply removed_ok.
  - intros m'. by eapply removed_get.
  - intros k. by eapply members_after_unlink.
  - rewrite HC. set_solver.
  - rewrite HU. set_solver.
Qed.

Lemma in_minus (mm : matrix) S m k x : matrix_ok mm S -> x ∈ C (minus mm S m) k <-> x ∈ C S k /\ x <> m \/ x ∈ C S k /\ k <> channel (mget mm m).
Proof.
  intros Hok. cbn. unfold upd. case_decide as E; [subst k|tauto]. rewrite elem_of_unlink by apply (mo_nodup_c _ _ Hok). tauto.
Qed.

Lemma set_mm_ok now st S n mm' S' u k :
  st_ok' now st S n -> matrix_ok mm' S' -> (forall c, incl (C S' c) (C S c)) -> (forall v, incl (U S' v) (U S v)) ->
  (forall v, v <> u -> U S' v = U S v) -> length (U S' u) = k ->
  (forall cl, clients st !! u = Some cl -> Z.of_nat k < 2 ^ 32) ->
  st_ok' now (upd_client (with_joined (Z.of_nat k)) u (set_mm st mm')) S' n.
Proof.
  intros Hok Hmm HC HU Hv Hl Hk.
  assert (HCi : forall c m, m ∈ C S' c -> m ∈ C S c) by (intros c m Hm; apply list_elem_of_In, HC; by apply list_elem_of_In).
  assert (HUi : forall c m, m ∈ U S' c -> m ∈ U S c) by (intros c m Hm; apply list_elem_of_In, HU; by apply list_elem_of_In).
  assert (Hb : forall v cl', alter (with_joined (Z.of_nat k)) u (clients st) !! v = Some cl' -> exists cl, clients st !! v = Some cl /\
    invited cl' = invited cl /\ n_invites cl' = n_invites cl /\ has_user cl' = has_user cl /\ joined cl' = if decide (v = u) then Z.of_nat k else joined cl).
  { intros v cl'. rewrite alter_lookup. case_decide as E; [subst v|intros; eauto 10]. destruct (clients st !! u) as [cl|]; [|done]. intros [= <-].
    exists cl. done. }
  assert (Hs : forall v cl, clients st !! v = Some cl -> exists cl', alter (with_joined (Z.of_nat k)) u (clients st) !! v = Some cl' /\
    invited cl' = invited cl /\ has_user cl' = has_user cl /\ cli_status cl' = cli_status cl).
  { intros v cl E. rewrite alter_lookup. case_decide; [subst v; rewrite E|]; eauto. }
  split; cbn; try apply Hok; try done.
  - intros c m Hm. apply (so_chan _ _ _ _ Hok c m). by apply HCi.
  - intros v cl' Hcl. destruct (Hb _ _ Hcl) as (cl & E & _ & _ & _ & ->). case_decide as Ev; [subst v|].
    + rewrite Hl. split; [done|]. by eapply Hk.
    + rewrite Hv by done. by apply (so_joined _ _ _ _ Hok).
  - intros v m Hm. destruct (so_user _ _ _ _ Hok v m (HUi _ _ Hm)) as (cl & E & Hh & H1 & H2). destruct (Hs _ _ E) as (cl' & E' & _ & Hh' & Hst).
    exists cl'. unfold IsServer, IsMe. rewrite Hh', Hst. done.
  - destruct (so_invites _ _ _ _ Hok) as [I1 I2 I3 I4]. split; [| |done|].
    + intros c ch v Hc Hi. destruct (I1 _ _ _ Hc Hi) as (cl & E & Hh & Hin). destruct (Hs _ _ E) as (cl' & E' & Hinv & Hh' & _).
      exists cl'. by rewrite Hh', Hinv.
    + intros v cl' c E Hin. destruct (Hb _ _ E) as (cl & E' & Hinv & _). rewrite Hinv in Hin. by apply (I2 v cl).
    + intros v cl' E. destruct (Hb _ _ E) as (cl & E' & -> & -> & _). by apply (I4 v).
  - intros c Hc. destruct (so_sched _ _ _ _ Hok c Hc) as [Hs' E]. split; [done|]. destruct (C S' c) as [|m l] eqn:E'; [done|].
    assert (m ∈ C S c) as Hm by (apply HCi; rewrite E'; left). rewrite E in Hm. by apply elem_of_nil in Hm.
Qed.
End leaving.

Section remove.
Context {T : Type} `{ChannelTableLaws T} (OPLEVELS : bool).
Implicit Types st : state T.

Lemma check_delayed_ok c st ch l : channels st !! c = Some ch -> members_of (mm st) c = Some l ->
  exists st', CheckDelayedJoins c st = Some st' /\ touched st st' /\
    (inv_ok (channels st) (clients st) -> inv_ok (channels st') (clients st')).
Proof.
  intros Hc Hl. unfold CheckDelayedJoins, find_delayed_joins. rewrite Hc. cbn [mbind option_bind].
  destruct (_ =? 0); [by exists st|]. rewrite Hl. cbn [mbind option_bind]. destruct (existsb _ l); [by exists st|].
  eexists. split; [done|]. split.
  - etransitivity; [|apply touched_send]. by apply touched_upd_channel.
  - intros Hi. cbn. by apply inv_ok_upd.
Qed.

Lemma leave_same st st' S : (forall m, mget (mm st') m = mget (mm st) m) ->
  (forall k, option_Forall2 same_ch (channels st !! k) (channels st' !! k)) -> events st' = events st -> same_clients st st' ->
  leave OPLEVELS st S st' S.
Proof.
  intros Hg Hc He Hcl. split; try done.
  - intros k E. specialize (Hc k). rewrite E in Hc. by inversion Hc.
  - intros k ch' E. specialize (Hc k). rewrite E in Hc. inversion Hc as [a b (? & ? & ? & ?) E1 E2|]; subst. eauto.
  - intros k Hk _. specialize (Hc k). inversion Hc as [a b ? E1 E2|E1 E2]; [done|]. rewrite <- E1 in Hk. by destruct Hk.
  - intros k _. by rewrite He.
Qed.

Lemma after_leave st st' S S' c ch more :
  after_sub1 OPLEVELS c ch more st st' -> channels st !! c = Some ch -> C S c <> [] ->
  (forall k, k <> c -> C S' k = C S k) -> (forall m, m ∈ C S' c -> m ∈ C S c) -> (more = true <-> C S' c <> []) ->
  leave OPLEVELS st S st' S'.
Proof.
  intros [] Hc HS Hk Hsub Hm.
  assert (Hoth : forall k, k <> c -> C S k <> [] -> C S' k = [] -> False) by (intros k Hkc E1 E2; by rewrite Hk in E2).
  assert (Hmore : C S' c = [] -> more = false) by (intros E; destruct more; [by destruct (proj1 Hm eq_refl)|done]).
  split.
  - intros k m Hmk. destruct (decide (k = c)) as [->|Hkc]; [by apply Hsub|]. by rewrite Hk in Hmk.
  - intros m. by rewrite as_mm0.
  - by apply same_clients_touched.
  - intros k E. destruct (decide (k = c)) as [->|Hkc]; [congruence|]. destruct (as_other0 k Hkc) as [Ho _]. rewrite E in Ho. by inversion Ho.
  - intros k ch' E. destruct (decide (k = c)) as [->|Hkc]; [exists ch; auto|]. destruct (as_other0 k Hkc) as [Ho _]. rewrite E in Ho.
    inversion Ho as [a b (? & ? & ? & ?) E1 E2|]; subst. eauto.
  - intros k Hs E. destruct (decide (k = c)) as [->|Hkc]; [destruct E as [E|E]; [done|by apply as_more0, Hm]|].
    destruct (as_other0 k Hkc) as [Ho _]. inversion Ho as [a b ? E1 E2|E1 E2]; [done|]. rewrite <- E1 in Hs. by destruct Hs.
  - intros k E. destruct (decide (k = c)) as [->|Hkc]; [|by destruct (as_other0 k Hkc)]. destruct E as [E|E]; [done|].
    destruct as_more0 as [_ ->]; [by apply Hm|done].
  - intros k ch0 E E1 E2 E3. destruct (decide (k = c)) as [->|Hkc]; [|by destruct (Hoth k)].
    apply as_kept0; [by apply Hmore|]. congruence.
  - intros k ch0 E E1 E2 E3. destruct (decide (k = c)) as [->|Hkc]; [|by destruct (Hoth k)].
    apply as_gone0; [by apply Hmore|]. congruence.
Qed.

Lemma remove_member_ok now st S m : st_ok now st S -> live (mm st) S m ->
  exists st' more, remove_member_from_channel OPLEVELS now m st = Some (st', more) /\
    st_ok now st' (minus (mm st) S m) /\ leave OPLEVELS st S st' (minus (mm st) S m) /\
    (more = true <-> C (minus (mm st) S m) (channel (mget (mm st) m)) <> []).
Proof.
  intros Hok Hm. destruct (minus_ok _ _ _ (so_matrix _ _ _ _ Hok) Hm) as (Hmo & Hget & Hmem & HinC & HinU).
  unfold remove_member_from_channel. set (u := user (mget (mm st) m)) in *. set (c := channel (mget (mm st) m)) in *.
  set (S' := minus (mm st) S m) in *. destruct (so_chan _ _ _ _ Hok c m HinC) as [ch Hc].
  destruct (so_user _ _ _ _ Hok u m HinU) as (cl & Hu & Hh & _ & _).
  set (st1 := set_mm st (unlink_member m (mm st))).
  assert (exists st2, (if IsDelayedJoin (mget (mm st1) m) then CheckDelayedJoins c st1 else Some st1) = Some st2 /\ touched st1 st2 /\
    inv_ok (channels st2) (clients st2)) as (st2 & -> & Ht & Hi).
  { destruct (IsDelayedJoin _).
    - destruct (check_delayed_ok c st1 ch _ Hc (Hmem c)) as (st2 & E & Ht & Hi). exists st2. split; [done|]. split; [done|]. apply Hi, Hok.
    - exists st1. split; [done|]. split; [done|]. apply Hok. }
  cbn [mbind option_bind]. destruct (touched_cl_some _ _ u cl Ht Hu) as (cl2 & Hu2 & Ecl). rewrite Hu2. cbn [mbind option_bind].
  rewrite Ecl. cbn [has_user with_invited joined]. rewrite Hh.
  (* the state with the old matrix back *)
  set (st2' := set_mm st2 (mm st)). assert (Ht' : touched st st2') by (destruct Ht; by split).
  pose proof (st_ok_touched _ _ _ _ _ Hok Ht' Hi) as Hok2.
  destruct (so_joined _ _ _ _ Hok u cl Hu) as [Hj Hj32]. pose proof (length_unlink m (U S u) HinU) as HlU. pose proof (length_unlink m (C S c) HinC) as HlC.
  assert (EU : U S' u = unlink m (U S u)) by (unfold S', minus; cbn; apply upd_eq).
  assert (EC : C S' c = unlink m (C S c)) by (unfold S', minus; cbn; apply upd_eq).
  set (k := length (unlink m (U S u))) in *.
  replace (w32 (joined cl - 1)) with (Z.of_nat k) by (rewrite w32_small by lia; lia).
  assert (Emm : mm st2 = unlink_member m (mm st)) by apply Ht.
  set (st3 := set_mm _ (release_member m _)).
  assert (Est3 : st3 = upd_client (with_joined (Z.of_nat k)) u (set_mm st2' (removed_matrix (mm st) m))).
  { unfold st3, st2', removed_matrix, upd_client, set_clients, set_mm. cbn. by rewrite Emm. }
  assert (Hinc : (forall v, incl (C S' v) (C S v)) /\ (forall v, incl (U S' v) (U S v))).
  { assert (Hsub : forall x l, NoDup l -> incl (unlink x l) l).
    { intros x l Hnd y Hy. apply list_elem_of_In in Hy. apply list_elem_of_In. by apply elem_of_unlink in Hy as [? _]. }
    pose proof (so_matrix _ _ _ _ Hok) as HM.
    split; intros v; unfold S', minus; cbn; unfold upd; case_decide as E; try apply incl_refl; rewrite E; apply Hsub; [apply (mo_nodup_c _ _ HM)|apply (mo_nodup_u _ _ HM)]. }
  assert (Hok3 : st_ok' now st3 S' (count S)).
  { rewrite Est3. apply (set_mm_ok _ _ S); [exact Hok2|exact Hmo|apply Hinc|apply Hinc| |by rewrite EU|intros; lia].
    intros v Hv. unfold S', minus. cbn. by apply upd_ne. }
  assert (Hev : destruct_event (events st) !! c = None).
  { destruct (destruct_event (events st) !! c) eqn:E; [|done]. destruct (so_sched _ _ _ _ Hok c ltac:(by rewrite E)) as [_ E2].
    rewrite E2 in HinC. by apply elem_of_nil in HinC. }
  destruct (touched_some _ _ _ _ Ht' Hc) as (ch3 & Hc3 & Hsame).
  assert (Hc3' : channels st3 !! c = Some ch3) by (by rewrite Est3).
  assert (Hev3 : events st3 = events st) by (rewrite Est3; apply Ht').
  destruct (sub1_from_channel_ok OPLEVELS now c st3 S' (count S) ch3 Hok3 Hc3') as (st4 & more & -> & Emore & Hok4 & Ha).
  { by rewrite Hev3. }
  { unfold count. intros Hle. rewrite EC. apply nil_length_inv. lia. }
  exists st4, more. split; [done|].
  assert (Hmore : more = true <-> C S' c <> []).
  { rewrite Emore, Z.ltb_lt, EC. unfold count. rewrite <- HlC. destruct (unlink m (C S c)); cbn; split; try done; lia. }
  assert (HCo : forall v, v <> c -> C S' v = C S v) by (intros v Hv; unfold S', minus; cbn; by apply upd_ne).
  split; [|split; [|done]].
  - eapply st_ok_ext; [|exact Hok4]. intros v _. unfold updn, count. case_decide as E; [subst v|by rewrite HCo].
    rewrite EC. destruct more; [lia|]. destruct (unlink m (C S c)) as [|? ?] eqn:E'; [done|]. rewrite EC in Hmore. by discriminate (proj2 Hmore).
  - eapply (leave_trans _ _ _ st3 S).
    + apply leave_same; [intros x; rewrite Est3; apply Hget|intros x; rewrite Est3; apply Ht'|done|].
      rewrite Est3. etransitivity; [apply (same_clients_touched st st2'), Ht'|]. apply (same_clients_joined (set_mm st2' (removed_matrix (mm st) m))).
    + apply (after_leave _ _ _ _ c ch3 more Ha Hc3'); [|done| |done].
      * intros E. rewrite E in HinC. by apply elem_of_nil in HinC.
      * intros x Hx. rewrite EC in Hx. by apply elem_of_unlink in Hx as [? _]; [|apply (mo_nodup_c _ _ (so_matrix _ _ _ _ Hok))].
Qed.
End remove.

Section parts.
Context {T : Type} `{ChannelTableLaws T} (OPLEVELS : bool).
Implicit Types st : state T.

Lemma in_c now st S m c : st_ok now st S -> m ∈ C S c -> live (mm st) S m /\ channel (mget (mm st) m) = c.
Proof. intros Hok Hm. by apply (in_c_live (mm st)); [apply Hok|]. Qed.

Lemma members_head now st S c : st_ok now st S -> members (mm st) !! c = head (C S c).
Proof.
  intros Hok. pose proof (mo_members _ _ (so_matrix _ _ _ _ Hok) c) as Hd. destruct (C S c); [done|]. by destruct Hd.
Qed.

Lemma remove_members_ok now n : forall c st S, st_ok now st S -> C S c <> [] -> (length (C S c) <= n)%nat ->
  exists st' S', remove_members OPLEVELS n now c st = Some st' /\ st_ok now st' S' /\ leave OPLEVELS st S st' S' /\
    forall k m, m ∈ C S' k <-> m ∈ C S k /\ k <> c.
Proof.
  induction n as [|n IH]; intros c st S Hok HS Hn; (destruct (C S c) as [|m l] eqn:E; [done|cbn in Hn; try lia]).
  cbn [remove_members]. rewrite (members_head _ _ _ _ Hok), E. cbn [head mbind option_bind].
  assert (Hm : m ∈ C S c) by (rewrite E; left). destruct (in_c _ _ _ _ _ Hok Hm) as [Hlive Hch].
  destruct (remove_member_ok OPLEVELS now st S m Hok Hlive) as (st1 & more & -> & Hok1 & L1 & Hmore). cbn [mbind option_bind].
  rewrite Hch in Hmore. assert (EC : C (minus (mm st) S m) c = l).
  { unfold minus. rewrite Hch. cbn. rewrite upd_eq, E. cbn. by rewrite decide_True. }
  assert (Hin : forall k x, k <> c -> x ∈ C (minus (mm st) S m) k <-> x ∈ C S k).
  { intros k x Hk. rewrite in_minus by apply Hok. rewrite Hch. tauto. }
  rewrite EC in Hmore. destruct more.
  - destruct (IH c st1 _ Hok1) as (st2 & S2 & -> & Hok2 & L2 & Hin2); [by rewrite EC; apply Hmore|rewrite EC; lia|].
    exists st2, S2. split; [done|]. split; [done|]. split; [by eapply leave_trans|]. intros k x. rewrite Hin2.
    destruct (decide (k = c)) as [->|Hk]; [tauto|]. by rewrite Hin.
  - exists st1, (minus (mm st) S m). split; [done|]. split; [done|]. split; [done|]. intros k x.
    destruct (decide (k = c)) as [->|Hk]; [|rewrite Hin by done; tauto]. rewrite EC.
    destruct l as [|y l]; [|by discriminate (proj2 Hmore)]. split; [by intros ?%elem_of_nil|tauto].
Qed.

Lemma find_member_link_ok now st S c u cl : st_ok now st S -> clients st !! u = Some cl -> IsServer cl || IsMe cl || has_user cl = true ->
  exists r, find_member_link c u st = Some r /\
    match r with Some m => on (mm st) S u c m | None => forall m, ~ on (mm st) S u c m end.
Proof.
  intros Hok Hu Hh. unfold find_member_link. rewrite Hu. cbn [mbind option_bind].
  destruct (find_both (mm st) S (so_matrix _ _ _ _ Hok) c u) as (r & E1 & E2 & Hr).
  destruct (IsServer cl || IsMe cl) eqn:Es.
  - exists None. split; [done|]. intros m [Hm Hmu]. assert (m ∈ U S u) as Hin.
    { apply (mo_in_u _ _ (so_matrix _ _ _ _ Hok)). split; [by eapply in_c|done]. }
    destruct (so_user _ _ _ _ Hok u m Hin) as (cl' & Hu' & _ & ? & ?). rewrite Hu in Hu'. injection Hu' as <-.
    apply orb_true_iff in Es as [?|?]; congruence.
  - cbn in Hh. exists r. split; [|done]. by destruct (chserv cl); [|rewrite Hh].
Qed.

(** A non-zombie on the channel, besides one user. *)
Definition others (mm : matrix) (S : shape) (u c : ptr) : Prop :=
  exists m, m ∈ C S c /\ user (mget mm m) <> u /\ IsZombie (mget mm m) = false.

Lemma all_zombies_ok now st S c : st_ok now st S ->
  exists b, channel_all_zombies c st = Some b /\ (b = false <-> exists m, m ∈ C S c /\ IsZombie (mget (mm st) m) = false).
Proof.
  intros Hok. unfold channel_all_zombies. rewrite (members_of_ok (mm st) S (so_matrix _ _ _ _ Hok)). cbn [mbind option_bind].
  eexists. split; [done|]. rewrite <- not_true_iff_false, forallb_forall. split.
  - intros Hn. destruct (decide (Exists (fun m => IsZombie (mget (mm st) m) = false) (C S c))) as [He|He].
    + by apply Exists_exists in He.
    + destruct Hn. intros m Hm. apply not_Exists_Forall in He; [|solve_decision]. rewrite Forall_forall in He. apply list_elem_of_In in Hm.
      specialize (He m Hm). by apply not_false_iff_true in He.
  - intros (m & Hm & Hz) Hn. apply list_elem_of_In in Hm. specialize (Hn m Hm). congruence.
Qed.

Lemma remove_user_ok now st S u c cl : st_ok now st S -> clients st !! u = Some cl -> IsServer cl || IsMe cl || has_user cl = true ->
  (forall m, m ∈ C S c -> (exists m', on (mm st) S u c m') \/ others (mm st) S u c) ->
  exists st' S', remove_user_from_channel OPLEVELS now u c st = Some st' /\ st_ok now st' S' /\ leave OPLEVELS st S st' S' /\
    forall k m, m ∈ C S' k <-> m ∈ C S k /\ (k = c -> user (mget (mm st) m) <> u /\ others (mm st) S u c).
Proof.
  intros Hok Hu Hh Halive. destruct (find_member_link_ok now st S c u cl Hok Hu Hh) as (r & Hr & Hon).
  unfold remove_user_from_channel. rewrite Hr. cbn [mbind option_bind]. destruct r as [m|].
  - destruct Hon as [Hm Hmu]. destruct (in_c _ _ _ _ _ Hok Hm) as [Hlive Hch].
    destruct (remove_member_ok OPLEVELS now st S m Hok Hlive) as (st1 & more & -> & Hok1 & L1 & Hmore). cbn [mbind option_bind].
    rewrite Hch in Hmore. set (S1 := minus (mm st) S m) in *.
    assert (Huser : forall x, x ∈ C S c -> (x <> m <-> user (mget (mm st) x) <> u)).
    { intros x Hx. split; intros Hne; [|intros ->; done]. intros Hxu. apply Hne.
      apply (on_unique (mm st) S (so_matrix _ _ _ _ Hok) u c); by split. }
    assert (Hin1 : forall k x, x ∈ C S1 k <-> x ∈ C S k /\ (k = c -> user (mget (mm st) x) <> u)).
    { intros k x. unfold S1. rewrite in_minus by apply Hok. rewrite Hch. destruct (decide (k = c)) as [->|Hk]; [|tauto].
      split; [intros [[? Hx]|[_ ?]]; [|done]; split; [done|]; intros _; by apply Huser|].
      intros [Hx Hn]. left. split; [done|]. by apply Huser; auto. }
    assert (Hoth : others (mm st) S u c <-> exists m', m' ∈ C S1 c /\ IsZombie (mget (mm st1) m') = false).
    { unfold others. setoid_rewrite Hin1. setoid_rewrite (lv_get _ _ _ _ _ L1). naive_solver. }
    destruct more.
    + destruct (all_zombies_ok now st1 S1 c Hok1) as (z & -> & Hz). cbn [mbind option_bind]. rewrite <- Hoth in Hz. destruct z.
      * destruct (remove_members_ok now (walk_fuel (next_member (mm st1))) c st1 S1 Hok1) as (st2 & S2 & -> & Hok2 & L2 & Hin2).
        { by apply Hmore. }
        { apply Nat.lt_le_incl. eapply walk_fuel_enough; [apply (mo_nodup_c _ _ (so_matrix _ _ _ _ Hok1))|].
          eapply dlist_chain, (mo_members _ _ (so_matrix _ _ _ _ Hok1)). }
        exists st2, S2. split; [done|]. split; [done|]. split; [by eapply leave_trans|]. intros k x. rewrite Hin2, Hin1.
        destruct (decide (k = c)) as [->|Hk]; [|tauto]. split; [tauto|]. intros [_ Hn]. destruct (Hn eq_refl) as [_ Ho].
        by apply Hz in Ho.
      * exists st1, S1. split; [done|]. split; [done|]. split; [done|]. intros k x. rewrite Hin1. assert (others (mm st) S u c) by (by apply Hz). tauto.
    + exists st1, S1. split; [done|]. split; [done|]. split; [done|]. intros k x. rewrite Hin1.
      destruct (decide (k = c)) as [->|Hk]; [|tauto]. assert (E : C S1 c = []).
      { destruct (C S1 c) eqn:E; [done|]. by discriminate (proj2 Hmore). }
      split; [|tauto]. intros Hx. apply Hin1 in Hx. rewrite E in Hx. by apply elem_of_nil in Hx.
  - exists st, S. split; [done|]. split; [done|]. split; [apply leave_refl|]. intros k m. split; [|tauto]. intros Hm.
    split; [done|]. intros ->. split; [intros Hmu; by apply (Hon m)|]. destruct (Halive m Hm) as [(m' & Hm')|Ho]; [by destruct (Hon m')|done].
Qed.
End parts.

(** ** Leaving every channel, and zombies *)
Section quit.
Context {T : Type} `{ChannelTableLaws T} (OPLEVELS : bool).
Implicit Types st : state T.

(** No channel is left to its zombies. *)
Definition alive (mm : matrix) (S : shape) : Prop :=
  forall c, C S c <> [] -> exists m, m ∈ C S c /\ IsZombie (mget mm m) = false.

Lemma in_u now st S u m : st_ok now st S -> m ∈ U S u <-> m ∈ C S (channel (mget (mm st) m)) /\ user (mget (mm st) m) = u.
Proof.
  intros Hok. pose proof (so_matrix _ _ _ _ Hok) as HM. rewrite (mo_in_u _ _ HM), (mo_in_c _ _ HM). tauto.
Qed.

Lemma user_head now st S u : st_ok now st S -> user_channel (mm st) !! u = head (U S u).
Proof.
  intros Hok. pose proof (mo_channels _ _ (so_matrix _ _ _ _ Hok) u) as Hd. destruct (U S u); [done|]. by destruct Hd.
Qed.

(** Who is left on the channels when a user is taken off a channel. *)
Definition parted (mm : matrix) (S S' : shape) (u c : ptr) : Prop :=
  forall k m, m ∈ C S' k <-> m ∈ C S k /\ (k = c -> user (mget mm m) <> u /\ others mm S u c).

Lemma parted_alive mm mm' S S' u c : (forall m, mget mm' m = mget mm m) -> parted mm S S' u c ->
  (forall k, k <> c -> C S k <> [] -> exists m, m ∈ C S k /\ IsZombie (mget mm m) = false) -> alive mm' S'.
Proof.
  intros Hg Hp Ha k Hk. destruct (C S' k) as [|m l] eqn:E; [done|]. assert (Hm : m ∈ C S' k) by (rewrite E; left).
  rewrite <- E. apply Hp in Hm as [Hm Hc]. destruct (decide (k = c)) as [->|Hkc].
  - destruct (Hc eq_refl) as [_ (x & Hx & Hxu & Hxz)]. exists x. rewrite Hg. split; [|done]. apply Hp. split; [done|].
    intros _. split; [done|]. by exists x.
  - destruct (Ha k Hkc) as (x & Hx & Hz); [intros E'; rewrite E' in Hm; by apply elem_of_nil in Hm|].
    exists x. rewrite Hg. split; [|done]. apply Hp. split; [done|]. tauto.
Qed.

Lemma alive_others mm S u c m : alive mm S -> m ∈ C S c -> (exists m', on mm S u c m') \/ others mm S u c.
Proof.
  intros Ha Hm. destruct (Ha c) as (x & Hx & Hz); [intros E; rewrite E in Hm; by apply elem_of_nil in Hm|].
  destruct (decide (user (mget mm x) = u)); [left; by exists x|right; by exists x].
Qed.

Lemma remove_from_all_ok now n : forall u st S, st_ok now st S -> alive (mm st) S -> (length (U S u) < n)%nat ->
  exists st' S', remove_from_all OPLEVELS n now u st = Some st' /\ st_ok now st' S' /\ leave OPLEVELS st S st' S' /\
    forall k m, m ∈ C S' k <-> m ∈ C S k /\ user (mget (mm st) m) <> u /\ others (mm st) S u k.
Proof.
  induction n as [|n IH]; intros u st S Hok Ha Hn; [lia|]. cbn [remove_from_all]. rewrite (user_head _ _ _ _ Hok).
  destruct (U S u) as [|chan l] eqn:E; cbn [head].
  - exists st, S. split; [done|]. split; [done|]. split; [apply leave_refl|]. intros k m. split; [|tauto]. intros Hm. split; [done|].
    assert (Hne : forall x, x ∈ C S k -> user (mget (mm st) x) <> u).
    { intros x Hx Hxu. assert (x ∈ U S u) as Hxu' by (apply (in_u _ _ _ _ _ Hok); destruct (in_c _ _ _ _ _ Hok Hx) as [_ ->]; done).
      rewrite E in Hxu'. by apply elem_of_nil in Hxu'. }
    split; [by apply Hne|]. destruct (alive_others _ _ u k m Ha Hm) as [(x & Hx & Hxu)|Ho]; [by destruct (Hne x)|done].
  - assert (Hin : chan ∈ U S u) by (rewrite E; left). destruct (so_user _ _ _ _ Hok u chan Hin) as (cl & Hcl & Hh & _).
    set (c := channel (mget (mm st) chan)).
    destruct (remove_user_ok OPLEVELS now st S u c cl Hok Hcl) as (st1 & S1 & -> & Hok1 & L1 & Hp1).
    { rewrite Hh. by rewrite orb_true_r. }
    { intros m Hm. by eapply alive_others. }
    cbn [mbind option_bind]. destruct (IH u st1 S1 Hok1) as (st2 & S2 & -> & Hok2 & L2 & Hp2).
    { eapply parted_alive; [apply (lv_get _ _ _ _ _ L1)|exact Hp1|]. intros k _. apply Ha. }
    { pose proof (length_unlink chan _ Hin) as Hl. rewrite E in Hl at 2. cbn in Hn, Hl.
      enough (length (U S1 u) <= length (unlink chan (U S u)))%nat by lia.
      apply NoDup_incl_length; [apply NoDup_ListNoDup, (mo_nodup_u _ _ (so_matrix _ _ _ _ Hok1))|]. intros x Hx.
      apply list_elem_of_In. apply list_elem_of_In in Hx. apply (in_u _ _ _ _ _ Hok1) in Hx as [Hx Hxu].
      rewrite (lv_get _ _ _ _ _ L1) in Hx, Hxu. apply Hp1 in Hx as [Hx Hxc]. apply elem_of_unlink; [apply (mo_nodup_u _ _ (so_matrix _ _ _ _ Hok))|].
      split; [by apply (in_u _ _ _ _ _ Hok)|]. intros ->. by destruct (Hxc eq_refl). }
    exists st2, S2. split; [done|]. split; [done|]. split; [by eapply leave_trans|]. intros k m. rewrite Hp2, Hp1, (lv_get _ _ _ _ _ L1).
    assert (Ho : others (mm st1) S1 u k <-> others (mm st) S u k).
    { unfold others. setoid_rewrite Hp1. setoid_rewrite (lv_get _ _ _ _ _ L1). split; [naive_solver|]. intros (x & Hx & Hxu & Hz).
      exists x. split; [|done]. split; [done|]. intros ->. split; [done|]. by exists x. }
    rewrite Ho. split; [tauto|]. intros (Hm & Hmu & Hok'). split_and!; try done. by intros ->.
Qed.

Lemma remove_user_from_all_ok now u st S : st_ok now st S -> alive (mm st) S ->
  exists st' S', remove_user_from_all_channels OPLEVELS now u st = Some st' /\ st_ok now st' S' /\ leave OPLEVELS st S st' S' /\
    forall k m, m ∈ C S' k <-> m ∈ C S k /\ user (mget (mm st) m) <> u /\ others (mm st) S u k.
Proof.
  intros Hok Ha. apply remove_from_all_ok; [done..|]. pose proof (so_matrix _ _ _ _ Hok) as HM.
  eapply walk_fuel_enough; [apply (mo_nodup_u _ _ HM)|]. eapply dlist_chain, (mo_channels _ _ HM).
Qed.

Lemma mark_ok now f m st S : st_ok now st S -> st_ok now (mark_member f m st) S.
Proof. intros Hok. split; try apply Hok. cbn. by apply upd_status_ok, Hok. Qed.

(** The walk up the tree of servers. *)
Inductive Up (me : ptr) st : ptr -> nat -> Prop :=
  | Up_me : Up me st me O
  | Up_step p cl n : p <> me -> clients st !! p = Some cl -> Up me st (cli_up cl) n -> Up me st p (Datatypes.S n).

Lemma Up_unique me st p n : Up me st p n -> forall n', Up me st p n' -> n = n'.
Proof.
  induction 1 as [|p cl n Hne Hp Hu IH]; intros n' H'; inversion H' as [|p' cl' n2 Hne' Hp' Hu']; subst; try done.
  f_equal. apply IH. congruence.
Qed.

Lemma Up_path me st p n : Up me st p n -> exists l, length l = n /\ NoDup l /\ forall x, x ∈ l -> x ∈ dom (clients st) /\
  exists k, (0 < k <= n)%nat /\ Up me st x k.
Proof.
  induction 1 as [|p cl n Hne Hp Hu (l & Hl & Hnd & Hx)].
  - exists []. split_and!; [done|constructor|]. by intros x ?%elem_of_nil.
  - exists (p :: l). cbn. split; [by rewrite Hl|]. assert (Hup : Up me st p (Datatypes.S n)) by by econstructor. split.
    + constructor; [|done]. intros Hin. destruct (Hx p Hin) as (_ & k & Hk & Hkk). pose proof (Up_unique _ _ _ _ Hup _ Hkk). lia.
    + intros x [->|Hin]%elem_of_cons.
      * split; [by apply elem_of_dom|]. exists (Datatypes.S n). split; [lia|done].
      * destruct (Hx x Hin) as (? & k & ? & ?). split; [done|]. exists k. split; [lia|done].
Qed.

Lemma on_the_way_total me target st p n : Up me st p n -> forall f, (n < f)%nat -> is_Some (on_the_way f me target p st).
Proof.
  induction 1 as [|p cl n Hne Hp Hu IH]; intros f Hf; (destruct f as [|f]; [lia|]); cbn [on_the_way].
  - by rewrite decide_True.
  - rewrite decide_False by done. case_decide; [done|]. rewrite Hp. cbn [mbind option_bind]. apply IH. lia.
Qed.

Lemma on_the_way_some me target st p n : Up me st p n -> is_Some (on_the_way (S (size (clients st))) me target p st).
Proof.
  intros Hu. apply (on_the_way_total _ _ _ _ n Hu). destruct (Up_path _ _ _ _ Hu) as (l & <- & Hnd & Hx).
  rewrite <- (size_dom (clients st)). assert (list_to_set l ⊆ dom (clients st)) as Hs.
  { intros x. rewrite elem_of_list_to_set. intros Hin. by apply Hx. }
  apply subseteq_size in Hs. rewrite size_list_to_set in Hs by done. lia.
Qed.
End quit.

Section zombie.
Context {T : Type} `{ChannelTableLaws T} (OPLEVELS : bool).
Implicit Types st : state T.

(** Whether [make_zombie] takes the user off at once: it is ours, or the
    kicker's server is behind the user's. *)
Definition leaves (me who cptr sptr : ptr) st : option bool :=
  w ← clients st !! who;
  if MyUser who w then Some true
  else if decide (cli_from w = cptr) then
    sp ← clients st !! sptr;
    on_the_way (S (size (clients st))) me (cli_server w) (if IsServer sp then sptr else cli_server sp) st
  else Some false.

Definition zombified (m : ptr) st : state T := mark_member (fun s => Z.lor s CHFL_ZOMBIE) m st.

Lemma zombified_get m st x : m ∈ dom (memb (mm st)) ->
  user (mget (mm (zombified m st)) x) = user (mget (mm st) x) /\
  IsZombie (mget (mm (zombified m st)) x) = if decide (x = m) then true else IsZombie (mget (mm st) x).
Proof.
  intros Hm. cbn. destruct (upd_status_get (fun s => Z.lor s CHFL_ZOMBIE) m (mm st) x) as (H1 & _ & _ & H2 & _). split; [done|].
  unfold IsZombie, has_status. case_decide as E; [subst x|by rewrite H2].
  destruct (upd_status_get (fun s => Z.lor s CHFL_ZOMBIE) m (mm st) m) as (_ & _ & _ & _ & H3). rewrite H3 by done.
  apply negb_true_iff, Z.eqb_neq. intros E. apply (f_equal (fun z => Z.testbit z 4)) in E. rewrite Z.land_spec, Z.lor_spec in E.
  cbn in E. by rewrite orb_true_r in E.
Qed.

Lemma zombified_others m st S u c : m ∈ dom (memb (mm st)) -> user (mget (mm st) m) = u ->
  others (mm (zombified m st)) S u c <-> others (mm st) S u c.
Proof.
  intros Hm Hu. unfold others. split; intros (x & Hx & Hxu & Hz); exists x; destruct (zombified_get m st x Hm) as [E1 E2];
    rewrite ?E1, ?E2 in *; case_decide; subst; done.
Qed.

Lemma remove_user_parted now st S u c m : st_ok now st S -> on (mm st) S u c m ->
  exists st' S', remove_user_from_channel OPLEVELS now u c st = Some st' /\ st_ok now st' S' /\ leave OPLEVELS st S st' S' /\
    parted (mm st) S S' u c.
Proof.
  intros Hok Hon. assert (Hin : m ∈ U S u) by (apply (in_u _ _ _ _ _ Hok); destruct Hon as [Hm ?]; destruct (in_c _ _ _ _ _ Hok Hm) as [_ ->]; done).
  destruct (so_user _ _ _ _ Hok u m Hin) as (cl & Hcl & Hh & _).
  apply (remove_user_ok OPLEVELS now st S u c cl); [done|done|by rewrite Hh, orb_true_r|]. intros _ _. left. by exists m.
Qed.

Lemma make_zombie_ok now me m who cptr sptr c st S b :
  st_ok now st S -> on (mm st) S who c m -> is_Some (clients st !! cptr) -> leaves me who cptr sptr st = Some b ->
  exists st' S', make_zombie OPLEVELS now me m who cptr sptr c st = Some st' /\ st_ok now st' S' /\
    leave OPLEVELS (zombified m st) S st' S' /\
    (b = true \/ ~ others (mm st) S who c -> parted (mm (zombified m st)) S S' who c) /\
    (b = false -> others (mm st) S who c -> S' = S).
Proof.
  intros Hok [Hm Hmu] [cp Hcp] Hl. pose proof (mark_ok now (fun s => Z.lor s CHFL_ZOMBIE) m st S Hok) as Hok0. fold (zombified m st) in Hok0.
  destruct (in_c _ _ _ _ _ Hok Hm) as [[Hdom _] _].
  assert (Hon0 : on (mm (zombified m st)) S who c m) by (split; [done|]; destruct (zombified_get m st m Hdom) as [-> _]; done).
  unfold make_zombie. fold (zombified m st). unfold leaves in Hl. change (clients (zombified m st)) with (clients st).
  destruct (clients st !! who) as [w|]; [|done]. cbn [mbind option_bind] in *. rewrite Hcp. cbn [mbind option_bind].
  destruct (MyUser who w).
  - injection Hl as <-. set (st1 := if IsServer cp then send (zombified m st) _ else zombified m st).
    assert (Ht : touched (zombified m st) st1) by (unfold st1; destruct (IsServer cp); [apply touched_send|done]).
    assert (Hmm : mm st1 = mm (zombified m st)) by apply Ht.
    assert (Hok1 : st_ok now st1 S) by (eapply st_ok_touched; [exact Hok0|exact Ht|]; unfold st1; destruct (IsServer cp); apply Hok0).
    destruct (remove_user_parted now st1 S who c m Hok1) as (st' & S' & -> & Hok' & L & Hp); [by rewrite Hmm|].
    exists st', S'. split; [done|]. split; [done|]. split; [|split; [|done]].
    + eapply leave_trans; [|exact L]. apply leave_same; [intros x; by rewrite Hmm|apply Ht|apply Ht|apply same_clients_touched, Ht].
    + intros _. rewrite Hmm in Hp. exact Hp.
  - assert (Hw : forall f a, on_the_way f me (cli_server w) a (zombified m st) = on_the_way f me (cli_server w) a st).
    { induction f as [|f IH]; intros a; [done|]. cbn [on_the_way]. destruct (decide (a = me)); [done|]. destruct (decide (a = cli_server w)); [done|].
      change (clients (zombified m st)) with (clients st). destruct (clients st !! a); [|done]. cbn. apply IH. }
    match goal with |- context [if decide (cli_from w = cptr) then ?x else Some false] => set (X := if decide (cli_from w = cptr) then x else Some false) end.
    assert (X = Some b) as ->.
    { rewrite <- Hl. unfold X. destruct (decide (cli_from w = cptr)); [|done]. change (clients (zombified m st)) with (clients st). destruct (clients st !! sptr); [|done]. cbn [mbind option_bind]. apply Hw. }
    cbn [mbind option_bind]. destruct b.
    + destruct (remove_user_parted now _ S who c m Hok0 Hon0) as (st' & S' & -> & Hok' & L & Hp). exists st', S'. by split_and!.
    + destruct (all_zombies_ok now _ S c Hok0) as (z & -> & Hz). cbn [mbind option_bind].
      assert (Hoth : others (mm st) S who c <-> exists x, x ∈ C S c /\ IsZombie (mget (mm (zombified m st)) x) = false).
      { unfold others. split; intros (x & Hx & Hrest); exists x; split; try done; destruct (zombified_get m st x Hdom) as [_ E].
        - destruct Hrest as [Hxu Hxz]. rewrite E. case_decide; [congruence|done].
        - rewrite E in Hrest. case_decide as Ex; [done|]. split; [|done]. intros Hxu. apply Ex.
          by apply (on_unique (mm st) S (so_matrix _ _ _ _ Hok) who c). }
      rewrite <- Hoth in Hz. destruct z.
      * destruct (remove_user_parted now _ S who c m Hok0 Hon0) as (st' & S' & -> & Hok' & L & Hp). exists st', S'.
        split_and!; try done. intros _ Ho. by apply Hz in Ho.
      * assert (others (mm st) S who c) by (by apply Hz). exists (zombified m st), S.
        split_and!; try done; [apply leave_refl|]. intros [?|?]; done.
Qed.
End zombie.

(** ** Joining, creating and expiring *)
Section join.
Context {T : Type} `{ChannelTableLaws T} (OPLEVELS : bool).
Implicit Types st : state T.

Lemma add_user_ok now c u flags lvl st S ch cl :
  st_ok now st S -> channels st !! c = Some ch -> clients st !! u = Some cl ->
  has_user cl = true -> IsServer cl = false -> IsMe cl = false -> (forall m, ~ on (mm st) S u c m) ->
  count S c < 2 ^ 32 - 1 -> joined cl < 2 ^ 32 - 1 ->
  exists st' S' m, add_user_to_channel c u flags lvl st = Some st' /\ st_ok now st' S' /\
    (forall k, C S' k = if decide (k = c) then m :: C S c else C S k) /\ (forall k, m ∉ C S k) /\
    mget (mm st') m = {| user := u; channel := c; status := flags; oplevel := w16 lvl |} /\
    (forall m', m' <> m -> mget (mm st') m' = mget (mm st) m') /\
    destruct_event (events st') !! c = None /\ (forall k, k <> c -> destruct_event (events st') !! k = destruct_event (events st) !! k) /\
    channels st' = alter (with_users (w32 (users ch + 1))) c (channels st).
Proof.
  intros Hok Hc Hu Hh Hsv Hme Hno Hcl Hjl. unfold add_user_to_channel. rewrite Hu. cbn [mbind option_bind]. rewrite Hh, Hc. cbn [mbind option_bind].
  destruct (link_member_ok (mm st) S (so_matrix _ _ _ _ Hok) c u flags lvl Hno) as (m & mm' & F' & Elink & Hmo & Hnl & Hnew & Hold).
  rewrite Elink. cbn [snd]. set (S' := {| C := _; U := _; F := F' |}) in *. cbn [events set_mm].
  destruct (so_events _ _ _ _ Hok) as (L & HL & Hx).
  assert (exists ev, (match destruct_event (events st) !! c with Some _ => remove_destruct_event c (events st) | None => Some (events st) end) = Some ev /\
    (exists L', ev_rep ev L' /\ forall d, Forall (fun e => exp_of ev e <= now + delay_secs d) (L' d)) /\
    destruct_event ev = delete c (destruct_event (events st))) as (ev & -> & HL' & Hdel).
  { destruct (destruct_event (events st) !! c) as [e|] eqn:E.
    - destruct (remove_rep c e (events st) L HL E) as (d & l1 & l2 & ev & HLd & -> & HL' & Hevs & Hdel). exists ev. split; [done|]. split; [|done].
      eexists. split; [exact HL'|]. intros d'. apply Forall_forall. intros x Hxin. assert (x ∈ L d' /\ x <> e) as [Hxd Hxe].
      { pose proof (all_nodup L d (er_nodup _ _ HL)) as Hnd. rewrite HLd in Hnd. pose proof (NoDup_drop_middle _ _ _ Hnd) as [Hee _].
        destruct (decide (d' = d)) as [->|Hd].
        - rewrite upd_queue_eq in Hxin. rewrite HLd. split; [set_solver|]. by intros ->.
        - rewrite upd_queue_ne in Hxin by done. split; [done|]. intros ->. apply Hd. apply (all_disjoint L d' d e (er_nodup _ _ HL) Hxin).
          rewrite HLd. set_solver. }
      unfold exp_of. rewrite Hevs, lookup_delete_ne by done. specialize (Hx d'). rewrite Forall_forall in Hx. by apply Hx.
    - exists (events st). split; [done|]. split; [by exists L|]. by rewrite delete_id. }
  cbn [mbind option_bind]. destruct (so_users _ _ _ _ Hok _ _ Hc) as [Eu _]. destruct (so_joined _ _ _ _ Hok _ _ Hu) as [Ej _].
  set (st' := upd_client _ u _). exists st', S', m. split; [done|].
  assert (Hlen : forall k, C S' k = if decide (k = c) then m :: C S c else C S k) by done.
  assert (HU : forall v, U S' v = if decide (v = u) then m :: U S u else U S v) by done.
  assert (HmC : forall k, m ∉ C S k) by (intros k Hin; apply Hnl; by eapply in_c).
  assert (Hu1 : w32 (users ch + 1) = count S' c) by (unfold count in *; rewrite Hlen, decide_True by done; cbn; rewrite w32_small by lia; lia).
  assert (Hj1 : w32 (joined cl + 1) = Z.of_nat (length (U S' u))) by (rewrite HU, decide_True by done; cbn; rewrite w32_small by lia; lia).
  split; [|split_and!; try done].
  - set (st1 := set_events (set_mm st mm') ev) in st'.
    assert (Hb : forall v cl', clients st' !! v = Some cl' -> exists cl0, clients st !! v = Some cl0 /\
      cl' = if decide (v = u) then with_joined (w32 (joined cl + 1)) cl0 else cl0).
    { intros v cl'. unfold st'. cbn. rewrite alter_lookup. case_decide as E; [subst v|eauto]. rewrite Hu. intros [= <-]. eauto. }
    assert (Hcb : forall k ch', channels st' !! k = Some ch' -> exists ch0, channels st !! k = Some ch0 /\
      ch' = if decide (k = c) then with_users (w32 (users ch + 1)) ch0 else ch0).
    { intros k ch'. unfold st'. cbn. rewrite alter_lookup. case_decide as E; [subst k|eauto]. rewrite Hc. intros [= <-]. eauto. }
    assert (Hcs : forall k, is_Some (channels st' !! k) <-> is_Some (channels st !! k)).
    { intros k. unfold st'. cbn. rewrite alter_lookup. case_decide as E; [subst k|done]. by rewrite fmap_is_Some. }
    assert (Hname : forall k, name_of st' k = name_of st k).
    { intros k. unfold name_of, st'. cbn. rewrite alter_lookup. case_decide as E; [subst k; by rewrite Hc|done]. }
    split.
    + exact Hmo.
    + intros k ch' Hk. destruct (Hcb _ _ Hk) as (ch0 & Hk0 & ->). case_decide as E; [subst k|].
      * cbn [users with_users]. split; [done|]. rewrite <- Hu1. apply w32_range.
      * destruct (so_users _ _ _ _ Hok _ _ Hk0) as [-> Hr]. unfold count in *. by rewrite Hlen, decide_False.
    + intros k x. rewrite Hlen, Hcs. case_decide as E; [subst k; by rewrite Hc|]. apply (so_chan _ _ _ _ Hok).
    + intros v cl' Hv. destruct (Hb _ _ Hv) as (cl0 & Hv0 & ->). case_decide as E; [subst v|].
      * cbn [joined with_joined]. split; [done|]. apply w32_range.
      * rewrite HU, decide_False by done. by apply (so_joined _ _ _ _ Hok).
    + intros v x. rewrite HU. unfold st'. cbn. rewrite alter_lookup. case_decide as E; [subst v|apply (so_user _ _ _ _ Hok)].
      intros _. rewrite Hu. eexists. split; [done|]. done.
    + unfold st'. cbn. apply inv_ok_upd; [done|]. destruct (so_invites _ _ _ _ Hok) as [I1 I2 I3 I4]. split; [| |done|].
      * intros k ch0 v Hk Hi. destruct (I1 _ _ _ Hk Hi) as (cl0 & E & Hh0 & Hin). rewrite alter_lookup. case_decide as Ev; [subst v|eauto].
        rewrite E. eexists. split; [done|]. done.
      * intros v cl0 k. rewrite alter_lookup. case_decide as Ev; [subst v|apply I2]. rewrite Hu. intros [= <-]. cbn. by apply I2.
      * intros v cl0. rewrite alter_lookup. case_decide as Ev; [subst v|apply I4]. rewrite Hu. intros [= <-]. cbn. by apply (I4 u).
    + destruct (so_global _ _ _ _ Hok) as (G & H1 & H2 & H3 & H4). exists G. split_and!; try done. intros k. by rewrite Hcs.
    + eapply ctab_ext; [..|apply (so_table _ _ _ _ Hok)]; [intros k; symmetry; apply Hcs|intros k _; apply Hname].
    + intros k ch' Hk. destruct (Hcb _ _ Hk) as (ch0 & Hk0 & ->). destruct (so_names _ _ _ _ Hok _ _ Hk0). by case_decide.
    + intros k k' a b Ha Hb'. destruct (Hcb _ _ Ha) as (a0 & Ha0 & ->), (Hcb _ _ Hb') as (b0 & Hb0 & ->). intros E.
      apply (so_unique _ _ _ _ Hok k k' a0 b0 Ha0 Hb0). by repeat case_decide.
    + exact HL'.
    + intros k [e He]. change (destruct_event ev !! k = Some e) in He. rewrite Hdel in He. apply lookup_delete_Some in He as [Hk He].
      rewrite Hcs, Hlen, decide_False by done. apply (so_sched _ _ _ _ Hok). by rewrite He.
  - unfold st'. cbn. rewrite Hdel. apply lookup_delete_eq.
  - intros k Hk. unfold st'. cbn. rewrite Hdel. by rewrite lookup_delete_ne.
Qed.
End join.

Section get.
Context {T : Type} `{ChannelTableLaws T} (OPLEVELS : bool).
Implicit Types st : state T.

(** Only the table is changed. *)
Lemma set_table_ok now st S n t : st_ok' now st S n -> ctab_ok (name_of st) t (fun c => is_Some (channels st !! c)) ->
  st_ok' now (set_global st (ch_next st) (ch_prev st) (GlobalChannelList st) t (nchannels st)) S n.
Proof. intros Hok Ht. split; try apply Hok. exact Ht. Qed.

Lemma find_channel_ok now st S n : st_ok now st S -> is_cstr n ->
  exists t r, FindChannel n st = Some (set_global st (ch_next st) (ch_prev st) (GlobalChannelList st) t (nchannels st), r) /\
    ctab_ok (name_of st) t (fun c => is_Some (channels st !! c)) /\
    match r with
    | Some c => exists ch, channels st !! c = Some ch /\ lower (chname ch) = lower n
    | None => n = [] \/ forall c ch, channels st !! c = Some ch -> lower (chname ch) <> lower n
    end.
Proof.
  intros Hok Hn. unfold FindChannel. destruct n as [|a n].
  { exists (table st), None. split; [by destruct st|]. split; [apply Hok|by left]. }
  destruct (tab_find_ok (name_of st) (table st) (fun c => is_Some (channels st !! c)) (a :: n)) as (t & r & -> & Ht & Hr); [apply Hok| |done|done|].
  { intros c [ch Hc]. unfold name_of. rewrite Hc. by apply (so_names _ _ _ _ Hok c ch). }
  exists t, r. cbn [mbind option_bind]. split; [done|]. split; [done|]. destruct r as [c|].
  - destruct Hr as [[ch Hc] Hl]. exists ch. split; [done|]. unfold name_of in Hl. by rewrite Hc in Hl.
  - right. intros c ch Hc Hl. apply (Hr c); [by rewrite Hc|]. unfold name_of. by rewrite Hc.
Qed.

Definition clean (cptr : ptr) (cl : Client) (n : cstring) : cstring := if MyUser cptr cl then take CHANNELLEN n else n.

Lemma clean_ok cptr cl n : is_cstr n -> n <> [] -> is_cstr (clean cptr cl n) /\ clean cptr cl n <> [].
Proof.
  intros Hn Hne. unfold clean. destruct (MyUser cptr cl); [|done]. split; [by apply Forall_take|]. by destruct n.
Qed.

Lemma get_channel_ok now cptr n create st S cl : st_ok now st S -> clients st !! cptr = Some cl -> is_cstr n -> n <> [] ->
  exists st' r, get_channel now cptr n create st = Some (st', r) /\ st_ok now st' S /\ mm st' = mm st /\ events st' = events st /\
    let n := clean cptr cl n in
    match r with
    | Some c =>
        (exists ch, channels st !! c = Some ch /\ lower (chname ch) = lower n /\ channels st' = channels st) \/
        (create = true /\ channels st !! c = None /\ (forall k ch, channels st !! k = Some ch -> lower (chname ch) <> lower n) /\
         C S c = [] /\ channels st' = <[c := new_channel n (if MyUser cptr cl then now else 0)]> (channels st))
    | None => create = false /\ (forall k ch, channels st !! k = Some ch -> lower (chname ch) <> lower n) /\ channels st' = channels st
    end.
Proof.
  intros Hok Hcl Hn Hne. destruct (clean_ok cptr cl n Hn Hne) as [Hn' Hne']. unfold get_channel. destruct n as [|a n0]; [done|].
  set (n := a :: n0) in *. rewrite Hcl. cbn [mbind option_bind]. fold (clean cptr cl n). set (n' := clean cptr cl n) in *.
  destruct (find_channel_ok now st S n' Hok Hn') as (t & r & -> & Ht & Hr). cbn [mbind option_bind].
  pose proof (set_table_ok now st S _ t Hok Ht) as Hok1. set (st1 := set_global st _ _ _ t _) in *. destruct r as [c|].
  - exists st1, (Some c). split; [done|]. split; [done|]. split; [done|]. split; [done|]. left. destruct Hr as (ch & Hc & Hl). by exists ch.
  - assert (Hnone : forall k ch, channels st !! k = Some ch -> lower (chname ch) <> lower n') by (destruct Hr as [Hr|Hr]; [congruence|done]).
    destruct create; [|exists st1, None; split_and!; done].
    set (c := fresh (dom (channels st1))). assert (Hfresh : channels st !! c = None) by (apply not_elem_of_dom, is_fresh).
    set (ch := new_channel n' _). set (st2 := set_channels st1 (<[c := ch]> (channels st1))). fold st2.
    assert (HS : C S c = []).
    { destruct (C S c) as [|m l] eqn:E; [done|]. destruct (so_chan _ _ _ _ Hok c m) as [x Hx]; [rewrite E; left|]. congruence. }
    assert (Hname : name_of st2 c = n') by (unfold name_of, st2; cbn; by rewrite lookup_insert_eq).
    assert (Hnames : forall k, is_Some (channels st !! k) -> name_of st2 k = name_of st k).
    { intros k [x Hk]. unfold name_of, st2. cbn. rewrite lookup_insert_ne; [done|]. intros <-. congruence. }
    assert (Ht1 : ctab_ok (name_of st2) (table st2) (fun k => is_Some (channels st !! k))) by (eapply ctab_ext; [..|exact Ht]; [done|exact Hnames]).
    destruct (tab_add_ok (name_of st2) (table st2) _ c Ht1) as (t2 & Eadd & Ht2); [by rewrite Hname|by rewrite Hfresh; intros []|].
    change (tab_add (name_of st2) (table st2) c) with (tab_add (name_of st2) (table st2) c). rewrite Eadd. cbn [mbind option_bind].
    eexists _, (Some c). split; [done|].
    assert (Hsome : forall k, is_Some (<[c := ch]> (channels st) !! k) <-> k = c \/ is_Some (channels st !! k)).
    { intros k. destruct (decide (k = c)) as [->|Hk]; [rewrite lookup_insert_eq; naive_solver|]. rewrite lookup_insert_ne by done. naive_solver. }
    split; [|split_and!; [done|done|right; by split_and!]].
    split; cbn; try apply Hok.
    + intros k x Hk. apply lookup_insert_Some in Hk as [[<- <-]|[Hk Hk']]; [|by apply (so_users _ _ _ _ Hok)].
      unfold count. rewrite HS. cbn. lia.
    + intros k m Hm. apply Hsome. right. by apply (so_chan _ _ _ _ Hok k m).
    + destruct (so_invites _ _ _ _ Hok) as [I1 I2 I3 I4]. split; [| | |done].
      * intros k x u Hk. apply lookup_insert_Some in Hk as [[<- <-]|[_ Hk]]; [by intros ?%elem_of_nil|by apply I1].
      * intros u x k Hu Hk. destruct (I2 _ _ _ Hu Hk) as (y & Hy & Hin). exists y. split; [|done]. rewrite lookup_insert_ne; [done|].
        intros <-. congruence.
      * intros k x Hk. apply lookup_insert_Some in Hk as [[<- <-]|[_ Hk]]; [constructor|by apply (I3 k)].
    + destruct (so_global _ _ _ _ Hok) as (G & H1 & H2 & H3 & H4). exists (c :: G).
      assert (HcG : c ∉ G) by (rewrite H3, Hfresh; by intros []). pose proof (dlist_push _ _ c _ G HcG H2 H1) as Hp.
      unfold global_ok. cbn. split; [|split; [by constructor|split; [|lia]]].
      * unfold dl_push in Hp. cbn [fst snd] in Hp. rewrite set_link_eq in Hp. exact Hp.
      * intros k. rewrite Hsome, elem_of_cons, H3. done.
    + eapply ctab_ext; [..|exact Ht2]; [|done]. intros k. cbn. rewrite Hsome. done.
    + intros k x Hk. apply lookup_insert_Some in Hk as [[<- <-]|[_ Hk]]; [done|by apply (so_names _ _ _ _ Hok k)].
    + intros k k' x y Hx Hy. apply lookup_insert_Some in Hx as [[<- <-]|[Hk Hx]]; apply lookup_insert_Some in Hy as [[<- <-]|[Hk' Hy]].
      * done.
      * intros E. symmetry in E. by destruct (Hnone _ _ Hy).
      * intros E. by destruct (Hnone _ _ Hx).
      * by apply (so_unique _ _ _ _ Hok).
    + intros k Hk. destruct (so_sched _ _ _ _ Hok k Hk). split; [|done]. apply Hsome. by right.
Qed.
End get.

Section expire.
Context {T : Type} `{ChannelTableLaws T}.
Implicit Types st : state T.

(** A channel whose event has expired, in one of the queues. *)
Definition due_in (now : Z) (L : delay -> list ptr) (ds : delay -> Prop) st (k : ptr) : Prop :=
  exists e d, destruct_event (events st) !! k = Some e /\ ds d /\ e ∈ L d /\ exp_of (events st) e <= now.

(** The channels after those of [P] are gone. *)
Record expired_to (P : ptr -> Prop) st st' : Prop := {
  ex_mm : mm st' = mm st;
  ex_gone : forall k, P k -> channels st' !! k = None /\ destruct_event (events st') !! k = None;
  ex_same : forall k, ~ P k -> option_Forall2 same_ch (channels st !! k) (channels st' !! k) /\
    destruct_event (events st') !! k = destruct_event (events st) !! k;
  ex_exp : forall k e, destruct_event (events st') !! k = Some e -> exp_of (events st') e = exp_of (events st) e;
  ex_in : forall k, P k -> is_Some (channels st !! k)
}.

Lemma same_ch_trans a b c : same_ch a b -> same_ch b c -> same_ch a c.
Proof. unfold same_ch. naive_solver congruence. Qed.

Lemma exec_expired_ok now d n : forall st S L, st_ok now st S -> ev_rep (events st) L -> (length (L d) < n)%nat ->
  exists st' L', exec_expired n d now st = Some st' /\ st_ok now st' S /\ ev_rep (events st') L' /\
    (forall d', d' <> d -> L' d' = L d') /\ (length (L' d) <= length (L d))%nat /\
    expired_to (due_in now L (fun x => x = d) st) st st' /\
    (forall k e, destruct_event (events st') !! k = Some e -> destruct_event (events st) !! k = Some e).
Proof.
  induction n as [|n IH]; intros st S L Hok HL Hn; [lia|]. cbn [exec_expired].
  pose proof (expired_spec d now (events st) L HL) as Hx. destruct (expired d now (events st)) as [ev|].
  - destruct Hx as (e & l & ELd & Hev & Hle & Hde). set (c := ev_chptr ev) in *.
    destruct (so_sched _ _ _ _ Hok c) as [[ch Hc] HS]; [by rewrite Hde|]. rewrite Hc. cbn [mbind option_bind events send].
    destruct (remove_rep c e (events st) L HL Hde) as (d0 & l1 & l2 & evs1 & EL0 & -> & HL1 & Hevs & Hdel). cbn [mbind option_bind].
    assert (Hd0 : d0 = d /\ l1 = [] /\ l2 = l).
    { assert (d0 = d) as -> by (apply (all_disjoint L d0 d e (er_nodup _ _ HL)); [rewrite EL0; set_solver|rewrite ELd; left]). split; [done|].
      rewrite ELd in EL0. destruct l1 as [|x l1]; [cbn in EL0; split; [done|congruence]|]. injection EL0 as -> ->.
      pose proof (all_nodup L d (er_nodup _ _ HL)) as Hnd. rewrite ELd in Hnd. apply NoDup_cons in Hnd as [Hnd _]. set_solver. }
    destruct Hd0 as (-> & -> & ->). cbn [app] in HL1. set (L1 := upd_queue d l L) in *.
    assert (HL1d : L1 d = l) by apply upd_queue_eq. assert (HL1o : forall d', d' <> d -> L1 d' = L d') by (intros; by apply upd_queue_ne).
    assert (Hexp1 : forall x, x <> e -> exp_of evs1 x = exp_of (events st) x) by (intros x Hx; unfold exp_of; by rewrite Hevs, lookup_delete_ne).
    assert (HeL1 : forall d', e ∉ L1 d').
    { intros d' Hin. assert (e ∈ dom (Destruct.evs evs1)) as Hdom by (apply (er_dom _ _ HL1), in_all; eauto). rewrite Hevs, dom_delete in Hdom. set_solver. }
    assert (HLsub : forall d' x, x ∈ L1 d' <-> x ∈ L d' /\ x <> e).
    { intros d' x. destruct (decide (d' = d)) as [->|Hd].
      - rewrite HL1d, ELd. pose proof (all_nodup L d (er_nodup _ _ HL)) as Hnd. rewrite ELd in Hnd. apply NoDup_cons in Hnd as [Hnd _]. set_solver.
      - rewrite HL1o by done. split; [|tauto]. intros Hin. split; [done|]. intros ->. apply Hd. apply (all_disjoint L d' d e (er_nodup _ _ HL) Hin). rewrite ELd. left. }
    set (st1 := set_events (send st [DestructSent c]) evs1).
    assert (Hok1 : st_ok now st1 S).
    { destruct (so_events _ _ _ _ Hok) as (L0 & HL0 & Hx0). split; try apply Hok.
      - exists L1. split; [done|]. intros d'. apply Forall_forall. intros x Hx. apply HLsub in Hx as [Hx Hxe]. cbn [events st1 set_events].
        rewrite Hexp1 by done. assert (L0 d' = L d') as E0.
        { pose proof (er_queue _ _ HL0 d') as [Q0 _]. pose proof (er_queue _ _ HL d') as [Q _].
          eapply chain_inj; eapply dlist_chain; [exact Q0|exact Q]. }
        specialize (Hx0 d'). rewrite E0, Forall_forall in Hx0. by apply Hx0.
      - intros k [x Hx]. cbn [st1 set_events events] in Hx. rewrite Hdel in Hx. apply lookup_delete_Some in Hx as [_ Hx].
        apply (so_sched _ _ _ _ Hok k). by rewrite Hx. }
    destruct (destruct_channel_ok now c st1 S (count S) ch Hok1 Hc HS) as (st2 & -> & Hok2 & []).
    { cbn. rewrite Hdel. apply lookup_delete_eq. }
    cbn [mbind option_bind].
    destruct (IH st2 S L1 Hok2) as (st3 & L3 & -> & Hok3 & HL3 & HL3o & HL3l & [] & Hev3); [rewrite cl_ev0; exact HL1|rewrite HL1d; rewrite ELd in Hn; cbn in Hn; lia|].
    exists st3, L3. split; [done|]. split; [done|]. split; [done|]. split; [intros d' Hd'; rewrite HL3o by done; by apply HL1o|].
    split; [rewrite ELd; cbn; rewrite HL1d in HL3l; lia|].
    assert (Hde2 : forall k x, destruct_event (events st2) !! k = Some x <-> k <> c /\ destruct_event (events st) !! k = Some x).
    { intros k x. rewrite cl_ev0. cbn. rewrite Hdel, lookup_delete_Some. naive_solver. }
    assert (Hx2 : forall x, x <> e -> exp_of (events st2) x = exp_of (events st) x) by (intros x Hx; rewrite cl_ev0; by apply Hexp1).
    assert (Hne : forall k x, k <> c -> destruct_event (events st) !! k = Some x -> x <> e).
    { intros k x Hk Hx ->. apply (er_chan _ _ HL) in Hx as [_ Hx], Hde as [_ Hde]. congruence. }
    assert (HP : forall k, due_in now L (fun x => x = d) st k <-> k = c \/ due_in now L1 (fun x => x = d) st2 k).
    { intros k. unfold due_in. split.
      - intros (x & d' & Hx & -> & Hin & Hxle). destruct (decide (k = c)) as [->|Hk]; [by left|]. right. exists x, d.
        pose proof (Hne _ _ Hk Hx). rewrite Hx2 by done. split_and!; [by apply Hde2|done|by apply HLsub|done].
      - intros [->|(x & d' & Hx & -> & Hin & Hxle)].
        + exists e, d. split_and!; [done|done|rewrite ELd; left|]. unfold exp_of. by rewrite Hev.
        + apply Hde2 in Hx as [Hk Hx]. exists x, d. rewrite Hx2 in Hxle by (by eapply Hne). apply HLsub in Hin as [Hin _]. done. }
    split; [|intros k x Hx; apply Hev3, Hde2 in Hx; tauto]. split.
    + rewrite ex_mm0, cl_mm0. done.
    + intros k Hk. apply HP in Hk as [->|Hk]; [|by apply ex_gone0]. destruct (ex_same0 c) as [Hc3 He3].
      { intros (x & d' & Hx & _). by apply Hde2 in Hx as [? _]. }
      specialize (cl_chan0 c). rewrite decide_True in cl_chan0 by done. inversion cl_chan0 as [|E1 E2]. rewrite <- E2 in Hc3.
      split; [by inversion Hc3|]. rewrite He3, cl_ev0. cbn. rewrite Hdel. apply lookup_delete_eq.
    + intros k Hk. assert (k <> c) as Hkc by (intros ->; apply Hk, HP; by left). destruct (ex_same0 k) as [Hc3 He3]; [intros Hk'; apply Hk, HP; by right|].
      specialize (cl_chan0 k). rewrite decide_False in cl_chan0 by done. cbn [channels st1 set_events send] in cl_chan0. split.
      * inversion cl_chan0 as [a b Hab E1 E2|E1 E2]; rewrite <- E2 in Hc3; inversion Hc3 as [? y Hby|]; constructor. by eapply same_ch_trans.
      * rewrite He3, cl_ev0. cbn. rewrite Hdel. by rewrite lookup_delete_ne.
    + intros k x Hx. rewrite (ex_exp0 k x Hx). apply Hev3, Hde2 in Hx as [Hk Hx]. apply Hx2. by eapply Hne.
    + intros k Hk. apply HP in Hk as [->|Hk]; [by rewrite Hc|]. destruct (ex_in0 k Hk) as [y Hy].
      specialize (cl_chan0 k). rewrite Hy in cl_chan0. case_decide; [by inversion cl_chan0|]. cbn [channels st1 set_events send] in cl_chan0.
      by inversion cl_chan0.
  - exists st, L. split_and!; try done. split; try done.
    + intros k (e & d' & He & -> & Hin & Hle). rewrite Forall_forall in Hx. specialize (Hx e Hin). lia.
    + intros k _. split; [|done]. by destruct (channels st !! k); constructor.
    + intros k (e & d' & He & _). apply (so_sched _ _ _ _ Hok). by rewrite He.
Qed.
End expire.

Section expire_all.
Context {T : Type} `{ChannelTableLaws T}.
Implicit Types st : state T.

Definition due (now : Z) st (k : ptr) : Prop :=
  exists e, destruct_event (events st) !! k = Some e /\ exp_of (events st) e <= now.

Lemma queue_size (ev : devents) L d : ev_rep ev L -> (length (L d) <= size (evs ev))%nat.
Proof.
  intros HL. rewrite <- (size_dom (evs ev)), <- (size_list_to_set (C := gset ptr) (L d)) by (apply all_nodup, (er_nodup _ _ HL)).
  apply subseteq_size. intros e. rewrite elem_of_list_to_set. intros He. apply (er_dom _ _ HL), in_all. by exists d.
Qed.

Lemma exec_expired_all now st S : st_ok now st S ->
  exists st', exec_expired_destruct_events now st = Some st' /\ st_ok now st' S /\ mm st' = mm st /\
    forall k, (due now st k -> channels st' !! k = None) /\
      (~ due now st k -> option_Forall2 same_ch (channels st !! k) (channels st' !! k)).
Proof.
  intros Hok. destruct (so_events _ _ _ _ Hok) as (L & HL & _). unfold exec_expired_destruct_events.
  destruct (exec_expired_ok now Minute (Datatypes.S (size (evs (events st)))) st S L Hok HL) as (st1 & L1 & -> & Hok1 & HL1 & Ho & _ & [] & Hev).
  { pose proof (queue_size _ _ Minute HL). lia. }
  cbn [mbind option_bind].
  destruct (exec_expired_ok now Days (Datatypes.S (size (evs (events st1)))) st1 S L1 Hok1 HL1) as (st2 & L2 & -> & Hok2 & _ & _ & _ & [] & _).
  { pose proof (queue_size _ _ Days HL1). lia. }
  exists st2. split; [done|]. split; [done|]. split; [by rewrite ex_mm1|].
  assert (Hdue : forall k, due now st k <-> due_in now L (fun x => x = Minute) st k \/ due_in now L1 (fun x => x = Days) st1 k).
  { intros k. split.
    - intros (e & He & Hle). destruct (proj1 (er_chan _ _ HL k e) He) as [Hd _]. apply (er_dom _ _ HL), in_all in Hd as [[] Hin].
      + left. by exists e, Minute.
      + right. destruct (ex_same0 k) as [_ He'].
        { intros (e' & d & He' & -> & Hin' & _). assert (e' = e) as -> by congruence.
          by pose proof (all_disjoint _ _ _ _ (er_nodup _ _ HL) Hin Hin'). }
        assert (destruct_event (events st1) !! k = Some e) as He1 by congruence. exists e, Days. rewrite (ex_exp0 k e He1).
        split_and!; [done|done|by rewrite Ho|done].
    - intros [(e & d & He & _ & _ & Hle)|(e & d & He & _ & _ & Hle)]; [by exists e|].
      exists e. split; [by apply Hev|]. by rewrite <- (ex_exp0 k e He). }
  intros k. split.
  - intros Hk. apply Hdue in Hk as [Hk|Hk]; [|by apply ex_gone1]. destruct (ex_gone0 k Hk) as [Hc1 He1].
    destruct (ex_same1 k) as [Hc2 _]; [intros (e & d & He & _); congruence|]. rewrite Hc1 in Hc2. by inversion Hc2.
  - intros Hk. destruct (ex_same0 k) as [Hc1 _]; [intros Hd; apply Hk, Hdue; by left|].
    destruct (ex_same1 k) as [Hc2 _]; [intros Hd; apply Hk, Hdue; by right|].
    inversion Hc1 as [a b Hab E1 E2|E1 E2]; rewrite <- E2 in Hc2; inversion Hc2 as [? y Hby|]; constructor. by eapply same_ch_trans.
Qed.

Lemma st_ok_later now now' st S n : now <= now' -> st_ok' now st S n -> st_ok' now' st S n.
Proof.
  intros Hle Hok. split; try apply Hok. destruct (so_events _ _ _ _ Hok) as (L & HL & Hx). exists L. split; [done|]. intros d.
  eapply Forall_impl; [apply Hx|]. intros e He. cbn in He. lia.
Qed.

(** Inviting. *)
Lemma inv_ok_add chs cls c u ch cl :
  inv_ok chs cls -> chs !! c = Some ch -> cls !! u = Some cl -> u ∉ invites ch -> c ∉ invited cl -> has_user cl = true ->
  n_invites cl < 2 ^ 32 - 1 ->
  inv_ok (alter (with_invites (u :: invites ch)) c chs) (alter (with_invited (invited cl ++ [c]) (w32 (n_invites cl + 1))) u cls).
Proof.
  intros [I1 I2 I3 I4] Hc Hu Hnu Hnc Hh Hn. destruct (I4 _ _ Hu) as (Hnd & Hlen & H32). pose proof (I3 _ _ Hc) as Hndi.
  assert (Hch : forall k, alter (with_invites (u :: invites ch)) c chs !! k = if decide (k = c) then Some (with_invites (u :: invites ch) ch) else chs !! k)
    by (intros k; rewrite alter_lookup; case_decide; [by rewrite Hc|done]).
  assert (Hcl : forall k, alter (with_invited (invited cl ++ [c]) (w32 (n_invites cl + 1))) u cls !! k =
    if decide (k = u) then Some (with_invited (invited cl ++ [c]) (w32 (n_invites cl + 1)) cl) else cls !! k)
    by (intros k; rewrite alter_lookup; case_decide; [by rewrite Hu|done]).
  split.
  - intros k x v. rewrite Hch, Hcl. destruct (decide (k = c)) as [->|Hk].
    + intros [= <-]. cbn [invites with_invites]. rewrite elem_of_cons. intros [->|Hv].
      * rewrite decide_True by done. eexists. split; [done|]. split; [done|]. cbn. set_solver.
      * destruct (I1 _ _ _ Hc Hv) as (y & Hy & Hyh & Hin). destruct (decide (v = u)) as [->|]; [done|eauto].
    + intros Hx Hv. destruct (I1 _ _ _ Hx Hv) as (y & Hy & Hyh & Hin). destruct (decide (v = u)) as [->|]; [|eauto].
      eexists. split; [done|]. split; [done|]. cbn. assert (y = cl) as -> by congruence. set_solver.
  - intros v y k. rewrite Hch, Hcl. destruct (decide (v = u)) as [->|Hv].
    + intros [= <-]. cbn [invited with_invited]. rewrite elem_of_app, list_elem_of_singleton. intros [Hk| ->].
      * destruct (I2 _ _ _ Hu Hk) as (x & Hx & Hin). destruct (decide (k = c)) as [->|]; [done|eauto].
      * rewrite decide_True by done. eexists. split; [done|]. left.
    + intros Hy Hk. destruct (I2 _ _ _ Hy Hk) as (x & Hx & Hin). destruct (decide (k = c)) as [->|]; [|eauto].
      eexists. split; [done|]. cbn. right. assert (x = ch) as -> by congruence. done.
  - intros k x. rewrite Hch. case_decide; [|apply I3]. intros [= <-]. cbn. by constructor.
  - intros v y. rewrite Hcl. case_decide; [|apply I4]. intros [= <-]. cbn [invited n_invites with_invited]. split; [|rewrite length_app; cbn; rewrite w32_small by lia; lia].
    apply NoDup_app. split_and!; [done| |apply NoDup_singleton]. intros z Hz ->%list_elem_of_singleton. done.
Qed.
Lemma add_invite_ok now MAXCHANNELSPERUSER c u st S ch cl :
  st_ok now st S -> channels st !! c = Some ch -> clients st !! u = Some cl -> has_user cl = true ->
  0 < MAXCHANNELSPERUSER < 2 ^ 32 ->
  exists st', add_invite MAXCHANNELSPERUSER u c st = Some st' /\ touched st st' /\ inv_ok (channels st') (clients st') /\
    exists ch', channels st' !! c = Some ch' /\ u ∈ invites ch'.
Proof.
  intros Hok Hc Hu Hh Hmax. unfold add_invite.
  destruct (del_invite_ok u c st ch cl (so_invites _ _ _ _ Hok) Hc Hu Hh) as (st1 & n1 & -> & Ht1 & Hi1 & Ec1 & Eu1). cbn [mbind option_bind].
  set (ch1 := with_invites (unlink u (invites ch)) ch) in *. set (cl1 := with_invited (unlink c (invited cl)) n1 cl) in *.
  assert (Hc1 : channels st1 !! c = Some ch1) by (by rewrite Ec1, lookup_alter_eq, Hc).
  assert (Hu1 : clients st1 !! u = Some cl1) by (by rewrite Eu1, lookup_alter_eq, Hu).
  destruct (so_invites _ _ _ _ Hok) as [_ _ I3 I4]. pose proof (I3 _ _ Hc) as Hndi. destruct (I4 _ _ Hu) as (Hndd & _).
  assert (Hn1 : u ∉ invites ch1) by (cbn; rewrite elem_of_unlink by done; tauto).
  assert (Hn1' : c ∉ invited cl1) by (cbn; rewrite elem_of_unlink by done; tauto).
  rewrite Hu1. cbn [mbind option_bind].
  (* after making room *)
  assert (exists st2 ch2 cl2, (if MAXCHANNELSPERUSER <=? n_invites cl1 then first ← head (invited cl1); del_invite u first st1 else Some st1) = Some st2 /\
    touched st1 st2 /\ inv_ok (channels st2) (clients st2) /\ channels st2 !! c = Some ch2 /\ clients st2 !! u = Some cl2 /\
    u ∉ invites ch2 /\ c ∉ invited cl2 /\ has_user cl2 = true /\ n_invites cl2 < 2 ^ 32 - 1) as
    (st2 & ch2 & cl2 & -> & Ht2 & Hi2 & Hc2 & Hu2 & Hn2 & Hn2' & Hh2 & Hlt).
  { destruct (io_count _ _ Hi1 u cl1 Hu1) as (Hnd & Hlen & H32). destruct (Z.leb_spec MAXCHANNELSPERUSER (n_invites cl1)) as [Hle|Hle].
    - destruct (invited cl1) as [|f l] eqn:E; [rewrite Hlen in Hle; cbn in Hle; lia|]. cbn [head mbind option_bind].
      destruct (io_user _ _ Hi1 u cl1 f Hu1) as (chf & Hf & Hfu); [rewrite E; left|].
      destruct (del_invite_ok u f st1 chf cl1 Hi1 Hf Hu1 Hh) as (st2 & n2 & -> & Ht2 & Hi2 & Ec2 & Eu2).
      assert (f <> c) as Hfc by (intros ->; apply Hn1'; rewrite ?E; left).
      exists st2, ch1, (with_invited (unlink f (invited cl1)) n2 cl1). split_and!; try done.
      + rewrite Ec2, lookup_alter_ne by done. done.
      + by rewrite Eu2, lookup_alter_eq, Hu1.
      + change (c ∉ unlink f (invited cl1)). rewrite ?E, elem_of_unlink by done. rewrite ?E in Hn1'. tauto.
      + destruct (io_count _ _ Hi2 u (with_invited (unlink f (invited cl1)) n2 cl1)) as (_ & Hn & _); [by rewrite Eu2, lookup_alter_eq, Hu1|].
        rewrite Hn. cbn [invited with_invited]. pose proof (length_unlink f (invited cl1)) as Hl. rewrite ?E in Hl; rewrite ?E in Hlen; rewrite ?E. specialize (Hl ltac:(left)).
        cbn [length] in Hl, Hlen. lia.
    - exists st1, ch1, cl1. split_and!; try done. lia. }
  cbn [mbind option_bind]. rewrite Hc2. cbn [mbind option_bind]. rewrite Hu2. cbn [mbind option_bind].
  eexists. split; [done|]. split; [|split].
  - etransitivity; [exact Ht1|]. etransitivity; [exact Ht2|]. etransitivity; [apply touched_upd_channel|apply touched_upd_client]; done.
  - cbn. apply inv_ok_add; done.
  - cbn. rewrite lookup_alter_eq, Hc2. cbn. eexists. split; [done|]. left.
Qed.
End expire_all.

(** ** The abstract channels

    Who is on which channel, as a zombie or not, and which channels there
    are: what the operations mean, without lists, counters and tables. *)
Section refinement.
Context {T : Type} `{ChannelTableLaws T} (OPLEVELS : bool) (MAXCHANNELSPERUSER : Z).
Implicit Types st : state T.

Inductive chan_op :=
  | Get (cptr : ptr) (n : cstring) (create : bool)
  | Join (c u : ptr) (flags lvl : Z)
  | Part (u c : ptr)
  | Quit (u : ptr)
  | Kick (me m who cptr sptr c : ptr)
  | Invite (u c : ptr)
  | Uninvite (u c : ptr)
  | Expire.

Definition run_op (now : Z) (o : chan_op) st : option (state T) :=
  match o with
  | Get cptr n create => '(st, _) ← get_channel now cptr n create st; Some st
  | Join c u flags lvl => add_user_to_channel c u flags lvl st
  | Part u c => remove_user_from_channel OPLEVELS now u c st
  | Quit u => remove_user_from_all_channels OPLEVELS now u st
  | Kick me m who cptr sptr c => make_zombie OPLEVELS now me m who cptr sptr c st
  | Invite u c => add_invite MAXCHANNELSPERUSER u c st
  | Uninvite u c => del_invite u c st
  | Expire => exec_expired_destruct_events now st
  end.

(** A user on a channel, as a zombie or not. *)
Definition role st (S : shape) (u c : ptr) (z : bool) : Prop :=
  exists m, on (mm st) S u c m /\ IsZombie (mget (mm st) m) = z.

Definition known st (c : ptr) : Prop := is_Some (channels st !! c).
Definition named st (n : cstring) (c : ptr) : Prop := exists ch, channels st !! c = Some ch /\ lower (chname ch) = lower n.

(** What the callers make sure of. *)
Definition op_pre (o : chan_op) st (S : shape) : Prop :=
  match o with
  | Get cptr n _ => is_Some (clients st !! cptr) /\ is_cstr n /\ n <> []
  | Join c u flags _ => exists ch cl, channels st !! c = Some ch /\ clients st !! u = Some cl /\
      has_user cl = true /\ IsServer cl = false /\ IsMe cl = false /\ (forall z, ~ role st S u c z) /\
      Z.land flags CHFL_ZOMBIE = 0 /\ users ch < 2 ^ 32 - 1 /\ joined cl < 2 ^ 32 - 1
  | Part u _ => exists cl, clients st !! u = Some cl /\ IsServer cl || IsMe cl || has_user cl = true
  | Quit _ | Expire => True
  | Kick me m who cptr sptr c => on (mm st) S who c m /\ is_Some (clients st !! cptr) /\ is_Some (leaves me who cptr sptr st)
  | Invite u c => 0 < MAXCHANNELSPERUSER < 2 ^ 32 /\ known st c /\ exists cl, clients st !! u = Some cl /\ has_user cl = true
  | Uninvite u c => known st c /\ exists cl, clients st !! u = Some cl /\ has_user cl = true
  end.

(** Somebody else, not a zombie, is on the channel. *)
Definition held (R : ptr -> ptr -> bool -> Prop) (u c : ptr) : Prop := exists v, v <> u /\ R v c false.

Definition op_role (o : chan_op) st (R : ptr -> ptr -> bool -> Prop) (u' c' : ptr) (z : bool) : Prop :=
  match o with
  | Join c u _ _ => R u' c' z \/ (u' = u /\ c' = c /\ z = false)
  | Part u c => R u' c' z /\ (c' = c -> u' <> u /\ held R u c)
  | Quit u => R u' c' z /\ u' <> u /\ held R u c'
  | Kick me m who cptr sptr c =>
      if decide (c' = c) then
        held R who c /\ (if decide (u' = who) then z = true /\ leaves me who cptr sptr st = Some false else R u' c z)
      else R u' c' z
  | Get _ _ _ | Invite _ _ | Uninvite _ _ | Expire => R u' c' z
  end.

(** The channel has just lost its last user. *)
Definition emptied_by (R R' : ptr -> ptr -> bool -> Prop) (c : ptr) : Prop :=
  (exists u z, R u c z) /\ ~ exists u z, R' u c z.

(** The channels there are afterwards. *)
Definition op_known (now : Z) (o : chan_op) st (R : ptr -> ptr -> bool -> Prop) st' : Prop :=
  match o with
  | Get cptr n create =>
      exists n', (n' = n \/ n' = take CHANNELLEN n) /\
        (((create = false \/ exists k, named st n' k) /\ forall k, known st' k <-> known st k) \/
         (create = true /\ (forall k, ~ named st n' k) /\
          exists c, ~ known st c /\ named st' n' c /\ forall k, known st' k <-> known st k \/ k = c))
  | Expire => forall k, known st' k <-> known st k /\ ~ due now st k
  | _ =>
      (forall k, known st' k -> known st k) /\
      forall k ch, channels st !! k = Some ch ->
        let gone := emptied_by R (op_role o st R) k in
        (known st' k <-> ~ (gone /\ kept OPLEVELS ch = false)) /\
        (gone -> known st' k -> is_Some (destruct_event (events st') !! k))
  end.

Lemma role_some st S k : (exists u z, role st S u k z) <-> C S k <> [].
Proof.
  split.
  - intros (u & z & m & [Hm _] & _) E. rewrite E in Hm. by apply elem_of_nil in Hm.
  - intros Hk. destruct (C S k) as [|m l] eqn:E; [done|]. exists (user (mget (mm st) m)), (IsZombie (mget (mm st) m)), m.
    split; [|done]. split; [rewrite E; left|done].
Qed.

Lemma others_held st S u c : others (mm st) S u c <-> held (role st S) u c.
Proof.
  split.
  - intros (m & Hm & Hmu & Hz). exists (user (mget (mm st) m)). split; [done|]. by exists m.
  - intros (v & Hv & m & [Hm Hmv] & Hz). exists m. split_and!; [done|congruence|done].
Qed.

Lemma role_ext st S st' S' : (forall k m, m ∈ C S' k <-> m ∈ C S k) -> (forall m, mget (mm st') m = mget (mm st) m) ->
  forall u c z, role st' S' u c z <-> role st S u c z.
Proof. intros HC Hg u c z. unfold role, on. setoid_rewrite HC. setoid_rewrite Hg. done. Qed.

(** Who is left, in the abstract. *)
Lemma role_left st S st' S' (P : ptr -> ptr -> Prop) :
  leave OPLEVELS st S st' S' -> (forall k m, m ∈ C S' k <-> m ∈ C S k /\ P (user (mget (mm st) m)) k) ->
  forall u c z, role st' S' u c z <-> role st S u c z /\ P u c.
Proof.
  intros L HP u c z. unfold role, on. setoid_rewrite HP. setoid_rewrite (lv_get _ _ _ _ _ L). split.
  - intros (m & ((Hm & Hp) & <-) & Hz). eauto.
  - intros ((m & (Hm & <-) & Hz) & Hp). eauto.
Qed.

Lemma alive_left st S st' S' (P : ptr -> ptr -> Prop) :
  leave OPLEVELS st S st' S' -> (forall k m, m ∈ C S' k <-> m ∈ C S k /\ P (user (mget (mm st) m)) k) ->
  (forall k m, m ∈ C S' k -> exists x, x ∈ C S k /\ P (user (mget (mm st) x)) k /\ IsZombie (mget (mm st) x) = false) -> alive (mm st') S'.
Proof.
  intros L HP Ha k Hk. destruct (C S' k) as [|m l] eqn:E; [done|]. rewrite <- E. destruct (Ha k m) as (x & Hx & Hxp & Hz); [rewrite E; left|].
  exists x. rewrite (lv_get _ _ _ _ _ L). split; [by apply HP|done].
Qed.

(** Which channels are left, in the abstract. *)
Lemma known_left st S st' S' R R' : leave OPLEVELS st S st' S' ->
  (forall k, (exists u z, R u k z) <-> C S k <> []) -> (forall k, (exists u z, R' u k z) <-> C S' k <> []) ->
  (forall k, known st' k -> known st k) /\
  forall k ch, channels st !! k = Some ch ->
    (known st' k <-> ~ (emptied_by R R' k /\ kept OPLEVELS ch = false)) /\
    (emptied_by R R' k -> known st' k -> is_Some (destruct_event (events st') !! k)).
Proof.
  intros L HR HR'. split.
  - intros k [x Hx]. destruct (lv_back _ _ _ _ _ L k x Hx) as (ch & Hc & _). unfold known. by rewrite Hc.
  - intros k ch Hc. unfold emptied_by. rewrite HR, HR'. assert (Hk : known st k) by (unfold known; by rewrite Hc).
    destruct (decide (C S k = [])) as [E|E].
    + split; [|tauto]. split; [tauto|]. intros _. apply (lv_same _ _ _ _ _ L k Hk). by left.
    + destruct (decide (C S' k = [])) as [E'|E'].
      * destruct (kept OPLEVELS ch) eqn:Ek.
        -- destruct (lv_kept _ _ _ _ _ L k ch Hc E E' Ek) as [H1 H2]. split; [|done]. split; [intros _ [_ ?]; done|done].
        -- pose proof (lv_gone _ _ _ _ _ L k ch Hc E E' Ek) as Hg. unfold known. rewrite Hg. split; [|intros _ []; done].
           split; [intros []; done|]. intros Hn. destruct Hn. split; [|done]. split; [done|]. tauto.
      * split; [|tauto]. split; [tauto|]. intros _. apply (lv_same _ _ _ _ _ L k Hk). by right.
Qed.

Lemma emptied_ext R R1 R2 k : (forall u z, R1 u k z <-> R2 u k z) -> emptied_by R R1 k <-> emptied_by R R2 k.
Proof. intros E. unfold emptied_by. by setoid_rewrite E. Qed.
End refinement.

Section theorem.
Context {T : Type} `{ChannelTableLaws T} (OPLEVELS : bool) (MAXCHANNELSPERUSER : Z).
Implicit Types st : state T.

Definition op_post (now : Z) (o : chan_op) st (S : shape) st' (S' : shape) : Prop :=
  st_ok now st' S' /\ alive (mm st') S' /\
  (forall u c z, role st' S' u c z <-> op_role o st (role st S) u c z) /\
  op_known OPLEVELS now o st (role st S) st'.

(** The channels that an operation empties, once the roles are known. *)
Lemma known_post now (o : chan_op) st S st0 st' S' :
  (match o with Get _ _ _ | Expire => False | _ => True end) -> channels st0 = channels st ->
  leave OPLEVELS st0 S st' S' -> (forall u c z, role st' S' u c z <-> op_role o st (role st S) u c z) ->
  op_known OPLEVELS now o st (role st S) st'.
Proof.
  intros Ho Hc L Hr.
  pose proof (known_left OPLEVELS st0 S st' S' (role st S) (op_role o st (role st S)) L (role_some st S)) as HK.
  assert (Hk : forall k, known st0 k <-> known st k) by (intros k; unfold known; by rewrite Hc).
  destruct o; try done; (destruct HK as [K1 K2]; [intros k; setoid_rewrite <- Hr; apply role_some|]; rewrite Hc in K2;
    split; [intros k Hk'; apply Hk; by apply K1|intros k ch Hch; by apply K2]).
Qed.

Lemma part_post now u c st S : st_ok now st S -> alive (mm st) S -> op_pre MAXCHANNELSPERUSER (Part u c) st S ->
  exists st' S', run_op OPLEVELS MAXCHANNELSPERUSER now (Part u c) st = Some st' /\ op_post now (Part u c) st S st' S'.
Proof.
  intros Hok Ha (cl & Hcl & Hh). destruct (remove_user_ok OPLEVELS now st S u c cl Hok Hcl Hh) as (st' & S' & E & Hok' & L & Hp).
  { intros m Hm. by eapply alive_others. }
  exists st', S'. split; [done|]. split; [done|].
  pose proof (role_left OPLEVELS st S st' S' (fun v k => k = c -> v <> u /\ others (mm st) S u c) L Hp) as Hr.
  split; [|split].
  - eapply parted_alive; [apply (lv_get _ _ _ _ _ L)|exact Hp|]. intros k _. apply Ha.
  - intros u' c' z. rewrite Hr, others_held. done.
  - eapply known_post; [done|done|exact L|]. intros u' c' z. rewrite Hr, others_held. done.
Qed.

Lemma quit_post now u st S : st_ok now st S -> alive (mm st) S ->
  exists st' S', run_op OPLEVELS MAXCHANNELSPERUSER now (Quit u) st = Some st' /\ op_post now (Quit u) st S st' S'.
Proof.
  intros Hok Ha. destruct (remove_user_from_all_ok OPLEVELS now u st S Hok Ha) as (st' & S' & E & Hok' & L & Hp).
  exists st', S'. split; [done|]. split; [done|].
  pose proof (role_left OPLEVELS st S st' S' (fun v k => v <> u /\ others (mm st) S u k) L Hp) as Hr.
  split; [|split].
  - apply (alive_left OPLEVELS st S st' S' (fun v k => v <> u /\ others (mm st) S u k) L Hp). intros k m Hm. apply Hp in Hm as (Hm & _ & Ho). pose proof Ho as (x & Hx & Hxu & Hz). by exists x.
  - intros u' c' z. rewrite Hr, others_held. done.
  - eapply known_post; [done|done|exact L|]. intros u' c' z. rewrite Hr, others_held. done.
Qed.

Lemma role_zombified m st S who c : on (mm st) S who c m -> m ∈ dom (memb (mm st)) -> matrix_ok (mm st) S ->
  forall u' c' z, role (zombified m st) S u' c' z <->
    if decide (c' = c /\ u' = who) then z = true else role st S u' c' z.
Proof.
  intros [Hm Hmu] Hd Hok u' c' z. unfold role, on. split.
  - intros (x & [Hx Hxu] & Hz). destruct (zombified_get m st x Hd) as [E1 E2]. rewrite E1 in Hxu. rewrite E2 in Hz. destruct (decide (c' = c /\ u' = who)) as [Ed|Ed].
    + destruct Ed as [-> ->]. assert (x = m) as -> by (by apply (on_unique (mm st) S Hok who c)). by rewrite decide_True in Hz.
    + exists x. split; [done|]. rewrite decide_False in Hz; [done|]. intros ->. apply Ed. split; [|congruence].
      destruct (in_c_live (mm st) S Hok m c' Hx) as [_ <-]. by destruct (in_c_live (mm st) S Hok m c Hm) as [_ <-].
  - destruct (decide (c' = c /\ u' = who)) as [Ed|Ed].
    + destruct Ed as [-> ->]. intros ->. exists m. destruct (zombified_get m st m Hd) as [E1 E2]. by rewrite E1, E2, decide_True.
    + intros (x & [Hx Hxu] & Hz). exists x. destruct (zombified_get m st x Hd) as [E1 E2]. rewrite E1, E2, decide_False; [done|].
      intros ->. apply Ed. split; [|congruence].
      destruct (in_c_live (mm st) S Hok m c' Hx) as [_ <-]. by destruct (in_c_live (mm st) S Hok m c Hm) as [_ <-].
Qed.

Lemma kick_post now me m who cptr sptr c st S : st_ok now st S -> alive (mm st) S ->
  op_pre MAXCHANNELSPERUSER (Kick me m who cptr sptr c) st S ->
  exists st' S', run_op OPLEVELS MAXCHANNELSPERUSER now (Kick me m who cptr sptr c) st = Some st' /\
    op_post now (Kick me m who cptr sptr c) st S st' S'.
Proof.
  intros Hok Ha (Hon & Hcp & [b Hb]). pose proof (so_matrix _ _ _ _ Hok) as HM.
  destruct (make_zombie_ok OPLEVELS now me m who cptr sptr c st S b Hok Hon Hcp Hb) as (st' & S' & E & Hok' & L & Hgone & Hstay).
  exists st', S'. split; [done|]. split; [done|]. pose proof Hon as [Hm Hmu]. destruct (in_c _ _ _ _ _ Hok Hm) as [[Hd _] _].
  pose proof (role_zombified m st S who c Hon Hd HM) as Hz.
  assert (Hheld : held (role st S) who c <-> others (mm st) S who c) by (symmetry; apply others_held).
  assert (Hoz : others (mm (zombified m st)) S who c <-> others (mm st) S who c) by (by apply zombified_others).
  assert (Hcase : (b = true \/ ~ others (mm st) S who c) \/ (b = false /\ others (mm st) S who c)).
  { destruct b; [by left; left|]. destruct (all_zombies_ok now _ S c (mark_ok now (fun s => Z.lor s CHFL_ZOMBIE) m st S Hok)) as (z & _ & Hzz).
    fold (zombified m st) in Hzz. destruct z.
    - left. right. intros Ho. apply Hoz in Ho as (x & Hx & _ & Hxz). by discriminate (proj2 Hzz); exists x.
    - right. split; [done|]. apply Hoz. destruct (proj1 Hzz eq_refl) as (x & Hx & Hxz). exists x. split; [done|]. split; [|done].
      destruct (zombified_get m st x Hd) as [E1 E2]. rewrite E1. intros Hxu.
      assert (x = m) as -> by (by apply (on_unique (mm st) S HM who c)). rewrite E2, decide_True in Hxz by done. done. }
  assert (Hr : forall u' c' z, role st' S' u' c' z <-> op_role (Kick me m who cptr sptr c) st (role st S) u' c' z).
  { intros u' c' z. cbn [op_role]. rewrite Hb. specialize (Hz u' c' z). destruct Hcase as [Hc|[-> Ho]].
    - rewrite (role_left OPLEVELS _ S st' S' (fun v k => k = c -> v <> who /\ others (mm (zombified m st)) S who c) L (Hgone Hc)), Hz, Hoz.
      clear Hz. destruct (decide (c' = c)) as [->|Hcc]; [|rewrite decide_False by tauto; tauto]. rewrite Hheld.
      destruct (decide (u' = who)) as [->|Hu].
      + split; [|intros [Ho [_ [= ->]]]; destruct Hc as [Hc|Hc]; done]. intros [_ Hw]. by destruct (Hw eq_refl).
      + rewrite decide_False by tauto. split; [|tauto]. intros [Hro Hw]. split; [|done]. by destruct (Hw eq_refl).
    - specialize (Hstay eq_refl Ho). subst S'.
      assert (role st' S u' c' z <-> role (zombified m st) S u' c' z) as -> by (apply role_ext; [done|apply (lv_get _ _ _ _ _ L)]).
      rewrite Hz. clear Hz. destruct (decide (c' = c)) as [->|Hcc]; [|rewrite decide_False by tauto; tauto]. rewrite Hheld.
      destruct (decide (u' = who)) as [->|Hu]; [rewrite decide_True by done; tauto|]. rewrite decide_False by tauto. tauto. }
  split; [|split; [done|]].
  - destruct Hcase as [Hc|[-> Ho]].
    + eapply parted_alive; [apply (lv_get _ _ _ _ _ L)|exact (Hgone Hc)|]. intros k Hk HS. destruct (Ha k HS) as (x & Hx & Hxz). exists x. split; [done|].
      destruct (zombified_get m st x Hd) as [_ E2]. rewrite E2, decide_False; [done|]. intros ->. apply Hk.
      destruct (in_c_live (mm st) S HM m k Hx) as [_ <-]. by destruct (in_c_live (mm st) S HM m c Hm) as [_ <-].
    + specialize (Hstay eq_refl Ho). subst S'. intros k HS. destruct (decide (k = c)) as [->|Hk].
      * apply Hoz in Ho as (x & Hx & _ & Hxz). exists x. by rewrite (lv_get _ _ _ _ _ L).
      * destruct (Ha k HS) as (x & Hx & Hxz). exists x. split; [done|]. rewrite (lv_get _ _ _ _ _ L).
        destruct (zombified_get m st x Hd) as [_ E2]. rewrite E2, decide_False; [done|]. intros ->. apply Hk.
        destruct (in_c_live (mm st) S HM m k Hx) as [_ <-]. by destruct (in_c_live (mm st) S HM m c Hm) as [_ <-].
  - by apply (known_post now _ st S (zombified m st) st' S').
Qed.

(** Operations that take nobody off a channel. *)
Lemma known_same now (o : chan_op) st S st' : (match o with Get _ _ _ | Expire => False | _ => True end) ->
  (forall k, known st' k <-> known st k) -> (forall k, (exists u z, role st S u k z) -> exists u z, op_role o st (role st S) u k z) ->
  op_known OPLEVELS now o st (role st S) st'.
Proof.
  intros Ho Hk Hr. assert (He : forall k, ~ emptied_by (role st S) (op_role o st (role st S)) k).
  { intros k [H1 H2]. by apply H2, Hr. }
  destruct o; try done; (split; [intros k; apply Hk|]; intros k ch Hc; specialize (He k);
    (split; [|tauto]); split; [tauto|]; intros _; apply Hk; unfold known; by rewrite Hc).
Qed.

Lemma same_post now (o : chan_op) st S st' : (match o with Invite _ _ | Uninvite _ _ => True | _ => False end) ->
  st_ok now st S -> alive (mm st) S -> touched st st' -> inv_ok (channels st') (clients st') -> op_post now o st S st' S.
Proof.
  intros Ho Hok Ha Ht Hi. assert (Hr : forall u c z, role st' S u c z <-> role st S u c z).
  { apply role_ext; [done|]. intros m. by rewrite (to_mm _ _ Ht). }
  split; [by eapply st_ok_touched|]. split; [by rewrite (to_mm _ _ Ht)|]. split.
  - intros u c z. rewrite Hr. by destruct o.
  - apply known_same; [by destruct o|intros k; by apply touched_dom|]. intros k Hk. by destruct o.
Qed.

Lemma join_post now c u flags lvl st S : st_ok now st S -> alive (mm st) S ->
  op_pre MAXCHANNELSPERUSER (Join c u flags lvl) st S ->
  exists st' S', run_op OPLEVELS MAXCHANNELSPERUSER now (Join c u flags lvl) st = Some st' /\ op_post now (Join c u flags lvl) st S st' S'.
Proof.
  intros Hok Ha (ch & cl & Hc & Hu & Hh & Hsv & Hme & Hno & Hf & Hus & Hj).
  destruct (so_users _ _ _ _ Hok _ _ Hc) as [Eu _].
  destruct (add_user_ok now c u flags lvl st S ch cl Hok Hc Hu Hh Hsv Hme) as (st' & S' & m & E & Hok' & HC & Hm & Hnew & Hold & _ & _ & Hch).
  { intros m Hon. apply (Hno (IsZombie (mget (mm st) m))). by exists m. }
  { lia. }
  { done. }
  exists st', S'. split; [done|].
  assert (Hz : IsZombie (mget (mm st') m) = false) by (rewrite Hnew; unfold IsZombie, has_status; cbn; by rewrite Hf).
  assert (Hone : forall k x, x ∈ C S' k <-> (k = c /\ x = m) \/ x ∈ C S k).
  { intros k x. rewrite HC. case_decide as Ek; [subst k; rewrite elem_of_cons; tauto|tauto]. }
  assert (Hne : forall k x, x ∈ C S k -> mget (mm st') x = mget (mm st) x) by (intros k x Hx; apply Hold; intros ->; by apply (Hm k)).
  split; [done|]. split; [|split].
  - intros k Hk. destruct (decide (k = c)) as [->|Hkc]; [exists m; split; [apply Hone; by left|done]|].
    destruct (Ha k) as (x & Hx & Hxz); [by rewrite HC, decide_False in Hk|]. exists x. split; [apply Hone; by right|]. by rewrite (Hne k).
  - intros u' c' z. cbn [op_role]. split.
    + intros (x & [Hx Hxu] & Hxz). apply Hone in Hx as [[-> ->]|Hx].
      * right. rewrite Hnew in Hxu. rewrite Hz in Hxz. done.
      * left. rewrite (Hne c') in Hxu, Hxz by done. by exists x.
    + intros [(x & [Hx Hxu] & Hxz)|(-> & -> & ->)].
      * exists x. unfold on. rewrite (Hne c') by done. split; [|done]. split; [apply Hone; by right|done].
      * exists m. unfold on. rewrite Hnew. split; [|by rewrite <- Hnew]. split; [apply Hone; by left|done].
  - apply known_same; [done| |].
    + intros k. unfold known. rewrite Hch, alter_lookup. case_decide as Ek; [subst k; by rewrite fmap_is_Some|done].
    + intros k (v & z & Hv). exists v, z. by left.
Qed.

Lemma get_post now cptr n create st S : st_ok now st S -> alive (mm st) S -> op_pre MAXCHANNELSPERUSER (Get cptr n create) st S ->
  exists st' S', run_op OPLEVELS MAXCHANNELSPERUSER now (Get cptr n create) st = Some st' /\ op_post now (Get cptr n create) st S st' S'.
Proof.
  intros Hok Ha ([cl Hcl] & Hn & Hne). destruct (get_channel_ok now cptr n create st S cl Hok Hcl Hn Hne) as (st' & r & E & Hok' & Hmm & Hev & Hr).
  exists st', S. cbn [run_op]. rewrite E. cbn [mbind option_bind]. split; [done|]. split; [done|]. split; [by rewrite Hmm|]. split.
  - intros u c z. cbn [op_role]. apply role_ext; [done|]. intros m. by rewrite Hmm.
  - exists (clean cptr cl n). split; [unfold clean; destruct (MyUser cptr cl); auto|]. destruct r as [c|].
    + destruct Hr as [(ch & Hc & Hl & Heq)|(-> & Hc & Hnone & _ & Heq)].
      * left. split; [right; exists c, ch; done|]. intros k. unfold known. by rewrite Heq.
      * right. split; [done|]. split; [intros k (ch & Hk & Hl); by apply (Hnone k ch)|]. exists c. split; [unfold known; by rewrite Hc; intros []|]. split.
        -- eexists. rewrite Heq, lookup_insert_eq. done.
        -- intros k. unfold known. rewrite Heq. destruct (decide (k = c)) as [->|Hk]; [rewrite lookup_insert_eq; naive_solver|].
           rewrite lookup_insert_ne by done. naive_solver.
    + destruct Hr as (-> & Hnone & Heq). left. split; [by left|]. intros k. unfold known. by rewrite Heq.
Qed.

Lemma expire_post now st S : st_ok now st S -> alive (mm st) S ->
  exists st' S', run_op OPLEVELS MAXCHANNELSPERUSER now Expire st = Some st' /\ op_post now Expire st S st' S'.
Proof.
  intros Hok Ha. destruct (exec_expired_all now st S Hok) as (st' & E & Hok' & Hmm & Hk). exists st', S. split; [done|]. split; [done|].
  split; [by rewrite Hmm|]. split.
  - intros u c z. cbn [op_role]. apply role_ext; [done|]. intros m. by rewrite Hmm.
  - intros k. destruct (Hk k) as [H1 H2]. unfold known. split.
    + intros Hs. destruct (channels st !! k) as [ch|] eqn:Ec.
      * split; [done|]. intros Hd. rewrite (H1 Hd) in Hs. by destruct Hs.
      * destruct Hs as [x Hx]. exfalso. assert (Hd : ~ due now st k).
        { intros Hd. by rewrite (H1 Hd) in Hx. }
        specialize (H2 Hd). rewrite Hx in H2. inversion H2.
    + intros [[ch Hc] Hd]. specialize (H2 Hd). rewrite Hc in H2. by inversion H2.
Qed.

(** C1: the channels refine the abstract ones.  From a well-formed state, in
    which no channel is left to its zombies, every operation whose caller has
    done its checks (creating or finding a channel, joining, leaving one or
    all channels, a kick, an invitation, the timer of empty channels) comes to
    an end without following a null or dangling pointer, in a well-formed
    state of the same kind.  Who is on which channel is what the operation
    means: leaving a channel takes everybody off it when only zombies would be
    left, a kicked user stays as a zombie unless it is ours, behind the
    kicker, or nobody else is left.  Only a channel that has just lost its
    last user can go, at once when it need not be kept (no OPLEVELS and no
    admin password) and otherwise once its destruction, then scheduled, is
    due; and a channel is only created when no other has its name, up to
    case. *)
Theorem channels_refine now now' (o : chan_op) st S :
  st_ok now st S -> alive (mm st) S -> now <= now' -> op_pre MAXCHANNELSPERUSER o st S ->
  exists st' S', run_op OPLEVELS MAXCHANNELSPERUSER now' o st = Some st' /\ op_post now' o st S st' S'.
Proof.
  intros Hok0 Ha Hle Hpre. assert (Hok : st_ok now' st S) by (by eapply st_ok_later). clear Hok0 Hle now.
  destruct o as [cptr n create|c u flags lvl|u c|u|me m who cptr sptr c|u c|u c|].
  - by apply get_post.
  - by apply join_post.
  - by apply part_post.
  - by apply quit_post.
  - by apply kick_post.
  - destruct Hpre as (Hmax & [ch Hc] & cl & Hu & Hh).
    destruct (add_invite_ok now' MAXCHANNELSPERUSER c u st S ch cl Hok Hc Hu Hh Hmax) as (st' & E & Ht & Hi & _).
    exists st', S. split; [done|]. by apply same_post.
  - destruct Hpre as ([ch Hc] & cl & Hu & Hh).
    destruct (del_invite_ok u c st ch cl (so_invites _ _ _ _ Hok) Hc Hu Hh) as (st' & n & E & Ht & Hi & _).
    exists st', S. split; [done|]. by apply same_post.
  - by apply expire_post.
Qed.
End theorem.

(** ** A concrete run *)
Definition ex_user (self srv : ptr) (nick : string) : Client :=
  {| cli_status := STAT_USER; cli_from := self; cli_server := srv; cli_up := 1%positive; has_user := true; chserv := false;
     oper := false; ssl := false; away := false;
     names := {| bc_name := str nick; bc_username := str "u"; bc_host := str "h.org"; bc_realhost := str "h.org";
                 bc_ip := zero_addr; bc_account := None; bc_hidden := false |};
     joined := 0; invited := []; n_invites := 0 |}.

Definition ex_server (status : Z) (self up : ptr) : Client :=
  {| cli_status := status; cli_from := self; cli_server := self; cli_up := up; has_user := false; chserv := false;
     oper := false; ssl := false; away := false; names := names (ex_user self self "");
     joined := 0; invited := []; n_invites := 0 |}.

(** This server (1), two of our users (2 and 3), a server (4) and a user of a
    server behind it (5, on 6). *)
Definition ex_clients : gmap ptr Client :=
  list_to_map [(1, ex_server STAT_ME 1 1); (2, ex_user 2 1 "ann"); (3, ex_user 3 1 "bob"); (4, ex_server STAT_SERVER 4 1);
               (5, ex_user 4 6 "eve"); (6, ex_server STAT_SERVER 4 4)]%positive.

Definition ex_state : state chan_table :=
  mk_state empty_matrix ∅ ex_clients ∅ ∅ None (Hash.crc_table, Hash.empty_table) 0 no_events
    {| free_bans := 0; bans_alloc := 0; bans_inuse := 0 |} [].

Lemma ex_state_ok now : st_ok now ex_state empty_shape.
Proof.
  assert (Hcl : forall u cl, ex_clients !! u = Some cl -> joined cl = 0 /\ invited cl = [] /\ n_invites cl = 0).
  { intros u cl Hu. apply elem_of_list_to_map_2 in Hu. repeat (apply elem_of_cons in Hu as [[= -> ->]|Hu]; [done|]).
    by apply elem_of_nil in Hu. }
  split; cbn; try (intros; by rewrite ?lookup_empty in * || done).
  - apply empty_matrix_ok.
  - intros c m Hm. by apply elem_of_nil in Hm.
  - intros u cl Hu. destruct (Hcl u cl Hu) as (-> & _). done.
  - intros u m Hm. by apply elem_of_nil in Hm.
  - split; try (intros; by rewrite ?lookup_empty in *).
    + intros u cl c Hu Hc. destruct (Hcl u cl Hu) as (_ & E & _). rewrite E in Hc. by apply elem_of_nil in Hc.
    + intros u cl Hu. destruct (Hcl u cl Hu) as (_ & -> & ->). split_and!; [constructor|done|done].
  - exists []. split_and!; [done|constructor| |done]. intros c. split; [by intros ?%elem_of_nil|by intros [? ?]].
  - eapply hash_ext_ok; [..|apply empty_hash_ok with (name := fun _ => [])]; [|done]. intros c. split; [done|by intros [? ?]].
  - exists (fun _ => []). split; [apply no_events_rep|]. intros d. constructor.
Qed.

Lemma channels_refine_witness :
  st_ok 0 ex_state empty_shape /\ alive (mm ex_state) empty_shape /\ 0 <= 5 /\
  op_pre 10 (Get 2 (str "#irc") true) ex_state empty_shape /\
  exists st' S', run_op true 10 5 (Get 2 (str "#irc") true) ex_state = Some st' /\
    op_post true 5 (Get 2 (str "#irc") true) ex_state empty_shape st' S'.
Proof.
  assert (H1 : st_ok 0 ex_state empty_shape) by apply ex_state_ok.
  assert (H2 : alive (mm ex_state) empty_shape) by (intros c Hc; by destruct Hc).
  assert (H3 : op_pre 10 (Get 2 (str "#irc") true) ex_state empty_shape).
  { split; [by eexists|]. split; [by repeat constructor|done]. }
  split; [exact H1|]. split; [exact H2|]. split; [lia|]. split; [exact H3|].
  apply (channels_refine true 10 0 5 (Get 2 (str "#irc") true) ex_state empty_shape H1 H2); [lia|exact H3].
Defined.

Fixpoint run_ops (oplevels : bool) (l : list (Z * chan_op)) (st : state chan_table) : option (state chan_table) :=
  match l with
  | [] => Some st
  | (now, o) :: l => st ← run_op oplevels 10 now o st; run_ops oplevels l st
  end.

(** The users of each channel, with their flags. *)
Definition show (st : state chan_table) : list (cstring * Z * option (list (ptr * Z))) :=
  map (fun c => (chname c.2, users c.2,
    map (fun m => (user (mget (mm st) m), status (mget (mm st) m))) <$> members_of (mm st) c.1)) (map_to_list (channels st)).

Definition ex_start : list (Z * chan_op) :=
  [(5, Get 2 (str "#irc") true); (5, Join 1 2 CHFL_CHANOP 0); (6, Get 3 (str "#IRC") true); (6, Join 1 3 0 0); (7, Join 1 5 0 0)].

(** A remote user who is kicked by one of ours stays as a zombie, and goes
    with the last user; the channel goes a minute later. *)
Example kick_remote : show <$> run_ops true (ex_start ++ [(8, Kick 1 3 5 2 2 1)]) ex_state =
  Some [(str "#irc", 3, Some [(5%positive, CHFL_ZOMBIE); (3%positive, 0); (2%positive, CHFL_CHANOP)])].
Proof. vm_compute. reflexivity. Qed.

Example zombies_go : show <$> run_ops true (ex_start ++ [(8, Kick 1 3 5 2 2 1); (9, Quit 2); (9, Part 3 1)]) ex_state =
  Some [(str "#irc", 0, Some [])].
Proof. vm_compute. reflexivity. Qed.

Example empty_goes :
  show <$> run_ops true (ex_start ++ [(8, Kick 1 3 5 2 2 1); (9, Quit 2); (9, Part 3 1); (69, Expire)]) ex_state = Some [].
Proof. vm_compute. reflexivity. Qed.

(** Without OPLEVELS it goes at once. *)
Example empty_goes_now :
  show <$> run_ops false (ex_start ++ [(8, Kick 1 3 5 2 2 1); (9, Quit 2); (9, Part 3 1)]) ex_state = Some [].
Proof. vm_compute. reflexivity. Qed.

(** No client that is registered passes for one from a web gateway, so that
    [MODE_MSGNONWEB] is [MODE_MODERATENOREG] under another name. *)
Lemma msgnonweb_is_moderatenoreg cl : IsUser cl = true -> IsWebircPort cl = false.
Proof. unfold IsUser, IsWebircPort. intros H. apply Z.eqb_eq in H. by rewrite H. Qed.

(** With [MAXCHANNELSPERUSER] 0, the first invitation follows a null pointer. *)
Example invite_none_allowed :
  (run_op true 0 5 (Get 2 (str "#irc") true) ex_state ≫= fun st => run_op (T := chan_table) true 0 5 (Invite 3 1) st) = None.
Proof. vm_compute. reflexivity. Qed.



(** *** States to apply theorems to *)

(** A channel with nobody on it. *)
Definition ex_chan : state chan_table :=
  match run_op true 10 5 (Get 2 (str "#irc") true) ex_state with Some st => st | None => ex_state end.

Lemma ex_chan_ok : st_ok 5 ex_chan empty_shape /\ mm ex_chan = empty_matrix.
Proof.
  destruct (get_channel_ok 5 2 (str "#irc") true ex_state empty_shape (ex_user 2 1 "ann") (ex_state_ok 5)) as (st' & r & E & Hok & Hmm & _);
    [done|by repeat constructor|done|].
  assert (ex_chan = st') as ->; [|by split]. unfold ex_chan. cbn [run_op]. by rewrite E.
Qed.

Definition ex_irc : Channel := new_channel (str "#irc") 5.

Lemma ex_chan_channels : channels ex_chan = {[1%positive := ex_irc]}.
Proof. vm_compute. reflexivity. Qed.

(** bob is on it. *)
Definition ex_one : state chan_table := match add_user_to_channel 1 3 0 0 ex_chan with Some st => st | None => ex_chan end.
(** bob and eve are. *)
Definition ex_pair : state chan_table := match add_user_to_channel 1 5 0 0 ex_one with Some st => st | None => ex_one end.

Lemma ex_pair_ok : exists S m1 m2, st_ok 5 ex_pair S /\ C S 1%positive = [m2; m1] /\
  mget (mm ex_pair) m1 = {| user := 3; channel := 1; status := 0; oplevel := 0 |} /\
  mget (mm ex_pair) m2 = {| user := 5; channel := 1; status := 0; oplevel := 0 |}.
Proof.
  destruct ex_chan_ok as [Hok _]. pose proof ex_chan_channels as Hch.
  destruct (add_user_ok 5 1 3 0 0 ex_chan empty_shape ex_irc (ex_user 3 1 "bob") Hok) as (st1 & S1 & m1 & E1 & Hok1 & HC1 & _ & Hm1 & _ & _ & _ & Hch1);
    [by rewrite Hch, lookup_singleton_eq|vm_compute; reflexivity|done|done|done|intros m [Hm _]; by apply elem_of_nil in Hm|done|done|].
  assert (st1 = ex_one) as -> by (unfold ex_one; by rewrite E1).
  assert (HC1' : C S1 1%positive = [m1]) by (rewrite HC1; done).
  destruct (add_user_ok 5 1 5 0 0 ex_one S1 (with_users 1 ex_irc) (ex_user 4 6 "eve") Hok1) as (st2 & S2 & m2 & E2 & Hok2 & HC2 & Hn2 & Hm2 & Ho2 & _).
  - rewrite Hch1, lookup_alter_eq, Hch, lookup_singleton_eq. done.
  - vm_compute. reflexivity.
  - done.
  - done.
  - done.
  - intros m [Hm Hu]. rewrite HC1' in Hm. apply list_elem_of_singleton in Hm as ->. by rewrite Hm1 in Hu.
  - unfold count. by rewrite HC1'.
  - done.
  - assert (st2 = ex_pair) as -> by (unfold ex_pair; by rewrite E2). exists S2, m1, m2. split_and!; [done|rewrite HC2; cbn; by rewrite HC1'| |done].
    rewrite Ho2; [done|]. intros ->. apply (Hn2 1%positive). rewrite HC1'. left.
Qed.
