(* ===== verification/Speak.v ===== *)
(** * Who may speak on a channel ([ircd/channel.c])

    [is_banned] keeps its answer in two flags of the membership, until
    [mode_ban_invalidate] clears one of them.  [client_can_send_to_channel]
    is right about the bans as long as these answers are. *)
From S2P Require Import Prelude Chattr Strings Chain Dlist Destruct Members ChanTable IpText Bans Channel.
From stdpp Require Import options.
Open Scope Z_scope.

(** Flags of one bit. *)
Lemma flag_bit s k : 0 <= k -> negb (Z.land s (2 ^ k) =? 0) = Z.testbit s k.
Proof.
  intros Hk. destruct (Z.testbit s k) eqn:E.
  - apply negb_true_iff, Z.eqb_neq. intros H. apply (f_equal (fun z => Z.testbit z k)) in H.
    by rewrite Z.land_spec, E, Z.pow2_bits_true, Z.bits_0 in H.
  - apply negb_false_iff, Z.eqb_eq. apply Z.bits_inj'. intros n Hn. rewrite Z.land_spec, Z.bits_0, Z.pow2_bits_eqb by done.
    destruct (Z.eqb_spec k n) as [->|]; [by rewrite E|by rewrite andb_false_r].
Qed.

Lemma valid_bit (m : Membership) : IsBanValid m = Z.testbit (status m) 11.
Proof. by apply (flag_bit _ 11). Qed.
Lemma banned_bit (m : Membership) : IsBanned m = Z.testbit (status m) 12.
Proof. by apply (flag_bit _ 12). Qed.

Lemma set_bit s k j : 0 <= k -> 0 <= j -> Z.testbit (Z.lor s (2 ^ k)) j = Z.testbit s j || (k =? j).
Proof. intros. by rewrite Z.lor_spec, Z.pow2_bits_eqb. Qed.
Lemma clear_bit s k j : 0 <= k -> 0 <= j -> Z.testbit (Z.ldiff s (2 ^ k)) j = Z.testbit s j && negb (k =? j).
Proof. intros. by rewrite Z.ldiff_spec, Z.pow2_bits_eqb. Qed.

Section speak.
Context {T : Type} `{ChannelTableLaws T} (HIDDEN_HOST : cstring).
Implicit Types st : state T.

(** The answers that are kept are right. *)
Definition cache_ok st (S : shape) : Prop := forall c m ch cl r,
  m ∈ C S c -> channels st !! c = Some ch -> clients st !! user (mget (mm st) m) = Some cl ->
  IsBanValid (mget (mm st) m) = true -> find_ban HIDDEN_HOST (names cl) (banlist ch) = Some r ->
  IsBanned (mget (mm st) m) = if r is Some _ then true else false.

(** No ban makes the comparison read past its end. *)
Definition bans_ok st : Prop := forall c u ch cl, channels st !! c = Some ch -> clients st !! u = Some cl ->
  is_Some (find_ban HIDDEN_HOST (names cl) (banlist ch)).

Definition banned (cl : Client) (ch : Channel) : bool :=
  match find_ban HIDDEN_HOST (names cl) (banlist ch) with Some (Some _) => true | _ => false end.

(** The answer that the code computes. *)
Definition speaks (u : ptr) (cl : Client) (ch : Channel) (m : option Membership) : bool :=
  match m with
  | None => negb (has_mode MODE_NOPRIVMSGS ch) && negb (has_mode MODE_MODERATED ch) && negb (restricted cl ch) && negb (banned cl ch)
  | Some m =>
      negb (MyUser u cl) ||
      negb (IsChannelManager m && negb (bool_decide (apass (cmode ch) = []))) &&
        (IsVoicedOrOpped m || negb (has_mode MODE_MODERATED ch) && negb (restricted cl ch) && negb (banned cl ch))
  end.

(** *** The rules, mode by mode

    Mode [k] is bit [k] of the modes of the channel. *)
Definition plus_mode (k : Z) (ch : Channel) : Prop := Z.testbit (mode (cmode ch)) k = true.
Definition logged_in (cl : Client) : Prop := bc_account (names cl) <> None.

(** What a client without voice or ops needs, on the channel or not:
    +m (bit 4) closes the channel; +M (25), +R (11) and +W (28) ask for an
    account, which +W does not ask of a connection from a web gateway that has
    not registered yet; +O (24) asks for an IRC operator, +Z (23) for a
    connection with SSL; and no ban may apply. *)
Definition unhindered (cl : Client) (ch : Channel) : Prop :=
  ~ plus_mode 4 ch /\
  (plus_mode 25 ch -> logged_in cl) /\
  (plus_mode 28 ch -> logged_in cl \/ cli_status cl = STAT_WEBIRC) /\
  (plus_mode 24 ch -> oper cl = true) /\
  (plus_mode 23 ch -> ssl cl = true) /\
  (plus_mode 11 ch -> logged_in cl) /\
  find_ban HIDDEN_HOST (names cl) (banlist ch) = Some None.

(** The rules, for a client that is not a server or a channel service.  Out
    of the channel, +n (bit 7) closes it too.  On the channel, a user of ours
    who is there as the manager (bit 16 of the membership) does not speak when
    the channel has an admin password; otherwise ops (bit 0) or voice (bit 1)
    are enough.  A user of another server is not checked again. *)
Definition may_speak (u : ptr) (cl : Client) (ch : Channel) (m : option Membership) : Prop :=
  match m with
  | None => ~ plus_mode 7 ch /\ unhindered cl ch
  | Some m =>
      ~ (cli_from cl = u /\ cli_status cl = STAT_USER) \/
      ~ (Z.testbit (status m) 16 = true /\ apass (cmode ch) <> []) /\
        (Z.testbit (status m) 0 = true \/ Z.testbit (status m) 1 = true \/ unhindered cl ch)
  end.

Lemma mode_bit k ch : 0 <= k -> has_mode (2 ^ k) ch = Z.testbit (mode (cmode ch)) k.
Proof. apply flag_bit. Qed.

Lemma voiced_bits (m : Membership) : IsVoicedOrOpped m = Z.testbit (status m) 0 || Z.testbit (status m) 1.
Proof.
  unfold IsVoicedOrOpped, has_status. change CHFL_VOICED_OR_OPPED with (Z.lor (2 ^ 0) (2 ^ 1)). rewrite Z.land_lor_distr_r.
  rewrite <- (flag_bit _ 0), <- (flag_bit _ 1) by done. destruct (Z.eqb_spec (Z.land (status m) (2 ^ 0)) 0) as [->|Hne]; [done|].
  apply negb_true_iff, Z.eqb_neq. intros E. by apply Z.lor_eq_0_iff in E as [? _].
Qed.

Lemma account_iff cl : IsAccount cl = true <-> logged_in cl.
Proof. unfold IsAccount, logged_in. by destruct (bc_account _). Qed.

Lemma unhindered_iff cl ch : is_Some (find_ban HIDDEN_HOST (names cl) (banlist ch)) ->
  negb (has_mode MODE_MODERATED ch) && negb (restricted cl ch) && negb (banned cl ch) = true <-> unhindered cl ch.
Proof.
  intros [b Hb]. unfold unhindered, restricted, plus_mode, banned. rewrite Hb, <- account_iff.
  change MODE_MODERATED with (2 ^ 4). change MODE_MODERATENOREG with (2 ^ 25). change MODE_MSGNONWEB with (2 ^ 28).
  change MODE_OPERONLY with (2 ^ 24). change MODE_SSLONLY with (2 ^ 23). change MODE_REGONLY with (2 ^ 11).
  rewrite !mode_bit by done. unfold IsWebircPort. pose proof (Z.eqb_eq (cli_status cl) STAT_WEBIRC) as Hw.
  destruct (cli_status cl =? STAT_WEBIRC), (Z.testbit _ 4), (Z.testbit _ 25), (Z.testbit _ 28), (Z.testbit _ 24), (Z.testbit _ 23), (Z.testbit _ 11),
    (IsAccount cl), (oper cl), (ssl cl), b; cbn; intuition congruence.
Qed.

Lemma speaks_iff u cl ch m : is_Some (find_ban HIDDEN_HOST (names cl) (banlist ch)) -> speaks u cl ch m = true <-> may_speak u cl ch m.
Proof.
  intros Hb. pose proof (unhindered_iff cl ch Hb) as Hu. unfold speaks, may_speak. destruct m as [m|].
  - unfold MyUser, IsUser, IsChannelManager, has_status. rewrite <- Hu, voiced_bits. change CHFL_CHANNEL_MANAGER with (2 ^ 16).
    rewrite flag_bit by done. pose proof (Z.eqb_eq (cli_status cl) STAT_USER) as Hs.
    destruct (bool_decide_reflect (cli_from cl = u)), (cli_status cl =? STAT_USER), (bool_decide_reflect (apass (cmode ch) = [])), (Z.testbit _ 16),
      (Z.testbit _ 0), (Z.testbit _ 1), (_ && _ && _); cbn; intuition congruence.
  - rewrite <- Hu. unfold plus_mode. change MODE_NOPRIVMSGS with (2 ^ 7). rewrite mode_bit by done.
    destruct (Z.testbit _ 7), (has_mode _ _), (restricted _ _), (banned _ _); cbn; intuition congruence.
Qed.
End speak.

Section speaking.
Context {T : Type} `{ChannelTableLaws T} (HIDDEN_HOST : cstring).
Implicit Types st : state T.

Lemma mark_get f m st x : m ∈ dom (memb (mm st)) ->
  mget (mm (mark_member f m st)) x =
    {| user := user (mget (mm st) x); channel := channel (mget (mm st) x);
       status := if decide (x = m) then f (status (mget (mm st) x)) else status (mget (mm st) x); oplevel := oplevel (mget (mm st) x) |}.
Proof.
  intros Hm. destruct (upd_status_get f m (mm st) x) as (E1 & E2 & E3 & E4 & _).
  destruct (upd_status_get f m (mm st) m) as (_ & _ & _ & _ & E5). cbn.
  destruct (mget (upd_status f m (mm st)) x) as [u c s l] eqn:E. cbn in *. subst. f_equal. case_decide as Ex; [|by apply E4].
  subst x. rewrite E in E5. by apply E5.
Qed.

(** The flags that say nothing of a ban. *)
Definition agree (m m' : Membership) : Prop :=
  user m' = user m /\ channel m' = channel m /\ oplevel m' = oplevel m /\
  forall k, 0 <= k -> k <> 11 -> k <> 12 -> Z.testbit (status m') k = Z.testbit (status m) k.

Lemma agree_refl m : agree m m.
Proof. done. Qed.

Lemma agree_trans a b c : agree a b -> agree b c -> agree a c.
Proof.
  intros (A1 & A2 & A3 & A4) (B1 & B2 & B3 & B4). split_and!; [congruence..|]. intros k Hk H1 H2. by rewrite B4, A4.
Qed.

Lemma mark_agree f m st x : m ∈ dom (memb (mm st)) ->
  (forall s k, 0 <= k -> k <> 11 -> k <> 12 -> Z.testbit (f s) k = Z.testbit s k) -> agree (mget (mm st) x) (mget (mm (mark_member f m st)) x).
Proof. intros Hm Hf. rewrite mark_get by done. split_and!; try done. cbn. intros k Hk H1 H2. case_decide; [by apply Hf|done]. Qed.

Lemma is_banned_ok now st S m c ch cl r :
  st_ok now st S -> cache_ok HIDDEN_HOST st S -> m ∈ C S c -> channels st !! c = Some ch ->
  clients st !! user (mget (mm st) m) = Some cl -> find_ban HIDDEN_HOST (names cl) (banlist ch) = Some r ->
  exists st', is_banned HIDDEN_HOST m st = Some (st', banned HIDDEN_HOST cl ch) /\ st_ok now st' S /\ cache_ok HIDDEN_HOST st' S /\
    channels st' = channels st /\ clients st' = clients st /\ forall x, agree (mget (mm st) x) (mget (mm st') x).
Proof.
  intros Hok Hca Hm Hc Hu Hr. destruct (in_c _ _ _ _ _ Hok Hm) as [[Hd _] Hch]. unfold is_banned, banned. rewrite Hr.
  destruct (IsBanValid (mget (mm st) m)) eqn:Ev.
  - rewrite (Hca c m ch cl r) by done. exists st. split; [by destruct r|]. split_and!; try done.
  - set (st1 := mark_member _ m st). assert (Hd1 : m ∈ dom (memb (mm st1))) by (unfold st1; cbn; by rewrite dom_alter_L).
    assert (G1 : forall x, mget (mm st1) x = _) by (intros x; by apply mark_get).
    rewrite G1. cbn [user channel]. rewrite Hch. change (clients st1) with (clients st). change (channels st1) with (channels st).
    rewrite Hu. cbn [mbind option_bind]. rewrite Hc. cbn [mbind option_bind]. rewrite Hr. cbn [mbind option_bind].
    set (g := fun s => if r is Some _ then Z.lor s CHFL_BANNED else Z.ldiff s CHFL_BANNED).
    assert (Hg : forall s k, 0 <= k -> Z.testbit (g s) k = if decide (k = 12) then (if r is Some _ then true else false) else Z.testbit s k).
    { intros s k Hk. unfold g. change CHFL_BANNED with (2 ^ 12). destruct r.
      - rewrite set_bit by lia. case_decide as E; [subst k; by rewrite orb_true_r|]. destruct (Z.eqb_spec 12 k); [congruence|by rewrite orb_false_r].
      - rewrite clear_bit by lia. case_decide as E; [subst k; by rewrite andb_false_r|]. destruct (Z.eqb_spec 12 k); [congruence|by rewrite andb_true_r]. }
    exists (mark_member g m st1). split; [by destruct r|].
    assert (G2 : forall x, agree (mget (mm st) x) (mget (mm (mark_member g m st1)) x)).
    { intros x. eapply agree_trans; apply mark_agree; [done| |done|].
      - intros s k Hk H1 H2. cbn beta. change CHFL_BANVALID with (2 ^ 11). rewrite set_bit by lia. destruct (Z.eqb_spec 11 k); [congruence|by rewrite orb_false_r].
      - intros s k Hk H1 H2. rewrite Hg by done. by rewrite decide_False. }
    split; [by do 2 apply mark_ok|]. split; [|done].
    intros c' x ch' cl' r' Hx Hc' Hu' Hv Hr'. change (channels st !! c' = Some ch') in Hc'. change (clients (mark_member g m st1)) with (clients st) in Hu'.
    rewrite banned_bit. rewrite valid_bit in Hv. rewrite mark_get, G1 in Hu', Hv |- * by done. cbn [user channel status oplevel] in *.
    destruct (decide (x = m)) as [->|Hne].
    + rewrite Hg by lia. rewrite decide_True by done. assert (c' = c) as -> by (destruct (in_c _ _ _ _ _ Hok Hx) as [_ <-]; done).
      assert (ch' = ch) as -> by congruence. assert (cl' = cl) as -> by congruence. by assert (r' = r) as -> by congruence.
    + rewrite <- banned_bit. apply (Hca c' x ch' cl' r'); [done..|by rewrite valid_bit|done].
Qed.

(** What the answers depend on. *)
Lemma cache_frame st st' S :
  (forall x, user (mget (mm st') x) = user (mget (mm st) x) /\
     forall k, k = 11 \/ k = 12 -> Z.testbit (status (mget (mm st') x)) k = Z.testbit (status (mget (mm st) x)) k) ->
  clients st' = clients st ->
  (forall c ch', channels st' !! c = Some ch' -> exists ch, channels st !! c = Some ch /\ banlist ch' = banlist ch) ->
  cache_ok HIDDEN_HOST st S -> cache_ok HIDDEN_HOST st' S.
Proof.
  intros Hx Hcl Hch Hca c x ch' cl r Hin Hc Hu Hv Hr. destruct (Hx x) as [E1 E2]. rewrite E1, Hcl in Hu.
  destruct (Hch c ch' Hc) as (ch & Hc0 & Eb). rewrite Eb in Hr. rewrite banned_bit, E2 by auto. rewrite valid_bit, E2 in Hv by auto.
  rewrite <- banned_bit. apply (Hca c x ch cl r); try done. by rewrite valid_bit.
Qed.

(** Showing a hidden user. *)
Lemma reveal_ok now st S m c ch cl : st_ok now st S -> cache_ok HIDDEN_HOST st S -> m ∈ C S c -> channels st !! c = Some ch ->
  clients st !! user (mget (mm st) m) = Some cl ->
  exists st', RevealDelayedJoin m st = Some st' /\ st_ok now st' S /\ cache_ok HIDDEN_HOST st' S.
Proof.
  intros Hok Hca Hm Hc Hu. destruct (in_c _ _ _ _ _ Hok Hm) as [[Hd _] Hch]. unfold RevealDelayedJoin. rewrite Hu, Hch. cbn [mbind option_bind].
  set (f := fun s => Z.ldiff s CHFL_DELAYED). set (st1 := send (mark_member f m st) _).
  assert (Hok1 : st_ok now st1 S) by (apply (st_ok_touched now (mark_member f m st)); [by apply mark_ok|apply touched_send|apply Hok]).
  assert (Hca1 : cache_ok HIDDEN_HOST st1 S).
  { apply (cache_frame st); [|done| |done].
    - intros x. change (mm st1) with (mm (mark_member f m st)). rewrite mark_get by done. split; [done|]. cbn. intros k Hk. case_decide; [|done].
      unfold f. change CHFL_DELAYED with (2 ^ 18). rewrite clear_bit by lia. destruct (Z.eqb_spec 18 k); [lia|by rewrite andb_true_r].
    - intros c' ch' Hc'. by exists ch'. }
  unfold CheckDelayedJoins, find_delayed_joins. rewrite (members_of_ok (mm st1) S) by apply Hok1. change (channels st1) with (channels st).
  rewrite Hc. cbn [mbind option_bind]. destruct (_ =? 0); [by exists st1|]. destruct (existsb _ _); [by exists st1|].
  eexists. split; [done|]. split.
  - eapply st_ok_touched; [exact Hok1| |].
    + etransitivity; [|apply touched_send]. by apply touched_upd_channel.
    + cbn. apply inv_ok_upd; [done|apply Hok].
  - apply (cache_frame st1); [done|done| |done]. intros c' ch'. cbn. rewrite alter_lookup. case_decide as E; [subst c'|intros Hc'; by exists ch'].
    rewrite Hc. intros [= <-]. by exists ch.
Qed.

Lemma reveal_if_ok now st S reveal m c ch cl : st_ok now st S -> cache_ok HIDDEN_HOST st S -> m ∈ C S c -> channels st !! c = Some ch ->
  clients st !! user (mget (mm st) m) = Some cl ->
  exists st', reveal_if reveal m st = Some st' /\ st_ok now st' S /\ cache_ok HIDDEN_HOST st' S.
Proof.
  intros Hok Hca Hm Hc Hu. unfold reveal_if. destruct (_ && _); [by eapply reveal_ok|by exists st].
Qed.

Lemma member_can_send_ok now st S reveal m u c ch cl : st_ok now st S -> cache_ok HIDDEN_HOST st S -> bans_ok HIDDEN_HOST st ->
  on (mm st) S u c m -> channels st !! c = Some ch -> clients st !! u = Some cl ->
  exists st', member_can_send_to_channel HIDDEN_HOST m reveal st = Some (st', speaks HIDDEN_HOST u cl ch (Some (mget (mm st) m))) /\
    st_ok now st' S /\ cache_ok HIDDEN_HOST st' S.
Proof.
  intros Hok Hca Hb [Hm Hmu] Hc Hu. destruct (in_c _ _ _ _ _ Hok Hm) as [_ Hch]. unfold member_can_send_to_channel, speaks.
  rewrite Hmu, Hu, Hch. cbn [mbind option_bind]. destruct (MyUser u cl); cbn [negb orb].
  2: { rewrite <- Hmu in Hu. destruct (reveal_if_ok now st S reveal m c ch cl) as (st' & -> & ? & ?); try done. cbn. by exists st'. }
  rewrite Hc. cbn [mbind option_bind]. destruct (IsChannelManager _ && _); [by exists st|]. cbn [negb andb].
  destruct (IsVoicedOrOpped _); [by exists st|]. cbn [orb]. destruct (has_mode MODE_MODERATED ch); [by exists st|]. cbn [negb andb].
  destruct (restricted cl ch); [by exists st|]. cbn [negb andb]. destruct (Hb c u ch cl Hc Hu) as [r Hr]. rewrite <- Hmu in Hu.
  destruct (is_banned_ok now st S m c ch cl r Hok Hca Hm Hc Hu Hr) as (st1 & -> & Hok1 & Hca1 & Ech & Ecl & Hag). cbn [mbind option_bind].
  destruct (banned HIDDEN_HOST cl ch); [by exists st1|]. cbn [negb]. destruct (Hag m) as (Eu & _).
  destruct (reveal_if_ok now st1 S reveal m c ch cl) as (st' & -> & ? & ?); [done|done|done|by rewrite Ech|by rewrite Ecl, Eu|]. cbn. by exists st'.
Qed.

(** Changing the list of bans. *)
Lemma foldl_marks f l : forall st x, (forall m, m ∈ l -> m ∈ dom (memb (mm st))) ->
  let st' := foldl (fun st m => mark_member f m st) st l in
  channels st' = channels st /\ clients st' = clients st /\ user (mget (mm st') x) = user (mget (mm st) x) /\
  (x ∉ l -> status (mget (mm st') x) = status (mget (mm st) x)) /\
  (x ∈ l -> exists s, status (mget (mm st') x) = f s) /\ (forall now S, st_ok now st S -> st_ok now st' S).
Proof.
  induction l as [|m l IH]; intros st x Hd; cbn [foldl].
  - split_and!; try done. by intros ?%elem_of_nil.
  - assert (Hd1 : forall y, y ∈ l -> y ∈ dom (memb (mm (mark_member f m st)))) by (intros y Hy; cbn; rewrite dom_alter_L; apply Hd; by right).
    destruct (IH (mark_member f m st) x Hd1) as (E1 & E2 & E3 & E4 & E5 & E6). rewrite mark_get in E3, E4 by (apply Hd; left). cbn in E3, E4.
    split_and!; [by rewrite E1|by rewrite E2|done| | |].
    + intros Hx. apply not_elem_of_cons in Hx as [Hxm Hx]. rewrite E4 by done. by rewrite decide_False.
    + intros Hx. destruct (decide (x ∈ l)) as [Hl|Hl]; [by apply E5|]. apply elem_of_cons in Hx as [->|]; [|done].
      rewrite E4, decide_True by done. by eexists.
    + intros now S Hok. by apply E6, mark_ok.
Qed.

Lemma invalidate_ok now st S c f : st_ok now st S -> cache_ok HIDDEN_HOST st S ->
  (forall ch, channels st !! c = Some ch -> same_ch ch (f ch) /\ invites (f ch) = invites ch) ->
  exists st', mode_ban_invalidate c (upd_channel f c st) = Some st' /\ st_ok now st' S /\ cache_ok HIDDEN_HOST st' S /\
    channels st' = alter f c (channels st) /\ clients st' = clients st.
Proof.
  intros Hok Hca Hf. set (st1 := upd_channel f c st).
  assert (Hok1 : st_ok now st1 S).
  { eapply st_ok_touched; [exact Hok|apply touched_upd_channel; intros ch Hc; by apply Hf|]. cbn. apply inv_ok_upd; [|apply Hok]. intros ch Hc. by apply Hf. }
  unfold mode_ban_invalidate. rewrite (members_of_ok (mm st1) S) by apply Hok1. cbn [mbind option_bind]. eexists. split; [done|].
  set (g := fun s => Z.ldiff s CHFL_BANVALID).
  assert (Hdom : forall m, m ∈ C S c -> m ∈ dom (memb (mm st1))) by (intros m Hm; destruct (in_c _ _ _ _ _ Hok1 Hm) as [[? _] _]; done).
  pose proof (fun x => foldl_marks g (C S c) st1 x Hdom) as HF. destruct (HF 1%positive) as (E1 & E2 & _ & _ & _ & E6).
  split; [by apply E6|]. split; [|by rewrite E1, E2].
  intros c' x ch' cl r Hx Hc Hu Hv Hr. destruct (HF x) as (_ & _ & E3 & E4 & E5 & _). rewrite E1 in Hc. rewrite E2, E3 in Hu.
  destruct (decide (c' = c)) as [->|Hne].
  - exfalso. destruct (E5 Hx) as [s Es]. rewrite valid_bit, Es in Hv. unfold g in Hv. change CHFL_BANVALID with (2 ^ 11) in Hv.
    rewrite clear_bit in Hv by lia. by rewrite andb_false_r in Hv.
  - assert (Hxc : x ∉ C S c).
    { intros Hin. destruct (in_c _ _ _ _ _ Hok Hx) as [_ <-]. by destruct (in_c _ _ _ _ _ Hok Hin) as [_ ?]. }
    rewrite valid_bit, E4 in Hv by done. rewrite banned_bit, E4 by done. cbn in Hc. rewrite lookup_alter_ne in Hc by done.
    rewrite <- banned_bit. apply (Hca c' x ch' cl r); try done. by rewrite valid_bit.
Qed.

Lemma can_send_ok now st S u c reveal ch cl :
  st_ok now st S -> cache_ok HIDDEN_HOST st S -> bans_ok HIDDEN_HOST st -> channels st !! c = Some ch -> clients st !! u = Some cl ->
  IsServer cl || IsMe cl || has_user cl = true ->
  exists st' b, client_can_send_to_channel HIDDEN_HOST u c reveal st = Some (st', b) /\ st_ok now st' S /\ cache_ok HIDDEN_HOST st' S /\
    (IsServer cl || chserv cl = true -> b = true) /\
    (IsServer cl || chserv cl = false ->
       (forall m, on (mm st) S u c m -> IsZombie (mget (mm st) m) = false -> b = speaks HIDDEN_HOST u cl ch (Some (mget (mm st) m))) /\
       ((forall m, on (mm st) S u c m -> IsZombie (mget (mm st) m) = true) -> b = speaks HIDDEN_HOST u cl ch None)).
Proof.
  intros Hok Hca Hb Hc Hu Hh.
  unfold client_can_send_to_channel, find_channel_member. rewrite Hu. cbn [mbind option_bind].
  destruct (IsServer cl || chserv cl); [exists st, true; by split_and!|].
  destruct (find_member_link_ok now st S c u cl Hok Hu Hh) as (r & -> & Hr). cbn [mbind option_bind].
  assert (Hout : exists st' b, (ch0 ← channels st !! c;
      if has_mode (Z.lor MODE_NOPRIVMSGS MODE_MODERATED) ch0 || restricted cl ch0 then Some (st, false)
      else b ← find_ban HIDDEN_HOST (names cl) (banlist ch0); Some (st, if b is Some _ then false else true)) = Some (st', b) /\
      st' = st /\ b = speaks HIDDEN_HOST u cl ch None).
  { rewrite Hc. cbn [mbind option_bind]. destruct (Hb c u ch cl Hc Hu) as [rb Hrb]. unfold speaks, banned. rewrite Hrb. cbn [mbind option_bind].
    assert (has_mode (Z.lor MODE_NOPRIVMSGS MODE_MODERATED) ch = has_mode MODE_NOPRIVMSGS ch || has_mode MODE_MODERATED ch) as ->.
    { unfold has_mode. rewrite Z.land_lor_distr_r, <- negb_andb. f_equal. destruct (Z.eqb_spec (Z.land (mode (cmode ch)) MODE_NOPRIVMSGS) 0) as [->|Hne]; [done|].
      apply Z.eqb_neq. intros E. by apply Z.lor_eq_0_iff in E as [? _]. }
    destruct (has_mode MODE_NOPRIVMSGS ch), (has_mode MODE_MODERATED ch), (restricted cl ch); cbn; eexists _, _; (split; [done|]; split; [done|]); try done.
    by destruct rb. }
  destruct r as [m|]; cbn [mbind option_bind].
  - destruct (IsZombie (mget (mm st) m)) eqn:Ez.
    + destruct Hout as (st' & b & -> & -> & Eb). exists st, b. split_and!; try done. intros _. split; [|done].
      intros m' Hon Hz. assert (m' = m) as -> by (by apply (on_unique (mm st) S (so_matrix _ _ _ _ Hok) u c)). congruence.
    + destruct (member_can_send_ok now st S reveal m u c ch cl Hok Hca Hb Hr Hc Hu) as (st' & -> & H1 & H2). eexists st', _. split; [done|].
      split_and!; try done. intros _. split.
      * intros m' Hon _. by assert (m' = m) as -> by (by apply (on_unique (mm st) S (so_matrix _ _ _ _ Hok) u c)).
      * intros Hz. specialize (Hz m Hr). congruence.
  - destruct Hout as (st' & b & -> & -> & Eb). exists st, b. split_and!; try done. intros _. split; [|done]. intros m Hon. by destruct (Hr m).
Qed.

(** C2: a client may send to a channel exactly when the rules let it:
    servers and channel services always; a user who is not fully on the
    channel when it is not +n and nothing hinders the user; a member of ours
    when it is not there by the admin password, and has voice or ops or
    nothing hinders it; a member elsewhere always.  What hinders a user is
    listed mode by mode in [unhindered], from the bits of the modes and the
    fields of the client: the rule of +W is that of the code, which lets no
    registered user of a web gateway speak without an account although the
    comment of [member_can_send_to_channel] says so.  The answer about the
    bans may come from the flags of the membership, which stay right, here
    and when the list of bans is changed and [mode_ban_invalidate] is called
    after it. *)
Theorem client_can_send_correct now st S u c reveal ch cl :
  st_ok now st S -> cache_ok HIDDEN_HOST st S -> bans_ok HIDDEN_HOST st -> channels st !! c = Some ch -> clients st !! u = Some cl ->
  IsServer cl || IsMe cl || has_user cl = true ->
  (exists st' b, client_can_send_to_channel HIDDEN_HOST u c reveal st = Some (st', b) /\ st_ok now st' S /\ cache_ok HIDDEN_HOST st' S /\
    (IsServer cl || chserv cl = true -> b = true) /\
    (IsServer cl || chserv cl = false ->
       (forall m, on (mm st) S u c m -> IsZombie (mget (mm st) m) = false -> b = true <-> may_speak HIDDEN_HOST u cl ch (Some (mget (mm st) m))) /\
       ((forall m, on (mm st) S u c m -> IsZombie (mget (mm st) m) = true) -> b = true <-> may_speak HIDDEN_HOST u cl ch None))) /\
  (forall l, exists st', mode_ban_invalidate c (upd_channel (with_banlist l) c st) = Some st' /\ st_ok now st' S /\ cache_ok HIDDEN_HOST st' S).
Proof.
  intros Hok Hca Hb Hc Hu Hh. split.
  - destruct (can_send_ok now st S u c reveal ch cl) as (st' & b & E & H1 & H2 & H3 & H4); try done. exists st', b. split_and!; try done.
    intros Hs. destruct (H4 Hs) as [Hin Hout]. pose proof (Hb c u ch cl Hc Hu) as Hbb.
    split; [intros m Hon Hz; rewrite (Hin m Hon Hz)|intros Hz; rewrite (Hout Hz)]; by apply speaks_iff.
  - intros l. destruct (invalidate_ok now st S c (with_banlist l) Hok Hca) as (st' & E & H1 & H2 & _); [done|]. by exists st'.
Qed.
End speaking.

(** *** A witness *)
Lemma client_can_send_correct_witness :
  exists st' b, client_can_send_to_channel (str "hidden") 3 1 true ex_chan = Some (st', b) /\ b = true.
Proof.
  destruct ex_chan_ok as [Hok Hmm]. pose proof ex_chan_channels as Hch.
  destruct (client_can_send_correct (str "hidden") 5 ex_chan empty_shape 3 1 true ex_irc (ex_user 3 1 "bob") Hok) as [(st' & b & E & _ & _ & _ & Hb) _].
  - intros c m ch cl r Hm. by apply elem_of_nil in Hm.
  - intros c u ch cl Hc _. rewrite Hch in Hc. apply lookup_singleton_Some in Hc as [_ <-]. by eexists.
  - by rewrite Hch, lookup_singleton_eq.
  - vm_compute. reflexivity.
  - done.
  - exists st', b. split; [done|]. destruct (Hb eq_refl) as [_ Hout].
    assert (Hz : forall m, on (mm ex_chan) empty_shape 3%positive 1%positive m -> IsZombie (mget (mm ex_chan) m) = true) by (intros m [Hm _]; by apply elem_of_nil in Hm).
    apply (Hout Hz). unfold may_speak, unhindered, plus_mode. split; [vm_compute; done|].
    split_and!; try (vm_compute; done).
Defined.

(** A moderated channel is closed to a user who is not on it. *)
Example moderated_closed :
  (fun r => r.2) <$> client_can_send_to_channel (T := chan_table) (str "hidden") 3 1 true
    (upd_channel (fun ch => with_cmode (set_mode MODE_MODERATED (cmode ch)) ch) 1 ex_chan) = Some false.
Proof. vm_compute. reflexivity. Qed.


