(* ===== verification/Burst.v ===== *)
(** * Net riders ([ircd/m_burst.c])

    When a BURST has an older channel, the users of ours who could not have
    joined it are kicked: [netride_modes] reads the modes in the message, and
    the loop of [ms_burst] goes through the members while [make_zombie] takes
    them off the channel. *)
From S2P Require Import Prelude Chattr Strings Chain Dlist Destruct Members ChanTable IpText Bans Channel.
From stdpp Require Import options.
Open Scope Z_scope.


(** [modes] with the parameters after it; [None]: the parameters have run
    out, and a null pointer is compared. *)
Fixpoint netride_modes (modes : cstring) (parv : list cstring) (curr_key : cstring) (result : Z) : option Z :=
  match modes with
  | [] => Some result
  | c :: modes =>
      if c =c "-" then Some (-1)
      else if c =c "i" then netride_modes modes parv curr_key (Z.lor result MODE_INVITEONLY)
      else if c =c "k" then
        match parv with
        | [] => None
        | p :: parv => netride_modes modes parv curr_key
                         (if bool_decide (curr_key = p) then result else Z.lor result MODE_KEY)
        end
      else if c =c "l" then netride_modes modes (tail parv) curr_key result
      else if c =c "r" then netride_modes modes parv curr_key (Z.lor result MODE_REGONLY)
      else netride_modes modes parv curr_key result
  end.

Section netride.
Context {T : Type} `{ChannelTable T} (OPLEVELS : bool).
Implicit Types st : state T.

(** A member the burst throws out. *)
Definition rider (check_modes : Z) (p : ptr) (cl : Client) (m : Membership) : bool :=
  MyUser p cl && negb (IsZombie m) &&
  negb ((Z.land check_modes MODE_KEY =? 0) &&
        ((Z.land check_modes MODE_INVITEONLY =? 0) || oper cl) &&
        ((Z.land check_modes MODE_REGONLY =? 0) || IsAccount cl)).

(** The loop; the KICKs name the channel, which is read for them. *)
Fixpoint kick_riders (n : nat) (now : Z) (me c : ptr) (check_modes : Z) (member : option ptr) st : option (state T) :=
  match n with
  | O => None
  | S n =>
      match member with
      | None => Some st
      | Some m =>
          let nmember := next_member (mm st) !! m in
          let u := user (mget (mm st) m) in
          cl ← clients st !! u;
          if rider check_modes u cl (mget (mm st) m) then
            _ ← channels st !! c;
            st ← make_zombie OPLEVELS now me m u me me c st;
            kick_riders n now me c check_modes nmember st
          else kick_riders n now me c check_modes nmember st
      end
  end.

Definition netride (now : Z) (me c : ptr) (check_modes : Z) st : option (state T) :=
  st ← mode_invite_clear c st;
  kick_riders (walk_fuel (next_member (mm st))) now me c check_modes (members (mm st) !! c) st.
End netride.

(** *** What happens when the channel goes away *)

(** bob and eve are on the channel, ann joins it, eve is kicked and bob
    leaves. *)
Definition ex_riders : list (Z * chan_op) :=
  [(5, Get 3 (str "#irc") true); (5, Join 1 3 CHFL_CHANOP 0); (6, Join 1 5 0 0); (7, Join 1 2 0 0);
   (8, Kick 1 2 5 3 3 1); (9, Part 3 1)].

Example riders_before : show <$> run_ops false ex_riders ex_state =
  Some [(str "#irc", 2, Some [(2%positive, 0); (5%positive, CHFL_ZOMBIE)])].
Proof. vm_compute. reflexivity. Qed.

(** ann is a net rider; with her goes eve and the channel; the loop goes on
    with the membership of eve, which is free, and comes to that of bob: he
    would be kicked from a channel that is no more. *)
Example riders_after_free : (run_ops false ex_riders ex_state ≫= netride (T := chan_table) false 10 1 1 MODE_KEY) = None.
Proof. vm_compute. reflexivity. Qed.

(** [+r] is read as "registered users only", which is [+R]; a [+k] that has
    no parameter is compared with a null pointer. *)
Example netride_r : netride_modes (str "+nr") [] [] 0 = Some MODE_REGONLY.
Proof. reflexivity. Qed.
Example netride_R : netride_modes (str "+nR") [] [] 0 = Some 0.
Proof. reflexivity. Qed.
Example netride_k : netride_modes (str "+k") [] [] 0 = None.
Proof. reflexivity. Qed.

(** ** When somebody stays *)
Section riders.
Context {T : Type} `{ChannelTableLaws T} (OPLEVELS : bool).
Implicit Types st : state T.

Lemma dlist_inj nx pv l : forall b p l', dlist nx pv b p l -> dlist nx pv b p l' -> l = l'.
Proof. intros b p l' H1 H2. eapply chain_inj; eapply dlist_chain; eassumption. Qed.

(** Taking off a user when others stay takes off that membership only. *)
Lemma remove_user_minus now st S u c m cl : st_ok now st S -> on (mm st) S u c m -> clients st !! u = Some cl ->
  IsServer cl || IsMe cl || has_user cl = true -> others (mm st) S u c ->
  exists st', remove_user_from_channel OPLEVELS now u c st = Some st' /\ st_ok now st' (minus (mm st) S m) /\
    leave OPLEVELS st S st' (minus (mm st) S m).
Proof.
  intros Hok Hon Hcl Hh (x & Hx & Hxu & Hz). pose proof (so_matrix _ _ _ _ Hok) as HM.
  destruct (find_member_link_ok now st S c u cl Hok Hcl Hh) as (r & Hr & Hon'). unfold remove_user_from_channel. rewrite Hr. cbn [mbind option_bind].
  destruct r as [m'|]; [|by destruct (Hon' m)]. assert (m' = m) as -> by (by apply (on_unique (mm st) S HM u c)). clear Hon'.
  destruct Hon as [Hm Hmu]. destruct (in_c _ _ _ _ _ Hok Hm) as [Hlive Hch].
  destruct (remove_member_ok OPLEVELS now st S m Hok Hlive) as (st1 & more & -> & Hok1 & L1 & Hmore). cbn [mbind option_bind].
  rewrite Hch in Hmore. assert (Hx1 : x ∈ C (minus (mm st) S m) c).
  { apply in_minus; [done|]. left. split; [done|]. intros ->. done. }
  destruct more.
  - destruct (all_zombies_ok now st1 _ c Hok1) as (z & -> & Hzz). cbn [mbind option_bind].
    assert (z = false) as ->; [|by exists st1]. apply Hzz. exists x. split; [done|]. by rewrite (lv_get _ _ _ _ _ L1).
  - exfalso. assert (E : C (minus (mm st) S m) c = []) by (destruct (C (minus (mm st) S m) c); [done|by discriminate (proj2 Hmore)]).
    rewrite E in Hx1. by apply elem_of_nil in Hx1.
Qed.

Definition rider_at (check_modes : Z) st (m : ptr) : Prop :=
  exists cl, clients st !! user (mget (mm st) m) = Some cl /\ rider check_modes (user (mget (mm st) m)) cl (mget (mm st) m) = true.

Lemma suffix_chain now st S c pre l : st_ok now st S -> C S c = pre ++ l ->
  match l with
  | [] => True
  | m :: l' => next_member (mm st) !! m = head l'
  end.
Proof.
  intros Hok E. destruct l as [|m l]; [done|]. pose proof (mo_members _ _ (so_matrix _ _ _ _ Hok) c) as Hd. rewrite E in Hd.
  destruct (dlist_app _ _ _ _ _ _ _ Hd) as (_ & Hd2 & _). destruct l as [|y l]; [done|]. by destruct Hd2.
Qed.

(** Kicking one rider. *)
Lemma kick_rider now me m c st S check_modes cl : st_ok now st S -> m ∈ C S c ->
  clients st !! user (mget (mm st) m) = Some cl -> rider check_modes (user (mget (mm st) m)) cl (mget (mm st) m) = true ->
  is_Some (clients st !! me) -> others (mm st) S (user (mget (mm st) m)) c ->
  exists st', make_zombie OPLEVELS now me m (user (mget (mm st) m)) me me c st = Some st' /\ st_ok now st' (minus (mm st) S m) /\
    (forall x, x <> m -> mget (mm st') x = mget (mm st) x) /\ user (mget (mm st') m) = user (mget (mm st) m) /\
    leave OPLEVELS (zombified m st) S st' (minus (mm st) S m).
Proof.
  intros Hok Hm Hcl Hr [mc Hme] Ho. destruct (in_c _ _ _ _ _ Hok Hm) as [[Hd _] Hch].
  apply andb_prop in Hr as [Hr _]. apply andb_prop in Hr as [Hmy _].
  assert (Hin : m ∈ U S (user (mget (mm st) m))) by (apply (in_u _ _ _ _ _ Hok); by rewrite Hch).
  destruct (so_user _ _ _ _ Hok _ m Hin) as (cl' & Hcl' & Hh & _). assert (cl' = cl) as -> by congruence.
  unfold make_zombie. fold (zombified m st). change (clients (zombified m st)) with (clients st). rewrite Hcl. cbn [mbind option_bind].
  rewrite Hme. cbn [mbind option_bind]. rewrite Hmy. set (st1 := if IsServer mc then send _ _ else _).
  pose proof (mark_ok now (fun s => Z.lor s CHFL_ZOMBIE) m st S Hok) as Hok0. fold (zombified m st) in Hok0.
  assert (Ht : touched (zombified m st) st1) by (unfold st1; destruct (IsServer mc); [apply touched_send|done]).
  assert (Hmm : mm st1 = mm (zombified m st)) by apply Ht.
  assert (Hok1 : st_ok now st1 S) by (eapply st_ok_touched; [exact Hok0|exact Ht|]; unfold st1; destruct (IsServer mc); apply Hok0).
  pose proof (fun x => zombified_get m st x Hd) as Hg. set (u := user (mget (mm st) m)) in *.
  assert (Hon : on (mm st1) S u c m) by (rewrite Hmm; split; [done|]; by destruct (Hg m) as [-> _]).
  assert (Hcl1 : clients st1 !! u = Some cl) by (unfold st1; by destruct (IsServer mc)).
  destruct (remove_user_minus now st1 S u c m cl Hok1 Hon Hcl1) as (st' & E & Hok' & L); [by rewrite Hh, orb_true_r|rewrite Hmm; by apply zombified_others|].
  assert (Em : minus (mm st1) S m = minus (mm st) S m).
  { rewrite Hmm. unfold minus. destruct (upd_status_get (fun s => Z.lor s CHFL_ZOMBIE) m (mm st) m) as (E1 & E2 & _). cbn. by rewrite E1, E2. }
  rewrite Em in Hok', L. exists st'. split; [done|]. split; [done|].
  assert (L' : leave OPLEVELS (zombified m st) S st' (minus (mm st) S m)).
  { eapply leave_trans; [|exact L]. apply leave_same; [intros x; by rewrite Hmm|apply Ht|apply Ht|apply same_clients_touched, Ht]. }
  split_and!; [|by rewrite (lv_get _ _ _ _ _ L'); destruct (Hg m) as [-> _]|done].
  intros x Hx. rewrite (lv_get _ _ _ _ _ L'). destruct (upd_status_get (fun s => Z.lor s CHFL_ZOMBIE) m (mm st) x) as (E1 & E2 & E3 & E4 & _).
  cbn. destruct (mget (upd_status _ m (mm st)) x) eqn:Eq. cbn in *. rewrite E1, E2, E3, (E4 Hx). by destruct (mget (mm st) x).
Qed.
End riders.

Section kick_riders.
Context {T : Type} `{ChannelTableLaws T} (OPLEVELS : bool).
Implicit Types st : state T.

Lemma static_rider check_modes p a b m : static_cl a b -> rider check_modes p b m = rider check_modes p a m.
Proof. intros E. by rewrite E. Qed.

Lemma rider_at_leave check_modes st st' x : same_clients st st' -> mget (mm st') x = mget (mm st) x ->
  rider_at check_modes st' x <-> rider_at check_modes st x.
Proof.
  intros Hs E. unfold rider_at. rewrite E. specialize (Hs (user (mget (mm st) x))).
  inversion Hs as [a b Hab E1 E2|E1 E2]; [|done]. split; intros (cl & [= <-] & Hr); eexists; (split; [done|]); by rewrite (static_rider _ _ _ _ _ Hab) in *.
Qed.

Lemma kick_riders_ok now me c check_modes n : forall l pre st S,
  st_ok now st S -> C S c = pre ++ l -> (length l < n)%nat -> is_Some (clients st !! me) ->
  (exists x, x ∈ C S c /\ IsZombie (mget (mm st) x) = false /\ ~ rider_at check_modes st x) ->
  exists st' S', kick_riders OPLEVELS n now me c check_modes (head l) st = Some st' /\ st_ok now st' S' /\
    forall k x, x ∈ C S' k <-> x ∈ C S k /\ ~ (k = c /\ x ∈ l /\ rider_at check_modes st x).
Proof.
  induction n as [|n IH]; intros l pre st S Hok HC Hn Hme Hst; [lia|]. cbn [kick_riders]. destruct l as [|m l]; cbn [head].
  - exists st, S. split; [done|]. split; [done|]. intros k x. split; [|tauto]. intros Hx. split; [done|]. intros (_ & Hx' & _).
    by apply elem_of_nil in Hx'.
  - assert (Hm : m ∈ C S c) by (rewrite HC; set_solver). destruct (in_c _ _ _ _ _ Hok Hm) as [[Hd _] Hch].
    assert (Hin : m ∈ U S (user (mget (mm st) m))) by (apply (in_u _ _ _ _ _ Hok); by rewrite Hch).
    destruct (so_user _ _ _ _ Hok _ m Hin) as (cl & Hcl & _). rewrite Hcl. cbn [mbind option_bind].
    pose proof (suffix_chain now st S c pre (m :: l) Hok HC) as Hnext. cbn in Hnext. rewrite Hnext.
    pose proof (so_matrix _ _ _ _ Hok) as HM. pose proof (mo_nodup_c _ _ HM c) as Hnd. rewrite HC in Hnd.
    assert (Hml : m ∉ l /\ m ∉ pre) by (apply NoDup_drop_middle in Hnd as [Hnd _]; set_solver).
    destruct (rider check_modes (user (mget (mm st) m)) cl (mget (mm st) m)) eqn:Er.
    + assert (Hrm : rider_at check_modes st m) by (by exists cl).
      destruct Hst as (x & Hx & Hz & Hxr). assert (x <> m) as Hxm by (by intros ->).
      destruct (so_chan _ _ _ _ Hok c m Hm) as [ch Hc]. rewrite Hc. cbn [mbind option_bind].
      assert (Ho : others (mm st) S (user (mget (mm st) m)) c).
      { exists x. split_and!; try done. intros E. apply Hxm. by apply (on_unique (mm st) S HM (user (mget (mm st) m)) c). }
      destruct (kick_rider OPLEVELS now me m c st S check_modes cl Hok Hm Hcl Er Hme Ho) as (st1 & -> & Hok1 & Hget & Hgm & L).
      cbn [mbind option_bind]. pose proof (lv_cl _ _ _ _ _ L) as Hs. change (same_clients st st1) in Hs.
      assert (HC1 : C (minus (mm st) S m) c = pre ++ l).
      { unfold minus. rewrite Hch. cbn. rewrite upd_eq, HC. apply unlink_mid. tauto. }
      assert (Hra : forall y, y <> m -> rider_at check_modes st1 y <-> rider_at check_modes st y) by (intros y Hy; apply rider_at_leave; [done|by apply Hget]).
      destruct (IH l pre st1 _ Hok1 HC1) as (st2 & S2 & -> & Hok2 & Hin2); [cbn in Hn; lia| | |].
      { destruct Hme as [mc Hme]. specialize (Hs me). rewrite Hme in Hs. by inversion Hs. }
      { exists x. split; [apply in_minus; [done|by left]|]. rewrite Hget by done. split; [done|]. by rewrite Hra. }
      exists st2, S2. split; [done|]. split; [done|]. intros k y. rewrite Hin2, in_minus by done. rewrite Hch, elem_of_cons.
      destruct (decide (y = m)) as [->|Hy]; [|rewrite Hra by done; tauto]. split; [|tauto].
      intros [[[? ?]|[Hmk Hk]] _]; [done|]. destruct (in_c _ _ _ _ _ Hok Hmk) as [_ Hk']. congruence.
    + assert (Hrm : ~ rider_at check_modes st m) by (intros (cl' & E & Hr); congruence).
      destruct (IH l (pre ++ [m]) st S Hok) as (st2 & S2 & E & Hok2 & Hin2); [by rewrite <- app_assoc|cbn in Hn; lia|done|done|].
      exists st2, S2. split; [done|]. split; [done|]. intros k x. rewrite Hin2, elem_of_cons.
      destruct (decide (x = m)) as [->|Hx]; [|tauto]. split; [|tauto]. intros [? _]. split; [done|]. intros (_ & _ & ?). done.
Qed.

(** C11: when somebody is on the channel who is neither a zombie nor a net
    rider, the loop over its members comes to an end and takes off exactly the
    net riders: the users of ours who have a wrong key, or are not opers
    although the older channel is invite-only, or have no account although it
    asks for one.  Otherwise the channel goes away under the loop
    ([riders_after_free]). *)
Theorem netride_correct now me c check_modes st S :
  st_ok now st S -> is_Some (channels st !! c) -> is_Some (clients st !! me) ->
  (exists x, x ∈ C S c /\ IsZombie (mget (mm st) x) = false /\ ~ rider_at check_modes st x) ->
  exists st' S', netride OPLEVELS now me c check_modes st = Some st' /\ st_ok now st' S' /\
    forall k x, x ∈ C S' k <-> x ∈ C S k /\ ~ (k = c /\ rider_at check_modes st x).
Proof.
  intros Hok [ch Hc] Hme Hst. unfold netride.
  destruct (mode_invite_clear_ok c st ch (so_invites _ _ _ _ Hok) Hc) as (st1 & -> & Ht & Hi & _). cbn [mbind option_bind].
  pose proof (st_ok_touched _ _ _ _ _ Hok Ht Hi) as Hok1. pose proof (so_matrix _ _ _ _ Hok1) as HM.
  assert (Hs : same_clients st st1) by (apply same_clients_touched, Ht).
  assert (Hra : forall x, rider_at check_modes st1 x <-> rider_at check_modes st x) by (intros x; apply rider_at_leave; [done|by rewrite (to_mm _ _ Ht)]).
  rewrite (members_head _ _ _ _ Hok1).
  destruct (kick_riders_ok now me c check_modes (walk_fuel (next_member (mm st1))) (C S c) [] st1 S Hok1) as (st2 & S2 & -> & Hok2 & Hin); [done| | | |].
  - eapply walk_fuel_enough; [apply (mo_nodup_c _ _ HM)|]. eapply dlist_chain, (mo_members _ _ HM).
  - destruct Hme as [mc Hme]. specialize (Hs me). rewrite Hme in Hs. by inversion Hs.
  - destruct Hst as (x & Hx & Hz & Hxr). exists x. split; [done|]. rewrite (to_mm _ _ Ht). split; [done|]. by rewrite Hra.
  - exists st2, S2. split; [done|]. split; [done|]. intros k x. rewrite Hin, Hra.
    split; [|tauto]. intros [Hx Hn]. split; [done|]. intros [-> Hr]. by apply Hn.
Qed.
End kick_riders.


(** *** A witness: bob goes, and eve, who is not ours, stays *)
Lemma netride_correct_witness :
  exists S m1 m2 st' S', C S 1%positive = [m2; m1] /\ netride true 10 1 1 MODE_KEY ex_pair = Some st' /\
    st_ok 10 st' S' /\ (m2 ∈ C S' 1%positive) /\ (m1 ∉ C S' 1%positive).
Proof.
  destruct ex_pair_ok as (S & m1 & m2 & Hok & HC & H1 & H2). apply (st_ok_later 5 10) in Hok; [|lia]. exists S, m1, m2.
  assert (Hu3 : clients ex_pair !! 3%positive = Some (with_joined 1 (ex_user 3 1 "bob"))) by (vm_compute; reflexivity).
  assert (Hu5 : clients ex_pair !! 5%positive = Some (with_joined 1 (ex_user 4 6 "eve"))) by (vm_compute; reflexivity).
  assert (Hr2 : ~ rider_at MODE_KEY ex_pair m2) by (intros (cl & E & Hr); rewrite H2 in E, Hr; cbn [user] in E, Hr; rewrite Hu5 in E; injection E as <-; done).
  destruct (netride_correct true 10 1 1 MODE_KEY ex_pair S Hok) as (st' & S' & E & Hok' & Hin).
  - vm_compute. by eexists.
  - vm_compute. by eexists.
  - exists m2. rewrite HC, H2. split; [left|]. split; [done|exact Hr2].
  - exists st', S'. split; [exact HC|]. split; [exact E|]. split; [exact Hok'|]. split.
    + apply Hin. split; [rewrite HC; left|]. intros [_ ?]. done.
    + intros Hm. apply Hin in Hm as [_ Hn]. apply Hn. split; [done|]. exists (with_joined 1 (ex_user 3 1 "bob")).
      rewrite H1. cbn [user]. split; [exact Hu3|]. vm_compute. reflexivity.
Defined.
