(* ===== verification/IPcheck.v ===== *)
(** * The registry of connecting addresses (IPcheck.c)

    An [IPRegistryEntry] is an address in the finite map [ents] of the
    allocated structures; a bucket of [hashTable] is the list of the entries
    chained there, [freeList] the list of the unused ones.  The same for the
    /48 blocks.  The clock ([CurrentTime], [cli_since(&me)]) and the features
    are arguments. *)
From S2P Require Import Prelude Address Chain.
From stdpp Require Import options.
Open Scope Z_scope.

Definition MAXTARGETS : nat := 20.
Definition STARTTARGETS : Z := 10.
Definition TARGET_DELAY : Z := 128.
Definition IP_REGISTRY_TABLE_SIZE : Z := 0x10000.

Record IPTargetEntry := { tcount : Z; targets : list Z }.

Record IPRegistryEntry := {
  target : option IPTargetEntry;
  addr : in_addr;
  last_connect : Z;
  connected : Z;   (* unsigned short *)
  attempts : Z     (* unsigned char *)
}.

Record IPRegistry48 := {
  last_connect48 : Z;
  addr48 : list Z;
  attempts48 : Z   (* unsigned short *)
}.

Abbreviation eid := positive (only parsing).

Record registry := {
  ents : gmap eid IPRegistryEntry;
  hashTable : gmap Z (list eid);
  freeList : list eid;
  ents48 : gmap eid IPRegistry48;
  hashTable48 : gmap Z (list eid);
  freeList48 : list eid
}.

Definition empty_registry : registry :=
  {| ents := ∅; hashTable := ∅; freeList := []; ents48 := ∅; hashTable48 := ∅; freeList48 := [] |}.

(** The features and the start time of the server. *)
Record ipcheck_conf := {
  IPCHECK_CLONE_LIMIT : Z;
  IPCHECK_CLONE_PERIOD : Z;
  IPCHECK_48_CLONE_LIMIT : Z;
  IPCHECK_48_CLONE_PERIOD : Z;
  IPCHECK_CLONE_DELAY : Z;
  me_since : Z
}.

Definition chain_of (t : gmap Z (list eid)) (i : Z) : list eid := default [] (t !! i).

(** Field assignments. *)
Definition set_ent (p : eid) (e : IPRegistryEntry) (st : registry) : registry :=
  {| ents := <[p := e]> (ents st); hashTable := hashTable st; freeList := freeList st;
     ents48 := ents48 st; hashTable48 := hashTable48 st; freeList48 := freeList48 st |}.
Definition set_chain (i : Z) (l : list eid) (st : registry) : registry :=
  {| ents := ents st; hashTable := <[i := l]> (hashTable st); freeList := freeList st;
     ents48 := ents48 st; hashTable48 := hashTable48 st; freeList48 := freeList48 st |}.
Definition set_free (l : list eid) (st : registry) : registry :=
  {| ents := ents st; hashTable := hashTable st; freeList := l;
     ents48 := ents48 st; hashTable48 := hashTable48 st; freeList48 := freeList48 st |}.
Definition set_48 (e : gmap eid IPRegistry48) (t : gmap Z (list eid)) (f : list eid) (st : registry)
  : registry :=
  {| ents := ents st; hashTable := hashTable st; freeList := freeList st;
     ents48 := e; hashTable48 := t; freeList48 := f |}.

Definition with_connected (n : Z) (e : IPRegistryEntry) : IPRegistryEntry :=
  {| target := target e; addr := addr e; last_connect := last_connect e;
     connected := w16 n; attempts := attempts e |}.
Definition with_attempts (n : Z) (e : IPRegistryEntry) : IPRegistryEntry :=
  {| target := target e; addr := addr e; last_connect := last_connect e;
     connected := connected e; attempts := w8 n |}.
Definition with_last (n : Z) (e : IPRegistryEntry) : IPRegistryEntry :=
  {| target := target e; addr := addr e; last_connect := n;
     connected := connected e; attempts := attempts e |}.
Definition with_target (t : option IPTargetEntry) (e : IPRegistryEntry) : IPRegistryEntry :=
  {| target := t; addr := addr e; last_connect := last_connect e;
     connected := connected e; attempts := attempts e |}.
Definition with_addr (a : in_addr) (e : IPRegistryEntry) : IPRegistryEntry :=
  {| target := target e; addr := a; last_connect := last_connect e;
     connected := connected e; attempts := attempts e |}.

Definition NOW (CurrentTime : Z) : Z := Z.land CurrentTime 0xffff.
Definition CONNECTED_SINCE (CurrentTime x : Z) : Z := NOW CurrentTime - x.

Definition ip_registry_canonicalize (inp : in_addr) : in_addr :=
  if irc_in_addr_is_ipv4 inp
  then [htons 0x2002; in6_16 inp 6; in6_16 inp 7; 0; 0; 0; 0; 0]
  else [in6_16 inp 0; in6_16 inp 1; in6_16 inp 2; in6_16 inp 3; 0; 0; 0; 0].

Definition ip_registry_hash (ip : in_addr) : Z :=
  let res := Z.lxor (Z.lxor (Z.lxor (in6_16 ip 0) (in6_16 ip 1)) (in6_16 ip 2)) (in6_16 ip 3) in
  Z.land res (IP_REGISTRY_TABLE_SIZE - 1).

(** The entry at an address, which the callers know to be allocated. *)
Definition no_entry : IPRegistryEntry :=
  {| target := None; addr := []; last_connect := 0; connected := 0; attempts := 0 |}.
Definition ent (st : registry) (p : eid) : IPRegistryEntry := default no_entry (ents st !! p).

Fixpoint find_in (st : registry) (canon : in_addr) (l : list eid) : option eid :=
  match l with
  | [] => None
  | p :: l' =>
      let bits := if in6_16 canon 0 =? htons 0x2002 then 48 else 64 in
      if negb (ipmask_check canon (addr (ent st p)) bits =? 0) then Some p
      else find_in st canon l'
  end.

Definition ip_registry_find (st : registry) (ip : in_addr) : option eid :=
  let canon := ip_registry_canonicalize ip in
  find_in st canon (chain_of (hashTable st) (ip_registry_hash canon)).

Definition ip_registry_add (p : eid) (st : registry) : registry :=
  let bucket := ip_registry_hash (addr (ent st p)) in
  set_chain bucket (p :: chain_of (hashTable st) bucket) st.

Definition ip_registry_remove (p : eid) (st : registry) : registry :=
  let bucket := ip_registry_hash (addr (ent st p)) in
  set_chain bucket (unlink p (chain_of (hashTable st) bucket)) st.

Definition ip_registry_new_entry (CurrentTime : Z) (st : registry) : registry * eid :=
  let '(p, st) :=
    match freeList st with
    | p :: f => (p, set_free f st)
    | [] => (fresh (dom (ents st)), st)
    end in
  let e := {| target := None; addr := replicate 8 0; last_connect := NOW CurrentTime;
              connected := 1; attempts := 1 |} in
  (set_ent p e st, p).

Definition ip_registry_delete_entry (p : eid) (st : registry) : registry :=
  set_free (p :: freeList st) st.

Definition ip_registry_update_free_targets (CurrentTime : Z) (e : IPRegistryEntry)
  : IPRegistryEntry * Z :=
  match target e with
  | Some t =>
      let free_targets :=
        w32 (tcount t + Z.quot (CONNECTED_SINCE CurrentTime (last_connect e)) TARGET_DELAY) in
      let free_targets := if free_targets >? STARTTARGETS then STARTTARGETS else free_targets in
      (with_target (Some {| tcount := free_targets; targets := targets t |}) e, free_targets)
  | None => (e, STARTTARGETS)
  end.

Definition ip_registry_expire_entry (CurrentTime : Z) (p : eid) (st : registry) : registry :=
  let e := ent st p in
  if CONNECTED_SINCE CurrentTime (last_connect e) >? 600 then
    ip_registry_delete_entry p (ip_registry_remove p st)
  else if (CONNECTED_SINCE CurrentTime (last_connect e) >? 120) && bool_decide (is_Some (target e)) then
    set_ent p (with_target None e) st
  else st.

(** ** The /48 blocks *)
Definition ip_48_hash (ip : in_addr) : Z :=
  Z.land (Z.lxor (Z.lxor (in6_16 ip 0) (in6_16 ip 1)) (in6_16 ip 2)) (IP_REGISTRY_TABLE_SIZE - 1).

Definition no_entry48 : IPRegistry48 := {| last_connect48 := 0; addr48 := []; attempts48 := 0 |}.
Definition ent48 (st : registry) (p : eid) : IPRegistry48 := default no_entry48 (ents48 st !! p).

Fixpoint find_in48 (st : registry) (ip : in_addr) (l : list eid) : option eid :=
  match l with
  | [] => None
  | p :: l' =>
      let a := addr48 (ent48 st p) in
      if (in6_16 ip 0 =? in6_16 a 0) && (in6_16 ip 1 =? in6_16 a 1) && (in6_16 ip 2 =? in6_16 a 2)
      then Some p else find_in48 st ip l'
  end.

Definition ip_48_find (CurrentTime : Z) (ip : in_addr) (st : registry) : registry * eid :=
  let idx := ip_48_hash ip in
  match find_in48 st ip (chain_of (hashTable48 st) idx) with
  | Some p => (st, p)
  | None =>
      let '(p, f) :=
        match freeList48 st with
        | p :: f => (p, f)
        | [] => (fresh (dom (ents48 st)), [])
        end in
      let e := {| last_connect48 := NOW CurrentTime;
                  addr48 := [in6_16 ip 0; in6_16 ip 1; in6_16 ip 2]; attempts48 := 0 |} in
      (set_48 (<[p := e]> (ents48 st))
         (<[idx := p :: chain_of (hashTable48 st) idx]> (hashTable48 st)) f st, p)
  end.

Definition set_attempts48 (n : Z) (e : IPRegistry48) : IPRegistry48 :=
  {| last_connect48 := last_connect48 e; addr48 := addr48 e; attempts48 := w16 n |}.

Definition put48 (p : eid) (e : IPRegistry48) (st : registry) : registry :=
  set_48 (<[p := e]> (ents48 st)) (hashTable48 st) (freeList48 st) st.

(** ** The periodic expiry *)

(** A walk of one chain, [entry_next] being read before the call. *)
Fixpoint expire_chain (CurrentTime : Z) (l : list eid) (st : registry) : registry :=
  match l with
  | [] => st
  | p :: l' =>
      let st := if connected (ent st p) =? 0 then ip_registry_expire_entry CurrentTime p st else st in
      expire_chain CurrentTime l' st
  end.

Fixpoint expire_chain48 (CurrentTime : Z) (l : list eid) (e : gmap eid IPRegistry48) (f : list eid)
  : list eid * list eid :=
  match l with
  | [] => ([], f)
  | p :: l' =>
      if CONNECTED_SINCE CurrentTime (last_connect48 (default no_entry48 (e !! p))) >? 600
      then expire_chain48 CurrentTime l' e (p :: f)
      else let '(r, f) := expire_chain48 CurrentTime l' e f in (p :: r, f)
  end.

Definition expire_bucket (CurrentTime : Z) (st : registry) (i : Z) : registry :=
  expire_chain CurrentTime (chain_of (hashTable st) i) st.

Definition expire_bucket48 (CurrentTime : Z) (st : registry) (i : Z) : registry :=
  let '(l, f) :=
    expire_chain48 CurrentTime (chain_of (hashTable48 st) i) (ents48 st) (freeList48 st) in
  set_48 (ents48 st) (<[i := l]> (hashTable48 st)) f st.

Definition ip_registry_expire (CurrentTime : Z) (st : registry) : registry :=
  let st := foldl (expire_bucket CurrentTime) st (seqZ 0 IP_REGISTRY_TABLE_SIZE) in
  foldl (expire_bucket48 CurrentTime) st (seqZ 0 IP_REGISTRY_TABLE_SIZE).

(** ** Connections *)

(** The common part of the two checks: the record of the /48 block. *)
Definition count_attempt48 (conf : ipcheck_conf) (CurrentTime : Z) (e : IPRegistry48) : IPRegistry48 :=
  let e := if CONNECTED_SINCE CurrentTime (last_connect48 e) >? IPCHECK_48_CLONE_PERIOD conf
           then set_attempts48 0 e else e in
  let e := {| last_connect48 := NOW CurrentTime; addr48 := addr48 e; attempts48 := attempts48 e |} in
  let e := set_attempts48 (attempts48 e + 1) e in
  if attempts48 e =? 0 then set_attempts48 (attempts48 e - 1) e else e.

(** The code at the label [reject]. *)
Definition reject_local (entry : option eid) (st : registry) : registry * bool * option Z :=
  match entry with
  | None => (st, false, None)
  | Some p => (set_ent p (with_connected (connected (ent st p) - 1) (ent st p)) st, false, None)
  end.

(** What follows the test of the /48 block.  The third component is the
    value stored in [*next_target_out], if any: [free_targets] is unsigned,
    so the product and the subtraction of 1 wrap before [time_t]. *)
Definition check_local_entry (conf : ipcheck_conf) (CurrentTime : Z) (a : in_addr)
  (entry : option eid) (st : registry) : registry * bool * option Z :=
  match entry with
  | None =>
      let '(st, p) := ip_registry_new_entry CurrentTime st in
      let st := set_ent p (with_addr (ip_registry_canonicalize a) (ent st p)) st in
      (ip_registry_add p st, true, None)
  | Some p =>
      let e := with_connected (connected (ent st p) + 1) (ent st p) in
      if connected e =? 0 then (set_ent p (with_connected (connected e - 1) e) st, false, None)
      else
        let e := if CONNECTED_SINCE CurrentTime (last_connect e) >? IPCHECK_CLONE_PERIOD conf
                 then with_attempts 0 e else e in
        let '(e, free_targets) := ip_registry_update_free_targets CurrentTime e in
        let e := with_last (NOW CurrentTime) e in
        let e := with_attempts (attempts e + 1) e in
        let e := if attempts e =? 0 then with_attempts (attempts e - 1) e else e in
        let st := set_ent p e st in
        if attempts e <? IPCHECK_CLONE_LIMIT conf then
          (st, true, Some (CurrentTime - w32 (TARGET_DELAY * free_targets - 1)))
        else if CurrentTime - me_since conf >? IPCHECK_CLONE_DELAY conf then
          reject_local (Some p) st
        else (st, true, None)
  end.

Definition ip_registry_check_local (conf : ipcheck_conf) (CurrentTime : Z) (a : in_addr) (st : registry)
  : registry * bool * option Z :=
  let entry := ip_registry_find st a in
  if negb (irc_in_addr_is_ipv4 a) then
    let '(st, p48) := ip_48_find CurrentTime a st in
    let e48 := count_attempt48 conf CurrentTime (ent48 st p48) in
    let st := put48 p48 e48 st in
    if (attempts48 e48 >=? IPCHECK_48_CLONE_LIMIT conf) &&
       (CurrentTime - me_since conf >? IPCHECK_CLONE_DELAY conf) then
      match entry with
      | None => reject_local None st
      | Some p =>
          let e := with_last (NOW CurrentTime) (ent st p) in
          let e := with_connected (connected e + 1) e in
          if connected e =? 0
          then reject_local None (set_ent p (with_connected (connected e - 1) e) st)
          else reject_local (Some p) (set_ent p e st)
      end
    else check_local_entry conf CurrentTime a entry st
  else check_local_entry conf CurrentTime a entry st.

(** [SetIPChecked] is the caller's flag; the result is the permission. *)
Definition ip_registry_check_remote (conf : ipcheck_conf) (CurrentTime : Z) (ip : in_addr)
  (is_burst : bool) (st : registry) : registry * bool :=
  if negb (irc_in_addr_valid ip) then (st, true)
  else
    let st :=
      if negb (irc_in_addr_is_ipv4 ip) then
        let '(st, p48) := ip_48_find CurrentTime ip st in
        put48 p48 (count_attempt48 conf CurrentTime (ent48 st p48)) st
      else st in
    match ip_registry_find st ip with
    | None =>
        let '(st, p) := ip_registry_new_entry CurrentTime st in
        let e := with_addr (ip_registry_canonicalize ip) (ent st p) in
        let e := if is_burst then with_attempts 0 e else e in
        (ip_registry_add p (set_ent p e st), true)
    | Some p =>
        let e := with_connected (connected (ent st p) + 1) (ent st p) in
        if connected e =? 0 then (set_ent p e st, false)
        else
          let e := if CONNECTED_SINCE CurrentTime (last_connect e) >? IPCHECK_CLONE_PERIOD conf
                   then with_attempts 0 e else e in
          let e :=
            if is_burst then e
            else
              let e := with_attempts (attempts e + 1) e in
              let e := if attempts e =? 0 then with_attempts (attempts e - 1) e else e in
              with_last (NOW CurrentTime) (fst (ip_registry_update_free_targets CurrentTime e)) in
          (set_ent p e st, true)
    end.

Definition ip_registry_connect_fail (CurrentTime : Z) (a : in_addr) (disconnect : bool) (st : registry)
  : registry :=
  let entry := ip_registry_find st a in
  let st :=
    if negb (irc_in_addr_is_ipv4 a) then
      let '(st, p48) := ip_48_find CurrentTime a st in
      let e := set_attempts48 (attempts48 (ent48 st p48) - 1) (ent48 st p48) in
      put48 p48 (if attempts48 e =? 0 then set_attempts48 (attempts48 e + 1) e else e) st
    else st in
  match entry with
  | None => st
  | Some p =>
      let e := with_attempts (attempts (ent st p) - 1) (ent st p) in
      let e := if attempts e =? 0 then with_attempts (attempts e + 1) e else e in
      let e := if disconnect then with_connected (connected e - 1) e else e in
      set_ent p e st
  end.

(** The values the client gets: the targets, if the entry has some, and the
    numbers of the notice.  [None]: the entry is missing ([assert]). *)
Definition ip_registry_connect_succeeded (ip : in_addr) (st : registry)
  : option (option (list Z) * (Z * Z * Z)) :=
  p ← ip_registry_find st ip;
  let e := ent st p in
  Some (match target e with
        | Some t => (Some (take MAXTARGETS (targets t)), (connected e, attempts e, tcount t))
        | None => (None, (connected e, attempts e, STARTTARGETS))
        end).

(** What the registry reads of a client that leaves. *)
Record ip_client := {
  cli_ip : in_addr;
  my_connect : bool;
  cli_targets : list Z;
  cli_nexttarget : Z;
  cli_firsttime : Z
}.

Definition disconnect_free_targets (CurrentTime : Z) (c : ip_client) : Z :=
  let free_targets :=
    if cli_nexttarget c <? CurrentTime
    then w32 (Z.quot (CurrentTime - cli_nexttarget c) TARGET_DELAY + 1) else 0 in
  if CurrentTime - cli_firsttime c >? 600
  then w32 (free_targets + Z.quot (CurrentTime - cli_firsttime c - 600) TARGET_DELAY)
  else free_targets.

(** [None]: the entry is missing. *)
Definition ip_registry_disconnect (conf : ipcheck_conf) (CurrentTime : Z) (c : ip_client) (st : registry)
  : option registry :=
  let entry := ip_registry_find st (cli_ip c) in
  if negb (irc_in_addr_valid (cli_ip c)) then Some st
  else
    p ← entry;
    let e := with_connected (connected (ent st p) - 1) (ent st p) in
    let e :=
      if connected e =? 0 then
        let e := if CONNECTED_SINCE CurrentTime (last_connect e) >?
                      IPCHECK_CLONE_LIMIT conf * IPCHECK_CLONE_PERIOD conf
                 then with_attempts 0 e else e in
        with_last (NOW CurrentTime) (fst (ip_registry_update_free_targets CurrentTime e))
      else e in
    let e :=
      if my_connect c then
        let count := match target e with Some t => tcount t | None => STARTTARGETS end in
        let free_targets := disconnect_free_targets CurrentTime c in
        with_target
          (Some {| tcount := if free_targets <? count then free_targets else count;
                   targets := take MAXTARGETS (cli_targets c) |}) e
      else e in
    Some (set_ent p e st).

Definition ip_registry_count (st : registry) (a : in_addr) : Z :=
  match ip_registry_find st a with Some p => connected (ent st p) | None => 0 end.

Definition IPcheck_local_connect := ip_registry_check_local.
Definition IPcheck_remote_connect := ip_registry_check_remote.
Definition IPcheck_connect_fail := ip_registry_connect_fail.
Definition IPcheck_connect_succeeded := ip_registry_connect_succeeded.
Definition IPcheck_disconnect := ip_registry_disconnect.
Definition IPcheck_nr (st : registry) (ip : in_addr) : Z := w16 (ip_registry_count st ip).

(** A client with no free target left gets a date far in the past. *)
Definition ex_conf : ipcheck_conf :=
  {| IPCHECK_CLONE_LIMIT := 4; IPCHECK_CLONE_PERIOD := 40; IPCHECK_48_CLONE_LIMIT := 50;
     IPCHECK_48_CLONE_PERIOD := 10; IPCHECK_CLONE_DELAY := 600; me_since := 0 |}.

(** ** The invariant of the registry *)
Definition canonical (c : in_addr) : Prop := exists a, addr_wf a /\ c = ip_registry_canonicalize a.

Record ip_inv (st : registry) : Prop := {
  inv_ents : forall i p, p ∈ chain_of (hashTable st) i ->
    p ∈ dom (ents st) /\ ip_registry_hash (addr (ent st p)) = i /\ canonical (addr (ent st p)) /\
    0 <= connected (ent st p) < 2 ^ 16;
  inv_nodup : forall i, NoDup (chain_of (hashTable st) i);
  inv_uniq : forall i p q, p ∈ chain_of (hashTable st) i -> q ∈ chain_of (hashTable st) i ->
    addr (ent st p) = addr (ent st q) -> p = q;
  inv_free : forall p, p ∈ freeList st -> p ∈ dom (ents st) /\ forall i, p ∉ chain_of (hashTable st) i;
  inv_free_nodup : NoDup (freeList st)
}.

(** The entry of an address. *)
Definition entry_of (st : registry) (a : in_addr) (p : eid) : Prop :=
  p ∈ chain_of (hashTable st) (ip_registry_hash (ip_registry_canonicalize a)) /\
  addr (ent st p) = ip_registry_canonicalize a.

Lemma canonical_shape c : canonical c ->
  exists x0 x1 x2 x3, c = [x0; x1; x2; x3; 0; 0; 0; 0] /\
    0 <= x0 < 2 ^ 16 /\ 0 <= x1 < 2 ^ 16 /\ 0 <= x2 < 2 ^ 16 /\ 0 <= x3 < 2 ^ 16.
Proof.
  intros (a & [Hl Hf] & ->). assert (Hw : forall k, 0 <= in6_16 a k < 2 ^ 16).
  { intros k. unfold in6_16. destruct (nth_in_or_default k a 0) as [Hin| ->]; [|lia].
    rewrite Forall_forall in Hf. apply Hf. by apply list_elem_of_In. }
  unfold ip_registry_canonicalize. destruct (irc_in_addr_is_ipv4 a).
  - eexists _, _, _, _. split; [done|]. pose proof (htons_range 0x2002). repeat split; try apply Hw; lia.
  - eexists _, _, _, _. split; [done|]. repeat split; apply Hw.
Qed.

Lemma lxor_cancel_l a b c : Z.lxor a b = Z.lxor a c -> b = c.
Proof.
  intros H. apply (f_equal (Z.lxor a)) in H.
  by rewrite <- !Z.lxor_assoc, Z.lxor_nilpotent, !Z.lxor_0_l in H.
Qed.

Lemma lxor_range a b : 0 <= a < 2 ^ 16 -> 0 <= b < 2 ^ 16 -> 0 <= Z.lxor a b < 2 ^ 16.
Proof.
  intros Ha Hb. split; [apply Z.lxor_nonneg; lia|].
  assert (Z.lxor a b mod 2 ^ 16 = Z.lxor a b) as <-; [|apply Z.mod_pos_bound; lia].
  apply Z.bits_inj'. intros n Hn. destruct (Z.ltb_spec n 16).
  - by rewrite Z.mod_pow2_bits_low.
  - rewrite Z.mod_pow2_bits_high, Z.lxor_spec, !w16_bound by lia. done.
Qed.

(** The comparison of [ip_registry_find] is equality, inside a bucket. *)
Lemma ip_match_eq c d :
  canonical c -> canonical d -> ip_registry_hash c = ip_registry_hash d ->
  (ipmask_check c d (if in6_16 c 0 =? htons 0x2002 then 48 else 64) =? 0) = negb (bool_decide (c = d)).
Proof.
  intros Hc Hd Hh.
  destruct (canonical_shape _ Hc) as (x0 & x1 & x2 & x3 & -> & ? & ? & ? & ?).
  destruct (canonical_shape _ Hd) as (y0 & y1 & y2 & y3 & -> & ? & ? & ? & ?).
  assert (Hx3 : x0 = y0 -> x1 = y1 -> x2 = y2 -> x3 = y3).
  { intros -> -> ->. unfold ip_registry_hash, in6_16 in Hh. cbn [nth] in Hh.
    change (IP_REGISTRY_TABLE_SIZE - 1) with (Z.ones 16) in Hh. rewrite !Z.land_ones in Hh by lia.
    rewrite !Z.mod_small in Hh by (repeat apply lxor_range; lia). by apply lxor_cancel_l in Hh. }
  unfold ipmask_check, in6_16. cbn [nth].
  destruct (x0 =? htons 8194); cbn [ipmask_loop]; simpl (_ <? _); cbv iota;
    destruct (Z.eqb_spec x0 y0) as [->|]; simpl; try (rewrite bool_decide_false by congruence; done);
    destruct (Z.eqb_spec x1 y1) as [->|]; simpl; try (rewrite bool_decide_false by congruence; done);
    destruct (Z.eqb_spec x2 y2) as [->|]; simpl; try (rewrite bool_decide_false by congruence; done);
    rewrite Hx3 by done; rewrite ?Z.eqb_refl; simpl; by rewrite bool_decide_true.
Qed.

Lemma find_in_spec st c l :
  canonical c ->
  (forall p, p ∈ l -> ip_registry_hash (addr (ent st p)) = ip_registry_hash c /\ canonical (addr (ent st p))) ->
  match find_in st c l with
  | Some p => p ∈ l /\ addr (ent st p) = c
  | None => forall p, p ∈ l -> addr (ent st p) <> c
  end.
Proof.
  intros Hc. induction l as [|p l IH]; intros Hl; [set_solver|]. cbn [find_in].
  destruct (Hl p) as [Hh Hp]; [set_solver|]. rewrite ip_match_eq by done. rewrite negb_involutive.
  specialize (IH ltac:(intros q Hq; apply Hl; set_solver)).
  case_bool_decide as Hb; [split; [set_solver|done]|].
  destruct (find_in st c l) as [q|]; [destruct IH; split; [set_solver|done]|].
  intros q Hq. apply elem_of_cons in Hq as [->|Hq]; [congruence|by apply IH].
Qed.

Lemma find_spec st a : ip_inv st -> addr_wf a ->
  match ip_registry_find st a with
  | Some p => entry_of st a p
  | None => forall p, ~ entry_of st a p
  end.
Proof.
  intros H Ha. unfold ip_registry_find, entry_of.
  pose proof (find_in_spec st (ip_registry_canonicalize a)
    (chain_of (hashTable st) (ip_registry_hash (ip_registry_canonicalize a)))) as Hf.
  specialize (Hf ltac:(by exists a)).
  specialize (Hf ltac:(intros p Hp; destruct (inv_ents _ H _ _ Hp) as (_ & ? & ? & _); done)).
  destruct (find_in _ _ _); [done|]. intros p [Hp He]. by apply (Hf p).
Qed.

Lemma entry_uniq st a p q : ip_inv st -> entry_of st a p -> entry_of st a q -> p = q.
Proof. intros H [Hp Ep] [Hq Eq]. apply (inv_uniq _ H _ _ _ Hp Hq). congruence. Qed.

Lemma find_entry st a p : ip_inv st -> addr_wf a -> entry_of st a p -> ip_registry_find st a = Some p.
Proof.
  intros H Ha He. pose proof (find_spec st a H Ha) as Hf.
  destruct (ip_registry_find st a) as [q|]; [f_equal; by eapply entry_uniq|]. by apply Hf in He.
Qed.

Lemma count_entry st a p :
  ip_inv st -> addr_wf a -> entry_of st a p -> ip_registry_count st a = connected (ent st p).
Proof. intros. unfold ip_registry_count. by erewrite find_entry. Qed.

Lemma count_none st a :
  ip_inv st -> addr_wf a -> (forall p, ~ entry_of st a p) -> ip_registry_count st a = 0.
Proof.
  intros H Ha Hn. unfold ip_registry_count. pose proof (find_spec st a H Ha) as Hf.
  destruct (ip_registry_find st a) as [q|]; [|done]. by apply Hn in Hf.
Qed.

(** Two states with the same entries, as far as addresses and counters go. *)
Lemma count_ext st st' a :
  ip_inv st -> ip_inv st' -> addr_wf a ->
  (forall p, entry_of st a p <-> entry_of st' a p) ->
  (forall p, entry_of st a p -> connected (ent st' p) = connected (ent st p)) ->
  ip_registry_count st' a = ip_registry_count st a.
Proof.
  intros H H' Ha He Hc. pose proof (find_spec st a H Ha) as Hf.
  destruct (ip_registry_find st a) as [p|] eqn:E.
  - rewrite (count_entry st a p), (count_entry st' a p); auto. by apply He.
  - rewrite (count_none st a), (count_none st' a); auto. intros p Hp. by apply He, Hf in Hp.
Qed.

Lemma ent_set p q e st : ent (set_ent p e st) q = if decide (p = q) then e else ent st q.
Proof. unfold ent, set_ent. simpl. destruct (decide (p = q)) as [->|]; [by rewrite lookup_insert_eq|by rewrite lookup_insert_ne]. Qed.

Lemma entry_of_set p e st a q :
  addr e = addr (ent st p) -> entry_of (set_ent p e st) a q <-> entry_of st a q.
Proof.
  intros He. unfold entry_of. rewrite ent_set. destruct (decide (p = q)) as [->|]; [by rewrite He|done].
Qed.

(** Writing an entry, its address kept. *)
Lemma inv_set p e st :
  ip_inv st -> p ∈ dom (ents st) -> addr e = addr (ent st p) -> 0 <= connected e < 2 ^ 16 ->
  ip_inv (set_ent p e st).
Proof.
  intros H Hp Ha Hc.
  assert (Hadd : forall q, addr (ent (set_ent p e st) q) = addr (ent st q)).
  { intros q. rewrite ent_set. by destruct (decide (p = q)) as [->|]. }
  assert (Hdom : forall q, q ∈ dom (ents st) -> q ∈ dom (ents (set_ent p e st))).
  { intros q. simpl. rewrite dom_insert. set_solver. }
  constructor; simpl.
  - intros i q Hq. destruct (inv_ents _ H _ _ Hq) as (Hd & Hh & Hcan & Hr).
    rewrite Hadd. split_and!; auto; rewrite ent_set; destruct (decide (p = q)); lia.
  - apply (inv_nodup _ H).
  - intros i q q'. rewrite !Hadd. apply (inv_uniq _ H).
  - intros q Hq. destruct (inv_free _ H _ Hq) as [Hd Hn]. auto.
  - apply (inv_free_nodup _ H).
Qed.

Lemma count_set p e st a b :
  ip_inv st -> addr_wf a -> addr_wf b -> entry_of st a p ->
  addr e = addr (ent st p) -> 0 <= connected e < 2 ^ 16 ->
  ip_registry_count (set_ent p e st) b =
    if decide (ip_registry_canonicalize b = ip_registry_canonicalize a) then connected e
    else ip_registry_count st b.
Proof.
  intros H Ha Hb Hp He Hc.
  assert (H' : ip_inv (set_ent p e st)).
  { apply inv_set; try done. destruct Hp as [Hp _]. by apply (inv_ents _ H) in Hp as [? _]. }
  destruct (decide _) as [Hab|Hab].
  - rewrite (count_entry _ b p H' Hb).
    + rewrite ent_set. by rewrite decide_True.
    + apply entry_of_set; [done|]. unfold entry_of in *. by rewrite Hab.
  - apply count_ext; try done.
    + intros q. by rewrite entry_of_set.
    + intros q [_ Hq]. rewrite ent_set. rewrite decide_False; [done|]. intros <-.
      destruct Hp as [_ Hp]. congruence.
Qed.

(** The /48 blocks are apart. *)
Definition same_core (st st' : registry) : Prop :=
  ents st = ents st' /\ hashTable st = hashTable st' /\ freeList st = freeList st'.

Lemma core_ent st st' p : same_core st st' -> ent st' p = ent st p.
Proof. intros (He & _). unfold ent. by rewrite He. Qed.

Lemma core_inv st st' : same_core st st' -> ip_inv st -> ip_inv st'.
Proof.
  intros (He & Ht & Hf) [H1 H2 H3 H4 H5]. unfold ent in *. rewrite He, Ht, Hf in *.
  by constructor; unfold ent.
Qed.

Lemma core_find st st' a : same_core st st' -> ip_registry_find st' a = ip_registry_find st a.
Proof.
  intros H. pose proof H as (_ & Ht & _). unfold ip_registry_find. rewrite Ht.
  generalize (chain_of (hashTable st') (ip_registry_hash (ip_registry_canonicalize a))) as l.
  induction l as [|p l IH]; [done|]. cbn [find_in]. by rewrite (core_ent st st'), IH.
Qed.

Lemma core_count st st' a : same_core st st' -> ip_registry_count st' a = ip_registry_count st a.
Proof.
  intros H. unfold ip_registry_count. rewrite (core_find st st') by done.
  destruct (ip_registry_find st a); [by rewrite (core_ent st st')|done].
Qed.

Lemma core_48_find now a st : same_core st (fst (ip_48_find now a st)).
Proof.
  unfold ip_48_find. destruct (find_in48 _ _ _); [done|]. by destruct (freeList48 st).
Qed.

(** A new entry, chained. *)
Lemma chain_of_insert t i l j : chain_of (<[i := l]> t) j = if decide (i = j) then l else chain_of t j.
Proof.
  unfold chain_of. destruct (decide (i = j)) as [->|]; [by rewrite lookup_insert_eq|by rewrite lookup_insert_ne].
Qed.

Lemma new_entry_spec now st :
  ip_inv st -> exists st1 p e, ip_registry_new_entry now st = (st1, p) /\
    st1 = set_ent p e (set_free (freeList st1) st) /\ connected e = 1 /\
    (forall i, p ∉ chain_of (hashTable st) i) /\ (p ∉ freeList st1) /\
    (forall q, q ∈ freeList st1 -> q ∈ freeList st) /\ NoDup (freeList st1).
Proof.
  intros H. unfold ip_registry_new_entry. destruct (freeList st) as [|p f] eqn:Ef.
  - eexists _, _, _. split; [done|]. simpl. rewrite Ef. split; [by destruct st; simpl in *; subst|].
    split_and!; try done; try set_solver; [|constructor].
    intros i Hp. apply (inv_ents _ H) in Hp as [Hp _]. by apply is_fresh in Hp.
  - eexists _, _, _. split; [done|]. simpl. split; [done|].
    pose proof (inv_free _ H p) as Hp. pose proof (inv_free_nodup _ H) as Hnd. rewrite Ef in *.
    apply NoDup_cons in Hnd as [Hn Hnd]. split_and!; try done; [|set_solver].
    apply Hp. set_solver.
Qed.

Lemma new_add_spec now st a :
  ip_inv st -> addr_wf a -> (forall p, ~ entry_of st a p) ->
  exists st1 p, ip_registry_new_entry now st = (st1, p) /\ connected (ent st1 p) = 1 /\
    forall e, addr e = ip_registry_canonicalize a -> connected e = 1 ->
      let st2 := ip_registry_add p (set_ent p e st1) in
      ip_inv st2 /\ forall b, addr_wf b -> ip_registry_count st2 b =
        if decide (ip_registry_canonicalize b = ip_registry_canonicalize a) then 1
        else ip_registry_count st b.
Proof.
  intros H Ha Hno. destruct (new_entry_spec now st H) as (st1 & p & e0 & Hnew & Hst & He0 & Hp & Hpf & Hfr & Hfnd).
  exists st1, p. split; [done|]. split; [rewrite Hst, ent_set; by rewrite decide_True|].
  intros e Had Hce st2.
  assert (Hent : forall q, ent st2 q = if decide (p = q) then e else ent st q).
  { intros q. unfold st2, ip_registry_add. change (ent (set_chain _ _ ?s) q) with (ent s q).
    rewrite ent_set. destruct (decide (p = q)); [done|]. rewrite Hst, ent_set. by rewrite decide_False. }
  assert (Hch : forall i, chain_of (hashTable st2) i =
    if decide (ip_registry_hash (ip_registry_canonicalize a) = i)
    then p :: chain_of (hashTable st) i else chain_of (hashTable st) i).
  { intros i. unfold st2, ip_registry_add. simpl. rewrite chain_of_insert, ent_set.
    rewrite (decide_True (P := p = p)) by done. rewrite Had, Hst. simpl.
    by destruct (decide _) as [<-|]. }
  assert (Hin : forall i q, q ∈ chain_of (hashTable st2) i <->
    (i = ip_registry_hash (ip_registry_canonicalize a) /\ q = p) \/ q ∈ chain_of (hashTable st) i).
  { intros i q. rewrite Hch. destruct (decide _); set_solver. }
  assert (Hold : forall i q, q ∈ chain_of (hashTable st) i -> ent st2 q = ent st q).
  { intros i q Hq. rewrite Hent, decide_False; [done|]. intros <-. by apply (Hp i). }
  assert (Hinv : ip_inv st2).
  { assert (Hdom : forall q, q = p \/ q ∈ dom (ents st) -> q ∈ dom (ents st2)).
    { intros q Hq. unfold st2, ip_registry_add. simpl. rewrite dom_insert, Hst. simpl.
      rewrite dom_insert. set_solver. }
    constructor.
    - intros i q [[-> ->]|Hq]%Hin.
      + rewrite Hent, decide_True, Had, Hce by done. split_and!; try lia; [by apply Hdom; left|by exists a].
      + rewrite (Hold i) by done. destruct (inv_ents _ H _ _ Hq) as [? ?]. split; [by apply Hdom; right|done].
    - intros i. rewrite Hch. destruct (decide _); [constructor; [apply Hp|]|]; apply (inv_nodup _ H).
    - intros i q q' Hq Hq'. apply Hin in Hq, Hq'.
      destruct Hq as [[-> ->]|Hq], Hq' as [[Hi ->]|Hq']; [done| | |].
      + rewrite Hent, decide_True, (Hold _ _ Hq'), Had by done. intros Heq. exfalso.
        by apply (Hno q').
      + rewrite (Hent p), decide_True, (Hold _ _ Hq), Had by done. intros Heq. subst i. exfalso.
        by apply (Hno q).
      + rewrite (Hold _ _ Hq), (Hold _ _ Hq'). by apply (inv_uniq _ H i).
    - intros q Hq. change (freeList st2) with (freeList st1) in Hq.
      assert (q <> p) by (intros ->; done). apply Hfr in Hq. apply (inv_free _ H) in Hq as [Hd Hn].
      split; [by apply Hdom; right|]. intros i [[_ ?]|?]%Hin; [done|by apply (Hn i)].
    - done. }
  split; [done|]. intros b Hb. destruct (decide _) as [Hab|Hab].
  - rewrite (count_entry _ b p Hinv Hb); [by rewrite Hent, decide_True by done|].
    split; [apply Hin; left; by rewrite Hab|]. rewrite Hent, decide_True by done. congruence.
  - apply count_ext; try done.
    + intros q. unfold entry_of. rewrite Hin. split.
      * intros [Hq ?]. rewrite (Hold _ _ Hq). auto.
      * intros [[[_ ->]|Hq] He]; [|by rewrite (Hold _ _ Hq) in He].
        rewrite Hent, decide_True in He by done. congruence.
    + intros q [Hq _]. by rewrite (Hold _ _ Hq).
Qed.

(** ** Accounting *)

(** The counter of [a] has changed by [d], and no other counter. *)
Definition acct (st : registry) (a : in_addr) (d : Z) (st' : registry) : Prop :=
  ip_inv st' /\ forall b, addr_wf b -> ip_registry_count st' b =
    if decide (ip_registry_canonicalize b = ip_registry_canonicalize a)
    then ip_registry_count st a + d else ip_registry_count st b.

Lemma count_canon st a b : ip_registry_canonicalize b = ip_registry_canonicalize a ->
  ip_registry_count st b = ip_registry_count st a.
Proof. intros H. unfold ip_registry_count, ip_registry_find. by rewrite H. Qed.

Lemma acct_refl st a st' : ip_inv st -> same_core st st' -> acct st a 0 st'.
Proof.
  intros H Hc. split; [by eapply core_inv|]. intros b Hb. rewrite (core_count st st') by done.
  destruct (decide _) as [Hab|]; [|done]. by rewrite (count_canon _ _ _ Hab), Z.add_0_r.
Qed.

Lemma acct_core st a d st1 st' : same_core st st1 -> acct st1 a d st' -> acct st a d st'.
Proof.
  intros Hc [Hi H]. split; [done|]. intros b Hb. rewrite H, !(core_count st st1) by done. done.
Qed.

Lemma count_range st a : ip_inv st -> addr_wf a -> 0 <= ip_registry_count st a < 2 ^ 16.
Proof.
  intros H Ha. unfold ip_registry_count. pose proof (find_spec st a H Ha) as Hf.
  destruct (ip_registry_find st a) as [p|]; [|lia]. destruct Hf as [Hp _].
  by apply (inv_ents _ H) in Hp as (_ & _ & _ & ?).
Qed.

Lemma acct_set st a p e d :
  ip_inv st -> addr_wf a -> ip_registry_find st a = Some p ->
  addr e = addr (ent st p) -> connected e = connected (ent st p) + d ->
  0 <= connected e < 2 ^ 16 -> acct st a d (set_ent p e st).
Proof.
  intros H Ha Hp He Hc Hr. pose proof (find_spec st a H Ha) as Hf. rewrite Hp in Hf.
  split.
  - apply inv_set; try done. destruct Hf as [Hq _]. by apply (inv_ents _ H) in Hq as [? _].
  - intros b Hb. rewrite (count_set p e st a b) by done.
    destruct (decide _); [|done]. by rewrite (count_entry _ _ _ H Ha Hf).
Qed.

Lemma set_ent_twice p e e' st : set_ent p e (set_ent p e' st) = set_ent p e st.
Proof. unfold set_ent. simpl. by rewrite insert_insert_eq. Qed.

Lemma w16_inc c : 0 <= c < 2 ^ 16 -> w16 (c + 1) = if c =? 2 ^ 16 - 1 then 0 else c + 1.
Proof.
  intros Hc. destruct (Z.eqb_spec c (2 ^ 16 - 1)) as [->|]; [done|]. apply w16_small. lia.
Qed.

Lemma w16_dec c : 0 < c < 2 ^ 16 -> w16 (c - 1) = c - 1.
Proof. intros Hc. apply w16_small. lia. Qed.

Lemma update_free_targets_fields now e :
  let e' := fst (ip_registry_update_free_targets now e) in
  addr e' = addr e /\ connected e' = connected e /\ attempts e' = attempts e /\
  last_connect e' = last_connect e.
Proof. unfold ip_registry_update_free_targets. by destruct (target e). Qed.

Lemma free_targets_range now e :
  (match target e with Some t => 0 <= tcount t | None => True end) ->
  0 <= snd (ip_registry_update_free_targets now e) <= STARTTARGETS.
Proof.
  intros H. unfold ip_registry_update_free_targets. destruct (target e) as [t|]; [|by vm_compute].
  cbn [snd]. pose proof (w32_range (tcount t + Z.quot (CONNECTED_SINCE now (last_connect e)) TARGET_DELAY)).
  unfold STARTTARGETS. destruct (Z.gtb_spec (w32 (tcount t + Z.quot (CONNECTED_SINCE now (last_connect e)) TARGET_DELAY)) 10); lia.
Qed.

(** The entry [check_local_entry] writes. *)
Definition attempt_entry (conf : ipcheck_conf) (now : Z) (e : IPRegistryEntry) : IPRegistryEntry :=
  let e := with_connected (connected e + 1) e in
  let e := if CONNECTED_SINCE now (last_connect e) >? IPCHECK_CLONE_PERIOD conf
           then with_attempts 0 e else e in
  let e := with_last (NOW now) (fst (ip_registry_update_free_targets now e)) in
  let e := with_attempts (attempts e + 1) e in
  if attempts e =? 0 then with_attempts (attempts e - 1) e else e.

Lemma attempt_entry_fields conf now e :
  0 <= connected e < 2 ^ 16 - 1 ->
  addr (attempt_entry conf now e) = addr e /\ connected (attempt_entry conf now e) = connected e + 1.
Proof.
  intros Hc. unfold attempt_entry.
  set (e1 := if _ >? _ then _ else _).
  assert (H1 : addr e1 = addr e /\ connected e1 = connected e + 1).
  { unfold e1. destruct (_ >? _); simpl; rewrite w16_small by lia; done. }
  destruct (update_free_targets_fields now e1) as (Ha & Hn & _).
  destruct (_ =? 0); simpl; rewrite Ha, Hn; done.
Qed.

Lemma check_local_entry_acct conf now a st :
  ip_inv st -> addr_wf a ->
  let '(st', ok, _) := check_local_entry conf now a (ip_registry_find st a) st in
  acct st a (if ok then 1 else 0) st'.
Proof.
  intros H Ha. unfold check_local_entry. destruct (ip_registry_find st a) as [p|] eqn:E.
  - pose proof (find_spec st a H Ha) as Hf. rewrite E in Hf. destruct Hf as [Hp Had].
    destruct (inv_ents _ H _ _ Hp) as (_ & _ & _ & Hr).
    change (connected (with_connected ?n ?e)) with (w16 n). rewrite w16_inc by done.
    destruct (Z.eqb_spec (connected (ent st p)) (2 ^ 16 - 1)) as [Hmax|Hmax]; cbn [Z.eqb].
    + apply acct_set; simpl; rewrite ?Hmax; done.
    + destruct (Z.eqb_spec (connected (ent st p) + 1) 0); [lia|].
      destruct (attempt_entry_fields conf now (ent st p) ltac:(lia)) as [Hea Hec].
      unfold attempt_entry in Hea, Hec.
      destruct (ip_registry_update_free_targets _ _) as [e ft] in *. cbn [fst] in *.
      set (e' := if _ =? 0 then _ else _) in *.
      destruct (attempts e' <? IPCHECK_CLONE_LIMIT conf); [by apply acct_set; try done; lia|].
      destruct (_ >? IPCHECK_CLONE_DELAY conf); [|by apply acct_set; try done; lia].
      cbn [reject_local]. rewrite ent_set, decide_True, set_ent_twice by done.
      apply acct_set; simpl; try done; rewrite Hec, w16_dec by lia; lia.
  - pose proof (find_spec st a H Ha) as Hf. rewrite E in Hf.
    destruct (new_add_spec now st a H Ha Hf) as (st1 & p & -> & Hc & Hadd).
    destruct (Hadd (with_addr (ip_registry_canonicalize a) (ent st1 p)) eq_refl Hc) as [Hi Hcnt].
    split; [done|]. intros b Hb. rewrite (Hcnt b Hb), (count_none st a) by done. done.
Qed.

Lemma check_local_acct conf now a st :
  ip_inv st -> addr_wf a ->
  let '(st', ok, _) := ip_registry_check_local conf now a st in
  acct st a (if ok then 1 else 0) st'.
Proof.
  intros H Ha. unfold ip_registry_check_local.
  destruct (irc_in_addr_is_ipv4 a) eqn:E4; cbn [negb]; [by apply check_local_entry_acct|].
  pose proof (core_48_find now a st) as Hc. destruct (ip_48_find now a st) as [st1 p48]. cbn [fst] in Hc.
  set (e48 := count_attempt48 _ _ _).
  assert (Hc2 : same_core st (put48 p48 e48 st1)) by done.
  set (st2 := put48 p48 e48 st1) in *. rewrite <- (core_find _ _ a Hc2).
  assert (H2 : ip_inv st2) by (by eapply core_inv).
  destruct (_ && _).
  - destruct (ip_registry_find st2 a) as [p|] eqn:E; [|by apply acct_refl].
    pose proof (find_spec st2 a H2 Ha) as Hf. rewrite E in Hf. destruct Hf as [Hp Had].
    destruct (inv_ents _ H2 _ _ Hp) as (_ & _ & _ & Hr).
    change (connected (with_connected ?n ?e)) with (w16 n).
    change (connected (with_last ?n ?e)) with (connected e). rewrite w16_inc by done.
    destruct (Z.eqb_spec (connected (ent st2 p)) (2 ^ 16 - 1)) as [Hmax|Hmax].
    + change (0 =? 0) with true. cbn [reject_local].
      eapply acct_core; [done|]. apply acct_set; simpl; rewrite ?Hmax; done.
    + destruct (Z.eqb_spec (connected (ent st2 p) + 1) 0); [lia|]. cbn [reject_local].
      rewrite ent_set, decide_True, set_ent_twice by done.
      eapply acct_core; [done|].
      apply acct_set; cbn [connected with_connected with_last addr]; try done;
        rewrite w16_small, w16_small by (try rewrite w16_small; lia); lia.
  - pose proof (check_local_entry_acct conf now a st2 H2 Ha) as Hl.
    destruct (check_local_entry conf now a (ip_registry_find st2 a) st2) as [[st' ok] nt].
    by eapply acct_core.
Qed.

(** What a remote connection does: one more, or a counter that overflows. *)
Lemma check_remote_acct conf now a burst st :
  ip_inv st -> addr_wf a -> irc_in_addr_valid a = true ->
  let '(st', ok) := ip_registry_check_remote conf now a burst st in
  if (ok : bool) then acct st a 1 st'
  else ip_registry_count st a = 2 ^ 16 - 1 /\ acct st a (- (2 ^ 16 - 1)) st'.
Proof.
  intros H Ha Hv. unfold ip_registry_check_remote. rewrite Hv. cbn [negb].
  set (st1 := if negb (irc_in_addr_is_ipv4 a) then _ else _).
  assert (Hc : same_core st st1).
  { unfold st1. destruct (irc_in_addr_is_ipv4 a); cbn [negb]; [done|].
    pose proof (core_48_find now a st) as Hc. by destruct (ip_48_find now a st). }
  assert (H1 : ip_inv st1) by (by eapply core_inv).
  pose proof (find_spec st1 a H1 Ha) as Hf. destruct (ip_registry_find st1 a) as [p|] eqn:E.
  - destruct Hf as [Hp Had]. destruct (inv_ents _ H1 _ _ Hp) as (_ & _ & _ & Hr).
    change (connected (with_connected ?n ?e)) with (w16 n). rewrite w16_inc by done.
    destruct (Z.eqb_spec (connected (ent st1 p)) (2 ^ 16 - 1)) as [Hmax|Hmax].
    + change (0 =? 0) with true. cbv iota. split.
      * rewrite <- (core_count _ _ a Hc), (count_entry _ _ p H1 Ha); [done|by split].
      * eapply acct_core; [done|]. apply acct_set; simpl; rewrite ?Hmax; done.
    + destruct (Z.eqb_spec (connected (ent st1 p) + 1) 0); [lia|].
      eapply acct_core; [done|].
      match goal with |- acct _ _ _ (set_ent p ?e st1) => set (e' := e) end.
      assert (He : addr e' = addr (ent st1 p) /\ connected e' = connected (ent st1 p) + 1).
      { unfold e'. set (e1 := if _ >? _ then _ else _).
        assert (addr e1 = addr (ent st1 p) /\ connected e1 = connected (ent st1 p) + 1) as [H2 H3].
        { unfold e1. destruct (_ >? _); simpl; rewrite w16_small by lia; done. }
        destruct burst; [done|]. set (e2 := if _ =? 0 then _ else _).
        assert (addr e2 = addr e1 /\ connected e2 = connected e1) as [H4 H5]
          by (unfold e2; by destruct (_ =? 0)).
        destruct (update_free_targets_fields now e2) as (H6 & H7 & _). simpl.
        rewrite H6, H7. by rewrite H4, H5. }
      destruct He. apply acct_set; try done; lia.
  - destruct (new_add_spec now st1 a H1 Ha Hf) as (st2 & p & -> & Hce & Hadd).
    eapply acct_core; [done|].
    match goal with |- acct _ _ _ (ip_registry_add p (set_ent p ?e st2)) => set (e' := e) end.
    assert (He : addr e' = ip_registry_canonicalize a /\ connected e' = 1) by (unfold e'; by destruct burst).
    destruct He as [He1 He2]. destruct (Hadd e' He1 He2) as [Hi Hcnt]. split; [done|].
    intros b Hb. rewrite (Hcnt b Hb), (count_none st1 a) by done. done.
Qed.

Lemma connect_fail_acct now a (disconnect : bool) st :
  ip_inv st -> addr_wf a -> (disconnect = true -> 0 < ip_registry_count st a) ->
  acct st a (if disconnect then -1 else 0) (ip_registry_connect_fail now a disconnect st).
Proof.
  intros H Ha Hd. unfold ip_registry_connect_fail.
  set (st1 := if negb (irc_in_addr_is_ipv4 a) then _ else _).
  assert (Hc : same_core st st1).
  { unfold st1. destruct (irc_in_addr_is_ipv4 a); cbn [negb]; [done|].
    pose proof (core_48_find now a st) as Hc. by destruct (ip_48_find now a st). }
  assert (H1 : ip_inv st1) by (by eapply core_inv).
  rewrite <- (core_find _ _ a Hc). rewrite <- (core_count _ _ a Hc) in Hd.
  unfold ip_registry_count in Hd. destruct (ip_registry_find st1 a) as [p|] eqn:E.
  - pose proof (find_spec st1 a H1 Ha) as Hf. rewrite E in Hf. destruct Hf as [Hp Had].
    destruct (inv_ents _ H1 _ _ Hp) as (_ & _ & _ & Hr).
    eapply acct_core; [done|]. set (e1 := if _ =? 0 then _ else _).
    assert (addr e1 = addr (ent st1 p) /\ connected e1 = connected (ent st1 p)) as [H2 H3]
      by (unfold e1; by destruct (_ =? 0)).
    destruct disconnect; [|apply acct_set; try done; lia].
    specialize (Hd eq_refl). apply acct_set; simpl; try done; rewrite H3, w16_small; lia.
  - destruct disconnect; [specialize (Hd eq_refl); lia|]. by apply acct_refl.
Qed.

Lemma disconnect_acct conf now c st :
  ip_inv st -> addr_wf (cli_ip c) -> irc_in_addr_valid (cli_ip c) = true ->
  0 < ip_registry_count st (cli_ip c) ->
  exists st', ip_registry_disconnect conf now c st = Some st' /\ acct st (cli_ip c) (-1) st'.
Proof.
  intros H Ha Hv Hd. unfold ip_registry_disconnect. rewrite Hv. cbn [negb].
  unfold ip_registry_count in Hd. pose proof (find_spec st _ H Ha) as Hf.
  destruct (ip_registry_find st (cli_ip c)) as [p|] eqn:E; [|lia].
  cbn [mbind option_bind]. eexists. split; [done|]. destruct Hf as [Hp Had].
  destruct (inv_ents _ H _ _ Hp) as (_ & _ & _ & Hr).
  set (e1 := if connected (with_connected _ _) =? 0 then _ else _).
  assert (addr e1 = addr (ent st p) /\ connected e1 = connected (ent st p) - 1) as [H2 H3].
  { unfold e1. destruct (_ =? 0); simpl; [|by rewrite w16_small by lia].
    match goal with |- context [ip_registry_update_free_targets now ?e] =>
      destruct (update_free_targets_fields now e) as (H6 & H7 & _) end.
    rewrite H6, H7. destruct (_ >? _); simpl; by rewrite w16_small by lia. }
  destruct (my_connect c); apply acct_set; simpl; try done; lia.
Qed.

(** ** The expiry *)
(** What the expiry leaves of an entry. *)
Definition not_stale (now : Z) (e : IPRegistryEntry) : Prop :=
  connected e = 0 -> CONNECTED_SINCE now (last_connect e) <= 600 /\
    (CONNECTED_SINCE now (last_connect e) > 120 -> target e = None).

(** A state of the walk of bucket [i]: the members of [l] are still to come. *)
Record expiring (now : Z) (st0 : registry) (i : Z) (l : list eid) (st : registry) : Prop := {
  ex_inv : ip_inv st;
  ex_nodup : NoDup l;
  ex_rest : forall p, p ∈ l -> p ∈ chain_of (hashTable st) i;
  ex_done : forall p, p ∈ chain_of (hashTable st) i -> p ∉ l -> not_stale now (ent st p);
  ex_other : forall j, j <> i -> chain_of (hashTable st) j = chain_of (hashTable st0) j;
  ex_ents : forall j p, j <> i -> p ∈ chain_of (hashTable st0) j -> ent st p = ent st0 p;
  ex_count : forall b, addr_wf b -> ip_registry_count st b = ip_registry_count st0 b
}.

(** Removing an entry with no client. *)
Lemma remove_spec p i st :
  ip_inv st -> p ∈ chain_of (hashTable st) i -> connected (ent st p) = 0 ->
  let st' := ip_registry_delete_entry p (ip_registry_remove p st) in
  ip_inv st' /\ (forall q, ent st' q = ent st q) /\
  (forall j, chain_of (hashTable st') j =
     if decide (i = j) then unlink p (chain_of (hashTable st) j) else chain_of (hashTable st) j) /\
  forall b, addr_wf b -> ip_registry_count st' b = ip_registry_count st b.
Proof.
  intros H Hp H0 st'. destruct (inv_ents _ H _ _ Hp) as (Hd & Hh & _ & _).
  assert (Hent : forall q, ent st' q = ent st q) by done.
  assert (Hch : forall j, chain_of (hashTable st') j =
     if decide (i = j) then unlink p (chain_of (hashTable st) j) else chain_of (hashTable st) j).
  { intros j. unfold st', ip_registry_remove. simpl. rewrite chain_of_insert, Hh.
    by destruct (decide (i = j)) as [<-|]. }
  assert (Hin : forall j q, q ∈ chain_of (hashTable st') j <-> q ∈ chain_of (hashTable st) j /\ q <> p).
  { intros j q. rewrite Hch. destruct (decide (i = j)) as [<-|Hne].
    - apply elem_of_unlink, (inv_nodup _ H).
    - split; [|tauto]. intros Hq. split; [done|]. intros ->.
      apply (inv_ents _ H) in Hq as (_ & Hj & _). congruence. }
  assert (Hinv : ip_inv st').
  { constructor.
    - intros j q [Hq _]%Hin. by apply (inv_ents _ H).
    - intros j. rewrite Hch. destruct (decide _); [apply NoDup_unlink|]; apply (inv_nodup _ H).
    - intros j q q' [Hq _]%Hin [Hq' _]%Hin. by apply (inv_uniq _ H j).
    - intros q Hq. simpl in Hq. apply elem_of_cons in Hq as [->|Hq].
      + split; [done|]. intros j [_ ?]%Hin. done.
      + apply (inv_free _ H) in Hq as [Hqd Hqn]. split; [done|]. intros j [Hj _]%Hin. by apply (Hqn j).
    - simpl. constructor; [|apply (inv_free_nodup _ H)]. intros Hq. apply (inv_free _ H) in Hq as [_ Hq].
      by apply (Hq i). }
  split; [done|]. split; [done|]. split; [done|].
  intros b Hb. pose proof (find_spec st b H Hb) as Hf.
  destruct (ip_registry_find st b) as [q|] eqn:E.
  - rewrite (count_entry st b q) by done. destruct (decide (q = p)) as [->|Hqp].
    + rewrite H0. apply count_none; try done. intros q' [Hq' He']. apply Hin in Hq' as [Hq' Hne].
      apply Hne. apply (entry_uniq st b); [done|by split|done].
    + rewrite (count_entry st' b q Hinv Hb); [done|]. destruct Hf. split; [by apply Hin|done].
  - rewrite (count_none st b), (count_none st' b) by
      (try done; intros q' [Hq' He']; apply Hin in Hq' as [Hq' _]; by apply (Hf q')). done.
Qed.

Lemma expire_one now st0 i p l st :
  expiring now st0 i (p :: l) st ->
  expiring now st0 i l
    (if connected (ent st p) =? 0 then ip_registry_expire_entry now p st else st).
Proof.
  intros [Hi Hnd Hr Hdone Hoth He Hc]. apply NoDup_cons in Hnd as [Hpl Hnd].
  assert (Hp : p ∈ chain_of (hashTable st) i) by (apply Hr; set_solver).
  assert (Hpo : forall j, j <> i -> p ∉ chain_of (hashTable st0) j).
  { intros j Hj Hq. rewrite <- (Hoth j Hj) in Hq.
    destruct (inv_ents _ Hi _ _ Hq) as (_ & ? & _). destruct (inv_ents _ Hi _ _ Hp) as (_ & ? & _). congruence. }
  destruct (inv_ents _ Hi _ _ Hp) as (Hd & _ & _ & Hrng).
  destruct (Z.eqb_spec (connected (ent st p)) 0) as [H0|H0].
  2: { constructor; try done; [set_solver|]. intros q Hq Hql.
       destruct (decide (q = p)) as [->|]; [done|]. apply Hdone; set_solver. }
  unfold ip_registry_expire_entry.
  destruct (Z.gtb_spec (CONNECTED_SINCE now (last_connect (ent st p))) 600) as [H6|H6].
  - destruct (remove_spec p i st Hi Hp H0) as (Hi' & Hent & Hch & Hcnt).
    assert (Hchi : forall q, q ∈ chain_of (hashTable (ip_registry_delete_entry p (ip_registry_remove p st))) i
              <-> q ∈ chain_of (hashTable st) i /\ q <> p).
    { intros q. rewrite Hch, decide_True by done. apply elem_of_unlink, (inv_nodup _ Hi). }
    constructor; try done.
    + intros q Hq. apply Hchi. split; [apply Hr; set_solver|]. by intros ->.
    + intros q [Hq Hqp]%Hchi Hql. rewrite Hent. apply Hdone; set_solver.
    + intros j Hj. rewrite Hch, decide_False by done. by apply Hoth.
    + intros b Hb. rewrite Hcnt by done. by apply Hc.
  - destruct (_ && _) eqn:E.
    + assert (Hi' : ip_inv (set_ent p (with_target None (ent st p)) st)) by (apply inv_set; done).
      constructor; try done.
      * set_solver.
      * intros q Hq Hql. rewrite ent_set. destruct (decide (p = q)) as [<-|Hne].
        -- intros _. simpl. split; [lia|done].
        -- apply Hdone; set_solver.
      * intros j q Hj Hq. rewrite ent_set, decide_False; [by eapply He|]. intros <-. by apply (Hpo j).
      * intros b Hb. rewrite <- Hc by done. apply count_ext; try done.
        -- intros q. by rewrite entry_of_set.
        -- intros q _. rewrite ent_set. by destruct (decide (p = q)) as [<-|].
    + constructor; try done; [set_solver|]. intros q Hq Hql.
      destruct (decide (q = p)) as [->|]; [|apply Hdone; set_solver].
      intros _. split; [lia|]. intros Ht. apply andb_false_iff in E as [E|E].
      * destruct (Z.gtb_spec (CONNECTED_SINCE now (last_connect (ent st p))) 120); [done|lia].
      * apply bool_decide_eq_false in E. by destruct (target (ent st p)); [destruct E|].
Qed.

Lemma expire_chain_spec now st0 i l st :
  expiring now st0 i l st -> expiring now st0 i [] (expire_chain now l st).
Proof. revert st. induction l as [|p l IH]; intros st H; [done|]. cbn [expire_chain]. by apply IH, expire_one. Qed.

Lemma expire_buckets_spec now l : forall st, NoDup l -> ip_inv st ->
  let st' := foldl (expire_bucket now) st l in
  ip_inv st' /\ (forall b, addr_wf b -> ip_registry_count st' b = ip_registry_count st b) /\
  (forall i p, i ∈ l -> p ∈ chain_of (hashTable st') i -> not_stale now (ent st' p)) /\
  (forall j, j ∉ l -> chain_of (hashTable st') j = chain_of (hashTable st) j /\
     forall p, p ∈ chain_of (hashTable st) j -> ent st' p = ent st p).
Proof.
  induction l as [|i l IH]; intros st Hnd Hi.
  { simpl. split_and!; try done. set_solver. }
  apply NoDup_cons in Hnd as [Hil Hnd]. cbn [foldl].
  assert (Hst : expiring now st i (chain_of (hashTable st) i) st).
  { constructor; try done. apply (inv_nodup _ Hi). }
  apply expire_chain_spec in Hst. fold (expire_bucket now st i) in Hst.
  destruct Hst as [Hi1 _ _ Hd1 Ho1 He1 Hc1].
  destruct (IH _ Hnd Hi1) as (Hi2 & Hc2 & Hd2 & Ho2). split_and!; [done| | |].
  - intros b Hb. by rewrite Hc2, Hc1.
  - intros k p Hk Hp. apply elem_of_cons in Hk as [->|Hk]; [|by eapply Hd2].
    destruct (Ho2 i Hil) as [Hch He]. rewrite Hch in Hp. rewrite (He p Hp). apply Hd1; [done|set_solver].
  - intros j Hj. apply not_elem_of_cons in Hj as [Hji Hjl].
    destruct (Ho2 j Hjl) as [Hch He]. rewrite Hch, Ho1 by done. split; [done|].
    intros p Hp. rewrite He by by rewrite Ho1. by eapply He1.
Qed.

Lemma core_expire48 now l st : same_core st (foldl (expire_bucket48 now) st l).
Proof.
  revert st. induction l as [|i l IH]; intros st; [done|]. simpl.
  assert (H : same_core st (expire_bucket48 now st i)).
  { unfold expire_bucket48. by destruct (expire_chain48 _ _ _ _). }
  destruct H as (H1 & H2 & H3). destruct (IH (expire_bucket48 now st i)) as (H4 & H5 & H6).
  split_and!; congruence.
Qed.

Lemma hash_range a : 0 <= ip_registry_hash a < IP_REGISTRY_TABLE_SIZE.
Proof.
  unfold ip_registry_hash. change (IP_REGISTRY_TABLE_SIZE - 1) with (Z.ones 16).
  rewrite Z.land_ones by lia. apply Z.mod_pos_bound. done.
Qed.

(** the periodic [ip_registry_expire] walks every bucket while it
    unlinks entries of it, and still: the registry stays well formed, no
    address loses a connected client, and no entry without a client is left
    that is more than 600 seconds old, or that keeps targets after 120. *)
Theorem ip_registry_expire_ok now st :
  ip_inv st ->
  let st' := ip_registry_expire now st in
  ip_inv st' /\ (forall b, addr_wf b -> ip_registry_count st' b = ip_registry_count st b) /\
  forall i p, p ∈ chain_of (hashTable st') i -> not_stale now (ent st' p).
Proof.
  intros H. unfold ip_registry_expire.
  destruct (expire_buckets_spec now (seqZ 0 IP_REGISTRY_TABLE_SIZE) st (NoDup_seqZ _ _) H)
    as (Hi & Hc & Hd & _).
  set (st1 := foldl (expire_bucket now) st _) in *.
  pose proof (core_expire48 now (seqZ 0 IP_REGISTRY_TABLE_SIZE) st1) as Hcore.
  set (st2 := foldl (expire_bucket48 now) st1 _) in *. cbn zeta. clearbody st1 st2. split_and!.
  - by eapply core_inv.
  - intros b Hb. rewrite (core_count st1) by done. by apply Hc.
  - intros i p Hp. rewrite (core_ent st1) by done. destruct Hcore as (_ & Ht & _). rewrite <- Ht in Hp.
    apply (Hd i); [|done]. apply elem_of_seqZ. destruct (inv_ents _ Hi _ _ Hp) as (_ & <- & _).
    pose proof (hash_range (addr (ent st1 p))). lia.
Qed.

(** ** The registry as a table of counters *)
Inductive ip_event :=
| EvLocal (a : in_addr)
| EvRemote (a : in_addr) (is_burst : bool)
| EvFail (a : in_addr) (disconnect : bool)
| EvDisconnect (c : ip_client)
| EvExpire.

(** The new state, and whether a connection is accepted. *)
Definition run_event (conf : ipcheck_conf) (now : Z) (ev : ip_event) (st : registry)
  : option (registry * bool) :=
  match ev with
  | EvLocal a => let '(st, ok, _) := IPcheck_local_connect conf now a st in Some (st, ok)
  | EvRemote a b => Some (IPcheck_remote_connect conf now a b st)
  | EvFail a d => Some (IPcheck_connect_fail now a d st, true)
  | EvDisconnect c => st ← IPcheck_disconnect conf now c st; Some (st, true)
  | EvExpire => Some (ip_registry_expire now st, true)
  end.

Definition ev_addr (ev : ip_event) : in_addr :=
  match ev with
  | EvLocal a | EvRemote a _ | EvFail a _ => a
  | EvDisconnect c => cli_ip c
  | EvExpire => replicate 8 0
  end.

(** Only connected clients disconnect, and a remote connection that would
    overflow the counter is excluded. *)
Definition ev_pre (st : registry) (ev : ip_event) : Prop :=
  addr_wf (ev_addr ev) /\
  match ev with
  | EvRemote a _ => ip_registry_count st a < 2 ^ 16 - 1
  | EvFail a d => d = true -> 0 < ip_registry_count st a
  | EvDisconnect c => irc_in_addr_valid (cli_ip c) = true -> 0 < ip_registry_count st (cli_ip c)
  | _ => True
  end.

Definition ev_delta (ev : ip_event) (ok : bool) : Z :=
  match ev with
  | EvLocal _ => if ok then 1 else 0
  | EvRemote a _ => if irc_in_addr_valid a then 1 else 0
  | EvFail _ d => if d then -1 else 0
  | EvDisconnect c => if irc_in_addr_valid (cli_ip c) then -1 else 0
  | EvExpire => 0
  end.

(** C34: the registry, with its hash chains, recycled entries, expiry and
    16-bit counters, implements one counter per address (IPv4 address or /64
    prefix): from a well-formed registry every event leaves a well-formed
    one, an accepted local or remote connection adds exactly one to the
    counter of its address, a refused local one adds nothing whichever path
    refuses it, a failed or closed one takes one away, and no other counter
    moves.  Only connections that were counted fail or close, and the remote
    connection that overflows the counter of its address is left out: it is
    refused with the counter at 0 ([remote_overflow]). *)
Theorem ip_event_refines conf now ev st :
  ip_inv st -> ev_pre st ev ->
  exists st' ok, run_event conf now ev st = Some (st', ok) /\ ip_inv st' /\
    forall b, addr_wf b -> ip_registry_count st' b =
      if decide (ip_registry_canonicalize b = ip_registry_canonicalize (ev_addr ev))
      then ip_registry_count st (ev_addr ev) + ev_delta ev ok else ip_registry_count st b.
Proof.
  intros H [Ha Hpre]. destruct ev as [a|a burst|a d|c|]; cbn [run_event ev_addr ev_delta] in *.
  - pose proof (check_local_acct conf now a st H Ha) as Hl. unfold IPcheck_local_connect.
    destruct (ip_registry_check_local conf now a st) as [[st' ok] nt]. by exists st', ok.
  - unfold IPcheck_remote_connect. destruct (irc_in_addr_valid a) eqn:Ev.
    + pose proof (check_remote_acct conf now a burst st H Ha Ev) as Hl.
      destruct (ip_registry_check_remote conf now a burst st) as [st' ok].
      exists st', ok. split; [done|]. destruct ok; [done|]. destruct Hl. lia.
    + unfold ip_registry_check_remote. rewrite Ev. exists st, true. split; [done|]. by apply acct_refl.
  - exists (ip_registry_connect_fail now a d st), true. split; [done|]. by apply connect_fail_acct.
  - unfold IPcheck_disconnect. destruct (irc_in_addr_valid (cli_ip c)) eqn:Ev.
    + destruct (disconnect_acct conf now c st H Ha Ev (Hpre eq_refl)) as (st' & -> & Hl). by exists st', true.
    + unfold ip_registry_disconnect. rewrite Ev. exists st, true. split; [done|]. by apply acct_refl.
  - destruct (ip_registry_expire_ok now st H) as (Hi & Hc & _). eexists _, true. split; [done|].
    split; [done|]. intros b Hb. rewrite Hc by done. destruct (decide _) as [Hab|]; [|done].
    by rewrite (count_canon _ _ _ Hab), Z.add_0_r.
Qed.

(** The number of attempts an entry records next: it starts again after the
    clone period and stays at 255. *)
Definition next_attempts (conf : ipcheck_conf) (now : Z) (e : IPRegistryEntry) : Z :=
  Z.min 255 ((if CONNECTED_SINCE now (last_connect e) >? IPCHECK_CLONE_PERIOD conf
              then 0 else attempts e) + 1).

Lemma attempt_entry_attempts conf now e :
  0 <= attempts e < 2 ^ 8 -> attempts (attempt_entry conf now e) = next_attempts conf now e.
Proof.
  intros Hr. unfold attempt_entry, next_attempts.
  set (e1 := if _ >? _ then with_attempts 0 _ else _).
  assert (H1 : attempts e1 =
    if CONNECTED_SINCE now (last_connect e) >? IPCHECK_CLONE_PERIOD conf then 0 else attempts e).
  { unfold e1. change (last_connect (with_connected ?n ?e)) with (last_connect e). by destruct (_ >? _). }
  destruct (update_free_targets_fields now e1) as (_ & _ & H2 & _).
  set (e2 := fst _) in *. cbn [attempts with_attempts with_last]. rewrite H2, H1.
  set (x := if _ >? _ then 0 else _). assert (0 <= x < 2 ^ 8) by (unfold x; destruct (_ >? _); lia).
  destruct (decide (x = 255)) as [->|].
  - change (w8 (255 + 1)) with 0. change (0 =? 0) with true. by cbn [attempts with_attempts with_last].
  - rewrite w8_small by lia. destruct (Z.eqb_spec (x + 1) 0); [lia|].
    cbn [attempts with_attempts with_last]. rewrite w8_small by lia. lia.
Qed.

(** C35: the throttle.  A local IPv4 connection is refused exactly when its
    address has an entry and either the 16-bit counter of connected clients
    is full, or the attempts of the last clone period, this one included,
    reach [IPCHECK_CLONE_LIMIT] and the server has been up for more than
    [IPCHECK_CLONE_DELAY] seconds; the entry then records the attempt.  This
    is what the comment of [ip_registry_check_local] says; it is one
    connection less than the documentation of the feature allows. *)
Theorem check_local_throttle conf now a st :
  ip_inv st -> addr_wf a -> irc_in_addr_is_ipv4 a = true ->
  (forall p, 0 <= attempts (ent st p) < 2 ^ 8) ->
  let '(st', ok, _) := ip_registry_check_local conf now a st in
  match ip_registry_find st a with
  | None => ok = true
  | Some p =>
      if connected (ent st p) =? 2 ^ 16 - 1 then ok = false
      else
        attempts (ent st' p) = next_attempts conf now (ent st p) /\
        ok = (next_attempts conf now (ent st p) <? IPCHECK_CLONE_LIMIT conf) ||
             negb (now - me_since conf >? IPCHECK_CLONE_DELAY conf)
  end.
Proof.
  intros H Ha H4 Hat. unfold ip_registry_check_local. rewrite H4. cbn [negb]. unfold check_local_entry.
  pose proof (find_spec st a H Ha) as Hf.
  destruct (ip_registry_find st a) as [p|] eqn:E; [|by destruct (ip_registry_new_entry now st)].
  destruct Hf as [Hp _]. destruct (inv_ents _ H _ _ Hp) as (_ & _ & _ & Hr).
  change (connected (with_connected ?n ?e)) with (w16 n). rewrite w16_inc by done.
  destruct (Z.eqb_spec (connected (ent st p)) (2 ^ 16 - 1)) as [Hmax|Hmax]; [done|].
  destruct (Z.eqb_spec (connected (ent st p) + 1) 0); [lia|].
  pose proof (attempt_entry_attempts conf now (ent st p) (Hat p)) as He. unfold attempt_entry in He.
  destruct (ip_registry_update_free_targets _ _) as [e ft]. cbn [fst] in He.
  set (e' := if _ =? 0 then _ else _) in *. rewrite He.
  destruct (_ <? IPCHECK_CLONE_LIMIT conf); cbn [orb].
  - rewrite ent_set, decide_True by done. done.
  - destruct (_ >? IPCHECK_CLONE_DELAY conf); cbn [negb reject_local].
    + rewrite ent_set, !decide_True by done. cbn [attempts with_connected]. by rewrite ent_set, decide_True.
    + by rewrite ent_set, decide_True.
Qed.

(** ** Concrete registries *)
Definition ip_a : in_addr := [0; 0; 0; 0; 0; 65535; htons 0x0a00; htons 0x0001].

Lemma empty_inv : ip_inv empty_registry.
Proof.
  assert (Hn : forall i, chain_of (hashTable empty_registry) i = []).
  { intros i. unfold chain_of. simpl. by rewrite lookup_empty. }
  constructor; simpl; try (intros; rewrite ?Hn in *; set_solver); try constructor.
Qed.

Definition after (conf : ipcheck_conf) (evs : list (Z * ip_event)) : registry :=
  foldl (fun st e => match run_event conf (fst e) (snd e) st with Some (st, _) => st | None => st end)
    empty_registry evs.

(** The fourth connection of a clone period is refused, and not counted. *)
Example throttle_ex :
  let st := after ex_conf [(5000, EvLocal ip_a); (5001, EvLocal ip_a); (5002, EvLocal ip_a)] in
  option_map snd (run_event ex_conf 5003 (EvLocal ip_a) st) = Some false /\
  ip_registry_count (after ex_conf [(5000, EvLocal ip_a); (5001, EvLocal ip_a); (5002, EvLocal ip_a);
                                    (5003, EvLocal ip_a)]) ip_a = 3.
Proof. by vm_compute. Qed.

(** A 6to4 address is compared on 48 bits but hashed on 64: two networks of
    the same /48 have their own entries. *)
Example sixtofour_ex :
  let b := [htons 0x2002; 1; 2; 3; 0; 0; 0; 1] in let c := [htons 0x2002; 1; 2; 4; 0; 0; 0; 1] in
  ipmask_check b c 48 = 1 /\
  ip_registry_count (after ex_conf [(5000, EvLocal b)]) c = 0.
Proof. by vm_compute. Qed.

(** With no free target left, the date handed out is 2^32 seconds in the
    past: [TARGET_DELAY * free_targets - 1] wraps as an unsigned number. *)
Example next_target_wraps :
  let gone := EvDisconnect {| cli_ip := ip_a; my_connect := true; cli_targets := [];
                              cli_nexttarget := 5100; cli_firsttime := 5000 |} in
  let st := after ex_conf [(5000, EvLocal ip_a); (5001, gone)] in
  snd (ip_registry_check_local ex_conf 5001 ip_a st) = Some (5001 - (2 ^ 32 - 1)).
Proof. by vm_compute. Qed.

(** A remote connection past the 65535th resets the counter to 0. *)
Example remote_overflow :
  let st := after ex_conf [(5000, EvLocal ip_a)] in
  let p := default 1%positive (ip_registry_find st ip_a) in
  let st := set_ent p (with_connected 65535 (ent st p)) st in
  let '(st, ok) := ip_registry_check_remote ex_conf 5001 ip_a false st in
  ok = false /\ ip_registry_count st ip_a = 0.
Proof. by vm_compute. Qed.

Lemma ip_a_wf : addr_wf ip_a.
Proof. split; [done|]. by apply (bool_decide_unpack _). Qed.

Lemma ip_event_refines_witness :
  exists st' ok, run_event ex_conf 5000 (EvLocal ip_a) empty_registry = Some (st', ok) /\ ip_inv st' /\
    forall b, addr_wf b -> ip_registry_count st' b =
      if decide (ip_registry_canonicalize b = ip_registry_canonicalize (ev_addr (EvLocal ip_a)))
      then ip_registry_count empty_registry (ev_addr (EvLocal ip_a)) + ev_delta (EvLocal ip_a) ok
      else ip_registry_count empty_registry b.
Proof.
  apply (ip_event_refines ex_conf 5000 (EvLocal ip_a) empty_registry).
  - apply empty_inv.
  - split; [apply ip_a_wf | done].
Defined.

Lemma check_local_throttle_witness :
  let '(st', ok, _) := ip_registry_check_local ex_conf 5000 ip_a empty_registry in
  match ip_registry_find empty_registry ip_a with
  | None => ok = true
  | Some p =>
      if connected (ent empty_registry p) =? 2 ^ 16 - 1 then ok = false
      else
        attempts (ent st' p) = next_attempts ex_conf 5000 (ent empty_registry p) /\
        ok = (next_attempts ex_conf 5000 (ent empty_registry p) <? IPCHECK_CLONE_LIMIT ex_conf) ||
             negb (5000 - me_since ex_conf >? IPCHECK_CLONE_DELAY ex_conf)
  end.
Proof.
  apply (check_local_throttle ex_conf 5000 ip_a empty_registry).
  - apply empty_inv.
  - apply ip_a_wf.
  - reflexivity.
  - intros p. unfold ent. simpl. rewrite lookup_empty. simpl. lia.
Defined.

Lemma ip_registry_expire_ok_witness :
  let st' := ip_registry_expire 5000 empty_registry in
  ip_inv st' /\
  (forall b, addr_wf b -> ip_registry_count st' b = ip_registry_count empty_registry b) /\
  forall i p, p ∈ chain_of (hashTable st') i -> not_stale 5000 (ent st' p).
Proof. apply (ip_registry_expire_ok 5000 empty_registry). apply empty_inv. Defined.
