(* ===== verification/Dbuf.v ===== *)
(** * Dynamic byte buffers (dbuf.c)

    The chain of a [struct DBuf] from [head] is a list of buffers ([tail] is
    its last element and is null when it is empty); of a buffer's 2048 bytes
    the model keeps those before [end], with the offset of [start].  The
    state shared by all the queues is the pool: the counts and the number of
    buffers on the free list. *)
From S2P Require Import Prelude Chattr.
From stdpp Require Import options.

Definition DBUF_SIZE : nat := Z.to_nat 2048.

Record DBufBuffer := { start : nat; data : list ascii }.

Record DBuf := { dlength : Z; chain_ : list DBufBuffer }.

Record pool := { DBufAllocCount : Z; DBufUsedCount : Z; dbufFreeList : nat }.

Definition empty_dbuf : DBuf := {| dlength := 0; chain_ := [] |}.
Definition empty_pool : pool := {| DBufAllocCount := 0; DBufUsedCount := 0; dbufFreeList := 0 |}.

(** The bytes between [start] and [end]. *)
Definition live (db : DBufBuffer) : list ascii := drop (start db) (data db).
Definition advance (n : nat) (db : DBufBuffer) : DBufBuffer :=
  {| start := start db + n; data := data db |}.

Open Scope Z_scope.

(** [struct_size] is [sizeof(struct DBufBuffer)]. *)
Definition dbuf_count_memory (struct_size : Z) (pl : pool) : Z * Z :=
  (DBufAllocCount pl * struct_size, DBufUsedCount pl * struct_size).

(** [BUFFERPOOL] is the feature of that name; false: no buffer. *)
Definition dbuf_alloc (BUFFERPOOL : Z) (pl : pool) : pool * bool :=
  match dbufFreeList pl with
  | S n => ({| DBufAllocCount := DBufAllocCount pl; DBufUsedCount := DBufUsedCount pl + 1;
               dbufFreeList := n |}, true)
  | O =>
      if DBufAllocCount pl * Z.of_nat DBUF_SIZE <? BUFFERPOOL then
        ({| DBufAllocCount := DBufAllocCount pl + 1; DBufUsedCount := DBufUsedCount pl + 1;
            dbufFreeList := O |}, true)
      else (pl, false)
  end.

Definition dbuf_free (pl : pool) : pool :=
  {| DBufAllocCount := DBufAllocCount pl; DBufUsedCount := DBufUsedCount pl - 1;
     dbufFreeList := S (dbufFreeList pl) |}.

Definition dbuf_malloc_error (dyn : DBuf) (pl : pool) : DBuf * pool :=
  (empty_dbuf, foldl (fun pl _ => dbuf_free pl) pl (chain_ dyn)).

Section put.
(** The features, and the effect of [flush_connections] on the pool. *)
Context (BUFFERPOOL : Z) (HAS_FERGUSON_FLUSHER : bool) (flush_connections : pool -> pool).

Definition alloc_or_flush (pl : pool) : pool * bool :=
  let '(pl, ok) := dbuf_alloc BUFFERPOOL pl in
  if ok then (pl, true)
  else if HAS_FERGUSON_FLUSHER then dbuf_alloc BUFFERPOOL (flush_connections pl)
  else (pl, false).

(** The loop of [dbuf_put]: [h] points to the link whose chain is [l]. *)
Fixpoint put_loop (n : nat) (pl : pool) (l : list DBufBuffer) (buf : list ascii)
  : pool * list DBufBuffer * bool :=
  match buf, n with
  | [], _ => (pl, l, true)
  | _, O => (pl, l, false)
  | _, S n =>
      let fill pl db rest :=
        let chunk := (DBUF_SIZE - length (data db))%nat in
        let chunk := if (length buf <? chunk)%nat then length buf else chunk in
        let '(pl, rest, ok) := put_loop n pl rest (drop chunk buf) in
        (pl, {| start := start db; data := data db ++ take chunk buf |} :: rest, ok) in
      match l with
      | db :: rest => fill pl db rest
      | [] =>
          let '(pl, ok) := alloc_or_flush pl in
          if ok then fill pl {| start := 0; data := [] |} [] else (pl, [], false)
      end
  end.

Definition dbuf_put (dyn : DBuf) (pl : pool) (buf : list ascii) : DBuf * pool * bool :=
  let '(before, from) :=
    if dlength dyn =? 0 then ([], chain_ dyn)
    else match rev (chain_ dyn) with
         | tail :: r => (rev r, [tail])
         | [] => ([], [])
         end in
  let '(pl, l, ok) := put_loop (S (length buf)) pl from buf in
  let dyn := {| dlength := w32 (dlength dyn + Z.of_nat (length buf)); chain_ := before ++ l |} in
  if ok then (dyn, pl, true)
  else let '(dyn, pl) := dbuf_malloc_error dyn pl in (dyn, pl, false).
End put.

(** [None]: a null pointer. *)
Definition dbuf_map (dyn : DBuf) : option (list ascii) :=
  if dlength dyn =? 0 then None
  else match chain_ dyn with
       | db :: _ => Some (live db)
       | [] => None
       end.

(** The loop of [dbuf_delete].  A buffer that keeps some bytes has absorbed
    all of [length]. *)
Fixpoint delete_loop (l : list DBufBuffer) (dlen : Z) (len : nat) (pl : pool)
  : list DBufBuffer * Z * pool :=
  match l with
  | [] => ([], dlen, pl)
  | db :: rest =>
      if (len =? 0)%nat then (l, dlen, pl)
      else
        let chunk := length (live db) in
        let chunk := if (len <? chunk)%nat then len else chunk in
        let dlen := w32 (dlen - Z.of_nat chunk) in
        let db := advance chunk db in
        if (start db =? length (data db))%nat
        then delete_loop rest dlen (len - chunk) (dbuf_free pl)
        else (db :: rest, dlen, pl)
  end.

Definition dbuf_delete (dyn : DBuf) (len : nat) (pl : pool) : DBuf * pool :=
  let len := if Z.of_nat len >? dlength dyn then Z.to_nat (dlength dyn) else len in
  let '(l, dlen, pl) := delete_loop (chain_ dyn) (dlength dyn) len pl in
  match l with
  | [] => (empty_dbuf, pl)
  | _ => ({| dlength := dlen; chain_ := l |}, pl)
  end.

Definition DBufClear (dyn : DBuf) (pl : pool) : DBuf * pool :=
  dbuf_delete dyn (Z.to_nat (dlength dyn)) pl.

(** [dbuf_get]: the bytes copied to [buf] are returned. *)
Definition get_step (s : DBuf * pool * list ascii * nat) : (DBuf * pool * list ascii * nat) + (DBuf * pool * list ascii) :=
  let '(dyn, pl, buf, len) := s in
  if (len =? 0)%nat then inr (dyn, pl, buf)
  else match dbuf_map dyn with
       | None => inr (dyn, pl, buf)
       | Some b =>
           let chunk := if (len <? length b)%nat then len else length b in
           let '(dyn, pl) := dbuf_delete dyn chunk pl in
           inl (dyn, pl, buf ++ take chunk b, (len - chunk)%nat)
       end.

Definition dbuf_get (dyn : DBuf) (pl : pool) (len : nat) : option (DBuf * pool * list ascii) :=
  loop get_step (S len) (dyn, pl, [], len).

(** [dbuf_flush]; [*db->start] of an empty buffer is not a byte of it. *)
Definition flush_step (s : DBuf * pool) : (DBuf * pool) + (DBuf * pool) :=
  let '(dyn, pl) := s in
  match chain_ dyn with
  | [] => inr (dyn, pl)
  | db :: rest =>
      match live db with
      | c :: _ =>
          if IsEol c then
            let db := advance 1 db in
            if (start db =? length (data db))%nat then
              let pl := dbuf_free pl in
              match rest with
              | [] => inr (empty_dbuf, pl)
              | _ => inl ({| dlength := w32 (dlength dyn - 1); chain_ := rest |}, pl)
              end
            else inl ({| dlength := w32 (dlength dyn - 1); chain_ := db :: rest |}, pl)
          else inr (dyn, pl)
      | [] => inr (dyn, pl)
      end
  end.

Definition dbuf_flush (dyn : DBuf) (pl : pool) : option (DBuf * pool * Z) :=
  match chain_ dyn with
  | [] => Some (dyn, pl, 0)
  | _ =>
      '(dyn, pl) ← loop flush_step (S (length (concat (map live (chain_ dyn))))) (dyn, pl);
      Some (dyn, pl, dlength dyn)
  end.

(** The characters before the first end of line. *)
Fixpoint line_of (s : list ascii) : list ascii :=
  match s with
  | [] => []
  | c :: s' => if IsEol c then [] else c :: line_of s'
  end.

(** The loop of [dbuf_getmsg]: [Some] the line when its end is found. *)
Fixpoint getmsg_loop (l : list DBufBuffer) (len : nat) (buf : list ascii) : option (list ascii) :=
  match l with
  | [] => None
  | db :: rest =>
      if (len =? 0)%nat then None
      else
        let avail := take len (live db) in
        let got := line_of avail in
        if (length got <? length avail)%nat then Some (buf ++ got)
        else match rest with
             | [] => None
             | _ => getmsg_loop rest (len - length got) (buf ++ got)
             end
  end.

(** [None] in the last component: the result is 0 and [buf] is not a line. *)
Definition dbuf_getmsg (dyn : DBuf) (pl : pool) (len : nat) : option (DBuf * pool * option (list ascii)) :=
  '(dyn, pl, n) ← dbuf_flush dyn pl;
  if (n : Z) =? 0 then Some (dyn, pl, None)
  else
    let len := if Z.of_nat len >? dlength dyn then Z.to_nat (dlength dyn) else len in
    match getmsg_loop (chain_ dyn) len [] with
    | None => Some (dyn, pl, None)
    | Some line =>
        let '(dyn, pl) := dbuf_delete dyn (length line) pl in
        '(dyn, pl, _) ← dbuf_flush dyn pl;
        Some (dyn, pl, Some line)
    end.

(** ** A queue is a byte stream *)
Definition bytes (dyn : DBuf) : list ascii := concat (map live (chain_ dyn)).

Definition chunk_ok (db : DBufBuffer) : Prop := (start db < length (data db) <= DBUF_SIZE)%nat.

Definition dbuf_inv (dyn : DBuf) : Prop :=
  Forall chunk_ok (chain_ dyn) /\ dlength dyn = Z.of_nat (length (bytes dyn)) /\ dlength dyn < 2 ^ 32.

(** Every allocated buffer is in use or on the free list. *)
Definition pool_inv (pl : pool) : Prop :=
  DBufAllocCount pl = DBufUsedCount pl + Z.of_nat (dbufFreeList pl).

(** [k] buffers in use fewer. *)
Definition released (pl : pool) (k : Z) (pl' : pool) : Prop :=
  pool_inv pl' /\ DBufUsedCount pl' = DBufUsedCount pl - k.

Definition nbufs (l : list DBufBuffer) : Z := Z.of_nat (length l).

Lemma released_refl pl : pool_inv pl -> released pl 0 pl.
Proof. intros H. split; [done|lia]. Qed.

Lemma released_trans pl k pl1 k1 pl2 : released pl k pl1 -> released pl1 k1 pl2 -> released pl (k + k1) pl2.
Proof. intros [_ H] [H1 H2]. split; [done|lia]. Qed.

Lemma dbuf_free_released pl : pool_inv pl -> released pl 1 (dbuf_free pl).
Proof. unfold pool_inv, released. simpl. unfold pool_inv. simpl. lia. Qed.

Lemma free_all_released l pl : pool_inv pl -> released pl (nbufs l) (foldl (fun pl _ => dbuf_free pl) pl l).
Proof.
  unfold nbufs. revert pl. induction l as [|db l IH]; intros pl H; [by apply released_refl|].
  cbn [foldl length]. rewrite Nat2Z.inj_succ. replace (Z.succ _) with (1 + Z.of_nat (length l)) by lia.
  eapply released_trans; [by apply dbuf_free_released|]. apply IH. by apply dbuf_free_released.
Qed.

Lemma chunk_live db : chunk_ok db -> (0 < length (live db))%nat.
Proof. unfold chunk_ok, live. rewrite length_drop. lia. Qed.

Section put_spec.
Context (BUFFERPOOL : Z) (HAS_FERGUSON_FLUSHER : bool) (flush_connections : pool -> pool).
(** [flush_connections] writes out the send queues, which are kept in other
    buffers: it takes none of this pool. *)
Hypothesis flush_pool : forall pl, pool_inv pl -> released pl 0 (flush_connections pl).

Let alloc := alloc_or_flush BUFFERPOOL HAS_FERGUSON_FLUSHER flush_connections.

Lemma dbuf_alloc_spec pl :
  pool_inv pl -> let '(pl', ok) := dbuf_alloc BUFFERPOOL pl in released pl (if ok then -1 else 0) pl'.
Proof.
  intros H. unfold dbuf_alloc. unfold released, pool_inv in *.
  destruct (dbufFreeList pl) eqn:E; [destruct (_ <? _)|]; simpl; lia.
Qed.

Lemma alloc_spec pl : pool_inv pl -> let '(pl', ok) := alloc pl in released pl (if ok then -1 else 0) pl'.
Proof using flush_pool.
  intros H. unfold alloc, alloc_or_flush. pose proof (dbuf_alloc_spec pl H) as H1.
  destruct (dbuf_alloc BUFFERPOOL pl) as [pl1 ok1]. destruct ok1; [done|].
  destruct HAS_FERGUSON_FLUSHER; [|done]. destruct H1 as [Hi Hu].
  pose proof (flush_pool _ Hi) as H2. pose proof (dbuf_alloc_spec _ (proj1 H2)) as H3.
  destruct (dbuf_alloc BUFFERPOOL (flush_connections pl1)) as [pl2 ok].
  destruct H2, H3. split; [done|]. destruct ok; lia.
Qed.

Let put := put_loop BUFFERPOOL HAS_FERGUSON_FLUSHER flush_connections.

(** What the loop does to a chain [l]. *)
Definition put_post (pl : pool) (l : list DBufBuffer) (buf : list ascii)
  (r : pool * list DBufBuffer * bool) : Prop :=
  let '(pl', l', ok) := r in
  released pl (nbufs l - nbufs l') pl' /\
  (ok = true -> Forall chunk_ok l' /\ concat (map live l') = concat (map live l) ++ buf).

(** Filling a last buffer, then new ones. *)
Lemma fill_spec n pl db buf :
  pool_inv pl -> (start db <= length (data db) <= DBUF_SIZE)%nat ->
  ((start db < length (data db)) \/ (length (data db) < DBUF_SIZE))%nat -> buf <> [] ->
  let chunk := (DBUF_SIZE - length (data db))%nat in
  let chunk := if (length buf <? chunk)%nat then length buf else chunk in
  put_post pl [] (drop chunk buf) (put n pl [] (drop chunk buf)) ->
  put_post pl [db] buf
    (let '(pl, rest, ok) := put n pl [] (drop chunk buf) in
     (pl, {| start := start db; data := data db ++ take chunk buf |} :: rest, ok)).
Proof.
  intros Hp Hdb Hroom Hne chunk0 chunk. destruct (put n pl [] (drop chunk buf)) as [[pl' rest'] ok].
  intros [Hr Hok]. split.
  - destruct Hr as [Hi Hr]. split; [done|]. unfold nbufs in *. cbn [length] in *. lia.
  - intros Ht. destruct (Hok Ht) as [Hf Hc]. simpl in Hc. split.
    + constructor; [|done]. unfold chunk_ok. cbn [start data]. rewrite length_app, length_take.
      assert (0 < length buf)%nat by (destruct buf; [done|simpl; lia]).
      unfold chunk, chunk0. destruct (Nat.ltb_spec (length buf) (DBUF_SIZE - length (data db))); lia.
    + cbn [map concat]. rewrite Hc. unfold live. cbn [start data].
      rewrite drop_app_le, app_nil_r, <- app_assoc, take_drop by lia. done.
Qed.

Lemma put_nil_spec n : forall pl buf,
  pool_inv pl -> (length buf <= n)%nat -> put_post pl [] buf (put n pl [] buf).
Proof using flush_pool.
  induction n as [|n IH]; intros pl buf Hp Hn; destruct buf as [|c buf];
    try (cbn [length] in Hn; lia);
    try (split; [by apply released_refl|done]).
  unfold put. cbn [put_loop]. pose proof (alloc_spec pl Hp) as Ha. fold alloc.
  destruct (alloc pl) as [pl1 ok]. destruct ok; [|by split].
  assert (Hnew : put_post pl1 [{| start := 0; data := [] |}] (c :: buf)
    (let '(pl, rest, ok) := put n pl1 []
        (drop (if (length (c :: buf) <? DBUF_SIZE - 0)%nat then length (c :: buf) else (DBUF_SIZE - 0)%nat) (c :: buf)) in
     (pl, {| start := 0; data := [] ++ take (if (length (c :: buf) <? DBUF_SIZE - 0)%nat
              then length (c :: buf) else (DBUF_SIZE - 0)%nat) (c :: buf) |} :: rest, ok))).
  { apply (fill_spec n pl1 {| start := 0; data := [] |}); cbn [start data length].
    - apply Ha.
    - lia.
    - right. apply Nat.ltb_lt. by vm_compute.
    - done.
    - apply IH; [apply Ha|]. rewrite length_drop. assert (1 <= DBUF_SIZE)%nat by (apply Nat.leb_le; by vm_compute).
      cbn [length] in *. destruct (Nat.ltb_spec (S (length buf)) (DBUF_SIZE - 0)); lia. }
  unfold put in Hnew. cbn [start data length] in *.
  destruct (put_loop _ _ _ n pl1 [] _) as [[pl2 rest'] ok]. destruct Hnew as [Hr Hok]. split; [|done].
  destruct Ha as [_ Ha]. destruct Hr as [Hi Hr]. split; [done|]. unfold nbufs in *. cbn [length] in *. lia.
Qed.

Lemma put_last_spec n pl db buf :
  pool_inv pl -> chunk_ok db -> (length buf < n)%nat -> put_post pl [db] buf (put n pl [db] buf).
Proof using flush_pool.
  intros Hp Hdb Hn. destruct buf as [|c buf], n as [|n]; try lia.
  - split; [rewrite Z.sub_diag; by apply released_refl|]. intros _. split; [by constructor|]. by rewrite app_nil_r.
  - unfold put. cbn [put_loop]. apply (fill_spec n pl db (c :: buf)); unfold chunk_ok in Hdb; try done.
    + lia.
    + left. lia.
    + apply put_nil_spec; [done|]. rewrite length_drop. cbn [length] in *. lia.
Qed.
End put_spec.

Lemma length_bytes_cons db l : length (concat (map live (db :: l))) = (length (live db) + length (concat (map live l)))%nat.
Proof. simpl. by rewrite length_app. Qed.

Lemma delete_loop_spec l : forall dlen len pl,
  pool_inv pl -> Forall chunk_ok l -> dlen = Z.of_nat (length (concat (map live l))) -> dlen < 2 ^ 32 ->
  (len <= length (concat (map live l)))%nat ->
  let '(l', dlen', pl') := delete_loop l dlen len pl in
  Forall chunk_ok l' /\ concat (map live l') = drop len (concat (map live l)) /\
  dlen' = dlen - Z.of_nat len /\ released pl (nbufs l - nbufs l') pl'.
Proof.
  induction l as [|db l IH]; intros dlen len pl Hp Hl Hd Hmax Hlen.
  { simpl in *. split_and!; [done|by rewrite drop_nil|lia|]. by apply released_refl. }
  apply Forall_cons in Hl as [Hdb Hl]. rewrite length_bytes_cons in *.
  cbn [delete_loop]. destruct (Nat.eqb_spec len 0) as [->|Hne].
  { split_and!; [by constructor|done|lia|]. rewrite Z.sub_diag. by apply released_refl. }
  set (chunk := if (len <? length (live db))%nat then len else length (live db)).
  pose proof (chunk_live _ Hdb) as Hlive.
  assert (Hchunk : chunk = Nat.min len (length (live db))).
  { unfold chunk. destruct (Nat.ltb_spec len (length (live db))); lia. }
  assert (Hw : w32 (dlen - Z.of_nat chunk) = dlen - Z.of_nat chunk) by (apply w32_small; lia).
  clearbody chunk. rewrite Hw. unfold advance. cbn [start data]. unfold live in Hchunk, Hlive. rewrite length_drop in *.
  unfold chunk_ok in Hdb. destruct (Nat.eqb_spec (start db + chunk) (length (data db))) as [He|He].
  - assert (Hc : chunk = length (live db)) by (unfold live; rewrite length_drop; lia).
    specialize (IH (dlen - Z.of_nat chunk) (len - chunk)%nat (dbuf_free pl)).
    specialize (IH (proj1 (dbuf_free_released pl Hp)) Hl ltac:(lia) ltac:(lia) ltac:(lia)).
    destruct (delete_loop l _ _ _) as [[l' dlen'] pl']. destruct IH as (Hl' & Hb & Hd' & Hr).
    split_and!; [done| |lia|].
    + rewrite Hb. cbn [map concat]. rewrite drop_app, (drop_ge (live db)) by lia. simpl. f_equal. lia.
    + pose proof (released_trans _ _ _ _ _ (dbuf_free_released pl Hp) Hr) as [Hi Hu].
      split; [done|]. unfold nbufs in *. cbn [length]. lia.
  - assert (len = chunk) by lia. split_and!.
    + constructor; [|done]. unfold chunk_ok. simpl. lia.
    + cbn [map concat]. unfold live at 1. cbn [start data]. rewrite drop_app.
      unfold live. rewrite drop_drop, length_drop. replace (len - (length (data db) - start db))%nat with 0%nat by lia.
      by subst len.
    + lia.
    + unfold nbufs. cbn [length]. replace (_ - _) with 0 by lia. by apply released_refl.
Qed.

Definition steps_to (dyn : DBuf) (pl : pool) (s : list ascii) (dyn' : DBuf) (pl' : pool) : Prop :=
  dbuf_inv dyn' /\ bytes dyn' = s /\ released pl (nbufs (chain_ dyn) - nbufs (chain_ dyn')) pl'.

Lemma dbuf_delete_spec dyn pl len :
  dbuf_inv dyn -> pool_inv pl ->
  let '(dyn', pl') := dbuf_delete dyn len pl in steps_to dyn pl (drop len (bytes dyn)) dyn' pl'.
Proof.
  intros (Hf & Hd & Hmax) Hp. unfold dbuf_delete.
  set (len' := if _ >? _ then _ else _).
  assert (Hl : len' = Nat.min len (length (bytes dyn))).
  { unfold len'. destruct (Z.gtb_spec (Z.of_nat len) (dlength dyn)); lia. }
  assert (Hb : drop len (bytes dyn) = drop len' (bytes dyn)).
  { destruct (decide (len <= length (bytes dyn))%nat); [f_equal; lia|]. rewrite !drop_ge by lia. done. }
  rewrite Hb. clearbody len'. pose proof (delete_loop_spec (chain_ dyn) (dlength dyn) len' pl Hp Hf Hd Hmax) as H.
  specialize (H ltac:(fold (bytes dyn); lia)).
  destruct (delete_loop _ _ _ _) as [[l' dlen'] pl']. destruct H as (Hf' & Hb' & Hd' & Hr). fold (bytes dyn) in Hb'.
  destruct l' as [|db l'].
  - split_and!; [|by rewrite <- Hb'|done]. split; [constructor|done].
  - split_and!; [|done|done]. split_and!; [done| |simpl; lia]. cbn [dlength].
    unfold bytes at 1. cbn [chain_]. rewrite Hb', length_drop. lia.
Qed.

Lemma empty_dbuf_inv : dbuf_inv empty_dbuf.
Proof. split; [constructor|]. by split. Qed.

Lemma dbuf_map_spec dyn :
  dbuf_inv dyn ->
  match dbuf_map dyn with
  | None => bytes dyn = []
  | Some b => (exists r, bytes dyn = b ++ r) /\ (0 < length b)%nat
  end.
Proof.
  intros (Hf & Hd & _). unfold dbuf_map. destruct (Z.eqb_spec (dlength dyn) 0) as [He|He].
  - apply nil_length_inv. lia.
  - unfold bytes in *. destruct (chain_ dyn) as [|db l]; [simpl in *; lia|].
    apply Forall_cons in Hf as [Hdb _]. split; [by eexists|by apply chunk_live].
Qed.

Lemma get_loop_spec n : forall dyn pl buf len,
  dbuf_inv dyn -> pool_inv pl -> (len < n)%nat ->
  exists dyn' pl', loop get_step n (dyn, pl, buf, len) = Some (dyn', pl', buf ++ take len (bytes dyn)) /\
    steps_to dyn pl (drop len (bytes dyn)) dyn' pl'.
Proof.
  induction n as [|n IH]; intros dyn pl buf len Hi Hp Hn; [lia|]. cbn [loop]. unfold get_step at 1.
  assert (Hself : steps_to dyn pl (bytes dyn) dyn pl).
  { split_and!; [done|done|]. rewrite Z.sub_diag. by apply released_refl. }
  destruct (Nat.eqb_spec len 0) as [->|Hne]; [exists dyn, pl; by rewrite take_0, app_nil_r, drop_0|].
  pose proof (dbuf_map_spec dyn Hi) as Hm. destruct (dbuf_map dyn) as [b|].
  2: { exists dyn, pl. rewrite Hm in *. by rewrite take_nil, drop_nil, app_nil_r. }
  destruct Hm as [[r Hb] Hpos]. set (chunk := if (len <? length b)%nat then len else length b).
  assert (Hchunk : chunk = Nat.min len (length b)).
  { unfold chunk. destruct (Nat.ltb_spec len (length b)); lia. }
  clearbody chunk. pose proof (dbuf_delete_spec dyn pl chunk Hi Hp) as Hdel.
  destruct (dbuf_delete dyn chunk pl) as [dyn1 pl1]. destruct Hdel as (Hi1 & Hb1 & Hr1).
  destruct (IH dyn1 pl1 (buf ++ take chunk b) (len - chunk)%nat Hi1 (proj1 Hr1) ltac:(lia))
    as (dyn' & pl' & -> & Hi' & Hb' & Hr').
  exists dyn', pl'. split.
  - do 2 f_equal. rewrite <- app_assoc, Hb1, Hb. f_equal. rewrite drop_app, take_app, (take_app b r len).
    destruct (decide (len < length b)%nat).
    + rewrite Hchunk. replace (len - _)%nat with 0%nat by lia. rewrite take_0, Nat.min_l by lia.
      replace (len - length b)%nat with 0%nat by lia. by rewrite !take_0, !app_nil_r.
    + rewrite Hchunk, Nat.min_r by lia. rewrite (drop_ge b), Nat.sub_diag, drop_0, !(take_ge b) by lia. simpl. by rewrite take_nil, Nat.sub_0_r.
  - split_and!; [done| |].
    + rewrite Hb', Hb1, drop_drop. f_equal. lia.
    + pose proof (released_trans _ _ _ _ _ Hr1 Hr') as [? ?]. split; [done|lia].
Qed.

(** The characters left after the empty lines. *)
Fixpoint skip_eols (s : list ascii) : list ascii :=
  match s with
  | [] => []
  | c :: s' => if IsEol c then skip_eols s' else s
  end.

Lemma flush_loop_spec n : forall dyn pl,
  dbuf_inv dyn -> pool_inv pl -> (length (bytes dyn) < n)%nat ->
  exists dyn' pl', loop flush_step n (dyn, pl) = Some (dyn', pl') /\
    steps_to dyn pl (skip_eols (bytes dyn)) dyn' pl'.
Proof.
  induction n as [|n IH]; intros dyn pl Hi Hp Hn; [lia|]. cbn [loop]. unfold flush_step at 1.
  assert (Hself : steps_to dyn pl (bytes dyn) dyn pl).
  { split_and!; [done|done|]. rewrite Z.sub_diag. by apply released_refl. }
  pose proof Hi as (Hf & Hd & Hmax). destruct dyn as [dlen l]. unfold bytes in *. cbn [chain_ dlength] in *.
  destruct l as [|db l]; [by eexists _, _|]. apply Forall_cons in Hf as [Hdb Hf].
  pose proof (chunk_live _ Hdb) as Hlive.
  destruct (live db) as [|c s] eqn:El; [simpl in Hlive; lia|].
  cbn [map concat] in *. rewrite El in *. cbn [app length] in *. cbn [skip_eols].
  destruct (IsEol c) eqn:Ec; [|by eexists _, _].
  assert (Hadv : live (advance 1 db) = s).
  { unfold live, advance in *. cbn [start data].
    rewrite <- (drop_drop (data db) 1 (start db)), El. done. }
  assert (Hw : w32 (dlen - 1) = dlen - 1) by (apply w32_small; lia). rewrite Hw.
  assert (Hls : length s = (length (data db) - S (start db))%nat).
  { rewrite <- Hadv. unfold live, advance. rewrite length_drop. simpl. lia. }
  destruct (Nat.eqb_spec (start (advance 1 db)) (length (data (advance 1 db)))) as [He|He].
  - assert (Hs : s = []) by (apply nil_length_inv; unfold advance in He; cbn [start data] in He; lia).
    clear Hadv. subst s. cbn [app length] in *. destruct l as [|db' l].
    + eexists _, _. split; [done|]. split_and!; [apply empty_dbuf_inv|done|].
      by apply dbuf_free_released.
    + cbn [map concat] in *. set (dyn1 := {| dlength := dlen - 1; chain_ := db' :: l |}).
      assert (Hi1 : dbuf_inv dyn1) by (split_and!; unfold dyn1, bytes; cbn [dlength chain_ map concat]; [done|lia|lia]).
      destruct (IH dyn1 (dbuf_free pl) Hi1) as (dyn' & pl' & -> & Hi' & Hb' & Hr').
      * by apply dbuf_free_released.
      * unfold dyn1, bytes. cbn [chain_ map concat]. lia.
      * eexists _, _. split; [done|]. split_and!; [done|done|].
        pose proof (released_trans _ _ _ _ _ (dbuf_free_released pl Hp) Hr') as [? ?].
        split; [done|]. unfold dyn1, nbufs in *. cbn [chain_ length] in *. lia.
  - set (dyn1 := {| dlength := dlen - 1; chain_ := advance 1 db :: l |}).
    assert (Hi1 : dbuf_inv dyn1).
    { split_and!; unfold dyn1, bytes; cbn [dlength chain_ map concat]; rewrite ?Hadv; [|lia|lia].
      constructor; [|done]. unfold chunk_ok, advance in *. cbn [start data] in *. lia. }
    destruct (IH dyn1 pl Hi1 Hp) as (dyn' & pl' & -> & Hi' & Hb' & Hr').
    { unfold dyn1, bytes. cbn [chain_ map concat]. rewrite Hadv. lia. }
    eexists _, _. split; [done|]. unfold dyn1, bytes in Hb'. cbn [chain_ map concat] in Hb'. rewrite Hadv in Hb'.
    split_and!; [done|done|done].
Qed.

Lemma dbuf_flush_spec dyn pl :
  dbuf_inv dyn -> pool_inv pl ->
  exists dyn' pl', dbuf_flush dyn pl = Some (dyn', pl', dlength dyn') /\
    steps_to dyn pl (skip_eols (bytes dyn)) dyn' pl'.
Proof.
  intros Hi Hp. destruct (flush_loop_spec (S (length (bytes dyn))) dyn pl Hi Hp ltac:(lia)) as (dyn' & pl' & He & Hs).
  unfold dbuf_flush. destruct (chain_ dyn) as [|db l] eqn:Ec.
  - exists dyn, pl. destruct Hi as (? & Hd & ?). unfold bytes in *. rewrite Ec in *. split; [by rewrite Hd|].
    split_and!; [split_and!; unfold bytes; by rewrite ?Ec| unfold bytes; by rewrite Ec|].
    rewrite Z.sub_diag. by apply released_refl.
  - unfold bytes in He at 1. rewrite Ec in He. rewrite He. by eexists _, _.
Qed.

Lemma line_of_length s : (length (line_of s) <= length s)%nat.
Proof. induction s as [|c s IH]; simpl; [lia|]. destruct (IsEol c); simpl; lia. Qed.

Lemma line_of_app s t :
  line_of (s ++ t) = if (length (line_of s) <? length s)%nat then line_of s else s ++ line_of t.
Proof.
  induction s as [|c s IH]; [done|]. cbn [app line_of]. destruct (IsEol c); [done|].
  rewrite IH. cbn [length]. change (S ?a <? S ?b)%nat with (a <? b)%nat. by destruct (_ <? _)%nat.
Qed.

(** The line at the front of a text, when it ends inside it. *)
Definition whole_line (s : list ascii) : option (list ascii) :=
  if (length (line_of s) <? length s)%nat then Some (line_of s) else None.

Lemma getmsg_loop_spec l : forall len buf,
  getmsg_loop l len buf = option_map (app buf) (whole_line (take len (concat (map live l)))).
Proof.
  unfold whole_line. induction l as [|db l IH]; intros len buf; [cbn [map concat]; by rewrite take_nil|].
  cbn [getmsg_loop map concat]. destruct (Nat.eqb_spec len 0) as [->|Hne]; [done|].
  rewrite take_app, line_of_app, length_app. set (avail := take len (live db)).
  pose proof (line_of_length avail).
  destruct (Nat.ltb_spec (length (line_of avail)) (length avail)).
  - destruct (Nat.ltb_spec (length (line_of avail))
      (length avail + length (take (len - length (live db)) (concat (map live l))))); [done|lia].
  - assert (Hg : line_of avail = avail).
    { clearbody avail. clear -H0. induction avail as [|c a IH]; [done|]. simpl in *.
      destruct (IsEol c); simpl in *; [lia|]. f_equal. apply IH. lia. }
    rewrite Hg. assert (Ha : length avail = Nat.min len (length (live db))) by (unfold avail; apply length_take).
    replace (len - length avail)%nat with (len - length (live db))%nat by lia.
    set (x := take (len - length (live db)) (concat (map live l))). rewrite length_app.
    change (length avail + length (line_of x) <? length avail + length x)%nat
      with (length avail + length (line_of x) <? length avail + length x)%nat.
    replace (length avail + length (line_of x) <? length avail + length x)%nat
      with (length (line_of x) <? length x)%nat.
    2: { destruct (Nat.ltb_spec (length (line_of x)) (length x)), (Nat.ltb_spec (length avail + length (line_of x)) (length avail + length x)); lia || done. }
    destruct l as [|db' l].
    + unfold x. cbn [map concat]. by rewrite take_nil.
    + rewrite IH. fold x. destruct (_ <? _)%nat; simpl; [|done]. by rewrite app_assoc.
Qed.

(** ** The specification *)
Inductive dop :=
| Put (buf : list ascii)
| Delete (n : nat)
| Get (n : nat)
| GetMsg (n : nat).

Inductive dout :=
| OutOk (ok : bool)
| OutBytes (s : list ascii)
| OutLine (line : option (list ascii)).

Section spec.
Context (BUFFERPOOL : Z) (HAS_FERGUSON_FLUSHER : bool) (flush_connections : pool -> pool).

Definition run_dop (o : dop) (dyn : DBuf) (pl : pool) : option (DBuf * pool * dout) :=
  match o with
  | Put buf =>
      let '(dyn, pl, ok) := dbuf_put BUFFERPOOL HAS_FERGUSON_FLUSHER flush_connections dyn pl buf in
      Some (dyn, pl, OutOk ok)
  | Delete n => let '(dyn, pl) := dbuf_delete dyn n pl in Some (dyn, pl, OutOk true)
  | Get n => '(dyn, pl, s) ← dbuf_get dyn pl n; Some (dyn, pl, OutBytes s)
  | GetMsg n => '(dyn, pl, l) ← dbuf_getmsg dyn pl n; Some (dyn, pl, OutLine l)
  end.

(** The same operations on a byte stream. *)
Definition stream_op (o : dop) (s : list ascii) (out : dout) : option (list ascii) :=
  match o, out with
  | Put buf, OutOk ok => Some (if ok then s ++ buf else [])
  | Delete n, OutOk true => Some (drop n s)
  | Get n, OutBytes t => if bool_decide (t = take n s) then Some (drop n s) else None
  | GetMsg n, OutLine l =>
      let s := skip_eols s in
      if bool_decide (l = whole_line (take n s)) then
        Some match l with
             | Some w => skip_eols (drop (length w) s)
             | None => s
             end
      else None
  | _, _ => None
  end.

Definition dop_pre (o : dop) (dyn : DBuf) : Prop :=
  match o with
  | Put buf => dlength dyn + Z.of_nat (length buf) < 2 ^ 32
  | _ => True
  end.

Hypothesis flush_pool : forall pl, pool_inv pl -> released pl 0 (flush_connections pl).

Lemma dbuf_put_spec dyn pl buf :
  dbuf_inv dyn -> pool_inv pl -> dlength dyn + Z.of_nat (length buf) < 2 ^ 32 ->
  let '(dyn', pl', ok) := dbuf_put BUFFERPOOL HAS_FERGUSON_FLUSHER flush_connections dyn pl buf in
  steps_to dyn pl (if ok then bytes dyn ++ buf else []) dyn' pl'.
Proof using flush_pool.
  intros (Hf & Hd & Hmax) Hp Hlen. unfold dbuf_put.
  set (bf := if dlength dyn =? 0 then _ else _).
  assert (Hbf : chain_ dyn = fst bf ++ snd bf /\ (snd bf = [] \/ exists db, snd bf = [db])).
  { unfold bf. destruct (Z.eqb_spec (dlength dyn) 0).
    - split; [done|]. left. destruct (chain_ dyn) as [|db l] eqn:E; [done|].
      apply Forall_cons in Hf as [Hdb _]. apply chunk_live in Hdb. unfold bytes in Hd. rewrite E, length_bytes_cons in Hd. lia.
    - destruct (rev (chain_ dyn)) as [|db r] eqn:E.
      + apply (f_equal (@rev _)) in E. rewrite rev_involutive in E. by rewrite E; auto.
      + apply (f_equal (@rev _)) in E. rewrite rev_involutive in E. rewrite E. simpl. eauto. }
  destruct bf as [before from]. cbn [fst snd] in Hbf. destruct Hbf as [Hc Hfrom].
  rewrite Hc in Hf. apply Forall_app in Hf as [Hfb Hff].
  assert (Hput : put_post pl from buf
    (put_loop BUFFERPOOL HAS_FERGUSON_FLUSHER flush_connections (S (length buf)) pl from buf)).
  { destruct Hfrom as [->|[db ->]].
    - apply put_nil_spec; [done|done|lia].
    - apply Forall_cons in Hff as [Hdb _]. by apply put_last_spec; [| |done|]; [done|done|lia]. }
  destruct (put_loop _ _ _ _ pl from buf) as [[pl1 l1] ok]. destruct Hput as [Hr Hok].
  assert (Hb : bytes dyn = concat (map live before) ++ concat (map live from)).
  { unfold bytes. rewrite Hc. by rewrite map_app, concat_app. }
  destruct ok.
  - destruct (Hok eq_refl) as [Hf1 Hl1]. unfold steps_to, dbuf_inv, bytes. cbn [chain_ dlength].
    rewrite map_app, concat_app, Hl1. fold (bytes dyn). rewrite Hb, app_assoc.
    rewrite w32_small by (unfold bytes in *; lia). split_and!.
    + by apply Forall_app.
    + rewrite Hd, Hb, !length_app. lia.
    + done.
    + done.
    + destruct Hr as [Hi Hr]. split; [done|]. unfold nbufs in *. rewrite Hc, !length_app. lia.
  - cbn [dbuf_malloc_error chain_]. unfold dbuf_malloc_error. cbn [chain_]. split_and!; [apply empty_dbuf_inv|done|].
    pose proof (released_trans _ _ _ _ _ Hr (free_all_released (before ++ l1) pl1 (proj1 Hr))) as [Hi Hu].
    split; [done|]. unfold nbufs in *. rewrite Hc, !length_app in *. simpl. lia.
Qed.

(** C36: a [DBuf] is a byte stream.  From a queue whose length field counts
    its bytes, each operation ends, keeps that invariant and does to the
    bytes what it does to a plain list: [dbuf_put] appends, or empties the
    queue when no buffer is left; [dbuf_delete] drops; [dbuf_get] returns and
    drops a prefix; [dbuf_getmsg] skips the ends of line and returns the
    first line if its end is within the bound, or else leaves it there.
    Wherever the bytes are cut into 2048-byte buffers, no byte is lost or
    duplicated, and the pool's count of used buffers moves with the length
    of the chain. *)
Theorem dbuf_refines_stream o dyn pl :
  dbuf_inv dyn -> pool_inv pl -> dop_pre o dyn ->
  exists dyn' pl' out, run_dop o dyn pl = Some (dyn', pl', out) /\
    dbuf_inv dyn' /\ stream_op o (bytes dyn) out = Some (bytes dyn') /\
    released pl (nbufs (chain_ dyn) - nbufs (chain_ dyn')) pl'.
Proof using flush_pool.
  intros Hi Hp Hpre. destruct o as [buf|n|n|n]; cbn [run_dop dop_pre stream_op] in *.
  - pose proof (dbuf_put_spec dyn pl buf Hi Hp Hpre) as H.
    destruct (dbuf_put _ _ _ dyn pl buf) as [[dyn' pl'] ok]. destruct H as (Hi' & Hb & Hr).
    exists dyn', pl', (OutOk ok). by rewrite Hb.
  - pose proof (dbuf_delete_spec dyn pl n Hi Hp) as H.
    destruct (dbuf_delete dyn n pl) as [dyn' pl']. destruct H as (Hi' & Hb & Hr).
    exists dyn', pl', (OutOk true). by rewrite Hb.
  - destruct (get_loop_spec (S n) dyn pl [] n Hi Hp ltac:(lia)) as (dyn' & pl' & He & Hi' & Hb & Hr).
    unfold dbuf_get. rewrite He. exists dyn', pl', (OutBytes (take n (bytes dyn))).
    rewrite bool_decide_true by done. by rewrite Hb.
  - destruct (dbuf_flush_spec dyn pl Hi Hp) as (dyn1 & pl1 & He & Hi1 & Hb1 & Hr1).
    unfold dbuf_getmsg. rewrite He. cbn [mbind option_bind]. rewrite <- Hb1.
    pose proof Hi1 as (Hf1 & Hd1 & Hm1).
    destruct (Z.eqb_spec (dlength dyn1) 0) as [H0|H0].
    + assert (Hnil : bytes dyn1 = []) by (apply nil_length_inv; lia).
      exists dyn1, pl1, (OutLine None). rewrite Hnil, take_nil. by rewrite bool_decide_true.
    + rewrite getmsg_loop_spec. fold (bytes dyn1).
      set (len := if _ >? _ then _ else n).
      assert (Ht : take len (bytes dyn1) = take n (bytes dyn1)).
      { unfold len. destruct (Z.gtb_spec (Z.of_nat n) (dlength dyn1)); [|done]. by rewrite !take_ge by lia. }
      rewrite Ht. destruct (whole_line (take n (bytes dyn1))) as [w|] eqn:Ew; cbn [option_map app].
      * pose proof (dbuf_delete_spec dyn1 pl1 (length w) Hi1 (proj1 Hr1)) as Hdel.
        destruct (dbuf_delete dyn1 (length w) pl1) as [dyn2 pl2]. destruct Hdel as (Hi2 & Hb2 & Hr2).
        destruct (dbuf_flush_spec dyn2 pl2 Hi2 (proj1 Hr2)) as (dyn3 & pl3 & -> & Hi3 & Hb3 & Hr3).
        cbn [mbind option_bind]. exists dyn3, pl3, (OutLine (Some w)).
        rewrite bool_decide_true by done. rewrite Hb3, Hb2. split_and!; try done.
        pose proof (released_trans _ _ _ _ _ (released_trans _ _ _ _ _ Hr1 Hr2) Hr3) as [? ?]. split; [done|lia].
      * exists dyn1, pl1, (OutLine None). by rewrite bool_decide_true.
Qed.
End spec.

Example dbuf_ex :
  let '(d, pl, _) := dbuf_put 65536 false (fun pl => pl) empty_dbuf empty_pool (str "NICK a" ++ [chr 13; chr 10] ++ str "USER") in
  option_map (fun r => (snd r, bytes (fst (fst r)))) (dbuf_getmsg d pl 512) = Some (Some (str "NICK a"), str "USER").
Proof. by vm_compute. Qed.

Lemma dbuf_refines_stream_witness :
  exists dyn' pl' out, run_dop 65536 true (fun pl => pl) (Put (str "PING x")) empty_dbuf empty_pool = Some (dyn', pl', out) /\
    dbuf_inv dyn' /\ stream_op (Put (str "PING x")) (bytes empty_dbuf) out = Some (bytes dyn') /\
    released empty_pool (nbufs (chain_ empty_dbuf) - nbufs (chain_ dyn')) pl'.
Proof.
  apply (dbuf_refines_stream 65536 true (fun pl => pl)).
  - intros pl Hp. apply released_refl, Hp.
  - apply empty_dbuf_inv.
  - reflexivity.
  - reflexivity.
Defined.
