(* ===== verification/Md5.v ===== *)
(** * MD5 and the random generator (ircd_md5.c, random.c)

    Words are [Z] modulo 2^32, bytes [Z] in [0, 256).  The host is
    little-endian, where [byteReverse] is nothing; the 64 bytes of
    [ctx->in] are read as 16 words.  The random generator keeps its pool in
    such a context. *)
From S2P Require Import Prelude.
From stdpp Require Import options.
Open Scope Z_scope.

(** ** The core *)
Inductive md5_fun := F1 | F2 | F3 | F4.

(** The destination register of a step: the arguments [w, x, y, z] are
    [a, b, c, d], [d, a, b, c], [c, d, a, b] or [b, c, d, a]. *)
Inductive md5_reg := WA | WB | WC | WD.

Inductive md5_step := MD5STEP (f : md5_fun) (w : md5_reg) (i : nat) (c s : Z).

Definition regs : Type := Z * Z * Z * Z.

(** [~z] of a 32-bit word. *)
Definition not32 (z : Z) : Z := Z.lxor z (Z.ones 32).

Definition f1 (x y z : Z) : Z := Z.lxor z (Z.land x (Z.lxor y z)).

Definition eval_fun (f : md5_fun) (x y z : Z) : Z :=
  match f with
  | F1 => f1 x y z
  | F2 => f1 z x y
  | F3 => Z.lxor (Z.lxor x y) z
  | F4 => Z.lxor y (Z.lor x (not32 z))
  end.

(** The new value of [w]: add, rotate left, add. *)
Definition mix (fv w x data s : Z) : Z :=
  let w := w32 (w + (fv + data)) in
  let w := Z.lor (w32 (Z.shiftl w s)) (Z.shiftr w (32 - s)) in
  w32 (w + x).

Definition do_step (inp : list Z) (r : regs) (st : md5_step) : regs :=
  let '(a, b, c, d) := r in
  let '(MD5STEP f w i k s) := st in
  let data := w32 (nth i inp 0 + k) in
  match w with
  | WA => (mix (eval_fun f b c d) a b data s, b, c, d)
  | WD => (a, b, c, mix (eval_fun f a b c) d a data s)
  | WC => (a, b, mix (eval_fun f d a b) c d data s, d)
  | WB => (a, mix (eval_fun f c d a) b c data s, c, d)
  end.

Definition md5_steps : list md5_step :=
  [
   MD5STEP F1 WA 0 0xd76aa478 7; MD5STEP F1 WD 1 0xe8c7b756 12;
   MD5STEP F1 WC 2 0x242070db 17; MD5STEP F1 WB 3 0xc1bdceee 22;
   MD5STEP F1 WA 4 0xf57c0faf 7; MD5STEP F1 WD 5 0x4787c62a 12;
   MD5STEP F1 WC 6 0xa8304613 17; MD5STEP F1 WB 7 0xfd469501 22;
   MD5STEP F1 WA 8 0x698098d8 7; MD5STEP F1 WD 9 0x8b44f7af 12;
   MD5STEP F1 WC 10 0xffff5bb1 17; MD5STEP F1 WB 11 0x895cd7be 22;
   MD5STEP F1 WA 12 0x6b901122 7; MD5STEP F1 WD 13 0xfd987193 12;
   MD5STEP F1 WC 14 0xa679438e 17; MD5STEP F1 WB 15 0x49b40821 22;
   MD5STEP F2 WA 1 0xf61e2562 5; MD5STEP F2 WD 6 0xc040b340 9;
   MD5STEP F2 WC 11 0x265e5a51 14; MD5STEP F2 WB 0 0xe9b6c7aa 20;
   MD5STEP F2 WA 5 0xd62f105d 5; MD5STEP F2 WD 10 0x02441453 9;
   MD5STEP F2 WC 15 0xd8a1e681 14; MD5STEP F2 WB 4 0xe7d3fbc8 20;
   MD5STEP F2 WA 9 0x21e1cde6 5; MD5STEP F2 WD 14 0xc33707d6 9;
   MD5STEP F2 WC 3 0xf4d50d87 14; MD5STEP F2 WB 8 0x455a14ed 20;
   MD5STEP F2 WA 13 0xa9e3e905 5; MD5STEP F2 WD 2 0xfcefa3f8 9;
   MD5STEP F2 WC 7 0x676f02d9 14; MD5STEP F2 WB 12 0x8d2a4c8a 20;
   MD5STEP F3 WA 5 0xfffa3942 4; MD5STEP F3 WD 8 0x8771f681 11;
   MD5STEP F3 WC 11 0x6d9d6122 16; MD5STEP F3 WB 14 0xfde5380c 23;
   MD5STEP F3 WA 1 0xa4beea44 4; MD5STEP F3 WD 4 0x4bdecfa9 11;
   MD5STEP F3 WC 7 0xf6bb4b60 16; MD5STEP F3 WB 10 0xbebfbc70 23;
   MD5STEP F3 WA 13 0x289b7ec6 4; MD5STEP F3 WD 0 0xeaa127fa 11;
   MD5STEP F3 WC 3 0xd4ef3085 16; MD5STEP F3 WB 6 0x04881d05 23;
   MD5STEP F3 WA 9 0xd9d4d039 4; MD5STEP F3 WD 12 0xe6db99e5 11;
   MD5STEP F3 WC 15 0x1fa27cf8 16; MD5STEP F3 WB 2 0xc4ac5665 23;
   MD5STEP F4 WA 0 0xf4292244 6; MD5STEP F4 WD 7 0x432aff97 10;
   MD5STEP F4 WC 14 0xab9423a7 15; MD5STEP F4 WB 5 0xfc93a039 21;
   MD5STEP F4 WA 12 0x655b59c3 6; MD5STEP F4 WD 3 0x8f0ccc92 10;
   MD5STEP F4 WC 10 0xffeff47d 15; MD5STEP F4 WB 1 0x85845dd1 21;
   MD5STEP F4 WA 8 0x6fa87e4f 6; MD5STEP F4 WD 15 0xfe2ce6e0 10;
   MD5STEP F4 WC 6 0xa3014314 15; MD5STEP F4 WB 13 0x4e0811a1 21;
   MD5STEP F4 WA 4 0xf7537e82 6; MD5STEP F4 WD 11 0xbd3af235 10;
   MD5STEP F4 WC 2 0x2ad7d2bb 15; MD5STEP F4 WB 9 0xeb86d391 21].

Definition MD5Transform (buf : regs) (inp : list Z) : regs :=
  let '(a0, b0, c0, d0) := buf in
  let '(a, b, c, d) := foldl (do_step inp) buf md5_steps in
  (w32 (a0 + a), w32 (b0 + b), w32 (c0 + c), w32 (d0 + d)).

(** ** Contexts *)
Record MD5Context := { buf : regs; bits0 : Z; bits1 : Z; inb : list Z }.

(** Little-endian words of a list of bytes, and back. *)
Fixpoint words_of (bs : list Z) : list Z :=
  match bs with
  | b0 :: b1 :: b2 :: b3 :: bs => (b0 + 256 * b1 + 65536 * b2 + 16777216 * b3) :: words_of bs
  | _ => []
  end.

Definition bytes_of (w : Z) : list Z :=
  [w mod 256; (w / 256) mod 256; (w / 65536) mod 256; (w / 16777216) mod 256].

Definition md5_iv : regs := (0x67452301, 0xefcdab89, 0x98badcfe, 0x10325476).

(** The bytes of [in] are those of an uninitialised structure. *)
Definition MD5Init (junk : list Z) : MD5Context :=
  {| buf := md5_iv; bits0 := 0; bits1 := 0; inb := junk |}.

(** [memcpy(dst + off, src, len)] inside a buffer. *)
Definition blit (off : nat) (src dst : list Z) : list Z :=
  take off dst ++ src ++ drop (off + length src) dst.

Definition transform_in (ctx : MD5Context) : MD5Context :=
  {| buf := MD5Transform (buf ctx) (words_of (inb ctx)); bits0 := bits0 ctx; bits1 := bits1 ctx; inb := inb ctx |}.
Definition set_in (i : list Z) (ctx : MD5Context) : MD5Context :=
  {| buf := buf ctx; bits0 := bits0 ctx; bits1 := bits1 ctx; inb := i |}.

(** The loop on 64-byte chunks, then the rest; [n] bounds the chunks. *)
Fixpoint update_chunks (n : nat) (ctx : MD5Context) (data : list Z) : MD5Context :=
  match n with
  | O => ctx
  | S n =>
      if (64 <=? length data)%nat then
        update_chunks n (transform_in (set_in (blit 0 (take 64 data) (inb ctx)) ctx)) (drop 64 data)
      else set_in (blit 0 data (inb ctx)) ctx
  end.

Definition MD5Update (ctx : MD5Context) (data : list Z) : MD5Context :=
  let len := Z.of_nat (length data) in
  let t := bits0 ctx in
  let b0 := w32 (t + w32 (Z.shiftl len 3)) in
  let b1 := if b0 <? t then w32 (bits1 ctx + 1) else bits1 ctx in
  let b1 := w32 (b1 + Z.shiftr len 29) in
  let ctx := {| buf := buf ctx; bits0 := b0; bits1 := b1; inb := inb ctx |} in
  let t := Z.to_nat (Z.land (Z.shiftr t 3) 0x3f) in
  if (t =? 0)%nat then update_chunks (S (length data)) ctx data
  else
    let room := (64 - t)%nat in
    if (length data <? room)%nat then set_in (blit t data (inb ctx)) ctx
    else
      let ctx := transform_in (set_in (blit t (take room data) (inb ctx)) ctx) in
      update_chunks (S (length data)) ctx (drop room data).

(** The digest; the context is then cleared. *)
Definition MD5Final (ctx : MD5Context) : list Z :=
  let count := Z.to_nat (Z.land (Z.shiftr (bits0 ctx) 3) 0x3f) in
  let ctx := set_in (blit count [0x80] (inb ctx)) ctx in
  let p := S count in
  let room := (64 - 1 - count)%nat in
  let ctx :=
    if (room <? 8)%nat then
      let ctx := transform_in (set_in (blit p (replicate room 0) (inb ctx)) ctx) in
      set_in (blit 0 (replicate 56 0) (inb ctx)) ctx
    else set_in (blit p (replicate (room - 8) 0) (inb ctx)) ctx in
  let ctx := set_in (blit 56 (bytes_of (bits0 ctx)) (inb ctx)) ctx in
  let ctx := set_in (blit 60 (bytes_of (bits1 ctx)) (inb ctx)) ctx in
  let ctx := transform_in ctx in
  let '(a, b, c, d) := buf ctx in
  bytes_of a ++ bytes_of b ++ bytes_of c ++ bytes_of d.

(** ** The random generator

    [localkey.in] with the position of the next byte to change. *)
Record random_pool := { localkey : MD5Context; localkey_pos : nat }.

Fixpoint random_add_entropy (p : random_pool) (data : list Z) : random_pool :=
  match data with
  | [] => p
  | b :: data =>
      let i := inb (localkey p) in
      let i := <[localkey_pos p := Z.lxor (nth (localkey_pos p) i 0) (w8 b)]> i in
      let pos := S (localkey_pos p) in
      let pos := if (64 <=? pos)%nat then 0%nat else pos in
      random_add_entropy {| localkey := set_in i (localkey p); localkey_pos := pos |} data
  end.

(** [random_seed_set]; [fields] are the arguments of the setting. *)
Definition random_seed_set (p : random_pool) (fields : list (list Z)) : random_pool * bool :=
  match fields with
  | [] => (p, false)
  | f :: _ => (random_add_entropy p f, true)
  end.

(** [tv_usec] is the microseconds of the clock. *)
Definition ircrandom (p : random_pool) (tv_usec : Z) : random_pool * Z :=
  let p := random_add_entropy p [w8 tv_usec; w8 (Z.shiftr tv_usec 8); w8 (Z.shiftr tv_usec 16)] in
  let k := localkey p in
  let b := MD5Transform md5_iv (words_of (inb k)) in
  let p := {| localkey := {| buf := b; bits0 := bits0 k; bits1 := bits1 k; inb := inb k |};
              localkey_pos := localkey_pos p |} in
  let '(x0, x1, x2, x3) := b in
  (random_add_entropy p (bytes_of x0 ++ bytes_of x1 ++ bytes_of x2), x3).

Definition ascii_bytes (s : list ascii) : list Z := map code s.

(** The test suite of RFC 1321. *)
Definition md5_of (s : list Z) : list Z := MD5Final (MD5Update (MD5Init (replicate 64 0)) s).

Example md5_empty : md5_of [] =
  [0xd4;0x1d;0x8c;0xd9;0x8f;0x00;0xb2;0x04;0xe9;0x80;0x09;0x98;0xec;0xf8;0x42;0x7e].
Proof. by vm_compute. Qed.

Example md5_abc : md5_of (ascii_bytes (str "abc")) =
  [0x90;0x01;0x50;0x98;0x3c;0xd2;0x4f;0xb0;0xd6;0x96;0x3f;0x7d;0x28;0xe1;0x7f;0x72].
Proof. by vm_compute. Qed.

Example md5_digits : md5_of (ascii_bytes (str
    "12345678901234567890123456789012345678901234567890123456789012345678901234567890")) =
  [0x57;0xed;0xf4;0xa2;0x2b;0xe3;0xc9;0x55;0xac;0x49;0xda;0x2e;0x21;0x07;0xb6;0x7a].
Proof. by vm_compute. Qed.

(** ** The core is that of RFC 1321

    The specification writes the auxiliary functions with and, or and not,
    takes the indices and the rotations from their formulas, and rotates the
    roles of the registers; the optimised functions, the order of the
    unrolled steps and their operands are checked against it. *)
Definition rfc_fun (f : md5_fun) (x y z : Z) : Z :=
  match f with
  | F1 => Z.lor (Z.land x y) (Z.land (not32 x) z)
  | F2 => Z.lor (Z.land x z) (Z.land y (not32 z))
  | F3 => Z.lxor (Z.lxor x y) z
  | F4 => Z.lxor y (Z.lor x (not32 z))
  end.

Definition rfc_round (i : nat) : md5_fun * nat * list Z :=
  match (i / 16)%nat with
  | 0%nat => (F1, i, [7; 12; 17; 22])
  | 1%nat => (F2, (5 * i + 1)%nat, [5; 9; 14; 20])
  | 2%nat => (F3, (3 * i + 5)%nat, [4; 11; 16; 23])
  | _ => (F4, (7 * i)%nat, [6; 10; 15; 21])
  end.

(** Step [i] on registers held in the order (a, b, c, d), then rotated to
    (d, a, b, c): the new value goes where [b] is next. *)
Definition rfc_step (T : list Z) (X : list Z) (r : regs) (i : nat) : regs :=
  let '(a, b, c, d) := r in
  let '(f, k, ss) := rfc_round i in
  let s := nth (i mod 4) ss 0 in
  let sum := w32 (a + rfc_fun f b c d + nth (k mod 16) X 0 + nth i T 0) in
  let rot := w32 (Z.lor (Z.shiftl sum s) (Z.shiftr sum (32 - s))) in
  (d, w32 (b + rot), b, c).

(** The table of 64 constants. *)
Definition md5_T : list Z := map (fun st => let '(MD5STEP _ _ _ k _) := st in k) md5_steps.

Definition rfc_transform (T : list Z) (r : regs) (X : list Z) : regs :=
  let '(a0, b0, c0, d0) := r in
  let '(a, b, c, d) := foldl (rfc_step T X) r (seq 0 64) in
  (w32 (a0 + a), w32 (b0 + b), w32 (c0 + c), w32 (d0 + d)).

Definition regs_ok (r : regs) : Prop :=
  let '(a, b, c, d) := r in
  0 <= a < 2 ^ 32 /\ 0 <= b < 2 ^ 32 /\ 0 <= c < 2 ^ 32 /\ 0 <= d < 2 ^ 32.

Lemma word_bits x n : 0 <= x < 2 ^ 32 -> 32 <= n -> Z.testbit x n = false.
Proof.
  intros Hx Hn. rewrite <- (Z.mod_small x (2 ^ 32)) by lia. apply Z.mod_pow2_bits_high. lia.
Qed.

Lemma not32_spec x n : 0 <= x < 2 ^ 32 -> 0 <= n ->
  Z.testbit (not32 x) n = (n <? 32) && negb (Z.testbit x n).
Proof.
  intros Hx Hn. unfold not32. rewrite Z.lxor_spec. destruct (Z.ltb_spec n 32).
  - rewrite Z.ones_spec_low by lia. by destruct (Z.testbit x n).
  - rewrite Z.ones_spec_high, (word_bits x) by lia. done.
Qed.

Lemma eval_fun_rfc f x y z :
  0 <= x < 2 ^ 32 -> 0 <= y < 2 ^ 32 -> 0 <= z < 2 ^ 32 -> eval_fun f x y z = rfc_fun f x y z.
Proof.
  intros Hx Hy Hz. destruct f; try done; cbn [eval_fun rfc_fun]; unfold f1;
    apply Z.bits_inj'; intros n Hn;
    rewrite ?Z.lor_spec, ?Z.lxor_spec, ?Z.land_spec, ?Z.lxor_spec, !not32_spec by done;
    (destruct (Z.ltb_spec n 32); [|rewrite (word_bits x), (word_bits y), (word_bits z) by done; done]);
    by destruct (Z.testbit x n), (Z.testbit y n), (Z.testbit z n).
Qed.

(** One step of the source against one of the specification. *)
Lemma mix_rfc fv w x data k s :
  0 < s < 32 ->
  mix fv w x (w32 (data + k)) s =
  w32 (x + w32 (Z.lor (Z.shiftl (w32 (w + fv + data + k)) s) (Z.shiftr (w32 (w + fv + data + k)) (32 - s)))).
Proof.
  intros Hs. unfold mix.
  assert (Hsum : w32 (w + (fv + w32 (data + k))) = w32 (w + fv + data + k)).
  { unfold w32. rewrite Z.add_assoc, Zplus_mod_idemp_r. f_equal. lia. }
  rewrite Hsum. set (u := w32 (w + fv + data + k)). pose proof (w32_range (w + fv + data + k)) as Hu. fold u in Hu.
  rewrite (Z.add_comm x). f_equal. f_equal.
  apply Z.bits_inj'. intros n Hn. unfold w32.
  destruct (Z.ltb_spec n 32).
  - rewrite (Z.mod_pow2_bits_low _ 32), !Z.lor_spec, Z.mod_pow2_bits_low by lia. done.
  - rewrite (Z.mod_pow2_bits_high _ 32) by lia. rewrite Z.lor_spec, Z.mod_pow2_bits_high, Z.shiftr_spec by lia.
    rewrite word_bits by lia. done.
Qed.

(** The registers of the source at step [i], as the specification holds them. *)
Definition rotated (i : nat) (r : regs) : regs :=
  let '(a, b, c, d) := r in
  match (i mod 4)%nat with
  | 0%nat => (a, b, c, d)
  | 1%nat => (d, a, b, c)
  | 2%nat => (c, d, a, b)
  | _ => (b, c, d, a)
  end.

Definition step_ok (i : nat) : bool :=
  match nth_error md5_steps i with
  | Some (MD5STEP f w k c s) =>
      let '(f', k', ss) := rfc_round i in
      bool_decide (c = nth i md5_T 0) && (k =? k' mod 16)%nat && (s =? nth (i mod 4) ss 0) && (0 <? s) && (s <? 32) &&
      match f, f' with F1, F1 | F2, F2 | F3, F3 | F4, F4 => true | _, _ => false end &&
      match w, (i mod 4)%nat with
      | WA, 0%nat | WD, 1%nat | WC, 2%nat | WB, 3%nat => true | _, _ => false end
  | None => false
  end.

Lemma steps_ok : forallb step_ok (seq 0 64) = true.
Proof. by vm_compute. Qed.

Lemma do_step_rfc i st X r :
  (i < 64)%nat -> nth_error md5_steps i = Some st -> regs_ok r ->
  rotated (S i) (do_step X r st) = rfc_step md5_T X (rotated i r) i /\ regs_ok (do_step X r st).
Proof.
  intros Hi Hst Hr. pose proof steps_ok as Hok. rewrite forallb_forall in Hok.
  specialize (Hok i ltac:(apply in_seq; lia)). unfold step_ok in Hok. rewrite Hst in Hok.
  destruct st as [f w k c s]. unfold rfc_step, rotated.
  assert (Hm : (S i mod 4 = if i mod 4 =? 3 then 0 else S (i mod 4))%nat).
  { pose proof (Nat.mod_upper_bound i 4 ltac:(lia)).
    rewrite <- Nat.add_1_r, <- Nat.Div0.add_mod_idemp_l.
    destruct (i mod 4)%nat as [|[|[|[|n]]]]; try done; lia. }
  destruct (rfc_round i) as [[f' k'] ss]. destruct r as [[[a b] cc] d]. cbn [regs_ok] in Hr.
  destruct Hr as (Ha & Hb & Hc & Hd).
  repeat (apply andb_prop in Hok as [Hok ?]).
  repeat match goal with
  | H : bool_decide _ = true |- _ => apply bool_decide_eq_true in H
  | H : (_ =? _)%nat = true |- _ => apply Nat.eqb_eq in H
  | H : (_ =? _) = true |- _ => apply Z.eqb_eq in H
  | H : (_ <? _) = true |- _ => apply Z.ltb_lt in H
  end.
  assert (f = f') as <- by (destruct f, f'; done). subst k s c.
  unfold do_step. rewrite Hm.
  destruct w; destruct (i mod 4)%nat as [|[|[|[|n]]]] eqn:Em; try done; cbn [Nat.eqb];
    (split; [rewrite mix_rfc, eval_fun_rfc by (done || lia); done
            |cbn [regs_ok]; unfold mix; pose proof w32_range; naive_solver]).
Qed.

Lemma take_S_nth {A} (l : list A) n x : nth_error l n = Some x -> take (S n) l = take n l ++ [x].
Proof.
  revert n. induction l as [|y l IH]; intros [|n]; simpl; try done; [by intros [= ->]|].
  intros H. f_equal. by apply IH.
Qed.

Lemma steps_rfc X r n :
  (n <= 64)%nat -> regs_ok r ->
  rotated n (foldl (do_step X) r (take n md5_steps)) = foldl (rfc_step md5_T X) r (seq 0 n) /\
  regs_ok (foldl (do_step X) r (take n md5_steps)).
Proof.
  intros Hn Hr. induction n as [|n IH]; [by destruct r as [[[a b] c] d]|].
  destruct IH as [IH Hok]; [lia|].
  destruct (nth_error md5_steps n) as [st|] eqn:Hst.
  2: { apply nth_error_None in Hst. change (length md5_steps) with 64%nat in Hst. lia. }
  rewrite (take_S_nth _ _ st) by done.
  rewrite seq_S, !foldl_app. cbn [foldl Nat.add].
  destruct (do_step_rfc n st X _ ltac:(lia) Hst Hok) as [He Hok']. by rewrite He, IH.
Qed.

(** [MD5Transform], with its optimised boolean functions and its 64
    unrolled steps, computes the transform of RFC 1321: the indices, the
    rotations and the roles of the registers are those of the formulas. *)
Theorem MD5Transform_rfc r X : regs_ok r -> MD5Transform r X = rfc_transform md5_T r X.
Proof.
  intros Hr. destruct (steps_rfc X r 64 ltac:(lia) Hr) as [He _].
  change (take 64 md5_steps) with md5_steps in He. unfold MD5Transform, rfc_transform.
  destruct r as [[[a0 b0] c0] d0]. rewrite <- He.
  by destruct (foldl (do_step X) _ md5_steps) as [[[a b] c] d].
Qed.

(** ** Hashing a message in pieces *)

Fixpoint blocks (n : nat) (st : regs) (l : list Z) : regs :=
  match n with
  | O => st
  | S n => blocks n (MD5Transform st (words_of (take 64 l))) (drop 64 l)
  end.

(** The padded message. *)
Definition md5_pad (m : list Z) : list Z :=
  let c := (length m mod 64)%nat in
  m ++ [0x80] ++ replicate (if (c <=? 55)%nat then 55 - c else 119 - c) 0 ++
  bytes_of (w32 (8 * Z.of_nat (length m))) ++ bytes_of (w32 (8 * Z.of_nat (length m) / 2 ^ 32)).

Definition md5_spec (m : list Z) : list Z :=
  let '(a, b, c, d) := blocks (length (md5_pad m) / 64) md5_iv (md5_pad m) in
  bytes_of a ++ bytes_of b ++ bytes_of c ++ bytes_of d.

(** A context in which the bytes of [m] have been hashed. *)
Record ctx_rep (ctx : MD5Context) (m : list Z) : Prop := {
  rep_in : length (inb ctx) = 64%nat;
  rep_bits : bits0 ctx = w32 (8 * Z.of_nat (length m)) /\
             bits1 ctx = w32 (8 * Z.of_nat (length m) / 2 ^ 32);
  rep_buf : buf ctx = blocks (length m / 64) md5_iv m;
  rep_pending : take (length m mod 64) (inb ctx) = drop (64 * (length m / 64)) m
}.

Lemma blocks_add a b st l : blocks (a + b) st l = blocks b (blocks a st l) (drop (64 * a) l).
Proof.
  revert st l. induction a as [|a IH]; intros st l; [by rewrite Nat.mul_0_r, drop_0|].
  cbn [Nat.add blocks]. rewrite IH, drop_drop. do 2 f_equal. lia.
Qed.

Lemma blocks_app n st l r : (64 * n <= length l)%nat -> blocks n st (l ++ r) = blocks n st l.
Proof.
  revert st l. induction n as [|n IH]; intros st l Hl; [done|]. cbn [blocks].
  rewrite take_app_le, drop_app_le by lia. apply IH. rewrite length_drop. lia.
Qed.

Lemma length_blit off src dst : (off + length src <= length dst)%nat -> length (blit off src dst) = length dst.
Proof. intros H. unfold blit. rewrite !length_app, length_take, length_drop. lia. Qed.

Lemma div_mod_unique a q r : a = (64 * q + r)%nat -> (r < 64)%nat -> (a / 64 = q /\ a mod 64 = r)%nat.
Proof.
  intros Ha Hr. split; [symmetry; apply (Nat.div_unique a 64 q r Hr Ha)|].
  symmetry. apply (Nat.mod_unique a 64 q r Hr Ha).
Qed.

(** The chunks: [m] is the whole blocks hashed before. *)
Lemma update_chunks_spec n : forall ctx m k data,
  (length data < 64 * n)%nat -> length (inb ctx) = 64%nat -> length m = (64 * k)%nat ->
  buf ctx = blocks k md5_iv m ->
  let ctx' := update_chunks n ctx data in
  bits0 ctx' = bits0 ctx /\ bits1 ctx' = bits1 ctx /\ length (inb ctx') = 64%nat /\
  buf ctx' = blocks (length (m ++ data) / 64) md5_iv (m ++ data) /\
  take (length (m ++ data) mod 64) (inb ctx') = drop (64 * (length (m ++ data) / 64)) (m ++ data).
Proof.
  induction n as [|n IH]; intros ctx m k data Hn Hi Hm Hb; [lia|]. cbn [update_chunks].
  destruct (Nat.leb_spec 64 (length data)).
  - set (ctx1 := transform_in _).
    assert (Hb1 : blit 0 (take 64 data) (inb ctx) = take 64 data).
    { unfold blit. rewrite take_0, drop_ge by (rewrite length_take; lia). by rewrite app_nil_r. }
    assert (Hc : inb ctx1 = take 64 data) by done.
    replace (m ++ data) with ((m ++ take 64 data) ++ drop 64 data) by (by rewrite <- app_assoc, take_drop).
    apply (IH ctx1 (m ++ take 64 data) (S k) (drop 64 data)).
    + rewrite length_drop. lia.
    + rewrite Hc, length_take. lia.
    + rewrite length_app, length_take. lia.
    + unfold ctx1, transform_in, set_in. cbn [buf inb]. rewrite Hb1, Hb. replace (S k) with (k + 1)%nat by lia. rewrite blocks_add.
      cbn [blocks]. rewrite blocks_app, drop_app_le, drop_ge by lia. simpl.
      by rewrite take_take, Nat.min_id.
  - cbn [set_in bits0 bits1 inb buf]. rewrite length_app.
    destruct (div_mod_unique (length m + length data) k (length data)) as [-> ->]; [lia|lia|].
    split_and!; [done|done| | |].
    + rewrite length_blit; lia.
    + rewrite blocks_app by lia. done.
    + rewrite <- Hm, drop_app_length. unfold blit. rewrite take_0. simpl. apply take_app_length.
Qed.

Lemma shiftr3_land63 L : 0 <= L -> Z.to_nat (Z.land (Z.shiftr (w32 (8 * L)) 3) 63) = (Z.to_nat L mod 64)%nat.
Proof.
  intros HL. change 63 with (Z.ones 6). rewrite Z.land_ones, Z.shiftr_div_pow2 by lia.
  unfold w32. change (2 ^ 32) with (8 * 2 ^ 29). change (2 ^ 3) with 8.
  rewrite Z.mul_mod_distr_l, (Z.mul_comm 8), Z.div_mul by lia. change (2 ^ 6) with 64.
  rewrite Z.mod_mod_divide by (exists (2 ^ 23); lia).
  rewrite <- (Z2Nat.id L) at 1 by lia. change 64 with (Z.of_nat 64). by rewrite <- Nat2Z.inj_mod, Nat2Z.id.
Qed.

(** The bit count, kept in two words with a carry. *)
Lemma bits_update a n :
  0 <= a -> 0 <= n < 2 ^ 32 ->
  let b0 := w32 (w32 (8 * a) + w32 (Z.shiftl n 3)) in
  b0 = w32 (8 * (a + n)) /\
  w32 ((if b0 <? w32 (8 * a) then w32 (w32 (8 * a / 2 ^ 32) + 1) else w32 (8 * a / 2 ^ 32)) + Z.shiftr n 29)
  = w32 (8 * (a + n) / 2 ^ 32).
Proof.
  intros Ha Hn b0. subst b0. rewrite Z.shiftl_mul_pow2, Z.shiftr_div_pow2 by lia. unfold w32.
  rewrite <- Zplus_mod. replace (8 * a + n * 2 ^ 3) with (8 * (a + n)) by lia. split; [done|].
  set (A := 8 * a). set (q := A / 2 ^ 32). set (r := A mod 2 ^ 32).
  assert (HA : A = 2 ^ 32 * q + r) by (apply Z.div_mod; lia).
  assert (Hr : 0 <= r < 2 ^ 32) by (apply Z.mod_pos_bound; lia).
  assert (HN : n * 8 = 2 ^ 32 * (n / 2 ^ 29) + (n mod 2 ^ 29) * 8).
  { pose proof (Z.div_mod n (2 ^ 29) ltac:(lia)). lia. }
  pose proof (Z.mod_pos_bound n (2 ^ 29) ltac:(lia)) as Hs.
  set (s := n mod 2 ^ 29) in *. set (p := n / 2 ^ 29) in *.
  replace (8 * (a + n)) with (2 ^ 32 * (q + p) + (r + s * 8)) by (unfold A in HA; lia).
  destruct (Z.ltb_spec (r + s * 8) (2 ^ 32)).
  - assert (Hm : (2 ^ 32 * (q + p) + (r + s * 8)) mod 2 ^ 32 = r + s * 8) by (symmetry; apply (Z.mod_unique _ _ (q + p)); lia).
    rewrite Hm. destruct (Z.ltb_spec (r + s * 8) r); [lia|]. rewrite Zplus_mod_idemp_l. f_equal.
    apply (Z.div_unique _ _ _ (r + s * 8)); lia.
  - assert (Hm : (2 ^ 32 * (q + p) + (r + s * 8)) mod 2 ^ 32 = r + s * 8 - 2 ^ 32) by (symmetry; apply (Z.mod_unique _ _ (q + p + 1)); lia).
    rewrite Hm. destruct (Z.ltb_spec (r + s * 8 - 2 ^ 32) r); [|lia].
    rewrite Zplus_mod_idemp_l, <- Z.add_assoc, Zplus_mod_idemp_l. f_equal.
    rewrite <- (Z.div_unique (2 ^ 32 * (q + p) + (r + s * 8)) (2 ^ 32) (q + p + 1) (r + s * 8 - 2 ^ 32)) by lia. lia.
Qed.

Lemma MD5Init_rep junk : length junk = 64%nat -> ctx_rep (MD5Init junk) [].
Proof. intros H. by constructor. Qed.

Lemma MD5Update_rep ctx m data :
  ctx_rep ctx m -> Z.of_nat (length data) < 2 ^ 32 -> ctx_rep (MD5Update ctx data) (m ++ data).
Proof.
  intros [Hi [Hb0 Hb1] Hbuf Hpend] Hl. unfold MD5Update. rewrite Hb0, Hb1.
  destruct (bits_update (Z.of_nat (length m)) (Z.of_nat (length data))) as [Hu0 Hu1]; [lia|lia|].
  set (b0 := w32 (w32 _ + _)) in *. set (b1 := w32 (_ + Z.shiftr _ 29)) in *.
  rewrite shiftr3_land63, Nat2Z.id by lia.
  set (q := (length m / 64)%nat) in *. set (t := (length m mod 64)%nat) in *.
  assert (Hm : length m = (64 * q + t)%nat) by apply Nat.div_mod_eq.
  assert (Ht : (t < 64)%nat) by (apply Nat.mod_upper_bound; lia).
  assert (Hbits : b0 = w32 (8 * Z.of_nat (length (m ++ data))) /\
                  b1 = w32 (8 * Z.of_nat (length (m ++ data)) / 2 ^ 32)).
  { rewrite length_app, Nat2Z.inj_add. done. }
  destruct (Nat.eqb_spec t 0) as [H0|H0].
  - destruct (update_chunks_spec (S (length data)) {| buf := buf ctx; bits0 := b0; bits1 := b1; inb := inb ctx |}
      m q data) as (E0 & E1 & E2 & E3 & E4); [lia|done|lia|done|]. by constructor; rewrite ?E0, ?E1.
  - destruct (Nat.ltb_spec (length data) (64 - t)).
    + destruct (div_mod_unique (length (m ++ data)) q (t + length data)) as [Hq Hr];
        [rewrite length_app; lia|lia|].
      constructor; cbn [set_in inb buf bits0 bits1]; rewrite ?Hq, ?Hr; [rewrite length_blit; lia|done| |].
      * rewrite Hbuf. fold q. rewrite blocks_app by lia. done.
      * unfold blit. rewrite app_assoc, take_app_le by (rewrite length_app, length_take; lia).
        rewrite take_ge by (rewrite length_app, length_take; lia).
        rewrite Hpend, drop_app_le by lia. done.
    + set (room := (64 - t)%nat).
      set (ctx1 := transform_in _).
      replace (m ++ data) with ((m ++ take room data) ++ drop room data) in * by (by rewrite <- app_assoc, take_drop).
      assert (Hin : inb ctx1 = drop (64 * q) m ++ take room data).
      { unfold ctx1. cbn [transform_in set_in inb]. unfold blit. rewrite Hpend.
        rewrite (drop_ge (inb ctx)) by (rewrite length_take; lia). by rewrite app_nil_r. }
      destruct (update_chunks_spec (S (length data)) ctx1 (m ++ take room data) (S q) (drop room data))
        as (E0 & E1 & E2 & E3 & E4).
      * rewrite length_drop. lia.
      * rewrite Hin, length_app, length_drop, length_take. lia.
      * rewrite length_app, length_take. lia.
      * assert (Hbc : buf ctx1 = MD5Transform (buf ctx) (words_of (inb ctx1))) by done.
        rewrite Hbc, Hin, Hbuf. fold q. replace (S q) with (q + 1)%nat by lia.
        rewrite blocks_add. cbn [blocks]. rewrite blocks_app, drop_app_le by lia.
        rewrite (take_ge (_ ++ _)); [done|]. rewrite length_app, length_drop, length_take. lia.
      * by constructor; rewrite ?E0, ?E1.
Qed.

Lemma take_words n (l r : list Z) : length l = n -> take n (l ++ r) = l.
Proof. intros <-. apply take_app_length. Qed.

(** The last blocks of the padded message. *)
Lemma MD5Final_spec ctx m : ctx_rep ctx m -> MD5Final ctx = md5_spec m.
Proof.
  intros [Hi [Hb0 Hb1] Hbuf Hpend]. unfold MD5Final, md5_spec. rewrite Hb0.
  rewrite shiftr3_land63, Nat2Z.id by lia.
  set (q := (length m / 64)%nat) in *. set (t := (length m mod 64)%nat) in *.
  assert (Hm : length m = (64 * q + t)%nat) by apply Nat.div_mod_eq.
  assert (Ht : (t < 64)%nat) by (apply Nat.mod_upper_bound; lia).
  set (B0 := w32 (8 * Z.of_nat (length m))) in *. set (B1 := w32 (8 * Z.of_nat (length m) / 2 ^ 32)) in *.
  set (P := drop (64 * q) m) in *.
  assert (HP : length P = t) by (unfold P; rewrite length_drop; lia).
  set (len8 := bytes_of B0 ++ bytes_of B1).
  assert (Hin1 : blit t [0x80] (inb ctx) = P ++ 0x80 :: drop (t + 1) (inb ctx)).
  { unfold blit. by rewrite Hpend. }
  (* writing the two words of the length over the last 8 bytes *)
  assert (Hlen8 : forall l : list Z, length l = 64%nat ->
    blit 60 (bytes_of B1) (blit 56 (bytes_of B0) l) = take 56 l ++ len8).
  { intros l Hl. unfold blit. rewrite (app_assoc (take 56 l)), take_words.
    - rewrite (drop_ge _ (60 + _)); [by rewrite app_nil_r, <- app_assoc|].
      rewrite !length_app, length_take, length_drop, Hl. simpl. lia.
    - rewrite length_app, length_take, Hl. done. }
  assert (Hspec : md5_pad m = take (64 * q) m ++ (P ++ 0x80 :: replicate (if (t <=? 55)%nat then 55 - t else 119 - t) 0) ++ len8).
  { unfold md5_pad. fold t B0 B1. unfold len8. rewrite <- !app_assoc. cbn [app].
    rewrite (app_assoc (take _ _)). unfold P. by rewrite take_drop. }
  rewrite Hspec. set (M := take (64 * q) m).
  assert (HM : length M = (64 * q)%nat) by (unfold M; rewrite length_take; lia).
  assert (Hblk : forall n r, blocks (q + n) md5_iv (M ++ r) = blocks n (buf ctx) r).
  { intros n r. rewrite blocks_add, blocks_app by lia. rewrite drop_app_le, (drop_ge M) by lia. simpl. f_equal.
    rewrite Hbuf. rewrite <- (take_drop (64 * q) m). fold M. by rewrite blocks_app by lia. }
  cbn [set_in inb]. rewrite Hin1.
  assert (Hd : length (drop (t + 1) (inb ctx)) = (63 - t)%nat) by (rewrite length_drop; lia).
  replace (64 - 1 - t)%nat with (63 - t)%nat by lia.
  destruct (Nat.ltb_spec (63 - t) 8) as [Hroom|Hroom].
  - destruct (Nat.leb_spec t 55); [lia|].
    set (in2 := blit (S t) (replicate (63 - t) 0) _).
    assert (Hin2 : in2 = P ++ 0x80 :: replicate (63 - t) 0).
    { unfold in2, blit. rewrite (drop_ge _ (S t + _)).
      2: { rewrite length_app. cbn [length]. rewrite length_replicate, HP, Hd. lia. }
      rewrite app_nil_r, cons_middle, app_assoc, take_words by (rewrite length_app; simpl; lia).
      by rewrite <- app_assoc. }
    cbn [set_in transform_in inb bits0 bits1 buf]. rewrite Hb0, Hb1.
    assert (Hl2 : length in2 = 64%nat) by (rewrite Hin2, length_app; simpl; rewrite length_replicate; lia).
    rewrite Hlen8 by (rewrite length_blit; rewrite length_replicate || idtac; lia).
    replace (length (M ++ _) / 64)%nat with (q + 2)%nat.
    2: { apply Nat.div_unique with 0%nat; [lia|].
         rewrite !length_app. cbn [length]. rewrite length_replicate, HP, HM. simpl. lia. }
    rewrite Hblk. cbn [blocks].
    replace (119 - t)%nat with ((63 - t) + 56)%nat by lia. rewrite replicate_add.
    replace (P ++ 128 :: replicate (63 - t) 0 ++ replicate 56 0) with (in2 ++ replicate 56 0)
      by (rewrite Hin2, <- app_assoc; done).
    rewrite <- app_assoc, take_words, drop_app_le, (drop_ge in2), app_nil_l by lia.
    rewrite (take_ge (replicate 56 0 ++ len8)) by (rewrite length_app, length_replicate; simpl; lia).
    unfold blit at 1. rewrite take_0, app_nil_l, take_words by apply length_replicate.
    done.
  - destruct (Nat.leb_spec t 55); [|lia].
    set (in2 := blit (S t) _ _).
    assert (Hin2 : take 56 in2 = P ++ 0x80 :: replicate (55 - t) 0 /\ length in2 = 64%nat).
    { unfold in2. replace (63 - t - 8)%nat with (55 - t)%nat by lia. split.
      - unfold blit. rewrite cons_middle, (app_assoc P), (take_words (S t) (P ++ [128])) by (rewrite length_app; simpl; lia).
        rewrite (app_assoc (P ++ [128])), take_words; [by rewrite <- app_assoc|].
        rewrite !length_app, length_replicate. simpl. lia.
      - rewrite length_blit; rewrite length_app; cbn [length]; rewrite ?length_replicate; lia. }
    destruct Hin2 as [Hin2 Hl2].
    cbn [set_in transform_in inb bits0 bits1 buf]. rewrite Hb0, Hb1, Hlen8, Hin2 by done.
    replace (length (M ++ _) / 64)%nat with (q + 1)%nat.
    2: { apply Nat.div_unique with 0%nat; [lia|].
         rewrite !length_app. cbn [length]. rewrite length_replicate, HP, HM. simpl. lia. }
    rewrite Hblk. cbn [blocks].
    rewrite (take_ge (_ ++ len8)); [done|].
    rewrite !length_app. cbn [length]. rewrite length_replicate, HP. simpl. lia.
Qed.

(** C37: hashing in pieces.  Whatever the pieces a message is cut into (each
    shorter than 2^32 bytes) and whatever bytes the context held before,
    initialising, updating with each piece and finalising gives the digest
    of the padded whole message: the buffering of partial blocks, the carry
    of the bit count and the two cases of the padding are right. *)
Theorem MD5_incremental junk pieces :
  length junk = 64%nat -> Forall (fun d => Z.of_nat (length d) < 2 ^ 32) pieces ->
  MD5Final (foldl MD5Update (MD5Init junk) pieces) = md5_spec (concat pieces).
Proof.
  intros Hj Hp. apply MD5Final_spec.
  assert (Hgen : forall ctx m, ctx_rep ctx m -> ctx_rep (foldl MD5Update ctx pieces) (m ++ concat pieces)).
  { induction Hp as [|d pieces Hd _ IH]; intros ctx m Hc; simpl; [by rewrite app_nil_r|].
    rewrite app_assoc. apply IH. by apply MD5Update_rep. }
  apply (Hgen _ []). by apply MD5Init_rep.
Qed.

Lemma MD5_incremental_witness :
  MD5Final (foldl MD5Update (MD5Init (replicate 64 7)) [ascii_bytes (str "a"); []; ascii_bytes (str "bc")])
  = md5_spec (concat [ascii_bytes (str "a"); []; ascii_bytes (str "bc")]).
Proof.
  apply (MD5_incremental (replicate 64 7)); [reflexivity|]. by repeat constructor.
Defined.

Lemma MD5Transform_rfc_witness :
  regs_ok md5_iv /\ MD5Transform md5_iv (seqZ 0 16) = rfc_transform md5_T md5_iv (seqZ 0 16).
Proof. split; [by vm_compute|apply (MD5Transform_rfc md5_iv); by vm_compute]. Defined.
