(* ===== verification/Crule.v ===== *)
(** * Connection rules (crule.c)

    The scanner, the recursive-descent parser, the evaluator, the release and
    the printer of the rules that guard automatic connections.  A pointer to
    a node is a [tree]: null, a field never written, or a node with its
    arguments.  The parsers return the error code with the node stored
    through their output argument, the next token and the input left. *)
From S2P Require Import Prelude Chattr Strings Match.
From stdpp Require Import options.

Definition CR_MAXARGLEN : nat := 80.
Definition CR_MAXARGS : nat := 3.

Inductive crule_token :=
| CR_UNKNOWN | CR_END | CR_AND | CR_OR | CR_NOT | CR_OPENPAREN | CR_CLOSEPAREN | CR_COMMA | CR_WORD.

#[global] Instance crule_token_dec : EqDecision crule_token.
Proof. solve_decision. Defined.

Inductive crule_errcode :=
| CR_NOERR | CR_UNEXPCTTOK | CR_UNKNWTOK | CR_EXPCTAND | CR_EXPCTOR | CR_EXPCTPRIM
| CR_EXPCTOPEN | CR_EXPCTCLOSE | CR_UNKNWFUNC | CR_ARGMISMAT.

#[global] Instance crule_errcode_dec : EqDecision crule_errcode.
Proof. solve_decision. Defined.

(** The rule functions. *)
Inductive crule_func := Connected | Directcon | Via | Directop.

#[global] Instance crule_func_dec : EqDecision crule_func.
Proof. solve_decision. Defined.

(** [TUninit] is the content of a field before it is written; the third
    argument of an operator tells an or; [TFunc None]: [funcptr] is null. *)
Inductive tree :=
| TNull
| TUninit
| TAndOr (is_or : bool) (a0 a1 : tree)
| TNot (a0 : tree)
| TFunc (f : option crule_func) (args : list cstring).

#[global] Instance tree_dec : EqDecision tree.
Proof. solve_decision. Defined.

Definition crule_funclist : list (cstring * nat * crule_func) :=
  [(str "connected", 1, Connected); (str "directcon", 1, Directcon);
   (str "via", 2, Via); (str "directop", 0, Directop)].

(** ** Evaluation *)

(** What the rule functions read of a client; [from_name] is the name of the
    server it is linked behind. *)
Record cr_client := {
  cr_is_server : bool;
  cr_is_me : bool;
  cr_is_oper : bool;
  cr_name : cstring;
  cr_from_name : cstring
}.

(** [GlobalClientList], and the used slots of [LocalClientArray]. *)
Record cr_env := { GlobalClientList : list cr_client; LocalClientArray : list (option cr_client) }.

(** [match()] returned 0; a mask on which it reads out of bounds does not
    match here. *)
Definition matched (mask name : cstring) : bool :=
  match match_ mask name with Some (Some z) => (z =? 0)%Z | _ => false end.

Definition crule_arg (args : list cstring) (i : nat) : cstring := nth i args [].

Definition crule_connected (env : cr_env) (args : list cstring) : bool :=
  existsb (fun c => (cr_is_server c && negb (cr_is_me c)) && matched (crule_arg args 0) (cr_name c))
    (GlobalClientList env).

Definition crule_directcon (env : cr_env) (args : list cstring) : bool :=
  existsb (fun o => match o with
                    | Some c => cr_is_server c && matched (crule_arg args 0) (cr_name c)
                    | None => false
                    end) (LocalClientArray env).

Definition crule_via (env : cr_env) (args : list cstring) : bool :=
  existsb (fun c => (cr_is_server c && negb (cr_is_me c)) &&
                    (matched (crule_arg args 1) (cr_name c) && matched (crule_arg args 0) (cr_from_name c)))
    (GlobalClientList env).

Definition crule_directop (env : cr_env) : bool :=
  existsb (fun o => match o with Some c => cr_is_oper c | None => false end) (LocalClientArray env).

(** [crule_eval], with [crule__andor] and [crule__not]; [None] is the
    dereference of a pointer that points to no node. *)
Fixpoint crule_eval (env : cr_env) (rule : tree) : option bool :=
  match rule with
  | TNull | TUninit => None
  | TAndOr is_or a0 a1 =>
      result1 ← crule_eval env a0;
      if is_or : bool
      then if (result1 : bool) then Some true else crule_eval env a1
      else if (result1 : bool) then crule_eval env a1 else Some false
  | TNot a0 => r ← crule_eval env a0; Some (negb r)
  | TFunc None _ => None
  | TFunc (Some f) args =>
      Some match f with
           | Connected => crule_connected env args
           | Directcon => crule_directcon env args
           | Via => crule_via env args
           | Directop => crule_directop env
           end
  end.

(** ** The scanner *)
Definition word_start (c : ascii) : bool :=
  IsAlpha c || (c =c "*") || (c =c "?") || (c =c ".") || (c =c "-").
Definition word_char (c : ascii) : bool :=
  IsAlnum c || (c =c "*") || (c =c "?") || (c =c ".") || (c =c "-").

(** [crule_gettoken]: [pending] is the local variable. *)
Fixpoint gettoken (pending : ascii) (ruleptr : cstring) : crule_errcode * crule_token * cstring :=
  match ruleptr with
  | [] => (CR_NOERR, CR_END, [])
  | c :: p =>
      if (c =c " ") || (c =c chr 9) then gettoken pending p
      else if c =c "&" then
        if pending =c NUL then gettoken "&"%char p
        else if pending =c "&" then (CR_NOERR, CR_AND, p)
        else (CR_UNKNWTOK, CR_UNKNOWN, p)
      else if c =c "|" then
        if pending =c NUL then gettoken "|"%char p
        else if pending =c "|" then (CR_NOERR, CR_OR, p)
        else (CR_UNKNWTOK, CR_UNKNOWN, p)
      else if c =c "!" then (CR_NOERR, CR_NOT, p)
      else if c =c "(" then (CR_NOERR, CR_OPENPAREN, p)
      else if c =c ")" then (CR_NOERR, CR_CLOSEPAREN, p)
      else if c =c "," then (CR_NOERR, CR_COMMA, p)
      else if c =c ":" then (CR_NOERR, CR_END, p)
      else if word_start c then (CR_NOERR, CR_WORD, c :: p)
      else (CR_UNKNWTOK, CR_UNKNOWN, c :: p)
  end.

Definition crule_gettoken (ruleptr : cstring) := gettoken NUL ruleptr.

(** The word, of at most [maxlen] characters, and what follows. *)
Fixpoint crule_getword (maxlen : nat) (ruleptr : cstring) : cstring * cstring :=
  match maxlen, ruleptr with
  | S maxlen, c :: p =>
      if word_char c then let '(w, p) := crule_getword maxlen p in (c :: w, p) else ([], ruleptr)
  | _, _ => ([], ruleptr)
  end.

(** ** The parser

    [NoFuel] is not an outcome of the code; [Overrun] is a write past the
    end of [arg]. *)
Inductive outcome (A : Type) := Ret (a : A) | NoFuel | Overrun.
Arguments Ret {A} a.
Arguments NoFuel {A}.
Arguments Overrun {A}.

(** The loop of [crule_parsearglist], from the arguments already stored and
    the current one. *)
Fixpoint arglist (n : nat) (args : list cstring) (currarg : cstring) (next_tok : crule_token)
  (ruleptr : cstring) : outcome (crule_errcode * list cstring * crule_token * cstring) :=
  match n with
  | O => NoFuel
  | S n =>
      match next_tok with
      | CR_WORD =>
          let '(word, ruleptr) := crule_getword (CR_MAXARGLEN - 1) ruleptr in
          let currarg :=
            match currarg with
            | [] => word
            | _ => if length currarg + length word <? CR_MAXARGLEN - 1
                   then currarg ++ " "%char :: word else currarg
            end in
          let '(errcode, next_tok, ruleptr) := crule_gettoken ruleptr in
          if decide (errcode = CR_NOERR) then arglist n args currarg next_tok ruleptr
          else Ret (errcode, args, next_tok, ruleptr)
      | _ =>
          let arg := collapse currarg in
          let store :=
            match arg with
            | [] => Some args
            | _ => if length args <? CR_MAXARGS then Some (args ++ [arg]) else None
            end in
          match store with
          | None => Overrun
          | Some args =>
              if decide (next_tok = CR_COMMA) then
                let '(errcode, next_tok, ruleptr) := crule_gettoken ruleptr in
                if decide (errcode = CR_NOERR) then arglist n args [] next_tok ruleptr
                else Ret (errcode, args, next_tok, ruleptr)
              else Ret (CR_NOERR, args, next_tok, ruleptr)
          end
      end
  end.

Definition crule_parsearglist (next_tok : crule_token) (ruleptr : cstring) :=
  arglist (S (S (length ruleptr))) [] [] next_tok ruleptr.

(** The search in [crule_funclist]; its last entry has an empty name. *)
Definition find_func (name : cstring) : option (nat * crule_func) :=
  match List.find (fun e => strcmp_eqb (fst (fst e)) name) crule_funclist with
  | Some (_, n, f) => Some (n, f)
  | None => None
  end.

Definition presult : Type := crule_errcode * tree * crule_token * cstring.

(** With the empty name the entry at the end of the table is found, whose
    function is null; a word is never empty. *)
Definition crule_parsefunction (ruleptr : cstring) : outcome presult :=
  let '(funcname, ruleptr) := crule_getword (CR_MAXARGLEN - 1) ruleptr in
  let '(errcode, next_tok, ruleptr) := crule_gettoken ruleptr in
  if negb (bool_decide (errcode = CR_NOERR)) then Ret (errcode, TNull, next_tok, ruleptr)
  else if decide (next_tok = CR_OPENPAREN) then
    match find_func funcname with
    | None => Ret (CR_UNKNWFUNC, TNull, next_tok, ruleptr)
    | Some (reqnumargs, f) =>
        let '(errcode, next_tok, ruleptr) := crule_gettoken ruleptr in
        if negb (bool_decide (errcode = CR_NOERR)) then Ret (errcode, TNull, next_tok, ruleptr)
        else
          match crule_parsearglist next_tok ruleptr with
          | NoFuel => NoFuel
          | Overrun => Overrun
          | Ret (errcode, args, next_tok, ruleptr) =>
              let aborted := TFunc None args in
              if negb (bool_decide (errcode = CR_NOERR)) then Ret (errcode, aborted, next_tok, ruleptr)
              else if negb (bool_decide (next_tok = CR_CLOSEPAREN))
              then Ret (CR_EXPCTCLOSE, aborted, next_tok, ruleptr)
              else if negb (reqnumargs =? length args) then Ret (CR_ARGMISMAT, aborted, next_tok, ruleptr)
              else
                let '(errcode, next_tok, ruleptr) := crule_gettoken ruleptr in
                if negb (bool_decide (errcode = CR_NOERR)) then Ret (errcode, aborted, next_tok, ruleptr)
                else Ret (CR_NOERR, TFunc (Some f) args, next_tok, ruleptr)
          end
    end
  else Ret (CR_EXPCTOPEN, TNull, next_tok, ruleptr).

Definition is_null (t : tree) : bool := match t with TNull => true | _ => false end.

(** [rootp->arg[1] = t]. *)
Definition set_arg1 (root t : tree) : tree :=
  match root with TAndOr o a0 _ => TAndOr o a0 t | _ => root end.

(** [k] nots, allocated by the loop of [crule_parseprimary], around [t]. *)
Definition nots (k : nat) (t : tree) : tree := Nat.iter k TNot t.

(** An iteration of the loop of [crule_parseorexpr] ([is_or]) or
    [crule_parseandexpr]: what follows the operand [sub]; [again] is the
    next iteration. *)
Definition after_operand (is_or : bool) (root : tree)
  (again : tree -> crule_token -> cstring -> outcome presult) (r : outcome presult) : outcome presult :=
  match r with
  | NoFuel => NoFuel
  | Overrun => Overrun
  | Ret (errcode, sub, next_tok, ruleptr) =>
      if bool_decide (errcode = CR_NOERR) && bool_decide (next_tok = if is_or then CR_OR else CR_AND) then
        let root := if is_null root then TAndOr is_or sub TUninit
                    else TAndOr is_or (set_arg1 root sub) TUninit in
        let '(errcode, next_tok, ruleptr) := crule_gettoken ruleptr in
        if decide (errcode = CR_NOERR) then again root next_tok ruleptr
        else Ret (errcode, root, next_tok, ruleptr)
      else if is_null root then Ret (errcode, sub, next_tok, ruleptr)
      else if is_null sub then
        Ret (if is_or then CR_EXPCTAND else CR_EXPCTPRIM, set_arg1 root TNull, next_tok, ruleptr)
      else Ret (errcode, set_arg1 root sub, next_tok, ruleptr)
  end.

(** [crule_parseorexpr] and [crule_parseandexpr] from the root built so far,
    and [crule_parseprimary] under [k] nots. *)
Fixpoint parseor (n : nat) (root : tree) (next_tok : crule_token) (ruleptr : cstring) {struct n}
  : outcome presult :=
  match n with
  | O => NoFuel
  | S n => after_operand true root (parseor n) (parseand n TNull next_tok ruleptr)
  end
with parseand (n : nat) (root : tree) (next_tok : crule_token) (ruleptr : cstring) {struct n}
  : outcome presult :=
  match n with
  | O => NoFuel
  | S n => after_operand false root (parseand n) (parseprimary n 0 next_tok ruleptr)
  end
with parseprimary (n : nat) (k : nat) (next_tok : crule_token) (ruleptr : cstring) {struct n}
  : outcome presult :=
  match n with
  | O => NoFuel
  | S n =>
      match next_tok with
      | CR_OPENPAREN =>
          let '(errcode, next_tok, ruleptr) := crule_gettoken ruleptr in
          if negb (bool_decide (errcode = CR_NOERR)) then Ret (errcode, nots k TNull, next_tok, ruleptr)
          else
            match parseor n TNull next_tok ruleptr with
            | NoFuel => NoFuel
            | Overrun => Overrun
            | Ret (errcode, t, next_tok, ruleptr) =>
                if negb (bool_decide (errcode = CR_NOERR)) then Ret (errcode, nots k t, next_tok, ruleptr)
                else if is_null t then Ret (CR_EXPCTAND, nots k t, next_tok, ruleptr)
                else if negb (bool_decide (next_tok = CR_CLOSEPAREN))
                then Ret (CR_EXPCTCLOSE, nots k t, next_tok, ruleptr)
                else
                  let '(errcode, next_tok, ruleptr) := crule_gettoken ruleptr in
                  Ret (errcode, nots k t, next_tok, ruleptr)
            end
      | CR_NOT =>
          let '(errcode, next_tok, ruleptr) := crule_gettoken ruleptr in
          if negb (bool_decide (errcode = CR_NOERR)) then Ret (errcode, nots (S k) TNull, next_tok, ruleptr)
          else parseprimary n (S k) next_tok ruleptr
      | CR_WORD =>
          match crule_parsefunction ruleptr with
          | NoFuel => NoFuel
          | Overrun => Overrun
          | Ret (errcode, t, next_tok, ruleptr) => Ret (errcode, nots k t, next_tok, ruleptr)
          end
      | _ => Ret (if k =? 0 then CR_NOERR else CR_EXPCTPRIM, nots k TNull, next_tok, ruleptr)
      end
  end.

(** [crule_free]: [None] when it follows a pointer that points to no node. *)
Fixpoint crule_free (elem : tree) : option unit :=
  match elem with
  | TNull | TUninit => None
  | TNot TNull => Some tt
  | TNot a0 => crule_free a0
  | TAndOr _ a0 a1 =>
      _ ← crule_free a0;
      match a1 with TNull => Some tt | _ => crule_free a1 end
  | TFunc _ _ => Some tt
  end.

(** The result of [crule_parse]: a rule, or an error with the tree that is
    then released. *)
Inductive parsed := Parsed (rule : tree) | ParseError (errcode : crule_errcode) (freed : tree).

Definition crule_parse (rule : cstring) : outcome parsed :=
  let '(errcode, next_tok, ruleptr) := crule_gettoken rule in
  if negb (bool_decide (errcode = CR_NOERR)) then Ret (ParseError errcode TNull)
  else
    match parseor (4 * length rule + 3) TNull next_tok ruleptr with
    | NoFuel => NoFuel
    | Overrun => Overrun
    | Ret (errcode, ruleroot, next_tok, _) =>
        if negb (bool_decide (errcode = CR_NOERR)) then Ret (ParseError errcode ruleroot)
        else if is_null ruleroot then Ret (ParseError CR_EXPCTOR TNull)
        else if decide (next_tok = CR_END) then Ret (Parsed ruleroot)
        else Ret (ParseError CR_UNEXPCTTOK ruleroot)
    end.

(** ** [print_tree] *)
Definition func_name (f : crule_func) : cstring :=
  str match f with
      | Connected => "connected" | Directcon => "directcon" | Via => "via" | Directop => "directop"
      end.

Fixpoint print_tree (t : tree) : cstring :=
  match t with
  | TNot a0 => str "!( " ++ print_tree a0 ++ str ") "
  | TAndOr is_or a0 a1 =>
      str "( " ++ print_tree a0 ++ str (if is_or then "|| " else "&& ") ++ print_tree a1 ++ str ") "
  | TFunc (Some f) args => func_name f ++ str "(" ++ join_comma args ++ str ") "
  | _ => []
  end.

Example crule_ex1 :
  crule_parse (str "connected(irc.*) && !(via(hub.*, leaf?) || directop())") =
  Ret (Parsed (TAndOr false (TFunc (Some Connected) [str "irc.*"])
         (TNot (TAndOr true (TFunc (Some Via) [str "hub.*"; str "leaf?"]) (TFunc (Some Directop) []))))).
Proof. by vm_compute. Qed.

(** An operator with no left operand is accepted; evaluating the rule then
    follows a null pointer. *)
Example crule_no_operand :
  crule_parse (str "|| directop()") = Ret (Parsed (TAndOr true TNull (TFunc (Some Directop) []))) /\
  crule_eval {| GlobalClientList := []; LocalClientArray := [] |}
    (TAndOr true TNull (TFunc (Some Directop) [])) = None.
Proof. by vm_compute. Qed.

(** A bad character after an operator: the tree released has a field that was
    never written. *)
Example crule_free_uninit :
  exists t, crule_parse (str "directop() && @") = Ret (ParseError CR_UNKNWTOK t) /\ crule_free t = None.
Proof. by eexists; vm_compute. Qed.

(** A fourth argument is stored past the end of the array. *)
Example crule_args_overrun : crule_parse (str "via(a,b,c,d)") = Overrun.
Proof. by vm_compute. Qed.

(** One [&] before another token is dropped. *)
Example crule_single_and :
  crule_parse (str "& directop()") = Ret (Parsed (TFunc (Some Directop) [])).
Proof. by vm_compute. Qed.

(** ** The parser terminates

    The cost of a position: the characters left and the token read but not
    consumed ([CR_END] and [CR_WORD] consume nothing). *)
Definition weight (t : crule_token) : nat := match t with CR_END | CR_WORD => 0 | _ => 1 end.
Definition cost (t : crule_token) (p : cstring) : nat := length p + weight t.

(** A [CR_WORD] token is followed by the word. *)
Definition tok_ok (t : crule_token) (p : cstring) : Prop :=
  t = CR_WORD -> match p with c :: _ => word_char c = true | [] => False end.

Lemma word_start_char : forall c, word_start c = true -> word_char c = true.
Proof. all_chars. Qed.

Lemma gettoken_cost pending p : forall e t p',
  gettoken pending p = (e, t, p') -> e = CR_NOERR -> cost t p' <= length p /\ tok_ok t p'.
Proof.
  revert pending. induction p as [|c p IH]; intros pending e t p'; cbn [gettoken].
  - intros [= <- <- <-] _. split; [done|]. by intros ?.
  - intros H He.
    repeat match type of H with
    | (if ?b then _ else _) = _ => destruct b eqn:?
    end;
    try (destruct (IH _ _ _ _ H He); split; [simpl; lia|done]);
    simplify_eq; (split; [unfold cost; simpl; lia|]); try (by intros ?).
    intros _. by apply word_start_char.
Qed.

Lemma getword_cost n p : forall w p', crule_getword n p = (w, p') ->
  length p' <= length p /\
  (0 < n -> match p with c :: _ => word_char c = true | [] => False end -> length p' < length p).
Proof.
  revert p. induction n as [|n IH]; intros [|c p] w p'; cbn [crule_getword];
    try (intros [= <- <-]; split; [done|intros; lia || done]).
  destruct (word_char c) eqn:Hc; [|intros [= <- <-]; split; [done|intros; congruence]].
  destruct (crule_getword n p) as [w1 p1] eqn:E. intros [= <- <-].
  destruct (IH _ _ _ E) as [Hl _]. simpl. split; [lia|intros; lia].
Qed.

(** An outcome of a parser called at a position of cost [c]. *)
Definition good {A} (c : nat) (r : outcome (crule_errcode * A * crule_token * cstring)) : Prop :=
  match r with
  | NoFuel => False
  | Overrun => True
  | Ret (e, _, t, p) => e = CR_NOERR -> cost t p <= c
  end.

Lemma arglist_good n : forall args cur t p,
  tok_ok t p -> cost t p < n -> good (cost t p) (arglist n args cur t p).
Proof.
  induction n as [|n IH]; intros args cur t p Ht Hn; [lia|]. cbn [arglist].
  assert (Hother : t <> CR_WORD ->
    good (cost t p)
      (match match collapse cur with
             | [] => Some args
             | _ => if length args <? CR_MAXARGS then Some (args ++ [collapse cur]) else None
             end with
       | None => Overrun
       | Some args =>
           if decide (t = CR_COMMA) then
             let '(e, t, p) := crule_gettoken p in
             if decide (e = CR_NOERR) then arglist n args [] t p else Ret (e, args, t, p)
           else Ret (CR_NOERR, args, t, p)
       end)).
  { intros _. destruct (match collapse cur with [] => _ | _ => _ end) as [args'|]; [|done].
    destruct (decide (t = CR_COMMA)) as [->|]; [|intros _; simpl; lia].
    destruct (crule_gettoken p) as [[e t'] p'] eqn:E. destruct (decide (e = CR_NOERR)) as [->|]; [|by intros ?].
    destruct (gettoken_cost _ _ _ _ _ E eq_refl) as [Hc Hok].
    specialize (IH args' [] t' p' Hok ltac:(unfold cost in *; simpl in *; lia)).
    destruct (arglist n args' [] t' p') as [[[[? ?] ?] ?]| |]; try done.
    intros He. specialize (IH He). unfold cost in *. simpl. lia. }
  destruct t; try (by apply Hother).
  destruct (crule_getword (CR_MAXARGLEN - 1) p) as [w p1] eqn:Ew.
  destruct (getword_cost _ _ _ _ Ew) as [_ Hlt].
  specialize (Hlt ltac:(apply Nat.ltb_lt; by vm_compute) (Ht eq_refl)).
  set (cur' := match cur with [] => w | _ => _ end).
  destruct (crule_gettoken p1) as [[e t'] p'] eqn:E. destruct (decide (e = CR_NOERR)) as [->|]; [|by intros ?].
  destruct (gettoken_cost _ _ _ _ _ E eq_refl) as [Hc Hok].
  specialize (IH args cur' t' p' Hok ltac:(unfold cost in *; simpl in *; lia)).
  destruct (arglist n args cur' t' p') as [[[[? ?] ?] ?]| |]; try done.
  intros He. specialize (IH He). unfold cost in *. simpl. lia.
Qed.

Ltac noerr :=
  repeat match goal with
  | |- context [negb (bool_decide (?e = CR_NOERR))] =>
      destruct (decide (e = CR_NOERR)) as [->|];
      [rewrite (bool_decide_true (CR_NOERR = CR_NOERR)) by done; cbn [negb]
      |rewrite (bool_decide_false (e = CR_NOERR)) by done; cbn [negb]; try (by intros ?)]
  end.

Lemma function_good p : good (length p) (crule_parsefunction p).
Proof.
  unfold crule_parsefunction. destruct (crule_getword _ p) as [w p1] eqn:Ew.
  destruct (getword_cost _ _ _ _ Ew) as [Hl _].
  destruct (crule_gettoken p1) as [[e t] p2] eqn:E1. noerr.
  destruct (gettoken_cost _ _ _ _ _ E1 eq_refl) as [Hc1 _].
  destruct (decide (t = CR_OPENPAREN)) as [Hopen|]; [|by intros ?]. destruct (find_func w) as [[n f]|]; [|by intros ?].
  destruct (crule_gettoken p2) as [[e t2] p3] eqn:E2. noerr.
  destruct (gettoken_cost _ _ _ _ _ E2 eq_refl) as [Hc2 Hok2].
  assert (Ha : good (cost t2 p3) (crule_parsearglist t2 p3)).
  { apply arglist_good; [done|]. unfold cost. destruct t2; simpl; lia. }
  destruct (crule_parsearglist t2 p3) as [[[[e a] t3] p4]| |]; try done. noerr. specialize (Ha eq_refl).
  destruct (negb (bool_decide (t3 = CR_CLOSEPAREN))); [by intros ?|].
  destruct (negb (n =? length a)); [by intros ?|].
  destruct (crule_gettoken p4) as [[e t4] p5] eqn:E3. noerr.
  destruct (gettoken_cost _ _ _ _ _ E3 eq_refl) as [Hc3 _]. intros _. unfold cost in *. lia.
Qed.

Lemma after_operand_good is_or root again r c :
  good c r ->
  (forall root t p, cost t p < c -> good (cost t p) (again root t p)) ->
  good c (after_operand is_or root again r).
Proof.
  intros Hr Hagain. unfold after_operand. destruct r as [[[[e sub] t] p]| |]; try done. cbn [good] in Hr.
  destruct (bool_decide (e = CR_NOERR)) eqn:He; cbn [andb].
  2: { apply bool_decide_eq_false in He. destruct (is_null root), (is_null sub), is_or; by intros ?. }
  apply bool_decide_eq_true in He as ->. specialize (Hr eq_refl).
  destruct (bool_decide (t = _)) eqn:Ht.
  - apply bool_decide_eq_true in Ht. destruct (crule_gettoken p) as [[e t'] p'] eqn:E.
    destruct (decide (e = CR_NOERR)) as [->|]; [|by intros ?].
    destruct (gettoken_cost _ _ _ _ _ E eq_refl) as [Hc _].
    assert (Hlt : cost t' p' < c) by (unfold cost in Hr; destruct is_or; rewrite Ht in Hr; simpl in Hr; unfold cost in *; lia).
    set (root' := if is_null root then _ else _). specialize (Hagain root' t' p' Hlt).
    destruct (again root' t' p') as [[[[e2 ?] ?] ?]| |]; try done. intros He. specialize (Hagain He). lia.
  - destruct (is_null root); [by intros _|]. destruct (is_null sub), is_or; intros ?; done.
Qed.

Lemma parse_good n :
  (forall root t p, 3 * cost t p + 2 < n -> good (cost t p) (parseor n root t p)) /\
  (forall root t p, 3 * cost t p + 1 < n -> good (cost t p) (parseand n root t p)) /\
  (forall k t p, 3 * cost t p < n -> good (cost t p) (parseprimary n k t p)).
Proof.
  induction n as [|n (IHo & IHa & IHp)]; [split_and!; intros; lia|]. split_and!; intros x t p Hn.
  - cbn [parseor]. apply after_operand_good; [apply IHa; lia|]. intros. apply IHo. lia.
  - cbn [parseand]. apply after_operand_good; [apply IHp; lia|]. intros. apply IHa. lia.
  - cbn [parseprimary]. destruct t; try (by intros ?).
    + destruct (crule_gettoken p) as [[e t'] p'] eqn:E. noerr.
      destruct (gettoken_cost _ _ _ _ _ E eq_refl) as [Hc _].
      specialize (IHp (S x) t' p' ltac:(unfold cost in *; simpl in *; lia)).
      destruct (parseprimary n (S x) t' p') as [[[[e2 ?] ?] ?]| |]; try done.
      intros He. specialize (IHp He). unfold cost in *. simpl. lia.
    + destruct (crule_gettoken p) as [[e t'] p'] eqn:E. noerr.
      destruct (gettoken_cost _ _ _ _ _ E eq_refl) as [Hc _].
      specialize (IHo TNull t' p' ltac:(unfold cost in *; simpl in *; lia)).
      destruct (parseor n TNull t' p') as [[[[e2 t2] nx] p2]| |]; try done. noerr. specialize (IHo eq_refl).
      destruct (is_null t2); [by intros ?|]. destruct (negb (bool_decide (nx = CR_CLOSEPAREN))); [by intros ?|].
      destruct (crule_gettoken p2) as [[e3 t3] p3] eqn:E3. intros ->.
      destruct (gettoken_cost _ _ _ _ _ E3 eq_refl) as [Hc3 _]. unfold cost in *. simpl. lia.
    + pose proof (function_good p) as Hf. destruct (crule_parsefunction p) as [[[[e t2] nx] p2]| |]; try done.
      intros He. specialize (Hf He). unfold cost in *. simpl. lia.
Qed.

(** [crule_parse] terminates on every text: the recursion of the three
    parsers and their loops always consume a token, so the fuel of the model
    (four steps per character) never runs out. *)
Theorem crule_parse_terminates rule : crule_parse rule <> NoFuel.
Proof.
  unfold crule_parse. destruct (crule_gettoken rule) as [[e t] p] eqn:E.
  destruct (negb (bool_decide (e = CR_NOERR))) eqn:He; [done|].
  apply negb_false_iff, bool_decide_eq_true in He as ->.
  destruct (gettoken_cost _ _ _ _ _ E eq_refl) as [Hc _].
  destruct (parse_good (4 * length rule + 3)) as (Ho & _ & _).
  specialize (Ho TNull t p ltac:(lia)).
  destruct (parseor _ TNull t p) as [[[[e2 t2] nx] p2]| |]; [|done|done].
  destruct (negb (bool_decide (e2 = CR_NOERR))), (is_null t2); try done. by destruct (decide (nx = CR_END)).
Qed.

(** ** Printing and parsing *)

(** An argument that is one word, as the grammar of the file has them; the
    bar is a letter of the character tables, but the scanner tests it
    first. *)
Definition starts_word (c : ascii) : bool := word_start c && negb (c =c "|").

Definition arg_ok (a : cstring) : bool :=
  match a with
  | [] => false
  | c :: _ => starts_word c && forallb word_char a && (length a <? CR_MAXARGLEN) &&
              bool_decide (collapse a = a)
  end.

Definition arity (f : crule_func) : nat :=
  match f with Connected | Directcon => 1 | Via => 2 | Directop => 0 end.

(** A rule with all its operands and the arguments its functions require. *)
Fixpoint tree_ok (t : tree) : bool :=
  match t with
  | TNull | TUninit | TFunc None _ => false
  | TAndOr _ a0 a1 => tree_ok a0 && tree_ok a1
  | TNot a0 => tree_ok a0
  | TFunc (Some f) args => (length args =? arity f) && forallb arg_ok args
  end.

Lemma gettoken_word : forall c p, starts_word c = true ->
  gettoken NUL (c :: p) = (CR_NOERR, CR_WORD, c :: p).
Proof.
  intros c p. destruct c as [[] [] [] [] [] [] [] []]; intros H; vm_compute in H; try discriminate; reflexivity.
Qed.

Lemma getword_app w n c r :
  forallb word_char w = true -> length w <= n -> word_char c = false ->
  crule_getword n (w ++ c :: r) = (w, c :: r).
Proof.
  revert n. induction w as [|d w IH]; intros n Hw Hn Hc; cbn [app].
  - destruct n; simpl; [done|]. by rewrite Hc.
  - destruct n as [|n]; [simpl in Hn; lia|]. simpl in Hw. apply andb_prop in Hw as [Hd Hw].
    cbn [crule_getword]. rewrite Hd. simpl in Hn. by rewrite IH by (done || lia).
Qed.

Lemma arg_ok_spec a : arg_ok a = true ->
  (exists c a', a = c :: a' /\ starts_word c = true) /\ forallb word_char a = true /\
  length a <= CR_MAXARGLEN - 1 /\ collapse a = a.
Proof.
  destruct a as [|c a]; [done|]. cbn [arg_ok]. intros H. apply andb_prop in H as [H H0].
  apply andb_prop in H as [H H1]. apply andb_prop in H as [H H2].
  apply bool_decide_eq_true in H0. apply Nat.ltb_lt in H1. split_and!; [by exists c, a|done|lia|done].
Qed.

Lemma arglist_print args : forall n acc t p r,
  forallb arg_ok args = true -> length acc + length args <= CR_MAXARGS -> 2 * length args < n ->
  gettoken NUL (join_comma args ++ ")"%char :: r) = (CR_NOERR, t, p) ->
  arglist n acc [] t p = Ret (CR_NOERR, acc ++ args, CR_CLOSEPAREN, r).
Proof.
  induction args as [|a args IH]; intros n acc t p r Hok Hmax Hn Ht; destruct n as [|n]; try lia.
  { simpl in Ht. injection Ht as <- <-. by rewrite app_nil_r. }
  simpl in Hok. apply andb_prop in Hok as [Ha Hok].
  destruct (arg_ok_spec a Ha) as ((c & a' & Hc & Hstart) & Hw & Hl & Hcol).
  assert (Hrest : exists d rest, join_comma (a :: args) ++ ")"%char :: r = a ++ d :: rest /\ word_char d = false /\
    ((args = [] /\ d = ")"%char /\ rest = r) \/ (args <> [] /\ d = ","%char /\ rest = join_comma args ++ ")"%char :: r))).
  { destruct args as [|b args]; [exists ")"%char, r; split; [done|]; split; [done|by left]|].
    exists ","%char, (join_comma (b :: args) ++ ")"%char :: r). split; [|split; [done|right; split_and!; done]].
    cbn [join_comma]. rewrite <- app_assoc. done. }
  destruct Hrest as (d & rest & Hp & Hd & Hcase). rewrite Hp in Ht.
  assert (Htp : t = CR_WORD /\ p = a ++ d :: rest).
  { rewrite Hc in Ht |- *. cbn [app] in Ht. rewrite gettoken_word in Ht by done. by injection Ht as <- <-. }
  destruct Htp as [-> ->]. cbn [length] in Hmax, Hn. destruct n as [|n]; [lia|].
  cbn [arglist]. rewrite getword_app by done.
  assert (Hstore : forall acc', length acc' < CR_MAXARGS ->
    match collapse a with [] => Some acc' | _ => if length acc' <? CR_MAXARGS then Some (acc' ++ [collapse a]) else None end
    = Some (acc' ++ [a])).
  { intros acc' Hlt. rewrite Hcol. rewrite Hc at 1. apply Nat.ltb_lt in Hlt. by rewrite Hlt. }
  destruct Hcase as [(-> & -> & ->)|(Hne & -> & ->)].
  - change (crule_gettoken (")"%char :: r)) with (CR_NOERR, CR_CLOSEPAREN, r).
    cbv beta iota. rewrite decide_True by done. cbv beta iota. rewrite Hstore by lia. rewrite decide_False by done. done.
  - change (crule_gettoken (","%char :: join_comma args ++ ")"%char :: r))
      with (CR_NOERR, CR_COMMA, join_comma args ++ ")"%char :: r).
    cbv beta iota. rewrite decide_True by done. cbv beta iota. rewrite Hstore by lia. rewrite decide_True by done.
    destruct (crule_gettoken (join_comma args ++ ")"%char :: r)) as [[e t'] p'] eqn:E.
    assert (He : e = CR_NOERR).
    { destruct args as [|b args]; [done|]. simpl in Hok. apply andb_prop in Hok as [Hb _].
      destruct (arg_ok_spec b Hb) as ((c2 & b' & -> & Hs2) & _).
      unfold crule_gettoken in E. destruct args; cbn [join_comma app] in E; rewrite gettoken_word in E by done; by injection E. }
    subst e. rewrite decide_True by done. rewrite (IH n (acc ++ [a]) t' p' r); try done.
    + by rewrite <- app_assoc.
    + rewrite length_app. simpl. lia.
    + lia.
Qed.

Lemma join_length args : forallb arg_ok args = true -> 2 * length args <= S (length (join_comma args)).
Proof.
  induction args as [|a args IH]; simpl; [lia|]. intros H. apply andb_prop in H as [Ha H]. specialize (IH H).
  destruct a as [|c a]; [done|]. destruct args as [|b args]; [simpl; lia|].
  rewrite length_app. cbn [length] in *. lia.
Qed.

Lemma function_print f args r nx p :
  length args = arity f -> forallb arg_ok args = true -> gettoken NUL r = (CR_NOERR, nx, p) ->
  crule_parsefunction (func_name f ++ "("%char :: join_comma args ++ ")"%char :: r) =
  Ret (CR_NOERR, TFunc (Some f) args, nx, p).
Proof.
  intros Hlen Hargs Hr. unfold crule_parsefunction.
  assert (Hf : forallb word_char (func_name f) = true /\ length (func_name f) <= CR_MAXARGLEN - 1 /\
    find_func (func_name f) = Some (arity f, f)).
  { destruct f; (split; [done|]); (split; [apply Nat.leb_le; by vm_compute|by vm_compute]). }
  destruct Hf as (Hw & Hl & Hfind). rewrite getword_app by done.
  change (crule_gettoken ("("%char :: ?x)) with (CR_NOERR, CR_OPENPAREN, x).
  cbv beta iota. rewrite bool_decide_true by done. cbn [negb]. rewrite decide_True by done. rewrite Hfind.
  destruct (crule_gettoken (join_comma args ++ ")"%char :: r)) as [[e t] p1] eqn:E.
  assert (He : e = CR_NOERR).
  { destruct args as [|b args]; [by injection E as <- _ _|]. simpl in Hargs. apply andb_prop in Hargs as [Hb _].
    destruct (arg_ok_spec b Hb) as ((c2 & b' & -> & Hs2) & _).
    unfold crule_gettoken in E. destruct args; cbn [join_comma app] in E; rewrite gettoken_word in E by done; by injection E. }
  subst e. rewrite bool_decide_true by done. cbn [negb]. unfold crule_parsearglist.
  assert (Hcost : args = [] \/ 2 * length args <= length p1).
  { destruct args as [|b args]; [by left|]. right. pose proof (join_length _ Hargs) as Hj.
    simpl in Hargs. apply andb_prop in Hargs as [Hb _].
    destruct (arg_ok_spec b Hb) as ((c2 & b' & -> & Hs2) & _).
    assert (Hp1 : p1 = join_comma ((c2 :: b') :: args) ++ ")"%char :: r).
    { unfold crule_gettoken in E. destruct args; cbn [join_comma app] in *; rewrite gettoken_word in E by done; by injection E. }
    rewrite Hp1, length_app. simpl length in *. lia. }
  rewrite (arglist_print args _ [] t p1 r); try done.
  - cbn [app]. cbv beta iota. rewrite !bool_decide_true by done. cbn [negb]. rewrite Hlen, Nat.eqb_refl. cbn [negb].
    unfold crule_gettoken. rewrite Hr. cbv beta iota. by rewrite bool_decide_true.
  - rewrite Hlen. destruct f; simpl; unfold CR_MAXARGS; lia.
  - destruct Hcost as [->|Hcost]; simpl; lia.
Qed.

(** ** The round trip *)
Fixpoint hsize (t : tree) : nat :=
  match t with
  | TAndOr _ a0 a1 => 6 + hsize a0 + hsize a1
  | TNot a0 => 5 + hsize a0
  | _ => 1
  end.

Lemma tree_ok_nonnull t : tree_ok t = true -> is_null t = false.
Proof. by destruct t. Qed.

(** Reading one printed operand. *)
Definition reads (t : tree) (s r : cstring) (nx : crule_token) (p : cstring) : Prop :=
  exists t0 p0, gettoken NUL (s ++ r) = (CR_NOERR, t0, p0) /\
    forall n k, hsize t <= n -> parseprimary n k t0 p0 = Ret (CR_NOERR, nots k t, nx, p).

Lemma parseor_S n root t p : parseor (S n) root t p = after_operand true root (parseor n) (parseand n TNull t p).
Proof. done. Qed.

Lemma parseand_S n root t p : parseand (S n) root t p = after_operand false root (parseand n) (parseprimary n 0 t p).
Proof. done. Qed.

Definition op_token (is_or : bool) : crule_token := if is_or then CR_OR else CR_AND.

(** The last operand, and an operand before an operator. *)
Lemma after_last is_or root again sub nx p :
  nx <> op_token is_or -> is_null sub = false ->
  after_operand is_or root again (Ret (CR_NOERR, sub, nx, p)) =
  Ret (CR_NOERR, if is_null root then sub else set_arg1 root sub, nx, p).
Proof.
  intros Hn Hs. unfold after_operand. change (if is_or then CR_OR else CR_AND) with (op_token is_or).
  rewrite (bool_decide_false (nx = op_token is_or)), andb_false_r, Hs by done. by destruct (is_null root).
Qed.

Lemma after_op is_or again sub q t1 p1 :
  gettoken NUL q = (CR_NOERR, t1, p1) ->
  after_operand is_or TNull again (Ret (CR_NOERR, sub, op_token is_or, q)) = again (TAndOr is_or sub TUninit) t1 p1.
Proof.
  intros Hq. unfold after_operand, crule_gettoken. change (if is_or then CR_OR else CR_AND) with (op_token is_or).
  rewrite (bool_decide_true (op_token is_or = op_token is_or)), (bool_decide_true (CR_NOERR = CR_NOERR)) by done.
  cbn [andb is_null]. rewrite Hq. cbv beta iota. by rewrite decide_True.
Qed.

Lemma or_of_primary n t t0 p0 nx p :
  (forall n, hsize t <= n -> parseprimary n 0 t0 p0 = Ret (CR_NOERR, t, nx, p)) -> is_null t = false ->
  hsize t + 2 <= n -> nx <> CR_OR -> nx <> CR_AND ->
  parseor n TNull t0 p0 = Ret (CR_NOERR, t, nx, p).
Proof.
  intros Hp Ht Hn Ho Ha. destruct n as [|[|n]]; [lia|lia|].
  rewrite parseor_S, parseand_S, Hp, !after_last by (done || lia). done.
Qed.

(** [TAndOr] between parentheses. *)
Lemma or_of_pair (n : nat) (is_or : bool) a0 a1 t0 p0 t1 p1 q nx p :
  (forall n, hsize a0 <= n -> parseprimary n 0 t0 p0 = Ret (CR_NOERR, a0, op_token is_or, q)) ->
  gettoken NUL q = (CR_NOERR, t1, p1) ->
  (forall n, hsize a1 <= n -> parseprimary n 0 t1 p1 = Ret (CR_NOERR, a1, nx, p)) ->
  is_null a0 = false -> is_null a1 = false ->
  hsize a0 + hsize a1 + 4 <= n -> nx <> CR_OR -> nx <> CR_AND ->
  parseor n TNull t0 p0 = Ret (CR_NOERR, TAndOr is_or a0 a1, nx, p).
Proof.
  intros H0 Hq H1 Hok0 Hok1 Hn Ho Ha. destruct n as [|[|[|[|n]]]]; try lia.
  rewrite parseor_S, parseand_S, H0 by lia. destruct is_or.
  - rewrite after_last by done. cbn [is_null]. rewrite (after_op true _ _ _ t1 p1) by done.
    rewrite parseor_S, parseand_S, H1, !after_last by (done || lia). done.
  - rewrite (after_op false _ _ _ t1 p1) by done. rewrite parseand_S, H1, !after_last by (done || lia). done.
Qed.

Lemma print_reads t : tree_ok t = true ->
  forall r nx p, gettoken NUL r = (CR_NOERR, nx, p) -> reads t (print_tree t) r nx p.
Proof.
  induction t as [| |is_or a0 IH0 a1 IH1|a0 IH0|f args]; intros Hok r nx p Hr; try done.
  - simpl in Hok. apply andb_prop in Hok as [Hok0 Hok1].
    destruct (IH1 Hok1 (str ") " ++ r) CR_CLOSEPAREN (" "%char :: r) eq_refl) as (t1 & p1 & Ht1 & H1).
    set (op := str (if is_or then "|| " else "&& ")).
    set (q := " "%char :: print_tree a1 ++ str ") " ++ r).
    destruct (IH0 Hok0 (op ++ print_tree a1 ++ str ") " ++ r) (op_token is_or) q) as (t0 & p0 & Ht0 & H0).
    { by destruct is_or. }
    exists CR_OPENPAREN, (" "%char :: print_tree a0 ++ op ++ print_tree a1 ++ str ") " ++ r). split.
    { cbn [print_tree]. fold op. rewrite <- !app_assoc. done. }
    intros n k Hn. cbn [hsize] in Hn. destruct n as [|n]; [lia|]. cbn [parseprimary].
    change (crule_gettoken (" "%char :: ?x)) with (gettoken NUL x). rewrite Ht0. cbv beta iota.
    rewrite (bool_decide_true (CR_NOERR = CR_NOERR)) by done. cbn [negb].
    assert (Hor : parseor n TNull t0 p0 = Ret (CR_NOERR, TAndOr is_or a0 a1, CR_CLOSEPAREN, " "%char :: r)).
    { apply (or_of_pair n is_or a0 a1 t0 p0 t1 p1 q); try done; try (by apply tree_ok_nonnull).
      - intros; by apply (H0 _ 0).
      - intros; by apply (H1 _ 0).
      - lia. }
    rewrite Hor.
    cbv beta iota. rewrite !bool_decide_true by done. cbn [negb is_null].
    change (crule_gettoken (" "%char :: r)) with (gettoken NUL r). by rewrite Hr.
  - simpl in Hok. destruct (IH0 Hok (str ") " ++ r) CR_CLOSEPAREN (" "%char :: r) eq_refl) as (t0 & p0 & Ht0 & H0).
    exists CR_NOT, (str "( " ++ print_tree a0 ++ str ") " ++ r). split.
    { cbn [print_tree]. rewrite <- !app_assoc. done. }
    intros n k Hn. cbn [hsize] in Hn. destruct n as [|[|n]]; try lia. cbn [parseprimary].
    change (crule_gettoken (str "( " ++ ?x)) with (CR_NOERR, CR_OPENPAREN, " "%char :: x). cbv beta iota.
    rewrite (bool_decide_true (CR_NOERR = CR_NOERR)) by done. cbn [negb].
    change (crule_gettoken (" "%char :: ?x)) with (gettoken NUL x). rewrite Ht0. cbv beta iota.
    rewrite (bool_decide_true (CR_NOERR = CR_NOERR)) by done. cbn [negb].
    assert (Hor : parseor n TNull t0 p0 = Ret (CR_NOERR, a0, CR_CLOSEPAREN, " "%char :: r)).
    { apply or_of_primary; try done; [intros; by apply (H0 _ 0)|by apply tree_ok_nonnull|lia]. }
    rewrite Hor.
    cbv beta iota. rewrite !bool_decide_true, (tree_ok_nonnull _ Hok) by done. cbn [negb].
    change (crule_gettoken (" "%char :: r)) with (gettoken NUL r). rewrite Hr. cbv beta iota. do 3 f_equal.
    unfold nots. by rewrite Nat.iter_succ_r.
  - destruct f as [f|]; [|done]. simpl in Hok. apply andb_prop in Hok as [Hlen Hargs]. apply Nat.eqb_eq in Hlen.
    set (s := func_name f ++ "("%char :: join_comma args ++ ")"%char :: " "%char :: r).
    assert (Hs : print_tree (TFunc (Some f) args) ++ r = s).
    { unfold s. cbn [print_tree]. rewrite <- !app_assoc. done. }
    exists CR_WORD, s. rewrite Hs. split; [by destruct f|].
    intros n k Hn. simpl in Hn. destruct n as [|n]; [lia|]. cbn [parseprimary].
    unfold s. rewrite (function_print f args (" "%char :: r) nx p) by done. done.
Qed.

Lemma hsize_print t : tree_ok t = true -> hsize t <= length (print_tree t).
Proof.
  induction t as [| |is_or a0 IH0 a1 IH1|a0 IH0|f args]; simpl; try done.
  - intros H. apply andb_prop in H as [H0 H1]. specialize (IH0 H0). specialize (IH1 H1).
    destruct is_or; simpl; repeat (rewrite !length_app; simpl); lia.
  - intros H. specialize (IH0 H). simpl. rewrite length_app. simpl. lia.
  - destruct f as [[]|]; try done; intros _; simpl; lia.
Qed.

(** C38: the round trip.  Parsing what [print_tree] prints of a rule with all
    its operands gives the rule back: the nesting of the operators, the
    negations, the functions and their arguments survive, through the
    scanner, the three mutually recursive parsers and the argument lists. *)
Theorem crule_roundtrip t : tree_ok t = true -> crule_parse (print_tree t) = Ret (Parsed t).
Proof.
  intros Hok. destruct (print_reads t Hok [] CR_END [] eq_refl) as (t0 & p0 & Ht & Hp).
  rewrite app_nil_r in Ht. pose proof (hsize_print t Hok). unfold crule_parse, crule_gettoken.
  rewrite Ht. cbv beta iota. rewrite (bool_decide_true (CR_NOERR = CR_NOERR)) by done. cbn [negb].
  assert (Hor : parseor (4 * length (print_tree t) + 3) TNull t0 p0 = Ret (CR_NOERR, t, CR_END, [])).
  { apply or_of_primary; try done; [intros; by apply (Hp _ 0)|by apply tree_ok_nonnull|lia]. }
  rewrite Hor.
  cbv beta iota. rewrite bool_decide_true, (tree_ok_nonnull _ Hok), decide_True by done. done.
Qed.

(** The meaning of a rule. *)
Fixpoint denote (env : cr_env) (t : tree) : bool :=
  match t with
  | TAndOr true a0 a1 => denote env a0 || denote env a1
  | TAndOr false a0 a1 => denote env a0 && denote env a1
  | TNot a0 => negb (denote env a0)
  | TFunc (Some Connected) args => crule_connected env args
  | TFunc (Some Directcon) args => crule_directcon env args
  | TFunc (Some Via) args => crule_via env args
  | TFunc (Some Directop) _ => crule_directop env
  | _ => false
  end.

(** a rule with all its operands can be evaluated and released: no null
    or unwritten pointer is followed, and the short-circuit evaluation gives
    the Boolean value of the rule. *)
Theorem crule_eval_denote env t :
  tree_ok t = true -> crule_eval env t = Some (denote env t) /\ crule_free t = Some tt.
Proof.
  induction t as [| |is_or a0 IH0 a1 IH1|a0 IH0|[f|] args]; simpl; try done.
  - intros H. apply andb_prop in H as [H0 H1]. destruct (IH0 H0) as [E0 F0]. destruct (IH1 H1) as [E1 F1].
    rewrite E0, F0. cbn [mbind option_bind]. split.
    + destruct is_or, (denote env a0); simpl; by rewrite ?E1.
    + rewrite F1. by destruct a1.
  - intros H. destruct (IH0 H) as [E0 F0]. rewrite E0. split; [done|]. by destruct a0.
Qed.

Definition ex_rule : tree :=
  TAndOr true (TNot (TFunc (Some Connected) [str "hub.*"])) (TFunc (Some Via) [str "a*"; str "b"]).

Lemma crule_roundtrip_witness : crule_parse (print_tree ex_rule) = Ret (Parsed ex_rule).
Proof. apply (crule_roundtrip ex_rule). reflexivity. Defined.

Lemma crule_eval_denote_witness :
  let env := {| GlobalClientList := []; LocalClientArray := [] |} in
  crule_eval env ex_rule = Some (denote env ex_rule) /\ crule_free ex_rule = Some tt.
Proof. apply (crule_eval_denote _ ex_rule). reflexivity. Defined.
