(* ===== verification/Whowas.v ===== *)
(** * The nick history (whowas.c)

    A [struct Whowas] is an address in the map [ents] of the allocated ones.
    The three doubly linked lists it is on are lists of addresses: [ww_list]
    from the newest entry to the oldest (the last one is [ww_tail]), the
    chains of the hash table, and the chain of the entries of each client
    still online ([cli_whowas]).  Unlinking through [wprev], [hprevnextp] or
    [cprevnextp] takes the entry out of the list. *)
From S2P Require Import Prelude Chattr Strings Chain.
From stdpp Require Import options.
Open Scope Z_scope.

Definition BITS_PER_COL : Z := 3.
Definition BITS_PER_COL_MASK : Z := 7.
Definition WW_MAX_INITIAL_MASK : Z := 15.
Definition WW_MAX : Z := 128.

Record Whowas := {
  hashv : Z;
  name : cstring;
  username : cstring;
  hostname : cstring;
  realhost : option cstring;
  servername : cstring;
  realname : cstring;
  away : option cstring;
  logoff : Z;
  online : option positive
}.

Record wwstate := {
  ents : gmap ptr Whowas;
  ww_list : list ptr;
  ww_alloc : nat;
  whowashash : gmap Z (list ptr);
  cli_whowas : gmap positive (list ptr)
}.

Definition initwhowas : wwstate :=
  {| ents := ∅; ww_list := []; ww_alloc := 0; whowashash := ∅; cli_whowas := ∅ |}.

(** What [add_history] reads of a client. *)
Record hclient := {
  c_id : positive;
  c_name : cstring;
  c_username : cstring;
  c_host : cstring;
  c_hidden : bool;
  c_realhost : cstring;
  c_server : cstring;
  c_info : cstring;
  c_away : option cstring
}.

Definition zero_ww : Whowas :=
  {| hashv := 0; name := []; username := []; hostname := []; realhost := None; servername := [];
     realname := []; away := None; logoff := 0; online := None |}.

Definition ent (st : wwstate) (p : ptr) : Whowas := default zero_ww (ents st !! p).
Definition hchain (st : wwstate) (h : Z) : list ptr := default [] (whowashash st !! h).
Definition cchain (st : wwstate) (c : positive) : list ptr := default [] (cli_whowas st !! c).

(** [hash_whowas_name]: a character is consumed before the first test. *)
Fixpoint whowas_hash_loop (n : cstring) (hash hash2 : Z) : Z * Z :=
  match n with
  | [] => (hash, hash2)
  | c :: n' =>
      let lower := code (ToLower c) in
      whowas_hash_loop n' (w32 (Z.shiftl hash 1 + lower)) (w32 (Z.shiftr hash2 1 + lower))
  end.

Definition hash_whowas_name (n : cstring) : option Z :=
  match n with
  | [] => None
  | _ =>
      let '(hash, hash2) := whowas_hash_loop n 0 0 in
      Some (Z.shiftl (Z.land hash WW_MAX_INITIAL_MASK) BITS_PER_COL + Z.land hash2 BITS_PER_COL_MASK)
  end.

(** The entry taken out of its lists. *)
Definition ww_unlinked (ww : ptr) (st : wwstate) : wwstate :=
  let e := ent st ww in
  {| ents := ents st;
     ww_list := unlink ww (ww_list st);
     ww_alloc := ww_alloc st;
     whowashash := <[hashv e := unlink ww (hchain st (hashv e))]> (whowashash st);
     cli_whowas := match online e with
                   | Some c => <[c := unlink ww (cchain st c)]> (cli_whowas st)
                   | None => cli_whowas st
                   end |}.

(** [whowas_clean] moves [ww_tail] but not [ww_list]: [None] when the entry is
    the only one, whose address is then left in [wwList.ww_list]. *)
Definition whowas_clean (ww : ptr) (st : wwstate) : option wwstate :=
  if bool_decide (head (ww_list st) = Some ww) then None else Some (ww_unlinked ww st).

Definition ww_release (ww : ptr) (st : wwstate) : wwstate :=
  {| ents := delete ww (ents st); ww_list := ww_list st; ww_alloc := ww_alloc st - 1;
     whowashash := whowashash st; cli_whowas := cli_whowas st |}.

Definition whowas_free (ww : ptr) (st : wwstate) : option wwstate :=
  ww_release ww <$> whowas_clean ww st.

(** [None] also when the history length is 0 and there is no entry to reuse. *)
Definition whowas_alloc (NICKNAMEHISTORYLENGTH : nat) (st : wwstate) : option (wwstate * ptr) :=
  if (NICKNAMEHISTORYLENGTH <=? ww_alloc st)%nat then
    ww ← last (ww_list st); st ← whowas_clean ww st; Some (st, ww)
  else
    Some ({| ents := ents st; ww_list := ww_list st; ww_alloc := S (ww_alloc st);
             whowashash := whowashash st; cli_whowas := cli_whowas st |}, fresh (dom (ents st))).

Fixpoint realloc_loop (n : nat) (NICKNAMEHISTORYLENGTH : nat) (st : wwstate) : option wwstate :=
  match n with
  | O => Some st
  | S n =>
      if (NICKNAMEHISTORYLENGTH <? ww_alloc st)%nat then
        match last (ww_list st) with
        | None => Some st
        | Some ww => st ← whowas_free ww st; realloc_loop n NICKNAMEHISTORYLENGTH st
        end
      else Some st
  end.

Definition whowas_realloc (NICKNAMEHISTORYLENGTH : nat) (st : wwstate) : option wwstate :=
  realloc_loop (ww_alloc st) NICKNAMEHISTORYLENGTH st.

Definition new_entry (CurrentTime : Z) (c : hclient) (still_on : bool) (h : Z) : Whowas :=
  {| hashv := h; name := c_name c; username := c_username c; hostname := c_host c;
     realhost := if c_hidden c then Some (c_realhost c) else None;
     servername := c_server c; realname := c_info c; away := c_away c; logoff := CurrentTime;
     online := if still_on then Some (c_id c) else None |}.

Definition add_history (NICKNAMEHISTORYLENGTH : nat) (CurrentTime : Z) (c : hclient) (still_on : bool)
  (st : wwstate) : option wwstate :=
  '(st, ww) ← whowas_alloc NICKNAMEHISTORYLENGTH st;
  h ← hash_whowas_name (c_name c);
  Some {| ents := <[ww := new_entry CurrentTime c still_on h]> (ents st);
          ww_list := ww :: ww_list st;
          ww_alloc := ww_alloc st;
          whowashash := <[h := ww :: hchain st h]> (whowashash st);
          cli_whowas := if still_on then <[c_id c := ww :: cchain st (c_id c)]> (cli_whowas st)
                        else cli_whowas st |}.

Definition with_online (o : option positive) (e : Whowas) : Whowas :=
  {| hashv := hashv e; name := name e; username := username e; hostname := hostname e;
     realhost := realhost e; servername := servername e; realname := realname e; away := away e;
     logoff := logoff e; online := o |}.

Definition off_history (c : positive) (st : wwstate) : wwstate :=
  {| ents := foldl (fun m p => alter (with_online None) p m) (ents st) (cchain st c);
     ww_list := ww_list st; ww_alloc := ww_alloc st; whowashash := whowashash st;
     cli_whowas := cli_whowas st |}.

(** The walk of [get_history]; the first component tells an entry was found. *)
Fixpoint history_loop (timelimit : Z) (nick : cstring) (st : wwstate) (l : list ptr) : option (option positive) :=
  match l with
  | [] => None
  | p :: l' =>
      if strcmp_eqb nick (name (ent st p)) && (logoff (ent st p) >? timelimit)
      then Some (online (ent st p)) else history_loop timelimit nick st l'
  end.

Definition get_history (CurrentTime KILLCHASETIMELIMIT : Z) (nick : cstring) (st : wwstate)
  : option (option positive) :=
  h ← hash_whowas_name nick;
  Some (default None (history_loop (CurrentTime - KILLCHASETIMELIMIT) nick st (hchain st h))).

(** [count_whowas_memory]: entries, bytes, away texts and their bytes. *)
Definition count_whowas_memory (st : wwstate) : nat * nat * nat * nat :=
  foldl (fun acc p =>
    let '(u, um, a, am) := acc in
    let e := ent st p in
    let um := (um + S (length (name e)) + S (length (username e)) + S (length (hostname e)) +
               S (length (servername e)))%nat in
    match away e with
    | Some aw => (S u, um, S a, (am + S (length aw))%nat)
    | None => (S u, um, a, am)
    end) (0, 0, 0, 0)%nat (ww_list st).

(** ** The history is a bounded list of records *)
Definition hist (st : wwstate) : list Whowas := map (ent st) (ww_list st).

(** The hash chains and the clients' chains are the sublists of the list of
    all entries, in the same order. *)
Record lists_ok (st : wwstate) : Prop := {
  ww_nodup : NoDup (ww_list st);
  ww_ents : forall p, p ∈ ww_list st -> p ∈ dom (ents st);
  ww_hash : forall p, p ∈ ww_list st ->
    is_cstr (name (ent st p)) /\ hash_whowas_name (name (ent st p)) = Some (hashv (ent st p));
  ww_hchain : forall h, hchain st h = filter (fun p => hashv (ent st p) = h) (ww_list st);
  ww_cchain : forall c, cchain st c = filter (fun p => online (ent st p) = Some c) (ww_list st)
}.

Definition ww_rep (st : wwstate) : Prop := lists_ok st /\ ww_alloc st = length (ww_list st).

Lemma unlink_filter (P : ptr -> Prop) `{forall p, Decision (P p)} p l :
  unlink p (filter P l) = if decide (P p) then filter P (unlink p l) else filter P l.
Proof.
  induction l as [|q l IH]; [by destruct (decide (P p))|]. rewrite filter_cons.
  destruct (decide (P q)) as [Hq|Hq]; cbn [unlink]; destruct (decide (q = p)) as [->|Hne].
  - by rewrite decide_True.
  - rewrite IH. destruct (decide (P p)); [by rewrite filter_cons_True|done].
  - rewrite IH. rewrite !(decide_False (P := P p)) by done. done.
  - rewrite IH. destruct (decide (P p)); [by rewrite filter_cons_False|done].
Qed.

Lemma filter_unlink_other (P : ptr -> Prop) `{forall p, Decision (P p)} p l :
  ~ P p -> filter P (unlink p l) = filter P l.
Proof.
  intros Hp. induction l as [|q l IH]; [done|]. cbn [unlink]. rewrite filter_cons.
  destruct (decide (q = p)) as [->|Hne]; [by rewrite decide_False|]. rewrite filter_cons, IH. done.
Qed.

Lemma hchain_insert st h l h' m :
  hchain {| ents := m; ww_list := ww_list st; ww_alloc := ww_alloc st;
            whowashash := <[h := l]> (whowashash st); cli_whowas := cli_whowas st |} h' =
  if decide (h = h') then l else hchain st h'.
Proof.
  unfold hchain. simpl. destruct (decide (h = h')) as [->|]; [by rewrite lookup_insert_eq|by rewrite lookup_insert_ne].
Qed.

Lemma default_insert {K} `{Countable K} (m : gmap K (list ptr)) k k' l :
  default [] (<[k := l]> m !! k') = if decide (k = k') then l else default [] (m !! k').
Proof. destruct (decide (k = k')) as [->|]; [by rewrite lookup_insert_eq|by rewrite lookup_insert_ne]. Qed.

Lemma ww_unlinked_ok p st :
  lists_ok st -> p ∈ ww_list st ->
  lists_ok (ww_unlinked p st) /\ (forall q, ent (ww_unlinked p st) q = ent st q).
Proof.
  intros [Hnd Hen Hh Hhc Hcc] Hp. split; [|done].
  assert (Hin : forall q, q ∈ unlink p (ww_list st) -> q ∈ ww_list st).
  { intros q Hq. by apply elem_of_unlink in Hq as [? _]. }
  constructor; cbn [ww_unlinked ents ww_list].
  - by apply NoDup_unlink.
  - auto.
  - intros q Hq. apply Hh. auto.
  - intros h. unfold hchain. cbn [ww_unlinked whowashash]. rewrite default_insert.
    change (default [] (whowashash st !! h)) with (hchain st h). rewrite !Hhc.
    change (ent (ww_unlinked p st)) with (ent st). destruct (decide (hashv (ent st p) = h)) as [<-|Hne].
    + by rewrite unlink_filter, decide_True.
    + by rewrite filter_unlink_other.
  - intros c. unfold cchain. cbn [ww_unlinked cli_whowas]. change (ent (ww_unlinked p st)) with (ent st).
    destruct (online (ent st p)) as [c'|] eqn:Eo.
    + rewrite default_insert. change (default [] (cli_whowas st !! c)) with (cchain st c). rewrite !Hcc.
      destruct (decide (c' = c)) as [<-|Hne].
      * by rewrite unlink_filter, decide_True.
      * rewrite filter_unlink_other; [done|]. rewrite Eo. congruence.
    + change (default [] (cli_whowas st !! c)) with (cchain st c). rewrite Hcc.
      rewrite filter_unlink_other; [done|]. by rewrite Eo.
Qed.

Lemma filter_ext_in (P Q : ptr -> Prop) `{forall p, Decision (P p)} `{forall p, Decision (Q p)} (l : list ptr) :
  (forall q, q ∈ l -> P q <-> Q q) -> filter P l = filter Q l.
Proof.
  induction l as [|x l IH]; intros Hl; [done|]. rewrite !filter_cons, IH by set_solver.
  destruct (decide (P x)), (decide (Q x)); [done| | |done]; exfalso; set_solver.
Qed.

(** Linking a new entry in front of the three lists. *)
Lemma add_front st p e c_on :
  lists_ok st -> p ∉ ww_list st -> is_cstr (name e) -> hash_whowas_name (name e) = Some (hashv e) ->
  online e = c_on ->
  let st' := {| ents := <[p := e]> (ents st); ww_list := p :: ww_list st; ww_alloc := ww_alloc st;
                whowashash := <[hashv e := p :: hchain st (hashv e)]> (whowashash st);
                cli_whowas := match c_on with
                              | Some c => <[c := p :: cchain st c]> (cli_whowas st)
                              | None => cli_whowas st
                              end |} in
  lists_ok st' /\ hist st' = e :: hist st.
Proof.
  intros [Hnd Hen Hh Hhc Hcc] Hp Hcs Hhash Hon st'.
  assert (Hent : forall q, ent st' q = if decide (p = q) then e else ent st q).
  { intros q. unfold ent. simpl. destruct (decide (p = q)) as [->|]; [by rewrite lookup_insert_eq|by rewrite lookup_insert_ne]. }
  assert (Hold : forall q, q ∈ ww_list st -> ent st' q = ent st q).
  { intros q Hq. rewrite Hent, decide_False; [done|]. by intros <-. }
  assert (Hnew : ent st' p = e) by (rewrite Hent; by rewrite decide_True).
  split; [constructor|].
  - by constructor.
  - intros q. simpl. rewrite dom_insert. set_solver.
  - intros q [->|Hq]%elem_of_cons; [by rewrite Hnew|]. rewrite Hold by done. auto.
  - intros h. change (hchain st' h) with (default [] (<[hashv e := p :: hchain st (hashv e)]> (whowashash st) !! h)).
    rewrite default_insert. change (ww_list st') with (p :: ww_list st). rewrite filter_cons, Hnew.
    change (default [] (whowashash st !! h)) with (hchain st h). rewrite !Hhc.
    rewrite (filter_ext_in (fun q => hashv (ent st' q) = h) (fun q => hashv (ent st q) = h) (ww_list st))
      by (intros q Hq; by rewrite Hold). by destruct (decide (hashv e = h)) as [<-|].
  - intros c. change (ww_list st') with (p :: ww_list st). rewrite filter_cons, Hnew.
    rewrite (filter_ext_in (fun q => online (ent st' q) = Some c) (fun q => online (ent st q) = Some c) (ww_list st))
      by (intros q Hq; by rewrite Hold). unfold cchain, st'. cbn [cli_whowas]. rewrite Hon.
    destruct c_on as [c'|].
    + rewrite default_insert. change (default [] (cli_whowas st !! ?c)) with (cchain st c). rewrite !Hcc.
      destruct (decide (c' = c)) as [<-|]; [by rewrite decide_True|]. by rewrite decide_False by congruence.
    + change (default [] (cli_whowas st !! c)) with (cchain st c). by rewrite Hcc, decide_False.
  - unfold hist. simpl. rewrite Hnew. f_equal. apply map_ext_in. intros q Hq. apply Hold. by apply list_elem_of_In.
Qed.

Lemma last_split (l : list ptr) : l <> [] -> exists l0 p, l = l0 ++ [p] /\ last l = Some p.
Proof.
  intros Hl. destruct l as [|x l] using rev_ind; [done|]. exists l, x. by rewrite last_snoc.
Qed.

(** Dropping the oldest entry. *)
Lemma clean_last st :
  lists_ok st -> (2 <= length (ww_list st))%nat ->
  exists l0 p, ww_list st = l0 ++ [p] /\ last (ww_list st) = Some p /\
    whowas_clean p st = Some (ww_unlinked p st) /\ lists_ok (ww_unlinked p st) /\ ww_list (ww_unlinked p st) = l0 /\
    (forall q, ent (ww_unlinked p st) q = ent st q) /\ p ∉ l0.
Proof.
  intros H Hlen. assert (Hl : ww_list st <> []) by (intros He; rewrite He in Hlen; simpl in Hlen; lia).
  destruct (last_split _ Hl) as (l0 & p & Hs & Hlast). exists l0, p.
  assert (Hp : p ∈ ww_list st) by (rewrite Hs; set_solver).
  destruct (ww_unlinked_ok p st H Hp) as [Hok Hent].
  assert (Hn : p ∉ l0).
  { pose proof (ww_nodup _ H) as Hnd. rewrite Hs in Hnd. apply NoDup_app in Hnd as (_ & Hd & _). set_solver. }
  split_and!; try done.
  - unfold whowas_clean. rewrite bool_decide_false; [done|]. rewrite Hs in Hlen |- *.
    destruct l0 as [|x l0]; [simpl in Hlen; lia|]. simpl. intros [= ->]. apply Hn. by constructor.
  - cbn [ww_unlinked ww_list]. rewrite Hs. by apply unlink_last.
Qed.

Lemma map_take_last {B} (f : ptr -> B) l0 p n :
  n = length (l0 ++ [p]) -> forall e, take n (e :: map f (l0 ++ [p])) = e :: map f l0.
Proof.
  intros -> e. rewrite map_app, length_app. simpl. rewrite Nat.add_1_r. simpl. f_equal.
  apply take_app_length'. by rewrite length_map.
Qed.

Lemma add_history_rep N now c on st h :
  ww_rep st -> (ww_alloc st <= N)%nat -> (2 <= N)%nat -> is_cstr (c_name c) ->
  hash_whowas_name (c_name c) = Some h ->
  exists st', add_history N now c on st = Some st' /\ ww_rep st' /\ (ww_alloc st' <= N)%nat /\
    hist st' = take N (new_entry now c on h :: hist st).
Proof.
  intros [Hok Hal] HN H1 Hcs Hh. unfold add_history, whowas_alloc.
  destruct (Nat.leb_spec N (ww_alloc st)).
  - destruct (clean_last st Hok ltac:(lia)) as (l0 & p & Hl & Hlast & Hcl & Hok' & Hl0 & Hent & Hp).
    rewrite Hlast. cbn [mbind option_bind]. rewrite Hcl. cbn [mbind option_bind]. rewrite Hh. cbn [mbind option_bind].
    eexists. split; [done|].
    destruct (add_front (ww_unlinked p st) p (new_entry now c on h) (if on then Some (c_id c) else None) Hok')
      as [Hok2 Hh2]; [by rewrite Hl0|done|done|done|].
    cbn [hashv new_entry] in *. destruct on; (split; [split; [exact Hok2|]|split]).
    all: try (cbn [ww_alloc ww_list length]; rewrite Hl0; cbn [ww_unlinked ww_alloc];
              rewrite Hal, Hl, length_app; simpl; lia).
    all: try (cbn [ww_alloc ww_unlinked]; lia).
    all: rewrite Hh2; unfold hist; rewrite Hl0, Hl, map_take_last by (rewrite <- Hl; lia);
      f_equal; by apply map_ext.
  - cbn [mbind option_bind]. rewrite Hh. cbn [mbind option_bind]. eexists. split; [done|].
    set (p := fresh (dom (ents st))).
    assert (Hp : p ∉ ww_list st).
    { intros Hp. apply (ww_ents _ Hok) in Hp. by apply is_fresh in Hp. }
    set (st1 := {| ents := ents st; ww_list := ww_list st; ww_alloc := S (ww_alloc st);
                   whowashash := whowashash st; cli_whowas := cli_whowas st |}).
    assert (Hok1 : lists_ok st1) by (destruct Hok; by constructor).
    destruct (add_front st1 p (new_entry now c on h) (if on then Some (c_id c) else None) Hok1)
      as [Hok2 Hh2]; [done|done|done|done|].
    cbn [hashv new_entry] in *. assert (Hlen : (S (length (hist st)) <= N)%nat) by (unfold hist; rewrite length_map; lia).
    destruct on; (split; [split; [exact Hok2|simpl; lia]|split; [simpl; lia|]]).
    all: rewrite take_ge by (simpl; lia); exact Hh2.
Qed.

(** ** Searching *)
Lemma whowas_hash_lower a b h h2 :
  lower a = lower b -> whowas_hash_loop a h h2 = whowas_hash_loop b h h2.
Proof.
  revert b h h2. induction a as [|x a IH]; intros [|y b] h h2; try done. simpl. intros [= Hx Hl].
  rewrite Hx. by apply IH.
Qed.

Lemma hash_whowas_lower a b : lower a = lower b -> hash_whowas_name a = hash_whowas_name b.
Proof.
  destruct a as [|x a], b as [|y b]; try done. intros H. unfold hash_whowas_name.
  by rewrite (whowas_hash_lower (x :: a) (y :: b)).
Qed.

(** The youngest record of a nick within the time limit. *)
Definition chase (timelimit : Z) (nick : cstring) (l : list Whowas) : option positive :=
  match List.find (fun e => strcmp_eqb nick (name e) && (logoff e >? timelimit)) l with
  | Some e => online e
  | None => None
  end.

Lemma history_loop_chase limit nick st h l :
  is_cstr nick -> hash_whowas_name nick = Some h ->
  (forall p, p ∈ l -> is_cstr (name (ent st p)) /\ hash_whowas_name (name (ent st p)) = Some (hashv (ent st p))) ->
  default None (history_loop limit nick st (filter (fun p => hashv (ent st p) = h) l)) =
  chase limit nick (map (ent st) l).
Proof.
  intros Hn Hh. unfold chase. induction l as [|p l IH]; intros Hl; [done|].
  rewrite filter_cons. cbn [map List.find].
  specialize (IH ltac:(intros q Hq; apply Hl; set_solver)).
  destruct (Hl p ltac:(set_solver)) as [Hc Hp].
  destruct (decide (hashv (ent st p) = h)) as [He|He].
  - cbn [history_loop]. by destruct (_ && _).
  - destruct (strcmp_eqb nick (name (ent st p))) eqn:Es; [|done].
    apply strcmp_eqb_lower in Es; [|done|done]. apply hash_whowas_lower in Es. congruence.
Qed.

(** ** The other operations *)
Lemma off_ents (c_l : list ptr) : forall (m : gmap ptr Whowas) (q : ptr),
  NoDup c_l ->
  foldl (fun m p => alter (with_online None) p m) m c_l !! q =
  if decide (q ∈ c_l) then with_online None <$> (m !! q) else m !! q.
Proof.
  induction c_l as [|p l IH]; intros m q Hnd; [done|]. apply NoDup_cons in Hnd as [Hp Hnd]. cbn [foldl].
  rewrite IH by done. destruct (decide (q ∈ l)) as [Hq|Hq].
  - rewrite decide_True by set_solver. rewrite lookup_alter_ne; [done|]. by intros <-.
  - destruct (decide (q = p)) as [->|Hne].
    + rewrite decide_True by set_solver. apply lookup_alter_eq.
    + rewrite decide_False by set_solver. by apply lookup_alter_ne.
Qed.

(** [off_history] as its caller uses it: the client is then released, and
    with it the head of its chain. *)
Definition release_client (c : positive) (st : wwstate) : wwstate :=
  {| ents := ents st; ww_list := ww_list st; ww_alloc := ww_alloc st;
     whowashash := whowashash st; cli_whowas := delete c (cli_whowas st) |}.

Definition forget (c : positive) (e : Whowas) : Whowas :=
  if decide (online e = Some c) then with_online None e else e.

Lemma off_history_rep c st :
  ww_rep st ->
  let st' := release_client c (off_history c st) in
  ww_rep st' /\ ww_alloc st' = ww_alloc st /\ hist st' = map (forget c) (hist st).
Proof.
  intros [Hok Hal] st'. pose proof Hok as [Hnd Hen Hh Hhc Hcc].
  assert (Hndc : NoDup (cchain st c)) by (rewrite Hcc; by apply NoDup_filter).
  assert (Hent : forall q, q ∈ ww_list st -> ent st' q = forget c (ent st q)).
  { intros q Hq. unfold ent, st', forget. simpl. rewrite off_ents by done. rewrite Hcc.
    apply Hen in Hq as Hd. apply elem_of_dom in Hd as [e He]. unfold ent. rewrite He. simpl.
    destruct (decide (online e = Some c)) as [Ho|Ho].
    - rewrite decide_True; [done|]. apply list_elem_of_filter. split; [|done]. unfold ent. by rewrite He.
    - rewrite decide_False; [done|]. rewrite list_elem_of_filter. unfold ent. rewrite He. simpl. tauto. }
  assert (Hf : forall e, name (forget c e) = name e /\ hashv (forget c e) = hashv e).
  { intros e. unfold forget. by destruct (decide _). }
  split; [split; [constructor|]|split]; try done.
  - intros q Hq. apply Hen in Hq. unfold st'. simpl. apply elem_of_dom. rewrite off_ents by done.
    apply elem_of_dom in Hq as [e ->]. by destruct (decide _).
  - intros q Hq. rewrite Hent by done. destruct (Hf (ent st q)) as [-> ->]. auto.
  - intros h. change (hchain st' h) with (hchain st h). rewrite Hhc. apply filter_ext_in.
    intros q Hq. rewrite Hent by done. by destruct (Hf (ent st q)) as [_ ->].
  - intros c'. unfold cchain, st'. simpl. destruct (decide (c' = c)) as [->|Hne].
    + rewrite lookup_delete_eq. simpl. symmetry.
      rewrite (filter_ext_in _ (fun _ => False)); [clear; induction (ww_list st) as [|x l IHl]; [done|]; rewrite filter_cons_False by tauto; done|].
      intros q Hq. rewrite Hent by done. unfold forget. split; [|done].
      destruct (decide _) as [|Hn]; [done|]. intros ?. by apply Hn.
    + rewrite lookup_delete_ne by done. change (default [] (cli_whowas st !! c')) with (cchain st c').
      rewrite Hcc. apply filter_ext_in. intros q Hq. rewrite Hent by done. unfold forget.
      destruct (decide _) as [->|]; [|done]. split; [congruence|done].
  - unfold hist. simpl. rewrite map_map. apply map_ext_in. intros q Hq. apply Hent. by apply list_elem_of_In.
Qed.

Lemma realloc_rep N n : (1 <= N)%nat -> forall st,
  ww_rep st -> (ww_alloc st <= n)%nat ->
  exists st', realloc_loop n N st = Some st' /\ ww_rep st' /\ hist st' = take N (hist st) /\ (ww_alloc st' <= N)%nat.
Proof.
  intros HN. induction n as [|n IH]; intros st [Hok Hal] Hn; cbn [realloc_loop].
  { assert (Hl : ww_list st = []) by (apply nil_length_inv; lia). exists st. split; [done|]. split; [by split|].
    unfold hist. rewrite Hl. simpl. split; [by rewrite take_nil|lia]. }
  destruct (Nat.ltb_spec N (ww_alloc st)) as [Hlt|Hle].
  2: { exists st. split; [done|]. split; [by split|]. split; [|lia]. rewrite take_ge; [done|]. unfold hist. rewrite length_map. lia. }
  destruct (clean_last st Hok ltac:(lia)) as (l0 & p & Hl & Hlast & Hcl & Hok' & Hl0 & Hent & Hp). rewrite Hlast.
  unfold whowas_free. rewrite Hcl. cbn [fmap option_fmap option_map mbind option_bind].
  assert (Hent2 : forall q, q ∈ l0 -> ent (ww_release p (ww_unlinked p st)) q = ent st q).
  { intros q Hq. unfold ent. simpl. rewrite lookup_delete_ne; [done|]. by intros <-. }
  assert (Hrep : ww_rep (ww_release p (ww_unlinked p st))).
  { split.
    - pose proof Hok' as [Hnd Hen Hh Hhc Hcc]. rewrite Hl0 in *.
      constructor; change (ww_list (ww_release p (ww_unlinked p st))) with (ww_list (ww_unlinked p st)); rewrite Hl0.
      + done.
      + intros q Hq. simpl. rewrite dom_delete. apply Hen in Hq as Hd. simpl in Hd. set_solver.
      + intros q Hq. rewrite Hent2 by done. by apply Hh.
      + intros h. change (hchain (ww_release p (ww_unlinked p st)) h) with (hchain (ww_unlinked p st) h). rewrite Hhc.
        apply filter_ext_in. intros q Hq. by rewrite Hent2.
      + intros c. change (cchain (ww_release p (ww_unlinked p st)) c) with (cchain (ww_unlinked p st) c). rewrite Hcc.
        apply filter_ext_in. intros q Hq. by rewrite Hent2.
    - change (ww_list (ww_release p (ww_unlinked p st))) with (ww_list (ww_unlinked p st)). rewrite Hl0.
      simpl. rewrite Hal, Hl, length_app. simpl. lia. }
  destruct (IH (ww_release p (ww_unlinked p st)) Hrep) as (st' & -> & Hr & Hh & Ha).
  { simpl. lia. }
  exists st'. split; [done|]. split; [done|]. split; [|done]. rewrite Hh. unfold hist.
  change (ww_list (ww_release p (ww_unlinked p st))) with (ww_list (ww_unlinked p st)). rewrite Hl0, Hl.
  rewrite map_app, take_app_le.
  - f_equal. apply map_ext_in. intros q Hq. apply Hent2. by apply list_elem_of_In.
  - rewrite length_map. rewrite Hl, length_app in Hal. simpl in Hal. lia.
Qed.

(** ** The specification *)
Inductive wop :=
| OpAdd (now : Z) (c : hclient) (still_on : bool)
| OpOff (c : positive)
| OpRealloc (N : nat).

(** [N] is the history length before the operation; the result holds the one
    after it. *)
Definition run_wop (N : nat) (o : wop) (st : wwstate) : option (nat * wwstate) :=
  match o with
  | OpAdd now c on => st ← add_history N now c on st; Some (N, st)
  | OpOff c => Some (N, release_client c (off_history c st))
  | OpRealloc N => st ← whowas_realloc N st; Some (N, st)
  end.

Definition wop_pre (N : nat) (o : wop) : Prop :=
  match o with
  | OpAdd _ c _ => (2 <= N)%nat /\ c_name c <> [] /\ is_cstr (c_name c)
  | OpRealloc N => (1 <= N)%nat
  | OpOff _ => True
  end.

Definition wop_spec (N : nat) (o : wop) (l : list Whowas) : list Whowas :=
  match o with
  | OpAdd now c on => take N (new_entry now c on (default 0 (hash_whowas_name (c_name c))) :: l)
  | OpOff c => map (forget c) l
  | OpRealloc N => take N l
  end.

(** C39: the nick history, with its reused entries and its three doubly
    linked lists, is a list of records of bounded length, newest first.  From
    a state that represents one, recording a nick puts a record in front and
    drops the oldest one when the history (of two records or more) is full, a client that leaves is
    forgotten by its records, a shorter history length drops the oldest
    records; the lists stay consistent and the count of allocated entries
    within the limit. *)
Theorem whowas_refines N o st :
  ww_rep st -> (ww_alloc st <= N)%nat -> wop_pre N o ->
  exists N' st', run_wop N o st = Some (N', st') /\ ww_rep st' /\ (ww_alloc st' <= N')%nat /\
    hist st' = wop_spec N o (hist st).
Proof.
  intros Hr HN Hpre. destruct o as [now c on|c|N']; cbn [run_wop wop_pre wop_spec] in *.
  - destruct Hpre as (H1 & Hne & Hcs).
    destruct (hash_whowas_name (c_name c)) as [h|] eqn:Hh;
      [|destruct (c_name c); [done|unfold hash_whowas_name in Hh; by destruct (whowas_hash_loop _ _ _)]].
    destruct (add_history_rep N now c on st h Hr HN H1 Hcs Hh) as (st' & -> & Hr' & HN' & Hh').
    exists N, st'. split; [done|]. by split_and!.
  - destruct (off_history_rep c st Hr) as (Hr' & Ha & Hh). eexists _, _. split; [done|].
    split_and!; [done|by rewrite Ha|done].
  - destruct (realloc_rep N' (ww_alloc st) Hpre st Hr ltac:(lia)) as (st' & He & Hr' & Hh & Ha).
    exists N', st'. unfold whowas_realloc. rewrite He. split; [done|]. by split_and!.
Qed.

(** nick chasing.  [get_history] looks along one hash chain only, and
    finds what a search of the whole history finds: the client of the newest
    record of that nick, in any case, within the time limit. *)
Theorem get_history_spec st now limit nick :
  ww_rep st -> is_cstr nick -> nick <> [] ->
  get_history now limit nick st = Some (chase (now - limit) nick (hist st)).
Proof.
  intros [Hok _] Hcs Hne. unfold get_history.
  destruct (hash_whowas_name nick) as [h|] eqn:Hh;
    [|destruct nick; [done|unfold hash_whowas_name in Hh; by destruct (whowas_hash_loop _ _ _)]].
  cbn [mbind option_bind]. f_equal. rewrite (ww_hchain _ Hok).
  apply history_loop_chase; [done|done|]. intros p Hp. by apply (ww_hash _ Hok).
Qed.

Definition ex_client (n : string) (i : positive) : hclient :=
  {| c_id := i; c_name := str n; c_username := str "u"; c_host := str "h"; c_hidden := false;
     c_realhost := []; c_server := str "s"; c_info := str "i"; c_away := None |}.

(** With a history of two, the oldest of three nicks is forgotten; with none,
    there is no entry to reuse; with one, the second nick reuses an entry that
    [wwList.ww_list] still points to and links it to itself. *)
Example whowas_ex :
  (st ← add_history 2 100 (ex_client "a" 1) true initwhowas;
   st ← add_history 2 101 (ex_client "B" 2) true st;
   st ← add_history 2 102 (ex_client "c" 3) false st;
   Some (map name (hist st), get_history 103 90 (str "b") st, get_history 103 90 (str "a") st,
         get_history 103 90 (str "c") st))
  = Some ([str "c"; str "B"], Some (Some 2%positive), Some None, Some None) /\
  add_history 0 100 (ex_client "a" 1) true initwhowas = None /\
  (st ← add_history 1 100 (ex_client "a" 1) true initwhowas; add_history 1 101 (ex_client "b" 2) true st) = None.
Proof. by vm_compute. Qed.

Lemma init_rep : ww_rep initwhowas.
Proof. split; [|done]. constructor; simpl; try set_solver. constructor. Qed.

Lemma whowas_refines_witness :
  exists N' st', run_wop 2 (OpAdd 100 (ex_client "a" 1) true) initwhowas = Some (N', st') /\ ww_rep st' /\
    (ww_alloc st' <= N')%nat /\
    hist st' = wop_spec 2 (OpAdd 100 (ex_client "a" 1) true) (hist initwhowas).
Proof.
  apply (whowas_refines 2 (OpAdd 100 (ex_client "a" 1) true) initwhowas).
  - apply init_rep.
  - simpl. lia.
  - split; [lia|]. split; [done|]. by apply (bool_decide_unpack _).
Defined.

Lemma get_history_spec_witness :
  get_history 103 90 (str "nick") initwhowas = Some (chase (103 - 90) (str "nick") (hist initwhowas)).
Proof.
  apply (get_history_spec initwhowas 103 90 (str "nick")).
  - apply init_rep.
  - by apply (bool_decide_unpack _).
  - done.
Defined.
