(* ===== verification/Tea.v ===== *)
(** * TEA (ircd_tea.c)

    The cipher of the database and the virtual addresses: 32 rounds on two
    32-bit words, with a 64-bit key. *)
From S2P Require Import Prelude.
From stdpp Require Import options.
Open Scope Z_scope.

Definition delta : Z := 0x9E3779B9.

(** The two updates of a round, [a] to [d] being the key. *)
Definition tea_mix (z sum a b : Z) : Z :=
  Z.lxor (Z.lxor (w32 (w32 (Z.shiftl z 4) + a)) (w32 (z + sum))) (w32 (Z.shiftr z 5 + b)).

Fixpoint tea_loop (n : nat) (y z sum a b c d : Z) : Z * Z :=
  match n with
  | O => (y, z)
  | S n =>
      let sum := w32 (sum + delta) in
      let y := w32 (y + tea_mix z sum a b) in
      let z := w32 (z + tea_mix y sum c d) in
      tea_loop n y z sum a b c d
  end.

Definition ircd_tea (v k x : Z * Z) : Z * Z :=
  let y := Z.lxor (fst v) (fst x) in
  let z := Z.lxor (snd v) (snd x) in
  tea_loop 32 y z 0 (fst k) (snd k) 0 0.

Fixpoint untea_loop (n : nat) (y z sum a b c d : Z) : Z * Z :=
  match n with
  | O => (y, z)
  | S n =>
      let z := w32 (z - tea_mix y sum c d) in
      let y := w32 (y - tea_mix z sum a b) in
      let sum := w32 (sum - delta) in
      untea_loop n y z sum a b c d
  end.

Definition ircd_untea (v k : Z * Z) : Z * Z :=
  untea_loop 32 (fst v) (snd v) 0xC6EF3720 (fst k) (snd k) 0 0.

Definition word (z : Z) : Prop := 0 <= z < 2 ^ 32.

Lemma w32_add_sub a m : word a -> w32 (w32 (a + m) - m) = a.
Proof.
  intros Ha. unfold w32. rewrite Zminus_mod_idemp_l. replace (a + m - m) with a by lia. by apply Z.mod_small.
Qed.

(** The sum after [n] rounds. *)
Definition sum_after (n : nat) (sum : Z) : Z := Nat.iter n (fun s => w32 (s + delta)) sum.

Lemma sum_after_S n sum : sum_after n (w32 (sum + delta)) = sum_after (S n) sum.
Proof. unfold sum_after. by rewrite (Nat.iter_succ_r n (fun s => w32 (s + delta))). Qed.

Lemma untea_step n : forall y z sum a b c d,
  untea_loop (S n) y z sum a b c d =
  let '(y', z') := untea_loop n y z sum a b c d in
  let sum := Nat.iter n (fun s => w32 (s - delta)) sum in
  let z'' := w32 (z' - tea_mix y' sum c d) in
  (w32 (y' - tea_mix z'' sum a b), z'').
Proof.
  induction n as [|n IH]; intros; [done|].
  change (untea_loop (S (S n)) y z sum a b c d) with
    (untea_loop (S n) (w32 (y - tea_mix (w32 (z - tea_mix y sum c d)) sum a b)) (w32 (z - tea_mix y sum c d))
       (w32 (sum - delta)) a b c d).
  rewrite IH.
  change (untea_loop (S n) y z sum a b c d) with
    (untea_loop n (w32 (y - tea_mix (w32 (z - tea_mix y sum c d)) sum a b)) (w32 (z - tea_mix y sum c d))
       (w32 (sum - delta)) a b c d).
  destruct (untea_loop n _ _ _ a b c d) as [y' z']. by rewrite <- (Nat.iter_succ_r n (fun s => w32 (s - delta))).
Qed.

Lemma sum_back n sum : word sum -> Nat.iter n (fun s => w32 (s - delta)) (sum_after n sum) = sum.
Proof.
  intros Hs. induction n as [|n IH]; [done|]. rewrite (Nat.iter_succ_r n (fun s => w32 (s - delta))).
  change (sum_after (S n) sum) with (w32 (sum_after n sum + delta)).
  rewrite w32_add_sub; [done|]. destruct n; [done|]. apply w32_range.
Qed.

Lemma tea_loop_inverse n : forall y z sum a b c d,
  word y -> word z -> word sum ->
  let '(y', z') := tea_loop n y z sum a b c d in
  untea_loop n y' z' (sum_after n sum) a b c d = (y, z).
Proof.
  induction n as [|n IH]; intros y z sum a b c d Hy Hz Hs; [done|]. cbn [tea_loop].
  set (sum1 := w32 (sum + delta)). set (y1 := w32 (y + tea_mix z sum1 a b)).
  set (z1 := w32 (z + tea_mix y1 sum1 c d)).
  specialize (IH y1 z1 sum1 a b c d (w32_range _) (w32_range _) (w32_range _)).
  destruct (tea_loop n y1 z1 sum1 a b c d) as [y' z']. rewrite untea_step.
  rewrite <- sum_after_S. fold sum1. rewrite IH. cbv zeta. rewrite sum_back by apply w32_range.
  unfold z1. rewrite w32_add_sub by done. unfold y1. by rewrite w32_add_sub.
Qed.

(** [ircd_untea] inverts [ircd_tea], for every key: deciphering the
    result gives the text back, mixed with the previous block as in cipher
    block chaining. *)
Theorem untea_tea v k x :
  word (fst v) -> word (snd v) -> word (fst x) -> word (snd x) ->
  ircd_untea (ircd_tea v k x) k = (Z.lxor (fst v) (fst x), Z.lxor (snd v) (snd x)).
Proof.
  intros Hv1 Hv2 Hx1 Hx2.
  assert (Hw : forall a b, word a -> word b -> word (Z.lxor a b)).
  { intros a b Ha Hb. split; [apply Z.lxor_nonneg; unfold word in *; lia|].
    assert (Z.lxor a b mod 2 ^ 32 = Z.lxor a b) as <-; [|apply Z.mod_pos_bound; lia].
    apply Z.bits_inj'. intros n Hn. destruct (Z.ltb_spec n 32); [by rewrite Z.mod_pow2_bits_low|].
    rewrite Z.mod_pow2_bits_high, Z.lxor_spec by lia.
    rewrite <- (Z.mod_small a (2 ^ 32)), <- (Z.mod_small b (2 ^ 32)) by done.
    by rewrite !Z.mod_pow2_bits_high by lia. }
  pose proof (tea_loop_inverse 32 (Z.lxor (fst v) (fst x)) (Z.lxor (snd v) (snd x)) 0 (fst k) (snd k) 0 0
    (Hw _ _ Hv1 Hx1) (Hw _ _ Hv2 Hx2) ltac:(unfold word; lia)) as H.
  unfold ircd_untea, ircd_tea. destruct (tea_loop 32 _ _ 0 (fst k) (snd k) 0 0) as [y z]. exact H.
Qed.

Example tea_ex :
  ircd_untea (ircd_tea (0x12345678, 0x9abcdef0) (7, 11) (0, 0)) (7, 11) = (0x12345678, 0x9abcdef0).
Proof. by vm_compute. Qed.

Lemma untea_tea_witness :
  ircd_untea (ircd_tea (5, 6) (1, 2) (9, 10)) (1, 2) =
  (Z.lxor (fst (5, 6)) (fst (9, 10)), Z.lxor (snd (5, 6)) (snd (9, 10))).
Proof. apply (untea_tea (5, 6) (1, 2) (9, 10)); unfold word; simpl; lia. Defined.
