(* ===== verification/Ddb.v ===== *)
(** * The distributed database in memory ([ircd/ddb.c])

    The tables of registers that the servers of the network share: for each
    resident table a hash table of chains, the number of its last register,
    the number of those in memory, and the hash of all the lines received,
    that two servers compare to know that they hold the same. *)
From S2P Require Import Prelude Chattr Strings Match Chain Dlist Hash Tea.
From stdpp Require Import options.
Open Scope Z_scope.

Definition DDB_INIT : Z := 97.
Definition DDB_END : Z := 122.
Definition DDB_BOTDB : Z := 98.
Definition DDB_CHANDB : Z := 99.
Definition DDB_CHANDB2 : Z := 100.
Definition DDB_EXCEPTIONDB : Z := 101.
Definition DDB_FEATUREDB : Z := 102.
Definition DDB_ILINEDB : Z := 105.
Definition DDB_JUPEDB : Z := 106.
Definition DDB_LOGGINGDB : Z := 108.
Definition DDB_MOTDDB : Z := 109.
Definition DDB_NICKDB : Z := 110.
Definition DDB_OPERDB : Z := 111.
Definition DDB_PSEUDODB : Z := 112.
Definition DDB_QUARANTINEDB : Z := 113.
Definition DDB_CHANREDIRECTDB : Z := 114.
Definition DDB_UWORLDDB : Z := 117.
Definition DDB_VHOSTDB : Z := 118.
Definition DDB_WEBIRCDB : Z := 119.

(** The sizes that [ddb_init] gives the resident tables; 0 for the others. *)
Definition ddb_resident_table (table : Z) : Z :=
  if table =? DDB_NICKDB then 32768
  else if bool_decide (table ∈ [DDB_CHANDB; DDB_CHANDB2; DDB_VHOSTDB]) then 4096
  else if bool_decide (table ∈ [DDB_EXCEPTIONDB; DDB_ILINEDB; DDB_JUPEDB]) then 512
  else if bool_decide (table ∈ [DDB_BOTDB; DDB_FEATUREDB; DDB_LOGGINGDB; DDB_MOTDDB; DDB_OPERDB; DDB_PSEUDODB;
                                DDB_QUARANTINEDB; DDB_CHANREDIRECTDB; DDB_UWORLDDB; DDB_WEBIRCDB]) then 256
  else 0.

Definition ddb_table_is_resident (table : Z) : bool := negb (ddb_resident_table table =? 0).

(** The tables that [ddb_events_init] gives a handler. *)
Definition ddb_events_table (table : Z) : bool :=
  bool_decide (table ∈ [DDB_FEATUREDB; DDB_LOGGINGDB; DDB_NICKDB; DDB_OPERDB]).

Record Ddb := { ddb_key : cstring; ddb_content : cstring }.

(** A call of the handler of a table: the key, the content, and whether the
    key was there. *)
Record ddb_event := { ev_table : Z; ev_key : cstring; ev_content : option cstring; ev_update : bool }.

(** The registers, linked by [ddb_next]; the head of each bucket of each
    table; what is kept per table; [ddbCount]; the variables of the iterator,
    where [it_content] is the table that [ddb_iterator_content] is of. *)
Record ddbs := {
  regs : gmap ptr Ddb;
  ddb_next : gmap ptr ptr;
  ddb_data_table : gmap (Z * Z) ptr;
  ddb_count_table : Z -> Z;
  ddb_id_table : Z -> Z;
  ddb_hashtable : Z -> Z * Z;
  ddbCount : Z;
  it_key : option ptr;
  it_content : option Z;
  it_pos : Z;
  it_len : Z
}.

Definition no_ddbs : ddbs :=
  {| regs := ∅; ddb_next := ∅; ddb_data_table := ∅; ddb_count_table := fun _ => 0; ddb_id_table := fun _ => 0;
     ddb_hashtable := fun _ => (0, 0); ddbCount := 0; it_key := None; it_content := None; it_pos := 0; it_len := 0 |}.

(** [a[i] = v]. *)
Definition set_at {A} (i : Z) (v : A) (a : Z -> A) : Z -> A := fun j => if decide (j = i) then v else a j.

Definition with_memory (r : gmap ptr Ddb) (nx : gmap ptr ptr) (h : gmap (Z * Z) ptr) (count : Z -> Z) (total : Z) (st : ddbs) : ddbs :=
  {| regs := r; ddb_next := nx; ddb_data_table := h; ddb_count_table := count; ddb_id_table := ddb_id_table st;
     ddb_hashtable := ddb_hashtable st; ddbCount := total; it_key := it_key st; it_content := it_content st;
     it_pos := it_pos st; it_len := it_len st |}.

Definition with_id (id : Z -> Z) (st : ddbs) : ddbs :=
  {| regs := regs st; ddb_next := ddb_next st; ddb_data_table := ddb_data_table st; ddb_count_table := ddb_count_table st;
     ddb_id_table := id; ddb_hashtable := ddb_hashtable st; ddbCount := ddbCount st; it_key := it_key st;
     it_content := it_content st; it_pos := it_pos st; it_len := it_len st |}.

Definition with_hash (h : Z -> Z * Z) (st : ddbs) : ddbs :=
  {| regs := regs st; ddb_next := ddb_next st; ddb_data_table := ddb_data_table st; ddb_count_table := ddb_count_table st;
     ddb_id_table := ddb_id_table st; ddb_hashtable := h; ddbCount := ddbCount st; it_key := it_key st;
     it_content := it_content st; it_pos := it_pos st; it_len := it_len st |}.

Definition with_iterator (k : option ptr) (c : option Z) (pos len : Z) (st : ddbs) : ddbs :=
  {| regs := regs st; ddb_next := ddb_next st; ddb_data_table := ddb_data_table st; ddb_count_table := ddb_count_table st;
     ddb_id_table := ddb_id_table st; ddb_hashtable := ddb_hashtable st; ddbCount := ddbCount st; it_key := k;
     it_content := c; it_pos := pos; it_len := len |}.

Definition no_iterator_key (st : ddbs) : ddbs := with_iterator None (it_content st) (it_pos st) (it_len st) st.

(** ** The hash of the lines *)

(** [*strchr(s, c) = 0], when there is one, in a buffer of which [s] is the
    contents: what is after it stays. *)
Fixpoint cut_at (c : ascii) (s : list ascii) : list ascii :=
  match s with
  | [] => []
  | x :: s' => if x =c NUL then s else if x =c c then NUL :: s' else x :: cut_at c s'
  end.

(** The words of a buffer in network order, the end filled with zeros. *)
Fixpoint be_words (n : nat) (s : list ascii) : list Z :=
  match n with
  | O => []
  | S n => (code (char_at s 0) * 2 ^ 24 + code (char_at s 1) * 2 ^ 16 + code (char_at s 2) * 2 ^ 8 + code (char_at s 3)) ::
           be_words n (drop 4 s)
  end.

(** The loop takes two words as long as the first is not zero; the buffer has
    516, the last of them zero. *)
Fixpoint hash_words (ws : list Z) (x : Z * Z) : Z * Z :=
  match ws with
  | a :: b :: ws' => if a =? 0 then x else hash_words ws' (ircd_tea (a, b) (0, 0) x)
  | _ => x
  end.

Definition ddb_hash_line (line : cstring) (x : Z * Z) : Z * Z :=
  hash_words (be_words 516 (cut_at "013" (cut_at "010" (take 2063 line)))) x.

Definition ddb_hash_calculate (line : cstring) (table : Z) (st : ddbs) : ddbs :=
  with_hash (set_at table (ddb_hash_line line (ddb_hashtable st table)) (ddb_hashtable st)) st.

(** ** The numeral that [%lu] prints *)
Fixpoint digits (n : nat) (z : Z) (acc : cstring) : cstring :=
  match n with
  | O => acc
  | S n => let acc := chr (48 + z mod 10) :: acc in if z <? 10 then acc else digits n (z / 10) acc
  end.

Definition decimal (z : Z) : cstring := digits 20 z [].

Definition space : cstring := [" "%char].

(** [db_buf], which [ircd_snprintf] cuts at 1023 characters. *)
Definition db_line (id : Z) (mask : cstring) (table : Z) (key : cstring) (content : option cstring) : cstring :=
  take 1023 (decimal id ++ space ++ mask ++ space ++ [chr table] ++ space ++ key ++
             match content with Some c => space ++ c | None => [] end ++ ["010"%char]).

(** ** The registers in memory *)

Section memory.
Context (crc32hash : list Z) (me : cstring).

Definition bucket_of (table : Z) (key : cstring) : option Z := ddb_hash_register crc32hash key (ddb_resident_table table).

Definition key_of (st : ddbs) (p : ptr) : cstring := match regs st !! p with Some r => ddb_key r | None => [] end.

(** The loop of [ddb_del_key]: [prev] is the register of which [ddb3] is the
    link, or the head of the bucket. *)
Fixpoint del_loop (n : nat) (table hashi : Z) (key : cstring) (prev : option ptr) (p : option ptr) (st : ddbs) : option (bool * ddbs) :=
  match n with
  | O => None
  | S n =>
      match p with
      | None => Some (false, st)
      | Some x =>
          let ddb2 := ddb_next st !! x in
          if decide (key_of st x = key) then
            let '(h, nx) := match prev with
                            | None => (partial_alter (fun _ => ddb2) (table, hashi) (ddb_data_table st), ddb_next st)
                            | Some q => (ddb_data_table st, set_link q ddb2 (ddb_next st))
                            end in
            Some (true, with_memory (delete x (regs st)) (set_link x None nx) h
                          (set_at table (ddb_count_table st table - 1) (ddb_count_table st)) (ddbCount st - 1) st)
          else del_loop n table hashi key (Some x) ddb2 st
      end
  end.

(** [None]: the hash of an empty key reads past it. *)
Definition ddb_del_key (table : Z) (key : cstring) (st : ddbs) : option (bool * ddbs) :=
  let st := no_iterator_key st in
  hashi ← bucket_of table key;
  del_loop (walk_fuel (ddb_next st)) table hashi key None (ddb_data_table st !! (table, hashi)) st.

Definition ddb_add_key (table : Z) (key content : cstring) (st : ddbs) : option (bool * ddbs) :=
  let st := no_iterator_key st in
  '(deleted, st) ← ddb_del_key table key st;
  hashi ← bucket_of table key;
  let x := fresh (dom (regs st)) in
  Some (deleted,
        with_memory (<[x := {| ddb_key := key; ddb_content := content |}]> (regs st))
          (set_link x (ddb_data_table st !! (table, hashi)) (ddb_next st))
          (<[(table, hashi) := x]> (ddb_data_table st))
          (set_at table (ddb_count_table st table + 1) (ddb_count_table st)) (ddbCount st + 1) st).

(** Whether the mask of a register is for this server. *)
Definition for_me (mask : cstring) : option bool :=
  match match_ (collapse mask) me with Some (Some z) => Some (z =? 0) | _ => None end.

(** What [ddb_new_register] does in memory, with the events. *)
Definition ddb_new_register (table id : Z) (mask key : cstring) (content : option cstring) (st : ddbs) : option (ddbs * list ddb_event) :=
  let st := ddb_hash_calculate (db_line id mask table key content) table st in
  let st := with_id (set_at table id (ddb_id_table st)) st in
  if ddb_resident_table table =? 0 then Some (st, [])
  else
    mine ← for_me mask;
    if mine : bool then
      let keytemp := lower key in
      '(update, st) ← match content with
                      | Some c => ddb_add_key table keytemp c st
                      | None => '(_, st) ← ddb_del_key table keytemp st; Some (false, st)
                      end;
      Some (st, if ddb_events_table table then [{| ev_table := table; ev_key := key; ev_content := content; ev_update := update |}]
                else [])
    else Some (st, []).

(** The registers of a bucket, in order. *)
Definition bucket_regs (table h : Z) (st : ddbs) : option (list ptr) :=
  walk (walk_fuel (ddb_next st)) (ddb_next st) (ddb_data_table st !! (table, h)).

(** [DdbFree] of the registers of a bucket, with the events. *)
Definition free_bucket (table : Z) (events : bool) (l : list ptr) (st : ddbs) : ddbs * list ddb_event :=
  (with_memory (foldr delete (regs st) l) (foldr (fun x => set_link x None) (ddb_next st) l) (ddb_data_table st)
     (ddb_count_table st) (ddbCount st) st,
   if events && ddb_events_table table then
     map (fun x => {| ev_table := table; ev_key := key_of st x; ev_content := None; ev_update := false |}) l
   else []).

Fixpoint free_buckets (n : nat) (table h : Z) (events : bool) (st : ddbs) : option (ddbs * list ddb_event) :=
  match n with
  | O => Some (st, [])
  | S n =>
      l ← bucket_regs table h st;
      let '(st, e) := free_bucket table events l st in
      '(st, es) ← free_buckets n table (h + 1) events st;
      Some (st, e ++ es)
  end.

Fixpoint clear_heads (n : nat) (table h : Z) (st : ddbs) : ddbs :=
  match n with
  | O => st
  | S n => clear_heads n table (h + 1)
             (with_memory (regs st) (ddb_next st) (delete (table, h) (ddb_data_table st)) (ddb_count_table st) (ddbCount st) st)
  end.

(** [ddbCount] is not changed. *)
Definition ddb_drop_memory (table : Z) (events : bool) (st : ddbs) : option (ddbs * list ddb_event) :=
  let st := with_id (set_at table 0 (ddb_id_table st)) st in
  let st := with_memory (regs st) (ddb_next st) (ddb_data_table st) (set_at table 0 (ddb_count_table st)) (ddbCount st) st in
  let st := with_hash (set_at table (0, 0) (ddb_hashtable st)) st in
  let n := Z.to_nat (ddb_resident_table table) in
  if ddb_resident_table table =? 0 then Some (st, [])
  else '(st, es) ← free_buckets n table 0 events st; Some (clear_heads n table 0 st, es).

Definition ddb_compact (table id : Z) (st : ddbs) : ddbs := with_id (set_at table id (ddb_id_table st)) st.

(** [ddb_find_registry_table] and [ddb_find_key]. *)
Definition ddb_find_registry_table (table : Z) (key : cstring) (st : ddbs) : option (option ptr) :=
  let k := lower key in
  hashi ← bucket_of table k;
  find_from (walk_fuel (ddb_next st)) (ddb_next st) (fun p => strcmp_eqb (key_of st p) k) (ddb_data_table st !! (table, hashi)).

Definition ddb_find_key (table : Z) (key : cstring) (st : ddbs) : option (option ptr) :=
  if ddb_resident_table table =? 0 then Some None else ddb_find_registry_table table key st.

Definition content_of (st : ddbs) (p : ptr) : cstring := match regs st !! p with Some r => ddb_content r | None => [] end.

Definition ddb_get_botname (bot : cstring) (st : ddbs) : option cstring :=
  r ← ddb_find_key DDB_BOTDB bot st;
  Some (match r with Some p => content_of st p | None => me end).

(** ** The iterator *)

(** The search of the next bucket that is not empty; [n] is the number of
    buckets left. *)
Fixpoint next_bucket (n : nat) (table pos len : Z) (st : ddbs) : option ptr * Z :=
  match n with
  | O => (None, pos)
  | S n => match ddb_data_table st !! (table, pos) with
           | Some x => (Some x, pos + 1)
           | None => next_bucket n table (pos + 1) len st
           end
  end.

Definition ddb_iterator (st : ddbs) : option ptr * ddbs :=
  match it_key st ≫= fun k => ddb_next st !! k with
  | Some x => (Some x, with_iterator (Some x) (it_content st) (it_pos st) (it_len st) st)
  | None =>
      match it_content st with
      | None => (None, with_iterator None None 0 0 st)
      | Some table =>
          match next_bucket (Z.to_nat (it_len st - it_pos st)) table (it_pos st) (it_len st) st with
          | (Some x, pos) => (Some x, with_iterator (Some x) (Some table) pos (it_len st) st)
          | (None, _) => (None, with_iterator None None 0 0 st)
          end
      end
  end.

(** [None]: an assertion fails. *)
Definition ddb_iterator_first (table : Z) (st : ddbs) : option (option ptr * ddbs) :=
  if (DDB_INIT <=? table) && (table <=? DDB_END) && negb (ddb_resident_table table =? 0)
  then Some (ddb_iterator (with_iterator None (Some table) 0 (ddb_resident_table table) st))
  else None.

Definition ddb_iterator_next (st : ddbs) : option (option ptr * ddbs) :=
  match it_key st, it_content st with
  | Some _, Some _ => if it_len st =? 0 then None else Some (ddb_iterator st)
  | _, _ => None
  end.

End memory.

(** ** The abstract tables *)

Section spec.
Context (crc32hash : list Z) (me : cstring).
Implicit Types (st : ddbs) (L : Z -> Z -> list ptr).

(** [L t h] are the registers of bucket [h] of table [t]. *)
Record ddb_ok st L : Prop := {
  do_chain : forall t h, chain (ddb_next st) (ddb_data_table st !! (t, h)) (L t h);
  do_nodup : forall t h, NoDup (L t h);
  do_disj : forall t h t' h' p, p ∈ L t h -> p ∈ L t' h' -> t = t' /\ h = h';
  do_regs : forall p, p ∈ dom (regs st) <-> exists t h, p ∈ L t h;
  do_hash : forall t h p, p ∈ L t h -> bucket_of crc32hash t (key_of st p) = Some h /\ ddb_resident_table t <> 0;
  do_keys : forall t h p q, p ∈ L t h -> q ∈ L t h -> key_of st p = key_of st q -> p = q;
  do_lower : forall t h p, p ∈ L t h -> lower (key_of st p) = key_of st p /\ is_cstr (key_of st p)
}.

Definition upd2 (t h : Z) (l : list ptr) L : Z -> Z -> list ptr :=
  fun t' h' => if decide (t' = t /\ h' = h) then l else L t' h'.

Lemma upd2_eq t h l L : upd2 t h l L t h = l.
Proof. unfold upd2. by rewrite decide_True. Qed.

Lemma upd2_ne t h l L t' h' : ~ (t' = t /\ h' = h) -> upd2 t h l L t' h' = L t' h'.
Proof. intros Hne. unfold upd2. by rewrite decide_False. Qed.

(** The register that [key] has in table [t]. *)
Definition holds st L (t : Z) (key content : cstring) (p : ptr) : Prop :=
  exists h, p ∈ L t h /\ regs st !! p = Some {| ddb_key := key; ddb_content := content |}.

Lemma key_of_some st p r : regs st !! p = Some r -> key_of st p = ddb_key r.
Proof. unfold key_of. by intros ->. Qed.

Lemma in_regs st L t h p : ddb_ok st L -> p ∈ L t h -> exists r, regs st !! p = Some r.
Proof. intros H Hp. apply elem_of_dom. apply (do_regs _ _ H). by exists t, h. Qed.

Lemma bucket_fuel st L t h : ddb_ok st L -> (length (L t h) < walk_fuel (ddb_next st))%nat.
Proof.
  intros H. pose proof (chain_size _ _ _ (do_nodup _ _ H t h) (do_chain _ _ H t h)). unfold walk_fuel. lia.
Qed.

Lemma ddb_ok_ext st st' L :
  regs st' = regs st -> ddb_next st' = ddb_next st -> ddb_data_table st' = ddb_data_table st -> ddb_ok st L -> ddb_ok st' L.
Proof.
  intros E1 E2 E3 [H1 H2 H3 H4 H5 H6 H7].
  assert (Ek : forall p, key_of st' p = key_of st p) by (intros p; unfold key_of; by rewrite E1).
  split.
  - intros t h. rewrite E2, E3. apply H1.
  - done.
  - done.
  - by rewrite E1.
  - intros t h p. rewrite Ek. apply H5.
  - intros t h p q. rewrite !Ek. apply H6.
  - intros t h p. rewrite Ek. apply H7.
Qed.

(** Taking a register out of its bucket. *)
Definition removed_at (t h : Z) (l1 : list ptr) (x : ptr) st : ddbs :=
  let ddb2 := ddb_next st !! x in
  let '(hd, nx) := match last l1 with
                   | None => (partial_alter (fun _ => ddb2) (t, h) (ddb_data_table st), ddb_next st)
                   | Some q => (ddb_data_table st, set_link q ddb2 (ddb_next st))
                   end in
  with_memory (delete x (regs st)) (set_link x None nx) hd
    (set_at t (ddb_count_table st t - 1) (ddb_count_table st)) (ddbCount st - 1) st.

Lemma del_loop_found t h key st x l2 : forall l1 l0 n p,
  chain (ddb_next st) p (l1 ++ x :: l2) -> Forall (fun y => key_of st y <> key) l1 -> key_of st x = key ->
  (length (l1 ++ x :: l2) < n)%nat ->
  del_loop n t h key (last l0) p st = Some (true, removed_at t h (l0 ++ l1) x st).
Proof.
  induction l1 as [|y l1 IH]; intros l0 n p Hc Hne Hx Hn; (destruct n as [|n]; [cbn in Hn; lia|]); cbn [app] in *.
  - destruct Hc as [-> Hc]. cbn [del_loop]. rewrite decide_True by done. rewrite app_nil_r. unfold removed_at. by destruct (last l0).
  - destruct Hc as [-> Hc]. apply Forall_cons in Hne as [Hy Hne]. cbn [del_loop]. rewrite decide_False by done.
    cbn [length] in Hn. specialize (IH (l0 ++ [y]) n _ Hc Hne Hx ltac:(lia)). rewrite last_snoc in IH. rewrite IH.
    by rewrite <- app_assoc.
Qed.

Lemma del_loop_missing t h key st l : forall prev n p,
  chain (ddb_next st) p l -> Forall (fun y => key_of st y <> key) l -> (length l < n)%nat ->
  del_loop n t h key prev p st = Some (false, st).
Proof.
  induction l as [|y l IH]; intros prev n p Hc Hne Hn; (destruct n as [|n]; [cbn in Hn; lia|]).
  - by rewrite (Hc : p = None).
  - destruct Hc as [-> Hc]. apply Forall_cons in Hne as [Hy Hne]. cbn [del_loop]. rewrite decide_False by done.
    cbn [length] in Hn. apply IH; [done|done|lia].
Qed.

Lemma removed_chain t h l1 x l2 st p :
  NoDup (l1 ++ x :: l2) -> chain (ddb_next st) p (l1 ++ x :: l2) -> ddb_data_table st !! (t, h) = p ->
  chain (ddb_next (removed_at t h l1 x st)) (ddb_data_table (removed_at t h l1 x st) !! (t, h)) (l1 ++ l2).
Proof.
  intros Hnd Hc Hp. unfold removed_at. destruct (last l1) as [q|] eqn:El; cbn.
  - apply last_Some in El as [l0 ->]. pose proof (NoDup_drop_middle _ _ _ Hnd) as [Hx _].
    rewrite <- app_assoc in *. cbn [app] in *. rewrite Hp. apply chain_frame; [exact Hx|]. by apply chain_unlink.
  - apply last_None in El as ->. cbn [app] in *. rewrite lookup_partial_alter_eq. destruct Hc as [_ Hc].
    apply NoDup_cons in Hnd as [Hx _]. by apply chain_frame.
Qed.

Lemma removed_frame t h l1 x st y : y <> x -> last l1 <> Some y ->
  ddb_next (removed_at t h l1 x st) !! y = ddb_next st !! y.
Proof.
  intros Hx Hq. unfold removed_at. destruct (last l1) as [q|]; cbn; rewrite !set_link_ne by congruence; done.
Qed.

Lemma removed_heads t h l1 x st t' h' : ~ (t' = t /\ h' = h) ->
  ddb_data_table (removed_at t h l1 x st) !! (t', h') = ddb_data_table st !! (t', h').
Proof.
  intros Hne. unfold removed_at. destruct (last l1) as [q|]; cbn; [done|]. apply lookup_partial_alter_ne.
  intros [= -> ->]. by apply Hne.
Qed.

Lemma removed_regs t h l1 x st : regs (removed_at t h l1 x st) = delete x (regs st).
Proof. unfold removed_at. by destruct (last l1). Qed.

Lemma chain_ext nx nx' p l : (forall y, y ∈ l -> nx' !! y = nx !! y) -> chain nx p l -> chain nx' p l.
Proof.
  revert p. induction l as [|y l IH]; intros p Hf; [done|]. intros [-> Hc]. split; [done|]. rewrite Hf by left.
  apply IH; [|done]. intros z Hz. apply Hf. by right.
Qed.

Lemma ddb_removed_ok st L t h l1 x l2 :
  ddb_ok st L -> L t h = l1 ++ x :: l2 -> ddb_ok (removed_at t h l1 x st) (upd2 t h (l1 ++ l2) L).
Proof.
  intros H HL. pose proof (do_nodup _ _ H t h) as Hnd. rewrite HL in Hnd. pose proof (NoDup_drop_middle _ _ _ Hnd) as [Hx Hnd'].
  assert (Hk : forall p, p <> x -> key_of (removed_at t h l1 x st) p = key_of st p).
  { intros p Hp. unfold key_of. rewrite removed_regs. by rewrite lookup_delete_ne. }
  assert (Hin : forall t' h' p, p ∈ upd2 t h (l1 ++ l2) L t' h' -> p ∈ L t' h' /\ p <> x).
  { intros t' h' p. destruct (decide (t' = t /\ h' = h)) as [[-> ->]|Hne].
    - rewrite upd2_eq, HL. intros Hp. split; [set_solver|]. by intros ->.
    - rewrite upd2_ne by done. intros Hp. split; [done|]. intros ->. apply Hne.
      apply (do_disj _ _ H t' h' t h x); [done|rewrite HL; set_solver]. }
  split.
  - intros t' h'. destruct (decide (t' = t /\ h' = h)) as [[-> ->]|Hne].
    + rewrite upd2_eq. pose proof (do_chain _ _ H t h) as Hc. rewrite HL in Hc. by eapply removed_chain.
    + pose proof (do_chain _ _ H t' h') as Hc. rewrite upd2_ne, removed_heads by done. eapply chain_ext; [|exact Hc].
      intros y Hy. assert (Hny : y ∉ L t h) by (intros Hy'; by apply Hne, (do_disj _ _ H t' h' t h y)).
      rewrite HL in Hny. apply removed_frame; [set_solver|]. intros El. apply Hny. apply last_Some in El as [l0 ->]. set_solver.
  - intros t' h'. destruct (decide (t' = t /\ h' = h)) as [[-> ->]|Hne]; [by rewrite upd2_eq|by rewrite upd2_ne; [apply H|]].
  - intros t1 h1 t2 h2 p Hp1 Hp2. apply Hin in Hp1 as [Hp1 _]. apply Hin in Hp2 as [Hp2 _]. by apply (do_disj _ _ H t1 h1 t2 h2 p).
  - intros p. rewrite removed_regs, dom_delete, elem_of_difference, elem_of_singleton, (do_regs _ _ H). split.
    + intros [(t' & h' & Hp) Hne]. exists t', h'. destruct (decide (t' = t /\ h' = h)) as [[-> ->]|Hn]; [|by rewrite upd2_ne].
      rewrite upd2_eq. rewrite HL in Hp. set_solver.
    + intros (t' & h' & Hp). apply Hin in Hp as [Hp Hne]. split; [by exists t', h'|done].
  - intros t' h' p Hp. apply Hin in Hp as [Hp Hne]. rewrite Hk by done. by apply (do_hash _ _ H).
  - intros t' h' p q Hp Hq. apply Hin in Hp as [Hp Hpx]. apply Hin in Hq as [Hq Hqx]. rewrite !Hk by done. by apply (do_keys _ _ H t' h').
  - intros t' h' p Hp. apply Hin in Hp as [Hp Hne]. rewrite Hk by done. by apply (do_lower _ _ H t' h').
Qed.

Definition added (t h : Z) (x : ptr) (key content : cstring) st : ddbs :=
  with_memory (<[x := {| ddb_key := key; ddb_content := content |}]> (regs st))
    (set_link x (ddb_data_table st !! (t, h)) (ddb_next st)) (<[(t, h) := x]> (ddb_data_table st))
    (set_at t (ddb_count_table st t + 1) (ddb_count_table st)) (ddbCount st + 1) st.

Lemma added_ok st L t h x key content :
  ddb_ok st L -> x ∉ dom (regs st) -> bucket_of crc32hash t key = Some h -> ddb_resident_table t <> 0 ->
  lower key = key -> is_cstr key -> (forall p, p ∈ L t h -> key_of st p <> key) ->
  ddb_ok (added t h x key content st) (upd2 t h (x :: L t h) L).
Proof.
  intros H Hx Hb Hr Hl Hc Hk.
  assert (HxL : forall t' h', x ∉ L t' h') by (intros t' h' Hin; apply Hx, (do_regs _ _ H); by exists t', h').
  assert (Hko : forall p, p <> x -> key_of (added t h x key content st) p = key_of st p).
  { intros p Hp. unfold key_of. cbn. by rewrite lookup_insert_ne. }
  assert (Hkx : key_of (added t h x key content st) x = key) by (unfold key_of; cbn; by rewrite lookup_insert_eq).
  assert (Hin : forall t' h' p, p ∈ upd2 t h (x :: L t h) L t' h' <-> p = x /\ t' = t /\ h' = h \/ p <> x /\ p ∈ L t' h').
  { intros t' h' p. destruct (decide (t' = t /\ h' = h)) as [[-> ->]|Hne].
    - rewrite upd2_eq, elem_of_cons. destruct (decide (p = x)) as [->|]; [|tauto]. split; [by left|tauto].
    - rewrite upd2_ne by done. split; [|tauto]. intros Hp. right. split; [|done]. intros ->. by apply (HxL t' h'). }
  split.
  - intros t' h'. destruct (decide (t' = t /\ h' = h)) as [[-> ->]|Hne].
    + rewrite upd2_eq. cbn. rewrite lookup_insert_eq. apply chain_push; [done|]. apply H.
    + rewrite upd2_ne by done. cbn. rewrite lookup_insert_ne by (intros [= -> ->]; by apply Hne). apply chain_frame; [done|]. apply H.
  - intros t' h'. destruct (decide (t' = t /\ h' = h)) as [[-> ->]|Hne]; [|by rewrite upd2_ne; [apply H|]].
    rewrite upd2_eq. constructor; [done|]. apply H.
  - intros t1 h1 t2 h2 p. rewrite !Hin. intros [(-> & -> & ->)|[Hp1 Hp2]] [(? & -> & ->)|[? Hp3]]; try done.
    by apply (do_disj _ _ H t1 h1 t2 h2 p).
  - intros p. cbn. rewrite dom_insert, elem_of_union, elem_of_singleton, (do_regs _ _ H). split.
    + intros [->|(t' & h' & Hp)]; [exists t, h; apply Hin; by left|]. exists t', h'. apply Hin. right. split; [|done].
      intros ->. by apply (HxL t' h').
    + intros (t' & h' & Hp). apply Hin in Hp as [(-> & _)|[_ Hp]]; [by left|right; by exists t', h'].
  - intros t' h' p Hp. apply Hin in Hp as [(-> & -> & ->)|[Hne Hp]]; [by rewrite Hkx|]. rewrite Hko by done. by apply (do_hash _ _ H).
  - intros t' h' p q Hp Hq. apply Hin in Hp as [(-> & -> & ->)|[Hpx Hp]]; apply Hin in Hq as [(-> & E1 & E2)|[Hqx Hq]]; try done.
    + rewrite Hkx, Hko by done. intros E. by destruct (Hk q Hq).
    + subst. rewrite Hkx, Hko by done. intros E. by destruct (Hk p Hp).
    + rewrite !Hko by done. by apply (do_keys _ _ H t' h').
  - intros t' h' p Hp. apply Hin in Hp as [(-> & -> & ->)|[Hne Hp]]; [by rewrite Hkx|]. rewrite Hko by done. by apply (do_lower _ _ H t' h').
Qed.

(** *** Keys *)

Abbreviation tables := (Z -> gmap cstring cstring) (only parsing).

Definition rep st (M : tables) : Prop :=
  exists L, ddb_ok st L /\
    (forall t k c, M t !! k = Some c <-> exists h p, p ∈ L t h /\ regs st !! p = Some {| ddb_key := k; ddb_content := c |}) /\
    forall t, ddb_count_table st t = Z.of_nat (size (M t)).

Lemma ddb_rep_ext st st' M :
  regs st' = regs st -> ddb_next st' = ddb_next st -> ddb_data_table st' = ddb_data_table st ->
  ddb_count_table st' = ddb_count_table st -> rep st M -> rep st' M.
Proof.
  intros E1 E2 E3 E4 (L & H & HM & HC). exists L. split; [by eapply ddb_ok_ext|]. rewrite E1, E4. done.
Qed.

Definition upd_tab (t : Z) (f : gmap cstring cstring -> gmap cstring cstring) (M : tables) : tables := set_at t (f (M t)) M.

Lemma set_at_eq {A} i (v : A) a : set_at i v a i = v.
Proof. unfold set_at. by rewrite decide_True. Qed.

Lemma set_at_ne {A} i j (v : A) a : j <> i -> set_at i v a j = a j.
Proof. intros Hne. unfold set_at. by rewrite decide_False. Qed.

Lemma bucket_some t key : key <> [] -> exists h, bucket_of crc32hash t key = Some h.
Proof.
  intros Hk. destruct (strhash_some crc32hash key Hk) as [h Hh]. unfold bucket_of, ddb_hash_register. rewrite Hh. by eexists.
Qed.

(** The register of a key is in the bucket of the key. *)
Lemma rep_in_bucket st L t k c h h' p :
  ddb_ok st L -> p ∈ L t h -> regs st !! p = Some {| ddb_key := k; ddb_content := c |} -> bucket_of crc32hash t k = Some h' -> h = h'.
Proof.
  intros H Hp Hr Hb. destruct (do_hash _ _ H t h p Hp) as [Hb' _]. rewrite (key_of_some _ _ _ Hr) in Hb'. cbn in Hb'. congruence.
Qed.

Lemma rep_missing st L t k h :
  ddb_ok st L -> (forall c, ~ exists h p, p ∈ L t h /\ regs st !! p = Some {| ddb_key := k; ddb_content := c |}) ->
  Forall (fun p => key_of st p <> k) (L t h).
Proof.
  intros H Hn. apply Forall_forall. intros p Hp Hk. destruct (in_regs _ _ _ _ _ H Hp) as [[k' c] Hr].
  rewrite (key_of_some _ _ _ Hr) in Hk. cbn in Hk. subst k'. apply (Hn c). by exists h, p.
Qed.

Lemma del_key_rep st M t key :
  rep st M -> key <> [] ->
  exists b st', ddb_del_key crc32hash t key st = Some (b, st') /\ rep st' (upd_tab t (delete key) M) /\
    b = bool_decide (is_Some (M t !! key)) /\ ddb_id_table st' = ddb_id_table st /\ ddb_hashtable st' = ddb_hashtable st.
Proof.
  intros HR Hne. destruct (bucket_some t key Hne) as [h Hh]. unfold ddb_del_key. rewrite Hh. cbn [mbind option_bind].
  assert (HR0 : rep (no_iterator_key st) M) by (by apply (ddb_rep_ext st)). set (st0 := no_iterator_key st) in *.
  change (ddb_id_table st) with (ddb_id_table st0). change (ddb_hashtable st) with (ddb_hashtable st0). clearbody st0. clear HR st.
  destruct HR0 as (L & H & HM & HC). pose proof (do_chain _ _ H t h) as Hc. pose proof (bucket_fuel _ _ t h H) as Hfuel.
  destruct (M t !! key) as [c|] eqn:Ek.
  - apply HM in Ek as (h' & x & Hx & Hr). assert (h' = h) as -> by (by eapply rep_in_bucket).
    pose proof Hx as Hx'. apply list_elem_of_split in Hx' as (l1 & l2 & HL).
    assert (Hl1 : Forall (fun y => key_of st0 y <> key) l1).
    { apply Forall_forall. intros y Hy Hky. assert (y = x) as ->.
      { apply (do_keys _ _ H t h); [rewrite HL; set_solver|done|]. by rewrite Hky, (key_of_some _ _ _ Hr). }
      pose proof (do_nodup _ _ H t h) as Hnd. rewrite HL in Hnd. apply NoDup_drop_middle in Hnd. set_solver. }
    rewrite HL in Hc, Hfuel. pose proof (del_loop_found t h key st0 x l2 l1 [] _ _ Hc Hl1 (key_of_some _ _ _ Hr) Hfuel) as E.
    cbn [last app] in E. rewrite E. exists true, (removed_at t h l1 x st0). split; [done|]. split_and!.
    + exists (upd2 t h (l1 ++ l2) L). split; [by apply ddb_removed_ok|]. split.
      * intros t' k c'. rewrite removed_regs.
        assert (Hq : (exists h0 p, p ∈ upd2 t h (l1 ++ l2) L t' h0 /\ delete x (regs st0) !! p = Some {| ddb_key := k; ddb_content := c' |}) <->
                (exists h0 p, p ∈ L t' h0 /\ p <> x /\ regs st0 !! p = Some {| ddb_key := k; ddb_content := c' |})).
        { pose proof (do_nodup _ _ H t h) as Hnd. rewrite HL in Hnd. apply NoDup_drop_middle in Hnd as [Hxn _].
          split; intros (h0 & p & Hp & Hq); exists h0, p; revert Hp Hq; rewrite lookup_delete_Some;
            (destruct (decide (t' = t /\ h0 = h)) as [[-> ->]|Hn]; [rewrite ?upd2_eq, HL|rewrite ?upd2_ne by done]).
          - intros Hp [Hne' Hq]. split; [set_solver|done].
          - intros Hp [Hne' Hq]. done.
          - intros Hp [Hne' Hq]. split; [set_solver|done].
          - intros Hp [Hne' Hq]. done. }
        rewrite Hq. unfold upd_tab. destruct (decide (t' = t)) as [->|Hn].
        -- rewrite set_at_eq, lookup_delete_Some. rewrite HM. split.
           ++ intros (Hk & h0 & p & Hp & Hr'). exists h0, p. split_and!; [done| |done]. intros ->. rewrite Hr in Hr'. congruence.
           ++ intros (h0 & p & Hp & Hpx & Hr'). split; [|by exists h0, p]. intros <-.
              assert (h0 = h) as -> by (by eapply rep_in_bucket). apply Hpx. apply (do_keys _ _ H t h); [done|done|].
              by rewrite (key_of_some _ _ _ Hr), (key_of_some _ _ _ Hr').
        -- rewrite set_at_ne by done. rewrite HM. split.
           ++ intros (h0 & p & Hp & Hr'). exists h0, p. split_and!; [done| |done]. intros ->.
              by destruct (do_disj _ _ H t' h0 t h x Hp Hx).
           ++ intros (h0 & p & Hp & _ & Hr'). by exists h0, p.
      * assert (HMt : M t !! key = Some c) by (apply HM; by exists h, x).
        intros t'. assert (Ec : ddb_count_table (removed_at t h l1 x st0) = set_at t (ddb_count_table st0 t - 1) (ddb_count_table st0))
          by (unfold removed_at; by destruct (last l1)).
        rewrite Ec. unfold upd_tab. destruct (decide (t' = t)) as [->|Hn]; [rewrite !set_at_eq, HC|by rewrite !set_at_ne].
        rewrite map_size_delete_Some by (by exists c). assert (size (M t) <> 0%nat).
        { intros E0. apply map_size_empty_inv in E0. rewrite E0 in HMt. by rewrite lookup_empty in HMt. }
        lia.
    + by rewrite bool_decide_true by (by exists c).
    + unfold removed_at. by destruct (last l1).
    + unfold removed_at. by destruct (last l1).
  - assert (Hl : Forall (fun p => key_of st0 p <> key) (L t h)).
    { eapply (rep_missing st0); [done|]. intros c Hex. apply HM in Hex. congruence. }
    rewrite (del_loop_missing t h key st0 _ _ _ _ Hc Hl Hfuel). exists false, st0. split_and!; try done.
    + exists L. split; [done|]. unfold upd_tab.
      assert (Ed : forall t', set_at t (delete key (M t)) M t' = M t').
      { intros t'. destruct (decide (t' = t)) as [->|Hn]; [rewrite set_at_eq; by apply delete_id|by rewrite set_at_ne]. }
      split; [intros t' k c; by rewrite Ed|]. intros t'. by rewrite Ed.
Qed.

Lemma add_key_rep st M t key content :
  rep st M -> key <> [] -> ddb_resident_table t <> 0 -> lower key = key -> is_cstr key ->
  exists b st', ddb_add_key crc32hash t key content st = Some (b, st') /\ rep st' (upd_tab t (insert key content) M) /\
    b = bool_decide (is_Some (M t !! key)) /\ ddb_id_table st' = ddb_id_table st /\ ddb_hashtable st' = ddb_hashtable st.
Proof.
  intros HR Hne Hres Hlow Hcs. unfold ddb_add_key.
  destruct (del_key_rep (no_iterator_key st) M t key) as (b & st1 & E & HR1 & Hb & Hi & Hh); [by apply (ddb_rep_ext st)|done|].
  rewrite E. cbn [mbind option_bind]. destruct (bucket_some t key Hne) as [h Hbk]. rewrite Hbk. cbn [mbind option_bind].
  exists b, (added t h (fresh (dom (regs st1))) key content st1). split; [done|]. split_and!; [|done|done|done].
  set (x := fresh (dom (regs st1))). assert (Hx : x ∉ dom (regs st1)) by apply is_fresh.
  destruct HR1 as (L & H & HM & HC).
  assert (Hk : forall p, p ∈ L t h -> key_of st1 p <> key).
  { apply Forall_forall. eapply rep_missing; [done|]. intros c Hex. apply HM in Hex. unfold upd_tab in Hex.
    rewrite set_at_eq, lookup_delete_eq in Hex. done. }
  assert (HxL : forall t' h', x ∉ L t' h') by (intros t' h' Hin; apply Hx, (do_regs _ _ H); by exists t', h').
  exists (upd2 t h (x :: L t h) L). split; [by apply added_ok|]. split.
  - intros t' k c.
    assert (Hq : (exists h0 p, p ∈ upd2 t h (x :: L t h) L t' h0 /\ regs (added t h x key content st1) !! p = Some {| ddb_key := k; ddb_content := c |}) <->
            t' = t /\ k = key /\ c = content \/ exists h0 p, p ∈ L t' h0 /\ regs st1 !! p = Some {| ddb_key := k; ddb_content := c |}).
    { cbn. split.
      - intros (h0 & p & Hp & Hr). destruct (decide (p = x)) as [->|Hpx].
        + rewrite lookup_insert_eq in Hr. injection Hr as <- <-. left. split; [|done].
          destruct (decide (t' = t /\ h0 = h)) as [[-> _]|Hn]; [done|]. rewrite upd2_ne in Hp by done. by destruct (HxL t' h0).
        + rewrite lookup_insert_ne in Hr by done. right. exists h0, p. split; [|done].
          destruct (decide (t' = t /\ h0 = h)) as [[-> ->]|Hn]; [rewrite upd2_eq in Hp; set_solver|by rewrite upd2_ne in Hp].
      - intros [(-> & -> & ->)|(h0 & p & Hp & Hr)].
        + exists h, x. rewrite upd2_eq, lookup_insert_eq. split; [left|done].
        + exists h0, p. assert (p <> x) by (intros ->; by apply (HxL t' h0)). rewrite lookup_insert_ne by done. split; [|done].
          destruct (decide (t' = t /\ h0 = h)) as [[-> ->]|Hn]; [rewrite upd2_eq; by right|by rewrite upd2_ne]. }
    rewrite Hq, <- HM. unfold upd_tab. destruct (decide (t' = t)) as [->|Hn].
    + rewrite !set_at_eq, lookup_insert_Some, lookup_delete_Some. naive_solver.
    + rewrite !set_at_ne by done. naive_solver.
  - intros t'. cbn. destruct (decide (t' = t)) as [->|Hn].
    + rewrite set_at_eq, HC. unfold upd_tab. rewrite !set_at_eq. rewrite <- insert_delete_eq, map_size_insert_None by apply lookup_delete_eq. lia.
    + rewrite set_at_ne, HC by done. unfold upd_tab. by rewrite !set_at_ne.
Qed.

(** *** Dropping a table *)

Lemma lower_idem s : lower (lower s) = lower s.
Proof. unfold lower. rewrite map_map. apply map_ext. intros c. apply ToLower_idem. Qed.

Lemma lower_cstr s : is_cstr s -> is_cstr (lower s).
Proof.
  assert (Hn : forall c, c <> NUL -> ToLower c <> NUL) by all_chars.
  unfold is_cstr, lower. rewrite Forall_map. intros Hs. eapply Forall_impl; [exact Hs|]. exact Hn.
Qed.

Definition freed (l : list ptr) st : ddbs :=
  with_memory (foldr delete (regs st) l) (foldr (fun x => set_link x None) (ddb_next st) l) (ddb_data_table st)
    (ddb_count_table st) (ddbCount st) st.

Lemma freed_regs l st p : regs (freed l st) !! p = if decide (p ∈ l) then None else regs st !! p.
Proof.
  cbn. induction l as [|x l IH]; [done|]. cbn [foldr]. destruct (decide (p = x)) as [->|Hne].
  - rewrite lookup_delete_eq, decide_True by left. done.
  - rewrite lookup_delete_ne, IH by done. destruct (decide (p ∈ l)); [rewrite decide_True; [done|by right]|].
    rewrite decide_False; [done|]. by apply not_elem_of_cons.
Qed.

Lemma freed_next l st p : ddb_next (freed l st) !! p = if decide (p ∈ l) then None else ddb_next st !! p.
Proof.
  cbn. induction l as [|x l IH]; [done|]. cbn [foldr]. destruct (decide (p = x)) as [->|Hne].
  - rewrite set_link_eq, decide_True by left. done.
  - rewrite set_link_ne, IH by done. destruct (decide (p ∈ l)); [rewrite decide_True; [done|by right]|].
    rewrite decide_False; [done|]. by apply not_elem_of_cons.
Qed.

Lemma freed_app l1 l2 st : freed l2 (freed l1 st) = freed (l2 ++ l1) st.
Proof. unfold freed, with_memory. cbn. f_equal; by rewrite foldr_app. Qed.

(** The members of the first [n] buckets from [h] on, those of the later
    buckets first. *)
Fixpoint members (n : nat) (t h : Z) L : list ptr :=
  match n with O => [] | S n => members n t (h + 1) L ++ L t h end.

Lemma elem_of_members n t L p : forall h, p ∈ members n t h L <-> exists h', h <= h' < h + Z.of_nat n /\ p ∈ L t h'.
Proof.
  induction n as [|n IH]; intros h; cbn [members].
  - split; [by intros ?%elem_of_nil|]. intros (h' & ? & _). lia.
  - rewrite elem_of_app, IH. split.
    + intros [(h' & ? & ?)|Hp]; [exists h'; split; [lia|done]|exists h; split; [lia|done]].
    + intros (h' & Hr & Hp). destruct (decide (h' = h)) as [->|]; [by right|]. left. exists h'. split; [lia|done].
Qed.

Lemma free_buckets_spec n t ev st0 L : ddb_ok st0 L -> forall h S,
  (forall h', h <= h' -> forall p, p ∈ L t h' -> p ∉ S) ->
  exists es, free_buckets n t h ev (freed S st0) = Some (freed (members n t h L ++ S) st0, es).
Proof.
  intros H. induction n as [|n IH]; intros h S HS; cbn [free_buckets members]; [by eexists|].
  assert (Hc : chain (ddb_next (freed S st0)) (ddb_data_table (freed S st0) !! (t, h)) (L t h)).
  { eapply chain_ext; [|apply (do_chain _ _ H)]. intros p Hp. rewrite freed_next, decide_False; [done|]. apply (HS h); [lia|done]. }
  unfold bucket_regs. rewrite (walk_chain _ _ _ _ Hc).
  2: { pose proof (chain_size _ _ _ (do_nodup _ _ H t h) Hc). unfold walk_fuel. lia. }
  cbn [mbind option_bind]. destruct (free_bucket t ev (L t h) (freed S st0)) as [st1 e] eqn:E. cbn in E. injection E as <- <-.
  change (with_memory _ _ _ _ _ _) with (freed (L t h) (freed S st0)) at 1. rewrite freed_app.
  destruct (IH (h + 1) (L t h ++ S)) as [es Ees].
  { intros h' Hh p Hp. apply not_elem_of_app. split; [|apply (HS h'); [lia|done]].
    intros Hp'. destruct (do_disj _ _ H t h' t h p Hp Hp'). lia. }
  rewrite Ees. cbn. eexists. by rewrite <- app_assoc.
Qed.

Lemma resident_pow t : ddb_resident_table t = 0 \/ exists k, 0 <= k /\ ddb_resident_table t = 2 ^ k.
Proof.
  unfold ddb_resident_table. repeat case_match; (by left) || right; [by exists 15|by exists 12|by exists 9|by exists 8].
Qed.

Lemma bucket_range t key h : bucket_of crc32hash t key = Some h -> ddb_resident_table t <> 0 -> 0 <= h < ddb_resident_table t.
Proof.
  intros Hb Hr. destruct (resident_pow t) as [?|(k & Hk & Ek)]; [done|]. unfold bucket_of, ddb_hash_register in Hb.
  destruct (strhash crc32hash key); [|done]. injection Hb as <-. rewrite Ek, Z.sub_1_r, <- Z.ones_equiv, Z.land_ones by done.
  apply Z.mod_pos_bound. lia.
Qed.

Lemma clear_heads_spec n t : forall h st,
  let st' := clear_heads n t h st in
  regs st' = regs st /\ ddb_next st' = ddb_next st /\ ddb_count_table st' = ddb_count_table st /\
  ddb_id_table st' = ddb_id_table st /\ ddb_hashtable st' = ddb_hashtable st /\
  forall t' h', ddb_data_table st' !! (t', h') =
    if decide (t' = t /\ h <= h' < h + Z.of_nat n) then None else ddb_data_table st !! (t', h').
Proof.
  induction n as [|n IH]; intros h st; cbn [clear_heads].
  - split_and!; try done. intros t' h'. rewrite decide_False; [done|]. lia.
  - destruct (IH (h + 1) (with_memory (regs st) (ddb_next st) (delete (t, h) (ddb_data_table st)) (ddb_count_table st) (ddbCount st) st))
      as (E1 & E2 & E3 & E4 & E5 & E6). split_and!; try done. intros t' h'. rewrite E6. cbn.
    destruct (decide (t' = t /\ h + 1 <= h' < h + 1 + Z.of_nat n)) as [[-> ?]|Hn].
    + rewrite decide_True; [done|]. split; [done|lia].
    + destruct (decide (t' = t /\ h' = h)) as [[-> ->]|Hne].
      * rewrite lookup_delete_eq, decide_True; [done|]. split; [done|lia].
      * rewrite lookup_delete_ne by (intros [= -> ->]; by apply Hne). destruct (decide _) as [[-> ?]|]; [|done].
        exfalso. apply Hn. split; [done|]. assert (h' <> h) by (intros ->; by apply Hne). lia.
Qed.

Definition emptied t L : Z -> Z -> list ptr := fun t' h' => if decide (t' = t) then [] else L t' h'.

Lemma drop_rep st M t events : rep st M ->
  exists st' es, ddb_drop_memory t events st = Some (st', es) /\ rep st' (upd_tab t (fun _ => ∅) M) /\
    ddb_id_table st' = set_at t 0 (ddb_id_table st) /\ ddb_hashtable st' = set_at t (0, 0) (ddb_hashtable st).
Proof.
  intros (L & H & HM & HC). unfold ddb_drop_memory.
  set (st0 := with_hash _ _). assert (H0 : ddb_ok st0 L) by (by apply (ddb_ok_ext st)).
  assert (HMt : ddb_resident_table t = 0 -> M t = ∅).
  { intros Hz. apply map_empty. intros k. destruct (M t !! k) as [c|] eqn:E; [|done]. apply HM in E as (h & p & Hp & _).
    by destruct (do_hash _ _ H t h p Hp). }
  destruct (Z.eqb_spec (ddb_resident_table t) 0) as [Hz|Hz].
  - exists st0, []. split_and!; try done. exists L. split; [done|]. specialize (HMt Hz). split.
    + intros t' k c. change (regs st0) with (regs st). rewrite <- HM. unfold upd_tab.
      destruct (decide (t' = t)) as [->|]; [by rewrite set_at_eq, HMt|by rewrite set_at_ne].
    + intros t'. cbn. unfold upd_tab. destruct (decide (t' = t)) as [->|]; [by rewrite !set_at_eq, map_size_empty|by rewrite !set_at_ne].
  - set (n := Z.to_nat (ddb_resident_table t)).
    destruct (free_buckets_spec n t events st0 L H0 0 []) as [es Ees]; [by intros ? ? p _ ?%elem_of_nil|].
    assert (E0 : freed [] st0 = st0) by by destruct st0. rewrite E0 in Ees. rewrite Ees. cbn [mbind option_bind]. rewrite app_nil_r.
    set (S := members n t 0 L). set (st1 := freed S st0).
    destruct (clear_heads_spec n t 0 st1) as (E1 & E2 & E3 & E4 & E5 & E6).
    assert (HS : forall p, p ∈ S <-> exists h, p ∈ L t h).
    { intros p. unfold S. rewrite elem_of_members. split; [intros (h & _ & Hp); by exists h|]. intros (h & Hp). exists h. split; [|done].
      destruct (do_hash _ _ H t h p Hp) as [Hb _]. pose proof (bucket_range t _ h Hb Hz). unfold n. lia. }
    assert (Hoth : forall t' h' p, t' <> t -> p ∈ L t' h' -> p ∉ S).
    { intros t' h' p Hne Hp Hin. apply HS in Hin as [h Hin]. by destruct (do_disj _ _ H t' h' t h p Hp Hin). }
    assert (Hreg : forall p, regs (clear_heads n t 0 st1) !! p = if decide (p ∈ S) then None else regs st !! p).
    { intros p. rewrite E1. exact (freed_regs S st0 p). }
    assert (Hkey : forall p, p ∉ S -> key_of (clear_heads n t 0 st1) p = key_of st p).
    { intros p Hp. unfold key_of. by rewrite Hreg, decide_False. }
    assert (Hin : forall t' h' p, p ∈ emptied t L t' h' <-> t' <> t /\ p ∈ L t' h').
    { intros t' h' p. unfold emptied. destruct (decide (t' = t)); [|tauto]. rewrite elem_of_nil. tauto. }
    exists (clear_heads n t 0 st1), es. split; [done|]. split_and!; [|by rewrite E4|by rewrite E5].
    exists (emptied t L). split; [|split].
    + split.
      * intros t' h'. unfold emptied. rewrite E2, E6. destruct (decide (t' = t)) as [->|Hne].
        -- destruct (decide (t = t /\ 0 <= h' < 0 + Z.of_nat n)) as [|Hn]; [done|]. cbn.
           pose proof (do_chain _ _ H t h') as Hc. destruct (L t h') as [|p l] eqn:El; [done|]. exfalso. apply Hn. split; [done|].
           destruct (do_hash _ _ H t h' p ltac:(rewrite El; left)) as [Hb _]. pose proof (bucket_range t _ h' Hb Hz). unfold n. lia.
        -- rewrite decide_False by tauto. eapply chain_ext; [|apply (do_chain _ _ H)]. intros p Hp.
           unfold st1. rewrite freed_next, decide_False; [done|]. by apply (Hoth t' h').
      * intros t' h'. unfold emptied. destruct (decide (t' = t)); [constructor|apply H].
      * intros t1 h1 t2 h2 p [_ Hp1]%Hin [_ Hp2]%Hin. by apply (do_disj _ _ H t1 h1 t2 h2 p).
      * intros p. rewrite elem_of_dom, Hreg. destruct (decide (p ∈ S)) as [Hp|Hp].
        -- split; [by intros [? ?]|]. intros (t' & h' & [Hne Hp']%Hin). by destruct (Hoth t' h' p).
        -- rewrite <- elem_of_dom, (do_regs _ _ H). split; intros (t' & h' & Hp').
           ++ exists t', h'. apply Hin. split; [|done]. intros ->. apply Hp, HS. by exists h'.
           ++ apply Hin in Hp' as [_ Hp']. by exists t', h'.
      * intros t' h' p [Hne Hp]%Hin. rewrite Hkey by (by apply (Hoth t' h')). by apply (do_hash _ _ H).
      * intros t' h' p q [Hne Hp]%Hin [_ Hq]%Hin. rewrite !Hkey by (by apply (Hoth t' h')). by apply (do_keys _ _ H t' h').
      * intros t' h' p [Hne Hp]%Hin. rewrite Hkey by (by apply (Hoth t' h')). by apply (do_lower _ _ H t' h').
    + intros t' k c. unfold upd_tab. destruct (decide (t' = t)) as [->|Hne].
      * rewrite set_at_eq, lookup_empty. split; [done|]. intros (h & p & [? _]%Hin & _). done.
      * rewrite set_at_ne, HM by done. split; intros (h & p & Hp & Hr); exists h, p.
        -- split; [by apply Hin|]. by rewrite Hreg, decide_False by (by apply (Hoth t' h)).
        -- apply Hin in Hp as [_ Hp]. split; [done|]. by rewrite Hreg, decide_False in Hr by (by apply (Hoth t' h)).
    + intros t'. rewrite E3. cbn. unfold upd_tab. destruct (decide (t' = t)) as [->|]; [by rewrite !set_at_eq, map_size_empty|by rewrite !set_at_ne].
Qed.

(** *** Finding *)

Lemma find_key_rep st M t key : rep st M -> key <> [] -> is_cstr key ->
  exists r, ddb_find_key crc32hash t key st = Some r /\ content_of st <$> r = M t !! lower key /\
    (forall p, r = Some p -> key_of st p = lower key).
Proof.
  intros (L & H & HM & HC) Hne Hcs. unfold ddb_find_key. destruct (Z.eqb_spec (ddb_resident_table t) 0) as [Hz|Hz].
  - exists None. split_and!; [done| |done]. destruct (M t !! lower key) as [c|] eqn:E; [|done]. apply HM in E as (h & p & Hp & _).
    by destruct (do_hash _ _ H t h p Hp).
  - unfold ddb_find_registry_table. destruct (bucket_some t (lower key)) as [h Hh]; [by destruct key|]. rewrite Hh. cbn [mbind option_bind].
    rewrite (find_from_chain _ _ _ _ _ (do_chain _ _ H t h) (bucket_fuel _ _ t h H)). eexists. split; [done|].
    assert (Hcl : is_cstr (lower key)) by (by apply lower_cstr).
    assert (Hok : forall p, p ∈ L t h -> strcmp_eqb (key_of st p) (lower key) = true <-> key_of st p = lower key).
    { intros p Hp. destruct (do_lower _ _ H t h p Hp) as [Hl Hc]. rewrite strcmp_eqb_lower by done. rewrite Hl, lower_idem. done. }
    destruct (list_find (fun x => strcmp_eqb (key_of st x) (lower key) = true) (L t h)) as [[i p]|] eqn:Ef; cbn.
    + apply list_find_Some in Ef as (Hl & Hp & _). apply list_elem_of_lookup_2 in Hl. apply (Hok p Hl) in Hp. split; [|by intros ? [= <-]].
      destruct (in_regs _ _ _ _ _ H Hl) as [[k c] Hr]. rewrite (key_of_some _ _ _ Hr) in Hp. cbn in Hp. subst k.
      symmetry. unfold content_of. rewrite Hr. apply HM. by exists h, p.
    + split; [|done]. destruct (M t !! lower key) as [c|] eqn:E; [|done]. apply HM in E as (h' & p & Hp & Hr).
      assert (h' = h) as -> by (by eapply rep_in_bucket). apply list_find_None in Ef. rewrite Forall_forall in Ef.
      destruct (Ef p Hp). apply (Hok p Hp). by rewrite (key_of_some _ _ _ Hr).
Qed.

(** *** Registers *)

Inductive ddb_op :=
  | ORegister (table id : Z) (mask key : cstring) (content : option cstring)
  | ODrop (table : Z) (events : bool)
  | OCompact (table id : Z).

Definition run_ddb (o : ddb_op) st : option (ddbs * list ddb_event) :=
  match o with
  | ORegister t id mask key content => ddb_new_register crc32hash me t id mask key content st
  | ODrop t events => ddb_drop_memory t events st
  | OCompact t id => Some (ddb_compact t id st, [])
  end.

Fixpoint run_ddbs (l : list ddb_op) st : option ddbs :=
  match l with [] => Some st | o :: l => '(st, _) ← run_ddb o st; run_ddbs l st end.

(** The keys come from the parser, and the masks are those that [match] and
    [collapse] can read. *)
Definition ddb_op_ok (o : ddb_op) : Prop :=
  match o with
  | ORegister t id mask key content => key <> [] /\ is_cstr key /\ is_Some (for_me me mask)
  | _ => True
  end.

Definition spec_tables (o : ddb_op) (M : tables) : tables :=
  match o with
  | ORegister t id mask key content =>
      if (ddb_resident_table t =? 0) || negb (bool_decide (for_me me mask = Some true)) then M
      else upd_tab t (match content with Some c => insert (lower key) c | None => delete (lower key) end) M
  | ODrop t _ => upd_tab t (fun _ => ∅) M
  | OCompact _ _ => M
  end.

Definition spec_ids (o : ddb_op) (ids : Z -> Z) : Z -> Z :=
  match o with
  | ORegister t id _ _ _ | OCompact t id => set_at t id ids
  | ODrop t _ => set_at t 0 ids
  end.

Definition spec_hash (o : ddb_op) (h : Z -> Z * Z) : Z -> Z * Z :=
  match o with
  | ORegister t id mask key content => set_at t (ddb_hash_line (db_line id mask t key content) (h t)) h
  | ODrop t _ => set_at t (0, 0) h
  | OCompact _ _ => h
  end.

Lemma new_register_rep st M t id mask key content :
  rep st M -> ddb_op_ok (ORegister t id mask key content) ->
  exists st' es, ddb_new_register crc32hash me t id mask key content st = Some (st', es) /\
    rep st' (spec_tables (ORegister t id mask key content) M) /\
    ddb_id_table st' = set_at t id (ddb_id_table st) /\
    ddb_hashtable st' = spec_hash (ORegister t id mask key content) (ddb_hashtable st) /\
    es = if negb (ddb_resident_table t =? 0) && bool_decide (for_me me mask = Some true) && ddb_events_table t
         then [{| ev_table := t; ev_key := key; ev_content := content;
                  ev_update := bool_decide (is_Some content /\ is_Some (M t !! lower key)) |}]
         else [].
Proof.
  intros HR (Hk & Hc & [mine Hm]). unfold ddb_new_register, ddb_hash_calculate.
  set (st1 := with_id _ _). assert (HR1 : rep st1 M) by (by apply (ddb_rep_ext st)). cbn [spec_tables].
  destruct (Z.eqb_spec (ddb_resident_table t) 0) as [Hz|Hz]; [by exists st1, []|]. rewrite Hm. cbn [mbind option_bind negb orb andb].
  destruct mine; [|rewrite bool_decide_false by congruence; by exists st1, []].
  rewrite bool_decide_true by done. cbn [negb andb].
  assert (Hlk : lower key <> []) by (by destruct key). destruct content as [c|].
  - destruct (add_key_rep st1 M t (lower key) c) as (b & st2 & E & HR2 & Hb & Hi & Hh); [done|done|done|apply lower_idem|by apply lower_cstr|].
    rewrite E. cbn [mbind option_bind]. exists st2. eexists. split; [done|]. split_and!; [done|by rewrite Hi|by rewrite Hh|].
    destruct (ddb_events_table t); [|done]. do 2 f_equal. rewrite Hb. apply bool_decide_ext. naive_solver.
  - destruct (del_key_rep st1 M t (lower key)) as (b & st2 & E & HR2 & Hb & Hi & Hh); [done|done|].
    rewrite E. cbn [mbind option_bind]. exists st2. eexists. split; [done|]. split_and!; [done|by rewrite Hi|by rewrite Hh|].
    by destruct (ddb_events_table t).
Qed.

Lemma run_ddb_rep o st M : rep st M -> ddb_op_ok o ->
  exists st' es, run_ddb o st = Some (st', es) /\ rep st' (spec_tables o M) /\
    ddb_id_table st' = spec_ids o (ddb_id_table st) /\ ddb_hashtable st' = spec_hash o (ddb_hashtable st).
Proof.
  intros HR Ho. destruct o as [t id mask key content|t ev|t id].
  - destruct (new_register_rep st M t id mask key content HR Ho) as (st' & es & E & HR' & Hi & Hh & _). by exists st', es.
  - destruct (drop_rep st M t ev HR) as (st' & es & E & HR' & Hi & Hh). by exists st', es.
  - exists (ddb_compact t id st), []. split_and!; try done. by apply (ddb_rep_ext st).
Qed.

Lemma run_ddbs_rep l : forall st M, rep st M -> Forall ddb_op_ok l ->
  exists st', run_ddbs l st = Some st' /\ rep st' (fold_left (fun M o => spec_tables o M) l M) /\
    ddb_id_table st' = fold_left (fun i o => spec_ids o i) l (ddb_id_table st) /\
    ddb_hashtable st' = fold_left (fun h o => spec_hash o h) l (ddb_hashtable st).
Proof.
  induction l as [|o l IH]; intros st M HR Hl; cbn [run_ddbs fold_left]; [by exists st|].
  apply Forall_cons in Hl as [Ho Hl]. destruct (run_ddb_rep o st M HR Ho) as (st1 & es & E & HR1 & Hi & Hh). rewrite E. cbn [mbind option_bind].
  destruct (IH st1 _ HR1 Hl) as (st2 & E2 & HR2 & Hi2 & Hh2). exists st2. by rewrite Hi2, Hh2, Hi, Hh.
Qed.

Lemma no_ddbs_rep : rep no_ddbs (fun _ => ∅).
Proof.
  exists (fun _ _ => []). split; [|split].
  - split; try done; try (by intros ? ? ? ?%elem_of_nil); try (by intros ? ? ? ? ?%elem_of_nil).
    + intros. constructor.
    + by intros ? ? ? ? ? ?%elem_of_nil.
    + intros p. cbn. rewrite dom_empty. split; [by intros ?%elem_of_empty|]. by intros (? & ? & ?%elem_of_nil).
  - intros t k c. rewrite lookup_empty. split; [done|]. by intros (? & ? & ?%elem_of_nil & _).
  - intros t. by rewrite map_size_empty.
Qed.

(** *** The iterator *)

Fixpoint later (n : nat) (t h : Z) L : list ptr := match n with O => [] | S n => L t h ++ later n t (h + 1) L end.

(** The iterator with [r] still to give. *)
Definition it_rep st0 L (t : Z) st (r : list ptr) : Prop :=
  regs st = regs st0 /\ ddb_next st = ddb_next st0 /\ ddb_data_table st = ddb_data_table st0 /\
  it_content st = Some t /\ it_len st = ddb_resident_table t /\ 0 <= it_pos st <= it_len st /\
  exists l, chain (ddb_next st0) (it_key st ≫= fun k => ddb_next st0 !! k) l /\
    r = l ++ later (Z.to_nat (it_len st - it_pos st)) t (it_pos st) L.

Lemma next_bucket_spec st0 L t len : ddb_ok st0 L -> forall n pos st,
  ddb_data_table st = ddb_data_table st0 -> Z.to_nat (len - pos) = n -> 0 <= pos <= len ->
  match later n t pos L with
  | [] => (next_bucket n t pos len st).1 = None
  | x :: r => exists pos', next_bucket n t pos len st = (Some x, pos') /\ pos < pos' <= len /\
                exists l, chain (ddb_next st0) (ddb_next st0 !! x) l /\ r = l ++ later (Z.to_nat (len - pos')) t pos' L
  end.
Proof.
  intros H. induction n as [|n IH]; intros pos st Ed En Hp; [done|]. cbn [later next_bucket]. rewrite Ed.
  pose proof (do_chain _ _ H t pos) as Hc. destruct (L t pos) as [|x l].
  - rewrite (Hc : _ = None). cbn [app]. specialize (IH (pos + 1) st Ed ltac:(lia) ltac:(lia)).
    destruct (later n t (pos + 1) L) as [|x r]; [done|]. destruct IH as (pos' & E & Hr & HL). exists pos'. split_and!; [done|lia|lia|done].
  - destruct Hc as [-> Hc]. cbn [app]. exists (pos + 1). split; [done|]. split; [lia|]. exists l. split; [done|].
    replace (Z.to_nat (len - (pos + 1))) with n by lia. done.
Qed.

Lemma ddb_iterator_spec st0 L t st r : ddb_ok st0 L -> it_rep st0 L t st r ->
  match r with
  | [] => (ddb_iterator st).1 = None
  | x :: r' => exists st', ddb_iterator st = (Some x, st') /\ it_rep st0 L t st' r' /\ it_key st' = Some x
  end.
Proof.
  intros H (E1 & E2 & E3 & Ec & El & Hp & l & Hl & ->). unfold ddb_iterator. rewrite E2.
  destruct l as [|x l].
  - rewrite (Hl : _ = None), Ec. cbn [app].
    pose proof (next_bucket_spec st0 L t (it_len st) H _ (it_pos st) st E3 eq_refl Hp) as Hn.
    destruct (later _ t (it_pos st) L) as [|x r].
    + destruct (next_bucket _ t (it_pos st) (it_len st) st) as [p q]. cbn in Hn. by subst p.
    + destruct Hn as (pos' & -> & Hr & l' & Hl' & ->). eexists. split; [done|]. split; [|done].
      repeat (split; [done|]). split; [cbn; lia|]. by exists l'.
  - destruct Hl as [-> Hl]. cbn [app]. eexists. split; [done|]. split; [|done].
    repeat (split; [done|]). by exists l.
Qed.

(** What the loops [for (ddb = ddb_iterator_first(table); ddb; ddb =
    ddb_iterator_next())] of the program go through. *)
Fixpoint iterate (n : nat) (r : option (option ptr * ddbs)) : option (list ptr) :=
  match n with
  | O => None
  | S n => match r with
           | None => None
           | Some (None, _) => Some []
           | Some (Some x, st) => cons x <$> iterate n (ddb_iterator_next st)
           end
  end.

Lemma iterate_spec st0 L t r : ddb_ok st0 L -> ddb_resident_table t <> 0 -> forall st n,
  it_rep st0 L t st r -> (length r < n)%nat -> iterate n (Some (ddb_iterator st)) = Some r.
Proof.
  intros H Hz. induction r as [|x r IH]; intros st n Hr Hn; (destruct n as [|n]; [cbn in Hn; lia|]); cbn [iterate];
    pose proof (ddb_iterator_spec st0 L t st _ H Hr) as Hi.
  - destruct (ddb_iterator st) as [p st']. cbn in Hi. by subst p.
  - destruct Hi as (st' & -> & Hr' & Hk). unfold ddb_iterator_next. rewrite Hk. destruct Hr' as (F1 & F2 & F3 & Fc & Fl & Fr) eqn:E.
    rewrite Fc, Fl. rewrite (proj2 (Z.eqb_neq _ _) Hz). cbn [length] in Hn. rewrite (IH st' n) by (done || lia). done.
Qed.

Lemma elem_of_later n t L p : forall h, p ∈ later n t h L <-> exists h', h <= h' < h + Z.of_nat n /\ p ∈ L t h'.
Proof.
  induction n as [|n IH]; intros h; cbn [later].
  - split; [by intros ?%elem_of_nil|]. intros (h' & ? & _). lia.
  - rewrite elem_of_app, IH. split.
    + intros [Hp|(h' & ? & ?)]; [exists h; split; [lia|done]|exists h'; split; [lia|done]].
    + intros (h' & Hr & Hp). destruct (decide (h' = h)) as [->|]; [by left|]. right. exists h'. split; [lia|done].
Qed.

Lemma later_nodup st L t : ddb_ok st L -> forall n h, NoDup (later n t h L).
Proof.
  intros H n. induction n as [|n IH]; intros h; cbn [later]; [constructor|]. apply NoDup_app. split_and!; [apply H| |apply IH].
  intros p Hp (h' & Hr & Hp')%elem_of_later. destruct (do_disj _ _ H t h t h' p Hp Hp'). lia.
Qed.

Lemma iterator_rep st M t : rep st M -> ddb_resident_table t <> 0 -> DDB_INIT <= t <= DDB_END ->
  exists l, iterate (S (size (M t))) (ddb_iterator_first t st) = Some l /\
    ((fun p => (key_of st p, content_of st p)) <$> l) ≡ₚ map_to_list (M t).
Proof.
  intros (L & H & HM & HC) Hz Ht. set (l := later (Z.to_nat (ddb_resident_table t)) t 0 L). exists l.
  assert (Hl : forall p, p ∈ l <-> exists h, p ∈ L t h).
  { intros p. unfold l. rewrite elem_of_later. split; [intros (h & _ & Hp); by exists h|]. intros (h & Hp). exists h. split; [|done].
    destruct (do_hash _ _ H t h p Hp) as [Hb _]. pose proof (bucket_range t _ h Hb Hz). lia. }
  assert (Hnd : NoDup l) by (by eapply later_nodup).
  assert (Hkv : forall p, p ∈ l -> regs st !! p = Some {| ddb_key := key_of st p; ddb_content := content_of st p |}).
  { intros p Hp. apply Hl in Hp as [h Hp]. destruct (in_regs _ _ _ _ _ H Hp) as [[k c] Hr]. unfold key_of, content_of. by rewrite Hr. }
  assert (Hperm : ((fun p => (key_of st p, content_of st p)) <$> l) ≡ₚ map_to_list (M t)).
  { apply NoDup_Permutation; [|apply NoDup_map_to_list|].
    - apply NoDup_fmap_2_strong; [|done]. intros p q Hp Hq [= Ek _]. pose proof Hp as Hp'. apply Hl in Hp' as [h Hp'].
      apply Hl in Hq as [h' Hq]. destruct (do_hash _ _ H t h p Hp') as [Hb _]. destruct (do_hash _ _ H t h' q Hq) as [Hb' _].
      rewrite Ek, Hb' in Hb. injection Hb as ->. by apply (do_keys _ _ H t h).
    - intros [k c]. rewrite elem_of_map_to_list, HM, list_elem_of_fmap. split.
      + intros (p & [= -> ->] & Hp). pose proof Hp as Hp'. apply Hl in Hp' as [h Hp']. exists h, p. split; [done|]. by apply Hkv.
      + intros (h & p & Hp & Hr). exists p. split; [|apply Hl; by exists h]. unfold key_of, content_of. by rewrite Hr. }
  split; [|done]. unfold ddb_iterator_first. rewrite (proj2 (Z.leb_le _ _) (proj1 Ht)), (proj2 (Z.leb_le _ _) (proj2 Ht)), (proj2 (Z.eqb_neq _ _) Hz).
  cbn [andb negb]. apply (iterate_spec st L t); [done|done| |].
  - repeat (split; [done|]). split.
    + cbn. destruct (resident_pow t) as [->|(k & Hk & ->)]; lia.
    + exists []. split; [done|]. cbn. by rewrite Z.sub_0_r.
  - apply Permutation_length in Hperm. rewrite length_fmap in Hperm. rewrite Hperm. rewrite length_map_to_list. lia.
Qed.
End spec.

(** ** The theorems *)

(** C16: The tables in memory are maps.  After any registers, drops and
    compactions, a search by key, whatever its case, finds the content of the
    last register for this server with that key, unless a later one without
    content or a drop took it away; the count of each table is the number of
    its keys, its number is the one of its last register, and its hash is the
    one of the lines received since the last drop, those of other servers
    included. *)
Theorem ddb_refines crc32hash me l :
  Forall (ddb_op_ok me) l ->
  exists st, run_ddbs crc32hash me l no_ddbs = Some st /\
    let M := fold_left (fun M o => spec_tables me o M) l (fun _ => ∅) in
    (forall t key, key <> [] -> is_cstr key ->
       exists r, ddb_find_key crc32hash t key st = Some r /\ content_of st <$> r = M t !! lower key) /\
    (forall t, ddb_count_table st t = Z.of_nat (size (M t))) /\
    ddb_id_table st = fold_left (fun i o => spec_ids o i) l (fun _ => 0) /\
    ddb_hashtable st = fold_left (fun h o => spec_hash o h) l (fun _ => (0, 0)).
Proof.
  intros Hl. destruct (run_ddbs_rep crc32hash me l no_ddbs _ (no_ddbs_rep crc32hash) Hl) as (st & E & HR & Hi & Hh).
  exists st. split; [done|]. split_and!; [|by destruct HR as (? & _ & _ & ?)|done|done].
  intros t key Hne Hc. destruct (find_key_rep crc32hash st _ t key HR Hne Hc) as (r & Er & Hr & _). by exists r.
Qed.

(** C18: The iterator of a resident table ends and gives each of its
    registers exactly once. *)
Theorem ddb_iterates crc32hash me l st t :
  Forall (ddb_op_ok me) l -> run_ddbs crc32hash me l no_ddbs = Some st ->
  ddb_resident_table t <> 0 -> DDB_INIT <= t <= DDB_END ->
  let M := fold_left (fun M o => spec_tables me o M) l (fun _ => ∅) in
  exists ps, iterate (S (size (M t))) (ddb_iterator_first t st) = Some ps /\
    ((fun p => (key_of st p, content_of st p)) <$> ps) ≡ₚ map_to_list (M t).
Proof.
  intros Hl Hr Hz Ht M. destruct (run_ddbs_rep crc32hash me l no_ddbs _ (no_ddbs_rep crc32hash) Hl) as (st' & E & HR & _).
  rewrite Hr in E. injection E as <-. by apply (iterator_rep crc32hash).
Qed.

(** ** Runs *)

Definition ex_me : cstring := str "leaf.irc-hispano.org".

Definition ex_registers : list ddb_op :=
  [ORegister DDB_NICKDB 1 (str "*") (str "Zoltan") (Some (str "first"));
   ORegister DDB_NICKDB 2 (str "*") (str "Other") (Some (str "x"));
   ORegister DDB_NICKDB 3 (str "hub.*") (str "Zoltan") (Some (str "not for me"));
   ORegister DDB_NICKDB 4 (str "leaf*") (str "ZOLTAN") (Some (str "second"));
   ORegister DDB_NICKDB 5 (str "*") (str "other") None].

Definition found (st : ddbs) (key : cstring) : option (option cstring) :=
  match ddb_find_key crc_table DDB_NICKDB key st with
  | Some r => Some (content_of st <$> r)
  | None => None
  end.

Example ddb_ex :
  (st ← run_ddbs crc_table ex_me ex_registers no_ddbs;
   r ← found st (str "zoltaN");
   o ← found st (str "OTHER");
   Some (r, o, ddb_count_table st DDB_NICKDB, ddb_id_table st DDB_NICKDB, ddbCount st)) =
  Some (Some (str "second"), None, 1, 5, 1).
Proof. vm_compute. reflexivity. Qed.

(** [ddb_drop_memory] does not count the registers it frees. *)
Example ddbCount_kept :
  (st ← run_ddbs crc_table ex_me (ex_registers ++ [ODrop DDB_NICKDB false]) no_ddbs;
   Some (size (regs st), ddb_count_table st DDB_NICKDB, ddbCount st)) = Some (0%nat, 0, 1).
Proof. vm_compute. reflexivity. Qed.

(** The 768 last buckets of the table of nicks are never used: the hash is
    less than 32000. *)
Lemma ddb_nick_buckets crc32hash key h : bucket_of crc32hash DDB_NICKDB key = Some h -> h < 32000.
Proof.
  unfold bucket_of, ddb_hash_register. destruct (strhash crc32hash key) as [x|] eqn:E; [|done]. intros [= <-].
  pose proof (strhash_range _ _ _ E) as Hx. unfold HASHSIZE in Hx. change (ddb_resident_table DDB_NICKDB - 1) with (Z.ones 15).
  rewrite Z.land_ones by done. rewrite Z.mod_small; lia.
Qed.

Lemma ex_registers_ok : Forall (ddb_op_ok ex_me) ex_registers.
Proof.
  repeat apply Forall_cons_2; try apply Forall_nil_2;
    (split; [done|]; split; [apply (bool_decide_unpack _); vm_compute; exact I|]; eexists; vm_compute; reflexivity).
Qed.

Lemma ddb_refines_witness :
  exists st, run_ddbs crc_table ex_me ex_registers no_ddbs = Some st /\
    let M := fold_left (fun M o => spec_tables ex_me o M) ex_registers (fun _ => ∅) in
    (forall t key, key <> [] -> is_cstr key ->
       exists r, ddb_find_key crc_table t key st = Some r /\ content_of st <$> r = M t !! lower key) /\
    (forall t, ddb_count_table st t = Z.of_nat (size (M t))) /\
    ddb_id_table st = fold_left (fun i o => spec_ids o i) ex_registers (fun _ => 0) /\
    ddb_hashtable st = fold_left (fun h o => spec_hash o h) ex_registers (fun _ => (0, 0)).
Proof. apply (ddb_refines crc_table ex_me ex_registers). exact ex_registers_ok. Defined.

Lemma ddb_iterates_witness :
  exists st ps, run_ddbs crc_table ex_me ex_registers no_ddbs = Some st /\
    iterate (S (size (fold_left (fun M o => spec_tables ex_me o M) ex_registers (fun _ => ∅) DDB_NICKDB))) (ddb_iterator_first DDB_NICKDB st) = Some ps.
Proof.
  destruct (run_ddbs_rep crc_table ex_me ex_registers no_ddbs _ (no_ddbs_rep crc_table) ex_registers_ok) as (st & E & _).
  destruct (ddb_iterates crc_table ex_me ex_registers st DDB_NICKDB) as (ps & Hps & _).
  - exact ex_registers_ok.
  - exact E.
  - by intros [=].
  - by split.
  - exists st, ps. split; [exact E|exact Hps].
Defined.
