(* ===== verification/DdbFile.v ===== *)
(** * The files of the database ([ircd/ddb_db_native.c], [ircd/ddb.c])

    One text file for each table, to which each register is appended in a
    line, and one with the hashes.  The file of a table is read again when
    the daemon starts, and from a given register on, found by bisection, when
    another server asks for those it lacks. *)
From S2P Require Import Prelude Chattr Strings Match Base64 Tea Chain Dlist Hash Ddb.
From stdpp Require Import options.
Open Scope Z_scope.

Record register := { r_id : Z; r_mask : cstring; r_key : cstring; r_content : option cstring }.

(** ** Writing *)

(** The line, without its end. *)
Definition body (r : register) : cstring :=
  decimal (r_id r) ++ space ++ r_mask r ++ space ++ r_key r ++ match r_content r with Some c => space ++ c | None => [] end.

Definition LF : ascii := "010".
Definition CR : ascii := "013".

(** [ddb_db_write]: [path] has room for 1023 characters. *)
Definition ddb_db_write (r : register) (file : list ascii) : list ascii := file ++ take 1023 (body r ++ [LF]).

(** The file of the hashes has an entry of fifteen characters for each table. *)
Definition hash_text (h : Z * Z) : cstring := inttobase64 h.1 6 ++ inttobase64 h.2 6.
Definition hash_entry (table : Z) (h : Z * Z) : list ascii := [chr table; " "%char] ++ hash_text h ++ [LF].
Definition hash_offset (table : Z) : nat := Z.to_nat (15 * (table - DDB_INIT)).

Definition ddb_db_hash_write (table : Z) (h : Z * Z) (hashes : list ascii) : list ascii :=
  take (hash_offset table) hashes ++ hash_entry table h ++ drop (hash_offset table + 15) hashes.

Definition ddb_db_hash_read (table : Z) (hashes : list ascii) : Z * Z :=
  let path := take 12 (drop (hash_offset table + 2) hashes) in
  (base64toint (take 6 path), base64toint (drop 6 path)).

(** The tables from [DDB_INIT] to [DDB_END]. *)
Definition all_tables : list Z := map (fun i => DDB_INIT + Z.of_nat i) (seq 0 26).

(** [ddb_db_init] makes the files when they are not there. *)
Definition new_hashes : list ascii := concat (map (fun table => [chr table; " "%char] ++ str "AAAAAAAAAAAA" ++ [LF]) all_tables).

(** ** Reading *)

(** [ddb_read] from what is left of the file: the buffer, the length unless
    there is no whole line, and what is left. *)
Fixpoint ddb_read (file : list ascii) (buf : cstring) (len : nat) : cstring * option nat * list ascii :=
  match file with
  | [] => (rev buf, None, [])
  | c :: file' =>
      if c =c CR then ddb_read file' buf len
      else if c =c LF then (rev buf, Some len, file')
      else if (500 <? len)%nat then (rev (c :: buf), None, file')
      else ddb_read file' (c :: buf) (S len)
  end.

Fixpoint read_digits (s : cstring) (n : Z) : Z :=
  match s with
  | c :: s' => if IsDigit c then read_digits s' (n * 10 + (code c - 48)) else n
  | [] => n
  end.

(** [atol]: white space, a sign, and digits, up to the bounds of [long];
    [atoi] is it in 32 bits. *)
Definition is_space (c : ascii) : bool := (code c =? 32) || ((9 <=? code c) && (code c <=? 13)).

Fixpoint skip_blanks (s : cstring) : cstring :=
  match s with c :: s' => if is_space c then skip_blanks s' else s | [] => [] end.

Definition atol (s : cstring) : Z :=
  let v := match skip_blanks s with
           | "-"%char :: s => - read_digits s 0
           | "+"%char :: s => read_digits s 0
           | s => read_digits s 0
           end in
  Z.max (- 2 ^ 63) (Z.min (2 ^ 63 - 1) v).

Definition atoi (s : cstring) : Z := let v := w32 (atol s) in if v <? 2 ^ 31 then v else v - 2 ^ 32.

(** The register of a line; [None] is a line that is skipped. *)
Definition parse_line (buf : cstring) : option register :=
  let cid := atoi buf in
  if cid =? 0 then None
  else match split_at " " buf with
       | (_, Some mask) =>
           match split_at " " mask with
           | (mask, Some key) =>
               match split_at " " key with
               | (key, content) => Some {| r_id := cid; r_mask := mask; r_key := key; r_content := content |}
               end
           | _ => None
           end
       | _ => None
       end.

(** *** The bisection of [ddb_seek]; positions are indices of the file *)

Definition at_pos (file : list ascii) (i : Z) : ascii := char_at file (Z.to_nat i).

(** [while ((ptr >= ptrlo) && ( *ptr != '\n')) ptr--;] *)
Fixpoint seek_back (n : nat) (file : list ascii) (lo i : Z) : Z :=
  match n with
  | O => i
  | S n => if (lo <=? i) && negb (at_pos file i =c LF) then seek_back n file lo (i - 1) else i
  end.

(** [while ((ptr2 < ptrhi) && ( *ptr2++ != '\n'));] *)
Fixpoint seek_forward (n : nat) (file : list ascii) (hi i : Z) : Z :=
  match n with
  | O => i
  | S n => if i <? hi then (if at_pos file i =c LF then i + 1 else seek_forward n file hi (i + 1)) else i
  end.

Definition seek_step (file : list ascii) (id : Z) (s : Z * Z) : Z * Z + Z :=
  let '(lo, hi) := s in
  if lo =? hi then inr lo
  else
    let mid := lo + (hi - lo) / 2 in
    let n := Z.to_nat (hi - lo) in
    let ptr := seek_back (S n) file lo mid in
    let ptr := if ptr <? lo then lo else ptr in
    let ptr := if at_pos file ptr =c LF then ptr + 1 else ptr in
    let ptr2 := seek_forward (S n) file hi mid in
    let idtable := atol (drop (Z.to_nat ptr) file) in
    if id <? idtable then inl (lo, ptr)
    else if idtable <? id then inl (ptr2, hi)
    else inl (ptr, ptr).

(** [ddb_seek], with the result of its [ddb_read]. *)
Definition ddb_seek (file : list ascii) (id : Z) : option (cstring * option nat * list ascii) :=
  if id =? 0 then Some (ddb_read file [] 0)
  else pos ← loop (seek_step file id) (S (S (length file))) (0, Z.of_nat (length file));
       Some (ddb_read (drop (Z.to_nat pos) file) [] 0).

(** *** [ddb_db_read] *)

(** The loop, for a server that asks ([burst]) or at the start: the registers
    sent or loaded, and whether the file was read to its end.  [cont] is the
    counter of the registers of a burst. *)
Fixpoint read_loop (n : nat) (burst : bool) (cont : Z) (buf : cstring) (file : list ascii) : option (list register * bool) :=
  match n with
  | O => None
  | S n =>
      let next cont :=
        match ddb_read file [] 0 with
        | (_, None, _) => Some ([], true)
        | (buf, Some _, file) => read_loop n burst cont buf file
        end in
      match parse_line buf with
      | None => next cont
      | Some r =>
          if burst then
            if cont - 1 =? 0 then Some ([r], false)
            else '(l, e) ← next (cont - 1); Some (r :: l, e)
          else '(l, e) ← next cont; Some (r :: l, e)
      end
  end.

(** The registers, and the result: 1 at the end of the file, 0 when the
    counter stopped it, -1 when there is nothing to read.  [count] is not
    used: the counter starts at what [ddb_seek] returns. *)
Definition ddb_db_read (burst : bool) (id count : Z) (file : list ascii) : option (list register * Z) :=
  '(buf, cont, rest) ← ddb_seek file id;
  match cont with
  | None => Some ([], -1)
  | Some len => '(l, e) ← read_loop (S (length file)) burst (Z.of_nat len) buf rest; Some (l, if e : bool then 1 else 0)
  end.

(** ** The daemon: its memory and its files *)

Record daemon := { mem : ddbs; tables_on_disk : Z -> list ascii; hashes_on_disk : list ascii }.

Definition new_daemon : daemon := {| mem := no_ddbs; tables_on_disk := fun _ => []; hashes_on_disk := new_hashes |}.

(** The [int] of the line is passed as [unsigned long]. *)
Definition op_of (table : Z) (r : register) : ddb_op := ORegister table (r_id r mod 2 ^ 64) (r_mask r) (r_key r) (r_content r).

Section daemon.
Context (crc32hash : list Z) (me : cstring).

(** The file of a table after an operation: [ddb_new_register] appends to it,
    [ddb_drop] truncates it, and the packing does nothing to it. *)
Definition table_file (o : ddb_op) (files : Z -> list ascii) : Z -> list ascii :=
  match o with
  | ORegister t id mask key content => set_at t (ddb_db_write {| r_id := id; r_mask := mask; r_key := key; r_content := content |} (files t)) files
  | ODrop t _ => set_at t [] files
  | OCompact _ _ => files
  end.

Definition table_of (o : ddb_op) : Z := match o with ORegister t _ _ _ _ | ODrop t _ | OCompact t _ => t end.

(** An operation that another server asks for: [ddb_new_register],
    [ddb_drop], [ddb_compact], all of which write the hashes. *)
Definition serve (o : ddb_op) (d : daemon) : option daemon :=
  '(st, _) ← run_ddb crc32hash me o (mem d);
  Some {| mem := st; tables_on_disk := table_file o (tables_on_disk d);
          hashes_on_disk := ddb_db_hash_write (table_of o) (ddb_hashtable st (table_of o)) (hashes_on_disk d) |}.

Fixpoint serve_all (l : list ddb_op) (d : daemon) : option daemon :=
  match l with [] => Some d | o :: l => d ← serve o d; serve_all l d end.

(** [ddb_table_init]; the second result says that the table was taken as
    corrupt, for which the daemon also drops the connections to its hubs. *)
Definition ddb_table_init (table : Z) (d : daemon) : option (daemon * bool) :=
  '(st, _) ← ddb_drop_memory table false (mem d);
  '(l, _) ← ddb_db_read false 0 0 (tables_on_disk d table);
  st ← run_ddbs crc32hash me (map (op_of table) l) st;
  let d := {| mem := st; tables_on_disk := tables_on_disk d; hashes_on_disk := hashes_on_disk d |} in
  let corrupt := negb (bool_decide (ddb_hashtable st table = ddb_db_hash_read table (hashes_on_disk d))) in
  d ← (if corrupt then serve (ODrop table false) d else Some d);
  let hashes := ddb_db_hash_write table (ddb_hashtable (mem d) table) (hashes_on_disk d) in
  '(_, st) ← (if ddb_resident_table table =? 0 then Some (false, mem d) else ddb_del_key crc32hash table (str "*") (mem d));
  Some ({| mem := st; tables_on_disk := tables_on_disk d; hashes_on_disk := hashes |}, corrupt).

(** [ddb_init] from the files of a daemon that ended: the new state, and the
    tables that were corrupt. *)
Fixpoint init_tables (l : list Z) (d : daemon) : option (daemon * list Z) :=
  match l with
  | [] => Some (d, [])
  | t :: l => '(d, corrupt) ← ddb_table_init t d; '(d, bad) ← init_tables l d; Some (d, if corrupt : bool then t :: bad else bad)
  end.

Definition ddb_init (d : daemon) : option (daemon * list Z) :=
  init_tables all_tables {| mem := no_ddbs; tables_on_disk := tables_on_disk d; hashes_on_disk := hashes_on_disk d |}.
End daemon.

(** ** The text of a register is read back *)

Definition word_ok (s : cstring) : Prop := s <> [] /\ Forall (fun c => c <> " "%char /\ c <> LF /\ c <> CR /\ c <> NUL) s.
Definition text_ok (s : cstring) : Prop := Forall (fun c => c <> LF /\ c <> CR /\ c <> NUL) s.

(** The registers that the file can hold. *)
Definition reg_ok (r : register) : Prop :=
  0 < r_id r < 2 ^ 31 /\ word_ok (r_mask r) /\ word_ok (r_key r) /\
  (forall c, r_content r = Some c -> text_ok c) /\ (length (body r) <= 501)%nat.

Lemma digits_length n : forall z acc, (length (digits n z acc) <= n + length acc)%nat.
Proof.
  induction n as [|n IH]; intros z acc; [done|]. cbn [digits]. destruct (z <? 10); cbn [length]; [lia|].
  specialize (IH (z / 10) (chr (48 + z mod 10) :: acc)). cbn [length] in IH. lia.
Qed.

Lemma digits_app n : forall z acc acc', digits n z (acc ++ acc') = digits n z acc ++ acc'.
Proof.
  induction n as [|n IH]; intros z acc acc'; [done|]. cbn [digits]. destruct (z <? 10); [done|].
  apply (IH (z / 10) (chr (48 + z mod 10) :: acc) acc').
Qed.

Lemma digits_S n z acc :
  digits (S n) z acc = if z <? 10 then chr (48 + z mod 10) :: acc else digits n (z / 10) (chr (48 + z mod 10) :: acc).
Proof. done. Qed.

Lemma digit_ok d : 0 <= d < 10 -> IsDigit (chr (48 + d)) = true /\ code (chr (48 + d)) - 48 = d.
Proof.
  intros Hd. assert (d = 0 \/ d = 1 \/ d = 2 \/ d = 3 \/ d = 4 \/ d = 5 \/ d = 6 \/ d = 7 \/ d = 8 \/ d = 9) as H by lia.
  destruct H as [->|[->|[->|[->|[->|[->|[->|[->|[->| ->]]]]]]]]]; vm_compute; done.
Qed.

Lemma read_digits_digits n : forall z rest v, 0 <= z < 10 ^ Z.of_nat (S n) -> 0 <= v ->
  exists k, 0 <= k <= Z.of_nat (S n) /\ z < 10 ^ k /\
    read_digits (digits (S n) z [] ++ rest) v = read_digits rest (v * 10 ^ k + z).
Proof.
  induction n as [|n IH]; intros z rest v Hz Hv.
  - cbn [digits]. change (10 ^ Z.of_nat 1) with 10 in Hz. pose proof (digit_ok (z mod 10) ltac:(apply Z.mod_pos_bound; lia)) as [H1 H2].
    exists 1. split; [lia|]. split; [lia|]. rewrite (proj2 (Z.ltb_lt _ _)) by lia. cbn [app read_digits]. rewrite H1, H2.
    rewrite Z.mod_small by lia. done.
  - rewrite digits_S. pose proof (digit_ok (z mod 10) ltac:(apply Z.mod_pos_bound; lia)) as [H1 H2].
    destruct (Z.ltb_spec z 10) as [Hl|Hl].
    + exists 1. split; [lia|]. split; [lia|]. cbn [app read_digits]. rewrite H1, H2, Z.mod_small by lia. done.
    + change (digits (S n) (z / 10) [chr (48 + z mod 10)]) with (digits (S n) (z / 10) ([] ++ [chr (48 + z mod 10)])).
      rewrite digits_app, <- app_assoc. cbn [app].
      destruct (IH (z / 10) (chr (48 + z mod 10) :: rest) v) as (k & Hk & Hz' & E).
      { split; [apply Z.div_pos; lia|]. apply Z.div_lt_upper_bound; [lia|]. rewrite <- Z.pow_succ_r by lia. rewrite <- Nat2Z.inj_succ. lia. }
      { done. }
      exists (k + 1). split; [lia|]. rewrite Z.pow_add_r by lia. change (10 ^ 1) with 10.
      pose proof (Z.div_mod z 10 ltac:(lia)) as Hdm. pose proof (Z.mod_pos_bound z 10 ltac:(lia)) as Hmod. split; [lia|].
      rewrite E. cbn [read_digits]. rewrite H1, H2. f_equal. lia.
Qed.

Lemma decimal_digits z : 0 <= z -> Forall (fun c => IsDigit c = true) (decimal z) /\ decimal z <> [].
Proof.
  intros Hz. unfold decimal.
  assert (H : forall n z acc, 0 <= z -> Forall (fun c => IsDigit c = true) acc -> (n <> 0%nat \/ acc <> []) ->
            Forall (fun c => IsDigit c = true) (digits n z acc) /\ digits n z acc <> []).
  { clear. induction n as [|n IH]; intros z acc Hz Ha Hne; cbn [digits]; [by destruct Hne|].
    pose proof (digit_ok (z mod 10) ltac:(apply Z.mod_pos_bound; lia)) as [H1 _].
    assert (Forall (fun c => IsDigit c = true) (chr (48 + z mod 10) :: acc)) by by constructor.
    destruct (z <? 10); [done|]. apply IH; [apply Z.div_pos; lia|done|by right]. }
  apply H; [done|constructor|by left].
Qed.

Lemma digit_first : forall c s, IsDigit c = true -> atol (c :: s) = Z.max (- 2 ^ 63) (Z.min (2 ^ 63 - 1) (read_digits (c :: s) 0)).
Proof.
  intros c s Hc. unfold atol. assert (H : forall c, IsDigit c = true -> is_space c = false /\ c <> "-"%char /\ c <> "+"%char) by all_chars.
  destruct (H c Hc) as (Hs & Hm & Hp). cbn [skip_blanks]. rewrite Hs. do 2 f_equal.
  destruct c as [[] [] [] [] [] [] [] []]; try done; exfalso; by (apply Hm || apply Hp).
Qed.

Lemma atol_decimal z rest : 0 <= z < 2 ^ 63 -> IsDigit (deref rest) = false -> atol (decimal z ++ rest) = z.
Proof.
  intros Hz Hr. destruct (decimal_digits z) as [Hd Hne]; [lia|].
  assert (E : read_digits (decimal z ++ rest) 0 = z).
  { unfold decimal. destruct (read_digits_digits 19 z rest 0) as (k & _ & _ & E); [lia|lia|]. rewrite E.
    replace (0 * 10 ^ k + z) with z by lia. destruct rest as [|c rest]; [done|]. cbn in Hr. cbn [read_digits]. by rewrite Hr. }
  destruct (decimal z) as [|c s]; [done|]. apply Forall_cons in Hd as [Hc _]. cbn [app] in *. rewrite digit_first, E by done. lia.
Qed.

Lemma split_at_word token w s : Forall (fun c => c <> token) w -> split_at token (w ++ token :: s) = (w, Some s).
Proof.
  induction 1 as [|c w Hc _ IH]; cbn [app split_at]; [by rewrite ch_eqb_refl|].
  rewrite (proj2 (ch_eqb_neq _ _)) by done. by rewrite IH.
Qed.

Lemma split_at_end token w : Forall (fun c => c <> token) w -> split_at token w = (w, None).
Proof.
  induction 1 as [|c w Hc _ IH]; cbn [split_at]; [done|]. rewrite (proj2 (ch_eqb_neq _ _)) by done. by rewrite IH.
Qed.

Lemma word_no_space w : word_ok w -> Forall (fun c => c <> " "%char) w.
Proof. intros [_ H]. eapply Forall_impl; [exact H|]. by intros c (? & _). Qed.

Lemma word_text w : word_ok w -> text_ok w.
Proof. intros [_ H]. eapply Forall_impl; [exact H|]. by intros c (_ & ? & ? & ?). Qed.

Lemma digit_plain : forall c, IsDigit c = true -> c <> " "%char /\ c <> LF /\ c <> CR /\ c <> NUL.
Proof. all_chars. Qed.

Lemma decimal_word z : 0 <= z -> word_ok (decimal z).
Proof.
  intros Hz. destruct (decimal_digits z Hz) as [H Hne]. split; [done|]. eapply Forall_impl; [exact H|]. apply digit_plain.
Qed.

Lemma body_text r : reg_ok r -> text_ok (body r).
Proof.
  intros (Hid & Hm & Hk & Hc & _). unfold body, text_ok. rewrite !Forall_app.
  assert (Hsp : text_ok space) by (by repeat constructor).
  split_and!; try done; [apply word_text, decimal_word; lia|by apply word_text|by apply word_text|].
  destruct (r_content r) as [c|]; [|constructor]. apply Forall_app. split; [done|by apply Hc].
Qed.

Lemma parse_body r : reg_ok r -> parse_line (body r) = Some r.
Proof.
  intros (Hid & Hm & Hk & Hc & _). unfold parse_line.
  assert (Ha : atoi (body r) = r_id r).
  { unfold atoi, body. rewrite atol_decimal by (try done; lia). rewrite w32_small by lia. rewrite (proj2 (Z.ltb_lt _ _)) by lia. done. }
  rewrite Ha, (proj2 (Z.eqb_neq _ _)) by lia. unfold body. cbn [space app].
  rewrite split_at_word by (apply word_no_space, decimal_word; lia). rewrite split_at_word by (by apply word_no_space).
  destruct r as [id mask key content]. cbn [r_id r_mask r_key r_content] in *. destruct content as [c|].
  - by rewrite split_at_word by (by apply word_no_space).
  - rewrite app_nil_r. by rewrite split_at_end by (by apply word_no_space).
Qed.

Lemma ddb_read_line s rest : text_ok s -> forall buf len, (len + length s <= 501)%nat ->
  ddb_read (s ++ LF :: rest) buf len = (rev buf ++ s, Some (len + length s)%nat, rest).
Proof.
  induction 1 as [|c s (Hl & Hr & _) _ IH]; intros buf len Hlen; cbn [app ddb_read length] in *.
  - rewrite app_nil_r, Nat.add_0_r. done.
  - rewrite !(proj2 (ch_eqb_neq _ _)) by done. rewrite (proj2 (Nat.ltb_ge _ _)) by lia. rewrite IH by lia.
    cbn [rev]. rewrite <- app_assoc. by rewrite Nat.add_succ_comm.
Qed.

Definition line (r : register) : list ascii := body r ++ [LF].
Definition file_of (rs : list register) : list ascii := concat (map line rs).

Lemma file_of_app r1 r2 : file_of (r1 ++ r2) = file_of r1 ++ file_of r2.
Proof. unfold file_of. by rewrite map_app, concat_app. Qed.

Lemma file_of_cons r rs : file_of (r :: rs) = body r ++ LF :: file_of rs.
Proof. unfold file_of, line. cbn. by rewrite <- app_assoc. Qed.

Lemma ddb_read_file r rs : reg_ok r -> ddb_read (file_of (r :: rs)) [] 0 = (body r, Some (length (body r)), file_of rs).
Proof.
  intros Hr. rewrite file_of_cons. rewrite ddb_read_line; [done|by apply body_text|]. destruct Hr as (_ & _ & _ & _ & Hl). lia.
Qed.

Lemma ddb_db_write_file r rs : reg_ok r -> ddb_db_write r (file_of rs) = file_of (rs ++ [r]).
Proof.
  intros Hr. unfold ddb_db_write. rewrite file_of_app. change (file_of [r]) with (line r ++ []).
  rewrite app_nil_r. f_equal. apply take_ge. unfold line. rewrite length_app. destruct Hr as (_ & _ & _ & _ & Hl). cbn [length]. lia.
Qed.

Lemma read_loop_all r rs n cont : Forall reg_ok (r :: rs) -> (length rs < n)%nat ->
  read_loop n false cont (body r) (file_of rs) = Some (r :: rs, true).
Proof.
  revert r n. induction rs as [|r' rs IH]; intros r n Hok Hn; (destruct n as [|n]; [lia|]); cbn [read_loop];
    apply Forall_cons in Hok as [Hr Hok]; rewrite parse_body by done; [done|].
  pose proof Hok as Hok'. apply Forall_cons in Hok' as [Hr' _]. rewrite ddb_read_file by done. cbn [length] in Hn. rewrite IH by (done || lia). done.
Qed.

Lemma read_loop_burst r rs n (cont : nat) : Forall reg_ok (r :: rs) -> (length rs < n)%nat -> (0 < cont)%nat ->
  read_loop n true (Z.of_nat cont) (body r) (file_of rs) = Some (take cont (r :: rs), (length (r :: rs) <? cont)%nat).
Proof.
  revert r n cont. induction rs as [|r' rs IH]; intros r n cont Hok Hn Hc; (destruct n as [|n]; [lia|]); cbn [read_loop];
    apply Forall_cons in Hok as [Hr Hok]; rewrite parse_body by done;
    (destruct cont as [|cont]; [lia|]); replace (Z.of_nat (S cont) - 1) with (Z.of_nat cont) by lia.
  - destruct cont as [|cont]; [done|]. rewrite (proj2 (Z.eqb_neq _ _)) by lia. cbn. done.
  - destruct cont as [|cont]; [done|]. rewrite (proj2 (Z.eqb_neq _ _)) by lia.
    pose proof Hok as Hok'. apply Forall_cons in Hok' as [Hr' _]. rewrite ddb_read_file by done. cbn [length] in Hn.
    rewrite IH by (done || lia). done.
Qed.

(** ** The bisection finds the first register from a number on *)

Lemma filter_every {A} (P : A -> Prop) `{forall x, Decision (P x)} l : Forall P l -> filter P l = l.
Proof. induction 1 as [|x l Hx _ IH]; [done|]. by rewrite filter_cons_True, IH. Qed.

Lemma filter_none_of {A} (P : A -> Prop) `{forall x, Decision (P x)} l : Forall (fun x => ~ P x) l -> filter P l = [].
Proof. induction 1 as [|x l Hx _ IH]; [done|]. by rewrite filter_cons_False. Qed.

Definition increasing (rs : list register) : Prop :=
  forall i j a b, rs !! i = Some a -> rs !! j = Some b -> (i < j)%nat -> r_id a < r_id b.

Section seek.
Context (rs : list register) (Hok : Forall reg_ok rs) (Hinc : increasing rs).

Definition file : list ascii := file_of rs.
Definition start_of (j : nat) : Z := Z.of_nat (length (file_of (take j rs))).

Lemma reg_at j r : rs !! j = Some r -> reg_ok r.
Proof using Hok. intros E. rewrite Forall_forall in Hok. apply Hok. by eapply list_elem_of_lookup_2. Qed.

Lemma body_long r : reg_ok r -> (5 <= length (body r))%nat.
Proof using.
  intros (Hid & [Hm _] & [Hk _] & _). unfold body. rewrite !length_app. cbn [space length].
  destruct (decimal_digits (r_id r) ltac:(lia)) as [_ Hd].
  destruct (decimal (r_id r)); [done|]. destruct (r_mask r); [done|]. destruct (r_key r); [done|]. cbn [length]. lia.
Qed.

Lemma start_S j r : rs !! j = Some r -> start_of (S j) = start_of j + Z.of_nat (length (body r)) + 1.
Proof using.
  intros E. unfold start_of. rewrite (take_S_r _ _ _ E), file_of_app, length_app. unfold file_of at 2, line. cbn [map concat].
  rewrite app_nil_r, length_app. cbn [length]. lia.
Qed.

Lemma start_0 : start_of 0 = 0.
Proof using. done. Qed.

Lemma start_end : start_of (length rs) = Z.of_nat (length file).
Proof using. unfold start_of, file. by rewrite firstn_all. Qed.

Lemma file_split j r : rs !! j = Some r -> file = file_of (take j rs) ++ body r ++ LF :: file_of (drop (S j) rs).
Proof using. intros E. unfold file. rewrite <- (take_drop_middle rs j r E) at 1. by rewrite file_of_app, file_of_cons. Qed.

Lemma drop_start j : (j <= length rs)%nat -> drop (Z.to_nat (start_of j)) file = file_of (drop j rs).
Proof using.
  intros Hj. unfold file. rewrite <- (take_drop j rs) at 1. rewrite file_of_app. unfold start_of. rewrite Nat2Z.id. by rewrite drop_app_length.
Qed.

Lemma at_line j r i : rs !! j = Some r -> (i <= length (body r))%nat ->
  (at_pos file (start_of j + Z.of_nat i) =c LF) = (i =? length (body r))%nat.
Proof using Hok.
  intros E Hi. unfold at_pos, char_at. rewrite (file_split j r E). unfold start_of.
  replace (Z.to_nat _) with (length (file_of (take j rs)) + i)%nat by lia.
  rewrite <- drop_drop, drop_app_length. destruct (Nat.eqb_spec i (length (body r))) as [->|Hne].
  - rewrite drop_app_length. done.
  - rewrite drop_app_le by lia. destruct (drop i (body r)) as [|c s] eqn:Ed.
    { apply (f_equal length) in Ed. rewrite length_drop in Ed. cbn [length] in Ed. exfalso; lia. }
    cbn. apply ch_eqb_neq. pose proof (body_text r (reg_at j r E)) as Ht. unfold text_ok in Ht. rewrite Forall_forall in Ht.
    apply (Ht c). rewrite <- (take_drop i (body r)), Ed. apply elem_of_app. right. left.
Qed.

Lemma start_lt a b : (a < b)%nat -> (b <= length rs)%nat -> start_of a < start_of b.
Proof using.
  intros Hab Hb. induction b as [|b IH]; [lia|]. destruct (lookup_lt_is_Some_2 rs b) as [r E]; [lia|].
  rewrite (start_S b r E). destruct (decide (a = b)) as [->|Hne]; [lia|]. specialize (IH ltac:(lia) ltac:(lia)). lia.
Qed.

Lemma start_le a b : (a <= b)%nat -> (b <= length rs)%nat -> start_of a <= start_of b.
Proof using. intros Hab Hb. destruct (decide (a = b)) as [->|Hne]; [done|]. pose proof (start_lt a b). lia. Qed.

(** The line of a position between two beginnings of lines. *)
Lemma locate b a p : (b <= length rs)%nat -> start_of a <= p < start_of b ->
  exists j r i, (a <= j < b)%nat /\ rs !! j = Some r /\ (i <= length (body r))%nat /\ p = start_of j + Z.of_nat i.
Proof using.
  induction b as [|b IH]; intros Hb Hp.
  - assert (0 <= start_of a) by (unfold start_of; lia). rewrite start_0 in Hp. lia.
  - destruct (lookup_lt_is_Some_2 rs b) as [r E]; [lia|]. destruct (decide (p < start_of b)) as [Hlt|Hge].
    + destruct IH as (j & r' & i & Hj & H); [lia|lia|]. exists j, r', i. split; [lia|done].
    + rewrite (start_S b r E) in Hp. exists b, r, (Z.to_nat (p - start_of b)). split_and!; [|lia|done|lia|lia].
      destruct (decide (a <= b)%nat) as [|Hab]; [done|]. pose proof (start_S b r E).
      assert (start_of (S b) <= start_of a); [|lia]. destruct (decide (a <= length rs)%nat); [apply start_le; lia|].
      replace (start_of a) with (start_of (length rs)); [apply start_le; lia|]. unfold start_of. rewrite !take_ge by lia. done.
Qed.

Lemma back_line a j r i : (a <= j)%nat -> rs !! j = Some r -> (i < length (body r))%nat ->
  forall n, (i < n)%nat -> seek_back n file (start_of a) (start_of j + Z.of_nat i) = start_of j - 1.
Proof using Hok.
  intros Ha E. pose proof (lookup_lt_Some _ _ _ E) as Hj. pose proof (start_le a j Ha ltac:(lia)) as Hle.
  induction i as [|i IH]; intros Hi n Hn; (destruct n as [|n]; [lia|]); cbn [seek_back];
    rewrite (at_line j r) by (done || lia); rewrite (proj2 (Nat.eqb_neq _ _)) by lia; rewrite (proj2 (Z.leb_le _ _)) by lia; cbn [negb andb].
  - rewrite Z.add_0_r. destruct n as [|n]; [done|]. cbn [seek_back]. destruct (decide (a = j)) as [->|Hne].
    { rewrite (proj2 (Z.leb_gt _ _)) by lia. done. }
    destruct j as [|j]; [lia|]. destruct (lookup_lt_is_Some_2 rs j) as [r' E']; [lia|].
    rewrite (start_S j r' E'). replace (_ + 1 - 1) with (start_of j + Z.of_nat (length (body r'))) by lia.
    rewrite (at_line j r') by done. rewrite Nat.eqb_refl. by rewrite andb_false_r.
  - replace (start_of j + Z.of_nat (S i) - 1) with (start_of j + Z.of_nat i) by lia. apply IH; lia.
Qed.

Lemma forward_line j b r i n : (j < b)%nat -> (b <= length rs)%nat -> rs !! j = Some r -> (i <= length (body r))%nat ->
  (length (body r) - i < n)%nat -> seek_forward n file (start_of b) (start_of j + Z.of_nat i) = start_of (S j).
Proof using Hok.
  intros Hj Hb E Hi. pose proof (start_le (S j) b Hj Hb) as Hle. pose proof (start_S j r E) as HS.
  remember (length (body r) - i)%nat as k eqn:Hk. revert i Hi Hk n. induction k as [|k IH]; intros i Hi Hk n Hn; (destruct n as [|n]; [lia|]);
    cbn [seek_forward]; rewrite (proj2 (Z.ltb_lt _ _)) by lia; rewrite (at_line j r) by (done || lia).
  - rewrite (proj2 (Nat.eqb_eq _ _)) by lia. lia.
  - rewrite (proj2 (Nat.eqb_neq _ _)) by lia. replace (start_of j + Z.of_nat i + 1) with (start_of j + Z.of_nat (S i)) by lia. apply IH; lia.
Qed.

Lemma id_at j r : rs !! j = Some r -> atol (drop (Z.to_nat (start_of j)) file) = r_id r.
Proof using Hok.
  intros E. pose proof (lookup_lt_Some _ _ _ E) as Hj. rewrite drop_start by lia.
  rewrite (drop_S _ _ _ E), file_of_cons. unfold body. rewrite <- app_assoc. apply atol_decimal; [|done].
  destruct (reg_at j r E) as (H & _). lia.
Qed.

(** What the interval of the bisection holds. *)
Definition seek_inv (id : Z) (s : Z * Z) : Prop :=
  exists a b, (a <= b <= length rs)%nat /\ s = (start_of a, start_of b) /\
    (forall k r, rs !! k = Some r -> (k < a)%nat -> r_id r < id) /\ (forall k r, rs !! k = Some r -> (b <= k)%nat -> id <= r_id r).

(** One test, at the line [k] that the middle is taken to be in. *)
Lemma seek_test id a b k r : (a <= k < b)%nat -> (b <= length rs)%nat -> rs !! k = Some r ->
  (forall k r, rs !! k = Some r -> (k < a)%nat -> r_id r < id) -> (forall k r, rs !! k = Some r -> (b <= k)%nat -> id <= r_id r) ->
  forall ptr2, (r_id r < id -> exists k', (k <= S k')%nat /\ (a <= k' < b)%nat /\ ptr2 = start_of (S k') /\ (forall k r, rs !! k = Some r -> (k < S k')%nat -> r_id r < id)) ->
  match (if id <? r_id r then inl (start_of a, start_of k) else if r_id r <? id then inl (ptr2, start_of b) else inl (start_of k, start_of k)) : Z * Z + Z with
  | inl s' => seek_inv id s' /\ (Z.to_nat (s'.2 - s'.1) < Z.to_nat (start_of b - start_of a))%nat
  | inr _ => False
  end.
Proof using Hinc.
  intros Hk Hb E Hlo Hhi ptr2 Hp2. pose proof (start_lt k b ltac:(lia) Hb). pose proof (start_le a k ltac:(lia) ltac:(lia)).
  assert (Hge : id <= r_id r -> forall k' r', rs !! k' = Some r' -> (k <= k')%nat -> id <= r_id r').
  { intros Hle k' r' E' Hk'. destruct (decide (k = k')) as [->|]; [congruence|]. pose proof (Hinc k k' r r' E E' ltac:(lia)). lia. }
  destruct (Z.ltb_spec id (r_id r)) as [Hlt|Hle]; [|destruct (Z.ltb_spec (r_id r) id) as [Hlt|Hle']]; cbn [fst snd].
  - split; [|lia]. exists a, k. split_and!; [lia|lia|done|done|]. apply Hge. lia.
  - destruct (Hp2 Hlt) as (k' & Hk' & Hk2 & -> & Hbelow). pose proof (start_lt a (S k') ltac:(lia) ltac:(lia)).
    pose proof (start_le (S k') b ltac:(lia) ltac:(lia)).
    split; [|lia]. exists (S k'), b. split_and!; [lia|lia|done|done|done].
  - split; [|lia]. exists k, k. split_and!; [lia|lia|done| |apply Hge; lia].
    intros k' r' E' Hk'. pose proof (Hinc k' k r' r E' E Hk'). lia.
Qed.

Lemma seek_step_inv id s : seek_inv id s ->
  match seek_step file id s with
  | inl s' => seek_inv id s' /\ (Z.to_nat (s'.2 - s'.1) < Z.to_nat (s.2 - s.1))%nat
  | inr p => exists a, (a <= length rs)%nat /\ p = start_of a /\
      (forall k r, rs !! k = Some r -> (k < a)%nat -> r_id r < id) /\ (forall k r, rs !! k = Some r -> (a <= k)%nat -> id <= r_id r)
  end.
Proof using Hok Hinc.
  intros (a & b & Hab & -> & Hlo & Hhi). unfold seek_step. cbn [fst snd].
  destruct (Z.eqb_spec (start_of a) (start_of b)) as [He|Hne].
  { exists a. split_and!; [lia|done|done|]. intros k r E Hk. apply (Hhi k r E).
    destruct (decide (a = b)) as [->|]; [done|]. pose proof (start_lt a b ltac:(lia) ltac:(lia)). lia. }
  pose proof (start_le a b ltac:(lia) ltac:(lia)) as Hle.
  pose proof (Z.div_pos (start_of b - start_of a) 2 ltac:(lia) ltac:(lia)) as Hd0.
  pose proof (Z.div_lt (start_of b - start_of a) 2 ltac:(lia) ltac:(lia)) as Hd1.
  destruct (locate b a (start_of a + (start_of b - start_of a) / 2)) as (j & r & i & Hj & E & Hi & Emid); [lia|lia|].
  rewrite Emid. set (d := start_of b - start_of a) in *. pose proof (start_S j r E) as HS.
  pose proof (start_le a j ltac:(lia) ltac:(lia)) as Haj. pose proof (start_le (S j) b ltac:(lia) ltac:(lia)) as Hjb.
  pose proof (body_long r (reg_at j r E)) as Hlong.
  rewrite (forward_line j b r i) by (done || lia).
  destruct (Nat.eq_dec i (length (body r))) as [->|Hne'].
  - assert (Eb : seek_back (S (Z.to_nat d)) file (start_of a) (start_of j + Z.of_nat (length (body r))) = start_of (S j) - 1).
    { cbn [seek_back]. rewrite (at_line j r), Nat.eqb_refl by done. rewrite andb_false_r. lia. }
    rewrite Eb, (proj2 (Z.ltb_ge (start_of (S j) - 1) (start_of a))) by lia. replace (start_of (S j) - 1) with (start_of j + Z.of_nat (length (body r))) by lia.
    rewrite (at_line j r), Nat.eqb_refl by done. replace (_ + 1) with (start_of (S j)) by lia.
    assert (Hjb' : (S j < b)%nat).
    { destruct (decide (S j = b)) as [<-|]; [|lia]. pose proof (Z.div_mod d 2 ltac:(lia)). pose proof (Z.mod_pos_bound d 2 ltac:(lia)).
      unfold d in *. exfalso. lia. }
    destruct (lookup_lt_is_Some_2 rs (S j)) as [r' E']; [lia|]. rewrite (id_at (S j) r' E').
    pose proof (seek_test id a b (S j) r' ltac:(lia) ltac:(lia) E' Hlo Hhi (start_of (S j))) as H. fold d in H.
    destruct (id <? r_id r'), (r_id r' <? id); apply H; intros Hlt; exists j; (split_and!; [lia|lia|lia|done|]);
      intros k r'' E'' Hk; pose proof (Hinc k (S j) r'' r' E'' E' Hk); lia.
  - assert (Eb : seek_back (S (Z.to_nat d)) file (start_of a) (start_of j + Z.of_nat i) = start_of j - 1).
    { apply (back_line a j r i); [lia|done|lia|]. unfold d in *. lia. }
    rewrite Eb. set (ptr := if start_of j - 1 <? start_of a then start_of a else start_of j - 1).
    assert (Ep : (if at_pos file ptr =c LF then ptr + 1 else ptr) = start_of j).
    { unfold ptr. destruct (decide (a = j)) as [->|Hne2].
      - rewrite (proj2 (Z.ltb_lt _ _)) by lia. pose proof (at_line j r 0 E ltac:(lia)) as H0. rewrite Z.add_0_r in H0.
        rewrite H0, (proj2 (Nat.eqb_neq _ _)) by lia. done.
      - destruct j as [|j]; [lia|]. pose proof (start_lt a (S j) ltac:(lia) ltac:(lia)). rewrite (proj2 (Z.ltb_ge _ _)) by lia.
        destruct (lookup_lt_is_Some_2 rs j) as [r' E']; [lia|]. rewrite (start_S j r' E').
        replace (_ + 1 - 1) with (start_of j + Z.of_nat (length (body r'))) by lia.
        rewrite (at_line j r') by done. rewrite Nat.eqb_refl. lia. }
    rewrite Ep, (id_at j r E).
    pose proof (seek_test id a b j r ltac:(lia) ltac:(lia) E Hlo Hhi (start_of (S j))) as H. fold d in H.
    destruct (id <? r_id r), (r_id r <? id); apply H; intros Hlt; exists j; (split_and!; [lia|lia|lia|done|]);
      intros k r'' E'' Hk; (destruct (decide (k = j)) as [->|]; [congruence|]); pose proof (Hinc k j r'' r E'' E ltac:(lia)); lia.
Qed.

(** The registers from a number on. *)
Definition from (id : Z) : list register := filter (fun r => id <= r_id r) rs.

Lemma filter_from id a : (forall k r, rs !! k = Some r -> (k < a)%nat -> r_id r < id) ->
  (forall k r, rs !! k = Some r -> (a <= k)%nat -> id <= r_id r) -> drop a rs = from id.
Proof using.
  intros Hlo Hhi. unfold from. rewrite <- (take_drop a rs) at 2. rewrite filter_app.
  rewrite (filter_every _ (drop a rs)), (filter_none_of _ (take a rs)); [done| |].
  - apply Forall_lookup. intros k r E. apply lookup_take_Some in E as [E Hk]. specialize (Hlo k r E Hk). lia.
  - apply Forall_lookup. intros k r E. rewrite lookup_drop in E. apply (Hhi _ _ E). lia.
Qed.

(** What [ddb_seek] leaves: the first register with the number [id] or more
    in the buffer, and the rest of the file. *)
Lemma ddb_seek_from id : 0 <= id ->
  ddb_seek file id = Some match from id with [] => ([], None, []) | r :: rest => (body r, Some (length (body r)), file_of rest) end.
Proof using Hok Hinc.
  intros Hid. unfold ddb_seek.
  assert (Hread : forall a, from id = drop a rs -> ddb_read (file_of (drop a rs)) [] 0 =
            match from id with [] => ([], None, []) | r :: rest => (body r, Some (length (body r)), file_of rest) end).
  { intros a ->. destruct (drop a rs) as [|r rest] eqn:E; [done|]. apply ddb_read_file.
    apply (reg_at a r). rewrite <- (Nat.add_0_r a), <- lookup_drop, E. done. }
  destruct (Z.eqb_spec id 0) as [->|Hne].
  - f_equal. change file with (file_of (drop 0 rs)). apply Hread. symmetry. apply filter_from; [lia|].
    intros k r E _. destruct (reg_at k r E) as (H & _). lia.
  - destruct (loop_total (seek_step file id) (seek_inv id) (fun s => Z.to_nat (s.2 - s.1))
      (fun p => exists a, (a <= length rs)%nat /\ p = start_of a /\ drop a rs = from id)) with
      (fuel := S (S (length file))) (s := (0, Z.of_nat (length file))) as (p & -> & a & Ha & -> & Hf).
    + intros s Hs. pose proof (seek_step_inv id s Hs) as H. destruct (seek_step file id s) as [s'|p]; [done|].
      destruct H as (a & Ha & -> & Hlo & Hhi). exists a. split_and!; [done|done|by apply filter_from].
    + exists 0%nat, (length rs). split_and!; [lia|lia|by rewrite start_0, start_end|lia|].
      intros k r E Hk. apply lookup_lt_Some in E. lia.
    + cbn [fst snd]. lia.
    + cbn [mbind option_bind]. rewrite drop_start by done. f_equal. by apply Hread.
Qed.

Lemma from_ok id : Forall reg_ok (from id).
Proof using Hok. apply Forall_forall. intros r [_ Hr]%list_elem_of_filter. rewrite Forall_forall in Hok. by apply Hok. Qed.

Lemma from_length id : (length (from id) <= length rs)%nat.
Proof using. apply length_filter. Qed.

Lemma file_long : (length rs <= length file)%nat.
Proof using. clear. unfold file. induction rs as [|r l IH]; [done|]. rewrite file_of_cons, length_app. cbn [length]. lia. Qed.
End seek.

(** ** The files of a daemon, and what it finds when it starts again *)

Lemma drop_add_app {A} n (l1 l2 : list A) : drop (length l1 + n) (l1 ++ l2) = drop n l2.
Proof. induction l1 as [|x l1 IH]; [done|]. exact IH. Qed.

(** *** The file of the hashes *)

Definition slot (t : Z) (hashes : list ascii) : list ascii := take 15 (drop (hash_offset t) hashes).

Lemma length_entry t h : length (hash_entry t h) = 15%nat.
Proof. unfold hash_entry, hash_text. rewrite !length_app, !length_inttobase64. done. Qed.

Lemma table_offset t : DDB_INIT <= t <= DDB_END -> exists k, (k < 26)%nat /\ t = DDB_INIT + Z.of_nat k /\ hash_offset t = (15 * k)%nat.
Proof. unfold hash_offset, DDB_INIT, DDB_END. intros H. exists (Z.to_nat (t - 97)). split_and!; lia. Qed.

Lemma hash_read_slot t hashes : ddb_db_hash_read t hashes = (base64toint (take 6 (drop 2 (slot t hashes))), base64toint (take 6 (drop 8 (slot t hashes)))).
Proof.
  unfold ddb_db_hash_read, slot. rewrite <- drop_drop. generalize (drop (hash_offset t) hashes). intros s.
  do 15 (destruct s as [|? s]; [done|]). done.
Qed.

Lemma hash_write_length t h hashes : DDB_INIT <= t <= DDB_END -> length hashes = 390%nat -> length (ddb_db_hash_write t h hashes) = 390%nat.
Proof.
  intros Ht Hl. destruct (table_offset t Ht) as (k & Hk & _ & E). unfold ddb_db_hash_write.
  rewrite E, !length_app, length_entry, length_take, length_drop. lia.
Qed.

Lemma slot_write_eq t h hashes : DDB_INIT <= t <= DDB_END -> length hashes = 390%nat ->
  slot t (ddb_db_hash_write t h hashes) = hash_entry t h.
Proof.
  intros Ht Hl. destruct (table_offset t Ht) as (k & Hk & _ & E). unfold slot, ddb_db_hash_write. rewrite E.
  rewrite drop_app_length' by (rewrite length_take; lia). apply take_app_length'. by rewrite length_entry.
Qed.

Lemma slot_write_ne t t' h hashes : DDB_INIT <= t <= DDB_END -> DDB_INIT <= t' <= DDB_END -> t <> t' -> length hashes = 390%nat ->
  slot t' (ddb_db_hash_write t h hashes) = slot t' hashes.
Proof.
  intros Ht Ht' Hne Hl. destruct (table_offset t Ht) as (k & Hk & Et & E). destruct (table_offset t' Ht') as (k' & Hk' & Et' & E').
  unfold slot, ddb_db_hash_write. rewrite E, E'. assert (k' <> k) as Hkk by congruence.
  apply list_eq. intros i. destruct (decide (i < 15)%nat) as [Hi|Hi]; [|by rewrite !lookup_take_ge by lia].
  rewrite !lookup_take_lt by done. rewrite !lookup_drop. destruct (decide (k' < k)%nat) as [Hlt|Hge].
  - rewrite lookup_app_l by (rewrite length_take; lia). by rewrite lookup_take_lt by lia.
  - rewrite lookup_app_r by (rewrite length_take; lia). rewrite length_take.
    rewrite lookup_app_r by (rewrite length_entry; lia). rewrite length_entry, lookup_drop. f_equal. lia.
Qed.

Lemma entry_read t h : word h.1 -> word h.2 ->
  (base64toint (take 6 (drop 2 (hash_entry t h))), base64toint (take 6 (drop 8 (hash_entry t h)))) = h.
Proof.
  intros H1 H2. destruct h as [hi lo]. cbn [fst snd] in *.
  pose proof (length_inttobase64 hi 6) as L1. pose proof (length_inttobase64 lo 6) as L2.
  assert (D : drop 2 (hash_entry t (hi, lo)) = inttobase64 hi 6 ++ inttobase64 lo 6 ++ [LF]).
  { unfold hash_entry, hash_text. rewrite app_assoc. exact eq_refl. }
  replace (drop 8 (hash_entry t (hi, lo))) with (drop 6 (drop 2 (hash_entry t (hi, lo)))) by (by rewrite drop_drop).
  rewrite D, (drop_app_length' (inttobase64 hi 6)), !take_app_length' by done.
  f_equal; apply base64_roundtrip; unfold word in *; (lia || (change (64 ^ Z.of_nat 6) with 68719476736; lia)).
Qed.

Lemma tea_loop_word n : forall y z sum a b c d, word y -> word z -> word (tea_loop n y z sum a b c d).1 /\ word (tea_loop n y z sum a b c d).2.
Proof.
  induction n as [|n IH]; intros y z sum a b c d Hy Hz; cbn [tea_loop]; [done|]. apply IH; apply w32_range.
Qed.

Lemma tea_loop_S_word n y z sum a b c d : word (tea_loop (S n) y z sum a b c d).1 /\ word (tea_loop (S n) y z sum a b c d).2.
Proof. cbn [tea_loop]. apply tea_loop_word; apply w32_range. Qed.

Lemma ircd_tea_word v k x : word (ircd_tea v k x).1 /\ word (ircd_tea v k x).2.
Proof.
  unfold ircd_tea. cbv zeta. generalize (tea_loop_S_word 31 (Z.lxor (fst v) (fst x)) (Z.lxor (snd v) (snd x)) 0 (fst k) (snd k) 0 0).
  generalize (tea_loop 32 (Z.lxor (fst v) (fst x)) (Z.lxor (snd v) (snd x)) 0 (fst k) (snd k) 0 0). done.
Qed.

Lemma hash_words_word n : forall ws x, (length ws <= n)%nat -> word x.1 /\ word x.2 -> word (hash_words ws x).1 /\ word (hash_words ws x).2.
Proof.
  induction n as [|n IH]; intros ws x Hn Hx; (destruct ws as [|a [|b ws]]; [done|done|]); cbn [length] in Hn; [lia|].
  cbn [hash_words]. destruct (a =? 0); [done|]. apply IH; [lia|]. apply ircd_tea_word.
Qed.

Lemma ddb_hash_line_word line x : word x.1 /\ word x.2 -> word (ddb_hash_line line x).1 /\ word (ddb_hash_line line x).2.
Proof.
  unfold ddb_hash_line. generalize (be_words 516 (cut_at "013" (cut_at "010" (take 2063 line)))). intros ws. apply (hash_words_word (length ws)). done.
Qed.

Lemma fold_left_keeps {A B} (f : A -> B -> A) (P : A -> Prop) : (forall a b, P a -> P (f a b)) -> forall l a, P a -> P (fold_left f l a).
Proof. intros Hf l. induction l as [|b l IH]; intros a Ha; [done|]. apply IH, Hf, Ha. Qed.

Lemma fold_left_snoc {A B} (f : A -> B -> A) l b a : fold_left f (l ++ [b]) a = f (fold_left f l a) b.
Proof. by rewrite fold_left_app. Qed.

(** Operations that change only the place [t] of a function. *)
Lemma fold_left_at {A B O} (P : B -> Prop) (g : O -> (Z -> A) -> Z -> A) (op : B -> O) (f : A -> B -> A) t l :
  Forall P l -> (forall b h, P b -> g (op b) h t = f (h t) b) -> (forall b h t', t' <> t -> g (op b) h t' = h t') ->
  forall h t', fold_left (fun h o => g o h) (map op l) h t' = if decide (t' = t) then fold_left f l (h t) else h t'.
Proof.
  intros Hl Hat Hne. induction Hl as [|b l Hb _ IH]; intros h t'; cbn [map fold_left]; [by destruct (decide (t' = t)) as [->|]|].
  rewrite IH, Hat by done. destruct (decide (t' = t)); [done|]. by apply Hne.
Qed.

(** *** What a daemon has served of a table since it was last emptied *)

Section restart.
Context (crc32hash : list Z) (me : cstring).

Definition history_step (t : Z) (rs : list register) (o : ddb_op) : list register :=
  match o with
  | ORegister t' id mask key content => if decide (t' = t) then rs ++ [{| r_id := id; r_mask := mask; r_key := key; r_content := content |}] else rs
  | ODrop t' _ => if decide (t' = t) then [] else rs
  | OCompact _ _ => rs
  end.

Definition history (t : Z) (l : list ddb_op) : list register := fold_left (history_step t) l [].

Definition table_step (t : Z) (m : gmap cstring cstring) (r : register) : gmap cstring cstring :=
  spec_tables me (op_of t r) (fun _ => m) t.

Definition hash_step (t : Z) (h : Z * Z) (r : register) : Z * Z :=
  ddb_hash_line (db_line (r_id r mod 2 ^ 64) (r_mask r) t (r_key r) (r_content r)) h.

Definition table_after (t : Z) (rs : list register) : gmap cstring cstring := fold_left (table_step t) rs ∅.
Definition hash_after (t : Z) (rs : list register) : Z * Z := fold_left (hash_step t) rs (0, 0).

(** What can be asked of a daemon: the registers that the files can hold, of
    the tables there are. *)
Definition request_ok (o : ddb_op) : Prop :=
  DDB_INIT <= table_of o <= DDB_END /\
  match o with
  | ORegister t id mask key content => reg_ok {| r_id := id; r_mask := mask; r_key := key; r_content := content |} /\ is_Some (for_me me mask)
  | _ => True
  end.

Lemma reg_word_cstr w : word_ok w -> is_cstr w.
Proof. intros [_ H]. eapply Forall_impl; [exact H|]. by intros c (_ & _ & _ & ?). Qed.

Lemma request_op o : request_ok o -> ddb_op_ok me o.
Proof.
  intros [_ H]. destruct o as [t id mask key content| |]; [|done|done]. destruct H as ((_ & _ & Hk & _) & Hm). cbn in Hk.
  split_and!; [by destruct Hk|by apply reg_word_cstr|done].
Qed.

Lemma id_small id : 0 < id < 2 ^ 31 -> id mod 2 ^ 64 = id.
Proof. intros H. apply Z.mod_small. lia. Qed.

Lemma hash_step_word t h r : word h.1 /\ word h.2 -> word (hash_step t h r).1 /\ word (hash_step t h r).2.
Proof. exact (ddb_hash_line_word (db_line (r_id r mod 2 ^ 64) (r_mask r) t (r_key r) (r_content r)) h). Qed.

Lemma hash_after_word t rs : word (hash_after t rs).1 /\ word (hash_after t rs).2.
Proof.
  unfold hash_after. apply (fold_left_keeps (hash_step t) (fun h => word h.1 /\ word h.2)); [exact (hash_step_word t)|].
  unfold word. cbn [fst snd]. lia.
Qed.

(** One operation, on what it does to the table [t]. *)
Lemma spec_step t o M h rs : request_ok o -> M t = table_after t rs -> h t = hash_after t rs ->
  spec_tables me o M t = table_after t (history_step t rs o) /\ spec_hash o h t = hash_after t (history_step t rs o).
Proof.
  intros [_ Ho] HM Hh. destruct o as [t' id mask key content|t' ev|t' id]; cbn [spec_tables spec_hash history_step]; [| |done].
  - destruct (decide (t' = t)) as [->|Hne].
    + destruct Ho as ((Hid & _) & _). cbn in Hid. unfold table_after, hash_after. rewrite !fold_left_snoc.
      fold (table_after t rs). fold (hash_after t rs). rewrite <- HM, <- Hh. unfold table_step, hash_step, op_of. cbn [r_id r_mask r_key r_content spec_tables].
      rewrite id_small by done. rewrite set_at_eq. split; [|done]. destruct (_ || _); [done|]. unfold upd_tab. by rewrite !set_at_eq.
    + rewrite set_at_ne by done. split; [|done]. destruct (_ || _); [done|]. unfold upd_tab. by rewrite set_at_ne.
  - destruct (decide (t' = t)) as [->|Hne]; unfold upd_tab; [by rewrite !set_at_eq|by rewrite !set_at_ne].
Qed.

(** Memory and files of a daemon that has served the registers [R t]. *)
Definition daemon_inv (d : daemon) (R : Z -> list register) : Prop :=
  (exists M, rep crc32hash (mem d) M /\ forall t, M t = table_after t (R t)) /\
  (forall t, ddb_hashtable (mem d) t = hash_after t (R t)) /\
  (forall t, Forall reg_ok (R t) /\ Forall (fun r => is_Some (for_me me (r_mask r))) (R t) /\ tables_on_disk d t = file_of (R t)) /\
  length (hashes_on_disk d) = 390%nat /\
  (forall t, DDB_INIT <= t <= DDB_END -> ddb_db_hash_read t (hashes_on_disk d) = hash_after t (R t)).

Lemma hash_write_read t h R hashes : DDB_INIT <= t <= DDB_END -> length hashes = 390%nat -> h = hash_after t (R t) ->
  (forall t', DDB_INIT <= t' <= DDB_END -> t' <> t -> ddb_db_hash_read t' hashes = hash_after t' (R t')) ->
  forall t', DDB_INIT <= t' <= DDB_END -> ddb_db_hash_read t' (ddb_db_hash_write t h hashes) = hash_after t' (R t').
Proof.
  intros Ht Hl -> Hh t' Ht'. destruct (decide (t = t')) as [<-|Hne].
  - rewrite hash_read_slot, slot_write_eq by done. apply entry_read; apply hash_after_word.
  - rewrite hash_read_slot, slot_write_ne by done. rewrite <- hash_read_slot. by apply Hh.
Qed.

Lemma serve_inv o d R : request_ok o -> daemon_inv d R ->
  exists d', serve crc32hash me o d = Some d' /\ daemon_inv d' (fun t => history_step t (R t) o) /\
    ddb_id_table (mem d') = spec_ids o (ddb_id_table (mem d)).
Proof.
  intros Ho ((M & HR & HM) & Hh & Hf & Hl & Hr). pose proof (request_op o Ho) as Hop.
  destruct (run_ddb_rep crc32hash me o (mem d) M HR Hop) as (st & es & E & HR' & Hi' & Hh').
  unfold serve. rewrite E. cbn [mbind option_bind]. eexists. split; [done|]. split; [|done].
  assert (Hs : forall t, spec_tables me o M t = table_after t (history_step t (R t) o) /\ ddb_hashtable st t = hash_after t (history_step t (R t) o)).
  { intros t. rewrite Hh'. by apply spec_step. }
  split_and!; cbn [mem tables_on_disk hashes_on_disk].
  - exists (spec_tables me o M). split; [done|]. intros t. apply Hs.
  - intros t. apply Hs.
  - intros t. destruct (Hf t) as (H1 & H2 & H3). destruct Ho as [_ Ho]. destruct o as [t' id mask key content|t' ev|t' id]; cbn [table_file history_step]; [| |done].
    + destruct (decide (t' = t)) as [->|Hne]; [rewrite set_at_eq|by rewrite set_at_ne by done].
      rewrite H3, ddb_db_write_file by apply Ho. split_and!; [| |done]; apply Forall_app; (split; [done|]); apply Forall_singleton; apply Ho.
    + destruct (decide (t' = t)) as [->|Hne]; [rewrite set_at_eq|by rewrite set_at_ne by done]. done.
  - apply hash_write_length; [apply Ho|done].
  - apply (hash_write_read (table_of o) _ (fun t => history_step t (R t) o)); [apply Ho|done|apply Hs|].
    intros t' Ht' Hne. rewrite Hr by done. f_equal. destruct o as [t id mask key content|t ev|t id]; cbn [history_step table_of] in *;
      [by rewrite decide_False by done|by rewrite decide_False by done|done].
Qed.

Lemma serve_all_inv l : forall d R, Forall request_ok l -> daemon_inv d R ->
  exists d', serve_all crc32hash me l d = Some d' /\ daemon_inv d' (fun t => fold_left (history_step t) l (R t)) /\
    ddb_id_table (mem d') = fold_left (fun i o => spec_ids o i) l (ddb_id_table (mem d)).
Proof.
  induction l as [|o l IH]; intros d R Hl Hd; cbn [serve_all fold_left]; [by exists d|].
  apply Forall_cons in Hl as [Ho Hl]. destruct (serve_inv o d R Ho Hd) as (d1 & -> & Hd1 & <-). cbn [mbind option_bind]. by apply IH.
Qed.

Lemma new_daemon_inv : daemon_inv new_daemon (fun _ => []).
Proof.
  split_and!.
  - exists (fun _ => ∅). split; [apply no_ddbs_rep|done].
  - done.
  - done.
  - done.
  - intros t Ht. destruct (table_offset t Ht) as (k & Hk & -> & _). do 26 (destruct k as [|k]; [done|]). lia.
Qed.

(** *** The start *)

Definition id_after (rs : list register) : Z := fold_left (fun _ r => r_id r) rs 0.

Lemma table_step_at t r M : spec_tables me (op_of t r) M t = table_step t (M t) r.
Proof. unfold table_step, op_of. cbn [spec_tables]. destruct (_ || _); [done|]. unfold upd_tab. by rewrite !set_at_eq. Qed.

Lemma table_step_other t t' r M : t' <> t -> spec_tables me (op_of t r) M t' = M t'.
Proof. intros Hne. unfold op_of. cbn [spec_tables]. destruct (_ || _); [done|]. unfold upd_tab. by rewrite set_at_ne. Qed.

Lemma hash_step_at t r h : spec_hash (op_of t r) h t = hash_step t (h t) r.
Proof. unfold op_of, hash_step. cbn [spec_hash]. by rewrite set_at_eq. Qed.

Lemma hash_step_other t t' r h : t' <> t -> spec_hash (op_of t r) h t' = h t'.
Proof. intros Hne. unfold op_of. cbn [spec_hash]. by rewrite set_at_ne. Qed.

Lemma id_step_at t r i : reg_ok r -> spec_ids (op_of t r) i t = r_id r.
Proof. intros (Hid & _). unfold op_of. cbn [spec_ids]. by rewrite set_at_eq, id_small. Qed.

Lemma id_step_other t t' r i : t' <> t -> spec_ids (op_of t r) i t' = i t'.
Proof. intros Hne. unfold op_of. cbn [spec_ids]. by rewrite set_at_ne. Qed.

Lemma load_tables t rs M t' :
  fold_left (fun M o => spec_tables me o M) (map (op_of t) rs) M t' = if decide (t' = t) then fold_left (table_step t) rs (M t) else M t'.
Proof. apply (fold_left_at (fun _ => True)); [by apply Forall_true|intros; apply table_step_at|intros; by apply table_step_other]. Qed.

Lemma load_hash t rs h t' :
  fold_left (fun h o => spec_hash o h) (map (op_of t) rs) h t' = if decide (t' = t) then fold_left (hash_step t) rs (h t) else h t'.
Proof. apply (fold_left_at (fun _ => True)); [by apply Forall_true|intros; apply hash_step_at|intros; by apply hash_step_other]. Qed.

Lemma load_ids t rs i t' : Forall reg_ok rs ->
  fold_left (fun i o => spec_ids o i) (map (op_of t) rs) i t' = if decide (t' = t) then fold_left (fun _ r => r_id r) rs (i t) else i t'.
Proof. intros Hok. apply (fold_left_at reg_ok); [done|intros; by apply id_step_at|intros; by apply id_step_other]. Qed.

Lemma not_resident t rs : ddb_resident_table t = 0 -> table_after t rs = ∅.
Proof.
  intros Hz. unfold table_after. induction rs as [|r rs IH]; [done|]. cbn [fold_left]. unfold table_step at 2. unfold op_of. cbn [spec_tables].
  by rewrite Hz.
Qed.

Lemma ddb_db_read_start file rs : file = file_of rs -> Forall reg_ok rs ->
  ddb_db_read false 0 0 file = Some match rs with [] => ([], -1) | _ => (rs, 1) end.
Proof.
  intros -> Hok. unfold ddb_db_read, ddb_seek. cbn [Z.eqb mbind option_bind]. destruct rs as [|r rs]; [done|].
  pose proof Hok as Hok'. apply Forall_cons in Hok' as [Hr Hrs]. rewrite ddb_read_file by done.
  rewrite read_loop_all; [done|done|]. rewrite file_of_cons, length_app. cbn [length].
  assert (length rs <= length (file_of rs))%nat; [|lia]. clear. induction rs as [|r rs IH]; [done|]. rewrite file_of_cons, length_app. cbn [length]. lia.
Qed.

(** The daemon that starts, when the tables of [K] have been read. *)
Definition load_inv (K : list Z) (R : Z -> list register) (d : daemon) : Prop :=
  (exists M, rep crc32hash (mem d) M /\ forall t, M t = if decide (t ∈ K) then delete (str "*") (table_after t (R t)) else ∅) /\
  (forall t, ddb_hashtable (mem d) t = if decide (t ∈ K) then hash_after t (R t) else (0, 0)) /\
  (forall t, ddb_id_table (mem d) t = if decide (t ∈ K) then id_after (R t) else 0) /\
  (forall t, tables_on_disk d t = file_of (R t)) /\ length (hashes_on_disk d) = 390%nat /\
  (forall t, DDB_INIT <= t <= DDB_END -> ddb_db_hash_read t (hashes_on_disk d) = hash_after t (R t)).

Lemma rep_tables (st : ddbs) (M M' : Z -> gmap cstring cstring) : rep crc32hash st M -> (forall t, M t = M' t) -> rep crc32hash st M'.
Proof.
  intros (L & H & HM & HC) E. exists L. split; [done|]. split; [intros t k c; rewrite <- E; apply HM|intros t; rewrite <- E; apply HC].
Qed.

Definition histories_ok (R : Z -> list register) : Prop :=
  forall t, Forall reg_ok (R t) /\ Forall (fun r => is_Some (for_me me (r_mask r))) (R t).

Lemma op_of_ok t r : reg_ok r -> is_Some (for_me me (r_mask r)) -> ddb_op_ok me (op_of t r).
Proof. intros (_ & _ & Hk & _) Hm. split_and!; [by destruct Hk|by apply reg_word_cstr|done]. Qed.

Lemma table_init_load K R d t : histories_ok R -> load_inv K R d -> t ∉ K -> DDB_INIT <= t <= DDB_END ->
  exists d', ddb_table_init crc32hash me t d = Some (d', false) /\ load_inv (t :: K) R d'.
Proof.
  intros HR ((M & Hrep & HM) & Hh & Hi & Hf & Hl & Hr) HtK Ht. destruct (HR t) as [Hok Hme].
  destruct (drop_rep crc32hash (mem d) M t false Hrep) as (st1 & es & E1 & Hrep1 & Hi1 & Hh1).
  unfold ddb_table_init. rewrite E1. cbn [mbind option_bind]. rewrite (ddb_db_read_start _ (R t)) by done.
  assert (Hread : exists z, match R t with [] => ([], -1) | _ => (R t, 1) end = (R t, z)) by (destruct (R t); by eexists).
  destruct Hread as (z & ->). cbn [mbind option_bind].
  destruct (run_ddbs_rep crc32hash me (map (op_of t) (R t)) st1 _ Hrep1) as (st2 & E2 & Hrep2 & Hi2 & Hh2).
  { apply Forall_forall. intros o Ho. apply list_elem_of_fmap in Ho as (r & -> & Hr'). rewrite Forall_forall in Hok. rewrite Forall_forall in Hme.
    apply op_of_ok; auto. }
  rewrite E2. cbn [mbind option_bind hashes_on_disk tables_on_disk mem].
  assert (Hh2' : forall t', ddb_hashtable st2 t' = if decide (t' ∈ t :: K) then hash_after t' (R t') else (0, 0)).
  { intros t'. rewrite Hh2, load_hash, Hh1. destruct (decide (t' = t)) as [->|Hne]; [rewrite decide_True by left; by rewrite set_at_eq|].
    rewrite set_at_ne, Hh by done. apply decide_ext. set_solver. }
  assert (Hi2' : forall t', ddb_id_table st2 t' = if decide (t' ∈ t :: K) then id_after (R t') else 0).
  { intros t'. rewrite Hi2, load_ids, Hi1 by done. destruct (decide (t' = t)) as [->|Hne]; [rewrite decide_True by left; by rewrite set_at_eq|].
    rewrite set_at_ne, Hi by done. apply decide_ext. set_solver. }
  rewrite (Hr t) by done. rewrite Hh2'. rewrite (decide_True _ _ (P := t ∈ t :: K)) by left. rewrite bool_decide_true by done.
  cbn [negb mbind option_bind mem hashes_on_disk tables_on_disk]. rewrite Hh2'. rewrite (decide_True _ _ (P := t ∈ t :: K)) by left.
  assert (Hdisk : forall st, rep crc32hash st (fun t' => if decide (t' ∈ t :: K) then delete (str "*") (table_after t' (R t')) else ∅) ->
     ddb_id_table st = ddb_id_table st2 -> ddb_hashtable st = ddb_hashtable st2 ->
     load_inv (t :: K) R {| mem := st; tables_on_disk := tables_on_disk d;
        hashes_on_disk := ddb_db_hash_write t (hash_after t (R t)) (hashes_on_disk d) |}).
  { intros st H1 H2 H3. split_and!; cbn [mem tables_on_disk hashes_on_disk]; [by eexists|by rewrite H3|by rewrite H2|done|by apply hash_write_length|].
    apply (hash_write_read t _ R); [done|done|done|]. intros t' Ht' _. by apply Hr. }
  assert (Htab : forall t', fold_left (fun M o => spec_tables me o M) (map (op_of t) (R t)) (upd_tab t (fun _ => ∅) M) t' =
            if decide (t' = t) then table_after t (R t) else if decide (t' ∈ K) then delete (str "*") (table_after t' (R t')) else ∅).
  { intros t'. rewrite load_tables. unfold upd_tab. rewrite set_at_eq. destruct (decide (t' = t)) as [->|Hne]; [done|]. by rewrite set_at_ne, HM. }
  destruct (Z.eqb_spec (ddb_resident_table t) 0) as [Hz|Hz].
  - eexists. split; [done|]. apply Hdisk; [|done|done]. eapply rep_tables; [exact Hrep2|]. intros t'. rewrite Htab.
    destruct (decide (t' = t)) as [->|Hne]; [rewrite decide_True by left; by rewrite not_resident, delete_empty|]. apply decide_ext. set_solver.
  - destruct (del_key_rep crc32hash st2 _ t (str "*") Hrep2) as (b & st3 & E3 & Hrep3 & _ & Hi3 & Hh3); [done|].
    rewrite E3. cbn [mbind option_bind]. eexists. split; [done|]. apply Hdisk; [|done|done]. eapply rep_tables; [exact Hrep3|].
    intros t'. unfold upd_tab at 1. destruct (decide (t' = t)) as [->|Hne].
    + rewrite set_at_eq, Htab, decide_True by done. by rewrite decide_True by left.
    + rewrite set_at_ne, Htab, decide_False by done. apply decide_ext. set_solver.
Qed.

Lemma init_tables_load R : histories_ok R -> forall ts K d, NoDup ts -> Forall (fun t => t ∉ K /\ DDB_INIT <= t <= DDB_END) ts -> load_inv K R d ->
  exists d', init_tables crc32hash me ts d = Some (d', []) /\ load_inv (rev ts ++ K) R d'.
Proof.
  intros HR. induction ts as [|t ts IH]; intros K d Hnd Hts Hd; cbn [init_tables rev]; [by exists d|].
  apply NoDup_cons in Hnd as [Hn Hnd]. apply Forall_cons in Hts as [[HtK Ht] Hts].
  destruct (table_init_load K R d t HR Hd HtK Ht) as (d1 & -> & Hd1). cbn [mbind option_bind].
  destruct (IH (t :: K) d1) as (d2 & -> & Hd2); [done| |done|].
  - apply Forall_forall. intros t' Ht'. rewrite Forall_forall in Hts. destruct (Hts t' Ht') as [H1 H2]. split; [|done].
    intros [->|?]%elem_of_cons; [by apply Hn|done].
  - cbn [mbind option_bind]. exists d2. split; [done|]. by rewrite <- app_assoc.
Qed.

Lemma elem_of_all_tables t : t ∈ all_tables <-> DDB_INIT <= t <= DDB_END.
Proof.
  unfold all_tables, DDB_INIT, DDB_END. rewrite list_elem_of_fmap. split.
  - intros (i & -> & Hi%elem_of_seq). lia.
  - intros H. exists (Z.to_nat (t - 97)). split; [lia|]. apply elem_of_seq. lia.
Qed.

Lemma all_tables_nodup : NoDup all_tables.
Proof. apply NoDup_fmap_2; [intros i j; lia|apply NoDup_seq]. Qed.

(** A daemon that starts with the files of another finds what it found. *)
Lemma ddb_init_load d R : daemon_inv d R ->
  exists d', ddb_init crc32hash me d = Some (d', []) /\ load_inv (rev all_tables ++ []) R d'.
Proof.
  intros (_ & _ & Hf & Hl & Hr). apply init_tables_load.
  - intros t. split; apply Hf.
  - apply all_tables_nodup.
  - apply Forall_forall. intros t Ht%elem_of_all_tables. split; [apply not_elem_of_nil|done].
  - split_and!; cbn [mem tables_on_disk hashes_on_disk]; [|done|done|apply Hf|done|done].
    exists (fun _ => ∅). split; [apply no_ddbs_rep|done].
Qed.

Lemma ids_history t l : Forall request_ok l -> Forall (fun o => forall i, o <> OCompact t i) l -> forall i rs, i t = id_after rs ->
  fold_left (fun i o => spec_ids o i) l i t = id_after (fold_left (history_step t) l rs).
Proof.
  intros Hl Hc. induction l as [|o l IH]; intros i rs Hi; cbn [fold_left]; [done|].
  apply Forall_cons in Hl as [[_ Ho] Hl]. apply Forall_cons in Hc as [Hno Hc]. apply IH; [done|done|].
  destruct o as [t' id mask key content|t' ev|t' id]; cbn [spec_ids history_step].
  - destruct (decide (t' = t)) as [->|Hne]; [|by rewrite set_at_ne]. rewrite set_at_eq. unfold id_after. by rewrite fold_left_snoc.
  - destruct (decide (t' = t)) as [->|Hne]; [by rewrite set_at_eq|by rewrite set_at_ne].
  - rewrite set_at_ne; [done|]. intros <-. by apply (Hno id).
Qed.
End restart.

(** ** The theorems *)

(** C15: A daemon that ends and starts again has its tables.  After any
    registers, drops and compactions - the registers such as a line of the
    file holds: numbers from 1 to 2^31 - 1, a mask and a key that are words,
    at most 501 characters in all - reading the files takes no table as
    corrupt, and in each table finds for each key, whatever its case, what
    was found before, but for the key [*], which it deletes; the hashes are
    the same; so are the numbers, when nothing was compacted, for the number
    of a compaction is in no file. *)
Theorem ddb_restart crc32hash me l :
  Forall (request_ok me) l ->
  exists d d', serve_all crc32hash me l new_daemon = Some d /\ ddb_init crc32hash me d = Some (d', []) /\
    forall t, DDB_INIT <= t <= DDB_END ->
      ddb_hashtable (mem d') t = ddb_hashtable (mem d) t /\
      (Forall (fun o => forall i, o <> OCompact t i) l -> ddb_id_table (mem d') t = ddb_id_table (mem d) t) /\
      forall key, key <> [] -> is_cstr key ->
        exists r r', ddb_find_key crc32hash t key (mem d) = Some r /\ ddb_find_key crc32hash t key (mem d') = Some r' /\
          content_of (mem d') <$> r' = if decide (lower key = str "*") then None else content_of (mem d) <$> r.
Proof.
  intros Hl. destruct (serve_all_inv crc32hash me l new_daemon _ Hl (new_daemon_inv crc32hash me)) as (d & E & Hd & Hid).
  destruct (ddb_init_load crc32hash me d _ Hd) as (d' & E' & (M' & HR' & HM') & Hh' & Hi' & _).
  exists d, d'. split; [done|]. split; [done|]. intros t Ht.
  assert (Hin : t ∈ rev all_tables ++ []).
  { rewrite app_nil_r. apply list_elem_of_In, in_rev. rewrite rev_involutive. by apply list_elem_of_In, elem_of_all_tables. }
  destruct Hd as ((M & HR & HM) & Hh & _). split_and!.
  - rewrite Hh', decide_True by done. by rewrite Hh.
  - intros Hc. rewrite Hi', decide_True, Hid by done. symmetry. by apply (ids_history me t l Hl Hc).
  - intros key Hne Hcs. destruct (find_key_rep crc32hash _ M t key HR Hne Hcs) as (r & Er & Hr & _).
    destruct (find_key_rep crc32hash _ M' t key HR' Hne Hcs) as (r' & Er' & Hr' & _). exists r, r'. split_and!; [done|done|].
    rewrite Hr, Hr', HM', HM, decide_True by done. destruct (decide (lower key = str "*")) as [->|Hk]; [apply lookup_delete_eq|by apply lookup_delete_ne].
Qed.

(** The burst of the file of some registers. *)
Lemma burst_of_file rs id count :
  Forall reg_ok rs -> increasing rs -> 0 <= id ->
  ddb_db_read true id count (file_of rs) =
  Some match from rs id with
       | [] => ([], -1)
       | r :: rest => (take (length (body r)) (r :: rest), if (length (r :: rest) <? length (body r))%nat then 1 else 0)
       end.
Proof.
  intros Hok Hinc Hid. unfold ddb_db_read. change (file_of rs) with (file rs). rewrite (ddb_seek_from rs Hok Hinc) by done.
  pose proof (from_ok rs Hok id) as Hfo. pose proof (from_length rs id) as Hfl. destruct (from rs id) as [|r rest]; [done|].
  cbn [mbind option_bind]. rewrite read_loop_burst; [done|done| |].
  - pose proof (file_long rs). unfold file in *. cbn [length] in Hfl. lia.
  - apply Forall_cons in Hfo as [Hr _]. pose proof (body_long r Hr). lia.
Qed.

Lemma written_file l : Forall reg_ok l -> fold_left (fun file r => ddb_db_write r file) l [] = file_of l.
Proof.
  induction l as [|r l IH] using rev_ind; [done|]. intros [Hl Hr]%Forall_app. rewrite fold_left_snoc, IH by done.
  rewrite Forall_singleton in Hr. exact (ddb_db_write_file r l Hr).
Qed.

(** C17: The burst of a table: from the registers that were written in
    increasing order of their numbers, the bisection finds the first whose
    number is at least the one asked for; it and those after it are sent in
    their order, and the result says whether there was none, that was all, or
    there are more.  How many are sent is not the [count] that the comment of
    [ddb_db_read] and [m_db.c] ask for: the variable is overwritten, and as
    many are sent as the first line has characters, whatever [count] is. *)
Theorem ddb_read_burst rs id count :
  Forall reg_ok rs -> increasing rs -> 0 <= id ->
  ddb_db_read true id count (fold_left (fun file r => ddb_db_write r file) rs []) =
  Some match from rs id with
       | [] => ([], -1)
       | r :: rest => (take (length (body r)) (r :: rest), if (length (r :: rest) <? length (body r))%nat then 1 else 0)
       end.
Proof. intros Hok Hinc Hid. rewrite written_file by done. by apply burst_of_file. Qed.

(** ** Runs *)

Definition disk_l : list ddb_op := ex_registers ++ [ORegister DDB_CHANDB 1 (str "*") (str "#Hello") (Some (str "a b")); ODrop DDB_CHANDB false;
  ORegister DDB_CHANDB 9 (str "*") (str "#Bye") (Some (str "c"))].

Example restart_ex :
  (d ← serve_all crc_table ex_me disk_l new_daemon;
   '(d', bad) ← ddb_init crc_table ex_me d;
   r ← ddb_find_key crc_table DDB_CHANDB (str "#BYE") (mem d');
   Some (option_map (content_of (mem d')) r, ddb_id_table (mem d') DDB_CHANDB, tables_on_disk d' DDB_CHANDB, bad)) =
  Some (Some (str "c"), 9, str "9 * #Bye c" ++ [LF], []).
Proof. vm_compute. reflexivity. Qed.

Definition corrupt_daemon : daemon :=
  {| mem := no_ddbs; tables_on_disk := set_at DDB_CHANDB (str "9 * #Bye c" ++ [LF]) (fun _ => []); hashes_on_disk := new_hashes |}.

(** A table that does not have the hash of the file is emptied. *)
Example corrupt_ex :
  ('(d', bad) ← ddb_init crc_table ex_me corrupt_daemon;
   Some (tables_on_disk d' DDB_CHANDB, ddb_id_table (mem d') DDB_CHANDB, bad)) = Some ([], 0, [DDB_CHANDB]).
Proof. vm_compute. reflexivity. Qed.

Definition burst_l : list register :=
  map (fun i => {| r_id := i; r_mask := str "*"; r_key := str "k"; r_content := None |}) [1; 3; 4; 7; 8; 9; 12; 15; 16].

(** A thousand registers are asked for, and five sent, since the first line
    has five characters. *)
Example burst_ex :
  (l ← ddb_db_read true 3 1000 (file_of burst_l); Some (map r_id l.1, l.2)) = Some ([3; 4; 7; 8; 9], 0).
Proof. vm_compute. reflexivity. Qed.

Lemma word_ok_dec_ok s : bool_decide (s <> [] /\ Forall (fun c => c <> " "%char /\ c <> LF /\ c <> CR /\ c <> NUL) s) = true -> word_ok s.
Proof. intros H. by apply bool_decide_eq_true in H. Qed.

Lemma text_ok_dec_ok s : bool_decide (Forall (fun c => c <> LF /\ c <> CR /\ c <> NUL) s) = true -> text_ok s.
Proof. intros H. by apply bool_decide_eq_true in H. Qed.

Lemma reg_ok_dec_ok r :
  bool_decide (0 < r_id r < 2 ^ 31 /\ (length (body r) <= 501)%nat) = true ->
  bool_decide (r_mask r <> [] /\ Forall (fun c => c <> " "%char /\ c <> LF /\ c <> CR /\ c <> NUL) (r_mask r)) = true ->
  bool_decide (r_key r <> [] /\ Forall (fun c => c <> " "%char /\ c <> LF /\ c <> CR /\ c <> NUL) (r_key r)) = true ->
  bool_decide (Forall (fun c => c <> LF /\ c <> CR /\ c <> NUL) (default [] (r_content r))) = true -> reg_ok r.
Proof.
  intros H1 H2 H3 H4. apply bool_decide_eq_true in H1 as [Hid Hl].
  refine (conj Hid (conj _ (conj _ (conj _ Hl)))); [by apply word_ok_dec_ok|by apply word_ok_dec_ok|].
  intros c Hc. rewrite Hc in H4. by apply text_ok_dec_ok.
Qed.

Lemma request_ok_reg me t id mask key content :
  bool_decide (DDB_INIT <= t <= DDB_END) = true -> reg_ok {| r_id := id; r_mask := mask; r_key := key; r_content := content |} ->
  bool_decide (is_Some (for_me me mask)) = true -> request_ok me (ORegister t id mask key content).
Proof. intros H1 H2 H3. apply bool_decide_eq_true in H1. apply bool_decide_eq_true in H3. done. Qed.

Lemma disk_l_ok : Forall (request_ok ex_me) disk_l.
Proof.
  repeat apply Forall_cons_2; [..|apply Forall_nil_2];
    try (apply request_ok_reg; [vm_compute; reflexivity| |vm_compute; reflexivity]; apply reg_ok_dec_ok; vm_compute; reflexivity).
  split; [cbn; unfold DDB_INIT, DDB_CHANDB, DDB_END; lia|done].
Qed.

Lemma burst_l_ok : Forall reg_ok burst_l.
Proof. repeat apply Forall_cons_2; [..|apply Forall_nil_2]; apply reg_ok_dec_ok; vm_compute; reflexivity. Qed.

Fixpoint increasing_b (rs : list register) : bool :=
  match rs with r :: rs => forallb (fun b => r_id r <? r_id b) rs && increasing_b rs | [] => true end.

Lemma increasing_dec_ok rs : increasing_b rs = true -> increasing rs.
Proof.
  induction rs as [|r rs IH]; intros H i j a b Ha Hb Hij; [done|]. cbn in H. apply andb_true_iff in H as [Hr H].
  destruct j as [|j]; [lia|]. destruct i as [|i].
  - injection Ha as <-. cbn in Hb. rewrite forallb_forall in Hr. apply Z.ltb_lt, Hr, list_elem_of_In. by eapply list_elem_of_lookup_2.
  - apply (IH H i j a b); [done|done|lia].
Qed.

Lemma ddb_restart_witness :
  exists d d', serve_all crc_table ex_me disk_l new_daemon = Some d /\ ddb_init crc_table ex_me d = Some (d', []) /\
    ddb_id_table (mem d') DDB_CHANDB = ddb_id_table (mem d) DDB_CHANDB.
Proof.
  destruct (ddb_restart crc_table ex_me disk_l disk_l_ok) as (d & d' & E & E' & H). exists d, d'. split; [exact E|]. split; [exact E'|].
  apply (H DDB_CHANDB); [unfold DDB_INIT, DDB_CHANDB, DDB_END; lia|]. unfold disk_l, ex_registers. cbn [app].
  repeat apply Forall_cons_2; [..|apply Forall_nil_2]; intros i; discriminate.
Defined.

Lemma ddb_read_burst_witness :
  ddb_db_read true 3 1000 (fold_left (fun file r => ddb_db_write r file) burst_l []) = Some (take 5 (from burst_l 3), 0).
Proof. rewrite (ddb_read_burst burst_l 3 1000 burst_l_ok (increasing_dec_ok burst_l eq_refl) ltac:(lia)). vm_compute. reflexivity. Defined.
