(* ===== verification/Mdb.v ===== *)
(** * The protocol of the database ([ircd/m_db.c], [ircd/ddb.c])

    The DB messages between servers: a server that links sends the number of
    its last register of each table (J), and the other sends the registers
    after it, in bursts, with a B at the end of each when there are more; a
    register is passed on to the servers whose copy is known to be complete,
    those with the bit of the table in [ddb_open].  A node is a daemon with
    its links; two nodes and the messages under way between them are a
    network. *)
From S2P Require Import Prelude Chattr Strings Match Base64 Numnicks Tea Chain Dlist Hash Ddb DdbFile.
From stdpp Require Import options.
Open Scope Z_scope.

(** ** A node *)

(** [cli_serv(&me)->down], the servers with FLAG_HUB, and [ddb_open] of each;
    [nd_hub] is FEAT_HUB. *)
Record node := {
  nd_me : cid;
  nd_hub : bool;
  nd_down : list cid;
  nd_hubs : list cid;
  nd_open : gmap cid Z;
  nd_daemon : daemon;
  nd_dir : nnstate
}.

Definition with_daemon (d : daemon) (nd : node) : node :=
  {| nd_me := nd_me nd; nd_hub := nd_hub nd; nd_down := nd_down nd; nd_hubs := nd_hubs nd; nd_open := nd_open nd; nd_daemon := d; nd_dir := nd_dir nd |}.

Definition with_down (l : list cid) (nd : node) : node :=
  {| nd_me := nd_me nd; nd_hub := nd_hub nd; nd_down := l; nd_hubs := nd_hubs nd; nd_open := nd_open nd; nd_daemon := nd_daemon nd; nd_dir := nd_dir nd |}.

Definition with_open (o : gmap cid Z) (nd : node) : node :=
  {| nd_me := nd_me nd; nd_hub := nd_hub nd; nd_down := nd_down nd; nd_hubs := nd_hubs nd; nd_open := o; nd_daemon := nd_daemon nd; nd_dir := nd_dir nd |}.

Definition cli_name (nd : node) (c : cid) : cstring := match servers (nd_dir nd) !! c with Some sv => sv_name sv | None => [] end.
Definition IsHub (nd : node) (c : cid) : bool := bool_decide (c ∈ nd_hubs nd).
Definition open_of (nd : node) (c : cid) : Z := default 0 (nd_open nd !! c).
Definition open_bits (mask : Z) (c : cid) (nd : node) : node := with_open (<[c := Z.lor (open_of nd c) mask]> (nd_open nd)) nd.
Definition close_bits (mask : Z) (c : cid) (nd : node) : node := with_open (<[c := Z.ldiff (open_of nd c) mask]> (nd_open nd)) nd.
Definition id_of (nd : node) (t : Z) : Z := ddb_id_table (mem (nd_daemon nd)) t.
Definition hash_of (nd : node) (t : Z) : Z * Z := ddb_hashtable (mem (nd_daemon nd)) t.

(** A message: the server it is sent to, the one it is from, and its
    parameters. *)
Record sent := { s_to : cid; s_from : cid; s_params : list cstring }.

Definition send (to from : cid) (params : list cstring) : sent := {| s_to := to; s_from := from; s_params := params |}.

Definition table_mask (t : Z) : Z := if (DDB_INIT <=? t) && (t <=? DDB_END) then Z.shiftl 1 (t - DDB_INIT) else 0.

(** [ddb_splithubs]: [exit_client] takes the server from the list. *)
Fixpoint remove_first (f : cid -> bool) (l : list cid) : list cid :=
  match l with c :: l => if f c then l else c :: remove_first f l | [] => [] end.

Definition ddb_splithubs (cptr : option cid) (nd : node) : node :=
  let num_hubs := length (filter (fun c => IsHub nd c = true) (nd_down nd)) in
  let other c := negb (bool_decide (Some c = cptr)) && IsHub nd c in
  if (2 <=? num_hubs)%nat then with_down (Nat.iter (num_hubs - 1) (remove_first other) (nd_down nd)) nd else nd.

(** [ddb_burst], when a server links. *)
Definition ddb_burst (nd : node) (cptr : cid) : list sent :=
  let j id c := send cptr (nd_me nd) [str "*"; str "0"; str "J"; decimal id; [c]] in
  j (id_of nd DDB_NICKDB) "2"%char ::
  map (fun t => j (id_of nd t) (chr t)) (filter (fun t => t <> DDB_NICKDB) all_tables).

(** ** [ms_db] *)

Section ms_db.
Context (crc32hash : list Z).

Definition me_name (nd : node) : cstring := cli_name nd (nd_me nd).

(** What [ddb_db_read] sends for a register. *)
Definition register_params (t : Z) (r : register) : list cstring :=
  [r_mask r; decimal (w32 (r_id r)); [chr t]; r_key r] ++ match r_content r with Some c => [c] | None => [] end.

Definition hash12 (h : Z * Z) : cstring := inttobase64 h.1 6 ++ inttobase64 h.2 6.

(** The J command. *)
Definition ms_db_join (cptr : cid) (id t : Z) (nd : node) : option (node * list sent) :=
  let mask := table_mask t in
  if id_of nd t <=? id then Some (open_bits mask cptr nd, [])
  else if negb (Z.land (open_of nd cptr) mask =? 0) then
    Some (close_bits mask cptr nd, [send cptr (nd_me nd) [cli_name nd cptr; str "0"; str "D"; str "DDB_CORRUPT"; [chr t]]])
  else
    '(rs, end_burst) ← ddb_db_read true (id + 1) 1000 (tables_on_disk (nd_daemon nd) t);
    let burst := map (fun r => send cptr (nd_me nd) (register_params t r)) rs in
    if end_burst =? 1 then
      let nd := open_bits (Z.shiftl 1 (t - DDB_INIT)) cptr nd in
      if IsHub nd cptr then Some (nd, burst)
      else Some (nd, burst ++ [send cptr (nd_me nd) [cli_name nd cptr; str "0"; str "H"; hash12 (hash_of nd t); [chr t]]])
    else if end_burst =? 0 then
      Some (nd, burst ++ [send cptr (nd_me nd) [cli_name nd cptr; str "0"; str "B"; decimal (w32 (id_of nd t)); [chr t]]])
    else Some (nd, burst).

(** The D command.  [None]: the file of no table is truncated, and the daemon
    ends. *)
Definition ms_db_drop (cptr sptr : cid) (mask arg : cstring) (t : Z) (nd : node) : option (node * list sent) :=
  if negb (IsHub nd cptr) then Some (nd, [])
  else
    let others := filter (fun c => c <> cptr) (nd_down nd) in
    let out := map (fun c => send c sptr [mask; str "0"; str "D"; arg; [chr t]]) others in
    let nd := fold_left (fun nd c => close_bits (table_mask t) c nd) others nd in
    mine ← for_me (me_name nd) mask;
    '(nd, answer) ← (if mine : bool then
                       if (DDB_INIT <=? t) && (t <=? DDB_END) then
                         d ← serve crc32hash (me_name nd) (ODrop t false) (nd_daemon nd);
                         Some (ddb_splithubs (Some cptr) (with_daemon d nd),
                               [send cptr (nd_me nd) [cli_name nd cptr; str "0"; str "E"; arg; [chr t]]])
                       else None
                     else Some (nd, []));
    Some (nd, out ++ answer ++ [send cptr (nd_me nd) [cli_name nd cptr; str "0"; str "J"; decimal (id_of nd t); [chr t]]]).

(** The E and R commands. *)
Definition ms_db_response (sptr : cid) (what : cstring) (mask arg : cstring) (t : Z) (nd : node) : list sent :=
  match find_match_server (nd_dir nd) mask with
  | Some acptr => if decide (acptr = nd_me nd) then [] else [send acptr sptr [cli_name nd acptr; str "0"; what; arg; [chr t]]]
  | None => []
  end.

(** The numbers and the hash of all the tables, in 32 bits. *)
Definition all_hashes (nd : node) : Z * Z * (Z * Z) :=
  fold_left (fun '(ids, counts, h) t =>
      (w32 (ids * (id_of nd t + 1)), w32 (counts * w32 (ddb_count_table (mem (nd_daemon nd)) t + 1)),
       (Z.lxor h.1 (hash_of nd t).1, Z.lxor h.2 (hash_of nd t).2)))
    all_tables (1, 1, (0, 0)).

(** The Q command. *)
Definition ms_db_query (cptr sptr : cid) (mask arg : cstring) (t : Z) (nd : node) : option (node * list sent) :=
  if negb (IsHub nd cptr) then Some (nd, [])
  else
    mine ← for_me (me_name nd) mask;
    let report ids counts h :=
      [send sptr (nd_me nd) [cli_name nd sptr; str "0"; str "R";
         decimal ids ++ str "-" ++ decimal counts ++ str "-" ++ hash12 h ++ str "-" ++ arg; [chr t]]] in
    let answer :=
      if mine : bool then
        if t =? code "*" then let '(ids, counts, h) := all_hashes nd in report ids counts h
        else report (id_of nd t) (w32 (ddb_count_table (mem (nd_daemon nd)) t)) (hash_of nd t)
      else [] in
    Some (nd, answer ++ map (fun c => send c sptr [mask; str "0"; str "Q"; arg; [chr t]]) (filter (fun c => c <> cptr) (nd_down nd))).

Definition ms_db_command (cptr sptr : cid) (parv : list cstring) (nd : node) : option (node * list sent) :=
  let arg := nth 4 parv [] in
  let id := atoi arg mod 2 ^ 64 in
  let cmd := deref (nth 3 parv []) in
  let t := code (deref (nth 5 parv [])) in
  let table :=
    if (length parv =? 6)%nat then
      if (t <? DDB_INIT) || (DDB_END <? t) then
        if (t =? code "*") && ((cmd =c "Q") || (cmd =c "R")) then Some t
        else if (t <? code "2") || (code "9" <? t) || negb (cmd =c "J") then None
        else Some DDB_NICKDB
      else Some t
    else Some 0 in
  match table with
  | None => Some (nd, [])
  | Some t =>
      if cmd =c "B" then
        Some (nd, if IsHub nd cptr then [send sptr (nd_me nd) [nth 0 parv []; str "0"; str "J"; decimal (id_of nd t); [chr t]]] else [])
      else if cmd =c "D" then ms_db_drop cptr sptr (nth 1 parv []) arg t nd
      else if cmd =c "E" then Some (nd, ms_db_response sptr (str "E") (nth 1 parv []) arg t nd)
      else if cmd =c "H" then Some (nd, [])
      else if cmd =c "J" then ms_db_join cptr id t nd
      else if cmd =c "Q" then ms_db_query cptr sptr (nth 1 parv []) arg t nd
      else if cmd =c "R" then Some (nd, ms_db_response sptr (str "R") (nth 1 parv []) arg t nd)
      else Some (nd, [])
  end.

(** A new register, or a packing. *)
Definition ms_db_register (cptr sptr : cid) (id : Z) (parv : list cstring) (nd : node) : option (node * list sent) :=
  if negb (IsHub nd cptr) then Some (nd, [])
  else
    let letter := nth 3 parv [] in
    let t := code (deref letter) in
    let table := if (t <? DDB_INIT) || (DDB_END <? t) then (if t =? code "N" then Some DDB_NICKDB else None) else Some t in
    match table with
    | None => Some (nd, [])
    | Some t =>
        if id <=? id_of nd t then Some (nd, [])
        else
          let content := nth_error parv 5 in
          let to := filter (fun c => Z.land (open_of nd c) (table_mask t) <> 0 /\ c <> cptr) (nd_down nd) in
          let out := map (fun c => send c sptr ([nth 1 parv []; decimal id; letter; nth 4 parv []] ++
                                                match content with Some s => [s] | None => [] end)) to in
          let o := if decide (nth 4 parv [] = str "*") then OCompact t id
                   else ORegister t id (nth 1 parv []) (nth 4 parv []) content in
          d ← serve crc32hash (me_name nd) o (nd_daemon nd);
          Some (with_daemon d nd, out)
    end.

(** [None]: an empty fourth parameter is read past its end, or the daemon
    ends. *)
Definition ms_db (cptr sptr : cid) (parv : list cstring) (nd : node) : option (node * list sent) :=
  if (length parv <? 5)%nat then Some (nd, [])
  else if (length (nth 3 parv []) =? 0)%nat then None
  else if negb (char_at (nth 3 parv []) 1 =c NUL) then Some (nd, [])
  else
    let id := atol (nth 2 parv []) mod 2 ^ 64 in
    if id =? 0 then ms_db_command cptr sptr parv nd else ms_db_register cptr sptr id parv nd.
End ms_db.

(** ** Two linked servers *)

(** The servers, each with the number the other knows it by, and the messages
    under way in each direction. *)
Record net := { hub : node; leaf : node; to_hub : list (list cstring); to_leaf : list (list cstring) }.

Section network.
Context (crc32hash : list Z) (h l : cid).

Definition sent_to (c : cid) (out : list sent) : list (list cstring) := map s_params (filter (fun s => s_to s = c) out).

(** When the link is up, each sends the numbers of its tables. *)
Definition link (H L : node) : net :=
  {| hub := H; leaf := L; to_hub := sent_to h (ddb_burst L h); to_leaf := sent_to l (ddb_burst H l) |}.

Definition deliver_leaf (m : list cstring) (q : list (list cstring)) (s : net) : option net :=
  '(nd, out) ← ms_db crc32hash h h (cli_name (leaf s) h :: m) (leaf s);
  Some {| hub := hub s; leaf := nd; to_hub := to_hub s ++ sent_to h out; to_leaf := q |}.

Definition deliver_hub (m : list cstring) (q : list (list cstring)) (s : net) : option net :=
  '(nd, out) ← ms_db crc32hash l l (cli_name (hub s) l :: m) (hub s);
  Some {| hub := nd; leaf := leaf s; to_hub := q; to_leaf := to_leaf s ++ sent_to l out |}.

(** One message arrives, at the leaf if [b] and there is one. *)
Definition net_step (b : bool) (s : net) : option net :=
  match b, to_leaf s, to_hub s with
  | true, m :: q, _ | false, m :: q, [] => deliver_leaf m q s
  | false, _, m :: q | true, [], m :: q => deliver_hub m q s
  | _, [], [] => Some s
  end.

Fixpoint run_net (sched : list bool) (s : net) : option net :=
  match sched with [] => Some s | b :: sched => s ← net_step b s; run_net sched s end.
End network.

(** ** The messages as data *)

Inductive dbmsg :=
  | MJ (name : cstring) (letter : ascii) (id : Z)
  | MB (name arg : cstring) (t : Z)
  | MH (name hash : cstring) (t : Z)
  | MR (t : Z) (r : register).

Definition params (m : dbmsg) : list cstring :=
  match m with
  | MJ name c id => [name; str "0"; str "J"; decimal id; [c]]
  | MB name arg t => [name; str "0"; str "B"; arg; [chr t]]
  | MH name hash t => [name; str "0"; str "H"; hash; [chr t]]
  | MR t r => register_params t r
  end.

Definition letter_table (c : ascii) : Z := if (DDB_INIT <=? code c) && (code c <=? DDB_END) then code c else DDB_NICKDB.

Definition msg_table (m : dbmsg) : Z :=
  match m with MJ _ c _ => letter_table c | MB _ _ t | MH _ _ t | MR t _ => t end.

Definition letter_ok (c : ascii) : Prop := DDB_INIT <= code c <= DDB_END \/ code "2" <= code c <= code "9".

Lemma letter_chr t : DDB_INIT <= t <= DDB_END -> letter_ok (chr t) /\ letter_table (chr t) = t.
Proof.
  unfold letter_ok, letter_table, DDB_INIT, DDB_END. intros Ht. rewrite code_chr by lia. split; [by left|].
  rewrite (proj2 (Z.leb_le _ _)), (proj2 (Z.leb_le _ _)) by lia. done.
Qed.

Lemma letter_range c : letter_ok c -> DDB_INIT <= letter_table c <= DDB_END.
Proof. unfold letter_table, letter_ok, DDB_NICKDB, DDB_INIT, DDB_END. intros _. destruct (Z.leb_spec 97 (code c)), (Z.leb_spec (code c) 122); cbn; lia. Qed.

Lemma atoi_decimal z : 0 <= z < 2 ^ 31 -> atoi (decimal z) = z.
Proof.
  intros Hz. unfold atoi. rewrite <- (app_nil_r (decimal z)), atol_decimal by (done || lia). rewrite w32_small by lia.
  by rewrite (proj2 (Z.ltb_lt _ _)) by lia.
Qed.

Lemma not_between t : DDB_INIT <= t <= DDB_END -> (t <? DDB_INIT) || (DDB_END <? t) = false.
Proof. intros [H1 H2]. by rewrite (proj2 (Z.ltb_ge _ _) H1), (proj2 (Z.ltb_ge _ _) H2). Qed.

Section handlers.
Context (crc32hash : list Z).

Lemma ms_db_zero c s p name cmd arg letter nd : cmd <> [] -> char_at cmd 1 = NUL ->
  ms_db crc32hash c s [p; name; str "0"; cmd; arg; letter] nd = ms_db_command crc32hash c s [p; name; str "0"; cmd; arg; letter] nd.
Proof.
  intros Hne Hc. unfold ms_db. cbn [length nth]. rewrite Hc. destruct cmd; [done|]. done.
Qed.

Lemma ms_db_J c s p name letter id nd : letter_ok letter -> 0 <= id < 2 ^ 31 ->
  ms_db crc32hash c s (p :: params (MJ name letter id)) nd = ms_db_join c id (letter_table letter) nd.
Proof.
  intros Hl Hid. cbn [params]. rewrite ms_db_zero by done. unfold ms_db_command. cbn [length nth Nat.eqb].
  rewrite atoi_decimal by done. rewrite Z.mod_small by lia. change (deref (str "J")) with "J"%char. change (deref [letter]) with letter.
  unfold letter_table. destruct Hl as [[H1 H2]|[H1 H2]].
  - rewrite not_between by done. by rewrite (proj2 (Z.leb_le _ _) H1), (proj2 (Z.leb_le _ _) H2).
  - change (code "2") with 50 in *. change (code "9") with 57 in *. change (code "*") with 42. unfold DDB_INIT, DDB_END.
    rewrite (proj2 (Z.ltb_lt (code letter) 97)), (proj2 (Z.eqb_neq (code letter) 42)) by lia.
    rewrite (proj2 (Z.ltb_ge (code letter) 50)), (proj2 (Z.ltb_ge 57 (code letter))), (proj2 (Z.leb_gt 97 (code letter))) by lia. done.
Qed.

Lemma ms_db_B c s p name arg t nd : DDB_INIT <= t <= DDB_END ->
  ms_db crc32hash c s (p :: params (MB name arg t)) nd =
  Some (nd, if IsHub nd c then map (fun m => send s (nd_me nd) (params m)) [MJ p (chr t) (id_of nd t)] else []).
Proof.
  intros Ht. cbn [params]. rewrite ms_db_zero by done. unfold ms_db_command. cbn [length nth Nat.eqb]. change (deref [chr t]) with (chr t).
  rewrite code_chr by (unfold DDB_INIT, DDB_END in Ht; lia). by rewrite not_between.
Qed.

Lemma ms_db_H c s p name hash t nd : DDB_INIT <= t <= DDB_END ->
  ms_db crc32hash c s (p :: params (MH name hash t)) nd = Some (nd, []).
Proof.
  intros Ht. cbn [params]. rewrite ms_db_zero by done. unfold ms_db_command. cbn [length nth Nat.eqb]. change (deref [chr t]) with (chr t).
  rewrite code_chr by (unfold DDB_INIT, DDB_END in Ht; lia). by rewrite not_between.
Qed.

(** A register that is new, with what is passed on to the others. *)
Lemma ms_db_R c s p t r nd d : DDB_INIT <= t <= DDB_END -> reg_ok r -> r_key r <> str "*" -> IsHub nd c = true -> id_of nd t < r_id r ->
  serve crc32hash (me_name nd) (ORegister t (r_id r) (r_mask r) (r_key r) (r_content r)) (nd_daemon nd) = Some d ->
  exists out, ms_db crc32hash c s (p :: params (MR t r)) nd = Some (with_daemon d nd, out) /\ Forall (fun m => s_to m <> c) out.
Proof.
  intros Ht (Hid & _) Hk Hh Hlt Hs. cbn [params]. unfold register_params. rewrite w32_small by lia.
  assert (Hlen : exists n, length (p :: [r_mask r; decimal (r_id r); [chr t]; r_key r] ++ match r_content r with Some c => [c] | None => [] end) = S (S (S (S (S n))))).
  { destruct (r_content r); cbn [length app]; by eexists. }
  destruct Hlen as [n Hlen]. unfold ms_db. rewrite Hlen. cbn [app nth length Nat.ltb Nat.leb Nat.eqb].
  change (char_at [chr t] 1 =c NUL) with true. cbn [negb].
  rewrite <- (app_nil_r (decimal (r_id r))), atol_decimal by (done || lia). rewrite app_nil_r.
  rewrite Z.mod_small, (proj2 (Z.eqb_neq _ _)) by lia.
  unfold ms_db_register. rewrite Hh. cbn [negb nth]. change (deref [chr t]) with (chr t).
  rewrite code_chr by (unfold DDB_INIT, DDB_END in Ht; lia). rewrite not_between by done.
  rewrite (proj2 (Z.leb_gt _ _)) by lia. rewrite decide_False by done.
  replace (nth_error _ 5) with (r_content r) by (by destruct (r_content r)).
  rewrite Hs. cbn [mbind option_bind]. eexists. split; [done|]. apply Forall_forall. intros m Hm.
  apply list_elem_of_fmap in Hm as (c' & -> & [[_ Hne] _]%list_elem_of_filter). done.
Qed.
End handlers.

(** ** The invariant of a network that synchronises *)

Lemma daemon_inv_ext crc32hash me d R R' : (forall t, R t = R' t) -> daemon_inv crc32hash me d R -> daemon_inv crc32hash me d R'.
Proof.
  intros E ((M & HR & HM) & Hh & Hf & Hl & Hr). split_and!; [| | |done|].
  - exists M. split; [done|]. intros t. by rewrite <- E.
  - intros t. by rewrite <- E.
  - intros t. by rewrite <- E.
  - intros t Ht. rewrite <- E. by apply Hr.
Qed.

(** *** Increasing numbers *)

Lemma id_after_snoc rs r : id_after (rs ++ [r]) = r_id r.
Proof. unfold id_after. by rewrite fold_left_snoc. Qed.

Lemma id_after_range rs : Forall reg_ok rs -> 0 <= id_after rs < 2 ^ 31.
Proof.
  intros Hok. destruct rs as [|r rs _] using rev_ind; [done|]. rewrite id_after_snoc. apply Forall_app in Hok as [_ Hr].
  rewrite Forall_singleton in Hr. destruct Hr as [Hr _]. lia.
Qed.

Section numbers.
Context (rs : list register) (Hok : Forall reg_ok rs) (Hinc : increasing rs).

Lemma id_after_take k r : rs !! k = Some r -> id_after (take (S k) rs) = r_id r.
Proof using. intros E. by rewrite (take_S_r _ _ _ E), id_after_snoc. Qed.

Lemma id_take_lt k j r : rs !! j = Some r -> (k <= j)%nat -> id_after (take k rs) < r_id r.
Proof using Hok Hinc.
  intros E Hk. destruct k as [|k].
  - change (id_after (take 0 rs)) with 0. rewrite Forall_forall in Hok. destruct (Hok r) as [H _]; [by eapply list_elem_of_lookup_2|]. lia.
  - destruct (lookup_lt_is_Some_2 rs k) as [r' E']; [apply lookup_lt_Some in E; lia|]. rewrite (id_after_take k r' E').
    by apply (Hinc k j).
Qed.

Lemma id_take_le k : id_after (take k rs) <= id_after rs.
Proof using Hok Hinc.
  destruct (decide (length rs <= k)%nat) as [Hk|Hk]; [by rewrite take_ge|].
  destruct (lookup_lt_is_Some_2 rs (length rs - 1)) as [r E]; [lia|].
  rewrite <- (take_ge rs (S (length rs - 1))) at 2 by lia. rewrite (id_after_take _ _ E). pose proof (id_take_lt k _ r E). lia.
Qed.

(** The registers after the first [k]. *)
Lemma from_take k : (k <= length rs)%nat -> from rs (id_after (take k rs) + 1) = drop k rs.
Proof using Hok Hinc.
  intros Hk. symmetry. apply filter_from.
  - intros j r E Hj. assert (r_id r <= id_after (take k rs)); [|lia].
    destruct k as [|k]; [lia|]. destruct (lookup_lt_is_Some_2 rs k) as [r' E']; [lia|]. rewrite (id_after_take k r' E').
    destruct (decide (j = k)) as [->|Hne]; [replace r' with r by congruence; lia|]. pose proof (Hinc j k r r' E E'). lia.
  - intros j r E Hj. pose proof (id_take_lt k j r E Hj). lia.
Qed.

Lemma id_end k : (k < length rs)%nat -> id_after (take k rs) < id_after rs.
Proof using Hok Hinc.
  intros Hk. destruct (lookup_lt_is_Some_2 rs (length rs - 1)) as [r E]; [lia|].
  rewrite <- (take_ge rs (S (length rs - 1))) at 2 by lia. rewrite (id_after_take _ _ E). apply (id_take_lt k _ r E). lia.
Qed.
End numbers.

(** *** The sum of the ranks of the tables *)

Definition total (rank : Z -> nat) : nat := sum_list (map rank all_tables).

Definition upd_at {A} (t : Z) (v : A) (f : Z -> A) : Z -> A := fun t' => if decide (t' = t) then v else f t'.

Lemma upd_at_eq {A} t (v : A) f : upd_at t v f t = v.
Proof. unfold upd_at. by rewrite decide_True. Qed.

Lemma upd_at_ne {A} t t' (v : A) f : t' <> t -> upd_at t v f t' = f t'.
Proof. intros H. unfold upd_at. by rewrite decide_False. Qed.

Lemma sum_upd_other t v rank l : t ∉ l -> sum_list (map (upd_at t v rank) l) = sum_list (map rank l).
Proof.
  induction l as [|x l IH]; [done|]. intros Ht. apply not_elem_of_cons in Ht as [Hx Hl]. cbn [map sum_list]. unfold sum_list in *. cbn [foldr].
  rewrite upd_at_ne by done. rewrite (IH Hl). done.
Qed.

Lemma sum_upd t v rank l : NoDup l -> t ∈ l -> (sum_list (map (upd_at t v rank) l) + rank t = sum_list (map rank l) + v)%nat.
Proof.
  induction 1 as [|x l Hx _ IH]; [by intros ?%elem_of_nil|]. intros [->|Ht]%elem_of_cons; cbn [map]; change (sum_list (?a :: ?b)) with (a + sum_list b)%nat.
  - rewrite upd_at_eq, sum_upd_other by done. lia.
  - assert (t <> x) by (by intros ->). rewrite upd_at_ne by done. specialize (IH Ht). lia.
Qed.

Lemma total_upd t v rank : DDB_INIT <= t <= DDB_END -> (total (upd_at t v rank) + rank t = total rank + v)%nat.
Proof. intros Ht. apply sum_upd; [apply all_tables_nodup|by apply elem_of_all_tables]. Qed.

(** *** The bits of the tables *)

Definition table_bit (z t : Z) : bool := Z.testbit z (t - DDB_INIT).

Lemma mask_bit t t' : DDB_INIT <= t <= DDB_END -> DDB_INIT <= t' <= DDB_END -> table_bit (table_mask t) t' = bool_decide (t' = t).
Proof.
  intros Ht Ht'. unfold table_bit, table_mask. rewrite (proj2 (Z.leb_le _ _) (proj1 Ht)), (proj2 (Z.leb_le _ _) (proj2 Ht)).
  cbn [andb]. unfold DDB_INIT, DDB_END in *. rewrite Z.shiftl_1_l, Z.pow2_bits_eqb by lia.
  destruct (Z.eqb_spec (t - 97) (t' - 97)); [rewrite bool_decide_true by lia|rewrite bool_decide_false by lia]; done.
Qed.

Lemma land_mask_bit z t : DDB_INIT <= t <= DDB_END -> (Z.land z (table_mask t) =? 0) = negb (table_bit z t).
Proof.
  intros Ht. unfold table_bit, table_mask. rewrite (proj2 (Z.leb_le _ _) (proj1 Ht)), (proj2 (Z.leb_le _ _) (proj2 Ht)). cbn [andb].
  unfold DDB_INIT, DDB_END in *. rewrite Z.shiftl_1_l. destruct (Z.testbit z (t - 97)) eqn:E; cbn [negb].
  - apply Z.eqb_neq. intros H. apply (f_equal (fun x => Z.testbit x (t - 97))) in H.
    rewrite Z.land_spec, E, Z.pow2_bits_true, Z.bits_0 in H by lia. done.
  - apply Z.eqb_eq. apply Z.bits_inj'. intros n Hn. rewrite Z.land_spec, Z.bits_0. destruct (Z.eq_dec n (t - 97)) as [->|Hne]; [by rewrite E|].
    by rewrite Z.pow2_bits_false, andb_false_r by lia.
Qed.

Lemma open_bit_after nd c t t' : DDB_INIT <= t <= DDB_END -> DDB_INIT <= t' <= DDB_END ->
  table_bit (open_of (open_bits (table_mask t) c nd) c) t' = table_bit (open_of nd c) t' || bool_decide (t' = t).
Proof.
  intros Ht Ht'. unfold open_of at 1, open_bits, with_open. cbn [nd_open]. rewrite lookup_insert_eq. cbn [default].
  rewrite <- (mask_bit t t') by done. apply Z.lor_spec.
Qed.

Section sync.
Context (crc32hash : list Z) (h l : cid) (hubname leafname : cstring) (R : Z -> list register).
Context (R_ok : forall t, Forall reg_ok (R t)).
Context (R_key : forall t, Forall (fun r => r_key r <> str "*") (R t)).
Context (R_inc : forall t, increasing (R t)).
Context (R_leaf : forall t, Forall (fun r => is_Some (for_me leafname (r_mask r))) (R t)).

Definition is_join (m : dbmsg) : bool := match m with MJ _ _ _ => true | _ => false end.
Definition of_table (t : Z) (q : list dbmsg) : list dbmsg := filter (fun m => msg_table m = t) q.
Definition flow (t : Z) (q : list dbmsg) : list dbmsg := filter (fun m => msg_table m = t /\ is_join m = false) q.

(** What is under way of the table [t], when the leaf has the first [k] of
    its registers: a request; the registers of a burst and its end; or the
    last registers, when the hub has taken the table as complete. *)
Inductive phase (t : Z) : nat -> bool -> list dbmsg -> list dbmsg -> nat -> Prop :=
  | ph_asked k name c : (k <= length (R t))%nat -> letter_ok c -> letter_table c = t ->
      phase t k false [MJ name c (id_after (take k (R t)))] [] (3 * (length (R t) - k) + 2)
  | ph_burst k j name arg : (k + j <= length (R t))%nat ->
      phase t k false [] (map (MR t) (take j (drop k (R t))) ++ [MB name arg t]) (3 * (length (R t) - k - j) + j + 3)
  | ph_last k tail : (k <= length (R t))%nat -> (tail = [] \/ exists name hash, tail = [MH name hash t]) ->
      phase t k true [] (map (MR t) (drop k (R t)) ++ tail) (length (R t) - k + length tail).

Definition hub_ok (H : node) : Prop :=
  me_name H = hubname /\ daemon_inv crc32hash hubname (nd_daemon H) R /\ forall t, id_of H t = id_after (R t).

Definition leaf_ok (L : node) (k : Z -> nat) : Prop :=
  me_name L = leafname /\ IsHub L h = true /\ daemon_inv crc32hash leafname (nd_daemon L) (fun t => take (k t) (R t)) /\
  forall t, id_of L t = id_after (take (k t) (R t)).

Definition msg_ok (m : dbmsg) : Prop :=
  DDB_INIT <= msg_table m <= DDB_END /\
  match m with MJ _ c id => letter_ok c /\ id = id_after (R (letter_table c)) | _ => True end.

Record net_inv (s : net) (mh ml : list dbmsg) (k rank : Z -> nat) : Prop := {
  ni_hub : hub_ok (hub s);
  ni_leaf : leaf_ok (leaf s) k;
  ni_to_hub : to_hub s = map params mh;
  ni_to_leaf : to_leaf s = map params ml;
  ni_joins : Forall (fun m => is_join m = true) mh;
  ni_range : Forall (fun m => DDB_INIT <= msg_table m <= DDB_END) mh;
  ni_msgs : Forall msg_ok ml;
  ni_phase : forall t, DDB_INIT <= t <= DDB_END ->
    phase t (k t) (table_bit (open_of (hub s) l) t) (of_table t mh) (flow t ml) (rank t)
}.

(** What is left to do. *)
Definition work (ml : list dbmsg) (rank : Z -> nat) : nat := (total rank + length (filter (fun m => is_join m = true) ml))%nat.

Lemma sent_to_params c from ms : sent_to c (map (fun m => send c from (params m)) ms) = map params ms.
Proof using. unfold sent_to. induction ms as [|m ms IH]; [done|]. cbn [map]. rewrite filter_cons_True by done. cbn [map s_params send]. by rewrite IH. Qed.

Lemma sent_to_none c out : Forall (fun m => s_to m <> c) out -> sent_to c out = [].
Proof using. intros H. unfold sent_to. by rewrite filter_none_of. Qed.

Lemma flow_app t q1 q2 : flow t (q1 ++ q2) = flow t q1 ++ flow t q2.
Proof using. apply filter_app. Qed.

Lemma flow_other t t' q : Forall (fun m => msg_table m = t') q -> t' <> t -> flow t q = [].
Proof using. intros H Hne. apply filter_none_of. eapply Forall_impl; [exact H|]. intros m <- [? _]. congruence. Qed.

Lemma flow_same t q : Forall (fun m => msg_table m = t) q -> Forall (fun m => is_join m = false) q -> flow t q = q.
Proof using.
  intros H1 H2. apply filter_every. apply Forall_forall. intros m Hm. rewrite Forall_forall in H1. rewrite Forall_forall in H2. auto.
Qed.

Lemma work_app ml out rank : Forall (fun m => is_join m = false) out -> work (ml ++ out) rank = work ml rank.
Proof using.
  intros H. unfold work. rewrite filter_app, length_app, (filter_none_of _ out); [cbn [length]; lia|].
  eapply Forall_impl; [exact H|]. intros m Hm. congruence.
Qed.

Lemma hub_ok_open H t : hub_ok H -> hub_ok (open_bits t l H).
Proof using. by intros (? & ? & ?). Qed.

Lemma table_mask_in t : DDB_INIT <= t <= DDB_END -> table_mask t = Z.shiftl 1 (t - DDB_INIT).
Proof using. intros [H1 H2]. unfold table_mask. by rewrite (proj2 (Z.leb_le _ _) H1), (proj2 (Z.leb_le _ _) H2). Qed.

Lemma burst_messages H t rs :
  map (fun r => send l (nd_me H) (register_params t r)) rs = map (fun m => send l (nd_me H) (params m)) (map (MR t) rs).
Proof using. by rewrite map_map. Qed.

(** *** A request arrives at the hub *)
Lemma hub_join H t k : hub_ok H -> DDB_INIT <= t <= DDB_END -> (k <= length (R t))%nat -> table_bit (open_of H l) t = false ->
  exists H' opened out rk, ms_db_join l (id_after (take k (R t))) t H = Some (H', map (fun m => send l (nd_me H) (params m)) out) /\
    hub_ok H' /\ (forall t', DDB_INIT <= t' <= DDB_END -> table_bit (open_of H' l) t' = table_bit (open_of H l) t' || (opened && bool_decide (t' = t))) /\
    phase t k opened [] out rk /\ (rk < 3 * (length (R t) - k) + 2)%nat /\
    Forall (fun m => msg_table m = t) out /\ Forall (fun m => is_join m = false) out /\ Forall msg_ok out.
Proof using R_ok R_inc.
  intros HH Ht Hk Hbit. pose proof HH as (Hname & Hinv & Hid). unfold ms_db_join. rewrite Hid.
  assert (Hopen : forall t', DDB_INIT <= t' <= DDB_END ->
            table_bit (open_of (open_bits (table_mask t) l H) l) t' = table_bit (open_of H l) t' || (true && bool_decide (t' = t))).
  { intros t' Ht'. by rewrite open_bit_after. }
  destruct (decide (k = length (R t))) as [->|Hne].
  - rewrite take_ge, (proj2 (Z.leb_le _ _)) by lia. eexists _, true, [], _. split; [done|]. split; [by apply hub_ok_open|]. split; [exact Hopen|].
    split; [|split_and!; [|constructor..]].
    + pose proof (ph_last t (length (R t)) [] ltac:(lia) (or_introl eq_refl)) as P. rewrite drop_all in P. exact P.
    + cbn [length]. lia.
  - rewrite (proj2 (Z.leb_gt _ _)) by (by apply id_end; [| |lia]).
    rewrite land_mask_bit, Hbit by done. cbn [negb].
    destruct Hinv as (_ & _ & Hf & _). destruct (Hf t) as (_ & _ & ->).
    pose proof (id_after_range (take k (R t)) ltac:(by apply Forall_take)) as Hr.
    rewrite burst_of_file by (done || lia). rewrite from_take by done.
    destruct (drop k (R t)) as [|r rest] eqn:Ed.
    { apply (f_equal length) in Ed. rewrite length_drop in Ed. cbn [length] in Ed. lia. }
    cbn [mbind option_bind]. set (c := length (body r)).
    assert (Hr1 : reg_ok r) by (pose proof (Forall_drop _ k _ (R_ok t)) as Hd; rewrite Ed in Hd; by apply Forall_cons in Hd as [? _]).
    assert (Hc : (5 <= c)%nat) by (by apply body_long).
    assert (Hlen : length (r :: rest) = (length (R t) - k)%nat) by (by rewrite <- Ed, length_drop).
    assert (Hmr : forall rs, Forall (fun m => msg_table m = t) (map (MR t) rs) /\ Forall (fun m => is_join m = false) (map (MR t) rs) /\ Forall msg_ok (map (MR t) rs)).
    { intros rs. split_and!; apply Forall_forall; intros m Hm; apply list_elem_of_fmap in Hm as (r' & -> & _); done. }
    rewrite Hlen. destruct (Nat.ltb_spec (length (R t) - k) c) as [Hlt|Hge]; cbn [Z.eqb].
    + rewrite take_ge by (rewrite Hlen; lia). rewrite <- table_mask_in by done. rewrite burst_messages.
      set (tail := if IsHub H l then [] else [MH (cli_name H l) (hash12 (hash_of H t)) t]).
      eexists (open_bits (table_mask t) l H), true, (map (MR t) (r :: rest) ++ tail), _.
      assert (Htail : tail = [] \/ exists name hash, tail = [MH name hash t]) by (unfold tail; destruct (IsHub H l); [by left|right; by eexists _, _]).
      split. { rewrite map_app. unfold tail. change (IsHub (open_bits (table_mask t) l H) l) with (IsHub H l). destruct (IsHub H l); [by rewrite app_nil_r|done]. }
      split; [by apply hub_ok_open|]. split; [exact Hopen|]. destruct (Hmr (r :: rest)) as (M1 & M2 & M3).
      assert (Hl1 : (length tail <= 1)%nat) by (destruct Htail as [->|(? & ? & ->)]; cbn; lia).
      split; [rewrite <- Ed; by apply ph_last|]. split; [lia|].
      destruct Htail as [->|(name & hash & ->)]; [by rewrite app_nil_r|].
      split_and!; apply Forall_app; (split; [done|]); by apply Forall_singleton.
    + rewrite burst_messages. eexists H, false, (map (MR t) (take c (r :: rest)) ++ [MB (cli_name H l) (decimal (w32 (id_after (R t)))) t]), _.
      split; [by rewrite map_app|]. split; [done|]. split; [intros t' _; by rewrite orb_false_r|]. destruct (Hmr (take c (r :: rest))) as (M1 & M2 & M3).
      split; [rewrite <- Ed; apply ph_burst; lia|]. split; [lia|].
      split_and!; apply Forall_app; (split; [done|]); by apply Forall_singleton.
Qed.

(** *** What the phases say of the next message *)

Lemma phase_MR t k b th r fl rk : phase t k b th (MR t r :: fl) rk ->
  R t !! k = Some r /\ exists rk', phase t (S k) b th fl rk' /\ (rk' < rk)%nat.
Proof using.
  intros H. inversion H as [| k' j name arg Hk E1 E2 E3 E4 E5 | k' tail Hk Ht E1 E2 E3 E4 E5]; subst.
  - destruct j as [|j]; [done|]. destruct (drop k (R t)) as [|r' rest] eqn:Ed; [done|]. cbn [take map app] in E4. injection E4 as -> <-.
    assert (Er : R t !! k = Some r) by (by rewrite <- (Nat.add_0_r k), <- lookup_drop, Ed). split; [done|].
    rewrite (drop_S _ _ _ Er) in Ed. injection Ed as <-. eexists. split; [apply ph_burst; lia|]. lia.
  - destruct (drop k (R t)) as [|r' rest] eqn:Ed.
    { cbn [map app] in E4. by destruct Ht as [->|(? & ? & ->)]. }
    cbn [map app] in E4. injection E4 as -> <-. assert (Er : R t !! k = Some r) by (by rewrite <- (Nat.add_0_r k), <- lookup_drop, Ed). split; [done|].
    pose proof (lookup_lt_Some _ _ _ Er). rewrite (drop_S _ _ _ Er) in Ed. injection Ed as <-. eexists. split; [apply ph_last; [lia|done]|]. lia.
Qed.

Lemma phase_MB t k b th name arg fl rk : phase t k b th (MB name arg t :: fl) rk ->
  b = false /\ th = [] /\ fl = [] /\ (k <= length (R t))%nat /\ rk = (3 * (length (R t) - k) + 3)%nat.
Proof using.
  intros H. inversion H as [| k' j name' arg' Hk E1 E2 E3 E4 E5 | k' tail Hk Ht E1 E2 E3 E4 E5]; subst.
  - destruct j as [|j]; [cbn [take map app] in E4; injection E4 as -> -> <-; split_and!; try done; lia|].
    destruct (drop k (R t)) as [|r' rest] eqn:Ed; [|done]. apply (f_equal length) in Ed. rewrite length_drop in Ed. cbn [length] in Ed. lia.
  - destruct (drop k (R t)) as [|r' rest]; [|done]. by destruct Ht as [->|(? & ? & ->)].
Qed.

Lemma phase_MH t k b th name hash fl rk : phase t k b th (MH name hash t :: fl) rk ->
  exists rk', phase t k b th fl rk' /\ (rk' < rk)%nat.
Proof using.
  intros H. inversion H as [| k' j name' arg' Hk E1 E2 E3 E4 E5 | k' tail Hk Ht E1 E2 E3 E4 E5]; subst.
  - destruct (take j (drop k (R t))) as [|r' rest]; done.
  - pose proof (ph_last t k [] Hk (or_introl eq_refl)) as P.
    destruct (drop k (R t)) as [|r' rest] eqn:Ed; [|done]. destruct Ht as [->|(? & ? & ->)]; [done|]. injection E4 as _ _ <-.
    eexists. split; [exact P|]. cbn [length]. lia.
Qed.

Lemma phase_MJ t k b m th fl rk : phase t k b (m :: th) fl rk ->
  exists name c, m = MJ name c (id_after (take k (R t))) /\ letter_ok c /\ letter_table c = t /\ th = [] /\ fl = [] /\ b = false /\
    (k <= length (R t))%nat /\ rk = (3 * (length (R t) - k) + 2)%nat.
Proof using. intros H. inversion H; subst. by eexists _, _. Qed.

Lemma phase_end t k b rk : phase t k b [] [] rk -> k = length (R t) /\ b = true.
Proof using.
  intros H. inversion H as [| k' j name' arg' Hk E1 E2 E3 E4 E5 | k' tail Hk Ht E1 E2 E3 E4 E5]; subst; [by destruct (map _ _)|].
  split; [|done]. destruct (drop k (R t)) as [|r' rest] eqn:Ed; [|done]. apply (f_equal length) in Ed. rewrite length_drop in Ed. cbn [length] in Ed. lia.
Qed.

Lemma phase_bound t k b th fl rk : phase t k b th fl rk -> (k <= length (R t))%nat.
Proof using. intros H. inversion H; subst; lia. Qed.

(** *** A message arrives at the hub *)
Lemma deliver_hub_inv s m mh ml k rank : net_inv s (m :: mh) ml k rank ->
  exists s' ml' rank', deliver_hub crc32hash l (params m) (map params mh) s = Some s' /\ net_inv s' mh ml' k rank' /\ (work ml' rank' < work ml rank)%nat.
Proof using R_ok R_inc.
  intros [HH HL Eh El Hj Hrg Hm Hp]. set (t := msg_table m). apply Forall_cons in Hrg as [Ht Hrg]. apply Forall_cons in Hj as [_ Hj].
  pose proof (Hp t Ht) as Hpt. unfold of_table in Hpt. rewrite filter_cons_True in Hpt by done. fold (of_table t mh) in Hpt.
  destruct (phase_MJ _ _ _ _ _ _ _ Hpt) as (name & c & Em & Hc & Hct & Eth & Efl & Eb & Hk & Erk).
  destruct (hub_join (hub s) t (k t) HH Ht Hk Eb) as (H' & opened & out & rk & EJ & HH' & Hbits & Hph & Hlt & M1 & M2 & M3).
  pose proof (id_after_range (take (k t) (R t)) ltac:(by apply Forall_take)) as Hr.
  exists {| hub := H'; leaf := leaf s; to_hub := map params mh; to_leaf := map params (ml ++ out) |}, (ml ++ out), (upd_at t rk rank).
  split; [|split].
  - unfold deliver_hub. rewrite Em, ms_db_J, Hct, EJ by done. cbn [mbind option_bind]. by rewrite sent_to_params, El, map_app.
  - split; cbn [hub leaf to_hub to_leaf]; [done|done|done|done|done|done|by apply Forall_app|].
    intros t' Ht'. rewrite Hbits, flow_app by done. destruct (decide (t' = t)) as [->|Hne].
    + rewrite upd_at_eq, Eb, bool_decide_true, andb_true_r, Eth, Efl, (flow_same t out) by done. exact Hph.
    + rewrite upd_at_ne, bool_decide_false, andb_false_r, orb_false_r, (flow_other t' t out), app_nil_r by done.
      specialize (Hp t' Ht'). unfold of_table in Hp. rewrite filter_cons_False in Hp by (intros E; by apply Hne). exact Hp.
  - rewrite work_app by done. unfold work. pose proof (total_upd t rk rank Ht). lia.
Qed.

(** *** A message arrives at the leaf *)

Lemma flow_cons t m ml : flow t (m :: ml) = if decide (msg_table m = t /\ is_join m = false) then m :: flow t ml else flow t ml.
Proof using. unfold flow. rewrite filter_cons. by repeat case_decide. Qed.

Lemma leaf_ok_open L k t : leaf_ok L k -> leaf_ok (open_bits t h L) k.
Proof using. by intros (? & ? & ? & ?). Qed.

Lemma leaf_register L k t r : leaf_ok L k -> DDB_INIT <= t <= DDB_END -> R t !! k t = Some r ->
  exists L' out, ms_db crc32hash h h (cli_name L h :: params (MR t r)) L = Some (L', out) /\ leaf_ok L' (upd_at t (S (k t)) k) /\ sent_to h out = [].
Proof using R_ok R_key R_inc R_leaf.
  intros (Hname & Hhub & Hinv & Hid) Ht Er. pose proof (list_elem_of_lookup_2 _ _ _ Er) as Hin.
  pose proof (R_ok t) as H1. rewrite Forall_forall in H1. specialize (H1 r Hin).
  pose proof (R_key t) as H2. rewrite Forall_forall in H2. specialize (H2 r Hin).
  pose proof (R_leaf t) as H3. rewrite Forall_forall in H3. specialize (H3 r Hin).
  destruct r as [id mask key content]. cbn [r_key r_mask] in *.
  destruct (serve_inv crc32hash leafname (ORegister t id mask key content) (nd_daemon L) (fun t => take (k t) (R t))) as (d & Es & Hinv' & Hid'); [by split|exact Hinv|].
  destruct (ms_db_R crc32hash h h (cli_name L h) t {| r_id := id; r_mask := mask; r_key := key; r_content := content |} L d)
    as (out & E & Hout); [done|done|done|done| |by rewrite Hname|].
  { rewrite Hid. apply (id_take_lt (R t) (R_ok t) (R_inc t) _ _ _ Er). lia. }
  exists (with_daemon d L), out. split; [exact E|]. split; [|by apply sent_to_none]. split_and!; [done|done| |].
  - eapply daemon_inv_ext; [|exact Hinv']. intros t'. cbn [history_step]. destruct (decide (t = t')) as [<-|Hne].
    + rewrite upd_at_eq. symmetry. by apply take_S_r.
    + by rewrite upd_at_ne by done.
  - intros t'. unfold id_of. cbn [nd_daemon with_daemon]. rewrite Hid'. cbn [spec_ids]. destruct (decide (t' = t)) as [->|Hne].
    + rewrite set_at_eq, upd_at_eq. by rewrite (id_after_take _ _ _ Er).
    + rewrite set_at_ne, upd_at_ne by done. apply Hid.
Qed.

Lemma deliver_leaf_inv s m mh ml k rank : net_inv s mh (m :: ml) k rank ->
  exists s' mh' k' rank', deliver_leaf crc32hash h (params m) (map params ml) s = Some s' /\ net_inv s' mh' ml k' rank' /\ (work ml rank' < work (m :: ml) rank)%nat.
Proof using R_ok R_key R_inc R_leaf.
  intros [HH HL Eh El Hj Hrg Hm Hp]. apply Forall_cons in Hm as [[Ht Hmok] Hm]. set (t := msg_table m) in *. unfold deliver_leaf.
  pose proof (Hp t Ht) as Hpt. rewrite flow_cons in Hpt.
  assert (Hother : forall t', t' <> t -> flow t' (m :: ml) = flow t' ml).
  { intros t' Hne. rewrite flow_cons, decide_False by (intros [E _]; by apply Hne). done. }
  assert (Hwork : is_join m = false -> work (m :: ml) rank = work ml rank).
  { intros Ej. unfold work. rewrite filter_cons_False by congruence. done. }
  destruct m as [name c id|name arg t0|name hash t0|t0 r]; cbn [msg_table is_join] in *.
  - (* the number of a table of the hub *)
    destruct Hmok as [Hc ->]. pose proof (id_after_range (R t) (R_ok t)) as Hr. destruct HL as (Hname & Hhub & Hinv & Hid).
    rewrite ms_db_J by done. fold t. unfold ms_db_join. rewrite Hid, (proj2 (Z.leb_le _ _)) by exact (id_take_le (R t) (R_ok t) (R_inc t) (k t)). cbn [mbind option_bind].
    do 4 eexists. split; [done|]. split; [split; cbn [hub leaf to_hub to_leaf]; [done|by apply leaf_ok_open|by rewrite Eh, app_nil_r|done|done|done|done|]|].
    + intros t' Ht'. specialize (Hp t' Ht'). rewrite flow_cons, decide_False in Hp by (intros [_ ?]; done). exact Hp.
    + unfold work. rewrite filter_cons_True by done. cbn [length]. lia.
  - (* the end of a burst *)
    rewrite decide_True in Hpt by done. destruct (phase_MB _ _ _ _ _ _ _ _ Hpt) as (Eb & Eth & Efl & Hk & Erk).
    destruct HL as (Hname & Hhub & Hinv & Hid). rewrite ms_db_B, Hhub by done. cbn [mbind option_bind]. rewrite sent_to_params, Eh, <- map_app.
    destruct (letter_chr t0 Ht) as [L1 L2]. rewrite Hid.
    exists {| hub := hub s; leaf := leaf s; to_hub := map params (mh ++ [MJ (cli_name (leaf s) h) (chr t0) (id_after (take (k t0) (R t0)))]); to_leaf := map params ml |},
      (mh ++ [MJ (cli_name (leaf s) h) (chr t0) (id_after (take (k t0) (R t0)))]), k, (upd_at t0 (3 * (length (R t0) - k t0) + 2)%nat rank).
    split; [done|]. split; [split; cbn [hub leaf to_hub to_leaf]; [done|done|done|done| | |done|]|].
    + apply Forall_app. split; [done|]. by apply Forall_singleton.
    + apply Forall_app. split; [done|]. apply Forall_singleton. cbn [msg_table]. by rewrite L2.
    + intros t' Ht'. unfold of_table. rewrite filter_app. fold (of_table t' mh). destruct (decide (t' = t0)) as [->|Hne].
      * change t with t0 in *. rewrite upd_at_eq, Eth, Efl, Eb, filter_cons_True by done. rewrite filter_nil. by apply ph_asked.
      * rewrite upd_at_ne, filter_cons_False, filter_nil, app_nil_r by (done || (cbn [msg_table]; rewrite L2; congruence)).
        specialize (Hp t' Ht'). rewrite Hother in Hp by done. exact Hp.
    + rewrite Hwork by done. unfold work. change t with t0 in *. pose proof (total_upd t0 (3 * (length (R t0) - k t0) + 2)%nat rank Ht). lia.
  - (* the hash *)
    rewrite decide_True in Hpt by done. change t with t0 in *. destruct (phase_MH _ _ _ _ _ _ _ _ Hpt) as (rk' & Hph & Hlt).
    rewrite ms_db_H by done. cbn [mbind option_bind].
    exists {| hub := hub s; leaf := leaf s; to_hub := to_hub s ++ []; to_leaf := map params ml |}, mh, k, (upd_at t0 rk' rank).
    split; [done|]. split; [split; cbn [hub leaf to_hub to_leaf]; [done|done|by rewrite app_nil_r|done|done|done|done|]|].
    + intros t' Ht'. destruct (decide (t' = t0)) as [->|Hne]; [by rewrite upd_at_eq|].
      rewrite upd_at_ne by done. specialize (Hp t' Ht'). rewrite Hother in Hp by done. exact Hp.
    + rewrite Hwork by done. unfold work. pose proof (total_upd t0 rk' rank Ht). lia.
  - (* a register *)
    rewrite decide_True in Hpt by done. change t with t0 in *. destruct (phase_MR _ _ _ _ _ _ _ Hpt) as (Er & rk' & Hph & Hlt).
    destruct (leaf_register (leaf s) k t0 r HL Ht Er) as (L' & out & E & HL' & Hout). rewrite E. cbn [mbind option_bind]. rewrite Hout.
    exists {| hub := hub s; leaf := L'; to_hub := to_hub s ++ []; to_leaf := map params ml |}, mh, (upd_at t0 (S (k t0)) k), (upd_at t0 rk' rank).
    split; [done|]. split; [split; cbn [hub leaf to_hub to_leaf]; [done|done|by rewrite app_nil_r|done|done|done|done|]|].
    + intros t' Ht'. destruct (decide (t' = t0)) as [->|Hne]; [by rewrite !upd_at_eq|].
      rewrite !upd_at_ne by done. specialize (Hp t' Ht'). rewrite Hother in Hp by done. exact Hp.
    + rewrite Hwork by done. unfold work. pose proof (total_upd t0 rk' rank Ht). lia.
Qed.

(** *** Any order of arrival *)
Lemma net_step_inv b s mh ml k rank : net_inv s mh ml k rank ->
  exists s' mh' ml' k' rank', net_step crc32hash h l b s = Some s' /\ net_inv s' mh' ml' k' rank' /\
    (work ml' rank' <= work ml rank)%nat /\ (mh ++ ml <> [] -> (work ml' rank' < work ml rank)%nat).
Proof using R_ok R_key R_inc R_leaf.
  intros H. pose proof (ni_to_hub _ _ _ _ _ H) as Eh. pose proof (ni_to_leaf _ _ _ _ _ H) as El. unfold net_step. rewrite Eh, El.
  assert (Hl : forall m q, ml = m :: q -> exists s' mh' ml' k' rank', deliver_leaf crc32hash h (params m) (map params q) s = Some s' /\
             net_inv s' mh' ml' k' rank' /\ (work ml' rank' <= work ml rank)%nat /\ (mh ++ ml <> [] -> (work ml' rank' < work ml rank)%nat)).
  { intros m q ->. destruct (deliver_leaf_inv _ _ _ _ _ _ H) as (s' & mh' & k' & rank' & E & H' & Hw). exists s', mh', q, k', rank'. split_and!; [done|done|lia|done]. }
  assert (Hh : forall m q, mh = m :: q -> exists s' mh' ml' k' rank', deliver_hub crc32hash l (params m) (map params q) s = Some s' /\
             net_inv s' mh' ml' k' rank' /\ (work ml' rank' <= work ml rank)%nat /\ (mh ++ ml <> [] -> (work ml' rank' < work ml rank)%nat)).
  { intros m q ->. destruct (deliver_hub_inv _ _ _ _ _ _ H) as (s' & ml' & rank' & E & H' & Hw). exists s', q, ml', k, rank'. split_and!; [done|done|lia|done]. }
  destruct b, mh as [|m1 mh], ml as [|m2 ml]; cbn [map];
    try (by eapply Hl); try (by eapply Hh); by exists s, [], [], k, rank.
Qed.

Lemma run_net_idle sched s : to_hub s = [] -> to_leaf s = [] -> run_net crc32hash h l sched s = Some s.
Proof using.
  intros Eh El. induction sched as [|b sched IH]; cbn [run_net]; [done|]. unfold net_step. rewrite Eh, El. by destruct b.
Qed.

Lemma run_net_inv sched : forall s mh ml k rank, net_inv s mh ml k rank ->
  exists s' mh' ml' k' rank', run_net crc32hash h l sched s = Some s' /\ net_inv s' mh' ml' k' rank' /\
    (mh' ++ ml' = [] \/ (work ml' rank' + length sched <= work ml rank)%nat).
Proof using R_ok R_key R_inc R_leaf.
  induction sched as [|b sched IH]; intros s mh ml k rank H.
  { exists s, mh, ml, k, rank. split_and!; [done|done|]. right. cbn [length]. lia. }
  destruct (decide (mh ++ ml = [])) as [Eq|Eq].
  { pose proof Eq as [-> ->]%app_eq_nil. exists s, [], [], k, rank. split_and!; [|done|by left].
    apply run_net_idle; [by rewrite (ni_to_hub _ _ _ _ _ H)|by rewrite (ni_to_leaf _ _ _ _ _ H)]. }
  cbn [run_net length]. destruct (net_step_inv b s mh ml k rank H) as (s1 & mh1 & ml1 & k1 & rank1 & E & H1 & _ & Hlt). rewrite E. cbn [mbind option_bind].
  destruct (IH s1 mh1 ml1 k1 rank1 H1) as (s2 & mh2 & ml2 & k2 & rank2 & E2 & H2 & Hw). exists s2, mh2, ml2, k2, rank2. split; [done|]. split; [done|].
  destruct Hw as [Hw|Hw]; [by left|]. right. specialize (Hlt Eq). lia.
Qed.
End sync.

(** *** The start *)

Definition joins (nd : node) : list dbmsg :=
  MJ (str "*") "2" (id_of nd DDB_NICKDB) :: map (fun t => MJ (str "*") (chr t) (id_of nd t)) (filter (fun t => t <> DDB_NICKDB) all_tables).

Lemma burst_params nd c : sent_to c (ddb_burst nd c) = map params (joins nd).
Proof.
  rewrite <- (sent_to_params c (nd_me nd)). unfold ddb_burst, joins. cbn [map]. by rewrite map_map.
Qed.

Lemma other_tables t : t ∈ filter (fun t => t <> DDB_NICKDB) all_tables <-> t <> DDB_NICKDB /\ DDB_INIT <= t <= DDB_END.
Proof. by rewrite list_elem_of_filter, elem_of_all_tables. Qed.

Lemma nick_letter : letter_ok "2" /\ letter_table "2" = DDB_NICKDB.
Proof. split; [right; vm_compute; done|reflexivity]. Qed.

Lemma joins_forall (P : dbmsg -> Prop) nd :
  (forall t c, DDB_INIT <= t <= DDB_END -> letter_ok c -> letter_table c = t -> P (MJ (str "*") c (id_of nd t))) -> Forall P (joins nd).
Proof.
  intros HP. apply Forall_cons. split.
  - apply HP; [unfold DDB_INIT, DDB_NICKDB, DDB_END; lia|apply nick_letter|apply nick_letter].
  - apply Forall_forall. intros m Hm. apply list_elem_of_fmap in Hm as (t & -> & [_ Ht]%other_tables).
    destruct (letter_chr t Ht). by apply HP.
Qed.

Lemma filter_one (f : Z -> dbmsg) t ts : NoDup ts -> t ∈ ts -> (forall t', t' ∈ ts -> msg_table (f t') = t') -> of_table t (map f ts) = [f t].
Proof.
  intros Hnd Ht Hf. unfold of_table. induction Hnd as [|x ts Hx Hnd IH]; [by apply elem_of_nil in Ht|]. cbn [map].
  assert (Ef : msg_table (f x) = x) by (apply Hf; left). destruct (decide (x = t)) as [->|Hne].
  - rewrite filter_cons_True by done. f_equal. apply filter_none_of, Forall_forall. intros m Hm.
    apply list_elem_of_fmap in Hm as (t' & -> & Ht'). rewrite Hf by by right. intros ->. done.
  - rewrite filter_cons_False by congruence. apply elem_of_cons in Ht as [->|Ht]; [done|]. apply IH; [done|]. intros t' Ht'. apply Hf. by right.
Qed.

Lemma joins_of_table nd t : DDB_INIT <= t <= DDB_END ->
  exists c, letter_ok c /\ letter_table c = t /\ of_table t (joins nd) = [MJ (str "*") c (id_of nd t)].
Proof.
  intros Ht. destruct (decide (t = DDB_NICKDB)) as [->|Hne].
  - exists "2"%char. split_and!; [apply nick_letter..|]. unfold of_table, joins. rewrite filter_cons_True by apply nick_letter. f_equal.
  - destruct (letter_chr t Ht) as [L1 L2]. exists (chr t). split_and!; [done|done|]. unfold of_table, joins.
    rewrite filter_cons_False by (cbn [msg_table]; rewrite (proj2 nick_letter); congruence).
    apply (filter_one (fun t => MJ (str "*") (chr t) (id_of nd t))); [apply NoDup_filter, all_tables_nodup|by apply other_tables|].
    intros t' [_ Ht']%other_tables. by apply letter_chr.
Qed.

(** No packings, nor keys [*]. *)
Definition plain (o : ddb_op) : Prop :=
  match o with ORegister _ _ _ key _ => key <> str "*" | ODrop _ _ => True | OCompact _ _ => False end.

Lemma history_forall (P : register -> Prop) t ops :
  Forall (fun o => match o with ORegister t' id mask key content => P {| r_id := id; r_mask := mask; r_key := key; r_content := content |} | _ => True end) ops ->
  Forall P (history t ops).
Proof.
  intros H. unfold history. assert (HP : Forall P []) by constructor. revert HP. generalize (@nil register).
  induction H as [|o ops Ho _ IH]; intros rs HP; [done|]. cbn [fold_left]. apply IH. destruct o as [t' id mask key content|t' ev|t' id]; cbn [history_step]; [| |done].
  - destruct (decide (t' = t)); [|done]. apply Forall_app. split; [done|]. by apply Forall_singleton.
  - by destruct (decide (t' = t)).
Qed.

Lemma history_other me t ops : Forall (request_ok me) ops -> ~ DDB_INIT <= t <= DDB_END -> history t ops = [].
Proof.
  intros H Ht. unfold history. induction H as [|o ops [Ho _] _ IH]; [done|]. cbn [fold_left].
  replace (history_step t [] o) with (@nil register); [done|].
  destruct o as [t' id mask key content|t' ev|t' id]; cbn [history_step table_of] in *; [|by destruct (decide (t' = t))|done].
  by rewrite decide_False by (intros ->; by apply Ht).
Qed.

Lemma request_history me t ops : Forall (request_ok me) ops ->
  Forall reg_ok (history t ops) /\ Forall (fun r => is_Some (for_me me (r_mask r))) (history t ops).
Proof.
  intros H. split; apply history_forall; (eapply Forall_impl; [exact H|]); intros o [_ Ho]; destruct o; try done; apply Ho.
Qed.

Lemma plain_ids t ops : Forall plain ops -> Forall (fun o => forall i, o <> OCompact t i) ops.
Proof. intros H. eapply Forall_impl; [exact H|]. intros o Ho i ->. done. Qed.


(** ** Runs *)

Definition ex_dir : nnstate :=
  {| lastNNServer := 2; server_list := {[0 := 0%nat; 1 := 1%nat]};
     servers := {[0%nat := Server (str "hub.irc-hispano.org") (str "A") [] 0 ∅; 1%nat := Server (str "leaf.irc-hispano.org") (str "B") [] 0 ∅]};
     users := ∅; last_nn := 0 |}.

(** The hub is the server 0 and the leaf the server 1. *)
Definition ex_hub (d : daemon) : node :=
  {| nd_me := 0%nat; nd_hub := true; nd_down := [1%nat]; nd_hubs := []; nd_open := ∅; nd_daemon := d; nd_dir := ex_dir |}.
Definition ex_leaf (d : daemon) : node :=
  {| nd_me := 1%nat; nd_hub := false; nd_down := [0%nat]; nd_hubs := [0%nat]; nd_open := ∅; nd_daemon := d; nd_dir := ex_dir |}.

Definition ex_leaf_ops : list ddb_op :=
  [ORegister DDB_NICKDB 1 (str "*") (str "a") (Some (str "x")); ORegister DDB_NICKDB 2 (str "*") (str "b") (Some (str "y"))].

Definition ex_hub_ops : list ddb_op :=
  ex_leaf_ops ++
  map (fun i => ORegister DDB_NICKDB i (str "*") [chr (97 + i)] None) [4; 5; 7; 8; 10; 11; 12] ++
  [ORegister DDB_CHANDB 3 (str "hub*") (str "#Rocq") (Some (str "not for the leaf"));
   ORegister DDB_CHANDB 4 (str "*") (str "#Hello") (Some (str "a topic"));
   ORegister DDB_NICKDB 13 (str "*") (str "A") (Some (str "z"))].

Definition ex_net (hops lops : list ddb_op) : option net :=
  dh ← serve_all crc_table (me_name (ex_hub new_daemon)) hops new_daemon;
  dl ← serve_all crc_table (me_name (ex_leaf new_daemon)) lops new_daemon;
  Some (link 0 1 (ex_hub dh) (ex_leaf dl)).

(** The run takes two bursts of the table of nicks. *)
Example sync_ex :
  (s ← ex_net ex_hub_ops ex_leaf_ops;
   s ← run_net crc_table 0 1 (repeat true 90) s;
   r ← ddb_find_key crc_table DDB_NICKDB (str "a") (mem (nd_daemon (leaf s)));
   Some (option_map (content_of (mem (nd_daemon (leaf s)))) r, id_of (leaf s) DDB_NICKDB, id_of (leaf s) DDB_CHANDB,
         bool_decide (hash_of (leaf s) DDB_NICKDB = hash_of (hub s) DDB_NICKDB), length (to_hub s), length (to_leaf s))) =
  Some (Some (str "z"), 13, 4, true, 0%nat, 0%nat).
Proof. vm_compute. reflexivity. Qed.

(** After a packing, which is in no file, the hub has a number that no
    register has: it sends nothing to a leaf that asks, and does not pass the
    next registers on to it. *)
Example compaction_ex :
  (s ← ex_net (ex_leaf_ops ++ [OCompact DDB_NICKDB 9]) ex_leaf_ops;
   s ← run_net crc_table 0 1 (repeat true 90) s;
   Some (id_of (hub s) DDB_NICKDB, id_of (leaf s) DDB_NICKDB, table_bit (open_of (hub s) 1%nat) DDB_NICKDB,
         table_bit (open_of (hub s) 1%nat) DDB_CHANDB, length (to_hub s), length (to_leaf s))) =
  Some (9, 2, false, true, 0%nat, 0%nat).
Proof. vm_compute. reflexivity. Qed.

Lemma ex_hub_ops_ok me : is_Some (for_me me (str "*")) -> is_Some (for_me me (str "hub*")) -> Forall (request_ok me) ex_hub_ops.
Proof.
  intros H1 H2. repeat apply Forall_cons_2; [..|apply Forall_nil_2];
    (apply request_ok_reg; [vm_compute; reflexivity|apply reg_ok_dec_ok; vm_compute; reflexivity|by apply bool_decide_eq_true]).
Qed.

Lemma ex_leaf_ops_ok me : is_Some (for_me me (str "*")) -> Forall (request_ok me) ex_leaf_ops.
Proof.
  intros H1. repeat apply Forall_cons_2; [..|apply Forall_nil_2];
    (apply request_ok_reg; [vm_compute; reflexivity|apply reg_ok_dec_ok; vm_compute; reflexivity|by apply bool_decide_eq_true]).
Qed.

Lemma ex_plain : Forall plain (ex_hub_ops ++ ex_leaf_ops).
Proof. repeat apply Forall_cons_2; [..|apply Forall_nil_2]; discriminate. Qed.

Lemma ex_tables : Forall (fun t => increasing (history t ex_hub_ops) /\ exists k, history t ex_leaf_ops = take k (history t ex_hub_ops)) all_tables.
Proof.
  repeat apply Forall_cons_2; [..|apply Forall_nil_2]; (split; [apply increasing_dec_ok; vm_compute; reflexivity|]);
    first [exists 0%nat; vm_compute; reflexivity|exists 2%nat; vm_compute; reflexivity].
Qed.

