(* ===== verification/Class.v ===== *)
(** * Connection classes (class.c)

    The list from [connClassList] is a list of addresses of the structures in
    the map [classes]; its first element is the class "default", which is
    never marked. *)
From S2P Require Import Prelude Chattr Strings Chain.
From stdpp Require Import options.
Open Scope Z_scope.

Record ConnectionClass := {
  cc_name : cstring;
  default_umode : option cstring;
  max_sendq : Z;
  max_links : Z;
  ref_count : Z;
  ping_freq : Z;   (* unsigned short *)
  conn_freq : Z;   (* unsigned short *)
  valid : bool
}.

Record class_state := {
  classes : gmap ptr ConnectionClass;
  connClassList : list ptr;
  connClassAllocCount : Z
}.

Definition no_class : ConnectionClass :=
  {| cc_name := []; default_umode := None; max_sendq := 0; max_links := 0; ref_count := 0;
     ping_freq := 0; conn_freq := 0; valid := false |}.

Definition cls (st : class_state) (p : ptr) : ConnectionClass := default no_class (classes st !! p).

Definition set_class (p : ptr) (c : ConnectionClass) (st : class_state) : class_state :=
  {| classes := <[p := c]> (classes st); connClassList := connClassList st;
     connClassAllocCount := connClassAllocCount st |}.

(** [make_class]: zeroed, referenced once, linked after the first class. *)
Definition make_class (st : class_state) : class_state * ptr :=
  let p := fresh (dom (classes st)) in
  let c := {| cc_name := []; default_umode := None; max_sendq := 0; max_links := 0; ref_count := 1;
              ping_freq := 0; conn_freq := 0; valid := false |} in
  ({| classes := <[p := c]> (classes st);
      connClassList := match connClassList st with [] => [] | h :: r => h :: p :: r end;
      connClassAllocCount := w32 (connClassAllocCount st + 1) |}, p).

Definition free_class (p : ptr) (st : class_state) : class_state :=
  {| classes := delete p (classes st); connClassList := connClassList st;
     connClassAllocCount := w32 (connClassAllocCount st - 1) |}.

(** The features read by [init_class]. *)
Record class_features := {
  PINGFREQUENCY : Z;
  CONNECTFREQUENCY : Z;
  MAXIMUM_LINKS : Z;
  DEFAULTMAXSENDQLENGTH : Z
}.

Definition init_class (f : class_features) (st : class_state) : class_state :=
  let '(st, h) :=
    match connClassList st with
    | h :: _ => (st, h)
    | [] => let '(st, p) := make_class st in
            ({| classes := classes st; connClassList := [p];
                connClassAllocCount := connClassAllocCount st |}, p)
    end in
  set_class h {| cc_name := str "default"; default_umode := default_umode (cls st h);
                 max_sendq := w32 (DEFAULTMAXSENDQLENGTH f); max_links := w32 (MAXIMUM_LINKS f);
                 ref_count := 1; ping_freq := w16 (PINGFREQUENCY f);
                 conn_freq := w16 (CONNECTFREQUENCY f); valid := true |} st.

Definition set_valid (v : bool) (c : ConnectionClass) : ConnectionClass :=
  {| cc_name := cc_name c; default_umode := default_umode c; max_sendq := max_sendq c;
     max_links := max_links c; ref_count := ref_count c; ping_freq := ping_freq c;
     conn_freq := conn_freq c; valid := v |}.

Definition class_mark_delete (st : class_state) : class_state :=
  foldl (fun st p => set_class p (set_valid false (cls st p)) st) st (tail (connClassList st)).

(** The loop of [class_delete_marked] over what follows [prev]: the list that
    is left, and the state with the dropped classes freed. *)
Fixpoint delete_marked (l : list ptr) (st : class_state) : list ptr * class_state :=
  match l with
  | [] => ([], st)
  | cl :: l' =>
      if valid (cls st cl) || (ref_count (cls st cl) >? 1)
      then let '(r, st) := delete_marked l' st in (cl :: r, st)
      else delete_marked l' (free_class cl st)
  end.

(** [None]: the first class is dropped, and the loop goes on from a freed
    structure. *)
Definition class_delete_marked (st : class_state) : option class_state :=
  match connClassList st with
  | [] => Some st
  | h :: l =>
      if valid (cls st h) || (ref_count (cls st h) >? 1) then
        let '(r, st) := delete_marked l st in
        Some {| classes := classes st; connClassList := h :: r;
                connClassAllocCount := connClassAllocCount st |}
      else None
  end.

Fixpoint class_find_in (st : class_state) (name : cstring) (extras : bool) (l : list ptr) : option ptr :=
  match l with
  | [] => None
  | p :: l' =>
      if negb (valid (cls st p)) && negb extras then class_find_in st name extras l'
      else if strcmp_eqb (cc_name (cls st p)) name then Some p else class_find_in st name extras l'
  end.

Definition do_find_class (st : class_state) (name : cstring) (extras : bool) : option ptr :=
  class_find_in st name extras (connClassList st).

Definition find_class (st : class_state) (name : cstring) : option ptr := do_find_class st name false.

Definition add_class (f : class_features) (name : cstring) (ping confreq maxli sendq : Z) (st : class_state)
  : class_state :=
  let '(st, p) :=
    match do_find_class st name true with
    | None => make_class st
    | Some p => (st, p)
    end in
  set_class p {| cc_name := name; default_umode := default_umode (cls st p);
                 max_sendq := if sendq >? 0 then sendq else w32 (DEFAULTMAXSENDQLENGTH f);
                 max_links := maxli; ref_count := ref_count (cls st p);
                 ping_freq := w16 ping; conn_freq := w16 confreq; valid := true |} st.

(** ** Readers.  A configuration item is seen through its class, if any. *)
Definition get_conf_class (st : class_state) (aconf : option (option ptr)) : option cstring :=
  match aconf with Some (Some cl) => Some (cc_name (cls st cl)) | _ => None end.

Definition get_conf_ping (st : class_state) (conn_class : option ptr) : Z :=
  match conn_class with Some cl => ping_freq (cls st cl) | None => -1 end.

(** [confs] is [cli_confs(acptr)]: the items, each with its class. *)
Definition get_client_class (st : class_state) (is_me : bool) (confs : list (option (option ptr))) : cstring :=
  let fix walk l :=
    match l with
    | [] => str "(null-class)"
    | Some (Some cl) :: _ => cc_name (cls st cl)
    | _ :: l' => walk l'
    end in
  if is_me then str "(null-class)" else walk confs.

(** The result with the new [cli_max_sendq]. *)
Fixpoint sendq_loop (st : class_state) (confs : list (option (option ptr))) : option Z :=
  match confs with
  | [] => None
  | Some (Some cl) :: _ => Some (max_sendq (cls st cl))
  | _ :: l' => sendq_loop st l'
  end.

Definition get_sendq (f : class_features) (st : class_state) (cli_max_sendq : Z)
  (confs : list (option (option ptr))) : Z * Z :=
  if negb (cli_max_sendq =? 0) then (cli_max_sendq, cli_max_sendq)
  else match sendq_loop st confs with
       | Some q => (q, q)
       | None => (w32 (DEFAULTMAXSENDQLENGTH f), cli_max_sendq)
       end.

(** The lines of [report_classes]: validity, name and numbers. *)
Definition report_classes (st : class_state) : list (bool * cstring * list Z * cstring) :=
  map (fun p => let c := cls st p in
         (valid c, cc_name c, [ping_freq c; conn_freq c; max_links c; max_sendq c; w32 (ref_count c - 1)],
          default (str "+") (default_umode c))) (connClassList st).

(** ** Invariant *)
Record class_inv (st : class_state) : Prop := {
  ci_nodup : NoDup (connClassList st);
  ci_alloc : forall p, p ∈ connClassList st -> p ∈ dom (classes st);
  ci_cstr : forall p, p ∈ connClassList st -> is_cstr (cc_name (cls st p));
  ci_names : forall p q, p ∈ connClassList st -> q ∈ connClassList st ->
    lower (cc_name (cls st p)) = lower (cc_name (cls st q)) -> p = q;
  ci_default : exists h r, connClassList st = h :: r /\ valid (cls st h) = true /\
    lower (cc_name (cls st h)) = str "default"
}.

Lemma cls_set p q c st : cls (set_class p c st) q = if decide (p = q) then c else cls st q.
Proof.
  unfold cls, set_class. simpl. destruct (decide (p = q)) as [->|]; [by rewrite lookup_insert_eq|by rewrite lookup_insert_ne].
Qed.

(** What a search finds, with names that differ. *)
Lemma class_find_in_spec st name extras l :
  is_cstr name -> (forall p, p ∈ l -> is_cstr (cc_name (cls st p))) ->
  match class_find_in st name extras l with
  | Some p => p ∈ l /\ lower (cc_name (cls st p)) = lower name /\ (extras = false -> valid (cls st p) = true)
  | None => forall p, p ∈ l -> lower (cc_name (cls st p)) = lower name ->
      extras = false /\ valid (cls st p) = false
  end.
Proof.
  intros Hn. induction l as [|p l IH]; intros Hl; cbn [class_find_in]; [set_solver|].
  specialize (IH ltac:(intros q Hq; apply Hl; set_solver)).
  assert (Hskip : (lower (cc_name (cls st p)) = lower name -> extras = false /\ valid (cls st p) = false) ->
    match class_find_in st name extras l with
    | Some q => q ∈ p :: l /\ lower (cc_name (cls st q)) = lower name /\ (extras = false -> valid (cls st q) = true)
    | None => forall q, q ∈ p :: l -> lower (cc_name (cls st q)) = lower name -> extras = false /\ valid (cls st q) = false
    end).
  { intros Hp. destruct (class_find_in st name extras l) as [q|].
    - destruct IH as [? ?]. split; [set_solver|done].
    - intros q Hq. apply elem_of_cons in Hq as [->|Hq]; [done|by apply IH]. }
  destruct (valid (cls st p)) eqn:Ev, extras; cbn [negb andb]; try (by apply Hskip).
  all: destruct (strcmp_eqb (cc_name (cls st p)) name) eqn:Es.
  all: try (apply strcmp_eqb_lower in Es; [|apply Hl; set_solver|done]; split; [set_solver|done]).
  all: apply Hskip; intros He; apply (strcmp_eqb_lower (cc_name (cls st p)) name) in He;
    [congruence|apply Hl; set_solver|done].
Qed.

(** ** What a name stands for *)

(** The values that [add_class] sets. *)
Definition params (c : ConnectionClass) : cstring * Z * Z * Z * Z :=
  (cc_name c, ping_freq c, conn_freq c, max_links c, max_sendq c).

Definition class_params (st : class_state) (n : cstring) : option (cstring * Z * Z * Z * Z) :=
  (fun p => params (cls st p)) <$> find_class st n.

(** The test of an address for the name [n]. *)
Definition named (st : class_state) (n : cstring) (p : ptr) : Prop :=
  p ∈ connClassList st /\ lower (cc_name (cls st p)) = lower n.

Lemma named_inj st n p q : class_inv st -> named st n p -> named st n q -> p = q.
Proof. intros H [Hp Ep] [Hq Eq]. apply (ci_names _ H); congruence. Qed.

Lemma find_class_some st n p :
  class_inv st -> is_cstr n -> find_class st n = Some p <-> named st n p /\ valid (cls st p) = true.
Proof.
  intros H Hn. unfold find_class, do_find_class.
  pose proof (class_find_in_spec st n false (connClassList st) Hn (ci_cstr _ H)) as Hs.
  destruct (class_find_in st n false (connClassList st)) as [q|].
  - destruct Hs as (Hq & Hl & Hv). split.
    + intros [= <-]. split; [by split|by apply Hv].
    + intros [Hp _]. f_equal. by apply (named_inj st n).
  - split; [done|]. intros [[Hp Hl] Hv]. destruct (Hs p Hp Hl). congruence.
Qed.

Lemma find_any_some st n p :
  class_inv st -> is_cstr n -> do_find_class st n true = Some p <-> named st n p.
Proof.
  intros H Hn. unfold do_find_class.
  pose proof (class_find_in_spec st n true (connClassList st) Hn (ci_cstr _ H)) as Hs.
  destruct (class_find_in st n true (connClassList st)) as [q|].
  - destruct Hs as (Hq & Hl & Hv). split; [intros [= <-]; by split|].
    intros Hp. f_equal. by apply (named_inj st n).
  - split; [done|]. intros [Hp Hl]. by destruct (Hs p Hp Hl).
Qed.

(** Two states find the same under a name when the valid classes of that name
    agree. *)
Lemma class_params_ext st st' n :
  class_inv st -> class_inv st' -> is_cstr n ->
  (forall p, named st n p /\ valid (cls st p) = true <-> named st' n p /\ valid (cls st' p) = true) ->
  (forall p, named st n p -> valid (cls st p) = true -> params (cls st' p) = params (cls st p)) ->
  class_params st' n = class_params st n.
Proof.
  intros H H' Hn He Hp. unfold class_params. destruct (find_class st n) as [p|] eqn:E.
  - pose proof E as E2. apply find_class_some in E2; [|done..]. assert (find_class st' n = Some p) as -> by by apply find_class_some, He.
    destruct E2. simpl. f_equal. by apply Hp.
  - destruct (find_class st' n) as [q|] eqn:E'; [|done].
    apply find_class_some in E'; [|done..]. apply He in E'. apply find_class_some in E'; [congruence|done..].
Qed.

(** ** [add_class] *)

(** Replacing a class by one of the same name keeps the invariant, but for the
    validity of the first class. *)
Lemma cls_set_eq p c st : cls (set_class p c st) p = c.
Proof. rewrite cls_set, decide_True by done. done. Qed.

Lemma cls_set_ne p q c st : p <> q -> cls (set_class p c st) q = cls st q.
Proof. intros. by rewrite cls_set, decide_False. Qed.

Lemma set_class_inv p c st :
  class_inv st -> p ∈ connClassList st -> is_cstr (cc_name c) ->
  lower (cc_name c) = lower (cc_name (cls st p)) ->
  (head (connClassList st) = Some p -> valid c = true) ->
  class_inv (set_class p c st).
Proof.
  intros H Hp Hc Hl Hv.
  assert (Hlow : forall q, lower (cc_name (cls (set_class p c st) q)) = lower (cc_name (cls st q))).
  { intros q. rewrite cls_set. by destruct (decide (p = q)) as [->|]. }
  constructor; cbn [set_class connClassList classes].
  - apply (ci_nodup _ H).
  - intros q Hq. apply (ci_alloc _ H) in Hq. set_solver.
  - intros q Hq. rewrite cls_set. destruct (decide (p = q)) as [->|]; [done|by apply (ci_cstr _ H)].
  - intros q r Hq Hr He. rewrite !Hlow in He. by apply (ci_names _ H).
  - destruct (ci_default _ H) as (h & l & Hh & Hval & Hd). exists h, l. rewrite Hlow. split_and!; [done| |done].
    rewrite cls_set. destruct (decide (p = h)) as [->|]; [|done]. apply Hv. by rewrite Hh.
Qed.

(** Linking a new structure with a name of its own. *)
Definition new_class_state (st : class_state) : class_state := fst (make_class st).

Lemma make_class_fresh st p : class_inv st -> p ∈ connClassList st -> p <> snd (make_class st).
Proof. intros H Hp ->. apply (ci_alloc _ H) in Hp. simpl in Hp. by apply is_fresh in Hp. Qed.

Lemma make_class_list st : class_inv st ->
  exists h l, connClassList st = h :: l /\ connClassList (fst (make_class st)) = h :: snd (make_class st) :: l.
Proof. intros H. destruct (ci_default _ H) as (h & l & Hh & _). exists h, l. simpl. by rewrite Hh. Qed.

Lemma make_class_elem st p : class_inv st ->
  p ∈ connClassList (fst (make_class st)) <-> p = snd (make_class st) \/ p ∈ connClassList st.
Proof. intros H. destruct (make_class_list st H) as (h & l & -> & ->). rewrite !elem_of_cons. tauto. Qed.

Lemma make_class_cls st p : p <> snd (make_class st) -> cls (fst (make_class st)) p = cls st p.
Proof. intros Hp. unfold cls. simpl. by rewrite lookup_insert_ne. Qed.

Lemma make_class_inv c st :
  class_inv st -> is_cstr (cc_name c) ->
  (forall p, p ∈ connClassList st -> lower (cc_name (cls st p)) <> lower (cc_name c)) ->
  class_inv (set_class (snd (make_class st)) c (fst (make_class st))).
Proof.
  intros H Hc Hn. set (np := snd (make_class st)). set (st' := set_class np c (fst (make_class st))).
  assert (Hel : forall p, p ∈ connClassList st' <-> p = np \/ p ∈ connClassList st) by (intros p; by apply make_class_elem).
  assert (Hold : forall p, p ∈ connClassList st -> cls st' p = cls st p).
  { intros p Hp. unfold st'. pose proof (make_class_fresh st p H Hp).
    rewrite cls_set_ne by (intros He; by symmetry in He). by apply make_class_cls. }
  assert (Hnew : cls st' np = c) by apply cls_set_eq.
  constructor.
  - destruct (make_class_list st H) as (h & l & Hh & Hh').
    change (connClassList st') with (connClassList (fst (make_class st))). rewrite Hh'.
    pose proof (ci_nodup _ H) as Hnd. rewrite Hh in Hnd. apply NoDup_cons in Hnd as [Hnd1 Hnd2].
    assert (forall q, q ∈ h :: l -> q <> snd (make_class st)) as Hf
      by (intros q Hq; apply make_class_fresh; [done|by rewrite Hh]).
    apply NoDup_cons; split; [|apply NoDup_cons; split; [|done]].
    + rewrite elem_of_cons. intros [He|?]; [|done]. apply (Hf h); [by constructor|done].
    + intros Hin. apply (Hf (snd (make_class st))); [by constructor|done].
  - intros p Hp. apply Hel in Hp as [->|Hp]; unfold st'; simpl; [set_solver|].
    apply (ci_alloc _ H) in Hp. set_solver.
  - intros p Hp. apply Hel in Hp as [->|Hp]; [by rewrite Hnew|]. rewrite Hold by done. by apply (ci_cstr _ H).
  - intros p q Hp Hq. apply Hel in Hp as [->|Hp]; apply Hel in Hq as [->|Hq]; rewrite ?Hnew, ?Hold by done.
    + done.
    + intros He. by destruct (Hn q Hq).
    + intros He. by destruct (Hn p Hp).
    + by apply (ci_names _ H).
  - destruct (ci_default _ H) as (h & l & Hh & Hv & Hd).
    assert (h ∈ connClassList st) by (rewrite Hh; by constructor).
    exists h, (np :: l). rewrite Hold by done. split_and!; [|done..].
    change (connClassList st') with (connClassList (fst (make_class st))). simpl. by rewrite Hh.
Qed.

Lemma add_class_new f name ping confreq maxli sendq st :
  do_find_class st name true = None ->
  add_class f name ping confreq maxli sendq st =
  set_class (snd (make_class st))
    {| cc_name := name; default_umode := None;
       max_sendq := if sendq >? 0 then sendq else w32 (DEFAULTMAXSENDQLENGTH f);
       max_links := maxli; ref_count := 1; ping_freq := w16 ping; conn_freq := w16 confreq; valid := true |}
    (fst (make_class st)).
Proof.
  intros E. unfold add_class. rewrite E. destruct (make_class st) as [st' p] eqn:Em.
  assert (cls st' p = cls (fst (make_class st)) (snd (make_class st))) as Hc by by rewrite Em.
  unfold cls in Hc at 2. simpl in Hc. rewrite lookup_insert_eq in Hc. simpl in Hc. by rewrite Hc.
Qed.

Section Add_class.
Context (f : class_features) (name : cstring) (ping confreq maxli sendq : Z) (st : class_state).
Context (H : class_inv st) (Hname : is_cstr name).

Let new_params : cstring * Z * Z * Z * Z :=
  (name, w16 ping, w16 confreq, maxli, if sendq >? 0 then sendq else w32 (DEFAULTMAXSENDQLENGTH f)).

(** What [add_class] does to the list: one class has the name, the parameters,
    and its references as before; the others are as they were. *)
Lemma add_class_effect :
  let st' := add_class f name ping confreq maxli sendq st in
  class_inv st' /\
  exists p, p ∈ connClassList st' /\ params (cls st' p) = new_params /\ valid (cls st' p) = true /\
    ref_count (cls st' p) = (if bool_decide (named st name p) then ref_count (cls st p) else 1) /\
    (forall q, q <> p -> (q ∈ connClassList st' <-> q ∈ connClassList st)) /\
    (forall q, q ∈ connClassList st -> q <> p -> cls st' q = cls st q) /\
    (p ∈ connClassList st -> lower (cc_name (cls st p)) = lower name).
Proof using H Hname.
  intros st'. destruct (do_find_class st name true) as [p|] eqn:E.
  - apply find_any_some in E as Hp; [|done..]. destruct Hp as [Hp Hl].
    unfold st', add_class. rewrite E. split; [apply set_class_inv; done|].
    exists p. rewrite cls_set_eq, bool_decide_true by by split.
    split_and!; try done. intros. by rewrite cls_set_ne.
  - unfold st'. rewrite add_class_new by done. clear st'.
    set (st' := set_class _ _ _). 
    assert (Hno : forall q, ~ named st name q).
    { intros q Hq. apply find_any_some in Hq; [congruence|done..]. }
    assert (Hno' : forall p, p ∈ connClassList st -> lower (cc_name (cls st p)) <> lower name).
    { intros p Hp He. by apply (Hno p). }
    set (np := snd (make_class st)) in *.
    assert (Hcls : forall q, q ∈ connClassList st -> q <> np -> cls st' q = cls st q).
    { intros q Hq Hne. unfold st'. rewrite cls_set_ne by congruence. by apply make_class_cls. }
    split; [by apply make_class_inv|].
    exists np. unfold st' at 2 3 4. rewrite cls_set_eq, bool_decide_false by apply Hno.
    split_and!; try done.
    + unfold st'. cbn [set_class connClassList]. apply make_class_elem; [done|by left].
    + intros q Hq. unfold st'. cbn [set_class connClassList]. rewrite make_class_elem by done. naive_solver.
    + intros Hin. by destruct (make_class_fresh st np H Hin).
Qed.

(** [add_class] as an assignment to the name, whatever its case. *)
Lemma add_class_params n :
  is_cstr n ->
  class_params (add_class f name ping confreq maxli sendq st) n =
    if bool_decide (lower n = lower name) then Some new_params else class_params st n.
Proof using H Hname.
  intros Hn. set (st' := add_class f name ping confreq maxli sendq st).
  destruct add_class_effect as [H' (p & Hp & Hpar & Hv & _ & Hel & Hcls & Hold)]. fold st' in H', Hp, Hpar, Hv, Hel, Hcls.
  assert (Hpn : cc_name (cls st' p) = name) by (unfold params, new_params in Hpar; congruence).
  case_bool_decide as He.
  - unfold class_params. assert (find_class st' n = Some p) as ->; [|simpl; by f_equal].
    apply find_class_some; [done..|]. split; [|done]. split; [done|]. by rewrite Hpn.
  - assert (Hnp : forall q, named st n q \/ named st' n q -> q <> p).
    { intros q Hq ->. destruct Hq as [[Hq Hl]|[Hq Hl]]; [apply Hold in Hq|rewrite Hpn in Hl]; congruence. }
    apply class_params_ext; try done.
    + intros q. split; intros [Hq Hvq]; pose proof (Hnp q ltac:(tauto)) as Hqp; destruct Hq as [Hq Hl].
      * rewrite Hcls by done. split; [split; [by apply Hel|by rewrite Hcls]|done].
      * apply Hel in Hq; [|done]. rewrite Hcls in Hvq, Hl by done. done.
    + intros q Hq _. rewrite Hcls; [done|apply Hq|apply Hnp; by left].
Qed.

End Add_class.

(** ** Marking and sweeping *)

Lemma mark_effect l st :
  let st' := foldl (fun st p => set_class p (set_valid false (cls st p)) st) st l in
  connClassList st' = connClassList st /\ dom (classes st) ⊆ dom (classes st') /\
  (forall p, cls st' p = if bool_decide (p ∈ l) then set_valid false (cls st p) else cls st p).
Proof.
  revert st. induction l as [|q l IH]; intros st; simpl; [done|].
  destruct (IH (set_class q (set_valid false (cls st q)) st)) as (-> & Hd & Hc).
  split_and!; [done|etrans; [|exact Hd]; simpl; set_solver|].
  intros p. rewrite Hc, cls_set. destruct (decide (q = p)) as [->|Hne].
  - rewrite (bool_decide_true (p ∈ p :: l)) by by constructor. by destruct (bool_decide _).
  - rewrite (bool_decide_ext (p ∈ q :: l) (p ∈ l)) by (rewrite elem_of_cons; naive_solver). done.
Qed.

(** After marking, only the default class is found. *)
Lemma class_mark_delete_spec st :
  class_inv st ->
  let st' := class_mark_delete st in
  class_inv st' /\ connClassList st' = connClassList st /\
  (forall p, cc_name (cls st' p) = cc_name (cls st p) /\ ref_count (cls st' p) = ref_count (cls st p)) /\
  (forall n, is_cstr n -> class_params st' n =
     if bool_decide (lower n = str "default") then class_params st n else None).
Proof.
  intros H st'. destruct (mark_effect (tail (connClassList st)) st) as (Hl & Hd & Hc).
  fold (class_mark_delete st) in Hl, Hd, Hc. fold st' in Hl, Hd, Hc.
  assert (Hsame : forall p, cc_name (cls st' p) = cc_name (cls st p) /\ ref_count (cls st' p) = ref_count (cls st p)).
  { intros p. rewrite Hc. by destruct (bool_decide _). }
  destruct (ci_default _ H) as (h & l & Hh & Hv & Hdef).
  pose proof (ci_nodup _ H) as Hnd. rewrite Hh in Hnd, Hc. apply NoDup_cons in Hnd as [Hhl Hnd]. simpl in Hc.
  assert (H' : class_inv st').
  { constructor; rewrite ?Hl.
    - apply (ci_nodup _ H).
    - intros p Hp. apply Hd. by apply (ci_alloc _ H).
    - intros p Hp. destruct (Hsame p) as [-> _]. by apply (ci_cstr _ H).
    - intros p q Hp Hq. destruct (Hsame p) as [-> _], (Hsame q) as [-> _]. by apply (ci_names _ H).
    - exists h, l. destruct (Hsame h) as [-> _]. rewrite Hc, bool_decide_false by done. done. }
  split_and!; [done..|]. intros n Hn. case_bool_decide as He.
  - apply class_params_ext; try done.
    + assert (Hnh : forall p, named st n p -> p = h).
      { intros p Hp. apply (named_inj st n); [done..|]. split; [rewrite Hh; by constructor|congruence]. }
      intros p. unfold named. rewrite Hl. destruct (Hsame p) as [-> _]. fold (named st n p).
      split; intros [Hp _]; split; try done; rewrite (Hnh p Hp).
      * by rewrite Hc, bool_decide_false.
      * done.
    + intros p Hp Hvp. rewrite Hc. by destruct (bool_decide _).
  - unfold class_params. destruct (find_class st' n) as [p|] eqn:E; [exfalso|done].
    apply find_class_some in E as [[Hp Hpl] Hpv]; [|done..]. rewrite Hl, Hh, elem_of_cons in Hp.
    destruct Hp as [->|Hp].
    + apply He. rewrite <- Hpl. by destruct (Hsame h) as [-> _].
    + by rewrite Hc, bool_decide_true in Hpv.
Qed.

(** What [class_delete_marked] keeps. *)
Definition kept (st : class_state) (p : ptr) : Prop :=
  valid (cls st p) || (ref_count (cls st p) >? 1) = true.

Lemma cls_free p q st : p <> q -> cls (free_class p st) q = cls st q.
Proof. intros. unfold cls. simpl. by rewrite lookup_delete_ne. Qed.

Lemma delete_marked_effect l st :
  NoDup l ->
  let r := delete_marked l st in
  NoDup (fst r) /\ (forall p, p ∈ fst r <-> p ∈ l /\ kept st p) /\
  (forall p, p ∉ l \/ kept st p -> classes (snd r) !! p = classes st !! p).
Proof.
  revert st. induction l as [|q l IH]; intros st Hnd; [cbn; set_solver|].
  apply NoDup_cons in Hnd as [Hq Hnd]. cbn [delete_marked].
  destruct (valid (cls st q) || (ref_count (cls st q) >? 1)) eqn:Ek.
  - specialize (IH st Hnd). destruct (delete_marked l st) as [r st']. simpl in *.
    destruct IH as (Hr & Hel & Hc). split_and!.
    + apply NoDup_cons. by split; [rewrite Hel; tauto|].
    + intros p. rewrite !elem_of_cons, Hel. split; [intros [->|?]; [by split; [left|]|tauto]|tauto].
    + intros p Hp. apply Hc. set_solver.
  - specialize (IH (free_class q st) Hnd). destruct (delete_marked l (free_class q st)) as [r st']. simpl in *.
    destruct IH as (Hr & Hel & Hc).
    assert (Hk : forall p, p <> q -> kept (free_class q st) p <-> kept st p).
    { intros p Hp. unfold kept. by rewrite cls_free. }
    assert (Hnq : ~ kept st q) by (unfold kept; by rewrite Ek).
    split_and!; [done| |].
    + intros p. rewrite Hel, elem_of_cons. destruct (decide (p = q)) as [->|Hp]; [tauto|]. rewrite Hk by done. tauto.
    + intros p Hp. assert (p <> q) as Hpq by (intros ->; set_solver).
      rewrite Hc; [by rewrite lookup_delete_ne|]. rewrite Hk by done. set_solver.
Qed.

Lemma class_delete_marked_spec st :
  class_inv st ->
  exists st', class_delete_marked st = Some st' /\ class_inv st' /\
    (forall p, p ∈ connClassList st' <-> p ∈ connClassList st /\ kept st p) /\
    (forall p, p ∈ connClassList st' -> cls st' p = cls st p) /\
    (forall n, is_cstr n -> class_params st' n = class_params st n).
Proof.
  intros H. destruct (ci_default _ H) as (h & l & Hh & Hv & Hdef).
  pose proof (ci_nodup _ H) as Hnd. rewrite Hh in Hnd. apply NoDup_cons in Hnd as [Hhl Hnd].
  unfold class_delete_marked. rewrite Hh, Hv. simpl.
  destruct (delete_marked_effect l st Hnd) as (Hr & Hel & Hc).
  destruct (delete_marked l st) as [r st2]. simpl in *.
  eexists. split; [done|]. set (st' := Build_class_state _ _ _).
  assert (Hin : forall p, p ∈ connClassList st' <-> p ∈ h :: l /\ kept st p).
  { intros p. unfold st'. simpl. rewrite !elem_of_cons, Hel. split; [|tauto].
    intros [->|?]; [|tauto]. split; [by left|]. unfold kept. by rewrite Hv. }
  assert (Hcls : forall p, p ∈ connClassList st' -> cls st' p = cls st p).
  { intros p Hp. apply Hin in Hp as [_ Hk]. unfold cls, st'. simpl. rewrite Hc by by right. done. }
  assert (Hh' : h ∈ connClassList st') by (unfold st'; by constructor).
  assert (Hsub : forall p, p ∈ connClassList st' -> p ∈ connClassList st) by (intros p Hp; rewrite Hh; by apply Hin).
  assert (H' : class_inv st').
  { constructor.
    - unfold st'. simpl. apply NoDup_cons. split; [rewrite Hel; tauto|done].
    - intros p Hp. pose proof (ci_alloc _ H p (Hsub p Hp)) as Ha. apply Hin in Hp as [_ Hk].
      apply elem_of_dom. apply elem_of_dom in Ha. unfold st'. simpl. rewrite Hc by by right. done.
    - intros p Hp. rewrite Hcls by done. apply (ci_cstr _ H); by apply Hsub.
    - intros p q Hp Hq. rewrite !Hcls by done. apply (ci_names _ H); by apply Hsub.
    - exists h, r. by rewrite Hcls. }
  split_and!; [done|done|done|].
  intros n Hn. apply class_params_ext; try done.
  - intros p. split; intros [[Hp Hl] Hpv].
    + assert (p ∈ connClassList st') as Hp'
        by (apply Hin; split; [by rewrite <- Hh|unfold kept; by rewrite Hpv]).
      unfold named. rewrite Hcls by done. done.
    + split; [split|]; [by apply Hsub|by rewrite <- Hcls|by rewrite <- Hcls].
  - intros p [Hp _] Hpv. rewrite Hcls; [done|]. apply Hin. split; [by rewrite <- Hh|unfold kept; by rewrite Hpv].
Qed.

(** ** The configuration *)

(** A class block of the configuration file, as the parser collects it. *)
Record class_conf := {
  c_name : cstring;
  c_ping : Z;
  c_conn : Z;
  c_links : Z;
  c_sendq : Z;
  c_umode : option cstring
}.

Definition set_umode (um : option cstring) (k : ConnectionClass) : ConnectionClass :=
  {| cc_name := cc_name k; default_umode := um; max_sendq := max_sendq k;
     max_links := max_links k; ref_count := ref_count k; ping_freq := ping_freq k;
     conn_freq := conn_freq k; valid := valid k |}.

(** The action of the rule [classblock]; [None] where [find_class] gives the
    null pointer it then follows. *)
Definition classblock (f : class_features) (st : class_state) (c : class_conf) : option class_state :=
  let st := add_class f (c_name c) (c_ping c) (c_conn c) (c_links c) (c_sendq c) st in
  match find_class st (c_name c) with
  | None => None
  | Some p => Some (set_class p (set_umode (c_umode c) (cls st p)) st)
  end.

Fixpoint classblocks (f : class_features) (cfg : list class_conf) (st : class_state) : option class_state :=
  match cfg with
  | [] => Some st
  | c :: cfg => match classblock f st c with Some st => classblocks f cfg st | None => None end
  end.

(** The part of [rehash] that is about classes. *)
Definition rehash_classes (f : class_features) (cfg : list class_conf) (st : class_state) : option class_state :=
  match classblocks f cfg (class_mark_delete st) with
  | Some st => class_delete_marked st
  | None => None
  end.

(** What a class block makes of the parameters a name stands for. *)
Definition assign (f : class_features) (n : cstring) (o : option (cstring * Z * Z * Z * Z)) (c : class_conf) :=
  if bool_decide (lower n = lower (c_name c))
  then Some (c_name c, w16 (c_ping c), w16 (c_conn c), c_links c,
             if c_sendq c >? 0 then c_sendq c else w32 (DEFAULTMAXSENDQLENGTH f))
  else o.

(** A class that still has connections stays. *)
Definition in_use (st : class_state) (p : ptr) : Prop := p ∈ connClassList st /\ 1 < ref_count (cls st p).

Lemma add_class_in_use f name ping confreq maxli sendq st p :
  class_inv st -> is_cstr name ->
  in_use st p -> in_use (add_class f name ping confreq maxli sendq st) p /\
    ref_count (cls (add_class f name ping confreq maxli sendq st) p) = ref_count (cls st p).
Proof.
  intros H Hn [Hp Hr]. destruct (add_class_effect f name ping confreq maxli sendq st H Hn)
    as (_ & q & Hq & _ & _ & Href & Hel & Hcls & Hold).
  destruct (decide (p = q)) as [<-|Hne].
  - rewrite bool_decide_true in Href by (split; [done|by apply Hold]).
    unfold in_use. by rewrite Href.
  - unfold in_use. rewrite Hel, Hcls by done. done.
Qed.

Lemma set_umode_cls p st um q :
  let st' := set_class p (set_umode um (cls st p)) st in
  params (cls st' q) = params (cls st q) /\ valid (cls st' q) = valid (cls st q) /\
  ref_count (cls st' q) = ref_count (cls st q).
Proof. intros st'. unfold st'. rewrite cls_set. by destruct (decide (p = q)) as [->|]. Qed.

Lemma classblock_spec f c st :
  class_inv st -> is_cstr (c_name c) ->
  exists st', classblock f st c = Some st' /\ class_inv st' /\
    (forall n, is_cstr n -> class_params st' n = assign f n (class_params st n) c) /\
    (forall p, in_use st p -> in_use st' p /\ ref_count (cls st' p) = ref_count (cls st p)).
Proof.
  intros H Hc. unfold classblock.
  set (st1 := add_class f (c_name c) (c_ping c) (c_conn c) (c_links c) (c_sendq c) st).
  assert (Hpar := fun n Hn => add_class_params f (c_name c) (c_ping c) (c_conn c) (c_links c) (c_sendq c) st H Hc n Hn).
  fold st1 in Hpar.
  assert (H1 : class_inv st1) by by apply add_class_effect.
  assert (Hsome := Hpar (c_name c) Hc). rewrite bool_decide_true in Hsome by done.
  unfold class_params in Hsome. destruct (find_class st1 (c_name c)) as [p|] eqn:E; [clear Hsome|done].
  apply find_class_some in E as [[Hp Hl] Hv]; [|done..].
  eexists. split; [done|]. pose proof (set_umode_cls p st1 (c_umode c)) as Hset.
  cbv zeta in Hset. set (st2 := set_class p _ st1) in *.
  assert (Hname : forall q, cc_name (cls st2 q) = cc_name (cls st1 q)).
  { intros q. destruct (Hset q) as [He _]. unfold params in He. by injection He. }
  assert (H2 : class_inv st2) by (apply set_class_inv; try done; by apply (ci_cstr _ H1)).
  split_and!; [done| |].
  - intros n Hn. unfold assign. rewrite <- Hpar by done. apply class_params_ext; try done.
    + intros q. unfold named. destruct (Hset q) as (_ & -> & _). by rewrite Hname.
    + intros q _ _. apply Hset.
  - intros q Hq. apply (add_class_in_use f (c_name c) (c_ping c) (c_conn c) (c_links c) (c_sendq c)) in Hq; [|done..].
    fold st1 in Hq. unfold in_use in *. by destruct (Hset q) as (_ & _ & ->).
Qed.

Lemma classblocks_spec f cfg st :
  class_inv st -> Forall (fun c => is_cstr (c_name c)) cfg ->
  exists st', classblocks f cfg st = Some st' /\ class_inv st' /\
    (forall n, is_cstr n -> class_params st' n = foldl (assign f n) (class_params st n) cfg) /\
    (forall p, in_use st p -> in_use st' p /\ ref_count (cls st' p) = ref_count (cls st p)).
Proof.
  revert st. induction cfg as [|c cfg IH]; intros st H Hc; simpl; [by exists st|].
  apply Forall_cons in Hc as [Hc Hcs]. destruct (classblock_spec f c st H Hc) as (st1 & -> & H1 & Hp1 & Hu1).
  destruct (IH st1 H1 Hcs) as (st2 & -> & H2 & Hp2 & Hu2). exists st2. split_and!; [done..| |].
  - intros n Hn. rewrite Hp2, Hp1 by done. done.
  - intros p Hp. apply Hu1 in Hp as [Hp He]. rewrite <- He. by apply Hu2.
Qed.

(** a rehash never follows a null pointer and makes the classes the
    configuration's: whatever the case of a name, the class found under it
    has the parameters of the last class block of that name, or those it had
    before if it is the default class and has no block, or else there is
    none; every class that is left is configured or in use, every class in use is
    kept with its count of references, and the list stays well formed. *)
Theorem rehash_classes_spec (f : class_features) (cfg : list class_conf) (st : class_state) :
  class_inv st -> Forall (fun c => is_cstr (c_name c)) cfg ->
  exists st', rehash_classes f cfg st = Some st' /\ class_inv st' /\
    (forall n, is_cstr n ->
       class_params st' n =
         foldl (assign f n) (if bool_decide (lower n = str "default") then class_params st n else None) cfg) /\
    (forall p, p ∈ connClassList st' -> valid (cls st' p) = true \/ 1 < ref_count (cls st' p)) /\
    (forall p, in_use st p -> in_use st' p /\ ref_count (cls st' p) = ref_count (cls st p)).
Proof.
  intros H Hc. unfold rehash_classes.
  destruct (class_mark_delete_spec st H) as (H1 & Hl1 & Hs1 & Hp1).
  destruct (classblocks_spec f cfg _ H1 Hc) as (st2 & -> & H2 & Hp2 & Hu2).
  destruct (class_delete_marked_spec st2 H2) as (st3 & -> & H3 & Hin3 & Hc3 & Hp3).
  exists st3. split_and!; [done..| | |].
  - intros n Hn. rewrite Hp3, Hp2, Hp1 by done. done.
  - intros p Hp. rewrite Hc3 by done. apply Hin3 in Hp as [_ Hk]. unfold kept in Hk.
    apply orb_true_iff in Hk as [->|Hk]; [by left|right; lia].
  - intros p [Hp Hr]. destruct (Hs1 p) as [_ Hr1].
    destruct (Hu2 p) as [[Hp2' Hr2] He2]; [split; [by rewrite Hl1|by rewrite Hr1]|].
    assert (p ∈ connClassList st3) as Hp3'.
    { apply Hin3. split; [done|]. unfold kept. apply orb_true_iff. right. lia. }
    unfold in_use. rewrite Hc3 by done. split; [split; [done|lia]|lia].
Qed.

(** The state before any class, and the one [init_class] makes of it. *)
Definition empty_class_state : class_state :=
  {| classes := ∅; connClassList := []; connClassAllocCount := 0 |}.

Definition boot_features : class_features :=
  {| PINGFREQUENCY := 120; CONNECTFREQUENCY := 600; MAXIMUM_LINKS := 1; DEFAULTMAXSENDQLENGTH := 40000 |}.

Lemma init_class_inv (f : class_features) : class_inv (init_class f empty_class_state).
Proof.
  unfold init_class, make_class, empty_class_state. cbn -[fresh set_class]. rewrite dom_empty_L.
  set (h := fresh ∅). set (st := Build_class_state _ _ _). cbn -[set_class].
  set (c := Build_ConnectionClass _ _ _ _ _ _ _ _).
  assert (cls (set_class h c st) h = c) as Hc by apply cls_set_eq.
  constructor; simpl.
  - apply NoDup_singleton.
  - intros p ->%list_elem_of_singleton. set_solver.
  - intros p ->%list_elem_of_singleton. rewrite Hc. by apply (bool_decide_unpack _).
  - intros p q ->%list_elem_of_singleton ->%list_elem_of_singleton. done.
  - exists h, []. rewrite Hc. done.
Qed.

Definition sample_classes : list class_conf :=
  [ {| c_name := str "Users"; c_ping := 90; c_conn := 0; c_links := 100; c_sendq := 0; c_umode := None |};
    {| c_name := str "Opers"; c_ping := 300; c_conn := 0; c_links := 10; c_sendq := 200000;
       c_umode := Some (str "+s") |};
    {| c_name := str "users"; c_ping := 120; c_conn := 0; c_links := 50; c_sendq := 70000; c_umode := None |} ].

Lemma rehash_classes_spec_witness :
  exists st', rehash_classes boot_features sample_classes (init_class boot_features empty_class_state) = Some st' /\
    class_params st' (str "USERS") = Some (str "users", 120, 0, 50, 70000).
Proof.
  destruct (rehash_classes_spec boot_features sample_classes (init_class boot_features empty_class_state))
    as (st' & He & _ & Hp & _).
  - apply init_class_inv.
  - apply (bool_decide_unpack _). vm_compute. exact I.
  - exists st'. split; [exact He|]. rewrite (Hp (str "USERS")); [vm_compute; reflexivity|].
    apply (bool_decide_unpack _). vm_compute. exact I.
Defined.
