(* ===== verification/Msgtab.v ===== *)
(** * The command table (parse.c, msg.h)

    [msgtab] is the list of the commands with the handler of each kind of
    client, a handler being its name.  A [struct Message *] is the number of
    a message: those of [msgtab] come first, the ones that [register_mapping]
    allocates follow.  A trie node is a value: no node is shared. *)
From S2P Require Import Prelude Chattr Strings.
From stdpp Require Import options.
Open Scope Z_scope.

Definition MAXPARA : Z := 15.
Definition MAXPTRLEN : Z := 32.
Definition MFLG_SLOW : Z := 0x01.
Definition MFLG_UNREG : Z := 0x02.
Definition MFLG_IGNORE : Z := 0x04.
Definition MFLG_EXTRA : Z := 0x08.
Definition SMAP_FAST : Z := 1.

Inductive HandlerType :=
| UNREGISTERED_HANDLER
| CLIENT_HANDLER
| SERVER_HANDLER
| OPER_HANDLER
| SERVICE_HANDLER.

#[global] Instance HandlerType_eq_dec : EqDecision HandlerType.
Proof. solve_decision. Defined.

Definition handler_index (h : HandlerType) : nat :=
  match h with
  | UNREGISTERED_HANDLER => 0
  | CLIENT_HANDLER => 1
  | SERVER_HANDLER => 2
  | OPER_HANDLER => 3
  | SERVICE_HANDLER => 4
  end.

(** [extra] is the service mapping of a pseudocommand, by its number. *)
Record Message := {
  cmd : cstring;
  tok : cstring;
  count : Z;
  parameters : Z;
  flags : Z;
  bytes : Z;
  extra : option nat;
  handlers : list string
}.

Definition message (c t : string) (p f : Z) (h : list string) : Message :=
  {| cmd := str c; tok := str t; count := 0; parameters := p; flags := f; bytes := 0; extra := None;
     handlers := h |}.

(** The table of a build with DDB. *)
Definition msgtab : list Message := [
  message "PRIVMSG" "P" MAXPARA MFLG_SLOW ["m_unregistered"; "m_privmsg"; "ms_privmsg"; "mo_privmsg"; "m_ignore"] ;
  message "NICK" "N" MAXPARA (Z.lor MFLG_SLOW MFLG_UNREG) ["m_nick"; "m_nick"; "ms_nick"; "m_nick"; "m_ignore"] ;
  message "NOTICE" "O" MAXPARA (Z.lor MFLG_SLOW MFLG_IGNORE) ["m_ignore"; "m_notice"; "ms_notice"; "mo_notice"; "m_ignore"] ;
  message "WALLCHOPS" "WC" MAXPARA MFLG_SLOW ["m_unregistered"; "m_wallchops"; "ms_wallchops"; "m_wallchops"; "m_ignore"] ;
  message "WALLVOICES" "WV" MAXPARA MFLG_SLOW ["m_unregistered"; "m_wallvoices"; "ms_wallvoices"; "m_wallvoices"; "m_ignore"] ;
  message "CPRIVMSG" "CP" MAXPARA MFLG_SLOW ["m_unregistered"; "m_cprivmsg"; "m_ignore"; "m_cprivmsg"; "m_ignore"] ;
  message "CNOTICE" "CN" MAXPARA MFLG_SLOW ["m_unregistered"; "m_cnotice"; "m_ignore"; "m_cnotice"; "m_ignore"] ;
  message "JOIN" "J" MAXPARA MFLG_SLOW ["m_unregistered"; "m_join"; "ms_join"; "m_join"; "m_ignore"] ;
  message "MODE" "M" MAXPARA MFLG_SLOW ["m_unregistered"; "m_mode"; "ms_mode"; "m_mode"; "m_ignore"] ;
  message "BURST" "B" MAXPARA MFLG_SLOW ["m_ignore"; "m_ignore"; "ms_burst"; "m_ignore"; "m_ignore"] ;
  message "CREATE" "C" MAXPARA MFLG_SLOW ["m_ignore"; "m_ignore"; "ms_create"; "m_ignore"; "m_ignore"] ;
  message "DESTRUCT" "DE" MAXPARA MFLG_SLOW ["m_ignore"; "m_ignore"; "ms_destruct"; "m_ignore"; "m_ignore"] ;
  message "QUIT" "Q" MAXPARA (Z.lor MFLG_SLOW MFLG_UNREG) ["m_quit"; "m_quit"; "ms_quit"; "m_quit"; "m_ignore"] ;
  message "PART" "L" MAXPARA MFLG_SLOW ["m_unregistered"; "m_part"; "ms_part"; "m_part"; "m_ignore"] ;
  message "TOPIC" "T" MAXPARA MFLG_SLOW ["m_unregistered"; "m_topic"; "ms_topic"; "m_topic"; "m_ignore"] ;
  message "INVITE" "I" MAXPARA MFLG_SLOW ["m_unregistered"; "m_invite"; "ms_invite"; "m_invite"; "m_ignore"] ;
  message "KICK" "K" MAXPARA MFLG_SLOW ["m_unregistered"; "m_kick"; "ms_kick"; "m_kick"; "m_ignore"] ;
  message "WALLOPS" "WA" MAXPARA MFLG_SLOW ["m_unregistered"; "m_not_oper"; "ms_wallops"; "mo_wallops"; "m_ignore"] ;
  message "WALLUSERS" "WU" MAXPARA MFLG_SLOW ["m_unregistered"; "m_not_oper"; "ms_wallusers"; "mo_wallusers"; "m_ignore"] ;
  message "DESYNCH" "DS" MAXPARA MFLG_SLOW ["m_ignore"; "m_ignore"; "ms_desynch"; "m_ignore"; "m_ignore"] ;
  message "PING" "G" MAXPARA MFLG_SLOW ["m_unregistered"; "m_ping"; "ms_ping"; "mo_ping"; "m_ignore"] ;
  message "PONG" "Z" MAXPARA (Z.lor MFLG_SLOW MFLG_UNREG) ["mr_pong"; "m_pong"; "ms_pong"; "m_pong"; "m_ignore"] ;
  message "ERROR" "Y" MAXPARA (Z.lor MFLG_SLOW MFLG_UNREG) ["mr_error"; "m_ignore"; "ms_error"; "m_ignore"; "m_ignore"] ;
  message "KILL" "D" MAXPARA MFLG_SLOW ["m_unregistered"; "m_not_oper"; "ms_kill"; "mo_kill"; "m_ignore"] ;
  message "USER" "USER" MAXPARA MFLG_SLOW ["m_user"; "m_registered"; "m_ignore"; "m_registered"; "m_ignore"] ;
  message "AWAY" "A" MAXPARA MFLG_SLOW ["m_unregistered"; "m_away"; "ms_away"; "m_away"; "m_ignore"] ;
  message "ISON" "ISON" 1 MFLG_SLOW ["m_unregistered"; "m_ison"; "m_ignore"; "m_ison"; "m_ignore"] ;
  message "SERVER" "S" MAXPARA (Z.lor MFLG_SLOW MFLG_UNREG) ["mr_server"; "m_registered"; "ms_server"; "m_registered"; "m_ignore"] ;
  message "SQUIT" "SQ" MAXPARA MFLG_SLOW ["m_unregistered"; "m_not_oper"; "ms_squit"; "mo_squit"; "m_ignore"] ;
  message "WHOIS" "W" MAXPARA MFLG_SLOW ["m_unregistered"; "m_whois"; "ms_whois"; "m_whois"; "m_ignore"] ;
  message "WHO" "H" MAXPARA MFLG_SLOW ["m_unregistered"; "m_who"; "m_ignore"; "m_who"; "m_ignore"] ;
  message "WHOWAS" "X" MAXPARA MFLG_SLOW ["m_unregistered"; "m_whowas"; "m_whowas"; "m_whowas"; "m_ignore"] ;
  message "LIST" "LIST" MAXPARA MFLG_SLOW ["m_unregistered"; "m_list"; "m_ignore"; "m_list"; "m_ignore"] ;
  message "NAMES" "E" MAXPARA MFLG_SLOW ["m_unregistered"; "m_names"; "m_names"; "m_names"; "m_ignore"] ;
  message "USERHOST" "USERHOST" 1 MFLG_SLOW ["m_unregistered"; "m_userhost"; "m_ignore"; "m_userhost"; "m_ignore"] ;
  message "USERIP" "USERIP" 1 MFLG_SLOW ["m_unregistered"; "m_userip"; "m_ignore"; "m_userip"; "m_ignore"] ;
  message "TRACE" "TR" MAXPARA MFLG_SLOW ["m_unregistered"; "m_trace"; "ms_trace"; "mo_trace"; "m_ignore"] ;
  message "PASS" "PA" MAXPARA (Z.lor MFLG_SLOW MFLG_UNREG) ["mr_pass"; "m_registered"; "m_ignore"; "m_registered"; "m_ignore"] ;
  message "LUSERS" "LU" MAXPARA MFLG_SLOW ["m_unregistered"; "m_lusers"; "ms_lusers"; "m_lusers"; "m_ignore"] ;
  message "USERS" "US" MAXPARA MFLG_SLOW ["m_unregistered"; "m_users"; "ms_users"; "m_users"; "m_ignore"] ;
  message "TIME" "TI" MAXPARA MFLG_SLOW ["m_unregistered"; "m_time"; "m_time"; "m_time"; "m_ignore"] ;
  message "SETTIME" "SE" MAXPARA MFLG_SLOW ["m_unregistered"; "m_not_oper"; "ms_settime"; "mo_settime"; "m_ignore"] ;
  message "RPING" "RI" MAXPARA MFLG_SLOW ["m_unregistered"; "m_not_oper"; "ms_rping"; "mo_rping"; "m_ignore"] ;
  message "RPONG" "RO" MAXPARA MFLG_SLOW ["m_unregistered"; "m_ignore"; "ms_rpong"; "m_ignore"; "m_ignore"] ;
  message "OPER" "OPER" MAXPARA MFLG_SLOW ["m_unregistered"; "m_oper"; "ms_oper"; "mo_oper"; "m_ignore"] ;
  message "CONNECT" "CO" MAXPARA MFLG_SLOW ["m_unregistered"; "m_not_oper"; "ms_connect"; "mo_connect"; "m_ignore"] ;
  message "MAP" "MAP" MAXPARA MFLG_SLOW ["m_unregistered"; "m_map"; "m_ignore"; "m_map"; "m_ignore"] ;
  message "VERSION" "V" MAXPARA (Z.lor MFLG_SLOW MFLG_UNREG) ["m_version"; "m_version"; "m_version"; "m_version"; "m_ignore"] ;
  message "STATS" "R" MAXPARA MFLG_SLOW ["m_unregistered"; "m_stats"; "m_stats"; "m_stats"; "m_ignore"] ;
  message "LINKS" "LI" MAXPARA MFLG_SLOW ["m_unregistered"; "m_links"; "ms_links"; "m_links"; "m_ignore"] ;
  message "ADMIN" "AD" MAXPARA (Z.lor MFLG_SLOW MFLG_UNREG) ["m_admin"; "m_admin"; "ms_admin"; "mo_admin"; "m_ignore"] ;
  message "HELP" "HELP" MAXPARA MFLG_SLOW ["m_unregistered"; "m_help"; "m_ignore"; "m_help"; "m_ignore"] ;
  message "INFO" "F" MAXPARA MFLG_SLOW ["m_unregistered"; "m_info"; "ms_info"; "mo_info"; "m_ignore"] ;
  message "MOTD" "MO" MAXPARA MFLG_SLOW ["m_unregistered"; "m_motd"; "m_motd"; "m_motd"; "m_ignore"] ;
  message "CLOSE" "CLOSE" MAXPARA MFLG_SLOW ["m_unregistered"; "m_not_oper"; "m_ignore"; "mo_close"; "m_ignore"] ;
  message "SILENCE" "U" MAXPARA MFLG_SLOW ["m_unregistered"; "m_silence"; "ms_silence"; "m_silence"; "m_ignore"] ;
  message "GLINE" "GL" MAXPARA 0 ["m_unregistered"; "m_gline"; "ms_gline"; "mo_gline"; "m_ignore"] ;
  message "JUPE" "JU" MAXPARA MFLG_SLOW ["m_unregistered"; "m_not_oper"; "ms_jupe"; "mo_jupe"; "m_ignore"] ;
  message "OPMODE" "OM" MAXPARA MFLG_SLOW ["m_unregistered"; "m_not_oper"; "ms_opmode"; "mo_opmode"; "m_ignore"] ;
  message "CLEARMODE" "CM" MAXPARA MFLG_SLOW ["m_unregistered"; "m_not_oper"; "ms_clearmode"; "mo_clearmode"; "m_ignore"] ;
  message "UPING" "UP" MAXPARA MFLG_SLOW ["m_unregistered"; "m_not_oper"; "ms_uping"; "mo_uping"; "m_ignore"] ;
  message "END_OF_BURST" "EB" MAXPARA MFLG_SLOW ["m_ignore"; "m_ignore"; "ms_end_of_burst"; "m_ignore"; "m_ignore"] ;
  message "EOB_ACK" "EA" MAXPARA MFLG_SLOW ["m_ignore"; "m_ignore"; "ms_end_of_burst_ack"; "m_ignore"; "m_ignore"] ;
  message "HASH" "HASH" MAXPARA MFLG_SLOW ["m_unregistered"; "m_hash"; "m_hash"; "m_hash"; "m_ignore"] ;
  message "REHASH" "REHASH" MAXPARA MFLG_SLOW ["m_unregistered"; "m_not_oper"; "m_ignore"; "mo_rehash"; "m_ignore"] ;
  message "RESTART" "RESTART" MAXPARA MFLG_SLOW ["m_unregistered"; "m_not_oper"; "m_ignore"; "mo_restart"; "m_ignore"] ;
  message "DIE" "DIE" MAXPARA MFLG_SLOW ["m_unregistered"; "m_not_oper"; "m_ignore"; "mo_die"; "m_ignore"] ;
  message "PROTO" "PROTO" MAXPARA MFLG_SLOW ["m_proto"; "m_proto"; "m_proto"; "m_proto"; "m_ignore"] ;
  message "SET" "SET" MAXPARA MFLG_SLOW ["m_unregistered"; "m_not_oper"; "m_ignore"; "mo_set"; "m_ignore"] ;
  message "RESET" "RESET" MAXPARA MFLG_SLOW ["m_unregistered"; "m_not_oper"; "m_ignore"; "mo_reset"; "m_ignore"] ;
  message "GET" "GET" MAXPARA MFLG_SLOW ["m_unregistered"; "m_not_oper"; "m_ignore"; "mo_get"; "m_ignore"] ;
  message "PRIVS" "PR" MAXPARA MFLG_SLOW ["m_unregistered"; "m_not_oper"; "ms_privs"; "mo_privs"; "m_ignore"] ;
  message "ACCOUNT" "AC" MAXPARA MFLG_SLOW ["m_ignore"; "m_ignore"; "ms_account"; "m_ignore"; "m_ignore"] ;
  message "ASLL" "LL" MAXPARA MFLG_SLOW ["m_ignore"; "m_not_oper"; "ms_asll"; "mo_asll"; "m_ignore"] ;
  message "WEBIRC" "WEBIRC" MAXPARA MFLG_SLOW ["m_webirc"; "m_registered"; "m_ignore"; "m_registered"; "m_ignore"] ;
  message "PROXY" "PROXY" MAXPARA MFLG_SLOW ["mr_proxy"; "m_registered"; "m_ignore"; "m_registered"; "m_ignore"] ;
  message "XQUERY" "XQ" MAXPARA MFLG_SLOW ["m_ignore"; "m_ignore"; "ms_xquery"; "mo_xquery"; "m_ignore"] ;
  message "XREPLY" "XR" MAXPARA MFLG_SLOW ["m_ignore"; "m_ignore"; "ms_xreply"; "m_ignore"; "m_ignore"] ;
  message "CAP" "CAP" MAXPARA 0 ["m_cap"; "m_cap"; "m_ignore"; "m_cap"; "m_ignore"] ;
  message "DB" "DB" MAXPARA MFLG_SLOW ["m_ignore"; "m_ignore"; "ms_db"; "m_ignore"; "m_ignore"] ;
  message "DBQ" "DBQ" MAXPARA MFLG_SLOW ["m_unregistered"; "m_not_oper"; "ms_dbq"; "mo_dbq"; "m_ignore"] ;
  message "BMODE" "BM" MAXPARA MFLG_SLOW ["m_ignore"; "m_ignore"; "ms_bmode"; "m_ignore"; "m_ignore"] ;
  message "GHOST" "GHOST" MAXPARA MFLG_SLOW ["m_unregistered"; "m_ghost"; "m_ignore"; "m_ghost"; "m_ignore"] ;
  message "SVSNICK" "SN" MAXPARA MFLG_SLOW ["m_ignore"; "m_ignore"; "ms_svsnick"; "m_ignore"; "m_ignore"] ;
  message "SVSMODE" "SM" MAXPARA MFLG_SLOW ["m_ignore"; "m_ignore"; "ms_svsmode"; "m_ignore"; "m_ignore"] ;
  message "SVSJOIN" "SJ" MAXPARA MFLG_SLOW ["m_ignore"; "m_ignore"; "ms_svsjoin"; "m_ignore"; "m_ignore"] ;
  message "SVSPART" "SL" MAXPARA MFLG_SLOW ["m_ignore"; "m_ignore"; "ms_svspart"; "m_ignore"; "m_ignore"] ;
  message "POST" "POST" MAXPARA MFLG_SLOW ["m_quit"; "m_ignore"; "m_ignore"; "m_ignore"; "m_ignore"] ;
  message "FINGERPRINT" "FP" MAXPARA 0 ["m_unregistered"; "m_fingerprint"; "m_ignore"; "m_fingerprint"; "m_ignore"] ;
  message "STARTTLS" "STARTTLS" MAXPARA 0 ["m_starttls"; "m_registered"; "m_ignore"; "m_registered"; "m_ignore"] ;
  message "MONITOR" "MONITOR" MAXPARA MFLG_SLOW ["m_unregistered"; "m_monitor"; "m_ignore"; "m_monitor"; "m_ignore"]
].

(** ** The trie *)
Inductive MessageTree := MTree (msg : option nat) (pointers : gmap Z MessageTree).

Definition empty_tree : MessageTree := MTree None ∅.

Definition ptr_slot (c : ascii) : Z := Z.land (code c) (MAXPTRLEN - 1).

Fixpoint add_msg_element (mtree_p : MessageTree) (msg_p : nat) (cmd : cstring) : MessageTree :=
  match mtree_p, cmd with
  | MTree _ ps, [] => MTree (Some msg_p) ps
  | MTree m ps, c :: cmd' =>
      let slot := ptr_slot c in
      match ps !! slot with
      | Some ntree_p => MTree m (<[slot := add_msg_element ntree_p msg_p cmd']> ps)
      | None => MTree m (<[slot := add_msg_element empty_tree msg_p cmd']> ps)
      end
  end.

(** [if (mtree_p->msg) ... for (slot = 0; ...) if (mtree_p->pointers[slot])]. *)
Definition keep_node (m : option nat) (ps : gmap Z MessageTree) : bool :=
  bool_decide (m <> None \/ ps <> ∅).

(** The node after the removal, and whether it is returned (otherwise it is
    freed, unless it is a root).  [None]: a null child is followed. *)
Fixpoint del_msg_element (mtree_p : MessageTree) (cmd : cstring) : option (MessageTree * bool) :=
  match mtree_p, cmd with
  | MTree m ps, [] => Some (MTree None ps, keep_node None ps)
  | MTree m ps, c :: cmd' =>
      let slot := ptr_slot c in
      match ps !! slot with
      | None => None
      | Some child =>
          match del_msg_element child cmd' with
          | None => None
          | Some (child, keep) =>
              let ps := if (keep : bool) then <[slot := child]> ps else delete slot ps in
              Some (MTree m ps, keep_node m ps)
          end
      end
  end.

Fixpoint msg_tree_parse (cmd : cstring) (mtree : MessageTree) : option nat :=
  match mtree, cmd with
  | MTree m _, [] => m
  | MTree _ ps, c :: cmd' =>
      if IsAlpha c then
        match ps !! ptr_slot c with
        | Some mtree => msg_tree_parse cmd' mtree
        | None => None
        end
      else None
  end.

(** ** The parser's tables *)
Record tables_state := {
  messages : gmap nat Message;
  msg_tree : MessageTree;
  tok_tree : MessageTree
}.

Definition initmsgtree : tables_state :=
  {| messages := list_to_map (zip (seq 0 (length msgtab)) msgtab);
     msg_tree := foldl (fun t x => add_msg_element t (fst x) (cmd (snd x))) empty_tree
                   (zip (seq 0 (length msgtab)) msgtab);
     tok_tree := foldl (fun t x => add_msg_element t (fst x) (tok (snd x))) empty_tree
                   (zip (seq 0 (length msgtab)) msgtab) |}.

(** A service mapping: its number, its command, its flags. *)
Record s_map := { map_id : nat; command : cstring; map_flags : Z; map_msg : option nat }.

Definition with_msg (m : option nat) (x : s_map) : s_map :=
  {| map_id := map_id x; command := command x; map_flags := map_flags x; map_msg := m |}.

Definition mapping_message (x : s_map) : Message :=
  {| cmd := command x; tok := command x; count := 0; parameters := 2;
     flags := if Z.land (map_flags x) SMAP_FAST =? 0 then Z.lor MFLG_EXTRA MFLG_SLOW else MFLG_EXTRA;
     bytes := 0; extra := Some (map_id x);
     handlers := ["m_ignore"; "m_pseudo"; "m_ignore"; "m_pseudo"; "m_ignore"] |}.

Definition register_mapping (x : s_map) (st : tables_state) : tables_state * s_map * Z :=
  match msg_tree_parse (command x) (msg_tree st) with
  | Some _ => (st, x, 0)
  | None =>
      let id := fresh (dom (messages st)) in
      ({| messages := <[id := mapping_message x]> (messages st);
          msg_tree := add_msg_element (msg_tree st) id (command x);
          tok_tree := tok_tree st |}, with_msg (Some id) x, 1)
  end.

(** [None]: the mapping has no message, or its command is not in the trie. *)
Definition unregister_mapping (x : s_map) (st : tables_state) : option (tables_state * s_map * Z) :=
  match msg_tree_parse (command x) (msg_tree st) with
  | None => Some (st, x, 0)
  | Some _ =>
      id ← map_msg x;
      m ← messages st !! id;
      '(t, _) ← del_msg_element (msg_tree st) (cmd m);
      Some ({| messages := delete id (messages st); msg_tree := t; tok_tree := tok_tree st |},
            with_msg None x, 1)
  end.

(** ** What the trie stands for *)

(** A trie as a map from keys, the key of a command being the five low bits of
    its characters. *)
Definition key (cmd : cstring) : list Z := map ptr_slot cmd.

Fixpoint tree_get (t : MessageTree) (k : list Z) : option nat :=
  match t, k with
  | MTree m _, [] => m
  | MTree _ ps, x :: k => match ps !! x with Some t => tree_get t k | None => None end
  end.

Definition alpha_cmd (cmd : cstring) : bool := forallb IsAlpha cmd.

Lemma tree_get_empty k : tree_get empty_tree k = None.
Proof. by destruct k. Qed.

Lemma msg_tree_parse_get cmd t :
  msg_tree_parse cmd t = if alpha_cmd cmd then tree_get t (key cmd) else None.
Proof.
  revert t. induction cmd as [|c cmd IH]; intros [m ps]; [done|]. cbn [msg_tree_parse alpha_cmd forallb key map tree_get].
  destruct (IsAlpha c); [|done]. simpl. destruct (ps !! ptr_slot c); [apply IH|].
  by destruct (forallb IsAlpha cmd).
Qed.

Lemma add_get t id cmd k :
  tree_get (add_msg_element t id cmd) k = if decide (key cmd = k) then Some id else tree_get t k.
Proof.
  revert t k. induction cmd as [|c cmd IH]; intros [m ps] k; cbn [add_msg_element key map].
  - by destruct k.
  - set (sub := match ps !! ptr_slot c with Some t => t | None => empty_tree end).
    assert (Hsub : forall k, tree_get sub k = match ps !! ptr_slot c with Some t => tree_get t k | None => None end).
    { intros k'. unfold sub. destruct (ps !! ptr_slot c); [done|apply tree_get_empty]. }
    assert (Hadd : (match ps !! ptr_slot c with
       | Some t => MTree m (<[ptr_slot c := add_msg_element t id cmd]> ps)
       | None => MTree m (<[ptr_slot c := add_msg_element empty_tree id cmd]> ps)
       end) = MTree m (<[ptr_slot c := add_msg_element sub id cmd]> ps)).
    { unfold sub. by destruct (ps !! ptr_slot c). }
    rewrite Hadd. destruct k as [|x k]; [done|]. cbn [tree_get].
    destruct (decide (x = ptr_slot c)) as [->|Hne].
    + rewrite lookup_insert_eq, IH, Hsub. fold (key cmd).
      destruct (decide (key cmd = k)) as [->|]; [by rewrite decide_True|]. rewrite decide_False; [done|congruence].
    + rewrite lookup_insert_ne by congruence. rewrite decide_False; [done|congruence].
Qed.

Lemma keep_node_false m ps : keep_node m ps = false -> m = None /\ ps = ∅.
Proof.
  unfold keep_node. rewrite bool_decide_eq_false. intros H. split.
  - destruct m; [|done]. exfalso. apply H. by left.
  - destruct (decide (ps = ∅)); [done|]. exfalso. apply H. by right.
Qed.

(** Removing a command that is there. *)
Lemma del_get cmd : forall t,
  tree_get t (key cmd) <> None ->
  exists t' keep, del_msg_element t cmd = Some (t', keep) /\
    (forall k, tree_get t' k = if decide (key cmd = k) then None else tree_get t k) /\
    (keep = false -> forall k, tree_get t' k = None).
Proof.
  assert (Hkeep : forall m ps, keep_node m ps = false -> forall k, tree_get (MTree m ps) k = None).
  { intros m ps Hk k. apply keep_node_false in Hk as [-> ->]. by destruct k. }
  induction cmd as [|c cmd IH]; intros [m ps] Hget; cbn [key map tree_get del_msg_element] in *.
  - eexists _, _. split; [done|]. split; [|apply Hkeep]. by intros [|x k].
  - destruct (ps !! ptr_slot c) as [child|] eqn:Ec; [|done].
    destruct (IH child Hget) as (child' & keep & -> & Hc & Hf). eexists _, _. split; [done|].
    split; [|apply Hkeep]. intros [|x k]; [done|]. cbn [tree_get].
    destruct (decide (x = ptr_slot c)) as [->|Hne].
    + rewrite Ec. transitivity (tree_get child' k).
      * destruct keep; [by rewrite lookup_insert_eq|]. rewrite lookup_delete_eq. by rewrite Hf.
      * rewrite Hc. fold (key cmd). destruct (decide (key cmd = k)) as [->|]; [by rewrite decide_True|].
        rewrite decide_False; [done|congruence].
    + rewrite decide_False by congruence.
      destruct keep; [by rewrite lookup_insert_ne|by rewrite lookup_delete_ne].
Qed.

(** For letters, the five low bits are the letter up to case. *)
Lemma slot_alpha c d : IsAlpha c = true -> IsAlpha d = true -> ptr_slot c = ptr_slot d <-> ToLower c = ToLower d.
Proof.
  assert (Hall : forallb (fun c => forallb (fun d =>
      negb (IsAlpha c && IsAlpha d) || Bool.eqb (ptr_slot c =? ptr_slot d) (ToLower c =c ToLower d))
      (map chr (seqZ 0 256))) (map chr (seqZ 0 256)) = true) by by vm_compute.
  assert (Hin : forall c, In c (map chr (seqZ 0 256))).
  { intros x. apply in_map_iff. exists (code x). rewrite chr_code. split; [done|].
    apply list_elem_of_In, elem_of_seqZ. pose proof (code_range x). lia. }
  intros Hc Hd. rewrite forallb_forall in Hall. specialize (Hall c (Hin c)). rewrite forallb_forall in Hall.
  specialize (Hall d (Hin d)). rewrite Hc, Hd in Hall. simpl in Hall. apply eqb_prop in Hall.
  rewrite <- Z.eqb_eq, Hall. apply ch_eqb_eq.
Qed.

Lemma key_lower a b : alpha_cmd a = true -> alpha_cmd b = true -> key a = key b <-> lower a = lower b.
Proof.
  revert b. induction a as [|c a IH]; intros [|d b]; try done. cbn [alpha_cmd forallb key lower map].
  intros [Hc Ha]%andb_prop [Hd Hb]%andb_prop. specialize (IH b Ha Hb). pose proof (slot_alpha c d Hc Hd).
  unfold key, lower in *. split; intros [= H1 H2]; f_equal; tauto.
Qed.

(** Whether a command entered under the name [c] is found under [n]. *)
Definition answers (c n : cstring) : bool :=
  alpha_cmd c && alpha_cmd n && bool_decide (lower c = lower n).

(** Entering a list of commands with distinct keys, numbered from [s]. *)
Lemma fold_get (f : Message -> cstring) l : forall t s k,
  NoDup (map (key ∘ f) l) ->
  tree_get (foldl (fun t x => add_msg_element t (fst x) (f (snd x))) t (zip (seq s (length l)) l)) k =
  match list_find (fun m => key (f m) = k) l with
  | Some (i, _) => Some (s + i)%nat
  | None => tree_get t k
  end.
Proof.
  induction l as [|m l IH]; intros t s k Hnd; [done|].
  cbn [map] in Hnd. apply NoDup_cons in Hnd as [Hm Hnd]. cbn [length seq zip zip_with foldl list_find].
  rewrite IH by done. cbn [fst snd]. destruct (decide (key (f m) = k)) as [<-|Hne].
  - destruct (list_find _ l) as [[i m']|] eqn:E.
    + apply list_find_Some in E as (Hi & He & _). exfalso. apply Hm.
      change ((key ∘ f) m) with (key (f m)). rewrite <- He. apply list_elem_of_In.
      apply in_map_iff. exists m'. split; [done|]. apply list_elem_of_In. by eapply list_elem_of_lookup_2.
    + rewrite add_get, decide_True by done. f_equal. lia.
  - destruct (list_find _ l) as [[i m']|]; simpl; [f_equal; lia|]. by rewrite add_get, decide_False.
Qed.

(** No other character of the commands collides with a letter. *)
Definition letter_key (k : list Z) : bool := forallb (fun z => (1 <=? z) && (z <=? 30)) k.

Lemma alpha_letter_key n : alpha_cmd n = true -> letter_key (key n) = true.
Proof.
  unfold alpha_cmd, letter_key, key. intros H. rewrite forallb_forall in *. intros z Hz.
  apply in_map_iff in Hz as (c & <- & Hc). specialize (H c Hc). clear Hc. revert c H. all_chars.
Qed.

Lemma fold_parse (f : Message -> cstring) l n :
  NoDup (map (key ∘ f) l) ->
  Forall (fun m => alpha_cmd (f m) || negb (letter_key (key (f m))) = true) l ->
  msg_tree_parse n (foldl (fun t x => add_msg_element t (fst x) (f (snd x))) empty_tree
                      (zip (seq 0 (length l)) l)) =
  fst <$> list_find (fun m => answers (f m) n = true) l.
Proof.
  intros Hnd Hl. rewrite msg_tree_parse_get, fold_get by done. rewrite tree_get_empty.
  transitivity (fst <$> (if alpha_cmd n then list_find (fun m => key (f m) = key n) l else None)).
  { destruct (alpha_cmd n); [|done]. by destruct (list_find _ l) as [[i m]|]. }
  f_equal. clear Hnd. induction Hl as [|m l Hm Hl IH]; [by destruct (alpha_cmd n)|].
  cbn [list_find]. rewrite <- IH. unfold answers. destruct (alpha_cmd n) eqn:Hn.
  - destruct (alpha_cmd (f m)) eqn:Hf; simpl.
    + pose proof (key_lower (f m) n Hf Hn). destruct (decide (key (f m) = key n)), (bool_decide_reflect (lower (f m) = lower n));
        try tauto; rewrite ?decide_True by done; rewrite ?decide_False by done; done.
    + destruct (decide (key (f m) = key n)) as [He|]; [|done].
      simpl in Hm. rewrite He, (alpha_letter_key n Hn) in Hm. done.
  - rewrite andb_false_r. simpl. done.
Qed.

(** C40: the two tries built at start-up recognise the commands whose names
    are made of letters.  Looking a word up finds the command of [msgtab]
    whose name (or token) is made of letters and is the word up to their case,
    and nothing else: the five bits per character that the trie keeps lose
    nothing.  A name with another character, END_OF_BURST or EOB_ACK, is in
    the table and never found. *)
Theorem initmsgtree_finds n :
  msg_tree_parse n (msg_tree initmsgtree) = fst <$> list_find (fun m => answers (cmd m) n = true) msgtab /\
  msg_tree_parse n (tok_tree initmsgtree) = fst <$> list_find (fun m => answers (tok m) n = true) msgtab.
Proof.
  split; apply fold_parse.
  all: try (apply (bool_decide_unpack _); by vm_compute).
  all: apply Forall_forall; intros m Hm; apply list_elem_of_In in Hm; revert m Hm; apply forallb_forall; by vm_compute.
Qed.

Example commands_found :
  (m ← msg_tree_parse (str "PrivMsg") (msg_tree initmsgtree); msg_tree_parse (str "p") (tok_tree initmsgtree)) = Some 0%nat /\
  msg_tree_parse (str "END_OF_BURST") (msg_tree initmsgtree) = None /\
  msg_tree_parse (str "PRIVMS") (msg_tree initmsgtree) = None.
Proof. by vm_compute. Qed.

(** registering the command of a service works unless the name is taken,
    and is undone by unregistering it.  When the result is not 0 the trie
    answers the new name, in any case, and all the names it answered before;
    unregistering then succeeds and leaves the answers as they were.  When it
    is 0 nothing has changed and some command has that name. *)
Theorem mapping_roundtrip x st :
  alpha_cmd (command x) = true ->
  let '(st', x', r) := register_mapping x st in
  (r = 0 /\ st' = st /\ msg_tree_parse (command x) (msg_tree st) <> None) \/
  (r = 1 /\ msg_tree_parse (command x) (msg_tree st) = None /\
   exists id, map_msg x' = Some id /\ messages st' !! id = Some (mapping_message x) /\
     (forall n, msg_tree_parse n (msg_tree st') =
        if answers (command x) n then Some id else msg_tree_parse n (msg_tree st)) /\
     exists st'', unregister_mapping x' st' = Some (st'', with_msg None x', 1) /\
       messages st'' = messages st /\ tok_tree st'' = tok_tree st /\
       forall n, msg_tree_parse n (msg_tree st'') = msg_tree_parse n (msg_tree st)).
Proof.
  intros Ha. unfold register_mapping. destruct (msg_tree_parse (command x) (msg_tree st)) as [i|] eqn:E; [by left|].
  right. set (id := fresh (dom (messages st))). split; [done|]. split; [done|]. exists id. split; [done|].
  cbn [messages msg_tree tok_tree]. split; [by rewrite lookup_insert_eq|].
  rewrite msg_tree_parse_get, Ha in E. split.
  - intros n. rewrite !msg_tree_parse_get, add_get. unfold answers. rewrite Ha. destruct (alpha_cmd n) eqn:Hn; [|done].
    simpl. pose proof (key_lower (command x) n Ha Hn).
    destruct (decide (key (command x) = key n)), (bool_decide_reflect (lower (command x) = lower n)); tauto.
  - unfold unregister_mapping. cbn [command with_msg msg_tree map_msg messages tok_tree].
    rewrite msg_tree_parse_get, Ha, add_get, decide_True by done. cbn [mbind option_bind].
    rewrite lookup_insert_eq. cbn [mbind option_bind mapping_message cmd].
    destruct (del_get (command x) (add_msg_element (msg_tree st) id (command x))) as (t' & keep & -> & Ht & _).
    { by rewrite add_get, decide_True. }
    cbn [mbind option_bind]. eexists. split; [done|]. cbn [messages msg_tree tok_tree].
    split; [|split; [done|]].
    + apply delete_insert_id. apply not_elem_of_dom. apply is_fresh.
    + intros n. rewrite !msg_tree_parse_get. destruct (alpha_cmd n); [|done]. rewrite Ht, add_get.
      by destruct (decide (key (command x) = key n)) as [<-|].
Qed.

Lemma mapping_roundtrip_witness :
  let x := {| map_id := 7; command := str "Chan"; map_flags := 0; map_msg := None |} in
  alpha_cmd (command x) = true /\
  exists st' x', register_mapping x initmsgtree = (st', x', 1) /\
    exists id, msg_tree_parse (str "CHAN") (msg_tree st') = Some id.
Proof.
  intros x. assert (Ha : alpha_cmd (command x) = true) by (vm_compute; reflexivity). split; [exact Ha|].
  pose proof (mapping_roundtrip x initmsgtree Ha) as H.
  destruct (register_mapping x initmsgtree) as [[st' x'] r].
  destruct H as [(_ & _ & H)|(Hr & _ & id & _ & _ & Hn & _)].
  - exfalso. apply H. vm_compute. reflexivity.
  - exists st', x'. subst r. split; [reflexivity|]. exists id. rewrite Hn. vm_compute. reflexivity.
Defined.

(** ** The invariant of the tables *)

(** Which handlers a kind of client may be given: the handlers of servers and
    of operators are for them only, and a service is always ignored. *)
Definition allowed (h : HandlerType) (name : string) : bool :=
  match h with
  | UNREGISTERED_HANDLER | CLIENT_HANDLER => negb (String.prefix "ms_" name) && negb (String.prefix "mo_" name)
  | SERVER_HANDLER => negb (String.prefix "mo_" name) && negb (String.prefix "mr_" name)
  | OPER_HANDLER => negb (String.prefix "ms_" name) && negb (String.prefix "mr_" name)
  | SERVICE_HANDLER => bool_decide (name = "m_ignore")
  end.

Definition all_handlers : list HandlerType :=
  [UNREGISTERED_HANDLER; CLIENT_HANDLER; SERVER_HANDLER; OPER_HANDLER; SERVICE_HANDLER].

Definition handlers_ok (l : list string) : bool :=
  forallb (fun h => match l !! handler_index h with Some name => allowed h name | None => false end) all_handlers.

Record tables_inv (st : tables_state) : Prop := {
  ti_msg : forall k id, tree_get (msg_tree st) k = Some id ->
    exists m, messages st !! id = Some m /\ key (cmd m) = k /\ handlers_ok (handlers m) = true;
  ti_tok : forall k id, tree_get (tok_tree st) k = Some id ->
    exists m, messages st !! id = Some m /\ key (tok m) = k /\ extra m = None /\ handlers_ok (handlers m) = true
}.

Lemma handlers_ok_lookup l h :
  handlers_ok l = true -> exists name, l !! handler_index h = Some name /\ allowed h name = true.
Proof.
  unfold handlers_ok. rewrite forallb_forall. intros H. specialize (H h ltac:(destruct h; simpl; tauto)).
  destruct (l !! handler_index h) as [name|]; [by exists name|done].
Qed.

Lemma initmsgtree_inv : tables_inv initmsgtree.
Proof.
  assert (Hall : forallb (fun m => handlers_ok (handlers m) && bool_decide (extra m = None)) msgtab = true) by by vm_compute.
  rewrite forallb_forall in Hall.
  assert (Hlook : forall (f : Message -> cstring) k i m, list_find (fun m => key (f m) = k) msgtab = Some (i, m) ->
    messages initmsgtree !! i = Some m /\ key (f m) = k /\ extra m = None /\ handlers_ok (handlers m) = true).
  { intros f k i m Hf. apply list_find_Some in Hf as (Hi & Hk & _).
    assert (Hin : In m msgtab) by (apply list_elem_of_In; by eapply list_elem_of_lookup_2).
    apply Hall, andb_prop in Hin as [Hh He]. apply bool_decide_eq_true in He. split_and!; try done.
    unfold initmsgtree. cbn [messages]. apply elem_of_list_to_map.
    - rewrite fst_zip by by rewrite length_seq. apply NoDup_ListNoDup, seq_NoDup.
    - apply list_elem_of_lookup. exists i. apply lookup_zip_with_Some. exists i, m. split; [done|]. split; [|done].
      apply lookup_seq. split; [lia|]. by eapply lookup_lt_Some. }
  constructor; intros k id; unfold initmsgtree; cbn [msg_tree tok_tree]; rewrite fold_get
    by (apply (bool_decide_unpack _); by vm_compute); rewrite tree_get_empty.
  - destruct (list_find _ msgtab) as [[i m]|] eqn:E; [|done]. intros [= <-].
    destruct (Hlook cmd k i m E) as (? & ? & ? & ?). by exists m.
  - destruct (list_find _ msgtab) as [[i m]|] eqn:E; [|done]. intros [= <-].
    destruct (Hlook tok k i m E) as (? & ? & ? & ?). by exists m.
Qed.

(** Updating the counters of a message. *)
Definition upd_message (id : nat) (f : Message -> Message) (t : tables_state) : tables_state :=
  {| messages := alter f id (messages t); msg_tree := msg_tree t; tok_tree := tok_tree t |}.

Definition counter_update (f : Message -> Message) : Prop :=
  forall m, cmd (f m) = cmd m /\ tok (f m) = tok m /\ extra (f m) = extra m /\ handlers (f m) = handlers m.

Lemma upd_message_inv id f t : counter_update f -> tables_inv t -> tables_inv (upd_message id f t).
Proof.
  intros Hf [H1 H2]. constructor; intros k i Hk; cbn [upd_message messages msg_tree tok_tree] in *.
  - destruct (H1 k i Hk) as (m & Hm & ? & ?). destruct (Hf m) as (E1 & E2 & E3 & E4).
    destruct (decide (i = id)) as [->|]; [exists (f m); rewrite lookup_alter_eq, Hm; simpl; by rewrite E1, E4|].
    exists m. by rewrite lookup_alter_ne by done.
  - destruct (H2 k i Hk) as (m & Hm & ? & ? & ?). destruct (Hf m) as (E1 & E2 & E3 & E4).
    destruct (decide (i = id)) as [->|]; [exists (f m); rewrite lookup_alter_eq, Hm; simpl; by rewrite E2, E3, E4|].
    exists m. by rewrite lookup_alter_ne by done.
Qed.

(** A registered mapping: its message is that of a pseudocommand of its name. *)
Definition registered (x : s_map) (st : tables_state) : Prop :=
  exists id m, map_msg x = Some id /\ messages st !! id = Some m /\ cmd m = command x /\ extra m <> None.

Inductive table_op := TRegister (x : s_map) | TUnregister (x : s_map).

Definition run_table_op (o : table_op) (st : tables_state) : option (tables_state * s_map * Z) :=
  match o with
  | TRegister x => Some (register_mapping x st)
  | TUnregister x => unregister_mapping x st
  end.

Definition table_op_pre (o : table_op) (st : tables_state) : Prop :=
  match o with
  | TRegister _ => True
  | TUnregister x => registered x st
  end.

(** the tables of commands stay consistent.  The start-up tables satisfy
    the invariant that every word a trie answers leads to an allocated
    message of that name, whose handlers respect the kind of client; the
    registration of any mapping and the removal of a registered one keep it,
    and neither follows a null pointer. *)
Theorem tables_inv_step o st :
  tables_inv st -> table_op_pre o st ->
  tables_inv initmsgtree /\
  exists st' x' r, run_table_op o st = Some (st', x', r) /\ tables_inv st'.
Proof.
  intros [H1 H2] Hpre. split; [apply initmsgtree_inv|]. destruct o as [x|x]; cbn [run_table_op table_op_pre] in *.
  - unfold register_mapping. destruct (msg_tree_parse (command x) (msg_tree st)); [by eexists _, _, _|].
    eexists _, _, _. split; [done|]. set (id := fresh (dom (messages st))).
    assert (Hid : forall i m, messages st !! i = Some m -> i <> id).
    { intros i m Hm ->. apply elem_of_dom_2 in Hm. by apply is_fresh in Hm. }
    constructor; intros k i; cbn [messages msg_tree tok_tree].
    + rewrite add_get. destruct (decide (key (command x) = k)) as [<-|].
      * intros [= <-]. exists (mapping_message x). rewrite lookup_insert_eq. split; [done|]. split; [done|].
        cbn [mapping_message handlers]. by vm_compute.
      * intros Hk. destruct (H1 k i Hk) as (m & Hm & ?). exists m.
        rewrite lookup_insert_ne; [done|]. intros He. by apply (Hid i m Hm).
    + intros Hk. destruct (H2 k i Hk) as (m & Hm & ?). exists m.
      rewrite lookup_insert_ne; [done|]. intros He. by apply (Hid i m Hm).
  - unfold unregister_mapping. destruct Hpre as (id & m & Hx & Hm & Hc & He).
    destruct (msg_tree_parse (command x) (msg_tree st)) as [i|] eqn:E; [|by eexists _, _, _].
    rewrite Hx. cbn [mbind option_bind]. rewrite Hm. cbn [mbind option_bind]. rewrite Hc.
    rewrite msg_tree_parse_get in E. destruct (alpha_cmd (command x)); [|done].
    destruct (del_get (command x) (msg_tree st)) as (t' & keep & -> & Ht & _); [by rewrite E|].
    cbn [mbind option_bind]. eexists _, _, _. split; [done|].
    constructor; intros k j; cbn [messages msg_tree tok_tree].
    + rewrite Ht. destruct (decide (key (command x) = k)) as [|Hne]; [done|]. intros Hk.
      destruct (H1 k j Hk) as (m' & Hm' & Hk' & ?). exists m'. rewrite lookup_delete_ne; [done|].
      intros <-. apply Hne. congruence.
    + intros Hk. destruct (H2 k j Hk) as (m' & Hm' & Hk' & ? & ?). exists m'. rewrite lookup_delete_ne; [done|].
      intros <-. congruence.
Qed.

Lemma tables_inv_step_witness :
  exists st' x' r,
    run_table_op (TRegister {| map_id := 7; command := str "Chan"; map_flags := 0; map_msg := None |}) initmsgtree
    = Some (st', x', r) /\ tables_inv st'.
Proof.
  apply (tables_inv_step (TRegister {| map_id := 7; command := str "Chan"; map_flags := 0; map_msg := None |})
           initmsgtree).
  - apply initmsgtree_inv.
  - exact I.
Defined.
