(* ===== verification/Directory.v ===== *)
(** * The directory of clients, an interface

    What the parser needs of the hash tables (hash.c) and of the numeric nicks
    (numnicks.c): [FindClient], [FindNServer] and [findNUser], with the names
    of the clients.  The laws are those the parser's theorems are proved
    from; the instance is the pair of components as they are modelled, a
    client being numbered from 0 in one and from 1 in the other. *)
From S2P Require Import Prelude Chattr Strings Match Address Base64 Numnicks Chain Hash.
From stdpp Require Import options.
Open Scope Z_scope.

Class Directory (D : Type) := {
  find_client : D -> cstring -> option (D * option nat);
  find_n_server : D -> cstring -> option nat;
  find_n_user : D -> cstring -> option nat;
  dir_name : D -> nat -> cstring
}.

Class DirectoryLaws (D : Type) `{Directory D} := {
  dir_ok : D -> Prop;
  find_client_total : forall d n, dir_ok d -> is_cstr n ->
    exists d' r, find_client d n = Some (d', r) /\ dir_ok d' /\
      (forall c, dir_name d' c = dir_name d c) /\
      (forall c, r = Some c -> lower (dir_name d c) = lower n);
  dir_name_cstr : forall d c, dir_ok d -> is_cstr (dir_name d c)
}.

(** ** The instance *)
Record client_tables := {
  ct_crc : list Z;
  ct_hash : htable;
  ct_status : ptr -> Z;
  ct_name : ptr -> cstring;
  ct_nn : nnstate
}.

Definition ptr_of (c : nat) : ptr := Pos.of_succ_nat c.
Definition cid_of (p : ptr) : nat := Nat.pred (Pos.to_nat p).

(** The macro [FindClient]: [hSeekClient] with every status bit. *)
Definition FindClient (t : client_tables) (name : cstring) : option (client_tables * option nat) :=
  match name with
  | [] => Some (t, None)
  | _ =>
      match hSeekClient (ct_crc t) (ct_name t) (ct_status t) (ct_hash t) name (-1) with
      | Some (h, r) =>
          Some ({| ct_crc := ct_crc t; ct_hash := h; ct_status := ct_status t; ct_name := ct_name t;
                   ct_nn := ct_nn t |}, option_map cid_of r)
      | None => None
      end
  end.

#[export] Instance tables_directory : Directory client_tables := {
  find_client := FindClient;
  find_n_server t := FindNServer (ct_nn t);
  find_n_user t := findNUser (ct_nn t);
  dir_name t c := ct_name t (ptr_of c)
}.

Lemma ptr_of_cid p : ptr_of (cid_of p) = p.
Proof. unfold ptr_of, cid_of. lia. Qed.

(** The table represents a set of clients with their names. *)
Definition tables_dir_ok (t : client_tables) : Prop :=
  (exists L, tab_rep (ct_crc t) (ct_name t) (ct_hash t) L) /\ (forall p, is_cstr (ct_name t p)).

Lemma FindClient_total t n :
  tables_dir_ok t -> is_cstr n ->
  exists t' r, FindClient t n = Some (t', r) /\ tables_dir_ok t' /\
    (forall c, ct_name t' (ptr_of c) = ct_name t (ptr_of c)) /\
    (forall c, r = Some c -> lower (ct_name t (ptr_of c)) = lower n).
Proof.
  intros H Hn. destruct n as [|x n]; [by exists t, None|]. destruct H as [[L HL] Hcs].
  assert (Hne : x :: n <> []) by discriminate. destruct (strhash_some (ct_crc t) _ Hne) as [h Hh].
  unfold FindClient, hSeekClient. match goal with |- context [hSeek _ ?f] => set (ok := f) end.
  destruct (hSeek_rep (ct_crc t) (ct_name t) (ct_hash t) L ok (x :: n) h HL Hh) as (h' & r & -> & Hr).
  eexists _, _. split; [done|]. split; [|split; [done|]].
  - split; [|done]. destruct (extract ok (L h)) as [[p l]|]; destruct Hr as [_ Hr]; [by eexists|].
    rewrite Hr. by exists L.
  - intros c Hc. destruct (extract ok (L h)) as [[p l]|] eqn:E; destruct Hr as [-> _]; [|done].
    injection Hc as <-. rewrite ptr_of_cid.
    apply extract_some in E as (l1 & l2 & _ & _ & Hok & _).
    apply andb_prop in Hok as [_ Hok]. apply strcmp_eqb_lower in Hok; [done|done|apply Hcs].
Qed.

#[export] Instance tables_directory_laws : DirectoryLaws client_tables := {
  dir_ok := tables_dir_ok;
  find_client_total := FindClient_total;
  dir_name_cstr t c H := proj2 H (ptr_of c)
}.
