(* ===== verification/Parse.v ===== *)
(** * Parsing a line (parse.c)

    The input buffer is memory: the characters from a pointer on, the NUL of
    the line and whatever lies behind it, so that what the code reads past
    the end of a short line is in the model.  A handler is not run: the result
    of parsing is the call, with its parameters. *)
From S2P Require Import Prelude Chattr Strings Base64 Numnicks Chain Hash Msgtab Directory.
From stdpp Require Import options.
Open Scope Z_scope.

(** ** Pointers into the buffer *)

(** The string at a pointer, and the first word there. *)
Fixpoint text (p : list ascii) : cstring :=
  match p with
  | [] => []
  | c :: p => if c =c NUL then [] else c :: text p
  end.

Definition at_space (p : list ascii) : bool := deref p =c " ".

Fixpoint first_word (p : list ascii) : cstring :=
  match p with
  | [] => []
  | c :: p => if (c =c " ") || (c =c NUL) then [] else c :: first_word p
  end.

(** To the next space, or the end of the string. *)
Fixpoint after_word (p : list ascii) : list ascii :=
  match p with
  | [] => []
  | c :: p' => if (c =c " ") || (c =c NUL) then p else after_word p'
  end.

(** Past the spaces. *)
Fixpoint skip_spaces (p : list ascii) : list ascii :=
  match p with
  | [] => []
  | c :: p' => if c =c " " then skip_spaces p' else p
  end.

(** [strchr(ch, ' ')]. *)
Definition find_space (p : list ascii) : option (list ascii) :=
  if at_space (after_word p) then Some (after_word p) else None.

(** The loop that splits the parameters, from [para[i + 1]] on. *)
Fixpoint params_loop (n : nat) (numeric : bool) (paramcount i : Z) (s : list ascii) : list cstring :=
  match n with
  | O => []
  | S n =>
      let s := skip_spaces s in
      if deref s =c NUL then []
      else if deref s =c ":" then [text (if numeric then s else tail s)]
      else
        let i := i + 1 in
        if paramcount <=? i then [text s]
        else first_word s :: params_loop n numeric paramcount i (after_word s)
  end.

Definition split_params (numeric : bool) (paramcount i : Z) (s : option (list ascii)) : list cstring :=
  match s with
  | None => []
  | Some s =>
      let paramcount := if paramcount >? MAXPARA then MAXPARA else paramcount in
      params_loop (S (length s)) numeric paramcount i s
  end.

(** ** State and results *)
Record ServerStats := { is_empt : Z; is_unco : Z; is_unpf : Z; is_wrdi : Z; is_num : Z }.

Inductive stat := Empt | Unco | Unpf | Wrdi | Num.

Definition bump (s : stat) (x : ServerStats) : ServerStats :=
  match s with
  | Empt => {| is_empt := w32 (is_empt x + 1); is_unco := is_unco x; is_unpf := is_unpf x; is_wrdi := is_wrdi x; is_num := is_num x |}
  | Unco => {| is_empt := is_empt x; is_unco := w32 (is_unco x + 1); is_unpf := is_unpf x; is_wrdi := is_wrdi x; is_num := is_num x |}
  | Unpf => {| is_empt := is_empt x; is_unco := is_unco x; is_unpf := w32 (is_unpf x + 1); is_wrdi := is_wrdi x; is_num := is_num x |}
  | Wrdi => {| is_empt := is_empt x; is_unco := is_unco x; is_unpf := is_unpf x; is_wrdi := w32 (is_wrdi x + 1); is_num := is_num x |}
  | Num => {| is_empt := is_empt x; is_unco := is_unco x; is_unpf := is_unpf x; is_wrdi := is_wrdi x; is_num := w32 (is_num x + 1) |}
  end.

(** What is sent. *)
Inductive output :=
| OUnknownCommand (c : cstring)     (* ERR_UNKNOWNCOMMAND *)
| OMissingPrefix                    (* protocol_violation *)
| OKillNumeric (prefix : cstring).  (* KILL upstream *)

(** A parameter: a string, or the service mapping of a pseudocommand. *)
Inductive para := PText (s : cstring) | PExtra (m : option nat).

Inductive parse_result :=
| Return (z : Z)
| Call (handler : string) (from : nat) (parv : list para)
| DoNumeric (numeric : Z) (nnn : bool) (from : nat) (parv : list para)
| NullMessage.                      (* mptr is null and is followed *)

(** What the parser reads of the clients. *)
Record clients := {
  cli_from : nat -> nat;
  is_dead : nat -> bool;
  is_user : nat -> bool;
  is_an_oper : nat -> bool;
  cli_handler : nat -> HandlerType
}.

Section parse.
Context {D : Type} `{!Directory D} (cl : clients).

(** [since] and [last] are those of the client that sends. *)
Record pstate := {
  ps_tables : tables_state;
  ps_dir : D;
  ps_stats : ServerStats;
  ps_since : Z;
  ps_last : Z;
  ps_out : list output
}.

Definition count_stat (s : stat) (st : pstate) : pstate :=
  {| ps_tables := ps_tables st; ps_dir := ps_dir st; ps_stats := bump s (ps_stats st);
     ps_since := ps_since st; ps_last := ps_last st; ps_out := ps_out st |}.

Definition send (o : output) (st : pstate) : pstate :=
  {| ps_tables := ps_tables st; ps_dir := ps_dir st; ps_stats := ps_stats st;
     ps_since := ps_since st; ps_last := ps_last st; ps_out := ps_out st ++ [o] |}.

Definition with_tables (f : tables_state -> tables_state) (st : pstate) : pstate :=
  {| ps_tables := f (ps_tables st); ps_dir := ps_dir st; ps_stats := ps_stats st;
     ps_since := ps_since st; ps_last := ps_last st; ps_out := ps_out st |}.

Definition with_dir (d : D) (st : pstate) : pstate :=
  {| ps_tables := ps_tables st; ps_dir := d; ps_stats := ps_stats st;
     ps_since := ps_since st; ps_last := ps_last st; ps_out := ps_out st |}.

Definition with_times (since last : Z) (st : pstate) : pstate :=
  {| ps_tables := ps_tables st; ps_dir := ps_dir st; ps_stats := ps_stats st;
     ps_since := since; ps_last := last; ps_out := ps_out st |}.

Definition add_bytes (i : Z) (m : Message) : Message :=
  {| cmd := cmd m; tok := tok m; count := count m; parameters := parameters m; flags := flags m;
     bytes := w32 (bytes m + i); extra := extra m; handlers := handlers m |}.

Definition add_count (m : Message) : Message :=
  {| cmd := cmd m; tok := tok m; count := w32 (count m + 1); parameters := parameters m; flags := flags m;
     bytes := bytes m; extra := extra m; handlers := handlers m |}.

Definition msg_of (st : pstate) (id : nat) : option Message := messages (ps_tables st) !! id.

(** [mptr->handlers[cli_handler(cptr)]]. *)
Definition handler_of (m : Message) (cptr : nat) : option string :=
  handlers m !! handler_index (cli_handler cl cptr).

(** The number of bytes from [p] to [bufend], [blen] being the distance of
    [bufend] from the start of [buffer]. *)
Definition bytes_from (buffer p : list ascii) (blen : Z) : Z :=
  blen - (Z.of_nat (length buffer) - Z.of_nat (length p)).

(** Past the sender prefix that a client may write. *)
Definition client_prefix (buffer : list ascii) : list ascii :=
  let ch := skip_spaces buffer in
  if deref ch =c ":" then skip_spaces (after_word (tail ch)) else ch.

(** [parse_client]. *)
Definition parse_client (IDLE_FROM_MSG : bool) (CurrentTime : Z) (cptr : nat) (buffer : list ascii) (blen : Z)
  (st : pstate) : option (parse_result * pstate) :=
  if is_dead cl cptr then Some (Return 0, st)
  else
    let from := cptr in
    let ch := client_prefix buffer in
    if deref ch =c NUL then Some (Return (-1), count_stat Empt st)
    else
      let s := tail <$> find_space ch in
      let command := first_word ch in
      match msg_tree_parse command (msg_tree (ps_tables st)) with
      | None =>
          let st := if negb (deref buffer =c NUL) && is_user cl from
                    then send (OUnknownCommand command) st else st in
          Some (Return (-1), count_stat Unco st)
      | Some mptr =>
          m ← msg_of st mptr;
          let i := bytes_from buffer (default ch s) blen in
          let st := with_tables (upd_message mptr (add_bytes i)) st in
          let st := if negb (Z.land (flags m) MFLG_SLOW =? 0) || negb (is_an_oper cl cptr)
                    then with_times (ps_since st + (2 + Z.quot i 120)) (ps_last st) st else st in
          let head := if Z.land (flags m) MFLG_EXTRA =? 0 then [] else [PExtra (extra m)] in
          let parv := PText (dir_name (ps_dir st) from) :: head ++
                      map PText (split_params false (parameters m) (Z.of_nat (length head)) s) in
          let st := with_tables (upd_message mptr add_count) st in
          handler ← handler_of m cptr;
          let st := if negb IDLE_FROM_MSG && is_user cl cptr && negb (String.eqb handler "m_ping")
                       && negb (String.eqb handler "m_ignore")
                    then with_times (ps_since st) CurrentTime st else st in
          Some (Call handler from parv, st)
      end.

(** The numeric prefix: at most five characters. *)
Fixpoint numeric_prefix (n : nat) (p : list ascii) : cstring :=
  match n with
  | O => []
  | S n => if (deref p =c NUL) || at_space p then [] else deref p :: numeric_prefix n (tail p)
  end.

(** A message whose sender has gone that may still pass: a SQUIT, and a KILL
    when the prefix is numeric. *)
Definition passes_name (ch : list ascii) : bool := char_at ch 1 =c "Q".
Definition passes_numeric (ch : list ascii) : bool :=
  (char_at ch 1 =c "Q") || ((deref ch =c "D") && (char_at ch 1 =c " ")) ||
  ((deref ch =c "K") && (char_at ch 2 =c "L")).

(** The first half of [parse_server], to the sender, its name and the rest of
    the line, or the value returned. *)
Definition server_prefix (cptr : nat) (buffer : list ascii) (st : pstate)
  : option ((parse_result + nat * cstring * list ascii) * pstate) :=
  if deref buffer =c ":" then
    let para0 := first_word (tail buffer) in
    match find_space buffer with
    | None => Some (inl (Return (-1)), st)
    | Some ch =>
        let ch := tail ch in
        '(d, from) ← find_client (ps_dir st) para0;
        let st := with_dir d st in
        match from with
        | None =>
            let st := count_stat Unpf st in
            let ch := skip_spaces ch in
            if passes_name ch then Some (inr (cptr, dir_name (ps_dir st) cptr, ch), st)
            else Some (inl (Return 0), st)
        | Some from =>
            if decide (cli_from cl from = cptr) then Some (inr (from, para0, ch), st)
            else Some (inl (Return 0), count_stat Wrdi st)
        end
    end
  else
    let np := numeric_prefix 5 buffer in
    let '(from, st) :=
      if decide (np = []) then (Some cptr, send OMissingPrefix st)
      else if (char_at buffer 1 =c " ") || (char_at buffer 2 =c " ") then (find_n_server (ps_dir st) np, st)
      else (find_n_user (ps_dir st) np, st) in
    let ch := after_word (tail buffer) in
    let '(from, ch, st) :=
      match from with
      | Some from => (Some from, ch, st)
      | None =>
          let st := count_stat Unpf st in
          let ch := skip_spaces ch in
          let st :=
            if (deref ch =c "N") && ((char_at ch 1 =c " ") || (char_at ch 1 =c "I")) then
              match find_n_server (ps_dir st) np with
              | Some server => if decide (cli_from cl server = cptr) then send (OKillNumeric np) st else st
              | None => st
              end
            else st in
          if passes_numeric ch then (Some cptr, ch, st) else (None, ch, st)
      end in
    match from with
    | None => Some (inl (Return 0), st)
    | Some from =>
        if decide (cli_from cl from = cptr) then Some (inr (from, dir_name (ps_dir st) from, ch), st)
        else Some (inl (Return 0), count_stat Wrdi st)
    end.

Definition numeric_of (ch : list ascii) : Z :=
  (char_val (deref ch) - 48) * 100 + (char_val (char_at ch 1) - 48) * 10 + (char_val (char_at ch 2) - 48).

(** The second half: the command and its parameters. *)
Definition server_command (cptr : nat) (buffer : list ascii) (blen : Z) (from : nat) (para0 : cstring)
  (ch : list ascii) (st : pstate) : option (parse_result * pstate) :=
  let ch := skip_spaces ch in
  if deref ch =c NUL then Some (Return (-1), count_stat Empt st)
  else
    let s := find_space ch in
    let len := match s with Some s => (length ch - length s)%nat | None => 0%nat end in
    if (len =? 3)%nat && IsDigit (deref ch) then
      let numeric := numeric_of ch in
      let st := count_stat Num st in
      let parv := PText para0 :: map PText (split_params (negb (numeric =? 0)) 2 0 s) in
      if numeric =? 0 then Some (NullMessage, st)
      else Some (DoNumeric numeric (negb (deref buffer =c ":")) from parv, st)
    else
      let s := tail <$> s in
      let command := first_word ch in
      match (match msg_tree_parse command (tok_tree (ps_tables st)) with
             | Some mptr => Some mptr
             | None => msg_tree_parse command (msg_tree (ps_tables st))
             end) with
      | None => Some (Return (-1), count_stat Unco st)
      | Some mptr =>
          m ← msg_of st mptr;
          let st := with_tables (upd_message mptr (add_bytes (bytes_from buffer (default ch s) blen))) st in
          let parv := PText para0 :: map PText (split_params false (parameters m) 0 s) in
          let st := with_tables (upd_message mptr add_count) st in
          handler ← handler_of m cptr;
          Some (Call handler from parv, st)
      end.

Definition parse_server (cptr : nat) (buffer : list ascii) (blen : Z) (st : pstate)
  : option (parse_result * pstate) :=
  if is_dead cl cptr then Some (Return 0, st)
  else
    '(r, st) ← server_prefix cptr buffer st;
    match r with
    | inl r => Some (r, st)
    | inr (from, para0, ch) => server_command cptr buffer blen from para0 ch st
    end.

End parse.
Arguments pstate D : clear implicits.

(** ** Splitting *)

Lemma skip_spaces_repeat n p : skip_spaces (repeat " "%char n ++ p) = skip_spaces p.
Proof. by induction n. Qed.

Lemma skip_spaces_idem p : skip_spaces (skip_spaces p) = skip_spaces p.
Proof. induction p as [|c p IH]; [done|]. cbn [skip_spaces]. destruct (c =c " ") eqn:E; [done|]. cbn [skip_spaces]. by rewrite E. Qed.

Lemma skip_spaces_length p : (length (skip_spaces p) <= length p)%nat.
Proof. induction p as [|c p IH]; [done|]. simpl. destruct (c =c " "); simpl; lia. Qed.

Lemma after_word_length p : (length (after_word p) <= length p)%nat.
Proof. induction p as [|c p IH]; [done|]. simpl. destruct (_ || _); simpl; lia. Qed.

(** A word of a line: characters other than the space and NUL. *)
Definition wordc (w : cstring) : Prop := Forall (fun c => c <> " "%char /\ c <> NUL) w.

#[global] Instance wordc_dec w : Decision (wordc w).
Proof. unfold wordc. apply _. Defined.

Definition ends_word (p : list ascii) : Prop := p = [] \/ deref p = " "%char \/ deref p = NUL.

Lemma ends_cons c p : ends_word (c :: p) -> (c =c " ") || (c =c NUL) = true.
Proof.
  intros [?|[H|H]]; [done|simpl in H; subst c..]; by vm_compute.
Qed.

Lemma wordc_cons c w : wordc (c :: w) -> (c =c " ") || (c =c NUL) = false /\ wordc w.
Proof.
  unfold wordc. rewrite Forall_cons. intros [[H1 H2] Hw]. split; [|done].
  apply orb_false_iff. by rewrite !ch_eqb_neq.
Qed.

Lemma word_app w p : wordc w -> ends_word p -> first_word (w ++ p) = w.
Proof.
  intros Hw Hp. induction w as [|c w IH]; simpl.
  - destruct p as [|c p]; [done|]. simpl. by rewrite (ends_cons c p).
  - apply wordc_cons in Hw as [Hc Hw]. rewrite Hc. f_equal. by apply IH.
Qed.

Lemma after_word_app w p : wordc w -> ends_word p -> after_word (w ++ p) = p.
Proof.
  intros Hw Hp. induction w as [|c w IH]; simpl.
  - destruct p as [|c p]; [done|]. simpl. by rewrite (ends_cons c p).
  - apply wordc_cons in Hw as [Hc Hw]. rewrite Hc. by apply IH.
Qed.

Lemma text_app s junk : is_cstr s -> text (s ++ NUL :: junk) = s.
Proof.
  induction s as [|c s IH]; intros Hs; [done|]. apply is_cstr_cons in Hs as [Hc Hs]. simpl.
  rewrite (proj2 (ch_eqb_neq c NUL)) by done. f_equal. by apply IH.
Qed.

Lemma wordc_cstr w : wordc w -> is_cstr w.
Proof. intros H. eapply Forall_impl; [exact H|]. by intros c [_ ?]. Qed.

(** A parameter that is not the last one. *)
Definition middle (w : cstring) : Prop := w <> [] /\ deref w <> ":"%char /\ wordc w.

#[global] Instance middle_dec w : Decision (middle w).
Proof. unfold middle. apply _. Defined.

(** Parameters as they are written: each after one space and [n] more, the
    last one perhaps after a colon. *)
Fixpoint render_params (ps : list (nat * cstring)) (trailing : option (nat * cstring)) : cstring :=
  match ps with
  | (n, w) :: ps => " "%char :: repeat " "%char n ++ w ++ render_params ps trailing
  | [] => match trailing with
          | Some (n, t) => " "%char :: repeat " "%char n ++ ":"%char :: t
          | None => []
          end
  end.

Definition params_of (ps : list (nat * cstring)) (trailing : option (nat * cstring)) : list cstring :=
  map snd ps ++ match trailing with Some (_, t) => [t] | None => [] end.

Definition params_ok (ps : list (nat * cstring)) (trailing : option (nat * cstring)) : Prop :=
  Forall (fun x => middle (snd x)) ps /\ match trailing with Some (_, t) => is_cstr t | None => True end.

#[global] Instance params_ok_dec ps trailing : Decision (params_ok ps trailing).
Proof. unfold params_ok. destruct trailing as [[]|]; apply _. Defined.

Lemma render_ends ps trailing junk : ends_word (render_params ps trailing ++ NUL :: junk).
Proof.
  destruct ps as [|[n w] ps]; [destruct trailing as [[n t]|]|]; simpl; right; auto.
Qed.

Lemma skip_middle w p : middle w -> skip_spaces (w ++ p) = w ++ p /\ (deref (w ++ p) =c NUL) = false /\
  (deref (w ++ p) =c ":") = false.
Proof.
  intros (Hne & Hc & Hw). destruct w as [|c w]; [done|]. apply wordc_cons in Hw as [Hcw _].
  apply orb_false_iff in Hcw as [Hs Hn]. simpl. rewrite Hs. split; [done|]. split; [done|]. by apply ch_eqb_neq.
Qed.

Lemma text_last w junk : middle w -> text (w ++ NUL :: junk) = w.
Proof. intros (_ & _ & Hw). apply text_app. by apply wordc_cstr. Qed.

Lemma params_loop_render numeric pc trailing junk ps : forall n i,
  params_ok ps trailing ->
  (length (render_params ps trailing ++ NUL :: junk) < n)%nat ->
  i + Z.of_nat (length (params_of ps trailing)) <= pc ->
  params_loop n numeric pc i (render_params ps trailing ++ NUL :: junk) =
  match trailing with
  | Some (_, t) => map snd ps ++ [if numeric then ":"%char :: t else t]
  | None => map snd ps
  end.
Proof.
  induction ps as [|[k w] ps IH]; intros n i [Hps Htr] Hn Hi; (destruct n as [|n]; [lia|]).
  - destruct trailing as [[k t]|]; [|done]. cbn [render_params params_loop app].
    change (skip_spaces (" "%char :: ?p)) with (skip_spaces p).
    rewrite <- app_assoc, skip_spaces_repeat. simpl. destruct numeric; simpl; by rewrite text_app.
  - apply Forall_cons in Hps as [Hw Hps]. cbn [snd] in Hw. cbn [render_params params_loop app].
    change (skip_spaces (" "%char :: ?p)) with (skip_spaces p).
    rewrite <- app_assoc, skip_spaces_repeat, <- app_assoc.
    destruct (skip_middle w (render_params ps trailing ++ NUL :: junk) Hw) as (-> & -> & ->).
    unfold params_of in Hi. cbn [map app length] in Hi.
    pose proof (render_ends ps trailing junk) as He. destruct Hw as (Hne & Hcol & Hwc).
    assert (Hlen : (length (render_params ps trailing ++ NUL :: junk) < n)%nat).
    { cbn [render_params app length] in Hn. repeat (rewrite ?length_app in Hn; cbn [length] in Hn).
      rewrite length_app. cbn [length]. lia. }
    destruct (Z.leb_spec pc (i + 1)) as [Hle|Hlt].
    + destruct ps as [|p ps], trailing as [[k' t]|]; try (unfold params_of in Hi; cbn [map app length] in Hi; rewrite ?length_app in Hi; simpl in Hi; lia).
      simpl. f_equal. apply text_app. by apply wordc_cstr.
    + rewrite word_app, after_word_app by done. rewrite IH by (try split; try done; unfold params_of; lia).
      by destruct trailing as [[k' t]|].
Qed.

(** The number of parameters. *)
Lemma params_loop_bound numeric pc n : forall i s,
  Z.of_nat (length (params_loop n numeric pc i s)) <= Z.max 1 (pc - i).
Proof.
  induction n as [|n IH]; intros i s; simpl; [lia|]. destruct (_ =c NUL); [simpl; lia|].
  destruct (_ =c ":"); [simpl; lia|]. destruct (Z.leb_spec pc (i + 1)); [simpl; lia|].
  specialize (IH (i + 1) (after_word (skip_spaces s))). cbn [length]. lia.
Qed.

Lemma split_params_bound numeric pc i s : 0 <= i -> i <= 1 ->
  Z.of_nat (length (split_params numeric pc i s)) <= Z.max 1 (Z.min pc MAXPARA - i).
Proof.
  intros Hi Hi1. destruct s as [s|]; [|simpl; lia]. unfold split_params.
  pose proof (params_loop_bound numeric (if pc >? MAXPARA then MAXPARA else pc) (S (length s)) i s).
  destruct (Z.gtb_spec pc MAXPARA); lia.
Qed.

(** Fuel beyond the length of the string changes nothing. *)
Lemma params_loop_fuel numeric pc n n' : forall i s,
  (length (skip_spaces s) < n)%nat -> (length (skip_spaces s) < n')%nat ->
  params_loop n numeric pc i s = params_loop n' numeric pc i s.
Proof.
  revert n'. induction n as [|n IH]; intros [|n'] i s Hn Hn'; try lia. cbn [params_loop].
  destruct (skip_spaces s) as [|c p] eqn:Es; [done|].
  destruct (deref (c :: p) =c NUL) eqn:E1; [done|]. destruct (_ =c ":"); [done|]. destruct (pc <=? i + 1); [done|].
  f_equal. assert (Hc : (c =c " ") || (c =c NUL) = false).
  { apply orb_false_iff. split; [|done]. destruct (ch_eqb_spec c " "); [exfalso; subst c|done].
    clear -Es. induction s as [|d s IH]; [done|]. simpl in Es. destruct (ch_eqb_spec d " "); [by apply IH|congruence]. }
  assert (Hl : (length (skip_spaces (after_word (c :: p))) <= length p)%nat).
  { etrans; [apply skip_spaces_length|]. simpl. rewrite Hc. apply after_word_length. }
  simpl in Hn, Hn'. apply IH; lia.
Qed.

(** ** The client's parser *)
Section client.
Context {D : Type} `{DirectoryLaws D} (cl : clients).
Implicit Types (st : pstate D) (m : Message).

(** A line and the buffer that holds it. *)
Definition line_mem (line junk : list ascii) : list ascii := line ++ NUL :: junk.

(** The counters of a message after a line of [i] bytes. *)
Definition touched (id : nat) (i : Z) (t : tables_state) : tables_state :=
  upd_message id add_count (upd_message id (add_bytes i) t).

Lemma touched_inv id i t : tables_inv t -> tables_inv (touched id i t).
Proof. intros Ht. by repeat apply upd_message_inv. Qed.

(** [parse_client] on a live client, for the command at [ch]. *)
Lemma parse_client_cases idle now cptr buffer blen st :
  is_dead cl cptr = false -> tables_inv (ps_tables st) ->
  let ch := client_prefix buffer in
  let s := tail <$> find_space ch in
  exists r st', parse_client cl idle now cptr buffer blen st = Some (r, st') /\ ps_dir st' = ps_dir st /\
    tables_inv (ps_tables st') /\
    match (if deref ch =c NUL then None else msg_tree_parse (first_word ch) (msg_tree (ps_tables st))) with
    | None => r = Return (-1) /\ ps_tables st' = ps_tables st /\ ps_since st' = ps_since st /\
        ps_stats st' = bump (if deref ch =c NUL then Empt else Unco) (ps_stats st) /\
        ps_out st' = ps_out st ++ if negb (deref ch =c NUL) && is_user cl cptr then [OUnknownCommand (first_word ch)] else []
    | Some id => exists m name, messages (ps_tables st) !! id = Some m /\
        handlers m !! handler_index (cli_handler cl cptr) = Some name /\
        allowed (cli_handler cl cptr) name = true /\
        r = Call name cptr (PText (dir_name (ps_dir st) cptr) ::
              (if Z.land (flags m) MFLG_EXTRA =? 0 then [] else [PExtra (extra m)]) ++
              map PText (split_params false (parameters m)
                (if Z.land (flags m) MFLG_EXTRA =? 0 then 0 else 1) s)) /\
        ps_tables st' = touched id (bytes_from buffer (default ch s) blen) (ps_tables st) /\
        ps_stats st' = ps_stats st /\ ps_out st' = ps_out st
    end.
Proof.
  intros Hd Ht ch s. unfold parse_client. rewrite Hd. fold ch s.
  destruct (deref ch =c NUL) eqn:En; [eexists _, _; split; [done|]; split_and!; try done; by rewrite app_nil_r|].
  destruct (msg_tree_parse (first_word ch) (msg_tree (ps_tables st))) as [id|] eqn:E.
  - rewrite msg_tree_parse_get in E. destruct (alpha_cmd (first_word ch)); [|done].
    destruct (ti_msg _ Ht _ _ E) as (m & Hm & _ & Hh). unfold msg_of. rewrite Hm. cbn [mbind option_bind].
    destruct (handlers_ok_lookup _ (cli_handler cl cptr) Hh) as (name & Hn & Hal).
    unfold handler_of. rewrite Hn. cbn [mbind option_bind].
    eexists _, _. split; [done|]. split; [by repeat case_match|].
    assert (Htab : forall st0 : pstate D, ps_tables (if negb idle && is_user cl cptr && negb (String.eqb name "m_ping")
              && negb (String.eqb name "m_ignore") then with_times (ps_since st0) now st0 else st0) = ps_tables st0)
      by (intros st0; by destruct (_ && _)).
    rewrite Htab. cbn [with_tables ps_tables].
    assert (Htab2 : forall (b : bool) z1 z2 (st0 : pstate D), ps_tables (if b then with_times z1 z2 st0 else st0) = ps_tables st0)
      by (intros []; done).
    rewrite Htab2. cbn [with_tables ps_tables]. split; [by apply (touched_inv id _ (ps_tables st))|].
    exists m, name. split_and!; try done; try (by repeat case_match).
  - assert (Hb : (deref buffer =c NUL) = false).
    { destruct (deref buffer =c NUL) eqn:Eb; [|done]. rewrite <- En. unfold ch, client_prefix.
      destruct buffer as [|c p]; [done|]. simpl in Eb. destruct (ch_eqb_spec c NUL) as [->|]; done. }
    rewrite Hb. cbn [negb andb]. eexists _, _. split; [done|]. destruct (is_user cl cptr); split_and!; try done; by rewrite app_nil_r.
Qed.

(** What a client may write before the command. *)
Definition client_start (n : nat) (prefix : option (cstring * nat)) : cstring :=
  repeat " "%char n ++
  match prefix with
  | Some (w, k) => ":"%char :: w ++ " "%char :: repeat " "%char k
  | None => []
  end.

Lemma client_prefix_start n prefix p :
  match prefix with Some (w, _) => wordc w | None => True end ->
  match p with c :: _ => c <> " "%char /\ c <> ":"%char | [] => True end ->
  client_prefix (client_start n prefix ++ p) = p.
Proof.
  intros Hw Hp. unfold client_prefix, client_start.
  assert (Hskip : forall k, skip_spaces (repeat " "%char k ++ p) = p).
  { intros k. rewrite skip_spaces_repeat. destruct p as [|c p]; [done|]. simpl.
    by rewrite (proj2 (ch_eqb_neq c " ") (proj1 Hp)). }
  rewrite <- app_assoc, skip_spaces_repeat. destruct prefix as [[w k]|]; simpl.
  - rewrite <- app_assoc. simpl. rewrite after_word_app by (try done; right; by left).
    change (skip_spaces (" "%char :: ?p)) with (skip_spaces p). apply Hskip.
  - rewrite (Hskip 0%nat : skip_spaces p = p). destruct p as [|c p]; [done|]. simpl.
    by rewrite (proj2 (ch_eqb_neq c ":") (proj2 Hp)).
Qed.

Lemma find_space_render c ps trailing junk :
  wordc c ->
  find_space (c ++ render_params ps trailing ++ NUL :: junk) =
  match render_params ps trailing with [] => None | r => Some (r ++ NUL :: junk) end.
Proof.
  intros Hc. unfold find_space. rewrite after_word_app by (done || apply render_ends).
  destruct ps as [|[n w] ps]; [destruct trailing as [[n t]|]|]; done.
Qed.

Lemma split_params_render numeric pc i ps trailing junk :
  params_ok ps trailing -> i + Z.of_nat (length (params_of ps trailing)) <= Z.min pc MAXPARA ->
  split_params numeric pc i
    (tail <$> match render_params ps trailing with [] => None | r => Some (r ++ NUL :: junk) end) =
  match trailing with
  | Some (_, t) => map snd ps ++ [if numeric then ":"%char :: t else t]
  | None => map snd ps
  end.
Proof.
  intros Hok Hi. destruct (render_params ps trailing) as [|c r] eqn:Er.
  { by destruct ps as [|[n w] ps], trailing as [[k t]|]. }
  assert (Hsp : c = " "%char) by (destruct ps as [|[n w] ps], trailing as [[k t]|]; simpl in Er; congruence).
  subst c. cbn [fmap option_fmap option_map app tail split_params].
  assert (Hstep : forall n pc i p, params_loop (S n) numeric pc i (" "%char :: p) = params_loop (S n) numeric pc i p) by done.
  rewrite <- Hstep.
  change (" "%char :: r ++ NUL :: junk) with ((" "%char :: r) ++ NUL :: junk). rewrite <- Er.
  set (pc' := if pc >? MAXPARA then MAXPARA else pc).
  assert (Hpc : i + Z.of_nat (length (params_of ps trailing)) <= pc') by (unfold pc'; destruct (Z.gtb_spec pc MAXPARA); lia).
  rewrite (params_loop_fuel numeric pc' _ (S (length (render_params ps trailing ++ NUL :: junk)))).
  - apply params_loop_render; [done|lia|done].
  - rewrite Er. pose proof (skip_spaces_length (r ++ NUL :: junk)). simpl. lia.
  - pose proof (skip_spaces_length (render_params ps trailing ++ NUL :: junk)). lia.
Qed.

(** C19: lines are split into the parameters they were written from.  For a
    live client, whatever spaces stand around and whatever sender prefix the
    client pretends to, a line made of a command the trie answers, parameters
    without spaces and perhaps a last one after a colon, no more of them than
    the command takes (at most 15), is parsed into a call of the message's
    handler for that kind of client, with the name of the client and exactly
    those parameters; what lies behind the line in the buffer has no
    influence. *)
Theorem parse_client_call idle now cptr n prefix c ps trailing junk blen st id m :
  is_dead cl cptr = false -> tables_inv (ps_tables st) ->
  match prefix with Some (w, _) => wordc w | None => True end ->
  c <> [] -> msg_tree_parse c (msg_tree (ps_tables st)) = Some id ->
  messages (ps_tables st) !! id = Some m -> Z.land (flags m) MFLG_EXTRA = 0 ->
  params_ok ps trailing -> Z.of_nat (length (params_of ps trailing)) <= Z.min (parameters m) MAXPARA ->
  exists name st',
    parse_client cl idle now cptr (line_mem (client_start n prefix ++ c ++ render_params ps trailing) junk) blen st =
      Some (Call name cptr (map PText (dir_name (ps_dir st) cptr :: params_of ps trailing)), st') /\
    handlers m !! handler_index (cli_handler cl cptr) = Some name /\ ps_dir st' = ps_dir st.
Proof using H0.
  intros Hd Ht Hw Hne Hid Hm Hex Hps Hn.
  assert (Hc : alpha_cmd c = true) by (rewrite msg_tree_parse_get in Hid; by destruct (alpha_cmd c)).
  assert (Hwc : wordc c).
  { unfold alpha_cmd in Hc. rewrite forallb_forall in Hc. apply Forall_forall. intros x Hx.
    apply list_elem_of_In, Hc in Hx. revert x Hx. all_chars. }
  set (buffer := line_mem _ junk).
  assert (Hch : client_prefix buffer = c ++ render_params ps trailing ++ NUL :: junk).
  { unfold buffer, line_mem. rewrite <- !app_assoc. apply client_prefix_start; [done|].
    destruct c as [|x c]; [done|]. cbn [alpha_cmd forallb] in Hc. apply andb_prop in Hc as [Hc _].
    simpl. clear -Hc. revert x Hc. all_chars. }
  destruct (parse_client_cases idle now cptr buffer blen st Hd Ht) as (r & st' & He & Hdir & _ & Hr).
  rewrite Hch in Hr. rewrite find_space_render in Hr by done.
  rewrite word_app in Hr by (done || apply render_ends).
  assert (Hnul : (deref (c ++ render_params ps trailing ++ NUL :: junk) =c NUL) = false).
  { destruct c as [|x c]; [done|]. apply wordc_cons in Hwc as [Hx _]. by apply orb_false_iff in Hx as [_ ?]. }
  rewrite Hnul, Hid in Hr. destruct Hr as (m' & name & Hm' & Hname & _ & -> & _).
  rewrite Hm in Hm'. injection Hm' as <-. rewrite Hex in He.
  change (0 =? 0) with true in He. cbv iota in He. rewrite app_nil_l in He.
  rewrite split_params_render in He by done.
  exists name, st'. rewrite He. split; [|done]. do 2 f_equal. cbn [map]. do 2 f_equal.
  unfold params_of. destruct trailing as [[k t]|]; [done|by rewrite app_nil_r].
Qed.

(** C20: no client reaches a handler that is not for it.  Whatever bytes a
    live local client sends, parsing them ends; the tables stay consistent
    and the directory is not touched.  When the line holds no command the
    result is -1, the counter of empty messages is one more (modulo 2^32) and
    nothing is sent; when the command is unknown the result is -1, the
    counter of unknown commands is one more, and a registered user, nobody
    else, is told so; in both cases nothing else changes in the counters and
    no message is counted.  Otherwise it is the call of a handler that is
    allowed for that kind of client (so never a handler for servers or,
    unless it is one, for operators) on behalf of the client itself, with at
    most 15 parameters after the name; it is the handler of the command found,
    whose count is one more, and the counters of errors stay. *)
Theorem parse_client_safe idle now cptr buffer blen st (c := client_prefix buffer) (x := ps_stats st) :
  is_dead cl cptr = false -> tables_inv (ps_tables st) ->
  exists r st', parse_client cl idle now cptr buffer blen st = Some (r, st') /\
    tables_inv (ps_tables st') /\ ps_dir st' = ps_dir st /\
    match r with
    | Return z => z = -1 /\ ps_tables st' = ps_tables st /\
        ((deref c = NUL /\ ps_out st' = ps_out st /\
          ps_stats st' = {| is_empt := w32 (is_empt x + 1); is_unco := is_unco x; is_unpf := is_unpf x; is_wrdi := is_wrdi x; is_num := is_num x |}) \/
         (deref c <> NUL /\ msg_tree_parse (first_word c) (msg_tree (ps_tables st)) = None /\
          ps_out st' = ps_out st ++ (if is_user cl cptr then [OUnknownCommand (first_word c)] else []) /\
          ps_stats st' = {| is_empt := is_empt x; is_unco := w32 (is_unco x + 1); is_unpf := is_unpf x; is_wrdi := is_wrdi x; is_num := is_num x |}))
    | Call name from parv => from = cptr /\ allowed (cli_handler cl cptr) name = true /\
        head parv = Some (PText (dir_name (ps_dir st) cptr)) /\ Z.of_nat (length parv) <= MAXPARA + 1 /\
        ps_stats st' = x /\ ps_out st' = ps_out st /\
        exists id m m', msg_tree_parse (first_word c) (msg_tree (ps_tables st)) = Some id /\
          messages (ps_tables st) !! id = Some m /\ handlers m !! handler_index (cli_handler cl cptr) = Some name /\
          messages (ps_tables st') !! id = Some m' /\ count m' = w32 (count m + 1)
    | _ => False
    end.
Proof using H0.
  intros Hd Ht. destruct (parse_client_cases idle now cptr buffer blen st Hd Ht) as (r & st' & He & Hdir & Ht' & Hr).
  exists r, st'. split_and!; try done. revert Hr. fold c.
  destruct (ch_eqb_spec (deref c) NUL) as [Hn|Hn].
  { intros (-> & ? & _ & Hx & Ho). cbn [negb andb] in Ho. rewrite app_nil_r in Ho. split_and!; [done..|]. by left. }
  destruct (msg_tree_parse _ _) as [id|]; [|intros (-> & ? & _ & Hx & Ho); split_and!; [done..|by right]].
  intros (m & name & Hm & Hh & Ha & -> & Ht1 & Hx & Ho). split_and!; try done.
  - cbn [length]. rewrite length_app, length_map. unfold MAXPARA.
    set (e := Z.land (flags m) MFLG_EXTRA =? 0).
    pose proof (split_params_bound false (parameters m) (if e then 0 else 1)
      (tail <$> find_space c) ltac:(by destruct e) ltac:(by destruct e)).
    unfold MAXPARA in *. destruct e; simpl; lia.
  - eexists id, m, _. split_and!; try done; [rewrite Ht1; unfold touched, upd_message; cbn [messages]; by rewrite !lookup_alter_eq, Hm|done].
Qed.

End client.

(** ** The server's parser *)
Section server.
Context {D : Type} `{DirectoryLaws D} (cl : clients).
Implicit Types (st : pstate D).

Lemma word_cstr p : is_cstr (first_word p).
Proof.
  induction p as [|c p IH]; [constructor|]. simpl. destruct (ch_eqb_spec c " "); [constructor|].
  destruct (ch_eqb_spec c NUL); [constructor|]. simpl. by apply is_cstr_cons.
Qed.

(** The client a line speaks for: the one its prefix names, or the server
    itself. *)
Definition speaks_for (d : D) (cptr : nat) (buffer : list ascii) (from : nat) : Prop :=
  from = cptr \/
  if deref buffer =c ":" then lower (dir_name d from) = lower (first_word (tail buffer))
  else find_n_server d (numeric_prefix 5 buffer) = Some from \/ find_n_user d (numeric_prefix 5 buffer) = Some from.

(** Where the command of a server's line starts: after the first space when
    the line starts with a colon, after the first word otherwise, and past the
    spaces. *)
Definition command_at (buffer : list ascii) : list ascii :=
  skip_spaces (if deref buffer =c ":" then default [] (tail <$> find_space buffer) else after_word (tail buffer)).

(** Three characters that are followed by a space and start with a digit: the
    code of a reply, each character standing for its distance from "0". *)
Definition reply_code (p : list ascii) : option Z :=
  match p with
  | a :: b :: c :: s :: _ =>
      if bool_decide (wordc [a; b; c]) && IsDigit a && (s =c " ")
      then Some (100 * (char_val a - 48) + 10 * (char_val b - 48) + (char_val c - 48)) else None
  | _ => None
  end.

Lemma wordc_bool x y z : bool_decide (wordc [x; y; z]) =
  negb ((x =c " ") || (x =c NUL)) && negb ((y =c " ") || (y =c NUL)) && negb ((z =c " ") || (z =c NUL)).
Proof.
  apply Bool.eq_true_iff_eq. rewrite bool_decide_eq_true, !andb_true_iff, !negb_true_iff, !orb_false_iff, !ch_eqb_neq.
  unfold wordc. rewrite !Forall_cons. split; [tauto|]. intros [[??]?]. split_and!; try tauto. by constructor.
Qed.

Lemma reply_code_spec p :
  reply_code p = if (match find_space p with Some s => (length p - length s)%nat | None => 0%nat end =? 3)%nat && IsDigit (deref p)
                 then Some (numeric_of p) else None.
Proof.
  unfold find_space, reply_code, numeric_of, char_at, at_space.
  destruct p as [|a [|b [|c [|s p]]]]; cbn [after_word]; rewrite ?wordc_bool.
  1-4: repeat match goal with |- context [(?x =c " ") || (?x =c NUL)] => destruct ((x =c " ") || (x =c NUL)) end;
    cbn [after_word deref]; change (NUL =c " ") with false; try match goal with |- context [?x =c " "] => destruct (x =c " ") end; done.
  assert (Hl : forall n m, (m <> n + 3)%nat -> (m - n =? 3)%nat = false) by (intros n m Hm; apply Nat.eqb_neq; lia).
  destruct ((a =c " ") || (a =c NUL)); [destruct (deref _ =c " "); [rewrite Hl by lia|]; done|].
  destruct ((b =c " ") || (b =c NUL)); [destruct (deref _ =c " "); [rewrite Hl by (cbn; lia)|]; done|].
  destruct ((c =c " ") || (c =c NUL)); [destruct (deref _ =c " "); [rewrite Hl by (cbn; lia)|]; done|].
  destruct (ch_eqb_spec s " ") as [->|Hs]; cbn [orb negb andb deref].
  - change (" " =c " ") with true. cbn [length]. rewrite (proj2 (Nat.eqb_eq _ _)) by lia. cbn [andb].
    rewrite andb_true_r. destruct (IsDigit a); [|done]. cbn [drop deref]. f_equal. lia.
  - rewrite andb_false_r. destruct (s =c NUL); cbn [deref].
    + by rewrite (proj2 (ch_eqb_neq s " ") Hs).
    + pose proof (after_word_length p). destruct (_ =c " "); [rewrite Hl by (cbn; lia)|]; done.
Qed.

(** Only the directory, the counters and the output change. *)
Definition same_tables (st st' : pstate D) : Prop :=
  ps_tables st' = ps_tables st /\ dir_ok (ps_dir st') /\ (forall c, dir_name (ps_dir st') c = dir_name (ps_dir st) c).

Lemma server_prefix_spec cptr buffer st :
  dir_ok (ps_dir st) -> cli_from cl cptr = cptr ->
  exists r st', server_prefix cl cptr buffer st = Some (r, st') /\ same_tables st st' /\
    match r with
    | inl r => r = Return 0 \/ r = Return (-1)
    | inr (from, para0, ch) => cli_from cl from = cptr /\ speaks_for (ps_dir st) cptr buffer from /\
        lower para0 = lower (dir_name (ps_dir st) from) /\ skip_spaces ch = command_at buffer
    end.
Proof using H0.
  intros Hd Hc. unfold server_prefix, speaks_for, command_at. destruct (deref buffer =c ":").
  - destruct (find_space buffer) as [ch|].
    + cbn [fmap option_fmap option_map default].
      destruct (find_client_total (ps_dir st) (first_word (tail buffer)) Hd (word_cstr _)) as (d & r & -> & Hd' & Hn & Hr).
      cbn [mbind option_bind]. destruct r as [from|].
      * destruct (decide (cli_from cl from = cptr)) as [He|He]; eexists _, _; (split; [done|]); split; try done.
        -- rewrite (Hr from) by done. auto.
        -- by left.
      * destruct (passes_name _); eexists _, _; (split; [done|]); split; try done.
        -- split; [done|]. split; [by left|]. by rewrite <- Hn, skip_spaces_idem.
        -- by left.
    + eexists _, _. split; [done|]. split; [done|by right].
  - set (np := numeric_prefix 5 buffer).
    destruct (if decide (np = []) then (Some cptr, send OMissingPrefix st) else _) as [from st1] eqn:E1.
    assert (H1 : same_tables st st1 /\ ps_dir st1 = ps_dir st /\ forall f, from = Some f ->
              f = cptr \/ find_n_server (ps_dir st) np = Some f \/ find_n_user (ps_dir st) np = Some f).
    { destruct (decide (np = [])); [|destruct (_ || _)]; injection E1 as <- <-; split; try done; split; try done; intros f Hf.
      - left. congruence.
      - right; by left.
      - right; by right. }
    clear E1. destruct H1 as (Hs1 & Hd1 & Hf).
    destruct (match from with Some from => (Some from, after_word (tail buffer), st1) | None => _ end)
      as [[from2 ch2] st2] eqn:E2.
    assert (H2 : same_tables st st2 /\ ps_dir st2 = ps_dir st /\ skip_spaces ch2 = skip_spaces (after_word (tail buffer)) /\ forall f, from2 = Some f ->
              f = cptr \/ find_n_server (ps_dir st) np = Some f \/ find_n_user (ps_dir st) np = Some f).
    { destruct from as [from|].
      - injection E2 as <- <- <-. by split_and!.
      - assert (Hst : forall b : bool, let st0 := if b then
              match find_n_server (ps_dir (count_stat Unpf st1)) np with
              | Some server => if decide (cli_from cl server = cptr) then send (OKillNumeric np) (count_stat Unpf st1) else count_stat Unpf st1
              | None => count_stat Unpf st1
              end else count_stat Unpf st1 in same_tables st st0 /\ ps_dir st0 = ps_dir st).
        { intros b. cbv zeta. by repeat case_match. }
        destruct (passes_numeric _); injection E2 as <- <- <-; destruct (Hst ((deref (skip_spaces (after_word (tail buffer))) =c "N") &&
            ((char_at (skip_spaces (after_word (tail buffer))) 1 =c " ") || (char_at (skip_spaces (after_word (tail buffer))) 1 =c "I")))) as [Hs Hd2];
          split_and!; try done; try (apply skip_spaces_idem). intros f [= <-]. by left. }
    clear E2. destruct H2 as (Hs2 & Hd2 & Hch & Hf2). destruct from2 as [f|].
    + destruct (decide (cli_from cl f = cptr)) as [He|He]; eexists _, _; (split; [done|]); split; try done.
      * split; [done|]. split; [by apply Hf2|]. by rewrite Hd2.
      * by left.
    + eexists _, _. split; [done|]. split; [done|by left].
Qed.

(** C21: what a server sends can only act for clients behind it.  Whatever
    bytes a live server sends, parsing ends and keeps the tables and the
    directory; a handler or [do_numeric] is called only for a client whose
    messages come from that very server ([cli_from]) and that is the one the
    prefix names or the server itself; the handler is one for servers, the
    name given to it is the client's, and at most 15 parameters follow (two
    for a numeric reply).  A numeric is handed on only when the command of
    the line is three characters, the first a digit, with a space after them,
    and it is their value; such a line is not given to any other handler; and
    the null message is followed only when that value is 0 (a reply 000 of a
    server that is linked crashes this one). *)
Theorem parse_server_safe cptr buffer blen st :
  is_dead cl cptr = false -> tables_inv (ps_tables st) -> dir_ok (ps_dir st) -> cli_from cl cptr = cptr ->
  exists r st', parse_server cl cptr buffer blen st = Some (r, st') /\
    tables_inv (ps_tables st') /\ dir_ok (ps_dir st') /\
    match r with
    | Return z => z = 0 \/ z = -1
    | Call name from parv => cli_from cl from = cptr /\ speaks_for (ps_dir st) cptr buffer from /\
        allowed (cli_handler cl cptr) name = true /\
        (exists p0, head parv = Some (PText p0) /\ lower p0 = lower (dir_name (ps_dir st) from)) /\
        Z.of_nat (length parv) <= MAXPARA + 1 /\ reply_code (command_at buffer) = None
    | DoNumeric numeric _ from parv => cli_from cl from = cptr /\ speaks_for (ps_dir st) cptr buffer from /\
        reply_code (command_at buffer) = Some numeric /\ numeric <> 0 /\ (length parv <= 3)%nat
    | NullMessage => reply_code (command_at buffer) = Some 0
    end.
Proof using H0.
  intros Hd Ht Hdir Hc. unfold parse_server. rewrite Hd.
  destruct (server_prefix_spec cptr buffer st Hdir Hc) as (r & st1 & -> & (Hs1 & Hd1 & Hn1) & Hr).
  cbn [mbind option_bind]. destruct r as [r|[[from para0] ch]].
  { eexists _, _. split; [done|]. rewrite Hs1. by destruct Hr as [-> | ->]; split_and!; auto. }
  destruct Hr as (Hf & Hsp & Hp0 & Hcmd). unfold server_command. rewrite Hcmd. set (c := command_at buffer).
  rewrite reply_code_spec.
  destruct (deref c =c NUL); [eexists _, _; split; [done|]; simpl; rewrite Hs1; split_and!; auto|].
  destruct (_ && _) eqn:En.
  - destruct (Z.eqb_spec (numeric_of c) 0) as [Hz|Hz]; eexists _, _; (split; [done|]); cbn [count_stat ps_tables ps_dir];
      rewrite Hs1; split_and!; try done.
    + by rewrite Hz.
    + simpl. rewrite length_map.
      pose proof (split_params_bound true 2 0 (find_space c) ltac:(lia) ltac:(lia)). unfold MAXPARA in *. simpl. lia.
  - set (id := match msg_tree_parse (first_word c) (tok_tree (ps_tables st1)) with Some i => Some i | None => _ end).
    destruct id as [mptr|] eqn:Eid; [|eexists _, _; split; [done|]; simpl; rewrite Hs1; split_and!; auto].
    assert (Hm : exists m, messages (ps_tables st1) !! mptr = Some m /\ handlers_ok (handlers m) = true).
    { subst id. rewrite Hs1 in *. destruct (msg_tree_parse (first_word c) (tok_tree (ps_tables st))) as [i|] eqn:E.
      - injection Eid as ->. rewrite msg_tree_parse_get in E. destruct (alpha_cmd (first_word c)); [|done].
        destruct (ti_tok _ Ht _ _ E) as (m & ? & ? & ? & ?). by exists m.
      - rewrite msg_tree_parse_get in Eid. destruct (alpha_cmd (first_word c)); [|done].
        destruct (ti_msg _ Ht _ _ Eid) as (m & ? & ? & ?). by exists m. }
    destruct Hm as (m & Hm & Hh). unfold msg_of. rewrite Hm. cbn [mbind option_bind].
    destruct (handlers_ok_lookup _ (cli_handler cl cptr) Hh) as (name & Hname & Ha).
    unfold handler_of. rewrite Hname. cbn [mbind option_bind]. eexists _, _. split; [done|].
    cbn [with_tables ps_tables ps_dir]. rewrite Hs1. split; [by apply (touched_inv mptr _ (ps_tables st))|].
    split; [done|]. split_and!; try done; [by exists para0|]. cbn [length]. rewrite length_map.
    pose proof (split_params_bound false (parameters m) 0 (tail <$> find_space c) ltac:(lia) ltac:(lia)).
    unfold MAXPARA in *. lia.
Qed.

End server.

(** ** A server with one peer *)
Definition peer_name (p : ptr) : cstring := if decide (p = 1%positive) then str "hub.example" else str "nick".

Definition ex_dir : client_tables :=
  {| ct_crc := crc_table; ct_hash := empty_table; ct_status := fun _ => 1; ct_name := peer_name;
     ct_nn := NN 2 {[ 1 := 0%nat ]} ∅ ∅ 0 |}.

Definition ex_clients (h : HandlerType) : clients :=
  {| cli_from := fun _ => 0%nat; is_dead := fun _ => false; is_user := fun _ => true;
     is_an_oper := fun _ => false; cli_handler := fun _ => h |}.

Definition ex_pstate : pstate client_tables :=
  {| ps_tables := initmsgtree; ps_dir := ex_dir;
     ps_stats := {| is_empt := 0; is_unco := 0; is_unpf := 0; is_wrdi := 0; is_num := 0 |};
     ps_since := 0; ps_last := 0; ps_out := [] |}.

Lemma ex_dir_ok : dir_ok ex_dir.
Proof.
  split.
  - exists (fun _ => []). apply empty_rep.
  - intros p. unfold ex_dir, peer_name. simpl. case_decide; by apply (bool_decide_unpack _).
Qed.

(** The numeric reply 000 makes the server follow a null message; so do
    codes like 01& whose characters add up to 0. *)
Example numeric_zero_crash :
  fst <$> parse_server (ex_clients SERVER_HANDLER) 0 (line_mem (str "AB 000 x :y") []) 11 ex_pstate = Some NullMessage /\
  fst <$> parse_server (ex_clients SERVER_HANDLER) 0 (line_mem (str "AB 01& x :y") []) 11 ex_pstate = Some NullMessage /\
  fst <$> parse_server (ex_clients SERVER_HANDLER) 0 (line_mem (str "AB 401 x :y z") []) 13 ex_pstate =
    Some (DoNumeric 401 true 0 (map PText [str "hub.example"; str "x"; str ":y z"])).
Proof. by vm_compute. Qed.

Lemma parse_client_call_witness :
  exists name st',
    parse_client (ex_clients CLIENT_HANDLER) true 100 0
      (line_mem (client_start 2 (Some (str "me", 1%nat)) ++ str "privmsg" ++
                 render_params [(0%nat, str "#chan")] (Some (1%nat, str "hello there"))) (str "junk")) 40 ex_pstate =
      Some (Call name 0 (map PText [str "hub.example"; str "#chan"; str "hello there"]), st') /\
    name = "m_privmsg"%string.
Proof.
  set (m := message "PRIVMSG" "P" MAXPARA MFLG_SLOW
    ["m_unregistered"; "m_privmsg"; "ms_privmsg"; "mo_privmsg"; "m_ignore"]).
  destruct (parse_client_call (ex_clients CLIENT_HANDLER) true 100 0%nat 2 (Some (str "me", 1%nat)) (str "privmsg")
              [(0%nat, str "#chan")] (Some (1%nat, str "hello there")) (str "junk") 40 ex_pstate 0%nat m
              eq_refl initmsgtree_inv) as (name & st' & He & Hn & _).
  - apply (bool_decide_unpack _). vm_compute. exact I.
  - discriminate.
  - vm_compute. reflexivity.
  - vm_compute. reflexivity.
  - vm_compute. reflexivity.
  - apply (bool_decide_unpack _). vm_compute. exact I.
  - vm_compute. discriminate.
  - exists name, st'. split; [exact He|]. vm_compute in Hn. congruence.
Defined.

Lemma parse_client_safe_witness :
  exists r st', parse_client (ex_clients UNREGISTERED_HANDLER) true 100 0 (line_mem (str "burst #x") []) 8 ex_pstate =
    Some (r, st') /\ tables_inv (ps_tables st').
Proof.
  destruct (parse_client_safe (ex_clients UNREGISTERED_HANDLER) true 100 0%nat (line_mem (str "burst #x") []) 8 ex_pstate
              eq_refl initmsgtree_inv) as (r & st' & He & Ht & _).
  exists r, st'. split; [exact He|exact Ht].
Defined.

Lemma parse_server_safe_witness :
  exists r st', parse_server (ex_clients SERVER_HANDLER) 0 (line_mem (str ":hub.example N x 1 2") []) 20 ex_pstate =
    Some (r, st') /\ tables_inv (ps_tables st').
Proof.
  destruct (parse_server_safe (ex_clients SERVER_HANDLER) 0%nat (line_mem (str ":hub.example N x 1 2") []) 20 ex_pstate
              eq_refl initmsgtree_inv ex_dir_ok eq_refl) as (r & st' & He & Ht & _).
  exists r, st'. split; [exact He|exact Ht].
Defined.
