(* ===== verification/Packet.v ===== *)
(** * Assembling the lines of a connection (packet.c)

    Bytes from a server, or from a connection that may become one, are put in
    [con_buffer] up to an end of line.  The byte behind the array is part of
    the model, since it can be written.  The parser is an argument: it is given
    the buffer and the length of the line, and tells what became of the
    connection. *)
From S2P Require Import Prelude Chattr.
From stdpp Require Import options.
Open Scope Z_scope.

Definition BUFSIZE : nat := 512.

Record connection := {
  con_buffer : list ascii;
  con_after : ascii;       (* the byte behind con_buffer *)
  con_count : nat;
  con_receiveM : Z;
  con_receiveB : Z
}.

Inductive verdict :=
| Continue
| Killed       (* CPTR_KILLED *)
| DeadSocket   (* IsDead *)
| NowServer.   (* IsServer *)

Inductive packet_result := Done | CptrKilled | Exited.

Definition write (i : nat) (c : ascii) (con : connection) : connection :=
  if (i <? BUFSIZE)%nat
  then {| con_buffer := <[i := c]> (con_buffer con); con_after := con_after con; con_count := con_count con;
          con_receiveM := con_receiveM con; con_receiveB := con_receiveB con |}
  else {| con_buffer := con_buffer con; con_after := c; con_count := con_count con;
          con_receiveM := con_receiveM con; con_receiveB := con_receiveB con |}.

Definition set_count (n : nat) (con : connection) : connection :=
  {| con_buffer := con_buffer con; con_after := con_after con; con_count := n;
     con_receiveM := con_receiveM con; con_receiveB := con_receiveB con |}.

Definition update_bytes_received (length : nat) (con : connection) : connection :=
  {| con_buffer := con_buffer con; con_after := con_after con; con_count := con_count con;
     con_receiveM := con_receiveM con; con_receiveB := (con_receiveB con + Z.of_nat length) mod 2 ^ 64 |}.

Definition update_messages_received (con : connection) : connection :=
  {| con_buffer := con_buffer con; con_after := con_after con; con_count := con_count con;
     con_receiveM := w32 (con_receiveM con + 1); con_receiveB := con_receiveB con |}.

Definition memory (con : connection) : list ascii := con_buffer con ++ [con_after con].

Section packet.
Context {S : Type} (parse : S -> list ascii -> nat -> S * verdict).

Fixpoint server_loop (buffer : list ascii) (con : connection) (endp : nat) (s : S)
  : connection * S * packet_result :=
  match buffer with
  | [] => (set_count endp con, s, Done)
  | c :: src =>
      let con := write endp c con in
      if IsEol c then
        if (endp =? 0)%nat then server_loop src con endp s
        else
          let con := update_messages_received (write endp NUL con) in
          let '(s, v) := parse s (memory con) endp in
          match v with
          | Killed => (con, s, CptrKilled)
          | DeadSocket => (con, s, Exited)
          | _ => server_loop src con 0 s
          end
      else if (endp <? BUFSIZE)%nat then server_loop src con (Datatypes.S endp) s
      else server_loop src con endp s
  end.

Definition server_dopacket (buffer : list ascii) (con : connection) (s : S) : connection * S * packet_result :=
  let con := update_bytes_received (length buffer) con in
  server_loop buffer con (con_count con) s.

Fixpoint connect_loop (buffer : list ascii) (con : connection) (endp : nat) (s : S)
  : connection * S * packet_result :=
  match buffer with
  | [] => (set_count endp con, s, Done)
  | c :: src =>
      let con := write endp c con in
      if IsEol c then
        if (endp =? 0)%nat then connect_loop src con endp s
        else
          let con := update_messages_received (write endp NUL con) in
          let '(s, v) := parse s (memory con) endp in
          match v with
          | Killed => (con, s, CptrKilled)
          | DeadSocket => (con, s, Exited)
          | NowServer => server_dopacket src (set_count 0 con) s
          | Continue => connect_loop src con 0 s
          end
      else if (endp <? BUFSIZE)%nat then connect_loop src con (Datatypes.S endp) s
      else connect_loop src con endp s
  end.

Definition connect_dopacket (buffer : list ascii) (con : connection) (s : S) : connection * S * packet_result :=
  let con := update_bytes_received (length buffer) con in
  connect_loop buffer con (con_count con) s.

(** The line is already in the buffer. *)
Definition client_dopacket (len : nat) (con : connection) (s : S) : connection * S * packet_result :=
  let con := update_messages_received (update_bytes_received len con) in
  let '(s, v) := parse s (memory con) len in
  (con, s, match v with Killed => CptrKilled | DeadSocket => Exited | _ => Done end).

(** ** The specification: lines of a stream *)

(** The lines that [input] completes after the characters [p] of an
    unfinished one, and what is left unfinished. *)
Fixpoint lines (p : list ascii) (input : list ascii) : list (list ascii) * list ascii :=
  match input with
  | [] => ([], p)
  | c :: input =>
      if IsEol c then
        match p with
        | [] => lines [] input
        | _ => let '(ls, r) := lines [] input in (p :: ls, r)
        end
      else lines (p ++ [c]) input
  end.

(** The parser run on buffers in turn, until it ends the connection. *)
Fixpoint run_parse (mems : list (list ascii * nat)) (s : S) : S * packet_result * list (list ascii * nat) :=
  match mems with
  | [] => (s, Done, [])
  | (mem, n) :: mems =>
      let '(s, v) := parse s mem n in
      match v with
      | Killed => (s, CptrKilled, mems)
      | DeadSocket => (s, Exited, mems)
      | _ => run_parse mems s
      end
  end.

(** A buffer that holds a line, ended by NUL and cut after 512 characters. *)
Definition holds (x : list ascii * nat) (line : list ascii) : Prop :=
  take (snd x) (fst x) = take BUFSIZE line /\ length (take BUFSIZE line) = snd x /\ fst x !! snd x = Some NUL.

(** The connection holds the unfinished line [p]. *)
Definition pending (con : connection) (endp : nat) (p : list ascii) : Prop :=
  length (con_buffer con) = BUFSIZE /\ length (take BUFSIZE p) = endp /\ take endp (con_buffer con) = take BUFSIZE p.

(** What a line must not reach. *)
Definition fits (ls : list (list ascii)) (p : list ascii) : Prop :=
  Forall (fun l => length l < BUFSIZE)%nat ls /\ (length p <= BUFSIZE)%nat.

Lemma write_length i c con : length (con_buffer (write i c con)) = length (con_buffer con).
Proof. unfold write. destruct (i <? BUFSIZE)%nat; [|done]. simpl. by rewrite length_insert. Qed.

Lemma write_take i c con : take i (con_buffer (write i c con)) = take i (con_buffer con).
Proof. unfold write. destruct (i <? BUFSIZE)%nat; [|done]. simpl. by rewrite take_insert_ge. Qed.

Lemma pending_write con endp p c : pending con endp p -> pending (write endp c con) endp p.
Proof. intros (H1 & H2 & H3). split; [by rewrite write_length|]. split; [done|]. by rewrite write_take. Qed.

Lemma pending_snoc con endp p c :
  pending con endp p ->
  pending (write endp c con) (if (endp <? BUFSIZE)%nat then Datatypes.S endp else endp) (p ++ [c]).
Proof.
  intros H. pose proof (pending_write con endp p c H) as (H1 & _ & H3). destruct H as (H4 & H2 & _).
  rewrite length_take in H2. destruct (Nat.ltb_spec endp BUFSIZE) as [Hlt|Hge].
  - assert (Hp : length p = endp) by lia. assert (Ht : take BUFSIZE (p ++ [c]) = p ++ [c]).
    { apply take_ge. rewrite length_app. simpl. lia. }
    rewrite (take_ge p) in H3 by lia. split; [done|]. rewrite Ht. split; [rewrite length_app; simpl; lia|].
    assert (Hi : con_buffer (write endp c con) !! endp = Some c).
    { unfold write. rewrite (proj2 (Nat.ltb_lt _ _) Hlt). simpl. apply list_lookup_insert_eq. lia. }
    rewrite (take_S_r _ _ c Hi). by rewrite H3.
  - assert (Ht : take BUFSIZE (p ++ [c]) = take BUFSIZE p) by (rewrite take_app_le; [done|lia]).
    split; [done|]. rewrite Ht. split; [rewrite length_take; lia|done].
Qed.

(** A line that is ended. *)
Lemma pending_holds con endp p :
  pending con endp p -> holds (memory (update_messages_received (write endp NUL con)), endp) p.
Proof.
  intros H. pose proof (pending_write con endp p NUL H) as (H1 & H2 & H3). unfold holds, memory. cbn [fst snd].
  cbn [con_buffer con_after update_messages_received]. split; [|split; [done|]].
  - rewrite take_app_le; [done|]. rewrite length_take in H2. lia.
  - rewrite length_take in H2. unfold write. destruct (Nat.ltb_spec endp BUFSIZE) as [Hlt|Hge]; simpl.
    + rewrite lookup_app_l by (rewrite length_insert; destruct H; lia). apply list_lookup_insert_eq. destruct H; lia.
    + destruct H as (H & _). assert (endp = length (con_buffer con)) as -> by lia.
      by rewrite lookup_app_r, Nat.sub_diag by lia.
Qed.

Lemma pending_start con : length (con_buffer con) = BUFSIZE -> pending con 0 [].
Proof. intros H. split_and!; done. Qed.

Lemma pending_end con endp p : pending con endp p -> (endp =? 0)%nat = match p with [] => true | _ => false end.
Proof. intros (_ & H & _). rewrite length_take in H. destruct p; simpl in H; [by subst|]. apply Nat.eqb_neq. unfold BUFSIZE in H. lia. Qed.

(** What a loop does to the lines of its input. *)
Definition loop_post (p input : list ascii) (con : connection) (s : S) (out : connection * S * packet_result) : Prop :=
  let '(con', s', r) := out in
  let '(ls, rest) := lines p input in
  exists mems left, run_parse mems s = (s', r, []) /\
    Forall2 holds mems (take (length mems) ls) /\ ls = take (length mems) ls ++ left /\
    (r = Done -> left = [] /\ con_count con' = length (take BUFSIZE rest) /\ pending con' (con_count con') rest) /\
    (fits ls rest -> con_after con' = con_after con).

Lemma after_write i c con : (i < BUFSIZE)%nat -> con_after (write i c con) = con_after con.
Proof. intros H. unfold write. by rewrite (proj2 (Nat.ltb_lt _ _) H). Qed.

Lemma lines_rest_length p input : (exists ls rest, lines p input = (ls, rest) /\
  ((p = [] \/ exists l ls', ls = l :: ls' /\ (length p <= length l)%nat) \/ (ls = [] /\ (length p <= length rest)%nat))).
Proof.
  revert p. induction input as [|c input IH]; intros p; simpl.
  - eexists _, _. split; [done|]. by right.
  - destruct (IsEol c).
    + destruct p as [|x p]; [destruct (IH []) as (ls & rest & -> & _); eexists _, _; split; [done|]; by left; left|].
      destruct (lines [] input) as [ls rest]. eexists _, _. split; [done|]. left. right. by eexists _, _.
    + destruct (IH (p ++ [c])) as (ls & rest & -> & Hp). eexists _, _. split; [done|]. rewrite length_app in Hp. simpl in Hp.
      destruct Hp as [[Hp|(l & ls' & -> & Hl)]|[-> Hl]]; [by destruct p|left; right; eexists _, _; split; [done|lia]|right; split; [done|lia]].
Qed.

(** A character that ends no line. *)
Lemma post_char p c input con endp s out :
  IsEol c = false -> pending con endp p ->
  loop_post (p ++ [c]) input (write endp c con) s out -> loop_post p (c :: input) con s out.
Proof.
  intros Hc Hp. unfold loop_post. destruct out as [[con' s'] r]. cbn [lines]. rewrite Hc.
  destruct (lines_rest_length (p ++ [c]) input) as (ls & rest & -> & Hl).
  intros (mems & left & Hr & Hm & Hls & Hd & Ha). exists mems, left. split_and!; try done.
  intros Hf. rewrite Ha by done. apply after_write. destruct Hp as (_ & Hp & _). rewrite length_take in Hp.
  rewrite length_app in Hl. simpl in Hl. destruct Hf as [Hf1 Hf2].
  destruct Hl as [[Hl|(l & ls' & -> & Hl)]|[_ Hl]]; [by destruct p| |].
  - apply Forall_cons in Hf1 as [Hf1 _]. lia.
  - lia.
Qed.

(** An end of line with nothing before it. *)
Lemma post_skip c input con s out :
  IsEol c = true -> length (con_buffer con) = BUFSIZE ->
  loop_post [] input (write 0 c con) s out -> loop_post [] (c :: input) con s out.
Proof.
  intros Hc Hl. unfold loop_post. destruct out as [[con' s'] r]. cbn [lines]. rewrite Hc.
  destruct (lines [] input) as [ls rest]. intros (mems & left & Hr & Hm & Hls & Hd & Ha).
  by exists mems, left.
Qed.

(** A line: the parser is called, and the rest of the input follows if the
    connection lives. *)
Lemma post_line p c input con endp s out :
  IsEol c = true -> pending con endp p -> p <> [] ->
  let con1 := update_messages_received (write endp NUL (write endp c con)) in
  (let '(s1, v) := parse s (memory con1) endp in
   match v with
   | Killed => out = (con1, s1, CptrKilled)
   | DeadSocket => out = (con1, s1, Exited)
   | _ => loop_post [] input con1 s1 out
   end) -> loop_post p (c :: input) con s out.
Proof.
  intros Hc Hp Hne con1. destruct (parse s (memory con1) endp) as [s1 v] eqn:Ep. intros H.
  pose proof (pending_holds (write endp c con) endp p (pending_write _ _ _ _ Hp)) as Hh. fold con1 in Hh.
  assert (Ha1 : (length p < BUFSIZE)%nat -> con_after con1 = con_after con).
  { intros Hl. destruct Hp as (_ & Hp & _). rewrite length_take in Hp. unfold con1. simpl.
    rewrite !after_write by lia. done. }
  unfold loop_post in *. cbn [lines]. rewrite Hc. destruct p as [|x p]; [done|].
  destruct (lines [] input) as [ls rest].
  assert (Hend : forall res, out = (con1, s1, res) -> res <> Done -> v = (match res with CptrKilled => Killed | _ => DeadSocket end) ->
    let '(con', s', r) := out in
    exists mems left, run_parse mems s = (s', r, []) /\ Forall2 holds mems (take (length mems) ((x :: p) :: ls)) /\
      (x :: p) :: ls = take (length mems) ((x :: p) :: ls) ++ left /\
      (r = Done -> left = [] /\ con_count con' = length (take BUFSIZE rest) /\ pending con' (con_count con') rest) /\
      (fits ((x :: p) :: ls) rest -> con_after con' = con_after con)).
  { intros res -> Hres Hv. exists [(memory con1, endp)], ls. cbn [run_parse length take]. rewrite Ep.
    split_and!; [by destruct res; rewrite ?Hv; try done|constructor; [exact Hh|rewrite take_0; constructor]|by rewrite take_0|by intros ->|].
    intros [Hf _]. apply Forall_cons in Hf as [Hf _]. by apply Ha1. }
  destruct v; [| by apply (Hend CptrKilled) | by apply (Hend Exited) |].
  all: destruct out as [[con' s'] r]; destruct H as (mems & left & Hr & Hm & Hls & Hd & Ha);
    exists ((memory con1, endp) :: mems), left; cbn [run_parse length take]; rewrite Ep;
    (split; [done|]); (split; [by constructor|]); (split; [by rewrite Hls at 1|]); (split; [done|]).
  all: intros [Hf Hf2]; apply Forall_cons in Hf as [Hf1 Hf]; rewrite (Ha (conj Hf Hf2)); exact (Ha1 Hf1).
Qed.

Lemma post_nil con endp p s : pending con endp p -> loop_post p [] con s (set_count endp con, s, Done).
Proof.
  intros (H1 & H2 & H3). by exists [], [].
Qed.

Lemma server_loop_post input : forall p con endp s,
  pending con endp p -> loop_post p input con s (server_loop input con endp s).
Proof.
  induction input as [|c input IH]; intros p con endp s Hp; cbn [server_loop]; [by apply post_nil|].
  destruct (IsEol c) eqn:Hc.
  - rewrite (pending_end _ _ _ Hp). destruct p as [|x p].
    + destruct Hp as (Hl & <- & _). apply post_skip; [done..|]. apply IH. apply pending_start. by rewrite write_length.
    + apply (post_line _ _ _ _ endp); [done..|].
      destruct (parse s _ endp) as [s1 []]; try done; apply IH; apply pending_start;
        simpl; rewrite !write_length; apply Hp.
  - pose proof (pending_snoc con endp p c Hp) as Hs. apply (post_char _ _ _ _ endp); [done..|].
    destruct (endp <? BUFSIZE)%nat; by apply IH.
Qed.

Lemma server_dopacket_post input p con s :
  pending con (con_count con) p -> loop_post p input con s (server_dopacket input con s).
Proof. intros Hp. exact (server_loop_post input p (update_bytes_received (length input) con) (con_count con) s Hp). Qed.

Lemma connect_loop_post input : forall p con endp s,
  pending con endp p -> loop_post p input con s (connect_loop input con endp s).
Proof.
  induction input as [|c input IH]; intros p con endp s Hp; cbn [connect_loop]; [by apply post_nil|].
  destruct (IsEol c) eqn:Hc.
  - rewrite (pending_end _ _ _ Hp). destruct p as [|x p].
    + destruct Hp as (Hl & <- & _). apply post_skip; [done..|]. apply IH. apply pending_start. by rewrite write_length.
    + apply (post_line _ _ _ _ endp); [done..|].
      destruct (parse s _ endp) as [s1 []]; try done.
      * apply IH, pending_start. simpl. rewrite !write_length. apply Hp.
      * set (con1 := update_messages_received (write endp NUL (write endp c con))).
        assert (Hl : length (con_buffer (set_count 0 con1)) = BUFSIZE) by (simpl; rewrite !write_length; apply Hp).
        exact (server_dopacket_post input [] (set_count 0 con1) s1 (pending_start _ Hl)).
  - pose proof (pending_snoc con endp p c Hp) as Hs. apply (post_char _ _ _ _ endp); [done..|].
    destruct (endp <? BUFSIZE)%nat; by apply IH.
Qed.

(** C22: the stream of a connection is cut into lines.  Whatever the pieces
    it arrives in, [server_dopacket] and [connect_dopacket] (which changes to
    the former when the connection becomes a server) give the parser one
    buffer for each line that is completed, empty lines left out, in order,
    holding the first 512 characters of the line and a NUL; they stop only
    when the parser has ended the connection; otherwise the first 512
    characters of the unfinished line are kept with their count.  While every
    line has fewer than 512 characters and the unfinished one at most 512,
    the byte behind the buffer is not touched. *)
Theorem dopacket_lines input p con s :
  pending con (con_count con) p ->
  loop_post p input con s (server_dopacket input con s) /\
  loop_post p input con s (connect_dopacket input con s).
Proof.
  intros Hp. split; [by apply server_dopacket_post|].
  exact (connect_loop_post input p (update_bytes_received (length input) con) (con_count con) s Hp).
Qed.

End packet.

(** A fresh connection, and a parser that records what it is given. *)
Definition new_connection : connection :=
  {| con_buffer := repeat NUL BUFSIZE; con_after := "x"%char; con_count := 0; con_receiveM := 0; con_receiveB := 0 |}.

Definition recorder (s : list (list ascii)) (mem : list ascii) (n : nat) : list (list ascii) * verdict :=
  (s ++ [take n mem], Continue).

Definition LF : ascii := "010".

Example packet_ex :
  let '(con, s, r) := server_dopacket recorder (str "AB N" ++ [LF; LF] ++ str "AB P #c :hi" ++ [LF] ++ str "AB Q") new_connection [] in
  s = [str "AB N"; str "AB P #c :hi"] /\ con_count con = 4%nat /\ r = Done.
Proof. by vm_compute. Qed.

(** The end of a line of 512 characters is written behind the buffer. *)
Example packet_overrun :
  let '(con, s, r) := server_dopacket recorder (repeat "a"%char 512 ++ [LF]) new_connection [] in
  con_after con = NUL.
Proof. by vm_compute. Qed.

(** A connection that becomes a server has the rest of the bytes counted
    twice. *)
Example packet_counted_twice :
  let '(con, s, r) := connect_dopacket (fun s mem n => (tt, NowServer)) (str "SERVER" ++ [LF] ++ str "AB N") new_connection tt in
  con_receiveB con = 15 /\ length (str "SERVER" ++ [LF] ++ str "AB N") = 11%nat.
Proof. by vm_compute. Qed.

Lemma dopacket_lines_witness :
  loop_post recorder [] (str "AB N" ++ [LF]) new_connection [] (server_dopacket recorder (str "AB N" ++ [LF]) new_connection []).
Proof.
  apply (dopacket_lines recorder (str "AB N" ++ [LF]) [] new_connection []).
  apply pending_start. vm_compute. reflexivity.
Defined.
