(* ===== verification/Msgq.v ===== *)
(** * Message queues (msgq.c)

    A message is formatted once in a buffer of 512 bytes, copied when it is
    first queued to one that fits ([real]), and shared by every queue it is
    added to, with a count of references.  A [struct MsgBuf] is an address in
    [bufs]; the structures on the free list of a size are [mfree] of it; a
    [struct Msg] is a value of the queue that it is on, so that of the free
    structures only the number is kept. *)
From S2P Require Import Prelude Chain.
From stdpp Require Import options.
Open Scope Z_scope.

Definition MB_BASE_SHIFT : Z := 5.
Definition MB_MAX_SHIFT : Z := 9.
Definition BUFSIZE : Z := 512.

Record MsgBuf := { real : option ptr; ref : Z; power : Z; msg : list ascii }.

(** [bufsize] and the field [length]. *)
Definition bufsize (b : MsgBuf) : Z := Z.shiftl 1 (power b).
Definition mb_length (b : MsgBuf) : Z := Z.of_nat (length (msg b)).

Record Msg := { sent : nat; mbuf : ptr }.

Record MsgQ := { mq_length : Z; mq_count : Z; queue : list Msg; prio : list Msg }.

(** [MQData]. *)
Record mqdata := {
  bufs : gmap ptr MsgBuf;
  msglist : list ptr;
  msgs_alloc : Z;
  msgs_used : Z;
  msgs_free : nat;
  tot_bufsize : Z;
  malloc : gmap Z Z;
  mused : gmap Z Z;
  mfree : gmap Z (list ptr);
  sizes_msgs : Z;
  sizes : gmap Z Z
}.

Definition no_buf : MsgBuf := {| real := None; ref := 0; power := 0; msg := [] |}.
Definition buf (st : mqdata) (p : ptr) : MsgBuf := default no_buf (bufs st !! p).
Definition free_of (st : mqdata) (k : Z) : list ptr := default [] (mfree st !! k).
Definition counter (m : gmap Z Z) (k : Z) : Z := default 0 (m !! k).

Definition set_bufs (f : gmap ptr MsgBuf -> gmap ptr MsgBuf) (st : mqdata) : mqdata :=
  {| bufs := f (bufs st); msglist := msglist st; msgs_alloc := msgs_alloc st; msgs_used := msgs_used st;
     msgs_free := msgs_free st; tot_bufsize := tot_bufsize st; malloc := malloc st; mused := mused st;
     mfree := mfree st; sizes_msgs := sizes_msgs st; sizes := sizes st |}.

Definition set_buf (p : ptr) (b : MsgBuf) : mqdata -> mqdata := set_bufs (insert p b).

Definition set_msglist (l : list ptr) (st : mqdata) : mqdata :=
  {| bufs := bufs st; msglist := l; msgs_alloc := msgs_alloc st; msgs_used := msgs_used st;
     msgs_free := msgs_free st; tot_bufsize := tot_bufsize st; malloc := malloc st; mused := mused st;
     mfree := mfree st; sizes_msgs := sizes_msgs st; sizes := sizes st |}.

Definition set_msgs (a u : Z) (f : nat) (st : mqdata) : mqdata :=
  {| bufs := bufs st; msglist := msglist st; msgs_alloc := a; msgs_used := u;
     msgs_free := f; tot_bufsize := tot_bufsize st; malloc := malloc st; mused := mused st;
     mfree := mfree st; sizes_msgs := sizes_msgs st; sizes := sizes st |}.

Definition set_pool (t : Z) (a u : gmap Z Z) (f : gmap Z (list ptr)) (st : mqdata) : mqdata :=
  {| bufs := bufs st; msglist := msglist st; msgs_alloc := msgs_alloc st; msgs_used := msgs_used st;
     msgs_free := msgs_free st; tot_bufsize := t; malloc := a; mused := u;
     mfree := f; sizes_msgs := sizes_msgs st; sizes := sizes st |}.

Definition add_size (len : Z) (st : mqdata) : mqdata :=
  {| bufs := bufs st; msglist := msglist st; msgs_alloc := msgs_alloc st; msgs_used := msgs_used st;
     msgs_free := msgs_free st; tot_bufsize := tot_bufsize st; malloc := malloc st; mused := mused st;
     mfree := mfree st; sizes_msgs := w32 (sizes_msgs st + 1);
     sizes := <[len - 1 := w32 (counter (sizes st) (len - 1) + 1)]> (sizes st) |}.

Definition with_real (r : option ptr) (b : MsgBuf) : MsgBuf :=
  {| real := r; ref := ref b; power := power b; msg := msg b |}.
Definition with_ref (n : Z) (b : MsgBuf) : MsgBuf :=
  {| real := real b; ref := n; power := power b; msg := msg b |}.
Definition with_text (m : list ascii) (b : MsgBuf) : MsgBuf :=
  {| real := real b; ref := ref b; power := power b; msg := m |}.

(** ** Buffers *)

(** [for (power = MB_BASE_SHIFT; power < MB_MAX_SHIFT + 1; power++)]. *)
Fixpoint find_power (n : nat) (len power : Z) : Z :=
  match n with
  | O => power
  | S n => if Z.shiftr (len - 1) power =? 0 then power else find_power n len (power + 1)
  end.

Definition power_for (len : Z) : Z := find_power 5 len MB_BASE_SHIFT.

(** A buffer from the free list of a size, or a new one if the pool may grow;
    [BUFFERPOOL] is the feature. *)
Definition get_buf (BUFFERPOOL pw : Z) (st : mqdata) : mqdata * option ptr :=
  let used := <[pw := counter (mused st) pw + 1]> (mused st) in
  match free_of st pw with
  | mb :: rest => (set_pool (tot_bufsize st) (malloc st) used (<[pw := rest]> (mfree st)) st, Some mb)
  | [] =>
      if tot_bufsize st <? BUFFERPOOL then
        let mb := fresh (dom (bufs st)) in
        (set_buf mb {| real := None; ref := 0; power := pw; msg := [] |}
           (set_pool (tot_bufsize st + Z.shiftl 1 pw) (<[pw := counter (malloc st) pw + 1]> (malloc st))
              used (mfree st) st), Some mb)
      else (st, None)
  end.

Definition msgq_alloc (BUFFERPOOL : Z) (in_mb : option ptr) (len : Z) (st : mqdata) : mqdata * option ptr :=
  let pw := power_for len in
  let in_place p := (set_buf p (with_real (Some p) (buf st p)) st, Some p) in
  let allocate :=
    match get_buf BUFFERPOOL pw st with
    | (st, Some mb) =>
        let st := set_buf mb (with_ref 1 (with_real None (buf st mb))) st in
        (match in_mb with
         | Some p => set_buf p (with_real (Some mb) (buf st p)) st
         | None => st
         end, Some mb)
    | (st, None) => match in_mb with Some p => in_place p | None => (st, None) end
    end in
  match in_mb with
  | Some p => if power (buf st p) =? pw then in_place p else allocate
  | None => allocate
  end.

(** [msgq_clear_freembs]: the free list of one size, then of all. *)
Definition clear_size (st : mqdata) (k : Z) : mqdata :=
  let l := free_of st k in
  let n := Z.of_nat (length l) in
  set_bufs (fun m => foldl (fun m p => delete p m) m l)
    (set_pool (tot_bufsize st - n * Z.shiftl 1 k) (<[k := counter (malloc st) k - n]> (malloc st)) (mused st)
       (<[k := []]> (mfree st)) st).

Definition msgq_clear_freembs (st : mqdata) : mqdata :=
  foldl clear_size st (seqZ MB_BASE_SHIFT 5).

Definition CR : ascii := "013".
Definition NL : ascii := "010".

(** The text of a message, cut to leave room for its end. *)
Definition finish (size : Z) (text : list ascii) : list ascii :=
  take (Z.to_nat (size - 2)) text ++ [CR; NL].

(** [msgq_vmake] with what [ircd_vsnprintf] makes of the arguments;
    [flush_connections] and [kill_highest_sendq] are arguments.  [None]:
    [server_panic]. *)
Definition vmake_alloc (BUFFERPOOL : Z) (FERGUSON : bool) (flush : mqdata -> mqdata)
  (kill_highest : bool -> mqdata -> mqdata) (st : mqdata) : option (mqdata * ptr) :=
  let try st := msgq_alloc BUFFERPOOL None BUFSIZE st in
  match try st with
  | (st, Some mb) => Some (st, mb)
  | (st, None) =>
      match (if FERGUSON then try (flush st) else (st, None)) with
      | (st, Some mb) => Some (st, mb)
      | (st, None) =>
          match try (msgq_clear_freembs st) with
          | (st, Some mb) => Some (st, mb)
          | (st, None) =>
              match try (msgq_clear_freembs (kill_highest false st)) with
              | (st, Some mb) => Some (st, mb)
              | (st, None) =>
                  match try (msgq_clear_freembs (kill_highest true st)) with
                  | (st, Some mb) => Some (st, mb)
                  | (st, None) => None
                  end
              end
          end
      end
  end.

Definition msgq_vmake (BUFFERPOOL : Z) (FERGUSON : bool) (flush : mqdata -> mqdata)
  (kill_highest : bool -> mqdata -> mqdata) (text : list ascii) (st : mqdata) : option (mqdata * ptr) :=
  '(st, mb) ← vmake_alloc BUFFERPOOL FERGUSON flush kill_highest st;
  let b := buf st mb in
  Some (set_msglist (mb :: msglist st) (set_buf mb (with_text (finish (bufsize b) text) b) st), mb).

(** [msgq_append]: back up to before the end of line and go on. *)
Definition msgq_append (mb : ptr) (text : list ascii) (st : mqdata) : mqdata :=
  let b := buf st mb in
  let old := take (length (msg b) - 2) (msg b) in
  set_buf mb (with_text (finish (bufsize b) (old ++ text)) b) st.

Definition msgq_bufleft (mb : ptr) (st : mqdata) : Z := bufsize (buf st mb) - mb_length (buf st mb).

(** [msgq_clean]: [n] bounds the depth of the recursion through [real]. *)
Fixpoint msgq_clean (n : nat) (mb : ptr) (st : mqdata) : option mqdata :=
  match n with
  | O => None
  | S n =>
      let b := buf st mb in
      let st := set_buf mb (with_ref (ref b - 1) b) st in
      if negb (ref b - 1 =? 0) then Some st
      else
        let st := set_msglist (unlink mb (msglist st)) st in
        st ← match real b with
             | Some r => if decide (r = mb) then Some st else msgq_clean n r st
             | None => Some st
             end;
        let k := power b in
        Some (set_pool (tot_bufsize st) (malloc st) (<[k := counter (mused st) k - 1]> (mused st))
                (<[k := mb :: free_of st k]> (mfree st)) st)
  end.

(** ** Queues *)
Definition msgq_init : MsgQ := {| mq_length := 0; mq_count := 0; queue := []; prio := [] |}.

(** [msgq_delmsg] on the head of one of the lists: the rest of that list, the
    bytes still to remove, and the two counts. *)
Definition msgq_delmsg (mq : MsgQ) (l : list Msg) (len : nat) (st : mqdata)
  : option (list Msg * nat * Z * Z * mqdata) :=
  match l with
  | [] => None
  | m :: rest =>
      let msglen := (length (msg (buf st (mbuf m))) - sent m)%nat in
      if (msglen <=? len)%nat then
        st ← msgq_clean 2 (mbuf m) st;
        Some (rest, (len - msglen)%nat, w32 (mq_length mq - Z.of_nat msglen), w32 (mq_count mq - 1),
              set_msgs (msgs_alloc st) (msgs_used st - 1) (S (msgs_free st)) st)
      else
        Some ({| sent := sent m + len; mbuf := mbuf m |} :: rest, 0%nat,
              w32 (mq_length mq - Z.of_nat len), mq_count mq, st)
  end.

(** Whether the head of a list has been sent in part. *)
Definition partial (l : list Msg) : bool := match l with m :: _ => (0 <? sent m)%nat | [] => false end.

Fixpoint msgq_delete_loop (n : nat) (mq : MsgQ) (len : nat) (st : mqdata) : option (MsgQ * mqdata) :=
  match n with
  | O => None
  | S n =>
      if (len =? 0)%nat then Some (mq, st)
      else
        let on_queue :=
          '(l, len, total, cnt, st) ← msgq_delmsg mq (queue mq) len st;
          msgq_delete_loop n {| mq_length := total; mq_count := cnt; queue := l; prio := prio mq |} len st in
        if partial (queue mq) then on_queue
        else match prio mq with
             | _ :: _ =>
                 '(l, len, total, cnt, st) ← msgq_delmsg mq (prio mq) len st;
                 msgq_delete_loop n {| mq_length := total; mq_count := cnt; queue := queue mq; prio := l |} len st
             | [] => match queue mq with
                     | _ :: _ => on_queue
                     | [] => Some (mq, st)
                     end
             end
  end.

Definition msgq_delete (mq : MsgQ) (len : nat) (st : mqdata) : option (MsgQ * mqdata) :=
  msgq_delete_loop (S (length (queue mq) + length (prio mq)) + 1) mq len st.

(** The pieces of [msgq_mapiov]: what is left of a head sent in part, then
    whole messages, [count] in all. *)
Definition rest_of (st : mqdata) (m : Msg) : list ascii := drop (sent m) (msg (buf st (mbuf m))).

Definition msgq_mapiov (mq : MsgQ) (count : nat) (st : mqdata) : list (list ascii) :=
  if mq_length mq <=? 0 then []
  else
    let '(head1, q) := if partial (queue mq) then ([rest_of st (default {| sent := 0; mbuf := 1%positive |} (head (queue mq)))], tail (queue mq)) else ([], queue mq) in
    let '(head2, pr) := if partial (prio mq) then ([rest_of st (default {| sent := 0; mbuf := 1%positive |} (head (prio mq)))], tail (prio mq)) else ([], prio mq) in
    take count (head1 ++ head2 ++ map (fun m => msg (buf st (mbuf m))) pr ++ map (fun m => msg (buf st (mbuf m))) q).

(** The part of [msgq_add] that makes the real buffer. *)
Definition make_real (BUFFERPOOL : Z) (mb : ptr) (st : mqdata) : mqdata :=
  match real (buf st mb) with
  | Some _ => st
  | None =>
      let len := mb_length (buf st mb) in
      match msgq_alloc BUFFERPOOL (Some mb) len (add_size len st) with
      | (st, Some tmp) =>
          if decide (tmp = mb) then st
          else set_msglist (map (fun p => if decide (p = mb) then tmp else p) (msglist st))
                 (set_buf tmp (with_text (msg (buf st mb)) (buf st tmp)) st)
      | (st, None) => st
      end
  end.

(** [msgq_add]; [pr] for the list of high priority. *)
Definition msgq_add (BUFFERPOOL : Z) (mq : MsgQ) (mb : ptr) (pr : bool) (st : mqdata) : option (MsgQ * mqdata) :=
  let st := match msgs_free st with
            | O => set_msgs (msgs_alloc st + 1) (msgs_used st + 1) 0 st
            | S f => set_msgs (msgs_alloc st) (msgs_used st + 1) f st
            end in
  let st := make_real BUFFERPOOL mb st in
  r ← real (buf st mb);
  let st := set_buf r (with_ref (ref (buf st r) + 1) (buf st r)) st in
  let m := {| sent := 0; mbuf := r |} in
  Some ({| mq_length := w32 (mq_length mq + mb_length (buf st r)); mq_count := w32 (mq_count mq + 1);
           queue := if pr then queue mq else queue mq ++ [m];
           prio := if pr then prio mq ++ [m] else prio mq |}, st).

(** [MsgQClear]. *)
Definition MsgQClear (mq : MsgQ) (st : mqdata) : option (MsgQ * mqdata) :=
  msgq_delete mq (Z.to_nat (mq_length mq)) st.

(** ** The pool of buffers *)

(** [cnt] is the number of references to a buffer from queues and callers,
    [par] the buffer that has it as its [real] one, if another. *)
Record pool_ok (cnt : ptr -> nat) (par : ptr -> option ptr) (st : mqdata) : Prop := {
  po_ref : forall p, ref (buf st p) = Z.of_nat (cnt p + match par p with Some _ => 1 | None => 0 end);
  po_par : forall p b, par p = Some b <-> b <> p /\ 0 < ref (buf st b) /\ real (buf st b) = Some p;
  po_tmp : forall p, par p <> None -> real (buf st p) = None;
  po_text : forall b r, 0 < ref (buf st b) -> real (buf st b) = Some r -> msg (buf st r) = msg (buf st b);
  po_free : forall k p, p ∈ free_of st k -> p ∈ dom (bufs st) /\ ref (buf st p) = 0 /\ power (buf st p) = k;
  po_nodup : forall k, NoDup (free_of st k);
  po_size : forall p, mb_length (buf st p) <= bufsize (buf st p);
  po_power : forall p, 0 <= power (buf st p) <= MB_MAX_SHIFT
}.

Definition inc (f : ptr -> nat) (p : ptr) : ptr -> nat := fun q => if decide (q = p) then S (f q) else f q.
Definition dec (f : ptr -> nat) (p : ptr) : ptr -> nat := fun q => if decide (q = p) then Nat.pred (f q) else f q.

Lemma buf_set p b st q : buf (set_buf p b st) q = if decide (q = p) then b else buf st q.
Proof.
  unfold buf. simpl. destruct (decide (q = p)) as [->|]; [by rewrite lookup_insert_eq|by rewrite lookup_insert_ne].
Qed.

Lemma buf_set_eq p b st : buf (set_buf p b st) p = b.
Proof. by rewrite buf_set, decide_True. Qed.

Lemma buf_set_ne p b st q : q <> p -> buf (set_buf p b st) q = buf st q.
Proof. intros. by rewrite buf_set, decide_False. Qed.

Lemma pool_cnt_ext cnt cnt' par st : (forall p, cnt p = cnt' p) -> pool_ok cnt par st -> pool_ok cnt' par st.
Proof. intros He [H1 H2 H3 H4 H5 H6 H7 H8]. constructor; try done. intros p. by rewrite <- He. Qed.

(** The free list of a size, after it has been set. *)
Lemma free_set_pool t a u k l f st k' : f = <[k := l]> (mfree st) ->
  free_of (set_pool t a u f st) k' = if decide (k' = k) then l else free_of st k'.
Proof.
  intros ->. unfold free_of. simpl. destruct (decide (k' = k)) as [->|]; [by rewrite lookup_insert_eq|by rewrite lookup_insert_ne].
Qed.

(** A buffer that nobody refers to. *)
Lemma get_buf_spec POOL pw cnt par st :
  pool_ok cnt par st -> 0 <= pw <= MB_MAX_SHIFT ->
  match get_buf POOL pw st with
  | (st', Some mb) => cnt mb = 0%nat /\ par mb = None /\ power (buf st' mb) = pw /\ mb ∈ dom (bufs st') /\
      pool_ok cnt par st' /\ (forall k, mb ∉ free_of st' k) /\
      (forall q, q <> mb -> buf st' q = buf st q) /\ msglist st' = msglist st
  | (st', None) => st' = st /\ free_of st pw = [] /\ POOL <= tot_bufsize st
  end.
Proof.
  intros H Hpw9. unfold get_buf. destruct (free_of st pw) as [|mb rest] eqn:Ef.
  - destruct (Z.ltb_spec (tot_bufsize st) POOL); [|done].
    set (mb := fresh (dom (bufs st))). assert (Hm : mb ∉ dom (bufs st)) by apply is_fresh.
    assert (Hb : buf st mb = no_buf) by (unfold buf; apply not_elem_of_dom in Hm; by rewrite Hm).
    pose proof (po_ref _ _ _ H mb) as Hr. rewrite Hb in Hr. simpl in Hr.
    assert (Hpar : par mb = None) by (destruct (par mb); [lia|done]).
    set (st1 := set_pool _ _ _ _ st). set (nb := Build_MsgBuf _ _ _ _).
    assert (Hold : forall q, q <> mb -> buf (set_buf mb nb st1) q = buf st q) by (intros q Hq; by rewrite buf_set_ne).
    assert (Hsame : forall q, ref (buf (set_buf mb nb st1) q) = ref (buf st q) /\ real (buf (set_buf mb nb st1) q) = real (buf st q)
       /\ msg (buf (set_buf mb nb st1) q) = msg (buf st q)).
    { intros q. rewrite buf_set. destruct (decide (q = mb)) as [->|]; [by rewrite Hb|done]. }
    assert (Hok : pool_ok cnt par (set_buf mb nb st1)).
    { destruct H as [H1 H2 H3 H4 H5 H6 H7 H8]. constructor.
      - intros p. destruct (Hsame p) as (-> & _ & _). apply H1.
      - intros p b. destruct (Hsame b) as (-> & -> & _). apply H2.
      - intros p. destruct (Hsame p) as (_ & -> & _). apply H3.
      - intros b r. destruct (Hsame b) as (-> & -> & ->), (Hsame r) as (_ & _ & ->). apply H4.
      - intros k p Hp. destruct (H5 k p Hp) as (Hd & ? & ?). rewrite Hold by (by intros ->).
        split; [simpl; set_solver|done].
      - apply H6.
      - intros p. rewrite buf_set. destruct (decide (p = mb)); [|apply H7].
        unfold nb, mb_length, bufsize. simpl. apply Z.shiftl_nonneg. lia.
      - intros p. rewrite buf_set. destruct (decide (p = mb)); [done|apply H8]. }
    split; [lia|]. split; [done|]. split; [by rewrite buf_set_eq|]. split; [simpl; set_solver|].
    split; [done|]. split; [|done]. intros k Hk. apply Hm. by apply (po_free _ _ _ H) in Hk as [? _].
  - destruct (po_free _ _ _ H pw mb) as (Hd & Hr0 & Hpw); [rewrite Ef; by constructor|].
    pose proof (po_ref _ _ _ H mb) as Hr. rewrite Hr0 in Hr.
    pose proof (po_nodup _ _ _ H pw) as Hnd. rewrite Ef in Hnd. apply NoDup_cons in Hnd as [Hmr Hnd].
    set (st1 := set_pool _ _ _ _ st).
    assert (Hfree : forall k, free_of st1 k = if decide (k = pw) then rest else free_of st k)
      by (intros k; by apply free_set_pool).
    split; [lia|]. split; [destruct (par mb); [lia|done]|]. split; [done|]. split; [done|].
    split; [|split; [|done]].
    + destruct H as [H1 H2 H3 H4 H5 H6 H7 H8]. constructor; try done.
      * intros k p. rewrite Hfree. destruct (decide (k = pw)) as [->|]; [|apply H5].
        intros Hp. apply H5. rewrite Ef. by constructor.
      * intros k. rewrite Hfree. by destruct (decide (k = pw)).
    + intros k. rewrite Hfree. destruct (decide (k = pw)) as [|Hne]; [done|]. intros Hk.
      apply (po_free _ _ _ H) in Hk as (_ & _ & ?). congruence.
Qed.

Lemma find_power_spec n len : forall pw,
  0 <= pw -> 1 <= len -> len <= Z.shiftl 1 (pw + Z.of_nat n) ->
  pw <= find_power n len pw <= pw + Z.of_nat n /\ len <= Z.shiftl 1 (find_power n len pw).
Proof.
  induction n as [|n IH]; intros pw Hpw Hlen Hle; cbn [find_power].
  - rewrite Z.add_0_r in *. lia.
  - destruct (Z.eqb_spec (Z.shiftr (len - 1) pw) 0) as [Hs|Hs].
    + split; [lia|]. rewrite Z.shiftr_div_pow2 in Hs by lia. rewrite Z.shiftl_1_l.
      assert (0 < 2 ^ pw) by (apply Z.pow_pos_nonneg; lia). apply Z.div_small_iff in Hs; [|lia]. revert Hs H. generalize (2 ^ pw). lia.
    + destruct (IH (pw + 1)) as [H1 H2]; [lia|done| |lia]. by replace (pw + 1 + Z.of_nat n) with (pw + Z.of_nat (S n)) by lia.
Qed.

Lemma power_for_spec len : 1 <= len <= BUFSIZE ->
  0 <= power_for len <= MB_MAX_SHIFT /\ len <= Z.shiftl 1 (power_for len).
Proof.
  unfold power_for, MB_BASE_SHIFT, MB_MAX_SHIFT, BUFSIZE. intros H.
  destruct (find_power_spec 4 len 5) as [H1 H2]; [lia|lia|change (Z.shiftl 1 (5 + Z.of_nat 4)) with 512; lia|].
  assert (Hext : forall n pw, len <= Z.shiftl 1 (pw + Z.of_nat n) -> 0 <= pw -> find_power (S n) len pw = find_power n len pw).
  { clear -H. induction n as [|n IH]; intros pw Hle Hpw.
    - cbn [find_power]. rewrite Z.add_0_r in Hle.
      destruct (Z.eqb_spec (Z.shiftr (len - 1) pw) 0) as [|Hn]; [done|]. exfalso. apply Hn.
      rewrite Z.shiftr_div_pow2 by lia. rewrite Z.shiftl_1_l in Hle. apply Z.div_small. lia.
    - cbn [find_power] in *. destruct (_ =? 0); [done|]. apply IH; [|lia].
      by replace (pw + 1 + Z.of_nat n) with (pw + Z.of_nat (S n)) by lia. }
  assert (H512 : len <= Z.shiftl 1 (5 + Z.of_nat 4)) by (change (Z.shiftl 1 (5 + Z.of_nat 4)) with 512; lia).
  rewrite (Hext 4%nat 5 H512 ltac:(lia)). clear Hext. change (5 + Z.of_nat 4) with 9 in H1. lia.
Qed.

(** A new buffer for a caller. *)
Lemma alloc_new POOL len cnt par st :
  pool_ok cnt par st -> 1 <= len <= BUFSIZE ->
  match msgq_alloc POOL None len st with
  | (st', Some mb) => cnt mb = 0%nat /\ par mb = None /\ real (buf st' mb) = None /\ power (buf st' mb) = power_for len /\
      mb ∈ dom (bufs st') /\
      pool_ok (inc cnt mb) par st' /\ (forall q, q <> mb -> buf st' q = buf st q)
  | (st', None) => st' = st /\ free_of st (power_for len) = [] /\ POOL <= tot_bufsize st
  end.
Proof.
  intros H Hlen. unfold msgq_alloc. destruct (power_for_spec len Hlen) as [Hpw _].
  pose proof (get_buf_spec POOL (power_for len) cnt par st H Hpw) as Hg.
  destruct (get_buf POOL (power_for len) st) as [st1 [mb|]]; [|done].
  destruct Hg as (Hc & Hp & Hpow & Hd & H1 & Hfree & Hold & _).
  split; [done|]. split; [done|]. rewrite buf_set_eq. split; [done|]. split; [done|]. split; [simpl; set_solver|].
  assert (Hr0 : ref (buf st1 mb) = 0) by (rewrite (po_ref _ _ _ H1), Hc, Hp; done).
  split; [|intros q Hq; rewrite buf_set_ne by done; by apply Hold].
  destruct H1 as [R1 R2 R3 R4 R5 R6 R7 R8]. set (nb := with_ref 1 _). constructor.
  - intros p. rewrite buf_set. unfold inc. destruct (decide (p = mb)) as [->|]; [by rewrite Hc, Hp|apply R1].
  - intros p b. rewrite R2, buf_set. destruct (decide (b = mb)) as [->|]; [|done]. rewrite Hr0. simpl. split; [lia|]. by intros (_ & _ & ?).
  - intros p Hpp. rewrite buf_set. destruct (decide (p = mb)) as [->|]; [done|by apply R3].
  - intros b r. rewrite !buf_set. destruct (decide (b = mb)) as [->|]; [done|]. intros Hb Hr.
    destruct (decide (r = mb)) as [->|]; by apply R4.
  - intros k p Hk. rewrite buf_set. destruct (decide (p = mb)) as [->|]; [by destruct (Hfree k)|].
    destruct (R5 k p Hk) as (? & ? & ?). split; [simpl; set_solver|done].
  - apply R6.
  - intros p. rewrite buf_set. destruct (decide (p = mb)) as [->|]; apply R7.
  - intros p. rewrite buf_set. destruct (decide (p = mb)) as [->|]; apply R8.
Qed.

(** Changes of the other components do not matter. *)
Lemma pool_same cnt par st st' :
  bufs st' = bufs st -> mfree st' = mfree st -> pool_ok cnt par st -> pool_ok cnt par st'.
Proof.
  intros Hb Hf H. assert (He : forall p, buf st' p = buf st p) by (intros p; unfold buf; by rewrite Hb).
  assert (Hfr : forall k, free_of st' k = free_of st k) by (intros k; unfold free_of; by rewrite Hf).
  destruct H as [H1 H2 H3 H4 H5 H6 H7 H8]. constructor.
  - intros p. by rewrite He.
  - intros p b. by rewrite He.
  - intros p. rewrite He. apply H3.
  - intros b r. rewrite !He. apply H4.
  - intros k p. rewrite Hfr, He, Hb. apply H5.
  - intros k. by rewrite Hfr.
  - intros p. by rewrite He.
  - intros p. by rewrite He.
Qed.

Lemma buf_same st st' : bufs st' = bufs st -> forall p, buf st' p = buf st p.
Proof. intros Hb p. unfold buf. by rewrite Hb. Qed.

(** One reference less, when others remain, and one more. *)
Lemma pool_ref cnt cnt' par st p n :
  pool_ok cnt par st -> 0 < n -> 0 < ref (buf st p) -> p ∈ dom (bufs st) ->
  n = Z.of_nat (cnt' p + match par p with Some _ => 1 | None => 0 end) -> (forall q, q <> p -> cnt' q = cnt q) ->
  pool_ok cnt' par (set_buf p (with_ref n (buf st p)) st).
Proof.
  intros [H1 H2 H3 H4 H5 H6 H7 H8] Hn Hr Hd He Hc. constructor.
  - intros q. rewrite buf_set. destruct (decide (q = p)) as [->|Hne]; [done|]. rewrite Hc by done. apply H1.
  - intros q b. rewrite H2, buf_set. destruct (decide (b = p)) as [->|]; [|done]. simpl. naive_solver lia.
  - intros q Hq. rewrite buf_set. destruct (decide (q = p)) as [->|]; by apply H3.
  - intros b r. rewrite !buf_set. destruct (decide (b = p)) as [->|], (decide (r = p)) as [->|]; simpl; auto.
  - intros k q Hq. destruct (H5 k q Hq) as (? & Hq0 & ?). rewrite buf_set_ne by (intros ->; lia).
    split; [simpl; set_solver|done].
  - apply H6.
  - intros q. rewrite buf_set. destruct (decide (q = p)) as [->|]; apply H7.
  - intros q. rewrite buf_set. destruct (decide (q = p)) as [->|]; apply H8.
Qed.

(** The last reference: what the buffer refers to loses its parent. *)
Definition orphan (p : ptr) (par : ptr -> option ptr) : ptr -> option ptr :=
  fun q => if decide (par q = Some p) then None else par q.

Definition inherit (r : option ptr) (p : ptr) (cnt : ptr -> nat) : ptr -> nat :=
  match r with Some r => if decide (r = p) then cnt else inc cnt r | None => cnt end.

Lemma pool_zero cnt par st p :
  pool_ok cnt par st -> ref (buf st p) = 1 -> (0 < cnt p)%nat ->
  pool_ok (inherit (real (buf st p)) p (dec cnt p)) (orphan p par) (set_buf p (with_ref 0 (buf st p)) st).
Proof.
  intros H Hr Hc. pose proof (po_ref _ _ _ H p) as Hp. rewrite Hr in Hp.
  assert (Hpar : par p = None) by (destruct (par p); [lia|done]). rewrite Hpar in Hp.
  destruct H as [H1 H2 H3 H4 H5 H6 H7 H8].
  assert (Hreal : forall q, par q = Some p <-> q <> p /\ real (buf st p) = Some q).
  { intros q. rewrite H2, Hr. naive_solver. }
  constructor.
  - intros q. rewrite buf_set. unfold orphan, inherit. destruct (decide (q = p)) as [->|Hne].
    + rewrite Hpar. rewrite (decide_False (P := None = Some p)) by done. simpl.
      destruct (real (buf st p)) as [r|]; [destruct (decide (r = p)) as [->|]|]; unfold inc, dec;
        rewrite ?(decide_True (P := p = p)) by done; rewrite ?(decide_False (P := p = r)) by congruence; simpl; lia.
    + rewrite H1. destruct (decide (par q = Some p)) as [E|E].
      * apply Hreal in E as [_ E2]. assert (par q = Some p) as -> by (by apply Hreal). rewrite E2.
        rewrite decide_False by done. unfold inc, dec. rewrite decide_True by done. rewrite decide_False by done. lia.
      * do 2 f_equal. destruct (real (buf st p)) as [r|] eqn:Er; [destruct (decide (r = p)) as [->|]|];
          unfold inc, dec; rewrite ?(decide_False (P := q = p)) by done; [done| |done].
        rewrite decide_False; [done|]. intros ->. apply E. apply Hreal. by split.
  - intros q b. rewrite buf_set. unfold orphan. destruct (decide (b = p)) as [->|Hne].
    + simpl. destruct (decide (par q = Some p)); split; try done; lia.
    + destruct (decide (par q = Some p)) as [E|E]; [|apply H2].
      split; [done|]. intros Hb. apply H2 in Hb. congruence.
  - intros q Hq. rewrite buf_set. destruct (decide (q = p)) as [->|].
    + unfold orphan in Hq. rewrite Hpar in Hq. by rewrite decide_False in Hq.
    + apply H3. unfold orphan in Hq. by destruct (decide _) in Hq.
  - intros b r. rewrite !buf_set. destruct (decide (b = p)) as [->|]; [simpl; lia|].
    intros Hb Hre. rewrite <- (H4 b r) by done. by destruct (decide (r = p)) as [->|].
  - intros k q Hq. destruct (H5 k q Hq) as (? & Hq0 & ?). rewrite buf_set_ne by (intros ->; lia).
    split; [simpl; set_solver|done].
  - apply H6.
  - intros q. rewrite buf_set. destruct (decide (q = p)) as [->|]; apply H7.
  - intros q. rewrite buf_set. destruct (decide (q = p)) as [->|]; apply H8.
Qed.

(** Putting an unreferenced buffer on its free list. *)
Lemma pool_push cnt par st p k st' :
  pool_ok cnt par st -> ref (buf st p) = 0 -> p ∈ dom (bufs st) -> (forall k, p ∉ free_of st k) ->
  k = power (buf st p) -> bufs st' = bufs st -> mfree st' = <[k := p :: free_of st k]> (mfree st) ->
  pool_ok cnt par st'.
Proof.
  intros H Hr Hd Hf Hk Hb Hm. pose proof (buf_same _ _ Hb) as He. destruct H as [H1 H2 H3 H4 H5 H6 H7 H8].
  assert (Hfr : forall k', free_of st' k' = if decide (k' = k) then p :: free_of st k else free_of st k').
  { intros k'. unfold free_of at 1. rewrite Hm. destruct (decide (k' = k)) as [->|]; [by rewrite lookup_insert_eq|].
    by rewrite lookup_insert_ne. }
  constructor.
  - intros q. by rewrite He.
  - intros q b. by rewrite He.
  - intros q. rewrite He. apply H3.
  - intros b r. rewrite !He. apply H4.
  - intros k' q. rewrite Hfr, He, Hb. destruct (decide (k' = k)) as [->|]; [|apply H5].
    intros [->|Hq]%elem_of_cons; [by subst k|]. by apply H5.
  - intros k'. rewrite Hfr. destruct (decide (k' = k)) as [->|]; [|done]. apply NoDup_cons. split; [apply Hf|done].
  - intros q. by rewrite He.
  - intros q. by rewrite He.
Qed.

Lemma live_dom cnt par st p : pool_ok cnt par st -> 0 < ref (buf st p) -> p ∈ dom (bufs st).
Proof.
  intros H Hr. unfold buf in Hr. destruct (bufs st !! p) eqn:E; [by apply elem_of_dom_2 in E|]. simpl in Hr. lia.
Qed.

Lemma live_ref cnt par st p : pool_ok cnt par st -> (0 < cnt p)%nat -> 0 < ref (buf st p).
Proof. intros H Hc. rewrite (po_ref _ _ _ H). lia. Qed.

Lemma live_not_free cnt par st p k : pool_ok cnt par st -> 0 < ref (buf st p) -> p ∉ free_of st k.
Proof. intros H Hr Hp. apply (po_free _ _ _ H) in Hp as (_ & ? & _). lia. Qed.

(** What [msgq_clean] does: a reference is gone, no text has changed, and
    only what was freed is new on a free list. *)
Definition cleaned (cnt : ptr -> nat) (p : ptr) (freed : list ptr) (st st' : mqdata) : Prop :=
  (exists par', pool_ok (dec cnt p) par' st') /\ (forall q, msg (buf st' q) = msg (buf st q)) /\
  (forall k q, q ∈ free_of st' k -> q ∈ freed \/ q ∈ free_of st k) /\
  (forall q, q ∉ freed -> buf st' q = buf st q).

Lemma set_ref_msg p n st q : msg (buf (set_buf p (with_ref n (buf st p)) st) q) = msg (buf st q).
Proof. rewrite buf_set. by destruct (decide (q = p)) as [->|]. Qed.

Lemma clean_shared n cnt par st p :
  pool_ok cnt par st -> (0 < cnt p)%nat -> ref (buf st p) <> 1 ->
  exists st', msgq_clean (S n) p st = Some st' /\ cleaned cnt p [p] st st'.
Proof.
  intros H Hc Hr. pose proof (live_ref _ _ _ _ H Hc) as Hl. cbn [msgq_clean].
  destruct (Z.eqb_spec (ref (buf st p) - 1) 0) as [Hz|Hz]; [lia|]. eexists. split; [done|].
  split; [|split; [|split]].
  - exists par. apply (pool_ref cnt); [done|lia|done|by apply (live_dom cnt par)| |].
    + rewrite (po_ref _ _ _ H). unfold dec. rewrite decide_True by done. lia.
    + intros q Hq. unfold dec. by rewrite decide_False.
  - apply set_ref_msg.
  - intros k q Hq. by right.
  - intros q Hq. apply buf_set_ne. set_solver.
Qed.

(** The release of a buffer whose [real] is none or itself. *)
Lemma clean_last_ref n cnt par st p :
  pool_ok cnt par st -> ref (buf st p) = 1 -> (0 < cnt p)%nat ->
  real (buf st p) = None \/ real (buf st p) = Some p ->
  exists st', msgq_clean (S n) p st = Some st' /\ cleaned cnt p [p] st st'.
Proof.
  intros H Hr Hc Hreal. cbn [msgq_clean]. rewrite Hr. cbn [Z.sub Z.eqb negb].
  set (st1 := set_buf p (with_ref 0 (buf st p)) st).
  pose proof (pool_zero cnt par st p H Hr Hc) as H1. fold st1 in H1.
  assert (Hinh : inherit (real (buf st p)) p (dec cnt p) = dec cnt p).
  { destruct Hreal as [-> | ->]; [done|]. simpl. by rewrite decide_True. }
  rewrite Hinh in H1.
  assert (Hrec : (match real (buf st p) with
                  | Some r => if decide (r = p) then Some (set_msglist (unlink p (msglist st1)) st1)
                              else msgq_clean n r (set_msglist (unlink p (msglist st1)) st1)
                  | None => Some (set_msglist (unlink p (msglist st1)) st1)
                  end) = Some (set_msglist (unlink p (msglist st1)) st1)).
  { destruct Hreal as [-> | ->]; [done|]. by rewrite decide_True. }
  change (1 - 1) with 0. cbn [Z.eqb negb]. fold st1. rewrite Hrec. cbn [mbind option_bind].
  eexists. split; [done|]. set (st2 := set_msglist _ st1).
  assert (Hf : forall k, p ∉ free_of st2 k) by (intros k; apply (live_not_free _ _ st p k H); lia).
  split; [|split; [|split]].
  - exists (orphan p par). eapply (pool_push _ _ st1 p (power (buf st p))); [exact H1|..]; try done.
    + unfold st1. by rewrite buf_set_eq.
    + unfold st1. simpl. set_solver.
    + unfold st1. by rewrite buf_set_eq.
  - intros q. apply set_ref_msg.
  - intros k q Hq. revert Hq. rewrite (free_set_pool _ _ _ (power (buf st p)) (p :: free_of st (power (buf st p)))) by done.
    destruct (decide (k = _)) as [->|]; [|by right]. rewrite elem_of_cons. intros [->|?]; [left; set_solver|by right].
  - intros q Hq. change (buf st1 q = buf st q). apply buf_set_ne. set_solver.
Qed.

Lemma clean_dom n : forall p st st', msgq_clean n p st = Some st' -> dom (bufs st) ⊆ dom (bufs st').
Proof.
  induction n as [|n IH]; intros p st st' H; [done|]. cbn [msgq_clean] in H.
  assert (Hs : dom (bufs st) ⊆ dom (bufs (set_buf p (with_ref (ref (buf st p) - 1) (buf st p)) st))) by (simpl; set_solver).
  destruct (negb _); [injection H as <-; exact Hs|].
  destruct (real (buf st p)) as [r|]; [destruct (decide (r = p))|]; cbn [mbind option_bind] in H;
    try (injection H as <-; exact Hs).
  destruct (msgq_clean n r _) as [st2|] eqn:E; [|done]. injection H as <-. apply IH in E.
  etrans; [exact Hs|exact E].
Qed.

Lemma msgq_clean_other n p r st :
  ref (buf st p) = 1 -> real (buf st p) = Some r -> r <> p ->
  let st1 := set_buf p (with_ref 0 (buf st p)) st in
  msgq_clean (S n) p st =
    (st ← msgq_clean n r (set_msglist (unlink p (msglist st1)) st1);
     let k := power (buf st1 p) in
     Some (set_pool (tot_bufsize st) (malloc st) (<[k := counter (mused st) k - 1]> (mused st))
             (<[k := p :: free_of st k]> (mfree st)) st)).
Proof.
  intros Hr Hre Hne st1. assert (power (buf st1 p) = power (buf st p)) as -> by (unfold st1; by rewrite buf_set_eq).
  cbn [msgq_clean]. rewrite Hr, Hre. change (1 - 1) with 0. cbn [Z.eqb negb]. by rewrite decide_False.
Qed.

(** [msgq_clean] on any buffer with a reference. *)
Lemma msgq_clean_spec cnt par st p :
  pool_ok cnt par st -> (0 < cnt p)%nat ->
  exists st', msgq_clean 2 p st = Some st' /\
    (exists par', pool_ok (dec cnt p) par' st') /\ (forall q, msg (buf st' q) = msg (buf st q)).
Proof.
  intros H Hc. destruct (decide (ref (buf st p) = 1)) as [Hr|Hr].
  2: { destruct (clean_shared 1 cnt par st p H Hc Hr) as (st' & He & Hp & Ht & _). by exists st'. }
  destruct (real (buf st p)) as [r|] eqn:Hreal; [destruct (decide (r = p)) as [->|Hne]|].
  - destruct (clean_last_ref 1 cnt par st p H Hr Hc) as (st' & He & Hp & Ht & _); [by right|]. by exists st'.
  - assert (Hpr : par r = Some p) by (apply (po_par _ _ _ H); split; [done|]; split; [lia|done]).
    rewrite (msgq_clean_other 1 p r st) by done. cbv zeta.
    set (st1 := set_buf p (with_ref 0 (buf st p)) st). set (st2 := set_msglist (unlink p (msglist st1)) st1).
    pose proof (pool_zero cnt par st p H Hr Hc) as H1. rewrite Hreal in H1. unfold inherit in H1.
    rewrite decide_False in H1 by done. fold st1 in H1. set (cnt1 := inc (dec cnt p) r) in H1.
    assert (H2 : pool_ok cnt1 (orphan p par) st2) by (by apply (pool_same _ _ st1)).
    assert (Hc1 : (0 < cnt1 r)%nat) by (unfold cnt1, inc; rewrite decide_True by done; lia).
    assert (Hr2 : buf st2 r = buf st r) by (unfold st2, st1; change (buf (set_buf p (with_ref 0 (buf st p)) st) r = buf st r); by apply buf_set_ne).
    assert (Hcl : exists st3, msgq_clean 1 r st2 = Some st3 /\ cleaned cnt1 r [r] st2 st3).
    { destruct (decide (ref (buf st2 r) = 1)) as [E|E].
      - apply (clean_last_ref 0 _ _ _ _ H2 E Hc1). left. rewrite Hr2. apply (po_tmp _ _ _ H). by rewrite Hpr.
      - by apply (clean_shared 0 _ _ _ _ H2 Hc1). }
    destruct Hcl as (st3 & Hcl & (par3 & H3) & Ht & Hfr & Hold).
    fold st2. rewrite Hcl. cbn [mbind option_bind]. eexists. split; [done|].
    assert (Hp3 : buf st3 p = buf st1 p) by (apply Hold; set_solver).
    assert (Hp1 : buf st1 p = with_ref 0 (buf st p)) by apply buf_set_eq.
    split.
    + exists par3. apply (pool_push _ _ st3 p (power (buf st1 p))); try done.
      * apply (pool_cnt_ext (dec cnt1 r)); [|done]. intros q. unfold cnt1, inc, dec.
        repeat case_decide; simpl; lia.
      * by rewrite Hp3, Hp1.
      * destruct (bufs st3 !! p) eqn:E; [by apply elem_of_dom_2 in E|].
        exfalso. revert E. apply clean_dom in Hcl. intros E. apply not_elem_of_dom in E. apply E, Hcl.
        unfold st2, st1. simpl. set_solver.
      * intros k Hk. apply Hfr in Hk as [Hk|Hk]; [set_solver|].
        revert Hk. apply (live_not_free _ _ st p k H). lia.
      * by rewrite Hp3.
    + intros q. transitivity (msg (buf st2 q)); [apply Ht|]. apply set_ref_msg.
  - destruct (clean_last_ref 1 cnt par st p H Hr Hc) as (st' & He & Hp & Ht & _); [by left|]. by exists st'.
Qed.

(** A buffer that serves as its own real one. *)
Lemma in_place_ok cnt par st p :
  pool_ok cnt par st -> (0 < cnt p)%nat -> par p = None -> real (buf st p) = None ->
  pool_ok cnt par (set_buf p (with_real (Some p) (buf st p)) st).
Proof.
  intros H Hc Hp Hre. pose proof (live_ref _ _ _ _ H Hc) as Hl. pose proof (live_dom _ _ _ _ H Hl) as Hd.
  destruct H as [H1 H2 H3 H4 H5 H6 H7 H8]. constructor.
  - intros q. rewrite buf_set. destruct (decide (q = p)) as [->|]; apply H1.
  - intros q b. rewrite H2, buf_set. destruct (decide (b = p)) as [->|]; [|done]. simpl. rewrite Hre. naive_solver.
  - intros q Hq. rewrite buf_set. destruct (decide (q = p)) as [->|]; [congruence|by apply H3].
  - intros b r. rewrite !buf_set. destruct (decide (b = p)) as [->|]; simpl.
    + intros _ [= <-]. by rewrite decide_True.
    + intros Hb Hr. destruct (decide (r = p)) as [->|]; by apply H4.
  - intros k q Hq. destruct (H5 k q Hq) as (? & Hq0 & ?). rewrite buf_set_ne by (intros ->; lia).
    split; [simpl; set_solver|done].
  - apply H6.
  - intros q. rewrite buf_set. destruct (decide (q = p)) as [->|]; apply H7.
  - intros q. rewrite buf_set. destruct (decide (q = p)) as [->|]; apply H8.
Qed.

(** A buffer [mb] that gets another, [tmp], for its real one. *)
Lemma other_real_ok cnt par st mb tmp :
  pool_ok cnt par st -> (0 < cnt mb)%nat -> par mb = None -> real (buf st mb) = None ->
  cnt tmp = 0%nat -> par tmp = None -> tmp ∈ dom (bufs st) -> (forall k, tmp ∉ free_of st k) ->
  mb_length (buf st mb) <= bufsize (buf st tmp) ->
  let st1 := set_buf tmp (with_ref 1 (with_real None (buf st tmp))) st in
  let st2 := set_buf mb (with_real (Some tmp) (buf st1 mb)) st1 in
  let st3 := set_buf tmp (with_text (msg (buf st2 mb)) (buf st2 tmp)) st2 in
  pool_ok cnt (fun q => if decide (q = tmp) then Some mb else par q) st3 /\
  buf st3 mb = with_real (Some tmp) (buf st mb) /\ msg (buf st3 tmp) = msg (buf st mb) /\ ref (buf st3 tmp) = 1 /\
  (forall q, q <> tmp -> q <> mb -> buf st3 q = buf st q).
Proof.
  intros H Hc Hp Hre Hct Hpt Hdt Hft Hsz st1 st2 st3.
  assert (Hne : tmp <> mb) by (intros ->; lia).
  assert (Hb1 : buf st1 mb = buf st mb) by (by apply buf_set_ne).
  assert (Hb2 : buf st2 mb = with_real (Some tmp) (buf st mb)) by (unfold st2; by rewrite buf_set_eq, Hb1).
  assert (Hb3 : buf st3 mb = with_real (Some tmp) (buf st mb)) by (unfold st3; by rewrite buf_set_ne).
  assert (Ht3 : buf st3 tmp = with_text (msg (buf st mb)) (with_ref 1 (with_real None (buf st tmp)))).
  { unfold st3. rewrite buf_set_eq, Hb2. unfold st2. rewrite buf_set_ne by done. unfold st1. by rewrite buf_set_eq. }
  assert (Hold : forall q, q <> tmp -> q <> mb -> buf st3 q = buf st q).
  { intros q Hq1 Hq2. unfold st3, st2, st1. by rewrite !buf_set_ne. }
  split; [|by rewrite Hb3, Ht3].
  pose proof (live_ref _ _ _ _ H Hc) as Hl.
  assert (Hno : forall b, 0 < ref (buf st b) -> real (buf st b) = Some tmp -> b = tmp).
  { intros b Hb Hr. destruct (decide (b = tmp)); [done|]. exfalso.
    assert (par tmp = Some b) by (by apply (po_par _ _ _ H)). congruence. }
  assert (Hr0 : ref (buf st tmp) = 0) by (rewrite (po_ref _ _ _ H), Hct, Hpt; done).
  destruct H as [H1 H2 H3 H4 H5 H6 H7 H8].
  assert (Hcases : forall q, q = tmp \/ q = mb \/ (q <> tmp /\ q <> mb)).
  { intros q. destruct (decide (q = tmp)), (decide (q = mb)); auto. }
  constructor.
  - intros q. destruct (Hcases q) as [->|[->|[Hq1 Hq2]]].
    + rewrite Ht3, decide_True by done. simpl. lia.
    + rewrite Hb3, decide_False by done. apply H1.
    + rewrite Hold, decide_False by done. apply H1.
  - intros q b. destruct (Hcases b) as [->|[->|[Hb1' Hb2']]].
    + rewrite Ht3. simpl. destruct (decide (q = tmp)) as [->|]; [naive_solver|]. rewrite H2. split; [lia|naive_solver].
    + rewrite Hb3. simpl. destruct (decide (q = tmp)) as [->|]; [naive_solver|]. rewrite H2, Hre. naive_solver.
    + rewrite Hold by done. destruct (decide (q = tmp)) as [->|]; [|apply H2].
      split; [congruence|]. intros (_ & Hb & Hr). exfalso. apply Hb1'. by apply Hno.
  - intros q. destruct (Hcases q) as [->|[->|[Hq1 Hq2]]].
    + by rewrite Ht3.
    + rewrite decide_False by done. congruence.
    + rewrite Hold, decide_False by done. apply H3.
  - intros b r. destruct (Hcases b) as [->|[->|[Hb1' Hb2']]].
    + by rewrite Ht3.
    + rewrite Hb3. simpl. intros _ [= <-]. by rewrite Ht3.
    + rewrite Hold by done. intros Hb Hr. rewrite <- (H4 b r) by done. destruct (Hcases r) as [->|[->|[Hr1 Hr2]]].
      * exfalso. apply Hb1'. by apply Hno.
      * by rewrite Hb3.
      * by rewrite Hold.
  - intros k q Hq. destruct (H5 k q Hq) as (? & Hq0 & ?). rewrite Hold; [|by intros ->; apply (Hft k)|by intros ->; lia].
    split; [simpl; set_solver|done].
  - apply H6.
  - intros q. destruct (Hcases q) as [->|[->|[Hq1 Hq2]]]; [by rewrite Ht3|by rewrite Hb3; apply H7|by rewrite Hold].
  - intros q. destruct (Hcases q) as [->|[->|[Hq1 Hq2]]]; [rewrite Ht3; apply H8|rewrite Hb3; apply H8|by rewrite Hold].
Qed.

(** [make_real] gives a live buffer with the same text, and keeps every
    other text. *)
Lemma make_real_spec POOL mb cnt par st :
  pool_ok cnt par st -> (0 < cnt mb)%nat -> par mb = None -> 1 <= mb_length (buf st mb) ->
  let st' := make_real POOL mb st in
  exists par' r, real (buf st' mb) = Some r /\ pool_ok cnt par' st' /\ par' mb = None /\ 0 < ref (buf st' r) /\
    msg (buf st' r) = msg (buf st mb) /\ forall q, (0 < cnt q)%nat -> msg (buf st' q) = msg (buf st q).
Proof.
  intros H Hc Hp Hlen. pose proof (live_ref _ _ _ _ H Hc) as Hl. unfold make_real.
  destruct (real (buf st mb)) as [r|] eqn:Hre.
  - exists par, r. split_and!; try done; [|by apply (po_text _ _ _ H)].
    destruct (decide (r = mb)) as [->|Hne]; [done|].
    assert (Hpr : par r = Some mb) by (by apply (po_par _ _ _ H)). rewrite (po_ref _ _ _ H), Hpr. lia.
  - set (len := mb_length (buf st mb)) in *. set (st0 := add_size len st).
    assert (H0 : pool_ok cnt par st0) by (by apply (pool_same _ _ st)).
    assert (Hb0 : forall q, buf st0 q = buf st q) by done.
    assert (Hsz : 1 <= len <= BUFSIZE).
    { split; [done|]. etrans; [apply (po_size _ _ _ H)|]. unfold bufsize. pose proof (po_power _ _ _ H mb) as Hpw.
      unfold MB_MAX_SHIFT in Hpw. rewrite Z.shiftl_1_l. change BUFSIZE with (2 ^ 9). apply Z.pow_le_mono_r; lia. }
    destruct (power_for_spec len Hsz) as [Hpw Hfit].
    assert (Hplace : exists par' r, real (buf (set_buf mb (with_real (Some mb) (buf st0 mb)) st0) mb) = Some r /\
      pool_ok cnt par' (set_buf mb (with_real (Some mb) (buf st0 mb)) st0) /\ par' mb = None /\
      0 < ref (buf (set_buf mb (with_real (Some mb) (buf st0 mb)) st0) r) /\
      msg (buf (set_buf mb (with_real (Some mb) (buf st0 mb)) st0) r) = msg (buf st mb) /\
      forall q, (0 < cnt q)%nat -> msg (buf (set_buf mb (with_real (Some mb) (buf st0 mb)) st0) q) = msg (buf st q)).
    { exists par, mb. rewrite buf_set_eq. split_and!; try done; [by apply in_place_ok|].
      intros q _. rewrite buf_set. by destruct (decide (q = mb)) as [->|]. }
    unfold msgq_alloc. destruct (power (buf st0 mb) =? power_for len); [by rewrite decide_True|].
    pose proof (get_buf_spec POOL (power_for len) cnt par st0 H0 Hpw) as Hg.
    destruct (get_buf POOL (power_for len) st0) as [st1 [tmp|]].
    2: { destruct Hg as (-> & _). by rewrite decide_True. }
    destruct Hg as (Hct & Hpt & Hpow & Hdt & H1 & Hft & Hold & _).
    assert (Hne : tmp <> mb) by (intros ->; lia). rewrite decide_False by done.
    assert (Hm1 : buf st1 mb = buf st mb) by (rewrite Hold by done; done).
    destruct (other_real_ok cnt par st1 mb tmp H1 Hc Hp) as (Hok & Hmb & Htext & Href & Hrest); try done.
    { by rewrite Hm1. }
    { rewrite Hm1. unfold bufsize. by rewrite Hpow. }
    cbv zeta in *. set (st5 := set_buf tmp _ _) in *. set (st6 := set_msglist _ st5).
    assert (Hb6 : forall q, buf st6 q = buf st5 q) by done.
    exists (fun q => if decide (q = tmp) then Some mb else par q), tmp.
    rewrite !Hb6, Hmb, Htext, Href, Hm1. split_and!; try done.
    + by apply (pool_same _ _ st5).
    + by rewrite decide_False.
    + intros q Hq. rewrite Hb6. destruct (decide (q = mb)) as [->|]; [by rewrite Hmb, Hm1|].
      assert (q <> tmp) by (intros ->; lia). rewrite Hrest, Hold by done. done.
Qed.

(** ** Queues as streams *)

Definition texts (st : mqdata) (l : list Msg) : list ascii := concat (map (rest_of st) l).

(** The bytes that will be sent, in order: the rest of a normal message sent
    in part, then the urgent ones, then the normal ones. *)
Definition stream (st : mqdata) (mq : MsgQ) : list ascii :=
  if partial (queue mq)
  then texts st (take 1 (queue mq)) ++ texts st (prio mq) ++ texts st (tail (queue mq))
  else texts st (prio mq) ++ texts st (queue mq).

Definition occ (l : list Msg) (p : ptr) : nat := length (filter (fun m => mbuf m = p) l).

Definition unsent (l : list Msg) : Prop := Forall (fun m => sent m = 0%nat) (tail l).

Record queue_ok (st : mqdata) (mq : MsgQ) : Prop := {
  q_sent : Forall (fun m => sent m < length (msg (buf st (mbuf m))))%nat (queue mq ++ prio mq);
  q_queue : unsent (queue mq);
  q_prio : unsent (prio mq);
  q_length : mq_length mq = w32 (Z.of_nat (length (stream st mq)));
  q_count : mq_count mq = w32 (Z.of_nat (length (queue mq) + length (prio mq)))
}.

(** The references to a buffer: those of the queue and [ext p] others, of
    callers and of other queues. *)
Definition refs (mq : MsgQ) (ext : ptr -> nat) (p : ptr) : nat := (occ (queue mq ++ prio mq) p + ext p)%nat.

Definition mq_ok (ext : ptr -> nat) (st : mqdata) (mq : MsgQ) : Prop :=
  queue_ok st mq /\ exists par, pool_ok (refs mq ext) par st.

Definition same_texts (st st' : mqdata) : Prop := forall p, msg (buf st' p) = msg (buf st p).

Lemma rest_same st st' m : same_texts st st' -> rest_of st' m = rest_of st m.
Proof. intros H. unfold rest_of. by rewrite H. Qed.

Lemma texts_same st st' l : same_texts st st' -> texts st' l = texts st l.
Proof. intros H. unfold texts. f_equal. apply map_ext. intros m. by apply rest_same. Qed.

Lemma texts_app st l l' : texts st (l ++ l') = texts st l ++ texts st l'.
Proof. unfold texts. by rewrite map_app, concat_app. Qed.

Lemma stream_same st st' mq : same_texts st st' -> stream st' mq = stream st mq.
Proof. intros H. unfold stream. by rewrite !(texts_same _ _ _ H). Qed.

Lemma occ_cons m l p : occ (m :: l) p = ((if decide (mbuf m = p) then 1 else 0) + occ l p)%nat.
Proof. unfold occ. rewrite filter_cons. by destruct (decide (mbuf m = p)). Qed.

Lemma occ_app l l' p : occ (l ++ l') p = (occ l p + occ l' p)%nat.
Proof. unfold occ. by rewrite filter_app, length_app. Qed.

Lemma unsent_partial m l : unsent (m :: l) -> partial l = false.
Proof. unfold unsent. simpl. destruct l as [|x l]; [done|]. intros H. apply Forall_cons in H as [H _]. simpl. by rewrite H. Qed.

Lemma unsent_tail m l : unsent (m :: l) -> unsent l.
Proof. unfold unsent. simpl. destruct l as [|x l]; [done|]. intros H. by apply Forall_cons in H as [_ H]. Qed.

(** What [msgq_delmsg] does to the head of a list. *)
Lemma delmsg_spec mq m l len st cnt par :
  pool_ok cnt par st -> (0 < cnt (mbuf m))%nat ->
  let k := length (rest_of st m) in
  exists l' len' total n st', msgq_delmsg mq (m :: l) len st = Some (l', len', total, n, st') /\ same_texts st st' /\
    (((k <= len)%nat /\ l' = l /\ len' = (len - k)%nat /\ total = w32 (mq_length mq - Z.of_nat k) /\
      n = w32 (mq_count mq - 1) /\ exists par', pool_ok (dec cnt (mbuf m)) par' st') \/
     ((len < k)%nat /\ l' = {| sent := sent m + len; mbuf := mbuf m |} :: l /\ len' = 0%nat /\
      total = w32 (mq_length mq - Z.of_nat len) /\ n = mq_count mq /\ st' = st)).
Proof.
  intros H Hc k. unfold msgq_delmsg.
  assert (Hk : (length (msg (buf st (mbuf m))) - sent m)%nat = k) by (unfold k, rest_of; by rewrite length_drop).
  rewrite Hk. destruct (Nat.leb_spec k len) as [Hle|Hlt].
  - destruct (msgq_clean_spec cnt par st (mbuf m) H Hc) as (st' & -> & (par' & H') & Ht). cbn [mbind option_bind].
    eexists _, _, _, _, _. split; [done|]. split; [exact Ht|]. left. split_and!; try done.
    exists par'. by apply (pool_same _ _ st').
  - eexists _, _, _, _, _. split; [done|]. split; [done|]. by right.
Qed.

(** A queue whose next bytes are those of [m], [T] coming after them, and
    [put] putting a list in the place of the one [m] heads. *)
Definition next_at (st : mqdata) (mq : MsgQ) (m : Msg) (l : list Msg) (put : list Msg -> Z -> Z -> MsgQ) : Prop :=
  (exists T, stream st mq = rest_of st m ++ T /\
     (forall t c, stream st (put l t c) = T) /\
     (forall len t c, (0 < len)%nat -> (len < length (rest_of st m))%nat ->
        stream st (put ({| sent := sent m + len; mbuf := mbuf m |} :: l) t c) = drop len (rest_of st m) ++ T)) /\
  (forall l' t c, mq_length (put l' t c) = t /\ mq_count (put l' t c) = c) /\
  (forall x t c, unsent (queue (put (x :: l) t c)) /\ unsent (prio (put (x :: l) t c))) /\
  (forall t c, unsent (queue (put l t c)) /\ unsent (prio (put l t c))) /\
  (exists r, queue mq ++ prio mq ≡ₚ m :: r /\ (forall t c, queue (put l t c) ++ prio (put l t c) ≡ₚ r) /\
     (forall x t c, queue (put (x :: l) t c) ++ prio (put (x :: l) t c) ≡ₚ x :: r)).

Lemma rest_advance st m len :
  rest_of st {| sent := sent m + len; mbuf := mbuf m |} = drop len (rest_of st m).
Proof. unfold rest_of. simpl. by rewrite drop_drop. Qed.

Lemma next_on_queue st mq m l :
  queue_ok st mq -> queue mq = m :: l -> (partial (queue mq) = true \/ prio mq = []) ->
  next_at st mq m l (fun l t c => {| mq_length := t; mq_count := c; queue := l; prio := prio mq |}).
Proof.
  intros Hq Hm Hp. pose proof (q_queue _ _ Hq) as Hu. rewrite Hm in Hu.
  pose proof (unsent_partial _ _ Hu) as Hpl. split; [|split; [|split; [|split]]].
  - exists (texts st (prio mq) ++ texts st l). unfold stream. cbn [queue prio]. rewrite Hpl. split_and!.
    + destruct Hp as [Hp|Hp].
      * rewrite Hp, Hm. cbn [take tail]. unfold texts at 1. simpl. by rewrite app_nil_r.
      * rewrite Hp, Hm. destruct (partial (m :: l)); cbn [take tail]; unfold texts; cbn [map concat app]; [|done].
        by rewrite app_nil_r.
    + done.
    + intros len t c H0 Hlen. cbn [partial]. rewrite (proj2 (Nat.ltb_lt _ _)) by (simpl; lia).
      cbn [take tail]. unfold texts at 1. cbn [map concat]. rewrite app_nil_r. by rewrite rest_advance.
  - done.
  - intros x t c. split; [exact Hu|apply (q_prio _ _ Hq)].
  - intros t c. split; [by eapply unsent_tail|apply (q_prio _ _ Hq)].
  - exists (l ++ prio mq). by rewrite Hm.
Qed.

Lemma next_on_prio st mq m l :
  queue_ok st mq -> prio mq = m :: l -> partial (queue mq) = false ->
  next_at st mq m l (fun l t c => {| mq_length := t; mq_count := c; queue := queue mq; prio := l |}).
Proof.
  intros Hq Hm Hp. pose proof (q_prio _ _ Hq) as Hu. rewrite Hm in Hu. split; [|split; [|split; [|split]]].
  - exists (texts st l ++ texts st (queue mq)). unfold stream. cbn [queue prio]. rewrite Hp, Hm. split_and!.
    + unfold texts at 1. simpl. by rewrite <- app_assoc.
    + done.
    + intros len t c _ Hlen. unfold texts at 1. cbn [map concat]. rewrite rest_advance. by rewrite <- app_assoc.
  - done.
  - intros x t c. split; [apply (q_queue _ _ Hq)|exact Hu].
  - intros t c. split; [apply (q_queue _ _ Hq)|by eapply unsent_tail].
  - exists (queue mq ++ l). rewrite Hm. split; [by rewrite Permutation_middle|]. split; [done|].
    intros x t c. cbn [queue prio]. by rewrite Permutation_middle.
Qed.

Lemma occ_perm l l' p : l ≡ₚ l' -> occ l p = occ l' p.
Proof. intros H. unfold occ. by rewrite H. Qed.

Definition messages_of (mq : MsgQ) : nat := length (queue mq ++ prio mq).

Lemma w32_sub a b : w32 (w32 a - b) = w32 (a - b).
Proof. unfold w32. apply Zminus_mod_idemp_l. Qed.

Lemma w32_add a b : w32 (w32 a + b) = w32 (a + b).
Proof. unfold w32. apply Zplus_mod_idemp_l. Qed.

Lemma delmsg_step ext st mq m l put len :
  mq_ok ext st mq -> next_at st mq m l put -> (0 < len)%nat ->
  exists l' len' total n st', msgq_delmsg mq (m :: l) len st = Some (l', len', total, n, st') /\
    mq_ok ext st' (put l' total n) /\ same_texts st st' /\
    drop len' (stream st' (put l' total n)) = drop len (stream st mq) /\
    (len' = 0%nat \/ S (messages_of (put l' total n)) = messages_of mq).
Proof.
  intros [Hq [par Hpool]] ((T & HT & Hwhole & Hpart) & Hfields & Hu1 & Hu2 & r & Hr & Hr1 & Hr2) Hlen.
  assert (Hocc : forall p, refs mq ext p = ((if decide (mbuf m = p) then 1 else 0) + occ r p + ext p)%nat).
  { intros p. unfold refs. by rewrite (occ_perm _ _ _ Hr), occ_cons. }
  pose proof (q_sent _ _ Hq) as Hs. rewrite Hr in Hs. apply Forall_cons in Hs as [Hm Hs].
  assert (Hc : (0 < refs mq ext (mbuf m))%nat) by (rewrite Hocc, decide_True by done; lia).
  assert (Hn : (length (queue mq) + length (prio mq))%nat = S (length r)).
  { rewrite <- length_app. by rewrite (Permutation_length Hr). }
  assert (Hlen1 : forall t c, (length (queue (put l t c)) + length (prio (put l t c)))%nat = length r)
    by (intros t c; rewrite <- length_app; apply Permutation_length, Hr1).
  assert (Hlen2 : forall x t c, (length (queue (put (x :: l) t c)) + length (prio (put (x :: l) t c)))%nat = S (length r))
    by (intros x t c; rewrite <- length_app; rewrite (Permutation_length (Hr2 x t c)); done).
  destruct (delmsg_spec mq m l len st (refs mq ext) par Hpool Hc) as (l' & len' & total & n & st' & He & Ht & Hcase).
  exists l', len', total, n, st'. split; [done|].
  destruct Hcase as [(Hle & -> & -> & -> & -> & par' & Hpool')|(Hlt & -> & -> & -> & -> & ->)].
  - split; [|split; [done|split]].
    + split.
      * constructor.
        -- rewrite Hr1. eapply Forall_impl; [exact Hs|]. intros x Hx. by rewrite Ht.
        -- apply Hu2.
        -- apply Hu2.
        -- destruct (Hfields l (w32 (mq_length mq - Z.of_nat (length (rest_of st m)))) (w32 (mq_count mq - 1))) as [-> _].
           rewrite (stream_same st) by done. rewrite Hwhole, (q_length _ _ Hq), w32_sub, HT, length_app. f_equal. lia.
        -- destruct (Hfields l (w32 (mq_length mq - Z.of_nat (length (rest_of st m)))) (w32 (mq_count mq - 1))) as [_ ->].
           rewrite Hlen1, (q_count _ _ Hq), w32_sub, Hn. f_equal. lia.
      * exists par'. eapply pool_cnt_ext; [|exact Hpool']. intros p. unfold dec. rewrite Hocc.
        unfold refs. rewrite (occ_perm _ _ _ (Hr1 _ _)). destruct (decide (p = mbuf m)) as [->|].
        -- rewrite decide_True by done. simpl. done.
        -- rewrite decide_False by congruence. done.
    + rewrite (stream_same st), Hwhole, HT by done. rewrite drop_app. by rewrite (drop_ge (rest_of st m)) by lia.
    + right. unfold messages_of. rewrite !length_app, Hlen1, Hn. done.
  - split; [|split; [done|split]].
    + split.
      * constructor.
        -- rewrite Hr2. apply Forall_cons. split; [|done]. simpl. unfold rest_of in Hlt. rewrite length_drop in Hlt. lia.
        -- apply Hu1.
        -- apply Hu1.
        -- destruct (Hfields ({| sent := sent m + len; mbuf := mbuf m |} :: l) (w32 (mq_length mq - Z.of_nat len)) (mq_count mq)) as [-> _].
           rewrite Hpart by done. rewrite (q_length _ _ Hq), w32_sub, HT, !length_app, length_drop. f_equal. lia.
        -- destruct (Hfields ({| sent := sent m + len; mbuf := mbuf m |} :: l) (w32 (mq_length mq - Z.of_nat len)) (mq_count mq)) as [_ ->].
           rewrite Hlen2, (q_count _ _ Hq), Hn. done.
      * exists par. eapply pool_cnt_ext; [|exact Hpool]. intros p. rewrite Hocc. unfold refs.
        rewrite (occ_perm _ _ _ (Hr2 _ _ _)), occ_cons. done.
    + rewrite Hpart, HT by done. rewrite drop_0, drop_app_le by lia. done.
    + by left.
Qed.

Lemma msgq_delete_loop_spec ext n : forall mq len st,
  mq_ok ext st mq -> (1 <= n)%nat -> (len = 0 \/ messages_of mq + 2 <= n)%nat ->
  exists mq' st', msgq_delete_loop n mq len st = Some (mq', st') /\ mq_ok ext st' mq' /\ same_texts st st' /\
    stream st' mq' = drop len (stream st mq).
Proof.
  induction n as [|n IH]; intros mq len st Hok Hn Hf; [lia|]. cbn [msgq_delete_loop].
  destruct (Nat.eqb_spec len 0) as [->|Hlen]; [by exists mq, st|].
  destruct Hf as [|Hf]; [done|]. pose proof (proj1 Hok) as Hq.
  assert (Hgo : forall m l put, next_at st mq m l put ->
    exists mq' st', ('(l, len, total, cnt, st) ← msgq_delmsg mq (m :: l) len st; msgq_delete_loop n (put l total cnt) len st)
      = Some (mq', st') /\ mq_ok ext st' mq' /\ same_texts st st' /\ stream st' mq' = drop len (stream st mq)).
  { intros m l put Hnext.
    destruct (delmsg_step ext st mq m l put len Hok Hnext ltac:(lia)) as (l' & len' & total & c & st' & -> & Hok' & Ht & Hs & Hp).
    cbn [mbind option_bind].
    destruct (IH (put l' total c) len' st' Hok' ltac:(lia) ltac:(destruct Hp; [by left|right; lia])) as (mq2 & st2 & He2 & Hok2 & Ht2 & Hs2).
    exists mq2, st2. split; [exact He2|]. split; [done|]. split; [intros p; by rewrite Ht2|]. by rewrite Hs2, Hs. }
  destruct (partial (queue mq)) eqn:Ep.
  - destruct (queue mq) as [|m l] eqn:Em; [done|].
    apply (Hgo m l (fun l t c => {| mq_length := t; mq_count := c; queue := l; prio := prio mq |})).
    apply next_on_queue; [done..|]. left. by rewrite Em.
  - destruct (prio mq) as [|m l] eqn:Em.
    + destruct (queue mq) as [|m l] eqn:Eq.
      * exists mq, st. split; [done|]. split; [done|]. split; [done|]. unfold stream. rewrite Em, Eq. unfold texts. simpl. by rewrite drop_nil.
      * rewrite <- Em. apply (Hgo m l (fun l t c => {| mq_length := t; mq_count := c; queue := l; prio := prio mq |})).
        apply next_on_queue; [done..|]. by right.
    + apply (Hgo m l (fun l t c => {| mq_length := t; mq_count := c; queue := queue mq; prio := l |})).
      by apply next_on_prio.
Qed.

Lemma msgq_delete_spec ext mq len st :
  mq_ok ext st mq ->
  exists mq' st', msgq_delete mq len st = Some (mq', st') /\ mq_ok ext st' mq' /\ same_texts st st' /\
    stream st' mq' = drop len (stream st mq).
Proof. intros H. apply msgq_delete_loop_spec; [done|lia|]. right. unfold messages_of. rewrite length_app. lia. Qed.

(** ** The operations *)

(** A buffer as its maker has it: nobody's real buffer. *)
Definition handle (st : mqdata) (mb : ptr) : Prop :=
  forall b, b <> mb -> 0 < ref (buf st b) -> real (buf st b) <> Some mb.

Lemma handle_par cnt par st mb : pool_ok cnt par st -> handle st mb <-> par mb = None.
Proof.
  intros H. split.
  - intros Hh. destruct (par mb) as [b|] eqn:E; [|done]. apply (po_par _ _ _ H) in E as (Hb & Hr & Hre).
    by destruct (Hh b Hb Hr).
  - intros Hp b Hb Hr Hre. assert (par mb = Some b) by (by apply (po_par _ _ _ H)). congruence.
Qed.

Definition front (st : mqdata) (mq : MsgQ) : list ascii :=
  (if partial (queue mq) then texts st (take 1 (queue mq)) else []) ++ texts st (prio mq).

Definition back (st : mqdata) (mq : MsgQ) : list ascii :=
  texts st (if partial (queue mq) then tail (queue mq) else queue mq).

Lemma stream_front_back st mq : stream st mq = front st mq ++ back st mq.
Proof. unfold stream, front, back. destruct (partial (queue mq)); [by rewrite <- app_assoc|done]. Qed.

(** The texts of buffers that somebody refers to. *)
Definition keeps (cnt : ptr -> nat) (st st' : mqdata) : Prop :=
  forall p, (0 < cnt p)%nat -> msg (buf st' p) = msg (buf st p).

Lemma occ_pos l m : m ∈ l -> (0 < occ l (mbuf m))%nat.
Proof.
  induction l as [|x l IH]; [set_solver|]. rewrite occ_cons. intros [->|Hm]%elem_of_cons; [rewrite decide_True by done; lia|].
  specialize (IH Hm). lia.
Qed.

Lemma texts_keeps ext mq st st' l :
  keeps (refs mq ext) st st' -> (forall m, m ∈ l -> m ∈ queue mq ++ prio mq) -> texts st' l = texts st l.
Proof.
  intros Hk Hl. unfold texts. f_equal. apply map_ext_in. intros m Hm. unfold rest_of. rewrite Hk; [done|].
  unfold refs. pose proof (occ_pos _ _ (Hl m (proj2 (list_elem_of_In _ _) Hm))). lia.
Qed.

Lemma front_keeps ext mq st st' : keeps (refs mq ext) st st' -> front st' mq = front st mq /\ back st' mq = back st mq.
Proof.
  intros Hk. unfold front, back. split.
  - f_equal; [destruct (partial _); [|done]|]; apply (texts_keeps ext mq); try done; intros m Hm; apply elem_of_app.
    + left. destruct (queue mq); simpl in *; set_solver.
    + by right.
  - apply (texts_keeps ext mq); [done|]. intros m Hm. apply elem_of_app. left.
    destruct (partial _); [|done]. destruct (queue mq); simpl in *; set_solver.
Qed.

Lemma queue_keeps ext mq st st' : keeps (refs mq ext) st st' -> queue_ok st mq -> queue_ok st' mq.
Proof.
  intros Hk [H1 H2 H3 H4 H5]. constructor; try done.
  - apply Forall_forall. intros m Hm. rewrite Forall_forall in H1. rewrite Hk; [by apply H1|].
    unfold refs. pose proof (occ_pos _ _ Hm). lia.
  - destruct (front_keeps ext mq st st' Hk) as [Hf Hb]. by rewrite stream_front_back, Hf, Hb, <- stream_front_back.
Qed.

Lemma partial_snoc l m : sent m = 0%nat -> partial (l ++ [m]) = partial l.
Proof. destruct l; simpl; [by intros ->|done]. Qed.

Lemma unsent_snoc l m : sent m = 0%nat -> unsent l -> unsent (l ++ [m]).
Proof.
  intros Hm H. unfold unsent in *. destruct l as [|x l]; simpl in *; [constructor|].
  apply Forall_app. split; [done|]. by constructor.
Qed.

(** Queueing a message that is live, in a state that keeps the texts. *)
Lemma stream_push st mq r (pr : bool) t c :
  let m := {| sent := 0; mbuf := r |} in
  let mq' := {| mq_length := t; mq_count := c; queue := if pr then queue mq else queue mq ++ [m];
                prio := if pr then prio mq ++ [m] else prio mq |} in
  stream st mq' = if pr then front st mq ++ msg (buf st r) ++ back st mq else stream st mq ++ msg (buf st r).
Proof.
  intros m mq'. assert (Hm : texts st [m] = msg (buf st r)).
  { unfold texts, rest_of. simpl. rewrite drop_0. by rewrite app_nil_r. }
  destruct pr; unfold mq', stream, front, back; cbn [queue prio].
  - rewrite texts_app, Hm. destruct (partial (queue mq)); by rewrite <- !app_assoc.
  - rewrite partial_snoc by done. destruct (queue mq) as [|x l] eqn:Eq.
    + simpl. rewrite Hm. unfold texts at 3. simpl. by rewrite app_nil_r.
    + destruct (partial (x :: l)); cbn [take tail app]; rewrite ?texts_app, ?Hm, <- ?app_assoc; try done.
      change (x :: l ++ [m]) with ((x :: l) ++ [m]). by rewrite texts_app, Hm.
Qed.

Lemma msgq_add_spec POOL ext mq mb pr st :
  mq_ok ext st mq -> (0 < ext mb)%nat -> handle st mb -> msg (buf st mb) <> [] ->
  exists mq' st', msgq_add POOL mq mb pr st = Some (mq', st') /\ mq_ok ext st' mq' /\ keeps ext st st' /\ handle st' mb /\
    stream st' mq' = (if pr then front st mq ++ msg (buf st mb) ++ back st mq else stream st mq ++ msg (buf st mb)).
Proof.
  intros [Hq [par Hpool]] He Hh Hne. unfold msgq_add.
  set (st0 := match msgs_free st with O => _ | S f => _ end).
  assert (Hb0 : forall p, buf st0 p = buf st p) by (intros p; unfold st0; by destruct (msgs_free st)).
  assert (H0 : pool_ok (refs mq ext) par st0) by (unfold st0; destruct (msgs_free st); by apply (pool_same _ _ st)).
  assert (Hc : (0 < refs mq ext mb)%nat) by (unfold refs; lia).
  destruct (make_real_spec POOL mb (refs mq ext) par st0 H0 Hc) as (par' & r & Hre & H1 & Hp' & Hl & Htext & Hk).
  { by apply (handle_par _ _ _ _ Hpool). }
  { rewrite Hb0. unfold mb_length. destruct (msg (buf st mb)); [done|simpl; lia]. }
  set (st1 := make_real POOL mb st0) in *. rewrite Hre. cbn [mbind option_bind].
  set (st2 := set_buf r (with_ref (ref (buf st1 r) + 1) (buf st1 r)) st1).
  assert (Hm2 : forall p, msg (buf st2 p) = msg (buf st1 p)) by (intros p; apply set_ref_msg).
  assert (Hk2 : keeps (refs mq ext) st st2) by (intros p Hp; rewrite Hm2, Hk by done; by rewrite Hb0).
  set (m := {| sent := 0; mbuf := r |}). set (mq' := Build_MsgQ _ _ _ _).
  eexists mq', st2. split; [done|].
  assert (Hr2 : msg (buf st2 r) = msg (buf st mb)) by (rewrite Hm2, Htext; by rewrite Hb0).
  assert (Hstream : stream st2 mq' = if pr then front st mq ++ msg (buf st mb) ++ back st mq else stream st mq ++ msg (buf st mb)).
  { unfold mq', m. rewrite stream_push, Hr2. destruct (front_keeps ext mq st st2 Hk2) as [Hf Hb].
    by rewrite !stream_front_back, Hf, Hb. }
  assert (Hperm : queue mq' ++ prio mq' ≡ₚ m :: queue mq ++ prio mq).
  { unfold mq'. cbn [queue prio]. fold m. destruct pr.
    - rewrite app_assoc. by rewrite <- Permutation_cons_append.
    - rewrite <- app_assoc. simpl. by rewrite Permutation_middle. }
  assert (Hpool2 : pool_ok (refs mq' ext) par' st2).
  { apply (pool_ref (refs mq ext)); [done|lia|done|by apply (live_dom _ _ _ _ H1)| |].
    - rewrite (po_ref _ _ _ H1). unfold refs. rewrite (occ_perm _ _ _ Hperm), occ_cons. rewrite decide_True by done. lia.
    - intros q Hqr. unfold refs. rewrite (occ_perm _ _ _ Hperm), occ_cons. rewrite decide_False by (intros <-; by apply Hqr). done. }
  assert (Hlen2 : mb_length (buf st2 r) = Z.of_nat (length (msg (buf st mb)))) by (unfold mb_length; by rewrite Hr2).
  split; [split; [|by exists par']|split; [|split; [|exact Hstream]]].
  - pose proof (queue_keeps ext mq st st2 Hk2 Hq) as [Q1 Q2 Q3 _ _]. constructor.
    + rewrite Hperm. apply Forall_cons. split; [|exact Q1]. simpl. rewrite Hr2. destruct (msg (buf st mb)); [done|simpl; lia].
    + unfold mq'. cbn [queue]. destruct pr; [done|by apply unsent_snoc].
    + unfold mq'. cbn [prio]. destruct pr; [by apply unsent_snoc|done].
    + rewrite Hstream. unfold mq'. cbn [mq_length]. rewrite Hlen2, (q_length _ _ Hq), w32_add, stream_front_back. f_equal.
      destruct pr; rewrite !length_app; lia.
    + rewrite <- length_app, (Permutation_length Hperm). unfold mq'. cbn [mq_count length].
      rewrite (q_count _ _ Hq), w32_add, length_app. f_equal. lia.
  - intros p Hp. apply Hk2. unfold refs. lia.
  - by apply (handle_par _ _ _ _ Hpool2).
Qed.

(** Writing the text of a buffer that only its maker has. *)
Lemma pool_text cnt par st p t :
  pool_ok cnt par st -> par p = None -> real (buf st p) = None -> Z.of_nat (length t) <= bufsize (buf st p) ->
  0 < ref (buf st p) -> pool_ok cnt par (set_buf p (with_text t (buf st p)) st).
Proof.
  intros H Hp Hre Hlen Hl. pose proof (live_dom _ _ _ _ H Hl) as Hd.
  assert (Hno : forall b, 0 < ref (buf st b) -> real (buf st b) <> Some p).
  { intros b Hb Hr. destruct (decide (b = p)) as [->|]; [congruence|].
    assert (par p = Some b) by (by apply (po_par _ _ _ H)). congruence. }
  destruct H as [H1 H2 H3 H4 H5 H6 H7 H8]. constructor.
  - intros q. rewrite buf_set. destruct (decide (q = p)) as [->|]; apply H1.
  - intros q b. rewrite H2, buf_set. by destruct (decide (b = p)) as [->|].
  - intros q Hq. rewrite buf_set. destruct (decide (q = p)) as [->|]; by apply H3.
  - intros b r. rewrite !buf_set. destruct (decide (b = p)) as [->|]; simpl; [congruence|].
    intros Hb Hr. destruct (decide (r = p)) as [->|]; [by destruct (Hno b Hb)|by apply H4].
  - intros k q Hq. destruct (H5 k q Hq) as (? & Hq0 & ?). rewrite buf_set_ne by (intros ->; lia).
    split; [simpl; set_solver|done].
  - apply H6.
  - intros q. rewrite buf_set. destruct (decide (q = p)) as [->|]; [done|apply H7].
  - intros q. rewrite buf_set. destruct (decide (q = p)) as [->|]; apply H8.
Qed.

Lemma bufsize_512 b : power b = 9 -> bufsize b = 512.
Proof. unfold bufsize. by intros ->. Qed.

Lemma finish_length size t : 2 <= size -> Z.of_nat (length (finish size t)) <= size.
Proof. intros H. unfold finish. rewrite length_app, length_take. cbn [length]. lia. Qed.

Lemma refs_pos mq ext p : (0 < ext p)%nat -> (0 < refs mq ext p)%nat.
Proof. unfold refs. lia. Qed.

Section operations.
Context (BUFFERPOOL : Z) (FERGUSON : bool) (flush : mqdata -> mqdata) (kill_highest : bool -> mqdata -> mqdata).

Lemma msgq_vmake_spec ext mq text st :
  mq_ok ext st mq -> tot_bufsize st < BUFFERPOOL \/ free_of st MB_MAX_SHIFT <> [] ->
  exists st' mb, msgq_vmake BUFFERPOOL FERGUSON flush kill_highest text st = Some (st', mb) /\ mq_ok (inc ext mb) st' mq /\
    ext mb = 0%nat /\ handle st' mb /\ real (buf st' mb) = None /\ msg (buf st' mb) = finish 512 text /\
    keeps (refs mq ext) st st'.
Proof.
  intros [Hq [par Hpool]] Hfree. unfold msgq_vmake, vmake_alloc.
  pose proof (alloc_new BUFFERPOOL BUFSIZE _ par st Hpool ltac:(unfold BUFSIZE; lia)) as Ha.
  destruct (msgq_alloc BUFFERPOOL None BUFSIZE st) as [st1 [mb|]].
  2: { exfalso. destruct Ha as (_ & He & Hp). change (power_for BUFSIZE) with MB_MAX_SHIFT in He.
       destruct Hfree; [lia|done]. }
  destruct Ha as (Hc & Hp & Hre & Hpow & Hd & H1 & Hold). cbn [mbind option_bind].
  change (power_for BUFSIZE) with 9 in Hpow.
  assert (Hl : 0 < ref (buf st1 mb)) by (rewrite (po_ref _ _ _ H1); unfold inc; rewrite decide_True by done; lia).
  rewrite (bufsize_512 _ Hpow).
  pose proof (pool_text _ par st1 mb (finish 512 text) H1 Hp Hre) as H2.
  rewrite (bufsize_512 _ Hpow) in H2. specialize (H2 ltac:(apply finish_length; lia) Hl).
  set (st2 := set_buf mb (with_text (finish 512 text) (buf st1 mb)) st1) in *.
  assert (H3 : pool_ok (inc (refs mq ext) mb) par (set_msglist (mb :: msglist st1) st2)) by (by apply (pool_same _ _ st2)).
  assert (Hk : keeps (refs mq ext) st (set_msglist (mb :: msglist st1) st2)).
  { intros q Hqp. assert (q <> mb) by (intros ->; lia).
    change (msg (buf st2 q) = msg (buf st q)). unfold st2. by rewrite buf_set_ne, Hold. }
  assert (Hb : buf (set_msglist (mb :: msglist st1) st2) mb = with_text (finish 512 text) (buf st1 mb)) by apply buf_set_eq.
  exists (set_msglist (mb :: msglist st1) st2), mb. split; [done|]. split; [|split; [|split; [|split; [|split]]]].
  - split; [by apply (queue_keeps ext mq st)|]. exists par. eapply pool_cnt_ext; [|exact H3].
    intros q. unfold refs, inc. by case_decide; rewrite ?Nat.add_succ_r.
  - unfold refs in Hc. lia.
  - by apply (handle_par _ _ _ _ H3).
  - by rewrite Hb.
  - by rewrite Hb.
  - exact Hk.
Qed.

(** The operations on a queue and on the messages for it. *)
Inductive qop :=
| QMake (text : list ascii)
| QAppend (mb : ptr) (text : list ascii)
| QAdd (mb : ptr) (pr : bool)
| QClean (mb : ptr)
| QDelete (len : nat).

(** The third component is the buffer made. *)
Definition run_qop (o : qop) (st : mqdata) (mq : MsgQ) : option (mqdata * MsgQ * option ptr) :=
  match o with
  | QMake text => '(st, mb) ← msgq_vmake BUFFERPOOL FERGUSON flush kill_highest text st; Some (st, mq, Some mb)
  | QAppend mb text => Some (msgq_append mb text st, mq, None)
  | QAdd mb pr => '(mq, st) ← msgq_add BUFFERPOOL mq mb pr st; Some (st, mq, None)
  | QClean mb => st ← msgq_clean 2 mb st; Some (st, mq, None)
  | QDelete len => '(mq, st) ← msgq_delete mq len st; Some (st, mq, None)
  end.

(** A message may be made while the pool is not exhausted, extended by its
    only holder before it is queued, and queued or released by a holder. *)
Definition qop_pre (o : qop) (ext : ptr -> nat) (st : mqdata) (mq : MsgQ) : Prop :=
  match o with
  | QMake _ => tot_bufsize st < BUFFERPOOL \/ free_of st MB_MAX_SHIFT <> []
  | QAppend mb _ => ext mb = 1%nat /\ refs mq ext mb = 1%nat /\ handle st mb /\ real (buf st mb) = None /\
      2 <= bufsize (buf st mb)
  | QAdd mb _ => (0 < ext mb)%nat /\ handle st mb /\ msg (buf st mb) <> []
  | QClean mb => (0 < ext mb)%nat
  | QDelete _ => True
  end.

(** The references of others afterwards, and the stream. *)
Definition ext_after (o : qop) (made : option ptr) (ext : ptr -> nat) : ptr -> nat :=
  match o, made with
  | QMake _, Some mb => inc ext mb
  | QClean mb, _ => dec ext mb
  | _, _ => ext
  end.

Definition stream_after (o : qop) (st : mqdata) (mq : MsgQ) : list ascii :=
  match o with
  | QAdd mb true => front st mq ++ msg (buf st mb) ++ back st mq
  | QAdd mb false => stream st mq ++ msg (buf st mb)
  | QDelete len => drop len (stream st mq)
  | _ => stream st mq
  end.

(** The text a buffer gets. *)
Definition text_after (o : qop) (made : option ptr) (st st' : mqdata) : Prop :=
  match o, made with
  | QMake text, Some mb => msg (buf st' mb) = finish 512 text /\ handle st' mb /\ real (buf st' mb) = None
  | QAppend mb text, _ => msg (buf st' mb) =
      finish (bufsize (buf st mb)) (take (length (msg (buf st mb)) - 2) (msg (buf st mb)) ++ text)
  | _, _ => True
  end.

(** C23: a message queue is a stream of whole messages, and its buffers are
    shared safely.  From a consistent state, whatever other queues and
    callers hold ([ext]): every operation succeeds and keeps the state
    consistent, so that each buffer has as many references as holders and
    only unreferenced buffers are on the free lists; a normal message goes to
    the end of the stream, an urgent one in front of the normal ones but
    never inside a message sent in part; deleting bytes drops them from the
    front of the stream; making a message gives an unheld buffer its text,
    cut to 510 characters and ended by CR NL; and no buffer that somebody
    else holds changes its text. *)
Theorem msgq_refines o ext st mq :
  mq_ok ext st mq -> qop_pre o ext st mq ->
  exists st' mq' made, run_qop o st mq = Some (st', mq', made) /\ mq_ok (ext_after o made ext) st' mq' /\
    stream st' mq' = stream_after o st mq /\ text_after o made st st' /\
    forall p, (0 < ext p)%nat -> (match o with QAppend mb _ => p <> mb | _ => True end) ->
      msg (buf st' p) = msg (buf st p).
Proof.
  intros Hok Hpre. destruct o as [text|mb text|mb pr|mb|len]; cbn [run_qop qop_pre ext_after stream_after text_after] in *.
  - destruct (msgq_vmake_spec ext mq text st Hok Hpre) as (st' & mb & -> & Hok' & _ & Hh & Hre & Ht & Hk).
    cbn [mbind option_bind]. exists st', mq, (Some mb). destruct (front_keeps ext mq st st' Hk) as [Hf Hb].
    split_and!; try done; [by rewrite !stream_front_back, Hf, Hb|].
    intros p Hp _. by apply Hk, refs_pos.
  - destruct Hpre as (He & Hr & Hh & Hre & Hsz). destruct Hok as [Hq [par Hpool]].
    pose proof (proj1 (handle_par _ _ _ _ Hpool) Hh) as Hp.
    assert (Hl : 0 < ref (buf st mb)) by (apply (live_ref _ _ _ _ Hpool); lia).
    unfold msgq_append. set (t := finish _ _).
    pose proof (pool_text _ _ _ mb t Hpool Hp Hre ltac:(by apply finish_length) Hl) as H2.
    set (st2 := set_buf mb _ st) in *. exists st2, mq, None. split; [done|].
    assert (Hno : occ (queue mq ++ prio mq) mb = 0%nat) by (unfold refs in Hr; lia).
    assert (Hold : forall p, p <> mb -> buf st2 p = buf st p) by (intros p Hpm; by apply buf_set_ne).
    assert (Hqk : forall m, m ∈ queue mq ++ prio mq -> buf st2 (mbuf m) = buf st (mbuf m)).
    { intros m Hm. apply Hold. intros He2. pose proof (occ_pos _ _ Hm) as Ho. rewrite He2 in Ho. lia. }
    assert (Hk : keeps (refs mq (fun _ => 0%nat)) st st2).
    { intros p Hpp. unfold refs in Hpp. destruct (decide (p = mb)) as [->|]; [lia|by rewrite Hold]. }
    destruct (front_keeps _ mq st st2 Hk) as [Hf Hb].
    split_and!; [split; [by apply (queue_keeps (fun _ => 0%nat) mq st)|by exists par]|by rewrite !stream_front_back, Hf, Hb| |].
    + unfold st2. by rewrite buf_set_eq.
    + intros p _ Hne. by rewrite Hold.
  - destruct Hpre as (He & Hh & Hne).
    destruct (msgq_add_spec BUFFERPOOL ext mq mb pr st Hok He Hh Hne) as (mq' & st' & -> & Hok' & Hk & _ & Hs).
    cbn [mbind option_bind]. exists st', mq', None. split_and!; try done. intros p Hp _. by apply Hk.
  - destruct Hok as [Hq [par Hpool]].
    destruct (msgq_clean_spec _ par st mb Hpool (refs_pos mq ext mb Hpre)) as (st' & -> & (par' & Hpool') & Ht).
    cbn [mbind option_bind]. exists st', mq, None. split_and!; try done; [|by apply stream_same].
    split; [by apply (queue_keeps ext mq st); [intros p _|]|]. exists par'. eapply pool_cnt_ext; [|exact Hpool'].
    intros p. unfold dec, refs. case_decide as E; [subst p; lia|done].
  - destruct (msgq_delete_spec ext mq len st Hok) as (mq' & st' & -> & Hok' & Ht & Hs).
    cbn [mbind option_bind]. exists st', mq', None. by split_and!.
Qed.

End operations.

(** what is offered to the socket is the front of the stream.  The
    pieces of [msgq_mapiov] are rests of messages or whole messages, none of
    them empty, that make up the beginning of the stream in order, and all of
    it when there is room; so deleting the number of bytes that were
    written leaves exactly the bytes that were not. *)
Theorem msgq_mapiov_front ext st mq count k :
  mq_ok ext st mq -> Z.of_nat (length (stream st mq)) < 2 ^ 32 ->
  let iov := msgq_mapiov mq count st in
  exists rest, stream st mq = concat iov ++ rest /\ Forall (fun x => x <> []) iov /\ (length iov <= count)%nat /\
    ((messages_of mq <= count)%nat -> rest = []) /\
    ((k <= length (concat iov))%nat ->
     exists mq' st', msgq_delete mq k st = Some (mq', st') /\ mq_ok ext st' mq' /\
       stream st' mq' = drop k (concat iov) ++ rest).
Proof.
  intros Hok Hlen iov. pose proof (proj1 Hok) as Hq.
  set (pieces := (if partial (queue mq) then map (rest_of st) (take 1 (queue mq)) else []) ++ map (rest_of st) (prio mq) ++
                 map (rest_of st) (if partial (queue mq) then tail (queue mq) else queue mq)).
  assert (Hstream : stream st mq = concat pieces).
  { unfold pieces, stream, texts. destruct (partial (queue mq)); by rewrite !concat_app. }
  assert (Hnum : length pieces = messages_of mq).
  { unfold pieces, messages_of. destruct (queue mq) as [|m l]; [simpl; by rewrite app_nil_r, length_map|].
    destruct (partial (m :: l)); cbn [take tail map]; rewrite !length_app; cbn [length]; rewrite ?length_map, ?take_0; simpl; lia. }
  assert (Hnone : Forall (fun x => x <> []) pieces).
  { pose proof (q_sent _ _ Hq) as Hs. apply Forall_app in Hs as [Hs1 Hs2].
    assert (Hne : forall l, Forall (fun m => sent m < length (msg (buf st (mbuf m))))%nat l -> Forall (fun x => x <> []) (map (rest_of st) l)).
    { intros l Hl. induction Hl as [|m l Hm Hl IH]; [constructor|]. constructor; [|done]. intros E.
      apply (f_equal length) in E. unfold rest_of in E. rewrite length_drop in E. simpl in E. lia. }
    unfold pieces. apply Forall_app; split; [|apply Forall_app; split; [by apply Hne|]].
    - destruct (partial (queue mq)); [|constructor]. apply Hne. by apply Forall_take.
    - apply Hne. destruct (partial (queue mq)); [by apply Forall_tail|done]. }
  assert (Hwhole : forall l, Forall (fun m => sent m = 0%nat) l -> map (fun m => msg (buf st (mbuf m))) l = map (rest_of st) l).
  { intros l Hl. induction Hl as [|m l Hm Hl IH]; [done|]. simpl. rewrite IH. f_equal. unfold rest_of. by rewrite Hm. }
  assert (Hiov : iov = take count pieces).
  { unfold iov, msgq_mapiov. destruct (Z.leb_spec (mq_length mq) 0) as [H0|H0].
    - rewrite (q_length _ _ Hq), w32_small in H0 by lia. assert (Hnil : stream st mq = []) by (apply length_zero_iff_nil; lia).
      rewrite Hstream in Hnil. destruct pieces as [|x l]; [by rewrite take_nil|]. apply Forall_cons in Hnone as [Hx _].
      simpl in Hnil. by apply app_eq_nil in Hnil as [? _].
    - pose proof (q_queue _ _ Hq) as Hu1. pose proof (q_prio _ _ Hq) as Hu2. unfold pieces.
      assert (Hp : (let '(head2, pr) := if partial (prio mq)
           then ([rest_of st (default {| sent := 0; mbuf := 1%positive |} (head (prio mq)))], tail (prio mq)) else ([], prio mq) in
           head2 ++ map (fun m => msg (buf st (mbuf m))) pr) = map (rest_of st) (prio mq)).
      { destruct (prio mq) as [|m l]; [done|]. destruct (partial (m :: l)) eqn:Ep.
        - simpl. f_equal. by apply Hwhole.
        - apply (Hwhole (m :: l)). constructor; [|exact Hu2]. simpl in Ep. apply Nat.ltb_ge in Ep; lia. }
      match type of Hp with context [if partial (prio mq) then ?a else ?b] =>
        destruct (if partial (prio mq) then a else b) as [head2 pr] end.
      rewrite <- Hp. clear Hp.
      destruct (queue mq) as [|m l]; [cbn [partial]; by rewrite <- app_assoc|]. destruct (partial (m :: l)) eqn:Ep.
      + cbn [head default tail take map app]. rewrite <- app_assoc. by rewrite (Hwhole l).
      + rewrite <- app_assoc. cbn [app]. rewrite (Hwhole (m :: l)); [done|]. constructor; [|exact Hu1].
        simpl in Ep. apply Nat.ltb_ge in Ep. lia. }
  exists (concat (drop count pieces)). rewrite Hiov.
  assert (Hcat : stream st mq = concat (take count pieces) ++ concat (drop count pieces)).
  { rewrite Hstream, <- concat_app. by rewrite take_drop. }
  split_and!; [done|by apply Forall_take|rewrite length_take; lia| |].
  - intros Hc. by rewrite drop_ge by lia.
  - intros Hk. destruct (msgq_delete_spec ext mq k st Hok) as (mq' & st' & He & Hok' & _ & Hs).
    exists mq', st'. split; [done|]. split; [done|]. by rewrite Hs, Hcat, drop_app_le.
Qed.

(** An empty pool and queue, and what making and queueing two messages gives. *)
Definition pool0 : mqdata :=
  {| bufs := ∅; msglist := []; msgs_alloc := 0; msgs_used := 0; msgs_free := 0; tot_bufsize := 0;
     malloc := ∅; mused := ∅; mfree := ∅; sizes_msgs := 0; sizes := ∅ |}.

Lemma pool0_ok : mq_ok (fun _ => 0%nat) pool0 msgq_init.
Proof.
  split; [by split; try constructor|]. exists (fun _ => None).
  split; unfold buf, free_of; simpl; intros; rewrite ?lookup_empty in *; simpl in *; try done; try lia.
  - split; [done|lia].
  - by apply elem_of_nil in H.
  - constructor.
Qed.

Lemma one_message :
  exists st mq mb, mq_ok (inc (fun _ => 0%nat) mb) st mq /\ stream st mq = finish 512 (str "PING :irc").
Proof.
  destruct (msgq_vmake_spec 10240 false id (fun _ s => s) _ msgq_init (str "PING :irc") _ pool0_ok)
    as (st & mb & _ & Hok & _ & Hh & _ & Ht & _); [left; done|].
  destruct (msgq_add_spec 10240 _ msgq_init mb false st Hok) as (mq & st' & _ & Hok' & _ & _ & Hs); [|done|by rewrite Ht|].
  - unfold inc. rewrite decide_True by done. lia.
  - exists st', mq, mb. by rewrite <- Ht.
Qed.

Lemma msgq_refines_witness :
  exists st mq made, run_qop 10240 false id (fun _ s => s) (QMake (str "PING :irc")) pool0 msgq_init = Some (st, mq, made) /\
    mq_ok (ext_after (QMake (str "PING :irc")) made (fun _ => 0%nat)) st mq.
Proof.
  destruct (msgq_refines 10240 false id (fun _ s => s) (QMake (str "PING :irc")) _ _ _ pool0_ok) as (st & mq & made & He & Hok & _).
  - left. vm_compute. reflexivity.
  - exists st, mq, made. split; [exact He|exact Hok].
Defined.

Lemma msgq_mapiov_front_witness :
  exists ext st mq, mq_ok ext st mq /\ Z.of_nat (length (stream st mq)) < 2 ^ 32 /\
    exists rest, stream st mq = concat (msgq_mapiov mq 1 st) ++ rest.
Proof.
  destruct one_message as (st & mq & mb & Hok & Hs).
  assert (Hl : Z.of_nat (length (stream st mq)) < 2 ^ 32) by (rewrite Hs; vm_compute; reflexivity).
  destruct (msgq_mapiov_front _ st mq 1 0 Hok Hl) as (rest & He & _).
  exists (inc (fun _ => 0%nat) mb), st, mq. split; [exact Hok|]. split; [exact Hl|]. exists rest. exact He.
Defined.

(** Operations in turn, with a pool that may grow to 10240 bytes. *)
Fixpoint run_qops (ops : list qop) (st : mqdata) (mq : MsgQ) : option (mqdata * MsgQ) :=
  match ops with
  | [] => Some (st, mq)
  | o :: ops => '(st, mq, _) ← run_qop 10240 false id (fun _ s => s) o st mq; run_qops ops st mq
  end.

(** A message sent in part stays in front of an urgent one. *)
Example msgq_ex :
  (let msg := str in
   '(st, mq) ← run_qops [QMake (msg "NOTICE a"); QAdd 1 false; QDelete 3; QMake (msg "PING"); QAdd 3 true;
                         QMake (msg "ERROR"); QAdd 5 false] pool0 msgq_init;
   Some (map (fun l => take 5 l) (msgq_mapiov mq 9 st), tot_bufsize st))
  = Some ([str "ICE a"; (str "PING" ++ ["013"%char])%list; str "ERROR"], 1632).
Proof. vm_compute. reflexivity. Qed.
