(* ===== verification/Monitor.v ===== *)
(** * Monitors ([monitor.c], [m_monitor.c], links of [list.c])

    A monitor is the list of the users who want to know when a nick comes and
    goes.  Monitors are found by nick in a hash table ([Hash]); a user has the
    list of the monitors it is in.  Both lists are made of links, and the two
    must say the same.  [monitors_refine]: whatever the sequence of operations,
    they do, and what they say is what was asked for; [m_monitor] is the
    handler of the command. *)
From S2P Require Import Prelude Chattr Strings Chain Hash Msgq.
From stdpp Require Import options.
Local Open Scope Z_scope.
Local Open Scope ircd_scope.

(** ** Links of [list.c]

    What the code does with links is kept as lists of their values; the
    counters and the length of the free list are those of [list.c]. *)
Record slinks := { sl_alloc : Z; sl_inuse : Z; slinkFreeList : nat }.

Definition make_link (s : slinks) : slinks :=
  match slinkFreeList s with
  | S n => {| sl_alloc := sl_alloc s; sl_inuse := sl_inuse s + 1; slinkFreeList := n |}
  | O => {| sl_alloc := sl_alloc s + 1; sl_inuse := sl_inuse s + 1; slinkFreeList := 0 |}
  end.

Definition free_link (s : slinks) : slinks :=
  {| sl_alloc := sl_alloc s; sl_inuse := sl_inuse s - 1; slinkFreeList := S (slinkFreeList s) |}.

(** ** The state

    [mo_nick] has the monitors that are allocated; a client is a [positive]. *)
Record monstate := {
  monitorTable : htable;
  mo_nick : gmap ptr cstring;
  mo_monitor : gmap ptr (list positive);
  cli_monitor : gmap positive (list ptr);
  cli_monitors : gmap positive Z;
  monitorCount : Z;
  sl : slinks
}.

Definition no_monitors : monstate :=
  {| monitorTable := empty_table; mo_nick := ∅; mo_monitor := ∅; cli_monitor := ∅; cli_monitors := ∅;
     monitorCount := 0; sl := {| sl_alloc := 0; sl_inuse := 0; slinkFreeList := 0 |} |}.

Definition nick_of (st : monstate) (p : ptr) : cstring := default [] (mo_nick st !! p).
Definition watchers (st : monstate) (p : ptr) : list positive := default [] (mo_monitor st !! p).
Definition watched (st : monstate) (c : positive) : list ptr := default [] (cli_monitor st !! c).
Definition count_of (st : monstate) (c : positive) : Z := default 0 (cli_monitors st !! c).

Definition set_table (t : htable) (st : monstate) : monstate :=
  {| monitorTable := t; mo_nick := mo_nick st; mo_monitor := mo_monitor st; cli_monitor := cli_monitor st;
     cli_monitors := cli_monitors st; monitorCount := monitorCount st; sl := sl st |}.
Definition set_watchers (p : ptr) (l : list positive) (st : monstate) : monstate :=
  {| monitorTable := monitorTable st; mo_nick := mo_nick st; mo_monitor := <[p := l]> (mo_monitor st);
     cli_monitor := cli_monitor st; cli_monitors := cli_monitors st; monitorCount := monitorCount st; sl := sl st |}.
Definition set_watched (c : positive) (l : list ptr) (st : monstate) : monstate :=
  {| monitorTable := monitorTable st; mo_nick := mo_nick st; mo_monitor := mo_monitor st;
     cli_monitor := <[c := l]> (cli_monitor st); cli_monitors := cli_monitors st; monitorCount := monitorCount st;
     sl := sl st |}.
Definition set_count (c : positive) (n : Z) (st : monstate) : monstate :=
  {| monitorTable := monitorTable st; mo_nick := mo_nick st; mo_monitor := mo_monitor st;
     cli_monitor := cli_monitor st; cli_monitors := <[c := w32 n]> (cli_monitors st);
     monitorCount := monitorCount st; sl := sl st |}.
Definition set_sl (s : slinks) (st : monstate) : monstate :=
  {| monitorTable := monitorTable st; mo_nick := mo_nick st; mo_monitor := mo_monitor st;
     cli_monitor := cli_monitor st; cli_monitors := cli_monitors st; monitorCount := monitorCount st; sl := s |}.

(** A loop over the links of a list that stops at a value, and the unlinking
    of what it stops at; [None]: the value is not there. *)
Fixpoint cut {A} `{EqDecision A} (x : A) (l : list A) : option (list A) :=
  match l with
  | [] => None
  | y :: l' => if decide (y = x) then Some l' else cons y <$> cut x l'
  end.

Section monitor.
Context (crc32hash : list Z).

Definition FindMonitor (nick : cstring) (st : monstate) : option (monstate * option ptr) :=
  '(t, r) ← hSeekMonitor crc32hash (nick_of st) (monitorTable st) nick;
  Some (set_table t st, r).

Definition make_monitor (nick : cstring) (st : monstate) : option (monstate * ptr) :=
  let mptr := fresh (dom (mo_nick st)) in
  let st := {| monitorTable := monitorTable st; mo_nick := <[mptr := nick]> (mo_nick st);
               mo_monitor := <[mptr := []]> (mo_monitor st); cli_monitor := cli_monitor st;
               cli_monitors := cli_monitors st; monitorCount := monitorCount st; sl := sl st |} in
  t ← hAddMonitor crc32hash (nick_of st) (monitorTable st) mptr;
  Some ({| monitorTable := t; mo_nick := mo_nick st; mo_monitor := mo_monitor st; cli_monitor := cli_monitor st;
           cli_monitors := cli_monitors st; monitorCount := monitorCount st + 1; sl := sl st |}, mptr).

Definition free_monitor (mptr : ptr) (st : monstate) : option monstate :=
  '(t, _) ← hRemMonitor crc32hash (nick_of st) (monitorTable st) mptr;
  Some {| monitorTable := t; mo_nick := delete mptr (mo_nick st); mo_monitor := delete mptr (mo_monitor st);
          cli_monitor := cli_monitor st; cli_monitors := cli_monitors st;
          monitorCount := monitorCount st - 1; sl := sl st |}.

(** [monitor_notify]: the users the message goes to, in order. *)
Definition monitor_notify (name : cstring) (st : monstate) : option (monstate * list positive) :=
  '(st, r) ← FindMonitor name st;
  match r with
  | None => Some (st, [])
  | Some mptr => Some (st, watchers st mptr)
  end.

Definition monitor_add_nick (cptr : positive) (nick : cstring) (st : monstate) : option monstate :=
  '(st, r) ← FindMonitor nick st;
  '(st, mptr) ← match r with Some mptr => Some (st, mptr) | None => make_monitor nick st end;
  if decide (cptr ∈ watchers st mptr) then Some st
  else
    let st := set_watchers mptr (cptr :: watchers st mptr) (set_sl (make_link (sl st)) st) in
    let st := set_watched cptr (mptr :: watched st cptr) (set_sl (make_link (sl st)) st) in
    Some (set_count cptr (count_of st cptr + 1) st).

(** The end of both deletions: a monitor without users goes. *)
Definition free_unused (mptr : ptr) (st : monstate) : option monstate :=
  if decide (watchers st mptr = []) then free_monitor mptr st else Some st.

(** [monitor_del_nick]; the assertion is that the user's list has the monitor. *)
Definition monitor_del_nick (cptr : positive) (nick : cstring) (st : monstate) : option monstate :=
  '(st, r) ← FindMonitor nick st;
  match r with
  | None => Some st
  | Some mptr =>
      match cut cptr (watchers st mptr) with
      | None => Some st
      | Some l =>
          let st := set_sl (free_link (sl st)) (set_watchers mptr l st) in
          l' ← cut mptr (watched st cptr);
          let st := set_sl (free_link (sl st)) (set_watched cptr l' st) in
          st ← free_unused mptr st;
          Some (set_count cptr (count_of st cptr - 1) st)
      end
  end.

(** The loop of [monitor_list_clean] over the user's links. *)
Fixpoint clean_loop (cptr : positive) (lp : list ptr) (st : monstate) : option monstate :=
  match lp with
  | [] => Some st
  | mptr :: lp =>
      l ← cut cptr (watchers st mptr);
      let st := set_sl (free_link (sl st)) (set_watchers mptr l st) in
      st ← free_unused mptr st;
      clean_loop cptr lp (set_sl (free_link (sl st)) st)
  end.

Definition monitor_list_clean (cptr : positive) (st : monstate) : option monstate :=
  match watched st cptr with
  | [] => Some st
  | lp =>
      st ← clean_loop cptr lp st;
      Some (set_count cptr 0 (set_watched cptr [] st))
  end.
End monitor.

(** ** Lists of links *)
Lemma cut_in {A} `{EqDecision A} (x : A) l : NoDup l -> x ∈ l ->
  exists l1 l2, l = l1 ++ x :: l2 /\ cut x l = Some (l1 ++ l2) /\ x ∉ l1 ++ l2.
Proof.
  induction 1 as [|y l Hy Hnd IH]; [set_solver|]. intros Hx. cbn [cut].
  destruct (decide (y = x)) as [->|Hne]; [by exists [], l|].
  destruct IH as (l1 & l2 & -> & -> & Hn); [set_solver|]. exists (y :: l1), l2. split; [done|]. split; [done|]. set_solver.
Qed.

Lemma cut_out {A} `{EqDecision A} (x : A) l : x ∉ l -> cut x l = None.
Proof.
  induction l as [|y l IH]; [done|]. rewrite not_elem_of_cons. intros [Hne Hx]. cbn [cut].
  rewrite decide_False by congruence. by rewrite IH.
Qed.

(** The number of links of a family of lists. *)
Definition total {K} `{Countable K} {A} (m : gmap K (list A)) : nat :=
  map_fold (fun _ l n => (length l + n)%nat) 0%nat m.

Lemma total_new {K} `{Countable K} {A} (m : gmap K (list A)) k l :
  m !! k = None -> total (<[k := l]> m) = (length l + total m)%nat.
Proof. intros Hk. unfold total. rewrite map_fold_insert_L; [done| |done]. intros. lia. Qed.

Lemma total_delete {K} `{Countable K} {A} (m : gmap K (list A)) k :
  total m = (length (default [] (m !! k)) + total (delete k m))%nat.
Proof.
  destruct (m !! k) as [l|] eqn:Hk; simpl.
  - rewrite <- (insert_delete_id m k l Hk) at 1. by rewrite total_new by apply lookup_delete_eq.
  - by rewrite delete_id.
Qed.

Lemma total_insert {K} `{Countable K} {A} (m : gmap K (list A)) k l :
  (total (<[k := l]> m) + length (default [] (m !! k)) = total m + length l)%nat.
Proof.
  rewrite (total_delete (<[k := l]> m) k), lookup_insert_eq, delete_insert_eq, (total_delete m k). simpl. lia.
Qed.

Lemma total_zero {K} `{Countable K} {A} (m : gmap K (list A)) :
  (forall k, default [] (m !! k) = []) -> total m = 0%nat.
Proof.
  induction m as [|k l m Hk IH] using map_ind; [done|]. intros Hm. rewrite total_new by done.
  pose proof (Hm k) as Hl. rewrite lookup_insert_eq in Hl. cbn in Hl. rewrite Hl, IH; [done|]. intros k'.
  pose proof (Hm k') as Hk'. destruct (decide (k = k')) as [<-|Hne]; [by rewrite Hk|].
  by rewrite lookup_insert_ne in Hk'.
Qed.

(** ** What the tables say to each other *)
Section monitor_spec.
Context (tab : list Z).
Implicit Types (st : monstate) (L : Z -> list ptr) (c : positive) (p : ptr).

Record mon_rep st L : Prop := {
  m_tab : tab_rep tab (nick_of st) (monitorTable st) L;
  m_in : forall p, in_table L p <-> p ∈ dom (mo_nick st);
  m_dom : dom (mo_monitor st) = dom (mo_nick st);
  m_nick : forall p, p ∈ dom (mo_nick st) -> is_cstr (nick_of st p) /\ nick_of st p <> [];
  m_uniq : forall p q, p ∈ dom (mo_nick st) -> q ∈ dom (mo_nick st) ->
    lower (nick_of st p) = lower (nick_of st q) -> p = q;
  m_watch : forall p c, c ∈ watchers st p <-> p ∈ watched st c;
  m_nodup : (forall p, NoDup (watchers st p)) /\ forall c, NoDup (watched st c);
  m_num : monitorCount st = Z.of_nat (size (mo_nick st));
  m_inuse : sl_inuse (sl st) = Z.of_nat (total (mo_monitor st) + total (cli_monitor st));
  m_alloc : sl_alloc (sl st) = sl_inuse (sl st) + Z.of_nat (slinkFreeList (sl st))
}.

(** Every monitor has a watcher. *)
Definition all_used st : Prop := forall p, p ∈ dom (mo_nick st) -> watchers st p <> [].

Definition counted st : Prop := forall c, count_of st c = w32 (Z.of_nat (length (watched st c))).

Definition monitors_ok st : Prop := (exists L, mon_rep st L) /\ all_used st /\ counted st.

(** The nicks a user watches, in lower case. *)
Definition view st c : list cstring := map (fun p => lower (nick_of st p)) (watched st c).

Lemma watched_dom st L c p : mon_rep st L -> p ∈ watched st c -> p ∈ dom (mo_nick st).
Proof.
  intros R Hp. rewrite <- (m_dom _ _ R). apply (m_watch _ _ R) in Hp. unfold watchers in Hp.
  destruct (mo_monitor st !! p) eqn:E; [by apply elem_of_dom_2 in E|set_solver].
Qed.

Lemma find_rep st L nick : mon_rep st L -> is_cstr nick -> nick <> [] ->
  exists t' r, FindMonitor tab nick st = Some (set_table t' st, r) /\
    (exists L', mon_rep (set_table t' st) L') /\
    match r with
    | Some p => p ∈ dom (mo_nick st) /\ lower (nick_of st p) = lower nick
    | None => forall p, p ∈ dom (mo_nick st) -> lower (nick_of st p) <> lower nick
    end.
Proof.
  intros R Hcs Hne. destruct (strhash_some tab nick Hne) as [h Hh]. unfold FindMonitor, hSeekMonitor, hSeekChannel.
  set (ok := fun p => strcmp_eqb nick (nick_of st p)).
  destruct (hSeek_rep tab _ _ L ok _ _ (m_tab _ _ R) Hh) as (t' & r & -> & Hr). cbn [mbind option_bind].
  exists t', r. split; [done|]. destruct (extract ok (L h)) as [[p l]|] eqn:He; destruct Hr as [-> Hr].
  - assert (Hin : forall q, in_table (upd_list h (p :: l) L) q <-> in_table L q).
    { intros q. by rewrite in_upd, (in_split L h q), (extract_perm _ _ _ _ He). }
    apply extract_some in He as (l1 & l2 & HL & _ & Hok & _).
    assert (Hp : in_table L p) by (exists h; rewrite HL; set_solver).
    pose proof (proj1 (m_in _ _ R p) Hp) as Hd. split.
    + exists (upd_list h (p :: l) L). destruct R. constructor; try done. intros q. rewrite Hin. auto.
    + split; [done|]. unfold ok in Hok. apply strcmp_eqb_lower in Hok; [done|done|by apply (m_nick _ _ R)].
  - subst t'. split; [exists L; by destruct R|]. intros p Hp Hl. pose proof (m_nick _ _ R p Hp) as [Hc _].
    apply (m_in _ _ R) in Hp as [h' Hp]. pose proof (rep_hash _ _ _ _ _ _ (m_tab _ _ R) Hp) as Hph.
    rewrite (strhash_lower _ _ _ Hl), Hh in Hph. injection Hph as <-. apply extract_is_none in He.
    rewrite Forall_forall in He. specialize (He p Hp). unfold ok in He.
    by rewrite (proj2 (strcmp_eqb_lower nick (nick_of st p) Hcs Hc)) in He.
Qed.

Lemma make_rep st L nick : mon_rep st L -> is_cstr nick -> nick <> [] ->
  (forall p, p ∈ dom (mo_nick st) -> lower (nick_of st p) <> lower nick) ->
  exists st' p, make_monitor tab nick st = Some (st', p) /\ p ∉ dom (mo_nick st) /\
    (exists L', mon_rep st' L') /\
    mo_nick st' = <[p := nick]> (mo_nick st) /\ mo_monitor st' = <[p := []]> (mo_monitor st) /\
    cli_monitor st' = cli_monitor st /\ cli_monitors st' = cli_monitors st.
Proof.
  intros R Hcs Hne Hnew. destruct (strhash_some tab nick Hne) as [h Hh].
  set (p := fresh (dom (mo_nick st))). assert (Hp : p ∉ dom (mo_nick st)) by apply is_fresh.
  unfold make_monitor, hAddMonitor, hAdd. fold p.
  assert (Hn : forall q, default [] (<[p := nick]> (mo_nick st) !! q) = set_name (nick_of st) p nick q).
  { intros q. unfold set_name. case_decide as E; [by rewrite E, lookup_insert_eq|by rewrite lookup_insert_ne]. }
  unfold nick_of at 1. cbn [mo_nick]. rewrite lookup_insert_eq. cbn [default from_option id]. rewrite Hh. cbn [mbind option_bind].
  eexists _, p. split; [done|]. split; [done|].
  assert (Hnt : ~ in_table L p) by (rewrite (m_in _ _ R); done).
  assert (HpL : p ∉ L h) by (intros ?; apply Hnt; by exists h). split; [|done].
  exists (upd_list h (p :: L h) L). constructor; cbn [monitorTable mo_nick mo_monitor cli_monitor monitorCount sl].
  - assert (Hr : tab_rep tab (set_name (nick_of st) p nick)
              (set_head h (Some p) (set_hnext p (heads (monitorTable st) !! h) (monitorTable st)))
              (upd_list h (p :: L h) L)).
    { apply rep_push; [by apply rep_set_name; [apply (m_tab _ _ R)|]| |done]. unfold set_name. by rewrite decide_True. }
    intros h'. destruct (Hr h') as (H1 & H2 & H3). split_and!; [done|done|]. eapply Forall_impl; [exact H3|].
    intros q Hq. unfold nick_of. cbn [mo_nick]. by rewrite Hn.
  - intros q. rewrite in_upd, dom_insert, elem_of_union, elem_of_singleton, elem_of_cons, <- (m_in _ _ R), (in_split L h q). tauto.
  - by rewrite !dom_insert_L, (m_dom _ _ R).
  - intros q Hq. unfold nick_of. cbn [mo_nick]. rewrite Hn. unfold set_name. case_decide as E; [done|].
    apply (m_nick _ _ R). set_solver.
  - intros q1 q2 H1 H2. unfold nick_of. cbn [mo_nick]. rewrite !Hn. unfold set_name.
    repeat case_decide; subst; [done|intros E; symmetry in E; by apply Hnew in E; [|set_solver]
      |intros E; by apply Hnew in E; [|set_solver]|apply (m_uniq _ _ R); set_solver].
  - intros q c. unfold watchers, watched. cbn [mo_monitor cli_monitor]. destruct (decide (q = p)) as [->|Hqp].
    + rewrite lookup_insert_eq. cbn. split; [set_solver|]. intros Hc. by apply (watched_dom _ _ _ _ R) in Hc.
    + rewrite lookup_insert_ne by done. apply (m_watch _ _ R).
  - split; [|apply (m_nodup _ _ R)]. intros q. unfold watchers. cbn [mo_monitor]. destruct (decide (q = p)) as [->|Hqp].
    + rewrite lookup_insert_eq. constructor.
    + rewrite lookup_insert_ne by done. apply (m_nodup _ _ R).
  - rewrite map_size_insert_None by (by apply not_elem_of_dom). rewrite (m_num _ _ R). lia.
  - rewrite total_new; [by rewrite (m_inuse _ _ R)|]. apply not_elem_of_dom. by rewrite (m_dom _ _ R).
  - apply (m_alloc _ _ R).
Qed.

Lemma free_rep st L p : mon_rep st L -> p ∈ dom (mo_nick st) -> watchers st p = [] ->
  exists st', free_monitor tab p st = Some st' /\ (exists L', mon_rep st' L') /\
    mo_nick st' = delete p (mo_nick st) /\ mo_monitor st' = delete p (mo_monitor st) /\
    cli_monitor st' = cli_monitor st /\ cli_monitors st' = cli_monitors st.
Proof.
  intros R Hp Hw. destruct (m_nick _ _ R p Hp) as [_ Hne]. destruct (proj2 (m_in _ _ R p) Hp) as [h Hin].
  pose proof (rep_hash _ _ _ _ _ _ (m_tab _ _ R) Hin) as Hh. unfold free_monitor, hRemMonitor.
  destruct (hRem_rep _ _ _ _ p h (m_tab _ _ R) Hh) as (t' & r & -> & [(_ & _ & Hr)|(-> & l1 & l2 & HL & Hr)]); [done|].
  cbn [mbind option_bind]. eexists. split; [done|]. split; [|done].
  assert (Hmem : forall q, in_table (upd_list h (l1 ++ l2) L) q <-> q <> p /\ in_table L q).
  { intros q. by apply (in_rem _ _ _ _ _ _ _ _ _ (m_tab _ _ R)). }
  assert (Hnk : forall q, q <> p -> default [] (delete p (mo_nick st) !! q) = nick_of st q) by
    (intros q Hq; by rewrite lookup_delete_ne).
  exists (upd_list h (l1 ++ l2) L). constructor; cbn [monitorTable mo_nick mo_monitor cli_monitor monitorCount sl].
  - intros h'. destruct (Hr h') as (H1 & H2 & H3). split_and!; [done|done|]. rewrite Forall_forall in H3 |- *.
    intros q Hq. unfold nick_of. cbn [mo_nick]. rewrite Hnk; [by apply H3|]. apply (Hmem q). by exists h'.
  - intros q. rewrite Hmem, dom_delete, elem_of_difference, elem_of_singleton, (m_in _ _ R). tauto.
  - by rewrite !dom_delete_L, (m_dom _ _ R).
  - intros q Hq. unfold nick_of. cbn [mo_nick]. rewrite Hnk by set_solver. apply (m_nick _ _ R). set_solver.
  - intros q1 q2 H1 H2. unfold nick_of. cbn [mo_nick]. rewrite !Hnk by set_solver. apply (m_uniq _ _ R); set_solver.
  - intros q c. unfold watchers, watched. cbn [mo_monitor cli_monitor]. destruct (decide (q = p)) as [->|Hqp].
    + rewrite lookup_delete_eq. change (default [] (cli_monitor st !! c)) with (watched st c).
      rewrite <- (m_watch _ _ R), Hw. done.
    + rewrite lookup_delete_ne by done. apply (m_watch _ _ R).
  - split; [|apply (m_nodup _ _ R)]. intros q. unfold watchers. cbn [mo_monitor]. destruct (decide (q = p)) as [->|Hqp].
    + rewrite lookup_delete_eq. constructor.
    + rewrite lookup_delete_ne by done. apply (m_nodup _ _ R).
  - apply elem_of_dom in Hp as [n Hp]. rewrite map_size_delete_Some by (by rewrite Hp).
    rewrite (m_num _ _ R). assert (size (mo_nick st) <> 0%nat); [|lia]. intros Hz%map_size_empty_inv. by rewrite Hz in Hp.
  - rewrite (m_inuse _ _ R), (total_delete (mo_monitor st) p). unfold watchers in Hw. by rewrite Hw.
  - apply (m_alloc _ _ R).
Qed.

(** Writing both lists of a pair, so that they agree again. *)
Lemma relink_rep st L p c l k s :
  mon_rep st L -> p ∈ dom (mo_nick st) -> NoDup l -> NoDup k -> (c ∈ l <-> p ∈ k) ->
  (forall c', c' <> c -> c' ∈ l <-> c' ∈ watchers st p) ->
  (forall p', p' <> p -> p' ∈ k <-> p' ∈ watched st c) ->
  sl_inuse s + Z.of_nat (length (watchers st p) + length (watched st c)) =
    sl_inuse (sl st) + Z.of_nat (length l + length k) ->
  sl_alloc s = sl_inuse s + Z.of_nat (slinkFreeList s) ->
  mon_rep (set_sl s (set_watched c k (set_watchers p l st))) L.
Proof.
  intros R Hp Hl Hk Hck Hlo Hko Hu Ha. destruct R as [Ht Hi Hd Hn Hq Hw Hnd Hnum Huse _].
  constructor; try done; cbn [mo_monitor cli_monitor mo_nick sl set_sl set_watched set_watchers].
  - rewrite dom_insert_L, Hd. set_solver.
  - intros p' c'. unfold watchers, watched. cbn [mo_monitor cli_monitor set_sl set_watched set_watchers].
    destruct (decide (p' = p)) as [->|Hpp], (decide (c' = c)) as [->|Hcc];
      rewrite ?lookup_insert_eq, ?lookup_insert_ne by done; cbn [default from_option id]; [done|..].
    + rewrite (Hlo c' Hcc). apply Hw.
    + rewrite (Hko p' Hpp). apply Hw.
    + apply Hw.
  - destruct Hnd as [H1 H2]. unfold watchers, watched. cbn [mo_monitor cli_monitor set_sl set_watched set_watchers]. split.
    + intros p'. destruct (decide (p' = p)) as [->|?]; [by rewrite lookup_insert_eq|rewrite lookup_insert_ne by done; apply H1].
    + intros c'. destruct (decide (c' = c)) as [->|?]; [by rewrite lookup_insert_eq|rewrite lookup_insert_ne by done; apply H2].
  - pose proof (total_insert (mo_monitor st) p l). pose proof (total_insert (cli_monitor st) c k).
    unfold watchers, watched in Hu. lia.
Qed.

Lemma link_rep st L p c :
  mon_rep st L -> p ∈ dom (mo_nick st) -> c ∉ watchers st p ->
  mon_rep (set_sl (make_link (make_link (sl st)))
             (set_watched c (p :: watched st c) (set_watchers p (c :: watchers st p) st))) L.
Proof.
  intros R Hp Hc. assert (Hpc : p ∉ watched st c) by (by rewrite <- (m_watch _ _ R)).
  pose proof (m_nodup _ _ R) as [H1 H2]. pose proof (m_alloc _ _ R) as Ha.
  apply relink_rep; [done|done|by constructor|by constructor|set_solver|set_solver|set_solver| |].
  - unfold make_link. destruct (slinkFreeList (sl st)) as [|[|n]]; cbn [sl_inuse slinkFreeList length]; lia.
  - unfold make_link. destruct (slinkFreeList (sl st)) as [|[|n]]; cbn [sl_inuse sl_alloc slinkFreeList]; lia.
Qed.

(** What the removal of a pair leaves, before an unused monitor is freed. *)
Lemma unlink_rep st L p c : mon_rep st L -> c ∈ watchers st p ->
  exists l k1 k2, cut c (watchers st p) = Some l /\ watched st c = k1 ++ p :: k2 /\
    cut p (watched st c) = Some (k1 ++ k2) /\ (p ∉ k1 ++ k2) /\ p ∈ dom (mo_nick st) /\
    mon_rep (set_sl (free_link (free_link (sl st))) (set_watched c (k1 ++ k2) (set_watchers p l st))) L.
Proof.
  intros R Hc. pose proof (proj1 (m_watch _ _ R p c) Hc) as Hp. pose proof (watched_dom _ _ _ _ R Hp) as Hd.
  pose proof (m_nodup _ _ R) as [H1 H2]. specialize (H1 p). specialize (H2 c).
  destruct (cut_in c _ H1 Hc) as (l1 & l2 & HL & Hcl & Hn1). destruct (cut_in p _ H2 Hp) as (k1 & k2 & HK & Hck & Hn2).
  exists (l1 ++ l2), k1, k2. split_and!; [done..|]. rewrite HL in H1. rewrite HK in H2.
  apply NoDup_drop_middle in H2 as [_ H2]. rewrite <- Permutation_middle in H1. apply NoDup_cons in H1 as [_ H1].
  pose proof (m_alloc _ _ R) as Ha.
  apply relink_rep; [done|done|done|done|set_solver|rewrite HL; set_solver|rewrite HK; set_solver| |].
  - rewrite HL, HK. cbn [free_link sl_inuse]. rewrite !length_app. cbn [length]. lia.
  - cbn [free_link sl_inuse sl_alloc slinkFreeList]. lia.
Qed.

(** A pair removed, and the monitor freed when it was the last. *)
Lemma removal_rep st L p c : mon_rep st L -> c ∈ watchers st p -> all_used st ->
  exists l k1 k2 st', cut c (watchers st p) = Some l /\ watched st c = k1 ++ p :: k2 /\
    cut p (watched st c) = Some (k1 ++ k2) /\ (p ∉ k1 ++ k2) /\
    (let st1 := set_sl (free_link (free_link (sl st))) (set_watched c (k1 ++ k2) (set_watchers p l st)) in
     free_unused tab p st1 = Some st') /\
    (exists L', mon_rep st' L') /\ all_used st' /\ cli_monitors st' = cli_monitors st /\
    cli_monitor st' = <[c := k1 ++ k2]> (cli_monitor st) /\
    (forall q, q ∈ dom (mo_nick st) -> q ∈ dom (mo_nick st') \/ watchers st' q = []) /\
    (forall q, q ∈ dom (mo_nick st') -> nick_of st' q = nick_of st q).
Proof.
  intros R Hc Hu. destruct (unlink_rep st L p c R Hc) as (l & k1 & k2 & H1 & H2 & H3 & H4 & Hd & R1).
  set (st1 := set_sl _ _) in R1. exists l, k1, k2.
  assert (Hw : watchers st1 p = l) by (unfold watchers, st1; cbn; by rewrite lookup_insert_eq).
  assert (Hwo : forall q, q <> p -> watchers st1 q = watchers st q).
  { intros q Hq. unfold watchers, st1. cbn [set_sl set_watched set_watchers mo_monitor]. by rewrite lookup_insert_ne. }
  cbv zeta. fold st1. unfold free_unused. rewrite Hw. destruct (decide (l = [])) as [Hl|Hl].
  - destruct (free_rep st1 L p R1 Hd ltac:(congruence)) as (st' & Hf & R' & Hn & Hm & Hcm & Hcs).
    exists st'. split_and!; [done..| | | | |].
    + intros q Hq. rewrite Hn in Hq. unfold watchers. rewrite Hm. assert (q <> p /\ q ∈ dom (mo_nick st)) as [Hqp Hqd].
      { rewrite dom_delete in Hq. set_solver. }
      rewrite lookup_delete_ne by done. fold (watchers st1 q). rewrite Hwo by done. by apply Hu.
    + by rewrite Hcs.
    + by rewrite Hcm.
    + intros q Hq. rewrite Hn, dom_delete. unfold watchers. rewrite Hm. destruct (decide (q = p)) as [->|Hqp];
        [right; by rewrite lookup_delete_eq|left]. change (mo_nick st1) with (mo_nick st). set_solver.
    + intros q. rewrite Hn, dom_delete. intros Hq. unfold nick_of. rewrite Hn, lookup_delete_ne by set_solver. done.
  - exists st1. split_and!; [done..|by eexists| |done|done|by left|done].
    intros q Hq. destruct (decide (q = p)) as [->|Hqp]; [congruence|]. rewrite Hwo by done. by apply Hu.
Qed.

(** ** The operations *)
Definition watch (n : cstring) (l : list cstring) : list cstring := if decide (n ∈ l) then l else n :: l.
Definition unwatch (n : cstring) (l : list cstring) : list cstring := filter (fun m => m <> n) l.

Lemma elem_of_view st c n : n ∈ view st c <-> exists p, p ∈ watched st c /\ lower (nick_of st p) = n.
Proof. unfold view. rewrite list_elem_of_fmap. naive_solver. Qed.

Lemma view_has st L c p : mon_rep st L -> p ∈ dom (mo_nick st) ->
  lower (nick_of st p) ∈ view st c <-> c ∈ watchers st p.
Proof.
  intros R Hp. rewrite elem_of_view, (m_watch _ _ R). split; [|by intros ?; exists p].
  intros (q & Hq & Hl). apply (m_uniq _ _ R) in Hl; [by subst|by apply (watched_dom _ L c)|done].
Qed.

Lemma view_dom st L c p : mon_rep st L -> lower (nick_of st p) ∈ view st c -> nick_of st p <> [] -> p ∈ dom (mo_nick st).
Proof.
  intros _ _ Hn. unfold nick_of in Hn. destruct (mo_nick st !! p) eqn:E; [by apply elem_of_dom_2 in E|done].
Qed.

Definition linked st c p : monstate :=
  set_count c (count_of st c + 1)
    (set_sl (make_link (make_link (sl st))) (set_watched c (p :: watched st c) (set_watchers p (c :: watchers st p) st))).

Lemma linked_ok st L c p : mon_rep st L -> counted st -> p ∈ dom (mo_nick st) -> c ∉ watchers st p ->
  (forall q, q <> p -> q ∈ dom (mo_nick st) -> watchers st q <> []) ->
  monitors_ok (linked st c p) /\
  forall c', view (linked st c p) c' = if decide (c' = c) then watch (lower (nick_of st p)) (view st c) else view st c'.
Proof.
  intros R Hcnt Hp Hc Hu. pose proof (link_rep st L p c R Hp Hc) as R'. split; [split_and!|].
  - exists L. by destruct R'.
  - intros q Hq. unfold watchers, linked. cbn [mo_monitor set_count set_sl set_watched set_watchers].
    destruct (decide (q = p)) as [->|Hqp]; [by rewrite lookup_insert_eq|]. rewrite lookup_insert_ne by done. by apply Hu.
  - intros c'. unfold count_of, watched, linked. cbn [cli_monitors cli_monitor set_count set_sl set_watched set_watchers].
    destruct (decide (c' = c)) as [->|Hcc]; [|by rewrite !lookup_insert_ne by done; apply Hcnt].
    rewrite !lookup_insert_eq. cbn [default from_option id length]. fold (count_of st c) (watched st c).
    rewrite (Hcnt c), w32_add. f_equal. lia.
  - intros c'. unfold view at 1, watched, linked. cbn [cli_monitor set_count set_sl set_watched set_watchers].
    destruct (decide (c' = c)) as [->|Hcc]; [|by rewrite lookup_insert_ne].
    rewrite lookup_insert_eq. unfold watch. rewrite decide_False by by rewrite (view_has st L). done.
Qed.

Lemma add_ok st c nick : monitors_ok st -> is_cstr nick -> nick <> [] ->
  exists st', monitor_add_nick tab c nick st = Some st' /\ monitors_ok st' /\
    forall c', view st' c' = if decide (c' = c) then watch (lower nick) (view st c) else view st c'.
Proof.
  intros ([L R] & Hu & Hcnt) Hcs Hne. unfold monitor_add_nick.
  destruct (find_rep st L nick R Hcs Hne) as (t' & r & -> & [L' R'] & Hr). cbn [mbind option_bind].
  set (st1 := set_table t' st) in *. destruct r as [p|].
  - destruct Hr as [Hp Hl]. cbn [mbind option_bind]. destruct (decide (c ∈ watchers st1 p)) as [Hc|Hc].
    + exists st1. split; [done|]. split; [by split; [exists L'|]|]. intros c'. case_decide as E; [|done]. subst c'.
      unfold watch. rewrite decide_True; [done|]. rewrite <- Hl. by apply (view_has st1 L').
    + exists (linked st1 c p). split; [done|]. rewrite <- Hl.
      apply (linked_ok st1 L' c p); [done..|]. intros q _. apply Hu.
  - destruct (make_rep st1 L' nick R' Hcs Hne Hr) as (st2 & p & -> & Hp & [L2 R2] & Hn & Hm & Hcm & Hcs2).
    cbn [mbind option_bind]. assert (Hw : watchers st2 p = []) by (unfold watchers; by rewrite Hm, lookup_insert_eq).
    assert (Hnp : nick_of st2 p = nick) by (unfold nick_of; by rewrite Hn, lookup_insert_eq).
    rewrite decide_False by (rewrite Hw; set_solver). exists (linked st2 c p). split; [done|].
    assert (Hv : forall c', view st2 c' = view st c').
    { intros c'. unfold view, watched. rewrite Hcm. change (cli_monitor st1) with (cli_monitor st). apply map_ext_in.
      intros q Hq%list_elem_of_In. unfold nick_of. rewrite Hn, lookup_insert_ne; [done|]. intros <-.
      apply Hp. by apply (watched_dom st1 L' c'). }
    destruct (linked_ok st2 L2 c p) as [Hok Hview]; [done| | |by rewrite Hw; set_solver| |].
    + intros c'. unfold count_of, watched. rewrite Hcs2, Hcm. apply Hcnt.
    + rewrite Hn, dom_insert. set_solver.
    + intros q Hqp. rewrite Hn, dom_insert. intros Hq. unfold watchers. rewrite Hm, lookup_insert_ne by done.
      apply Hu. change (mo_nick st) with (mo_nick st1). set_solver.
    + split; [done|]. intros c'. by rewrite Hview, !Hv, Hnp.
Qed.

Lemma view_cut st L c k1 p k2 : mon_rep st L -> watched st c = k1 ++ p :: k2 -> p ∉ k1 ++ k2 ->
  map (fun q => lower (nick_of st q)) (k1 ++ k2) = unwatch (lower (nick_of st p)) (view st c).
Proof.
  intros R Hw Hp. assert (Hall : forall q, q ∈ k1 ++ k2 -> lower (nick_of st q) <> lower (nick_of st p)).
  { intros q Hq E. apply Hp. assert (q = p) as ->; [|done].
    apply (m_uniq _ _ R); [| |done]; apply (watched_dom _ _ c _ R); rewrite Hw; set_solver. }
  unfold view, unwatch. rewrite Hw, !map_app. cbn [map]. rewrite filter_app, filter_cons_False by tauto.
  rewrite <- filter_app, <- map_app. clear -Hall. induction (k1 ++ k2) as [|q k IH]; [done|]. cbn [map].
  rewrite filter_cons_True by (apply Hall; set_solver). f_equal. apply IH. intros q' Hq'. apply Hall. set_solver.
Qed.

Lemma unwatch_not_in n l : n ∉ l -> unwatch n l = l.
Proof.
  intros Hn. unfold unwatch. induction l as [|m l IH]; [done|]. rewrite filter_cons_True by set_solver. f_equal. apply IH. set_solver.
Qed.

(** The others keep what they watch when a pair is removed. *)
Lemma view_frame st st' L' c' : mon_rep st' L' -> watched st' c' = watched st c' ->
  (forall q, q ∈ dom (mo_nick st') -> nick_of st' q = nick_of st q) -> view st' c' = view st c'.
Proof.
  intros R' Hw Hn. unfold view. rewrite Hw. apply map_ext_in. intros q Hq%list_elem_of_In. f_equal. apply Hn.
  apply (watched_dom _ _ c' _ R'). by rewrite Hw.
Qed.

Lemma del_ok st c nick : monitors_ok st -> is_cstr nick -> nick <> [] ->
  exists st', monitor_del_nick tab c nick st = Some st' /\ monitors_ok st' /\
    forall c', view st' c' = if decide (c' = c) then unwatch (lower nick) (view st c) else view st c'.
Proof.
  intros ([L R] & Hu & Hcnt) Hcs Hne. unfold monitor_del_nick.
  destruct (find_rep st L nick R Hcs Hne) as (t' & r & -> & [L' R'] & Hr). cbn [mbind option_bind].
  set (st1 := set_table t' st) in *.
  assert (Hsame : lower nick ∉ view st1 c -> exists st', Some st1 = Some st' /\ monitors_ok st' /\
    forall c', view st' c' = if decide (c' = c) then unwatch (lower nick) (view st c) else view st c').
  { intros Hn. exists st1. split; [done|]. split; [by split; [exists L'|]|]. intros c'. case_decide as E; [|done]. subst c'.
    by rewrite unwatch_not_in. }
  destruct r as [p|]; [destruct Hr as [Hp Hl]; destruct (decide (c ∈ watchers st1 p)) as [Hc|Hc]|].
  - destruct (removal_rep st1 L' p c R' Hc Hu) as (l & k1 & k2 & st2 & -> & Hw & Hk & Hpk & Hf & [L2 R2] & Hu2 & Hcs2 & Hcm & _ & Hn).
    change (watched (set_sl _ (set_watchers p l st1)) c) with (watched st1 c). rewrite Hk. cbn [mbind option_bind].
    cbv zeta in Hf.
    change (set_sl (free_link (free_link (sl st1))) (set_watched c (k1 ++ k2) (set_watchers p l st1)))
      with (set_sl (free_link (sl (set_sl (free_link (sl st1)) (set_watchers p l st1))))
              (set_watched c (k1 ++ k2) (set_sl (free_link (sl st1)) (set_watchers p l st1)))) in Hf.
    rewrite Hf. cbn [mbind option_bind]. eexists. split; [done|].
    assert (Hwc : forall c', watched st2 c' = if decide (c' = c) then k1 ++ k2 else watched st1 c').
    { intros c'. unfold watched. rewrite Hcm. case_decide as E; [by rewrite E, lookup_insert_eq|by rewrite lookup_insert_ne]. }
    split; [split; [exists L2; by destruct R2|split; [done|]]|].
    + intros c'. unfold count_of. cbn [cli_monitors set_count]. change (watched (set_count c _ st2) c') with (watched st2 c').
      rewrite Hwc. case_decide as E; [subst c'; rewrite lookup_insert_eq|rewrite lookup_insert_ne, Hcs2 by done; apply Hcnt].
      cbn [default from_option id]. fold (count_of st2 c). unfold count_of. rewrite Hcs2. fold (count_of st1 c).
      change (count_of st1 c) with (count_of st c). rewrite (Hcnt c), w32_sub. change (watched st c) with (watched st1 c).
      rewrite Hw, !length_app. cbn [length]. f_equal. lia.
    + intros c'. change (view (set_count c _ st2) c') with (view st2 c'). case_decide as E.
      * subst c'. unfold view at 1. rewrite Hwc, decide_True by done. change (view st c) with (view st1 c).
        rewrite <- Hl. change (nick_of st p) with (nick_of st1 p). rewrite <- (view_cut st1 L' c k1 p k2) by done. apply map_ext_in. intros q Hq%list_elem_of_In. f_equal.
        apply Hn. apply (watched_dom _ _ c _ R2). by rewrite Hwc, decide_True.
      * rewrite (view_frame st1 st2 L2); [done..| |done]. by rewrite Hwc, decide_False.
  - rewrite cut_out by done. apply Hsame. rewrite <- Hl. change (nick_of st p) with (nick_of st1 p). by rewrite (view_has st1 L').
  - apply Hsame. rewrite elem_of_view. intros (q & Hq & E). apply (Hr q); [|done].
    by apply (watched_dom st1 L' c).
Qed.

Lemma free_unused_frame p s c k st :
  free_unused tab p (set_sl s (set_watched c k st)) = (fun st => set_sl s (set_watched c k st)) <$> free_unused tab p st.
Proof.
  unfold free_unused. change (watchers (set_sl s (set_watched c k st)) p) with (watchers st p).
  case_decide; [|done]. unfold free_monitor. cbn [set_sl set_watched monitorTable].
  change (nick_of (set_sl s (set_watched c k st))) with (nick_of st).
  by destruct (hRemMonitor tab (nick_of st) (monitorTable st) p) as [[t r]|].
Qed.

Lemma free_unused_same p st st' : free_unused tab p st = Some st' ->
  sl st' = sl st /\ cli_monitor st' = cli_monitor st.
Proof.
  unfold free_unused. case_decide; [|by intros [= <-]]. unfold free_monitor.
  destruct (hRemMonitor tab (nick_of st) (monitorTable st) p) as [[t r]|]; [|done]. by intros [= <-].
Qed.

Lemma set_watched_twice c k k' p l st :
  set_watched c k (set_watchers p l (set_watched c k' st)) = set_watched c k (set_watchers p l st).
Proof. unfold set_watched, set_watchers. cbn. by rewrite insert_insert_eq. Qed.

Lemma clean_loop_ok c lp : forall st L, mon_rep (set_watched c lp st) L -> all_used st ->
  exists st', clean_loop tab c lp st = Some st' /\ (exists L', mon_rep (set_watched c [] st') L') /\
    all_used st' /\ cli_monitors st' = cli_monitors st /\ cli_monitor st' = cli_monitor st /\
    (forall q, q ∈ dom (mo_nick st') -> nick_of st' q = nick_of st q).
Proof.
  induction lp as [|p lp IH]; intros st L R Hu; [exists st; split_and!; eauto|].
  set (s := set_watched c (p :: lp) st) in *.
  assert (Hsw : watched s c = p :: lp) by (unfold watched, s; cbn; by rewrite lookup_insert_eq).
  assert (Hc : c ∈ watchers s p) by (apply (m_watch _ _ R); rewrite Hsw; left).
  destruct (removal_rep s L p c R Hc Hu) as (l & k1 & k2 & st2 & Hcut & Hw & _ & Hpk & Hf & [L2 R2] & Hu2 & Hcs2 & Hcm & _ & Hn).
  rewrite Hsw in Hw. destruct k1 as [|q k1]; [|exfalso; injection Hw as <- _; set_solver].
  injection Hw as <-. cbn [app] in *. cbn [clean_loop]. change (watchers st p) with (watchers s p). rewrite Hcut.
  cbn [mbind option_bind]. cbv zeta in Hf. unfold s in Hf at 2. rewrite set_watched_twice in Hf.
  set (b := set_sl (free_link (sl st)) (set_watchers p l st)).
  change (free_unused tab p (set_sl (free_link (sl b)) (set_watched c lp b)) = Some st2) in Hf.
  rewrite free_unused_frame in Hf. destruct (free_unused tab p b) as [st3|] eqn:Hf3; [|done]. injection Hf as <-.
  destruct (free_unused_same _ _ _ Hf3) as [Hs3 Hc3]. cbn [mbind option_bind]. 
  change (mon_rep (set_sl (free_link (sl b)) (set_watched c lp st3)) L2) in R2. rewrite <- Hs3 in R2.
  destruct (IH (set_sl (free_link (sl st3)) st3) L2 R2 Hu2) as (st' & -> & HR & Hu' & Hcs' & Hcm' & Hn').
  assert (Hst3 : cli_monitor st3 = cli_monitor st) by (by rewrite Hc3).
  exists st'. split; [done|]. split; [done|]. split; [done|]. split; [by rewrite Hcs'|]. split; [by rewrite Hcm'|].
  intros q Hq. rewrite Hn' by done. change (nick_of st q) with (nick_of s q). apply Hn. cbn [mo_nick set_sl set_watched].
  assert (Hd : nick_of st' q <> []).
  { destruct HR as [L' HR]. apply (m_nick _ _ HR q Hq). }
  rewrite Hn' in Hd by done. unfold nick_of in Hd. cbn [mo_nick set_sl] in Hd.
  destruct (mo_nick st3 !! q) eqn:E; [by apply elem_of_dom_2 in E|done].
Qed.

Lemma mon_clean_ok st c : monitors_ok st ->
  exists st', monitor_list_clean tab c st = Some st' /\ monitors_ok st' /\
    forall c', view st' c' = if decide (c' = c) then [] else view st c'.
Proof.
  intros ([L R] & Hu & Hcnt). unfold monitor_list_clean. destruct (watched st c) as [|p lp] eqn:Hw.
  - exists st. split; [done|]. split; [by split; [exists L|]|]. intros c'. case_decide as E; [|done]. subst c'. unfold view. by rewrite Hw.
  - assert (Hin : is_Some (cli_monitor st !! c)).
    { unfold watched in Hw. destruct (cli_monitor st !! c); [by eexists|done]. }
    assert (Hsame : set_watched c (p :: lp) st = st).
    { rewrite <- Hw. unfold set_watched, watched. destruct Hin as [l Hl]. rewrite Hl. cbn. rewrite insert_id by done. by destruct st. }
    destruct (clean_loop_ok c (p :: lp) st L) as (st' & -> & [L' R'] & Hu' & Hcs & Hcm & Hn); [by rewrite Hsame|done|].
    cbn [mbind option_bind]. eexists. split; [done|].
    assert (Hwc : forall c', watched (set_watched c [] st') c' = if decide (c' = c) then [] else watched st c').
    { intros c'. unfold watched. cbn [set_watched cli_monitor]. rewrite Hcm.
      case_decide as E; [by rewrite E, lookup_insert_eq|by rewrite lookup_insert_ne]. }
    split; [split; [exists L'; by destruct R'|split; [done|]]|].
    + intros c'. unfold count_of. cbn [set_count set_watched cli_monitors].
      change (watched (set_count c 0 (set_watched c [] st')) c') with (watched (set_watched c [] st') c'). rewrite Hwc.
      case_decide as E; [by rewrite E, lookup_insert_eq|]. rewrite lookup_insert_ne, Hcs by done. apply Hcnt.
    + intros c'. change (view (set_count c 0 (set_watched c [] st')) c') with (view (set_watched c [] st') c').
      case_decide as E; [unfold view; by rewrite Hwc, decide_True|].
      apply (view_frame st _ L'); [done| |done]. by rewrite Hwc, decide_False.
Qed.

Lemma notify_ok st nick : monitors_ok st -> is_cstr nick -> nick <> [] ->
  exists st' l, monitor_notify tab nick st = Some (st', l) /\ monitors_ok st' /\ (forall c, view st' c = view st c) /\
    NoDup l /\ forall c, c ∈ l <-> lower nick ∈ view st c.
Proof.
  intros ([L R] & Hu & Hcnt) Hcs Hne. unfold monitor_notify.
  destruct (find_rep st L nick R Hcs Hne) as (t' & r & -> & [L' R'] & Hr). cbn [mbind option_bind].
  set (st1 := set_table t' st) in *. destruct r as [p|]; eexists _, _;
    (split; [done|]; split; [by split; [exists L'|]|]; split; [done|]).
  - destruct Hr as [Hp Hl]. split; [apply (m_nodup _ _ R')|]. intros c. rewrite <- Hl. symmetry. by apply (view_has st1 L').
  - split; [constructor|]. intros c. split; [set_solver|]. intros (q & Hq & E)%elem_of_view.
    exfalso. apply (Hr q); [by apply (watched_dom st1 L' c)|done].
Qed.

Lemma no_monitors_ok : monitors_ok no_monitors.
Proof.
  split_and!; [|intros p Hp; set_solver|intros c; done].
  exists (fun _ => []). constructor; cbn.
  - intros h. split_and!; [done|constructor|constructor].
  - intros p. split; [intros [h Hh]; set_solver|set_solver].
  - done.
  - set_solver.
  - set_solver.
  - intros p c. unfold watchers, watched, no_monitors. cbn. rewrite !lookup_empty. cbn. set_solver.
  - split; intros x; unfold watchers, watched, no_monitors; cbn; rewrite lookup_empty; constructor.
  - done.
  - done.
  - done.
Qed.

(** ** Sequences of operations *)
Inductive mop :=
  | MAdd (c : positive) (nick : cstring)
  | MDel (c : positive) (nick : cstring)
  | MClean (c : positive)
  | MNotify (nick : cstring).

Definition run_mop (o : mop) (st : monstate) : option monstate :=
  match o with
  | MAdd c nick => monitor_add_nick tab c nick st
  | MDel c nick => monitor_del_nick tab c nick st
  | MClean c => monitor_list_clean tab c st
  | MNotify nick => fst <$> monitor_notify tab nick st
  end.

Fixpoint run_mops (ops : list mop) (st : monstate) : option monstate :=
  match ops with
  | [] => Some st
  | o :: ops => st ← run_mop o st; run_mops ops st
  end.

Definition mop_pre (o : mop) : Prop :=
  match o with
  | MAdd _ nick | MDel _ nick | MNotify nick => is_cstr nick /\ nick <> []
  | MClean _ => True
  end.

(** What is asked for: the nicks, up to case, that each user watches. *)
Definition asked (A : positive -> list cstring) (o : mop) : positive -> list cstring :=
  fun c' =>
    match o with
    | MAdd c nick => if decide (c' = c) then watch (lower nick) (A c) else A c'
    | MDel c nick => if decide (c' = c) then unwatch (lower nick) (A c) else A c'
    | MClean c => if decide (c' = c) then [] else A c'
    | MNotify _ => A c'
    end.

Lemma asked_ext o A B : (forall c, A c = B c) -> forall c, asked A o c = asked B o c.
Proof. intros H c. destruct o; cbn; rewrite ?H; done. Qed.

Lemma run_mop_ok o st : monitors_ok st -> mop_pre o ->
  exists st', run_mop o st = Some st' /\ monitors_ok st' /\ forall c, view st' c = asked (view st) o c.
Proof.
  intros Hst Hpre. destruct o as [c nick|c nick|c|nick]; cbn in *.
  - destruct Hpre. by apply add_ok.
  - destruct Hpre. by apply del_ok.
  - by apply mon_clean_ok.
  - destruct Hpre as [H1 H2]. destruct (notify_ok st nick Hst H1 H2) as (st' & l & -> & Hok & Hv & _). by exists st'.
Qed.

Lemma run_mops_ok ops : forall st A, Forall mop_pre ops -> monitors_ok st -> (forall c, view st c = A c) ->
  exists st', run_mops ops st = Some st' /\ monitors_ok st' /\ forall c, view st' c = fold_left asked ops A c.
Proof.
  induction ops as [|o ops IH]; intros st A Hpre Hst HA; [by exists st|].
  apply Forall_cons in Hpre as [Ho Hpre]. destruct (run_mop_ok o st Hst Ho) as (st1 & Hr & Hst1 & Hv).
  cbn [run_mops fold_left]. rewrite Hr. cbn [mbind option_bind]. apply IH; [done|done|].
  intros c. rewrite Hv. by apply asked_ext.
Qed.

(** The nicks of the monitors, in lower case. *)
Lemma nicks_watched st : monitors_ok st ->
  exists ns, NoDup ns /\ (forall n, n ∈ ns <-> exists c, n ∈ view st c) /\ monitorCount st = Z.of_nat (length ns).
Proof.
  intros ([L R] & Hu & _). exists (map (fun p => lower (nick_of st p)) (elements (dom (mo_nick st)))). split_and!.
  - apply NoDup_fmap_2_strong; [|apply NoDup_elements]. intros p q Hp%elem_of_elements Hq%elem_of_elements. by apply (m_uniq _ _ R).
  - intros n. rewrite list_elem_of_fmap. setoid_rewrite elem_of_view. split.
    + intros (p & -> & Hp%elem_of_elements). pose proof (Hu p Hp) as Hw. destruct (watchers st p) as [|c l] eqn:E; [done|].
      exists c, p. split; [|done]. apply (m_watch _ _ R). rewrite E. left.
    + intros (c & p & Hp & <-). exists p. split; [done|]. apply elem_of_elements. by apply (watched_dom _ L c).
  - rewrite length_fmap, (m_num _ _ R). f_equal. by rewrite <- size_dom.
Qed.

Lemma nothing_left st : monitors_ok st -> (forall c, view st c = []) -> sl_inuse (sl st) = 0.
Proof.
  intros ([L R] & _) Hv. rewrite (m_inuse _ _ R).
  assert (Hc : forall c, watched st c = []) by (intros c; by apply (fmap_nil_inv _ _ (Hv c))).
  rewrite !total_zero; [done|done|]. intros p. fold (watchers st p). destruct (watchers st p) as [|c l] eqn:E; [done|].
  assert (p ∈ watched st c) as Hp by (apply (m_watch _ _ R); rewrite E; left). rewrite Hc in Hp. set_solver.
Qed.

(** C31: the monitors are what the users asked for.  Any sequence of additions,
    deletions, clearings and notifications, on nicks that are not empty,
    runs without a failed assertion.  After it every user watches exactly
    the nicks asked for, up to case, without repetitions, and the counter
    that limits them is their number; the notification of a nick goes once to
    each of the users who watch it and to no other; there is one monitor for
    each nick watched; and when nobody watches anything, no link is in use. *)
Theorem monitors_refine ops (A := fold_left asked ops (fun _ => [])) : Forall mop_pre ops ->
  exists st, run_mops ops no_monitors = Some st /\
    (forall c, view st c = A c /\ NoDup (A c) /\ count_of st c = w32 (Z.of_nat (length (A c)))) /\
    (forall nick, is_cstr nick -> nick <> [] ->
       exists st' l, monitor_notify tab nick st = Some (st', l) /\ NoDup l /\ forall c, c ∈ l <-> lower nick ∈ A c) /\
    (exists ns, NoDup ns /\ (forall n, n ∈ ns <-> exists c, n ∈ A c) /\ monitorCount st = Z.of_nat (length ns)) /\
    ((forall c, A c = []) -> sl_inuse (sl st) = 0).
Proof.
  intros Hpre. destruct (run_mops_ok ops no_monitors (fun _ => []) Hpre no_monitors_ok) as (st & Hr & Hst & Hv).
  { intros c. done. }
  exists st. split; [done|]. fold A in Hv. split_and!.
  - intros c. rewrite <- Hv. split; [done|]. destruct Hst as ([L R] & _ & Hcnt). split.
    + apply NoDup_fmap_2_strong; [|apply (m_nodup _ _ R)]. intros p q Hp Hq.
      apply (m_uniq _ _ R); by apply (watched_dom _ L c).
    + rewrite Hcnt. unfold view. by rewrite length_map.
  - intros nick H1 H2. destruct (notify_ok st nick Hst H1 H2) as (st' & l & Hn & _ & _ & Hnd & Hl).
    exists st', l. split; [done|]. split; [done|]. intros c. by rewrite Hl, Hv.
  - destruct (nicks_watched st Hst) as (ns & H1 & H2 & H3). exists ns. split; [done|]. split; [|done].
    intros n. rewrite H2. by setoid_rewrite Hv.
  - intros HA. apply nothing_left; [done|]. intros c. by rewrite Hv.
Qed.
End monitor_spec.

(** ** The MONITOR command ([m_monitor.c])

    A message under construction is its text, at most 512 characters with its
    end of line: [mb_make], [mb_append] and [mb_left] are what [msgq_make],
    [msgq_append] and [msgq_bufleft] do to the text of a buffer. *)
Definition mb_make (text : cstring) : cstring := finish BUFSIZE text.
Definition mb_append (mb text : cstring) : cstring := finish BUFSIZE (take (length mb - 2) mb ++ text).
Definition mb_left (mb : cstring) : Z := BUFSIZE - Z.of_nat (length mb).

Lemma mb_append_msgq mb text st : bufsize (buf st mb) = BUFSIZE ->
  msg (buf (msgq_append mb text st) mb) = mb_append (msg (buf st mb)) text /\
  msgq_bufleft mb st = mb_left (msg (buf st mb)).
Proof.
  intros Hb. unfold msgq_append, msgq_bufleft, mb_left, mb_length. rewrite Hb, buf_set_eq. done.
Qed.

Record muser := { u_name : cstring; u_username : cstring; u_host : cstring }.

(** Two messages that list nicks, with whether a comma is needed. *)
Record monbuf := { mb : cstring; needs_comma : bool; mb_sent : list cstring }.

Inductive monitor_reply :=
  | ROnline (line : cstring)
  | ROffline (line : cstring)
  | RList (line : cstring)
  | REndOfList
  | RNeedMoreParams.

Section handler.
Context (crc32hash : list Z).
(** The name of the server, [feature_int(FEAT_MAXMONITOR)] and [FindUser]. *)
Context (me : cstring) (MAXMONITOR : Z) (FindUser : cstring -> option muser).

Definition mon_head (num name : cstring) : cstring :=
  str ":" ++ me ++ str " " ++ num ++ str " " ++ name ++ str " :".
Definition RPL_MONONLINE : cstring := str "730".
Definition RPL_MONOFFLINE : cstring := str "731".
Definition RPL_MONLIST : cstring := str "732".

Definition new_monbuf (num name : cstring) : monbuf :=
  {| mb := mb_make (mon_head num name); needs_comma := false; mb_sent := [] |}.

(** One more entry of a list: the message is sent first when it has no room
    for [need] more characters. *)
Definition mon_entry (num name entry : cstring) (need : Z) (b : monbuf) : monbuf :=
  let b :=
    if mb_left (mb b) <? need then
      {| mb := mb_make (mon_head num name); needs_comma := false; mb_sent := mb_sent b ++ [mb b] |}
    else b in
  {| mb := mb_append (mb b) ((if needs_comma b then str "," else []) ++ entry); needs_comma := true;
     mb_sent := mb_sent b |}.

Definition full_name (u : muser) : cstring := u_name u ++ str "!" ++ u_username u ++ str "@" ++ u_host u.
Definition full_need (u : muser) : Z := Z.of_nat (length (u_name u) + length (u_username u) + length (u_host u)) + 3.

(** A nick in the message of those on line or in the other. *)
Definition mon_status (name nick : cstring) (on off : monbuf) : monbuf * monbuf :=
  match FindUser nick with
  | Some u => (mon_entry RPL_MONONLINE name (full_name u) (full_need u) on, off)
  | None => (on, mon_entry RPL_MONOFFLINE name nick (Z.of_nat (length nick) + 1) off)
  end.

Definition mon_finish (b : monbuf) : list cstring := mb_sent b ++ (if needs_comma b then [mb b] else []).

Definition both (on off : monbuf) : list monitor_reply := map ROnline (mon_finish on) ++ map ROffline (mon_finish off).

(** [add_monitor].  [None] is also the reply that the list is full: its format
    takes a number and a string, and it is given a string, a number and a
    string. *)
Fixpoint add_monitor_loop (n : nat) (sptr : positive) (name : cstring) (p : option cstring) (on off : monbuf)
  (st : monstate) : option (monstate * list monitor_reply) :=
  match n with
  | O => None
  | S n =>
      match ircd_strtok p (str ",") with
      | None => Some (st, both on off)
      | Some (nick, p) =>
          if (length nick =? 0)%nat || (NICKLEN - 1 <? length nick)%nat then
            add_monitor_loop n sptr name p on off st
          else if count_of st sptr >=? MAXMONITOR then None
          else
            '(st, r) ← FindMonitor crc32hash name st;
            match r with
            | Some _ => add_monitor_loop n sptr name p on off st
            | None =>
                st ← monitor_add_nick crc32hash sptr nick st;
                let '(on, off) := mon_status name nick on off in
                add_monitor_loop n sptr name p on off st
            end
      end
  end.

Definition add_monitor (sptr : positive) (name nicks : cstring) (st : monstate) : option (monstate * list monitor_reply) :=
  add_monitor_loop (S (S (length nicks))) sptr name (Some nicks)
    (new_monbuf RPL_MONONLINE name) (new_monbuf RPL_MONOFFLINE name) st.

Fixpoint del_monitor_loop (n : nat) (sptr : positive) (p : option cstring) (st : monstate) : option monstate :=
  match n with
  | O => None
  | S n =>
      match ircd_strtok p (str ",") with
      | None => Some st
      | Some ([], p) => del_monitor_loop n sptr p st
      | Some (nick, p) => st ← monitor_del_nick crc32hash sptr nick st; del_monitor_loop n sptr p st
      end
  end.

Definition del_monitor (sptr : positive) (nicks : cstring) (st : monstate) : option monstate :=
  match watched st sptr with
  | [] => Some st
  | _ => del_monitor_loop (S (S (length nicks))) sptr (Some nicks) st
  end.

Definition list_monitor (sptr : positive) (name : cstring) (st : monstate) : list monitor_reply :=
  match watched st sptr with
  | [] => [REndOfList]
  | lp =>
      let b := foldl (fun b mptr =>
        match FindUser (nick_of st mptr) with
        | Some u => mon_entry RPL_MONLIST name (u_name u) (Z.of_nat (length (u_name u)) + 1) b
        | None => b
        end) (new_monbuf RPL_MONLIST name) lp in
      map RList (mon_finish b) ++ [REndOfList]
  end.

Definition show_monitor_status (sptr : positive) (name : cstring) (st : monstate) : list monitor_reply :=
  let '(on, off) := foldl (fun b mptr => mon_status name (nick_of st mptr) b.1 b.2)
    (new_monbuf RPL_MONONLINE name, new_monbuf RPL_MONOFFLINE name) (watched st sptr) in
  both on off.

(** [m_monitor]: [parv] are the parameters after the prefix. *)
Definition m_monitor (sptr : positive) (name : cstring) (parv : list cstring) (st : monstate)
  : option (monstate * list monitor_reply) :=
  match parv with
  | [] => Some (st, [RNeedMoreParams])
  | cmd :: args =>
      let c := deref cmd in
      if c =c "+" then
        match args with
        | [] | [] :: _ => Some (st, [RNeedMoreParams])
        | nicks :: _ => add_monitor sptr name nicks st
        end
      else if c =c "-" then
        match args with
        | [] | [] :: _ => Some (st, [RNeedMoreParams])
        | nicks :: _ => st ← del_monitor sptr nicks st; Some (st, [])
        end
      else if (c =c "C") || (c =c "c") then st ← monitor_list_clean crc32hash sptr st; Some (st, [])
      else if (c =c "L") || (c =c "l") then Some (st, list_monitor sptr name st)
      else if (c =c "S") || (c =c "s") then Some (st, show_monitor_status sptr name st)
      else Some (st, [])
  end.
End handler.

(** ** What the command sends and does *)
Section handler_spec.
Context (tab : list Z) (me : cstring) (MAXMONITOR : Z) (FindUser : cstring -> option muser).

Definition join (g : list cstring) : cstring :=
  match g with [] => [] | e :: g => e ++ concat (map (fun x => ","%char :: x) g) end.

Definition mon_line (num name : cstring) (g : list cstring) : cstring := mon_head me num name ++ join g ++ [CR; NL].

(** A message under construction that lists [cur] after the messages that
    list the groups [gs]. *)
Definition listing (num name : cstring) (gs : list (list cstring)) (cur : list cstring) (b : monbuf) : Prop :=
  mb_sent b = map (mon_line num name) gs /\ mb b = mon_line num name cur /\
  needs_comma b = negb (length cur =? 0)%nat /\ Z.of_nat (length (mon_line num name cur)) <= BUFSIZE /\
  Forall (fun g => g <> [] /\ Z.of_nat (length (mon_line num name g)) <= BUFSIZE) gs.

Lemma join_snoc g e : join (g ++ [e]) = join g ++ (if (length g =? 0)%nat then [] else str ",") ++ e.
Proof.
  destruct g as [|x g]; cbn [app join length Nat.eqb]; [by rewrite app_nil_r|]. rewrite map_app, concat_app. cbn.
  by rewrite app_nil_r, <- !app_assoc.
Qed.

Lemma finish_fits t : Z.of_nat (length t) + 2 <= BUFSIZE -> finish BUFSIZE t = t ++ [CR; NL].
Proof. intros Ht. unfold finish. rewrite take_ge; [done|]. lia. Qed.

Lemma mon_line_length num name g :
  length (mon_line num name g) = (length (mon_head me num name) + length (join g) + 2)%nat.
Proof. unfold mon_line. rewrite !length_app. cbn [length]. lia. Qed.

Lemma mon_line_text num name g :
  take (length (mon_line num name g) - 2) (mon_line num name g) = mon_head me num name ++ join g.
Proof.
  rewrite mon_line_length. unfold mon_line. rewrite app_assoc. apply take_app_length'. rewrite length_app. lia.
Qed.

Lemma listing_new num name : Z.of_nat (length (mon_head me num name)) + 2 <= BUFSIZE ->
  listing num name [] [] (new_monbuf me num name).
Proof.
  intros Hl. assert (Hm : mb_make (mon_head me num name) = mon_line num name []).
  { unfold mb_make. by rewrite finish_fits. }
  unfold listing, new_monbuf. cbn [mb mb_sent needs_comma]. rewrite Hm, mon_line_length. cbn [join length]. split_and!; try done. lia.
Qed.

Lemma listing_entry num name gs cur b e need :
  listing num name gs cur b -> Z.of_nat (length e) + 1 <= need ->
  Z.of_nat (length (mon_head me num name)) + 2 + need <= BUFSIZE ->
  exists gs' cur', listing num name gs' cur' (mon_entry me num name e need b) /\
    concat gs' ++ cur' = (concat gs ++ cur) ++ [e] /\ cur' <> [].
Proof.
  intros (H1 & H2 & H3 & H4 & H5) Hn Hfit. unfold mon_entry, mb_left. rewrite H2.
  set (line := mon_line num name) in *. destruct (Z.ltb_spec (BUFSIZE - Z.of_nat (length (line cur))) need) as [Hlt|Hge].
  - assert (Hcur : cur <> []).
    { intros ->. unfold line in Hlt. rewrite mon_line_length in Hlt. cbn [join length] in Hlt. lia. }
    exists (gs ++ [cur]), [e]. split; [|split; [|done]]; [|by rewrite concat_app; cbn; rewrite app_nil_r].
    assert (Hm : mb_make (mon_head me num name) = line []).
    { unfold mb_make. rewrite finish_fits by lia. done. }
    unfold listing. cbn [mb mb_sent needs_comma app]. rewrite H1, Hm. unfold mb_append, line. rewrite mon_line_text.
    cbn [join]. rewrite app_nil_r, finish_fits by (rewrite length_app; lia).
    split; [by rewrite map_app|]. split; [unfold mon_line; cbn [join map concat]; by rewrite app_nil_r, <- app_assoc|].
    split; [done|]. split; [rewrite mon_line_length; cbn [join map concat]; rewrite app_nil_r; lia|].
    apply Forall_app. split; [done|]. constructor; [done|constructor].
  - exists gs, (cur ++ [e]). split; [|split; [by rewrite app_assoc|by destruct cur]].
    assert (Hj : mon_head me num name ++ join (cur ++ [e]) = (mon_head me num name ++ join cur) ++ (if needs_comma b then str "," else []) ++ e).
    { rewrite join_snoc, H3. by destruct (length cur =? 0)%nat; rewrite <- !app_assoc. }
    assert (Hle : Z.of_nat (length (mon_head me num name ++ join (cur ++ [e]))) + 2 <= BUFSIZE).
    { rewrite Hj, !length_app. unfold line in Hge. rewrite mon_line_length in Hge.
      destruct (needs_comma b); cbn [length str String.list_ascii_of_string]; lia. }
    unfold listing. cbn [mb mb_sent needs_comma]. rewrite H1, H2. unfold mb_append, line. rewrite mon_line_text, <- Hj.
    rewrite finish_fits by done. split; [done|]. split; [unfold mon_line; by rewrite <- app_assoc|].
    rewrite length_app in Hle. split; [rewrite length_app; by destruct (length cur)|]. split; [rewrite mon_line_length; lia|done].
Qed.

(** What is sent in the end lists everything, in messages that fit. *)
Definition sent_groups (num name : cstring) (entries lines : list cstring) : Prop :=
  exists gs, lines = map (mon_line num name) gs /\ concat gs = entries /\
    Forall (fun g => g <> [] /\ Z.of_nat (length (mon_line num name g)) <= BUFSIZE) gs.

Lemma listing_finish num name gs cur b : listing num name gs cur b -> sent_groups num name (concat gs ++ cur) (mon_finish b).
Proof.
  intros (H1 & H2 & H3 & H4 & H5). unfold mon_finish. rewrite H1, H2, H3. destruct cur as [|x cur].
  - exists gs. cbn. rewrite !app_nil_r. done.
  - exists (gs ++ [x :: cur]). cbn [length Nat.eqb negb]. rewrite map_app, concat_app. cbn [concat map]. rewrite app_nil_r.
    split; [done|]. split; [done|]. apply Forall_app. split; [done|]. constructor; [done|constructor].
Qed.

(** Everything that is listed fits in a message with the head. *)
Definition fits (name : cstring) (len : Z) : Prop :=
  Z.of_nat (length (mon_head me RPL_MONONLINE name)) + 2 + len <= BUFSIZE.

Lemma head_length num name : length num = 3%nat ->
  length (mon_head me num name) = length (mon_head me RPL_MONONLINE name).
Proof. intros Hn. unfold mon_head. rewrite !length_app, Hn. done. Qed.

Definition online (nick : cstring) : option cstring := full_name <$> FindUser nick.
Definition offline (nick : cstring) : option cstring := match FindUser nick with Some _ => None | None => Some nick end.

(** A pair of messages that list the nicks on line and the others. *)
Definition listed (name : cstring) (nicks : list cstring) (on off : monbuf) : Prop :=
  exists g1 c1 g2 c2, listing RPL_MONONLINE name g1 c1 on /\ listing RPL_MONOFFLINE name g2 c2 off /\
    concat g1 ++ c1 = omap online nicks /\ concat g2 ++ c2 = omap offline nicks.

Lemma listed_new name : fits name 0 -> listed name [] (new_monbuf me RPL_MONONLINE name) (new_monbuf me RPL_MONOFFLINE name).
Proof.
  unfold fits. intros Hf. exists [], [], [], []. split_and!; try done; apply listing_new; [lia|].
  rewrite head_length by done. lia.
Qed.

Lemma listed_entry name nicks nick on off :
  listed name nicks on off -> fits name (Z.of_nat (length nick) + 1) ->
  (forall u, FindUser nick = Some u -> fits name (full_need u)) ->
  listed name (nicks ++ [nick]) (mon_status me FindUser name nick on off).1 (mon_status me FindUser name nick on off).2.
Proof.
  intros (g1 & c1 & g2 & c2 & L1 & L2 & H1 & H2) Hn Hu. unfold mon_status, listed. rewrite !omap_app. cbn [omap list_omap].
  unfold online at 2, offline at 2. destruct (FindUser nick) as [u|] eqn:E; cbn [fst snd fmap option_fmap option_map].
  - destruct (listing_entry _ _ _ _ _ (full_name u) (full_need u) L1) as (g & c & L & Hg & _).
    { unfold full_name, full_need. rewrite !length_app. cbn [length str String.list_ascii_of_string]. lia. }
    { by apply Hu. }
    exists g, c, g2, c2. rewrite app_nil_r, Hg, H1. done.
  - destruct (listing_entry _ _ _ _ _ nick (Z.of_nat (length nick) + 1) L2) as (g & c & L & Hg & _); [lia| |].
    { rewrite head_length by done. by apply Hn. }
    exists g1, c1, g, c. rewrite app_nil_r, Hg, H2. done.
Qed.

Definition status_sent (name : cstring) (nicks : list cstring) (rs : list monitor_reply) : Prop :=
  exists on off, rs = map ROnline on ++ map ROffline off /\
    sent_groups RPL_MONONLINE name (omap online nicks) on /\ sent_groups RPL_MONOFFLINE name (omap offline nicks) off.

Lemma listed_both name nicks on off : listed name nicks on off -> status_sent name nicks (both on off).
Proof.
  intros (g1 & c1 & g2 & c2 & L1 & L2 & H1 & H2). exists (mon_finish on), (mon_finish off). split; [done|].
  rewrite <- H1, <- H2. split; by apply listing_finish.
Qed.

Lemma status_fold st name lp : (forall nick u, FindUser nick = Some u -> fits name (full_need u)) ->
  forall nicks on off, (forall p, p ∈ lp -> fits name (Z.of_nat (length (nick_of st p)) + 1)) ->
  listed name nicks on off ->
  let r := foldl (fun b mptr => mon_status me FindUser name (nick_of st mptr) b.1 b.2) (on, off) lp in
  listed name (nicks ++ map (nick_of st) lp) r.1 r.2.
Proof.
  intros Hu. induction lp as [|p lp IH]; intros nicks on off Hn Hl; cbn [foldl map]; [by rewrite app_nil_r|].
  cbn [fst snd]. pose proof (listed_entry name nicks (nick_of st p) on off Hl (Hn p ltac:(left)) (Hu _)) as Hl'.
  destruct (mon_status me FindUser name (nick_of st p) on off) as [on' off'].
  specialize (IH (nicks ++ [nick_of st p]) on' off' ltac:(intros q Hq; apply Hn; by right) Hl').
  by rewrite <- app_assoc in IH.
Qed.

Lemma list_fold st name lp : (forall nick u, FindUser nick = Some u -> fits name (full_need u)) ->
  forall nicks gs cur b, concat gs ++ cur = omap (fun nick => u_name <$> FindUser nick) nicks ->
  listing RPL_MONLIST name gs cur b ->
  exists gs' cur', concat gs' ++ cur' = omap (fun nick => u_name <$> FindUser nick) (nicks ++ map (nick_of st) lp) /\
    listing RPL_MONLIST name gs' cur' (foldl (fun b mptr => match FindUser (nick_of st mptr) with
      | Some u => mon_entry me RPL_MONLIST name (u_name u) (Z.of_nat (length (u_name u)) + 1) b | None => b end) b lp).
Proof.
  intros Hu. induction lp as [|p lp IH]; intros nicks gs cur b Hg Hl; cbn [foldl map]; [exists gs, cur; by rewrite app_nil_r|].
  replace (nicks ++ nick_of st p :: map (nick_of st) lp) with ((nicks ++ [nick_of st p]) ++ map (nick_of st) lp)
    by by rewrite <- app_assoc.
  destruct (FindUser (nick_of st p)) as [u|] eqn:E.
  - destruct (listing_entry _ _ _ _ _ (u_name u) (Z.of_nat (length (u_name u)) + 1) Hl) as (g & c & L & Hgc & _); [lia| |].
    { specialize (Hu _ _ E). unfold fits, full_need in Hu. rewrite head_length by done. lia. }
    apply (IH _ g c); [|done]. rewrite Hgc, Hg, omap_app. cbn. by rewrite E.
  - apply (IH _ gs cur); [|done]. rewrite Hg, omap_app. cbn. by rewrite E, app_nil_r.
Qed.

(** MONITOR S reports every nick watched, once, as on line (with its user
    and host) or off line, and MONITOR L every one on line; the messages are
    not empty, hold at most 512 characters and cut no entry, as long as one
    entry fits in a message with its head. *)
Theorem monitor_lists sptr name cmd args st :
  fits name 0 ->
  (forall p, p ∈ watched st sptr -> fits name (Z.of_nat (length (nick_of st p)) + 1)) ->
  (forall nick u, FindUser nick = Some u -> fits name (full_need u)) ->
  let nicks := map (nick_of st) (watched st sptr) in
  (deref cmd = "S"%char \/ deref cmd = "s"%char ->
    exists rs, m_monitor tab me MAXMONITOR FindUser sptr name (cmd :: args) st = Some (st, rs) /\ status_sent name nicks rs) /\
  (deref cmd = "L"%char \/ deref cmd = "l"%char ->
    exists lines, m_monitor tab me MAXMONITOR FindUser sptr name (cmd :: args) st = Some (st, map RList lines ++ [REndOfList]) /\
      sent_groups RPL_MONLIST name (omap (fun nick => u_name <$> FindUser nick) nicks) lines).
Proof.
  intros H0 Hn Hu nicks. subst nicks. split; intros Hc.
  - assert (m_monitor tab me MAXMONITOR FindUser sptr name (cmd :: args) st =
      Some (st, show_monitor_status me FindUser sptr name st)) as ->.
    { unfold m_monitor. destruct Hc as [-> | ->]; reflexivity. }
    eexists. split; [done|]. unfold show_monitor_status.
    pose proof (status_fold st name (watched st sptr) Hu [] _ _ Hn (listed_new name H0)) as Hgen. cbv zeta in Hgen.
    destruct (foldl _ _ (watched st sptr)) as [on off]. by apply listed_both.
  - assert (m_monitor tab me MAXMONITOR FindUser sptr name (cmd :: args) st =
      Some (st, list_monitor me FindUser sptr name st)) as ->.
    { unfold m_monitor. destruct Hc as [-> | ->]; reflexivity. }
    unfold list_monitor. destruct (watched st sptr) as [|p0 lp0] eqn:Ew; [exists []; split; [done|by exists []]|].
    rewrite <- Ew in *. clear Ew. eexists. split; [done|].
    destruct (list_fold st name (watched st sptr) Hu [] [] [] (new_monbuf me RPL_MONLIST name)) as (gs & cur & Hg & Hl); [done| |].
    { apply listing_new. unfold fits in H0. rewrite head_length by done. lia. }
    cbn [app] in Hg. rewrite <- Hg. by apply listing_finish.
Qed.

(** The additions, one nick after the other. *)
Definition long_enough (w : cstring) : bool := (length w <=? NICKLEN - 1)%nat.

Lemma watch_len n l : (length (watch n l) <= S (length l))%nat.
Proof. unfold watch. case_decide; cbn [length]; lia. Qed.

Lemma count_small st c : counted st -> Z.of_nat (length (view st c)) < 2 ^ 32 -> count_of st c = Z.of_nat (length (view st c)).
Proof. intros Hc Hl. rewrite Hc. unfold view in *. rewrite length_map in *. apply Z.mod_small. lia. Qed.

Lemma find_view st nick : monitors_ok tab st -> is_cstr nick -> nick <> [] ->
  exists st' r, FindMonitor tab nick st = Some (st', r) /\ monitors_ok tab st' /\
    (forall c, view st' c = view st c) /\ (r = None <-> forall c, lower nick ∉ view st c).
Proof.
  intros ([L R] & Hu & Hcnt) Hcs Hne. destruct (find_rep tab st L nick R Hcs Hne) as (t' & r & -> & [L' R'] & Hr).
  exists (set_table t' st), r. split; [done|]. split; [by split; [exists L'|]|]. split; [done|]. destruct r as [p|].
  - destruct Hr as [Hp Hl]. split; [done|]. intros Hc. pose proof (Hu p Hp) as Hw.
    destruct (watchers st p) as [|c l] eqn:E; [done|]. exfalso. apply (Hc c). rewrite <- Hl.
    apply (view_has tab st L); [done|done|]. rewrite E. left.
  - split; [|done]. intros _ c (q & Hq & E)%elem_of_view. apply (Hr q); [|done]. by apply (watched_dom tab st L c).
Qed.

Lemma add_loop_ok sptr name n : forall p on off st nicks,
  (pos_len p < n)%nat -> monitors_ok tab st -> is_cstr name -> name <> [] ->
  let ws := List.filter long_enough (words_opt ","%char p) in
  Forall is_cstr ws -> (forall c, lower name ∉ view st c) -> lower name ∉ map lower ws ->
  Z.of_nat (length (view st sptr) + length ws) <= MAXMONITOR < 2 ^ 32 ->
  fits name (Z.of_nat NICKLEN) -> (forall nick u, FindUser nick = Some u -> fits name (full_need u)) ->
  listed name nicks on off ->
  exists st' rs, add_monitor_loop tab me MAXMONITOR FindUser n sptr name p on off st = Some (st', rs) /\
    monitors_ok tab st' /\ status_sent name (nicks ++ ws) rs /\
    forall c, view st' c = if decide (c = sptr) then fold_left (fun l w => watch (lower w) l) ws (view st sptr) else view st c.
Proof.
  induction n as [|n IH]; intros p on off st nicks Hn Hst Hcs Hne ws Hws Hno Hnw Hmax Hf Hu Hl; [lia|].
  subst ws. cbn [add_monitor_loop]. change (str ",") with [","%char]. pose proof (ircd_strtok_words ","%char p) as Hw.
  destruct (ircd_strtok p [","%char]) as [[w p']|].
  2: { rewrite Hw. exists st, (both on off). cbn. rewrite app_nil_r. split; [done|]. split; [done|].
       split; [by apply listed_both|]. intros c. by case_decide; subst. }
  destruct Hw as (Hw & Hwne & Hlt). rewrite Hw in *. cbn [List.filter] in *. unfold long_enough in *. fold long_enough in *.
  destruct (length w =? 0)%nat eqn:E0; [by destruct w|]. cbn [orb].
  destruct (Nat.ltb_spec (NICKLEN - 1) (length w)) as [Hlong|Hshort].
  - rewrite (proj2 (Nat.leb_gt _ _)) in * by lia. apply IH; auto. lia.
  - rewrite (proj2 (Nat.leb_le _ _)) in * by lia. apply Forall_cons in Hws as [Hw1 Hws]. cbn [map length] in Hnw, Hmax.
    rewrite count_small by (try apply Hst; lia).
    destruct (Z.geb_spec (Z.of_nat (length (view st sptr))) MAXMONITOR); [lia|].
    destruct (find_view st name Hst Hcs Hne) as (st1 & r & -> & Hst1 & Hv1 & Hr). cbn [mbind option_bind].
    rewrite (proj2 Hr Hno). destruct (add_ok tab st1 sptr w Hst1 Hw1 Hwne) as (st2 & -> & Hst2 & Hv2). cbn [mbind option_bind].
    pose proof (listed_entry name nicks w on off Hl) as Hl'. specialize (Hl' ltac:(unfold fits, NICKLEN in *; lia) (Hu _)).
    destruct (mon_status me FindUser name w on off) as [on' off']. cbn [fst snd] in Hl'.
    assert (Hview : forall c, view st2 c = if decide (c = sptr) then watch (lower w) (view st sptr) else view st c).
    { intros c. rewrite Hv2, !Hv1. done. }
    destruct (IH p' on' off' st2 (nicks ++ [w])) as (st' & rs & Hrun & Hst' & Hsent & Hv'); auto.
    + lia.
    + intros c. rewrite Hview. case_decide; [|done]. unfold watch. case_decide; [done|]. set_solver.
    + set_solver.
    + rewrite Hview, decide_True by done. pose proof (watch_len (lower w) (view st sptr)). lia.
    + exists st', rs. split; [done|]. split; [done|]. split; [by rewrite <- app_assoc in Hsent|]. intros c.
      rewrite Hv'. rewrite !Hview, (decide_True _ _ (eq_refl sptr)). by case_decide.
Qed.

Lemma add_loop_blocked sptr name n : forall p st,
  (pos_len p < n)%nat -> monitors_ok tab st -> is_cstr name -> name <> [] ->
  (exists c, lower name ∈ view st c) -> Z.of_nat (length (view st sptr)) < MAXMONITOR < 2 ^ 32 ->
  exists st', add_monitor_loop tab me MAXMONITOR FindUser n sptr name p
                (new_monbuf me RPL_MONONLINE name) (new_monbuf me RPL_MONOFFLINE name) st = Some (st', []) /\
    monitors_ok tab st' /\ forall c, view st' c = view st c.
Proof.
  induction n as [|n IH]; intros p st Hn Hst Hcs Hne Hsome Hmax; [lia|].
  cbn [add_monitor_loop]. change (str ",") with [","%char]. pose proof (ircd_strtok_words ","%char p) as Hw.
  destruct (ircd_strtok p [","%char]) as [[w p']|]; [|by exists st]. destruct Hw as (_ & _ & Hlt).
  destruct ((length w =? 0)%nat || (NICKLEN - 1 <? length w)%nat); [apply IH; auto; lia|].
  rewrite count_small by (try apply Hst; lia). destruct (Z.geb_spec (Z.of_nat (length (view st sptr))) MAXMONITOR); [lia|].
  destruct (find_view st name Hst Hcs Hne) as (st1 & r & -> & Hst1 & Hv1 & Hr). cbn [mbind option_bind].
  destruct r as [q|]; [|destruct Hsome as [c Hc]; by destruct (proj1 Hr eq_refl c)].
  destruct (IH p' st1) as (st' & Hrun & Hst' & Hv'); auto; [lia| |by rewrite Hv1|].
  { destruct Hsome as [c Hc]. exists c. by rewrite Hv1. }
  exists st'. split; [done|]. split; [done|]. intros c. by rewrite Hv'.
Qed.

(** what MONITOR + does.  When nobody watches the user's own nick and it
    is not among the nicks, and there is room for them, every nick of at
    most 14 characters is added and reported once as on line or off line, and
    nobody else's list changes.  But once anybody watches the nick of the
    user, the command adds nothing and answers nothing. *)
Theorem monitor_add sptr name cmd nicks args st :
  monitors_ok tab st -> is_cstr name -> name <> [] -> is_cstr nicks -> nicks <> [] -> deref cmd = "+"%char ->
  MAXMONITOR < 2 ^ 32 -> fits name (Z.of_nat NICKLEN) -> (forall nick u, FindUser nick = Some u -> fits name (full_need u)) ->
  let ws := List.filter long_enough (words "," nicks) in
  let run := m_monitor tab me MAXMONITOR FindUser sptr name (cmd :: nicks :: args) st in
  ((forall c, lower name ∉ view st c) -> lower name ∉ map lower ws ->
   Z.of_nat (length (view st sptr) + length ws) <= MAXMONITOR ->
   exists st' rs, run = Some (st', rs) /\ monitors_ok tab st' /\ status_sent name ws rs /\
     forall c, view st' c = if decide (c = sptr) then fold_left (fun l w => watch (lower w) l) ws (view st sptr) else view st c) /\
  ((exists c, lower name ∈ view st c) -> Z.of_nat (length (view st sptr)) < MAXMONITOR ->
   exists st', run = Some (st', []) /\ monitors_ok tab st' /\ forall c, view st' c = view st c).
Proof.
  intros Hst Hcs Hne Hns Hnn Hcmd HM Hf Hu ws run.
  assert (Hrun : run = add_monitor tab me MAXMONITOR FindUser sptr name nicks st).
  { unfold run, m_monitor. rewrite Hcmd. destruct nicks; [done|]. reflexivity. }
  assert (Hws : Forall is_cstr ws).
  { pose proof (words_cstr "," nicks Hns) as Hall. rewrite Forall_forall in Hall |- *. intros w Hw. apply Hall.
    apply list_elem_of_In. apply list_elem_of_In, filter_In in Hw. apply Hw. }
  rewrite Hrun. unfold add_monitor. split.
  - intros Hno Hnw Hroom. apply (add_loop_ok sptr name _ (Some nicks) _ _ st []); auto. apply listed_new. unfold fits in *. lia.
  - intros Hsome Hroom. apply add_loop_blocked; auto.
Qed.
End handler_spec.

(** ** Examples *)
Definition ex_mops : list mop :=
  [MAdd 1 (str "Nick"); MAdd 2 (str "nick"); MAdd 1 (str "other"); MAdd 1 (str "NICK"); MDel 2 (str "NiCk"); MNotify (str "other")].

Example ex_run_monitors :
  (fun st => (view st 1%positive, view st 2%positive, monitorCount st, sl_inuse (sl st))) <$>
    run_mops crc_table ex_mops no_monitors = Some ([str "other"; str "nick"], [], 2, 4).
Proof. vm_compute. reflexivity. Qed.

Lemma monitors_refine_witness :
  Forall mop_pre ex_mops /\ exists st, run_mops crc_table ex_mops no_monitors = Some st /\ monitorCount st = 2 /\
    view st 1%positive = [str "other"; str "nick"].
Proof.
  assert (Hpre : Forall mop_pre ex_mops).
  { repeat constructor; vm_compute; discriminate. }
  split; [exact Hpre|]. destruct (monitors_refine crc_table ex_mops Hpre) as (st & Hr & Hv & _).
  exists st. split; [exact Hr|]. split; [|by rewrite (proj1 (Hv 1%positive))].
  revert Hr. clear. intros Hr. assert (H : monitorCount <$> run_mops crc_table ex_mops no_monitors = Some 2) by (vm_compute; reflexivity).
  rewrite Hr in H. by injection H.
Defined.

(** Two users: one is on line. *)
Definition ex_find (nick : cstring) : option muser :=
  if strcmp_eqb nick (str "Bob") then Some {| u_name := str "bob"; u_username := str "b"; u_host := str "host" |} else None.

Definition ex_mon (st : monstate) (parv : list string) : option (monstate * list monitor_reply) :=
  m_monitor crc_table (str "irc.example") 10 ex_find 1 (str "alice") (map str parv) st.

Example m_monitor_ex :
  (st ← fst <$> ex_mon no_monitors ["+"; "bob,,carol"]%string; snd <$> ex_mon st ["S"]%string) =
  Some [ROnline (str ":irc.example 730 alice :bob!b@host" ++ [CR; NL]);
        ROffline (str ":irc.example 731 alice :carol" ++ [CR; NL])].
Proof. vm_compute. reflexivity. Qed.

(** A user who is watched, here by client 2, can add nothing. *)
Example monitor_blocked_ex :
  (st ← monitor_add_nick crc_table 2 (str "ALICE") no_monitors;
   '(st, rs) ← ex_mon st ["+"; "bob"]%string; Some (rs, view st 1%positive)) = Some ([], []).
Proof. vm_compute. reflexivity. Qed.

Lemma ex_fits n : n <= 400 -> fits (str "irc.example") (str "alice") n.
Proof. intros Hn. unfold fits. change (Z.of_nat (length (mon_head _ _ _))) with 24. change BUFSIZE with 512. lia. Qed.

Lemma ex_find_fits nick u : ex_find nick = Some u -> fits (str "irc.example") (str "alice") (full_need u).
Proof. unfold ex_find. destruct (strcmp_eqb nick (str "Bob")); [|done]. intros [= <-]. apply ex_fits. vm_compute. discriminate. Qed.

Lemma monitor_add_witness :
  exists st' rs, m_monitor crc_table (str "irc.example") 10 ex_find 1 (str "alice") [str "+"; str "bob,,carol"] no_monitors = Some (st', rs) /\
    view st' 1%positive = [str "carol"; str "bob"].
Proof.
  destruct (monitor_add crc_table (str "irc.example") 10 ex_find 1 (str "alice") (str "+") (str "bob,,carol") [] no_monitors
    (no_monitors_ok crc_table) ltac:(repeat constructor; vm_compute; discriminate) ltac:(discriminate)
    ltac:(repeat constructor; vm_compute; discriminate) ltac:(discriminate) eq_refl ltac:(lia)
    ltac:(apply ex_fits; vm_compute; discriminate) ex_find_fits) as [Hadd _].
  destruct Hadd as (st' & rs & Hrun & _ & _ & Hv).
  - intros c Hc. change (view no_monitors c) with (@nil cstring) in Hc. by apply not_elem_of_nil in Hc.
  - vm_compute. intros H. inversion H as [|? ? ? H1]; subst. inversion H1 as [|? ? ? H2]; subst. inversion H2.
  - vm_compute. discriminate.
  - exists st', rs. split; [exact Hrun|]. rewrite Hv. vm_compute. reflexivity.
Defined.

Definition ex_mst : monstate := default no_monitors (monitor_add_nick crc_table 1 (str "bob") no_monitors).

Lemma monitor_lists_witness :
  exists rs, m_monitor crc_table (str "irc.example") 10 ex_find 1 (str "alice") [str "S"] ex_mst = Some (ex_mst, rs) /\
    status_sent (str "irc.example") ex_find (str "alice") [str "bob"] rs.
Proof.
  assert (Hall : Forall (fun p => (length (nick_of ex_mst p) <= 20)%nat) (watched ex_mst 1)).
  { apply (bool_decide_unpack _). vm_compute. reflexivity. }
  destruct (monitor_lists crc_table (str "irc.example") 10 ex_find 1 (str "alice") (str "S") [] ex_mst
    ltac:(apply ex_fits; lia)) as [HS _].
  - intros p Hp. apply ex_fits. rewrite Forall_forall in Hall. specialize (Hall p Hp). lia.
  - exact ex_find_fits.
  - destruct HS as (rs & Hrun & Hs); [by left|]. exists rs. split; [exact Hrun|].
    assert (Hn : map (nick_of ex_mst) (watched ex_mst 1%positive) = [str "bob"]) by (vm_compute; reflexivity).
    rewrite <- Hn. exact Hs.
Defined.
