(* ===== verification/Modebuf.v ===== *)
(** * The buffer of mode changes ([modebuf_*] of [ircd/channel.c])

    A change of the modes of a channel is gathered in a buffer - flags to add
    and to remove, and at most six changes with an argument - and flushed as
    MODE lines: for the channel, for the servers, bounced to the link it came
    from, or as a notice.  A line has at most 312 characters of arguments; what
    does not fit stays for another one.  [flush_roundtrip]: read back, the
    lines for the servers are the changes of the buffer, none lost and none
    twice.  [flush_args_fit]: the arguments of a line stay in their
    buffers.  The letters have 20 bytes, which is not always enough
    ([letters_overrun]). *)
From S2P Require Import Prelude Chattr Strings Chain Members ChanTable IpText Bans Channel Ddb DdbFile.
From stdpp Require Import options.
Local Open Scope Z_scope.
Local Open Scope ircd_scope.

Definition MODE_CHANOP : Z := 0x0001.
Definition MODE_VOICE : Z := 0x0002.
Definition MODE_BAN : Z := 0x0200.
Definition MODE_LIMIT : Z := 0x0400.
Definition MODE_SAVE : Z := 0x20000.
Definition MODE_FREE : Z := 0x40000.
Definition MODE_UPASS : Z := 0x100000.
Definition MODE_APASS : Z := 0x200000.
Definition MODE_ADD : Z := 0x40000000.
Definition MODE_DEL : Z := 0x20000000.

Definition MAXMODEPARAMS : Z := 6.
Definition MAXOPLEVEL : Z := 999.
Definition BUFSIZE : Z := 512.

Definition MODEBUF_DEST_CHANNEL : Z := 0x00001.
Definition MODEBUF_DEST_SERVER : Z := 0x00002.
Definition MODEBUF_DEST_OPMODE : Z := 0x00100.
Definition MODEBUF_DEST_DEOP : Z := 0x00200.
Definition MODEBUF_DEST_BOUNCE : Z := 0x00400.
Definition MODEBUF_DEST_LOG : Z := 0x00800.
Definition MODEBUF_DEST_HACK2 : Z := 0x02000.
Definition MODEBUF_DEST_HACK3 : Z := 0x04000.
Definition MODEBUF_DEST_HACK4 : Z := 0x08000.
Definition MODEBUF_DEST_NOKEY : Z := 0x10000.

(** [x & f] as a condition. *)
Definition bit (x f : Z) : bool := negb (Z.land x f =? 0).

(** The union [mbm_arg]. *)
Inductive mode_arg :=
  | AUint (n : Z)
  | AString (s : cstring)
  | AClient (c : positive).

Record modearg := { mb_type : Z; mb_arg : mode_arg; mb_oplevel : Z }.

(** What is sent: the letters and arguments after the name of the channel,
    and the time of the channel where the code adds it. *)
Inductive mode_out :=
  | ToChannel (text : cstring)
  | ToServers (text : cstring) (ts : Z)
  | ToOpmode (text : cstring)
  | ToBounce (text : cstring) (ts : Z)
  | ToHack (n : Z) (text : cstring) (ts : Z)
  | ToLog (text : cstring).

(** [struct ModeBuf]; the slots in use are a list, and what was sent follows. *)
Record ModeBuf := {
  mb_add : Z;
  mb_rem : Z;
  mb_source : positive;
  mb_dest : Z;
  mb_modeargs : list modearg;
  mb_out : list mode_out
}.

(** What the buffer reads of the channel: the modes, the time and the
    members. *)
Record mchan := {
  mc_name : cstring;
  mc_time : Z;
  mc_mode : Mode;
  mc_members : list Membership;
  mc_bans : list Ban;
  mc_pool : ban_pool;
  mc_invites : list positive
}.

Definition with_mc_mode (m : Mode) (ch : mchan) : mchan :=
  {| mc_name := mc_name ch; mc_time := mc_time ch; mc_mode := m; mc_members := mc_members ch; mc_bans := mc_bans ch;
     mc_pool := mc_pool ch; mc_invites := mc_invites ch |}.

Definition set_bits (z : Z) (ch : mchan) : mchan := with_mc_mode (set_mode z (mc_mode ch)) ch.

Definition add_out (o : list mode_out) (mb : ModeBuf) : ModeBuf :=
  {| mb_add := mb_add mb; mb_rem := mb_rem mb; mb_source := mb_source mb; mb_dest := mb_dest mb;
     mb_modeargs := mb_modeargs mb; mb_out := mb_out mb ++ o |}.

Definition with_flags (a r : Z) (mb : ModeBuf) : ModeBuf :=
  {| mb_add := a; mb_rem := r; mb_source := mb_source mb; mb_dest := mb_dest mb;
     mb_modeargs := mb_modeargs mb; mb_out := mb_out mb |}.

Definition with_args (l : list modearg) (mb : ModeBuf) : ModeBuf :=
  {| mb_add := mb_add mb; mb_rem := mb_rem mb; mb_source := mb_source mb; mb_dest := mb_dest mb;
     mb_modeargs := l; mb_out := mb_out mb |}.

Definition with_dest (d : Z) (mb : ModeBuf) : ModeBuf :=
  {| mb_add := mb_add mb; mb_rem := mb_rem mb; mb_source := mb_source mb; mb_dest := d;
     mb_modeargs := mb_modeargs mb; mb_out := mb_out mb |}.

(** [find_delayed_joins]. *)
Definition find_delayed (ch : mchan) : bool := existsb IsDelayedJoin (mc_members ch).

(** The tables [flags] and [local_flags] of [modebuf_flush_int]. *)
Definition simple_flags : list (Z * ascii) :=
  [(MODE_PRIVATE, "p"%char); (MODE_SECRET, "s"%char); (MODE_MODERATED, "m"%char); (MODE_TOPICLIMIT, "t"%char);
   (MODE_INVITEONLY, "i"%char); (MODE_NOPRIVMSGS, "n"%char); (MODE_REGISTERED, "r"%char); (MODE_DELJOINS, "D"%char);
   (MODE_REGONLY, "R"%char); (MODE_OPERONLY, "O"%char); (MODE_NOCOLOR, "c"%char); (MODE_NOCTCP, "C"%char);
   (MODE_MODERATENOREG, "M"%char); (MODE_NONOTICE, "N"%char); (MODE_MSGNONWEB, "W"%char); (MODE_NOQUITPARTS, "u"%char);
   (MODE_SSLONLY, "z"%char); (MODE_LIMIT, "l"%char)].

Definition local_flags : list (Z * ascii) := [(MODE_WASDELJOINS, "d"%char)].

(** The loops over the tables: the letters to add and to remove. *)
Definition flag_letters (table : list (Z * ascii)) (add rem : Z) : cstring * cstring :=
  (map snd (List.filter (fun f => bit add (fst f)) table),
   map snd (List.filter (fun f => negb (bit add (fst f)) && bit rem (fst f)) table)).

(** [build_string] with a space and one string. *)
Definition build_string (buf s : cstring) : cstring := buf ++ " "%char :: s.

Section modebuf.
(** The names of the clients and their numerics ([NumNick]). *)
Context (cli_name NumNick : positive -> cstring).

(** The kinds of an argument, in the order of the tests. *)
Inductive arg_kind := KClient | KString | KKey | KLimit | KNone.

Definition kind_of (type : Z) : arg_kind :=
  if bit type (Z.lor MODE_CHANOP MODE_VOICE) then KClient
  else if bit type (Z.lor MODE_BAN (Z.lor MODE_APASS MODE_UPASS)) then KString
  else if bit type MODE_KEY then KKey
  else if bit type MODE_LIMIT then KLimit
  else KNone.

Definition string_of (a : mode_arg) : cstring := match a with AString s => s | _ => [] end.
Definition client_of (a : mode_arg) : positive := match a with AClient c => c | _ => 1%positive end.
Definition uint_of (a : mode_arg) : Z := match a with AUint n => n | _ => 0 end.

(** The letter of a change and the room its argument is given. *)
Definition letter_of (type : Z) : ascii :=
  match kind_of type with
  | KClient => if bit type MODE_CHANOP then "o"%char else "v"%char
  | KString =>
      let t := Z.land type (Z.lor MODE_BAN (Z.lor MODE_APASS MODE_UPASS)) in
      if t =? MODE_APASS then "A"%char else if t =? MODE_UPASS then "U"%char else "b"%char
  | KKey => "k"%char
  | _ => "l"%char
  end.

Definition room_of (dest : Z) (m : modearg) : Z :=
  match kind_of (mb_type m) with
  | KClient => Z.max 9 (Z.of_nat (length (cli_name (client_of (mb_arg m)))))
  | KString => Z.of_nat (length (string_of (mb_arg m)))
  | KKey => if bit dest MODEBUF_DEST_NOKEY then 1 else Z.of_nat (length (string_of (mb_arg m)))
  | _ => Z.of_nat (length (decimal (uint_of (mb_arg m))))
  end.

Definition with_type (t : Z) (m : modearg) : modearg := {| mb_type := t; mb_arg := mb_arg m; mb_oplevel := mb_oplevel m |}.

(** The loop over the changes with an argument: the room left, the letters,
    the last limit that was printed, and the changes with those that do not
    fit marked. *)
Record letters := { budget : Z; addbuf : cstring; rembuf : cstring; limitbuf : cstring; marked : list modearg }.

Definition arg_letter (dest : Z) (st : letters) (m : modearg) : letters :=
  let lb := match kind_of (mb_type m) with KLimit => decimal (uint_of (mb_arg m)) | _ => limitbuf st end in
  match kind_of (mb_type m) with
  | KNone => {| budget := budget st; addbuf := addbuf st; rembuf := rembuf st; limitbuf := lb; marked := marked st ++ [m] |}
  | _ =>
      if budget st - room_of dest m <=? 0 then
        {| budget := budget st; addbuf := addbuf st; rembuf := rembuf st; limitbuf := lb;
           marked := marked st ++ [with_type (Z.lor (mb_type m) MODE_SAVE) m] |}
      else
        let c := letter_of (mb_type m) in
        let add := bit (mb_type m) MODE_ADD in
        {| budget := budget st - (room_of dest m + 1);
           addbuf := if add then addbuf st ++ [c] else addbuf st;
           rembuf := if add then rembuf st else rembuf st ++ [c];
           limitbuf := lb; marked := marked st ++ [m] |}
  end.

(** The two loops that build the arguments, for clients and for servers: what
    a change adds to [addstr] or [remstr]. *)
Definition shown_arg (dest : Z) (lb : cstring) (m : modearg) : option cstring :=
  let t := mb_type m in
  if bit t (Z.lor MODE_CHANOP MODE_VOICE) then Some (cli_name (client_of (mb_arg m)))
  else if bit t MODE_BAN then Some (string_of (mb_arg m))
  else if bit t MODE_KEY then Some (if bit dest MODEBUF_DEST_NOKEY then str "*" else string_of (mb_arg m))
  else if bit t (Z.lor MODE_APASS MODE_UPASS) then Some (str "*")
  else if Z.land t (Z.lor MODE_ADD MODE_LIMIT) =? Z.lor MODE_ADD MODE_LIMIT then Some lb
  else None.

Definition server_arg (dest : Z) (lb : cstring) (m : modearg) : option cstring :=
  let t := mb_type m in
  let limitdel := Z.lor MODE_LIMIT (if bit dest MODEBUF_DEST_BOUNCE then MODE_DEL else MODE_ADD) in
  if bit t MODE_CHANOP && (mb_oplevel m <? MAXOPLEVEL) then
    Some (NumNick (client_of (mb_arg m)) ++ ":"%char :: decimal (mb_oplevel m))
  else if bit t (Z.lor MODE_CHANOP MODE_VOICE) then Some (NumNick (client_of (mb_arg m)))
  else if bit t (Z.lor MODE_KEY (Z.lor MODE_BAN (Z.lor MODE_APASS MODE_UPASS))) then Some (string_of (mb_arg m))
  else if Z.land t limitdel =? limitdel then Some lb
  else None.

Definition build_args (arg : modearg -> option cstring) (l : list modearg) : cstring * cstring :=
  fold_left (fun '(addstr, remstr) m =>
    if bit (mb_type m) MODE_SAVE then (addstr, remstr)
    else match arg m with
         | None => (addstr, remstr)
         | Some s => if bit (mb_type m) MODE_ADD then (build_string addstr s, remstr) else (addstr, build_string remstr s)
         end) l ([], []).

(** The format [%s%s%s%s%s%s]. *)
Definition mode_text (rem add remstr addstr : cstring) : cstring :=
  (if rem is [] then [] else str "-") ++ rem ++ (if add is [] then [] else str "+") ++ add ++ remstr ++ addstr.

(** The letter buffers have 20 bytes, the terminator included. *)
Definition letterbuf_ok (l : cstring) : bool := (length l <=? 19)%nat.

(** Hidden joins and the mode that stands for them. *)
Definition adjust_delayed (ch : mchan) (mb : ModeBuf) : mchan * ModeBuf :=
  let m := mode (mc_mode ch) in
  let '(ch, mb) :=
    if bit (mb_rem mb) MODE_DELJOINS && negb (bit m (Z.lor MODE_DELJOINS MODE_WASDELJOINS)) && find_delayed ch then
      (set_bits (Z.lor m MODE_WASDELJOINS) ch,
       with_flags (Z.lor (mb_add mb) MODE_WASDELJOINS) (Z.ldiff (mb_rem mb) MODE_WASDELJOINS) mb)
    else (ch, mb) in
  let m := mode (mc_mode ch) in
  if bit (mb_add mb) MODE_DELJOINS && bit m MODE_WASDELJOINS then
    (set_bits (Z.ldiff m MODE_WASDELJOINS) ch,
     with_flags (Z.ldiff (mb_add mb) MODE_WASDELJOINS) (Z.lor (mb_rem mb) MODE_WASDELJOINS) mb)
  else (ch, mb).

(** The slots after a flush: those marked are kept, with their mark off. *)
Definition saved (l : list modearg) : list modearg :=
  map (fun m => with_type (Z.ldiff (mb_type m) MODE_SAVE) m) (List.filter (fun m => bit (mb_type m) MODE_SAVE) l).

(** The messages of a flush.  [None]: a letter buffer is overrun. *)
Definition flush_lines (ch : mchan) (mb : ModeBuf) : option ModeBuf :=
  let dest := mb_dest mb in
  let '(add, rem) := flag_letters simple_flags (mb_add mb) (mb_rem mb) in
  let '(add_local, rem_local) := flag_letters local_flags (mb_add mb) (mb_rem mb) in
  let st := fold_left (arg_letter dest) (mb_modeargs mb)
    {| budget := BUFSIZE - 200 - (if bit dest MODEBUF_DEST_DEOP then 6 else 0); addbuf := add; rembuf := rem;
       limitbuf := []; marked := [] |} in
  let '(add, rem, args) := (addbuf st, rembuf st, marked st) in
  if negb (letterbuf_ok add && letterbuf_ok rem) then None
  else
    let '(addstr, remstr) := build_args (shown_arg dest (limitbuf st)) args in
    let text := mode_text rem add remstr addstr in
    let ts := mc_time ch in
    let shown :=
      (if bit dest MODEBUF_DEST_HACK2 then [ToHack 2 text ts] else []) ++
      (if bit dest MODEBUF_DEST_HACK3 then [ToHack 3 text ts] else []) ++
      (if bit dest MODEBUF_DEST_HACK4 then [ToHack 4 text ts] else []) ++
      (if bit dest MODEBUF_DEST_LOG then [ToLog text] else []) ++
      (if bit dest MODEBUF_DEST_CHANNEL then
         [ToChannel (mode_text (rem ++ rem_local) (add ++ add_local) remstr addstr)] else []) in
    let mb := add_out shown mb in
    if negb (bit dest MODEBUF_DEST_SERVER) then Some (with_flags 0 0 (with_args (saved args) mb))
    else
      let '(addstr, remstr) := build_args (server_arg dest (limitbuf st)) args in
      let deop := bit dest MODEBUF_DEST_DEOP in
      let add := if deop then add ++ str "o" else add in
      let addstr := if deop then build_string addstr (NumNick (mb_source mb)) else addstr in
      if negb (letterbuf_ok add) then None
      else
        let mb := with_dest (Z.ldiff dest MODEBUF_DEST_DEOP) mb in
        let text := mode_text rem add remstr addstr in
        let out :=
          if bit dest MODEBUF_DEST_OPMODE then ToOpmode text
          else if bit dest MODEBUF_DEST_BOUNCE then ToBounce (mode_text add rem addstr remstr) ts
          else ToServers text ts in
        Some (with_flags 0 0 (with_args (saved args) (add_out [out] mb))).

(** [modebuf_flush_int], with [n] for its recursion. *)
Fixpoint modebuf_flush_int (n : nat) (all : bool) (ch : mchan) (mb : ModeBuf) : option (mchan * ModeBuf) :=
  match n with
  | O => None
  | S n =>
      if (mb_add mb =? 0) && (mb_rem mb =? 0) && (length (mb_modeargs mb) =? 0)%nat then Some (ch, mb)
      else
        let '(ch, mb) := adjust_delayed ch mb in
        mb ← flush_lines ch mb;
        if all && negb (length (mb_modeargs mb) =? 0)%nat then modebuf_flush_int n all ch mb else Some (ch, mb)
  end.

(** At most six changes, and each flush sends one. *)
Definition flush_fuel : nat := 8.

Definition modebuf_flush (ch : mchan) (mb : ModeBuf) : option (mchan * ModeBuf) := modebuf_flush_int flush_fuel true ch mb.

Definition modebuf_init (source : positive) (ch : mchan) (dest : Z) : ModeBuf :=
  {| mb_add := 0; mb_rem := 0; mb_source := source;
     mb_dest := if deref (mc_name ch) =c "&" then Z.ldiff dest MODEBUF_DEST_SERVER else dest;
     mb_modeargs := []; mb_out := [] |}.

Definition simple_mask : Z :=
  fold_left Z.lor
    [MODE_PRIVATE; MODE_SECRET; MODE_MODERATED; MODE_TOPICLIMIT; MODE_INVITEONLY; MODE_NOPRIVMSGS; MODE_REGISTERED;
     MODE_NOCOLOR; MODE_NOCTCP; MODE_OPERONLY; MODE_SSLONLY; MODE_DELJOINS; MODE_WASDELJOINS; MODE_REGONLY;
     MODE_MODERATENOREG; MODE_NONOTICE; MODE_NOQUITPARTS; MODE_MSGNONWEB] 0.

(** [modebuf_mode]: [add] is whether [MODE_ADD] is set, the rest is [MODE_DEL]. *)
Definition modebuf_mode (m : Z) (mb : ModeBuf) : ModeBuf :=
  let m := Z.land m (Z.lor (Z.lor MODE_ADD MODE_DEL) simple_mask) in
  if Z.ldiff m (Z.lor MODE_ADD MODE_DEL) =? 0 then mb
  else if bit m MODE_ADD then with_flags (Z.lor (mb_add mb) m) (Z.ldiff (mb_rem mb) m) mb
  else with_flags (Z.ldiff (mb_add mb) m) (Z.lor (mb_rem mb) m) mb.

(** The end of the three functions that add a change with an argument. *)
Definition push_arg (m : modearg) (ch : mchan) (mb : ModeBuf) : option (mchan * ModeBuf) :=
  let mb := with_args (mb_modeargs mb ++ [m]) mb in
  if MAXMODEPARAMS - (if bit (mb_dest mb) MODEBUF_DEST_DEOP then 1 else 0) <=? Z.of_nat (length (mb_modeargs mb))
  then modebuf_flush_int flush_fuel false ch mb
  else Some (ch, mb).

Definition modebuf_mode_uint (m uint : Z) (ch : mchan) (mb : ModeBuf) : option (mchan * ModeBuf) :=
  if m =? Z.lor MODE_LIMIT MODE_DEL then Some (ch, with_flags (mb_add mb) (Z.lor (mb_rem mb) m) mb)
  else push_arg {| mb_type := m; mb_arg := AUint uint; mb_oplevel := 0 |} ch mb.

Definition modebuf_mode_string (m : Z) (s : cstring) (free : bool) (ch : mchan) (mb : ModeBuf) : option (mchan * ModeBuf) :=
  push_arg {| mb_type := Z.lor m (if free then MODE_FREE else 0); mb_arg := AString s; mb_oplevel := 0 |} ch mb.

Definition modebuf_mode_client (m : Z) (c : positive) (oplevel : Z) (ch : mchan) (mb : ModeBuf) : option (mchan * ModeBuf) :=
  push_arg {| mb_type := m; mb_arg := AClient c; mb_oplevel := oplevel |} ch mb.

(** [modebuf_extract]: the simple modes and the key, limit and passwords. *)
Definition extract_flags : list (Z * ascii) :=
  [(MODE_PRIVATE, "p"%char); (MODE_SECRET, "s"%char); (MODE_MODERATED, "m"%char); (MODE_TOPICLIMIT, "t"%char);
   (MODE_INVITEONLY, "i"%char); (MODE_NOPRIVMSGS, "n"%char); (MODE_KEY, "k"%char); (MODE_APASS, "A"%char);
   (MODE_UPASS, "U"%char); (MODE_REGISTERED, "r"%char); (MODE_LIMIT, "l"%char); (MODE_REGONLY, "R"%char);
   (MODE_OPERONLY, "O"%char); (MODE_DELJOINS, "D"%char); (MODE_NOCOLOR, "c"%char); (MODE_NOCTCP, "C"%char);
   (MODE_MODERATENOREG, "M"%char); (MODE_NONOTICE, "N"%char); (MODE_MSGNONWEB, "W"%char); (MODE_NOQUITPARTS, "u"%char);
   (MODE_SSLONLY, "z"%char)].

Record extracted := { x_add : Z; x_key : cstring; x_limit : cstring; x_upass : cstring; x_apass : cstring }.

Definition extract_arg (x : extracted) (m : modearg) : extracted :=
  let t := mb_type m in
  if negb (bit t MODE_ADD) then x
  else
    let add := Z.lor (x_add x) (Z.land t (Z.lor (Z.lor MODE_KEY MODE_LIMIT) (Z.lor MODE_APASS MODE_UPASS))) in
    let s := string_of (mb_arg m) in
    {| x_add := add;
       x_key := if bit t MODE_KEY then s else x_key x;
       x_limit := if negb (bit t MODE_KEY) && bit t MODE_LIMIT then decimal (uint_of (mb_arg m)) else x_limit x;
       x_upass := if negb (bit t (Z.lor MODE_KEY MODE_LIMIT)) && bit t MODE_UPASS then s else x_upass x;
       x_apass := if negb (bit t (Z.lor MODE_KEY (Z.lor MODE_LIMIT MODE_UPASS))) && bit t MODE_APASS then s else x_apass x |}.

Definition modebuf_extract (mb : ModeBuf) : cstring :=
  let x := fold_left extract_arg (mb_modeargs mb)
    {| x_add := mb_add mb; x_key := []; x_limit := []; x_upass := []; x_apass := [] |} in
  if x_add x =? 0 then []
  else
    let head := "+"%char :: map snd (List.filter (fun f => bit (x_add x) (fst f)) extract_flags) in
    fold_left (fun buf c =>
      if c =c "k" then build_string buf (x_key x)
      else if c =c "l" then build_string buf (x_limit x)
      else if c =c "U" then build_string buf (x_upass x)
      else if c =c "A" then build_string buf (x_apass x)
      else buf) head head.
End modebuf.

(** ** Reading a line

    What the letters and arguments of a MODE line say; the letters that take an
    argument take the next one. *)
Inductive change := Change (add : bool) (letter : ascii) (arg : option cstring).

Definition takes_arg (add : bool) (c : ascii) : bool :=
  existsb (fun d => c =c d) (str "ovbkAU") || (add && (c =c "l")).

Fixpoint read_letters (ls : cstring) (add : bool) (args : list cstring) : option (list change) :=
  match ls with
  | [] => Some []
  | c :: ls =>
      if c =c "+" then read_letters ls true args
      else if c =c "-" then read_letters ls false args
      else if takes_arg add c then
        match args with
        | [] => None
        | a :: args => cons (Change add c (Some a)) <$> read_letters ls add args
        end
      else cons (Change add c None) <$> read_letters ls add args
  end.

Definition read_line (text : cstring) : option (list change) :=
  match words " " text with [] => Some [] | ls :: args => read_letters ls true args end.

Definition ch_dir (c : change) : bool := let '(Change a _ _) := c in a.
Definition ch_letter (c : change) : ascii := let '(Change _ l _) := c in l.
Definition ch_arg (c : change) : option cstring := let '(Change _ _ a) := c in a.

(** A change that can be printed: the letter is one, and it has an argument if
    it takes one, which is a word. *)
Definition change_ok (c : change) : Prop :=
  ch_letter c <> "+"%char /\ ch_letter c <> "-"%char /\ ch_letter c <> " "%char /\
  match ch_arg c with
  | Some a => takes_arg (ch_dir c) (ch_letter c) = true /\ word_ok a
  | None => takes_arg (ch_dir c) (ch_letter c) = false
  end.

Definition letters_of (cs : list change) : cstring := map ch_letter cs.
Definition args_of (cs : list change) : list cstring := omap ch_arg cs.

Lemma read_same add cs tail args : Forall change_ok cs -> Forall (fun c => ch_dir c = add) cs ->
  read_letters (letters_of cs ++ tail) add (args_of cs ++ args) = app cs <$> read_letters tail add args.
Proof.
  intros Hok Hdir. induction cs as [|[a l o] cs IH]; [cbn; by destruct (read_letters tail add args)|].
  apply Forall_cons in Hok as [(H1 & H2 & _ & H4) Hok]. apply Forall_cons in Hdir as [Ha Hdir]. cbn in Ha. subst a.
  cbn [letters_of map app read_letters ch_letter]. cbn in H1, H2, H4. apply ch_eqb_neq in H1, H2. rewrite H1, H2.
  cbn [args_of omap list_omap ch_arg]. destruct o as [w|].
  - destruct H4 as [-> _]. cbn [app]. fold (letters_of cs) (args_of cs). rewrite IH by done.
    by destruct (read_letters tail add args).
  - rewrite H4. fold (letters_of cs) (args_of cs). rewrite IH by done. by destruct (read_letters tail add args).
Qed.

(** The same after its sign. *)
Lemma read_signed add cs tail d args : Forall change_ok cs -> Forall (fun c => ch_dir c = add) cs ->
  read_letters ((if letters_of cs is [] then [] else str (if add then "+" else "-")) ++ letters_of cs ++ tail) d (args_of cs ++ args) =
    app cs <$> read_letters tail (if cs is [] then d else add) args.
Proof.
  intros Hok Hdir. destruct cs as [|c cs]; [cbn; by destruct (read_letters tail d args)|].
  rewrite <- (read_same add (c :: cs) tail args Hok Hdir). by destruct add.
Qed.

(** The words of a first word and others after spaces. *)
Definition spaced (l : list cstring) : cstring := concat (map (cons " "%char) l).

Lemma pieces_app w rest : Forall (fun c => c <> " "%char) w ->
  pieces " " (w ++ " "%char :: rest) = w :: pieces " " rest.
Proof.
  induction 1 as [|c w Hc _ IH]; cbn [app pieces]; [by rewrite ch_eqb_refl|].
  apply ch_eqb_neq in Hc. by rewrite Hc, IH.
Qed.

Lemma pieces_one w : Forall (fun c => c <> " "%char) w -> pieces " " w = [w].
Proof. induction 1 as [|c w Hc _ IH]; cbn [pieces]; [done|]. apply ch_eqb_neq in Hc. by rewrite Hc, IH. Qed.

Lemma words_spaced w l : w <> [] -> Forall (fun c => c <> " "%char) w -> Forall word_ok l ->
  words " " (w ++ spaced l) = w :: l.
Proof.
  intros Hne Hw Hl. revert w Hne Hw. unfold words. induction Hl as [|v l Hv Hl IH]; intros w Hne Hw.
  - unfold spaced. cbn. rewrite app_nil_r, pieces_one by done. by destruct w.
  - unfold spaced. cbn [map concat]. cbn [app]. rewrite pieces_app by done. cbn [List.filter].
    assert (nonempty w = true) as -> by (by destruct w). f_equal. apply IH; [by destruct Hv|by apply word_no_space].
Qed.

Lemma spaced_app l k : spaced (l ++ k) = spaced l ++ spaced k.
Proof. unfold spaced. by rewrite map_app, concat_app. Qed.

(** The letters of a line with their signs, and its words. *)
Definition signed (rems adds : list change) : cstring :=
  (if letters_of rems is [] then [] else str "-") ++ letters_of rems ++
  (if letters_of adds is [] then [] else str "+") ++ letters_of adds.

Definition text_of (rems adds : list change) : cstring :=
  mode_text (letters_of rems) (letters_of adds) (spaced (args_of rems)) (spaced (args_of adds)).

Lemma words_mode_text rems adds : Forall change_ok rems -> Forall change_ok adds -> rems ++ adds <> [] ->
  words " " (text_of rems adds) = signed rems adds :: args_of rems ++ args_of adds.
Proof.
  intros Hr Ha Hne. assert (Htext : text_of rems adds = signed rems adds ++ spaced (args_of rems ++ args_of adds)).
  { unfold text_of, mode_text, signed. by rewrite spaced_app, <- !app_assoc. }
  rewrite Htext. apply words_spaced.
  - unfold signed. destruct rems as [|r rems]; [destruct adds; [done|]|]; cbn; done.
  - assert (Hsp : forall cs, Forall change_ok cs -> Forall (fun c => c <> " "%char) (letters_of cs)).
    { induction 1 as [|c cs (_ & _ & Hc & _) _ IH]; cbn; constructor; done. }
    unfold signed. rewrite !Forall_app. split_and!; try by apply Hsp.
    + destruct (letters_of rems); [done|by repeat constructor].
    + destruct (letters_of adds); [done|by repeat constructor].
  - assert (Haok : forall cs, Forall change_ok cs -> Forall word_ok (args_of cs)).
    { induction 1 as [|[a l [w|]] cs (_ & _ & _ & Hc) _ IH]; cbn; [constructor| |done]. constructor; [apply Hc|done]. }
    apply Forall_app. split; by apply Haok.
Qed.

(** The line printed for removals and additions is read back as these. *)
Lemma read_mode_text rems adds :
  Forall change_ok rems -> Forall change_ok adds ->
  Forall (fun c => ch_dir c = false) rems -> Forall (fun c => ch_dir c = true) adds -> rems ++ adds <> [] ->
  read_line (text_of rems adds) = Some (rems ++ adds).
Proof.
  intros Hr Ha Hdr Hda Hne. unfold read_line. rewrite words_mode_text by done. unfold signed.
  rewrite (read_signed false rems _ true (args_of adds)) by done.
  pose proof (read_signed true adds [] (if rems is [] then true else false) [] Ha Hda) as E. rewrite !app_nil_r in E.
  rewrite E. cbn. by rewrite app_nil_r.
Qed.

(** ** What a buffer says *)
Section flush.
Context (cli_name NumNick : positive -> cstring).
Implicit Types (m : modearg) (l : list modearg) (ch : mchan) (mb : ModeBuf).

(** The types the parser uses: a direction, one mode, and whether the string
    is to be freed. *)
Definition arg_modes : list Z := [MODE_CHANOP; MODE_VOICE; MODE_BAN; MODE_KEY; MODE_APASS; MODE_UPASS; MODE_LIMIT].

Definition type_of (add : bool) (f : Z) (free : bool) : Z :=
  Z.lor (Z.lor (if add then MODE_ADD else MODE_DEL) f) (if free then MODE_FREE else 0).

Definition arg_ok m : Prop :=
  (exists add f free, f ∈ arg_modes /\ mb_type m = type_of add f free /\ (f = MODE_LIMIT -> add = true)) /\
  match kind_of (mb_type m), mb_arg m with
  | KClient, AClient c => word_ok (NumNick c) /\ 0 <= mb_oplevel m
  | KString, AString s | KKey, AString s => word_ok s
  | KLimit, AUint n => 0 <= n
  | _, _ => False
  end.

Definition is_add m : bool := bit (mb_type m) MODE_ADD.

Definition param m : cstring :=
  match kind_of (mb_type m) with
  | KClient =>
      NumNick (client_of (mb_arg m)) ++
      (if bit (mb_type m) MODE_CHANOP && (mb_oplevel m <? MAXOPLEVEL) then ":"%char :: decimal (mb_oplevel m) else [])
  | KString | KKey => string_of (mb_arg m)
  | _ => decimal (uint_of (mb_arg m))
  end.

Definition change_of m : change := Change (is_add m) (letter_of (mb_type m)) (Some (param m)).

Definition simple_changes (add : bool) (a r : Z) : list change :=
  map (fun c => Change add c None) ((if add then fst else snd) (flag_letters simple_flags a r)).

Definition changes (mb : ModeBuf) : list change :=
  simple_changes false (mb_add mb) (mb_rem mb) ++ simple_changes true (mb_add mb) (mb_rem mb) ++
  map change_of (mb_modeargs mb).

(** Facts on the types, by enumeration. *)
Ltac all_types :=
  repeat match goal with
  | H : _ ∈ arg_modes |- _ => unfold arg_modes in H; rewrite ?elem_of_cons in H
  | H : _ \/ _ |- _ => destruct H as [H|H]
  | H : _ ∈ [] |- _ => by apply not_elem_of_nil in H
  | b : bool |- _ => destruct b
  end; subst.

Lemma type_facts add f free : f ∈ arg_modes -> (f = MODE_LIMIT -> add = true) ->
  let t := type_of add f free in
  bit t MODE_ADD = add /\ bit t MODE_SAVE = false /\ bit (Z.lor t MODE_SAVE) MODE_SAVE = true /\
  Z.ldiff (Z.lor t MODE_SAVE) MODE_SAVE = t /\ Z.ldiff t MODE_SAVE = t /\ kind_of t <> KNone /\
  takes_arg add (letter_of t) = true /\ letter_of t <> "+"%char /\ letter_of t <> "-"%char /\ letter_of t <> " "%char /\
  (kind_of t = KLimit -> bit t MODE_CHANOP = false).
Proof. intros Hf Hl. all_types; try (by specialize (Hl eq_refl)); vm_compute; repeat split; congruence. Qed.

Definition dest_ok (dest : Z) : Prop :=
  bit dest MODEBUF_DEST_SERVER = true /\ bit dest MODEBUF_DEST_OPMODE = false /\
  bit dest MODEBUF_DEST_BOUNCE = false /\ bit dest MODEBUF_DEST_DEOP = false.

Lemma server_arg_param dest lb m : arg_ok m -> bit dest MODEBUF_DEST_BOUNCE = false ->
  (kind_of (mb_type m) = KLimit -> lb = decimal (uint_of (mb_arg m))) ->
  server_arg NumNick dest lb m = Some (param m).
Proof.
  intros [(add & f & free & Hf & Ht & Hl) _] Hb Hlb. unfold server_arg, param. rewrite Hb. rewrite Ht in *. clear Ht.
  destruct (mb_oplevel m <? MAXOPLEVEL); all_types; try (by specialize (Hl eq_refl)); cbn; rewrite ?app_nil_r;
    try reflexivity; by rewrite Hlb.
Qed.

Lemma word_colon w n : word_ok w -> 0 <= n -> word_ok (w ++ ":"%char :: decimal n).
Proof.
  intros [Hne Hw] Hn. destruct (decimal_word n Hn) as [_ Hd]. split; [by destruct w|]. apply Forall_app. split; [done|].
  constructor; [done|done].
Qed.

Lemma change_of_ok m : arg_ok m -> change_ok (change_of m).
Proof.
  intros [(add & f & free & Hf & Ht & Hl) Hk]. pose proof (type_facts add f free Hf Hl) as Hall. cbv zeta in Hall.
  rewrite <- Ht in Hall. destruct Hall as (Ha & _ & _ & _ & _ & Hnone & Htk & H1 & H2 & H3 & _).
  unfold change_of, change_ok, is_add. cbn [ch_letter ch_arg ch_dir]. rewrite Ha. split_and!; try done.
  unfold param. destruct (kind_of (mb_type m)), (mb_arg m); try done; cbn [client_of string_of uint_of].
  - destruct Hk as [Hw Ho]. destruct (_ && _); [by apply word_colon|by rewrite app_nil_r].
  - by apply decimal_word.
Qed.

(** Which of the changes fit in the room, and which are kept. *)
Fixpoint fitted (dest : Z) (b : Z) l : list modearg * list modearg :=
  match l with
  | [] => ([], [])
  | m :: l =>
      if b - room_of cli_name dest m <=? 0 then let '(u, s) := fitted dest b l in (u, m :: s)
      else let '(u, s) := fitted dest (b - (room_of cli_name dest m + 1)) l in (m :: u, s)
  end.

Definition unsaved l : list modearg := List.filter (fun m => negb (bit (mb_type m) MODE_SAVE)) l.
Definition last_limit l (lb : cstring) : cstring :=
  fold_left (fun lb m => match kind_of (mb_type m) with KLimit => decimal (uint_of (mb_arg m)) | _ => lb end) l lb.
Definition adds_of l : list modearg := List.filter is_add l.
Definition dels_of l : list modearg := List.filter (fun m => negb (is_add m)) l.

Lemma with_type_id m t : t = mb_type m -> with_type t m = m.
Proof. intros ->. by destruct m. Qed.

Lemma arg_fold dest l : Forall arg_ok l -> forall st,
  let '(u, s) := fitted dest (budget st) l in
  let st' := fold_left (arg_letter cli_name dest) l st in
  addbuf st' = addbuf st ++ map (fun m => letter_of (mb_type m)) (adds_of u) /\
  rembuf st' = rembuf st ++ map (fun m => letter_of (mb_type m)) (dels_of u) /\
  limitbuf st' = last_limit l (limitbuf st) /\
  exists mk, marked st' = marked st ++ mk /\ unsaved mk = u /\ saved mk = s.
Proof.
  induction 1 as [|m l Hm _ IH]; intros st; cbn [fitted]; [cbn; rewrite !app_nil_r; split_and!; try done; exists []; by rewrite app_nil_r|].
  destruct Hm as [(add & f & free & Hf & Ht & Hl) _]. pose proof (type_facts add f free Hf Hl) as Hall. cbv zeta in Hall.
  rewrite <- Ht in Hall. destruct Hall as (Ha & Hs & Hs2 & Hs3 & _ & Hnone & _).
  set (lb := match kind_of (mb_type m) with KLimit => decimal (uint_of (mb_arg m)) | _ => limitbuf st end).
  cbn [fold_left]. destruct (budget st - room_of cli_name dest m <=? 0) eqn:Eb.
  - assert (Hstep : arg_letter cli_name dest st m =
      {| budget := budget st; addbuf := addbuf st; rembuf := rembuf st; limitbuf := lb;
         marked := marked st ++ [with_type (Z.lor (mb_type m) MODE_SAVE) m] |}).
    { unfold arg_letter. fold lb. rewrite Eb. by destruct (kind_of (mb_type m)). }
    rewrite Hstep. match goal with |- context [fold_left _ l ?st2] => specialize (IH st2) end. cbn [budget addbuf rembuf limitbuf marked] in IH.
    destruct (fitted dest (budget st) l) as [u s]. destruct IH as (H1 & H2 & H3 & mk & H4 & H5 & H6). split_and!; try done.
    exists (with_type (Z.lor (mb_type m) MODE_SAVE) m :: mk). rewrite H4, <- app_assoc. split; [done|]. unfold unsaved, saved in *.
    cbn [List.filter mb_type with_type]. rewrite Hs2. cbn [negb map]. split; [done|]. cbn [mb_type with_type]. rewrite Hs3, H6.
    f_equal. by destruct m.
  - assert (Hstep : arg_letter cli_name dest st m =
      {| budget := budget st - (room_of cli_name dest m + 1);
         addbuf := if bit (mb_type m) MODE_ADD then addbuf st ++ [letter_of (mb_type m)] else addbuf st;
         rembuf := if bit (mb_type m) MODE_ADD then rembuf st else rembuf st ++ [letter_of (mb_type m)]; limitbuf := lb;
         marked := marked st ++ [m] |}).
    { unfold arg_letter. fold lb. rewrite Eb. by destruct (kind_of (mb_type m)). }
    rewrite Hstep. match goal with |- context [fold_left _ l ?st2] => specialize (IH st2) end. cbn [budget addbuf rembuf limitbuf marked] in IH.
    destruct (fitted dest (budget st - (room_of cli_name dest m + 1)) l) as [u s].
    destruct IH as (H1 & H2 & H3 & mk & H4 & H5 & H6). unfold adds_of, dels_of, is_add in *. cbn [List.filter].
    split_and!.
    + rewrite H1. destruct (bit (mb_type m) MODE_ADD); cbn [map]; by rewrite <- ?app_assoc.
    + rewrite H2. destruct (bit (mb_type m) MODE_ADD); cbn [negb map]; by rewrite <- ?app_assoc.
    + done.
    + exists (m :: mk). rewrite H4, <- app_assoc. split; [done|]. unfold unsaved, saved in *. cbn [List.filter]. rewrite Hs. cbn [negb].
      by rewrite H5.
Qed.

Lemma build_args_spaced arg l :
  build_args arg l = (spaced (omap arg (adds_of (unsaved l))), spaced (omap arg (dels_of (unsaved l)))).
Proof.
  unfold build_args.
  assert (H : forall a r, fold_left (fun '(addstr, remstr) m =>
      if bit (mb_type m) MODE_SAVE then (addstr, remstr)
      else match arg m with
           | None => (addstr, remstr)
           | Some s => if bit (mb_type m) MODE_ADD then (build_string addstr s, remstr) else (addstr, build_string remstr s)
           end) l (a, r) =
    (a ++ spaced (omap arg (adds_of (unsaved l))), r ++ spaced (omap arg (dels_of (unsaved l))))).
  { induction l as [|m l IH]; intros a r; cbn [fold_left]; [cbn; by rewrite !app_nil_r|].
    unfold unsaved, adds_of, dels_of, is_add in *. cbn [List.filter].
    destruct (bit (mb_type m) MODE_SAVE); cbn [negb]; [apply IH|]. cbn [List.filter].
    destruct (arg m) as [s|] eqn:E, (bit (mb_type m) MODE_ADD); cbn [negb]; rewrite IH; cbn [omap list_omap]; rewrite ?E; try done;
      unfold build_string, spaced; cbn [map concat]; by rewrite <- !app_assoc. }
  apply (H [] []).
Qed.

Lemma omap_params dest lb l : Forall arg_ok l -> bit dest MODEBUF_DEST_BOUNCE = false ->
  (forall m, m ∈ l -> kind_of (mb_type m) = KLimit -> lb = decimal (uint_of (mb_arg m))) ->
  omap (server_arg NumNick dest lb) l = args_of (map change_of l).
Proof.
  intros Hl Hb Hlb. induction Hl as [|m l Hm _ IH]; [done|]. cbn [omap list_omap map args_of ch_arg change_of].
  rewrite (server_arg_param dest lb m Hm Hb) by (apply Hlb; left). f_equal. apply IH. intros x Hx. apply Hlb. by right.
Qed.

(** At most one limit is in a buffer, so its text is the one printed. *)
Definition one_limit l : Prop :=
  (length (List.filter (fun m => match kind_of (mb_type m) with KLimit => true | _ => false end) l) <= 1)%nat.

Lemma last_limit_none l lb :
  List.filter (fun m => match kind_of (mb_type m) with KLimit => true | _ => false end) l = [] -> last_limit l lb = lb.
Proof.
  revert lb. induction l as [|m l IH]; intros lb; [done|]. cbn [List.filter last_limit fold_left].
  destruct (kind_of (mb_type m)); try done; apply IH.
Qed.

Lemma last_limit_one l lb m : one_limit l -> m ∈ l -> kind_of (mb_type m) = KLimit ->
  last_limit l lb = decimal (uint_of (mb_arg m)).
Proof.
  unfold one_limit. revert lb. induction l as [|x l IH]; intros lb; [set_solver|]. cbn [List.filter last_limit fold_left].
  rewrite elem_of_cons. intros Hone [->|Hm] Hk.
  - rewrite Hk in Hone |- *. cbn [length] in Hone. apply last_limit_none. by apply nil_length_inv; lia.
  - destruct (kind_of (mb_type x)); try (by apply IH). exfalso. cbn [length] in Hone.
    assert (Hin : m ∈ List.filter (fun m => match kind_of (mb_type m) with KLimit => true | _ => false end) l).
    { apply list_elem_of_In, filter_In. split; [by apply list_elem_of_In|by rewrite Hk]. }
    destruct (List.filter _ l); [set_solver|cbn in Hone; lia].
Qed.

Lemma fitted_perm dest l : forall b, let '(u, s) := fitted dest b l in u ++ s ≡ₚ l.
Proof.
  induction l as [|m l IH]; intros b; cbn [fitted]; [done|]. destruct (b - room_of cli_name dest m <=? 0).
  - specialize (IH b). destruct (fitted dest b l) as [u s]. by rewrite <- Permutation_middle, IH.
  - specialize (IH (b - (room_of cli_name dest m + 1))). destruct (fitted _ _ l) as [u s]. cbn [app]. by rewrite IH.
Qed.

Definition letters_fit (a r : Z) l : Prop :=
  (length (simple_changes true a r) + length (adds_of l) <= 19)%nat /\
  (length (simple_changes false a r) + length (dels_of l) <= 19)%nat.

Definition server_lines mb : list cstring := omap (fun o => match o with ToServers t _ => Some t | _ => None end) (mb_out mb).

Definition rems_of (a r : Z) u : list change := simple_changes false a r ++ map change_of (dels_of u).
Definition adds_to (a r : Z) u : list change := simple_changes true a r ++ map change_of (adds_of u).

Definition mode_line (a r : Z) u : cstring :=
  mode_text (letters_of (rems_of a r u)) (letters_of (adds_to a r u))
    (spaced (args_of (rems_of a r u))) (spaced (args_of (adds_to a r u))).

Lemma simple_letters add a r :
  letters_of (simple_changes add a r) = (if add then fst else snd) (flag_letters simple_flags a r) /\
  args_of (simple_changes add a r) = [].
Proof.
  unfold simple_changes. induction ((if add then fst else snd) (flag_letters simple_flags a r)) as [|c l IH]; [done|].
  destruct IH as [IH1 IH2]. cbn [map letters_of args_of omap list_omap ch_arg ch_letter]. split; [|done].
  f_equal. exact IH1.
Qed.

Lemma filter_incl {A} (f : A -> bool) (l : list A) x : x ∈ List.filter f l -> x ∈ l.
Proof. intros H. apply list_elem_of_In in H. apply filter_In in H as [H _]. by apply list_elem_of_In. Qed.

Lemma flush_lines_spec ch mb :
  let '(u, s) := fitted (mb_dest mb) 312 (mb_modeargs mb) in
  dest_ok (mb_dest mb) -> Forall arg_ok (mb_modeargs mb) -> one_limit (mb_modeargs mb) ->
  letters_fit (mb_add mb) (mb_rem mb) u ->
  exists mb', flush_lines cli_name NumNick ch mb = Some mb' /\ mb_add mb' = 0 /\ mb_rem mb' = 0 /\
    mb_modeargs mb' = s /\ mb_dest mb' = mb_dest mb /\
    server_lines mb' = server_lines mb ++ [mode_line (mb_add mb) (mb_rem mb) u].
Proof.
  pose proof (fitted_perm (mb_dest mb) (mb_modeargs mb) 312) as Hp.
  pose proof (arg_fold (mb_dest mb) (mb_modeargs mb)) as Hfold.
  destruct (fitted (mb_dest mb) 312 (mb_modeargs mb)) as [u s] eqn:Ef. intros (Hs & Ho & Hb & Hd) Hok Hone [Hfa Hfr].
  set (a := mb_add mb) in *. set (r := mb_rem mb) in *. set (dest := mb_dest mb) in *.
  destruct (simple_letters true a r) as [Lt At]. destruct (simple_letters false a r) as [Lf Af].
  unfold flush_lines. fold a r dest. rewrite Hd.
  destruct (flag_letters simple_flags a r) as [sa sr] eqn:Esf. cbn [fst snd] in Lt, Lf.
  destruct (flag_letters local_flags a r) as [la lr].
  specialize (Hfold Hok {| budget := 312; addbuf := sa; rembuf := sr; limitbuf := []; marked := [] |}).
  cbn [budget addbuf rembuf limitbuf marked] in Hfold. rewrite Ef in Hfold.
  change (BUFSIZE - 200 - 0) with 312. destruct Hfold as (H1 & H2 & H3 & mk & H4 & H5 & H6).
  cbv zeta. rewrite H1, H2, H3, H4. cbn [app].
  assert (Hla : (length (sa ++ map (fun m => letter_of (mb_type m)) (adds_of u)) <=? 19)%nat = true).
  { apply Nat.leb_le. rewrite length_app, length_map, <- Lt. unfold letters_of. by rewrite length_map. }
  assert (Hlr : (length (sr ++ map (fun m => letter_of (mb_type m)) (dels_of u)) <=? 19)%nat = true).
  { apply Nat.leb_le. rewrite length_app, length_map, <- Lf. unfold letters_of. by rewrite length_map. }
  unfold letterbuf_ok. rewrite Hla, Hlr. cbn [andb negb].
  destruct (build_args (shown_arg cli_name dest (last_limit (mb_modeargs mb) [])) mk) as [sh1 sh2].
  rewrite Hs. cbn [negb]. rewrite build_args_spaced, H5, Ho, Hb. cbn [negb]. rewrite ?Hla. cbn [negb].
  assert (Hu : forall m, m ∈ u -> m ∈ mb_modeargs mb) by (intros m Hm; rewrite <- Hp; set_solver).
  assert (Hoku : forall f, Forall arg_ok (List.filter f u)).
  { intros f. rewrite Forall_forall in Hok |- *. intros m Hm. apply Hok, Hu. by apply filter_incl in Hm. }
  assert (Hlb : forall f m, m ∈ List.filter f u -> kind_of (mb_type m) = KLimit ->
            last_limit (mb_modeargs mb) [] = decimal (uint_of (mb_arg m))).
  { intros f m Hm. apply last_limit_one; [done|]. apply Hu. by apply filter_incl in Hm. }
  rewrite !(omap_params dest) by (done || apply Hoku || apply Hlb).
  eexists. split; [done|]. cbn [mb_add mb_rem mb_modeargs mb_dest with_flags with_args add_out with_dest]. split_and!; try done.
  - apply Z.bits_inj'. intros k Hk. unfold bit, MODEBUF_DEST_DEOP in Hd. apply negb_false_iff, Z.eqb_eq in Hd.
    rewrite Z.ldiff_spec. pose proof (f_equal (fun z => Z.testbit z k) Hd) as Hk'. cbn in Hk'. rewrite Z.land_spec, Z.bits_0 in Hk'.
    unfold MODEBUF_DEST_DEOP. destruct (Z.testbit dest k), (Z.testbit 512 k); done.
  - match goal with |- context [add_out ?sh mb] => set (shown := sh) end.
    assert (Hsh : omap (fun o => match o with ToServers t _ => Some t | _ => None end) shown = []).
    { unfold shown. by destruct (bit dest MODEBUF_DEST_HACK2), (bit dest MODEBUF_DEST_HACK3), (bit dest MODEBUF_DEST_HACK4),
        (bit dest MODEBUF_DEST_LOG), (bit dest MODEBUF_DEST_CHANNEL). }
    unfold server_lines. cbn [mb_out with_flags with_args add_out with_dest]. rewrite !omap_app, Hsh, app_nil_r.
    cbn [omap list_omap]. do 2 f_equal.
    unfold mode_line, rems_of, adds_to. unfold letters_of, args_of in *. rewrite !map_app, !omap_app, Lt, Lf, At, Af, !map_map. done.
Qed.

Lemma simple_ok add a r : bit a MODE_LIMIT = false -> Forall change_ok (simple_changes add a r).
Proof.
  intros Hl. unfold simple_changes, flag_letters. apply Forall_map, Forall_forall. intros c Hc.
  assert (Hin : exists f, In (f, c) simple_flags /\ (add = true -> bit a f = true)).
  { destruct add; cbn [fst snd] in Hc; apply list_elem_of_fmap in Hc as ((f & c') & -> & Hc);
      apply list_elem_of_In, filter_In in Hc as [Hc Hb]; exists f; split; try done. }
  destruct Hin as (f & Hf & Hb). unfold simple_flags in Hf. cbn in Hf.
  repeat (destruct Hf as [[= <- <-]|Hf]; [unfold change_ok; destruct add; vm_compute; try (repeat split; congruence);
    exfalso; specialize (Hb eq_refl); unfold MODE_LIMIT in *; congruence|]). done.
Qed.

Lemma simple_dir add a r : Forall (fun c => ch_dir c = add) (simple_changes add a r).
Proof. unfold simple_changes. by apply Forall_map, Forall_forall. Qed.

Lemma read_line_of a r u : bit a MODE_LIMIT = false -> Forall arg_ok u ->
  read_line (mode_line a r u) = Some (rems_of a r u ++ adds_to a r u).
Proof.
  intros Hl Hu. assert (Hc : forall f, Forall change_ok (map change_of (List.filter f u))).
  { intros f. apply Forall_map, Forall_forall. intros m Hm. apply change_of_ok. rewrite Forall_forall in Hu. apply Hu.
    by apply filter_incl in Hm. }
  assert (Hd : Forall (fun c => ch_dir c = false) (rems_of a r u)).
  { apply Forall_app. split; [apply simple_dir|]. apply Forall_map, Forall_forall. intros m Hm.
    apply list_elem_of_In, filter_In in Hm as [_ Hm]. by apply negb_true_iff in Hm. }
  assert (Ha : Forall (fun c => ch_dir c = true) (adds_to a r u)).
  { apply Forall_app. split; [apply simple_dir|]. apply Forall_map, Forall_forall. intros m Hm.
    apply list_elem_of_In, filter_In in Hm as [_ Hm]. done. }
  destruct (decide (rems_of a r u ++ adds_to a r u = [])) as [E|E].
  - unfold mode_line. rewrite E. apply app_eq_nil in E as [-> ->]. reflexivity.
  - apply read_mode_text; try done; apply Forall_app; split; (apply Hc || by apply simple_ok).
Qed.

(** Bits that are not those of a mask. *)
Lemma bit_lor a w f : Z.land w f = 0 -> bit (Z.lor a w) f = bit a f.
Proof. intros Hw. unfold bit. by rewrite Z.land_lor_distr_l, Hw, Z.lor_0_r. Qed.

Lemma bit_ldiff a w f : Z.land w f = 0 -> bit (Z.ldiff a w) f = bit a f.
Proof.
  intros Hw. unfold bit. do 2 f_equal. apply Z.bits_inj'. intros k Hk. rewrite !Z.land_spec, Z.ldiff_spec.
  pose proof (f_equal (fun z => Z.testbit z k) Hw) as Hk'. cbn in Hk'. rewrite Z.land_spec, Z.bits_0 in Hk'.
  by destruct (Z.testbit a k), (Z.testbit w k), (Z.testbit f k).
Qed.

Lemma flag_ext table a a' r r' :
  Forall (fun f => bit a' (fst f) = bit a (fst f) /\ bit r' (fst f) = bit r (fst f)) table ->
  flag_letters table a' r' = flag_letters table a r.
Proof.
  intros H. unfold flag_letters. induction H as [|f table [Ha Hr] _ IH]; [done|]. cbn [List.filter]. rewrite Ha, Hr.
  injection IH as IH1 IH2. destruct (bit a (fst f)), (bit r (fst f)); cbn [negb andb map]; f_equal; congruence.
Qed.

Lemma simple_flags_other : Forall (fun f : Z * ascii => Z.land MODE_WASDELJOINS (fst f) = 0) simple_flags.
Proof. repeat constructor. Qed.

Lemma adjust_facts ch mb :
  let mb' := snd (adjust_delayed ch mb) in
  mb_modeargs mb' = mb_modeargs mb /\ mb_dest mb' = mb_dest mb /\ mb_out mb' = mb_out mb /\
  (forall add, simple_changes add (mb_add mb') (mb_rem mb') = simple_changes add (mb_add mb) (mb_rem mb)) /\
  bit (mb_add mb') MODE_LIMIT = bit (mb_add mb) MODE_LIMIT.
Proof.
  assert (Hany : forall a' r' a r, (a' = a \/ a' = Z.lor a MODE_WASDELJOINS \/ a' = Z.ldiff a MODE_WASDELJOINS) ->
    (r' = r \/ r' = Z.lor r MODE_WASDELJOINS \/ r' = Z.ldiff r MODE_WASDELJOINS) ->
    (forall add, simple_changes add a' r' = simple_changes add a r) /\ bit a' MODE_LIMIT = bit a MODE_LIMIT).
  { intros a' r' a r Ha Hr. assert (Hb : forall f, Z.land MODE_WASDELJOINS f = 0 -> bit a' f = bit a f /\ bit r' f = bit r f).
    { intros f Hf. destruct Ha as [->|[->| ->]], Hr as [->|[->| ->]]; rewrite ?bit_lor, ?bit_ldiff by done; done. }
    split; [|by apply Hb]. intros add. unfold simple_changes. rewrite (flag_ext simple_flags a a' r r'); [done|].
    eapply Forall_impl; [apply simple_flags_other|]. intros f Hf. by apply Hb. }
  unfold adjust_delayed.
  destruct (bit (mb_rem mb) MODE_DELJOINS && negb (bit (mode (mc_mode ch)) (Z.lor MODE_DELJOINS MODE_WASDELJOINS)) && find_delayed ch).
  - cbn [mb_add mb_rem with_flags]. match goal with |- context [if ?c then _ else _] => destruct c end; cbn [snd mb_modeargs mb_dest mb_out mb_add mb_rem with_flags];
      (split; [done|split; [done|split; [done|]]]).
    + destruct (Hany (Z.ldiff (Z.lor (mb_add mb) MODE_WASDELJOINS) MODE_WASDELJOINS) (Z.lor (Z.ldiff (mb_rem mb) MODE_WASDELJOINS) MODE_WASDELJOINS)
        (Z.lor (mb_add mb) MODE_WASDELJOINS) (Z.ldiff (mb_rem mb) MODE_WASDELJOINS)) as [H1 H2]; [auto..|].
      destruct (Hany (Z.lor (mb_add mb) MODE_WASDELJOINS) (Z.ldiff (mb_rem mb) MODE_WASDELJOINS) (mb_add mb) (mb_rem mb)) as [H3 H4]; [auto..|].
      split; [intros add; by rewrite H1, H3|by rewrite H2, H4].
    + apply Hany; auto.
  - match goal with |- context [if ?c then _ else _] => destruct c end; cbn [snd mb_modeargs mb_dest mb_out mb_add mb_rem with_flags];
      (split; [done|split; [done|split; [done|]]]); apply Hany; auto.
Qed.

Record mb_ok mb : Prop := {
  o_dest : dest_ok (mb_dest mb);
  o_args : Forall arg_ok (mb_modeargs mb);
  o_limit : one_limit (mb_modeargs mb);
  o_flag : bit (mb_add mb) MODE_LIMIT = false;
  o_letters : letters_fit (mb_add mb) (mb_rem mb) (mb_modeargs mb);
  o_room : Forall (fun m => room_of cli_name (mb_dest mb) m < 312) (mb_modeargs mb)
}.

Lemma filter_perm {A} (f : A -> bool) (l l' : list A) : l ≡ₚ l' -> List.filter f l ≡ₚ List.filter f l'.
Proof.
  induction 1 as [|x l l' _ IH|x y l|l1 l2 l3 _ IH1 _ IH2]; cbn [List.filter]; [done| | |by rewrite IH1].
  - destruct (f x); by rewrite IH.
  - destruct (f x), (f y); try done. apply Permutation_swap.
Qed.

Lemma letters_part a r u s l : u ++ s ≡ₚ l -> letters_fit a r l -> letters_fit a r u.
Proof.
  intros Hp [H1 H2]. unfold letters_fit, adds_of, dels_of in *.
  rewrite <- (filter_perm is_add _ _ Hp), List.filter_app, length_app in H1.
  rewrite <- (filter_perm (fun m => negb (is_add m)) _ _ Hp), List.filter_app, length_app in H2. lia.
Qed.

Lemma one_limit_part u s l : u ++ s ≡ₚ l -> one_limit l -> one_limit s.
Proof. intros Hp H1. unfold one_limit in *. rewrite <- (filter_perm _ _ _ Hp), List.filter_app, length_app in H1. lia. Qed.

Lemma no_simple add : simple_changes add 0 0 = [].
Proof. by destruct add. Qed.

(** The first change always fits. *)
Lemma fitted_first dest l : Forall (fun m => room_of cli_name dest m < 312) l ->
  let '(u, s) := fitted dest 312 l in (length s <= pred (length l))%nat.
Proof.
  destruct 1 as [|m l Hm _]; cbn [fitted]; [done|]. rewrite (proj2 (Z.leb_gt (312 - room_of cli_name dest m) 0)) by lia.
  pose proof (fitted_perm dest l (312 - (room_of cli_name dest m + 1))) as Hp. destruct (fitted _ _ l) as [u s].
  apply Permutation_length in Hp. rewrite length_app in Hp. cbn [length pred]. lia.
Qed.

Definition said (ls : list cstring) (cs : list change) : Prop :=
  exists css, Forall2 (fun x c => read_line x = Some c) ls css /\ concat css ≡ₚ cs.

Lemma add_del_perm l : map change_of (dels_of l) ++ map change_of (adds_of l) ≡ₚ map change_of l.
Proof.
  induction l as [|m l IH]; [done|]. unfold dels_of, adds_of in *. cbn [List.filter map].
  destruct (is_add m); cbn [negb map]; [by rewrite <- Permutation_middle, IH|]. cbn [app]. by rewrite IH.
Qed.

Lemma line_changes a r u s l : u ++ s ≡ₚ l ->
  (rems_of a r u ++ adds_to a r u) ++ map change_of s ≡ₚ
  simple_changes false a r ++ simple_changes true a r ++ map change_of l.
Proof.
  intros Hp. rewrite <- Hp, map_app, <- (add_del_perm u). unfold rems_of, adds_to. rewrite <- !app_assoc. apply Permutation_app_head.
  rewrite !(app_assoc _ (simple_changes true a r)), (Permutation_app_comm (map change_of (dels_of u)) (simple_changes true a r)).
  by rewrite <- !app_assoc.
Qed.

Lemma flush_int_spec n : forall ch mb, mb_ok mb -> (length (mb_modeargs mb) < n)%nat ->
  exists ch' mb' ls, modebuf_flush_int cli_name NumNick n true ch mb = Some (ch', mb') /\
    mb_add mb' = 0 /\ mb_rem mb' = 0 /\ mb_modeargs mb' = [] /\ mb_dest mb' = mb_dest mb /\
    server_lines mb' = server_lines mb ++ ls /\ said ls (changes mb).
Proof.
  induction n as [|n IH]; intros ch mb Hok Hn; [lia|]. cbn [modebuf_flush_int].
  destruct ((mb_add mb =? 0) && (mb_rem mb =? 0) && (length (mb_modeargs mb) =? 0)%nat) eqn:E.
  - apply andb_prop in E as [E E3]. apply andb_prop in E as [E1 E2]. apply Z.eqb_eq in E1, E2. apply Nat.eqb_eq, nil_length_inv in E3.
    exists ch, mb, []. rewrite app_nil_r. split_and!; try done. exists []. split; [constructor|].
    unfold changes. rewrite E1, E2, E3, !no_simple. done.
  - pose proof (adjust_facts ch mb) as Ha. destruct (adjust_delayed ch mb) as [ch1 mb1]. cbv zeta in Ha. cbn [snd] in Ha.
    destruct Ha as (Ha1 & Ha2 & Ha3 & Ha4 & Ha5). destruct Hok as [Hd Hargs Hone Hfl Hlet Hroom].
    pose proof (flush_lines_spec ch1 mb1) as Hf. rewrite Ha1, Ha2 in Hf.
    pose proof (fitted_perm (mb_dest mb) (mb_modeargs mb) 312) as Hp. pose proof (fitted_first (mb_dest mb) (mb_modeargs mb) Hroom) as Hlen.
    destruct (fitted (mb_dest mb) 312 (mb_modeargs mb)) as [u s].
    destruct (Hf Hd Hargs Hone) as (mb2 & Hfl2 & H1 & H2 & H3 & H4 & H5).
    { unfold letters_fit. rewrite !Ha4. apply (letters_part _ _ u s (mb_modeargs mb)); done. }
    rewrite Hfl2. cbn [mbind option_bind].
    assert (Hline : read_line (mode_line (mb_add mb1) (mb_rem mb1) u) = Some (rems_of (mb_add mb) (mb_rem mb) u ++ adds_to (mb_add mb) (mb_rem mb) u)).
    { rewrite read_line_of; [|by rewrite Ha5|].
      - unfold rems_of, adds_to. by rewrite !Ha4.
      - rewrite Forall_forall in Hargs |- *. intros m Hm. apply Hargs. rewrite <- Hp. set_solver. }
    assert (Hsl : server_lines mb1 = server_lines mb) by (unfold server_lines; by rewrite Ha3).
    pose proof (line_changes (mb_add mb) (mb_rem mb) u s (mb_modeargs mb) Hp) as Hperm.
    rewrite H3. destruct (length s =? 0)%nat eqn:Es; cbn [negb andb].
    + apply Nat.eqb_eq, nil_length_inv in Es. rewrite Es in H3, Hperm. exists ch1, mb2, [mode_line (mb_add mb1) (mb_rem mb1) u].
      split; [done|]. rewrite H5, Hsl. split_and!; try done. exists [rems_of (mb_add mb) (mb_rem mb) u ++ adds_to (mb_add mb) (mb_rem mb) u].
      split; [by repeat constructor|]. cbn [concat map] in *. unfold changes. exact Hperm.
    + destruct (IH ch1 mb2) as (ch' & mb' & ls & Hrun & K1 & K2 & K3 & K4 & K5 & css & Hcss & Hcp).
      { constructor; rewrite ?H1, ?H2, ?H3, ?H4, ?Ha2; try done.
        - rewrite Forall_forall in Hargs |- *. intros m Hm. apply Hargs. rewrite <- Hp. set_solver.
        - by apply (one_limit_part u s (mb_modeargs mb)).
        - apply (letters_part _ _ s u (mb_modeargs mb)); [by rewrite Permutation_app_comm|]. destruct Hlet. split; rewrite no_simple; cbn [length]; lia.
        - rewrite Forall_forall in Hroom |- *. intros m Hm. apply Hroom. rewrite <- Hp. set_solver. }
      { rewrite H3. apply Nat.eqb_neq in Es. lia. }
      exists ch', mb', (mode_line (mb_add mb1) (mb_rem mb1) u :: ls). split; [done|]. split_and!; try done; [congruence|rewrite K5, H5, Hsl, <- app_assoc; done|].
      exists ((rems_of (mb_add mb) (mb_rem mb) u ++ adds_to (mb_add mb) (mb_rem mb) u) :: css). split; [by constructor|].
      cbn [concat]. rewrite Hcp. unfold changes at 1. rewrite H1, H2, H3, !no_simple. exact Hperm.
Qed.

(** *** The buffers of the arguments *)
Definition rooms (dest : Z) l : Z := foldr (fun m z => room_of cli_name dest m + 1 + z) 0 l.

Lemma fitted_rooms dest l : Forall (fun m => 0 <= room_of cli_name dest m) l -> forall b, 0 <= b ->
  rooms dest (fst (fitted dest b l)) <= b.
Proof.
  induction 1 as [|m l Hm Hl IH]; intros b Hb; cbn [fitted]; [cbn; lia|].
  destruct (Z.leb_spec (b - room_of cli_name dest m) 0) as [Hle|Hlt].
  - specialize (IH b Hb). by destruct (fitted dest b l).
  - specialize (IH (b - (room_of cli_name dest m + 1)) ltac:(lia)). destruct (fitted _ _ l) as [u s]. cbn [fst] in *.
    change (rooms dest (m :: u)) with (room_of cli_name dest m + 1 + rooms dest u). lia.
Qed.

Lemma decimal_short n : 0 <= n < MAXOPLEVEL -> (length (decimal n) <= 3)%nat.
Proof.
  intros Hn. assert (H : forallb (fun k => (length (decimal (Z.of_nat k)) <=? 3)%nat) (seq 0 999) = true) by (vm_compute; reflexivity).
  rewrite forallb_forall in H. specialize (H (Z.to_nat n)). rewrite Z2Nat.id in H by lia. apply Nat.leb_le, H, in_seq.
  unfold MAXOPLEVEL in Hn. lia.
Qed.

Lemma param_room dest m : arg_ok m -> bit dest MODEBUF_DEST_NOKEY = false -> (forall c, (length (NumNick c) <= 5)%nat) ->
  Z.of_nat (length (param m)) <= room_of cli_name dest m.
Proof.
  intros [_ Hk] Hnk Hnn. unfold param, room_of. rewrite Hnk.
  destruct (kind_of (mb_type m)), (mb_arg m) as [n|s|c]; try done; cbn [client_of string_of uint_of]; try lia.
  rewrite length_app. specialize (Hnn c). destruct (bit (mb_type m) MODE_CHANOP && (mb_oplevel m <? MAXOPLEVEL)) eqn:E; cbn [length]; [|lia].
  apply andb_prop in E as [_ E]. apply Z.ltb_lt in E. pose proof (decimal_short (mb_oplevel m) ltac:(lia)). lia.
Qed.

(** C10: the arguments of a line for the servers stay in their buffers.  For a
    buffer as in C9, of which the keys are not hidden, with numerics of at most
    five characters: of its changes those that are printed in one line, with
    the separators, take at most 312 characters as they are printed for the
    servers, so neither [addstr] nor [remstr], of 512 bytes, is overrun; and
    the line is sent.  That the letters fit in their buffers, of 20 bytes, is
    a hypothesis, which the code does not check. *)
Theorem flush_args_fit mb (u := fst (fitted (mb_dest mb) 312 (mb_modeargs mb))) ch :
  dest_ok (mb_dest mb) -> bit (mb_dest mb) MODEBUF_DEST_NOKEY = false -> (forall c, (length (NumNick c) <= 5)%nat) ->
  Forall arg_ok (mb_modeargs mb) -> one_limit (mb_modeargs mb) -> letters_fit (mb_add mb) (mb_rem mb) u ->
  Z.of_nat (length (spaced (map param (adds_of u))) + length (spaced (map param (dels_of u)))) <= 312 < BUFSIZE /\
  exists mb', flush_lines cli_name NumNick ch mb = Some mb' /\
    server_lines mb' = server_lines mb ++ [mode_line (mb_add mb) (mb_rem mb) u].
Proof.
  intros Hd Hnk Hnn Hargs Hone Hlet. split.
  - assert (Hpos : Forall (fun m => 0 <= room_of cli_name (mb_dest mb) m) (mb_modeargs mb)).
    { eapply Forall_impl; [exact Hargs|]. intros m Hm. pose proof (param_room (mb_dest mb) m Hm Hnk Hnn). lia. }
    pose proof (fitted_rooms (mb_dest mb) (mb_modeargs mb) Hpos 312 ltac:(lia)) as Hr.
    pose proof (fitted_perm (mb_dest mb) (mb_modeargs mb) 312) as Hp. fold u in Hr.
    assert (Hu : Forall arg_ok u).
    { rewrite Forall_forall in Hargs |- *. intros m Hm. apply Hargs. destruct (fitted _ _ _) as [u' s] eqn:E. cbn [fst] in u. subst u.
      rewrite <- Hp. set_solver. }
    split; [|done]. etrans; [|exact Hr]. clear Hr Hp Hlet.
    induction Hu as [|m l Hm _ IH]; [done|]. unfold adds_of, dels_of in *. cbn [List.filter].
    change (rooms (mb_dest mb) (m :: l)) with (room_of cli_name (mb_dest mb) m + 1 + rooms (mb_dest mb) l).
    pose proof (param_room (mb_dest mb) m Hm Hnk Hnn). destruct (is_add m); cbn [negb]; unfold spaced in *; cbn [map concat];
      rewrite length_app; cbn [length]; lia.
  - pose proof (flush_lines_spec ch mb) as H. destruct (fitted (mb_dest mb) 312 (mb_modeargs mb)) as [u' s] eqn:E. cbn [fst] in u. subst u.
    destruct (H Hd Hargs Hone Hlet) as (mb' & H1 & _ & _ & _ & _ & H2). by exists mb'.
Qed.

(** C9: nothing is lost in the buffer of modes.  Take a buffer bound for the
    servers, and not for a bounce, a server's OPMODE or the deop of somebody,
    with at most six changes with an argument, each argument a word that
    takes, as it is counted, less than 312 characters, at most one limit among
    them, and in each direction no more than nineteen letters in all: with
    more the code writes past its buffers of letters.  Flushing it ends, with
    the buffer empty, and the lines it sends, read one letter and one argument
    at a time, are the changes that were in the buffer: each of them once,
    with its argument, and no other, however they are spread over lines by the
    room there is. *)
Theorem flush_roundtrip ch mb : mb_ok mb -> (length (mb_modeargs mb) <= 6)%nat ->
  exists ch' mb' ls, modebuf_flush cli_name NumNick ch mb = Some (ch', mb') /\
    mb_add mb' = 0 /\ mb_rem mb' = 0 /\ mb_modeargs mb' = [] /\
    server_lines mb' = server_lines mb ++ ls /\ said ls (changes mb).
Proof.
  intros Hok Hn. destruct (flush_int_spec flush_fuel ch mb Hok) as (ch' & mb' & ls & H & H1 & H2 & H3 & _ & H4 & H5).
  { unfold flush_fuel. lia. }
  by exists ch', mb', ls.
Qed.
End flush.

(** ** Examples *)
Definition ex_nick (c : positive) : cstring := str "nick".
Definition ex_num (c : positive) : cstring := str "ABAA" ++ [chr (64 + Zpos c)].

Definition ex_mchan : mchan :=
  {| mc_name := str "#irc"; mc_time := 1000; mc_mode := {| mode := 0; limit := 0; key := []; upass := []; apass := [] |};
     mc_members := []; mc_bans := []; mc_pool := {| free_bans := 0; bans_alloc := 0; bans_inuse := 0 |}; mc_invites := [] |}.

Definition ex_arg (add : bool) (f : Z) (a : mode_arg) : modearg := {| mb_type := type_of add f false; mb_arg := a; mb_oplevel := 1000 |}.

Definition ex_buf (a r : Z) (l : list modearg) : ModeBuf :=
  with_args l (with_flags a r (modebuf_init 1 ex_mchan (Z.lor MODEBUF_DEST_CHANNEL MODEBUF_DEST_SERVER))).

Definition ex_mb : ModeBuf :=
  ex_buf (Z.lor MODE_MODERATED MODE_NOPRIVMSGS) MODE_LIMIT
    [ex_arg true MODE_CHANOP (AClient 2); ex_arg false MODE_VOICE (AClient 3); ex_arg true MODE_KEY (AString (str "secret"))].

Example flush_ex : (fun r => mb_out (snd r)) <$> modebuf_flush ex_nick ex_num ex_mchan ex_mb =
  Some [ToChannel (str "-lv+mnok nick nick secret"); ToServers (str "-lv+mnok ABAAC ABAAB secret") 1000].
Proof. vm_compute. reflexivity. Qed.

Lemma ex_mb_ok : mb_ok ex_nick ex_num ex_mb.
Proof.
  assert (Hw : forall s, bool_decide (s <> [] /\ Forall (fun c => c <> " "%char /\ c <> LF /\ c <> CR /\ c <> NUL) s) = true -> word_ok s)
    by apply word_ok_dec_ok.
  assert (Ht : forall add f a, f ∈ arg_modes -> (f = MODE_LIMIT -> add = true) ->
    exists add0 f0 free, f0 ∈ arg_modes /\ mb_type (ex_arg add f a) = type_of add0 f0 free /\ (f0 = MODE_LIMIT -> add0 = true)).
  { intros add f a Hf Hl. by exists add, f, false. }
  constructor.
  - vm_compute. done.
  - apply Forall_cons_2; [|apply Forall_cons_2; [|apply Forall_cons_2; [|apply Forall_nil_2]]];
      (split; [apply Ht; [set_solver|done]|]); cbv -[word_ok Z.le]; [split; [|done]|split; [|done]|]; apply Hw; reflexivity.
  - vm_compute. lia.
  - done.
  - vm_compute. lia.
  - repeat constructor.
Qed.

Lemma flush_roundtrip_witness :
  exists ch' mb' ls, modebuf_flush ex_nick ex_num ex_mchan ex_mb = Some (ch', mb') /\
    server_lines mb' = server_lines ex_mb ++ ls /\ said ls (changes ex_num ex_mb).
Proof.
  destruct (flush_roundtrip ex_nick ex_num ex_mchan ex_mb ex_mb_ok) as (ch' & mb' & ls & H & _ & _ & _ & H1 & H2).
  - cbn. lia.
  - exists ch', mb', ls. split; [exact H|]. split; [exact H1|exact H2].
Defined.

Lemma flush_args_fit_witness :
  exists mb', flush_lines ex_nick ex_num ex_mchan ex_mb = Some mb'.
Proof.
  destruct ex_mb_ok as [H1 H2 H3 _ H5 _].
  destruct (flush_args_fit ex_nick ex_num ex_mb ex_mchan H1 eq_refl ltac:(intros c; cbn; lia) H2 H3 ltac:(vm_compute; lia)) as [_ (mb' & H & _)].
  exists mb'. exact H.
Defined.

(** Fourteen modes that an operator of a channel on a secure connection may
    set, with six arguments, are one letter too many for [addbuf]. *)
Definition many_modes : Z :=
  fold_left Z.lor [MODE_SECRET; MODE_MODERATED; MODE_TOPICLIMIT; MODE_INVITEONLY; MODE_NOPRIVMSGS; MODE_DELJOINS; MODE_REGONLY;
    MODE_NOCOLOR; MODE_NOCTCP; MODE_MODERATENOREG; MODE_NONOTICE; MODE_MSGNONWEB; MODE_NOQUITPARTS; MODE_SSLONLY] 0.

Example letters_overrun :
  modebuf_flush ex_nick ex_num ex_mchan (ex_buf many_modes 0 (repeat (ex_arg true MODE_VOICE (AClient 2)) 6)) = None.
Proof. vm_compute. reflexivity. Qed.

(** A bounced removal of a limit is a limit to be set without its number: the
    other server takes the time that ends the line for it. *)
Example bounced_limit :
  (ch_mb ← modebuf_mode_uint ex_nick ex_num (Z.lor MODE_LIMIT MODE_DEL) 10 ex_mchan
             (modebuf_init 1 ex_mchan (Z.lor MODEBUF_DEST_SERVER MODEBUF_DEST_BOUNCE));
   mb_out ∘ snd <$> modebuf_flush ex_nick ex_num (fst ch_mb) (snd ch_mb)) = Some [ToBounce (str "+l") 1000].
Proof. vm_compute. reflexivity. Qed.
