(* ===== verification/Modes.v ===== *)
(** * Changing the modes of a channel ([mode_parse] of [ircd/channel.c], [m_mode.c])

    [mode_parse] reads a line of modes - from a user or from a server - changes
    the channel as the line says and the source may, and puts each change in a
    buffer ([Modebuf]), which [m_mode] and [ms_mode] flush.  A user who may not
    change the modes changes nothing ([mode_needs_op]), and no line breaks the
    type of the modes of a channel ([mode_line_ok]; that every line gets to its
    end is in [Modetype]). *)
From S2P Require Import Prelude Chattr Strings Match Chain Members ChanTable IpText Bans Channel Ddb DdbFile Modebuf.
From stdpp Require Import options.
Local Open Scope Z_scope.
Local Open Scope ircd_scope.

Definition MODE_PARSE_SET : Z := 0x01.
Definition MODE_PARSE_STRICT : Z := 0x02.
Definition MODE_PARSE_FORCE : Z := 0x04.
Definition MODE_PARSE_BOUNCE : Z := 0x08.
Definition MODE_PARSE_NOTOPER : Z := 0x10.
Definition MODE_PARSE_NOTMEMBER : Z := 0x20.
Definition MODE_PARSE_WIPEOUT : Z := 0x40.
Definition MODE_PARSE_BURST : Z := 0x80.

Definition DONE_LIMIT : Z := 0x01.
Definition DONE_KEY_ADD : Z := 0x02.
Definition DONE_BANLIST : Z := 0x04.
Definition DONE_NOTOPER : Z := 0x08.
Definition DONE_BANCLEAN : Z := 0x10.
Definition DONE_UPASS_ADD : Z := 0x20.
Definition DONE_APASS_ADD : Z := 0x40.
Definition DONE_KEY_DEL : Z := 0x80.
Definition DONE_UPASS_DEL : Z := 0x100.
Definition DONE_APASS_DEL : Z := 0x200.

Definition MAXPARA : nat := 15.
Definition KEYLEN : nat := 23.

(** *** [pretty_mask]: positions in the mask, [None] being the star. *)
Fixpoint last_at (p : cstring) (i : nat) (h : option nat) : option nat :=
  match p with
  | [] => h
  | c :: p => last_at p (S i) (if c =c "@" then Some (S i) else h)
  end.

Fixpoint mask_parts (mask p : cstring) (i : nat) (dot : bool) : option nat * option nat * option nat :=
  match p with
  | [] => if dot then (None, None, Some 0%nat) else (Some 0%nat, None, None)
  | c :: p =>
      if c =c "!" then (Some 0%nat, Some (S i), last_at p (S i) None)
      else if c =c "@" then (None, Some 0%nat, last_at p (S i) (Some (S i)))
      else mask_parts mask p (S i) (dot || (c =c ".") || (c =c ":"))
  end.

Definition slice (s : cstring) (a b : nat) : cstring := take (b - a) (drop a s).

(** A part from [a] to [b], cut at its start when it is longer than [n]. *)
Definition cut_part (s : cstring) (a b n : nat) : cstring :=
  if (n <? b - a)%nat then "*"%char :: slice s (S (b - n)) b else slice s a b.

Definition pretty_mask (mask : cstring) : cstring :=
  let '(nick, user, host) := mask_parts mask mask 0 false in
  let len := length mask in
  let nick := match nick with
              | None => str "*"
              | Some a => take Bans.NICKLEN (slice mask a (match user with Some u => u - 1 | None => len end)%nat)
              end in
  let user := match user with
              | None => str "*"
              | Some a => cut_part mask a (match host with Some h => h - 1 | None => len end)%nat USERLEN
              end in
  let host := match host with None => str "*" | Some a => cut_part mask a len HOSTLEN end in
  nick ++ str "!" ++ user ++ str "@" ++ host.

(** *** What is said to the source and to the channel *)
Inductive mode_reply :=
  | RNotOper | RNotMember
  | RNeedMoreParams (cmd : cstring)
  | RInvalidKey | RKeySet
  | RNotManager | RNoManager
  | RUpassNotSet | RUpassSame | RUpassSet
  | RChanSecured | RApassWarnSet | RApassWarnClear
  | RUnknownMode (c : ascii)
  | RBanList (masks : list cstring)
  | RBanListFull (mask : cstring)
  | RUserNotInChannel (c : positive)
  | RIsChanService (c : positive)
  | RIsOperLchan (c : positive)
  | RNotLowerOplevel (c : option positive)
  | OJoinShown (c : positive)
  | ONoDelayed
  | OHackDeop.

(** The source [sptr] of a line, and the connection [cptr] it came by. *)
Record msource := {
  s_client : positive;
  s_my : bool;            (* [MyUser(sptr)] *)
  s_user : bool;          (* [IsUser(sptr)] *)
  s_cserver : bool;       (* [IsServer(cptr)] *)
  s_oper : bool;
  s_ssl : bool;
  s_apass_priv : bool;    (* [HasPriv(sptr, PRIV_APASS_OPMODE)] *)
  s_burst : bool          (* [IsBurstOrBurstAck(cptr)] *)
}.

Record cli_change := { c_flag : Z; c_oplevel : Z; c_client : positive }.

(** [struct ParseState]: the parameters not yet used are a list. *)
Record pstate := {
  p_mbuf : option ModeBuf;
  p_chan : mchan;
  p_member : bool;         (* [state->member] is not null *)
  p_args : list cstring;
  p_used : nat;
  p_flags : Z;
  p_dir : bool;            (* [MODE_ADD] *)
  p_done : Z;
  p_add : Z;
  p_del : Z;
  p_max : Z;
  p_numbans : nat;
  p_changes : list cli_change;
  p_out : list mode_reply
}.

Definition upd_mbuf_chan (r : mchan * ModeBuf) (st : pstate) : pstate :=
  {| p_mbuf := Some (snd r); p_chan := fst r; p_member := p_member st; p_args := p_args st; p_used := p_used st;
     p_flags := p_flags st; p_dir := p_dir st; p_done := p_done st; p_add := p_add st; p_del := p_del st; p_max := p_max st;
     p_numbans := p_numbans st; p_changes := p_changes st; p_out := p_out st |}.
Definition upd_chan (ch : mchan) (st : pstate) : pstate :=
  {| p_mbuf := p_mbuf st; p_chan := ch; p_member := p_member st; p_args := p_args st; p_used := p_used st;
     p_flags := p_flags st; p_dir := p_dir st; p_done := p_done st; p_add := p_add st; p_del := p_del st; p_max := p_max st;
     p_numbans := p_numbans st; p_changes := p_changes st; p_out := p_out st |}.
Definition upd_args (l : list cstring) (used : nat) (max : Z) (st : pstate) : pstate :=
  {| p_mbuf := p_mbuf st; p_chan := p_chan st; p_member := p_member st; p_args := l; p_used := used;
     p_flags := p_flags st; p_dir := p_dir st; p_done := p_done st; p_add := p_add st; p_del := p_del st; p_max := max;
     p_numbans := p_numbans st; p_changes := p_changes st; p_out := p_out st |}.
Definition upd_dir (d : bool) (st : pstate) : pstate :=
  {| p_mbuf := p_mbuf st; p_chan := p_chan st; p_member := p_member st; p_args := p_args st; p_used := p_used st;
     p_flags := p_flags st; p_dir := d; p_done := p_done st; p_add := p_add st; p_del := p_del st; p_max := p_max st;
     p_numbans := p_numbans st; p_changes := p_changes st; p_out := p_out st |}.
Definition upd_flags (f : Z) (st : pstate) : pstate :=
  {| p_mbuf := p_mbuf st; p_chan := p_chan st; p_member := p_member st; p_args := p_args st; p_used := p_used st;
     p_flags := f; p_dir := p_dir st; p_done := p_done st; p_add := p_add st; p_del := p_del st; p_max := p_max st;
     p_numbans := p_numbans st; p_changes := p_changes st; p_out := p_out st |}.
Definition upd_done (f : Z) (st : pstate) : pstate :=
  {| p_mbuf := p_mbuf st; p_chan := p_chan st; p_member := p_member st; p_args := p_args st; p_used := p_used st;
     p_flags := p_flags st; p_dir := p_dir st; p_done := Z.lor (p_done st) f; p_add := p_add st; p_del := p_del st;
     p_max := p_max st; p_numbans := p_numbans st; p_changes := p_changes st; p_out := p_out st |}.
Definition upd_addel (a d : Z) (st : pstate) : pstate :=
  {| p_mbuf := p_mbuf st; p_chan := p_chan st; p_member := p_member st; p_args := p_args st; p_used := p_used st;
     p_flags := p_flags st; p_dir := p_dir st; p_done := p_done st; p_add := a; p_del := d; p_max := p_max st;
     p_numbans := p_numbans st; p_changes := p_changes st; p_out := p_out st |}.
Definition upd_changes (n : nat) (l : list cli_change) (st : pstate) : pstate :=
  {| p_mbuf := p_mbuf st; p_chan := p_chan st; p_member := p_member st; p_args := p_args st; p_used := p_used st;
     p_flags := p_flags st; p_dir := p_dir st; p_done := p_done st; p_add := p_add st; p_del := p_del st; p_max := p_max st;
     p_numbans := n; p_changes := l; p_out := p_out st |}.
Definition reply (r : list mode_reply) (st : pstate) : pstate :=
  {| p_mbuf := p_mbuf st; p_chan := p_chan st; p_member := p_member st; p_args := p_args st; p_used := p_used st;
     p_flags := p_flags st; p_dir := p_dir st; p_done := p_done st; p_add := p_add st; p_del := p_del st; p_max := p_max st;
     p_numbans := p_numbans st; p_changes := p_changes st; p_out := p_out st ++ r |}.

Definition pflag (st : pstate) (f : Z) : bool := bit (p_flags st) f.
Definition pdone (st : pstate) (f : Z) : bool := bit (p_done st) f.
Definition cm (st : pstate) : Mode := mc_mode (p_chan st).

Definition set_cmode (m : Mode) (st : pstate) : pstate := upd_chan (with_mc_mode m (p_chan st)) st.
Definition with_limit (z l : Z) (m : Mode) : Mode :=
  {| mode := z; limit := l; key := key m; upass := upass m; apass := apass m |}.
Definition with_key (k : cstring) (m : Mode) : Mode :=
  {| mode := mode m; limit := limit m; key := k; upass := upass m; apass := apass m |}.
Definition with_upass (k : cstring) (m : Mode) : Mode :=
  {| mode := mode m; limit := limit m; key := key m; upass := k; apass := apass m |}.
Definition with_apass (k : cstring) (m : Mode) : Mode :=
  {| mode := mode m; limit := limit m; key := key m; upass := upass m; apass := k |}.

(** Members of the channel. *)
Definition find_mem (c : positive) (ch : mchan) : option Membership := find (fun m => bool_decide (user m = c)) (mc_members ch).
Definition upd_members (f : Membership -> Membership) (ch : mchan) : mchan :=
  {| mc_name := mc_name ch; mc_time := mc_time ch; mc_mode := mc_mode ch; mc_members := map f (mc_members ch);
     mc_bans := mc_bans ch; mc_pool := mc_pool ch; mc_invites := mc_invites ch |}.
Definition upd_mem (c : positive) (f : Membership -> Membership) : mchan -> mchan :=
  upd_members (fun m => if bool_decide (user m = c) then f m else m).
Definition with_status (f : Z -> Z) (m : Membership) : Membership :=
  {| user := user m; channel := channel m; status := f (status m); oplevel := oplevel m |}.
Definition SetOpLevel (v : Z) (m : Membership) : Membership :=
  {| user := user m; channel := channel m; status := status m; oplevel := v |}.
Definition with_bans (l : list Ban) (p : ban_pool) (ch : mchan) : mchan :=
  {| mc_name := mc_name ch; mc_time := mc_time ch; mc_mode := mc_mode ch; mc_members := mc_members ch;
     mc_bans := l; mc_pool := p; mc_invites := mc_invites ch |}.
Definition with_time (t : Z) (ch : mchan) : mchan :=
  {| mc_name := mc_name ch; mc_time := t; mc_mode := mc_mode ch; mc_members := mc_members ch;
     mc_bans := mc_bans ch; mc_pool := mc_pool ch; mc_invites := mc_invites ch |}.
Definition no_invites (ch : mchan) : mchan :=
  {| mc_name := mc_name ch; mc_time := mc_time ch; mc_mode := mc_mode ch; mc_members := mc_members ch;
     mc_bans := mc_bans ch; mc_pool := mc_pool ch; mc_invites := [] |}.

(** [strtoul] in base 10, in the 32 bits of [t_limit]. *)
Definition strtoul (s : cstring) : Z :=
  let clip (v : Z) := Z.min v (2 ^ 64 - 1) in
  w32 (match skip_blanks s with
       | "-"%char :: s => let v := read_digits s 0 in if v <? 2 ^ 64 then (- v) mod 2 ^ 64 else 2 ^ 64 - 1
       | "+"%char :: s => clip (read_digits s 0)
       | s => clip (read_digits s 0)
       end).

(** What the parser asks of the rest of the program: names, the two ways to
    look a client up, who is a service (+k) or may not be deopped on a local
    channel, the features and the time. *)
Record mode_env := {
  cli_name : positive -> cstring;
  NumNick : positive -> cstring;
  find_chasing : cstring -> option positive;
  find_n_user : cstring -> option positive;
  IsChannelService : positive -> bool;
  deop_lchan : positive -> bool;
  FEAT_OPLEVELS : bool;
  FEAT_AVBANLEN : Z;
  FEAT_MAXBANS : Z;
  TStime : Z
}.

Section parse.
Context (E : mode_env) (src : msource).
Implicit Types (st : pstate) (f : Z).

Definition buffered (op : mchan -> ModeBuf -> option (mchan * ModeBuf)) st : option pstate :=
  mb ← p_mbuf st; r ← op (p_chan st) mb; Some (upd_mbuf_chan r st).

Definition dirbit st : Z := if p_dir st then MODE_ADD else MODE_DEL.
Definition refused st : bool := pflag st (Z.lor MODE_PARSE_NOTOPER MODE_PARSE_NOTMEMBER).
Definition member st : option Membership := if p_member st then find_mem (s_client src) (p_chan st) else None.
Definition to_my (r : mode_reply) st : pstate := if s_my src then reply [r] st else st.

Definition send_notoper st : pstate :=
  if pdone st DONE_NOTOPER then st
  else upd_done DONE_NOTOPER (reply [if pflag st MODE_PARSE_NOTOPER then RNotOper else RNotMember] st).

Definition too_many st : bool := s_my src && (p_max st <=? 0).

(** [state->parv[state->args_used++]], with the counts. *)
Definition grab st : option (cstring * pstate) :=
  match p_args st with
  | [] => None
  | a :: l => Some (a, upd_args l (S (p_used st)) (p_max st - 1) st)
  end.

(** The part of [mode_parse_limit] after the argument. *)
Definition limit_change (t_limit : Z) st : option pstate :=
  let m := cm st in
  if refused st then Some (send_notoper st)
  else if negb (p_dir st) && (limit m =? 0) then Some st
  else if pflag st MODE_PARSE_BURST && bit (mode m) MODE_LIMIT && (limit m <? t_limit) then Some st
  else if pdone st DONE_LIMIT then Some st
  else
    let st := upd_done DONE_LIMIT st in
    match p_mbuf st with
    | None => Some st
    | Some _ =>
        st ← buffered (modebuf_mode_uint (cli_name E) (NumNick E) (Z.lor (dirbit st) MODE_LIMIT) t_limit) st;
        let m := cm st in
        Some (if negb (pflag st MODE_PARSE_SET) then st
              else if p_dir st then set_cmode (with_limit (Z.lor (mode m) MODE_LIMIT) t_limit m) st
              else set_cmode (with_limit (Z.ldiff (mode m) MODE_LIMIT) 0 m) st)
    end.

Definition mode_parse_limit st : option pstate :=
  if negb (p_dir st) then limit_change (limit (cm st)) st
  else if too_many st then Some st
  else match grab st with
       | None => Some (to_my (RNeedMoreParams (str "MODE +l")) st)
       | Some (a, st) =>
           let t_limit := strtoul a in
           if 2 ^ 31 <=? t_limit then Some st
           else if negb (pflag st MODE_PARSE_WIPEOUT) && ((t_limit =? 0) || (t_limit =? limit (cm st))) then Some st
           else limit_change t_limit st
       end.

(** [is_clean_key]: [Some] is the reply to a bad one. *)
Definition bad_key_char (c : ascii) : bool := (code c <=? 32) || (c =c ",").

Definition key_error (s command : cstring) : option mode_reply :=
  match s with
  | [] => Some (RNeedMoreParams command)
  | c :: _ =>
      if c =c ":" then Some RInvalidKey
      else if existsb bad_key_char (take (S KEYLEN) s) then Some RInvalidKey
      else if (KEYLEN <? length s)%nat then Some RInvalidKey
      else None
  end.

Definition command_of st (c : ascii) : cstring := str "MODE " ++ [if p_dir st then "+"%char else "-"%char; c].

(** Removing and then adding is allowed, but not adding and then removing:
    the marks of what was done, [None] when it was. *)
Definition first_time (add_flag del_flag : Z) st : option pstate :=
  if p_dir st then if pdone st add_flag then None else Some (upd_done add_flag st)
  else if pdone st (Z.lor add_flag del_flag) then None else Some (upd_done del_flag st).

(** The change put in the buffer: bounced, it is the old string, or the new
    one, to be set back. *)
Definition string_change f (old t_str : cstring) st : option pstate :=
  let '(dir, s) :=
    if pflag st MODE_PARSE_BOUNCE then if nonempty old then (MODE_DEL, old) else (MODE_ADD, t_str)
    else (dirbit st, t_str) in
  buffered (modebuf_mode_string (cli_name E) (NumNick E) (Z.lor dir f) s false) st.

(** Whether a burst already has a string that comes first. *)
Definition burst_keeps (old t_str : cstring) st : bool :=
  pflag st MODE_PARSE_BURST && nonempty old && (ircd_strcmp old t_str <=? 0).

Definition unchanged (old t_str : cstring) st : bool :=
  negb (pflag st MODE_PARSE_WIPEOUT) && p_dir st && strcmp_eqb old t_str.

(** One is set already, or another is to be removed. *)
Definition key_clash (old t_str : cstring) st : bool :=
  if p_dir st then nonempty old else negb (strcmp_eqb old t_str).

Definition mode_parse_key st : option pstate :=
  if too_many st then Some st
  else match grab st with
  | None => Some (to_my (RNeedMoreParams (command_of st "k")) st)
  | Some (t_str, st) =>
      if refused st then Some (send_notoper st)
      else match first_time DONE_KEY_ADD DONE_KEY_DEL st with
      | None => Some st
      | Some st =>
          match key_error t_str (command_of st "k"), p_mbuf st with
          | Some r, _ => Some (to_my r st)
          | None, None => Some st
          | None, Some _ =>
              let old := key (cm st) in
              if burst_keeps old t_str st then Some st
              else if negb (pflag st MODE_PARSE_FORCE) && key_clash old t_str st then Some (reply [RKeySet] st)
              else if unchanged old t_str st then Some st
              else
                st ← string_change MODE_KEY old t_str st;
                Some (if pflag st MODE_PARSE_SET
                      then set_cmode (with_key (if p_dir st then ircd_strncpy t_str KEYLEN else []) (cm st)) st
                      else st)
          end
      end
  end.

(** The manager of a channel, where there must be a member to ask. *)
Definition not_manager st : option bool := m ← member st; Some (negb (IsChannelManager m)).
Definition no_manager st : pstate := reply [if nonempty (apass (cm st)) then RNotManager else RNoManager] st.

(** The tests of [mode_parse_upass] without FORCE. *)
Definition upass_error (t_str : cstring) st : option mode_reply :=
  let m := cm st in
  if pflag st MODE_PARSE_FORCE then None
  else if p_dir st && negb (nonempty (apass m)) then Some RUpassNotSet
  else if p_dir st && strcmp_eqb (apass m) t_str then Some RUpassSame
  else if key_clash (upass m) t_str st then Some RKeySet
  else None.

Definition upass_change (t_str : cstring) st : option pstate :=
  match first_time DONE_UPASS_ADD DONE_UPASS_DEL st with
  | None => Some st
  | Some st =>
      match key_error t_str (command_of st "U"), p_mbuf st with
      | Some r, _ => Some (to_my r st)
      | None, None => Some st
      | None, Some _ =>
          match upass_error t_str st with
          | Some r => Some (reply [r] st)
          | None =>
              let old := upass (cm st) in
              if unchanged old t_str st || burst_keeps old t_str st then Some st
              else
                st ← string_change MODE_UPASS old t_str st;
                Some (if pflag st MODE_PARSE_SET
                      then set_cmode (with_upass (if p_dir st then ircd_strncpy t_str KEYLEN else []) (cm st)) st
                      else st)
          end
      end
  end.

Definition mode_parse_upass st : option pstate :=
  if too_many st then Some st
  else match grab st with
  | None => Some (to_my (RNeedMoreParams (command_of st "U")) st)
  | Some (t_str, st) =>
      if refused st then Some (send_notoper st)
      else if pflag st MODE_PARSE_FORCE && s_my src && negb (s_apass_priv src) then Some (reply [RNotManager] st)
      else if s_my src && negb (pflag st MODE_PARSE_FORCE) then
        no ← not_manager st;
        if no : bool then Some (no_manager st) else upass_change t_str st
      else upass_change t_str st
  end.

(** The tests that [mode_parse_apass] makes for a local user, in their order.
    The outer [None] is a user who is not on the channel. *)
Definition apass_error (t_str : cstring) st : option (option (pstate -> pstate)) :=
  let m := cm st in
  let forced := pflag st MODE_PARSE_FORCE in
  let late := (172800 <=? TStime E - mc_time (p_chan st)) && negb (p_dir st) && negb (s_oper src) in
  let last := if late then Some (reply [RChanSecured]) else None in
  if negb (s_my src) then Some None
  else if forced then Some (if negb (s_apass_priv src) then Some (reply [RNotManager]) else last)
  else
    no ← not_manager st;
    Some (if no : bool then Some no_manager
          else if negb (p_dir st) && nonempty (upass m) then Some (reply [RUpassSet])
          else if key_clash (apass m) t_str st then Some (reply [RKeySet])
          else last).

Definition apass_set (t_str : cstring) st : pstate :=
  let m := cm st in
  if p_dir st then
    let st := if negb (nonempty (apass m)) || pflag st MODE_PARSE_BURST
              then set_cmode (with_apass (ircd_strncpy t_str KEYLEN) m) st else st in
    let st := to_my RApassWarnSet st in
    if p_member st then upd_chan (upd_mem (s_client src) (SetOpLevel 0) (p_chan st)) st else st
  else
    let st := to_my RApassWarnClear (set_cmode (with_upass [] (with_apass [] m)) st) in
    upd_chan (upd_members (fun m => if IsChanOp m then SetOpLevel MAXOPLEVEL m else m) (p_chan st)) st.

Definition mode_parse_apass st : option pstate :=
  if too_many st then Some st
  else match grab st with
  | None => Some (to_my (RNeedMoreParams (command_of st "A")) st)
  | Some (t_str, st) =>
      if refused st then Some (send_notoper st)
      else
        err ← apass_error t_str st;
        match err with
        | Some r => Some (r st)
        | None =>
            match first_time DONE_APASS_ADD DONE_APASS_DEL st with
            | None => Some st
            | Some st =>
                match key_error t_str (command_of st "A"), p_mbuf st with
                | Some r, _ => Some (to_my r st)
                | None, None => Some st
                | None, Some _ =>
                    let old := apass (cm st) in
                    if unchanged old t_str st || burst_keeps old t_str st then Some st
                    else
                      st ← string_change MODE_APASS old t_str st;
                      Some (if pflag st MODE_PARSE_SET then apass_set t_str st else st)
                end
            end
        end
  end.

(** *** Bans *)
Definition before_space (s : cstring) : cstring := hd [] (pieces " " s).

Definition mode_parse_ban st : option pstate :=
  match p_args st with
  | [] =>
      Some (if s_my src && negb (pdone st DONE_BANLIST)
            then upd_done DONE_BANLIST (reply [RBanList (map banstr (mc_bans (p_chan st)))] st) else st)
  | _ =>
      if too_many st then Some st
      else
        a_st ← grab st;
        let '(a, st) := (a_st : cstring * pstate) in
        if refused st then Some (send_notoper st)
        else
          let t_str := before_space a in
          if negb (nonempty t_str) || (deref t_str =c ":") then Some (to_my (RNeedMoreParams (command_of st "b")) st)
          else if (MAXPARA <=? p_numbans st)%nat then None
          else
            let ch := p_chan st in
            let name := if s_user src then cli_name E (s_client src) else str "*" in
            '(bans, _, p) ← change_ban (negb (pdone st DONE_BANCLEAN)) (p_dir st) (collapse (pretty_mask t_str)) name (TStime E)
                               (mc_bans ch) (mc_pool ch);
            Some (upd_changes (S (p_numbans st)) (p_changes st) (upd_chan (with_bans bans p ch) (upd_done DONE_BANCLEAN st)))
  end.

Definition put_ban (st : pstate) (o : ban_out) : option pstate :=
  match o with
  | BanAdded mask => buffered (modebuf_mode_string (cli_name E) (NumNick E) (Z.lor MODE_ADD MODE_BAN) mask true) st
  | BanDeleted mask => buffered (modebuf_mode_string (cli_name E) (NumNick E) (Z.lor MODE_DEL MODE_BAN) mask true) st
  | BanListFull mask => Some (reply [RBanListFull mask] st)
  end.

Fixpoint steps {A} (f : pstate -> A -> option pstate) (l : list A) (st : pstate) : option pstate :=
  match l with [] => Some st | x :: l => st ← f st x; steps f l st end.

Definition ClearBanValid : Membership -> Membership := with_status (fun s => Z.ldiff s CHFL_BANVALID).

Definition mode_process_bans st : option pstate :=
  mb ← p_mbuf st;
  let ch := p_chan st in
  let conf := {| parse_set := pflag st MODE_PARSE_SET; parse_bounce := pflag st MODE_PARSE_BOUNCE;
                 limited := s_my src && negb (bit (mb_dest mb) MODEBUF_DEST_OPMODE);
                 AVBANLEN := FEAT_AVBANLEN E; MAXBANS := FEAT_MAXBANS E |} in
  let '(bans, changed, p, outs) := Bans.mode_process_bans conf (mc_bans ch) (mc_pool ch) in
  st ← steps put_ban outs (upd_chan (with_bans bans p ch) st);
  Some (if changed then upd_chan (upd_members ClearBanValid (p_chan st)) st else st).

(** *** Operators and voices *)

(** [strchr(t_str, ':')]: what is before and after the first colon. *)
Fixpoint at_colon (s : cstring) : option (cstring * cstring) :=
  match s with
  | [] => None
  | c :: s => if c =c ":" then Some ([], s) else '(a, b) ← at_colon s; Some (c :: a, b)
  end.

(** The argument of a local user: a nick, and a level after a colon.  The
    outer [None] is the reply that the level is too low. *)
Definition local_target f (t_str : cstring) st : option (option positive * Z) :=
  match at_colon t_str with
  | None => Some (find_chasing E t_str, MAXOPLEVEL + 1)
  | Some (t_str, rest) =>
      let req := atoi rest in
      let low := match member st with
                 | Some m => (req <? oplevel m) || ((req =? oplevel m) && (oplevel m <? MAXOPLEVEL)) || (MAXOPLEVEL <? req)
                 | None => false
                 end in
      if bit f CHFL_VOICE || negb (p_dir st) then Some (find_chasing E t_str, MAXOPLEVEL + 1)
      else if negb (pflag st MODE_PARSE_FORCE) && low then None
      else Some (find_chasing E t_str, if req <=? MAXOPLEVEL then req else MAXOPLEVEL + 1)
  end.

(** The argument of a server: five characters, and a level after a colon.  A
    shorter numeric is read past its end; what is there is taken for another
    character than the colon. *)
Definition remote_target (t_str : cstring) : option positive * Z :=
  match t_str !! 5%nat with
  | Some c => if c =c ":" then (find_n_user E (take 5 t_str), atoi (drop 6 t_str)) else (find_n_user E t_str, MAXOPLEVEL + 1)
  | None => (find_n_user E t_str, MAXOPLEVEL + 1)
  end.

(** The slot of a client and a mode, or the first free one. *)
Fixpoint put_change (f : Z) (x : cli_change) (l : list cli_change) : list cli_change :=
  match l with
  | [] => [x]
  | y :: l => if bool_decide (c_client y = c_client x) && bit (c_flag y) f then x :: l else y :: put_change f x l
  end.

(** [f] is the mode, [MODE_CHANOP] or [MODE_VOICE]. *)
Definition mode_parse_client f st : option pstate :=
  if too_many st then Some st
  else match grab st with
  | None => Some st
  | Some (t_str, st) =>
      if refused st then Some (send_notoper st)
      else match (if s_my src then local_target f t_str st else Some (remote_target t_str)) with
      | None => Some (reply [RNotLowerOplevel None] st)
      | Some (None, _) => Some st
      | Some (Some c, lvl) =>
          let lvl :=
            if pflag st MODE_PARSE_BOUNCE && negb (p_dir st) && (f =? MODE_CHANOP) then
              match find_mem c (p_chan st) with Some m => oplevel m | None => lvl end
            else lvl in
          let l := put_change f {| c_flag := Z.lor (dirbit st) f; c_oplevel := w16 lvl; c_client := c |} (p_changes st) in
          if (MAXPARA <? length l)%nat then None else Some (upd_changes (p_numbans st) l st)
      end
  end.

Definition CheckDelayedJoins st : pstate :=
  let m := mode (cm st) in
  if bit m MODE_WASDELJOINS && negb (find_delayed (p_chan st))
  then reply [ONoDelayed] (set_cmode (set_mode (Z.ldiff m MODE_WASDELJOINS) (cm st)) st) else st.

Definition RevealDelayedJoin (c : positive) st : pstate :=
  CheckDelayedJoins (reply [OJoinShown c] (upd_chan (upd_mem c (with_status (fun s => Z.ldiff s CHFL_DELAYED)) (p_chan st)) st)).

(** Whether the deop of [x], who is member [m], is refused, with the reply. *)
Definition deop_refused (x : cli_change) (m : Membership) st : option mode_reply :=
  let c := c_client x in
  let self := bool_decide (c = s_client src) in
  if negb (s_my src) then None
  else if IsChannelService E c && negb (pflag st MODE_PARSE_FORCE) && pflag st MODE_PARSE_SET then Some (RIsChanService c)
  else if negb self && (deref (mc_name (p_chan st)) =c "&") && deop_lchan E c then Some (RIsOperLchan c)
  else match member st with
       | Some s =>
           if negb self && ((oplevel m <? oplevel s) || ((oplevel m =? oplevel s) && (oplevel m <? MAXOPLEVEL)))
           then Some (RNotLowerOplevel (Some c)) else None
       | None => None
       end.

(** The level of a member who is opped. *)
Definition new_oplevel (x : cli_change) st : Z :=
  if c_oplevel x <=? MAXOPLEVEL then c_oplevel x
  else match member st with
       | None => MAXOPLEVEL
       | Some s => if MAXOPLEVEL <=? oplevel s then oplevel s else oplevel s + 1
       end.

(** Making the change to the member. *)
Definition client_set (x : cli_change) (m : Membership) st : pstate :=
  let c := c_client x in
  let opvoice := Z.land (c_flag x) (Z.lor MODE_CHANOP MODE_VOICE) in
  if bit (c_flag x) MODE_ADD then
    let st := if IsDelayedJoin m && negb (IsZombie m) then RevealDelayedJoin c st else st in
    upd_chan (upd_mem c (with_status (fun s =>
      let s := Z.lor s opvoice in if bit (c_flag x) MODE_CHANOP then Z.ldiff s CHFL_DEOPPED else s)) (p_chan st)) st
  else upd_chan (upd_mem c (with_status (fun s => Z.ldiff s opvoice)) (p_chan st)) st.

Definition process_client (st : pstate) (x : cli_change) : option pstate :=
  let c := c_client x in
  match find_mem c (p_chan st) with
  | None => Some (to_my (RUserNotInChannel c) st)
  | Some m =>
      if s_my src && IsZombie m then Some (to_my (RUserNotInChannel c) st)
      else
        let add := bit (c_flag x) MODE_ADD in
        if Bool.eqb add (bit (status m) (Z.land (c_flag x) (Z.lor MODE_CHANOP MODE_VOICE))) then Some st
        else
          let deop := negb add && bit (c_flag x) MODE_CHANOP in
          let st := if deop && IsChannelService E c && pflag st MODE_PARSE_FORCE then reply [OHackDeop] st else st in
          match (if deop then deop_refused x m st else None) with
          | Some r => Some (reply [r] st)
          | None =>
              let st := if add && bit (c_flag x) MODE_CHANOP
                        then upd_chan (upd_mem c (SetOpLevel (w16 (new_oplevel x st))) (p_chan st)) st else st in
              let st := if pflag st MODE_PARSE_SET then client_set x m st else st in
              buffered (modebuf_mode_client (cli_name E) (NumNick E) (c_flag x) c (c_oplevel x)) st
          end
  end.

(** The loop ends at a slot without a flag; there must be one. *)
Definition mode_process_clients st : option pstate :=
  if (length (p_changes st) <? MAXPARA)%nat then steps process_client (p_changes st) st else None.

(** *** The modes without an argument *)
Definition mode_parse_mode f st : pstate :=
  if refused st then send_notoper st
  else match p_mbuf st with
  | None => st
  | Some _ =>
      if (f =? MODE_REGISTERED) && negb (pflag st MODE_PARSE_FORCE) && s_my src then st
      else if p_dir st then
        let '(add, del) := (Z.lor (p_add st) f, Z.ldiff (p_del st) f) in
        if bit f MODE_SECRET then upd_addel (Z.ldiff add MODE_PRIVATE) (Z.lor del MODE_PRIVATE) st
        else if bit f MODE_PRIVATE then upd_addel (Z.ldiff add MODE_SECRET) (Z.lor del MODE_SECRET) st
        else upd_addel add del st
      else upd_addel (Z.ldiff (p_add st) f) (Z.lor (p_del st) f) st
  end.

(** The table [chan_flags]. *)
Definition chan_flags : list (Z * ascii) :=
  [(MODE_CHANOP, "o"%char); (MODE_VOICE, "v"%char); (MODE_PRIVATE, "p"%char); (MODE_SECRET, "s"%char);
   (MODE_MODERATED, "m"%char); (MODE_TOPICLIMIT, "t"%char); (MODE_INVITEONLY, "i"%char); (MODE_NOPRIVMSGS, "n"%char);
   (MODE_KEY, "k"%char); (MODE_APASS, "A"%char); (MODE_UPASS, "U"%char); (MODE_REGISTERED, "r"%char); (MODE_BAN, "b"%char);
   (MODE_LIMIT, "l"%char); (MODE_REGONLY, "R"%char); (MODE_OPERONLY, "O"%char); (MODE_DELJOINS, "D"%char);
   (MODE_NOCOLOR, "c"%char); (MODE_NOCTCP, "C"%char); (MODE_MODERATENOREG, "M"%char); (MODE_NONOTICE, "N"%char);
   (MODE_MSGNONWEB, "W"%char); (MODE_NOQUITPARTS, "u"%char); (MODE_SSLONLY, "z"%char); (MODE_ADD, "+"%char);
   (MODE_DEL, "-"%char)].

Definition flag_of (c : ascii) : option Z := fst <$> find (fun x => snd x =c c) chan_flags.

Definition mode_char (st : pstate) (c : ascii) : option pstate :=
  match flag_of c with
  | None => Some (to_my (RUnknownMode c) st)
  | Some f =>
      if c =c "+" then Some (upd_dir true st)
      else if c =c "-" then Some (upd_dir false st)
      else if c =c "l" then mode_parse_limit st
      else if c =c "k" then mode_parse_key st
      else if c =c "A" then if s_cserver src || FEAT_OPLEVELS E then mode_parse_apass st else Some st
      else if c =c "U" then if s_cserver src || FEAT_OPLEVELS E then mode_parse_upass st else Some st
      else if c =c "O" then Some (if s_cserver src || s_oper src then mode_parse_mode f st else st)
      else if c =c "z" then Some (if s_cserver src || s_oper src || s_ssl src then mode_parse_mode f st else st)
      else if c =c "b" then mode_parse_ban st
      else if c =c "r" then Some st
      else if (c =c "o") || (c =c "v") then mode_parse_client f st
      else Some (mode_parse_mode f st)
  end.

(** *** [mode_parse] *)

(** The time at the end of a line from a server.  The second component is
    whether the line is ignored. *)
Definition receive_ts (recv_ts : Z) st : pstate * bool :=
  let ch := p_chan st in
  if negb (recv_ts =? 0) && (recv_ts <? mc_time ch) then (upd_chan (with_time recv_ts ch) st, false)
  else if mc_time ch <? recv_ts then
    match p_mbuf st with
    | None => (st, false)
    | Some mb =>
        if s_burst src then (upd_mbuf_chan (ch, with_args [] (Modebuf.with_flags 0 0 mb)) st, true)
        else
          let dest := Z.ldiff (mb_dest mb) (Z.lor MODEBUF_DEST_CHANNEL MODEBUF_DEST_HACK4) in
          let dest := Z.lor dest (Z.lor MODEBUF_DEST_BOUNCE MODEBUF_DEST_HACK2) in
          let st := upd_flags (Z.lor (Z.ldiff (p_flags st) MODE_PARSE_SET) MODE_PARSE_BOUNCE) st in
          (upd_mbuf_chan (ch, with_dest dest mb) st, false)
    end
  else (st, false).

(** The outer loop, each round of which takes an argument; whether the line is
    ignored is the second component. *)
Fixpoint mode_words (n : nat) (modestr : cstring) st : option (pstate * bool) :=
  match n with
  | O => None
  | S n =>
      match modestr with
      | [] => Some (st, false)
      | _ =>
          st ← steps mode_char modestr st;
          if pflag st MODE_PARSE_BURST then Some (st, false)
          else match p_args st with
          | [] => Some (st, false)
          | a :: l =>
              let st' := upd_args l (S (p_used st)) (p_max st) st in
              if s_cserver src && (length l =? 0)%nat && IsDigit (deref a) then
                Some (if pflag st MODE_PARSE_SET then receive_ts (atoi a) st' else (st', false))
              else if pflag st MODE_PARSE_STRICT || too_many st then Some (st, false)
              else mode_words n a st'
          end
      end
  end.

(** The simple modes, gathered in [add] and [del]. *)
Definition simple_modes st : option pstate :=
  mb ← p_mbuf st;
  let m := mode (cm st) in
  let '(mb, t) := if bit (p_del st) m then (modebuf_mode (Z.lor MODE_DEL (Z.land (p_del st) m)) mb, Z.ldiff m (p_del st)) else (mb, m) in
  let '(mb, t) := if negb (Z.ldiff (p_add st) t =? 0) then (modebuf_mode (Z.lor MODE_ADD (Z.ldiff (p_add st) t)) mb, Z.lor t (p_add st)) else (mb, t) in
  let st := upd_mbuf_chan (p_chan st, mb) st in
  Some (if pflag st MODE_PARSE_SET then
          let ch := p_chan st in
          let ch := if bit m MODE_INVITEONLY && negb (bit t MODE_INVITEONLY) then no_invites ch else ch in
          upd_chan (set_bits t ch) st
        else st).

(** What the WIPEOUT of a burst removes: it only fills the buffer. *)
Definition wipe_string (old : mode_arg) f (done : Z) (cond : bool) st : option pstate :=
  if cond && negb (pdone st done)
  then buffered (fun ch mb =>
         match old with
         | AUint n => modebuf_mode_uint (cli_name E) (NumNick E) (Z.lor MODE_DEL f) n ch mb
         | AString s => modebuf_mode_string (cli_name E) (NumNick E) (Z.lor MODE_DEL f) s false ch mb
         | AClient _ => None
         end) st
  else Some st.

Definition wipeout st : option pstate :=
  if negb (pflag st MODE_PARSE_WIPEOUT) then Some st
  else
    st ← wipe_string (AUint (limit (cm st))) MODE_LIMIT DONE_LIMIT (negb (limit (cm st) =? 0)) st;
    st ← wipe_string (AString (key (cm st))) MODE_KEY DONE_KEY_DEL (nonempty (key (cm st))) st;
    st ← wipe_string (AString (upass (cm st))) MODE_UPASS DONE_UPASS_DEL (nonempty (upass (cm st))) st;
    wipe_string (AString (apass (cm st))) MODE_APASS DONE_APASS_DEL (nonempty (apass (cm st))) st.

Definition apply_modes st : option pstate :=
  match p_mbuf st with
  | None => Some st
  | Some _ =>
      if refused st then Some st
      else
        st ← simple_modes st;
        st ← wipeout st;
        st ← (if pdone st DONE_BANCLEAN then mode_process_bans st else Some st);
        match p_changes st with [] => Some st | _ => mode_process_clients st end
  end.

Definition parse_init (mb : option ModeBuf) (ch : mchan) (flags : Z) (mem : bool) (args : list cstring) : pstate :=
  {| p_mbuf := mb; p_chan := ch; p_member := mem; p_args := args; p_used := 1; p_flags := flags; p_dir := true;
     p_done := 0; p_add := 0; p_del := 0; p_max := MAXMODEPARAMS; p_numbans := 0; p_changes := []; p_out := [] |}.

(** The arguments are the letters and what follows them. *)
Definition mode_parse (mb : option ModeBuf) (ch : mchan) (args : list cstring) (flags : Z) (mem : bool) : option pstate :=
  match args with
  | [] => None
  | modestr :: args =>
      '(st, ignored) ← mode_words (S (length args)) modestr (parse_init mb ch flags mem args);
      if ignored : bool then Some st else apply_modes st
  end.

(** ** The commands

    The channel has been found; what a flush leaves in the buffer is nothing. *)
Definition run_mode (dest flags : Z) (mem : bool) (args : list cstring) (ch : mchan) : option (mchan * list mode_out * list mode_reply) :=
  st ← mode_parse (Some (modebuf_init (s_client src) ch dest)) ch args flags mem;
  mb ← p_mbuf st;
  '(ch, mb) ← modebuf_flush (cli_name E) (NumNick E) (p_chan st) mb;
  Some (ch, mb_out mb, p_out st).

Definition to_all : Z := Z.lor MODEBUF_DEST_CHANNEL MODEBUF_DEST_SERVER.

Definition is_member (ch : mchan) : bool := bool_decide (is_Some (find_mem (s_client src) ch)).
Definition is_chanop (ch : mchan) : bool := default false (IsChanOp <$> find_mem (s_client src) ch).

(** [m_mode] with modes to change; [priv] is [PRIV_MODE_LCHAN]. *)
Definition m_mode (priv : bool) (args : list cstring) (ch : mchan) : option (mchan * list mode_out * list mode_reply) :=
  let mem := is_member ch in
  if is_chanop ch then run_mode to_all MODE_PARSE_SET mem args ch
  else if (deref (mc_name ch) =c "&") && priv then
    run_mode (Z.lor MODEBUF_DEST_CHANNEL MODEBUF_DEST_HACK4) (Z.lor MODE_PARSE_SET MODE_PARSE_FORCE) mem args ch
  else
    st ← mode_parse None ch args (if mem then MODE_PARSE_NOTOPER else MODE_PARSE_NOTMEMBER) mem;
    Some (p_chan st, [], p_out st).

(** [ms_mode]: [uworld] is whether the server may change modes, [service]
    whether the server of the user is one of services. *)
Definition ms_mode (is_server uworld service : bool) (args : list cstring) (ch : mchan)
  : option (mchan * list mode_out * list mode_reply) :=
  let forced := Z.lor MODE_PARSE_SET (Z.lor MODE_PARSE_STRICT MODE_PARSE_FORCE) in
  if is_server then
    run_mode (if uworld then Z.lor to_all MODEBUF_DEST_HACK4
              else if FEAT_OPLEVELS E then to_all else Z.lor to_all MODEBUF_DEST_HACK3) forced false args ch
  else if service then run_mode to_all forced false args ch
  else if negb (is_chanop ch) then
    run_mode (Z.lor (Z.lor MODEBUF_DEST_SERVER MODEBUF_DEST_HACK2) (Z.lor MODEBUF_DEST_DEOP MODEBUF_DEST_BOUNCE))
      (Z.lor MODE_PARSE_STRICT MODE_PARSE_BOUNCE) (is_member ch) args ch
  else run_mode to_all forced true args ch.
End parse.

(** ** A user who may not change the modes *)
Section refusal.
Context (E : mode_env) (src : msource).
Implicit Types (st : pstate).

(** What holds while such a line is read: the channel is the one it was, and
    at most one refusal was sent. *)
Definition is_refusal (r : mode_reply) : bool := match r with RNotOper | RNotMember => true | _ => false end.
Definition refusals (l : list mode_reply) : nat := length (List.filter is_refusal l).

Record idle (ch : mchan) (n : nat) st : Prop := {
  idle_mbuf : p_mbuf st = None;
  idle_chan : p_chan st = ch;
  idle_refused : refused st = true;
  idle_set : pflag st MODE_PARSE_SET = false;
  idle_args : (length (p_args st) <= n)%nat;
  idle_out : (refusals (p_out st) + (if pdone st DONE_NOTOPER then 0 else 1) <= 1)%nat
}.

Lemma refusals_app l k : refusals (l ++ k) = (refusals l + refusals k)%nat.
Proof. unfold refusals. by rewrite List.filter_app, length_app. Qed.

Lemma idle_reply ch n r st : idle ch n st -> is_refusal r = false -> idle ch n (reply [r] st).
Proof.
  intros [] Hr. constructor; try done. cbn [reply p_out]. rewrite refusals_app.
  unfold refusals at 2. cbn [List.filter]. rewrite Hr. cbn [length]. unfold pdone in *. cbn [reply p_done]. lia.
Qed.

Lemma idle_to_my ch n r st : idle ch n st -> is_refusal r = false -> idle ch n (to_my src r st).
Proof. intros H Hr. unfold to_my. destruct (s_my src); [by apply idle_reply|done]. Qed.

Lemma idle_notoper ch n st : idle ch n st -> idle ch n (send_notoper st).
Proof.
  intros H. pose proof H as []. unfold send_notoper. destruct (pdone st DONE_NOTOPER) eqn:E1; [done|].
  constructor; try done. unfold pdone. cbn [upd_done reply p_done p_out]. rewrite refusals_app.
  assert (bit (Z.lor (p_done st) DONE_NOTOPER) DONE_NOTOPER = true) as ->.
  { unfold bit. rewrite Z.land_lor_distr_l. destruct (Z.eqb_spec (Z.lor (Z.land (p_done st) DONE_NOTOPER) (Z.land DONE_NOTOPER DONE_NOTOPER)) 0) as [H0|]; [|done].
    apply Z.lor_eq_0_iff in H0 as [_ H0]. done. }
  destruct (pflag st MODE_PARSE_NOTOPER); unfold refusals at 2; cbn [List.filter is_refusal length]; lia.
Qed.

Lemma idle_grab ch n st a st' : idle ch n st -> grab st = Some (a, st') -> idle ch n st'.
Proof.
  unfold grab. intros [] Hg. destruct (p_args st) as [|b l] eqn:E1; [done|]. injection Hg as <- <-.
  constructor; try done. cbn [length upd_args p_args] in *. lia.
Qed.

(** Each parser that takes an argument refuses it. *)
Lemma idle_taken ch n st (none : pstate) (k : pstate -> cstring -> option pstate) :
  idle ch n st -> idle ch n none ->
  (forall st' a, idle ch n st' -> exists st2, k st' a = Some st2 /\ idle ch n st2) ->
  exists st2, match grab st with None => Some none | Some (a, st') => k st' a end = Some st2 /\ idle ch n st2.
Proof.
  intros H Hn Hk. destruct (grab st) as [[a st']|] eqn:Hg; [|by exists none]. apply Hk. by apply (idle_grab _ _ _ _ _ H Hg).
Qed.

Ltac idle_arg H :=
  destruct (too_many _ _); [by eexists|];
  apply (idle_taken _ _ _ _ (fun st' a => _) H); [by (apply idle_to_my || done)|];
  let H' := fresh in intros ? ? H'; cbv beta; rewrite (idle_refused _ _ _ H'); eexists; split; [done|by apply idle_notoper].

Lemma idle_limit ch n st : idle ch n st -> exists st', mode_parse_limit E src st = Some st' /\ idle ch n st'.
Proof.
  intros H. unfold mode_parse_limit. assert (Hl : forall t st, idle ch n st -> exists st', limit_change E t st = Some st' /\ idle ch n st').
  { intros t st' H'. unfold limit_change. rewrite (idle_refused _ _ _ H'). eexists. split; [done|by apply idle_notoper]. }
  destruct (negb (p_dir st)); [by apply Hl|]. destruct (too_many _ _); [by eexists|].
  apply (idle_taken _ _ _ _ (fun st' a => _) H); [by apply idle_to_my|]. intros st' a H'. cbv beta zeta.
  destruct (_ <=? _); [by eexists|]. destruct (_ && _); [by eexists|by apply Hl].
Qed.

Lemma idle_key ch n st : idle ch n st -> exists st', mode_parse_key E src st = Some st' /\ idle ch n st'.
Proof. intros H. unfold mode_parse_key. idle_arg H. Qed.

Lemma idle_upass ch n st : idle ch n st -> exists st', mode_parse_upass E src st = Some st' /\ idle ch n st'.
Proof. intros H. unfold mode_parse_upass. idle_arg H. Qed.

Lemma idle_apass ch n st : idle ch n st -> exists st', mode_parse_apass E src st = Some st' /\ idle ch n st'.
Proof. intros H. unfold mode_parse_apass. idle_arg H. Qed.

Lemma idle_client ch n f st : idle ch n st -> exists st', mode_parse_client E src f st = Some st' /\ idle ch n st'.
Proof. intros H. unfold mode_parse_client. idle_arg H. Qed.

Lemma idle_ban ch n st : idle ch n st -> exists st', mode_parse_ban E src st = Some st' /\ idle ch n st'.
Proof.
  intros H. unfold mode_parse_ban. destruct (p_args st) as [|a l] eqn:Ha.
  - eexists. split; [done|]. destruct (_ && _); [|done]. destruct (idle_reply ch n (RBanList (map banstr (mc_bans (p_chan st)))) _ H eq_refl) as [? ? ? ? ? Ho]. constructor; try done.
    unfold pdone in *. cbn [upd_done p_done reply p_out] in *.
    assert (bit (Z.lor (p_done st) DONE_BANLIST) DONE_NOTOPER = bit (p_done st) DONE_NOTOPER) as ->; [|done].
    unfold bit. rewrite Z.land_lor_distr_l. by rewrite Z.lor_0_r.
  - destruct (too_many _ _); [by eexists|]. unfold grab. rewrite Ha. cbn [mbind option_bind].
    assert (H' : idle ch n (upd_args l (S (p_used st)) (p_max st - 1) st)).
    { apply (idle_grab _ _ st a); [done|]. unfold grab. by rewrite Ha. }
    rewrite (idle_refused _ _ _ H'). eexists. split; [done|by apply idle_notoper].
Qed.

Lemma idle_mode ch n f st : idle ch n st -> idle ch n (mode_parse_mode src f st).
Proof. intros H. unfold mode_parse_mode. rewrite (idle_refused _ _ _ H). by apply idle_notoper. Qed.

Lemma idle_dir ch n d st : idle ch n st -> idle ch n (upd_dir d st).
Proof. intros []. by constructor. Qed.

Lemma idle_char ch n c st : idle ch n st -> exists st', mode_char E src st c = Some st' /\ idle ch n st'.
Proof.
  intros H. unfold mode_char. destruct (flag_of c) as [f|]; [|eexists; split; [done|by apply idle_to_my]].
  repeat match goal with
  | |- context [if c =c ?d then _ else _] => destruct (c =c d)
  | |- context [if _ || _ then _ else _] => destruct (_ || _)
  end; auto using idle_limit, idle_key, idle_upass, idle_apass, idle_client, idle_ban; eexists; (split; [done|]);
    auto using idle_mode, idle_dir.
Qed.

Lemma idle_chars ch n s st : idle ch n st -> exists st', steps (mode_char E src) s st = Some st' /\ idle ch n st'.
Proof.
  revert st. induction s as [|c s IH]; intros st H; [by exists st|]. cbn [steps].
  destruct (idle_char ch n c st H) as (st' & -> & H'). by apply IH.
Qed.

Lemma mode_words_eq n s st : mode_words E src (S n) s st =
  match s with
  | [] => Some (st, false)
  | _ =>
      st ← steps (mode_char E src) s st;
      if pflag st MODE_PARSE_BURST then Some (st, false)
      else match p_args st with
      | [] => Some (st, false)
      | a :: l =>
          let st' := upd_args l (S (p_used st)) (p_max st) st in
          if s_cserver src && (length l =? 0)%nat && IsDigit (deref a) then
            Some (if pflag st MODE_PARSE_SET then receive_ts src (atoi a) st' else (st', false))
          else if pflag st MODE_PARSE_STRICT || too_many src st then Some (st, false)
          else mode_words E src n a st'
      end
  end.
Proof. done. Qed.

Lemma idle_words ch n : forall s st, idle ch n st ->
  exists st', mode_words E src (S n) s st = Some (st', false) /\ idle ch n st'.
Proof.
  induction n as [|n IH]; intros s st H; rewrite mode_words_eq; (destruct s as [|c s]; [by exists st|]);
    destruct (idle_chars _ _ (c :: s) st H) as (st1 & -> & H1); cbn [mbind option_bind];
    (destruct (pflag st1 MODE_PARSE_BURST); [by exists st1|]); pose proof H1 as [Hm Hc Hr Hs Ha Ho];
    destruct (p_args st1) as [|a l] eqn:El; try (by exists st1); cbn [length] in Ha; [lia|].
  set (st2 := upd_args l (S (p_used st1)) (p_max st1) st1).
  assert (H2 : idle ch n st2) by (constructor; try done; cbn; lia).
  assert (Hup : forall st, idle ch n st -> idle ch (S n) st) by (intros ? []; constructor; try done; lia).
  destruct (_ && IsDigit _); [rewrite Hs; exists st2; split; [done|by apply Hup]|].
  destruct (_ || _); [by exists st1|]. destruct (IH a st2 H2) as (st3 & -> & H3). exists st3. split; [done|by apply Hup].
Qed.

Lemma idle_parse ch flags mem s args : bit flags (Z.lor MODE_PARSE_NOTOPER MODE_PARSE_NOTMEMBER) = true ->
  bit flags MODE_PARSE_SET = false ->
  exists st, mode_parse E src None ch (s :: args) flags mem = Some st /\ p_chan st = ch /\ (refusals (p_out st) <= 1)%nat.
Proof.
  intros Hf Hs. unfold mode_parse. destruct (idle_words ch (length args) s (parse_init None ch flags mem args)) as (st & -> & H).
  { constructor; try done. }
  cbn [mbind option_bind]. destruct H as [Hm Hc _ _ _ Ho]. exists st. unfold apply_modes. rewrite Hm. split; [done|]. split; [done|lia].
Qed.

(** C7: a user who is not an operator of the channel changes nothing, whatever
    the line is: the command returns, the channel is the one it was, nothing is
    sent to the channel or to the servers, and the user is told so at most
    once.  The one exception of the code is left out: on a local channel,
    whose name starts with an ampersand, a user with the privilege LCHAN acts
    as an operator. *)
Theorem mode_needs_op (priv : bool) (s : cstring) (args : list cstring) (ch : mchan) :
  is_chanop src ch = false -> (deref (mc_name ch) =c "&") && priv = false ->
  exists out, m_mode E src priv (s :: args) ch = Some (ch, [], out) /\ (refusals out <= 1)%nat.
Proof.
  intros Hop Hl. unfold m_mode. rewrite Hop, Hl.
  destruct (idle_parse ch (if is_member src ch then MODE_PARSE_NOTOPER else MODE_PARSE_NOTMEMBER) (is_member src ch) s args) as (st & -> & Hc & Ho);
    [by destruct (is_member src ch)..|]. cbn [mbind option_bind]. exists (p_out st). by rewrite Hc.
Qed.
End refusal.

(** ** The modes stay well formed *)

(** [f] is one bit. *)
Definition one_bit (f : Z) : Prop := exists k, 0 <= k /\ f = 2 ^ k.

Lemma bit_testbit x k : 0 <= k -> bit x (2 ^ k) = Z.testbit x k.
Proof.
  intros Hk. unfold bit. destruct (Z.testbit x k) eqn:Ht.
  - destruct (Z.eqb_spec (Z.land x (2 ^ k)) 0) as [H|]; [|done]. apply (f_equal (fun z => Z.testbit z k)) in H.
    by rewrite Z.land_spec, Ht, Z.pow2_bits_true, Z.bits_0 in H.
  - assert (Z.land x (2 ^ k) = 0) as ->; [|done]. apply Z.bits_inj'. intros j Hj. rewrite Z.land_spec, Z.bits_0.
    destruct (Z.eq_dec k j) as [->|]; [by rewrite Ht|]. rewrite Z.pow2_bits_false by done. by destruct (Z.testbit x j).
Qed.

Lemma bit_or a w f : bit (Z.lor a w) f = bit a f || bit w f.
Proof.
  unfold bit. rewrite Z.land_lor_distr_l. destruct (Z.eqb_spec (Z.lor (Z.land a f) (Z.land w f)) 0) as [H|H].
  - apply Z.lor_eq_0_iff in H as [-> ->]. done.
  - destruct (Z.eqb_spec (Z.land a f) 0) as [H1|]; [|done]. destruct (Z.eqb_spec (Z.land w f) 0) as [H2|]; [|done].
    by rewrite H1, H2 in H.
Qed.

Lemma bit_diff a w f : one_bit f -> bit (Z.ldiff a w) f = bit a f && negb (bit w f).
Proof. intros (k & Hk & ->). by rewrite !bit_testbit, Z.ldiff_spec by done. Qed.

Lemma bit_and a w f : one_bit f -> bit (Z.land a w) f = bit a f && bit w f.
Proof. intros (k & Hk & ->). by rewrite !bit_testbit, Z.land_spec by done. Qed.

Ltac a_bit k := exists k; split; [lia|reflexivity].
Lemma one_private : one_bit MODE_PRIVATE. Proof. a_bit 2. Qed.
Lemma one_secret : one_bit MODE_SECRET. Proof. a_bit 3. Qed.
Lemma one_limit_bit : one_bit MODE_LIMIT. Proof. a_bit 10. Qed.
Lemma one_wipeout : one_bit MODE_PARSE_WIPEOUT. Proof. a_bit 6. Qed.
#[local] Hint Resolve one_private one_secret one_limit_bit one_wipeout : core.

Definition key_ok (s : cstring) : Prop := (length s <= KEYLEN)%nat /\ Forall (fun c => bad_key_char c = false) s.

(** The mode word [z], with a limit [l]. *)
Definition bits_ok (z l : Z) : Prop :=
  bit z MODE_PRIVATE && bit z MODE_SECRET = false /\ bit z MODE_LIMIT = negb (l =? 0) /\ 0 <= l < 2 ^ 31.

Record chan_ok (ch : mchan) : Prop := {
  ok_bits : bits_ok (mode (mc_mode ch)) (limit (mc_mode ch));
  ok_key : key_ok (key (mc_mode ch));
  ok_upass : key_ok (upass (mc_mode ch));
  ok_apass : key_ok (apass (mc_mode ch));
  ok_levels : Forall (fun m => 0 <= oplevel m <= MAXOPLEVEL) (mc_members ch)
}.

(** What a line leaves as it was: the name, the members, and the time but for
    an earlier one. *)
Definition kept_chan (ch ch' : mchan) : Prop :=
  mc_name ch' = mc_name ch /\ map user (mc_members ch') = map user (mc_members ch) /\ mc_time ch' <= mc_time ch.

Lemma kept_refl ch : kept_chan ch ch.
Proof. by split_and!. Qed.
Lemma kept_trans a b c : kept_chan a b -> kept_chan b c -> kept_chan a c.
Proof. intros (H1 & H2 & H3) (K1 & K2 & K3). split_and!; [congruence..|lia]. Qed.

(** The buffer changes at most the mode that stands for hidden joins. *)
Definition but_delayed (ch ch' : mchan) : Prop :=
  exists z, ch' = set_bits z ch /\ forall f, Z.land MODE_WASDELJOINS f = 0 -> bit z f = bit (mode (mc_mode ch)) f.

Lemma set_bits_id ch : set_bits (mode (mc_mode ch)) ch = ch.
Proof. by destruct ch as [? ? [] ? ? ? ?]. Qed.

Lemma delayed_refl ch : but_delayed ch ch.
Proof. exists (mode (mc_mode ch)). by rewrite set_bits_id. Qed.
Lemma delayed_trans a b c : but_delayed a b -> but_delayed b c -> but_delayed a c.
Proof. intros (z & -> & Hz) (y & -> & Hy). exists y. split; [done|]. intros f Hf. by rewrite Hy, Hz. Qed.

Lemma delayed_ok ch ch' : but_delayed ch ch' -> chan_ok ch -> chan_ok ch'.
Proof.
  intros (z & -> & Hz) [(H1 & H2 & H3) Hk Hu Ha Hl]. constructor; try done. cbn [set_bits with_mc_mode mc_mode set_mode mode limit].
  unfold bits_ok. by rewrite !Hz.
Qed.

Lemma delayed_kept ch ch' : but_delayed ch ch' -> kept_chan ch ch'.
Proof. intros (z & -> & _). by split_and!. Qed.

Section delayed.
Context (cli_name NumNick : positive -> cstring).

Lemma adjust_delayed_chan ch mb : but_delayed ch (fst (adjust_delayed ch mb)).
Proof.
  assert (Hor : forall ch, but_delayed ch (set_bits (Z.lor (mode (mc_mode ch)) MODE_WASDELJOINS) ch)).
  { intros c. eexists. split; [done|]. intros f Hf. by apply bit_lor. }
  assert (Hdiff : forall ch, but_delayed ch (set_bits (Z.ldiff (mode (mc_mode ch)) MODE_WASDELJOINS) ch)).
  { intros c. eexists. split; [done|]. intros f Hf. by apply bit_ldiff. }
  unfold adjust_delayed. destruct (_ && find_delayed ch);
    match goal with |- context [if ?c then _ else _] => destruct c end; cbn [fst]; auto using delayed_refl.
  eapply delayed_trans; [apply Hor|apply Hdiff].
Qed.

Lemma flush_int_chan n : forall all ch mb r, modebuf_flush_int cli_name NumNick n all ch mb = Some r -> but_delayed ch (fst r).
Proof.
  induction n as [|n IH]; intros all ch mb r; cbn [modebuf_flush_int]; [done|].
  destruct (_ && _); [intros [= <-]; apply delayed_refl|]. pose proof (adjust_delayed_chan ch mb) as Ha.
  destruct (adjust_delayed ch mb) as [ch1 mb1]. cbn [fst] in Ha. destruct (flush_lines _ _ _ _) as [mb2|]; cbn [mbind option_bind]; [|done].
  destruct (_ && _); [|by intros [= <-]]. intros H. eapply delayed_trans; [exact Ha|by apply (IH all ch1 mb2)].
Qed.

Lemma flush_chan ch mb r : modebuf_flush cli_name NumNick ch mb = Some r -> but_delayed ch (fst r).
Proof. exact (flush_int_chan flush_fuel true ch mb r). Qed.

Lemma push_arg_chan m ch mb r : push_arg cli_name NumNick m ch mb = Some r -> but_delayed ch (fst r).
Proof.
  unfold push_arg. cbv zeta. destruct (_ <=? _); [apply flush_int_chan|]. intros [= <-]. apply delayed_refl.
Qed.

Lemma mode_uint_chan m n ch mb r : modebuf_mode_uint cli_name NumNick m n ch mb = Some r -> but_delayed ch (fst r).
Proof. unfold modebuf_mode_uint. destruct (_ =? _); [intros [= <-]; apply delayed_refl|apply push_arg_chan]. Qed.
Lemma mode_string_chan m s free ch mb r : modebuf_mode_string cli_name NumNick m s free ch mb = Some r -> but_delayed ch (fst r).
Proof. apply push_arg_chan. Qed.
Lemma mode_client_chan m c lvl ch mb r : modebuf_mode_client cli_name NumNick m c lvl ch mb = Some r -> but_delayed ch (fst r).
Proof. apply push_arg_chan. Qed.
End delayed.

Section sound.
Context (E : mode_env) (src : msource).
Implicit Types (st : pstate).

Definition masks_ok (a d : Z) : Prop :=
  bit a MODE_PRIVATE && bit a MODE_SECRET = false /\
  (bit a MODE_SECRET = true -> bit d MODE_PRIVATE = true) /\ (bit a MODE_PRIVATE = true -> bit d MODE_SECRET = true) /\
  bit a MODE_LIMIT = false /\ bit d MODE_LIMIT = false.

Record sound (ch0 : mchan) st : Prop := {
  so_chan : chan_ok (p_chan st);
  so_kept : kept_chan ch0 (p_chan st);
  so_wipe : pflag st MODE_PARSE_WIPEOUT = false;
  so_masks : masks_ok (p_add st) (p_del st);
  so_levels : Forall (fun x => 0 <= c_oplevel x) (p_changes st)
}.

Lemma sound_frame ch0 st st' : sound ch0 st -> p_chan st' = p_chan st -> p_flags st' = p_flags st -> p_add st' = p_add st ->
  p_del st' = p_del st -> p_changes st' = p_changes st -> sound ch0 st'.
Proof.
  intros [] H1 H2 H3 H4 H5. unfold pflag in *. constructor; unfold pflag; by rewrite ?H1, ?H2, ?H3, ?H4, ?H5.
Qed.

Ltac frame H := apply (sound_frame _ _ _ H); reflexivity.

Lemma sound_reply ch0 r st : sound ch0 st -> sound ch0 (reply r st). Proof. intros H. frame H. Qed.
Lemma sound_done ch0 f st : sound ch0 st -> sound ch0 (upd_done f st). Proof. intros H. frame H. Qed.
Lemma sound_dir ch0 d st : sound ch0 st -> sound ch0 (upd_dir d st). Proof. intros H. frame H. Qed.
Lemma sound_args ch0 l u m st : sound ch0 st -> sound ch0 (upd_args l u m st). Proof. intros H. frame H. Qed.
Lemma sound_my ch0 r st : sound ch0 st -> sound ch0 (to_my src r st).
Proof. intros H. unfold to_my. destruct (s_my src); [by apply sound_reply|done]. Qed.
Lemma sound_notoper ch0 st : sound ch0 st -> sound ch0 (send_notoper st).
Proof. intros H. unfold send_notoper. destruct (pdone st DONE_NOTOPER); [done|]. frame H. Qed.
Lemma sound_grab ch0 st a st' : sound ch0 st -> grab st = Some (a, st') -> sound ch0 st'.
Proof. unfold grab. intros H. destruct (p_args st); [done|]. intros [= <- <-]. frame H. Qed.
Lemma sound_first ch0 a d st st' : sound ch0 st -> first_time a d st = Some st' -> sound ch0 st'.
Proof.
  intros H. unfold first_time. destruct (p_dir st); destruct (pdone st _); try done; intros [= <-]; by apply sound_done.
Qed.

Lemma sound_upd ch0 ch st : sound ch0 st -> chan_ok ch -> kept_chan (p_chan st) ch -> sound ch0 (upd_chan ch st).
Proof. intros [] Hc Hk. constructor; try done. by apply (kept_trans _ (p_chan st)). Qed.

Lemma sound_mode ch0 m st : sound ch0 st -> bits_ok (mode m) (limit m) -> key_ok (key m) -> key_ok (upass m) -> key_ok (apass m) ->
  sound ch0 (set_cmode m st).
Proof.
  intros H H1 H2 H3 H4. apply sound_upd; [done| |by split_and!]. destruct (so_chan _ _ H). constructor; done.
Qed.

Lemma sound_buffered ch0 op st st' : (forall ch mb r, op ch mb = Some r -> but_delayed ch (fst r)) ->
  sound ch0 st -> buffered op st = Some st' -> sound ch0 st' /\ p_dir st' = p_dir st.
Proof.
  intros Hop H. unfold buffered. destruct (p_mbuf st) as [mb|]; cbn [mbind option_bind]; [|done].
  destruct (op (p_chan st) mb) as [[ch mb']|] eqn:Ho; cbn [mbind option_bind]; [|done]. intros [= <-]. split; [|done].
  apply Hop in Ho. cbn [fst] in Ho. destruct H as [H1 H2 H3 H4 H5]. constructor; try done.
  - by apply (delayed_ok (p_chan st)).
  - apply (kept_trans _ (p_chan st)); [done|by apply delayed_kept].
Qed.

(** *** The limit *)
Lemma strtoul_range s : 0 <= strtoul s < 2 ^ 32.
Proof. apply w32_range. Qed.

Lemma limit_bits z l t : bits_ok z l -> t <> 0 -> 0 <= t < 2 ^ 31 -> bits_ok (Z.lor z MODE_LIMIT) t.
Proof.
  intros (H1 & H2 & H3) Ht Hr. unfold bits_ok. rewrite !bit_or. apply Z.eqb_neq in Ht. rewrite Ht.
  destruct (bit z MODE_PRIVATE), (bit z MODE_SECRET), (bit z MODE_LIMIT); cbn; split_and!; done || lia.
Qed.

Lemma no_limit_bits z l : bits_ok z l -> bits_ok (Z.ldiff z MODE_LIMIT) 0.
Proof.
  intros (H1 & H2 & H3). unfold bits_ok. rewrite !bit_diff by auto.
  destruct (bit z MODE_PRIVATE), (bit z MODE_SECRET), (bit z MODE_LIMIT); cbn; split_and!; done || lia.
Qed.

Lemma sound_limit_change ch0 t st st' : sound ch0 st -> (p_dir st = true -> t <> 0 /\ 0 <= t < 2 ^ 31) ->
  limit_change E t st = Some st' -> sound ch0 st'.
Proof.
  intros H Ht. unfold limit_change. destruct (refused st); [intros [= <-]; by apply sound_notoper|].
  repeat (match goal with |- context [if ?c then Some st else _] => destruct c end; [by intros [= <-]|]).
  assert (H1 : sound ch0 (upd_done DONE_LIMIT st)) by (by apply sound_done).
  destruct (p_mbuf (upd_done DONE_LIMIT st)) as [mb|]; [|by intros [= <-]].
  destruct (buffered _ _) as [st2|] eqn:Hb; cbn [mbind option_bind]; [|done].
  apply sound_buffered with (ch0 := ch0) in Hb as [H2 Hd]; [|intros ch mb' r; apply mode_uint_chan|done].
  intros [= <-]. destruct (negb _); [done|]. destruct (so_chan _ _ H2) as [Hb Hk Hu Ha _].
  destruct (p_dir st2) eqn:Ed; apply sound_mode; try done; cbn [with_limit mode limit]; [|by eapply no_limit_bits].
  assert (Hst : p_dir st = true) by (change (p_dir st) with (p_dir (upd_done DONE_LIMIT st)); congruence).
  eapply limit_bits; [exact Hb|by apply Ht..].
Qed.

Lemma sound_limit ch0 st st' : sound ch0 st -> mode_parse_limit E src st = Some st' -> sound ch0 st'.
Proof.
  intros H. unfold mode_parse_limit. destruct (p_dir st) eqn:Ed; cbn [negb]; [|by apply sound_limit_change; [|congruence]].
  destruct (too_many _ _); [by intros [= <-]|]. destruct (grab st) as [[a st1]|] eqn:Hg; [|intros [= <-]; by apply sound_my].
  pose proof (sound_grab _ _ _ _ H Hg) as H1. cbv zeta. destruct (Z.leb_spec (2 ^ 31) (strtoul a)) as [|Hlt]; [by intros [= <-]|].
  rewrite (so_wipe _ _ H1). cbn [negb andb]. destruct (Z.eqb_spec (strtoul a) 0) as [|Hne]; [by intros [= <-]|]. cbn [orb].
  destruct (_ =? _); [by intros [= <-]|]. apply sound_limit_change; [done|]. pose proof (strtoul_range a). split; [done|lia].
Qed.

(** *** The key and the passwords *)
Lemma key_error_ok s cmd : key_error s cmd = None -> key_ok (ircd_strncpy s KEYLEN) /\ ircd_strncpy s KEYLEN = s.
Proof.
  unfold key_error. destruct s as [|c s]; [done|]. destruct (c =c ":"); [done|]. destruct (existsb _ _) eqn:He; [done|].
  destruct (KEYLEN <? length (c :: s))%nat eqn:Hl; [done|]. intros _. apply Nat.ltb_ge in Hl.
  unfold ircd_strncpy. rewrite take_ge in He |- * by lia. split; [|done]. split; [done|].
  apply Forall_forall. intros x Hx. destruct (bad_key_char x) eqn:Hb; [|done].
  assert (existsb bad_key_char (c :: s) = true); [|congruence]. apply existsb_exists. exists x. split; [by apply list_elem_of_In|done].
Qed.

Lemma key_nil : key_ok [].
Proof. split; [cbn; lia|constructor]. Qed.

Lemma sound_string ch0 f old t st st' : sound ch0 st -> string_change E f old t st = Some st' -> sound ch0 st'.
Proof.
  intros H. unfold string_change. destruct (if pflag st MODE_PARSE_BOUNCE then _ else _) as [d s].
  intros Hb. by apply sound_buffered with (ch0 := ch0) in Hb as [? _]; [|intros ch mb' r; apply mode_string_chan|].
Qed.

Lemma sound_key ch0 st st' : sound ch0 st -> mode_parse_key E src st = Some st' -> sound ch0 st'.
Proof.
  intros H. unfold mode_parse_key. destruct (too_many _ _); [by intros [= <-]|].
  destruct (grab st) as [[a st1]|] eqn:Hg; [|intros [= <-]; by apply sound_my]. apply (sound_grab _ _ _ _ H) in Hg as H1. clear H Hg.
  destruct (refused st1); [intros [= <-]; by apply sound_notoper|].
  destruct (first_time _ _ st1) as [st2|] eqn:Hf; [|by intros [= <-]]. apply (sound_first _ _ _ _ _ H1) in Hf as H2. clear H1 Hf.
  destruct (key_error _ _) as [r|] eqn:Hk; [intros [= <-]; by apply sound_my|]. destruct (p_mbuf st2) as [mb|]; [|by intros [= <-]].
  cbv zeta. destruct (burst_keeps _ _ _); [by intros [= <-]|]. destruct (_ && _); [intros [= <-]; by apply sound_reply|].
  destruct (unchanged _ _ _); [by intros [= <-]|]. destruct (string_change _ _ _ _ _) as [st3|] eqn:Hs; cbn [mbind option_bind]; [|done].
  apply (sound_string _ _ _ _ _ _ H2) in Hs as H3. intros [= <-]. destruct (pflag st3 MODE_PARSE_SET); [|done].
  destruct (so_chan _ _ H3) as [Hb Hok Hu Ha _]. apply sound_mode; try done.
  cbn [with_key key]. destruct (p_dir st3); [by eapply key_error_ok|apply key_nil].
Qed.

Lemma sound_upass_change ch0 a st1 st' : sound ch0 st1 -> upass_change E src a st1 = Some st' -> sound ch0 st'.
Proof.
  intros H1. unfold upass_change.
  destruct (first_time _ _ st1) as [st2|] eqn:Hf; [|by intros [= <-]]. apply (sound_first _ _ _ _ _ H1) in Hf as H2. clear H1 Hf.
  destruct (key_error _ _) as [r|] eqn:Hk; [intros [= <-]; by apply sound_my|]. destruct (p_mbuf st2) as [mb|]; [|by intros [= <-]].
  destruct (upass_error a st2) as [r|]; [intros [= <-]; by apply sound_reply|]. cbv zeta.
  destruct (_ || _); [by intros [= <-]|]. destruct (string_change _ _ _ _ _) as [st3|] eqn:Hs; cbn [mbind option_bind]; [|done].
  apply (sound_string _ _ _ _ _ _ H2) in Hs as H3. intros [= <-]. destruct (pflag st3 MODE_PARSE_SET); [|done].
  destruct (so_chan _ _ H3) as [Hb Hok Hu Ha _]. apply sound_mode; try done.
  cbn [with_upass upass]. destruct (p_dir st3); [by eapply key_error_ok|apply key_nil].
Qed.

Lemma sound_upass ch0 st st' : sound ch0 st -> mode_parse_upass E src st = Some st' -> sound ch0 st'.
Proof.
  intros H. unfold mode_parse_upass. destruct (too_many _ _); [by intros [= <-]|].
  destruct (grab st) as [[a st1]|] eqn:Hg; [|intros [= <-]; by apply sound_my]. apply (sound_grab _ _ _ _ H) in Hg as H1. clear H Hg.
  destruct (refused st1); [intros [= <-]; by apply sound_notoper|]. destruct (_ && _); [intros [= <-]; by apply sound_reply|].
  destruct (_ && _); [|by apply sound_upass_change]. destruct (not_manager src st1) as [no|]; cbn [mbind option_bind]; [|done].
  destruct no; [intros [= <-]; by apply sound_reply|by apply sound_upass_change].
Qed.

Lemma sound_members ch0 g st : sound ch0 st -> (forall m, user (g m) = user m) ->
  (forall m, 0 <= oplevel m <= MAXOPLEVEL -> 0 <= oplevel (g m) <= MAXOPLEVEL) ->
  sound ch0 (upd_chan (upd_members g (p_chan st)) st).
Proof.
  intros H Hu Hl. destruct (so_chan _ _ H) as [H1 H2 H3 H4 H5]. apply sound_upd; [done| |].
  - constructor; try done. cbn [upd_members mc_members]. apply Forall_map. eapply Forall_impl; [exact H5|done].
  - split_and!; try done. cbn [upd_members mc_members]. rewrite map_map. by apply map_ext.
Qed.

Lemma sound_apass_set ch0 a cmd st : sound ch0 st -> key_error a cmd = None -> sound ch0 (apass_set src a st).
Proof.
  intros H Hk. unfold apass_set. destruct (so_chan _ _ H) as [H1 H2 H3 H4 H5]. cbv zeta. destruct (p_dir st).
  - assert (Hs : sound ch0 (to_my src RApassWarnSet (if negb (nonempty (apass (cm st))) || pflag st MODE_PARSE_BURST
      then set_cmode (with_apass (ircd_strncpy a KEYLEN) (cm st)) st else st))).
    { apply sound_my. destruct (_ || _); [|done]. apply sound_mode; try done. by eapply key_error_ok. }
    match goal with |- sound _ (if ?c then _ else _) => destruct c end; [|done].
    apply sound_members; [done|intros m; by case_bool_decide|]. intros m Hm. case_bool_decide; [unfold MAXOPLEVEL; cbn; lia|done].
  - apply sound_members.
    + apply sound_my, sound_mode; try done; apply key_nil.
    + intros m. by destruct (IsChanOp m).
    + intros m Hm. destruct (IsChanOp m); [unfold MAXOPLEVEL; cbn; lia|done].
Qed.

Lemma apass_error_sound ch0 a st r : sound ch0 st -> apass_error E src a st = Some (Some r) -> sound ch0 (r st).
Proof.
  intros H. assert (Hlast : forall c, (if c : bool then Some (reply [RChanSecured]) else None) = Some r -> sound ch0 (r st)).
  { intros [|]; [|done]. intros [= <-]. by apply sound_reply. }
  unfold apass_error. destruct (negb (s_my src)); [done|]. destruct (pflag st MODE_PARSE_FORCE).
  - destruct (negb (s_apass_priv src)); [intros [= <-]; by apply sound_reply|]. intros [= Hr]. by eapply Hlast.
  - destruct (not_manager src st) as [no|]; cbn [mbind option_bind]; [|done]. intros [= Hr]. revert Hr.
    destruct no; [intros [= <-]; by apply sound_reply|]. destruct (_ && _); [intros [= <-]; by apply sound_reply|].
    destruct (key_clash _ _ _); [intros [= <-]; by apply sound_reply|apply Hlast].
Qed.

Lemma sound_apass ch0 st st' : sound ch0 st -> mode_parse_apass E src st = Some st' -> sound ch0 st'.
Proof.
  intros H. unfold mode_parse_apass. destruct (too_many _ _); [by intros [= <-]|].
  destruct (grab st) as [[a st1]|] eqn:Hg; [|intros [= <-]; by apply sound_my]. apply (sound_grab _ _ _ _ H) in Hg as H1. clear H Hg.
  destruct (refused st1); [intros [= <-]; by apply sound_notoper|]. destruct (apass_error E src a st1) as [[r|]|] eqn:He; cbn [mbind option_bind]; [| |done].
  { intros [= <-]. by eapply apass_error_sound. }
  destruct (first_time _ _ st1) as [st2|] eqn:Hf; [|by intros [= <-]]. apply (sound_first _ _ _ _ _ H1) in Hf as H2. clear H1 Hf.
  destruct (key_error _ _) as [r|] eqn:Hk; [intros [= <-]; by apply sound_my|]. destruct (p_mbuf st2) as [mb|]; [|by intros [= <-]].
  cbv zeta. destruct (_ || _); [by intros [= <-]|]. destruct (string_change _ _ _ _ _) as [st3|] eqn:Hs; cbn [mbind option_bind]; [|done].
  apply (sound_string _ _ _ _ _ _ H2) in Hs as H3. intros [= <-]. destruct (pflag st3 MODE_PARSE_SET); [|done]. by eapply sound_apass_set.
Qed.

(** *** Bans *)
Lemma sound_with_bans ch0 l p st : sound ch0 st -> sound ch0 (upd_chan (with_bans l p (p_chan st)) st).
Proof. intros H. destruct (so_chan _ _ H). apply sound_upd; [done|by constructor|by split_and!]. Qed.

Lemma sound_ban ch0 st st' : sound ch0 st -> mode_parse_ban E src st = Some st' -> sound ch0 st'.
Proof.
  intros H. unfold mode_parse_ban. destruct (p_args st) as [|a l].
  - intros [= <-]. destruct (_ && _); [|done]. by apply sound_done, sound_reply.
  - destruct (too_many _ _); [by intros [= <-]|]. destruct (grab st) as [[b st1]|] eqn:Hg; cbn [mbind option_bind]; [|done].
    apply (sound_grab _ _ _ _ H) in Hg as H1. destruct (refused st1); [intros [= <-]; by apply sound_notoper|].
    destruct (_ || _); [intros [= <-]; by apply sound_my|]. destruct (_ <=? _)%nat; [done|].
    destruct (change_ban _ _ _ _ _ _ _) as [[[bans z] p]|]; cbn [mbind option_bind]; [|done]. intros [= <-].
    pose proof (sound_with_bans ch0 bans p _ (sound_done ch0 DONE_BANCLEAN st1 H1)) as [? ? ? ? ?]. by constructor.
Qed.

Lemma sound_steps {A : Type} ch0 (f : pstate -> A -> option pstate) l :
  (forall st (x : A) st', x ∈ l -> sound ch0 st -> f st x = Some st' -> sound ch0 st') ->
  forall st st', sound ch0 st -> steps f l st = Some st' -> sound ch0 st'.
Proof.
  intros Hf. induction l as [|x l IH]; intros st st' H; cbn [steps]; [by intros [= <-]|].
  destruct (f st x) as [st1|] eqn:Hx; cbn [mbind option_bind]; [|done]. apply IH; [intros; eapply Hf; [|done..]; set_solver|].
  eapply Hf; [|exact H|exact Hx]. set_solver.
Qed.

Lemma sound_put_ban ch0 st o st' : sound ch0 st -> put_ban E st o = Some st' -> sound ch0 st'.
Proof.
  intros H. destruct o; cbn [put_ban]; [| |intros [= <-]; by apply sound_reply]; intros Hb;
    by apply sound_buffered with (ch0 := ch0) in Hb as [? _]; [|intros ch mb' r; apply mode_string_chan|].
Qed.

Lemma sound_process_bans ch0 st st' : sound ch0 st -> mode_process_bans E src st = Some st' -> sound ch0 st'.
Proof.
  intros H. unfold mode_process_bans. destruct (p_mbuf st) as [mb|]; cbn [mbind option_bind]; [|done].
  destruct (Bans.mode_process_bans _ _ _) as [[[bans changed] p] outs].
  destruct (steps _ _ _) as [st1|] eqn:Hs; cbn [mbind option_bind]; [|done]. intros [= <-].
  assert (H1 : sound ch0 st1).
  { eapply sound_steps; [|apply sound_with_bans, H|exact Hs]. intros; by eapply sound_put_ban. }
  destruct changed; [|done]. by apply sound_members.
Qed.

(** *** Operators and voices *)
Lemma put_change_levels f x l : 0 <= c_oplevel x -> Forall (fun x => 0 <= c_oplevel x) l ->
  Forall (fun x => 0 <= c_oplevel x) (put_change f x l).
Proof.
  intros Hx. induction 1 as [|y l Hy Hl IH]; cbn [put_change]; [by repeat constructor|]. destruct (_ && _); by constructor.
Qed.

Lemma sound_client ch0 f st st' : sound ch0 st -> mode_parse_client E src f st = Some st' -> sound ch0 st'.
Proof.
  intros H. unfold mode_parse_client. destruct (too_many _ _); [by intros [= <-]|].
  destruct (grab st) as [[a st1]|] eqn:Hg; [|by intros [= <-]]. apply (sound_grab _ _ _ _ H) in Hg as H1. clear H Hg.
  destruct (refused st1); [intros [= <-]; by apply sound_notoper|].
  destruct (if s_my src then _ else _) as [[[c|] lvl]|]; [|by intros [= <-]|intros [= <-]; by apply sound_reply].
  cbv zeta. destruct (_ <? _)%nat; [done|]. intros [= <-]. destruct H1 as [H1 H2 H3 H4 H5]. constructor; try done.
  cbn [upd_changes p_changes]. apply put_change_levels; [apply w16_range|done].
Qed.

Lemma sound_check ch0 st : sound ch0 st -> sound ch0 (CheckDelayedJoins st).
Proof.
  intros H. unfold CheckDelayedJoins. destruct (_ && _); [|done]. apply sound_reply. destruct (so_chan _ _ H) as [(H1 & H2 & H3) ? ? ? ?].
  apply sound_mode; try done. cbn [set_mode mode limit]. unfold bits_ok. by rewrite !bit_ldiff.
Qed.

Lemma sound_status ch0 c g st : sound ch0 st -> sound ch0 (upd_chan (upd_mem c (with_status g) (p_chan st)) st).
Proof. intros H. apply sound_members; [done|intros m; by case_bool_decide..]. Qed.

Lemma sound_client_set ch0 x m st : sound ch0 st -> sound ch0 (client_set x m st).
Proof.
  intros H. unfold client_set. destruct (bit (c_flag x) MODE_ADD); [|by apply sound_status].
  apply sound_status. destruct (_ && _); [|done]. by apply sound_check, sound_reply, sound_status.
Qed.

Lemma find_mem_in c ch m : find_mem c ch = Some m -> m ∈ mc_members ch /\ user m = c.
Proof.
  unfold find_mem. intros Hf. apply find_some in Hf as [Hin Hu]. apply bool_decide_eq_true in Hu. split; [by apply list_elem_of_In|done].
Qed.

Lemma new_oplevel_ok ch0 x st : sound ch0 st -> 0 <= c_oplevel x -> 0 <= new_oplevel src x st <= MAXOPLEVEL.
Proof.
  intros H Hx. unfold new_oplevel. destruct (Z.leb_spec (c_oplevel x) MAXOPLEVEL) as [|Hlt]; [done|].
  destruct (member src st) as [m|] eqn:Hm; [|unfold MAXOPLEVEL; lia]. unfold member in Hm. destruct (p_member st); [|done].
  apply find_mem_in in Hm as [Hm _]. pose proof (ok_levels _ (so_chan _ _ H)) as Hl. rewrite Forall_forall in Hl. specialize (Hl m Hm).
  destruct (Z.leb_spec MAXOPLEVEL (oplevel m)); lia.
Qed.

Lemma sound_process_client ch0 st x st' : 0 <= c_oplevel x -> sound ch0 st -> process_client E src st x = Some st' -> sound ch0 st'.
Proof.
  intros Hx H. unfold process_client. destruct (find_mem (c_client x) (p_chan st)) as [m|]; [|intros [= <-]; by apply sound_my].
  destruct (_ && IsZombie m); [intros [= <-]; by apply sound_my|]. cbv zeta. destruct (Bool.eqb _ _); [by intros [= <-]|].
  set (st1 := if _ && _ && pflag st MODE_PARSE_FORCE then _ else st).
  assert (H1 : sound ch0 st1) by (unfold st1; destruct (_ && pflag st MODE_PARSE_FORCE); [by apply sound_reply|done]). clearbody st1.
  destruct (if negb _ && _ then deop_refused E src x m st1 else None) as [r|]; [intros [= <-]; by apply sound_reply|].
  set (st2 := if bit (c_flag x) MODE_ADD && bit (c_flag x) MODE_CHANOP then _ else st1).
  assert (H2 : sound ch0 st2).
  { unfold st2. destruct (_ && _); [|done]. pose proof (new_oplevel_ok ch0 x st1 H1 Hx) as Hn. unfold MAXOPLEVEL in Hn. apply sound_members; [done|intros y; by case_bool_decide|].
    intros y Hy. case_bool_decide; [|done]. cbn [SetOpLevel oplevel]. rewrite w16_small by lia. unfold MAXOPLEVEL. lia. }
  clearbody st2. intros Hb. apply sound_buffered with (ch0 := ch0) in Hb as [? _]; [done|intros ch mb' r; apply mode_client_chan|].
  destruct (pflag st2 MODE_PARSE_SET); [by apply sound_client_set|done].
Qed.

Lemma sound_process_clients ch0 st st' : sound ch0 st -> mode_process_clients E src st = Some st' -> sound ch0 st'.
Proof.
  intros H. unfold mode_process_clients. destruct (_ <? _)%nat; [|done]. pose proof (so_levels _ _ H) as Hl. rewrite Forall_forall in Hl.
  apply sound_steps; [|done]. intros st1 x st2 Hx. apply sound_process_client. by apply Hl.
Qed.

(** *** The modes without an argument *)

(** The letters that [mode_parse_mode] is used for. *)
Definition plain_letter (c : ascii) : bool := negb (existsb (fun d => c =c d) ["+"%char; "-"%char; "l"%char; "k"%char; "A"%char; "U"%char; "b"%char; "r"%char; "o"%char; "v"%char]).

Lemma plain_flag c f : flag_of c = Some f -> plain_letter c = true ->
  bit f MODE_LIMIT = false /\ bit f MODE_PRIVATE && bit f MODE_SECRET = false.
Proof.
  assert (Hall : Forall (fun x => plain_letter (snd x) = true ->
     bit (fst x) MODE_LIMIT = false /\ bit (fst x) MODE_PRIVATE && bit (fst x) MODE_SECRET = false) chan_flags).
  { unfold chan_flags. repeat (apply Forall_cons_2; [done|]). apply Forall_nil_2. }
  unfold flag_of. destruct (find _ chan_flags) as [x|] eqn:Hf; cbn [fmap option_fmap option_map]; [|done]. intros [= <-] Hp.
  apply find_some in Hf as [Hin Heq]. apply ch_eqb_eq in Heq. rewrite Forall_forall in Hall. apply (Hall x); [by apply list_elem_of_In|by rewrite Heq].
Qed.

Lemma sound_mode_mode ch0 f st : bit f MODE_LIMIT = false -> bit f MODE_PRIVATE && bit f MODE_SECRET = false ->
  sound ch0 st -> sound ch0 (mode_parse_mode src f st).
Proof.
  intros Hl Hps H. unfold mode_parse_mode. destruct (refused st); [by apply sound_notoper|]. destruct (p_mbuf st); [|done].
  destruct (_ && s_my src); [done|]. destruct H as [H1 H2 H3 (M1 & M2 & M3 & M4 & M5) H5].
  assert (Hm : forall a d, masks_ok a d -> sound ch0 (upd_addel a d st)) by (intros a d Hm; by constructor).
  assert (bit MODE_PRIVATE MODE_SECRET = false /\ bit MODE_SECRET MODE_PRIVATE = false /\ bit MODE_PRIVATE MODE_LIMIT = false /\
    bit MODE_SECRET MODE_LIMIT = false /\ bit MODE_PRIVATE MODE_PRIVATE = true /\ bit MODE_SECRET MODE_SECRET = true) as (C1 & C2 & C3 & C4 & C5 & C6) by done.
  destruct (p_dir st); [destruct (bit f MODE_SECRET) eqn:Es; [|destruct (bit f MODE_PRIVATE) eqn:Ep]|]; apply Hm; unfold masks_ok;
    rewrite ?bit_or, ?bit_diff, ?bit_or by auto; rewrite ?bit_diff by auto; rewrite ?Hl, ?M4, ?M5, ?C1, ?C2, ?C3, ?C4, ?C5, ?C6; cbn [orb andb negb];
    destruct (bit (p_add st) MODE_PRIVATE), (bit (p_add st) MODE_SECRET), (bit f MODE_PRIVATE); try destruct (bit f MODE_SECRET);
    try discriminate; cbn [orb andb negb]; split_and!; try done; intros; rewrite ?orb_true_r; auto;
    try (rewrite M2 by done; done); try (rewrite M3 by done; done).
Qed.

Lemma sound_char ch0 st c st' : sound ch0 st -> mode_char E src st c = Some st' -> sound ch0 st'.
Proof.
  intros H. unfold mode_char. destruct (flag_of c) as [f|] eqn:Hf; [|intros [= <-]; by apply sound_my].
  pose proof (fun Hp => sound_mode_mode ch0 f st (proj1 (plain_flag c f Hf Hp)) (proj2 (plain_flag c f Hf Hp)) H) as Hm.
  unfold plain_letter in Hm. cbn [existsb] in Hm.
  destruct (c =c "+"); [intros [= <-]; by apply sound_dir|]. destruct (c =c "-"); [intros [= <-]; by apply sound_dir|].
  destruct (c =c "l"); [by apply sound_limit|]. destruct (c =c "k"); [by apply sound_key|].
  destruct (c =c "A"); [destruct (s_cserver src || _); [by apply sound_apass|by intros [= <-]]|].
  destruct (c =c "U"); [destruct (s_cserver src || _); [by apply sound_upass|by intros [= <-]]|].
  destruct (ch_eqb_spec c "O") as [->|]; [specialize (Hm eq_refl); intros [= <-]; by destruct (_ || _)|].
  destruct (ch_eqb_spec c "z") as [->|]; [specialize (Hm eq_refl); intros [= <-]; by destruct (_ || _)|].
  destruct (c =c "b"); [by apply sound_ban|]. destruct (c =c "r"); [by intros [= <-]|].
  destruct (c =c "o"), (c =c "v"); cbn [orb] in Hm |- *; try (by apply sound_client). specialize (Hm eq_refl). by intros [= <-].
Qed.

Lemma sound_words ch0 n : forall s st st' b, sound ch0 st -> mode_words E src n s st = Some (st', b) -> sound ch0 st'.
Proof.
  induction n as [|n IH]; intros s st st' b H; [done|]. rewrite mode_words_eq. destruct s as [|c s]; [by intros [= <- <-]|].
  destruct (steps _ _ st) as [st1|] eqn:Hs; cbn [mbind option_bind]; [|done].
  assert (H1 : sound ch0 st1) by (eapply sound_steps; [|exact H|exact Hs]; intros ? ? ? _; apply sound_char). clear H Hs.
  destruct (pflag st1 _); [by intros [= <- <-]|]. destruct (p_args st1) as [|a l]; [by intros [= <- <-]|]. cbv zeta.
  assert (H2 : sound ch0 (upd_args l (S (p_used st1)) (p_max st1) st1)) by (by apply sound_args).
  set (st2 := upd_args l _ _ st1) in *. clearbody st2. destruct (_ && IsDigit _).
  - destruct (pflag st1 MODE_PARSE_SET); [|by intros [= <- <-]]. unfold receive_ts. destruct (_ && _) eqn:Ht.
    + intros [= <- <-]. apply andb_prop in Ht as [_ Ht]. apply Z.ltb_lt in Ht. destruct (so_chan _ _ H2).
      apply sound_upd; [done|by constructor|]. split_and!; try done. cbn. lia.
    + clear Ht. destruct (_ <? _); [|by intros [= <- <-]]. destruct (p_mbuf st2) as [mb|]; [|by intros [= <- <-]].
      destruct (s_burst src); intros [= <- <-]; destruct H2 as [? ? K3 ? ?]; constructor; try done.
      unfold pflag in *. cbn [upd_mbuf_chan upd_flags p_flags]. rewrite bit_or, bit_diff, K3 by auto. done.
  - destruct (_ || _); [by intros [= <- <-]|]. by apply IH.
Qed.

Lemma sound_simple ch0 st st' : sound ch0 st -> simple_modes st = Some st' -> sound ch0 st'.
Proof.
  intros H. unfold simple_modes. destruct (p_mbuf st) as [mb|]; cbn [mbind option_bind]; [|done]. cbv zeta.
  destruct (if bit (p_del st) _ then _ else _) as [mb1 t1] eqn:E1. destruct (if negb _ then _ else (mb1, t1)) as [mb2 t2] eqn:E2.
  intros [= <-]. set (m := mode (cm st)) in *.
  assert (Hrest : sound ch0 (upd_mbuf_chan (p_chan st, mb2) st)) by (by destruct H; constructor).
  destruct (pflag _ MODE_PARSE_SET); [|done].
  assert (Ht : bits_ok t2 (limit (cm st))).
  { destruct H as [[(B1 & B2 & B3) _ _ _ _] _ _ (M1 & M2 & M3 & M4 & M5) _].
    change (bit m MODE_PRIVATE && bit m MODE_SECRET = false) in B1. change (bit m MODE_LIMIT = negb (limit (cm st) =? 0)) in B2.
    assert (T1 : forall f, one_bit f -> bit t1 f = bit m f && negb (bit (p_del st) f)).
    { intros f Hf. destruct (bit (p_del st) m) eqn:Hd; injection E1 as _ <-; [by apply bit_diff|].
      assert (bit m f && bit (p_del st) f = false) as Hz; [|by destruct (bit m f), (bit (p_del st) f)].
      rewrite <- bit_and by done. rewrite Z.land_comm. unfold bit in Hd |- *. apply negb_false_iff, Z.eqb_eq in Hd. by rewrite Hd. }
    assert (T2 : forall f, one_bit f -> bit t2 f = bit t1 f || bit (p_add st) f).
    { intros f Hf. destruct (negb (Z.ldiff (p_add st) t1 =? 0)) eqn:Hd; injection E2 as _ <-; [by apply bit_or|].
      assert (bit (p_add st) f && negb (bit t1 f) = false) as Hz; [|by destruct (bit t1 f), (bit (p_add st) f)].
      rewrite <- bit_diff by done. apply negb_false_iff, Z.eqb_eq in Hd. by rewrite Hd. }
    unfold bits_ok. rewrite !T2, !T1, M4, M5 by auto. rewrite B2. split; [|split; [by destruct (limit (cm st) =? 0)|done]].
    destruct (bit m MODE_PRIVATE), (bit m MODE_SECRET), (bit (p_add st) MODE_PRIVATE), (bit (p_add st) MODE_SECRET); try done;
      rewrite ?M2, ?M3 by done; cbn; try done; by rewrite ?orb_true_r, ?andb_false_r, ?orb_false_r, ?andb_false_r. }
  destruct (so_chan _ _ Hrest) as [K1 K2 K3 K4 K5].
  apply sound_upd; [done| |]; cbn [upd_mbuf_chan p_chan fst]; destruct (_ && _); try (by constructor); by split_and!.
Qed.

Lemma sound_apply ch0 st st' : sound ch0 st -> apply_modes E src st = Some st' -> sound ch0 st'.
Proof.
  intros H. unfold apply_modes. destruct (p_mbuf st); [|by intros [= <-]]. destruct (refused st); [by intros [= <-]|].
  destruct (simple_modes st) as [st1|] eqn:Hs; cbn [mbind option_bind]; [|done]. apply (sound_simple _ _ _ H) in Hs as H1. clear H Hs.
  unfold wipeout at 1. rewrite (so_wipe _ _ H1). cbn [negb mbind option_bind].
  destruct (if pdone st1 DONE_BANCLEAN then _ else _) as [st2|] eqn:Hb; cbn [mbind option_bind]; [|done].
  assert (H2 : sound ch0 st2).
  { destruct (pdone st1 DONE_BANCLEAN); [by eapply sound_process_bans|by injection Hb as <-]. }
  destruct (p_changes st2); [by intros [= <-]|by apply sound_process_clients].
Qed.

Lemma sound_parse ch mb args flags mem st : chan_ok ch -> bit flags MODE_PARSE_WIPEOUT = false ->
  mode_parse E src mb ch args flags mem = Some st -> sound ch st.
Proof.
  intros Hc Hf. unfold mode_parse. destruct args as [|s args]; [done|]. destruct (mode_words _ _ _ _ _) as [[st1 b]|] eqn:Hw; cbn [mbind option_bind]; [|done].
  assert (H1 : sound ch st1).
  { eapply sound_words; [|exact Hw]. by constructor. }
  destruct b; [by intros [= <-]|by apply sound_apply].
Qed.

Lemma run_mode_ok dest flags mem args ch ch' out rep : chan_ok ch -> bit flags MODE_PARSE_WIPEOUT = false ->
  run_mode E src dest flags mem args ch = Some (ch', out, rep) -> chan_ok ch' /\ kept_chan ch ch'.
Proof.
  intros Hc Hf. unfold run_mode. destruct (mode_parse _ _ _ _ _ _ _) as [st|] eqn:Hp; cbn [mbind option_bind]; [|done].
  apply sound_parse in Hp as [H1 H2 _ _ _]; [|done..]. destruct (p_mbuf st) as [mb|]; cbn [mbind option_bind]; [|done].
  destruct (modebuf_flush _ _ _ _) as [[ch1 mb1]|] eqn:Hfl; cbn [mbind option_bind]; [|done]. intros [= <- <- <-].
  apply flush_chan in Hfl. cbn [fst] in Hfl. split; [by apply (delayed_ok (p_chan st))|].
  apply (kept_trans _ (p_chan st)); [done|by apply delayed_kept].
Qed.

Lemma mode_line_ok (from_user : bool) (priv is_server uworld service : bool) args ch ch' out rep :
  chan_ok ch ->
  (if from_user then m_mode E src priv args ch else ms_mode E src is_server uworld service args ch) = Some (ch', out, rep) ->
  chan_ok ch' /\ kept_chan ch ch'.
Proof.
  intros Hc. destruct from_user.
  - unfold m_mode. destruct (is_chanop src ch); [by apply run_mode_ok|]. destruct (_ && priv); [by apply run_mode_ok|].
    destruct (mode_parse _ _ _ _ _ _ _) as [st|] eqn:Hp; cbn [mbind option_bind]; [|done]. intros [= <- <- <-].
    apply sound_parse in Hp as []; [done..|by destruct (is_member src ch)].
  - unfold ms_mode. cbv zeta. destruct is_server; [by apply run_mode_ok|]. destruct service; [by apply run_mode_ok|].
    destruct (negb _); by apply run_mode_ok.
Qed.
End sound.

(** ** Examples *)
Definition ex_env : mode_env :=
  {| cli_name := fun c => match c with 1%positive => str "op" | 2%positive => str "ann" | _ => str "bob" end;
     NumNick := fun c => str "ABAA" ++ [chr (64 + Zpos c)];
     find_chasing := fun s =>
       if bool_decide (s = str "ann") then Some 2%positive
       else if bool_decide (s = str "bob") then Some 3%positive
       else if bool_decide (s = str "op") then Some 1%positive else None;
     find_n_user := fun s =>
       match drop 4 s with [c] => if bool_decide (take 4 s = str "ABAA") then Some (Z.to_pos (code c - 64)) else None | _ => None end;
     IsChannelService := fun _ => false; deop_lchan := fun _ => false;
     FEAT_OPLEVELS := true; FEAT_AVBANLEN := 40; FEAT_MAXBANS := 45; TStime := 2000 |}.

Definition ex_src (my : bool) (c : positive) : msource :=
  {| s_client := c; s_my := my; s_user := true; s_cserver := negb my; s_oper := false; s_ssl := false;
     s_apass_priv := false; s_burst := false |}.

Definition ex_mem (c : positive) (s l : Z) : Membership := {| user := c; channel := 1; status := s; oplevel := l |}.

Definition ex_chan : mchan :=
  {| mc_name := str "#irc"; mc_time := 1000;
     mc_mode := {| mode := MODE_SECRET; limit := 0; key := []; upass := []; apass := [] |};
     mc_members := [ex_mem 1 1 5; ex_mem 2 0 0; ex_mem 3 2 0]; mc_bans := [];
     mc_pool := {| free_bans := 0; bans_alloc := 0; bans_inuse := 0 |}; mc_invites := [4%positive] |}.

Definition ex_line : list cstring := map str ["+pmlko-v"; "10"; "key"; "ann"; "bob"]%string.

(** What the line makes of the channel. *)
Definition ex_after : mchan :=
  {| mc_name := str "#irc"; mc_time := 1000;
     mc_mode := {| mode := Z.lor MODE_PRIVATE (Z.lor MODE_MODERATED (Z.lor MODE_LIMIT 0)); limit := 10; key := str "key"; upass := []; apass := [] |};
     mc_members := [ex_mem 1 1 5; ex_mem 2 1 6; ex_mem 3 0 0]; mc_bans := [];
     mc_pool := {| free_bans := 0; bans_alloc := 0; bans_inuse := 0 |}; mc_invites := [4%positive] |}.

Example m_mode_example : exists out rep, m_mode ex_env (ex_src true 1) false ex_line ex_chan = Some (ex_after, out, rep).
Proof. eexists _, _. vm_compute. reflexivity. Qed.

(** The line that the servers receive makes the same change. *)
Example ms_mode_example :
  (fst <$> (fst <$> ms_mode ex_env (ex_src false 1) false false false (map str ["-sv+pmlko"; "ABAAC"; "10"; "key"; "ABAAB"; "1000"]%string) ex_chan)) = Some ex_after.
Proof. vm_compute. reflexivity. Qed.

(** The longest mask that is taken for a host, a user or a nick. *)
Example pretty_mask_examples :
  map (fun s => pretty_mask (str s)) ["a.b"; "nick"; "u@h"; "n!u"; "n!u@h"]%string
  = map str ["*!*@a.b"; "nick!*@*"; "*!u@h"; "n!u@*"; "n!u@h"]%string.
Proof. vm_compute. reflexivity. Qed.

Lemma mode_needs_op_witness :
  exists out, m_mode ex_env (ex_src true 2) false ex_line ex_chan = Some (ex_chan, [], out) /\ (refusals out <= 1)%nat.
Proof. apply (mode_needs_op ex_env (ex_src true 2) false (str "+pmlko-v") (map str ["10"; "key"; "ann"; "bob"]%string) ex_chan); reflexivity. Defined.

Lemma ex_chan_typed : chan_ok ex_chan.
Proof.
  constructor; [by split_and!|by split; [cbn; lia|constructor]..|]. unfold MAXOPLEVEL. cbn [mc_members ex_chan ex_mem].
  repeat (apply Forall_cons_2; [cbn; lia|]). apply Forall_nil_2.
Qed.
