(* ===== verification/Modetype.v ===== *)
(** * The type of the modes of a channel, whatever line changes them

    A line of modes that a user or a server sends is read to its end and
    leaves the channel well formed ([mode_lines_typed]): the masks of bans can
    be compared, the arguments of a line of changes fit, the slots for bans and
    members are enough, and each flush sends a change.  The one thing a line
    may overrun is the 20 bytes of the letters, when it names more than
    thirteen of the modes without an argument. *)
From S2P Require Import Prelude Chattr Strings Match Chain Members ChanTable IpText Bans Channel Ddb DdbFile Modebuf Modes.
From stdpp Require Import options.
Local Open Scope Z_scope.
Local Open Scope ircd_scope.

(** ** The masks of bans *)
Lemma Forall_collapse_run (P : ascii -> Prop) : P "*"%char -> forall m star, Forall P m -> Forall P (collapse_run star m).
Proof.
  intros Hs m. remember (length m) as len eqn:Hlen. revert m Hlen. induction (lt_wf len) as [len _ IH]. intros m -> star H.
  destruct m as [|c m]; [destruct star; by repeat constructor|]. apply Forall_cons in H as [Hc H]. simpl collapse_run.
  assert (Hrun : forall m' b, (length m' <= length m)%nat -> Forall P m' -> Forall P (collapse_run b m')).
  { intros m' b Hl Hm. apply (IH (length m')); [cbn [length]; lia|done|done]. }
  destruct (c =c "*"); [by apply Hrun|]. apply Forall_app_2; [destruct (_ && _); by repeat constructor|]. constructor; [done|].
  destruct (c =c "\"); [|by apply Hrun]. destruct m as [|d m']; [destruct (_ && _); by repeat constructor|].
  apply Forall_cons in H as [Hd H]. destruct (is_wild d); [constructor; [done|]|]; apply Hrun; cbn [length]; (lia || done || by constructor).
Qed.

Lemma Forall_collapse (P : ascii -> Prop) : P "*"%char -> forall m, Forall P m -> Forall P (collapse m).
Proof.
  intros Hs m. remember (length m) as len eqn:Hlen. revert m Hlen. induction (lt_wf len) as [len _ IH]. intros m -> H.
  destruct m as [|c m]; [constructor|]. simpl collapse. destruct (_ && _); [exact (Forall_collapse_run P Hs (c :: m) false H)|].
  apply Forall_cons in H as [Hc H]. assert (Hm : Forall P (collapse m)) by (by apply (IH (length m)); [cbn [length]; lia|..]).
  destruct (c =c "\"); [|by constructor]. destruct m as [|d m']; [by repeat constructor|].
  destruct (is_wild d); [|by constructor]. apply Forall_cons in H as [Hd H]. constructor; [done|]. constructor; [done|].
  apply (IH (length m')); [cbn [length]; lia|done|done].
Qed.

Lemma collapse_run_first m : exists c s, collapse_run true m = c :: s /\ is_wild c = true.
Proof.
  induction m as [|c m IH]; simpl collapse_run; [by eexists _, _|]. destruct (c =c "*"); [done|].
  destruct (ch_eqb_spec c "?") as [->|]; cbn [andb negb app]; by eexists _, _.
Qed.

(** A mask that does not start with an at sign collapses to one that does not. *)
Lemma collapse_first c m : c <> "@"%char -> exists d s, collapse (c :: m) = d :: s /\ d <> "@"%char.
Proof.
  intros Hc. simpl collapse. destruct (ch_eqb_spec c "*") as [->|Hs]; cbn [andb].
  - destruct (is_wild (deref m)).
    + destruct (collapse_run_first m) as (d & s & Hd & Hw). exists d, s. split; [exact Hd|]. intros ->. by vm_compute in Hw.
    + by eexists _, _.
  - destruct (c =c "\"); [|by eexists _, _]. destruct m as [|d m]; [by eexists _, _|]. destruct (is_wild d); by eexists _, _.
Qed.

Lemma Forall_slice (P : ascii -> Prop) s a b : Forall P s -> Forall P (slice s a b).
Proof. intros H. unfold slice. by apply Forall_take, Forall_drop. Qed.

Lemma slice_length s a b : (length (slice s a b) <= b - a)%nat.
Proof. unfold slice. rewrite length_take. lia. Qed.

Lemma cut_part_ok (P : ascii -> Prop) s a b n : P "*"%char -> Forall P s -> (0 < n)%nat ->
  Forall P (cut_part s a b n) /\ (length (cut_part s a b n) <= n)%nat.
Proof.
  intros Hs H Hn. unfold cut_part. destruct (Nat.ltb_spec n (b - a)).
  - split; [constructor; [done|by apply Forall_slice]|]. cbn [length]. pose proof (slice_length s (S (b - n)) b). lia.
  - split; [by apply Forall_slice|]. pose proof (slice_length s a b). lia.
Qed.

(** The nick, when there is one, is what comes before the first mark. *)
Lemma mask_parts_nick mask p : forall i dot, match mask_parts mask p i dot with
  | (Some a, u, _) => a = 0%nat /\ match u with
      | Some k => (i < k)%nat /\ Forall (fun c => c <> "@"%char) (take (k - 1 - i) p)
      | None => Forall (fun c => c <> "@"%char) p end
  | _ => True end.
Proof.
  induction p as [|c p IH]; intros i dot; cbn [mask_parts]; [destruct dot; split; done || constructor|].
  destruct (c =c "!"); [split; [done|split; [lia|]]; replace (S i - 1 - i)%nat with 0%nat by lia; constructor|].
  destruct (ch_eqb_spec c "@") as [|Hc]; [done|]. specialize (IH (S i) (dot || (c =c ".") || (c =c ":"))).
  destruct (mask_parts _ _ _ _) as [[[a|] u] h]; [|done]. destruct IH as [-> IH]. split; [done|]. destruct u as [k|]; [|by constructor].
  destruct IH as [Hk IH]. split; [lia|]. replace (k - 1 - i)%nat with (S (k - 1 - S i)) by lia. by constructor.
Qed.

(** The full mask has at most 90 characters and does not start with an at
    sign. *)
Lemma pretty_mask_ok (P : ascii -> Prop) s : Forall P (str "*!@") -> Forall P s ->
  Forall P (pretty_mask s) /\ (length (pretty_mask s) <= 90)%nat /\ exists c r, pretty_mask s = c :: r /\ c <> "@"%char.
Proof.
  intros H1 Hs. apply Forall_cons in H1 as [Hstar H1]. apply Forall_cons in H1 as [Hbang H1]. apply Forall_cons in H1 as [Hat _].
  unfold pretty_mask. pose proof (mask_parts_nick s s 0 false) as Hnick. destruct (mask_parts s s 0 false) as [[n u] h].
  set (nick := match n with None => _ | Some a => _ end).
  assert (Hn : Forall P nick /\ (length nick <= 15)%nat /\ Forall (fun c => c <> "@"%char) nick).
  { unfold nick. destruct n as [a|]; [|split_and!; [by repeat constructor|cbn; lia|by repeat constructor]].
    destruct Hnick as [-> Hu]. split_and!; [by apply Forall_take, Forall_slice|rewrite length_take; unfold Bans.NICKLEN; lia|].
    apply Forall_take. unfold slice. rewrite drop_0. destruct u as [k|]; [|by apply Forall_take]. destruct Hu as [_ Hu]. by rewrite !Nat.sub_0_r in Hu |- *. }
  set (user := match u with None => _ | Some a => _ end).
  assert (Hu : Forall P user /\ (length user <= 10)%nat).
  { unfold user. destruct u as [a|]; [|split; [by repeat constructor|cbn; lia]]. apply cut_part_ok; [done..|unfold USERLEN; lia]. }
  set (host := match h with None => _ | Some a => _ end).
  assert (Hh : Forall P host /\ (length host <= 63)%nat).
  { unfold host. destruct h as [a|]; [|split; [by repeat constructor|cbn; lia]]. apply cut_part_ok; [done..|unfold HOSTLEN; lia]. }
  clearbody nick user host. destruct Hn as (Hn1 & Hn2 & Hn3), Hu as [Hu1 Hu2], Hh as [Hh1 Hh2]. split_and!.
  - repeat apply Forall_app_2; try done; by repeat constructor.
  - rewrite !length_app. change (length (str "!")) with 1%nat. change (length (str "@")) with 1%nat. lia.
  - destruct nick as [|c nick]; [by eexists _, _|]. apply Forall_cons in Hn3 as [Hc _]. by eexists c, _.
Qed.

Lemma before_space_ok (P : ascii -> Prop) s : Forall P s -> Forall P (before_space s).
Proof.
  intros H. unfold before_space. induction H as [|c s Hc _ IH]; [constructor|]. cbn [pieces]. destruct (c =c " "); [constructor|].
  destruct (pieces " " s) as [|w l]; cbn [hd] in *; [by repeat constructor|by constructor].
Qed.

(** A ban whose mask can be compared with another. *)
Record ban_fit (b : Ban) : Prop := {
  bf_cstr : is_cstr (banstr b);
  bf_first : exists c r, banstr b = c :: r /\ c <> "@"%char;
  bf_len : (length (banstr b) <= 90)%nat;
  bf_nu : Z.land (ban_flags b) BAN_IPMASK = 0 \/ exists k, strrchr "@" (banstr b) = Some k /\ nu_len b = Z.of_nat k
}.

Lemma ban_fit_nu b : ban_fit b -> Z.land (ban_flags b) BAN_IPMASK = 0 \/ ban_nu b <> [].
Proof.
  intros [_ (c & r & Hb & Hc) _ [Hf|(k & Hk & Hn)]]; [by left|right]. unfold ban_nu. rewrite Hn, Nat2Z.id. rewrite Hb in Hk |- *.
  apply strrchr_some in Hk as (Hat & _). destruct k; [|done]. by injection Hat as ->.
Qed.

Lemma bmatch_fit o n : ban_fit o -> ban_fit n -> is_Some (bmatch o n).
Proof.
  intros Ho [N1 _ _ _]. pose proof (ban_fit_nu o Ho) as O4. destruct Ho as [O1 (c & r & O2 & _) _ _].
  assert (O3 : banstr o <> []) by (by rewrite O2). unfold bmatch. destruct (_ && _); [done|].
  destruct (Z.eqb_spec (Z.land (Z.land (ban_flags o) (ban_flags n)) BAN_IPMASK) 0) as [|Hip]; [by apply mmatch_z_total|].
  destruct (_ >? _); [done|]. destruct O4 as [O4|O4].
  { destruct Hip. by rewrite (Z.land_comm (ban_flags o)), <- Z.land_assoc, O4, Z.land_0_r. }
  destruct (mmatch_z_total (ban_nu o) (ban_nu n)) as [z ->]; [by apply Forall_take..|done|]. cbn [mbind option_bind].
  destruct (negb _); [done|]. destruct (_ =? 0); [done|by apply mmatch_z_total].
Qed.

Lemma ban_fit_flags f b : Z.land f BAN_IPMASK = 0 \/ Z.land f BAN_IPMASK = Z.land (ban_flags b) BAN_IPMASK -> ban_fit b -> ban_fit (Bans.with_flags f b).
Proof. intros Hf [H1 H2 H3 H4]. constructor; try done. cbn [Bans.with_flags ban_flags]. destruct Hf as [->| ->]; auto. Qed.

Lemma clear_marks_fit b : ban_fit b -> ban_fit (clear_marks b).
Proof. intros H. apply ban_fit_flags; [|done]. right. by rewrite <- Z.land_assoc. Qed.

Lemma marked_fit b : ban_fit b -> ban_fit (Bans.with_flags (Z.lor (ban_flags b) (Z.lor BAN_OVERLAPPED BAN_DEL)) b).
Proof. intros H. apply ban_fit_flags; [|done]. right. by rewrite Z.land_lor_distr_l, Z.lor_0_r. Qed.

Lemma covered_fit l n : Forall ban_fit l -> ban_fit n -> is_Some (covered l n).
Proof.
  intros Hl Hn. induction Hl as [|b l Hb _ IH]; [done|]. cbn [covered]. destruct (bmatch_fit b n Hb Hn) as [z ->]. cbn [mbind option_bind].
  by destruct (_ && _).
Qed.

Lemma mark_covered_fit l n : Forall ban_fit l -> ban_fit n -> exists l' k, mark_covered n l = Some (l', k) /\ Forall ban_fit l'.
Proof.
  intros Hl Hn. induction Hl as [|b l Hb _ IH]; [by eexists _, _|]. cbn [mark_covered]. destruct (bmatch_fit n b Hn Hb) as [z ->]. cbn [mbind option_bind].
  destruct IH as (l' & k & -> & Hl'). cbn [mbind option_bind]. destruct (z =? 0); eexists _, _; (split; [done|]); constructor; auto using marked_fit.
Qed.

Lemma mask_fit b s : Z.land (ban_flags b) BAN_IPMASK = 0 -> is_cstr s -> (length s <= 90)%nat -> (exists c r, s = c :: r /\ c <> "@"%char) ->
  ban_fit (set_ban_mask b s) /\ banstr (set_ban_mask b s) = s /\ forall k, strrchr "@" s = Some k -> nu_len (set_ban_mask b s) = Z.of_nat k.
Proof.
  intros H0 Hc Hl Hs. assert (Hcut : ircd_strncpy s (NICKLEN + USERLEN + HOSTLEN + 3 - 1) = s) by (apply take_ge; exact Hl).
  assert (Hb : banstr (set_ban_mask b s) = s).
  { unfold set_ban_mask. rewrite Hcut. destruct (strrchr _ _); [|done]. by destruct (ipmask_parse _ _) as [[[? ?] ?]|]. }
  assert (Hn : forall k, strrchr "@" s = Some k -> nu_len (set_ban_mask b s) = Z.of_nat k).
  { intros k Hk. apply strrchr_some in Hk as Hlt. destruct Hlt as (_ & Hlt & _). assert (Hw : w8 (Z.of_nat k) = Z.of_nat k) by (apply w8_small; lia).
    unfold set_ban_mask. rewrite Hk. by destruct (ipmask_parse _ _) as [[[? ?] ?]|]. }
  split; [|done]. constructor; rewrite ?Hb; try done. destruct (strrchr "@" s) as [k|] eqn:Ek; [right; exists k; split; [done|by apply Hn]|left].
  unfold set_ban_mask. by rewrite Ek.
Qed.

Lemma new_ban_fit add mask name now : is_cstr mask -> (length mask <= 90)%nat -> (exists c r, mask = c :: r /\ c <> "@"%char) ->
  ban_fit (new_ban add mask name now).
Proof.
  intros H1 H2 H3. destruct (mask_fit (Bans.with_flags (if add then BAN_ADD else BAN_DEL) zero_ban) mask) as [[? ? ? ?] _]; [by destruct add|done..|]. by constructor.
Qed.

Lemma change_ban_fit clean add mask name now l p : Forall ban_fit l -> is_cstr mask -> (length mask <= 90)%nat ->
  (exists c r, mask = c :: r /\ c <> "@"%char) ->
  exists l' z p', change_ban clean add mask name now l p = Some (l', z, p') /\ Forall ban_fit l'.
Proof.
  intros Hl H1 H2 H3. unfold change_ban. pose proof (new_ban_fit add mask name now H1 H2 H3) as Hn. set (n := new_ban add mask name now) in *. clearbody n.
  set (l0 := if clean then map clear_marks l else l). assert (H0 : Forall ban_fit l0).
  { unfold l0. destruct clean; [|done]. apply Forall_map. by eapply Forall_impl; [exact Hl|apply clear_marks_fit]. }
  clearbody l0. unfold apply_ban. destruct (mark_covered_fit l0 n H0 Hn) as (l' & k & Hm & Hl'). rewrite Hm. destruct (has_flag BAN_ADD n).
  - destruct (covered_fit l0 n H0 Hn) as [[] ->]; cbn [mbind option_bind]; eexists _, _, _; (split; [done|]); [done|apply Forall_app_2; [done|by constructor]].
  - destruct (has_flag BAN_DEL n); [|by eexists _, _, _]. cbn [mbind option_bind]. destruct (_ >? _); by eexists _, _, _.
Qed.

Definition out_mask (o : ban_out) : cstring := match o with BanAdded s | BanDeleted s | BanListFull s => s end.
Definition out_fit (o : ban_out) : Prop := (length (out_mask o) <= 90)%nat.

(** The loop over the list: what it keeps, adds and says. *)
Definition loop_fit (bl : ban_loop) : Prop := Forall ban_fit (Bans.added bl) /\ Forall ban_fit (Bans.kept bl) /\ Forall out_fit (louts bl).

Lemma keep_fit b bl : ban_fit b -> loop_fit bl -> loop_fit (keep b bl).
Proof. intros Hb (H1 & H2 & H3). split_and!; [done| |done]. cbn [keep Bans.kept]. destruct (cut bl); [done|]. apply Forall_app_2; [done|by constructor]. Qed.

Lemma out_loop_fit b o bl : ban_fit b -> out_mask o = banstr b -> loop_fit bl -> loop_fit (with_out o bl).
Proof.
  intros Hb Ho (H1 & H2 & H3). split_and!; [done..|]. apply Forall_app_2; [done|]. constructor; [|done]. unfold out_fit. rewrite Ho. apply Hb.
Qed.

Lemma discount_fit b bl : loop_fit bl -> loop_fit (discount b bl).
Proof. done. Qed.
Lemma cut_fit bl : loop_fit bl -> loop_fit (cut_here bl).
Proof. done. Qed.

Lemma process_ban_fit conf b bl : ban_fit b -> loop_fit bl -> loop_fit (process_ban conf b bl).
Proof.
  intros Hb H. unfold process_ban. set (st := {| Bans.added := Bans.added bl |}). assert (Hst : loop_fit st) by exact H. clearbody st. clear H.
  destruct (_ && _); [by apply discount_fit, cut_fit|]. destruct (has_flag BAN_DEL b).
  { assert (Ho : loop_fit (with_out (BanDeleted (banstr b)) st)) by (by eapply out_loop_fit).
    destruct (parse_set conf); [exact Ho|]. apply keep_fit; [|done]. apply ban_fit_flags; [|done]. right. by rewrite <- Z.land_assoc, Z.land_diag. }
  destruct (has_flag BAN_ADD b); [|by apply keep_fit]. destruct (_ && _); [by apply discount_fit, cut_fit|].
  destruct (_ && _); [by apply discount_fit; eapply out_loop_fit|].
  assert (Ho : loop_fit (with_out (BanAdded (banstr b)) (cut_here st))) by (by eapply out_loop_fit).
  destruct (parse_set conf); [|done]. unfold make_ban. destruct Ho as (H1 & H2 & H3). split_and!; [|done..]. constructor; [|done].
  destruct Hb as [B1 B2 B3 B4]. destruct (mask_fit zero_ban (banstr b)) as ([M1 M2 M3 _] & Mb & Mn); [done..|].
  constructor; try done. cbn [Bans.with_flags with_who ban_flags banstr nu_len]. rewrite Mb, <- Z.land_assoc, Z.land_diag.
  destruct B4 as [B4|(k & Hk & _)]; [by left|right]. exists k. split; [done|by apply Mn].
Qed.

Lemma process_bans_fit conf l p bans changed p' outs : Forall ban_fit l -> Bans.mode_process_bans conf l p = (bans, changed, p', outs) ->
  Forall ban_fit bans /\ Forall out_fit outs.
Proof.
  intros Hl Hp. assert (Hfold : forall l bl, Forall ban_fit l -> loop_fit bl -> loop_fit (fold_left (fun st b => process_ban conf b st) l bl)).
  { intros k bl Hk. revert bl. induction Hk as [|b k Hb _ IH]; intros bl H; [done|]. cbn [fold_left]. by apply IH, process_ban_fit. }
  unfold Bans.mode_process_bans in Hp. cbv zeta in Hp.
  match type of Hp with context [fold_left _ l ?s] => specialize (Hfold l s Hl); set (bl := fold_left _ l s) in * end.
  destruct Hfold as (H1 & H2 & H3); [by split_and!|]. clearbody bl. injection Hp as <- _ _ <-. split; [by apply Forall_app_2|done].
Qed.

(** ** The buffer

    [W] is the letters that a line may name, of which thirteen at most are
    modes without an argument. *)
Section buffer.
Context (cli_name NumNick : positive -> cstring) (W : ascii -> bool).

(** The modes of [x] are named. *)
Definition modes_named (x : Z) : Prop := Forall (fun f => bit x (fst f) = true -> W (snd f) = true) simple_flags.

Lemma named_or x y : modes_named x -> modes_named y -> modes_named (Z.lor x y).
Proof.
  unfold modes_named. rewrite !Forall_forall. intros Hx Hy f Hf. rewrite bit_or. intros [H|H]%orb_prop; auto.
Qed.

Lemma simple_bits : Forall (fun f => one_bit (fst f)) simple_flags.
Proof.
  unfold simple_flags. repeat (apply Forall_cons_2; [|]); try apply Forall_nil_2;
    first [a_bit 2|a_bit 3|a_bit 4|a_bit 5|a_bit 6|a_bit 7|a_bit 10|a_bit 11|a_bit 12|a_bit 13|a_bit 14|a_bit 15|a_bit 23|a_bit 24|a_bit 25|a_bit 26|a_bit 27|a_bit 28|a_bit 19|a_bit 16].
Qed.

Lemma named_diff x y : modes_named x -> modes_named (Z.ldiff x y).
Proof.
  unfold modes_named. pose proof simple_bits as Hb. rewrite !Forall_forall in *. intros Hx f Hf. rewrite bit_diff by auto.
  intros [H _]%andb_prop. auto.
Qed.

Lemma named_and x y : modes_named x -> modes_named (Z.land x y).
Proof.
  unfold modes_named. pose proof simple_bits as Hb. rewrite !Forall_forall in *. intros Hx f Hf. rewrite bit_and by auto.
  intros [H _]%andb_prop. auto.
Qed.

Lemma named_none x : Forall (fun f => bit x (fst f) = false) simple_flags -> modes_named x.
Proof. intros H. eapply Forall_impl; [exact H|]. intros f Hf Hb. by rewrite Hf in Hb. Qed.

Ltac no_flag := apply named_none; unfold simple_flags; repeat (apply Forall_cons_2; [reflexivity|]); apply Forall_nil_2.
Lemma named_zero : modes_named 0. Proof. no_flag. Qed.
Lemma named_add : modes_named MODE_ADD. Proof. no_flag. Qed.
Lemma named_del : modes_named MODE_DEL. Proof. no_flag. Qed.
Lemma named_was : modes_named MODE_WASDELJOINS. Proof. no_flag. Qed.

Lemma filter_le (f g : Z * ascii -> bool) l : Forall (fun x => f x = true -> g x = true) l ->
  (length (List.filter f l) <= length (List.filter g l))%nat.
Proof.
  induction 1 as [|x l Hx _ IH]; [done|]. cbn [List.filter]. destruct (f x); [by rewrite Hx; [cbn [length]; lia|]|].
  destruct (g x); cbn [length]; lia.
Qed.

(** A change whose argument fits on a line of its own. *)
Definition arg_fit (m : modearg) : Prop := bit (mb_type m) MODE_SAVE = false /\ forall dest, room_of cli_name dest m < 306.

Lemma saved_type t : bit t MODE_SAVE = false -> Z.ldiff (Z.lor t MODE_SAVE) MODE_SAVE = t.
Proof.
  intros H. apply Z.bits_inj'. intros k Hk. rewrite Z.ldiff_spec, Z.lor_spec. unfold bit in H. apply negb_false_iff, Z.eqb_eq in H.
  apply (f_equal (fun z => Z.testbit z k)) in H. rewrite Z.land_spec, Z.bits_0 in H. by destruct (Z.testbit t k), (Z.testbit MODE_SAVE k).
Qed.

Lemma saved_one m : arg_fit m -> saved [m] = [] /\ saved [with_type (Z.lor (mb_type m) MODE_SAVE) m] = [m].
Proof.
  intros [H _]. unfold saved. cbn [List.filter with_type mb_type]. rewrite H.
  assert (bit (Z.lor (mb_type m) MODE_SAVE) MODE_SAVE = true) as -> by (by rewrite bit_or, orb_true_r). split; [done|]. cbn [map with_type mb_type].
  rewrite saved_type by done. by destruct m.
Qed.

Lemma saved_app l k : saved (l ++ k) = saved l ++ saved k.
Proof. unfold saved. by rewrite List.filter_app, map_app. Qed.

(** What one change does to the loop of a flush. *)
Lemma letter_step dest st m : arg_fit m -> let st' := arg_letter cli_name dest st m in
  (length (addbuf st') <= S (length (addbuf st)))%nat /\ (length (rembuf st') <= S (length (rembuf st)))%nat /\
  (saved (marked st') = saved (marked st) \/ saved (marked st') = saved (marked st) ++ [m]) /\
  (306 <= budget st -> saved (marked st') = saved (marked st)).
Proof.
  intros Hm. destruct (saved_one m Hm) as [H1 H2]. cbv zeta. unfold arg_letter.
  assert (Hsame : saved (marked st ++ [m]) = saved (marked st)) by (by rewrite saved_app, H1, app_nil_r).
  assert (Hgen : forall lb, let st' := (if budget st - room_of cli_name dest m <=? 0 then
        {| budget := budget st; addbuf := addbuf st; rembuf := rembuf st; limitbuf := lb;
           marked := marked st ++ [with_type (Z.lor (mb_type m) MODE_SAVE) m] |}
      else
        {| budget := budget st - (room_of cli_name dest m + 1);
           addbuf := if bit (mb_type m) MODE_ADD then addbuf st ++ [letter_of (mb_type m)] else addbuf st;
           rembuf := if bit (mb_type m) MODE_ADD then rembuf st else rembuf st ++ [letter_of (mb_type m)];
           limitbuf := lb; marked := marked st ++ [m] |}) in
    (length (addbuf st') <= S (length (addbuf st)))%nat /\ (length (rembuf st') <= S (length (rembuf st)))%nat /\
    (saved (marked st') = saved (marked st) \/ saved (marked st') = saved (marked st) ++ [m]) /\
    (306 <= budget st -> saved (marked st') = saved (marked st))).
  { intros lb. cbv zeta. destruct Hm as [_ Hm]. specialize (Hm dest). destruct (Z.leb_spec (budget st - room_of cli_name dest m) 0) as [Hr|Hr];
      cbn [addbuf rembuf marked]; split_and!; try lia; try (destruct (bit _ MODE_ADD); rewrite ?length_app; cbn [length]; lia).
    - right. by rewrite saved_app, H2.
    - by left.
    - by intros _. }
  destruct (kind_of (mb_type m)); [apply Hgen..|]. cbn [addbuf rembuf marked]. split_and!; try lia; [by left|by intros _].
Qed.

Lemma letters_fold dest l : Forall arg_fit l -> forall st, let st' := fold_left (arg_letter cli_name dest) l st in
  (length (addbuf st') <= length (addbuf st) + length l)%nat /\ (length (rembuf st') <= length (rembuf st) + length l)%nat /\
  exists k, saved (marked st') = saved (marked st) ++ k /\ Forall arg_fit k /\ (length k <= length l)%nat /\
    (306 <= budget st -> (length k <= pred (length l))%nat).
Proof.
  induction 1 as [|m l Hm _ IH]; intros st; cbv zeta; cbn [fold_left length]; [split_and!; [lia..|exists []; split_and!; [by rewrite app_nil_r|constructor|done|done]]|].
  destruct (letter_step dest st m Hm) as (H1 & H2 & H3 & H4). destruct (IH (arg_letter cli_name dest st m)) as (K1 & K2 & k & K3 & K4 & K5 & _).
  split_and!; [lia..|]. destruct (Z.leb_spec 306 (budget st)) as [Hb|Hb].
  - exists k. rewrite K3, H4 by done. split_and!; [done..|lia|intros _; cbn [pred]; lia].
  - rewrite K3. destruct H3 as [->| ->]; [exists k; split_and!; [done..|lia|lia]|].
    exists (m :: k). rewrite <- app_assoc. split_and!; [done|by constructor|cbn [length]; lia|lia].
Qed.

(** How many changes wait in a buffer between two operations. *)
Definition cap (dest : Z) : nat := if bit dest MODEBUF_DEST_DEOP then 4 else 5.

Record buf_fit (n : nat) (mb : ModeBuf) : Prop := {
  bu_add : modes_named (mb_add mb);
  bu_rem : modes_named (mb_rem mb);
  bu_args : Forall arg_fit (mb_modeargs mb);
  bu_count : (length (mb_modeargs mb) <= n)%nat
}.

Lemma buf_more n k mb : (n <= k)%nat -> buf_fit n mb -> buf_fit k mb.
Proof. intros Hn []. constructor; try done. lia. Qed.

Context (Hfew : (length (List.filter (fun f => W (snd f)) simple_flags) <= 13)%nat).

Lemma named_letters a r : modes_named a -> modes_named r -> let '(la, lr) := flag_letters simple_flags a r in (length la <= 13 /\ length lr <= 13)%nat.
Proof using Hfew.
  intros Ha Hr. unfold flag_letters. rewrite !length_map. split; (etrans; [|exact Hfew]); apply filter_le.
  - exact Ha.
  - eapply Forall_impl; [exact Hr|]. intros f Hf [_ H]%andb_prop. auto.
Qed.

(** A flush is sent, and leaves one change less. *)
Lemma flush_lines_total ch mb : buf_fit (S (cap (mb_dest mb))) mb ->
  exists mb', flush_lines cli_name NumNick ch mb = Some mb' /\ buf_fit (pred (length (mb_modeargs mb))) mb' /\
    mb_add mb' = 0 /\ mb_rem mb' = 0 /\ (cap (mb_dest mb) <= cap (mb_dest mb'))%nat.
Proof using Hfew.
  intros [Ha Hr Hm Hc]. unfold flush_lines. pose proof (named_letters _ _ Ha Hr) as Hl. destruct (flag_letters simple_flags _ _) as [la lr]. destruct Hl as [La Lr].
  destruct (flag_letters local_flags _ _) as [xa xr]. cbv zeta. set (deop := bit (mb_dest mb) MODEBUF_DEST_DEOP) in *.
  match goal with |- context [fold_left _ _ ?s] => pose proof (letters_fold (mb_dest mb) _ Hm s) as (H1 & H2 & k & H3 & H4 & H5 & H6); set (st := fold_left _ _ s) in * end.
  cbn [addbuf rembuf marked budget] in H1, H2, H3, H6. clearbody st. change (saved []) with (@nil modearg) in H3. cbn [app] in H3.
  assert (Hk : (length k <= pred (length (mb_modeargs mb)))%nat) by (apply H6; unfold BUFSIZE; destruct deop; lia). clear H6.
  assert (letterbuf_ok (addbuf st) && letterbuf_ok (rembuf st) = true) as ->.
  { unfold letterbuf_ok. rewrite !(proj2 (Nat.leb_le _ _)); [done|unfold cap in Hc; destruct (bit _ MODEBUF_DEST_DEOP); lia..]. }
  cbn [negb]. destruct (build_args (shown_arg _ _ _) _) as [sa sr].
  assert (Hdest : (cap (mb_dest mb) <= cap (Z.ldiff (mb_dest mb) MODEBUF_DEST_DEOP))%nat).
  { unfold cap. rewrite bit_diff by (a_bit 9). change (bit MODEBUF_DEST_DEOP MODEBUF_DEST_DEOP) with true.
    rewrite andb_false_r. destruct (bit _ MODEBUF_DEST_DEOP); lia. }
  destruct (negb (bit (mb_dest mb) MODEBUF_DEST_SERVER)).
  - eexists. split; [done|]. cbn [mb_add mb_rem mb_modeargs mb_dest Modebuf.with_flags with_args add_out]. rewrite H3.
    split_and!; try done. constructor; try done; apply named_zero.
  - destruct (build_args (server_arg _ _ _) _) as [ta tr].
    assert (letterbuf_ok (if deop then addbuf st ++ str "o" else addbuf st) = true) as ->.
    { unfold letterbuf_ok. apply Nat.leb_le. unfold cap in Hc. fold deop in Hc. destruct deop; [|lia].
      rewrite length_app. change (length (str "o")) with 1%nat. lia. }
    cbn [negb]. eexists. split; [done|]. cbn [mb_add mb_rem mb_modeargs mb_dest Modebuf.with_flags with_args add_out with_dest]. rewrite H3.
    split_and!; try done. constructor; try done; apply named_zero.
Qed.

Lemma adjust_fit n ch mb : buf_fit n mb -> let mb' := snd (adjust_delayed ch mb) in
  buf_fit n mb' /\ mb_dest mb' = mb_dest mb /\ mb_modeargs mb' = mb_modeargs mb.
Proof.
  intros [H1 H2 H3 H4]. cbv zeta.
  pose proof named_was as Hw. unfold adjust_delayed.
  destruct (_ && find_delayed ch); match goal with |- context [if ?c then _ else _] => destruct c end; cbn [snd mb_add mb_rem Modebuf.with_flags mb_dest mb_modeargs];
    (split; [|done]); constructor; cbn [mb_add mb_rem Modebuf.with_flags]; auto using named_or, named_diff.
Qed.

Lemma flush_int_total n : forall all ch mb, (length (mb_modeargs mb) < n)%nat -> buf_fit (S (cap (mb_dest mb))) mb ->
  exists ch' mb', modebuf_flush_int cli_name NumNick n all ch mb = Some (ch', mb') /\ buf_fit (pred (length (mb_modeargs mb))) mb' /\
    (cap (mb_dest mb) <= cap (mb_dest mb'))%nat.
Proof using Hfew.
  induction n as [|n IH]; intros all ch mb Hn H; [lia|]. cbn [modebuf_flush_int]. destruct (_ && _) eqn:E.
  { apply andb_prop in E as [_ E]. apply Nat.eqb_eq in E. eexists _, _. split; [done|]. split; [|done]. destruct H. constructor; try done. lia. }
  clear E. destruct (adjust_fit _ ch mb H) as (H1 & Hd & Hm). destruct (adjust_delayed ch mb) as [ch1 mb1]. cbn [snd] in *.
  destruct (flush_lines_total ch1 mb1) as (mb2 & -> & H2 & H3 & H4 & Hc); [by rewrite Hd|]. cbn [mbind option_bind]. rewrite Hm in H2. rewrite Hd in Hc.
  destruct (_ && _) eqn:E2; [|exists ch1, mb2; by split_and!]. apply andb_prop in E2 as [_ E2]. apply negb_true_iff, Nat.eqb_neq in E2. pose proof (bu_count _ _ H2) as Hlen. pose proof (bu_count _ _ H) as Hlen0.
  destruct (IH all ch1 mb2) as (ch' & mb' & Hr & H5 & H6); [lia| |].
  - eapply buf_more; [|exact H2]. lia.
  - exists ch', mb'. split; [done|]. split; [eapply buf_more; [|exact H5]; lia|lia].
Qed.

(** The four operations on the buffer. *)
Definition keeps_fit (op : mchan -> ModeBuf -> option (mchan * ModeBuf)) : Prop :=
  forall ch mb, buf_fit (cap (mb_dest mb)) mb ->
    exists ch' mb', op ch mb = Some (ch', mb') /\ buf_fit (cap (mb_dest mb')) mb' /\ but_delayed ch ch'.

Lemma push_arg_fit m : arg_fit m -> keeps_fit (push_arg cli_name NumNick m).
Proof using Hfew.
  intros Hm ch mb [H1 H2 H3 H4].
  assert (Hb : buf_fit (S (cap (mb_dest mb))) (with_args (mb_modeargs mb ++ [m]) mb)).
  { constructor; try done; cbn [with_args mb_modeargs]; [by apply Forall_app_2; [|constructor]|rewrite length_app; cbn [length]; lia]. }
  assert (Hex : exists ch' mb', push_arg cli_name NumNick m ch mb = Some (ch', mb') /\ buf_fit (cap (mb_dest mb')) mb').
  { unfold push_arg. cbv zeta. destruct (Z.leb_spec (MAXMODEPARAMS - (if bit (mb_dest (with_args (mb_modeargs mb ++ [m]) mb)) MODEBUF_DEST_DEOP then 1 else 0))
      (Z.of_nat (length (mb_modeargs (with_args (mb_modeargs mb ++ [m]) mb))))) as [Hl|Hl].
    - destruct (flush_int_total flush_fuel false ch (with_args (mb_modeargs mb ++ [m]) mb)) as (ch' & mb' & Hf & Hb' & Hc); [|done|].
      + cbn [with_args mb_modeargs]. rewrite length_app. cbn [length]. unfold flush_fuel. unfold cap in H4. destruct (bit _ _); lia.
      + exists ch', mb'. split; [done|]. eapply buf_more; [|exact Hb']. pose proof (bu_count _ _ Hb) as Hb0. cbn [with_args mb_dest] in Hc, Hb0. lia.
    - eexists _, _. split; [done|]. destruct Hb as [K1 K2 K3 K4]. constructor; try done. revert Hl. cbn [with_args mb_dest mb_modeargs].
      unfold cap, MAXMODEPARAMS. destruct (bit (mb_dest mb) MODEBUF_DEST_DEOP); lia. }
  destruct Hex as (ch' & mb' & Hp & Hb'). exists ch', mb'. split; [done|]. split; [done|]. by apply (push_arg_chan _ _ _ _ _ _ Hp).
Qed.

Definition limit_type (m : Z) : Prop := m = Z.lor MODE_ADD MODE_LIMIT \/ m = Z.lor MODE_DEL MODE_LIMIT.

Lemma uint_fit m n : limit_type m -> W "l" = true -> keeps_fit (modebuf_mode_uint cli_name NumNick m n).
Proof using Hfew.
  intros Hm Hl ch mb H. unfold modebuf_mode_uint. destruct (Z.eqb_spec m (Z.lor MODE_LIMIT MODE_DEL)) as [->|Hne].
  - eexists _, _. split; [done|]. split; [|apply delayed_refl]. destruct H. constructor; try done. cbn [Modebuf.with_flags mb_rem].
    apply named_or; [done|]. apply named_or; [|apply named_del]. unfold modes_named, simple_flags. repeat (apply Forall_cons_2; [done|]). apply Forall_nil_2.
  - apply push_arg_fit; [|done]. destruct Hm as [->| ->]; [|by destruct Hne]. split; [done|]. intros dest. unfold room_of. cbn [kind_of mb_type mb_arg uint_of].
    change (kind_of (Z.lor MODE_ADD MODE_LIMIT)) with KLimit. cbn iota. pose proof (digits_length 20 n []). unfold decimal. cbn [length] in *. lia.
Qed.

Lemma string_fit m s free : bit m (Z.lor MODE_SAVE (Z.lor MODE_CHANOP (Z.lor MODE_VOICE MODE_LIMIT))) = false -> (length s <= 90)%nat ->
  keeps_fit (modebuf_mode_string cli_name NumNick m s free).
Proof using Hfew.
  intros Hm Hs. apply push_arg_fit. set (t := Z.lor m (if free then MODE_FREE else 0)).
  assert (Hb : forall f, Z.land f (Z.lor MODE_SAVE (Z.lor MODE_CHANOP (Z.lor MODE_VOICE MODE_LIMIT))) = f -> Z.land MODE_FREE f = 0 -> bit t f = false).
  { intros f Hf Hfr. unfold t. assert (bit m f = false) as Hz.
    { unfold bit in Hm |- *. apply negb_false_iff, Z.eqb_eq in Hm. by rewrite <- Hf, (Z.land_comm f), Z.land_assoc, Hm. }
    rewrite bit_or, Hz. destruct free; [|done]. unfold bit. by rewrite Hfr. }
  split; cbn [mb_type mb_arg]; [by apply Hb|]. intros dest. unfold room_of, kind_of. cbn [mb_type mb_arg]. fold t.
  rewrite (Hb (Z.lor MODE_CHANOP MODE_VOICE)) by done. rewrite (Hb MODE_LIMIT) by done. cbn [string_of uint_of].
  destruct (bit t _); [lia|]. destruct (bit t MODE_KEY); [destruct (bit dest _); lia|]. vm_compute. done.
Qed.

Context (Hnames : forall c, (length (cli_name c) <= 300)%nat).

Lemma client_fit m c lvl : bit m MODE_SAVE = false -> bit m (Z.lor MODE_CHANOP MODE_VOICE) = true -> keeps_fit (modebuf_mode_client cli_name NumNick m c lvl).
Proof using All.
  intros H1 H2. apply push_arg_fit. split; [done|]. intros dest. unfold room_of, kind_of. cbn [mb_type mb_arg]. rewrite H2. cbn [client_of].
  specialize (Hnames c). lia.
Qed.

Lemma flush_fit ch mb : buf_fit (cap (mb_dest mb)) mb -> is_Some (modebuf_flush cli_name NumNick ch mb).
Proof using Hfew.
  intros H. unfold modebuf_flush. destruct (flush_int_total flush_fuel true ch mb) as (ch' & mb' & -> & _); [|by eapply buf_more; [|exact H]; lia|done].
  pose proof (bu_count _ _ H) as Hc. unfold cap in Hc. unfold flush_fuel. destruct (bit _ _); lia.
Qed.

Lemma modebuf_mode_fit n x mb : modes_named x -> buf_fit n mb -> buf_fit n (modebuf_mode x mb).
Proof.
  intros Hx [H1 H2 H3 H4]. unfold modebuf_mode. cbv zeta. destruct (_ =? 0); [done|]. destruct (bit _ MODE_ADD);
    constructor; try done; cbn [Modebuf.with_flags mb_add mb_rem]; auto using named_or, named_diff, named_and.
Qed.
End buffer.

(** ** The parser

    What holds of the state while a line of [n] more arguments is read. *)
Section total.
#[local] Set Default Proof Using "All".
Context (E : mode_env) (src : msource) (W : ascii -> bool).
Context (Hfew : (length (List.filter (fun f => W (snd f)) simple_flags) <= 13)%nat).
Context (Hnames : forall c, (length (cli_name E c) <= 300)%nat).
Context (Hp : W "p" = true) (Hs : W "s" = true).
Implicit Types (st : pstate) (n : nat).

Record chan_fit (ch : mchan) : Prop := {
  cf_bans : Forall ban_fit (mc_bans ch);
  cf_key : (length (key (mc_mode ch)) <= 90)%nat;
  cf_upass : (length (upass (mc_mode ch)) <= 90)%nat;
  cf_apass : (length (apass (mc_mode ch)) <= 90)%nat
}.

Definition arg_named (a : cstring) : Prop := is_cstr a /\ Forall (fun c => W c = true) a.
Definition client_change (x : cli_change) : Prop :=
  bit (c_flag x) MODE_SAVE = false /\ bit (c_flag x) (Z.lor MODE_CHANOP MODE_VOICE) = true.
Definition used_slots st : nat := (p_numbans st + length (p_changes st) + length (p_args st))%nat.

Record fit n st : Prop := {
  ft_buf : exists mb, p_mbuf st = Some mb /\ buf_fit (cli_name E) W (cap (mb_dest mb)) mb;
  ft_add : modes_named W (p_add st);
  ft_del : modes_named W (p_del st);
  ft_count : (used_slots st <= 14)%nat;
  ft_left : (length (p_args st) <= n)%nat;
  ft_args : Forall arg_named (p_args st);
  ft_changes : Forall client_change (p_changes st);
  ft_chan : chan_fit (p_chan st);
  ft_wipe : pflag st MODE_PARSE_WIPEOUT = false;
  ft_member : s_my src = true -> pflag st MODE_PARSE_FORCE = false ->
    p_member st = true /\ s_client src ∈ map user (mc_members (p_chan st))
}.

(** The operation returns, and the state is still such. *)
Definition goes n (o : option pstate) : Prop := exists st, o = Some st /\ fit n st.

Lemma goes_some n st : fit n st -> goes n (Some st).
Proof. by exists st. Qed.

Lemma goes_bind n o (f : pstate -> option pstate) : goes n o -> (forall st, fit n st -> goes n (f st)) -> goes n (st ← o; f st).
Proof. intros (st & -> & H) Hf. by apply Hf. Qed.

Ltac frame H := destruct H; by constructor.

Lemma fit_reply n r st : fit n st -> fit n (reply r st). Proof. intros H. frame H. Qed.
Lemma fit_done n f st : fit n st -> fit n (upd_done f st). Proof. intros H. frame H. Qed.
Lemma fit_dir n d st : fit n st -> fit n (upd_dir d st). Proof. intros H. frame H. Qed.
Lemma fit_more n st : fit n st -> fit (S n) st.
Proof. intros []. constructor; try done. lia. Qed.
Lemma fit_my n r st : fit n st -> fit n (to_my src r st).
Proof. intros H. unfold to_my. destruct (s_my src); [by apply fit_reply|done]. Qed.
Lemma fit_notoper n st : fit n st -> fit n (send_notoper st).
Proof. intros H. unfold send_notoper. destruct (pdone st DONE_NOTOPER); [done|]. by apply fit_done, fit_reply. Qed.

Lemma fit_first n a d st st' : fit n st -> first_time a d st = Some st' -> fit n st'.
Proof. intros H. unfold first_time. destruct (p_dir st); destruct (pdone st _); try done; intros [= <-]; by apply fit_done. Qed.

(** An argument that is taken. *)
Lemma fit_take n a l st : fit n st -> p_args st = a :: l ->
  forall u m, fit (pred n) (upd_args l u m st) /\ (used_slots (upd_args l u m st) < 14)%nat /\ arg_named a.
Proof.
  intros [] Ha u m. unfold used_slots in *. rewrite Ha in *. apply Forall_cons in ft_args0 as [Hx Hl]. cbn [length] in *.
  split; [constructor; try done; unfold used_slots; cbn [upd_args p_args p_numbans p_changes]; lia|]. cbn [upd_args p_args p_numbans p_changes]. split; [lia|done].
Qed.

Lemma fit_grab n st a st' : fit n st -> grab st = Some (a, st') -> fit n st' /\ (used_slots st' < 14)%nat /\ arg_named a.
Proof.
  unfold grab. intros H Hg. destruct (p_args st) as [|b l] eqn:Ea; [done|]. injection Hg as <- <-.
  destruct (fit_take n b l st H Ea (S (p_used st)) (p_max st - 1)) as (H1 & H2 & H3). split; [|done]. destruct n; [done|by apply fit_more].
Qed.

Lemma fit_upd n ch st : fit n st -> chan_fit ch -> map user (mc_members ch) = map user (mc_members (p_chan st)) -> fit n (upd_chan ch st).
Proof. intros [] Hc Hu. constructor; try done. cbn [upd_chan p_chan]. by rewrite Hu. Qed.

Lemma fit_mode n m st : fit n st -> (length (key m) <= 90)%nat -> (length (upass m) <= 90)%nat -> (length (apass m) <= 90)%nat -> fit n (set_cmode m st).
Proof. intros H H1 H2 H3. apply fit_upd; [done| |done]. constructor; try done. apply (ft_chan _ _ H). Qed.

Lemma fit_members n g st : fit n st -> (forall m, user (g m) = user m) -> fit n (upd_chan (upd_members g (p_chan st)) st).
Proof.
  intros H Hg. apply fit_upd; [done|by destruct (ft_chan _ _ H)|]. cbn [upd_members mc_members]. rewrite map_map. by apply map_ext.
Qed.

Lemma fit_status n c g st : fit n st -> fit n (upd_chan (upd_mem c (with_status g) (p_chan st)) st).
Proof. intros H. apply fit_members; [done|]. intros m. by case_bool_decide. Qed.

Lemma delayed_fit ch ch' : but_delayed ch ch' -> chan_fit ch -> chan_fit ch' /\ map user (mc_members ch') = map user (mc_members ch).
Proof. intros (z & -> & _) []. split; [by constructor|done]. Qed.

Lemma goes_buffered n op st : keeps_fit (cli_name E) W op -> fit n st -> goes n (buffered op st).
Proof.
  intros Hop H. pose proof H as []. destruct ft_buf0 as (mb & Hm & Hb). unfold buffered. rewrite Hm. cbn [mbind option_bind].
  destruct (Hop (p_chan st) mb Hb) as (ch' & mb' & -> & Hb' & Hd). cbn [mbind option_bind]. apply goes_some.
  destruct (delayed_fit _ _ Hd ft_chan0) as [Hc Hu]. constructor; try done; [by exists mb'|]. cbn [upd_mbuf_chan p_chan fst]. by rewrite Hu.
Qed.

(** *** The limit *)
Lemma goes_limit_change n t st : W "l" = true -> fit n st -> goes n (limit_change E t st).
Proof.
  intros Hl H. unfold limit_change. destruct (refused st); [by apply goes_some, fit_notoper|].
  repeat (match goal with |- context [if ?c then Some st else _] => destruct c end; [by apply goes_some|]).
  destruct (ft_buf _ _ H) as (mb & Hm & _). change (p_mbuf (upd_done DONE_LIMIT st)) with (p_mbuf st). rewrite Hm.
  apply goes_bind; [apply goes_buffered; [|by apply fit_done]; apply (uint_fit _ _ _ Hfew); [unfold dirbit, limit_type; destruct (p_dir _); auto|done]|].
  intros st2 H2. apply goes_some. destruct (negb _); [done|]. pose proof (ft_chan _ _ H2) as []. destruct (p_dir st2); by apply fit_mode.
Qed.

Lemma goes_limit n st : W "l" = true -> fit n st -> goes n (mode_parse_limit E src st).
Proof.
  intros Hl H. unfold mode_parse_limit. destruct (negb (p_dir st)); [by apply goes_limit_change|]. destruct (too_many _ _); [by apply goes_some|].
  destruct (grab st) as [[a st1]|] eqn:Hg; [|by apply goes_some, fit_my]. apply (fit_grab _ _ _ _ H) in Hg as (H1 & _). cbv zeta.
  destruct (_ <=? _); [by apply goes_some|]. destruct (_ && _); [by apply goes_some|by apply goes_limit_change].
Qed.

(** *** The key and the passwords *)
Lemma key_error_short s cmd : key_error s cmd = None -> (length s <= 90)%nat.
Proof. intros H. apply key_error_ok in H as [[H _] Heq]. rewrite Heq in H. unfold KEYLEN in H. lia. Qed.

Lemma cut_short s : (length (ircd_strncpy s KEYLEN) <= 90)%nat.
Proof. unfold ircd_strncpy. rewrite length_take. unfold KEYLEN. lia. Qed.

Lemma goes_string n f old t st : f = MODE_KEY \/ f = MODE_UPASS \/ f = MODE_APASS -> (length old <= 90)%nat -> (length t <= 90)%nat ->
  fit n st -> goes n (string_change E f old t st).
Proof.
  intros Hf Ho Ht H. unfold string_change. set (x := if pflag st MODE_PARSE_BOUNCE then _ else _).
  assert (Hx : (fst x = MODE_ADD \/ fst x = MODE_DEL) /\ (length (snd x) <= 90)%nat).
  { unfold x, dirbit. destruct (pflag st _); [destruct (nonempty old)|destruct (p_dir st)]; cbn [fst snd]; auto. }
  destruct x as [d s]. cbn [fst snd] in Hx. destruct Hx as [Hd Hl]. apply goes_buffered; [|done]. apply (string_fit _ _ _ Hfew); [|done].
  by destruct Hd as [->| ->], Hf as [->|[->| ->]].
Qed.

Lemma goes_key n st : fit n st -> goes n (mode_parse_key E src st).
Proof.
  intros H. unfold mode_parse_key. destruct (too_many _ _); [by apply goes_some|].
  destruct (grab st) as [[a st1]|] eqn:Hg; [|by apply goes_some, fit_my]. apply (fit_grab _ _ _ _ H) in Hg as (H1 & _). clear H.
  destruct (refused st1); [by apply goes_some, fit_notoper|].
  destruct (first_time _ _ st1) as [st2|] eqn:Hf; [|by apply goes_some]. apply (fit_first _ _ _ _ _ H1) in Hf as H2. clear H1 Hf.
  destruct (key_error _ _) as [r|] eqn:Hk; [by apply goes_some, fit_my|]. apply key_error_short in Hk. destruct (p_mbuf st2); [|by apply goes_some]. cbv zeta.
  destruct (burst_keeps _ _ _); [by apply goes_some|]. destruct (_ && _); [by apply goes_some, fit_reply|]. destruct (unchanged _ _ _); [by apply goes_some|].
  apply goes_bind; [apply goes_string; auto; apply (ft_chan _ _ H2)|]. intros st3 H3. apply goes_some. destruct (pflag st3 _); [|done].
  destruct (ft_chan _ _ H3). apply fit_mode; try done. cbn [with_key key]. destruct (p_dir st3); [apply cut_short|cbn; lia].
Qed.

Lemma goes_upass_change n a st1 : fit n st1 -> goes n (upass_change E src a st1).
Proof.
  intros H1. unfold upass_change.
  destruct (first_time _ _ st1) as [st2|] eqn:Hf; [|by apply goes_some]. apply (fit_first _ _ _ _ _ H1) in Hf as H2. clear H1 Hf.
  destruct (key_error _ _) as [r|] eqn:Hk; [by apply goes_some, fit_my|]. apply key_error_short in Hk. destruct (p_mbuf st2); [|by apply goes_some].
  destruct (upass_error a st2); [by apply goes_some, fit_reply|]. cbv zeta. destruct (_ || _); [by apply goes_some|].
  apply goes_bind; [apply goes_string; auto; apply (ft_chan _ _ H2)|]. intros st3 H3. apply goes_some. destruct (pflag st3 _); [|done].
  destruct (ft_chan _ _ H3). apply fit_mode; try done. cbn [with_upass upass]. destruct (p_dir st3); [apply cut_short|cbn; lia].
Qed.

(** A local user who does not force is a member. *)
Lemma fit_manager n st : fit n st -> s_my src = true -> pflag st MODE_PARSE_FORCE = false -> is_Some (not_manager src st).
Proof.
  intros H Hmy Hf. destruct (ft_member _ _ H Hmy Hf) as [Hm Hin]. unfold not_manager, member. rewrite Hm.
  assert (is_Some (find_mem (s_client src) (p_chan st))) as [m ->]; [|done]. unfold find_mem.
  apply list_elem_of_fmap in Hin as (m & Hu & Hin). destruct (find _ _) eqn:Hfi; [done|].
  pose proof (find_none _ _ Hfi m) as Hn. cbv beta in Hn. rewrite bool_decide_eq_false in Hn. destruct Hn; [by apply list_elem_of_In|done].
Qed.

Lemma goes_upass n st : fit n st -> goes n (mode_parse_upass E src st).
Proof.
  intros H. unfold mode_parse_upass. destruct (too_many _ _); [by apply goes_some|].
  destruct (grab st) as [[a st1]|] eqn:Hg; [|by apply goes_some, fit_my]. apply (fit_grab _ _ _ _ H) in Hg as (H1 & _). clear H.
  destruct (refused st1); [by apply goes_some, fit_notoper|]. destruct (_ && _); [by apply goes_some, fit_reply|].
  destruct (s_my src && negb (pflag st1 MODE_PARSE_FORCE)) eqn:Hm; [|by apply goes_upass_change].
  apply andb_prop in Hm as [Hmy Hfo]. apply negb_true_iff in Hfo. destruct (fit_manager n st1 H1 Hmy Hfo) as [no ->]. cbn [mbind option_bind].
  destruct no; [by apply goes_some, fit_reply|by apply goes_upass_change].
Qed.

Lemma fit_apass_set n a st : fit n st -> fit n (apass_set src a st).
Proof.
  intros H. unfold apass_set. destruct (ft_chan _ _ H). cbv zeta. destruct (p_dir st).
  - assert (Hx : fit n (to_my src RApassWarnSet (if negb (nonempty (apass (cm st))) || pflag st MODE_PARSE_BURST
      then set_cmode (with_apass (ircd_strncpy a KEYLEN) (cm st)) st else st))).
    { apply fit_my. destruct (_ || _); [|done]. apply fit_mode; try done. apply cut_short. }
    match goal with |- fit _ (if ?c then _ else _) => destruct c end; [|done]. apply fit_members; [done|]. intros m. by case_bool_decide.
  - apply fit_members; [apply fit_my, fit_mode; try done; cbn; lia|]. intros m. by destruct (IsChanOp m).
Qed.

Lemma apass_error_fit n a st : fit n st -> exists err, apass_error E src a st = Some err /\ forall r, err = Some r -> fit n (r st).
Proof.
  intros H. assert (Hlast : forall c r, (if c : bool then Some (reply [RChanSecured]) else None) = Some r -> fit n (r st)).
  { intros [|] r; [|done]. intros [= <-]. by apply fit_reply. }
  unfold apass_error. destruct (s_my src) eqn:Hmy; cbn [negb]; [|by exists None]. destruct (pflag st MODE_PARSE_FORCE) eqn:Hf.
  - eexists. split; [done|]. intros r. destruct (negb (s_apass_priv src)); [intros [= <-]; by apply fit_reply|apply Hlast].
  - destruct (fit_manager n st H Hmy Hf) as [no ->]. cbn [mbind option_bind]. eexists. split; [done|]. intros r.
    destruct no; [intros [= <-]; by apply fit_reply|]. destruct (_ && _); [intros [= <-]; by apply fit_reply|].
    destruct (key_clash _ _ _); [intros [= <-]; by apply fit_reply|apply Hlast].
Qed.

Lemma goes_apass n st : fit n st -> goes n (mode_parse_apass E src st).
Proof.
  intros H. unfold mode_parse_apass. destruct (too_many _ _); [by apply goes_some|].
  destruct (grab st) as [[a st1]|] eqn:Hg; [|by apply goes_some, fit_my]. apply (fit_grab _ _ _ _ H) in Hg as (H1 & _). clear H.
  destruct (refused st1); [by apply goes_some, fit_notoper|]. destruct (apass_error_fit n a st1 H1) as (err & -> & Hr). cbn [mbind option_bind].
  destruct err as [r|]; [by apply goes_some, Hr|]. clear Hr.
  destruct (first_time _ _ st1) as [st2|] eqn:Hf; [|by apply goes_some]. apply (fit_first _ _ _ _ _ H1) in Hf as H2. clear H1 Hf.
  destruct (key_error _ _) as [r|] eqn:Hk; [by apply goes_some, fit_my|]. apply key_error_short in Hk. destruct (p_mbuf st2); [|by apply goes_some]. cbv zeta.
  destruct (_ || _); [by apply goes_some|]. apply goes_bind; [apply goes_string; auto; apply (ft_chan _ _ H2)|]. intros st3 H3. apply goes_some.
  destruct (pflag st3 _); [by apply fit_apass_set|done].
Qed.

(** *** Bans and members *)
Lemma fit_bans n l p st : fit n st -> Forall ban_fit l -> fit n (upd_chan (with_bans l p (p_chan st)) st).
Proof. intros H Hl. apply fit_upd; [done|by destruct (ft_chan _ _ H)|done]. Qed.

Lemma goes_ban n st : fit n st -> goes n (mode_parse_ban E src st).
Proof.
  intros H. unfold mode_parse_ban. destruct (p_args st) as [|b l] eqn:Ea.
  { apply goes_some. destruct (_ && _); [by apply fit_done, fit_reply|done]. }
  destruct (too_many _ _); [by apply goes_some|]. destruct (grab st) as [[a st1]|] eqn:Hg; [|unfold grab in Hg; by rewrite Ea in Hg].
  apply (fit_grab _ _ _ _ H) in Hg as (H1 & Hlt & Hc & _). cbn [mbind option_bind]. destruct (refused st1); [by apply goes_some, fit_notoper|].
  cbv zeta. destruct (_ || _); [by apply goes_some, fit_my|]. unfold used_slots in Hlt. rewrite (proj2 (Nat.leb_gt MAXPARA _)) by (unfold MAXPARA; lia).
  apply before_space_ok in Hc. destruct (pretty_mask_ok (fun c => c <> NUL) (before_space a)) as (P1 & P2 & c & r & P3 & P4); [by repeat constructor|done|].
  destruct (change_ban_fit (negb (pdone st1 DONE_BANCLEAN)) (p_dir st1) (collapse (pretty_mask (before_space a)))
    (if s_user src then cli_name E (s_client src) else str "*") (TStime E) (mc_bans (p_chan st1)) (mc_pool (p_chan st1))) as (l' & z & p' & -> & Hl').
  - apply (ft_chan _ _ H1).
  - by apply Forall_collapse.
  - etrans; [apply collapse_matches|done].
  - rewrite P3. by apply collapse_first.
  - cbn [mbind option_bind]. apply goes_some.
    pose proof (fit_bans n l' p' _ (fit_done n DONE_BANCLEAN st1 H1) Hl') as [? ? ? ? ? ? ? ? ? ?]. constructor; try done.
Qed.

Lemma put_change_fit f x l : client_change x -> Forall client_change l ->
  Forall client_change (put_change f x l) /\ (length (put_change f x l) <= S (length l))%nat.
Proof.
  intros Hx. induction 1 as [|y l Hy Hl [IH1 IH2]]; cbn [put_change]; [split; [by constructor|done]|].
  destruct (_ && _); cbn [length]; (split; [by constructor|lia]).
Qed.

Lemma goes_client n f st : f = MODE_CHANOP \/ f = MODE_VOICE -> fit n st -> goes n (mode_parse_client E src f st).
Proof.
  intros Hf H. unfold mode_parse_client. destruct (too_many _ _); [by apply goes_some|].
  destruct (grab st) as [[a st1]|] eqn:Hg; [|by apply goes_some]. apply (fit_grab _ _ _ _ H) in Hg as (H1 & Hlt & _). clear H.
  destruct (refused st1); [by apply goes_some, fit_notoper|].
  destruct (if s_my src then _ else _) as [[[c|] lvl]|]; [|by apply goes_some|by apply goes_some, fit_reply]. cbv zeta.
  match goal with |- context [put_change f ?x _] => destruct (put_change_fit f x (p_changes st1)) as [P1 P2]; [|apply H1|] end.
  { unfold client_change, dirbit. cbn [c_flag]. by destruct (p_dir st1), Hf as [->| ->]. }
  unfold used_slots in Hlt. rewrite (proj2 (Nat.ltb_ge MAXPARA _)) by (unfold MAXPARA; lia). apply goes_some.
  destruct H1. constructor; try done. unfold used_slots in *. cbn [upd_changes p_numbans p_changes p_args] in *. lia.
Qed.

Lemma goes_steps {A : Type} n (f : pstate -> A -> option pstate) (P : A -> Prop) l : (forall x st, P x -> fit n st -> goes n (f st x)) ->
  Forall P l -> forall st, fit n st -> goes n (steps f l st).
Proof.
  intros Hf. induction 1 as [|x l Hx _ IH]; intros st H; cbn [steps]; [by apply goes_some|]. apply goes_bind; [by apply Hf|exact IH].
Qed.

Lemma goes_put_ban n o st : out_fit o -> fit n st -> goes n (put_ban E st o).
Proof.
  intros Ho H. destruct o; cbn [put_ban]; [| |by apply goes_some, fit_reply]; (apply goes_buffered; [by apply (string_fit _ _ _ Hfew)|done]).
Qed.

Lemma goes_process_bans n st : fit n st -> goes n (mode_process_bans E src st).
Proof.
  intros H. unfold mode_process_bans. destruct (ft_buf _ _ H) as (mb & -> & _). cbn [mbind option_bind]. cbv zeta.
  match goal with |- context [Bans.mode_process_bans ?c ?l ?p] => destruct (Bans.mode_process_bans c l p) as [[[bans changed] p'] outs] eqn:Hb end.
  destruct (process_bans_fit _ _ _ _ _ _ _ (cf_bans _ (ft_chan _ _ H)) Hb) as [Hl Ho].
  apply goes_bind; [apply (goes_steps n (put_ban E) out_fit); [|done|by apply fit_bans]|].
  - intros o st1. apply goes_put_ban.
  - intros st1 H1. apply goes_some. destruct changed; [by apply fit_members|done].
Qed.

Lemma fit_check n st : fit n st -> fit n (CheckDelayedJoins st).
Proof. intros H. unfold CheckDelayedJoins. destruct (_ && _); [|done]. apply fit_reply. destruct (ft_chan _ _ H). by apply fit_mode. Qed.

Lemma fit_client_set n x m st : fit n st -> fit n (client_set x m st).
Proof.
  intros H. unfold client_set. destruct (bit (c_flag x) MODE_ADD); [|by apply fit_status].
  apply fit_status. destruct (_ && _); [|done]. by apply fit_check, fit_reply, fit_status.
Qed.

Lemma goes_process_client n x st : client_change x -> fit n st -> goes n (process_client E src st x).
Proof.
  intros [Hx1 Hx2] H. unfold process_client. destruct (find_mem (c_client x) (p_chan st)) as [m|]; [|by apply goes_some, fit_my].
  destruct (_ && IsZombie m); [by apply goes_some, fit_my|]. cbv zeta. destruct (Bool.eqb _ _); [by apply goes_some|].
  set (st1 := if _ && _ && pflag st MODE_PARSE_FORCE then _ else st).
  assert (H1 : fit n st1) by (unfold st1; destruct (_ && pflag st MODE_PARSE_FORCE); [by apply fit_reply|done]). clearbody st1.
  destruct (if negb _ && _ then deop_refused E src x m st1 else None) as [r|]; [by apply goes_some, fit_reply|].
  set (st2 := if bit (c_flag x) MODE_ADD && bit (c_flag x) MODE_CHANOP then _ else st1).
  assert (H2 : fit n st2).
  { unfold st2. destruct (_ && _); [|done]. apply fit_members; [done|]. intros y. by case_bool_decide. }
  clearbody st2. apply goes_buffered; [by apply (client_fit _ _ _ Hfew Hnames)|]. destruct (pflag st2 MODE_PARSE_SET); [by apply fit_client_set|done].
Qed.

Lemma goes_process_clients n st : fit n st -> goes n (mode_process_clients E src st).
Proof.
  intros H. unfold mode_process_clients. pose proof (ft_count _ _ H) as Hc. unfold used_slots in Hc.
  rewrite (proj2 (Nat.ltb_lt _ MAXPARA)) by (unfold MAXPARA; lia).
  apply (goes_steps n (process_client E src) client_change); [|apply H|done]. intros x st1. apply goes_process_client.
Qed.

(** *** The modes without an argument *)

(** Each letter stands for one mode. *)
Lemma flag_letter c f : flag_of c = Some f -> W c = true -> modes_named W f.
Proof.
  assert (Hall : forallb (fun x => forallb (fun g => negb (bit (fst x) (fst g)) || (snd g =c snd x)) simple_flags) chan_flags = true) by (vm_compute; reflexivity).
  unfold flag_of. destruct (find _ chan_flags) as [x|] eqn:Hf; cbn [fmap option_fmap option_map]; [|done]. intros [= <-] Hw.
  apply find_some in Hf as [Hin Heq]. apply ch_eqb_eq in Heq. rewrite forallb_forall in Hall. specialize (Hall x Hin). rewrite forallb_forall in Hall.
  apply Forall_forall. intros g Hg Hb. specialize (Hall g (proj1 (list_elem_of_In _ _) Hg)). rewrite Hb in Hall. cbn [negb orb] in Hall.
  apply ch_eqb_eq in Hall. by rewrite Hall, Heq.
Qed.

Lemma fit_mode_mode n f st : modes_named W f -> fit n st -> fit n (mode_parse_mode src f st).
Proof.
  intros Hf H. unfold mode_parse_mode. destruct (refused st); [by apply fit_notoper|]. destruct (p_mbuf st); [|done]. destruct (_ && s_my src); [done|].
  pose proof (flag_letter "p" MODE_PRIVATE eq_refl Hp) as Fp. pose proof (flag_letter "s" MODE_SECRET eq_refl Hs) as Fs.
  assert (Hm : forall a d, modes_named W a -> modes_named W d -> fit n (upd_addel a d st)) by (intros a d Ha Hd; destruct H; by constructor).
  pose proof (ft_add _ _ H). pose proof (ft_del _ _ H).
  destruct (p_dir st); [destruct (bit f MODE_SECRET); [|destruct (bit f MODE_PRIVATE)]|]; apply Hm; auto using named_or, named_diff.
Qed.

Lemma goes_char n c st : W c = true -> fit n st -> goes n (mode_char E src st c).
Proof.
  intros Hc H. unfold mode_char. destruct (flag_of c) as [f|] eqn:Hf; [|by apply goes_some, fit_my].
  assert (Hm : fit n (mode_parse_mode src f st)) by (by apply fit_mode_mode; [eapply flag_letter|]).
  destruct (c =c "+"); [by apply goes_some, fit_dir|]. destruct (c =c "-"); [by apply goes_some, fit_dir|].
  destruct (ch_eqb_spec c "l") as [->|_]; [by apply goes_limit|]. destruct (c =c "k"); [by apply goes_key|].
  destruct (c =c "A"); [destruct (_ || _); [by apply goes_apass|by apply goes_some]|].
  destruct (c =c "U"); [destruct (_ || _); [by apply goes_upass|by apply goes_some]|].
  destruct (c =c "O"); [apply goes_some; by destruct (_ || _)|]. destruct (c =c "z"); [apply goes_some; by destruct (_ || _)|].
  destruct (c =c "b"); [by apply goes_ban|]. destruct (c =c "r"); [by apply goes_some|].
  destruct (ch_eqb_spec c "o") as [->|_]; cbn [orb]; [injection Hf as <-; by apply goes_client; [left|]|].
  destruct (ch_eqb_spec c "v") as [->|_]; [injection Hf as <-; by apply goes_client; [right|]|by apply goes_some].
Qed.

(** *** The line *)
Lemma fit_receive n ts st : fit n st -> fit n (fst (receive_ts src ts st)).
Proof.
  intros H. unfold receive_ts. cbv zeta. destruct (_ && _); [cbn [fst]; apply fit_upd; [done|by destruct (ft_chan _ _ H)|done]|].
  destruct (_ <? _); [|done]. pose proof H as []. destruct ft_buf0 as (mb & Hm & Hb). rewrite Hm.
  destruct (s_burst src); cbn [fst].
  - constructor; try done. eexists. split; [done|]. cbn [with_args Modebuf.with_flags mb_dest]. destruct Hb. constructor; try done; [apply named_zero..|cbn; lia].
  - assert (Hfl : forall f, one_bit f -> bit MODE_PARSE_SET f = false -> bit MODE_PARSE_BOUNCE f = false ->
      bit (Z.lor (Z.ldiff (p_flags st) MODE_PARSE_SET) MODE_PARSE_BOUNCE) f = bit (p_flags st) f).
    { intros f Hf H1 H2. by rewrite bit_or, bit_diff, H1, H2, andb_true_r, orb_false_r. }
    constructor; try done.
    + eexists. split; [done|]. cbn [snd with_dest mb_dest]. match goal with |- buf_fit _ _ (cap ?d) _ => assert (cap d = cap (mb_dest mb)) as -> end; [|by destruct Hb].
      unfold cap. rewrite bit_or, bit_ldiff by done. by rewrite orb_false_r.
    + unfold pflag in *. cbn [upd_mbuf_chan upd_flags p_flags]. rewrite Hfl by (done || apply one_wipeout). done.
    + intros Hmy. unfold pflag in *. cbn [upd_mbuf_chan upd_flags p_flags]. rewrite Hfl by (done || a_bit 2). by apply ft_member0.
Qed.

Lemma goes_words n : forall s st, Forall (fun c => W c = true) s -> fit n st ->
  exists st' b, mode_words E src (S n) s st = Some (st', b) /\ fit n st'.
Proof.
  induction n as [|n IH]; intros s st Hw H; rewrite mode_words_eq; (destruct s as [|c s]; [by exists st, false|]);
    destruct (goes_steps _ (mode_char E src) (fun c => W c = true) (c :: s) (fun x st => goes_char _ x st) Hw st H) as (st1 & -> & H1); cbn [mbind option_bind];
    (destruct (pflag st1 MODE_PARSE_BURST); [by exists st1, false|]); destruct (p_args st1) as [|a l] eqn:Ea; try (by exists st1, false).
  { pose proof (ft_left _ _ H1) as Hl. rewrite Ea in Hl. cbn [length] in Hl. lia. }
  cbv zeta. destruct (fit_take _ a l st1 H1 Ea (S (p_used st1)) (p_max st1)) as (H2 & _ & [_ Ha]). cbn [pred] in H2. set (st2 := upd_args l _ _ st1) in *.
  destruct (_ && IsDigit _).
  { destruct (pflag st1 MODE_PARSE_SET); [|exists st2, false; split; [done|by apply fit_more]].
    pose proof (fit_receive n (atoi a) st2 H2) as H3. destruct (receive_ts src (atoi a) st2) as [st3 b]. exists st3, b. split; [done|by apply fit_more]. }
  destruct (_ || _); [by exists st1, false|]. destruct (IH a st2 Ha H2) as (st3 & b & -> & H3). exists st3, b. split; [done|by apply fit_more].
Qed.

Lemma goes_simple n st : fit n st -> goes n (simple_modes st).
Proof.
  intros H. unfold simple_modes. pose proof H as []. destruct ft_buf0 as (mb & -> & Hb). cbn [mbind option_bind]. cbv zeta.
  set (x := if bit (p_del st) _ then _ else _). assert (Hx : buf_fit (cli_name E) W (cap (mb_dest mb)) (fst x) /\ mb_dest (fst x) = mb_dest mb).
  { unfold x. destruct (bit _ _); [|done]. cbn [fst]. split; [apply modebuf_mode_fit; [|done]; auto using named_or, named_and, named_del|].
    unfold modebuf_mode. cbv zeta. destruct (_ =? 0); [done|]. by destruct (bit _ _). }
  destruct x as [mb1 t1]. cbn [fst] in Hx. destruct Hx as [Hx1 Hx2].
  set (y := if negb _ then _ else (mb1, t1)). assert (Hy : buf_fit (cli_name E) W (cap (mb_dest mb)) (fst y) /\ mb_dest (fst y) = mb_dest mb).
  { unfold y. destruct (negb _); [|done]. cbn [fst]. split; [apply modebuf_mode_fit; [|done]; auto using named_or, named_diff, named_add|].
    unfold modebuf_mode. cbv zeta. destruct (_ =? 0); [done|]. by destruct (bit _ _). }
  destruct y as [mb2 t2]. cbn [fst] in Hy. destruct Hy as [Hy1 Hy2]. apply goes_some.
  assert (H2 : fit n (upd_mbuf_chan (p_chan st, mb2) st)) by (constructor; try done; exists mb2; by rewrite Hy2).
  match goal with |- fit _ (if ?c then _ else _) => destruct c end; [|done]. destruct (ft_chan _ _ H2).
  apply fit_upd; [done| |]; by destruct (_ && _).
Qed.

Lemma goes_apply n st : fit n st -> goes n (apply_modes E src st).
Proof.
  intros H. unfold apply_modes. destruct (ft_buf _ _ H) as (mb & -> & _). destruct (refused st); [by apply goes_some|].
  apply goes_bind; [by apply goes_simple|]. intros st1 H1. unfold wipeout. rewrite (ft_wipe _ _ H1). cbn [negb mbind option_bind].
  apply (goes_bind n (if pdone st1 DONE_BANCLEAN then _ else _)); [destruct (pdone st1 _); [by apply goes_process_bans|by apply goes_some]|].
  intros st2 H2. destruct (p_changes st2); [by apply goes_some|by apply goes_process_clients].
Qed.

Lemma run_mode_total dest flags mem s args ch :
  Forall (fun c => W c = true) s -> Forall arg_named args -> (length args <= 14)%nat -> chan_fit ch -> bit flags MODE_PARSE_WIPEOUT = false ->
  (s_my src = true -> bit flags MODE_PARSE_FORCE = false -> mem = true /\ s_client src ∈ map user (mc_members ch)) ->
  exists ch' out rep, run_mode E src dest flags mem (s :: args) ch = Some (ch', out, rep) /\ Forall ban_fit (mc_bans ch').
Proof.
  intros Hw Ha Hl Hch Hwi Hmem. unfold run_mode, mode_parse.
  destruct (goes_words (length args) s (parse_init (Some (modebuf_init (s_client src) ch dest)) ch flags mem args) Hw) as (st1 & b & -> & H1).
  { constructor; try done; try apply named_zero. eexists. split; [done|]. constructor; [apply named_zero..|done|cbn; lia]. }
  cbn [mbind option_bind]. assert (Hgo : goes (length args) (if b then Some st1 else apply_modes E src st1)) by (destruct b; [by apply goes_some|by apply goes_apply]).
  destruct Hgo as (st2 & -> & H2). cbn [mbind option_bind]. destruct (ft_buf _ _ H2) as (mb & -> & Hb). cbn [mbind option_bind].
  destruct (flush_fit (cli_name E) (NumNick E) W Hfew (p_chan st2) mb Hb) as [[ch' mb'] Hf]. rewrite Hf. cbn [mbind option_bind].
  apply flush_chan in Hf. cbn [fst] in Hf. eexists _, _, _. split; [done|]. apply (delayed_fit _ _ Hf), (ft_chan _ _ H2).
Qed.
End total.

(** ** The theorem *)

(** The letters that a line may name: those of its words, and [p] and [s],
    each of which removes the other. *)
Definition in_line (args : list cstring) (c : ascii) : bool :=
  (c =c "p") || (c =c "s") || existsb (existsb (fun d => c =c d)) args.

(** A line of at most fifteen words, with at most thirteen of the modes
    without an argument. *)
Record line_fit (args : list cstring) : Prop := {
  lf_some : args <> [];
  lf_count : (length args <= 15)%nat;
  lf_cstr : Forall is_cstr args;
  lf_modes : (length (List.filter (fun f => in_line args (snd f)) simple_flags) <= 13)%nat
}.

Lemma in_line_words args : Forall (fun a => Forall (fun c => in_line args c = true) a) args.
Proof.
  apply Forall_forall. intros a Ha. apply Forall_forall. intros c Hc. unfold in_line. apply orb_true_intro. right.
  apply existsb_exists. exists a. split; [by apply list_elem_of_In|]. apply existsb_exists. exists c. split; [by apply list_elem_of_In|apply ch_eqb_refl].
Qed.

Lemma chanop_member src ch : is_chanop src ch = true -> is_member src ch = true /\ s_client src ∈ map user (mc_members ch).
Proof.
  unfold is_chanop, is_member. destruct (find_mem (s_client src) ch) as [m|] eqn:Hf; [|done]. intros _. split; [by apply bool_decide_eq_true|].
  apply find_mem_in in Hf as [Hin <-]. apply list_elem_of_fmap. by exists m.
Qed.

(** The command that a line comes to: a user's, on its own server, or one that
    a server sent. *)
Definition mode_command (E : mode_env) (src : msource) (from_user priv is_server uworld service : bool) (args : list cstring) (ch : mchan) :=
  if from_user then m_mode E src priv args ch else ms_mode E src is_server uworld service args ch.

Lemma mode_command_total E src from_user priv is_server uworld service args ch :
  s_my src = from_user -> (forall c, (length (cli_name E c) <= HOSTLEN)%nat) -> chan_ok ch -> Forall ban_fit (mc_bans ch) -> line_fit args ->
  exists ch' out rep, mode_command E src from_user priv is_server uworld service args ch = Some (ch', out, rep) /\ Forall ban_fit (mc_bans ch').
Proof.
  intros Hmy Hnames Hok Hb [Hne Hl Hc Hm]. destruct args as [|s args]; [done|]. cbn [length] in Hl.
  assert (Hch : chan_fit ch).
  { destruct Hok as [_ [Hk _] [Hu _] [Ha _] _]. unfold KEYLEN in *. constructor; (done || lia). }
  pose proof (in_line_words (s :: args)) as Hw. set (W := in_line (s :: args)) in *. apply Forall_cons in Hw as [Hw1 Hw2]. apply Forall_cons in Hc as [_ Hc].
  assert (Hargs : Forall (arg_named W) args) by (apply Forall_forall; intros a Ha; rewrite Forall_forall in Hc, Hw2; split; auto).
  assert (Hrun : forall dest flags mem, bit flags MODE_PARSE_WIPEOUT = false ->
    (s_my src = true -> bit flags MODE_PARSE_FORCE = false -> mem = true /\ s_client src ∈ map user (mc_members ch)) ->
    exists ch' out rep, run_mode E src dest flags mem (s :: args) ch = Some (ch', out, rep) /\ Forall ban_fit (mc_bans ch')).
  { intros dest flags mem H1 H2. apply (run_mode_total E src W Hm); try done; [|lia]. intros c. specialize (Hnames c). unfold HOSTLEN in Hnames. lia. }
  unfold mode_command. destruct from_user.
  - unfold m_mode. destruct (is_chanop src ch) eqn:Hop.
    + apply chanop_member in Hop as [Hop Hin]. apply Hrun; [done|]. by rewrite Hop.
    + destruct ((deref (mc_name ch) =c "&") && priv) eqn:Hp; [by apply Hrun|].
      destruct (idle_parse E src ch (if is_member src ch then MODE_PARSE_NOTOPER else MODE_PARSE_NOTMEMBER) (is_member src ch) s args) as (st & -> & Hst & _);
        [by destruct (is_member src ch)..|]. cbn [mbind option_bind]. eexists _, _, _. split; [done|]. by rewrite Hst.
  - unfold ms_mode. cbv zeta. destruct is_server; [apply Hrun; [done|by rewrite Hmy]|]. destruct service; [apply Hrun; [done|by rewrite Hmy]|].
    destruct (negb _); apply Hrun; (done || by rewrite Hmy).
Qed.


(** ** Examples *)
Definition ex_banned : mchan :=
  {| mc_name := mc_name ex_chan; mc_time := mc_time ex_chan; mc_mode := mc_mode ex_chan; mc_members := mc_members ex_chan;
     mc_bans := [set_ban_mask zero_ban (str "*!*@10.1.2.0/24"); set_ban_mask zero_ban (str "ann!*@*")]; mc_pool := mc_pool ex_chan;
     mc_invites := mc_invites ex_chan |}.

Definition ex_ban_line : list cstring := map str ["+pmlko-v+b-b"; "10"; "key"; "ann"; "bob"; "*!*@10.1.*"; "ann"]%string.

Lemma ex_banned_ok : chan_ok ex_banned /\ Forall ban_fit (mc_bans ex_banned).
Proof.
  split; [by destruct ex_chan_typed|]. cbn [mc_bans ex_banned]. repeat (apply Forall_cons_2; [|]); [..|apply Forall_nil_2];
    (apply mask_fit; [done|apply (bool_decide_eq_true_1 (is_cstr _)); vm_compute; reflexivity|apply Nat.leb_le; reflexivity|by eexists _, _]).
Qed.

Lemma ex_ban_line_fit : line_fit ex_ban_line.
Proof. constructor; [done|apply Nat.leb_le; reflexivity|apply (bool_decide_eq_true_1 (Forall is_cstr _)); vm_compute; reflexivity|apply Nat.leb_le; reflexivity]. Qed.

(** The new ban takes the place of one that it covers; the other is removed. *)
Example ex_ban_line_run : exists ch' out rep, m_mode ex_env (ex_src true 1) false ex_ban_line ex_banned = Some (ch', out, rep) /\
  map banstr (mc_bans ch') = [str "*!*@10.1.*"].
Proof. eexists _, _, _. vm_compute. split; reflexivity. Qed.

Lemma ex_names c : (length (cli_name ex_env c) <= HOSTLEN)%nat.
Proof. apply Nat.leb_le. by destruct c as [[]|[]|]. Qed.

