(* ===== verification/Modeline.v ===== *)
(** * What a line of modes comes to

    The parser of modes ([Modes]) reads a line letter by letter, changing the
    limit and the key at once, gathering the modes without an argument in two
    words, and keeping the changes of members for the end.  This file says what
    that amounts to, for a line of which the channel and the buffer are known
    at each step ([reading]): the words as one word ([word]), the limit and the
    key as one change each ([lk_mode]), the members as a function of each
    member ([applied]), and the buffer as the same changes. *)
From S2P Require Import Prelude Chattr Strings Match Chain Members ChanTable IpText Bans Channel Ddb DdbFile Modebuf Modes.
From stdpp Require Import options.
Local Open Scope Z_scope.
Local Open Scope ircd_scope.

(** ** Words of modes *)

(** The modes without an argument that a line may change. *)
Definition plain_table : list (Z * ascii) :=
  [(MODE_PRIVATE, "p"%char); (MODE_SECRET, "s"%char); (MODE_MODERATED, "m"%char); (MODE_TOPICLIMIT, "t"%char);
   (MODE_INVITEONLY, "i"%char); (MODE_NOPRIVMSGS, "n"%char); (MODE_DELJOINS, "D"%char); (MODE_REGONLY, "R"%char);
   (MODE_OPERONLY, "O"%char); (MODE_NOCOLOR, "c"%char); (MODE_NOCTCP, "C"%char); (MODE_MODERATENOREG, "M"%char);
   (MODE_NONOTICE, "N"%char); (MODE_MSGNONWEB, "W"%char); (MODE_NOQUITPARTS, "u"%char); (MODE_SSLONLY, "z"%char)].

Definition lors (l : list Z) : Z := foldr Z.lor 0 l.
Definition plain_mask : Z := lors (map fst plain_table).
Definition within (x : Z) : Prop := Z.ldiff x plain_mask = 0.

Lemma testbit_ext x y : (forall k, 0 <= k -> Z.testbit x k = Z.testbit y k) -> x = y.
Proof. apply Z.bits_inj'. Qed.

Lemma ldiff_zero x y k : Z.ldiff x y = 0 -> Z.testbit x k = true -> Z.testbit y k = true.
Proof.
  intros H Hk. apply (f_equal (fun z => Z.testbit z k)) in H. rewrite Z.ldiff_spec, Hk, Z.bits_0 in H. by destruct (Z.testbit y k).
Qed.

Lemma ldiff_zero_iff x y : (forall k, 0 <= k -> Z.testbit x k = true -> Z.testbit y k = true) -> Z.ldiff x y = 0.
Proof.
  intros H. apply testbit_ext. intros k Hk. rewrite Z.ldiff_spec, Z.bits_0. specialize (H k Hk). destruct (Z.testbit x k); [by rewrite H|done].
Qed.

Lemma one_bit_testbit f x k : one_bit f -> 0 <= k -> Z.testbit f k = true -> bit x f = Z.testbit x k.
Proof.
  intros (j & Hj & ->) Hk Ht. rewrite bit_testbit by done. f_equal. destruct (Z.eq_dec j k) as [|Hne]; [done|].
  by rewrite Z.pow2_bits_false in Ht.
Qed.

Lemma plain_bits : Forall (fun f => one_bit (fst f)) plain_table.
Proof.
  unfold plain_table. repeat (apply Forall_cons_2; [|]); try apply Forall_nil_2;
    first [a_bit 2|a_bit 3|a_bit 4|a_bit 5|a_bit 6|a_bit 7|a_bit 12|a_bit 11|a_bit 24|a_bit 14|a_bit 15|a_bit 25|a_bit 26|a_bit 28|a_bit 27|a_bit 23].
Qed.

Lemma lors_filter (table : list (Z * ascii)) x k : Forall (fun f => one_bit (fst f)) table -> 0 <= k ->
  Z.testbit (lors (map fst (List.filter (fun f => bit x (fst f)) table))) k = Z.testbit x k && Z.testbit (lors (map fst table)) k.
Proof.
  intros Hb Hk. induction Hb as [|f table Hf _ IH]; [cbn; by rewrite Z.bits_0, andb_false_r|].
  cbn [List.filter map lors foldr]. change (foldr Z.lor 0) with lors in *. rewrite Z.lor_spec.
  destruct (Z.testbit (fst f) k) eqn:Ef.
  - rewrite (one_bit_testbit _ x k Hf Hk Ef). destruct (Z.testbit x k) eqn:Ex; cbn [map lors foldr].
    + change (foldr Z.lor 0) with lors. by rewrite Z.lor_spec, Ef.
    + by rewrite IH.
  - destruct (bit x (fst f)); cbn [map lors foldr]; [change (foldr Z.lor 0) with lors; by rewrite Z.lor_spec, Ef, IH|by rewrite IH].
Qed.

Lemma lors_within x : within x -> lors (map fst (List.filter (fun f => bit x (fst f)) plain_table)) = x.
Proof.
  intros Hx. apply testbit_ext. intros k Hk. rewrite lors_filter by (apply plain_bits || done).
  destruct (Z.testbit x k) eqn:E; [|done]. by apply (ldiff_zero _ _ _ Hx).
Qed.

(** The word that is left by the modes to add and to remove. *)
Definition word (a d m : Z) : Z := Z.lor (Z.ldiff m d) a.

Definition gather (dir : bool) (f : Z) (ad : Z * Z) : Z * Z :=
  let '(a, d) := ad in
  if dir then
    if bit f MODE_SECRET then (Z.ldiff (Z.lor a f) MODE_PRIVATE, Z.lor (Z.ldiff d f) MODE_PRIVATE)
    else if bit f MODE_PRIVATE then (Z.ldiff (Z.lor a f) MODE_SECRET, Z.lor (Z.ldiff d f) MODE_SECRET)
    else (Z.lor a f, Z.ldiff d f)
  else (Z.ldiff a f, Z.lor d f).

Definition gather_all (dir : bool) (fs : list Z) (ad : Z * Z) : Z * Z := fold_left (fun ad f => gather dir f ad) fs ad.

Ltac bitwise k := apply testbit_ext; intros k ?; unfold word; rewrite ?Z.lor_spec, ?Z.ldiff_spec, ?Z.lor_spec, ?Z.ldiff_spec, ?Z.lor_spec.

Lemma word_del f a d m : word (Z.ldiff a f) (Z.lor d f) m = Z.ldiff (word a d m) f.
Proof. bitwise k. destruct (Z.testbit m k), (Z.testbit d k), (Z.testbit a k), (Z.testbit f k); done. Qed.

Lemma word_add f a d m : word (Z.lor a f) (Z.ldiff d f) m = Z.lor (word a d m) f.
Proof. bitwise k. destruct (Z.testbit m k), (Z.testbit d k), (Z.testbit a k), (Z.testbit f k); done. Qed.

Lemma word_excl f g a d m :
  word (Z.ldiff (Z.lor a f) g) (Z.lor (Z.ldiff d f) g) m = Z.ldiff (Z.lor (word a d m) f) g.
Proof. bitwise k. destruct (Z.testbit m k), (Z.testbit d k), (Z.testbit a k), (Z.testbit f k), (Z.testbit g k); done. Qed.

Lemma gather_dels fs : forall a d m, word (fst (gather_all false fs (a, d))) (snd (gather_all false fs (a, d))) m = Z.ldiff (word a d m) (lors fs).
Proof.
  induction fs as [|f fs IH]; intros a d m; cbn [gather_all fold_left lors foldr]; [by rewrite Z.ldiff_0_r|].
  change (fold_left (fun ad f => gather false f ad) fs) with (gather_all false fs). change (foldr Z.lor 0 fs) with (lors fs).
  cbn [gather]. rewrite IH, word_del. apply testbit_ext. intros k Hk. rewrite !Z.ldiff_spec, Z.lor_spec.
  by destruct (Z.testbit (word a d m) k), (Z.testbit f k), (Z.testbit (lors fs) k).
Qed.

(** Adding what a word has and the present one lacks. *)
Lemma gather_adds t fs : bit t MODE_PRIVATE && bit t MODE_SECRET = false -> forall a d m,
  Z.ldiff (word a d m) t = 0 -> Z.ldiff (lors fs) t = 0 -> Forall one_bit fs ->
  word (fst (gather_all true fs (a, d))) (snd (gather_all true fs (a, d))) m = Z.lor (word a d m) (lors fs).
Proof.
  intros Hps. induction fs as [|f fs IH]; intros a d m Hw Hf Hb; cbn [gather_all fold_left lors foldr]; [by rewrite Z.lor_0_r|].
  change (fold_left (fun ad f => gather true f ad) fs) with (gather_all true fs). change (foldr Z.lor 0 fs) with (lors fs).
  apply Forall_cons in Hb as [Hone Hb].
  assert (Hft : forall k, 0 <= k -> Z.testbit f k = true -> Z.testbit t k = true).
  { intros k Hk Hfk. apply (ldiff_zero (lors (f :: fs)) t k Hf). cbn [lors foldr]. by rewrite Z.lor_spec, Hfk. }
  assert (Hfs : Z.ldiff (lors fs) t = 0).
  { apply ldiff_zero_iff. intros k Hk Hfk. apply (ldiff_zero (lors (f :: fs)) t k Hf). cbn [lors foldr]. change (foldr Z.lor 0 fs) with (lors fs).
    rewrite Z.lor_spec, Hfk. apply orb_true_r. }
  assert (Hw' : Z.ldiff (Z.lor (word a d m) f) t = 0).
  { apply ldiff_zero_iff. intros k Hk. rewrite Z.lor_spec. intros [Hx|Hx]%orb_prop; [by apply (ldiff_zero _ _ _ Hw)|by apply Hft]. }
  assert (Hno : forall g, one_bit g -> bit t g = false -> Z.ldiff (Z.lor (word a d m) f) g = Z.lor (word a d m) f).
  { intros g Hg Ht. apply testbit_ext. intros k Hk. rewrite Z.ldiff_spec. destruct (Z.testbit g k) eqn:Eg; [|by rewrite andb_true_r].
    rewrite andb_false_r. destruct (Z.testbit (Z.lor (word a d m) f) k) eqn:Ex; [|done]. apply (ldiff_zero _ _ _ Hw') in Ex.
    rewrite (one_bit_testbit g t k Hg Hk Eg) in Ht. congruence. }
  assert (Hbt : forall g, one_bit g -> bit f g = true -> bit t g = true).
  { intros g (j & Hj & ->) Hg. rewrite bit_testbit in Hg |- * by done. by apply Hft. }
  assert (Hstep : word (fst (gather true f (a, d))) (snd (gather true f (a, d))) m = Z.lor (word a d m) f).
  { cbn [gather]. destruct (bit f MODE_SECRET) eqn:Es; [|destruct (bit f MODE_PRIVATE) eqn:Ep]; cbn [fst snd]; rewrite ?word_excl, ?word_add; [| |done];
      apply Hno; try (apply one_private || apply one_secret).
    - rewrite (Hbt _ one_secret Es), andb_true_r in Hps. done.
    - rewrite (Hbt _ one_private Ep) in Hps. done. }
  destruct (gather true f (a, d)) as [a' d'] eqn:Eg. cbn [fst snd] in Hstep.
  rewrite (IH a' d' m) by (rewrite ?Hstep; done). rewrite Hstep, Z.lor_assoc. done.
Qed.

(** The line removes what is in the old word only and adds what is in the new
    one only: the new word is what it makes of the old one. *)
Lemma diff_line m t r a : bit t MODE_PRIVATE && bit t MODE_SECRET = false ->
  r = Z.ldiff m t -> a = Z.ldiff t m -> within a -> within r ->
  let flags x := map fst (List.filter (fun f => bit x (fst f)) plain_table) in
  let ad := gather_all true (flags a) (gather_all false (flags r) (0, 0)) in
  word (fst ad) (snd ad) m = t.
Proof.
  intros Hps Hr Ha Hwa Hwr flags ad. unfold ad. clear ad.
  pose proof (gather_dels (flags r) 0 0 m) as Hd. destruct (gather_all false (flags r) (0, 0)) as [a0 d0]. cbn [fst snd] in Hd.
  unfold flags in *. rewrite lors_within in Hd by done.
  assert (Hm : word 0 0 m = m) by (unfold word; by rewrite Z.ldiff_0_r, Z.lor_0_r). rewrite Hm in Hd.
  rewrite (gather_adds t); [| done | | | ].
  - rewrite Hd, lors_within by done. subst r a. apply testbit_ext. intros k Hk. rewrite Z.lor_spec, !Z.ldiff_spec.
    by destruct (Z.testbit m k), (Z.testbit t k).
  - rewrite Hd. subst r. apply testbit_ext. intros k Hk. rewrite !Z.ldiff_spec, Z.bits_0. by destruct (Z.testbit m k), (Z.testbit t k).
  - rewrite lors_within by done. subst a. apply testbit_ext. intros k Hk. rewrite !Z.ldiff_spec, Z.bits_0. by destruct (Z.testbit m k), (Z.testbit t k).
  - apply Forall_map. pose proof plain_bits as Hp. rewrite Forall_forall in Hp |- *. intros f Hf. apply Hp. by apply filter_incl in Hf.
Qed.

(** ** What a line does to the limit and the key *)

(** Nothing, the limit is removed, or one is set. *)
Definition lim_effect := option (option Z).

Definition lk_mode (lim : lim_effect) (kd ka : option cstring) (m : Mode) : Mode :=
  {| mode := match lim with None => mode m | Some None => Z.ldiff (mode m) MODE_LIMIT | Some (Some _) => Z.lor (mode m) MODE_LIMIT end;
     limit := match lim with None => limit m | Some None => 0 | Some (Some n) => n end;
     key := match ka, kd with Some k, _ => k | None, Some _ => [] | None, None => key m end;
     upass := upass m; apass := apass m |}.

Definition larg (n : Z) : modearg := {| mb_type := type_of true MODE_LIMIT false; mb_arg := AUint n; mb_oplevel := 0 |}.
Definition karg (add : bool) (k : cstring) : modearg := {| mb_type := type_of add MODE_KEY false; mb_arg := AString k; mb_oplevel := 0 |}.
Definition xarg (x : cli_change) : modearg := {| mb_type := c_flag x; mb_arg := AClient (c_client x); mb_oplevel := c_oplevel x |}.

Definition key_dels (kd : option cstring) : list modearg := match kd with Some k => [karg false k] | None => [] end.
Definition key_adds (ka : option cstring) : list modearg := match ka with Some k => [karg true k] | None => [] end.
Definition limit_adds (lim : lim_effect) : list modearg := match lim with Some (Some n) => [larg n] | _ => [] end.

(** A change of a member: the client and which of the two modes. *)
Definition slot (x : cli_change) : positive * bool := (c_client x, bit (c_flag x) MODE_CHANOP).

Definition client_flags : list Z :=
  [Z.lor MODE_ADD MODE_CHANOP; Z.lor MODE_ADD MODE_VOICE; Z.lor MODE_DEL MODE_CHANOP; Z.lor MODE_DEL MODE_VOICE].

Definition cli_ok (x : cli_change) : Prop :=
  c_flag x ∈ client_flags /\
  (c_oplevel x = MAXOPLEVEL + 1 \/ (c_flag x = Z.lor MODE_ADD MODE_CHANOP /\ 0 <= c_oplevel x < MAXOPLEVEL)).

Definition changes_ok (l : list cli_change) : Prop := NoDup (map slot l) /\ Forall cli_ok l.

(** The level that an argument gives is not the greatest one, which is not
    passed on. *)
Definition level_ok (a : cstring) : Prop := forall s rest, at_colon a = Some (s, rest) -> atoi rest <> MAXOPLEVEL.

Section reading.
Context (E : mode_env) (src : msource) (F : Z) (ch : mchan) (N : nat).
Implicit Types (st : pstate) (l : list modearg).

(** What the limit and the key leave as it was. *)
Definition kept_rest st st' : Prop :=
  p_args st' = p_args st /\ p_max st' = p_max st /\ p_dir st' = p_dir st /\ p_changes st' = p_changes st /\
  p_add st' = p_add st /\ p_del st' = p_del st.

Definition lk_buf (lim : lim_effect) l : ModeBuf :=
  {| mb_add := 0; mb_rem := match lim with Some None => Z.lor MODE_LIMIT MODE_DEL | _ => 0 end; mb_source := s_client src;
     mb_dest := mb_dest (modebuf_init (s_client src) ch to_all); mb_modeargs := l; mb_out := [] |}.

(** The state of the parser while a line is read: the channel with the limit
    and the key as they are by now, and the buffer with their changes. *)
Record reading (lim : lim_effect) (kd ka : option cstring) l st : Prop := {
  r_chan : p_chan st = with_mc_mode (lk_mode lim kd ka (mc_mode ch)) ch;
  r_buf : p_mbuf st = Some (lk_buf lim l);
  r_flags : p_flags st = F;
  r_member : p_member st = true;
  r_dels : dels_of l = key_dels kd;
  r_adds : adds_of l ≡ₚ limit_adds lim ++ key_adds ka;
  r_done : pdone st DONE_LIMIT = bool_decide (is_Some lim);
  r_ban : pdone st DONE_BANCLEAN = false;
  r_done_del : is_Some kd -> pdone st DONE_KEY_DEL = true;
  r_done_add : is_Some ka -> pdone st DONE_KEY_ADD = true;
  r_lim : match lim with Some (Some n) => 0 < n < 2 ^ 31 /\ n <> limit (mc_mode ch) | Some None => limit (mc_mode ch) <> 0 | None => True end;
  r_kd : forall k, kd = Some k -> key_error k [] = None;
  r_ka : forall k, ka = Some k -> key_error k [] = None /\ (is_Some kd \/ key (mc_mode ch) = []);
  r_add : within (p_add st);
  r_del : within (p_del st);
  r_disj : Z.land (p_add st) (p_del st) = 0;
  r_changes : changes_ok (p_changes st);
  r_count : (length l + length (p_changes st) + length (p_args st) <= N)%nat
}.

Context (HF : bit F MODE_PARSE_SET = true /\ bit F MODE_PARSE_BURST = false /\ bit F MODE_PARSE_BOUNCE = false /\
  bit F MODE_PARSE_WIPEOUT = false /\ bit F (Z.lor MODE_PARSE_NOTOPER MODE_PARSE_NOTMEMBER) = false).

Lemma reading_frame lim kd ka l st st' : reading lim kd ka l st ->
  p_chan st' = p_chan st -> p_mbuf st' = p_mbuf st -> p_flags st' = p_flags st -> p_member st' = p_member st ->
  pdone st' DONE_LIMIT = pdone st DONE_LIMIT -> pdone st' DONE_BANCLEAN = pdone st DONE_BANCLEAN ->
  (pdone st DONE_KEY_DEL = true -> pdone st' DONE_KEY_DEL = true) -> (pdone st DONE_KEY_ADD = true -> pdone st' DONE_KEY_ADD = true) ->
  p_add st' = p_add st -> p_del st' = p_del st -> p_changes st' = p_changes st -> (exists k, p_args st = k ++ p_args st') ->
  reading lim kd ka l st'.
Proof.
  intros [] H1 H2 H3 H4 H5 H5b H6 H7 H8 H9 H10 [k Hk]. rewrite Hk, ?length_app in *.
  constructor; rewrite ?H1, ?H2, ?H3, ?H4, ?H5, ?H5b, ?H8, ?H9, ?H10; auto. lia.
Qed.

Ltac rframe H := apply (reading_frame _ _ _ _ _ _ H); try done; by exists [].

Lemma reading_reply lim kd ka l r st : reading lim kd ka l st -> reading lim kd ka l (reply r st). Proof. intros H. rframe H. Qed.
Lemma reading_my lim kd ka l r st : reading lim kd ka l st -> reading lim kd ka l (to_my src r st).
Proof. intros H. unfold to_my. destruct (s_my src); [by apply reading_reply|done]. Qed.
Lemma reading_dir lim kd ka l d st : reading lim kd ka l st -> reading lim kd ka l (upd_dir d st). Proof. intros H. rframe H. Qed.

Lemma pdone_upd f st g : pdone (upd_done f st) g = pdone st g || bit f g.
Proof. apply bit_or. Qed.

Lemma reading_done lim kd ka l f st : bit f DONE_LIMIT = false -> bit f DONE_BANCLEAN = false -> reading lim kd ka l st -> reading lim kd ka l (upd_done f st).
Proof.
  intros Hf Hb H. apply (reading_frame _ _ _ _ _ _ H); try done; rewrite ?pdone_upd, ?Hf, ?Hb, ?orb_false_r; try done; try (by exists []); by intros ->.
Qed.

Lemma reading_grab lim kd ka l st a st' : reading lim kd ka l st -> grab st = Some (a, st') ->
  reading lim kd ka l st' /\ p_done st' = p_done st /\ p_args st = a :: p_args st' /\
  kept_rest (upd_args (p_args st') (p_used st) (p_max st - 1) st) st'.
Proof.
  intros H. unfold grab. destruct (p_args st) as [|b k] eqn:Ha; [done|]. intros [= <- <-]. split; [|by split_and!].
  apply (reading_frame _ _ _ _ _ _ H); try done. exists [b]. by rewrite Ha.
Qed.

Lemma reading_refused lim kd ka l st : reading lim kd ka l st -> refused st = false.
Proof using HF. intros H. unfold refused, pflag. rewrite (r_flags _ _ _ _ _ H). apply HF. Qed.

Lemma reading_flag lim kd ka l st f : reading lim kd ka l st -> pflag st f = bit F f.
Proof. intros H. unfold pflag. by rewrite (r_flags _ _ _ _ _ H). Qed.

Lemma key_error_any s c d : key_error s c = None -> key_error s d = None.
Proof. unfold key_error. destruct s; [done|]. by repeat (case_match; try done). Qed.

Lemma push_small m c lim l : (length l < 5)%nat ->
  push_arg (cli_name E) (NumNick E) m c (lk_buf lim l) = Some (c, lk_buf lim (l ++ [m])).
Proof.
  intros Hl. unfold push_arg. cbv zeta. cbn [with_args mb_dest mb_modeargs lk_buf].
  assert (bit (mb_dest (modebuf_init (s_client src) ch to_all)) MODEBUF_DEST_DEOP = false) as ->.
  { unfold modebuf_init. cbn [mb_dest]. by destruct (_ =c _). }
  rewrite (proj2 (Z.leb_gt _ _)); [done|]. rewrite length_app. unfold MAXMODEPARAMS. cbn [length]. lia.
Qed.

Lemma buffered_eq op st mb r : p_mbuf st = Some mb -> op (p_chan st) mb = Some r -> buffered op st = Some (upd_mbuf_chan r st).
Proof. intros H Ho. unfold buffered. rewrite H. cbn [mbind option_bind]. by rewrite Ho. Qed.

(** *** The limit *)
Lemma reading_limit_del kd ka l st : reading None kd ka l st -> p_dir st = false -> limit (mc_mode ch) <> 0 ->
  exists st', mode_parse_limit E src st = Some st' /\ reading (Some None) kd ka l st' /\ kept_rest st st' /\
    p_done st' = Z.lor (p_done st) DONE_LIMIT.
Proof using HF.
  intros H Hd Hl. destruct HF as (HS & HB & _ & _ & _). pose proof H as [Hc Hb Hf Hm _ _ Hdone Hban _ _ _ _ _ _ _ _ _ _].
  unfold mode_parse_limit. rewrite Hd. cbn [negb]. unfold Modes.limit_change. rewrite (reading_refused _ _ _ _ _ H), Hd. cbn [negb andb].
  assert (Hcm : limit (cm st) = limit (mc_mode ch)) by (unfold cm; by rewrite Hc). rewrite Hcm.
  rewrite (proj2 (Z.eqb_neq _ _) Hl). rewrite (reading_flag _ _ _ _ _ MODE_PARSE_BURST H), HB. cbn [andb]. rewrite Hdone.
  rewrite bool_decide_eq_false_2 by (by intros [? ?]). change (p_mbuf (upd_done DONE_LIMIT st)) with (p_mbuf st). rewrite Hb.
  assert (Hdir : dirbit (upd_done DONE_LIMIT st) = MODE_DEL) by (unfold dirbit; cbn [upd_done p_dir]; by rewrite Hd). rewrite Hdir.
  rewrite (buffered_eq _ _ (lk_buf None l) (p_chan st, lk_buf (Some None) l)); [|done|done]. cbn [mbind option_bind].
  assert (HS' : pflag (upd_mbuf_chan (p_chan st, lk_buf (Some None) l) (upd_done DONE_LIMIT st)) MODE_PARSE_SET = true).
  { unfold pflag. cbn [upd_mbuf_chan upd_done p_flags]. by rewrite Hf. }
  rewrite HS'. cbn [negb upd_mbuf_chan upd_done p_dir]. rewrite Hd. eexists. split; [done|]. split; [|by split_and!].
  destruct H. constructor; try done.
  - cbn [set_cmode upd_chan upd_mbuf_chan p_chan fst snd]. unfold cm. cbn [p_chan fst upd_mbuf_chan]. by rewrite Hc.
  - unfold pdone. cbn. rewrite bit_or. by rewrite orb_true_r.
  - change (pdone (upd_done DONE_LIMIT st) DONE_BANCLEAN = false). by rewrite pdone_upd, Hban.
  - intros Hk. change (pdone (upd_done DONE_LIMIT st) DONE_KEY_DEL = true). rewrite pdone_upd. by rewrite r_done_del0.
  - intros Hk. change (pdone (upd_done DONE_LIMIT st) DONE_KEY_ADD = true). rewrite pdone_upd. by rewrite r_done_add0.
Qed.

Lemma reading_limit_add n kd ka l st : reading None kd ka l st -> p_dir st = true -> 0 < n < 2 ^ 31 -> n <> limit (mc_mode ch) ->
  (length l < 5)%nat -> (length (l ++ [larg n]) + length (p_changes st) + length (p_args st) <= N)%nat ->
  exists st', Modes.limit_change E n st = Some st' /\ reading (Some (Some n)) kd ka (l ++ [larg n]) st' /\ kept_rest st st' /\
    p_done st' = Z.lor (p_done st) DONE_LIMIT.
Proof using HF.
  intros H Hd Hn Hne Hlen Hcount. destruct HF as (HS & HB & _ & _ & _). pose proof H as [Hc Hb Hf Hm _ _ Hdone Hban _ _ _ _ _ _ _ _ _ _].
  unfold Modes.limit_change. rewrite (reading_refused _ _ _ _ _ H), Hd. cbn [negb andb].
  rewrite (reading_flag _ _ _ _ _ MODE_PARSE_BURST H), HB. cbn [andb]. rewrite Hdone.
  rewrite bool_decide_eq_false_2 by (by intros [? ?]). change (p_mbuf (upd_done DONE_LIMIT st)) with (p_mbuf st). rewrite Hb.
  assert (Hdir : dirbit (upd_done DONE_LIMIT st) = MODE_ADD) by (unfold dirbit; cbn [upd_done p_dir]; by rewrite Hd). rewrite Hdir.
  rewrite (buffered_eq _ _ (lk_buf None l) (p_chan st, lk_buf (Some (Some n)) (l ++ [larg n]))); [|done|].
  2:{ unfold modebuf_mode_uint. change (Z.lor MODE_ADD MODE_LIMIT =? Z.lor MODE_LIMIT MODE_DEL) with false. cbn [p_chan upd_done]. by rewrite push_small. }
  cbn [mbind option_bind].
  assert (HS' : pflag (upd_mbuf_chan (p_chan st, lk_buf (Some (Some n)) (l ++ [larg n])) (upd_done DONE_LIMIT st)) MODE_PARSE_SET = true).
  { unfold pflag. cbn [upd_mbuf_chan upd_done p_flags]. by rewrite Hf. }
  rewrite HS'. cbn [negb upd_mbuf_chan upd_done p_dir]. rewrite Hd. eexists. split; [done|]. split; [|by split_and!].
  destruct H. constructor; try done.
  - cbn [set_cmode upd_chan upd_mbuf_chan p_chan fst snd]. unfold cm. cbn [p_chan fst upd_mbuf_chan]. by rewrite Hc.
  - unfold dels_of in *. rewrite List.filter_app. cbn [List.filter larg is_add mb_type]. rewrite r_dels0. by rewrite app_nil_r.
  - unfold adds_of in *. rewrite List.filter_app. cbn [List.filter]. change (is_add (larg n)) with true. rewrite r_adds0. cbn [limit_adds app].
    by rewrite Permutation_app_comm.
  - unfold pdone. cbn. rewrite bit_or. by rewrite orb_true_r.
  - change (pdone (upd_done DONE_LIMIT st) DONE_BANCLEAN = false). by rewrite pdone_upd, Hban.
  - intros Hk. change (pdone (upd_done DONE_LIMIT st) DONE_KEY_DEL = true). rewrite pdone_upd. by rewrite r_done_del0.
  - intros Hk. change (pdone (upd_done DONE_LIMIT st) DONE_KEY_ADD = true). rewrite pdone_upd. by rewrite r_done_add0.
Qed.

(** *** The key *)
Definition key_state (dir : bool) (k : cstring) lim l st : pstate :=
  let st := upd_mbuf_chan (p_chan st, lk_buf lim (l ++ [karg dir k])) st in
  set_cmode (with_key (if dir then ircd_strncpy k KEYLEN else []) (cm st)) st.

Lemma key_state_del k lim l st : reading lim None None l st -> pdone st DONE_KEY_DEL = true -> key_error k [] = None ->
  (length (l ++ [karg false k]) + length (p_changes st) + length (p_args st) <= N)%nat ->
  reading lim (Some k) None (l ++ [karg false k]) (key_state false k lim l st).
Proof.
  intros [] Hdone Hk Hcount. constructor; try done.
  - cbn. unfold cm. cbn. by rewrite r_chan0.
  - unfold dels_of in *. rewrite List.filter_app, r_dels0. done.
  - unfold adds_of in *. rewrite List.filter_app. cbn [List.filter]. change (is_add (karg false k)) with false. by rewrite app_nil_r.
  - by intros k' [= <-].
Qed.

Lemma key_state_add k lim kd l st : reading lim kd None l st -> pdone st DONE_KEY_ADD = true -> key_error k [] = None ->
  is_Some kd \/ key (mc_mode ch) = [] ->
  (length (l ++ [karg true k]) + length (p_changes st) + length (p_args st) <= N)%nat ->
  reading lim kd (Some k) (l ++ [karg true k]) (key_state true k lim l st).
Proof.
  intros [] Hdone Hk Hold Hcount. pose proof (proj2 (key_error_ok _ _ Hk)) as Hcpy. constructor; try done.
  - unfold key_state. cbv zeta. rewrite Hcpy. cbn. unfold cm. cbn. by rewrite r_chan0.
  - unfold dels_of in *. rewrite List.filter_app, r_dels0. cbn [List.filter]. change (negb (is_add (karg true k))) with false. by rewrite app_nil_r.
  - unfold adds_of in *. rewrite List.filter_app, r_adds0. cbn [List.filter]. change (is_add (karg true k)) with true. cbn [key_adds]. by rewrite app_nil_r.
  - by intros k' [= <-].
Qed.

Lemma key_change_eq dir k lim kd ka l st : reading lim kd ka l st -> p_dir st = dir -> (length l < 5)%nat ->
  string_change E MODE_KEY (key (cm st)) k st = Some (upd_mbuf_chan (p_chan st, lk_buf lim (l ++ [karg dir k])) st).
Proof using HF.
  intros H Hd Hl. destruct HF as (_ & _ & HO & _ & _). unfold string_change. rewrite (reading_flag _ _ _ _ _ _ H), HO.
  rewrite (buffered_eq _ _ (lk_buf lim l) (p_chan st, lk_buf lim (l ++ [karg dir k]))); [done|apply H|].
  unfold modebuf_mode_string, dirbit. rewrite Hd. rewrite push_small by done. by destruct dir.
Qed.

Lemma no_burst lim kd ka l st old k : reading lim kd ka l st -> burst_keeps old k st = false.
Proof using HF. intros H. unfold burst_keeps. rewrite (reading_flag _ _ _ _ _ _ H). destruct HF as (_ & -> & _). done. Qed.

Lemma first_time_eq a d st st' : first_time a d st = Some st' ->
  st' = upd_done (if p_dir st then a else d) st /\ pdone st a = false /\ (p_dir st = false -> pdone st d = false).
Proof.
  unfold first_time. destruct (p_dir st); [destruct (pdone st a); [done|]; by intros [= <-]|].
  unfold pdone. rewrite Z.lor_comm. destruct (bit (p_done st) (Z.lor d a)) eqn:Hb; [done|]. intros [= <-].
  assert (H : forall g, Z.land g (Z.lor d a) = g -> bit (p_done st) g = false).
  { intros g Hg. unfold bit in *. apply negb_false_iff, Z.eqb_eq in Hb. apply negb_false_iff, Z.eqb_eq.
    rewrite <- Hg, Z.land_assoc, (Z.land_comm _ g), <- Z.land_assoc, Hb. apply Z.land_0_r. }
  split; [done|]. split; [|intros _]; apply H; apply testbit_ext; intros k Hk; rewrite Z.land_spec, Z.lor_spec;
    destruct (Z.testbit d k), (Z.testbit a k); done.
Qed.
End reading.

(** ** Facts on letters and changes *)
Lemma cli_flag add f : f = MODE_CHANOP \/ f = MODE_VOICE -> Z.lor (if add : bool then MODE_ADD else MODE_DEL) f ∈ client_flags.
Proof. intros [->| ->]; destruct add; unfold client_flags; set_solver. Qed.

Lemma put_change_slots f x k : cli_ok x -> (f = MODE_CHANOP /\ bit (c_flag x) MODE_CHANOP = true \/ f = MODE_VOICE /\ bit (c_flag x) MODE_CHANOP = false) ->
  changes_ok k -> changes_ok (put_change f x k) /\ (length (put_change f x k) <= S (length k))%nat /\
  (forall s, s ∈ map slot (put_change f x k) -> s ∈ map slot k \/ s = slot x).
Proof.
  intros Hx Hf [Hnd Hok]. revert Hnd. induction Hok as [|y k Hy Hok IH]; intros Hnd; cbn [put_change].
  - split_and!; [split; [by apply NoDup_singleton|by apply Forall_singleton]|cbn; lia|]. intros s Hs. right. set_solver.
  - cbn [map] in Hnd. apply NoDup_cons in Hnd as [Hin Hnd]. destruct (_ && _) eqn:Hsame.
    + apply andb_prop in Hsame as [Hc Hb]. apply bool_decide_eq_true in Hc.
      assert (Hslot : slot y = slot x).
      { unfold slot. rewrite Hc. f_equal. destruct Hy as [Hy _]. unfold client_flags in Hy. rewrite !elem_of_cons in Hy.
        destruct Hf as [[-> ->]|[-> ->]]; [done|]. destruct Hy as [Hy|[Hy|[Hy|[Hy|Hy]]]]; try (rewrite Hy in Hb |- *; done). by apply not_elem_of_nil in Hy. }
      split_and!; [split; cbn [map]; [rewrite <- Hslot; by constructor|by constructor]|cbn; lia|]. cbn [map]. intros s. rewrite Hslot. set_solver.
    + destruct (IH Hnd) as ([H1 H2] & H3 & H4). split_and!; [split; cbn [map]; [|by constructor]|cbn; lia|].
      * constructor; [|done]. intros Hs. destruct (H4 _ Hs) as [|Hs']; [done|]. unfold slot in Hs'. injection Hs' as Hs1 Hs2.
        rewrite bool_decide_eq_true_2 in Hsame by done. cbn [andb] in Hsame. destruct Hy as [Hy _]. unfold client_flags in Hy. rewrite !elem_of_cons in Hy.
        destruct Hf as [[-> Hfx]|[-> Hfx]]; rewrite Hfx in Hs2; [congruence|].
        destruct Hy as [Hy|[Hy|[Hy|[Hy|Hy]]]]; try (rewrite Hy in Hsame, Hs2; done). by apply not_elem_of_nil in Hy.
      * cbn [map]. intros s. rewrite !elem_of_cons. specialize (H4 s). naive_solver.
Qed.

Lemma gather_ok dir f a d : within f -> within a -> within d -> Z.land a d = 0 ->
  let ad := gather dir f (a, d) in within (fst ad) /\ within (snd ad) /\ Z.land (fst ad) (snd ad) = 0.
Proof.
  intros Hf Ha Hd Had. assert (Hp : within MODE_PRIVATE /\ within MODE_SECRET) by done. destruct Hp as [Hp Hs].
  assert (Hin : forall x, within x -> forall k, Z.testbit x k = true -> Z.testbit plain_mask k = true) by (intros x Hx k; by apply ldiff_zero).
  assert (Hdis : forall k, Z.testbit a k && Z.testbit d k = false).
  { intros k. by rewrite <- Z.land_spec, Had, Z.bits_0. }
  assert (Hps : forall k, Z.testbit MODE_PRIVATE k && Z.testbit MODE_SECRET k = false).
  { intros k. rewrite <- Z.land_spec. change (Z.land MODE_PRIVATE MODE_SECRET) with 0. apply Z.bits_0. }
  cbv zeta. cbn [gather]. unfold within. destruct dir; [destruct (bit f MODE_SECRET); [|destruct (bit f MODE_PRIVATE)]|]; cbn [fst snd];
    (split; [apply ldiff_zero_iff|split; [apply ldiff_zero_iff|apply testbit_ext]]); intros k ?;
    rewrite ?Z.land_spec, ?Z.ldiff_spec, ?Z.lor_spec, ?Z.ldiff_spec, ?Z.lor_spec, ?Z.bits_0;
    specialize (Hdis k); pose proof (Hin _ Hf k) as K1; pose proof (Hin _ Ha k) as K2; pose proof (Hin _ Hd k) as K3;
    pose proof (Hin _ Hp k) as K4; pose proof (Hin _ Hs k) as K5;
    destruct (Z.testbit a k), (Z.testbit d k), (Z.testbit f k), (Z.testbit MODE_PRIVATE k), (Z.testbit MODE_SECRET k); cbn; auto.
Qed.

Lemma mode_mode_eq src f st mb : refused st = false -> p_mbuf st = Some mb -> f <> MODE_REGISTERED ->
  mode_parse_mode src f st =
    (let ad := gather (p_dir st) f (p_add st, p_del st) in upd_addel (fst ad) (snd ad) st).
Proof.
  intros Hr Hb Hf. unfold mode_parse_mode. rewrite Hr, Hb. apply Z.eqb_neq in Hf. rewrite Hf. cbn [andb gather].
  destruct (p_dir st); [|done]. by destruct (bit f MODE_SECRET), (bit f MODE_PRIVATE).
Qed.

Lemma plain_within c f : flag_of c = Some f -> plain_letter c = true -> within f /\ f <> MODE_REGISTERED.
Proof.
  assert (Hall : Forall (fun x => plain_letter (snd x) = true -> within (fst x) /\ fst x <> MODE_REGISTERED) chan_flags).
  { unfold chan_flags. repeat (apply Forall_cons_2; [by cbn|]). apply Forall_nil_2. }
  unfold flag_of. destruct (find _ chan_flags) as [x|] eqn:Hf; cbn [fmap option_fmap option_map]; [|done]. intros [= <-] Hp.
  apply find_some in Hf as [Hin Heq]. apply ch_eqb_eq in Heq. rewrite Forall_forall in Hall. apply (Hall x); [by apply list_elem_of_In|by rewrite Heq].
Qed.

Lemma op_flag c : (c =c "o") || (c =c "v") = true -> flag_of c = Some MODE_CHANOP \/ flag_of c = Some MODE_VOICE.
Proof. intros [H|H]%orb_prop; apply ch_eqb_eq in H as ->; [by left|by right]. Qed.

Definition next_dir (dir : bool) (c : ascii) : bool := if c =c "+" then true else if c =c "-" then false else dir.

Lemma letter_facts : forall c, (forall dir, flag_of c = None -> takes_arg dir c = false /\ next_dir dir c = dir) /\
  (plain_letter c = true -> forall dir, takes_arg dir c = false).
Proof.
  assert (H1 : forall c, bool_decide (flag_of c = None) && (takes_arg true c || takes_arg false c || negb (next_dir true c) || next_dir false c) = false) by all_chars.
  assert (H2 : forall c, plain_letter c && (takes_arg true c || takes_arg false c) = false) by all_chars.
  intros c. specialize (H1 c). specialize (H2 c). split.
  - intros dir Hn. rewrite bool_decide_eq_true_2 in H1 by done. cbn [andb] in H1. destruct dir, (takes_arg true c), (takes_arg false c), (next_dir true c), (next_dir false c); done.
  - intros Hn dir. rewrite Hn in H2. destruct dir, (takes_arg true c), (takes_arg false c); done.
Qed.

(** The number of arguments that letters take. *)
Fixpoint taken (s : cstring) (dir : bool) : nat :=
  match s with [] => 0 | c :: s => (if takes_arg dir c then 1 else 0) + taken s (next_dir dir c) end.


(** ** The user's line *)
Section user.
Context (E : mode_env) (src : msource) (F : Z) (ch : mchan) (me : Membership).
Context (HF : bit F MODE_PARSE_SET = true /\ bit F MODE_PARSE_BURST = false /\ bit F MODE_PARSE_BOUNCE = false /\
  bit F MODE_PARSE_WIPEOUT = false /\ bit F (Z.lor MODE_PARSE_NOTOPER MODE_PARSE_NOTMEMBER) = false).
Context (Hforce : bit F MODE_PARSE_FORCE = false) (Hmy : s_my src = true) (Hcs : s_cserver src = false).
Context (Hme : find_mem (s_client src) ch = Some me) (Hlevel : 0 <= oplevel me) (N : nat) (HN5 : (N <= 5)%nat).
Implicit Types (st : pstate) (l : list modearg).

Notation rd := (reading src F ch N).
Definition some_rd st : Prop := exists lim kd ka l, rd lim kd ka l st.

(** What a letter takes of the arguments. *)
Definition moved (takes : bool) st st' : Prop :=
  p_dir st' = p_dir st /\
  match takes, p_args st with
  | true, _ :: k => p_args st' = k /\ p_max st' = p_max st - 1
  | _, _ => p_args st' = p_args st /\ p_max st' = p_max st
  end.

Definition user_reads st : Prop :=
  some_rd st /\ Forall level_ok (p_args st) /\ Z.of_nat (length (p_args st)) < p_max st.

Lemma user_max st : user_reads st -> too_many src st = false.
Proof using All. intros (_ & _ & H). unfold too_many. rewrite (proj2 (Z.leb_gt _ _)) by lia. apply andb_false_r. Qed.

Lemma moved_reads takes st st' : user_reads st -> moved takes st st' -> some_rd st' -> user_reads st'.
Proof using All.
  intros (_ & H1 & H2) (_ & Hm) H. split; [done|]. destruct takes, (p_args st) as [|a k]; destruct Hm as [-> ->]; try done.
  apply Forall_cons in H1 as [_ H1]. cbn [length] in H2. split; [done|lia].
Qed.

Lemma moved_refl st : moved false st st.
Proof using All. by split. Qed.

(** What is left of the state when an argument has been taken. *)
Lemma moved_kept st st1 st' a : grab st = Some (a, st1) -> kept_rest st1 st' -> moved true st st'.
Proof using All.
  unfold grab, moved. destruct (p_args st) as [|b k] eqn:Ha; [done|]. intros [= <- <-] (K1 & K2 & K3 & _). by rewrite K1, K2, K3.
Qed.

Lemma rest_reply st r : kept_rest st (reply r st). Proof using All. by split_and!. Qed.
Lemma rest_done st f : kept_rest st (upd_done f st). Proof using All. by split_and!. Qed.
Lemma rest_refl st : kept_rest st st. Proof using All. by split_and!. Qed.
Lemma rest_trans st1 st2 st3 : kept_rest st1 st2 -> kept_rest st2 st3 -> kept_rest st1 st3.
Proof using All. intros (H1 & H2 & H3 & H4 & H5 & H6) (K1 & K2 & K3 & K4 & K5 & K6). split_and!; congruence. Qed.
Lemma rest_my st r : kept_rest st (to_my src r st).
Proof using All. unfold to_my. rewrite Hmy. apply rest_reply. Qed.

Lemma moved_same st st1 st' a : grab st = Some (a, st1) -> p_args st' = p_args st1 -> p_max st' = p_max st1 -> p_dir st' = p_dir st1 ->
  moved true st st'.
Proof using All.
  unfold grab, moved. destruct (p_args st) as [|b k] eqn:Ha; [done|]. intros [= <- <-] K1 K2 K3. by rewrite K1, K2, K3.
Qed.

(** The goal of each letter, and its easy cases. *)
Definition step_ok (takes : bool) st st' : Prop := moved takes st st' /\ some_rd st'.

Lemma step_reads takes st st' : user_reads st -> step_ok takes st st' -> moved takes st st' /\ user_reads st'.
Proof using All. intros H [H1 H2]. split; [done|by eapply moved_reads]. Qed.

Lemma step_none takes st r : some_rd st -> grab st = None -> step_ok takes st (to_my src r st).
Proof using All.
  intros (lim & kd & ka & l & Hr) Hg. unfold grab in Hg. destruct (p_args st) as [|a k] eqn:Ha; [|done].
  split; [|do 4 eexists; by apply reading_my]. destruct (rest_my st r) as (H1 & H2 & H3 & _). unfold moved. rewrite Ha, H1, H2, H3, Ha. by destruct takes.
Qed.

Lemma step_skip st a st1 lim kd ka l : grab st = Some (a, st1) -> rd lim kd ka l st1 -> step_ok true st st1.
Proof using All. intros Hg Hr. split; [by eapply moved_kept, rest_refl|by do 4 eexists]. Qed.

Lemma taken_count st a st1 lim kd ka l : rd lim kd ka l st -> grab st = Some (a, st1) ->
  (length l + length (p_changes st1) + S (length (p_args st1)) <= N)%nat.
Proof using All.
  intros Hr Hg. destruct (reading_grab _ _ _ _ _ _ _ _ _ _ _ Hr Hg) as (_ & _ & Ha & _ & _ & _ & Hc & _).
  pose proof (r_count _ _ _ _ _ _ _ _ _ Hr) as H. rewrite Ha in H. cbn [length upd_args p_changes] in *. rewrite Hc. lia.
Qed.

(** The operation returns, and what it leaves is fine. *)
Definition does (takes : bool) st (r : option pstate) : Prop := exists st', r = Some st' /\ step_ok takes st st'.

Lemma user_limit st : user_reads st -> does (p_dir st) st (mode_parse_limit E src st).
Proof using All.
  intros H. pose proof (user_max st H) as Htm. pose proof H as ((lim & kd & ka & l & Hr) & _).
  destruct HF as (HS & HB & HO & HW & _). destruct (p_dir st) eqn:Ed.
  - unfold mode_parse_limit. rewrite Ed, Htm. cbn [negb]. destruct (grab st) as [[a st1]|] eqn:Hg; [|eexists; split; [done|]; apply step_none; [by do 4 eexists|done]].
    destruct (reading_grab _ _ _ _ _ _ _ _ _ _ _ Hr Hg) as (Hr1 & _ & _ & Hk). pose proof (taken_count _ _ _ _ _ _ _ Hr Hg) as Hcnt.
    assert (Hd1 : p_dir st1 = true) by (destruct Hk as (_ & _ & -> & _); done).
    assert (Hskip : does true st (Some st1)) by (eexists; split; [done|by eapply step_skip]).
    cbv zeta. destruct (Z.leb_spec (2 ^ 31) (strtoul a)) as [|Hlt]; [done|]. destruct (negb _ && _) eqn:Hz; [done|].
    unfold pflag in Hz. rewrite (r_flags _ _ _ _ _ _ _ _ _ Hr1), HW in Hz. cbn [negb andb] in Hz.
    apply orb_false_elim in Hz as [Hz1 Hz2]. apply Z.eqb_neq in Hz1, Hz2. pose proof (strtoul_range a) as Hrange.
    unfold cm in Hz2. rewrite (r_chan _ _ _ _ _ _ _ _ _ Hr1) in Hz2. destruct lim as [lim|].
    + unfold Modes.limit_change. rewrite (reading_refused src F ch N HF _ _ _ _ _ Hr1), Hd1. cbn [negb andb].
      rewrite (reading_flag _ _ _ _ _ _ _ _ _ _ Hr1), HB. cbn [andb]. rewrite (r_done _ _ _ _ _ _ _ _ _ Hr1).
      by rewrite bool_decide_eq_true_2.
    + destruct (reading_limit_add E src F ch N HF (strtoul a) kd ka l st1 Hr1) as (st2 & -> & Hr2 & Hk2 & _);
        rewrite ?length_app; cbn [length]; try done; try lia.
      eexists. split; [done|]. split; [by eapply moved_kept|by do 4 eexists].
  - assert (Hskip : does false st (Some st)) by (eexists; split; [done|]; split; [done|by do 4 eexists]).
    destruct lim as [lim|]; [|destruct (Z.eq_dec (limit (mc_mode ch)) 0) as [Hl|Hl]].
    + unfold mode_parse_limit. rewrite Ed. cbn [negb]. unfold Modes.limit_change.
      rewrite (reading_refused src F ch N HF _ _ _ _ _ Hr), Ed. rewrite (reading_flag _ _ _ _ _ _ _ _ _ _ Hr), HB, (r_done _ _ _ _ _ _ _ _ _ Hr).
      rewrite bool_decide_eq_true_2 by done. by case_match.
    + unfold mode_parse_limit. rewrite Ed. cbn [negb]. unfold Modes.limit_change.
      rewrite (reading_refused src F ch N HF _ _ _ _ _ Hr), Ed. unfold cm. rewrite (r_chan _ _ _ _ _ _ _ _ _ Hr). cbn [with_mc_mode mc_mode lk_mode limit].
      by rewrite Hl.
    + destruct (reading_limit_del E src F ch N HF kd ka l st Hr Ed Hl) as (st2 & Hp2 & Hr2 & (K1 & K2 & K3 & _) & _).
      exists st2. split; [done|]. split; [by split|by do 4 eexists].
Qed.

Lemma key_error_nil k c : key_error k c = None -> key_error k [] = None.
Proof using All. apply key_error_any. Qed.

Lemma user_key st : user_reads st -> does true st (mode_parse_key E src st).
Proof using All.
  intros H. pose proof (user_max st H) as Htm. pose proof H as ((lim & kd & ka & l & Hr) & _).
  unfold mode_parse_key. rewrite Htm. destruct (grab st) as [[a st1]|] eqn:Hg; [|eexists; split; [done|]; apply step_none; [by do 4 eexists|done]].
  destruct (reading_grab _ _ _ _ _ _ _ _ _ _ _ Hr Hg) as (Hr1 & _). pose proof (taken_count _ _ _ _ _ _ _ Hr Hg) as Hcnt.
  rewrite (reading_refused src F ch N HF _ _ _ _ _ Hr1).
  destruct (first_time _ _ st1) as [st2|] eqn:Hft; [|eexists; split; [done|]; by eapply step_skip].
  destruct (first_time_eq _ _ _ _ Hft) as (Hst2 & Hfa & Hfd).
  assert (Hr2 : rd lim kd ka l st2) by (rewrite Hst2; apply reading_done; [by destruct (p_dir st1)|by destruct (p_dir st1)|done]).
  assert (Hk12 : kept_rest st1 st2) by (rewrite Hst2; apply rest_done).
  assert (Hdir : p_dir st2 = p_dir st1) by (by rewrite Hst2).
  assert (Hka : ka = None).
  { destruct ka; [|done]. rewrite (r_done_add _ _ _ _ _ _ _ _ _ Hr1) in Hfa; done. }
  assert (Hskip : forall st', kept_rest st2 st' -> rd lim kd ka l st' -> step_ok true st st').
  { intros st3 Hk Hr3. split; [eapply moved_kept; [done|by eapply rest_trans]|by do 4 eexists]. }
  destruct (key_error a _) as [r|] eqn:He; [eexists; split; [done|]; apply Hskip; [apply rest_my|by apply reading_my]|]. apply key_error_nil in He.
  rewrite (r_buf _ _ _ _ _ _ _ _ _ Hr2). cbv zeta. rewrite (no_burst src F ch N HF _ _ _ _ _ _ _ Hr2).
  rewrite (reading_flag _ _ _ _ _ _ _ _ _ _ Hr2), Hforce. cbn [negb andb].
  destruct (key_clash _ _ _) eqn:Hclash; [eexists; split; [done|]; apply Hskip; [apply rest_reply|by apply reading_reply]|].
  destruct (unchanged _ _ _); [eexists; split; [done|]; apply Hskip; [apply rest_refl|done]|].
  assert (Hc2 : p_changes st2 = p_changes st1 /\ p_args st2 = p_args st1) by (destruct Hk12 as (? & _ & _ & ? & _); done). destruct Hc2 as [Hc2 Ha2].
  rewrite (key_change_eq E src F ch N HF (p_dir st2) a lim kd ka l st2 Hr2 eq_refl) by lia. cbn [mbind option_bind].
  change (pflag (upd_mbuf_chan (p_chan st2, lk_buf src ch lim (l ++ [karg (p_dir st2) a])) st2) MODE_PARSE_SET) with (pflag st2 MODE_PARSE_SET).
  rewrite (reading_flag _ _ _ _ _ _ _ _ _ _ Hr2), (proj1 HF). eexists. split; [done|].
  change (step_ok true st (key_state src ch (p_dir st2) a lim l st2)).
  assert (Hold : key (cm st2) = match kd with Some _ => [] | None => key (mc_mode ch) end).
  { unfold cm. rewrite (r_chan _ _ _ _ _ _ _ _ _ Hr2), Hka. by destruct kd. }
  split; [eapply moved_kept; [exact Hg|eapply rest_trans; [exact Hk12|by split_and!]]|]. subst ka.
  assert (Hflag : forall f, (if p_dir st1 then DONE_KEY_ADD else DONE_KEY_DEL) = f -> pdone st2 f = true).
  { intros f <-. rewrite Hst2, pdone_upd. by destruct (p_dir st1); rewrite orb_true_r. }
  destruct (p_dir st2) eqn:Ed2.
  - do 4 eexists. eapply key_state_add; [exact Hr2|apply Hflag; by rewrite <- Hdir|done| |].
    + unfold key_clash in Hclash. rewrite Ed2, Hold in Hclash. destruct kd; [by left|right]. by destruct (key (mc_mode ch)).
    + rewrite length_app, Hc2, Ha2. cbn [length]. lia.
  - assert (kd = None) as ->.
    { destruct kd; [|done]. rewrite (r_done_del _ _ _ _ _ _ _ _ _ Hr1) in Hfd by done. rewrite <- Hdir in Hfd. by specialize (Hfd eq_refl). }
    do 4 eexists. eapply key_state_del; [exact Hr2|apply Hflag; by rewrite <- Hdir|done|].
    rewrite length_app, Hc2, Ha2. cbn [length]. lia.
Qed.

(** *** Operators and voices *)
Lemma user_member lim kd ka l st : rd lim kd ka l st -> member src st = Some me.
Proof using All.
  intros H. unfold member. rewrite (r_member _ _ _ _ _ _ _ _ _ H), (r_chan _ _ _ _ _ _ _ _ _ H). exact Hme.
Qed.

Lemma target_level lim kd ka l f a st c lvl : rd lim kd ka l st -> level_ok a -> (f = MODE_CHANOP \/ f = MODE_VOICE) ->
  local_target E src f a st = Some (Some c, lvl) ->
  lvl = MAXOPLEVEL + 1 \/ (Z.lor (dirbit st) f = Z.lor MODE_ADD MODE_CHANOP /\ 0 <= lvl < MAXOPLEVEL).
Proof using All.
  intros Hr Ha Hf. unfold local_target. destruct (at_colon a) as [[s rest]|] eqn:Hc; [|intros [= _ <-]; by left].
  rewrite (user_member _ _ _ _ _ Hr). cbv zeta. specialize (Ha _ _ Hc).
  destruct (bit f CHFL_VOICE || negb (p_dir st)) eqn:Hv; [intros [= _ <-]; by left|].
  rewrite (reading_flag _ _ _ _ _ _ _ _ _ _ Hr), Hforce. cbn [negb andb].
  destruct ((atoi rest <? oplevel me) || _ || _) eqn:Hlow; [done|]. apply orb_false_elim in Hlow as [Hlow Hmax]. apply orb_false_elim in Hlow as [Hlow _].
  apply Z.ltb_ge in Hlow, Hmax. rewrite (proj2 (Z.leb_le _ _) Hmax). intros [= _ <-]. right.
  apply orb_false_elim in Hv as [Hv Hd]. apply negb_false_iff in Hd. unfold dirbit. rewrite Hd.
  destruct Hf as [->| ->]; [|done]. split; [done|]. lia.
Qed.

Lemma user_client f st : user_reads st -> (f = MODE_CHANOP \/ f = MODE_VOICE) -> does true st (mode_parse_client E src f st).
Proof using All.
  intros H Hf. pose proof (user_max st H) as Htm. pose proof H as ((lim & kd & ka & l & Hr) & Hlv & _).
  unfold mode_parse_client. rewrite Htm. destruct (grab st) as [[a st1]|] eqn:Hg.
  2:{ eexists. split; [done|]. unfold grab in Hg. destruct (p_args st) eqn:Ha; [|done]. split; [|by do 4 eexists]. unfold moved. by rewrite Ha. }
  destruct (reading_grab _ _ _ _ _ _ _ _ _ _ _ Hr Hg) as (Hr1 & _ & Ha & _). pose proof (taken_count _ _ _ _ _ _ _ Hr Hg) as Hcnt.
  rewrite (reading_refused src F ch N HF _ _ _ _ _ Hr1), Hmy. rewrite Ha in Hlv. apply Forall_cons in Hlv as [Hlv _].
  destruct (local_target E src f a st1) as [[[c|] lvl]|] eqn:Ht.
  - rewrite (reading_flag _ _ _ _ _ _ _ _ _ _ Hr1). destruct HF as (_ & _ & -> & _ & _). cbn [andb]. cbv zeta.
    pose proof (target_level _ _ _ _ _ _ _ _ _ Hr1 Hlv Hf Ht) as Hlvl.
    set (x := {| c_flag := Z.lor (dirbit st1) f; c_oplevel := w16 lvl; c_client := c |}).
    assert (Hx : cli_ok x).
    { split; [by apply cli_flag|]. cbn [x c_oplevel c_flag]. destruct Hlvl as [->|[Hfl Hb]]; [by left|right]. split; [done|].
      rewrite w16_small; [done|]. unfold MAXOPLEVEL in Hb. lia. }
    assert (Hfx : f = MODE_CHANOP /\ bit (c_flag x) MODE_CHANOP = true \/ f = MODE_VOICE /\ bit (c_flag x) MODE_CHANOP = false).
    { cbn [x c_flag]. unfold dirbit. destruct Hf as [->| ->]; [left|right]; by destruct (p_dir st1). }
    destruct (put_change_slots f x (p_changes st1) Hx Hfx (r_changes _ _ _ _ _ _ _ _ _ Hr1)) as (H1 & H2 & _).
    rewrite (proj2 (Nat.ltb_ge _ _)) by (unfold MAXPARA; lia). eexists. split; [done|]. split; [by eapply moved_same; [exact Hg|..]|].
    exists lim, kd, ka, l. destruct Hr1. constructor; try done. cbn [upd_changes p_changes p_args] in *. lia.
  - eexists. split; [done|]. by eapply step_skip.
  - eexists. split; [done|]. split; [eapply moved_kept; [exact Hg|apply rest_reply]|]. do 4 eexists. by apply reading_reply.
Qed.

(** *** The modes without an argument *)
Lemma user_mode f st : user_reads st -> within f -> f <> MODE_REGISTERED -> step_ok false st (mode_parse_mode src f st).
Proof using All.
  intros ((lim & kd & ka & l & Hr) & _) Hf Hne.
  rewrite (mode_mode_eq src f st _ (reading_refused src F ch N HF _ _ _ _ _ Hr) (r_buf _ _ _ _ _ _ _ _ _ Hr) Hne). cbv zeta.
  destruct Hr. destruct (gather_ok (p_dir st) f (p_add st) (p_del st) Hf r_add0 r_del0 r_disj0) as (H1 & H2 & H3).
  split; [by split|]. do 4 eexists. by constructor.
Qed.

(** The letters with an argument that is not a ban or a password. *)
Definition user_letter (c : ascii) : bool := negb (existsb (fun d => c =c d) ["b"%char; "A"%char; "U"%char]).

Lemma user_char c st : user_reads st -> user_letter c = true ->
  exists st', mode_char E src st c = Some st' /\ user_reads st' /\ p_dir st' = next_dir (p_dir st) c /\
    length (p_args st') = (length (p_args st) - (if takes_arg (p_dir st) c then 1 else 0))%nat.
Proof using All.
  intros H Hl. assert (Hgoal : forall takes r, does takes st r -> next_dir (p_dir st) c = p_dir st -> takes_arg (p_dir st) c = takes ->
    exists st', r = Some st' /\ user_reads st' /\ p_dir st' = next_dir (p_dir st) c /\
      length (p_args st') = (length (p_args st) - (if takes_arg (p_dir st) c then 1 else 0))%nat).
  { intros takes r (st' & Hr & Hm & Hs) -> ->. exists st'. split; [done|]. split; [by eapply moved_reads|]. destruct Hm as [Hd Hm]. split; [done|].
    destruct takes, (p_args st); destruct Hm as [-> _]; cbn [length]; lia. }
  pose proof H as ((lim & kd & ka & l & Hr) & Hlv & Hmx).
  assert (Hnil : does false st (Some st)) by (eexists; split; [done|]; split; [done|by do 4 eexists]).
  destruct (letter_facts c) as [Hspec Hplain]. unfold mode_char. destruct (flag_of c) as [f|] eqn:Hf.
  2:{ destruct (Hspec (p_dir st) eq_refl) as [H1 H2]. apply (Hgoal false); [|done|done].
      eexists. split; [done|]. split; [|do 4 eexists; by apply reading_my].
      destruct (rest_my st (RUnknownMode c)) as (K1 & K2 & K3 & _). by split. }
  assert (Hturn : forall d, takes_arg (p_dir st) c = false -> next_dir (p_dir st) c = d ->
    exists st', Some (upd_dir d st) = Some st' /\ user_reads st' /\ p_dir st' = next_dir (p_dir st) c /\
      length (p_args st') = (length (p_args st) - (if takes_arg (p_dir st) c then 1 else 0))%nat).
  { intros d -> ->. eexists. split; [done|]. split; [split; [do 4 eexists; by apply reading_dir|done]|]. cbn [upd_dir p_args p_dir]. split; [done|lia]. }
  destruct (ch_eqb_spec c "+") as [->|N1]; [apply Hturn; by destruct (p_dir st)|].
  destruct (ch_eqb_spec c "-") as [->|N2]; [apply Hturn; by destruct (p_dir st)|].
  assert (Hnd : next_dir (p_dir st) c = p_dir st).
  { unfold next_dir. apply ch_eqb_neq in N1, N2. by rewrite N1, N2. }
  destruct (ch_eqb_spec c "l") as [->|N3]; [apply (Hgoal (p_dir st)); [by apply user_limit|done|by destruct (p_dir st)]|].
  destruct (ch_eqb_spec c "k") as [->|N4]; [apply (Hgoal true); [by apply user_key|done|done]|].
  destruct (ch_eqb_spec c "A") as [->|N5]; [done|]. destruct (ch_eqb_spec c "U") as [->|N6]; [done|].
  assert (Hmode : plain_letter c = true -> forall b : bool,
    exists st', Some (if b then mode_parse_mode src f st else st) = Some st' /\ user_reads st' /\ p_dir st' = next_dir (p_dir st) c /\
      length (p_args st') = (length (p_args st) - (if takes_arg (p_dir st) c then 1 else 0))%nat).
  { intros Hpl b. apply (Hgoal false); [|done|by apply Hplain]. destruct (plain_within c f Hf Hpl) as [Hw Hne].
    destruct b; [|done]. eexists. split; [done|by apply user_mode]. }
  destruct (ch_eqb_spec c "O") as [->|N7]; [by apply Hmode|]. destruct (ch_eqb_spec c "z") as [->|N8]; [by apply Hmode|].
  destruct (ch_eqb_spec c "b") as [->|N9]; [done|].
  destruct (ch_eqb_spec c "r") as [->|N10]; [apply (Hgoal false); [done|done|by destruct (p_dir st)]|].
  destruct ((c =c "o") || (c =c "v")) eqn:Hov.
  - destruct (op_flag c Hov) as [Ho|Ho]; rewrite Ho in Hf; injection Hf as <-; (apply (Hgoal true); [by apply user_client; auto|done|]);
      apply orb_prop in Hov as [Hov|Hov]; apply ch_eqb_eq in Hov as ->; done.
  - apply orb_false_elim in Hov as [Ho Hv]. apply Hmode with (b := true). unfold plain_letter. cbn [existsb].
    apply ch_eqb_neq in N1, N2, N3, N4, N5, N6, N9, N10. by rewrite N1, N2, N3, N4, N5, N6, N9, N10, Ho, Hv.
Qed.

Lemma user_chars s : forall st, user_reads st -> Forall (fun c => user_letter c = true) s ->
  exists st', steps (mode_char E src) s st = Some st' /\ user_reads st' /\ length (p_args st') = (length (p_args st) - taken s (p_dir st))%nat.
Proof using All.
  induction s as [|c s IH]; intros st H Hl; cbn [steps taken]; [exists st; split; [done|]; split; [done|lia]|].
  apply Forall_cons in Hl as [Hc Hl]. destruct (user_char c st H Hc) as (st1 & -> & H1 & Hd & Ha). cbn [mbind option_bind].
  destruct (IH st1 H1 Hl) as (st' & -> & H2 & Ha2). exists st'. split; [done|]. split; [done|]. rewrite Ha2, Ha, Hd. lia.
Qed.
End user.

(** ** The members *)
Definition ov (x : cli_change) : Z := Z.land (c_flag x) (Z.lor MODE_CHANOP MODE_VOICE).
Definition adding (x : cli_change) : bool := bit (c_flag x) MODE_ADD.
Definition opping (x : cli_change) : bool := bit (c_flag x) MODE_CHANOP.

(** The level of a member opped by one of level [L]. *)
Definition new_level (L : Z) (x : cli_change) : Z :=
  if c_oplevel x <=? MAXOPLEVEL then c_oplevel x else if MAXOPLEVEL <=? L then L else L + 1.

Definition eff (L : Z) (x : cli_change) (m : Membership) : Membership :=
  if bool_decide (user m = c_client x) then
    if adding x then
      with_status (fun s => let s := Z.lor s (ov x) in if opping x then Z.ldiff s CHFL_DEOPPED else s)
        (if opping x then SetOpLevel (w16 (new_level L x)) m else m)
    else with_status (fun s => Z.ldiff s (ov x)) m
  else m.

Definition applied (L : Z) (X : list cli_change) (m : Membership) : Membership := fold_left (fun m x => eff L x m) X m.

(** A change that is one for the channel. *)
Definition effective (ch : mchan) (x : cli_change) : Prop :=
  exists m, find_mem (c_client x) ch = Some m /\ Bool.eqb (adding x) (bit (status m) (ov x)) = false.

Lemma flag_vals x : c_flag x ∈ client_flags ->
  (adding x = true \/ adding x = false) /\ ((opping x = true /\ ov x = 1) \/ (opping x = false /\ ov x = 2)).
Proof.
  unfold client_flags, adding, opping, ov. rewrite !elem_of_cons. intros [->|[->|[->|[->|H]]]]; [auto..|by apply not_elem_of_nil in H].
Qed.

(** The four kinds of a change, as equations. *)
Ltac kinds Hx Ha Ho Hv := destruct (flag_vals _ Hx) as [[Ha|Ha] [[Ho Hv]|[Ho Hv]]].

Lemma eff_user L x m : user (eff L x m) = user m.
Proof. unfold eff. case_bool_decide; [|done]. destruct (adding x), (opping x); done. Qed.

Lemma applied_user L X m : user (applied L X m) = user m.
Proof. revert m. induction X as [|x X IH]; intros m; [done|]. cbn [applied fold_left]. change (user (applied L X (eff L x m)) = user m). by rewrite IH, eff_user. Qed.

Lemma find_mem_upd g c ch : (forall m, user (g m) = user m) -> find_mem c (upd_members g ch) = g <$> find_mem c ch.
Proof.
  intros Hg. unfold find_mem. cbn [upd_members mc_members]. induction (mc_members ch) as [|m l IH]; [done|]. cbn [map find]. rewrite Hg.
  by destruct (bool_decide (user m = c)).
Qed.

Lemma upd_members_comp g h ch : upd_members g (upd_members h ch) = upd_members (fun m => g (h m)) ch.
Proof. unfold upd_members. cbn. by rewrite map_map. Qed.

Lemma upd_members_ext g h ch : (forall m, m ∈ mc_members ch -> g m = h m) -> upd_members g ch = upd_members h ch.
Proof. intros H. unfold upd_members. f_equal. apply map_ext_in. intros m Hm. apply H. by apply list_elem_of_In. Qed.

Lemma applied_snoc L X x m : applied L (X ++ [x]) m = eff L x (applied L X m).
Proof. unfold applied. by rewrite fold_left_app. Qed.

(** Changes of other members, or of the other mode, are not seen. *)
Lemma eff_bit L y m x : c_flag x ∈ client_flags -> c_flag y ∈ client_flags -> slot x <> slot y -> user m = c_client x ->
  bit (status (eff L y m)) (ov x) = bit (status m) (ov x).
Proof.
  intros Hx Hy Hs Hu. unfold eff. case_bool_decide as Hc; [|done].
  assert (Hop : opping x <> opping y) by (intros Ho; apply Hs; unfold slot, opping in *; congruence).
  kinds Hx Ax Ox Vx; kinds Hy Ay Oy Vy; try congruence; rewrite Ay, ?Oy, Vx, Vy; cbn [status with_status SetOpLevel];
    rewrite ?bit_ldiff, ?bit_lor by done; done.
Qed.

Lemma applied_bit L X m x : c_flag x ∈ client_flags -> Forall (fun y => c_flag y ∈ client_flags) X -> slot x ∉ map slot X -> user m = c_client x ->
  bit (status (applied L X m)) (ov x) = bit (status m) (ov x).
Proof.
  intros Hx HX. revert m. induction HX as [|y X Hy HX IH]; intros m Hs Hu; [done|]. cbn [map] in Hs. apply not_elem_of_cons in Hs as [Hs1 Hs2].
  cbn [applied fold_left]. change (bit (status (applied L X (eff L y m))) (ov x) = bit (status m) (ov x)).
  rewrite IH by (rewrite ?eff_user; done). by apply eff_bit.
Qed.

Definition hidden (m : Membership) : bool := IsDelayedJoin m.
Lemma eff_hidden L x m : c_flag x ∈ client_flags -> hidden (eff L x m) = hidden m.
Proof.
  intros Hx. unfold eff, hidden. case_bool_decide; [|done]. unfold IsDelayedJoin, has_status.
  assert (Hb : forall s w, Z.land w CHFL_DELAYED = 0 -> Z.land (Z.lor s w) CHFL_DELAYED = Z.land s CHFL_DELAYED).
  { intros s w Hw. by rewrite Z.land_lor_distr_l, Hw, Z.lor_0_r. }
  assert (Hd : forall s w, Z.land w CHFL_DELAYED = 0 -> Z.land (Z.ldiff s w) CHFL_DELAYED = Z.land s CHFL_DELAYED).
  { intros s w Hw. apply testbit_ext. intros k Hk. rewrite !Z.land_spec, Z.ldiff_spec. apply (f_equal (fun z => Z.testbit z k)) in Hw.
    rewrite Z.land_spec, Z.bits_0 in Hw. by destruct (Z.testbit s k), (Z.testbit w k), (Z.testbit CHFL_DELAYED k). }
  kinds Hx Ax Ox Vx; rewrite Ax, ?Ox, Vx; cbn [status with_status SetOpLevel]; by rewrite ?Hd, ?Hb.
Qed.

Lemma applied_hidden L X m : Forall (fun y => c_flag y ∈ client_flags) X -> hidden (applied L X m) = hidden m.
Proof.
  intros HX. revert m. induction HX as [|y X Hy HX IH]; intros m; [done|]. cbn [applied fold_left].
  change (hidden (applied L X (eff L y m)) = hidden m). by rewrite IH, eff_hidden.
Qed.

(** Two changes of different slots commute. *)
Lemma eff_comm L x y m : c_flag x ∈ client_flags -> c_flag y ∈ client_flags -> slot x <> slot y -> eff L x (eff L y m) = eff L y (eff L x m).
Proof.
  intros Hx Hy Hs. unfold eff at 1 3. rewrite !eff_user. destruct (decide (user m = c_client x)) as [Hcx|Hcx], (decide (user m = c_client y)) as [Hcy|Hcy]; unfold eff;
    rewrite ?(bool_decide_eq_true_2 _ Hcx), ?(bool_decide_eq_true_2 _ Hcy), ?(bool_decide_eq_false_2 _ Hcx), ?(bool_decide_eq_false_2 _ Hcy); try done.
  assert (Hop : opping x <> opping y) by (intros Ho; apply Hs; unfold slot, opping in *; congruence).
  pose proof (fun k => f_equal (fun z => Z.testbit z k) (eq_refl : Z.land 1 2 = 0)) as K1.
  pose proof (fun k => f_equal (fun z => Z.testbit z k) (eq_refl : Z.land 2 CHFL_DEOPPED = 0)) as K2.
  cbv beta in K1, K2. 
  kinds Hx Ax Ox Vx; kinds Hy Ay Oy Vy; try congruence; rewrite Ax, Ay, ?Ox, ?Oy, Vx, Vy; unfold with_status, SetOpLevel;
    cbn [user channel status oplevel]; f_equal; apply testbit_ext; intros k Hk; specialize (K1 k); specialize (K2 k);
    rewrite Z.land_spec, Z.bits_0 in K1, K2; rewrite ?Z.ldiff_spec, ?Z.lor_spec, ?Z.ldiff_spec, ?Z.lor_spec, ?Z.ldiff_spec;
    destruct (Z.testbit (status m) k), (Z.testbit 1 k), (Z.testbit 2 k), (Z.testbit CHFL_DEOPPED k); done.
Qed.

Lemma applied_perm L X Y : X ≡ₚ Y -> NoDup (map slot X) -> Forall (fun y => c_flag y ∈ client_flags) X -> forall m, applied L X m = applied L Y m.
Proof.
  induction 1 as [|x X Y _ IH|x y X|X Y Z Hp1 IH1 Hp2 IH2]; intros Hnd Hok m; [done| | |].
  - cbn [map] in Hnd. apply NoDup_cons in Hnd as [_ Hnd]. apply Forall_cons in Hok as [_ Hok]. cbn [applied fold_left]. apply (IH Hnd Hok).
  - cbn [map] in Hnd. apply NoDup_cons in Hnd as [Hs _]. apply Forall_cons in Hok as [Hy Hok]. apply Forall_cons in Hok as [Hx _].
    cbn [applied fold_left]. f_equal. apply eff_comm; [done..|]. intros He. apply Hs. rewrite He. left.
  - rewrite IH1 by done. apply IH2; [by rewrite <- Hp1|by rewrite <- Hp1].
Qed.

(** ** The changes of members in the channel *)
Section process.
Context (E : mode_env) (src : msource) (F : Z) (ch0 : mchan) (me : Membership) (mb0 : ModeBuf) (l0 : list modearg).
Context (HF : bit F MODE_PARSE_SET = true).
Context (Hme : find_mem (s_client src) ch0 = Some me) (Hop : bit (status me) MODE_CHANOP = true) (Hlevel : 0 <= oplevel me <= MAXOPLEVEL).
Context (Hhid : Forall (fun m => hidden m = false) (mc_members ch0)) (Hdest : bit (mb_dest mb0) MODEBUF_DEST_DEOP = false).
Implicit Types (st : pstate).
Notation L := (oplevel me).

Record processed (X : list cli_change) st : Prop := {
  pr_chan : p_chan st = upd_members (applied L X) ch0;
  pr_buf : p_mbuf st = Some (with_args (l0 ++ map xarg X) mb0);
  pr_flags : p_flags st = F;
  pr_member : p_member st = true;
  pr_ok : changes_ok X;
  pr_eff : Forall (effective ch0) X
}.

Lemma processed_reply X r st : processed X st -> processed X (reply r st). Proof using Type. by intros []. Qed.
Lemma processed_my X r st : processed X st -> processed X (to_my src r st).
Proof using Type. intros H. unfold to_my. destruct (s_my src); [by apply processed_reply|done]. Qed.

Lemma flags_of X : changes_ok X -> Forall (fun y => c_flag y ∈ client_flags) X.
Proof using Type. intros [_ H]. eapply Forall_impl; [exact H|]. by intros x [Hx _]. Qed.

(** The source is not opped by its own line, so its level stays. *)
Lemma my_level X : Forall cli_ok X -> Forall (effective ch0) X -> oplevel (applied L X me) = L.
Proof using All.
  intros Hok Heff. assert (H : forall m, user m = s_client src -> oplevel (applied L X m) = oplevel m); [|apply H; by apply find_mem_in in Hme as [_ ?]].
  induction Hok as [|x X [Hx _] Hok IH]; intros m Hm; [done|]. apply Forall_cons in Heff as [Hex Heff]. cbn [applied fold_left].
  change (oplevel (applied L X (eff L x m)) = oplevel m). rewrite (IH Heff) by (by rewrite eff_user). unfold eff.
  case_bool_decide as Hc; [|done]. destruct Hex as (m' & Hm' & He). assert (m' = me) as -> by (rewrite <- Hc, Hm in Hm'; congruence).
  kinds Hx Ax Ox Vx; rewrite Ax, ?Ox; try done. rewrite Ax, Vx in He. change (bit (status me) 1) with (bit (status me) MODE_CHANOP) in He. by rewrite Hop in He.
Qed.

Lemma now_member X st : processed X st -> exists m, member src st = Some m /\ oplevel m = L.
Proof using All.
  intros H. exists (applied L X me). split; [|apply my_level; [by apply pr_ok in H as [_ ?]|by apply pr_eff in H]].
  unfold member. rewrite (pr_member _ _ H), (pr_chan _ _ H), find_mem_upd by (apply applied_user). by rewrite Hme.
Qed.

(** The member as the change finds it. *)
Lemma found X st x : processed X st -> c_flag x ∈ client_flags -> slot x ∉ map slot X ->
  find_mem (c_client x) (p_chan st) = applied L X <$> find_mem (c_client x) ch0 /\
  forall m, find_mem (c_client x) ch0 = Some m -> bit (status (applied L X m)) (ov x) = bit (status m) (ov x) /\ hidden (applied L X m) = false.
Proof using All.
  intros H Hx Hs. rewrite (pr_chan _ _ H), find_mem_upd by (apply applied_user). split; [done|]. intros m Hm. apply find_mem_in in Hm as [Hin Hu].
  split; [apply applied_bit; [done|apply flags_of, H|done|done]|]. rewrite applied_hidden by (apply flags_of, H). rewrite Forall_forall in Hhid. by apply Hhid.
Qed.

(** Making the change. *)
Lemma change_made X st x m0 : processed X st -> cli_ok x -> slot x ∉ map slot X -> (length l0 + length X < 5)%nat ->
  find_mem (c_client x) ch0 = Some m0 -> Bool.eqb (adding x) (bit (status m0) (ov x)) = false ->
  let st2 := if adding x && opping x then upd_chan (upd_mem (c_client x) (SetOpLevel (w16 (new_oplevel src x st))) (p_chan st)) st else st in
  exists st', buffered (modebuf_mode_client (cli_name E) (NumNick E) (c_flag x) (c_client x) (c_oplevel x)) (client_set x (applied L X m0) st2) = Some st' /\
    processed (X ++ [x]) st'.
Proof using All.
  intros H Hok Hs Hlen Hm Heff st2. destruct (found X st x H (proj1 Hok) Hs) as [_ Hf]. destruct (Hf m0 Hm) as [_ Hh]. clear Hf.
  destruct (now_member X st H) as (me' & Hme' & Hl').
  assert (Hnew : new_oplevel src x st = new_level L x).
  { unfold new_oplevel, new_level. by rewrite Hme', Hl'. }
  assert (Hset : p_chan (client_set x (applied L X m0) st2) = upd_members (applied L (X ++ [x])) ch0 /\
    p_mbuf (client_set x (applied L X m0) st2) = p_mbuf st /\ p_flags (client_set x (applied L X m0) st2) = p_flags st /\
    p_member (client_set x (applied L X m0) st2) = p_member st).
  { assert (Hch : forall g h, (forall m, user (h m) = user m) -> (forall m, eff L x m = if bool_decide (user m = c_client x) then g (h m) else m) ->
      upd_mem (c_client x) g (upd_mem (c_client x) h (p_chan st)) = upd_members (applied L (X ++ [x])) ch0).
    { intros g h Hh2 He. unfold upd_mem. rewrite (pr_chan _ _ H), !upd_members_comp. apply upd_members_ext. intros m _. rewrite applied_snoc, He.
      destruct (bool_decide (user (applied L X m) = c_client x)) eqn:Hb; [by rewrite Hh2, Hb|by rewrite Hb]. }
    assert (Hid : upd_mem (c_client x) id (p_chan st) = p_chan st).
    { unfold upd_mem, upd_members. destruct (p_chan st) as [? ? ? ms ? ? ?]. cbn. f_equal. rewrite <- (map_id ms) at 2. apply map_ext. intros m. by case_bool_decide. }
    unfold client_set. change (bit (c_flag x) MODE_ADD) with (adding x). unfold hidden in Hh. rewrite Hh. cbn [andb].
    unfold st2. rewrite Hnew. change (bit (c_flag x) MODE_CHANOP) with (opping x). change (Z.land (c_flag x) (Z.lor MODE_CHANOP MODE_VOICE)) with (ov x).
    destruct (adding x) eqn:Ea; [destruct (opping x) eqn:Eo|]; cbn [andb upd_chan p_chan p_mbuf p_flags p_member]; (split; [|by split_and!]).
    - apply Hch; [done|]. intros m. unfold eff. by rewrite Ea, Eo.
    - rewrite <- Hid. apply Hch; [done|]. intros m. unfold eff. by rewrite Ea, Eo.
    - rewrite <- Hid. apply Hch; [done|]. intros m. unfold eff. by rewrite Ea. }
  destruct Hset as (K1 & K2 & K3 & K4). set (st3 := client_set _ _ st2) in *.
  rewrite (buffered_eq _ st3 (with_args (l0 ++ map xarg X) mb0) (p_chan st3, with_args (l0 ++ map xarg (X ++ [x])) mb0)).
  - eexists. split; [done|]. destruct H as [_ _ P3 P4 [P5 P6] P7]. constructor; cbn [upd_mbuf_chan p_chan p_mbuf p_flags p_member fst snd]; try done; try congruence.
    + split; [rewrite map_app; apply NoDup_app; split_and!; [done| |by apply NoDup_singleton]|by apply Forall_app; split; [|apply Forall_singleton]].
      intros s Hin. cbn. intros Hin2. assert (s = slot x) as -> by set_solver. done.
    + apply Forall_app. split; [done|]. apply Forall_singleton. by exists m0.
  - rewrite K2. apply H.
  - unfold modebuf_mode_client, push_arg. cbv zeta. cbn [with_args mb_modeargs mb_dest]. rewrite Hdest.
    rewrite (proj2 (Z.leb_gt _ _)).
    + rewrite map_app, app_assoc. done.
    + rewrite !length_app, length_map. unfold MAXMODEPARAMS. cbn [length]. lia.
Qed.

(** A local user's change is made, or refused or without effect. *)
Lemma process_step X st x : processed X st -> cli_ok x -> slot x ∉ map slot X -> (length l0 + length X < 5)%nat ->
  exists st' Y, process_client E src st x = Some st' /\ processed (X ++ Y) st' /\ (Y = [] \/ Y = [x]).
Proof using All.
  intros H Hok Hs Hlen. assert (Hsame : forall st1, processed X st1 -> exists st' Y, Some st1 = Some st' /\ processed (X ++ Y) st' /\ (Y = [] \/ Y = [x])).
  { intros st2 H2. exists st2, []. rewrite app_nil_r. auto. }
  unfold process_client. destruct (found X st x H (proj1 Hok) Hs) as [Hf Hb]. rewrite Hf.
  destruct (find_mem (c_client x) ch0) as [m0|] eqn:Hm; cbn [fmap option_fmap option_map]; [|by apply Hsame, processed_my].
  destruct (Hb m0 eq_refl) as [Hbit Hh]. destruct (_ && IsZombie _); [by apply Hsame, processed_my|].
  cbv zeta. change (bit (c_flag x) MODE_ADD) with (adding x). change (Z.land (c_flag x) (Z.lor MODE_CHANOP MODE_VOICE)) with (ov x). rewrite Hbit.
  destruct (Bool.eqb _ _) eqn:He; [by apply Hsame|].
  set (st1 := if _ && _ && pflag st MODE_PARSE_FORCE then _ else st).
  assert (H1 : processed X st1) by (unfold st1; destruct (_ && pflag st MODE_PARSE_FORCE); [by apply processed_reply|done]). clearbody st1.
  destruct (if negb _ && _ then deop_refused E src x _ st1 else None) as [r|]; [by apply Hsame, processed_reply|].
  destruct (change_made X st1 x m0 H1 Hok Hs Hlen Hm He) as (st2 & Hst2 & H2). cbv zeta in Hst2.
  change (bit (c_flag x) MODE_CHANOP) with (opping x).
  assert (Hset : forall c, pflag (if c : bool then upd_chan (upd_mem (c_client x) (SetOpLevel (w16 (new_oplevel src x st1))) (p_chan st1)) st1 else st1) MODE_PARSE_SET = true).
  { intros c. transitivity (pflag st1 MODE_PARSE_SET); [by destruct c|]. unfold pflag. by rewrite (pr_flags _ _ H1). }
  rewrite Hset, Hst2. exists st2, [x]. auto.
Qed.

Lemma process_all xs : forall X st, processed X st -> Forall cli_ok xs -> NoDup (map slot (X ++ xs)) -> (length l0 + length X + length xs <= 5)%nat ->
  exists st' Y, steps (process_client E src) xs st = Some st' /\ processed (X ++ Y) st' /\ sublist Y xs.
Proof using All.
  induction xs as [|x xs IH]; intros X st H Hok Hnd Hlen; cbn [steps].
  - exists st, []. rewrite app_nil_r. split; [done|]. split; [done|constructor].
  - apply Forall_cons in Hok as [Hx Hok]. assert (Hs : slot x ∉ map slot X).
    { rewrite map_app in Hnd. apply NoDup_app in Hnd as (_ & Hd & _). intros Hin. apply (Hd _ Hin). left. }
    cbn [length] in Hlen. destruct (process_step X st x H Hx Hs ltac:(lia)) as (st1 & Y & -> & H1 & HY). cbn [mbind option_bind].
    destruct (IH (X ++ Y) st1 H1 Hok) as (st' & Z0 & Hrun & H2 & Hsub).
    + destruct HY as [->| ->]; [rewrite app_nil_r|by rewrite <- app_assoc]. rewrite map_app in Hnd |- *. cbn [map] in Hnd.
      rewrite <- Permutation_middle in Hnd. by apply NoDup_cons in Hnd as [_ Hnd].
    + destruct HY as [->| ->]; rewrite length_app; cbn [length]; lia.
    + exists st', (Y ++ Z0). rewrite <- app_assoc in H2. split; [done|]. split; [done|]. destruct HY as [->| ->]; [by apply sublist_cons|by apply sublist_skip].
Qed.

(** Another server makes every change of the line. *)
Lemma process_remote xs : s_my src = false -> forall X st, processed X st -> Forall cli_ok xs -> Forall (effective ch0) xs ->
  NoDup (map slot (X ++ xs)) -> (length l0 + length X + length xs <= 5)%nat ->
  exists st', steps (process_client E src) xs st = Some st' /\ processed (X ++ xs) st'.
Proof using All.
  intros Hmy. induction xs as [|x xs IH]; intros X st H Hok Heff Hnd Hlen; cbn [steps].
  - exists st. by rewrite app_nil_r.
  - apply Forall_cons in Hok as [Hx Hok]. apply Forall_cons in Heff as [Hex Heff]. assert (Hs : slot x ∉ map slot X).
    { rewrite map_app in Hnd. apply NoDup_app in Hnd as (_ & Hd & _). intros Hin. apply (Hd _ Hin). left. }
    cbn [length] in Hlen. destruct Hex as (m0 & Hm & He).
    assert (Hstep : exists st1, process_client E src st x = Some st1 /\ processed (X ++ [x]) st1).
    { unfold process_client. destruct (found X st x H (proj1 Hx) Hs) as [Hf Hb]. rewrite Hf, Hm. cbn [fmap option_fmap option_map].
      destruct (Hb m0 Hm) as [Hbit Hh]. rewrite Hmy. cbn [andb]. cbv zeta. change (bit (c_flag x) MODE_ADD) with (adding x).
      change (Z.land (c_flag x) (Z.lor MODE_CHANOP MODE_VOICE)) with (ov x). rewrite Hbit, He.
      set (st1 := if _ && _ && pflag st MODE_PARSE_FORCE then _ else st).
      assert (H1 : processed X st1) by (unfold st1; destruct (_ && pflag st MODE_PARSE_FORCE); [by apply processed_reply|done]). clearbody st1.
      assert ((if negb (adding x) && bit (c_flag x) MODE_CHANOP then deop_refused E src x (applied L X m0) st1 else None) = None) as ->.
      { unfold deop_refused. rewrite Hmy. by destruct (_ && _). }
      destruct (change_made X st1 x m0 H1 Hx Hs ltac:(lia) Hm He) as (st2 & Hst2 & H2). cbv zeta in Hst2.
      change (bit (c_flag x) MODE_CHANOP) with (opping x).
      assert (Hset : forall c, pflag (if c : bool then upd_chan (upd_mem (c_client x) (SetOpLevel (w16 (new_oplevel src x st1))) (p_chan st1)) st1 else st1) MODE_PARSE_SET = true).
      { intros c. transitivity (pflag st1 MODE_PARSE_SET); [by destruct c|]. unfold pflag. by rewrite (pr_flags _ _ H1). }
      rewrite Hset, Hst2. eauto. }
    destruct Hstep as (st1 & -> & H1). cbn [mbind option_bind].
    destruct (IH (X ++ [x]) st1 H1 Hok Heff) as (st' & Hrun & H2); [by rewrite <- app_assoc|rewrite length_app; cbn [length]; lia|].
    exists st'. rewrite <- app_assoc in H2. done.
Qed.
End process.

(** ** Applying the modes *)
Definition limit_bit (lim : lim_effect) : Z := match lim with Some None => MODE_LIMIT | _ => 0 end.

(** The flags of a buffer, as the letters see them. *)
Record flagged (a r : Z) (lim : lim_effect) (mb : ModeBuf) : Prop := {
  fl_bits : Forall (fun f => bit (mb_add mb) (fst f) = bit a (fst f) /\ bit (mb_rem mb) (fst f) = bit (Z.lor r (limit_bit lim)) (fst f)) simple_flags;
  fl_add : a = 0 -> mb_add mb = 0;
  fl_rem : r = 0 -> lim <> Some None -> mb_rem mb = 0;
  fl_a : within a;
  fl_r : within r
}.

Definition simple_chan (t : Z) (c : mchan) : mchan :=
  set_bits t (if bit (mode (mc_mode c)) MODE_INVITEONLY && negb (bit t MODE_INVITEONLY) then no_invites c else c).

Lemma word_rem a d m : Z.land a d = 0 -> Z.land d m = Z.ldiff m (word a d m).
Proof.
  intros H. bitwise k. apply (f_equal (fun z => Z.testbit z k)) in H. rewrite Z.land_spec, Z.bits_0 in H. rewrite Z.land_spec.
  by destruct (Z.testbit m k), (Z.testbit d k), (Z.testbit a k).
Qed.

Lemma word_new a d m : Z.land a d = 0 -> Z.ldiff a (Z.ldiff m d) = Z.ldiff (word a d m) m.
Proof.
  intros H. bitwise k. apply (f_equal (fun z => Z.testbit z k)) in H. rewrite Z.land_spec, Z.bits_0 in H.
  by destruct (Z.testbit m k), (Z.testbit d k), (Z.testbit a k).
Qed.

Lemma within_sub x y : within x -> (forall k, 0 <= k -> Z.testbit y k = true -> Z.testbit x k = true) -> within y.
Proof. intros Hx H. apply ldiff_zero_iff. intros k Hk Hy. apply (ldiff_zero _ _ _ Hx). by apply H. Qed.

Lemma within_land x d : within x -> Z.land d plain_mask = 0 -> Z.land x d = 0.
Proof.
  intros Hx Hd. apply testbit_ext. intros k Hk. rewrite Z.land_spec, Z.bits_0. destruct (Z.testbit x k) eqn:E; [|done].
  apply (ldiff_zero _ _ _ Hx) in E. apply (f_equal (fun z => Z.testbit z k)) in Hd. rewrite Z.land_spec, Z.bits_0, E, andb_true_r in Hd. by rewrite Hd.
Qed.

Lemma bit_within x f : within x -> Z.land f plain_mask = 0 -> bit x f = false.
Proof. intros Hx Hf. unfold bit. by rewrite within_land. Qed.

(** The flags added with a direction are those, but for the direction. *)
Lemma buffer_mode dir x : within x -> x <> 0 -> forall mb,
  modebuf_mode (Z.lor (if dir : bool then MODE_ADD else MODE_DEL) x) mb =
    (let m := Z.lor (if dir then MODE_ADD else MODE_DEL) x in
     if dir then Modebuf.with_flags (Z.lor (mb_add mb) m) (Z.ldiff (mb_rem mb) m) mb
     else Modebuf.with_flags (Z.ldiff (mb_add mb) m) (Z.lor (mb_rem mb) m) mb).
Proof.
  intros Hx Hne mb. unfold modebuf_mode. set (d := if dir then MODE_ADD else MODE_DEL).
  assert (Hmask : Z.land (Z.lor d x) (Z.lor (Z.lor MODE_ADD MODE_DEL) simple_mask) = Z.lor d x).
  { assert (Hsub : forall k, Z.testbit plain_mask k = true -> Z.testbit simple_mask k = true) by (intros k; by apply ldiff_zero).
    assert (Hd : forall k, Z.testbit d k = true -> Z.testbit (Z.lor MODE_ADD MODE_DEL) k = true) by (intros k; apply ldiff_zero; by destruct dir).
    apply testbit_ext. intros k Hk. rewrite Z.land_spec, !(Z.lor_spec d), (Z.lor_spec _ simple_mask).
    destruct (Z.testbit d k) eqn:Ed; [by rewrite (Hd k Ed)|]. destruct (Z.testbit x k) eqn:Ex; [|done].
    by rewrite (Hsub k (ldiff_zero _ _ _ Hx Ex)), !orb_true_r. }
  rewrite Hmask. assert (Hnz : (Z.ldiff (Z.lor d x) (Z.lor MODE_ADD MODE_DEL) =? 0) = false).
  { apply Z.eqb_neq. intros H0. apply Hne. apply testbit_ext. intros k Hk. rewrite Z.bits_0. destruct (Z.testbit x k) eqn:Ex; [|done].
    apply (f_equal (fun z => Z.testbit z k)) in H0. rewrite Z.ldiff_spec, Z.lor_spec, Ex, orb_true_r, Z.bits_0 in H0.
    assert (Z.testbit (Z.land x (Z.lor MODE_ADD MODE_DEL)) k = false) as Hz by (rewrite within_land by done; apply Z.bits_0).
    rewrite Z.land_spec, Ex in Hz. cbn [andb] in Hz, H0. by rewrite Hz in H0. }
  rewrite Hnz. rewrite bit_or, (bit_within x MODE_ADD Hx) by done. rewrite orb_false_r. by destruct dir.
Qed.

Lemma simple_in f : f ∈ simple_flags -> one_bit (fst f) /\ Z.land (Z.lor MODE_ADD MODE_DEL) (fst f) = 0 /\
  (bit MODE_LIMIT (fst f) = true -> Z.land (fst f) plain_mask = 0).
Proof.
  assert (H : Forall (fun f => one_bit (fst f) /\ Z.land (Z.lor MODE_ADD MODE_DEL) (fst f) = 0 /\
    (bit MODE_LIMIT (fst f) = true -> Z.land (fst f) plain_mask = 0)) simple_flags).
  { unfold simple_flags. repeat (apply Forall_cons_2; [split; [|by split]|]); [..|apply Forall_nil_2];
      first [a_bit 2|a_bit 3|a_bit 4|a_bit 5|a_bit 6|a_bit 7|a_bit 13|a_bit 12|a_bit 11|a_bit 24|a_bit 14|a_bit 15|a_bit 25|a_bit 26|a_bit 28|a_bit 27|a_bit 23|a_bit 10]. }
  rewrite Forall_forall in H. apply H.
Qed.

Lemma bit_zero f : bit 0 f = false. Proof. done. Qed.

Section apply.
Context (E : mode_env) (src : msource) (F : Z) (ch : mchan) (N : nat).
Context (HF : bit F MODE_PARSE_SET = true /\ bit F MODE_PARSE_BURST = false /\ bit F MODE_PARSE_BOUNCE = false /\
  bit F MODE_PARSE_WIPEOUT = false /\ bit F (Z.lor MODE_PARSE_NOTOPER MODE_PARSE_NOTMEMBER) = false).
Implicit Types (st : pstate) (l : list modearg).

(** The word of modes that a line leaves. *)
Definition new_word st : Z := word (p_add st) (p_del st) (mode (cm st)).

Lemma simple_modes_eq lim kd ka l st : reading src F ch N lim kd ka l st ->
  exists st' a0 r0, simple_modes st = Some st' /\ p_chan st' = simple_chan (new_word st) (p_chan st) /\
    p_mbuf st' = Some (Modebuf.with_flags a0 r0 (lk_buf src ch lim l)) /\
    flagged (Z.ldiff (new_word st) (mode (cm st))) (Z.ldiff (mode (cm st)) (new_word st)) lim (Modebuf.with_flags a0 r0 (lk_buf src ch lim l)) /\
    p_changes st' = p_changes st /\ p_flags st' = F /\ p_member st' = true /\ p_done st' = p_done st.
Proof using HF.
  intros H. unfold simple_modes. rewrite (r_buf _ _ _ _ _ _ _ _ _ H). cbn [mbind option_bind]. cbv zeta.
  set (m := mode (cm st)). set (a := p_add st) in *. set (d := p_del st).
  pose proof (r_add _ _ _ _ _ _ _ _ _ H) as Ha. pose proof (r_del _ _ _ _ _ _ _ _ _ H) as Hd. pose proof (r_disj _ _ _ _ _ _ _ _ _ H) as Had. fold a d in Ha, Hd, Had.
  assert (Hr : within (Z.land d m)) by (apply (within_sub d); [done|intros k _; rewrite Z.land_spec; by intros [? _]%andb_prop]).
  assert (Ht1 : (if bit d m then Z.ldiff m d else m) = Z.ldiff m d).
  { destruct (bit d m) eqn:E1; [done|]. unfold bit in E1. apply negb_false_iff, Z.eqb_eq in E1. symmetry. apply testbit_ext. intros k Hk.
    rewrite Z.ldiff_spec. apply (f_equal (fun z => Z.testbit z k)) in E1. rewrite Z.land_spec, Z.bits_0 in E1. by destruct (Z.testbit m k), (Z.testbit d k). }
  assert (Ht2 : (if negb (Z.ldiff a (Z.ldiff m d) =? 0) then Z.lor (Z.ldiff m d) a else Z.ldiff m d) = word a d m).
  { destruct (Z.eqb_spec (Z.ldiff a (Z.ldiff m d)) 0) as [E1|]; [|done]. cbn [negb]. unfold word. apply testbit_ext. intros k Hk. rewrite Z.lor_spec.
    destruct (Z.testbit a k) eqn:Ea; [|by rewrite orb_false_r]. by rewrite (ldiff_zero _ _ _ E1 Ea). }
  assert (Hna : within (Z.ldiff a (Z.ldiff m d))) by (apply (within_sub a); [done|intros k _; rewrite Z.ldiff_spec; by intros [? _]%andb_prop]).
  set (mb1 := if bit d m then modebuf_mode (Z.lor MODE_DEL (Z.land d m)) (lk_buf src ch lim l) else lk_buf src ch lim l).
  assert (E1 : (if bit d m then (modebuf_mode (Z.lor MODE_DEL (Z.land d m)) (lk_buf src ch lim l), Z.ldiff m d) else (lk_buf src ch lim l, m)) = (mb1, Z.ldiff m d)).
  { rewrite <- Ht1 at 2. unfold mb1. by destruct (bit d m). }
  rewrite E1. set (new := Z.ldiff a (Z.ldiff m d)) in *.
  set (mb2 := if negb (new =? 0) then modebuf_mode (Z.lor MODE_ADD new) mb1 else mb1).
  assert (E2 : (if negb (new =? 0) then (modebuf_mode (Z.lor MODE_ADD new) mb1, Z.lor (Z.ldiff m d) a) else (mb1, Z.ldiff m d)) = (mb2, word a d m)).
  { rewrite <- Ht2. unfold mb2. by destruct (negb (new =? 0)). }
  rewrite E2. set (t := word a d m).
  assert (Hrem : Z.ldiff m t = Z.land d m) by (symmetry; by apply word_rem).
  assert (Hnew : Z.ldiff t m = new) by (symmetry; by apply word_new).
  assert (Hb1 : exists a1 r1, mb1 = Modebuf.with_flags a1 r1 (lk_buf src ch lim l) /\
    a1 = 0 /\ (Z.land d m = 0 -> lim <> Some None -> r1 = 0) /\
    forall f, f ∈ simple_flags -> bit a1 (fst f) = false /\ bit r1 (fst f) = bit (Z.lor (Z.land d m) (limit_bit lim)) (fst f)).
  { assert (Hl0 : forall f, f ∈ simple_flags -> bit (mb_rem (lk_buf src ch lim l)) (fst f) = bit (limit_bit lim) (fst f)).
    { intros f Hf. destruct (simple_in f Hf) as (_ & Hz & _). cbn [lk_buf mb_rem]. unfold limit_bit. destruct lim as [[n|]|]; [done| |done].
      rewrite bit_or. assert (bit MODE_DEL (fst f) = false) as ->; [|by rewrite orb_false_r].
      unfold bit. rewrite Z.land_lor_distr_l in Hz. apply Z.lor_eq_0_iff in Hz as [_ ->]. done. }
    unfold mb1. destruct (bit d m) eqn:Eb.
    - rewrite (buffer_mode false) by (done || (intros Hz; unfold bit in Eb; by rewrite Hz in Eb)). cbv zeta.
      eexists _, _. split; [done|]. split; [done|]. split; [by intros Hz; unfold bit in Eb; rewrite Hz in Eb|].
      intros f Hf. destruct (simple_in f Hf) as (_ & Hz & _). cbn [lk_buf mb_add]. split; [done|].
      rewrite bit_or, (Hl0 f Hf), bit_or, (bit_or (Z.land d m)). assert (bit MODE_DEL (fst f) = false) as ->; [|by rewrite orb_comm].
      unfold bit. rewrite Z.land_lor_distr_l in Hz. apply Z.lor_eq_0_iff in Hz as [_ ->]. done.
    - exists 0, (mb_rem (lk_buf src ch lim l)). split; [done|]. split; [done|]. split; [intros _ Hl; by destruct lim as [[n|]|]|].
      intros f Hf. split; [done|]. rewrite bit_or, (Hl0 f Hf).
      assert (Z.land d m = 0) as ->; [|done]. unfold bit in Eb. by apply negb_false_iff, Z.eqb_eq in Eb. }
  destruct Hb1 as (a1 & r1 & Hmb1 & Ha1 & Hr1 & Hbits).
  assert (Hb2 : exists a2 r2, mb2 = Modebuf.with_flags a2 r2 (lk_buf src ch lim l) /\
    (new = 0 -> a2 = 0) /\ (Z.land d m = 0 -> lim <> Some None -> r2 = 0) /\
    forall f, f ∈ simple_flags -> bit a2 (fst f) = bit new (fst f) /\ bit r2 (fst f) = bit (Z.lor (Z.land d m) (limit_bit lim)) (fst f)).
  { unfold mb2. destruct (Z.eqb_spec new 0) as [Hz|Hz]; cbn [negb].
    - exists a1, r1. split; [done|]. split; [done|]. split; [done|]. rewrite Hz. exact Hbits.
    - rewrite Hmb1, (buffer_mode true) by done. cbv zeta. eexists _, _. split; [done|]. split; [done|].
      split; [intros K1 K2; cbn [Modebuf.with_flags mb_rem]; by rewrite (Hr1 K1 K2)|]. intros f Hf.
      destruct (Hbits f Hf) as [Hf1 Hf2]. destruct (simple_in f Hf) as (Hone & Hd0 & Hlim). cbn [Modebuf.with_flags mb_add mb_rem].
      assert (Hadd : bit MODE_ADD (fst f) = false).
      { unfold bit. rewrite Z.land_lor_distr_l in Hd0. apply Z.lor_eq_0_iff in Hd0 as [-> _]. done. }
      assert (Hadds : bit (Z.lor MODE_ADD new) (fst f) = bit new (fst f)) by (by rewrite bit_or, Hadd).
      split; [cbn [lk_buf mb_add]; by rewrite bit_or, Hf1, Hadds|]. rewrite bit_diff, Hf2, Hadds by done.
      destruct (bit new (fst f)) eqn:En; [|by rewrite andb_true_r]. rewrite andb_false_r. symmetry. rewrite bit_or. apply orb_false_intro.
      + destruct Hone as (k & Hk & Hfk). rewrite Hfk, bit_testbit in En |- * by done. rewrite <- Hnew in En. rewrite <- Hrem.
        rewrite Z.ldiff_spec in En |- *. by destruct (Z.testbit t k), (Z.testbit m k).
      + unfold limit_bit. destruct lim as [[n|]|]; [done| |done]. destruct (bit MODE_LIMIT (fst f)) eqn:El; [|done].
        rewrite (bit_within new (fst f) Hna) in En; [done|by apply Hlim]. }
  destruct Hb2 as (a2 & r2 & Hmb2 & Ha2 & Hr2 & Hbits2). rewrite Hmb2.
  match goal with |- context [pflag ?s MODE_PARSE_SET] => assert (pflag s MODE_PARSE_SET = true) as -> end.
  { unfold pflag. cbn [upd_mbuf_chan p_flags]. rewrite (r_flags _ _ _ _ _ _ _ _ _ H). apply HF. }
  eexists _, a2, r2. split; [reflexivity|]. cbn [upd_chan upd_mbuf_chan p_chan p_mbuf p_changes p_flags p_member p_done fst snd].
  split; [done|]. split; [done|]. split; [|by destruct H].
  change (new_word st) with t. rewrite Hnew, Hrem. constructor; try done.
  rewrite Forall_forall. intros f Hf. by destruct (Hbits2 f Hf).
Qed.
End apply.

Section finish.
Context (E : mode_env) (src : msource) (F : Z) (ch : mchan) (N : nat) (me : Membership).
Context (HF : bit F MODE_PARSE_SET = true /\ bit F MODE_PARSE_BURST = false /\ bit F MODE_PARSE_BOUNCE = false /\
  bit F MODE_PARSE_WIPEOUT = false /\ bit F (Z.lor MODE_PARSE_NOTOPER MODE_PARSE_NOTMEMBER) = false).
Context (Hme : find_mem (s_client src) ch = Some me) (Hop : bit (status me) MODE_CHANOP = true) (Hlevel : 0 <= oplevel me <= MAXOPLEVEL).
Context (Hhid : Forall (fun m => hidden m = false) (mc_members ch)).
Implicit Types (st : pstate) (l : list modearg).
Notation L := (oplevel me).

(** What the parser leaves: the modes and the members as the changes [X] make
    them, and in the buffer the changes. *)
Definition left_by (lim : lim_effect) (kd ka : option cstring) l (t : Z) (X : list cli_change) st : Prop :=
  let c := with_mc_mode (lk_mode lim kd ka (mc_mode ch)) ch in
  let m := mode (mc_mode c) in
  p_chan st = upd_members (applied L X) (simple_chan t c) /\
  exists a r, p_mbuf st = Some (with_args (l ++ map xarg X) (Modebuf.with_flags a r (lk_buf src ch lim l))) /\
    flagged (Z.ldiff t m) (Z.ldiff m t) lim (Modebuf.with_flags a r (lk_buf src ch lim l)).

Lemma simple_members t c : mc_members (simple_chan t c) = mc_members c.
Proof using Type. unfold simple_chan. by destruct (_ && _). Qed.

Lemma effective_simple t g x : effective (simple_chan t (with_mc_mode g ch)) x <-> effective ch x.
Proof using Type. unfold effective, find_mem. by rewrite simple_members. Qed.

Lemma lk_dest lim l : bit (mb_dest (lk_buf src ch lim l)) MODEBUF_DEST_DEOP = false.
Proof using Type. cbn [lk_buf mb_dest]. unfold modebuf_init. cbn [mb_dest]. by destruct (_ =c _). Qed.

(** The steps before the members. *)
Lemma before_members lim kd ka l st : reading src F ch N lim kd ka l st ->
  exists st1 a r, simple_modes st = Some st1 /\ apply_modes E src st = match p_changes st with [] => Some st1 | _ => mode_process_clients E src st1 end /\
    p_changes st1 = p_changes st /\
    processed F (simple_chan (new_word st) (with_mc_mode (lk_mode lim kd ka (mc_mode ch)) ch)) me
      (Modebuf.with_flags a r (lk_buf src ch lim l)) l [] st1 /\
    flagged (Z.ldiff (new_word st) (mode (cm st))) (Z.ldiff (mode (cm st)) (new_word st)) lim (Modebuf.with_flags a r (lk_buf src ch lim l)).
Proof using HF.
  intros H. destruct (simple_modes_eq src F ch N HF lim kd ka l st H) as (st1 & a & r & H1 & Hc & Hb & Hfl & Hx & Hf & Hm & Hd).
  exists st1, a, r. split; [done|]. split.
  { unfold apply_modes. rewrite (r_buf _ _ _ _ _ _ _ _ _ H), (reading_refused src F ch N HF _ _ _ _ _ H), H1. cbn [mbind option_bind].
    unfold wipeout. assert (pflag st1 MODE_PARSE_WIPEOUT = false) as -> by (unfold pflag; rewrite Hf; apply HF). cbn [negb mbind option_bind].
    assert (pdone st1 DONE_BANCLEAN = false) as ->.
    { unfold pdone. rewrite Hd. apply (r_ban _ _ _ _ _ _ _ _ _ H). }
    cbn [mbind option_bind]. by rewrite Hx. }
  split; [done|]. split; [|done]. constructor; try done.
  - rewrite Hc, (r_chan _ _ _ _ _ _ _ _ _ H). unfold applied. cbn [fold_left]. unfold upd_members. rewrite map_id. by destruct (simple_chan _ _).
  - rewrite Hb. cbn [map]. by rewrite app_nil_r.
  - split; [constructor|done].
Qed.

Lemma left_intro lim kd ka l st a r X st' :
  reading src F ch N lim kd ka l st ->
  processed F (simple_chan (new_word st) (with_mc_mode (lk_mode lim kd ka (mc_mode ch)) ch)) me (Modebuf.with_flags a r (lk_buf src ch lim l)) l X st' ->
  flagged (Z.ldiff (new_word st) (mode (cm st))) (Z.ldiff (mode (cm st)) (new_word st)) lim (Modebuf.with_flags a r (lk_buf src ch lim l)) ->
  left_by lim kd ka l (new_word st) X st' /\ changes_ok X /\ Forall (effective ch) X.
Proof using Type.
  intros H [P1 P2 P3 P4 P5 P6] Hfl. split; [|split; [done|]].
  - split; [done|]. exists a, r. split; [done|]. unfold cm in Hfl. by rewrite (r_chan _ _ _ _ _ _ _ _ _ H) in Hfl.
  - eapply Forall_impl; [exact P6|]. intros x. apply effective_simple.
Qed.

Lemma finish_facts lim kd ka l st : reading src F ch N lim kd ka l st ->
  let c0 := simple_chan (new_word st) (with_mc_mode (lk_mode lim kd ka (mc_mode ch)) ch) in
  find_mem (s_client src) c0 = Some me /\ Forall (fun m => hidden m = false) (mc_members c0).
Proof using All. intros H c0. unfold find_mem, c0. rewrite simple_members. by split. Qed.

Lemma user_finish lim kd ka l st : reading src F ch N lim kd ka l st -> (length l + length (p_changes st) <= 5)%nat ->
  exists st' X, apply_modes E src st = Some st' /\ left_by lim kd ka l (new_word st) X st' /\ sublist X (p_changes st) /\ changes_ok X /\ Forall (effective ch) X.
Proof using All.
  intros H Hcnt. destruct (before_members lim kd ka l st H) as (st1 & a & r & _ & Heq & Hx & Hpr & Hfl).
  destruct (finish_facts _ _ _ _ _ H) as [Hme' Hhid'].
  assert (HX : exists st' X, apply_modes E src st = Some st' /\ processed F (simple_chan (new_word st) (with_mc_mode (lk_mode lim kd ka (mc_mode ch)) ch)) me
      (Modebuf.with_flags a r (lk_buf src ch lim l)) l X st' /\ sublist X (p_changes st)).
  { destruct (p_changes st) as [|x xs] eqn:Exs; [exists st1, []; split; [done|split; [done|constructor]]|].
    rewrite Heq. unfold mode_process_clients. rewrite Hx. rewrite (proj2 (Nat.ltb_lt _ _)) by (unfold MAXPARA; cbn [length] in *; lia).
    destruct (r_changes _ _ _ _ _ _ _ _ _ H) as [Hnd Hok]. rewrite Exs in Hnd, Hok.
    destruct (process_all E src F _ me (Modebuf.with_flags a r (lk_buf src ch lim l)) l (proj1 HF) Hme' Hop Hlevel Hhid' (lk_dest lim l) (x :: xs) [] st1 Hpr Hok Hnd) as (st' & Y & Hrun & HY & Hs); [cbn [length] in *; lia|].
    by exists st', Y. }
  destruct HX as (st' & X & Hrun & HX & Hs). exists st', X. destruct (left_intro _ _ _ _ _ _ _ _ _ H HX Hfl) as (K1 & K2 & K3). by split_and!.
Qed.

Lemma remote_finish lim kd ka l st : s_my src = false -> reading src F ch N lim kd ka l st -> (length l + length (p_changes st) <= 5)%nat ->
  Forall (effective ch) (p_changes st) ->
  exists st', apply_modes E src st = Some st' /\ left_by lim kd ka l (new_word st) (p_changes st) st'.
Proof using All.
  intros Hmy H Hcnt Heff. destruct (before_members lim kd ka l st H) as (st1 & a & r & _ & Heq & Hx & Hpr & Hfl).
  destruct (finish_facts _ _ _ _ _ H) as [Hme' Hhid'].
  assert (HX : exists st', apply_modes E src st = Some st' /\ processed F (simple_chan (new_word st) (with_mc_mode (lk_mode lim kd ka (mc_mode ch)) ch)) me
      (Modebuf.with_flags a r (lk_buf src ch lim l)) l (p_changes st) st').
  { destruct (p_changes st) as [|x xs] eqn:Exs; [by exists st1|]. rewrite Heq. unfold mode_process_clients. rewrite Hx.
    rewrite (proj2 (Nat.ltb_lt _ _)) by (unfold MAXPARA; cbn [length] in *; lia).
    destruct (r_changes _ _ _ _ _ _ _ _ _ H) as [Hnd Hok]. rewrite Exs in Hnd, Hok.
    destruct (process_remote E src F _ me (Modebuf.with_flags a r (lk_buf src ch lim l)) l (proj1 HF) Hme' Hop Hlevel Hhid' (lk_dest lim l) (x :: xs) Hmy [] st1 Hpr Hok) as (st' & Hrun & HY).
    - eapply Forall_impl; [exact Heff|]. intros y. apply effective_simple.
    - done.
    - cbn [length] in *. lia.
    - by exists st'. }
  destruct HX as (st' & Hrun & HX). exists st'. split; [done|]. by apply (left_intro _ _ _ _ _ _ _ _ _ H HX Hfl).
Qed.
End finish.

(** ** The flush *)
Section flush.
Context (cli_name NumNick : positive -> cstring).
Implicit Types (ch : mchan) (mb : ModeBuf) (l : list modearg).

Definition settled_joins ch : Prop := find_delayed ch = false /\ bit (mode (mc_mode ch)) MODE_WASDELJOINS = false.

Lemma adjust_none ch mb : settled_joins ch -> adjust_delayed ch mb = (ch, mb).
Proof. intros [H1 H2]. unfold adjust_delayed. rewrite H1, andb_false_r. by rewrite H2, andb_false_r. Qed.

Lemma flush_int_same n : forall all ch mb ch' mb', settled_joins ch -> modebuf_flush_int cli_name NumNick n all ch mb = Some (ch', mb') -> ch' = ch.
Proof.
  induction n as [|n IH]; intros all ch mb ch' mb' Hs; [done|]. cbn [modebuf_flush_int]. destruct (_ && _); [by intros [= <- _]|].
  rewrite adjust_none by done. destruct (flush_lines _ _ _ _) as [mb1|]; cbn [mbind option_bind]; [|done].
  destruct (_ && _); [|by intros [= <- _]]. by apply IH.
Qed.

(** A line that was printed had room for its letters. *)
Lemma flush_letters ch mb mb' : Forall (arg_ok NumNick) (mb_modeargs mb) -> dest_ok (mb_dest mb) ->
  flush_lines cli_name NumNick ch mb = Some mb' ->
  letters_fit (mb_add mb) (mb_rem mb) (fst (fitted cli_name (mb_dest mb) 312 (mb_modeargs mb))).
Proof.
  intros Hok (Hs & Ho & Hb & Hd). unfold flush_lines. rewrite Hd.
  destruct (simple_letters true (mb_add mb) (mb_rem mb)) as [Lt _]. destruct (simple_letters false (mb_add mb) (mb_rem mb)) as [Lf _].
  destruct (flag_letters simple_flags (mb_add mb) (mb_rem mb)) as [sa sr]. cbn [fst snd] in Lt, Lf.
  destruct (flag_letters local_flags (mb_add mb) (mb_rem mb)) as [la lr].
  pose proof (arg_fold cli_name NumNick (mb_dest mb) (mb_modeargs mb) Hok {| budget := 312; addbuf := sa; rembuf := sr; limitbuf := []; marked := [] |}) as Hf.
  cbn [budget addbuf rembuf limitbuf marked] in Hf. destruct (fitted cli_name (mb_dest mb) 312 (mb_modeargs mb)) as [u s]. cbn [fst].
  destruct Hf as (H1 & H2 & _). change (BUFSIZE - 200 - 0) with 312. rewrite H1, H2.
  destruct (letterbuf_ok (sa ++ _)) eqn:E1; [|done]. destruct (letterbuf_ok (sr ++ _)) eqn:E2; [|done]. intros _.
  unfold letterbuf_ok in E1, E2. apply Nat.leb_le in E1, E2. rewrite length_app, length_map in E1, E2.
  split.
  - assert (length (simple_changes true (mb_add mb) (mb_rem mb)) = length sa) as ->; [|lia]. rewrite <- Lt. unfold letters_of. by rewrite length_map.
  - assert (length (simple_changes false (mb_add mb) (mb_rem mb)) = length sr) as ->; [|lia]. rewrite <- Lf. unfold letters_of. by rewrite length_map.
Qed.

(** Five short arguments fit. *)
Lemma fitted_all dest l : Forall (fun m => 0 <= room_of cli_name dest m <= 50) l -> forall b, 51 * Z.of_nat (length l) <= b ->
  fitted cli_name dest b l = (l, []).
Proof.
  induction 1 as [|m l Hm _ IH]; intros b Hb; [done|]. cbn [fitted length] in *. rewrite (proj2 (Z.leb_gt _ _)) by lia. by rewrite IH by lia.
Qed.

(** One line, or none. *)
Lemma flush_line ch mb ch' mb' : settled_joins ch -> dest_ok (mb_dest mb) -> Forall (arg_ok NumNick) (mb_modeargs mb) -> one_limit (mb_modeargs mb) ->
  Forall (fun m => 0 <= room_of cli_name (mb_dest mb) m <= 50) (mb_modeargs mb) -> (length (mb_modeargs mb) <= 5)%nat -> mb_out mb = [] ->
  modebuf_flush cli_name NumNick ch mb = Some (ch', mb') ->
  ch' = ch /\
  ((mb_add mb = 0 /\ mb_rem mb = 0 /\ mb_modeargs mb = [] /\ server_lines mb' = []) \/
   (letters_fit (mb_add mb) (mb_rem mb) (mb_modeargs mb) /\ server_lines mb' = [mode_line NumNick (mb_add mb) (mb_rem mb) (mb_modeargs mb)])).
Proof.
  intros Hs Hd Hok Hone Hroom Hlen Hout Hfl. split; [by eapply (flush_int_same flush_fuel true)|].
  pose proof (fitted_all (mb_dest mb) (mb_modeargs mb) Hroom 312 ltac:(lia)) as Hfit.
  revert Hfl. unfold modebuf_flush. change flush_fuel with (S 7). generalize 7%nat. intros n. cbn [modebuf_flush_int].
  destruct (_ && _) eqn:E0.
  - intros [= _ <-]. left. apply andb_prop in E0 as [E0 E3]. apply andb_prop in E0 as [E1 E2]. apply Z.eqb_eq in E1, E2. apply Nat.eqb_eq, nil_length_inv in E3.
    split_and!; try done. unfold server_lines. by rewrite Hout.
  - rewrite adjust_none by done. destruct (flush_lines cli_name NumNick ch mb) as [mb1|] eqn:E1; cbn [mbind option_bind]; [|done].
    pose proof (flush_letters ch mb mb1 Hok Hd E1) as Hlet. pose proof (flush_lines_spec cli_name NumNick ch mb) as Hspec.
    rewrite Hfit in Hlet, Hspec. cbn [fst] in Hlet. destruct (Hspec Hd Hok Hone Hlet) as (mb2 & K1 & K2 & K3 & K4 & K5 & K6).
    rewrite E1 in K1. injection K1 as <-. rewrite K4. cbn [length Nat.eqb negb andb]. intros [= _ <-]. right. split; [done|].
    rewrite K6. unfold server_lines. by rewrite Hout.
Qed.
End flush.
