(* ===== verification/Sync.v ===== *)
(** * A line of modes from one server to another

    A user changes the modes of a channel on its server ([m_mode]), the buffer
    is flushed as a line for the other servers ([Modebuf]), and another server
    applies the line ([ms_mode]).  [mode_sync]: the two servers end with the
    same channel. *)
From S2P Require Import Prelude Chattr Strings Mdb Match Chain Members ChanTable IpText Bans Channel Ddb DdbFile Modebuf Modes Modeline.
From stdpp Require Import options.
Local Open Scope Z_scope.
Local Open Scope ircd_scope.

(** ** The line on another server *)
Lemma steps_app {A : Type} (f : pstate -> A -> option pstate) l k st : steps f (l ++ k) st = st' ← steps f l st; steps f k st'.
Proof. revert st. induction l as [|x l IH]; intros st; [done|]. cbn [steps app]. destruct (f st x); cbn [mbind option_bind]; [apply IH|done]. Qed.

Lemma put_change_new f x k : f = MODE_CHANOP \/ f = MODE_VOICE -> bit (c_flag x) f = true -> c_flag x ∈ client_flags ->
  Forall (fun y => c_flag y ∈ client_flags) k -> slot x ∉ map slot k -> put_change f x k = k ++ [x].
Proof.
  intros Hf Hfx Hx Hk. induction Hk as [|y k Hy _ IH]; intros Hs; [done|]. cbn [put_change map app] in *. apply not_elem_of_cons in Hs as [Hs1 Hs2].
  destruct (_ && _) eqn:Hb; [|by rewrite IH]. exfalso. apply Hs1. apply andb_prop in Hb as [Hc Hb]. apply bool_decide_eq_true in Hc.
  unfold slot. rewrite Hc. f_equal. unfold client_flags in Hx, Hy. rewrite !elem_of_cons in Hx, Hy.
  destruct Hf as [->| ->]; destruct Hx as [Hx|[Hx|[Hx|[Hx|Hx]]]]; destruct Hy as [Hy|[Hy|[Hy|[Hy|Hy]]]];
    try (by apply not_elem_of_nil in Hx); try (by apply not_elem_of_nil in Hy); rewrite Hx in Hfx |- *; rewrite Hy in Hb |- *; done.
Qed.

Lemma first_char_ok : forall c, bad_key_char c = false -> char_val (ToLower c) <> 0.
Proof.
  assert (H : forall c, negb (bad_key_char c) && (char_val (ToLower c) =? 0) = false) by all_chars.
  intros c Hc. specialize (H c). rewrite Hc in H. by apply Z.eqb_neq.
Qed.

Lemma key_not_nil k : key_error k [] = None -> strcmp_eqb [] k = false.
Proof.
  intros H. destruct k as [|c k]; [done|]. pose proof (key_error_ok _ _ H) as [[_ Hok] Heq]. rewrite Heq in Hok.
  apply Forall_cons in Hok as [Hc _]. unfold strcmp_eqb. cbn [ircd_strcmp deref]. apply Z.eqb_neq. pose proof (first_char_ok c Hc). lia.
Qed.

Definition on_chan (ch : mchan) (c : positive) : Prop := is_Some (find_mem c ch).

Section remote.
Context (E : mode_env) (src : msource) (ch : mchan).
Context (Hmy : s_my src = false) (Hcs : s_cserver src = true).
(** The numerics of the clients. *)
Context (Hnum : forall c, on_chan ch c -> length (NumNick E c) = 5%nat /\ find_n_user E (NumNick E c) = Some c).
Implicit Types (st : pstate) (l : list modearg).

Definition forced : Z := Z.lor MODE_PARSE_SET (Z.lor MODE_PARSE_STRICT MODE_PARSE_FORCE).

Lemma forced_ok : bit forced MODE_PARSE_SET = true /\ bit forced MODE_PARSE_BURST = false /\ bit forced MODE_PARSE_BOUNCE = false /\
  bit forced MODE_PARSE_WIPEOUT = false /\ bit forced (Z.lor MODE_PARSE_NOTOPER MODE_PARSE_NOTMEMBER) = false.
Proof using Type. done. Qed.

Notation rd := (reading src forced ch 6).

(** The state after some letters: what was read, and what is left. *)
Record after (lim : lim_effect) (kd ka : option cstring) l (xs : list cli_change) (ad : Z * Z) (args : list cstring) (dir : bool) st : Prop := {
  af_rd : rd lim kd ka l st;
  af_xs : p_changes st = xs;
  af_ad : (p_add st, p_del st) = ad;
  af_args : p_args st = args;
  af_dir : p_dir st = dir;
  af_kd : kd = None -> pdone st DONE_KEY_DEL = false;
  af_ka : ka = None -> pdone st DONE_KEY_ADD = false
}.

Lemma not_many st : too_many src st = false.
Proof using Hmy. unfold too_many. by rewrite Hmy. Qed.

Lemma after_dir lim kd ka l xs ad args d d' st : after lim kd ka l xs ad args d st -> after lim kd ka l xs ad args d' (upd_dir d' st).
Proof using Type. intros []. constructor; try done. by apply reading_dir. Qed.

(** A mode without an argument. *)
Lemma after_plain lim kd ka l xs ad args dir st c f : after lim kd ka l xs ad args dir st -> flag_of c = Some f -> plain_letter c = true ->
  exists st', mode_char E src st c = Some st' /\ after lim kd ka l xs (gather dir f ad) args dir st'.
Proof using Hcs.
  intros [Hr Hx Ha Hg Hd Hkd Hka] Hf Hp. destruct (plain_within c f Hf Hp) as [Hw Hne].
  assert (Hch : mode_char E src st c = Some (mode_parse_mode src f st)).
  { unfold mode_char. rewrite Hf, Hcs. cbn [orb]. unfold plain_letter in Hp. cbn [existsb] in Hp. apply negb_true_iff in Hp.
    repeat (apply orb_false_elim in Hp as [-> Hp]). destruct (c =c "O"), (c =c "z"); done. }
  rewrite Hch, (mode_mode_eq src f st _ (reading_refused src forced ch 6 forced_ok _ _ _ _ _ Hr) (r_buf _ _ _ _ _ _ _ _ _ Hr) Hne).
  eexists. split; [done|]. cbv zeta. rewrite Ha, Hd. destruct Hr.
  destruct (gather_ok dir f (p_add st) (p_del st) Hw r_add r_del r_disj) as (H1 & H2 & H3). rewrite Ha in H1, H2, H3.
  constructor; cbn [upd_addel p_add p_del]; [by constructor|done|by destruct (gather dir f ad)|done..].
Qed.

Lemma after_plains fs : forall lim kd ka l xs ad args dir st, after lim kd ka l xs ad args dir st ->
  Forall (fun f => f ∈ plain_table) fs ->
  exists st', steps (mode_char E src) (map snd fs) st = Some st' /\ after lim kd ka l xs (gather_all dir (map fst fs) ad) args dir st'.
Proof using Hcs.
  induction fs as [|f fs IH]; intros lim kd ka l xs ad args dir st H Hfs; [by exists st|]. apply Forall_cons in Hfs as [Hf Hfs].
  assert (Htab : flag_of (snd f) = Some (fst f) /\ plain_letter (snd f) = true).
  { assert (Hall : Forall (fun f => flag_of (snd f) = Some (fst f) /\ plain_letter (snd f) = true) plain_table).
    { unfold plain_table. repeat (apply Forall_cons_2; [by split|]). apply Forall_nil_2. }
    rewrite Forall_forall in Hall. by apply Hall. }
  destruct Htab as [Ht Hp]. cbn [map steps]. destruct (after_plain _ _ _ _ _ _ _ _ _ _ _ H Ht Hp) as (st1 & -> & H1). cbn [mbind option_bind].
  apply (IH _ _ _ _ _ _ _ _ _ H1 Hfs).
Qed.

(** The limit. *)
Lemma after_limit_del kd ka l xs ad args st : after None kd ka l xs ad args false st -> limit (mc_mode ch) <> 0 ->
  exists st', mode_char E src st "l" = Some st' /\ after (Some None) kd ka l xs ad args false st'.
Proof using Type.
  intros [Hr Hx Ha Hg Hd Hkd Hka] Hl. destruct (reading_limit_del E src forced ch 6 forced_ok kd ka l st Hr Hd Hl) as (st' & H1 & H2 & (K1 & K2 & K3 & K4 & K5 & K6) & Hdn).
  exists st'. split; [exact H1|]. constructor; try congruence; try done.
  - intros Hk. unfold pdone. rewrite Hdn, bit_or. unfold pdone in Hkd. by rewrite Hkd.
  - intros Hk. unfold pdone. rewrite Hdn, bit_or. unfold pdone in Hka. by rewrite Hka.
Qed.

Lemma after_grab lim kd ka l xs ad a args dir st : after lim kd ka l xs ad (a :: args) dir st ->
  exists st1, grab st = Some (a, st1) /\ after lim kd ka l xs ad args dir st1.
Proof using Type.
  intros [Hr Hx Ha Hg Hd Hkd Hka]. unfold grab. rewrite Hg. eexists. split; [done|]. constructor; try done.
  destruct Hr. constructor; try done. cbn [upd_args p_args p_changes]. rewrite Hg in r_count. cbn [length] in r_count. lia.
Qed.

Lemma strtoul_decimal n : 0 <= n < 2 ^ 31 -> strtoul (decimal n) = n.
Proof using Type.
  intros Hn. destruct (decimal_digits n) as [Hd Hne]; [lia|].
  assert (Ev : read_digits (decimal n) 0 = n).
  { unfold decimal. rewrite <- (app_nil_r (digits _ _ _)). destruct (read_digits_digits 19 n [] 0) as (k & _ & _ & ->); [lia|lia|]. cbn [read_digits]. lia. }
  destruct (decimal n) as [|c s]; [done|]. apply Forall_cons in Hd as [Hc _].
  assert (Hch : forall c, IsDigit c = true -> is_space c = false /\ c <> "-"%char /\ c <> "+"%char) by all_chars.
  destruct (Hch c Hc) as (Hs & Hm & Hp). unfold strtoul. cbn [skip_blanks]. rewrite Hs. cbv zeta.
  transitivity (w32 (Z.min (read_digits (c :: s) 0) (2 ^ 64 - 1))); [|rewrite Ev, Z.min_l, w32_small by lia; done].
  f_equal. destruct c as [[] [] [] [] [] [] [] []]; try done; exfalso; by (apply Hm || apply Hp).
Qed.

Lemma after_limit_add n kd ka l xs ad args st : after None kd ka l xs ad (decimal n :: args) true st -> 0 < n < 2 ^ 31 -> n <> limit (mc_mode ch) ->
  (length l < 5)%nat ->
  exists st', mode_char E src st "l" = Some st' /\ after (Some (Some n)) kd ka (l ++ [larg n]) xs ad args true st'.
Proof using Hmy.
  intros H Hn Hne Hlen. pose proof (r_count _ _ _ _ _ _ _ _ _ (af_rd _ _ _ _ _ _ _ _ _ H)) as Hcnt. rewrite (af_args _ _ _ _ _ _ _ _ _ H) in Hcnt.
  destruct (after_grab _ _ _ _ _ _ _ _ _ _ H) as (st1 & Hg & [Hr Hx Ha Hg1 Hd Hkd Hka]).
  assert (Hst1 : p_changes st1 = p_changes st) by (rewrite Hx; symmetry; apply (af_xs _ _ _ _ _ _ _ _ _ H)).
  destruct (reading_limit_add E src forced ch 6 forced_ok n kd ka l st1 Hr Hd Hn Hne Hlen) as (st' & H1 & H2 & (K1 & K2 & K3 & K4 & K5 & K6) & Hdn).
  { rewrite length_app, Hg1, Hst1. cbn [length] in *. lia. }
  exists st'. split.
  - change (mode_parse_limit E src st = Some st'). unfold mode_parse_limit. rewrite (af_dir _ _ _ _ _ _ _ _ _ H), not_many, Hg. cbn [negb]. cbv zeta.
    rewrite strtoul_decimal by lia. rewrite (proj2 (Z.leb_gt _ _)) by lia. rewrite (proj2 (Z.eqb_neq n 0)) by lia. cbn [orb].
    assert (limit (cm st1) = limit (mc_mode ch)) as -> by (unfold cm; by rewrite (r_chan _ _ _ _ _ _ _ _ _ Hr)).
    rewrite (proj2 (Z.eqb_neq n _) Hne), andb_false_r. exact H1.
  - constructor; try congruence; try done.
    + intros Hk. unfold pdone. rewrite Hdn, bit_or. unfold pdone in Hkd. by rewrite Hkd.
    + intros Hk. unfold pdone. rewrite Hdn, bit_or. unfold pdone in Hka. by rewrite Hka.
Qed.

(** The key. *)
Lemma after_key (dir : bool) k lim kd l xs ad args st : after lim kd None l xs ad (k :: args) dir st -> key_error k [] = None ->
  (if dir then is_Some kd \/ key (mc_mode ch) = [] else kd = None) -> (length l < 5)%nat ->
  exists st', mode_char E src st "k" = Some st' /\
    after lim (if dir then kd else Some k) (if dir then Some k else None) (l ++ [karg dir k]) xs ad args dir st'.
Proof using Hmy.
  intros H Hk Hold Hlen. pose proof (r_count _ _ _ _ _ _ _ _ _ (af_rd _ _ _ _ _ _ _ _ _ H)) as Hcnt. rewrite (af_args _ _ _ _ _ _ _ _ _ H) in Hcnt.
  destruct (after_grab _ _ _ _ _ _ _ _ _ _ H) as (st1 & Hg & [Hr Hx Ha Hg1 Hd Hkd Hka]). specialize (Hka eq_refl).
  assert (Hst1 : p_changes st1 = p_changes st) by (rewrite Hx; symmetry; apply (af_xs _ _ _ _ _ _ _ _ _ H)).
  set (fl := if dir then DONE_KEY_ADD else DONE_KEY_DEL).
  assert (Hft : first_time DONE_KEY_ADD DONE_KEY_DEL st1 = Some (upd_done fl st1)).
  { unfold first_time. rewrite Hd. unfold fl. destruct dir; [by rewrite Hka|].
    assert (pdone st1 (Z.lor DONE_KEY_ADD DONE_KEY_DEL) = false) as ->; [|done].
    specialize (Hkd Hold). unfold pdone, bit in *. rewrite Z.land_lor_distr_r. apply negb_false_iff, Z.eqb_eq in Hka, Hkd. by rewrite Hka, Hkd. }
  assert (Hr2 : rd lim kd None l (upd_done fl st1)) by (unfold fl; apply reading_done; by destruct dir).
  assert (Hcnt2 : (length (l ++ [karg dir k]) + length (p_changes (upd_done fl st1)) + length (p_args (upd_done fl st1)) <= 6)%nat).
  { rewrite length_app. cbn [upd_done p_changes p_args length]. rewrite Hg1, Hst1. cbn [length] in Hcnt. lia. }
  assert (Hpd : pdone (upd_done fl st1) fl = true) by (rewrite pdone_upd; unfold fl; by destruct dir; rewrite orb_true_r).
  exists (key_state src ch dir k lim l (upd_done fl st1)). split.
  - change (mode_parse_key E src st = Some (key_state src ch dir k lim l (upd_done fl st1))). unfold mode_parse_key.
    rewrite not_many, Hg, (reading_refused src forced ch 6 forced_ok _ _ _ _ _ Hr), Hft.
    rewrite (key_error_any k [] _ Hk), (r_buf _ _ _ _ _ _ _ _ _ Hr2). cbv zeta. rewrite (no_burst src forced ch 6 forced_ok _ _ _ _ _ _ _ Hr2).
    rewrite (reading_flag _ _ _ _ _ _ _ _ _ _ Hr2). change (negb (bit forced MODE_PARSE_FORCE)) with false. cbn [andb].
    assert (unchanged (key (cm (upd_done fl st1))) k (upd_done fl st1) = false) as ->.
    { unfold unchanged. cbn [upd_done p_dir]. rewrite Hd. destruct dir; [|by rewrite andb_false_r].
      assert (key (cm (upd_done fl st1)) = []) as ->; [|by rewrite key_not_nil, andb_false_r].
      unfold cm. rewrite (r_chan _ _ _ _ _ _ _ _ _ Hr2). cbn [with_mc_mode mc_mode lk_mode key]. destruct kd; [done|]. by destruct Hold as [[? ?]|]. }
    rewrite (key_change_eq E src forced ch 6 forced_ok dir k lim kd None l _ Hr2 Hd Hlen). cbn [mbind option_bind].
    change (pflag (upd_mbuf_chan (p_chan (upd_done fl st1), lk_buf src ch lim (l ++ [karg dir k])) (upd_done fl st1)) MODE_PARSE_SET) with (pflag (upd_done fl st1) MODE_PARSE_SET).
    rewrite (reading_flag _ _ _ _ _ _ _ _ _ _ Hr2). change (bit forced MODE_PARSE_SET) with true.
    change (p_dir (upd_mbuf_chan (p_chan (upd_done fl st1), lk_buf src ch lim (l ++ [karg dir k])) (upd_done fl st1))) with (p_dir st1). rewrite Hd. done.
  - destruct dir; constructor; try done.
    + by apply key_state_add.
    + intros Hn. change (pdone (upd_done fl st1) DONE_KEY_DEL = false). rewrite pdone_upd, Hkd by done. done.
    + rewrite Hold in *. by apply key_state_del.
    + intros _. change (pdone (upd_done fl st1) DONE_KEY_ADD = false). rewrite pdone_upd, Hka. done.
Qed.

(** A member. *)
Lemma at_five (n : cstring) s : length n = 5%nat -> (n ++ s) !! 5%nat = head s /\ take 5 (n ++ s) = n /\ drop 6 (n ++ s) = tail s.
Proof using Type.
  intros Hn. do 6 (destruct n as [|? n]; [try done|]); try done. by destruct s.
Qed.

Lemma target_back x : on_chan ch (c_client x) -> cli_ok x -> remote_target E (param (NumNick E) (xarg x)) = (Some (c_client x), c_oplevel x).
Proof using Hnum.
  intros Hc [Hf Hl]. destruct (Hnum (c_client x) Hc) as [Hn Hfind]. unfold remote_target, param. cbn [xarg mb_type mb_arg mb_oplevel].
  assert (kind_of (c_flag x) = KClient) as ->.
  { unfold client_flags in Hf. rewrite !elem_of_cons in Hf. destruct Hf as [->|[->|[->|[->|Hf]]]]; [done..|by apply not_elem_of_nil in Hf]. }
  cbn [client_of]. destruct (bit (c_flag x) MODE_CHANOP && (c_oplevel x <? MAXOPLEVEL)) eqn:Hb.
  - destruct (at_five (NumNick E (c_client x)) (":"%char :: decimal (c_oplevel x)) Hn) as (-> & -> & ->). cbn [head tail]. rewrite ch_eqb_refl.
    apply andb_prop in Hb as [_ Hb]. apply Z.ltb_lt in Hb. rewrite Hfind, atoi_decimal; [done|]. unfold MAXOPLEVEL in *.
    destruct Hl as [Hl|[_ Hl]]; lia.
  - destruct (at_five (NumNick E (c_client x)) [] Hn) as (-> & _ & _). cbn [head]. rewrite app_nil_r, Hfind. f_equal.
    destruct Hl as [Hl|[Hl1 Hl2]]; [done|]. exfalso. rewrite Hl1, (proj2 (Z.ltb_lt _ _)) in Hb by lia. done.
Qed.

Lemma after_client x lim kd ka l xs ad args st : on_chan ch (c_client x) -> cli_ok x -> slot x ∉ map slot xs ->
  after lim kd ka l xs ad (param (NumNick E) (xarg x) :: args) (adding x) st ->
  exists st', mode_char E src st (letter_of (c_flag x)) = Some st' /\ after lim kd ka l (xs ++ [x]) ad args (adding x) st'.
Proof using All.
  intros Hc Hx Hs H. pose proof (r_count _ _ _ _ _ _ _ _ _ (af_rd _ _ _ _ _ _ _ _ _ H)) as Hcnt. rewrite (af_args _ _ _ _ _ _ _ _ _ H), (af_xs _ _ _ _ _ _ _ _ _ H) in Hcnt.
  destruct (after_grab _ _ _ _ _ _ _ _ _ _ H) as (st1 & Hg & [Hr Hxs Ha Hg1 Hd Hkd Hka]).
  set (f := if opping x then MODE_CHANOP else MODE_VOICE).
  assert (Hfl : c_flag x = Z.lor (dirbit st1) f /\ mode_char E src st (letter_of (c_flag x)) = mode_parse_client E src f st /\ bit (c_flag x) f = true /\ (f = MODE_CHANOP \/ f = MODE_VOICE)).
  { unfold dirbit. rewrite Hd. unfold f, adding, opping. destruct Hx as [Hf _]. unfold client_flags in Hf. rewrite !elem_of_cons in Hf.
    destruct Hf as [->|[->|[->|[->|Hf]]]]; try (by apply not_elem_of_nil in Hf); (split; [done|split; [done|split; [done|]]]); (by left) || (by right). }
  destruct Hfl as (Hflag & Hchar & Hbit & Hff). rewrite Hchar.
  assert (Hnew : put_change f x (p_changes st1) = xs ++ [x]).
  { rewrite Hxs. apply put_change_new; [done|done|by destruct Hx| |done]. rewrite <- Hxs. destruct (r_changes _ _ _ _ _ _ _ _ _ Hr) as [_ Hok].
    eapply Forall_impl; [exact Hok|]. by intros y [Hy _]. }
  exists (upd_changes (p_numbans st1) (xs ++ [x]) st1). split.
  - unfold mode_parse_client. rewrite not_many, Hg, (reading_refused src forced ch 6 forced_ok _ _ _ _ _ Hr), Hmy, (target_back x Hc Hx).
    rewrite (reading_flag _ _ _ _ _ _ _ _ _ _ Hr). change (bit forced MODE_PARSE_BOUNCE) with false. cbn [andb]. cbv zeta. rewrite <- Hflag.
    assert (Hw : w16 (c_oplevel x) = c_oplevel x).
    { apply w16_small. destruct Hx as [_ [->|[_ ?]]]; [done|]. unfold MAXOPLEVEL in *. lia. }
    rewrite Hw. change {| c_flag := c_flag x; c_oplevel := c_oplevel x; c_client := c_client x |} with
      {| c_flag := c_flag x; c_oplevel := c_oplevel x; c_client := c_client x |}.
    assert ({| c_flag := c_flag x; c_oplevel := c_oplevel x; c_client := c_client x |} = x) as -> by (by destruct x). rewrite Hnew.
    rewrite (proj2 (Nat.ltb_ge _ _)); [done|]. rewrite length_app. cbn [length] in *. unfold MAXPARA. lia.
  - constructor; try done. destruct Hr. constructor; try done; cbn [upd_changes p_changes p_args].
    + destruct r_changes as [Hnd Hok]. rewrite Hxs in Hnd, Hok. split.
      * rewrite map_app. apply NoDup_app. split_and!; [done| |by apply NoDup_singleton]. intros s Hin. cbn. intros Hin2. assert (s = slot x) as -> by set_solver. done.
      * apply Forall_app. split; [done|by apply Forall_singleton].
    + rewrite length_app, Hg1. cbn [length] in *. lia.
Qed.

Lemma after_clients ys : forall dir lim kd ka l xs ad args st, Forall (fun x => on_chan ch (c_client x)) ys -> Forall cli_ok ys -> Forall (fun x => adding x = dir) ys -> NoDup (map slot (xs ++ ys)) ->
  after lim kd ka l xs ad (map (fun x => param (NumNick E) (xarg x)) ys ++ args) dir st ->
  exists st', steps (mode_char E src) (map (fun x => letter_of (c_flag x)) ys) st = Some st' /\ after lim kd ka l (xs ++ ys) ad args dir st'.
Proof using All.
  induction ys as [|y ys IH]; intros dir lim kd ka l xs ad args st Hon Hok Hdir Hnd H; [exists st; by rewrite app_nil_r|].
  apply Forall_cons in Hon as [Hyc Hon]. apply Forall_cons in Hok as [Hy Hok]. apply Forall_cons in Hdir as [Hyd Hdir]. cbn [map app steps] in *. rewrite <- Hyd in H.
  assert (Hs : slot y ∉ map slot xs).
  { rewrite map_app in Hnd. apply NoDup_app in Hnd as (_ & Hd & _). intros Hin. apply (Hd _ Hin). left. }
  destruct (after_client y _ _ _ _ _ _ _ _ Hyc Hy Hs H) as (st1 & -> & H1). cbn [mbind option_bind]. rewrite Hyd in H1.
  destruct (IH dir lim kd ka l (xs ++ [y]) ad args st1 Hon Hok Hdir) as (st' & Hrun & H2); [by rewrite <- app_assoc|done|].
  exists st'. rewrite <- app_assoc in H2. done.
Qed.
End remote.

(** ** The letters of the line *)
Definition plain (x : Z) : list (Z * ascii) := List.filter (fun f => bit x (fst f)) plain_table.

Definition limit_letter (lim : lim_effect) : cstring := match lim with Some None => str "l" | _ => [] end.

Lemma simple_flags_split :
  simple_flags = take 6 plain_table ++ [(MODE_REGISTERED, "r"%char)] ++ drop 6 plain_table ++ [(MODE_LIMIT, "l"%char)].
Proof. done. Qed.

Lemma plain_split x : plain x = List.filter (fun f => bit x (fst f)) (take 6 plain_table) ++ List.filter (fun f => bit x (fst f)) (drop 6 plain_table).
Proof. unfold plain. by rewrite <- List.filter_app, take_drop. Qed.

Lemma plain_in x : Forall (fun f => f ∈ plain_table) (plain x).
Proof. apply Forall_forall. intros f Hf. by apply filter_incl in Hf. Qed.

Lemma flagged_letters a r lim mb : flagged a r lim mb -> within a -> within r -> Z.land a r = 0 ->
  flag_letters simple_flags (mb_add mb) (mb_rem mb) = (map snd (plain a), map snd (plain r) ++ limit_letter lim).
Proof.
  intros [Hf _ _ _ _] Ha Hr Har. rewrite Forall_forall in Hf. unfold flag_letters. f_equal.
  - rewrite (filter_ext_in _ (fun f => bit a (fst f)) simple_flags) by (intros f Hin; apply Hf; by apply list_elem_of_In).
    rewrite simple_flags_split, plain_split, !List.filter_app, !map_app. cbn [List.filter fst app].
    rewrite (bit_within a MODE_REGISTERED Ha), (bit_within a MODE_LIMIT Ha) by done. cbn [map app]. by rewrite app_nil_r.
  - rewrite (filter_ext_in _ (fun f => bit (Z.lor r (limit_bit lim)) (fst f))).
    2:{ intros f Hin. apply list_elem_of_In in Hin. destruct (Hf f Hin) as [-> ->]. destruct (bit a (fst f)) eqn:Ea; [|done]. cbn [negb andb].
        destruct (simple_in f Hin) as ((k & Hk & Hfk) & _ & Hlim). symmetry. rewrite bit_or. apply orb_false_intro.
        - rewrite Hfk, bit_testbit in Ea |- * by done. apply (f_equal (fun z => Z.testbit z k)) in Har. rewrite Z.land_spec, Z.bits_0, Ea in Har. exact Har.
        - unfold limit_bit. destruct lim as [[n|]|]; [done| |done]. destruct (bit MODE_LIMIT (fst f)) eqn:El; [|done].
          rewrite (bit_within a (fst f) Ha) in Ea; [done|by apply Hlim]. }
    assert (Hpl : forall k, (forall f, f ∈ k -> f ∈ plain_table) -> List.filter (fun f => bit (Z.lor r (limit_bit lim)) (fst f)) k = List.filter (fun f => bit r (fst f)) k).
    { intros k Hk. apply filter_ext_in. intros f Hin. apply list_elem_of_In, Hk in Hin. rewrite bit_or.
      assert (bit (limit_bit lim) (fst f) = false) as ->; [|apply orb_false_r].
      assert (Hall : Forall (fun f => bit MODE_LIMIT (fst f) = false) plain_table).
      { unfold plain_table. repeat (apply Forall_cons_2; [done|]). apply Forall_nil_2. }
      rewrite Forall_forall in Hall. unfold limit_bit. destruct lim as [[n|]|]; [done|by apply Hall|done]. }
    rewrite simple_flags_split, plain_split, !List.filter_app, !map_app.
    rewrite (Hpl (take 6 plain_table)), (Hpl (drop 6 plain_table)) by (intros f Hin; rewrite <- (take_drop 6 plain_table); apply elem_of_app; auto).
    cbn [List.filter fst app].
    rewrite !bit_or, (bit_within r MODE_REGISTERED Hr), (bit_within r MODE_LIMIT Hr) by done.
    assert (bit (limit_bit lim) MODE_REGISTERED = false) as -> by (by destruct lim as [[n|]|]).
    assert (Hl : bit (limit_bit lim) MODE_LIMIT = match lim with Some None => true | _ => false end) by (by destruct lim as [[n|]|]).
    rewrite Hl. cbn [orb map app]. rewrite <- !app_assoc. f_equal. f_equal. by destruct lim as [[n|]|].
Qed.

Lemma change_letters NumNick u : letters_of (map (change_of NumNick) u) = map (fun m => letter_of (mb_type m)) u.
Proof. unfold letters_of. by rewrite map_map. Qed.

Lemma change_args NumNick u : args_of (map (change_of NumNick) u) = map (param NumNick) u.
Proof. unfold args_of. induction u as [|m u IH]; [done|]. cbn. by f_equal. Qed.

(** ** Reading the line *)
Section line.
Context (E : mode_env) (src : msource) (ch : mchan).
Context (Hmy : s_my src = false) (Hcs : s_cserver src = true).
Context (Hnum : forall c, on_chan ch c -> length (NumNick E c) = 5%nat /\ find_n_user E (NumNick E c) = Some c).
Implicit Types (st : pstate) (l : list modearg).
Notation after := (after src ch).
Notation run := (steps (mode_char E src)).
Notation par := (param (NumNick E)).

Lemma run_app s1 s2 st st1 st2 : run s1 st = Some st1 -> run s2 st1 = Some st2 -> run (s1 ++ s2) st = Some st2.
Proof using Type. intros H1 H2. by rewrite steps_app, H1. Qed.

Definition letter m : ascii := letter_of (mb_type m).

(** The part of the line that removes. *)
Lemma run_dels dir (fs : list (Z * ascii)) (ld : bool) kd X args st :
  Forall (fun f => f ∈ plain_table) fs -> (ld = true -> limit (mc_mode ch) <> 0) ->
  (forall k, kd = Some k -> key_error k [] = None) -> Forall (fun x => on_chan ch (c_client x)) X -> Forall cli_ok X -> Forall (fun x => adding x = false) X -> NoDup (map slot X) ->
  after None None None [] [] (0, 0) (map par (key_dels kd ++ map xarg X) ++ args) dir st ->
  let s := map snd fs ++ (if ld then str "l" else []) ++ map letter (key_dels kd ++ map xarg X) in
  exists st' dir', run ((if s is [] then [] else str "-") ++ s) st = Some st' /\
    after (if ld then Some None else None) kd None (key_dels kd) X (gather_all false (map fst fs) (0, 0)) args dir' st' /\
    (s = [] -> dir' = dir).
Proof using All.
  intros Hfs Hl Hkd Hon HX Hdel Hnd H s.
  assert (Hmain : forall st0, after None None None [] [] (0, 0) (map par (key_dels kd ++ map xarg X) ++ args) false st0 ->
    exists st', run s st0 = Some st' /\
      after (if ld then Some None else None) kd None (key_dels kd) X (gather_all false (map fst fs) (0, 0)) args false st').
  { intros st0 H0. destruct (after_plains E src ch Hcs fs _ _ _ _ _ _ _ _ _ H0 Hfs) as (st1 & R1 & H1).
    assert (H2 : exists st2, run (if ld then str "l" else []) st1 = Some st2 /\
      after (if ld then Some None else None) None None [] [] (gather_all false (map fst fs) (0, 0)) (map par (key_dels kd ++ map xarg X) ++ args) false st2).
    { destruct ld; [|by exists st1]. destruct (after_limit_del E src ch _ _ _ _ _ _ _ H1 (Hl eq_refl)) as (st2 & R2 & H2). exists st2. split; [|done].
      change (run ["l"%char] st1 = Some st2). cbn [steps]. by rewrite R2. }
    destruct H2 as (st2 & R2 & H2).
    assert (H3 : exists st3, run (map letter (key_dels kd)) st2 = Some st3 /\
      after (if ld then Some None else None) kd None (key_dels kd) [] (gather_all false (map fst fs) (0, 0)) (map par (map xarg X) ++ args) false st3).
    { destruct kd as [k|]; [|by exists st2]. cbn [key_dels map app] in H2.
      destruct (after_key E src ch Hmy false k _ None [] [] _ _ st2 H2 (Hkd k eq_refl) eq_refl) as (st3 & R3 & H3); [cbn; lia|].
      exists st3. split; [|done]. change (run ["k"%char] st2 = Some st3). cbn [steps]. by rewrite R3. }
    destruct H3 as (st3 & R3 & H3). rewrite map_map in H3.
    destruct (after_clients E src ch Hmy Hcs Hnum X false _ _ _ _ [] _ _ _ Hon HX Hdel Hnd H3) as (st4 & R4 & H4).
    exists st4. split; [|done]. unfold s. rewrite map_app, map_map. by repeat (eapply run_app; [done|]). }
  destruct s as [|c s'] eqn:Es.
  - cbn [app steps]. destruct (Hmain (upd_dir false st)) as (st' & R & H'); [by eapply after_dir|]. cbn [steps] in R. injection R as <-.
    exists st, dir. split; [done|]. split; [|done]. replace st with (upd_dir dir (upd_dir false st)); [by eapply after_dir|].
    destruct H. destruct st; cbn in *. by subst.
  - destruct (Hmain (upd_dir false st)) as (st' & R & H'); [by eapply after_dir|]. exists st', false. split; [|done]. exact R.
Qed.

(** The limit and the key it sets, in the order of the line. *)
Definition new_limit (nl : option Z) : list modearg := match nl with Some n => [larg n] | None => [] end.
Definition with_new (nl : option Z) (lim : lim_effect) : lim_effect := match nl with Some n => Some (Some n) | None => lim end.

Lemma run_sets nl ka lim kd l la xs ad args st :
  la ≡ₚ new_limit nl ++ key_adds ka -> (forall n, nl = Some n -> lim = None /\ 0 < n < 2 ^ 31 /\ n <> limit (mc_mode ch)) ->
  (forall k, ka = Some k -> key_error k [] = None /\ (is_Some kd \/ key (mc_mode ch) = [])) -> (length l + length la <= 5)%nat ->
  after lim kd None l xs ad (map par la ++ args) true st ->
  exists st', run (map letter la) st = Some st' /\ after (with_new nl lim) kd ka (l ++ la) xs ad args true st'.
Proof using Hmy.
  intros Hp Hn Hk Hlen H.
  assert (Hone : forall n ka0 l0 args0 st0, nl = Some n -> (length l0 < 5)%nat -> after lim kd ka0 l0 xs ad (par (larg n) :: args0) true st0 ->
    exists st', run [letter (larg n)] st0 = Some st' /\ after (with_new nl lim) kd ka0 (l0 ++ [larg n]) xs ad args0 true st').
  { intros n ka0 l0 args0 st0 -> Hl0 H0. destruct (Hn n eq_refl) as (-> & Hn1 & Hn2).
    destruct (after_limit_add E src ch Hmy n _ _ _ _ _ _ st0 H0 Hn1 Hn2 Hl0) as (st' & R & H'). exists st'. split; [|done].
    change (run ["l"%char] st0 = Some st'). cbn [steps]. by rewrite R. }
  assert (Htwo : forall k lim0 l0 args0 st0, ka = Some k -> (length l0 < 5)%nat -> after lim0 kd None l0 xs ad (par (karg true k) :: args0) true st0 ->
    exists st', run [letter (karg true k)] st0 = Some st' /\ after lim0 kd ka (l0 ++ [karg true k]) xs ad args0 true st').
  { intros k lim0 l0 args0 st0 -> Hl0 H0. destruct (Hk k eq_refl) as [Hk1 Hk2].
    destruct (after_key E src ch Hmy true k _ _ _ _ _ _ st0 H0 Hk1 Hk2 Hl0) as (st' & R & H'). exists st'. split; [|done].
    change (run ["k"%char] st0 = Some st'). cbn [steps]. by rewrite R. }
  destruct nl as [n|], ka as [k|]; cbn [new_limit key_adds app] in Hp.
  - apply symmetry, Permutation_length_2_inv in Hp as [->| ->]; cbn [map app length] in *.
    + destruct (Hone n _ l _ _ eq_refl ltac:(lia) H) as (st1 & R1 & H1).
      destruct (Htwo k _ (l ++ [larg n]) _ _ eq_refl ltac:(rewrite length_app; cbn [length]; lia) H1) as (st2 & R2 & H2).
      exists st2. split; [by apply (run_app [_] [_] _ st1)|]. by rewrite <- app_assoc in H2.
    + destruct (Htwo k _ l _ _ eq_refl ltac:(lia) H) as (st1 & R1 & H1).
      destruct (Hone n _ (l ++ [karg true k]) _ _ eq_refl ltac:(rewrite length_app; cbn [length]; lia) H1) as (st2 & R2 & H2).
      exists st2. split; [by apply (run_app [_] [_] _ st1)|]. by rewrite <- app_assoc in H2.
  - apply Permutation_singleton_r in Hp as ->. cbn [map app length] in *. by destruct (Hone n _ l _ _ eq_refl ltac:(lia) H) as (st1 & R1 & H1); exists st1.
  - apply Permutation_singleton_r in Hp as ->. cbn [map app length] in *. by destruct (Htwo k _ l _ _ eq_refl ltac:(lia) H) as (st1 & R1 & H1); exists st1.
  - apply symmetry, Permutation_nil in Hp as ->. exists st. by rewrite app_nil_r.
Qed.

(** The part of the line that adds. *)
Lemma run_adds dir (fs : list (Z * ascii)) nl ka lim kd l la xs X ad args st :
  Forall (fun f => f ∈ plain_table) fs ->
  la ≡ₚ new_limit nl ++ key_adds ka -> (forall n, nl = Some n -> lim = None /\ 0 < n < 2 ^ 31 /\ n <> limit (mc_mode ch)) ->
  (forall k, ka = Some k -> key_error k [] = None /\ (is_Some kd \/ key (mc_mode ch) = [])) -> (length l + length la <= 5)%nat ->
  Forall (fun x => on_chan ch (c_client x)) X -> Forall cli_ok X -> Forall (fun x => adding x = true) X -> NoDup (map slot (xs ++ X)) ->
  after lim kd None l xs ad (map par (la ++ map xarg X) ++ args) dir st ->
  let s := map snd fs ++ map letter (la ++ map xarg X) in
  exists st' dir', run ((if s is [] then [] else str "+") ++ s) st = Some st' /\
    after (with_new nl lim) kd ka (l ++ la) (xs ++ X) (gather_all true (map fst fs) ad) args dir' st'.
Proof using All.
  intros Hfs Hp Hn Hk Hlen Hon HX Hadd Hnd H s.
  assert (Hmain : forall st0, after lim kd None l xs ad (map par (la ++ map xarg X) ++ args) true st0 ->
    exists st', run s st0 = Some st' /\ after (with_new nl lim) kd ka (l ++ la) (xs ++ X) (gather_all true (map fst fs) ad) args true st').
  { intros st0 H0. destruct (after_plains E src ch Hcs fs _ _ _ _ _ _ _ _ _ H0 Hfs) as (st1 & R1 & H1). rewrite map_app, <- app_assoc in H1.
    destruct (run_sets nl ka lim kd l la xs _ _ st1 Hp Hn Hk Hlen H1) as (st2 & R2 & H2). rewrite map_map in H2.
    destruct (after_clients E src ch Hmy Hcs Hnum X true _ _ _ _ xs _ _ _ Hon HX Hadd Hnd H2) as (st3 & R3 & H3).
    exists st3. split; [|done]. unfold s. rewrite map_app, map_map. by repeat (eapply run_app; [done|]). }
  destruct s as [|c s'] eqn:Es.
  - cbn [app steps]. destruct (Hmain (upd_dir true st)) as (st' & R & H'); [by eapply after_dir|]. cbn [steps] in R. injection R as <-.
    exists st, dir. split; [done|]. replace st with (upd_dir dir (upd_dir true st)); [by eapply after_dir|].
    destruct H. destruct st; cbn in *. by subst.
  - destruct (Hmain (upd_dir true st)) as (st' & R & H'); [by eapply after_dir|]. exists st', true. by split; [exact R|].
Qed.
End line.

(** ** The whole line *)

(** What a line of a user comes to: at most five changes with an argument,
    their order but for the limit and the key being that of the line. *)
Record line_change (ch : mchan) (lim : lim_effect) (kd ka : option cstring) (l : list modearg) (X : list cli_change) : Prop := {
  lo_dels : dels_of l = key_dels kd;
  lo_adds : adds_of l ≡ₚ limit_adds lim ++ key_adds ka;
  lo_lim : match lim with Some (Some n) => 0 < n < 2 ^ 31 /\ n <> limit (mc_mode ch) | Some None => limit (mc_mode ch) <> 0 | None => True end;
  lo_kd : forall k, kd = Some k -> key_error k [] = None;
  lo_ka : forall k, ka = Some k -> key_error k [] = None /\ (is_Some kd \/ key (mc_mode ch) = []);
  lo_changes : changes_ok X;
  lo_count : (length l + length X <= 5)%nat
}.

Definition dels X : list cli_change := List.filter (fun x => negb (adding x)) X.
Definition adds X : list cli_change := List.filter adding X.

Lemma filter_map {A B : Type} (f : B -> bool) (g : A -> B) (k : list A) : List.filter f (map g k) = map g (List.filter (fun x => f (g x)) k).
Proof. induction k as [|x k IH]; [done|]. cbn [map List.filter]. destruct (f (g x)); cbn [map]; by rewrite IH. Qed.

Lemma dels_changes l X : dels_of (l ++ map xarg X) = dels_of l ++ map xarg (dels X).
Proof. unfold dels_of. by rewrite List.filter_app, filter_map. Qed.

Lemma adds_changes l X : adds_of (l ++ map xarg X) = adds_of l ++ map xarg (adds X).
Proof. unfold adds_of. by rewrite List.filter_app, filter_map. Qed.

Lemma split_perm {A : Type} (f : A -> bool) (k : list A) : k ≡ₚ List.filter (fun x => negb (f x)) k ++ List.filter f k.
Proof.
  induction k as [|x k IH]; [done|]. cbn [List.filter]. destruct (f x); cbn [negb]; [|by cbn [app]; rewrite <- IH].
  by rewrite <- Permutation_middle, <- IH.
Qed.

Lemma changes_perm X Y : X ≡ₚ Y -> changes_ok X -> changes_ok Y.
Proof. intros Hp [H1 H2]. unfold changes_ok. by rewrite <- Hp. Qed.

Lemma filter_all {A : Type} (f : A -> bool) (k : list A) : Forall (fun x => f x = true) (List.filter f k).
Proof. apply Forall_forall. intros x Hx. apply list_elem_of_In, filter_In in Hx as [_ Hx]. done. Qed.

Lemma filter_forall {A : Type} (P : A -> Prop) (f : A -> bool) (k : list A) : Forall P k -> Forall P (List.filter f k).
Proof. rewrite !Forall_forall. intros H x Hx. apply H. by apply filter_incl in Hx. Qed.

(** Where the numbers of letters and of arguments are the same. *)
Lemma letters_count NumNick a r u : letters_fit a r u <->
  (length (adds_to NumNick a r u) <= 19)%nat /\ (length (rems_of NumNick a r u) <= 19)%nat.
Proof. unfold letters_fit, adds_to, rems_of. by rewrite !length_app, !length_map. Qed.

Lemma effective_on ch X : Forall (effective ch) X -> Forall (fun x => on_chan ch (c_client x)) X.
Proof. intros H. eapply Forall_impl; [exact H|]. intros x (m & Hm & _). by exists m. Qed.

Section whole.
Context (E : mode_env) (src : msource) (ch : mchan).
Context (Hmy : s_my src = false) (Hcs : s_cserver src = true).
Context (Hnum : forall c, on_chan ch c -> length (NumNick E c) = 5%nat /\ find_n_user E (NumNick E c) = Some c).
Implicit Types (st : pstate) (l : list modearg).
Notation after := (after src ch).
Notation run := (steps (mode_char E src)).
Notation NN := (NumNick E).

Lemma start_after args : (length args <= 6)%nat ->
  after None None None [] [] (0, 0) args true (parse_init (Some (modebuf_init (s_client src) ch to_all)) ch forced true args).
Proof using All.
  intros Hlen. constructor; try done. constructor; try done.
  - cbn [parse_init p_chan]. destruct ch as [? ? m ? ? ? ?]. by destruct m.
  - split; constructor.
Qed.

Lemma line_parts a r lim mb l X : flagged a r lim mb -> within a -> within r -> Z.land a r = 0 ->
  let u := l ++ map xarg X in let rm := dels_of l ++ map xarg (dels X) in let ad := adds_of l ++ map xarg (adds X) in
  letters_of (rems_of NN (mb_add mb) (mb_rem mb) u) = map snd (plain r) ++ limit_letter lim ++ map letter rm /\
  letters_of (adds_to NN (mb_add mb) (mb_rem mb) u) = map snd (plain a) ++ map letter ad /\
  args_of (rems_of NN (mb_add mb) (mb_rem mb) u) = map (param NN) rm /\
  args_of (adds_to NN (mb_add mb) (mb_rem mb) u) = map (param NN) ad.
Proof using Type.
  intros Hf Ha Hr Har u rm ad. pose proof (flagged_letters a r lim mb Hf Ha Hr Har) as Hl.
  destruct (simple_letters true (mb_add mb) (mb_rem mb)) as [La Aa]. destruct (simple_letters false (mb_add mb) (mb_rem mb)) as [Lr Ar].
  rewrite Hl in La, Lr. cbn [fst snd] in La, Lr. unfold rems_of, adds_to, u. rewrite dels_changes, adds_changes. fold rm ad.
  assert (Hla : forall c k, letters_of (c ++ map (change_of NN) k) = letters_of c ++ map letter k).
  { intros c k. rewrite <- (change_letters NN). unfold letters_of. apply map_app. }
  assert (Hca : forall c k, args_of (c ++ map (change_of NN) k) = args_of c ++ map (param NN) k).
  { intros c k. rewrite <- (change_args NN). unfold args_of. apply omap_app. }
  rewrite !Hla, !Hca, La, Lr, Aa, Ar. by rewrite <- app_assoc.
Qed.

(** Reading the line from its first letter to its last. *)
Lemma remote_reads lim kd ka l X a r mb ts : line_change ch lim kd ka l X -> Forall (effective ch) X -> flagged a r lim mb -> within a -> within r -> Z.land a r = 0 ->
  let u := l ++ map xarg X in let rems := rems_of NN (mb_add mb) (mb_rem mb) u in let adds' := adds_to NN (mb_add mb) (mb_rem mb) u in
  exists st' dir, run (signed rems adds') (parse_init (Some (modebuf_init (s_client src) ch to_all)) ch forced true (args_of rems ++ args_of adds' ++ [ts])) = Some st' /\
    after lim kd ka (key_dels kd ++ adds_of l) (dels X ++ adds X)
      (gather_all true (map fst (plain a)) (gather_all false (map fst (plain r)) (0, 0))) [ts] dir st'.
Proof using All.
  intros [Hld Hla Hlim Hkd Hka [Hnd Hok] Hcnt] Heff Hf Ha Hr Har u rems adds'. apply effective_on in Heff.
  destruct (line_parts a r lim mb l X Hf Ha Hr Har) as (L1 & L2 & A1 & A2). fold u in L1, L2, A1, A2. fold rems in L1, A1. fold adds' in L2, A2. rewrite Hld in L1, A1.
  assert (Hlen : (length (key_dels kd ++ adds_of l) = length l)%nat).
  { rewrite <- Hld. unfold dels_of, adds_of. symmetry. apply Permutation_length, split_perm. }
  assert (HlX : (length (dels X ++ adds X) = length X)%nat) by (symmetry; apply Permutation_length, split_perm).
  assert (HX : NoDup (map slot (dels X ++ adds X))) by (rewrite <- (split_perm adding X); done).
  set (nl := match lim with Some (Some n) => Some n | _ => None end).
  set (ld := match lim with Some None => true | _ => false end).
  assert (Hinit := start_after (args_of rems ++ args_of adds' ++ [ts])). set (st0 := parse_init _ _ _ _ _) in *. rewrite A1, A2 in Hinit.
  destruct (run_dels E src ch Hmy Hcs Hnum true (plain r) ld kd (dels X) (map (param NN) (adds_of l ++ map xarg (adds X)) ++ [ts]) st0 (plain_in r)) as (st1 & dir1 & R1 & H1 & _); [..|apply Hinit|].
  - unfold ld. by destruct lim as [[n|]|].
  - done.
  - by apply filter_forall.
  - by apply filter_forall.
  - pose proof (filter_all (fun x => negb (adding x)) X) as H. eapply Forall_impl; [exact H|]. intros x Hx. by apply negb_true_iff.
  - rewrite map_app in HX. by apply NoDup_app in HX as [HX _].
  - rewrite !length_app, !length_map, !length_app, !length_map. rewrite !length_app in Hlen, HlX. cbn [length]. lia.
  - destruct (run_adds E src ch Hmy Hcs Hnum dir1 (plain a) nl ka (if ld then Some None else None) kd (key_dels kd) (adds_of l) (dels X) (adds X) (gather_all false (map fst (plain r)) (0, 0)) [ts] st1 (plain_in a)) as (st2 & dir2 & R2 & H2); [..|exact H1|].
    + rewrite Hla. by destruct lim as [[n|]|].
    + intros n Hn. unfold nl in Hn. unfold ld. destruct lim as [[n'|]|]; [|done..]. injection Hn as ->. done.
    + done.
    + rewrite <- length_app. lia.
    + by apply filter_forall.
    + by apply filter_forall.
    + apply filter_all.
    + done.
    + exists st2, dir2. split.
      * unfold signed. rewrite L1, L2. assert (Hll : limit_letter lim = if ld then str "l" else []) by (by destruct lim as [[n|]|]). rewrite Hll.
        rewrite app_assoc. eapply run_app; [exact R1|exact R2].
      * assert (Hw : with_new nl (if ld then Some None else None) = lim) by (by destruct lim as [[n|]|]). rewrite <- Hw. exact H2.
Qed.
End whole.

(** ** Applying the line *)
Lemma line_words NumNick a r u : bit a MODE_LIMIT = false -> Forall (arg_ok NumNick) u -> rems_of NumNick a r u ++ adds_to NumNick a r u <> [] ->
  words " " (mode_line NumNick a r u) = signed (rems_of NumNick a r u) (adds_to NumNick a r u) ::
    args_of (rems_of NumNick a r u) ++ args_of (adds_to NumNick a r u).
Proof.
  intros Hl Hu Hne. assert (Hc : forall f, Forall change_ok (map (change_of NumNick) (List.filter f u))).
  { intros f. apply Forall_map. apply filter_forall. eapply Forall_impl; [exact Hu|]. intros m Hm. by apply change_of_ok. }
  apply words_mode_text; [| |done]; apply Forall_app; split; (apply Hc || by apply simple_ok).
Qed.

Lemma signed_nonempty rems ads : rems ++ ads <> [] -> exists c s, signed rems ads = c :: s.
Proof. intros H. unfold signed. destruct rems as [|c rems]; [destruct ads as [|c ads]; [done|]|]; by eexists _, _. Qed.

Lemma flagged_limit a r lim mb : flagged a r lim mb -> within a -> bit (mb_add mb) MODE_LIMIT = false.
Proof.
  intros [H _ _ _ _] Ha. rewrite Forall_forall in H. destruct (H (MODE_LIMIT, "l"%char)) as [H1 _].
  - unfold simple_flags. rewrite !elem_of_cons. tauto.
  - cbn [fst] in H1. rewrite H1. by apply bit_within.
Qed.

Lemma settled_after L X t c : Forall (fun m => hidden m = false) (mc_members c) -> Forall (fun y => c_flag y ∈ client_flags) X ->
  bit t MODE_WASDELJOINS = false -> settled_joins (upd_members (applied L X) (simple_chan t c)).
Proof.
  intros Hh HX Ht. split.
  - unfold find_delayed. cbn [upd_members mc_members]. rewrite simple_members. apply not_true_iff_false. rewrite existsb_exists.
    intros (m & Hin & Hd). apply in_map_iff in Hin as (m0 & <- & Hin). change (IsDelayedJoin (applied L X m0)) with (hidden (applied L X m0)) in Hd.
    rewrite applied_hidden in Hd by done. rewrite Forall_forall in Hh. rewrite Hh in Hd; [done|by apply list_elem_of_In].
  - unfold simple_chan. by destruct (_ && _).
Qed.

Lemma was_kept t m : bit m MODE_WASDELJOINS = false -> within (Z.ldiff t m) -> bit t MODE_WASDELJOINS = false.
Proof.
  intros Hm Hw. assert (Ht : t = Z.lor (Z.land t m) (Z.ldiff t m)).
  { apply testbit_ext. intros k Hk. rewrite Z.lor_spec, Z.land_spec, Z.ldiff_spec. by destruct (Z.testbit t k), (Z.testbit m k). }
  rewrite Ht, bit_or, (bit_within _ _ Hw) by done. rewrite orb_false_r. unfold bit in *. apply negb_false_iff, Z.eqb_eq in Hm.
  rewrite <- Z.land_assoc, Hm, Z.land_0_r. done.
Qed.

Section remote_line.
Context (E : mode_env) (src : msource) (ch : mchan) (me : Membership).
Context (Hmy : s_my src = false) (Hcs : s_cserver src = true).
Context (Hnum : forall c, on_chan ch c -> length (NumNick E c) = 5%nat /\ find_n_user E (NumNick E c) = Some c).
Context (Hme : find_mem (s_client src) ch = Some me) (Hop : bit (status me) MODE_CHANOP = true) (Hlevel : 0 <= oplevel me <= MAXOPLEVEL).
Context (Hhid : Forall (fun m => hidden m = false) (mc_members ch)) (Hwas : bit (mode (mc_mode ch)) MODE_WASDELJOINS = false).
Context (Hlocal : (deref (mc_name ch) =c "&") = false) (Htime : 0 <= mc_time ch < 2 ^ 31).
Implicit Types (st : pstate) (l : list modearg).
Notation NN := (NumNick E).
Notation L := (oplevel me).

Lemma remote_dest lim l : mb_dest (lk_buf src ch lim l) = to_all.
Proof using Hlocal. cbn [lk_buf mb_dest]. unfold modebuf_init. by rewrite Hlocal. Qed.

(** The time of the channel at the end of the line changes nothing. *)
Lemma time_read lim kd ka l xs ad dir st : after src ch lim kd ka l xs ad [decimal (mc_time ch)] dir st ->
  forall n s c, steps (mode_char E src) (c :: s) (parse_init (Some (modebuf_init (s_client src) ch to_all)) ch forced true n) = Some st ->
  exists st', mode_words E src (S (length n)) (c :: s) (parse_init (Some (modebuf_init (s_client src) ch to_all)) ch forced true n) = Some (st', false) /\
    after src ch lim kd ka l xs ad [] dir st'.
Proof using Hcs Htime.
  intros H n s c R. rewrite mode_words_eq, R. cbn [mbind option_bind]. pose proof (af_rd _ _ _ _ _ _ _ _ _ _ _ H) as Hr.
  rewrite (reading_flag _ _ _ _ _ _ _ _ _ _ Hr). change (bit forced MODE_PARSE_BURST) with false. rewrite (af_args _ _ _ _ _ _ _ _ _ _ _ H). cbv zeta.
  destruct (decimal_digits (mc_time ch)) as [Hd Hne]; [lia|].
  assert (IsDigit (deref (decimal (mc_time ch))) = true) as -> by (destruct (decimal (mc_time ch)); [done|by apply Forall_cons in Hd as [? _]]).
  rewrite Hcs. cbn [length Nat.eqb andb]. rewrite (reading_flag _ _ _ _ _ _ _ _ _ _ Hr). change (bit forced MODE_PARSE_SET) with true.
  rewrite atoi_decimal by done. unfold receive_ts. cbv zeta.
  assert (mc_time (p_chan (upd_args [] (S (p_used st)) (p_max st) st)) = mc_time ch) as ->.
  { cbn [upd_args p_chan]. by rewrite (r_chan _ _ _ _ _ _ _ _ _ Hr). }
  rewrite Z.ltb_irrefl, andb_false_r. eexists. split; [done|]. destruct H as [_ Hx Ha Hg Hdir Hkd Hka]. constructor; try done.
  destruct Hr. constructor; try done. cbn [upd_args p_args p_changes length]. lia.
Qed.

(** A server makes of the line what the user's server made of the user's. *)
Lemma remote_applies lim kd ka l t X mb (uw : bool) :
  let c := with_mc_mode (lk_mode lim kd ka (mc_mode ch)) ch in let m := mode (mc_mode c) in let u := l ++ map xarg X in
  line_change ch lim kd ka l X -> Forall (effective ch) X -> bit t MODE_PRIVATE && bit t MODE_SECRET = false ->
  within (Z.ldiff t m) -> within (Z.ldiff m t) -> flagged (Z.ldiff t m) (Z.ldiff m t) lim mb ->
  Forall (arg_ok NN) u -> one_limit u -> Forall (fun m => room_of (cli_name E) to_all m < 312) u -> letters_fit (mb_add mb) (mb_rem mb) u ->
  rems_of NN (mb_add mb) (mb_rem mb) u ++ adds_to NN (mb_add mb) (mb_rem mb) u <> [] ->
  exists outs rep, ms_mode E src false uw false (words " " (mode_line NN (mb_add mb) (mb_rem mb) u) ++ [decimal (mc_time ch)]) ch =
    Some (upd_members (applied L X) (simple_chan t c), outs, rep).
Proof using All.
  intros c m u Hline Heff Hps Hwa Hwr Hf Hargs Hone Hroom Hlet Hne.
  assert (Hdis : Z.land (Z.ldiff t m) (Z.ldiff m t) = 0).
  { apply testbit_ext. intros k Hk. rewrite Z.land_spec, !Z.ldiff_spec, Z.bits_0. by destruct (Z.testbit t k), (Z.testbit m k). }
  rewrite line_words by (done || by apply (flagged_limit _ _ lim mb Hf)).
  destruct (remote_reads E src ch Hmy Hcs Hnum lim kd ka l X _ _ mb (decimal (mc_time ch)) Hline Heff Hf Hwa Hwr Hdis) as (st1 & dir & R1 & H1). fold u in R1.
  set (rems := rems_of _ _ _ _) in *. set (ads := adds_to _ _ _ _) in *. destruct (signed_nonempty rems ads Hne) as (c0 & s & Hsig).
  rewrite Hsig in R1 |- *. destruct (time_read _ _ _ _ _ _ _ _ H1 _ _ _ R1) as (st2 & R2 & [Hr Hx Had _ _ _ _]).
  assert (Hnew : new_word st2 = t).
  { unfold new_word, cm. rewrite (r_chan _ _ _ _ _ _ _ _ _ Hr). fold c m.
    pose proof (diff_line m t _ _ Hps eq_refl eq_refl Hwa Hwr) as Hd. cbv zeta in Hd. rewrite <- Hd. unfold plain in Had. by rewrite <- Had. }
  destruct Hline as [Ld La Llim Lkd Lka Lok Lcnt].
  assert (Hp : X ≡ₚ dels X ++ adds X) by apply (split_perm adding X).
  assert (Hpl : key_dels kd ++ adds_of l ≡ₚ l) by (rewrite <- Ld; symmetry; apply (split_perm is_add l)).
  destruct (remote_finish E src forced ch 6 me forced_ok Hme Hop Hlevel Hhid lim kd ka _ st2 Hmy Hr) as (st3 & R3 & Hc3 & a & r & Hb3 & Hf3).
  { rewrite Hx, Hpl, <- Hp. done. }
  { rewrite Hx, <- Hp. done. }
  rewrite Hnew, Hx in Hc3. rewrite Hx in Hb3. rewrite Hnew in Hf3. fold c m in Hc3, Hf3.
  assert (Hchan : p_chan st3 = upd_members (applied L X) (simple_chan t c)).
  { rewrite Hc3. apply upd_members_ext. intros y _. symmetry. apply applied_perm; [done|by destruct Lok|]. destruct Lok as [_ Lok].
    eapply Forall_impl; [exact Lok|]. by intros z [Hz _]. }
  set (u' := (key_dels kd ++ adds_of l) ++ map xarg (dels X ++ adds X)) in *.
  assert (Hu : u' ≡ₚ u) by (unfold u', u; by rewrite Hpl, <- Hp).
  set (mb3 := with_args u' _) in Hb3.
  assert (Hok : mb_ok (cli_name E) NN mb3).
  { constructor; change (mb_modeargs mb3) with u'; change (mb_dest mb3) with (mb_dest (lk_buf src ch lim (key_dels kd ++ adds_of l))); rewrite ?remote_dest.
    - by split_and!.
    - by rewrite Hu.
    - unfold one_limit in *. by rewrite (filter_perm _ _ _ Hu).
    - by apply (flagged_limit _ _ lim _ Hf3).
    - pose proof (flagged_letters _ _ lim mb Hf Hwa Hwr Hdis) as K1. pose proof (flagged_letters _ _ lim _ Hf3 Hwa Hwr Hdis) as K2.
      unfold letters_fit, simple_changes in *. change (mb_add mb3) with a. change (mb_rem mb3) with r. cbn [Modebuf.with_flags mb_add mb_rem] in K2.
      rewrite !length_map in *. rewrite K1 in Hlet. rewrite K2. unfold adds_of, dels_of in *. by rewrite !(filter_perm _ _ _ Hu).
    - by rewrite Hu. }
  destruct (flush_int_spec (cli_name E) NN flush_fuel (p_chan st3) mb3 Hok) as (ch4 & mb4 & ls & Hfl & _).
  { change (mb_modeargs mb3) with u'. rewrite Hu. unfold u, flush_fuel. rewrite length_app, length_map. lia. }
  assert (Hch4 : ch4 = p_chan st3).
  { eapply (flush_int_same (cli_name E) NN); [|exact Hfl]. rewrite Hchan. apply settled_after; [done|destruct Lok as [_ Lok]; eapply Forall_impl; [exact Lok|]; by intros z [Hz _]|].
    apply (was_kept t m); [|done]. unfold m, c. cbn [with_mc_mode mc_mode lk_mode mode]. destruct lim as [[n|]|]; [by rewrite bit_or, Hwas| |done].
    unfold bit in *. apply negb_false_iff, Z.eqb_eq in Hwas. apply negb_false_iff, Z.eqb_eq. apply testbit_ext. intros k Hk.
    apply (f_equal (fun z => Z.testbit z k)) in Hwas. rewrite Z.land_spec, Z.bits_0 in Hwas. rewrite Z.land_spec, Z.ldiff_spec, Z.bits_0.
    destruct (Z.testbit (mode (mc_mode ch)) k); [|done]. cbn [andb] in Hwas. by rewrite Hwas, andb_false_r. }
  exists (mb_out mb4), (p_out st3). unfold ms_mode. cbv zeta. unfold is_chanop. rewrite Hme. cbn [fmap option_fmap option_map default].
  change (IsChanOp me) with (bit (status me) MODE_CHANOP). rewrite Hop. cbn [negb]. unfold run_mode, mode_parse. cbn [app].
  rewrite <- app_assoc. change (Z.lor MODE_PARSE_SET (Z.lor MODE_PARSE_STRICT MODE_PARSE_FORCE)) with forced. rewrite R2. cbn [mbind option_bind].
  rewrite R3. cbn [mbind option_bind]. rewrite Hb3. cbn [mbind option_bind]. unfold modebuf_flush. rewrite Hfl. cbn [mbind option_bind]. by rewrite Hch4, Hchan.
Qed.
End remote_line.

(** ** The arguments of a line *)
Lemma key_plain : forall c, bad_key_char c = false -> c <> " "%char /\ c <> LF /\ c <> CR /\ c <> NUL.
Proof.
  assert (H : forall c, negb (bad_key_char c) && ((c =c " ") || (c =c LF) || (c =c CR) || (c =c NUL)) = false) by all_chars.
  intros c Hc. specialize (H c). rewrite Hc in H. cbn [negb andb] in H. apply orb_false_elim in H as [H H4].
  apply orb_false_elim in H as [H H3]. apply orb_false_elim in H as [H1 H2]. apply ch_eqb_neq in H1, H2, H3, H4. done.
Qed.

Lemma key_word k : key_error k [] = None -> word_ok k /\ (length k <= 23)%nat.
Proof.
  intros H. pose proof (key_error_ok _ _ H) as [[Hlen Hok] Heq]. rewrite Heq in Hlen, Hok. split; [|exact Hlen].
  split; [by destruct k|]. eapply Forall_impl; [exact Hok|]. apply key_plain.
Qed.

Section args.
Context (cli_name NumNick : positive -> cstring) (dest : Z) (ch : mchan).
Context (Hw : forall c, on_chan ch c -> word_ok (NumNick c)) (Hn : forall c, on_chan ch c -> (length (cli_name c) <= 30)%nat) (Hnokey : bit dest MODEBUF_DEST_NOKEY = false).

Definition fine m : Prop := arg_ok NumNick m /\ 0 <= room_of cli_name dest m <= 50.

Lemma fine_limit n : 0 < n < 2 ^ 31 -> fine (larg n).
Proof using Type.
  intros Hp. split.
  - split; [|change (0 <= n); lia]. exists true, MODE_LIMIT, false. split_and!; [|done..]. unfold arg_modes. rewrite !elem_of_cons. tauto.
  - unfold room_of. change (kind_of (mb_type (larg n))) with KLimit. cbn [larg mb_arg uint_of]. pose proof (digits_length 20 n []) as H.
    unfold decimal. cbn [length] in H. lia.
Qed.

Lemma fine_key add k : key_error k [] = None -> fine (karg add k).
Proof using Hnokey.
  intros Hk. destruct (key_word k Hk) as [H1 H2]. split.
  - split; [|by destruct add]. exists add, MODE_KEY, false. split_and!; [|done..]. unfold arg_modes. rewrite !elem_of_cons. tauto.
  - unfold room_of. assert (kind_of (mb_type (karg add k)) = KKey) as -> by (by destruct add). rewrite Hnokey. cbn [karg mb_arg string_of]. lia.
Qed.

Lemma fine_client x : on_chan ch (c_client x) -> cli_ok x -> fine (xarg x).
Proof using Hw Hn.
  intros Hc [Hf Hl]. assert (Hk : kind_of (c_flag x) = KClient /\ exists add f free, f ∈ arg_modes /\ c_flag x = type_of add f free /\ (f = MODE_LIMIT -> add = true)).
  { assert (Hin : MODE_CHANOP ∈ arg_modes /\ MODE_VOICE ∈ arg_modes) by (unfold arg_modes; rewrite !elem_of_cons; tauto). destruct Hin as [I1 I2].
    unfold client_flags in Hf. rewrite !elem_of_cons in Hf. destruct Hf as [->|[->|[->|[->|Hf]]]]; [..|by apply not_elem_of_nil in Hf];
      (split; [done|]); [exists true, MODE_CHANOP, false|exists true, MODE_VOICE, false|exists false, MODE_CHANOP, false|exists false, MODE_VOICE, false]; by split_and!. }
  destruct Hk as [Hk Ht]. split.
  - split; [exact Ht|]. cbn [xarg mb_type mb_arg mb_oplevel]. rewrite Hk. split; [by apply Hw|]. unfold MAXOPLEVEL in Hl. lia.
  - unfold room_of. cbn [xarg mb_type mb_arg client_of]. rewrite Hk. specialize (Hn (c_client x) Hc). lia.
Qed.

Lemma line_args lim kd ka l X : line_change ch lim kd ka l X -> Forall (effective ch) X ->
  Forall fine (l ++ map xarg X) /\ one_limit (l ++ map xarg X) /\ (length (l ++ map xarg X) <= 5)%nat.
Proof using All.
  intros [Ld La Llim Lkd Lka [_ Lok] Lcnt] Heff. apply effective_on in Heff.
  assert (Hp : l ≡ₚ key_dels kd ++ limit_adds lim ++ key_adds ka).
  { rewrite <- La, <- Ld. apply (split_perm is_add l). }
  split_and!.
  - apply Forall_app. split.
    + rewrite Hp, !Forall_app. split_and!.
      * destruct kd as [k|]; [|constructor]. apply Forall_singleton, fine_key. by apply Lkd.
      * destruct lim as [[n|]|]; [|constructor..]. apply Forall_singleton, fine_limit. by destruct Llim.
      * destruct ka as [k|]; [|constructor]. apply Forall_singleton, fine_key. by apply Lka.
    + apply Forall_map. rewrite Forall_forall in Lok, Heff |- *. intros x Hx. apply fine_client; auto.
  - unfold one_limit. rewrite List.filter_app, (filter_perm _ _ _ Hp), !List.filter_app.
    assert (List.filter (fun m => match kind_of (mb_type m) with KLimit => true | _ => false end) (map xarg X) = []) as ->.
    { clear Heff. induction Lok as [|x X [Hf _] _ IH]; [done|]. cbn [map List.filter xarg mb_type]. rewrite IH; [|cbn [length] in Lcnt; lia].
      unfold client_flags in Hf. rewrite !elem_of_cons in Hf. by destruct Hf as [->|[->|[->|[->|Hf]]]]; [..|apply not_elem_of_nil in Hf]. }
    apply Nat.leb_le. by destruct kd, lim as [[n|]|], ka.
  - rewrite length_app, length_map. exact Lcnt.
Qed.
End args.

(** ** From one server to another *)

(** The lines sent to the servers, as lists of arguments, and a server that
    receives some. *)
Definition to_servers (outs : list mode_out) : list (list cstring) :=
  omap (fun o => match o with ToServers t ts => Some (words " " t ++ [decimal ts]) | _ => None end) outs.

Fixpoint receive (E : mode_env) (src : msource) (lines : list (list cstring)) (ch : mchan) : option mchan :=
  match lines with
  | [] => Some ch
  | args :: lines => '(ch, _, _) ← ms_mode E src false false false args ch; receive E src lines ch
  end.

Section times.
Context (cli_name NumNick : positive -> cstring).

Definition timed (t : Z) mb : Prop := to_servers (mb_out mb) = map (fun s => words " " s ++ [decimal t]) (server_lines mb).

Lemma timed_out t mb mb' o : mb_out mb' = mb_out mb ++ o -> timed t mb ->
  to_servers o = map (fun s => words " " s ++ [decimal t]) (omap (fun o => match o with ToServers t _ => Some t | _ => None end) o) -> timed t mb'.
Proof using Type. intros Ho H1 H2. unfold timed, to_servers, server_lines in *. by rewrite Ho, !omap_app, map_app, H1, H2. Qed.

Lemma flush_lines_timed ch mb mb' : timed (mc_time ch) mb -> flush_lines cli_name NumNick ch mb = Some mb' -> timed (mc_time ch) mb'.
Proof using Type.
  intros H. unfold flush_lines. destruct (flag_letters simple_flags _ _) as [sa sr]. destruct (flag_letters local_flags _ _) as [la lr].
  set (st := fold_left _ _ _). cbv zeta. destruct (negb _); [done|]. destruct (build_args (shown_arg _ _ _) _) as [a1 r1].
  set (shown := (if bit (mb_dest mb) MODEBUF_DEST_HACK2 then _ else _) ++ _).
  assert (H1 : timed (mc_time ch) (add_out shown mb)).
  { eapply timed_out; [reflexivity|exact H|]. unfold shown, to_servers. rewrite !omap_app.
    by destruct (bit _ MODEBUF_DEST_HACK2), (bit _ MODEBUF_DEST_HACK3), (bit _ MODEBUF_DEST_HACK4), (bit _ MODEBUF_DEST_LOG), (bit _ MODEBUF_DEST_CHANNEL). }
  destruct (negb (bit _ MODEBUF_DEST_SERVER)); [by intros [= <-]|]. destruct (build_args (server_arg _ _ _) _) as [a2 r2].
  case_match; [done|]. intros [= <-]. eapply (timed_out _ (add_out shown mb)); [reflexivity|exact H1|].
  unfold to_servers. cbn [omap list_omap]. repeat (case_match; simplify_eq/=); done.
Qed.

Lemma flush_timed n all : forall ch mb ch' mb', settled_joins ch -> timed (mc_time ch) mb ->
  modebuf_flush_int cli_name NumNick n all ch mb = Some (ch', mb') -> timed (mc_time ch) mb'.
Proof using Type.
  induction n as [|n IH]; intros ch mb ch' mb' Hs H; [done|]. cbn [modebuf_flush_int]. destruct (_ && _); [by intros [= _ <-]|].
  rewrite adjust_none by done. destruct (flush_lines cli_name NumNick ch mb) as [mb1|] eqn:Hf; cbn [mbind option_bind]; [|done].
  apply flush_lines_timed in Hf; [|done]. destruct (_ && _); [|by intros [= _ <-]]. by apply IH.
Qed.
End times.

(** Two servers: [src] is the user on its own, [src'] the user as the other
    knows it, and the numerics of the members mean the same on both. *)
Record network (E E' : mode_env) (src src' : msource) (ch : mchan) : Prop := {
  nw_local : s_my src = true /\ s_cserver src = false;
  nw_remote : s_my src' = false /\ s_cserver src' = true;
  nw_same : s_client src' = s_client src;
  nw_numeric : NumNick E' = NumNick E;
  nw_find : forall c, on_chan ch c -> length (NumNick E c) = 5%nat /\ find_n_user E' (NumNick E c) = Some c;
  nw_word : forall c, on_chan ch c -> word_ok (NumNick E c);
  nw_nick : forall c, on_chan ch c -> (length (cli_name E c) <= 30)%nat /\ (length (cli_name E' c) <= 30)%nat
}.

(** A channel that is not local, without hidden members, and of which the user
    is an operator. *)
Record open_chan (src : msource) (ch : mchan) : Prop := {
  oc_ok : chan_ok ch;
  oc_name : (deref (mc_name ch) =c "&") = false;
  oc_time : 0 <= mc_time ch < 2 ^ 31;
  oc_op : is_chanop src ch = true;
  oc_hidden : Forall (fun m => IsDelayedJoin m = false) (mc_members ch);
  oc_was : bit (mode (mc_mode ch)) MODE_WASDELJOINS = false
}.

(** Letters without bans and passwords, with at most five arguments, each of
    which is for a letter. *)
Record short_line (s : cstring) (args : list cstring) : Prop := {
  sl_letters : Forall (fun c => user_letter c = true) s;
  sl_args : (length args <= 5)%nat /\ (length args <= taken s true)%nat;
  sl_levels : Forall level_ok args
}.

Section sync.
Context (E E' : mode_env) (src src' : msource) (ch : mchan) (me : Membership).
Context (Hnw : network E E' src src' ch) (Hoc : open_chan src ch) (Hme : find_mem (s_client src) ch = Some me).
Notation NN := (NumNick E).
Notation L := (oplevel me).

Lemma set_ok : bit MODE_PARSE_SET MODE_PARSE_SET = true /\ bit MODE_PARSE_SET MODE_PARSE_BURST = false /\ bit MODE_PARSE_SET MODE_PARSE_BOUNCE = false /\
  bit MODE_PARSE_SET MODE_PARSE_WIPEOUT = false /\ bit MODE_PARSE_SET (Z.lor MODE_PARSE_NOTOPER MODE_PARSE_NOTMEMBER) = false.
Proof using Type. done. Qed.

Lemma my_status : bit (status me) MODE_CHANOP = true /\ 0 <= L <= MAXOPLEVEL.
Proof using Hoc Hme.
  split.
  - pose proof (oc_op _ _ Hoc) as H. unfold is_chanop in H. by rewrite Hme in H.
  - pose proof (ok_levels _ (oc_ok _ _ Hoc)) as H. rewrite Forall_forall in H. apply H. by apply find_mem_in in Hme as [? _].
Qed.

(** What the user's letters come to. *)
Lemma user_words s args : short_line s args ->
  exists st lim kd ka l,
    mode_words E src (S (length args)) s (parse_init (Some (modebuf_init (s_client src) ch to_all)) ch MODE_PARSE_SET true args) = Some (st, false) /\
    reading src MODE_PARSE_SET ch (length args) lim kd ka l st.
Proof using All.
  intros [Hlet [Hlen Htk] Hlv]. set (st0 := parse_init _ _ _ _ _). destruct (nw_local _ _ _ _ _ Hnw) as [Hmy Hcs].
  assert (Hinit : user_reads src MODE_PARSE_SET ch (length args) st0).
  { split; [|split; [done|cbn [st0 parse_init p_args p_max]; unfold MAXMODEPARAMS; lia]]. exists None, None, None, []. constructor; try done.
    - cbn [st0 parse_init p_chan]. destruct ch as [? ? m ? ? ? ?]. by destruct m.
    - split; constructor. }
  rewrite mode_words_eq.
  destruct (user_chars E src MODE_PARSE_SET ch me set_ok eq_refl Hmy Hcs Hme (proj1 (proj2 my_status)) (length args) Hlen s st0 Hinit Hlet) as (st1 & Hs & [(lim & kd & ka & l & Hr) _] & Ha).
  change (length (p_args st0)) with (length args) in Ha. change (p_dir st0) with true in Ha.
  exists st1, lim, kd, ka, l. split; [|done].
  destruct s as [|c s]; [by injection Hs as ->|]. rewrite Hs. cbn [mbind option_bind].
  rewrite (reading_flag _ _ _ _ _ _ _ _ _ _ Hr). change (bit MODE_PARSE_SET MODE_PARSE_BURST) with false.
  destruct (p_args st1) as [|a k]; [done|cbn [length] in Ha; lia].
Qed.
End sync.

Lemma plain_nil x : plain x = [] -> within x -> x = 0.
Proof. intros H Hx. rewrite <- (lors_within x Hx). unfold plain in H. by rewrite H. Qed.

Lemma ldiff_same t m : Z.ldiff t m = 0 -> Z.ldiff m t = 0 -> t = m.
Proof.
  intros H1 H2. apply testbit_ext. intros k Hk. apply (f_equal (fun z => Z.testbit z k)) in H1, H2.
  rewrite Z.ldiff_spec, Z.bits_0 in H1, H2. by destruct (Z.testbit t k), (Z.testbit m k).
Qed.

Lemma lk_was lim kd ka ch : bit (mode (mc_mode ch)) MODE_WASDELJOINS = false ->
  bit (mode (mc_mode (with_mc_mode (lk_mode lim kd ka (mc_mode ch)) ch))) MODE_WASDELJOINS = false.
Proof.
  intros H. cbn [with_mc_mode mc_mode lk_mode mode]. destruct lim as [[n|]|]; [by rewrite bit_or, H| |done].
  rewrite bit_diff, H; [done|a_bit 22].
Qed.

Lemma simple_word t c : mode (mc_mode (simple_chan t c)) = t.
Proof. unfold simple_chan. by destruct (_ && _). Qed.
Lemma simple_time t c : mc_time (simple_chan t c) = mc_time c.
Proof. unfold simple_chan. by destruct (_ && _). Qed.

Section outcome.
Context (E : mode_env) (src : msource) (ch : mchan) (me : Membership).
Notation NN := (NumNick E).
Notation L := (oplevel me).
Implicit Types (l : list modearg).

(** Modes that make no letter are no change. *)
Lemma no_letters lim kd ka l t X mb : line_change ch lim kd ka l X ->
  let c := with_mc_mode (lk_mode lim kd ka (mc_mode ch)) ch in let m := mode (mc_mode c) in
  flagged (Z.ldiff t m) (Z.ldiff m t) lim mb ->
  rems_of NN (mb_add mb) (mb_rem mb) (l ++ map xarg X) ++ adds_to NN (mb_add mb) (mb_rem mb) (l ++ map xarg X) = [] ->
  upd_members (applied L X) (simple_chan t c) = ch /\ mb_add mb = 0 /\ mb_rem mb = 0 /\ l ++ map xarg X = [].
Proof using Type.
  intros Hl c m Hf Hnil. apply app_eq_nil in Hnil as [H1 H2].
  assert (Hdis : Z.land (Z.ldiff t m) (Z.ldiff m t) = 0).
  { apply testbit_ext. intros k Hk. rewrite Z.land_spec, !Z.ldiff_spec, Z.bits_0. by destruct (Z.testbit t k), (Z.testbit m k). }
  destruct (line_parts E _ _ lim mb l X Hf (fl_a _ _ _ _ Hf) (fl_r _ _ _ _ Hf) Hdis) as (L1 & L2 & _). rewrite H1 in L1. rewrite H2 in L2.
  symmetry in L1, L2. apply app_eq_nil in L1 as [Lr L1]. apply app_eq_nil in L1 as [Ll L1]. apply app_eq_nil in L2 as [La L2].
  apply map_eq_nil in Lr, La, L1, L2. apply app_eq_nil in L1 as [Ld LX1], L2 as [Lad LX2]. apply map_eq_nil in LX1, LX2.
  apply plain_nil in Lr; [|by destruct Hf]. apply plain_nil in La; [|by destruct Hf].
  assert (HX : X = []).
  { apply Permutation_nil. symmetry. etrans; [apply (split_perm adding X)|]. unfold dels, adds in *. by rewrite LX1, LX2. }
  assert (Hl0 : l = []).
  { apply Permutation_nil. symmetry. etrans; [apply (split_perm is_add l)|]. unfold dels_of, adds_of in *. by rewrite Ld, Lad. }
  destruct Hl as [K1 K2 _ _ _ _ _]. rewrite Ld in K1. rewrite Lad in K2. apply Permutation_nil in K2. apply app_eq_nil in K2 as [K2 K3].
  assert (kd = None) as -> by (by destruct kd). assert (ka = None) as -> by (by destruct ka).
  assert (lim = None) as -> by (by destruct lim as [[n|]|]).
  assert (Hc : c = ch) by (unfold c; destruct ch as [? ? md ? ? ? ?]; by destruct md).
  assert (t = m) as -> by (by apply ldiff_same). split_and!.
  - rewrite HX. unfold m. rewrite Hc. unfold simple_chan. rewrite andb_negb_r. unfold applied. cbn [fold_left]. unfold upd_members. rewrite map_id.
    destruct ch as [? ? md ? ? ? ?]. by destruct md.
  - by apply (fl_add _ _ _ _ Hf).
  - by apply (fl_rem _ _ _ _ Hf).
  - by rewrite HX, Hl0.
Qed.
End outcome.

Lemma lk_bit lim kd ka m f : one_bit f -> bit MODE_LIMIT f = false -> bit (mode (lk_mode lim kd ka m)) f = bit (mode m) f.
Proof. intros H1 H2. destruct lim as [[n|]|]; cbn [lk_mode mode]; [by rewrite bit_or, H2, orb_false_r|by rewrite bit_diff, H2, andb_true_r|done]. Qed.

(** A word that is not both private and secret has fifteen letters at most. *)
Lemma plain_length x : bit x MODE_PRIVATE && bit x MODE_SECRET = false -> (length (plain x) <= 15)%nat.
Proof.
  intros H. unfold plain. change plain_table with ((MODE_PRIVATE, "p"%char) :: (MODE_SECRET, "s"%char) :: drop 2 plain_table). cbn [List.filter fst].
  assert (Hr : (length (List.filter (fun f => bit x (fst f)) (drop 2 plain_table)) <= 14)%nat).
  { etrans; [apply List.filter_length_le|]. done. }
  destruct (bit x MODE_PRIVATE), (bit x MODE_SECRET); cbn [length]; done || lia.
Qed.

Lemma diff_both x y : bit x MODE_PRIVATE && bit x MODE_SECRET = false -> bit (Z.ldiff x y) MODE_PRIVATE && bit (Z.ldiff x y) MODE_SECRET = false.
Proof. intros H. rewrite !bit_diff by (apply one_private || apply one_secret). by destruct (bit x MODE_PRIVATE), (bit x MODE_SECRET), (bit y MODE_PRIVATE). Qed.

Lemma few_letters lim t m mb u : bit t MODE_PRIVATE && bit t MODE_SECRET = false -> bit m MODE_PRIVATE && bit m MODE_SECRET = false ->
  flagged (Z.ldiff t m) (Z.ldiff m t) lim mb -> (length u <= 3)%nat -> letters_fit (mb_add mb) (mb_rem mb) u.
Proof.
  intros Ht Hm Hf Hu. assert (Hdis : Z.land (Z.ldiff t m) (Z.ldiff m t) = 0).
  { apply testbit_ext. intros k Hk. rewrite Z.land_spec, !Z.ldiff_spec, Z.bits_0. by destruct (Z.testbit t k), (Z.testbit m k). }
  pose proof (flagged_letters _ _ lim mb Hf (fl_a _ _ _ _ Hf) (fl_r _ _ _ _ Hf) Hdis) as H. unfold letters_fit, simple_changes. rewrite !length_map, H. cbn [fst snd].
  pose proof (plain_length _ (diff_both _ m Ht)). pose proof (plain_length _ (diff_both _ t Hm)). rewrite !length_app, !length_map.
  assert (length (limit_letter lim) <= 1)%nat by (destruct lim as [[n|]|]; cbn; lia).
  unfold adds_of, dels_of. pose proof (List.filter_length_le is_add u). pose proof (List.filter_length_le (fun m => negb (is_add m)) u). lia.
Qed.

Section result.
Context (E E' : mode_env) (src src' : msource) (ch : mchan) (me : Membership).
Context (Hnw : network E E' src src' ch) (Hoc : open_chan src ch) (Hme : find_mem (s_client src) ch = Some me).
Notation NN := (NumNick E).
Notation L := (oplevel me).

(** What is left to do when the line of the user has been read. *)
Lemma user_result priv s args : short_line s args ->
  exists lim kd ka l t X mb rep,
    let c := with_mc_mode (lk_mode lim kd ka (mc_mode ch)) ch in let m := mode (mc_mode c) in
    m_mode E src priv (s :: args) ch =
      ('(ch', mb') ← modebuf_flush (cli_name E) NN (upd_members (applied L X) (simple_chan t c)) mb; Some (ch', mb_out mb', rep)) /\
    mb_modeargs mb = l ++ map xarg X /\ mb_dest mb = to_all /\ mb_out mb = [] /\
    line_change ch lim kd ka l X /\ (length l + length X <= length args)%nat /\ Forall (effective ch) X /\
    flagged (Z.ldiff t m) (Z.ldiff m t) lim mb /\ bit t MODE_PRIVATE && bit t MODE_SECRET = false.
Proof using All.
  intros Hsl. destruct (my_status src ch me Hoc Hme) as [Hst Hlv].
  destruct (user_words E E' src src' ch me Hnw Hoc Hme s args Hsl) as (st & lim & kd & ka & l & Hw & Hr).
  pose proof (r_count _ _ _ _ _ _ _ _ _ Hr) as Hcnt. pose proof (proj1 (sl_args _ _ Hsl)) as Hlen.
  destruct (user_finish E src MODE_PARSE_SET ch _ me set_ok Hme Hst Hlv (oc_hidden _ _ Hoc) lim kd ka l st Hr ltac:(lia)) as (st2 & X & Hap & (Hc2 & a & r & Hb2 & Hf2) & Hsub & HX & Heff).
  assert (Hsound : sound ch st) by (eapply sound_words; [|exact Hw]; by destruct Hoc).
  exists lim, kd, ka, l, (new_word st), X, (with_args (l ++ map xarg X) (Modebuf.with_flags a r (lk_buf src ch lim l))), (p_out st2). cbv zeta.
  apply sublist_length in Hsub. split_and!; try done.
  - unfold m_mode. rewrite (oc_op _ _ Hoc). assert (is_member src ch = true) as -> by (apply bool_decide_eq_true; by exists me).
    unfold run_mode, mode_parse. rewrite Hw. cbn [mbind option_bind]. rewrite Hap. cbn [mbind option_bind]. rewrite Hb2. cbn [mbind option_bind].
    by rewrite Hc2.
  - cbn. unfold modebuf_init. by rewrite (oc_name _ _ Hoc).
  - destruct Hr. constructor; try done. lia.
  - lia.
  - destruct Hf2. by constructor.
  - pose proof (ok_bits _ (so_chan _ _ (sound_apply E src ch st st2 Hsound Hap))) as [H _]. rewrite Hc2 in H.
    set (t := new_word st) in *. set (c := with_mc_mode _ _) in *.
    change (bit (mode (mc_mode (simple_chan t c))) MODE_PRIVATE && bit (mode (mc_mode (simple_chan t c))) MODE_SECRET = false) in H. by rewrite simple_word in H.
Qed.
End result.

(** C3: the servers agree on the modes of a channel.  A user who is an operator
    of a channel changes its modes, with a line of letters, in any order and
    repeated as they may be, and of arguments - limits, keys, operators,
    voices - that may be wrong, refused or without effect.  The line has no
    ban and no password, at most five arguments, each of them for a letter
    that takes one, and no level above 998 is written in it, for a level of
    999 is not sent (see [modebuf_flush_int]); the channel is well formed, not
    local, and has no hidden member; both servers know the members by the same
    numerics of five characters and by nicks of at most 30.  Then, whatever the
    user's server makes of the line, a server with the same channel that
    receives the lines it sends ends with the same channel: the same modes,
    limit, key and invitations, and the same status and level of every
    member.  With three arguments at most the user's server always gets to the
    end; with more there may be more letters than the buffers of a line
    hold. *)
Theorem mode_sync E E' src src' ch priv s args :
  network E E' src src' ch -> open_chan src ch -> short_line s args ->
  ((length args <= 3)%nat -> is_Some (m_mode E src priv (s :: args) ch)) /\
  forall ch' outs rep, m_mode E src priv (s :: args) ch = Some (ch', outs, rep) -> receive E' src' (to_servers outs) ch = Some ch'.
Proof.
  intros Hnw Hoc Hsl. pose proof (oc_op _ _ Hoc) as Hop.
  assert (Hex : exists me, find_mem (s_client src) ch = Some me).
  { unfold is_chanop in Hop. destruct (find_mem (s_client src) ch) as [me|]; [by exists me|done]. }
  destruct Hex as [me Hme]. destruct (my_status src ch me Hoc Hme) as [Hst Hlv].
  destruct (user_result E E' src src' ch me Hnw Hoc Hme priv s args Hsl) as (lim & kd & ka & l & t & X & mb & rep0 & Hrun & Hargs & Hdest & Hout & Hline & Hcnt & Heff & Hf & Hps).
  destruct Hnw as [_ [Hmy' Hcs'] Hsame Hnn Hfind Hword Hnick]. set (c := with_mc_mode _ ch) in *. set (fin := upd_members _ _) in *.
  destruct (line_args (cli_name E) (NumNick E) to_all ch Hword (fun c Hc => proj1 (Hnick c Hc)) eq_refl lim kd ka l X Hline Heff) as (Hfine & Hone & Hlen).
  destruct (line_args (cli_name E') (NumNick E) to_all ch Hword (fun c Hc => proj2 (Hnick c Hc)) eq_refl lim kd ka l X Hline Heff) as (Hfine' & _ & _).
  assert (Harg : Forall (arg_ok (NumNick E)) (l ++ map xarg X)) by (eapply Forall_impl; [exact Hfine|by intros ? []]).
  rewrite Hrun. rewrite <- Hargs in Hfine, Hfine', Hone, Hlen, Harg. split.
  - intros Hfew. destruct (flush_int_spec (cli_name E) (NumNick E) flush_fuel fin mb) as (ch' & mb' & _ & Hfl & _).
    + constructor; try done; [by rewrite Hdest; split_and!|by eapply flagged_limit, fl_a| |].
      * apply (few_letters lim t (mode (mc_mode c))); [done| |done|rewrite Hargs, length_app, length_map; lia].
        destruct (ok_bits _ (oc_ok _ _ Hoc)) as [H _]. unfold c. cbn [with_mc_mode mc_mode]. by rewrite !lk_bit by (apply one_private || apply one_secret || done).
      * rewrite Hdest. eapply Forall_impl; [exact Hfine|]. intros m [_ H]. lia.
    + unfold flush_fuel. lia.
    + unfold modebuf_flush. rewrite Hfl. by eexists.
  - intros ch' outs rep. destruct (modebuf_flush _ _ _ _) as [[ch4 mb4]|] eqn:Hfl; cbn [mbind option_bind]; [|done]. intros [= <- <- _].
    assert (Hset : settled_joins fin).
    { apply settled_after; [apply Hoc|destruct Hline as [_ _ _ _ _ [_ HX] _]; eapply Forall_impl; [exact HX|]; by intros y [Hy _]|].
      apply (was_kept t (mode (mc_mode c))); [|apply (fl_a _ _ _ _ Hf)]. apply lk_was, Hoc. }
    assert (Hsent : to_servers (mb_out mb4) = map (fun s => words " " s ++ [decimal (mc_time ch)]) (server_lines mb4)).
    { change (mc_time ch) with (mc_time c). rewrite <- (simple_time t c).
      apply (flush_timed (cli_name E) (NumNick E) flush_fuel true fin mb ch4 mb4 Hset); [|exact Hfl]. unfold timed, server_lines. by rewrite Hout. }
    rewrite Hsent.
    destruct (flush_line (cli_name E) (NumNick E) fin mb ch4 mb4 Hset) as [-> Hlines]; try done.
    { rewrite Hdest. by split_and!. }
    { rewrite Hdest. eapply Forall_impl; [exact Hfine|by intros ? []]. }
    rewrite Hargs in Hlines. destruct (decide (rems_of (NumNick E) (mb_add mb) (mb_rem mb) (l ++ map xarg X) ++ adds_to (NumNick E) (mb_add mb) (mb_rem mb) (l ++ map xarg X) = [])) as [Hnil|Hnil].
    + destruct (no_letters E ch me lim kd ka l t X _ Hline Hf Hnil) as (Hsamech & Ha & Hrm & Hu). fold c in Hsamech. fold fin in Hsamech.
      assert (mb4 = mb) as ->.
      { revert Hfl. unfold modebuf_flush. change flush_fuel with (S 7). generalize 7%nat. intros n. cbn [modebuf_flush_int].
        rewrite Ha, Hrm, Hargs, Hu. by intros [= <-]. }
      unfold server_lines. rewrite Hout. cbn. by rewrite Hsamech.
    + destruct Hlines as [(Ha & Hrm & Hu & _)|[Hlet Hlines]]; [by rewrite Ha, Hrm, Hu in Hnil|]. rewrite Hlines. cbn [map receive].
      rewrite Hargs in Hone, Harg, Hfine'.
      destruct (remote_applies E' src' ch me Hmy' Hcs') with (lim := lim) (kd := kd) (ka := ka) (l := l) (t := t) (X := X)
        (mb := mb) (uw := false) as (outs' & rep' & Hms); rewrite ?Hnn, ?Hsame; try done; try apply Hoc.
      * apply (fl_a _ _ _ _ Hf).
      * apply (fl_r _ _ _ _ Hf).
      * eapply Forall_impl; [exact Hfine'|]. intros m [_ H]. lia.
      * rewrite Hnn in Hms. by rewrite Hms.
Qed.

(** ** Examples *)
Lemma ex_members c : on_chan ex_chan c -> c = 1%positive \/ c = 2%positive \/ c = 3%positive.
Proof.
  intros [m Hm]. apply find_mem_in in Hm as [Hin <-]. unfold ex_chan in Hin. cbn [mc_members] in Hin. rewrite !elem_of_cons in Hin.
  destruct Hin as [->|[->|[->|Hin]]]; [auto..|by apply not_elem_of_nil in Hin].
Qed.

Lemma ex_network : network ex_env ex_env (ex_src true 1) (ex_src false 1) ex_chan.
Proof.
  assert (Hc : forall P : positive -> Prop, P 1%positive -> P 2%positive -> P 3%positive -> forall c, on_chan ex_chan c -> P c).
  { intros P H1 H2 H3 c Hc. by destruct (ex_members c Hc) as [->|[->| ->]]. }
  constructor; try done; (apply Hc; [..]); try done; try (cbn; lia).
  all: split; [done|]; apply Forall_forall; intros x Hx; cbn in Hx; rewrite !elem_of_cons in Hx;
    repeat (destruct Hx as [->|Hx]; [done|]); by apply not_elem_of_nil in Hx.
Qed.

Lemma ex_open : open_chan (ex_src true 1) ex_chan.
Proof. constructor; [apply ex_chan_typed|done|cbn; lia|done|by repeat (apply Forall_cons_2; [done|])|done]. Qed.

Lemma ex_short : short_line (str "+pmlko-v") (map str ["10"; "key"; "ann"; "bob"]%string).
Proof.
  constructor.
  - by repeat (apply Forall_cons_2; [done|]).
  - split; apply Nat.leb_le; reflexivity.
  - by repeat (apply Forall_cons_2; [done|]).
Qed.

Lemma mode_sync_witness :
  exists outs rep, m_mode ex_env (ex_src true 1) false (str "+pmlko-v" :: map str ["10"; "key"; "ann"; "bob"]%string) ex_chan = Some (ex_after, outs, rep) /\
    receive ex_env (ex_src false 1) (to_servers outs) ex_chan = Some ex_after.
Proof.
  destruct m_mode_example as (outs & rep & H). exists outs, rep. split; [exact H|].
  exact (proj2 (mode_sync ex_env ex_env (ex_src true 1) (ex_src false 1) ex_chan false _ _ ex_network ex_open ex_short) ex_after outs rep H).
Defined.
