(* ===== verification/Dns.v ===== *)
(** * Names in DNS messages ([ircd_reslib.c])

    A name in a message is a sequence of labels, each with its length before
    it, ended by an empty label or by a pointer to the rest of the name, which
    is elsewhere in the message.  [irc_ns_name_unpack] follows the pointers and
    [irc_ns_name_pack] makes them; [irc_ns_name_ntop] and [irc_ns_name_pton]
    convert between labels and text.

    A message is the list of the bytes of its buffer, of which the first [eom]
    are the message; a pointer into it is an index.  The outer [option] of a
    result is a read or a write outside of a buffer, the inner one the result
    -1. *)
From S2P Require Import Prelude Chattr Strings IpText Ddb DdbFile.
From stdpp Require Import options.
Local Open Scope Z_scope.
Local Open Scope ircd_scope.

Definition NS_CMPRSFLGS : Z := 0xc0.
Definition NS_TYPE_ELT : Z := 0x40.
Definition DNS_LABELTYPE_BITSTRING : Z := 0x41.
Definition NS_MAXCDNAME : nat := 255.

Definition flags (c : ascii) : Z := Z.land (code c) NS_CMPRSFLGS.
Definition byte_len (c : ascii) : nat := Z.to_nat (code c).

Definition special (c : ascii) : bool :=
  bool_decide (code c ∈ [0x22; 0x2E; 0x3B; 0x5C; 0x28; 0x29; 0x40; 0x24]).
Definition printable (c : ascii) : bool := (0x20 <? code c) && (code c <? 0x7f).
Definition mklower (c : ascii) : ascii := if (0x41 <=? code c) && (code c <=? 0x5A) then chr (code c + 0x20) else c.

(** The length of a label; a bit string has its number of bits in the byte
    after its type. *)
Definition labellen (buf : list ascii) (lp : nat) : option (option nat) :=
  l ← buf !! lp;
  if flags l =? NS_CMPRSFLGS then Some None
  else if flags l =? NS_TYPE_ELT then
    if code l =? DNS_LABELTYPE_BITSTRING then
      b ← buf !! S lp;
      let bitlen := if code b =? 0 then 256 else code b in
      Some (Some (Z.to_nat ((bitlen + 7) / 8 + 1)))
    else Some None
  else Some (Some (byte_len l)).

(** [n] bytes from [p], all of them in the buffer. *)
Definition bytes (buf : list ascii) (p n : nat) : option (list ascii) :=
  if (p + n <=? length buf)%nat then Some (take n (drop p buf)) else None.

(** *** Unpacking *)
Definition target (n b : ascii) : nat := Z.to_nat (Z.lor (Z.shiftl (Z.land (code n) 0x3f) 8) (code b)).

Fixpoint unpack_loop (fuel : nat) (buf : list ascii) (eom src dstsiz srcp : nat) (dst : list ascii) (len : option nat) (checked : nat)
  : option (option (nat * list ascii)) :=
  match fuel with
  | O => None
  | S fuel =>
      n ← buf !! srcp;
      let srcp' := S srcp in
      if code n =? 0 then
        if (dstsiz <=? length dst)%nat then None
        else Some (Some (match len with Some l => l | None => srcp' - src end, dst ++ [NUL])%nat)
      else if (flags n =? 0) || (flags n =? NS_TYPE_ELT) then
        l ← labellen buf srcp;
        match l with
        | None => Some None
        | Some l =>
            if (dstsiz <=? length dst + l + 1)%nat || (eom <=? srcp' + l)%nat then Some None
            else
              s ← bytes buf srcp' l;
              unpack_loop fuel buf eom src dstsiz (srcp' + l) (dst ++ n :: s) len (checked + (l + 1))
        end
      else if flags n =? NS_CMPRSFLGS then
        if (eom <=? srcp')%nat then Some None
        else
          b ← buf !! srcp';
          let len := match len with Some l => Some l | None => Some (srcp' - src + 1)%nat end in
          if (eom <=? target n b)%nat then Some None
          else if (eom <=? checked + 2)%nat then Some None
          else unpack_loop fuel buf eom src dstsiz (target n b) dst len (checked + 2)
      else Some None
  end.

(** Each round writes a byte or counts two of the message. *)
Definition unpack_fuel (eom dstsiz : nat) : nat := S (S (eom + dstsiz)).

Definition irc_ns_name_unpack (buf : list ascii) (eom src dstsiz : nat) : option (option (nat * list ascii)) :=
  if (eom <=? src)%nat then Some None
  else unpack_loop (unpack_fuel eom dstsiz) buf eom src dstsiz src [] None 0.

(** *** Text *)
Definition escape (c : ascii) : list ascii :=
  if special c then ["\"%char; c]
  else if negb (printable c) then
    ["\"%char; chr (48 + code c / 100); chr (48 + (code c mod 100) / 10); chr (48 + code c mod 10)]
  else [c].

(** The characters of a label, as long as there is room. *)
Fixpoint put_chars (dstsiz : nat) (l : list ascii) (dn : list ascii) : option (list ascii) :=
  match l with
  | [] => Some dn
  | c :: l => if (dstsiz <=? length dn + (length (escape c) - 1))%nat then None else put_chars dstsiz l (dn ++ escape c)
  end.

(** [%02x] and [%1x]: at least [n] digits. *)
Fixpoint hex_digits (n : nat) (v : Z) (acc : list ascii) : list ascii :=
  match n with
  | O => acc
  | S n => let acc := hexdigit (v mod 16) :: acc in if v <? 16 then acc else hex_digits n (v / 16) acc
  end.
Definition print_hex (n : nat) (v : Z) : list ascii :=
  let s := hex_digits 8 v [] in repeat "0"%char (n - length s) ++ s.

(** The bits of a label, from its first byte on: the whole bytes, then what is
    left of the last; [tc] is a [char], so it may be negative. *)
Definition schar (c : ascii) : Z := if code c <? 128 then code c else code c - 256.

Fixpoint bit_text (fuel : nat) (b : Z) (cp : list ascii) : option (list ascii * list ascii) :=
  match fuel with
  | O => None
  | S fuel =>
      if 7 <? b then
        match cp with
        | [] => None
        | c :: cp => '(s, cp) ← bit_text fuel (b - 8) cp; Some (print_hex 2 (code c) ++ s, cp)
        end
      else if b <=? 0 then Some ([], cp)
      else match cp with
           | [] => None
           | tc :: cp =>
               if 4 <? b then Some (print_hex 2 (Z.land (schar tc) (Z.shiftl 0xff (8 - b))), cp)
               else Some (print_hex 1 (Z.land (Z.land (Z.shiftr (schar tc) 4) 0x0f) (Z.shiftl 0x0f (4 - b))), cp)
           end
  end.

(** The inner [None] is that there is no room for [room] characters. *)
Definition irc_decode_bitstring (cp : list ascii) (room : nat) : option (option (list ascii * list ascii)) :=
  match cp with
  | [] => None
  | c :: cp =>
      let blen := if code c =? 0 then 256 else code c in
      let plen := (blen + 3) / 4 + 6 + (if 99 <? blen then 3 else if 9 <? blen then 2 else 1) in
      if Z.of_nat room <=? plen then Some None
      else '(s, cp) ← bit_text 33 blen cp; Some (Some (str "\[x" ++ s ++ str "/" ++ decimal blen ++ str "]", cp))
  end.

Fixpoint ntop_loop (fuel : nat) (dstsiz : nat) (cp dn : list ascii) : option (option (list ascii)) :=
  match fuel with
  | O => None
  | S fuel =>
      match cp with
      | [] => None
      | n :: cp' =>
          if code n =? 0 then Some (Some dn)
          else if flags n =? NS_CMPRSFLGS then Some None
          else if bool_decide (dn <> []) && (dstsiz <=? length dn)%nat then Some None
          else
            let dn := match dn with [] => [] | _ => dn ++ ["."%char] end in
            l ← labellen cp 0;
            match l with
            | None => Some None
            | Some l =>
                if (dstsiz <=? length dn + l)%nat then Some None
                else if flags n =? NS_TYPE_ELT then
                  if negb (code n =? DNS_LABELTYPE_BITSTRING) then Some None
                  else
                    r ← irc_decode_bitstring cp' (dstsiz - length dn);
                    match r with
                    | None => Some None
                    | Some (s, cp') => ntop_loop fuel dstsiz cp' (dn ++ s)
                    end
                else
                  s ← bytes cp' 0 l;
                  match put_chars dstsiz s dn with
                  | None => Some None
                  | Some dn => ntop_loop fuel dstsiz (drop l cp') dn
                  end
            end
      end
  end.

(** The text, without its NUL, and the number of bytes written. *)
Definition irc_ns_name_ntop (src : list ascii) (dstsiz : nat) : option (option (list ascii)) :=
  r ← ntop_loop (S (length src)) dstsiz src [];
  match r with
  | None => Some None
  | Some dn =>
      if bool_decide (dn = []) && (dstsiz <=? 0)%nat then Some None
      else
        let dn := match dn with [] => ["."%char] | _ => dn end in
        if (dstsiz <=? length dn)%nat then Some None else Some (Some dn)
  end.

Definition irc_ns_name_uncompress (buf : list ascii) (eom src dstsiz : nat) : option (option (nat * list ascii)) :=
  r ← irc_ns_name_unpack buf eom src NS_MAXCDNAME;
  match r : option (nat * list ascii) with
  | None => Some None
  | Some (n, tmp) =>
      t ← irc_ns_name_ntop tmp dstsiz;
      Some (match t : option (list ascii) with Some t => Some (n, t) | None => None end)
  end.

(** The root is the empty text. *)
Definition irc_dn_expand (buf : list ascii) (eom src dstsiz : nat) : option (option (nat * list ascii)) :=
  r ← irc_ns_name_uncompress buf eom src dstsiz;
  Some (match r : option (nat * list ascii) with
        | Some (n, dst) => Some (n, if (0 <? n)%nat && (deref dst =c ".") then [] else dst)
        | None => None
        end).

(** *** Skipping: the index after a name *)
Fixpoint skip_loop (fuel : nat) (buf : list ascii) (eom cp : nat) : option (option nat) :=
  match fuel with
  | O => None
  | S fuel =>
      if (eom <=? cp)%nat then Some (Some cp)
      else
        n ← buf !! cp;
        if code n =? 0 then Some (Some (S cp))
        else if flags n =? 0 then skip_loop fuel buf eom (S cp + byte_len n)
        else if flags n =? NS_TYPE_ELT then
          l ← labellen buf cp;
          match l with None => Some None | Some l => skip_loop fuel buf eom (S cp + l) end
        else if flags n =? NS_CMPRSFLGS then Some (Some (S (S cp)))
        else Some None
  end.

Definition irc_ns_name_skip (buf : list ascii) (eom cp : nat) : option (option nat) :=
  r ← skip_loop (S eom) buf eom cp;
  Some (cp ← r; if (eom <? cp)%nat then None else Some cp).

Definition irc_dn_skipname (buf : list ascii) (eom ptr : nat) : option (option nat) :=
  r ← irc_ns_name_skip buf eom ptr; Some (cp ← r; Some (cp - ptr)%nat).

(** *** From text to labels

    What has been written is [done], the labels that are complete, the byte of
    the length of the label that is being written, and [cur], its bytes. *)
Definition put_here (done cur : list ascii) : nat := (length done + 1 + length cur)%nat.

(** The length of the label, unless it is too long. *)
Definition label_length (cur : list ascii) : option ascii :=
  if Z.land (Z.of_nat (length cur)) NS_CMPRSFLGS =? 0 then Some (chr (Z.of_nat (length cur))) else None.

(** Ending the name after the label [cur], whose length is [c]. *)
Definition end_name (dstsiz : nat) (done cur : list ascii) (c : ascii) : option (list ascii) :=
  if (dstsiz <=? length done)%nat then None
  else if negb (code c =? 0) && (dstsiz <=? put_here done cur)%nat then None
  else
    let dst := done ++ c :: cur ++ (if code c =? 0 then [] else [NUL]) in
    if (NS_MAXCDNAME <? length dst)%nat then None else Some dst.

(** *** Bit strings *)
Record enc_state := {
  en_after : bool;               (* [afterslash] *)
  en_beg : option (list ascii);  (* [beg_blen] *)
  en_value : Z;
  en_count : Z;
  en_tbcount : Z;
  en_data : list ascii           (* written from [*dst + 1] on *)
}.

(** [strtol], cast to [int]. *)
Definition strtol_int (s : list ascii) : Z := i32 (Z.min (2 ^ 63 - 1) (read_digits s 0)).

Fixpoint after_digits (s : list ascii) : list ascii :=
  match s with c :: s' => if IsDigit c then after_digits s' else s | [] => [] end.

(** The checks on the length, and the byte that is stored. *)
Definition bit_length (blen value tbcount : Z) : option Z :=
  let blen :=
    if 0 <? blen then
      if negb (Z.land (blen + 3) (Z.lnot 3) =? tbcount) then None
      else if negb (Z.land (Z.shiftl value (8 - (tbcount - blen))) 0xff =? 0) then None
      else Some blen
    else Some tbcount in
  (fun b => if b =? 256 then 0 else b) <$> blen.

(** The bit string in [cp], up to the bracket; [room] is what is left after
    [*dst + 1].  The result is what is stored and what follows the bracket. *)
Fixpoint enc_loop (room : nat) (cp : list ascii) (st : enc_state) : option (ascii * list ascii * list ascii) :=
  if (room <=? length (en_data st))%nat then None
  else match cp with
  | [] => None
  | c :: cp' =>
      if c =c "]" then
        blen ← (if en_after st then
                  match en_beg st with None => None | Some s => if deref (after_digits s) =c "]" then Some (strtol_int s) else None end
                else Some 0);
        let data := if en_count st =? 0 then en_data st else en_data st ++ [chr (Z.shiftl (en_value st) 4)] in
        if (room <=? length data)%nat then None
        else b ← bit_length blen (en_value st) (en_tbcount st); Some (chr b, data, cp')
      else if c =c "/" then
        enc_loop room cp' {| en_after := true; en_beg := en_beg st; en_value := en_value st; en_count := en_count st;
                             en_tbcount := en_tbcount st; en_data := en_data st |}
      else if en_after st then
        if negb (IsDigit c) then None
        else match en_beg st with
        | Some _ => enc_loop room cp' st
        | None =>
            if c =c "0" then None
            else enc_loop room cp' {| en_after := true; en_beg := Some (c :: cp'); en_value := en_value st; en_count := en_count st;
                                      en_tbcount := en_tbcount st; en_data := en_data st |}
        end
      else
        d ← hexval c;
        let value := i32 (Z.shiftl (en_value st) 4 + d) in
        let tbcount := en_tbcount st + 4 in
        if 256 <? tbcount then None
        else if en_count st + 4 =? 8 then
          enc_loop room cp' {| en_after := false; en_beg := en_beg st; en_value := value; en_count := 0; en_tbcount := tbcount;
                               en_data := en_data st ++ [chr value] |}
        else
          enc_loop room cp' {| en_after := false; en_beg := en_beg st; en_value := value; en_count := en_count st + 4; en_tbcount := tbcount;
                               en_data := en_data st |}
  end.

Definition irc_encode_bitsring (room : nat) (bp : list ascii) : option (ascii * list ascii * list ascii) :=
  match bp with
  | x :: cp =>
      if negb (x =c "x") then None
      else match hexval (deref cp) with
           | None => None
           | Some _ => enc_loop room cp {| en_after := false; en_beg := None; en_value := 0; en_count := 0; en_tbcount := 0; en_data := [] |}
           end
  | [] => None
  end.

(** Three digits after a backslash: the character they are and what follows. *)
Definition digit_of (c : ascii) : option Z := if IsDigit c then Some (code c - 48) else None.

Definition decimal_escape (c : ascii) (src : list ascii) : option (ascii * list ascii) :=
  match digit_of c with
  | None => Some (c, src)
  | Some a =>
      match src with
      | c2 :: c3 :: src =>
          b ← digit_of c2; d ← digit_of c3;
          let n := a * 100 + b * 10 + d in
          if 255 <? n then None else Some (chr n, src)
      | _ => None
      end
  end.

(** The result is [None] for -1, and else whether the name ends with a dot,
    and its labels. *)
Fixpoint pton_loop (fuel dstsiz : nat) (src : list ascii) (escaped : bool) (done cur : list ascii) : option (option (bool * list ascii)) :=
  match fuel with
  | O => None
  | S fuel =>
      let store c src :=
        if (dstsiz <=? put_here done cur)%nat then Some None
        else pton_loop fuel dstsiz src false done (cur ++ [c]) in
      match src with
      | [] =>
          Some (match label_length cur with
                | None => None
                | Some c => (false,.) <$> end_name dstsiz done cur c
                end)
      | c :: src =>
          if escaped then
            if c =c "[" then
              if negb (existsb (fun c => c =c "]") src) then Some None
              else match irc_encode_bitsring (dstsiz - (put_here done cur + 1)) src with
              | None => Some None
              | Some (blen, data, src) =>
                  let done := done ++ chr DNS_LABELTYPE_BITSTRING :: cur ++ blen :: data in
                  match src with
                  | [] => Some ((false,.) <$> end_name dstsiz done [] NUL)
                  | c :: src => if negb (c =c ".") then Some None else pton_loop fuel dstsiz src false done []
                  end
              end
            else match decimal_escape c src with
                 | None => Some None
                 | Some (c, src) => store c src
                 end
          else if c =c "\" then pton_loop fuel dstsiz src true done cur
          else if c =c "." then
            match label_length cur with
            | None => Some None
            | Some l =>
                match src with
                | [] => Some ((true,.) <$> end_name dstsiz done cur l)
                | d :: _ =>
                    if (dstsiz <=? length done)%nat then Some None
                    else if (code l =? 0) || (d =c ".") then Some None
                    else pton_loop fuel dstsiz src false (done ++ l :: cur) []
                end
            end
          else store c src
      end
  end.

Definition irc_ns_name_pton (src : list ascii) (dstsiz : nat) : option (option (bool * list ascii)) :=
  pton_loop (S (length src)) dstsiz src false [] [].
(** *** What a name in a message is *)

(** The labels of a name that is not compressed. *)
Definition label_type (n : ascii) : Prop := code n <> 0 /\ (flags n = 0 \/ flags n = NS_TYPE_ELT).

Inductive wire : list ascii -> Prop :=
| wire_root : wire [NUL]
| wire_label n s w : label_type n -> labellen (n :: s) 0 = Some (Some (length s)) -> wire w -> wire (n :: s ++ w).

Section Messages.
Context (buf : list ascii) (eom : nat).

(** The name at [p], wherever its labels are. *)
Inductive name_at : nat -> list ascii -> Prop :=
| at_root p : buf !! p = Some NUL -> name_at p [NUL]
| at_label p n l s w :
    buf !! p = Some n -> label_type n -> labellen buf p = Some (Some l) -> bytes buf (S p) l = Some s ->
    name_at (S p + l) w -> name_at p (n :: s ++ w)
| at_pointer p n b w :
    buf !! p = Some n -> flags n = NS_CMPRSFLGS -> buf !! S p = Some b -> name_at (target n b) w -> name_at p w.

Lemma code_nul c : code c = 0 -> c = NUL.
Proof. intros H. rewrite <- (chr_code c), H. reflexivity. Qed.

Lemma labellen_bound p l : labellen buf p = Some (Some l) -> (1 <= l)%nat \/ buf !! p = Some NUL.
Proof.
  unfold labellen. destruct (buf !! p) as [c|] eqn:Hc; [cbn|discriminate].
  pose proof (code_range c). destruct (Z.eqb_spec (code c) 0) as [H0|H0]; [right; f_equal; by apply code_nul|].
  repeat case_match; intros; simplify_eq/=; left; unfold byte_len; try lia.
  destruct (buf !! S p) as [b|]; simplify_eq/=. 
  pose proof (code_range b). assert (0 <= ((if code b =? 0 then 256 else code b) + 7) / 8) by (apply Z.div_pos; [case_match|]; lia). lia.
Qed.

Lemma labellen_total p : (S p < length buf)%nat -> exists r, labellen buf p = Some r.
Proof.
  intros H. unfold labellen.
  destruct (lookup_lt_is_Some_2 buf p ltac:(lia)) as [c ->]. destruct (lookup_lt_is_Some_2 buf (S p) H) as [d ->].
  cbn. repeat case_match; eauto.
Qed.

Lemma bytes_length p n s : bytes buf p n = Some s -> length s = n /\ (p + n <= length buf)%nat.
Proof. unfold bytes. case_match; [|discriminate]. intros [= <-]. rewrite length_take, length_drop. apply Nat.leb_le in H. lia. Qed.

Lemma bytes_total p n : (p + n <= length buf)%nat -> exists s, bytes buf p n = Some s.
Proof. intros H. unfold bytes. destruct (Nat.leb_spec (p + n) (length buf)); [eauto|lia]. Qed.

Lemma bytes_lookup p n s i : bytes buf p n = Some s -> (i < n)%nat -> s !! i = buf !! (p + i)%nat.
Proof. unfold bytes. case_match; [|discriminate]. intros [= <-] Hi. rewrite lookup_take_lt by assumption. apply lookup_drop. Qed.

(** The bytes of a label, taken out of the message, are a label. *)
Lemma label_wire p n l s w : buf !! p = Some n -> label_type n -> labellen buf p = Some (Some l) -> bytes buf (S p) l = Some s ->
  wire w -> wire (n :: s ++ w).
Proof.
  intros Hp Ht Hl Hs Hw. pose proof (bytes_length _ _ _ Hs) as [Hls Hle]. constructor; [assumption| |assumption].
  destruct (labellen_bound _ _ Hl) as [Hl1|Hn]; [|rewrite Hp in Hn; injection Hn as ->; destruct Ht as [[] _]; reflexivity].
  revert Hl. unfold labellen. rewrite Hp. change ((n :: s) !! 0%nat) with (Some n). change ((n :: s) !! 1%nat) with (s !! 0%nat).
  assert (s !! 0%nat = buf !! S p) as ->.
  { rewrite (bytes_lookup _ _ _ 0 Hs), Nat.add_0_r by lia. reflexivity. }
  cbn. rewrite Hls. auto.
Qed.

Lemma name_at_wire p w : name_at p w -> wire w.
Proof. induction 1; [constructor| |assumption]. eauto using label_wire. Qed.

Lemma skip_loop_more fuel fuel' cp r : (fuel <= fuel')%nat -> skip_loop fuel buf eom cp = Some r -> skip_loop fuel' buf eom cp = Some r.
Proof.
  revert fuel' cp. induction fuel as [|fuel IH]; intros fuel' cp Hle; [discriminate|]. destruct fuel' as [|fuel']; [lia|]. cbn [skip_loop].
  case_match; [auto|]. destruct (buf !! cp) as [n|]; cbn; [|auto].
  case_match; [auto|]. case_match; [apply IH; lia|]. case_match; [|auto].
  destruct (labellen buf cp) as [[l|]|]; cbn; auto. apply IH; lia.
Qed.

Definition skips (cp e : nat) : Prop := (e <= eom)%nat /\ exists fuel, (fuel <= S (eom - cp))%nat /\ skip_loop fuel buf eom cp = Some (Some e).

Lemma skips_skipname cp e : skips cp e -> (cp <= e)%nat -> irc_dn_skipname buf eom cp = Some (Some (e - cp)%nat).
Proof.
  intros [He (fuel & Hf & Hs)] Hc. unfold irc_dn_skipname, irc_ns_name_skip.
  rewrite (skip_loop_more fuel (S eom) cp _ ltac:(lia) Hs). cbn [mbind option_bind].
  destruct (Nat.ltb_spec eom e); [lia|]. reflexivity.
Qed.

(** What unpacking has to say of the name at [srcp]. *)
Definition unpacked (src dstsiz srcp : nat) (dst : list ascii) (len : option nat) (r : option (nat * list ascii)) : Prop :=
  match r with
  | None => True
  | Some (k, w) =>
      (exists v, w = dst ++ v /\ name_at srcp v) /\ (length w <= dstsiz)%nat /\
      match len with Some l => k = l | None => exists e, skips srcp e /\ (srcp < e)%nat /\ k = (e - src)%nat end
  end.

Lemma flags_cases n : code n <> 0 -> (flags n =? 0) || (flags n =? NS_TYPE_ELT) = true -> label_type n.
Proof. intros Hn [H%Z.eqb_eq|H%Z.eqb_eq]%orb_true_iff; split; auto. Qed.

Lemma skips_label p n l e : buf !! p = Some n -> label_type n -> labellen buf p = Some (Some l) -> (p < eom)%nat -> (1 <= l)%nat ->
  skips (S p + l) e -> skips p e.
Proof.
  intros Hp [Hn Ht] Hl Hlt Hl1 [He (fuel & Hf & Hs)]. split; [assumption|]. exists (S fuel). split; [lia|]. cbn [skip_loop].
  destruct (Nat.leb_spec eom p); [lia|]. rewrite Hp. cbn. destruct (Z.eqb_spec (code n) 0); [contradiction|].
  destruct Ht as [Ht|Ht]; rewrite Ht; cbn.
  - replace (byte_len n) with l; [assumption|]. unfold labellen in Hl. rewrite Hp in Hl. cbn in Hl. rewrite Ht in Hl. cbn in Hl. by injection Hl.
  - rewrite Hl. cbn. assumption.
Qed.

Lemma unpack_loop_ok src dstsiz : (eom < length buf)%nat -> forall fuel srcp dst len checked,
  (src <= srcp \/ is_Some len)%nat -> (srcp < eom)%nat -> (length dst < dstsiz)%nat -> ((eom - checked) + (dstsiz - length dst) < fuel)%nat ->
  exists r, unpack_loop fuel buf eom src dstsiz srcp dst len checked = Some r /\ unpacked src dstsiz srcp dst len r.
Proof.
  intros Hbuf. induction fuel as [|fuel IH]; intros srcp dst len checked Hsrc Hlt Hd Hf; [lia|]. cbn [unpack_loop].
  destruct (lookup_lt_is_Some_2 buf srcp ltac:(lia)) as [n Hn]. rewrite Hn. cbn [mbind option_bind].
  destruct (Z.eqb_spec (code n) 0) as [H0|H0].
  { apply code_nul in H0 as ->. destruct (Nat.leb_spec dstsiz (length dst)); [lia|]. eexists. split; [reflexivity|].
    split; [exists [NUL]; split; [reflexivity|by constructor]|]. split; [rewrite length_app; simpl; lia|].
    destruct len as [l|]; [reflexivity|]. exists (S srcp). repeat split; [lia| |lia]. exists 1%nat. split; [lia|]. cbn [skip_loop].
    destruct (Nat.leb_spec eom srcp); [lia|]. rewrite Hn. reflexivity. }
  destruct ((flags n =? 0) || (flags n =? NS_TYPE_ELT)) eqn:Ht.
  { apply flags_cases in Ht; [|assumption].
    destruct (labellen_total srcp ltac:(lia)) as [[l|] Hl]; rewrite Hl; cbn [mbind option_bind]; [|by eexists].
    destruct (labellen_bound _ _ Hl) as [Hl1|]; [|rewrite Hn in *; simplify_eq; by destruct H0].
    destruct (_ || _) eqn:Hlim; [by eexists|]. apply orb_false_iff in Hlim as [Hl2 Hl3]. apply Nat.leb_gt in Hl2, Hl3.
    destruct (bytes_total (S srcp) l ltac:(lia)) as [s Hs]. rewrite Hs. cbn [mbind option_bind].
    pose proof (bytes_length _ _ _ Hs) as [Hls _].
    assert (length (dst ++ n :: s) = length dst + l + 1)%nat as Hlen by (rewrite length_app; simpl; lia).
    destruct (IH (S srcp + l)%nat (dst ++ n :: s) len (checked + (l + 1))%nat) as (r & Hr & Hok); [destruct Hsrc; [left|right]; [lia|assumption]|lia|lia|lia|].
    exists r. split; [exact Hr|]. destruct r as [[k w]|]; [|exact I]. destruct Hok as ((v & -> & Hv) & Hw & Hk). split; [|split; [exact Hw|]].
    - exists (n :: s ++ v). split; [rewrite <- app_assoc; reflexivity|]. by eapply at_label.
    - destruct len as [l'|]; [exact Hk|]. destruct Hk as (e & He & He2 & ->). exists e. split; [by eapply skips_label|]. lia. }
  destruct (Z.eqb_spec (flags n) NS_CMPRSFLGS) as [Hf'|]; [|by eexists].
  destruct (Nat.leb_spec eom (S srcp)); [by eexists|].
  destruct (lookup_lt_is_Some_2 buf (S srcp) ltac:(lia)) as [b Hb]. rewrite Hb. cbn [mbind option_bind].
  destruct (Nat.leb_spec eom (target n b)); [by eexists|]. destruct (Nat.leb_spec eom (checked + 2)); [by eexists|].
  edestruct (IH (target n b) dst) as (r & Hr & Hok); [right| | | |exists r; split; [exact Hr|]]; [by destruct len|lia|lia|lia|].
  destruct r as [[k w]|]; [|exact I]. destruct Hok as ((v & -> & Hv) & Hw & Hk). split; [|split; [exact Hw|]].
  - exists v. split; [reflexivity|]. by eapply at_pointer.
  - destruct len as [l'|]; [exact Hk|]. exists (S (S srcp)). split; [|split; [lia|]].
    + split; [lia|]. exists 1%nat. split; [lia|]. cbn [skip_loop]. destruct (Nat.leb_spec eom srcp); [lia|]. rewrite Hn. cbn.
      destruct (Z.eqb_spec (code n) 0); [contradiction|]. rewrite Hf'. reflexivity.
    + destruct Hsrc as [|[? ?]]; [lia|discriminate].
Qed.
End Messages.

(** Unpacking returns, whatever the message. *)
Lemma unpack_returns buf eom src dstsiz : (eom < length buf)%nat -> (0 < dstsiz)%nat ->
  exists r, irc_ns_name_unpack buf eom src dstsiz = Some r /\ unpacked buf eom src dstsiz src [] None r.
Proof.
  intros Hb Hd. unfold irc_ns_name_unpack. destruct (Nat.leb_spec eom src); [by eexists|].
  apply (unpack_loop_ok buf eom src dstsiz Hb (unpack_fuel eom dstsiz) src [] None 0);
    [left; lia|lia|simpl; lia|unfold unpack_fuel; simpl; lia].
Qed.

(** C24: whatever a message holds, and whatever its compressed names point to,
    unpacking a name ends, reads nothing after the byte that follows the
    message and writes nothing outside of its buffer; if it does not refuse
    the name, what it writes is a name that fits and is terminated, it is the
    name that is at that place of the message, and the length it returns is
    the one [irc_dn_skipname] skips. *)
Theorem unpack_safe buf eom src dstsiz : (eom < length buf)%nat -> (0 < dstsiz)%nat ->
  exists r, irc_ns_name_unpack buf eom src dstsiz = Some r /\
    match r with
    | None => True
    | Some (n, w) =>
        name_at buf src w /\ wire w /\ (length w <= dstsiz)%nat /\ (src + n <= eom)%nat /\ irc_dn_skipname buf eom src = Some (Some n)
    end.
Proof.
  intros Hb Hd. destruct (unpack_returns buf eom src dstsiz Hb Hd) as (r & Hr & Hok).
  exists r. split; [exact Hr|]. destruct r as [[k w]|]; [|exact I]. destruct Hok as ((v & -> & Hv) & Hw & e & He & He2 & ->).
  simpl in *. split_and!; [exact Hv|by eapply name_at_wire|exact Hw|destruct He; lia|]. by apply skips_skipname; [|lia].
Qed.

(** *** Names without bit strings, and their text *)
Definition label (s : list ascii) : Prop := (1 <= length s <= 63)%nat.

Definition label_bytes (s : list ascii) : list ascii := chr (Z.of_nat (length s)) :: s.
Definition wire_of (ls : list (list ascii)) : list ascii := concat (map label_bytes ls) ++ [NUL].
Definition name (ls : list (list ascii)) : Prop := Forall label ls /\ (length (wire_of ls) <= NS_MAXCDNAME)%nat.

Definition escaped (s : list ascii) : list ascii := concat (map escape s).
Definition dotted (ls : list (list ascii)) : list ascii := concat (map (fun s => "."%char :: escaped s) ls).
Definition text_of (ls : list (list ascii)) : list ascii :=
  match ls with [] => ["."%char] | s :: ls => escaped s ++ dotted ls end.

Lemma escape_cases c :
  (escape c = [c] /\ (c =c "\") = false /\ (c =c ".") = false) \/
  (escape c = ["\"%char; c] /\ (c =c "[") = false /\ digit_of c = None) \/
  (exists a b d, escape c = ["\"%char; a; b; d] /\ (a =c "[") = false /\ forall rest, decimal_escape a (b :: d :: rest) = Some (c, rest)).
Proof.
  destruct c as [[] [] [] [] [] [] [] []];
    first [left; repeat split; reflexivity | right; left; repeat split; reflexivity
          | right; right; do 3 eexists; split; [reflexivity|]; split; [reflexivity|]; intros; reflexivity].
Qed.

Lemma escape_head c : exists d r, escape c = d :: r /\ (d =c ".") = false.
Proof.
  destruct (escape_cases c) as [(-> & _ & H)|[(-> & _)|(a & b & d & -> & _)]]; do 2 eexists; (split; [reflexivity|]); auto.
Qed.

Lemma escape_length c : (1 <= length (escape c))%nat.
Proof. destruct (escape_head c) as (d & r & -> & _). simpl; lia. Qed.

(** The byte before a label. *)
Lemma length_byte n : (n <= 63)%nat -> code (chr (Z.of_nat n)) = Z.of_nat n /\ Z.land (Z.of_nat n) NS_CMPRSFLGS = 0.
Proof.
  intros H. split; [apply code_chr; lia|].
  assert (forallb (fun n => Z.land (Z.of_nat n) NS_CMPRSFLGS =? 0) (seq 0 64) = true) as Hall by (vm_compute; reflexivity).
  rewrite forallb_forall in Hall. apply Z.eqb_eq, Hall, in_seq. lia.
Qed.

Lemma label_byte s : label s -> let n := chr (Z.of_nat (length s)) in code n = Z.of_nat (length s) /\ flags n = 0 /\ byte_len n = length s /\ code n <> 0.
Proof.
  intros [H1 H2] n. destruct (length_byte _ H2) as [Hc Hf]. subst n. unfold flags, byte_len. rewrite Hc. repeat split; [exact Hf|lia|lia].
Qed.

Lemma label_labellen s rest : label s -> labellen (chr (Z.of_nat (length s)) :: rest) 0 = Some (Some (length s)).
Proof. intros H. destruct (label_byte s H) as (_ & Hf & Hb & _). unfold labellen. cbn. rewrite Hf. cbn. by rewrite Hb. Qed.

Lemma label_wire_of ls : Forall label ls -> wire (wire_of ls).
Proof.
  induction 1 as [|s ls Hs _ IH]; [constructor|]. unfold wire_of, label_bytes. cbn [map concat]. rewrite <- app_assoc. cbn [app].
  apply wire_label; [|by apply label_labellen|exact IH]. destruct (label_byte s Hs) as (_ & ? & _ & ?). split; auto.
Qed.

Lemma put_chars_ok dstsiz s : forall dn, (length dn + length (escaped s) <= dstsiz)%nat -> put_chars dstsiz s dn = Some (dn ++ escaped s).
Proof.
  induction s as [|c s IH]; intros dn H; [by rewrite app_nil_r|]. cbn [put_chars].
  unfold escaped in *. cbn [map concat] in *. rewrite length_app in H. pose proof (escape_length c).
  destruct (Nat.leb_spec dstsiz (length dn + (length (escape c) - 1))); [lia|].
  rewrite IH by (rewrite length_app; lia). by rewrite app_assoc.
Qed.

Lemma escaped_length s : (length s <= length (escaped s))%nat.
Proof. induction s as [|c s IH]; [auto|]. unfold escaped in *. cbn. rewrite length_app. pose proof (escape_length c). lia. Qed.

Lemma wire_of_cons s ls rest : wire_of (s :: ls) ++ rest = chr (Z.of_nat (length s)) :: s ++ wire_of ls ++ rest.
Proof. unfold wire_of, label_bytes. cbn. by rewrite <- !app_assoc. Qed.

(** What has been written, with the dot before the next label. *)
Definition with_dot (dn : list ascii) : list ascii := match dn with [] => [] | _ => dn ++ ["."%char] end.

Lemma ntop_label fuel dstsiz s ls rest dn : label s -> (length (with_dot dn) + length (escaped s) < dstsiz)%nat ->
  ntop_loop (S fuel) dstsiz (wire_of (s :: ls) ++ rest) dn = ntop_loop fuel dstsiz (wire_of ls ++ rest) (with_dot dn ++ escaped s).
Proof.
  intros Hs Hd. rewrite wire_of_cons. cbn [ntop_loop]. destruct (label_byte s Hs) as (Hc & Hf & Hb & H0).
  destruct (Z.eqb_spec (code (chr (Z.of_nat (length s)))) 0); [contradiction|]. rewrite Hf. cbn [Z.eqb NS_CMPRSFLGS].
  assert (length dn <= length (with_dot dn))%nat by (unfold with_dot; destruct dn; [|rewrite length_app]; simpl; lia).
  destruct (Nat.leb_spec dstsiz (length dn)); [lia|]. rewrite andb_false_r. rewrite label_labellen by assumption. cbn [mbind option_bind].
  fold (with_dot dn). pose proof (escaped_length s). destruct (Nat.leb_spec dstsiz (length (with_dot dn) + length s)); [lia|]. cbn [NS_TYPE_ELT Z.eqb].
  unfold bytes. destruct (Nat.leb_spec (0 + length s) (length (s ++ wire_of ls ++ rest))) as [_|Hx]; [|rewrite !length_app in Hx; lia].
  cbn [mbind option_bind]. rewrite drop_0, take_app_length, put_chars_ok by lia. by rewrite drop_app_length.
Qed.

Lemma ntop_dotted dstsiz rest ls : Forall label ls -> forall fuel dn, dn <> [] -> (length ls < fuel)%nat -> (length (dn ++ dotted ls) < dstsiz)%nat ->
  ntop_loop fuel dstsiz (wire_of ls ++ rest) dn = Some (Some (dn ++ dotted ls)).
Proof.
  induction 1 as [|s ls Hs _ IH]; intros [|fuel] dn Hdn Hf Hd; cbn [length] in Hf; try lia; [by rewrite app_nil_r|].
  assert (dn ++ dotted (s :: ls) = (with_dot dn ++ escaped s) ++ dotted ls) as Heq
    by (unfold dotted, with_dot; destruct dn; [congruence|]; cbn; by rewrite <- !app_assoc).
  rewrite Heq in *. rewrite !length_app in Hd. rewrite ntop_label by (auto; lia).
  apply IH; [|lia|rewrite !length_app; lia]. unfold with_dot. by destruct dn as [|? []].
Qed.

Lemma escaped_nonempty s : label s -> escaped s <> [].
Proof. intros [H _] He. pose proof (escaped_length s) as Hl. rewrite He in Hl. simpl in Hl. lia. Qed.

Lemma wire_of_length ls : (length ls < length (wire_of ls))%nat.
Proof. unfold wire_of. rewrite length_app. induction ls; simpl in *; [|rewrite length_app]; lia. Qed.

Lemma ntop_text ls rest dstsiz : Forall label ls -> (length (text_of ls) < dstsiz)%nat ->
  irc_ns_name_ntop (wire_of ls ++ rest) dstsiz = Some (Some (text_of ls)).
Proof.
  intros Hls Hd. unfold irc_ns_name_ntop. pose proof (wire_of_length ls).
  assert (exists dn, ntop_loop (S (length (wire_of ls ++ rest))) dstsiz (wire_of ls ++ rest) [] = Some (Some dn) /\ text_of ls = match dn with [] => ["."%char] | _ => dn end) as (dn & -> & Ht).
  { destruct Hls as [|s ls Hs Hls]; [by exists []|]. cbn [text_of] in *. exists (escaped s ++ dotted ls). rewrite length_app in Hd.
    pose proof (escaped_nonempty s Hs). cbn [length] in *. rewrite ntop_label by (simpl; auto; lia). cbn [with_dot app]. split.
    - apply ntop_dotted; [assumption|assumption|rewrite length_app; lia|rewrite length_app; lia].
    - destruct (escaped s); [congruence|reflexivity]. }
  cbn [mbind option_bind]. rewrite <- Ht. destruct (Nat.leb_spec dstsiz 0); [lia|]. rewrite andb_false_r.
  destruct (Nat.leb_spec dstsiz (length (text_of ls))); [lia|]. reflexivity.
Qed.

(** Lengths of what is written. *)
Ltac lens := unfold put_here, label_bytes in *; repeat first [progress rewrite ?length_app in * | progress cbn [length app] in *]; try lia.

Lemma pton_char c fuel dstsiz rest done cur : (length (escape c ++ rest) < fuel)%nat -> (put_here done cur < dstsiz)%nat ->
  exists fuel', (length rest < fuel')%nat /\
    pton_loop fuel dstsiz (escape c ++ rest) false done cur = pton_loop fuel' dstsiz rest false done (cur ++ [c]).
Proof.
  intros Hf Hd. destruct (escape_cases c) as [(He & Hb & Hp)|[(He & Hb & Hg)|(a & b & d & He & Hb & Hg)]]; rewrite He in *; cbn [app length] in *.
  - destruct fuel as [|fuel]; [lia|]. exists fuel. split; [lia|]. cbn [pton_loop]. rewrite Hb, Hp.
    destruct (Nat.leb_spec dstsiz (put_here done cur)); [lia|reflexivity].
  - destruct fuel as [|[|fuel]]; [lia..|]. exists fuel. split; [lia|]. cbn [pton_loop]. rewrite Hb. unfold decimal_escape. rewrite Hg.
    destruct (Nat.leb_spec dstsiz (put_here done cur)); [lia|reflexivity].
  - destruct fuel as [|[|fuel]]; [lia..|]. exists fuel. split; [lia|]. cbn [pton_loop]. rewrite Hb, Hg.
    destruct (Nat.leb_spec dstsiz (put_here done cur)); [lia|reflexivity].
Qed.

Lemma pton_chars dstsiz rest done s : forall fuel cur, (length (escaped s ++ rest) < fuel)%nat -> (put_here done cur + length s <= dstsiz)%nat ->
  exists fuel', (length rest < fuel')%nat /\
    pton_loop fuel dstsiz (escaped s ++ rest) false done cur = pton_loop fuel' dstsiz rest false done (cur ++ s).
Proof.
  induction s as [|c s IH]; intros fuel cur Hf Hd; [exists fuel; split; [exact Hf|by rewrite app_nil_r]|].
  unfold escaped in *. cbn [map concat length] in *. rewrite <- app_assoc in *.
  destruct (pton_char c fuel dstsiz _ done cur Hf ltac:(lia)) as (fuel' & Hf' & ->).
  destruct (IH fuel' (cur ++ [c])) as (fuel'' & Hf'' & ->); [exact Hf'|unfold put_here in *; rewrite length_app; simpl; lia|].
  exists fuel''. split; [exact Hf''|]. by rewrite <- app_assoc.
Qed.

Lemma label_length_ok s : label s -> label_length s = Some (chr (Z.of_nat (length s))).
Proof. intros [_ H]. unfold label_length. destruct (length_byte _ H) as [_ ->]. reflexivity. Qed.

Lemma end_name_ok dstsiz done s : label s -> (length (done ++ label_bytes s ++ [NUL]) <= dstsiz)%nat ->
  (length (done ++ label_bytes s ++ [NUL]) <= NS_MAXCDNAME)%nat ->
  end_name dstsiz done s (chr (Z.of_nat (length s))) = Some (done ++ label_bytes s ++ [NUL]).
Proof.
  intros Hs Hd Hm. unfold end_name, put_here. destruct (label_byte s Hs) as (_ & _ & _ & H0).
  lens. destruct (Nat.leb_spec dstsiz (length done)); [lia|]. destruct (Z.eqb_spec (code (chr (Z.of_nat (length s)))) 0); [contradiction|]. cbn [negb andb].
  destruct (Nat.leb_spec dstsiz (length done + 1 + length s)); [lia|]. 
  lens. destruct (Nat.ltb_spec NS_MAXCDNAME (length done + S (length s + 1))); [lia|reflexivity].
Qed.

Lemma pton_dotted dstsiz ls : Forall label ls -> forall fuel done cur, label cur -> (length (dotted ls) < fuel)%nat ->
  (length (done ++ label_bytes cur ++ wire_of ls) <= dstsiz)%nat -> (length (done ++ label_bytes cur ++ wire_of ls) <= NS_MAXCDNAME)%nat ->
  pton_loop fuel dstsiz (dotted ls) false done cur = Some (Some (false, done ++ label_bytes cur ++ wire_of ls)).
Proof.
  induction 1 as [|s ls Hs _ IH]; intros [|fuel] done cur Hc Hf Hd Hm; try lia; unfold dotted in *; cbn [map concat app pton_loop].
  { rewrite label_length_ok, end_name_ok by assumption. reflexivity. }
  cbn [ch_eqb]. change ("."%char =c "\") with false. change ("."%char =c ".") with true. cbn [map concat app length] in Hf. cbn iota.
  rewrite label_length_ok by assumption. destruct (label_byte cur Hc) as (_ & _ & _ & H0).
  assert (exists d r, escaped s ++ concat (map (fun s => "."%char :: escaped s) ls) = d :: r /\ (d =c ".") = false) as (d & r & He & Hdot).
  { destruct s as [|c s]; [destruct Hs; simpl in *; lia|]. unfold escaped. cbn. destruct (escape_head c) as (d & r & -> & Hdot). cbn. eauto. }
  rewrite He, Hdot. destruct (Z.eqb_spec (code (chr (Z.of_nat (length cur)))) 0); [contradiction|]. cbn [orb].
  assert (wire_of (s :: ls) = label_bytes s ++ wire_of ls) as Hw by (rewrite <- (app_nil_r (wire_of (s :: ls))), wire_of_cons, app_nil_r; reflexivity).
  rewrite Hw in *. assert (length done + 1 + length cur + 1 + length s + length (wire_of ls) <= dstsiz)%nat by (clear -Hd; lens).
  destruct (Nat.leb_spec dstsiz (length done)); [lia|]. rewrite <- He.
  destruct (pton_chars dstsiz (concat (map (fun s => "."%char :: escaped s) ls)) (done ++ label_bytes cur) s fuel []) as (fuel' & Hf' & Hr);
    [lia|clear Hd Hm IH; lens|].
  fold (label_bytes cur). rewrite Hr. cbn [app]. rewrite IH.
  - by rewrite <- !app_assoc.
  - assumption.
  - exact Hf'.
  - by rewrite <- !app_assoc.
  - by rewrite <- !app_assoc.
Qed.

Lemma pton_text ls dstsiz : name ls -> (length (wire_of ls) <= dstsiz)%nat ->
  irc_ns_name_pton (text_of ls) dstsiz = Some (Some (bool_decide (ls = []), wire_of ls)).
Proof.
  intros [Hls Hm] Hd. unfold irc_ns_name_pton. destruct Hls as [|s ls Hs Hls].
  { unfold wire_of in *. cbn in *. destruct dstsiz; [lia|]. reflexivity. }
  rewrite bool_decide_false by discriminate. cbn [text_of].
  assert (wire_of (s :: ls) = label_bytes s ++ wire_of ls) as Hw by (rewrite <- (app_nil_r (wire_of (s :: ls))), wire_of_cons, app_nil_r; reflexivity).
  rewrite Hw in *.
  destruct (pton_chars dstsiz (dotted ls) [] s (S (length (escaped s ++ dotted ls))) []) as (fuel' & Hf' & Hr);
    [lia|lens|].
  rewrite Hr. cbn [app]. by apply (pton_dotted dstsiz ls Hls fuel' [] s Hs).
Qed.

Lemma skip_returns buf eom p : (eom < length buf)%nat -> exists r, irc_dn_skipname buf eom p = Some r.
Proof.
  intros Hb. unfold irc_dn_skipname, irc_ns_name_skip.
  assert (forall fuel cp, (eom - cp < fuel)%nat -> exists r, skip_loop fuel buf eom cp = Some r) as Hs.
  { induction fuel as [|fuel IH]; intros cp Hf; [lia|]. cbn [skip_loop]. destruct (Nat.leb_spec eom cp); [by eexists|].
    destruct (lookup_lt_is_Some_2 buf cp ltac:(lia)) as [n Hn]. rewrite Hn. cbn [mbind option_bind].
    destruct (_ =? 0); [by eexists|]. destruct (_ =? 0); [apply IH; lia|]. destruct (_ =? NS_TYPE_ELT).
    - destruct (labellen_total buf cp ltac:(lia)) as [[l|] ->]; cbn [mbind option_bind]; [apply IH; lia|by eexists].
    - destruct (_ =? NS_CMPRSFLGS); by eexists. }
  destruct (Hs (S eom) p ltac:(lia)) as (r & ->). cbn [mbind option_bind]. by eexists.
Qed.

(** The text of a name that was unpacked, bit strings included. *)
Lemma bit_text_total cp w : forall fuel b, (b <= 8 * Z.of_nat (length cp)) -> (8 * Z.of_nat (length cp) < b + 8) -> (length cp < fuel)%nat ->
  exists s, bit_text fuel b (cp ++ w) = Some (s, w).
Proof.
  induction cp as [|c cp IH]; intros [|fuel] b H1 H2 Hf; cbn [length app bit_text] in *; try lia.
  - destruct (Z.ltb_spec 7 b); [lia|]. destruct (Z.leb_spec b 0); [by eexists|lia].
  - destruct (Z.ltb_spec 7 b).
    + destruct (IH fuel (b - 8) ltac:(lia) ltac:(lia) ltac:(lia)) as (s & ->). by eexists.
    + destruct cp; [|cbn [length] in *; lia]. destruct (Z.leb_spec b 0); [cbn [length] in *; lia|]. destruct (4 <? b); by eexists.
Qed.

Lemma bits_bytes b : 0 <= b -> b <= 8 * ((b + 7) / 8) < b + 8.
Proof. intros H. pose proof (Z.div_mod (b + 7) 8). pose proof (Z.mod_pos_bound (b + 7) 8). lia. Qed.

Lemma decode_total c data w room : Some (length (c :: data)) = Some (Z.to_nat (((if code c =? 0 then 256 else code c) + 7) / 8 + 1)) ->
  exists r, irc_decode_bitstring (c :: data ++ w) room = Some r /\ forall s cp, r = Some (s, cp) -> cp = w.
Proof.
  intros [= Hl]. unfold irc_decode_bitstring. set (blen := if code c =? 0 then 256 else code c) in *.
  assert (0 <= blen <= 256) as Hb by (pose proof (code_range c); subst blen; case_match; lia). pose proof (bits_bytes blen ltac:(lia)).
  cbn zeta. destruct (Z.of_nat room <=? _); [by eexists|].
  destruct (bit_text_total data w 33 blen ltac:(lia) ltac:(lia) ltac:(lia)) as (s & ->). cbn. eexists. split; [reflexivity|]. intros ? ? [= _ <-]. reflexivity.
Qed.

Lemma ntop_loop_total dstsiz w : wire w -> forall fuel dn, (length w <= fuel)%nat -> exists r, ntop_loop fuel dstsiz w dn = Some r.
Proof.
  induction 1 as [|n s w [Hn Ht] Hl Hw IH]; intros [|fuel] dn Hf; cbn [length] in Hf; try lia; cbn [ntop_loop]; [by eexists|].
  destruct (Z.eqb_spec (code n) 0); [contradiction|].
  destruct (flags n =? NS_CMPRSFLGS); [by eexists|]. destruct (_ && _); [by eexists|]. rewrite length_app in Hf.
  assert (labellen (n :: s ++ w) 0 = Some (Some (length s))) as Hl'.
  { revert Hl. unfold labellen. cbn [lookup list_lookup mbind option_bind]. repeat case_match; auto. destruct s; [discriminate|]. auto. }
  rewrite Hl'. cbn [mbind option_bind]. set (dn' := match dn with [] => [] | _ => _ end). destruct (_ <=? _)%nat; [by eexists|].
  destruct (Z.eqb_spec (flags n) NS_TYPE_ELT) as [Hel|].
  - destruct (code n =? DNS_LABELTYPE_BITSTRING) eqn:Hbs; cbn [negb]; [|by eexists].
    destruct s as [|c data]; [revert Hl; unfold labellen; cbn; rewrite Hel; cbn; rewrite Hbs; discriminate|].
    destruct (decode_total c data w (dstsiz - length dn')) as (r & Hr & Hcp).
    { revert Hl. unfold labellen. cbn. rewrite Hel. cbn. rewrite Hbs. intros [= <-]. reflexivity. }
    cbn [app]. rewrite Hr. cbn [mbind option_bind]. destruct r as [[t cp]|]; [|by eexists]. rewrite (Hcp t cp eq_refl). apply IH. cbn [length] in *. lia.
  - unfold bytes. destruct (Nat.leb_spec (0 + length s) (length (s ++ w))) as [_|Hx]; [|rewrite length_app in Hx; lia]. cbn [mbind option_bind].
    destruct (put_chars _ _ _); [|by eexists]. rewrite drop_app_length. apply IH. lia.
Qed.

Lemma expand_returns buf eom src dstsiz : (eom < length buf)%nat ->
  exists r, irc_dn_expand buf eom src dstsiz = Some r /\ forall n t, r = Some (n, t) -> (1 <= n)%nat /\ (src + n <= eom)%nat.
Proof.
  intros Hb. destruct (unpack_returns buf eom src NS_MAXCDNAME Hb ltac:(unfold NS_MAXCDNAME; lia)) as (r & Hr & Hok).
  unfold irc_dn_expand, irc_ns_name_uncompress. rewrite Hr. cbn [mbind option_bind]. destruct r as [[n w]|]; [|eexists; split; [reflexivity|discriminate]].
  destruct Hok as ((v & -> & Hv) & _ & e & [He _] & He2 & ->). cbn [app]. unfold irc_ns_name_ntop.
  destruct (ntop_loop_total dstsiz v (name_at_wire _ _ _ Hv) (S (length v)) [] ltac:(lia)) as (d & ->). cbn [mbind option_bind].
  destruct d as [d|]; [|eexists; split; [reflexivity|discriminate]]. destruct (_ && _); [eexists; split; [reflexivity|discriminate]|].
  cbn [mbind option_bind]. destruct (_ <=? _)%nat; eexists; (split; [reflexivity|]); [discriminate|]. intros ? ? [= <- _]. lia.
Qed.

(** C25: a name without bit strings, of at most 255 bytes, converted to text
    and back, is the same name: the conversion to text succeeds if there is
    room for the text, and no byte of a label, be it a dot, a backslash or a
    control character, is taken for something else. *)
Theorem name_text_roundtrip ls dstsiz : name ls -> (length (text_of ls) < dstsiz)%nat ->
  exists t, irc_ns_name_ntop (wire_of ls) dstsiz = Some (Some t) /\
    irc_ns_name_pton t NS_MAXCDNAME = Some (Some (bool_decide (ls = []), wire_of ls)).
Proof.
  intros Hn Hd. exists (text_of ls). split; [|by apply pton_text; [|destruct Hn]].
  rewrite <- (app_nil_r (wire_of ls)). by apply ntop_text; [destruct Hn|].
Qed.

(** *** Examples *)
Definition ex_name : list (list ascii) := [str "irc"; str "hispano"; str "org"].
Definition ex_odd : list (list ascii) := [chr 7 :: str "a.b"; str "\x"].
Definition ex_header : list ascii := repeat NUL 12.

Lemma ex_name_ok : name ex_name.
Proof. split; [repeat constructor; simpl; lia|]. vm_compute. lia. Qed.
Lemma ex_odd_ok : name ex_odd.
Proof. split; [repeat constructor; simpl; lia|]. vm_compute. lia. Qed.

Example ex_odd_text : text_of ex_odd = str "\007a\.b.\\x".
Proof. reflexivity. Qed.

Lemma name_text_roundtrip_witness :
  exists t, irc_ns_name_ntop (wire_of ex_odd) 20 = Some (Some t) /\ irc_ns_name_pton t NS_MAXCDNAME = Some (Some (false, wire_of ex_odd)).
Proof. apply (name_text_roundtrip ex_odd 20 ex_odd_ok). vm_compute. lia. Defined.

(** [irc.hispano.org] after the header, then a name that is a label and a
    pointer to the second label of the first. *)
Definition ex_answer : list ascii := ex_header ++ wire_of ex_name ++ chr 3 :: str "www" ++ [chr 0xc0; chr 16; NUL].

Example ex_unpack : irc_ns_name_unpack ex_answer 35 29 255 = Some (Some (6%nat, wire_of [str "www"; str "hispano"; str "org"])).
Proof. vm_compute. reflexivity. Qed.

Lemma unpack_safe_witness :
  irc_ns_name_unpack ex_answer 35 29 255 = Some (Some (6%nat, wire_of [str "www"; str "hispano"; str "org"])) /\
  irc_dn_skipname ex_answer 35 29 = Some (Some 6%nat).
Proof.
  destruct (unpack_safe ex_answer 35 29 255) as (r & Hr & Hok); [vm_compute; lia|lia|].
  rewrite ex_unpack in *. injection Hr as <-. split; [reflexivity|apply Hok].
Defined.

(** A pointer to itself is refused, and so is a pointer past the message. *)
Example ex_loop : irc_ns_name_unpack (ex_header ++ [chr 0xc0; chr 12; NUL]) 14 12 255 = Some None.
Proof. vm_compute. reflexivity. Qed.
Example ex_past : irc_ns_name_unpack (ex_header ++ [chr 0xc0; chr 14; NUL]) 14 12 255 = Some None.
Proof. vm_compute. reflexivity. Qed.

(** The length of a bit string is read after the end of the message, when its
    type is the last byte. *)
Example ex_beyond : irc_ns_name_unpack (ex_header ++ [chr 0x41]) 13 12 255 = None.
Proof. vm_compute. reflexivity. Qed.

(** Five bits make three hexadecimal digits, which are not read as five bits. *)
Example ex_bits :
  irc_ns_name_pton (str "\[xf8/5].a") NS_MAXCDNAME = Some (Some (false, [chr 0x41; chr 5; chr 0xf8; chr 1; "a"%char; NUL])) /\
  irc_ns_name_ntop [chr 0x41; chr 5; chr 0xf8; chr 1; "a"%char; NUL] 100 = Some (Some (str "\[x7f8/5].a")) /\
  irc_ns_name_pton (str "\[x7f8/5].a") NS_MAXCDNAME = Some None.
Proof. split_and!; vm_compute; reflexivity. Qed.
