(* ===== verification/Dnspack.v ===== *)
(** * Packing names and making queries ([ircd_reslib.c])

    [irc_ns_name_pack] writes the labels of a name after what a message
    already holds, or a pointer to a name that is there and that
    [irc_dn_find] finds; [irc_res_mkquery] makes the query that the resolver
    sends.  [packed] says what such a name is in the message, and the theorems
    that the functions of [Dns] read it back. *)
From S2P Require Import Prelude Chattr Strings IpText Ddb DdbFile Dns.
From stdpp Require Import options.
Local Open Scope Z_scope.
Local Open Scope ircd_scope.


(** *** From labels to a message

    [m] is what the message holds so far, the name to be written after it;
    [ptrs] are the places of the names in it that may be pointed to. *)
Inductive found := Match | Mismatch | Illegal.

(** The characters of a label, here and in the message; the result is whether
    they are the same, and what follows here. *)
Fixpoint same_chars (n : nat) (m dn : list ascii) (cp : nat) : option (option (list ascii)) :=
  match n with
  | O => Some (Some dn)
  | S n =>
      match dn with
      | [] => None
      | d :: dn => c ← m !! cp; if mklower d =c mklower c then same_chars n m dn (S cp) else Some None
      end
  end.

Fixpoint dn_compare (fuel : nat) (m dn : list ascii) (cp : nat) : option found :=
  match fuel with
  | O => None
  | S fuel =>
      n ← m !! cp;
      if code n =? 0 then Some Mismatch
      else if flags n =? 0 then
        match dn with
        | [] => None
        | d :: dn =>
            if negb (n =c d) then Some Mismatch
            else
              r ← same_chars (byte_len n) m dn (S cp);
              match r with
              | None => Some Mismatch
              | Some dn =>
                  let cp := (S cp + byte_len n)%nat in
                  d ← dn !! 0%nat;
                  if negb (code d =? 0) then dn_compare fuel m dn cp
                  else c ← m !! cp; Some (if code c =? 0 then Match else Mismatch)
              end
        end
      else if flags n =? NS_CMPRSFLGS then
        b ← m !! S cp;
        dn_compare fuel m dn (target n b)
      else Some Illegal
  end.

Definition compare_fuel (domain : list ascii) : nat := (2 + 2 * length domain)%nat.

(** The labels of one name in the message; [Some (inl p)] is the place of the
    name looked for, [Some (inr b)] that it is not here, and whether to go on. *)
Fixpoint find_walk (fuel : nat) (m domain : list ascii) (sp : nat) : option (nat + bool) :=
  match fuel with
  | O => None
  | S fuel =>
      n ← m !! sp;
      if negb (code n =? 0) && (flags n =? 0) && (Z.of_nat sp <? 0x4000) then
        r ← dn_compare (compare_fuel domain) m domain sp;
        match r with
        | Match => Some (inl sp)
        | Mismatch => find_walk fuel m domain (sp + byte_len n + 1)
        | Illegal => Some (inr false)
        end
      else Some (inr true)
  end.

Fixpoint irc_dn_find (m domain : list ascii) (ptrs : list nat) : option (option nat) :=
  match ptrs with
  | [] => Some None
  | sp :: ptrs =>
      r ← find_walk (S (length m)) m domain sp;
      match r with
      | inl p => Some (Some p)
      | inr true => irc_dn_find m domain ptrs
      | inr false => Some None
      end
  end.

(** Whether the name is legal: [Some None] is -1, else its length. *)
Fixpoint legal_name (fuel : nat) (srcp : list ascii) (l : nat) : option bool :=
  match fuel with
  | O => None
  | S fuel =>
      n ← srcp !! 0%nat;
      if flags n =? NS_CMPRSFLGS then Some false
      else
        l0 ← labellen srcp 0;
        match l0 with
        | None => Some false
        | Some l0 =>
            let l := (l + (l0 + 1))%nat in
            if (NS_MAXCDNAME <? l)%nat then Some false
            else if code n =? 0 then Some true else legal_name fuel (drop (l0 + 1) srcp) l
        end
  end.

(** [size] is the number of elements of the array of pointers, the first of
    which is the message; [old] the pointers that were there. *)
Fixpoint pack_loop (fuel : nat) (srcp m : list ascii) (eob : nat) (msg : bool) (old : list nat) (size : nat) (saved : option nat)
  : option (option (list ascii * option nat)) :=
  match fuel with
  | O => None
  | S fuel =>
      n ← srcp !! 0%nat;
      p ← (if negb (code n =? 0) && msg then irc_dn_find m srcp old else Some None);
      match p with
      | Some p =>
          if (eob <=? length m + 1)%nat then Some None
          else Some (Some (m ++ [chr (Z.lor (Z.shiftr (Z.of_nat p) 8) NS_CMPRSFLGS); chr (Z.of_nat p mod 256)], saved))
      | None =>
          let saved :=
            match saved with
            | None => if negb (code n =? 0) && msg && (S (S (length old)) <? size)%nat && (Z.of_nat (length m) <? 0x4000) then Some (length m) else None
            | Some _ => saved
            end in
          if flags n =? NS_CMPRSFLGS then Some None
          else
            l ← labellen srcp 0;
            match l with
            | None => None
            | Some l =>
                if (eob <=? length m + 1 + l)%nat then Some None
                else
                  s ← bytes srcp 0 (l + 1);
                  if (l =? 0)%nat then Some (Some (m ++ s, saved))
                  else pack_loop fuel (drop (l + 1) srcp) (m ++ s) eob msg old size saved
            end
      end
  end.

(** The message with the name, and the pointers with the new one. *)
Definition irc_ns_name_pack (src m : list ascii) (eob : nat) (ptrs : option (list nat)) (size : nat)
  : option (option (list ascii * list nat)) :=
  let old := default [] ptrs in
  ok ← legal_name (S (length src)) src 0;
  if negb ok then Some None
  else
    r ← pack_loop (S (length src)) src m eob (bool_decide (is_Some ptrs)) old size None;
    Some (match r with Some (m, saved) => Some (m, old ++ option_list saved) | None => None end).

Definition irc_ns_name_compress (src : list ascii) (m : list ascii) (eob : nat) (ptrs : option (list nat)) (size : nat)
  : option (option (list ascii * list nat)) :=
  r ← irc_ns_name_pton src NS_MAXCDNAME;
  match r : option (bool * list ascii) with
  | None => Some None
  | Some (_, tmp) => irc_ns_name_pack tmp m eob ptrs size
  end.

Definition irc_dn_comp := irc_ns_name_compress.

(** *** Numbers and queries *)
Definition irc_ns_put16 (v : Z) : list ascii := [chr (Z.shiftr (w16 v) 8); chr (w16 v)].
Definition irc_ns_put32 (v : Z) : list ascii :=
  let v := w32 v in [chr (Z.shiftr v 24); chr (Z.shiftr v 16); chr (Z.shiftr v 8); chr v].
Definition irc_ns_get16 (buf : list ascii) (p : nat) : option Z :=
  a ← buf !! p; b ← buf !! S p; Some (Z.lor (Z.shiftl (code a) 8) (code b)).
Definition irc_ns_get32 (buf : list ascii) (p : nat) : option Z :=
  a ← buf !! p; b ← buf !! S p; c ← buf !! S (S p); d ← buf !! S (S (S p));
  Some (Z.lor (Z.lor (Z.lor (Z.shiftl (code a) 24) (Z.shiftl (code b) 16)) (Z.shiftl (code c) 8)) (code d)).

Definition HFIXEDSZ : nat := 12.
Definition QFIXEDSZ : nat := 4.

(** The header of a query: recursion desired, and [qd] questions. *)
Definition query_header (qd : Z) : list ascii :=
  irc_ns_put16 0 ++ [chr 1; chr 0] ++ irc_ns_put16 qd ++ repeat NUL 6.

Definition irc_res_mkquery (dname : list ascii) (class type : Z) (buflen : nat) : option (option (list ascii)) :=
  if (buflen <? HFIXEDSZ + QFIXEDSZ)%nat then Some None
  else
    r ← irc_dn_comp dname (query_header 0) (buflen - QFIXEDSZ) (Some []) 20;
    Some (match r : option (list ascii * list nat) with
          | None => None
          | Some (m, _) => Some (query_header 1 ++ drop HFIXEDSZ m ++ irc_ns_put16 type ++ irc_ns_put16 class)
          end).


(** *** Names that were packed *)
Definition starts (m : list ascii) (p : nat) : Prop := exists c, m !! p = Some c /\ flags c = 0 /\ code c <> 0.

(** The name at [p], of which the labels from [r] on are together, up to [e];
    a pointer is to a label of a name that ends before [r]. *)
Inductive packed (m : list ascii) : nat -> nat -> nat -> list (list ascii) -> Prop :=
| packed_root r p : m !! p = Some NUL -> packed m r p (S p) []
| packed_label r p e s ls :
    label s -> m !! p = Some (chr (Z.of_nat (length s))) -> bytes m (S p) (length s) = Some s ->
    packed m r (S p + length s) e ls -> packed m r p e (s :: ls)
| packed_pointer r p n b e ls :
    m !! p = Some n -> flags n = NS_CMPRSFLGS -> m !! S p = Some b -> (0 < target n b)%nat -> starts m (target n b) ->
    packed m (target n b) (target n b) e ls -> (e <= r)%nat -> packed m r p (S (S p)) ls.

Lemma bytes_app m x p n s : bytes m p n = Some s -> bytes (m ++ x) p n = Some s.
Proof.
  intros H. pose proof (bytes_length _ _ _ _ H) as [_ Hle]. revert H. unfold bytes.
  destruct (Nat.leb_spec (p + n) (length m)); [|lia]. destruct (Nat.leb_spec (p + n) (length (m ++ x))) as [_|Hx]; [|rewrite length_app in Hx; lia].
  intros [= <-]. f_equal. rewrite drop_app_le by lia. apply take_app_le. rewrite length_drop. lia.
Qed.

Lemma packed_app m x r p e ls : packed m r p e ls -> packed (m ++ x) r p e ls.
Proof.
  induction 1 as [r p H|r p e s ls Hs Hp Hb _ IH|r p n b e ls Hn Hf Hb Ht (c & Hc & Hcs) _ IH Hle].
  - constructor. by apply lookup_app_l_Some.
  - constructor; [assumption|by apply lookup_app_l_Some|by apply bytes_app|assumption].
  - eapply packed_pointer; try eassumption; [by apply lookup_app_l_Some..|]. exists c. split; [by apply lookup_app_l_Some|assumption].
Qed.

Lemma packed_run m r r' p e ls : (r <= r')%nat -> packed m r p e ls -> packed m r' p e ls.
Proof.
  intros Hle H. revert r' Hle. induction H as [r p H|r p e s ls Hs Hp Hb _ IH|r p n b e ls Hn Hf Hb Ht Hst H _ He]; intros r' Hle.
  - by constructor.
  - constructor; auto.
  - eapply packed_pointer; try eassumption. lia.
Qed.

Lemma packed_bounds m r p e ls : packed m r p e ls -> (p < e <= length m)%nat.
Proof.
  induction 1 as [r p H|r p e s ls Hs Hp Hb _ IH|r p n b e ls Hn Hf Hb Ht Hst H IH He]; [apply lookup_lt_Some in H|apply lookup_lt_Some in Hp|apply lookup_lt_Some in Hb]; lia.
Qed.

(** *** Unpacking a name that was packed *)
Lemma label_eq_nul s : label s -> chr (Z.of_nat (length s)) <> NUL.
Proof. intros Hs H. destruct (label_byte s Hs) as (_ & _ & _ & H0). rewrite H in H0. by apply H0. Qed.

Lemma wire_of_cons' s ls : wire_of (s :: ls) = chr (Z.of_nat (length s)) :: s ++ wire_of ls.
Proof. rewrite <- (app_nil_r (wire_of (s :: ls))), wire_of_cons, app_nil_r. reflexivity. Qed.

Lemma wire_of_pos ls : (1 <= length (wire_of ls))%nat.
Proof. unfold wire_of. rewrite length_app. simpl. lia. Qed.

Lemma packed_unpack buf eom src dstsiz r p e ls : packed buf r p e ls -> (length buf <= eom)%nat -> (eom <= length buf)%nat ->
  forall fuel dst len checked,
  (src <= p \/ is_Some len)%nat -> (0 < r)%nat -> (checked + (e - p) + r <= eom)%nat -> (length dst + length (wire_of ls) <= dstsiz)%nat ->
  ((eom - checked) + (dstsiz - length dst) < fuel)%nat ->
  unpack_loop fuel buf eom src dstsiz p dst len checked =
    Some (Some (match len with Some l => l | None => e - src end, dst ++ wire_of ls)%nat).
Proof.
  intros H Hb1 Hb2. induction H as [r p H|r p e s ls Hs Hp Hb H IH|r p n b e ls Hn Hf Hb Ht Hst H IH He]; intros [|fuel] dst len checked Hsrc Hr Hc Hd Hfu; try lia; cbn [unpack_loop].
  - rewrite H. cbn [mbind option_bind]. change (code NUL =? 0) with true. pose proof (wire_of_pos []). cbn iota.
    destruct (Nat.leb_spec dstsiz (length dst)); [lia|]. reflexivity.
  - rewrite Hp. cbn [mbind option_bind]. destruct (label_byte s Hs) as (_ & Hfl & Hbl & H0).
    destruct (Z.eqb_spec (code (chr (Z.of_nat (length s)))) 0); [contradiction|]. rewrite Hfl. cbn [Z.eqb orb].
    assert (labellen buf p = Some (Some (length s))) as Hl by (unfold labellen; rewrite Hp; cbn; rewrite Hfl; cbn; by rewrite Hbl).
    rewrite Hl. cbn [mbind option_bind]. pose proof (packed_bounds _ _ _ _ _ H). rewrite wire_of_cons' in *. lens. pose proof (wire_of_pos ls).
    destruct (Nat.leb_spec dstsiz (length dst + length s + 1)); [lia|]. destruct (Nat.leb_spec eom (S p + length s)); [lia|]. cbn [orb].
    rewrite Hb. cbn [mbind option_bind]. destruct Hs. rewrite IH; [by rewrite <- app_assoc|destruct Hsrc; [left; lia|by right]|lia|lia|lens|lens].
  - rewrite Hn. cbn [mbind option_bind]. destruct (Z.eqb_spec (code n) 0) as [H0|H0].
    { apply code_nul in H0 as ->. discriminate. }
    rewrite Hf. cbn [Z.eqb orb NS_CMPRSFLGS NS_TYPE_ELT Pos.eqb]. pose proof (packed_bounds _ _ _ _ _ H).
    apply lookup_lt_Some in Hb as Hb'. destruct (Nat.leb_spec eom (S p)); [lia|]. rewrite Hb. cbn [mbind option_bind].
    destruct (Nat.leb_spec eom (target n b)); [lia|]. destruct (Nat.leb_spec eom (checked + 2)); [lia|].
    rewrite IH; [|by right; destruct len|lia..]. destruct len as [l|]; [reflexivity|]. destruct Hsrc as [|[? ?]]; [|discriminate]. do 3 f_equal. lia.
Qed.

Lemma packed_unpacks m rest p e ls : packed m p p e ls -> (0 < p)%nat -> (length (wire_of ls) <= NS_MAXCDNAME)%nat ->
  irc_ns_name_unpack (m ++ rest) (length (m ++ rest)) p NS_MAXCDNAME = Some (Some (e - p, wire_of ls)%nat).
Proof.
  intros H Hp Hl. apply (packed_app _ rest) in H. pose proof (packed_bounds _ _ _ _ _ H).
  unfold irc_ns_name_unpack. destruct (Nat.leb_spec (length (m ++ rest)) p); [lia|].
  rewrite (packed_unpack _ _ _ _ _ _ _ _ H); try reflexivity; unfold unpack_fuel; cbn [length]; lia.
Qed.

Lemma bytes_label m s rest : bytes (m ++ label_bytes s ++ rest) (S (length m)) (length s) = Some s.
Proof.
  unfold bytes. destruct (Nat.leb_spec (S (length m) + length s) (length (m ++ label_bytes s ++ rest))) as [_|Hx]; [|lens].
  f_equal. unfold label_bytes. cbn [app]. rewrite cons_middle, app_assoc.
  replace (S (length m)) with (length (m ++ [chr (Z.of_nat (length s))])) by lens. by rewrite drop_app_length, take_app_length.
Qed.

(** A name that is written as it is. *)
Lemma wire_packed ls : Forall label ls -> forall m rest r, packed (m ++ wire_of ls ++ rest) r (length m) (length m + length (wire_of ls)) ls.
Proof.
  induction 1 as [|s ls Hs _ IH]; intros m rest r.
  { unfold wire_of. cbn. rewrite Nat.add_1_r. constructor. by rewrite lookup_app_r, Nat.sub_diag by lia. }
  rewrite wire_of_cons'. constructor; [assumption|by rewrite lookup_app_r, Nat.sub_diag by lia| |].
  - cbn [app]. rewrite <- app_assoc. apply (bytes_label m s (wire_of ls ++ rest)).
  - cbn [app]. specialize (IH (m ++ chr (Z.of_nat (length s)) :: s) rest r). rewrite <- !app_assoc in *. cbn [app] in *. lens.
    replace (length m + S (length s + length (wire_of ls)))%nat with (length m + S (length s) + length (wire_of ls))%nat by lia.
    replace (S (length m) + length s)%nat with (length m + S (length s))%nat by lia. exact IH.
Qed.

(** *** Looking for a name *)
Definition same_names (ls ls' : list (list ascii)) : Prop := map (map mklower) ls = map (map mklower) ls'.

Lemma same_chars_ok m dn : forall s s' cp, length s = length s' -> bytes m cp (length s') = Some s' ->
  same_chars (length s') m (s ++ dn) cp = Some (if bool_decide (map mklower s = map mklower s') then Some dn else None).
Proof.
  intros s s'. revert s. induction s' as [|c s' IH]; intros [|d s] cp Hl Hb; try discriminate; [reflexivity|]. injection Hl as Hl. cbn [length same_chars app].
  assert (m !! cp = Some c) as -> by (rewrite <- (Nat.add_0_r cp), <- (bytes_lookup _ _ _ _ 0 Hb) by (cbn; lia); reflexivity). cbn [mbind option_bind].
  assert (bytes m (S cp) (length s') = Some s') as Hb'.
  { pose proof (bytes_length _ _ _ _ Hb) as [_ Hle]. cbn in Hle. unfold bytes in *. cbn [length] in Hb.
    destruct (Nat.leb_spec (cp + S (length s')) (length m)); [|lia]. destruct (Nat.leb_spec (S cp + length s') (length m)); [|lia].
    f_equal. injection Hb as Hb. destruct (drop cp m) as [|c' r] eqn:Hd; [discriminate|]. cbn in Hb. injection Hb as -> Hb.
    replace (S cp) with (cp + 1)%nat by lia. rewrite <- drop_drop, Hd. exact Hb. }
  destruct (ch_eqb_spec (mklower d) (mklower c)) as [He|He].
  - rewrite IH by assumption. f_equal. cbn [map]. rewrite He. repeat case_bool_decide; congruence.
  - rewrite bool_decide_false; [reflexivity|]. cbn. congruence.
Qed.

Lemma length_byte_inj s s' : label s -> label s' -> chr (Z.of_nat (length s)) = chr (Z.of_nat (length s')) -> length s = length s'.
Proof. intros Hs Hs' H. destruct (label_byte s Hs) as (H1 & _), (label_byte s' Hs') as (H2 & _). rewrite H in H1. lia. Qed.

Lemma packed_nul m r p e ls : packed m r p e ls -> m !! p = Some NUL -> ls = [].
Proof.
  inversion 1 as [|? ? ? s ? Hs Hp|? ? n ? ? ? Hn Hf]; intros Hx; [reflexivity| |]; rewrite Hx in *; simplify_eq.
  by destruct (label_eq_nul s Hs).
Qed.

Lemma compare_ok m r p e ls' : packed m r p e ls' -> forall ls fuel, Forall label ls -> ls <> [] -> (2 * length ls + 1 < fuel \/ starts m p /\ 2 * length ls < fuel)%nat ->
  exists f, dn_compare fuel m (wire_of ls) p = Some f /\ (f = Match -> same_names ls ls').
Proof.
  intros H. induction H as [r p H|r p e s' ls' Hs Hp Hb H IH|r p n b e ls' Hn Hf Hb Ht Hst H IH He]; intros ls [|fuel] Hls Hne Hfu; try lia; cbn [dn_compare].
  - rewrite H. cbn. by exists Mismatch.
  - rewrite Hp. cbn [mbind option_bind]. destruct (label_byte s' Hs) as (_ & Hfl & Hbl & H0). destruct (Z.eqb_spec (code (chr (Z.of_nat (length s')))) 0); [contradiction|].
    rewrite Hfl. cbn [Z.eqb]. destruct Hls as [|s ls Hls0 Hls]; [congruence|]. rewrite wire_of_cons'.
    destruct (ch_eqb_spec (chr (Z.of_nat (length s'))) (chr (Z.of_nat (length s)))) as [Hc|Hc]; cbn [negb]; [|by exists Mismatch].
    apply length_byte_inj in Hc; [|assumption..]. rewrite Hbl, (same_chars_ok m (wire_of ls) s s') by auto. cbn [mbind option_bind].
    case_bool_decide as Hm; [|by exists Mismatch].
    destruct Hls as [|s2 ls Hs2 Hls].
    + cbn. destruct (packed_bounds _ _ _ _ _ H) as [H1 H2]. destruct (lookup_lt_is_Some_2 m (S p + length s') ltac:(lia)) as [c Hc']. cbn in Hc'. rewrite Hc'. cbn.
      destruct (Z.eqb_spec (code c) 0) as [Hz|Hz]; [|by exists Mismatch]. exists Match. split; [reflexivity|]. intros _.
      apply code_nul in Hz as ->. apply packed_nul in H as ->; [|exact Hc']. unfold same_names. cbn. by rewrite Hm.
    + assert (wire_of (s2 :: ls) !! 0%nat = Some (chr (Z.of_nat (length s2)))) as -> by (by rewrite wire_of_cons'). cbn [mbind option_bind]. destruct (label_byte s2 Hs2) as (_ & _ & _ & Hz).
      destruct (Z.eqb_spec (code (chr (Z.of_nat (length s2)))) 0); [contradiction|]. cbn [negb].
      destruct (IH (s2 :: ls) fuel) as (f & Hr & Hf'); [by constructor|discriminate|left; cbn [length] in *; destruct Hfu as [|[_ ?]]; lia|].
      exists f. split; [exact Hr|]. intros Hm'. specialize (Hf' Hm'). unfold same_names in *. cbn [map] in *. by rewrite Hm, Hf'.
  - rewrite Hn. cbn [mbind option_bind]. destruct (Z.eqb_spec (code n) 0) as [H0|H0]; [by apply code_nul in H0 as ->|].
    rewrite Hf. cbn [Z.eqb NS_CMPRSFLGS Pos.eqb]. rewrite Hb. cbn [mbind option_bind]. apply IH; [assumption..|]. right. split; [assumption|].
    destruct Hfu as [|[(c & Hc & Hcf & _) _]]; [lia|]. rewrite Hn in Hc. simplify_eq. by rewrite Hf in Hcf.
Qed.

Section Find.
Context (m : list ascii) (ls : list (list ascii)) (Hls : Forall label ls) (Hne : ls <> []).

Lemma compare_fuel_ok : (2 * length ls + 1 < compare_fuel (wire_of ls))%nat.
Proof. unfold compare_fuel. pose proof (wire_of_length ls). lia. Qed.

(** What may be pointed to: a place before [e0] where a name starts that is
    [ls] up to case. *)
Definition good_target (e0 q : nat) : Prop :=
  (0 < q)%nat /\ (Z.of_nat q < 0x4000) /\ starts m q /\ exists e ls', packed m q q e ls' /\ (e <= e0)%nat /\ same_names ls ls'.

Lemma find_walk_ok e0 r sp e ls' : packed m r sp e ls' -> (0 < r <= sp)%nat -> (e <= e0)%nat -> forall fuel, (length m - sp < fuel)%nat ->
  exists res, find_walk fuel m (wire_of ls) sp = Some res /\ (forall q, res = inl q -> good_target e0 q).
Proof using All.
  intros H. induction H as [r p H|r p e s' ls' Hs Hp Hb H IH|r p n b e ls' Hn Hf Hb Ht Hst H IH He]; intros Hr He0 [|fuel] Hfu; try lia; cbn [find_walk].
  - rewrite H. cbn. eexists. split; [reflexivity|]. discriminate.
  - rewrite Hp. cbn [mbind option_bind]. destruct (label_byte s' Hs) as (_ & Hfl & Hbl & H0). destruct (Z.eqb_spec (code (chr (Z.of_nat (length s')))) 0); [contradiction|].
    rewrite Hfl. cbn [Z.eqb negb andb]. destruct (Z.ltb_spec (Z.of_nat p) 0x4000); [|eexists; split; [reflexivity|discriminate]].
    assert (packed m p p e (s' :: ls')) as Hpk by (constructor; [assumption..|]; apply (packed_run _ r); [lia|assumption]).
    destruct (compare_ok m p p e (s' :: ls') Hpk ls (compare_fuel (wire_of ls)) Hls Hne (or_introl compare_fuel_ok)) as (f & -> & Hf). cbn [mbind option_bind].
    pose proof (packed_bounds _ _ _ _ _ H) as Hbo. destruct f; [|rewrite Hbl; destruct (IH ltac:(lia) He0 fuel ltac:(lia)) as (res & Hr' & Hg)|eexists; split; [reflexivity|discriminate]].
    + eexists. split; [reflexivity|]. intros q [= <-]. split; [lia|]. split; [assumption|]. split; [by exists (chr (Z.of_nat (length s')))|]. eauto 6.
    + exists res. replace (p + length s' + 1)%nat with (S p + length s')%nat by lia. auto.
  - rewrite Hn. cbn [mbind option_bind]. rewrite Hf. cbn [Z.eqb NS_CMPRSFLGS]. rewrite andb_false_r. eexists. split; [reflexivity|discriminate].
Qed.

Lemma find_ok e0 ptrs : Forall (fun p => (0 < p)%nat /\ exists e ls', packed m p p e ls' /\ (e <= e0)%nat) ptrs ->
  exists r, irc_dn_find m (wire_of ls) ptrs = Some r /\ (forall q, r = Some q -> good_target e0 q).
Proof using All.
  induction 1 as [|p ptrs (Hp & e & ls' & H & He) _ IH]; [by exists None|]. cbn [irc_dn_find].
  destruct (find_walk_ok e0 p p e ls' H ltac:(lia) He (S (length m)) ltac:(lia)) as ([q|[]] & -> & Hg); cbn [mbind option_bind].
  - eexists. split; [reflexivity|]. intros q' [= <-]. auto.
  - exact IH.
  - eexists. split; [reflexivity|discriminate].
Qed.
End Find.

(** *** Packing *)

(** The pointers that are kept: each is to a name of the message that starts
    where a pointer can be to, after the first byte. *)
Definition names_ok (m : list ascii) (ptrs : list nat) : Prop :=
  Forall (fun p => (0 < p)%nat /\ (Z.of_nat p < 0x4000) /\ exists e ls, packed m p p e ls) ptrs.

Lemma labellen_root rest : labellen (NUL :: rest) 0 = Some (Some 0%nat).
Proof. reflexivity. Qed.

Lemma legal_ok ls : Forall label ls -> forall fuel rest l, (length ls < fuel)%nat -> (l + length (wire_of ls) <= NS_MAXCDNAME)%nat ->
  legal_name fuel (wire_of ls ++ rest) l = Some true.
Proof.
  induction 1 as [|s ls Hs _ IH]; intros [|fuel] rest l Hf Hl; cbn [length] in Hf; try lia.
  - unfold wire_of in *. cbn [map concat app length] in *. cbn [legal_name lookup list_lookup mbind option_bind]. rewrite labellen_root.
    change (flags NUL =? NS_CMPRSFLGS) with false. change (code NUL =? 0) with true. cbn [mbind option_bind].
    destruct (Nat.ltb_spec NS_MAXCDNAME (l + (0 + 1))); [lia|reflexivity].
  - rewrite wire_of_cons. cbn [legal_name]. cbn [lookup list_lookup mbind option_bind]. destruct (label_byte s Hs) as (_ & Hfl & _ & H0). rewrite Hfl. cbn [Z.eqb NS_CMPRSFLGS].
    rewrite label_labellen by assumption. cbn [mbind option_bind]. rewrite wire_of_cons' in Hl. lens. pose proof (wire_of_pos ls).
    destruct (Nat.ltb_spec NS_MAXCDNAME (l + (length s + 1))); [lia|]. destruct (Z.eqb_spec (code (chr (Z.of_nat (length s)))) 0); [contradiction|].
    rewrite Nat.add_1_r. cbn [drop]. rewrite drop_app_length. apply IH; lia.
Qed.

(** A pointer to [q] is read as [q]. *)
Lemma target_ok q : Z.of_nat q < 0x4000 ->
  let n := chr (Z.lor (Z.shiftr (Z.of_nat q) 8) NS_CMPRSFLGS) in let b := chr (Z.of_nat q mod 256) in
  flags n = NS_CMPRSFLGS /\ target n b = q.
Proof.
  intros Hq n b. assert (0 <= Z.shiftr (Z.of_nat q) 8 < 64) as Hs by (rewrite Z.shiftr_div_pow2 by lia; split; [apply Z.div_pos; lia|apply Z.div_lt_upper_bound; lia]).
  assert (forallb (fun h => let c := chr (Z.lor h NS_CMPRSFLGS) in (flags c =? NS_CMPRSFLGS) && (Z.land (code c) 0x3f =? h)) (seqZ 0 64) = true) as Hall by (vm_compute; reflexivity).
  rewrite forallb_forall in Hall. specialize (Hall (Z.shiftr (Z.of_nat q) 8)). cbv zeta in Hall.
  apply andb_true_iff in Hall as [Hf Hh]; [|apply list_elem_of_In, elem_of_seqZ; lia]. apply Z.eqb_eq in Hf, Hh. split; [exact Hf|].
  unfold target. subst n b. rewrite Hh, code_chr by (apply Z.mod_pos_bound; lia). rewrite lor_shiftl_add by (try lia; apply Z.mod_pos_bound; lia).
  rewrite Z.shiftr_div_pow2 by lia. change (2 ^ 8) with 256. rewrite <- (Nat2Z.id q) at 3. f_equal. pose proof (Z.div_mod (Z.of_nat q) 256). lia.
Qed.

(** What packing the labels [ls] after [m] comes to, when the name starts at
    [r] and the places [old] are of names before it. *)
Definition packs (m : list ascii) (r : nat) (ls : list (list ascii)) (eob : nat) (old : list nat) (saved : option nat)
  (res : option (list ascii * option nat)) : Prop :=
  match res with
  | None => (eob <= length m + length (wire_of ls))%nat
  | Some (m', saved') =>
      exists ext ls', m' = m ++ ext /\ (length ext <= length (wire_of ls))%nat /\ (length m' <= eob)%nat /\
        packed m' r (length m) (length m') ls' /\ same_names ls ls' /\ (old = [] -> ext = wire_of ls) /\
        (saved' = saved \/ exists p ls'', saved' = Some p /\ (r <= p)%nat /\ Z.of_nat p < 0x4000 /\ packed m' p p (length m') ls'')
  end.

Lemma names_ok_find m x r old : names_ok m old -> (length m <= r)%nat ->
  Forall (fun p => (0 < p)%nat /\ exists e ls', packed (m ++ x) p p e ls' /\ (e <= r)%nat) old.
Proof.
  intros H Hr. eapply Forall_impl; [exact H|]. intros p (Hp & _ & e & ls & Hpk). split; [exact Hp|]. exists e, ls.
  pose proof (packed_bounds _ _ _ _ _ Hpk). split; [by apply packed_app|lia].
Qed.

Lemma same_names_refl ls : same_names ls ls.
Proof. reflexivity. Qed.

Lemma same_names_length ls ls' : same_names ls ls' -> length (wire_of ls) = length (wire_of ls').
Proof.
  unfold same_names. revert ls'. induction ls as [|s ls IH]; intros [|s' ls'] H; try discriminate; [reflexivity|].
  cbn [map] in H. injection H as Hs H. rewrite !wire_of_cons'. lens. rewrite (IH ls' H). apply (f_equal length) in Hs. rewrite !length_map in Hs. lia.
Qed.

Lemma pack_loop_ok m0 eob msg old size : names_ok m0 old -> (0 < length m0)%nat -> forall ls, Forall label ls ->
  forall fuel x saved, (length ls < fuel)%nat ->
  exists res, pack_loop fuel (wire_of ls) (m0 ++ x) eob msg old size saved = Some res /\ packs (m0 ++ x) (length m0) ls eob old saved res.
Proof.
  intros Hok Hm0. induction ls as [|s ls IH]; intros Hls [|fuel] x saved Hfu; cbn [length] in Hfu; try lia; cbn [pack_loop].
  { unfold wire_of. cbn [map concat app lookup list_lookup mbind option_bind]. change (code NUL =? 0) with true. cbn [negb andb mbind option_bind].
    change (flags NUL =? NS_CMPRSFLGS) with false. rewrite labellen_root. cbn [mbind option_bind].
    change (bytes [NUL] 0 (0 + 1)) with (Some [NUL]). cbn [mbind option_bind].
    set (m := m0 ++ x) in *. replace (length m + 1 + 0)%nat with (length m + 1)%nat by lia.
    destruct (Nat.leb_spec eob (length m + 1)); eexists; (split; [reflexivity|]); cbn [packs length wire_of map concat app]; [lia|].
    exists [NUL], []. split_and!; [reflexivity|reflexivity|lens| |reflexivity|reflexivity|].
    - rewrite length_app, Nat.add_1_r. constructor. by rewrite lookup_app_r, Nat.sub_diag by lia.
    - left. destruct saved; reflexivity. }
  inversion Hls as [|? ? Hs Hls']; subst. set (m := m0 ++ x) in *.
  assert (wire_of (s :: ls) !! 0%nat = Some (chr (Z.of_nat (length s)))) as -> by (by rewrite wire_of_cons'). cbn [mbind option_bind].
  destruct (label_byte s Hs) as (_ & Hfl & _ & H0). destruct (Z.eqb_spec (code (chr (Z.of_nat (length s)))) 0); [contradiction|]. cbn [negb andb].
  assert (exists p, (if msg then irc_dn_find m (wire_of (s :: ls)) old else Some None) = Some p /\
    (forall q, p = Some q -> good_target m (s :: ls) (length m0) q) /\ (old = [] -> p = None)) as (p & -> & Hp & Hp0).
  { destruct msg; [|by exists None].
    destruct (find_ok m (s :: ls) Hls ltac:(discriminate) (length m0) old ltac:(by apply names_ok_find)) as (p & Hr & Hg).
    exists p. split; [exact Hr|]. split; [exact Hg|]. intros ->. by injection Hr. }
  cbn [mbind option_bind]. destruct p as [q|].
  { destruct (Hp q eq_refl) as (Hq & Hqb & Hqs & e & ls' & Hpk & He & Hsame). destruct (target_ok q Hqb) as [Hfn Htn].
    destruct (Nat.leb_spec eob (length m + 1)); eexists; (split; [reflexivity|]); cbn [packs].
    - pose proof (wire_of_pos (s :: ls)). lia.
    - eexists _, ls'. split_and!; [reflexivity|rewrite wire_of_cons'; pose proof (wire_of_pos ls); destruct Hs; lens|lens| |assumption| |by left].
      + rewrite length_app. cbn [length]. replace (length m + 2)%nat with (S (S (length m))) by lia.
        eapply packed_pointer; [by rewrite lookup_app_r, Nat.sub_diag by lia|exact Hfn|by rewrite lookup_app_r, Nat.sub_succ_l, Nat.sub_diag by lia| | | |exact He]; rewrite Htn.
        * exact Hq.
        * destruct Hqs as (c & Hc & Hcs). exists c. split; [by apply lookup_app_l_Some|exact Hcs].
        * by apply packed_app.
      + intros Ho. by specialize (Hp0 Ho). }
  rewrite Hfl. cbn [Z.eqb NS_CMPRSFLGS]. rewrite wire_of_cons', label_labellen by assumption. cbn [mbind option_bind].
  pose proof (wire_of_pos ls) as Hpos. destruct (Nat.leb_spec eob (length m + 1 + length s)).
  { eexists. split; [reflexivity|]. cbn [packs]. rewrite wire_of_cons'. lens. }
  rewrite Nat.add_1_r. unfold bytes. cbn [length drop take]. rewrite Nat.add_0_l, length_app.
  destruct (Nat.leb_spec (S (length s)) (S (length s + length (wire_of ls)))); [|lia]. cbn [mbind option_bind]. rewrite take_app_length, drop_app_length.
  destruct Hs as [Hs1 Hs2] eqn:Hse. destruct (Nat.eqb_spec (length s) 0); [lia|]. clear Hse.
  set (saved1 := match saved with Some _ => saved | None => _ end).
  destruct (IH Hls' fuel (x ++ label_bytes s) saved1 ltac:(lia)) as (res & Hr & Hok').
  rewrite app_assoc in Hr, Hok'. fold m in Hr, Hok'. exists res. split; [exact Hr|].
  destruct res as [[m' saved']|]; cbn [packs] in *; rewrite wire_of_cons'; [|lens].
  destruct Hok' as (ext & ls' & -> & Hle & Hlt & Hpk & Hsame & Hplain & Hsv).
  assert (packed ((m ++ label_bytes s) ++ ext) (length m0) (length m) (length ((m ++ label_bytes s) ++ ext)) (s :: ls')) as Hpk'.
  { rewrite <- app_assoc in *. constructor; [by split|by rewrite lookup_app_r, Nat.sub_diag by lia| |].
    - apply bytes_label.
    - replace (S (length m) + length s)%nat with (length (m ++ label_bytes s)) by lens. exact Hpk. }
  exists (label_bytes s ++ ext), (s :: ls'). split_and!.
  - by rewrite app_assoc.
  - lens.
  - exact Hlt.
  - exact Hpk'.
  - unfold same_names in *. cbn [map]. by rewrite Hsame.
  - intros Ho. rewrite (Hplain Ho). reflexivity.
  - destruct Hsv as [->|?]; [|by right]. subst saved1. destruct saved as [sv|]; [by left|].
    destruct (_ && _) eqn:Hc; [|by left]. right. apply andb_true_iff in Hc as [_ Hc%Z.ltb_lt]. exists (length m), (s :: ls').
    split; [reflexivity|]. split; [subst m; lens|]. split; [exact Hc|]. apply (packed_run _ (length m0)); [subst m; lens|exact Hpk'].
Qed.

(** C26: packing a name after a message whose names may be pointed to always
    ends, writes no further than the buffer, and fails only if there is no
    room for the whole name; what it writes is no longer than the name, and is
    unpacked, whatever follows it in the message, as the same name up to the
    case of its letters; the names that could be pointed to still can be, and
    the new one too. *)
Theorem pack_unpack m ls eob ptrs size : name ls -> (0 < length m)%nat -> names_ok m (default [] ptrs) ->
  exists r, irc_ns_name_pack (wire_of ls) m eob ptrs size = Some r /\
    match r with
    | None => (eob <= length m + length (wire_of ls))%nat
    | Some (m', ptrs') =>
        exists ext ls', m' = m ++ ext /\ (length ext <= length (wire_of ls))%nat /\ (length m' <= eob)%nat /\
          names_ok m' ptrs' /\ same_names ls ls' /\
          forall rest, irc_ns_name_unpack (m' ++ rest) (length (m' ++ rest)) (length m) NS_MAXCDNAME = Some (Some (length ext, wire_of ls'))
    end.
Proof.
  intros [Hls Hlen] Hm Hok. unfold irc_ns_name_pack. pose proof (wire_of_length ls) as Hwl.
  pose proof (legal_ok ls Hls (S (length (wire_of ls))) [] 0 ltac:(lia) ltac:(lia)) as Hlegal. rewrite app_nil_r in Hlegal. rewrite Hlegal. cbn [mbind option_bind negb].
  destruct (pack_loop_ok m eob (bool_decide (is_Some ptrs)) (default [] ptrs) size Hok Hm ls Hls (S (length (wire_of ls))) [] None ltac:(lia)) as (res & Hr & Hp).
  rewrite app_nil_r in *. rewrite Hr. cbn [mbind option_bind]. eexists. split; [reflexivity|].
  destruct res as [[m' saved]|]; cbn [packs] in Hp; [|exact Hp]. destruct Hp as (ext & ls' & -> & Hle & Hb & Hpk & Hsame & _ & Hs).
  exists ext, ls'. split_and!; [reflexivity|exact Hle|exact Hb| |exact Hsame|].
  - apply Forall_app. split.
    + eapply Forall_impl; [exact Hok|]. intros p (Hp & Hp2 & e & l & Hl). eauto 8 using packed_app.
    + destruct Hs as [->|(p & l & -> & Hrp & Hp2 & Hl)]; cbn; [constructor|]. repeat constructor; [lia|exact Hp2|eauto].
  - intros rest. rewrite (packed_unpacks _ rest _ _ _ Hpk Hm) by (rewrite <- (same_names_length _ _ Hsame); exact Hlen).
    rewrite length_app. do 3 f_equal. lia.
Qed.

(** *** Text that is converted to labels *)

(** Whether a text has a bit string: an opening bracket after a backslash. *)
Fixpoint has_bits (src : list ascii) (escaped : bool) : bool :=
  match src with
  | [] => false
  | c :: src => if escaped then (c =c "[") || has_bits src false else has_bits src (c =c "\")
  end.

Lemma after_shorter room cp : forall st b data rest, enc_loop room cp st = Some (b, data, rest) -> (length rest < length cp)%nat.
Proof.
  induction cp as [|c cp IH]; intros st b data rest H; cbn [enc_loop] in H; [by destruct (_ <=? _)%nat|].
  destruct (_ <=? _)%nat; [discriminate|]. destruct (c =c "]").
  { destruct (if en_after st then _ else _); [cbn in H|discriminate]. destruct (_ <=? _)%nat; [discriminate|].
    destruct (bit_length _ _ _); [|discriminate]. cbn in H. injection H as _ _ <-. simpl. lia. }
  assert (forall st', enc_loop room cp st' = Some (b, data, rest) -> (length rest < S (length cp))%nat) as Hnext by (intros st' Hs; apply IH in Hs; lia).
  destruct (c =c "/"); [by eapply Hnext|]. destruct (en_after st).
  { destruct (negb _); [discriminate|]. destruct (en_beg st); [by eapply Hnext|]. destruct (c =c "0"); [discriminate|by eapply Hnext]. }
  destruct (hexval c); [cbn [mbind option_bind] in H|discriminate]. destruct (256 <? _); [discriminate|]. destruct (_ =? 8); by eapply Hnext.
Qed.

Lemma encode_shorter room bp b data rest : irc_encode_bitsring room bp = Some (b, data, rest) -> (length rest < length bp)%nat.
Proof.
  unfold irc_encode_bitsring. destruct bp as [|x cp]; [discriminate|]. destruct (negb _); [discriminate|]. destruct (hexval _); [|discriminate].
  intros H%after_shorter. simpl. lia.
Qed.

Lemma decimal_suffix c src d rest : decimal_escape c src = Some (d, rest) ->
  exists x, src = x ++ rest /\ Forall (fun c => is_Some (digit_of c)) x.
Proof.
  unfold decimal_escape. destruct (digit_of c); [|intros [= <- <-]; by exists []]. destruct src as [|c2 [|c3 src]]; [discriminate..|].
  destruct (digit_of c2) eqn:H2; [|discriminate]. destruct (digit_of c3) eqn:H3; [|discriminate]. cbn. destruct (255 <? _); [discriminate|].
  intros [= <- <-]. exists [c2; c3]. split; [reflexivity|]. repeat constructor; by rewrite ?H2, ?H3.
Qed.

Lemma digit_not_backslash c : is_Some (digit_of c) -> (c =c "\") = false.
Proof. intros [d H]. destruct (ch_eqb_spec c "\") as [->|]; [discriminate|reflexivity]. Qed.

Lemma has_bits_digits x rest : Forall (fun c => is_Some (digit_of c)) x -> has_bits (x ++ rest) false = has_bits rest false.
Proof. induction 1 as [|c x Hc _ IH]; [reflexivity|]. cbn [app has_bits]. by rewrite (digit_not_backslash c Hc). Qed.

Lemma pton_total dstsiz fuel : forall src esc done cur, (length src < fuel)%nat -> exists r, pton_loop fuel dstsiz src esc done cur = Some r.
Proof.
  induction fuel as [|fuel IH]; intros src esc done cur Hf; [lia|]. cbn [pton_loop]. destruct src as [|c src]; [by eexists|]. cbn [length] in Hf.
  assert (forall d src', (length src' <= length src)%nat ->
    exists r, (if (dstsiz <=? put_here done cur)%nat then Some None else pton_loop fuel dstsiz src' false done (cur ++ [d])) = Some r) as Hst
    by (intros d src' Hl; destruct (_ <=? _)%nat; [by eexists|apply IH; lia]).
  destruct esc.
  - destruct (c =c "[").
    + destruct (negb _); [by eexists|]. destruct (irc_encode_bitsring _ _) as [[[b data] rest]|] eqn:He; [|by eexists].
      apply encode_shorter in He. destruct rest as [|d rest]; [by eexists|]. destruct (negb _); [by eexists|]. apply IH. simpl in He. lia.
    + destruct (decimal_escape c src) as [[d rest]|] eqn:Hd; [|by eexists]. apply decimal_suffix in Hd as (x & -> & _). apply Hst. rewrite length_app. lia.
  - destruct (c =c "\"); [apply IH; lia|]. destruct (c =c "."); [|by apply Hst].
    clear Hst. destruct (label_length cur); [|by eexists]. destruct src as [|d src]; [by eexists|]. destruct (_ <=? _)%nat; [by eexists|].
    destruct (_ || _); [by eexists|]. apply IH. lia.
Qed.

Lemma label_length_small cur c : (length cur <= 255)%nat -> label_length cur = Some c -> (length cur <= 63)%nat /\ c = chr (Z.of_nat (length cur)).
Proof.
  intros Hl. unfold label_length. destruct (Z.eqb_spec (Z.land (Z.of_nat (length cur)) NS_CMPRSFLGS) 0) as [H|]; [|discriminate]. intros [= <-]. split; [|reflexivity].
  assert (forallb (fun n => negb (Z.land (Z.of_nat n) NS_CMPRSFLGS =? 0) || (n <=? 63)%nat) (seq 0 256) = true) as Hall by (vm_compute; reflexivity).
  rewrite forallb_forall in Hall. specialize (Hall (length cur) ltac:(apply in_seq; lia)). rewrite H in Hall. by apply Nat.leb_le.
Qed.

Lemma end_name_labels dstsiz ls cur c w : Forall label ls -> (length cur <= 255)%nat -> label_length cur = Some c ->
  end_name dstsiz (concat (map label_bytes ls)) cur c = Some w -> exists ls', name ls' /\ w = wire_of ls'.
Proof.
  intros Hls Hc Hl. destruct (label_length_small _ _ Hc Hl) as [Hc63 ->]. unfold end_name. destruct (_ <=? _)%nat; [discriminate|]. destruct (_ && _); [discriminate|].
  destruct (length_byte _ Hc63) as [-> _]. intros H.
  destruct (Nat.ltb_spec NS_MAXCDNAME (length (concat (map label_bytes ls) ++ chr (Z.of_nat (length cur)) :: cur ++ (if Z.of_nat (length cur) =? 0 then [] else [NUL])))) as [|Hw]; [discriminate|].
  injection H as <-. destruct (Z.eqb_spec (Z.of_nat (length cur)) 0) as [H0|H0].
  - destruct cur; [|simpl in H0; lia]. exists ls. by split.
  - exists (ls ++ [cur]). assert (wire_of (ls ++ [cur]) = concat (map label_bytes ls) ++ chr (Z.of_nat (length cur)) :: cur ++ [NUL]) as Heq
      by (unfold wire_of; rewrite map_app, concat_app, <- app_assoc; cbn; by rewrite app_nil_r).
    rewrite Heq. split; [split; [apply Forall_app; split; [assumption|apply Forall_singleton; split; lia]|by rewrite Heq]|reflexivity].
Qed.

Lemma pton_labels dstsiz fuel : (dstsiz <= NS_MAXCDNAME)%nat -> forall src esc ls cur b w, has_bits src esc = false -> Forall label ls -> (length cur <= dstsiz)%nat ->
  pton_loop fuel dstsiz src esc (concat (map label_bytes ls)) cur = Some (Some (b, w)) -> exists ls', name ls' /\ w = wire_of ls'.
Proof.
  intros Hd. unfold NS_MAXCDNAME in Hd. induction fuel as [|fuel IH]; intros src esc ls cur b w Hn Hls Hc H; [discriminate|]. cbn [pton_loop] in H.
  destruct src as [|c src].
  { destruct (label_length cur) eqn:Hl; [|discriminate]. destruct (end_name _ _ _ _) eqn:He; [|discriminate]. cbn in H. injection H as _ <-.
    by eapply end_name_labels in He; [|eassumption|lia|eassumption]. }
  cbn [has_bits] in Hn.
  assert (forall d src', has_bits src' false = false ->
    (if (dstsiz <=? put_here (concat (map label_bytes ls)) cur)%nat then Some None else pton_loop fuel dstsiz src' false (concat (map label_bytes ls)) (cur ++ [d])) = Some (Some (b, w)) ->
    exists ls', name ls' /\ w = wire_of ls') as Hst.
  { intros d src' Hn' H'. destruct (Nat.leb_spec dstsiz (put_here (concat (map label_bytes ls)) cur)); [discriminate|]. eapply IH; [exact Hn'|exact Hls| |exact H']. lens. }
  destruct esc.
  - apply orb_false_iff in Hn as [Hb Hn]. rewrite Hb in H. destruct (decimal_escape c src) as [[d rest]|] eqn:Hde; [|discriminate].
    apply decimal_suffix in Hde as (x & -> & Hx). rewrite (has_bits_digits x rest Hx) in Hn. by apply (Hst d rest).
  - destruct (c =c "\") eqn:Hbs; [by eapply IH|]. destruct (c =c "."); [|by apply (Hst c src)].
    clear Hst. destruct (label_length cur) as [l|] eqn:Hl; [|discriminate]. destruct src as [|d src].
    { destruct (end_name _ _ _ _) eqn:He; [|discriminate]. cbn in H. injection H as _ <-. by eapply end_name_labels in He; [|eassumption|lia|eassumption]. }
    destruct (_ <=? _)%nat; [discriminate|]. destruct (_ || _) eqn:Hz; [discriminate|]. apply orb_false_iff in Hz as [Hz _].
    destruct (label_length_small cur l ltac:(lia) Hl) as [Hl63 ->]. destruct (length_byte _ Hl63) as [Hcode _]. rewrite Hcode in Hz. apply Z.eqb_neq in Hz.
    apply (IH (d :: src) false (ls ++ [cur]) [] b w); [assumption|apply Forall_app; split; [assumption|apply Forall_singleton; split; lia]|cbn; lia|].
    rewrite map_app, concat_app. cbn [map concat label_bytes]. rewrite app_nil_r. exact H.
Qed.

(** *** Queries *)
Lemma get16_put16 v : forall a rest, irc_ns_get16 (a ++ irc_ns_put16 v ++ rest) (length a) = Some (w16 v).
Proof.
  intros a rest. unfold irc_ns_get16, irc_ns_put16. rewrite (lookup_app_r a _ (length a)), (lookup_app_r a _ (S (length a))), Nat.sub_succ_l, Nat.sub_diag by lia.
  cbn [app lookup list_lookup mbind option_bind]. pose proof (w16_range v) as Hr. f_equal.
  rewrite code_chr by (rewrite Z.shiftr_div_pow2 by lia; split; [apply Z.div_pos; lia|apply Z.div_lt_upper_bound; lia]).
  assert (code (chr (w16 v)) = w16 v mod 256) as ->.
  { replace (chr (w16 v)) with (chr (w16 v mod 256)) by (unfold chr; by rewrite Zmod_mod). apply code_chr, Z.mod_pos_bound. lia. }
  rewrite lor_shiftl_add by (try lia; apply Z.mod_pos_bound; lia). rewrite Z.shiftr_div_pow2 by lia. change (2 ^ 8) with 256.
  pose proof (Z.div_mod (w16 v) 256). lia.
Qed.

Lemma text_of_head ls : ls <> [] -> Forall label ls -> (deref (text_of ls) =c ".") = false.
Proof.
  intros Hn Hls. destruct ls as [|s l]; [by destruct Hn|]. inversion Hls as [|? ? Hs _]; subst. destruct s as [|c s]; [destruct Hs; simpl in *; lia|].
  cbn [text_of]. unfold escaped. cbn. destruct (escape_head c) as (d & r & -> & Hd). exact Hd.
Qed.

Lemma query_header_length qd : length (query_header qd) = HFIXEDSZ.
Proof. reflexivity. Qed.

(** Packing into a message whose names may not be pointed to. *)
Lemma pack_plain m ls eob size : name ls -> (0 < length m)%nat ->
  exists r, irc_ns_name_pack (wire_of ls) m eob (Some []) size = Some r /\
    (forall m' ptrs, r = Some (m', ptrs) -> m' = m ++ wire_of ls /\ (length m' <= eob)%nat) /\
    ((length m + length (wire_of ls) < eob)%nat -> is_Some r).
Proof.
  intros [Hls Hlen] Hm. unfold irc_ns_name_pack. pose proof (wire_of_length ls) as Hwl.
  pose proof (legal_ok ls Hls (S (length (wire_of ls))) [] 0 ltac:(lia) ltac:(lia)) as Hlegal. rewrite app_nil_r in Hlegal. rewrite Hlegal.
  cbn [mbind option_bind negb].
  destruct (pack_loop_ok m eob (bool_decide (is_Some (Some (A:=list nat) []))) [] size (Forall_nil_2 _) Hm ls Hls (S (length (wire_of ls))) [] None ltac:(lia)) as (res & Hr & Hp).
  rewrite app_nil_r in *. cbn [default from_option id]. rewrite Hr. cbn [mbind option_bind]. eexists. split; [reflexivity|].
  destruct res as [[m' saved]|]; cbn [packs] in Hp; [|split; [discriminate|lia]]. destruct Hp as (ext & ls' & -> & Hle & Hb & _ & _ & Hplain & _).
  rewrite (Hplain eq_refl) in *. split; [|by eexists]. intros ? ? [= <- _]. auto.
Qed.

(** What the resolver reads in a message of the name and of the numbers that
    follow it. *)
Lemma read_question h ls t rest dstsiz : name ls -> (0 < length h)%nat -> (length (text_of ls) < dstsiz)%nat ->
  let m := h ++ wire_of ls ++ t ++ rest in
  irc_dn_expand m (length m) (length h) dstsiz =
    Some (Some (length (wire_of ls), match ls with [] => [] | _ => text_of ls end)).
Proof.
  intros [Hls Hlen] Hh Hd m. pose proof (wire_packed ls Hls h (t ++ rest) (length h)) as Hpk. pose proof (wire_of_pos ls).
  unfold irc_dn_expand, irc_ns_name_uncompress. pose proof (packed_unpacks _ [] _ _ _ Hpk Hh Hlen) as Hu. rewrite app_nil_r in Hu. subst m. rewrite Hu. cbn [mbind option_bind].
  pose proof (ntop_text ls [] dstsiz Hls Hd) as Ht. rewrite app_nil_r in Ht. rewrite Ht. cbn [mbind option_bind].
  replace (length h + length (wire_of ls) - length h)%nat with (length (wire_of ls)) by lia.
  destruct (Nat.ltb_spec 0 (length (wire_of ls))); [|lia]. cbn [andb].
  destruct ls as [|s l] eqn:He; [reflexivity|]. rewrite <- He in *. rewrite text_of_head by (congruence||assumption). reflexivity.
Qed.

(** The query that is made. *)
Lemma mkquery_cases dname class type buflen : has_bits dname false = false ->
  exists r, irc_res_mkquery dname class type buflen = Some r /\
    match r with
    | None =>
        forall b ls, name ls -> irc_ns_name_pton dname NS_MAXCDNAME = Some (Some (b, wire_of ls)) ->
          (buflen <= HFIXEDSZ + length (wire_of ls) + QFIXEDSZ)%nat
    | Some m =>
        exists b ls, name ls /\ irc_ns_name_pton dname NS_MAXCDNAME = Some (Some (b, wire_of ls)) /\
          m = query_header 1 ++ wire_of ls ++ irc_ns_put16 type ++ irc_ns_put16 class /\ (length m <= buflen)%nat
    end.
Proof.
  intros Hn. unfold irc_res_mkquery. destruct (Nat.ltb_spec buflen (HFIXEDSZ + QFIXEDSZ)) as [Hb|Hb].
  { eexists. split; [reflexivity|]. cbn beta iota. intros b ls _ _. lia. }
  unfold irc_dn_comp, irc_ns_name_compress. destruct (pton_total NS_MAXCDNAME (S (length dname)) dname false [] [] ltac:(lia)) as (r & Hr).
  fold (irc_ns_name_pton dname NS_MAXCDNAME) in Hr. rewrite Hr. cbn [mbind option_bind]. destruct r as [[b w]|].
  2: { eexists. split; [reflexivity|]. cbn beta iota. intros b ls _ H. discriminate. }
  destruct (pton_labels NS_MAXCDNAME (S (length dname)) ltac:(lia) dname false [] [] b w Hn (Forall_nil_2 _) ltac:(cbn; lia) Hr) as (ls & Hls & ->).
  destruct (pack_plain (query_header 0) ls (buflen - QFIXEDSZ) 20 Hls) as (res & Hres & Hm & Hroom); [rewrite query_header_length; unfold HFIXEDSZ; lia|].
  rewrite Hres. cbn [mbind option_bind]. rewrite query_header_length in Hroom. unfold QFIXEDSZ in *. destruct res as [[m ptrs]|].
  2: { eexists. split; [reflexivity|]. cbn beta iota. intros b' ls' _ [= _ Heq]. rewrite <- Heq.
       destruct (Nat.ltb_spec (HFIXEDSZ + length (wire_of ls)) (buflen - 4)) as [Hx|]; [by destruct (Hroom Hx)|lia]. }
  destruct (Hm m ptrs eq_refl) as [-> Hle]. eexists. split; [reflexivity|].
  assert (drop HFIXEDSZ (query_header 0 ++ wire_of ls) = wire_of ls) as -> by (rewrite <- (query_header_length 0); apply drop_app_length).
  exists b, ls. split; [exact Hls|]. split; [reflexivity|]. split; [reflexivity|].
  rewrite !length_app in *; rewrite !query_header_length in *; cbn [length irc_ns_put16]; lia.
Qed.

(** C27: making a query always ends and never writes more than the buffer
    holds, when no label of the text is written as a bit string (a bracket
    after a backslash; for these see [ex_bits] and [ex_misplaced], where the
    code goes wrong); what it makes is then read by the resolver's own
    functions as the name the text stands for, then the type and the class of
    the query; it fails only if the text is not the text of a name or there is
    no room for the name. *)
Theorem query_reads_back dname class type buflen : has_bits dname false = false ->
  exists r, irc_res_mkquery dname class type buflen = Some r /\
    match r with
    | None =>
        forall b ls, name ls -> irc_ns_name_pton dname NS_MAXCDNAME = Some (Some (b, wire_of ls)) ->
          (buflen <= HFIXEDSZ + length (wire_of ls) + QFIXEDSZ)%nat
    | Some m =>
        (length m <= buflen)%nat /\
        exists b ls, name ls /\ irc_ns_name_pton dname NS_MAXCDNAME = Some (Some (b, wire_of ls)) /\
          (forall rest dstsiz, (length (text_of ls) < dstsiz)%nat ->
             irc_dn_expand (m ++ rest) (length (m ++ rest)) HFIXEDSZ dstsiz =
               Some (Some (length (wire_of ls), match ls with [] => [] | _ => text_of ls end))) /\
          irc_ns_get16 m (HFIXEDSZ + length (wire_of ls)) = Some (w16 type) /\
          irc_ns_get16 m (HFIXEDSZ + length (wire_of ls) + 2) = Some (w16 class)
    end.
Proof.
  intros Hn. destruct (mkquery_cases dname class type buflen Hn) as (r & Hr & H). exists r. split; [exact Hr|]. destruct r as [m|]; [|exact H].
  destruct H as (b & ls & Hls & Hp & -> & Hle). split; [exact Hle|]. exists b, ls. split; [exact Hls|]. split; [exact Hp|]. split; [|split].
  - intros rest dstsiz Hd. rewrite <- !app_assoc. change HFIXEDSZ with (length (query_header 1)).
    pose proof (read_question (query_header 1) ls (irc_ns_put16 type ++ irc_ns_put16 class) rest dstsiz Hls) as H.
    rewrite <- app_assoc in H. apply H; [rewrite query_header_length; unfold HFIXEDSZ; lia|exact Hd].
  - rewrite <- (query_header_length 1), <- length_app, app_assoc. apply get16_put16.
  - pose proof (get16_put16 class ((query_header 1 ++ wire_of ls) ++ irc_ns_put16 type) []) as H.
    rewrite !length_app, query_header_length, app_nil_r, <- !app_assoc in H. exact H.
Qed.

(** *** Examples *)

(** [www.HISPANO.org] after [irc.hispano.org]: a label and a pointer. *)
Definition ex_second : list (list ascii) := [str "www"; str "HISPANO"; str "org"].
Definition ex_message : list ascii := ex_header ++ wire_of ex_name.

Lemma ex_second_ok : name ex_second.
Proof. split; [repeat constructor; simpl; lia|]. vm_compute. lia. Qed.

Lemma ex_names_ok : names_ok ex_message [12%nat].
Proof. repeat constructor; try lia. exists 29%nat, ex_name. apply (wire_packed ex_name (proj1 ex_name_ok) ex_header []). Qed.

Example ex_second_packed :
  irc_ns_name_pack (wire_of ex_second) ex_message 100 (Some [12%nat]) 20 =
    Some (Some (ex_message ++ chr 3 :: str "www" ++ [chr 0xc0; chr 16], [12; 29]%nat)).
Proof. vm_compute. reflexivity. Qed.

Lemma pack_unpack_witness :
  exists m' ptrs' ls', irc_ns_name_pack (wire_of ex_second) ex_message 100 (Some [12%nat]) 20 = Some (Some (m', ptrs')) /\
    names_ok m' ptrs' /\ same_names ex_second ls' /\
    irc_ns_name_unpack (m' ++ [NUL]) (length (m' ++ [NUL])) 29 NS_MAXCDNAME = Some (Some (6%nat, wire_of ls')).
Proof.
  destruct (pack_unpack ex_message ex_second 100 (Some [12%nat]) 20 ex_second_ok) as (r & Hr & Hok); [vm_compute; lia|apply ex_names_ok|].
  rewrite ex_second_packed in *. injection Hr as <-. destruct Hok as (ext & ls' & He & _ & _ & Hn & Hs & Hu).
  apply (app_inv_head ex_message (chr 3 :: str "www" ++ [chr 0xc0; chr 16]) ext) in He as <-. do 2 eexists. exists ls'. split; [reflexivity|]. split; [exact Hn|]. split; [exact Hs|]. apply (Hu [NUL]).
Defined.

Example ex_query : exists m, irc_res_mkquery (str "irc.hispano.org") 1 28 512 = Some (Some m).
Proof. eexists. vm_compute. reflexivity. Qed.

Lemma query_reads_back_witness :
  exists m ls, irc_res_mkquery (str "irc.hispano.org") 1 28 512 = Some (Some m) /\ name ls /\
    irc_ns_get16 m (HFIXEDSZ + length (wire_of ls)) = Some 28.
Proof.
  destruct ex_query as [m Hm]. destruct (query_reads_back (str "irc.hispano.org") 1 28 512) as (r & Hr & Hok); [reflexivity|].
  rewrite Hm in Hr. injection Hr as <-. destruct Hok as (_ & b & ls & Hn & _ & _ & Ht & _). exists m, ls. auto.
Defined.

(** A bit string in the middle of a label makes what is not a name: packing it
    reads past what was written. *)
Example ex_misplaced : irc_res_mkquery (str "a\[x1]") 1 1 512 = None.
Proof. vm_compute. reflexivity. Qed.
